(* ===== verification/_CoqProject ===== *)
-Q . S2P
Prelude.v
PyStr.v
Dates.v
Money.v
Models.v
PyNum.v
StrFloat.v
TaxFloat.v
PayPeriods.v
Keys.v
Coa.v
Engine.v
EngineInv.v
EngineSpec.v
Triggers.v
Service.v
RulesBase.v
Opening.v
Issuance.v
Payments.v
Adjustments.v
LinesSpec.v
CashBasis.v
RulesSafe.v
RulesSpec.v
Chokepoint.v
InvoiceTotals.v
Estimates.v
EstimateSpec.v
InvoiceGuard.v
MoneyRoutes.v
Deposits.v
Closeouts.v
Billing.v
MoneySpec.v
StripeSpec.v
CreditSpec.v
DepositSpec.v
BillingSpec.v
CloseoutSpec.v
BillingSafe.v
PaymentPlans.v
InvoiceEdits.v
VoidSpec.v
EditSpec.v
HoursSpec.v
DecOrder.v
PricingEngine.v
PricingSpec.v
RouteSafe.v
RollingVolume.v
Quotes.v
QuoteRoutes.v
QuoteSums.v
QuoteSpec.v
QuoteRuns.v
QuoteSafe.v
Reports.v
CashWalk.v
Backfill.v
ArControl.v
Repair.v
BackfillSpec.v
Breaker.v
AuditChain.v
Numbering.v
OpeningBank.v
