(* ===== verification/Prelude.v ===== *)
(** * Verification of the money core of GDX Dispatch

    GDX Dispatch is a field-service platform: jobs, invoices, payments,
    payroll, a web office and mobile clients, over one SQL database per
    company.  Its books are kept by the package
    [src/gdx_dispatch/modules/ledger]; what a customer is quoted is decided by
    the pricing engine and the estimate and tier routes; what a job bills by
    the estimate, closeout and invoice code; and the amounts on invoices are
    kept by the payment, credit and refund routes and the recalculation they
    share.  This development models all four, the guards around them (database
    triggers, flush guard, totals guard, audit chain), and a few core services
    beside them (job numbers, the circuit breaker, pay periods), and proves
    what makes them right.

    ** The program's parts and how they interact

    A money event (an invoice is issued, edited or voided; a payment, refund,
    credit or expense is recorded) reaches the ledger in one of two ways: the
    status chokepoint [transition_invoice_status] runs the posting rule
    registered for the transition, or a route calls a rule directly.  A rule
    ([rules.py]) reads operational rows and settings, builds signed lines in
    integer cents ([money.py]) and hands a [PostingEvent] to the engine
    ([engine.py]).  The engine validates it, resolves roles to accounts
    ([coa.py]), derives an idempotency key from a hash of the content
    ([keys.py]), checks the period lock and inserts a balanced entry; the only
    other way an entry is born is [reverse_entry], which mirrors one.  On
    Postgres, triggers ([ddl.py]) guard the journal against everybody else; a
    flush guard ([guard.py]) guards the invoice status.  Reports
    ([reports.py], [cash_basis.py]) only read.  The cutover backfill
    ([backfill.py]) drives the same rules over history, and [opening.py]
    derives the bank accounts' opening balances from archived statements.

    The routes of [routers/invoices.py] and the Stripe handlers of
    [core/payments.py] write payments and adjustments, then call
    [_recalculate_invoice], which restates the invoice's totals from its lines,
    payments and credits, reposts the issuance and moves a settled invoice to
    paid through the chokepoint.  Session listeners
    ([core/invoice_invariants.py]) refuse a commit whose invoices do not add
    up.  [core/audit.py] chains every audit row to the last one by hash.

    A quote is an estimate with lines, priced from the labor matrix, by the
    pricing engine ([services/pricing_engine.py], over margin tiers the office
    edits in [routers/pricing_admin.py]) or by hand, and optionally with
    good/better/best tiers ([modules/proposals]).  Every write to its lines
    restates its total; the office or the customer, through a public link,
    accepts or declines it, and an acceptance settles the total, makes the job
    and may ask for a deposit ([routers/estimates.py]).

    An invoice is born in one of three ways.  [create_invoice]
    ([routers/invoices.py]) copies an accepted estimate or the lines it is
    given, bills change orders, parts and attested labor, nets the job's
    deposits ([modules/deposits]) and recalculates; a closeout drafts one from
    the hours and parts it attests ([core/closeout_billing.py],
    [core/billing_lanes.py]); a deposit asks for part of an estimate.  All
    three read the tax rate of the job's lane ([modules/tax],
    [core/job_taxonomy.py]), and work is stamped with the invoice that bills it
    before it is priced.  Until it is issued an invoice is a draft whose header
    and lines the office edits; a draft must be verified before it is sent; a
    payment plan schedules what an issued one still owes; and a deletion or a
    void ([core/invoice_void.py]) gives the work back.

    ** Which file models what

    - [Prelude]: the result type, the state-and-error monad [M] with its
      notation and inversion tactics, sums, and list lemmas.
    - [PyStr], [Dates], [PyNum]: the Python strings, dates, decimals (in the
      28-digit context) and binary64 floats the code uses; SQL [LIKE].
      [StrFloat], [TaxFloat]: the text of a float and the error of the
      products taxes are made of.
    - [Money]: [money.py] ([to_cents], [allocate]) with [Decimal] and
      [Fraction] as those functions use them.
    - [Models]: [models.py] and the invoice, line, payment, adjustment and
      expense rows of [models/tenant_models.py], as records; [Db] is the whole
      database, [Gl] the ledger's tables, [Ops] the rest.  The class [World]
      holds what is not in the repository: the SHA-256 digest and the
      time-zone database; [WorldOk] states that a digest is 64 characters of
      hexadecimal text, which is all the proofs use of it.
    - [PayPeriods]: [core/pay_periods.py], including the shop's calendar day
      that dates entries.
    - [Keys], [Coa], [Engine]: [keys.py], [coa.py], [engine.py], one
      definition per function, under the function's name.
    - [EngineInv], [EngineSpec]: the journal invariant [ledger_ok], the step
      relation [engine_steps] and what the engine promises.
    - [Triggers]: [ddl.py]: trigger functions, a statement executor that fires
      them, and that the engine's writes are accepted.
    - [Service]: [service.py] (settings, maps, the master switch) and
      [core/expense_categories.py].
    - [RulesBase], [Opening], [Issuance], [Payments], [Adjustments]:
      [rules.py], by group of rules.
    - [LinesSpec]: what the lines of each rule add up to.  [RulesSafe]: every
      rule keeps the invariant.  [RulesSpec]: event streams, reposting,
      one-shot events, the settlement of an opening balance.
    - [Chokepoint]: [transition_invoice_status] of [service.py], [guard.py],
      and the ledger part of [core/invoice_void.py].  A [Session] adds to
      the database what lives in the process: stamps, their registry, the flag
      cache, staged events; a posting rule that flushes runs the guard
      ([on_ledger]).
    - [InvoiceTotals]: [_recalculate_invoice] and its helpers
      ([routers/invoices.py]), [core/invoice_tax.py], [check_invoice]
      ([core/invoice_invariants.py]).  [InvoiceGuard]: that file's listeners,
      as a step relation on a session with savepoints.
    - [Estimates]: [core/job_taxonomy.py], [modules/tax/service.py],
      [modules/proposals/totals.py] and the contract lines of a tier
      ([modules/proposals/service.py]); [Sales] are the tables they read.
      [EstimateSpec]: what an estimate shows.
    - [Deposits]: [modules/deposits/service.py] and the invoice numbers of
      [core/closeout_billing.py].  [DepositSpec]: netting.
    - [Closeouts]: [core/closeout_billing.py], [core/billing_lanes.py],
      [core/closeouts.py], [core/quantities.py]; [Work] are the tables that
      carry stamps, [Office] the session with [Sales] and [Work].
      [CloseoutSpec]: hours and labor lines.
    - [Billing]: [create_invoice] with its request model, the double-billing
      guard ([core/billing_predicates.py]), the zero-price policy
      ([modules/catalog_policy]) and the pricing lanes
      ([core/pricing_provenance.py]).  [BillingSpec]: what it bills;
      [BillingSafe]: what it and the autodraft claim, against the class
      [Stamped] of rows one invoice bills.
    - [PaymentPlans]: the plan and installment rows
      ([models/tenant_models.py]) and the plan routes of
      [routers/invoices.py]; a [Desk] is the office with the plans.
    - [InvoiceEdits]: the routes that edit, delete, verify, finalize and send
      an invoice ([routers/invoices.py], [core/invoice_delivery.py], the
      margins of [core/pricing_provenance.py]), and the whole [void_invoice].
      [EditSpec]: what an edit does; [VoidSpec]: what a void gives back and
      what it does to plans; [HoursSpec]: hours are held only where billed.
    - [MoneyRoutes]: [record_payment], [void_payment], [issue_credit_memo],
      [apply_customer_credit], [process_refund] ([routers/invoices.py]) and the
      reversals of [core/payments.py].  [MoneySpec], [CreditSpec],
      [StripeSpec]: what they do to the invoice and its rows.  [RouteSafe]: any
      sequence of them keeps the ledger.
    - [RollingVolume]: [services/customer_rolling_volume.py].
    - [PricingEngine]: [services/pricing_engine.py], its tables and starter
      rows ([models/pricing_engine.py]) and their editor
      ([routers/pricing_admin.py]); a [PricingBook] holds the tables.
      [DecOrder]: decimals as ordered numbers and as rationals.
      [PricingSpec]: what the engine promises.
    - [Quotes]: the tier service [modules/proposals/service.py] and the
      lookups of [routers/estimates.py]; a [QuoteDesk] is the office with the
      quoting columns, the pricing tables and the settings.  [QuoteRoutes]: the
      routes of [routers/estimates.py] that change an estimate and the
      customer's link of [modules/proposals/router.py].  [QuoteSums]: sums and
      products of cents through floats.  [QuoteSpec]: the invariant [adds_up],
      the relation [change] and [contract]; [QuoteRuns]: every request is a run
      of changes; [QuoteSafe]: what follows for sequences of requests.
    - [CashBasis], [Reports], [CashWalk], [ArControl]: [cash_basis.py] and
      [reports.py].
    - [Backfill], [Repair], [BackfillSpec]: [backfill.py].
    - [OpeningBank]: [opening.py] and the statement rows it reads.
    - [AuditChain]: [core/audit.py]: the writer under its tip lock and both
      verifiers.
    - [Numbering]: [modules/numbering/service.py].  [Breaker]:
      [core/circuit_breaker.py], each operation a program of Redis commands.

    An operation that reads and writes is a function of the [Db] (or the
    [Session]) returning a result and the new state, also when it fails, so
    that partial writes before an exception are visible; a read-only
    computation that can raise returns [result].  Exceptions are the values of
    [exn], named after the Python classes.  A savepoint is a write that
    happens whole or not at all.

    ** What the theorems show

    - The engine ([EngineSpec]): the outcomes of a posting on every branch
      ([post_for_event_outcomes]), the invariant of every reachable journal
      ([reachable_ledger_ok]), safety with concurrent writers
      ([post_racing_safe]), reversal ([reverse_entry_undoes]), replay and
      reposting ([post_for_event_replay], [repost_after_reversal]).  [Keys]:
      idempotency keys are injective, selected exactly by the sequence count,
      and independent of field order.
    - The database's own guard ([Triggers]): what the triggers force on
      anybody, and that they accept the engine's writes.
    - The rules: soundness of any sequence of them
      ([rules_preserve_ledger]); exact amounts on the receivable, tax,
      rounding, credit and cash accounts ([LinesSpec]); one live entry per
      document, one-shot postings, the settlement of an opening balance
      ([RulesSpec]).  [refund_overpayment_gap] records a disagreement between
      the two computations of an overpayment.
    - The chokepoint ([transition_outcomes]: the stamp of a transition is
      spent when its posting rule flushes, and waits for the next flush
      otherwise), the guard and the void ([Chokepoint]).
    - The reports: zero proofs and articulation ([Reports]), cash-basis
      recognition ([CashBasis], [CashWalk]), the tie of the receivable
      ([ArControl]).
    - The backfill: safety and re-running ([BackfillSpec]); the repair of
      duplicates never overshoots an invoice's drift ([Repair]).
    - The invoice: the recalculation is exact to the cent although it runs
      partly in floats ([recalculate_exact]), and so is the tax share of a
      credit ([credit_tax_exact]); the totals guard keeps every committed
      invoice adding up ([guard_enforces_totals]).
    - Billing: what an estimate shows is the quote to the cent
      ([estimate_totals_exact]) and an accepted estimate is billed as quoted
      ([billed_as_quoted]: without deposits, with a discount within its
      subtotal and no tax override); deposits are netted exactly and once
      ([deposits_netted], [deposits_netted_once], [deposit_superseded]);
      labor lines bill the attested hours at the rates ([labor_lines_exact]),
      a restated closeout never bills more than the largest figure attested
      ([restated_hours_billed_once]), and neither [create_invoice] nor the
      autodraft takes work from another invoice or stamps what it does not
      bill ([work_billed_once], [autodraft_claims_what_it_bills]).
      [half_cent_lost], [refunded_deposit_netted],
      [over_discount_billed_negative], [parts_stamped_unbilled] and
      [draft_tax_rounds_to_even] record where the code parts from that.
    - Editing: an edit is refused without a trace or touches one live draft,
      an unlocked one if it is an edit of a line
      ([edits_need_an_open_draft]), prices the line ([edited_line_priced]) and
      leaves the header equal to the lines ([edits_settle_the_header]);
      nothing unverified is sent ([sent_only_if_verified]) and verification
      accounts for the job's parts ([verification_accounts_for_parts]).  A
      void frees exactly what the invoice held ([void_gives_back]), so billing
      and voiding restore the work ([bill_then_void_restores_work]), and over
      any history hours are held only by invoices that bill hours
      ([held_hours_stay_billed]).  [description_edit_reprices],
      [tax_override_lost] and [locked_header_edited] record where the routes
      part from their comments.
    - Payment plans schedule exactly what is owed
      ([plan_schedules_what_is_owed]), show the money that arrived
      ([plan_shows_money_that_arrived]) and are at most one per invoice
      ([one_active_plan]); [zero_cent_installments] and
      [superseded_deposit_keeps_plan] record two exceptions.
    - Pricing: a cost is priced when a saved tier covers it and refused when
      none does, or when the column rounded the tier's margin up to the whole
      ([cost_priced_iff_covered]); a price keeps the margin asked for
      ([price_keeps_margin]) and an estimate's subtotals are exact far below a
      cent ([estimate_priced_exact]); [gap_saved] and [whole_margin_saved]
      record what the editor lets through.
    - Quoting: estimates and tiers add up after any sequence of requests
      ([quotes_add_up]), what a customer accepted stands
      ([accepted_contract_stands]) and a new line is priced to the cent
      ([added_line_exact]); [create_and_add_disagree] and
      [second_tier_accept_rewrites] record two exceptions.
    - The routes: a payment is all or nothing ([record_payment_outcomes]),
      moves the balance by exactly its amount ([record_payment_exact]) and is
      undone by its void ([record_void_roundtrip]); credits stay within the
      balance ([credit_exact]) and refunds within the payments
      ([refund_within_payments]); Stripe events act once ([reversal_once]) and
      a won dispute restores the payment ([dispute_roundtrip]); none of them
      harms the ledger ([money_routes_keep_ledger]).
    - The opening ([OpeningBank]): the proposal rests on the longest contiguous
      chain of statements, applying it opens the books at the reviewed date
      and keeps the journal sound.
    - The audit log ([AuditChain]): what the writer writes is one chain, which
      the walk accepts when no unchained row is in between and the report
      accepts anyway ([audit_log_verifies]); deletions and changes are
      detected; [scoped_false_alarm] records that the scoped
      walk can report tampering on an intact log.
    - Job numbers are never handed out twice, over years that the template
      tells apart ([job_numbers_unique]; two-digit years repeat after a
      century, [yy_format_collides]); the circuit breaker
      refines its three-state machine and recovers ([Breaker]), and
      [half_open_admits_many] records that half-open admits more than one probe.
      [voids_still_counted] ([RollingVolume]) records that a voided payment
      still counts as volume.
    - Money ([allocate_fair], [to_cents_nearest]), the chart and the settings
      ([Coa], [Service]), pay periods ([PayPeriods]).

    ** Fuel and bounds

    [post_attempts] has the source's own bound, [_MAX_KEY_ATTEMPTS] = 5, and
    raises the source's error when it is exhausted; without concurrent writers
    [post_for_event_outcomes] shows that the first attempt settles.  [allocate_rec] has fuel 2: the
    source calls itself once, on the absolute value of a negative total.
    [first_free_seq] scans at most the source's [_MAX_SKIPS] candidates;
    [do_markup] (template fields of a job number) has the template's length as
    fuel, and every round consumes a character; [next_free_code] has one more
    than the number of accounts, enough to pass every taken code; [ilog10] the
    bit length of its argument plus one, enough since every round divides by
    ten ([ilog10_fuel_spec]); [shortest] tries up to 17 digits, which identify
    any binary64 float, and otherwise gives the exact decimal;
    [restated_run] has one more than the number of closeouts, enough since the
    walk stops at a closeout it has seen ([chain_run]); [first_unused] the
    number of suffixes in use, of which one is passed per round.
    Every other recursion is structural.  Cents are Python integers, hence
    [Z].  [to_cents] models the 28-digit decimal context it runs in.
    Identifiers are 128-bit numbers drawn from a counter; [supply_ok] says the
    counter has not run out.  Where a theorem compares a float computation
    with exact cents it bounds the inputs: amounts below a million dollars and
    at most 25 labor lines ([estimate_totals_exact]), at most fifty deposits
    ([deposits_netted]), fewer than ten thousand hours and a crew of at most a
    thousand ([sane_hours]), 400 lines an estimate priced by the engine
    ([estimate_priced_exact]), 10^15 rows a line table of the quotes ([roomy];
    below that the sums of a 28-digit context are exact).

    ** What is not modelled

    Log lines; exception texts; the widths of text columns; dates beyond Python's range;
    the rounding of an invoice's [Numeric(12, 2)] columns at a flush
    ([write_row] of [InvoiceGuard] stores what it is given); the flushes and the commit of the request handlers, as far as
    stamps are concerned; the second reading of the clock within one protected
    call of the circuit breaker when it runs alone ([breaker_refines]; the
    interleavings of [breaker_store_typed] and [breaker_recovers] read it at
    each command);
    the order in which the database returns rows without ORDER BY is the order
    of insertion.  Of [reports.py], the completeness footnote and the journal
    browser; of the routes, what follows the commit (audit row,
    queueing the intent sweep, the response) and the office alerts; of
    [core/audit.py], the DDL of the append-only guard; of [create_invoice], the
    due date, photos, display flag and the cost and margin columns; of the
    edits, the version token, notes and photos; of
    [core/closeout_billing.py], the credit suggested for a restatement.
    Autodrafts are not steps of [held_hours_stay_billed].  Of the estimates,
    titles, notes and the other texts, the version token, leads, webhooks and
    notifications, the binding of a jobsite, the plugin data of a line, the
    tier's [includes_parts], emailing and the PDF, the quoting screens of the
    mobile client and the portal; of the pricing settings, the labor rates and
    the line template.  Scheduling, mail, integrations with outside services,
    and the clients are outside this core. *)

From stdpp Require Export base tactics numbers option list strings gmap.
From Stdlib Require Export ZArith Lia Permutation.

(** * Python exceptions and the result of a pure computation *)

(** The exception classes the modelled code raises or catches.  Message texts
    are not modelled. *)
Inductive exn : Type :=
  | TypeError | ValueError | AttributeError | ArithmeticError | RuntimeError | IntegrityError
  | LedgerConfigError | UnbalancedEntryError | PeriodLockedError
  | IssuanceCompositionError | ExpenseCompositionError
  | ChokepointBypassError | PayPeriodUnconfigured
  | RaiseException | CircuitOpenError | HTTPException (status_code : Z) | UserError
  | ResponseError | OpeningDerivationError | NumberingExhausted | KeyError | IndexError
  | DepositError (code : string) | PricingConfigError | InvoiceTotalsInvariantError | MultipleResultsFound
  | DataError.

#[export] Instance exn_eq_dec : EqDecision exn.
Proof. solve_decision. Defined.

Inductive result (A : Type) : Type :=
  | Ok (a : A)
  | Err (e : exn).
Arguments Ok {A} a.
Arguments Err {A} e.

#[export] Instance result_eq_dec {A} `{EqDecision A} : EqDecision (result A).
Proof. solve_decision. Defined.

Definition rbind {A B} (r : result A) (k : A -> result B) : result B :=
  match r with Ok a => k a | Err e => Err e end.

(** * Stateful code: the state survives an exception, as in Python *)

Definition M (S A : Type) : Type := S -> result A * S.

Definition mreturn {S A} (a : A) : M S A := fun s => (Ok a, s).
Definition mraise {S A} (e : exn) : M S A := fun s => (Err e, s).
Definition mlift {S A} (r : result A) : M S A := fun s => (r, s).
Definition mreads {S A} (f : S -> A) : M S A := fun s => (Ok (f s), s).
Definition mwrite {S} (f : S -> S) : M S unit := fun s => (Ok tt, f s).

Definition mseq {S A B} (m : M S A) (k : A -> M S B) : M S B :=
  fun s => match m s with
           | (Ok a, s') => k a s'
           | (Err e, s') => (Err e, s')
           end.

(** [try: m / except e: h], catching one exception class. *)
Definition mcatch {S A} (m : M S A) (e : exn) (h : M S A) : M S A :=
  fun s => match m s with
           | (Err e', s') => if decide (e' = e) then h s' else (Err e', s')
           | r => r
           end.

(** [for x in xs: body x] *)
Fixpoint mfor {S A} (xs : list A) (body : A -> M S unit) : M S unit :=
  match xs with
  | [] => mreturn tt
  | x :: xs' => mseq (body x) (fun _ => mfor xs' body)
  end.

(** A loop that threads local variables. *)
Fixpoint mfold {S A B} (body : B -> A -> M S B) (acc : B) (xs : list A) : M S B :=
  match xs with
  | [] => mreturn acc
  | x :: xs' => mseq (body acc x) (fun acc' => mfold body acc' xs')
  end.

(** [try: m], the exception kept as a value for the [except] clauses. *)
Definition mtry {S A} (m : M S A) : M S (result A) :=
  fun s => let '(r, s') := m s in (Ok r, s').

(** [[f(x) for x in xs]] *)
Fixpoint mmap {S A B} (f : A -> M S B) (xs : list A) : M S (list B) :=
  match xs with
  | [] => mreturn []
  | x :: xs' =>
      mseq (f x) (fun y => mseq (mmap f xs') (fun ys => mreturn (y :: ys)))
  end.

Fixpoint rmap {A B} (f : A -> result B) (xs : list A) : result (list B) :=
  match xs with
  | [] => Ok []
  | x :: xs' =>
      rbind (f x) (fun y => rbind (rmap f xs') (fun ys => Ok (y :: ys)))
  end.

(** A loop that carries an accumulator and may raise. *)
Fixpoint rfold {A B} (f : B -> A -> result B) (acc : B) (l : list A) : result B :=
  match l with [] => Ok acc | x :: l' => rbind (f acc x) (fun acc' => rfold f acc' l') end.

Declare Scope gdx_scope.
Delimit Scope gdx_scope with gdx.
Notation "x <- m ;; k" := (mseq m (fun x => k))
  (at level 100, m at next level, right associativity) : gdx_scope.
Notation "m ;;; k" := (mseq m (fun _ => k))
  (at level 100, right associativity) : gdx_scope.
Notation "'let!' x := r 'in' k" := (rbind r (fun x => k))
  (at level 100, x name, r at level 99, right associativity) : gdx_scope.
Open Scope gdx_scope.

Lemma rbind_Ok {A B} (r : result A) (k : A -> result B) b :
  rbind r k = Ok b <-> exists a, r = Ok a /\ k a = Ok b.
Proof. destruct r; simpl; naive_solver. Qed.

Lemma mseq_run {S A B} (m : M S A) (k : A -> M S B) s a s' : m s = (Ok a, s') -> mseq m k s = k a s'.
Proof. unfold mseq. by intros ->. Qed.

Lemma mseq_Ok {S A B} (m : M S A) (k : A -> M S B) s b s' :
  mseq m k s = (Ok b, s') <->
  exists a s1, m s = (Ok a, s1) /\ k a s1 = (Ok b, s').
Proof. unfold mseq. destruct (m s) as [[a|e] s1]; naive_solver. Qed.

Lemma mseq_Err {S A B} (m : M S A) (k : A -> M S B) s e s' :
  mseq m k s = (Err e, s') <->
  m s = (Err e, s') \/ exists a s1, m s = (Ok a, s1) /\ k a s1 = (Err e, s').
Proof. unfold mseq. destruct (m s) as [[a|e'] s1]; naive_solver. Qed.

(** [minv H]: invert every success/return equation built from the monad. *)
Ltac minv_base H :=
  lazymatch type of H with
  | mreturn _ _ = _ => unfold mreturn in H; simplify_eq
  | mraise _ _ = _ => unfold mraise in H; simplify_eq
  | mlift _ _ = _ => unfold mlift in H; simplify_eq
  | mreads _ _ = _ => unfold mreads in H; simplify_eq
  | mwrite _ _ = _ => unfold mwrite in H; simplify_eq
  end.
Ltac minv_step H :=
  lazymatch type of H with
  | mseq _ _ _ = (Ok _, _) =>
      let a := fresh "a" in let s := fresh "d" in let H1 := fresh H in
      apply mseq_Ok in H as (a & s & H1 & H); try minv_base H1
  | rbind _ _ = Ok _ =>
      let a := fresh "a" in let H1 := fresh H in
      apply rbind_Ok in H as (a & H1 & H)
  | Ok _ = Ok _ => simplify_eq
  | Err _ = Ok _ => discriminate H
  | Ok _ = Err _ => discriminate H
  | _ => minv_base H
  end.
Ltac minv H := repeat minv_step H.

(** A computation that only reads leaves the state as it found it. *)
Definition reads_only {S A} (m : M S A) : Prop := forall s, snd (m s) = s.

(** A computation that keeps a relation between the states before and after,
    whatever its outcome. *)
Definition keeps {S A} (R : S -> S -> Prop) (m : M S A) : Prop :=
  forall s, R s (snd (m s)).

Section Keeps.
Context {S : Type} (R : S -> S -> Prop) `{!PreOrder R}.

Lemma keeps_return {A} (a : A) : keeps R (mreturn a).
Proof. intros s; simpl; reflexivity. Qed.
Lemma keeps_raise {A} e : keeps R (@mraise S A e).
Proof. intros s; simpl; reflexivity. Qed.
Lemma keeps_lift {A} (r : result A) : keeps R (mlift r).
Proof. intros s; simpl; reflexivity. Qed.
Lemma keeps_reads {A} (f : S -> A) : keeps R (mreads f).
Proof. intros s; simpl; reflexivity. Qed.

Lemma keeps_seq {A B} (m : M S A) (k : A -> M S B) :
  keeps R m -> (forall a, keeps R (k a)) -> keeps R (mseq m k).
Proof.
  intros Hm Hk s. unfold mseq. specialize (Hm s).
  destruct (m s) as [[a|e] s1]; simpl in *; [|done].
  etrans; [done|]. apply Hk.
Qed.

Lemma keeps_catch {A} (m : M S A) e h :
  keeps R m -> keeps R h -> keeps R (mcatch m e h).
Proof.
  intros Hm Hh s. unfold mcatch. specialize (Hm s).
  destruct (m s) as [[a|e'] s1]; simpl in *; [done|].
  case_decide; [|done]. etrans; [done|]. apply Hh.
Qed.

Lemma keeps_for {A} (xs : list A) body :
  (forall x, x ∈ xs -> keeps R (body x)) -> keeps R (mfor xs body).
Proof.
  induction xs as [|x xs IH]; intros Hb; simpl; [apply keeps_return|].
  apply keeps_seq; [apply Hb; set_solver|]. intros _. apply IH. set_solver.
Qed.

Lemma keeps_fold {A B} (body : B -> A -> M S B) acc xs :
  (forall b x, keeps R (body b x)) -> keeps R (mfold body acc xs).
Proof.
  intros Hb. revert acc. induction xs as [|x xs IH]; intros acc; simpl; [apply keeps_return|].
  apply keeps_seq; [done|]. intros b. apply IH.
Qed.

Lemma keeps_try {A} (m : M S A) : keeps R m -> keeps R (mtry m).
Proof. intros H s. unfold mtry. specialize (H s). by destruct (m s). Qed.

Lemma keeps_map {A B} (f : A -> M S B) xs :
  (forall x, keeps R (f x)) -> keeps R (mmap f xs).
Proof.
  intros Hf. induction xs as [|x xs IH]; simpl; [apply keeps_return|].
  apply keeps_seq; [done|]. intros y. apply keeps_seq; [done|].
  intros ys. apply keeps_return.
Qed.
End Keeps.

Create HintDb keeps.
#[export] Hint Resolve keeps_return keeps_raise keeps_lift keeps_reads
  keeps_seq keeps_catch keeps_for keeps_map : keeps.

(** * Sums of integers *)

Fixpoint zsum (l : list Z) : Z :=
  match l with [] => 0%Z | x :: l' => (x + zsum l')%Z end.

Abbreviation zsum_of f l := (zsum (map f l)).

Lemma zsum_app l1 l2 : zsum (l1 ++ l2) = (zsum l1 + zsum l2)%Z.
Proof. induction l1; simpl; lia. Qed.

Lemma zsum_opp l : zsum (map Z.opp l) = (- zsum l)%Z.
Proof. induction l; simpl; lia. Qed.

Lemma zsum_of_opp {A} (f : A -> Z) l :
  zsum_of (fun x => - f x)%Z l = (- zsum_of f l)%Z.
Proof. induction l; simpl; lia. Qed.

Lemma zsum_of_add {A} (f g : A -> Z) l :
  zsum_of (fun x => f x + g x)%Z l = (zsum_of f l + zsum_of g l)%Z.
Proof. induction l; simpl; lia. Qed.

Lemma zsum_of_sub {A} (f g : A -> Z) l :
  zsum_of (fun x => f x - g x)%Z l = (zsum_of f l - zsum_of g l)%Z.
Proof. induction l; simpl; lia. Qed.

Lemma zsum_perm l1 l2 : Permutation l1 l2 -> zsum l1 = zsum l2.
Proof. induction 1; simpl; lia. Qed.

Lemma zsum_replicate n x : zsum (replicate n x) = (Z.of_nat n * x)%Z.
Proof. induction n; simpl; lia. Qed.

Lemma zsum_filter_split {A} (p : A -> bool) (f : A -> Z) l :
  (zsum_of f (List.filter p l) + zsum_of f (List.filter (fun x => negb (p x)) l))%Z
  = zsum_of f l.
Proof. induction l as [|x l IH]; simpl; [done|]. destruct (p x); simpl; lia. Qed.

Lemma zsum_nonneg l : Forall (fun x => 0 <= x)%Z l -> (0 <= zsum l)%Z.
Proof. induction 1; simpl; lia. Qed.

Lemma zsum_of_ext {A} (f g : A -> Z) l :
  (forall x, x ∈ l -> f x = g x) -> zsum_of f l = zsum_of g l.
Proof.
  induction l as [|x l IH]; intros H; simpl; [done|].
  rewrite (H x), IH; set_solver.
Qed.

#[export] Instance zsum_Permutation : Proper (Permutation ==> eq) zsum.
Proof. intros ?? H. by apply zsum_perm. Qed.

(** * Boolean list scans: the WHERE clauses of the modelled queries *)


Lemma filter_none {A} (p : A -> bool) l :
  (forall x, x ∈ l -> p x = false) -> List.filter p l = [].
Proof.
  induction l as [|x l IH]; intros H; simpl; [done|].
  rewrite (H x) by set_solver. apply IH. set_solver.
Qed.

Lemma filter_all {A} (p : A -> bool) l :
  (forall x, x ∈ l -> p x = true) -> List.filter p l = l.
Proof.
  induction l as [|x l IH]; intros H; simpl; [done|].
  rewrite (H x) by set_solver. f_equal. apply IH. set_solver.
Qed.

Lemma elem_of_filter_b {A} (p : A -> bool) l x :
  x ∈ List.filter p l <-> x ∈ l /\ p x = true.
Proof. by rewrite !list_elem_of_In, filter_In. Qed.

Lemma find_some_elem {A} (p : A -> bool) l x :
  List.find p l = Some x -> x ∈ l /\ p x = true.
Proof. intros H. apply find_some in H. by rewrite list_elem_of_In. Qed.

Lemma find_none_elem {A} (p : A -> bool) l :
  List.find p l = None <-> forall x, x ∈ l -> p x = false.
Proof.
  split.
  - intros H x. rewrite list_elem_of_In. by apply find_none.
  - intros H. destruct (List.find p l) as [x|] eqn:E; [|done].
    apply find_some_elem in E as [? ?]. naive_solver congruence.
Qed.

Lemma find_app_b {A} (p : A -> bool) l1 l2 :
  List.find p (l1 ++ l2) =
  match List.find p l1 with Some x => Some x | None => List.find p l2 end.
Proof. induction l1 as [|x l1 IH]; simpl; [done|]. by destruct (p x). Qed.

Lemma existsb_elem {A} (p : A -> bool) l :
  existsb p l = true <-> exists x, x ∈ l /\ p x = true.
Proof. rewrite existsb_exists. by setoid_rewrite list_elem_of_In. Qed.

Lemma forallb_elem {A} (p : A -> bool) l :
  forallb p l = true <-> forall x, x ∈ l -> p x = true.
Proof. rewrite forallb_forall. by setoid_rewrite list_elem_of_In. Qed.

(** Updating the rows that satisfy [p], as an ORM attribute write does. *)
Definition update_where {A} (p : A -> bool) (f : A -> A) (l : list A) : list A :=
  map (fun x => if p x then f x else x) l.

Lemma elem_of_update_where {A} (p : A -> bool) (f : A -> A) l y :
  y ∈ update_where p f l <->
  exists x, x ∈ l /\ y = (if p x then f x else x).
Proof.
  unfold update_where. rewrite list_elem_of_In, in_map_iff.
  split; intros (x & H1 & H2).
  - exists x. rewrite list_elem_of_In. done.
  - exists x. rewrite <- list_elem_of_In. done.
Qed.

Lemma NoDup_map_inj {A B} (f : A -> B) l x y :
  NoDup (map f l) -> x ∈ l -> y ∈ l -> f x = f y -> x = y.
Proof.
  intros Hnd Hx Hy E. apply list_elem_of_lookup in Hx as [i Hi], Hy as [j Hj].
  assert (i = j) as ->; [|congruence].
  eapply (NoDup_lookup (map f l)); [done| |].
  - rewrite list_lookup_fmap, Hi. reflexivity.
  - rewrite list_lookup_fmap, Hj. simpl. by rewrite E.
Qed.

Lemma elem_of_map_b {A B} (f : A -> B) l y : y ∈ map f l <-> exists x, x ∈ l /\ f x = y.
Proof.
  rewrite list_elem_of_In, in_map_iff. setoid_rewrite list_elem_of_In. firstorder.
Qed.

Lemma NoDup_snoc_map {A B} (f : A -> B) l x :
  NoDup (map f l) -> (forall y, y ∈ l -> f y <> f x) -> NoDup (map f (l ++ [x])).
Proof.
  intros Hl Hx. rewrite map_app. apply NoDup_app. split_and!; [done| |apply NoDup_singleton].
  intros y (z & Hz & E)%elem_of_map_b Hy%list_elem_of_singleton. apply (Hx z Hz). congruence.
Qed.

Lemma update_where_map {A B} (p : A -> bool) (f : A -> A) (g : A -> B) l :
  (forall x, g (f x) = g x) -> map g (update_where p f l) = map g l.
Proof.
  intros H. unfold update_where. rewrite map_map. apply map_ext. intros x. by destruct (p x).
Qed.

(** A sum over rows is the sum over the groups of a key. *)
Lemma zsum_add_at (g : N -> Z) ids k v :
  NoDup ids -> k ∈ ids ->
  zsum (map (fun i => if N.eqb k i then v + g i else g i)%Z ids) = (v + zsum (map g ids))%Z.
Proof.
  intros Hnd. revert k. induction Hnd as [|i ids Hi Hnd IH]; intros k Hk; [set_solver|].
  cbn [map zsum]. destruct (N.eqb_spec k i) as [->|Hne].
  - assert (map (fun j => if N.eqb i j then v + g j else g j)%Z ids = map g ids) as ->; [|lia].
    apply map_ext_in. intros j Hj%list_elem_of_In. rewrite (proj2 (N.eqb_neq i j)); [done|].
    by intros ->.
  - apply elem_of_cons in Hk as [->|Hk]; [done|]. rewrite IH by done. lia.
Qed.

Lemma zsum_partition {A} (key : A -> N) (f : A -> Z) ids l :
  NoDup ids -> (forall x, x ∈ l -> key x ∈ ids) ->
  zsum_of f l = zsum (map (fun i => zsum_of f (List.filter (fun x => N.eqb (key x) i) l)) ids).
Proof.
  intros Hnd. induction l as [|x l IH]; intros Hk; cbn [map zsum List.filter].
  - clear. induction ids; simpl; [done|lia].
  - rewrite IH by (intros; apply Hk; by apply list_elem_of_further).
    rewrite <- (zsum_add_at _ ids (key x) (f x)) by (try apply Hk; by try apply list_elem_of_here).
    f_equal. apply map_ext. intros i. by destruct (N.eqb (key x) i).
Qed.

(** * Stable sorting *)

Section Sort.
Context {A : Type} (before : A -> A -> bool).   (** [not key(y) < key(x)] *)

Fixpoint sort_insert (x : A) (l : list A) : list A :=
  match l with
  | [] => [x]
  | y :: l' => if before x y then x :: l else y :: sort_insert x l'
  end.

Definition stable_sort (l : list A) : list A := foldr sort_insert [] l.

Lemma sort_insert_perm x l : Permutation (sort_insert x l) (x :: l).
Proof.
  induction l as [|y l IH]; cbn; [done|]. destruct (before x y); [done|].
  rewrite IH. apply perm_swap.
Qed.

Lemma stable_sort_perm l : Permutation (stable_sort l) l.
Proof. induction l as [|x l IH]; [done|]. cbn. rewrite sort_insert_perm. by constructor. Qed.

(** In order, each element with its successor. *)
Fixpoint ordered (l : list A) : Prop :=
  match l with
  | x :: (y :: _) as l' => before x y = true /\ ordered l'
  | _ => True
  end.

Lemma sort_insert_ordered x l :
  (forall x y, before x y = false -> before y x = true) -> ordered l -> ordered (sort_insert x l).
Proof.
  intros Htot. induction l as [|y l IH]; intros Hl; [done|]. cbn [sort_insert].
  destruct (before x y) eqn:E; [done|]. apply Htot in E.
  destruct l as [|z l]; [done|]. destruct Hl as [Hyz Hl]. specialize (IH Hl).
  cbn [sort_insert] in *. by destruct (before x z).
Qed.

Lemma stable_sort_ordered l :
  (forall x y, before x y = false -> before y x = true) -> ordered (stable_sort l).
Proof. intros Htot. induction l as [|x l IH]; [done|]. by apply sort_insert_ordered. Qed.

Lemma stable_sort_id l : ordered l -> stable_sort l = l.
Proof.
  induction l as [|x l IH]; intros Hl; [done|].
  destruct l as [|y l]; [done|]. destruct Hl as [Hxy Hl].
  change (sort_insert x (stable_sort (y :: l)) = x :: y :: l). rewrite IH by done.
  cbn. by rewrite Hxy.
Qed.
End Sort.

Lemma stable_sort_map {A B} (bA : A -> A -> bool) (bB : B -> B -> bool) (f : A -> B) l :
  (forall x y, bB (f x) (f y) = bA x y) ->
  stable_sort bB (map f l) = map f (stable_sort bA l).
Proof.
  intros H. induction l as [|x l IH]; [done|].
  change (sort_insert bB (f x) (stable_sort bB (map f l)) = map f (sort_insert bA x (stable_sort bA l))).
  rewrite IH. generalize (stable_sort bA l). clear IH l. intros l.
  induction l as [|y l IH]; [done|]. cbn. rewrite H. destruct (bA x y); [done|]. cbn. by rewrite IH.
Qed.

Ltac case_if := let E := fresh "E" in
  match goal with
  | |- context [if ?b then _ else _] => destruct b eqn:E
  | H : context [if ?b then _ else _] |- _ => destruct b eqn:E
  end.
