(* ===== verification/PyStr.v ===== *)
(** Python strings as the ledger uses them: [lower], [strip], [replace], the
    SQL [LIKE] operator with and without an escape character, the text form of
    a UUID and its parser.  A Rocq [string] stands for a Python [str] whose
    code points are below 256 (Latin-1), one [ascii] per code point. *)

From S2P Require Import Prelude.
From stdpp Require Export pretty.
From Stdlib Require Export Ascii.

Local Open Scope N_scope.

(** * Characters *)

Definition chr_lower (c : ascii) : ascii :=
  let n := N_of_ascii c in
  if ((65 <=? n) && (n <=? 90)) || ((192 <=? n) && (n <=? 222) && negb (n =? 215))
  then ascii_of_N (n + 32) else c.

Definition chr_isspace (c : ascii) : bool :=
  let n := N_of_ascii c in
  ((9 <=? n) && (n <=? 13)) || ((28 <=? n) && (n <=? 32)) || (n =? 133) || (n =? 160).

Fixpoint str_map (f : ascii -> ascii) (s : string) : string :=
  match s with EmptyString => EmptyString | String c s' => String (f c) (str_map f s') end.

(** [s.lower()] *)
Definition str_lower (s : string) : string := str_map chr_lower s.

Fixpoint str_lstrip (p : ascii -> bool) (s : string) : string :=
  match s with
  | EmptyString => EmptyString
  | String c s' => if p c then str_lstrip p s' else s
  end.

Fixpoint str_rstrip (p : ascii -> bool) (s : string) : string :=
  match s with
  | EmptyString => EmptyString
  | String c s' =>
      match str_rstrip p s' with
      | EmptyString => if p c then EmptyString else String c EmptyString
      | s'' => String c s''
      end
  end.

(** [s.strip()] *)
Definition str_strip (s : string) : string :=
  str_rstrip chr_isspace (str_lstrip chr_isspace s).

(** [sub in s] *)
Definition str_in (sub s : string) : bool :=
  match String.index 0 sub s with Some _ => true | None => false end.

(** [c in s] for a one-character [c]. *)
Fixpoint str_contains (c : ascii) (s : string) : bool :=
  match s with
  | EmptyString => false
  | String x s' => Ascii.eqb x c || str_contains c s'
  end.

(** [s.replace(c, by)] for a one-character [c]. *)
Fixpoint str_replace (c : ascii) (by_ s : string) : string :=
  match s with
  | EmptyString => EmptyString
  | String x s' =>
      if Ascii.eqb x c then by_ +:+ str_replace c by_ s'
      else String x (str_replace c by_ s')
  end.

(** [s.replace(pat, "")] for a non-empty [pat]: the scan skips the matched
    characters, [skip] counting those still to drop. *)
Fixpoint str_delete_from (pat : string) (skip : nat) (s : string) : string :=
  match s with
  | EmptyString => EmptyString
  | String x s' =>
      match skip with
      | S k => str_delete_from pat k s'
      | O => if String.prefix pat s
             then str_delete_from pat (String.length pat - 1)%nat s'
             else String x (str_delete_from pat 0 s')
      end
  end.
Definition str_delete (pat s : string) : string := str_delete_from pat 0 s.

(** * SQL LIKE *)

(** [s LIKE pat ESCAPE esc] ([esc = None]: no escape character). *)
Fixpoint like_match (esc : option ascii) (pat s : string) {struct pat} : bool :=
  match pat with
  | EmptyString => match s with EmptyString => true | _ => false end
  | String c pat' =>
      if match esc with Some e => Ascii.eqb c e | None => false end then
        match pat', s with
        | String c2 pat'', String x s' => Ascii.eqb x c2 && like_match esc pat'' s'
        | _, _ => false
        end
      else if Ascii.eqb c "%" then
        (fix any (s : string) : bool :=
           like_match esc pat' s ||
           match s with EmptyString => false | String _ s' => any s' end) s
      else match s with
           | EmptyString => false
           | String x s' => (Ascii.eqb c "_" || Ascii.eqb x c) && like_match esc pat' s'
           end
  end.

(** * UUIDs: 128-bit values and their 8-4-4-4-12 text form *)

Definition uuid : Type := N.
Definition uuid_ok (u : uuid) : Prop := u < 2 ^ 128.

Definition hex_digit (n : N) : ascii :=
  if n <? 10 then ascii_of_N (48 + n) else ascii_of_N (87 + n).

Fixpoint hex_fixed (w : nat) (n : N) : string :=
  match w with
  | O => EmptyString
  | S w' => String (hex_digit ((n / 16 ^ N.of_nat w') mod 16)) (hex_fixed w' n)
  end.

(** Insert a dash after each of the leading groups. *)
Fixpoint str_take_then (n : nat) (s : string) (k : string -> string) : string :=
  match n, s with
  | S n', String c s' => String c (str_take_then n' s' k)
  | _, _ => k s
  end.
Fixpoint dash_groups (gs : list nat) (s : string) : string :=
  match gs with
  | [] => s
  | g :: gs' => str_take_then g s (fun r => String "-" (dash_groups gs' r))
  end.

(** [str(u)] *)
Definition str_uuid (u : uuid) : string :=
  dash_groups [8; 4; 4; 4]%nat (hex_fixed 32 u).

Definition hex_value (c : ascii) : option N :=
  let n := N_of_ascii c in
  if (48 <=? n) && (n <=? 57) then Some (n - 48)
  else if (97 <=? n) && (n <=? 102) then Some (n - 87)
  else if (65 <=? n) && (n <=? 70) then Some (n - 55)
  else None.

(** The digits of [int(s, 16)]: single underscores may separate digits. *)
Fixpoint parse_hex (acc : N) (after_digit : bool) (s : string) : option N :=
  match s with
  | EmptyString => if after_digit then Some acc else None
  | String c s' =>
      if Ascii.eqb c "_" then if after_digit then parse_hex acc false s' else None
      else match hex_value c with
           | Some d => parse_hex (16 * acc + d) true s'
           | None => None
           end
  end.

(** [int(s, 16)]; [inr] is a minus sign's magnitude. *)
Definition int_base16 (s : string) : option Z :=
  let body s :=
    match s with
    | String "0" (String c s') =>
        if Ascii.eqb c "x" || Ascii.eqb c "X" then
          match s' with
          | String "_" s'' => parse_hex 0 false s''
          | _ => parse_hex 0 false s'
          end
        else parse_hex 0 false s
    | _ => parse_hex 0 false s
    end in
  match str_strip s with
  | String "-" s' => option_map (fun n => - Z.of_N n)%Z (body s')
  | String "+" s' => option_map Z.of_N (body s')
  | s' => option_map Z.of_N (body s')
  end.

(** [UUID(s)]; [None] is the [ValueError]. *)
Definition uuid_of_string (s : string) : option uuid :=
  let braces c := Ascii.eqb c "{" || Ascii.eqb c "}" in
  let hex := str_replace "-" EmptyString
    (str_rstrip braces (str_lstrip braces (str_delete "uuid:" (str_delete "urn:" s)))) in
  if (String.length hex =? 32)%nat then
    match int_base16 hex with
    | Some z => if (0 <=? z)%Z && (z <? 2 ^ 128)%Z then Some (Z.to_N z) else None
    | None => None
    end
  else None.

(** * Lemmas: appending, prefixes *)

Lemma str_app_cons c s t : String c s +:+ t = String c (s +:+ t).
Proof. reflexivity. Qed.
Lemma str_app_nil s : EmptyString +:+ s = s.
Proof. reflexivity. Qed.
Lemma str_app_nil_r s : s +:+ EmptyString = s.
Proof. induction s as [|c s IH]; [done|]. by rewrite str_app_cons, IH. Qed.
Lemma str_app_assoc a b c : (a +:+ b) +:+ c = a +:+ (b +:+ c).
Proof. induction a as [|x a IH]; [done|]. by rewrite !str_app_cons, IH. Qed.

Lemma str_app_inj_l a b c : a +:+ b = a +:+ c -> b = c.
Proof. induction a as [|x a IH]; [done|]. rewrite !str_app_cons. naive_solver. Qed.

Lemma str_contains_app c a b :
  str_contains c (a +:+ b) = str_contains c a || str_contains c b.
Proof.
  induction a as [|x a IH]; [done|].
  rewrite str_app_cons. simpl. rewrite IH. by destruct (Ascii.eqb x c).
Qed.

Lemma str_prefix_refl s : String.prefix s s = true.
Proof. induction s as [|c s IH]; [done|]. simpl. by destruct (ascii_dec c c). Qed.

Lemma str_prefix_app a b : String.prefix a (a +:+ b) = true.
Proof.
  induction a as [|c a IH]; [by destruct b|].
  rewrite str_app_cons. simpl. by destruct (ascii_dec c c).
Qed.

Lemma str_prefix_inv a s : String.prefix a s = true -> exists b, s = a +:+ b.
Proof.
  revert s. induction a as [|c a IH]; intros s H; [by exists s|].
  destruct s as [|x s]; simpl in H; [done|].
  destruct (ascii_dec c x) as [->|]; [|done].
  apply IH in H as [b ->]. exists b. by rewrite str_app_cons.
Qed.

(** A text with no [c] before the separator [c] is read back unambiguously. *)
Lemma str_sep_inj c a b x y :
  str_contains c a = false -> str_contains c b = false ->
  a +:+ String c x = b +:+ String c y -> a = b /\ x = y.
Proof.
  revert b. induction a as [|u a IH]; intros b Ha Hb H.
  - destruct b as [|v b]; rewrite ?str_app_nil, ?str_app_cons in H; simplify_eq; [done|].
    simpl in Hb. by rewrite Ascii.eqb_refl in Hb.
  - destruct b as [|v b]; rewrite ?str_app_nil, ?str_app_cons in H; simplify_eq.
    + simpl in Ha. by rewrite Ascii.eqb_refl in Ha.
    + simpl in Ha, Hb. apply orb_false_elim in Ha as [_ Ha], Hb as [_ Hb].
      destruct (IH b) as [-> ->]; done.
Qed.

Lemma str_sep_prefix c a b x y :
  str_contains c a = false -> str_contains c b = false ->
  String.prefix (a +:+ String c x) (b +:+ String c y) = true ->
  a = b /\ String.prefix x y = true.
Proof.
  intros Ha Hb [r Hr]%str_prefix_inv.
  rewrite str_app_assoc, str_app_cons in Hr.
  apply str_sep_inj in Hr as [-> ->]; [|done..].
  split; [done|]. apply str_prefix_app.
Qed.

(** * Lemmas: LIKE *)

Lemma like_percent esc s : esc <> Some "%"%char -> like_match esc "%" s = true.
Proof.
  intros He. cbn [like_match].
  destruct (match esc with Some e => Ascii.eqb "%" e | None => false end) eqn:E.
  { destruct esc as [e|]; [|done]. apply Ascii.eqb_eq in E. congruence. }
  rewrite Ascii.eqb_refl. induction s as [|x s IH]; [done|]. exact IH.
Qed.

Definition escape_like (raw : string) : string :=
  str_replace "_" "\_" (str_replace "%" "\%" (str_replace "\" "\\" raw)).

Lemma like_escaped_char x raw :
  escape_like (String x raw) =
  (if Ascii.eqb x "\" || Ascii.eqb x "%" || Ascii.eqb x "_"
   then String "\" (String x (escape_like raw)) else String x (escape_like raw)).
Proof.
  unfold escape_like.
  destruct (Ascii.eqb_spec x "\") as [->|H1]; [done|].
  destruct (Ascii.eqb_spec x "%") as [->|H2]; [done|].
  destruct (Ascii.eqb_spec x "_") as [->|H3]; [done|].
  cbn [str_replace]. rewrite (proj2 (Ascii.eqb_neq x "\") H1). cbn [str_replace].
  rewrite (proj2 (Ascii.eqb_neq x "%") H2). cbn [str_replace].
  by rewrite (proj2 (Ascii.eqb_neq x "_") H3).
Qed.

Lemma str_prefix_cons c a x s :
  String.prefix (String c a) (String x s) = Ascii.eqb x c && String.prefix a s.
Proof.
  simpl. destruct (ascii_dec c x) as [->|Hn]; [by rewrite Ascii.eqb_refl|].
  by rewrite (proj2 (Ascii.eqb_neq x c)).
Qed.

(** [s LIKE escape(raw) || '%' ESCAPE '\'] is [s.startswith(raw)]. *)
Lemma like_escape_prefix raw s :
  like_match (Some "\"%char) (escape_like raw +:+ "%") s = String.prefix raw s.
Proof.
  revert s. induction raw as [|c raw IH]; intros s.
  { rewrite str_app_nil, like_percent by done. by destruct s. }
  rewrite like_escaped_char.
  destruct (Ascii.eqb_spec c "\") as [->|H1].
  { destruct s as [|x s]; [done|]. rewrite str_prefix_cons, <- IH. done. }
  destruct (Ascii.eqb_spec c "%") as [->|H2].
  { destruct s as [|x s]; [done|]. rewrite str_prefix_cons, <- IH. done. }
  destruct (Ascii.eqb_spec c "_") as [->|H3].
  { destruct s as [|x s]; [done|]. rewrite str_prefix_cons, <- IH. done. }
  cbn [orb]. rewrite str_app_cons. cbn [like_match].
  rewrite (proj2 (Ascii.eqb_neq c "\") H1), (proj2 (Ascii.eqb_neq c "%") H2),
    (proj2 (Ascii.eqb_neq c "_") H3).
  destruct s as [|x s]; [done|]. by rewrite str_prefix_cons, <- IH.
Qed.

(** Without wildcards in the text, no escaping is needed. *)
Lemma like_plain_prefix raw s :
  str_contains "%" raw = false -> str_contains "_" raw = false ->
  like_match None (raw +:+ "%") s = String.prefix raw s.
Proof.
  revert s. induction raw as [|c raw IH]; intros s H1 H2.
  { rewrite str_app_nil, like_percent by done. by destruct s. }
  simpl in H1, H2. apply orb_false_elim in H1 as [H1 H1'], H2 as [H2 H2'].
  rewrite str_app_cons. cbn [like_match]. rewrite H1, H2.
  destruct s as [|x s]; [done|]. by rewrite str_prefix_cons, <- IH.
Qed.

(** * Lemmas: texts all of whose characters satisfy a test *)

Fixpoint str_all (p : ascii -> bool) (s : string) : bool :=
  match s with EmptyString => true | String c s' => p c && str_all p s' end.

Lemma str_all_app p a b : str_all p (a +:+ b) = str_all p a && str_all p b.
Proof. induction a as [|c a IH]; [done|]. rewrite str_app_cons. simpl. rewrite IH. by destruct (p c). Qed.

Lemma str_all_impl (p q : ascii -> bool) s :
  (forall c, p c = true -> q c = true) -> str_all p s = true -> str_all q s = true.
Proof.
  intros Hpq. induction s as [|c s IH]; simpl; [done|].
  intros [H1 H2]%andb_prop. by rewrite (Hpq c H1), IH.
Qed.

Lemma str_all_not_contains p c s :
  str_all p s = true -> p c = false -> str_contains c s = false.
Proof.
  intros H Hc. induction s as [|x s IH]; simpl in *; [done|].
  apply andb_prop in H as [H1 H2]. rewrite IH by done.
  destruct (Ascii.eqb_spec x c) as [->|]; [congruence|done].
Qed.

Lemma str_lstrip_id p q s :
  str_all q s = true -> (forall c, q c = true -> p c = false) -> str_lstrip p s = s.
Proof.
  intros H Hpq. destruct s as [|c s]; simpl in *; [done|].
  apply andb_prop in H as [H1 _]. by rewrite (Hpq c H1).
Qed.

Lemma str_rstrip_id p q s :
  str_all q s = true -> (forall c, q c = true -> p c = false) -> str_rstrip p s = s.
Proof.
  intros H Hpq. induction s as [|c s IH]; simpl in *; [done|].
  apply andb_prop in H as [H1 H2]. rewrite IH by done.
  destruct s; [by rewrite (Hpq c H1)|done].
Qed.

Lemma str_delete_id c pat s :
  str_contains c s = false -> str_delete (String c pat) s = s.
Proof.
  unfold str_delete. induction s as [|x s IH]; [done|]. intros H.
  cbn [str_contains] in H. apply orb_false_elim in H as [H1 H2].
  cbn [str_delete_from]. rewrite str_prefix_cons, H1. cbn [andb]. by rewrite IH.
Qed.

(** * Lemmas: UUID text *)

Definition is_hex (c : ascii) : bool :=
  match hex_value c with Some _ => true | None => false end.
Definition is_uuid_char (c : ascii) : bool := is_hex c || Ascii.eqb c "-".

Lemma hex_value_digit d : d < 16 -> hex_value (hex_digit d) = Some d.
Proof.
  intros H.
  assert (d = 0 \/ d = 1 \/ d = 2 \/ d = 3 \/ d = 4 \/ d = 5 \/ d = 6 \/ d = 7 \/
          d = 8 \/ d = 9 \/ d = 10 \/ d = 11 \/ d = 12 \/ d = 13 \/ d = 14 \/ d = 15)
    as Hd by lia.
  destruct_or! Hd; subst; reflexivity.
Qed.

Lemma is_hex_digit d : d < 16 -> is_hex (hex_digit d) = true.
Proof. intros H. unfold is_hex. by rewrite hex_value_digit. Qed.

Lemma all_ascii (P : ascii -> Prop) :
  (forall n, n < 256 -> P (ascii_of_N n)) -> forall c, P c.
Proof. intros H c. rewrite <- (ascii_N_embedding c). apply H, N_ascii_bounded. Qed.

(** Decide a property of all characters by evaluating it on the 256 codes. *)
Lemma ascii_forall (p : ascii -> bool) :
  forallb (fun n => p (ascii_of_nat n)) (List.seq 0 256) = true -> forall c, p c = true.
Proof.
  intros H c. rewrite <- (ascii_nat_embedding c).
  rewrite forallb_forall in H. apply H. apply in_seq. pose proof (nat_ascii_bounded c). lia.
Qed.

Lemma is_hex_not (p : ascii -> bool) :
  forallb (fun n => negb (is_hex (ascii_of_nat n)) || p (ascii_of_nat n))
    (List.seq 0 256) = true ->
  forall c, is_hex c = true -> p c = true.
Proof.
  intros H c Hc.
  pose proof (ascii_forall (fun c => negb (is_hex c) || p c) H c) as E. simpl in E.
  by rewrite Hc in E.
Qed.

Lemma is_uuid_char_not (p : ascii -> bool) :
  forallb (fun n => negb (is_uuid_char (ascii_of_nat n)) || negb (p (ascii_of_nat n)))
    (List.seq 0 256) = true ->
  forall c, is_uuid_char c = true -> p c = false.
Proof.
  intros H c Hc.
  pose proof (ascii_forall (fun c => negb (is_uuid_char c) || negb (p c)) H c) as E.
  simpl in E. rewrite Hc in E. by destruct (p c).
Qed.

Lemma hex_fixed_all w n : str_all is_hex (hex_fixed w n) = true.
Proof.
  induction w as [|w IH]; [done|]. cbn [hex_fixed str_all]. rewrite IH, is_hex_digit; [done|].
  apply N.mod_lt. lia.
Qed.

Lemma length_hex_fixed w n : String.length (hex_fixed w n) = w.
Proof. induction w as [|w IH]; [done|]. cbn [hex_fixed String.length]. by rewrite IH. Qed.

Lemma parse_hex_digit acc b d s :
  d < 16 -> parse_hex acc b (String (hex_digit d) s) = parse_hex (16 * acc + d) true s.
Proof.
  intros H. cbn [parse_hex]. rewrite hex_value_digit by done.
  destruct (Ascii.eqb_spec (hex_digit d) "_") as [E|]; [|done].
  apply is_hex_digit in H. by rewrite E in H.
Qed.

Lemma parse_hex_fixed w n acc :
  parse_hex acc true (hex_fixed w n) = Some (acc * 16 ^ N.of_nat w + n mod 16 ^ N.of_nat w).
Proof.
  revert acc. induction w as [|w IH]; intros acc.
  { cbn. f_equal. change (16 ^ 0) with 1. rewrite N.mod_1_r. lia. }
  cbn [hex_fixed]. rewrite parse_hex_digit by (apply N.mod_lt; lia).
  rewrite IH. f_equal. rewrite Nat2N.inj_succ, N.pow_succ_r'.
  rewrite (N.mul_comm 16 (16 ^ N.of_nat w)), N.Div0.mod_mul_r. nia.
Qed.

Lemma str_take_then_undash n s k :
  str_contains "-" s = false ->
  (forall r, str_contains "-" r = false -> str_replace "-" "" (k r) = r) ->
  str_replace "-" "" (str_take_then n s k) = s.
Proof.
  intros Hs Hk. revert s Hs. induction n as [|n IH]; intros s Hs; [by apply Hk|].
  destruct s as [|c s]; [by apply Hk|]. cbn [str_contains] in Hs.
  apply orb_false_elim in Hs as [H1 H2].
  cbn [str_take_then str_replace]. by rewrite H1, IH.
Qed.

Lemma dash_groups_undash gs s :
  str_contains "-" s = false -> str_replace "-" "" (dash_groups gs s) = s.
Proof.
  revert s. induction gs as [|g gs IH]; intros s Hs.
  - cbn [dash_groups]. induction s as [|c s IHs]; [done|]. cbn [str_contains] in Hs.
    apply orb_false_elim in Hs as [H1 H2]. cbn [str_replace]. by rewrite H1, IHs.
  - cbn [dash_groups]. apply str_take_then_undash; [done|]. intros r Hr.
    cbn [str_replace]. rewrite Ascii.eqb_refl, str_app_nil. by apply IH.
Qed.

Lemma dash_groups_all gs s :
  str_all is_uuid_char s = true -> str_all is_uuid_char (dash_groups gs s) = true.
Proof.
  revert s. induction gs as [|g gs IH]; intros s Hs; [done|]. cbn [dash_groups].
  revert s Hs. induction g as [|g IHg]; intros s Hs; [by apply IH|].
  destruct s as [|c s]; [by apply IH|]. cbn [str_all] in Hs.
  apply andb_prop in Hs as [H1 H2]. cbn [str_take_then str_all]. rewrite H1. by apply IHg.
Qed.

Lemma hex_fixed_no_dash w n : str_contains "-" (hex_fixed w n) = false.
Proof. eapply str_all_not_contains; [apply hex_fixed_all|reflexivity]. Qed.

Lemma str_uuid_undash u : str_replace "-" "" (str_uuid u) = hex_fixed 32 u.
Proof. apply dash_groups_undash, hex_fixed_no_dash. Qed.

Lemma str_uuid_all u : str_all is_uuid_char (str_uuid u) = true.
Proof.
  apply dash_groups_all. eapply str_all_impl; [|apply hex_fixed_all].
  intros c Hc. unfold is_uuid_char. by rewrite Hc.
Qed.

Lemma str_uuid_no c u : is_uuid_char c = false -> str_contains c (str_uuid u) = false.
Proof. apply str_all_not_contains, str_uuid_all. Qed.

Lemma hex_fixed_inj n m : uuid_ok n -> uuid_ok m -> hex_fixed 32 n = hex_fixed 32 m -> n = m.
Proof.
  unfold uuid_ok. intros Hn Hm H.
  pose proof (parse_hex_fixed 32 n 0) as E1. pose proof (parse_hex_fixed 32 m 0) as E2.
  rewrite H, E2 in E1. injection E1 as E1.
  change (16 ^ N.of_nat 32) with (2 ^ 128) in E1. rewrite !N.mod_small in E1; lia.
Qed.

Lemma str_uuid_inj n m : uuid_ok n -> uuid_ok m -> str_uuid n = str_uuid m -> n = m.
Proof.
  intros Hn Hm H. apply hex_fixed_inj; [done..|]. by rewrite <- !str_uuid_undash, H.
Qed.

Lemma int_base16_hex s :
  str_all is_hex s = true ->
  int_base16 s = option_map Z.of_N (parse_hex 0 false s).
Proof.
  intros H. unfold int_base16, str_strip.
  assert (forall c, is_hex c = true -> chr_isspace c = false) as Hsp.
  { intros c Hc. apply (is_hex_not (fun c => negb (chr_isspace c))) in Hc; [|reflexivity].
    by destruct (chr_isspace c). }
  rewrite (str_lstrip_id _ is_hex), (str_rstrip_id _ is_hex) by done.
  destruct s as [|c s]; [done|]. cbn [str_all] in H. apply andb_prop in H as [H1 H2].
  destruct s as [|c2 s].
  { by destruct c as [[] [] [] [] [] [] [] []]. }
  cbn [str_all] in H2. apply andb_prop in H2 as [H2 _].
  apply (is_hex_not (fun c => negb (Ascii.eqb c "x" || Ascii.eqb c "X"))) in H2 as Hx;
    [|reflexivity].
  apply negb_true_iff in Hx.
  destruct c as [[] [] [] [] [] [] [] []]; try done; rewrite ?Hx; done.
Qed.

(** The text form of a UUID parses back to it. *)
Lemma uuid_of_str_uuid u : uuid_ok u -> uuid_of_string (str_uuid u) = Some u.
Proof.
  unfold uuid_ok. intros Hu. unfold uuid_of_string.
  rewrite (str_delete_id "u" "rn:"), (str_delete_id "u" "uid:") by (by apply str_uuid_no).
  erewrite str_lstrip_id, str_rstrip_id by (first [apply str_uuid_all | by apply is_uuid_char_not]).
  rewrite str_uuid_undash, length_hex_fixed. cbn [Nat.eqb].
  rewrite int_base16_hex by apply hex_fixed_all.
  change (hex_fixed 32 u) with
    (String (hex_digit ((u / 16 ^ N.of_nat 31) mod 16)) (hex_fixed 31 u)).
  rewrite parse_hex_digit by (apply N.mod_lt; lia). rewrite parse_hex_fixed.
  cbn [option_map].
  assert ((16 * 0 + (u / 16 ^ N.of_nat 31) mod 16) * 16 ^ N.of_nat 31 + u mod 16 ^ N.of_nat 31 = u)
    as ->.
  { rewrite <- (N.mod_small u (2 ^ 128) Hu) at 3.
    change (2 ^ 128) with (16 ^ N.of_nat 31 * 16). rewrite N.Div0.mod_mul_r. lia. }
  destruct (Z.leb_spec 0 (Z.of_N u)); [|lia].
  destruct (Z.ltb_spec (Z.of_N u) (2 ^ 128)); [|lia].
  cbn [andb]. by rewrite N2Z.id.
Qed.

#[global] Opaque str_uuid.
