(* ===== verification/Dates.v ===== *)
(** Python's [datetime.date] and [datetime.datetime] as the modelled code uses
    them.  A [date] is its proleptic Gregorian ordinal ([date.toordinal()]:
    1 is 0001-01-01), so comparing dates is comparing integers and
    [timedelta(days=k)] is adding [k].  A [datetime] is its wall-clock reading
    in microseconds with an optional UTC offset (naive when absent). *)

From S2P Require Import Prelude PyStr.

Local Open Scope Z_scope.

Abbreviation date := Z (only parsing).

(** * The calendar *)

Definition is_leap (y : Z) : bool :=
  (y mod 4 =? 0) && (negb (y mod 100 =? 0) || (y mod 400 =? 0)).

Definition days_before_year (y : Z) : Z :=
  (y - 1) * 365 + (y - 1) / 4 - (y - 1) / 100 + (y - 1) / 400.

(** Days before month [m] in a common year. *)
Definition month_table (m : Z) : Z :=
  match m with
  | 1 => 0 | 2 => 31 | 3 => 59 | 4 => 90 | 5 => 120 | 6 => 151
  | 7 => 181 | 8 => 212 | 9 => 243 | 10 => 273 | 11 => 304 | 12 => 334
  | _ => 365
  end.

Definition days_before_month (y m : Z) : Z :=
  month_table m + (if (2 <? m) && is_leap y then 1 else 0).

(** [calendar.monthrange(y, m)[1]] *)
Definition days_in_month (y m : Z) : Z :=
  days_before_month y (m + 1) - days_before_month y m.

Definition ymd2ord (y m d : Z) : date := days_before_year y + days_before_month y m + d.

(** The month (1..12) of the zero-based day [k] of a year. *)
Definition month_of_day (leap : bool) (k : Z) : Z :=
  let b m := month_table m + (if leap && (2 <? m) then 1 else 0) in
  if k <? b 2 then 1 else if k <? b 3 then 2 else if k <? b 4 then 3
  else if k <? b 5 then 4 else if k <? b 6 then 5 else if k <? b 7 then 6
  else if k <? b 8 then 7 else if k <? b 9 then 8 else if k <? b 10 then 9
  else if k <? b 11 then 10 else if k <? b 12 then 11 else 12.

(** Year and zero-based day of the year of an ordinal. *)
Definition year_day (n : date) : Z * Z :=
  let k := n - 1 in
  let n400 := k / 146097 in let k := k mod 146097 in
  let n100 := k / 36524 in let k := k mod 36524 in
  let n4 := k / 1461 in let k := k mod 1461 in
  let n1 := k / 365 in let k := k mod 365 in
  let y := n400 * 400 + 1 + n100 * 100 + n4 * 4 + n1 in
  if (n1 =? 4) || (n100 =? 4) then (y - 1, 365) else (y, k).

Definition date_year (n : date) : Z := fst (year_day n).
Definition date_month (n : date) : Z :=
  month_of_day (is_leap (date_year n)) (snd (year_day n)).
Definition date_day (n : date) : Z :=
  snd (year_day n) - days_before_month (date_year n) (date_month n) + 1.

(** [n.weekday()]: Monday is 0. *)
Definition date_weekday (n : date) : Z := (n + 6) mod 7.

(** [n.replace(day=d)] *)
Definition date_replace_day (n : date) (d : Z) : result date :=
  if (1 <=? d) && (d <=? days_in_month (date_year n) (date_month n))
  then Ok (ymd2ord (date_year n) (date_month n) d) else Err ValueError.

Fixpoint pad_zeros (k : nat) (s : string) : string :=
  match k with O => s | S k' => String "0" (pad_zeros k' s) end.
Definition zpad (w : nat) (n : Z) : string :=
  let s := pretty n in pad_zeros (w - String.length s) s.

(** [n.isoformat()] *)
Definition date_isoformat (n : date) : string :=
  zpad 4 (date_year n) +:+ "-" +:+ zpad 2 (date_month n) +:+ "-" +:+ zpad 2 (date_day n).

(** * Instants *)

Definition usec_per_day : Z := 86400000000.

Record datetime : Type := mk_datetime {
  dt_wall : Z;            (** microseconds of wall clock since ordinal 0, midnight *)
  dt_offset : option Z    (** UTC offset in microseconds; [None]: naive *)
}.

(** [ts.date()] *)
Definition dt_date (ts : datetime) : date := dt_wall ts / usec_per_day.

(** [ts.astimezone(utc).replace(tzinfo=None)] for an aware [ts]; a naive one
    is kept: the normalization every ordering and UTC-day read performs. *)
Definition dt_utc_wall (ts : datetime) : Z :=
  match dt_offset ts with Some off => dt_wall ts - off | None => dt_wall ts end.

Definition dt_utc_date (ts : datetime) : date := dt_utc_wall ts / usec_per_day.

(** [ts.astimezone(zone).date()], a naive [ts] read as UTC; [offset_at] is the
    zone's UTC offset (microseconds) at a UTC instant. *)
Definition dt_zone_date (offset_at : Z -> Z) (ts : datetime) : date :=
  let u := dt_utc_wall ts in (u + offset_at u) / usec_per_day.

(** * Lemmas *)

Lemma days_before_year_succ y :
  days_before_year (y + 1) = days_before_year y + 365 + (if is_leap y then 1 else 0).
Proof.
  unfold days_before_year, is_leap. replace (y + 1 - 1) with y by lia.
  destruct (Z.eqb_spec (y mod 4) 0), (Z.eqb_spec (y mod 100) 0),
    (Z.eqb_spec (y mod 400) 0); simpl; Z.div_mod_to_equations; lia.
Qed.

(** The decomposition of a day number into Gregorian cycles, once. *)
Lemma days_before_year_cycles a b c d :
  0 <= b <= 3 -> 0 <= c <= 24 -> 0 <= d <= 3 ->
  days_before_year (400 * a + 1 + b * 100 + c * 4 + d) =
  146097 * a + 36524 * b + 1461 * c + 365 * d.
Proof. intros. unfold days_before_year. Z.div_mod_to_equations. lia. Qed.

Lemma is_leap_cycles a b c d :
  0 <= b <= 3 -> 0 <= c <= 24 -> 0 <= d <= 3 ->
  is_leap (400 * a + 1 + b * 100 + c * 4 + d) = (d =? 3) && (negb (c =? 24) || (b =? 3)).
Proof.
  intros. unfold is_leap. set (y := 400 * a + 1 + b * 100 + c * 4 + d).
  destruct (Z.eqb_spec (y mod 4) 0), (Z.eqb_spec (y mod 100) 0),
    (Z.eqb_spec (y mod 400) 0), (Z.eqb_spec d 3), (Z.eqb_spec c 24), (Z.eqb_spec b 3);
    simpl; try reflexivity; exfalso; subst y; Z.div_mod_to_equations; lia.
Qed.

(** [year_day] finds the year an ordinal lies in and its day there. *)
Lemma year_day_spec n :
  let '(y, k) := year_day n in
  n = days_before_year y + k + 1 /\ 0 <= k < 365 + (if is_leap y then 1 else 0).
Proof.
  unfold year_day.
  set (a := (n - 1) / 146097). set (k1 := (n - 1) mod 146097).
  set (b := k1 / 36524). set (k2 := k1 mod 36524).
  set (c := k2 / 1461). set (k3 := k2 mod 1461).
  set (d := k3 / 365). set (k4 := k3 mod 365).
  assert (0 <= k1 < 146097) by (apply Z.mod_pos_bound; lia).
  assert (n - 1 = 146097 * a + k1) by (apply Z.div_mod; lia).
  assert (0 <= k2 < 36524) by (apply Z.mod_pos_bound; lia).
  assert (k1 = 36524 * b + k2) by (apply Z.div_mod; lia).
  assert (0 <= k3 < 1461) by (apply Z.mod_pos_bound; lia).
  assert (k2 = 1461 * c + k3) by (apply Z.div_mod; lia).
  assert (0 <= k4 < 365) by (apply Z.mod_pos_bound; lia).
  assert (k3 = 365 * d + k4) by (apply Z.div_mod; lia).
  clearbody a k1 b k2 c k3 d k4.
  replace (a * 400 + 1 + b * 100 + c * 4 + d) with (400 * a + 1 + b * 100 + c * 4 + d) by lia.
  destruct (Z.eqb_spec b 4) as [Hb|Hb].
  { rewrite orb_true_r. subst b. assert (c = 0) by lia. assert (d = 0) by lia. subst c d.
    replace (400 * a + 1 + 4 * 100 + 0 * 4 + 0 - 1) with (400 * a + 1 + 3 * 100 + 24 * 4 + 3) by lia.
    rewrite days_before_year_cycles, is_leap_cycles by lia. simpl. lia. }
  destruct (Z.eqb_spec d 4) as [Hd|Hd]; simpl.
  { subst d. assert (c <= 23 \/ b = 3) by lia.
    replace (400 * a + 1 + b * 100 + c * 4 + 4 - 1) with (400 * a + 1 + b * 100 + c * 4 + 3) by lia.
    rewrite days_before_year_cycles, is_leap_cycles by lia.
    destruct (Z.eqb_spec c 24), (Z.eqb_spec b 3); simpl; lia. }
  rewrite days_before_year_cycles, is_leap_cycles by lia. case_if; lia.
Qed.

Lemma month_of_day_spec (leap : bool) k :
  0 <= k < 365 + (if leap then 1 else 0) ->
  let m := month_of_day leap k in
  1 <= m <= 12 /\
  month_table m + (if (2 <? m) && leap then 1 else 0) <= k <
  month_table (m + 1) + (if (2 <? m + 1) && leap then 1 else 0).
Proof.
  intros Hk. unfold month_of_day. destruct leap; simpl;
  repeat match goal with |- context [?a <? ?b] => destruct (Z.ltb_spec a b) end;
  simpl; lia.
Qed.

Lemma date_ymd n :
  n = ymd2ord (date_year n) (date_month n) (date_day n) /\
  1 <= date_month n <= 12 /\
  1 <= date_day n <= days_in_month (date_year n) (date_month n).
Proof.
  unfold date_day, date_month, date_year, ymd2ord, days_in_month.
  pose proof (year_day_spec n) as H. destruct (year_day n) as [y k]. simpl.
  destruct H as [H1 H2]. apply month_of_day_spec in H2 as [H3 H4].
  unfold days_before_month in *. repeat split; lia.
Qed.

Lemma days_in_month_bounds y m : 1 <= m <= 12 -> 28 <= days_in_month y m <= 31.
Proof.
  intros H. unfold days_in_month, days_before_month.
  assert (m = 1 \/ m = 2 \/ m = 3 \/ m = 4 \/ m = 5 \/ m = 6 \/ m = 7 \/ m = 8 \/
          m = 9 \/ m = 10 \/ m = 11 \/ m = 12) as Hm by lia.
  destruct (is_leap y); destruct_or! Hm; subst m; simpl; lia.
Qed.

Lemma days_before_year_mono y y' : y < y' -> days_before_year y + 365 <= days_before_year y'.
Proof. intros. unfold days_before_year. Z.div_mod_to_equations. lia. Qed.

Lemma days_before_month_end y : days_before_month y 13 = 365 + (if is_leap y then 1 else 0).
Proof. unfold days_before_month. simpl. by destruct (is_leap y). Qed.

Lemma month_table_mono m m' : 1 <= m -> m < m' -> m' <= 13 -> month_table m + 28 <= month_table m'.
Proof.
  intros H1 H2 H3.
  assert (m = 1 \/ m = 2 \/ m = 3 \/ m = 4 \/ m = 5 \/ m = 6 \/ m = 7 \/ m = 8 \/
          m = 9 \/ m = 10 \/ m = 11 \/ m = 12) as Hm by lia.
  assert (m' = 2 \/ m' = 3 \/ m' = 4 \/ m' = 5 \/ m' = 6 \/ m' = 7 \/ m' = 8 \/
          m' = 9 \/ m' = 10 \/ m' = 11 \/ m' = 12 \/ m' = 13) as Hm' by lia.
  destruct_or! Hm; subst m; destruct_or! Hm'; subst m'; simpl; lia.
Qed.

Lemma days_before_month_mono y m m' :
  1 <= m -> m < m' -> m' <= 13 ->
  days_before_month y m + days_in_month y m <= days_before_month y m'.
Proof.
  intros H1 H2 H3. unfold days_in_month.
  destruct (decide (m' = m + 1)) as [->|Hne]; [lia|].
  pose proof (month_table_mono (m + 1) m' ltac:(lia) ltac:(lia) H3).
  unfold days_before_month. destruct (is_leap y); rewrite ?andb_false_r, ?andb_true_r;
  repeat match goal with |- context [?a <? ?b] => destruct (Z.ltb_spec a b) end; lia.
Qed.

Definition valid_ymd (y m d : Z) : Prop := 1 <= m <= 12 /\ 1 <= d <= days_in_month y m.

Lemma ymd2ord_year y m d :
  valid_ymd y m d -> days_before_year y < ymd2ord y m d <= days_before_year (y + 1).
Proof.
  intros [Hm Hd]. unfold ymd2ord. rewrite days_before_year_succ.
  pose proof (days_before_month_mono y m 13 ltac:(lia) ltac:(lia) ltac:(lia)) as H.
  rewrite days_before_month_end in H.
  assert (0 <= days_before_month y m).
  { unfold days_before_month.
    assert (m = 1 \/ 1 < m) as [->|H1] by lia; [simpl; lia|].
    pose proof (month_table_mono 1 m ltac:(lia) H1 ltac:(lia)). simpl in *. case_if; lia. }
  lia.
Qed.

(** The civil date of an ordinal is unique. *)
Lemma ymd2ord_inj y m d y' m' d' :
  valid_ymd y m d -> valid_ymd y' m' d' -> ymd2ord y m d = ymd2ord y' m' d' ->
  y = y' /\ m = m' /\ d = d'.
Proof.
  intros H H' E.
  pose proof (ymd2ord_year _ _ _ H) as B. pose proof (ymd2ord_year _ _ _ H') as B'.
  assert (y = y') as ->.
  { destruct (Z.lt_total y y') as [L|[L|L]]; [|done|].
    - assert (days_before_year (y + 1) <= days_before_year y').
      { destruct (decide (y' = y + 1)) as [->|]; [lia|].
        pose proof (days_before_year_mono (y + 1) y' ltac:(lia)). lia. }
      lia.
    - assert (days_before_year (y' + 1) <= days_before_year y).
      { destruct (decide (y = y' + 1)) as [->|]; [lia|].
        pose proof (days_before_year_mono (y' + 1) y ltac:(lia)). lia. }
      lia. }
  destruct H as [Hm Hd], H' as [Hm' Hd']. unfold ymd2ord in E.
  destruct (Z.lt_total m m') as [L|[->|L]].
  - pose proof (days_before_month_mono y' m m' ltac:(lia) L ltac:(lia)). lia.
  - split_and!; [done..|lia].
  - pose proof (days_before_month_mono y' m' m ltac:(lia) L ltac:(lia)). lia.
Qed.

Lemma date_of_ymd y m d :
  valid_ymd y m d ->
  date_year (ymd2ord y m d) = y /\ date_month (ymd2ord y m d) = m /\
  date_day (ymd2ord y m d) = d.
Proof.
  intros H. destruct (date_ymd (ymd2ord y m d)) as [E [Hm Hd]].
  symmetry in E. apply ymd2ord_inj in E; [|done..]. done.
Qed.

Lemma date_replace_day_Ok n d :
  1 <= d <= days_in_month (date_year n) (date_month n) ->
  date_replace_day n d = Ok (n - date_day n + d).
Proof.
  intros H. unfold date_replace_day.
  destruct (Z.leb_spec 1 d); [|lia].
  destruct (Z.leb_spec d (days_in_month (date_year n) (date_month n))); [|lia]. simpl.
  destruct (date_ymd n) as [E _]. f_equal. unfold ymd2ord in *. lia.
Qed.

Example isoformat_ex : date_isoformat (ymd2ord 2026 2 9) = "2026-02-09".
Proof. vm_compute. reflexivity. Qed.
Example ymd_ex : ymd2ord 2026 8 16 = 739844 /\ date_weekday 739844 = 6.
Proof. vm_compute. split; reflexivity. Qed.
