(* ===== verification/Money.v ===== *)
(** [modules/ledger/money.py]: the Decimal-to-cents boundary ([to_cents],
    ROUND_HALF_UP) and the sum-preserving largest-remainder split
    ([allocate]).  Python's [Decimal] and [Fraction] are modelled as the
    functions use them. *)

From S2P Require Import Prelude PyStr.
From stdpp Require Import sorting.
From Stdlib Require Import QArith Qround Lqa.

Local Open Scope Z_scope.

(** * Python numbers *)

(** A [Decimal]: [DFinite c e] is [c * 10^e]. *)
Inductive decimal : Type :=
  | DFinite (coef exp : Z)
  | DInfinity (negative : bool)
  | DNaN.

(** The values [to_cents] and [allocate] dispatch on. *)
Inductive pyval : Type :=
  | PyBool (b : bool)
  | PyFloat
  | PyInt (z : Z)
  | PyDecimal (d : decimal)
  | PyStr (s : string)
  | PyOther.

#[export] Instance decimal_eq_dec : EqDecision decimal.
Proof. solve_decision. Defined.

(** The default decimal context holds 28 significant digits. *)
Definition decimal_prec : Z := 28.

(** [round(c / 10^k)], ties away from zero. *)
Definition round_half_up (c k : Z) : Z :=
  Z.sgn c * ((2 * Z.abs c + 10 ^ k) / (2 * 10 ^ k)).

(** [d.quantize(Decimal("0.01"), rounding=ROUND_HALF_UP)] as the coefficient
    of [10^-2]; [None] is [InvalidOperation]. *)
Definition quantize_cents (d : decimal) : option Z :=
  match d with
  | DFinite c e =>
      let q := if (-2 <=? e) then c * 10 ^ (e + 2) else round_half_up c (- 2 - e) in
      if Z.abs q <? 10 ^ decimal_prec then Some q else None
  | DInfinity _ | DNaN => None
  end.

(** ** [Decimal(text)] *)

Definition digit_value (c : ascii) : option Z :=
  let n := Z.of_N (N_of_ascii c) in
  if (48 <=? n) && (n <=? 57) then Some (n - 48) else None.

(** The value and number of the leading digits, and the rest. *)
Fixpoint take_digits (acc : Z) (count : Z) (s : string) : Z * Z * string :=
  match s with
  | String c s' =>
      match digit_value c with
      | Some d => take_digits (10 * acc + d) (count + 1) s'
      | None => (acc, count, s)
      end
  | EmptyString => (acc, count, s)
  end.

Definition parse_exponent (s : string) : option Z :=
  match s with
  | EmptyString => Some 0
  | String e s' =>
      if Ascii.eqb e "e" then
        let '(sign, s'') := match s' with
                            | String "-" r => (-1, r)
                            | String "+" r => (1, r)
                            | r => (1, r)
                            end in
        match take_digits 0 0 s'' with
        | (v, n, EmptyString) => if 0 <? n then Some (sign * v) else None
        | _ => None
        end
      else None
  end.

(** [Decimal(s)]; [None] is [InvalidOperation].  The lower-cased text is
    matched: the grammar is case-insensitive. *)
Definition decimal_of_string (s : string) : option decimal :=
  let s := str_lower (str_replace "_" "" (str_strip s)) in
  let '(sign, s) := match s with
                    | String "-" r => (-1, r)
                    | String "+" r => (1, r)
                    | r => (1, r)
                    end in
  if String.eqb s "inf" || String.eqb s "infinity" then Some (DInfinity (sign <? 0))
  else if String.prefix "nan" s || String.prefix "snan" s then
    match take_digits 0 0 (if String.prefix "nan" s then String.substring 3 (String.length s) s
                           else String.substring 4 (String.length s) s) with
    | (_, _, EmptyString) => Some DNaN
    | _ => None
    end
  else
    let '(ip, ni, s) := take_digits 0 0 s in
    let '(all, nf, s) := match s with
                         | String "." r => take_digits ip 0 r
                         | r => (ip, 0, r)
                         end in
    if ni + nf =? 0 then None
    else match parse_exponent s with
         | Some e => Some (DFinite (sign * all) (e - nf))
         | None => None
         end.

(** * [to_cents] *)

Definition to_cents (amount : pyval) : result Z :=
  match amount with
  | PyBool _ | PyFloat => Err TypeError
  | PyInt z => Ok (z * 100)
  | PyDecimal d =>
      match quantize_cents d with Some c => Ok c | None => Err ValueError end
  | PyStr s =>
      match decimal_of_string s with
      | Some d => match quantize_cents d with Some c => Ok c | None => Err ValueError end
      | None => Err ValueError
      end
  | PyOther => Err TypeError
  end.

(** * [allocate] *)

(** [Fraction(w)] after the type screen of the weights loop. *)
Definition weight_fraction (w : pyval) : result Q :=
  match w with
  | PyBool _ | PyFloat => Err TypeError
  | PyInt z => Ok (inject_Z z)
  | PyDecimal (DFinite c e) =>
      if 0 <=? e then Ok (inject_Z (c * 10 ^ e))
      else Ok (c # Z.to_pos (10 ^ (- e)))
  | PyDecimal _ => Err ValueError
  | PyStr _ | PyOther => Err TypeError
  end.

Definition norm_weight (w : pyval) : result Q :=
  let! frac := weight_fraction w in
  if negb (Qle_bool 0 frac) then Err ValueError else Ok frac.

Definition qsum (l : list Q) : Q := foldr Qplus 0%Q l.

(** [sorted(range(n), key=lambda i: (rem[i], -i), reverse=True)]: [i] before
    [j] when its remainder is larger, or equal and [i] comes first. *)
Definition remainder_before (rem : list Q) (i j : nat) : Prop :=
  (nth j rem 0 < nth i rem 0)%Q \/ ((nth i rem 0 == nth j rem 0)%Q /\ (i <= j)%nat).

Lemma remainder_before_decide rem i j :
  {remainder_before rem i j} + {~ remainder_before rem i j}.
Proof.
  unfold remainder_before.
  destruct (Qlt_le_dec (nth j rem 0%Q) (nth i rem 0%Q)) as [H|H]; [by left; left|].
  destruct (Qeq_dec (nth i rem 0%Q) (nth j rem 0%Q)) as [E|E];
    [|right; intros [L|[L _]]; [by apply (Qlt_not_le _ _ L)|done]].
  destruct (decide (i <= j)%nat); [by left; right|].
  right. intros [L|[_ L]]; [by apply (Qlt_not_le _ _ L)|done].
Defined.
#[export] Instance remainder_before_dec rem : RelDecision (remainder_before rem) :=
  remainder_before_decide rem.

(** [l[:k]] *)
Definition py_take {A} (k : Z) (l : list A) : list A :=
  if k <? 0 then take (length l - Z.to_nat (- k)) l else take (Z.to_nat k) l.

(** [for i in idx: parts[i] += 1] *)
Definition bump_all (idx : list nat) (parts : list Z) : list Z :=
  foldl (fun ps i => alter Z.succ i ps) parts idx.

(** The floor shares, then one leftover cent each to the largest remainders. *)
Definition largest_remainder (total : Z) (norm : list Q) (weight_sum : Q) : list Z :=
  let exact := map (fun w => inject_Z total * w / weight_sum)%Q norm in
  let parts := map Qfloor exact in
  let leftover := total - zsum parts in
  let rem := zip_with (fun e p => e - inject_Z p)%Q exact parts in
  let by_remainder := merge_sort (remainder_before rem) (seq 0 (length norm)) in
  bump_all (py_take leftover by_remainder) parts.

(** [fuel] bounds the recursion: a negative total calls once with a positive
    one, so 2 is enough ([allocate_fuel_irrelevant]). *)
Fixpoint allocate_rec (fuel : nat) (total_cents : pyval) (weights : list pyval)
    : result (list Z) :=
  match fuel with
  | O => Err RuntimeError
  | S fuel' =>
      match total_cents with
      | PyInt total =>
          match weights with
          | [] => Err ValueError
          | _ =>
              let! norm := rmap norm_weight weights in
              let weight_sum := qsum norm in
              if Qeq_bool weight_sum 0 then
                if total =? 0 then Ok (replicate (length norm) 0) else Err ValueError
              else if total <? 0 then
                let! ps := allocate_rec fuel' (PyInt (- total)) weights in
                Ok (map Z.opp ps)
              else
                let parts := largest_remainder total norm weight_sum in
                if negb (zsum parts =? total) then Err ArithmeticError else Ok parts
          end
      | _ => Err TypeError
      end
  end.
Definition allocate : pyval -> list pyval -> result (list Z) := allocate_rec 2.

Example to_cents_half_up : to_cents (PyStr "36.255") = Ok 3626.
Proof. reflexivity. Qed.
Example to_cents_neg : to_cents (PyStr " -0.005 ") = Ok (-1) /\ to_cents (PyStr "1e30") = Err ValueError.
Proof. split; reflexivity. Qed.
Example allocate_thirds : allocate (PyInt 100) [PyInt 1; PyInt 1; PyInt 1] = Ok [34; 33; 33].
Proof. vm_compute. reflexivity. Qed.
Example allocate_neg : allocate (PyInt (-100)) [PyInt 1; PyInt 2; PyDecimal (DFinite 5 (-1))] = Ok [-29; -57; -14].
Proof. vm_compute. reflexivity. Qed.

(** * Lemmas: rounding *)

Lemma round_half_up_bound c k :
  0 <= k -> 2 * Z.abs (round_half_up c k * 10 ^ k - c) <= 10 ^ k.
Proof.
  intros Hk. unfold round_half_up.
  assert (0 < 10 ^ k) by (apply Z.pow_pos_nonneg; lia).
  set (p := 10 ^ k) in *. set (a := Z.abs c).
  set (q := (2 * a + p) / (2 * p)).
  assert (2 * p * q <= 2 * a + p < 2 * p * q + 2 * p) as Hq.
  { subst q. pose proof (Z.div_mod (2 * a + p) (2 * p) ltac:(lia)).
    pose proof (Z.mod_pos_bound (2 * a + p) (2 * p) ltac:(lia)). lia. }
  assert (c = Z.sgn c * a) as Hc by (subst a; rewrite Z.mul_comm; symmetry; apply Z.abs_sgn).
  destruct (Z.sgn_spec c) as [[H' E]|[[H' E]|[H' E]]]; rewrite E in *; nia.
Qed.

Lemma round_half_up_opp c k : round_half_up (- c) k = - round_half_up c k.
Proof. unfold round_half_up. rewrite Z.sgn_opp, Z.abs_opp. lia. Qed.

(** * Lemmas: largest remainder *)

Lemma bump_all_lookup idx parts i :
  NoDup idx ->
  bump_all idx parts !! i =
  (fun p => if decide (i ∈ idx) then Z.succ p else p) <$> parts !! i.
Proof.
  unfold bump_all. revert parts. induction idx as [|j idx IH]; intros parts Hnd; simpl.
  { by destruct (parts !! i). }
  apply NoDup_cons in Hnd as [Hj Hnd]. rewrite IH by done.
  destruct (decide (i = j)) as [->|Hne].
  - rewrite list_lookup_alter_eq. destruct (parts !! j); simpl; [|done].
    rewrite decide_False by done. rewrite decide_True by set_solver. done.
  - rewrite list_lookup_alter_ne by done. destruct (parts !! i); simpl; [|done].
    f_equal. destruct (decide (i ∈ idx)); destruct (decide (i ∈ j :: idx)); set_solver.
Qed.

Lemma length_bump_all idx parts : length (bump_all idx parts) = length parts.
Proof.
  unfold bump_all. revert parts. induction idx as [|j idx IH]; intros parts; simpl; [done|].
  by rewrite IH, length_alter.
Qed.

Lemma zsum_alter_succ i l : (i < length l)%nat -> zsum (alter Z.succ i l) = zsum l + 1.
Proof.
  revert i. induction l as [|x l IH]; intros i Hi; simpl in Hi; [lia|].
  destruct i as [|i].
  - change (Z.succ x + zsum l = x + zsum l + 1). lia.
  - change (x + zsum (alter Z.succ i l) = x + zsum l + 1). rewrite IH by lia. lia.
Qed.

Lemma zsum_bump_all idx parts :
  Forall (fun i => i < length parts)%nat idx ->
  zsum (bump_all idx parts) = zsum parts + Z.of_nat (length idx).
Proof.
  unfold bump_all. revert parts. induction idx as [|j idx IH]; intros parts H; simpl; [lia|].
  apply Forall_cons in H as [Hj H]. rewrite IH by (by rewrite length_alter).
  rewrite zsum_alter_succ by done. lia.
Qed.

Lemma qsum_share t W l :
  ~ (W == 0)%Q ->
  (qsum (map (fun w => inject_Z t * w / W) l) == inject_Z t * qsum l / W)%Q.
Proof.
  intros HW. induction l as [|w l IH]; simpl; [field; done|]. rewrite IH. field. done.
Qed.

(** The remainders of a list of rationals: each in [0,1), summing to what the
    floors leave. *)
Lemma floor_remainder_bounds (x : Q) : (0 <= x - inject_Z (Qfloor x) < 1)%Q.
Proof.
  pose proof (Qfloor_le x). pose proof (Qlt_floor x).
  rewrite inject_Z_plus in H0. change (inject_Z 1) with 1%Q in H0. lra.
Qed.

Lemma qsum_remainders l :
  (qsum (zip_with (fun e p => e - inject_Z p) l (map Qfloor l)) ==
   qsum l - inject_Z (zsum (map Qfloor l)))%Q.
Proof.
  induction l as [|x l IH]; simpl; [done|]. rewrite IH, inject_Z_plus. ring.
Qed.

Lemma qsum_lt_length l :
  Forall (fun x => 0 <= x < 1)%Q l -> l <> [] ->
  (0 <= qsum l < inject_Z (Z.of_nat (length l)))%Q.
Proof.
  induction l as [|x l IH]; intros H Hne; [done|].
  apply Forall_cons in H as [Hx H]. cbn [qsum foldr length].
  rewrite Nat2Z.inj_succ. unfold Z.succ. rewrite inject_Z_plus. change (inject_Z 1) with 1%Q.
  destruct l as [|y l]; [simpl; change (inject_Z (Z.of_nat 0)) with 0%Q; lra|].
  specialize (IH H ltac:(done)). cbn [qsum foldr] in *. lra.
Qed.

Lemma zip_with_map_r {A B C} (f : A -> B -> C) (g : A -> B) l :
  zip_with f l (map g l) = map (fun x => f x (g x)) l.
Proof. induction l; simpl; congruence. Qed.

#[local] Instance remainder_before_trans rem : Transitive (remainder_before rem).
Proof.
  intros i j k [H1|[H1 H1']] [H2|[H2 H2']]; unfold remainder_before.
  - left. lra.
  - left. lra.
  - left. lra.
  - right. split; [lra|lia].
Qed.
#[local] Instance remainder_before_total rem : Total (remainder_before rem).
Proof.
  intros i j. unfold remainder_before.
  destruct (Qlt_le_dec (nth j rem 0%Q) (nth i rem 0%Q)); [left; by left|].
  destruct (Qlt_le_dec (nth i rem 0%Q) (nth j rem 0%Q)); [right; by left|].
  assert (nth i rem 0 == nth j rem 0)%Q by lra.
  destruct (decide (i <= j)%nat); [left|right]; right; split; [done|done|lra|lia].
Qed.

Lemma qsum_perm_nth rem idx :
  Permutation idx (seq 0 (length rem)) ->
  (qsum (map (fun i => nth i rem 0) idx) == qsum rem)%Q.
Proof.
  intros Hp.
  transitivity (qsum (map (fun i => nth i rem 0%Q) (seq 0 (length rem)))).
  - induction Hp; simpl; lra.
  - clear. assert (map (fun i => nth i rem 0%Q) (seq 0 (length rem)) = rem) as ->; [|done].
    apply nth_ext with (d := 0%Q) (d' := 0%Q); [by rewrite length_map, length_seq|].
    intros n Hn. rewrite length_map, length_seq in Hn.
    rewrite nth_indep with (d' := nth 0 rem 0%Q) by (by rewrite length_map, length_seq).
    rewrite map_nth with (f := fun i => nth i rem 0%Q), seq_nth by done. done.
Qed.

(** Among the [k] largest of remainders that sum to [k], none is zero. *)
Lemma largest_positive rem k i :
  Forall (fun x => 0 <= x < 1)%Q rem ->
  (qsum rem == inject_Z (Z.of_nat k))%Q ->
  i ∈ take k (merge_sort (remainder_before rem) (seq 0 (length rem))) ->
  (0 < nth i rem 0)%Q.
Proof.
  intros Hrem Hsum Hi.
  set (l := merge_sort _ _) in *.
  assert (Permutation l (seq 0 (length rem))) as Hp by apply merge_sort_Permutation.
  assert (StronglySorted (remainder_before rem) l) as Hs
    by (apply StronglySorted_merge_sort; apply _).
  apply list_elem_of_lookup in Hi as [pos Hpos].
  apply lookup_take_Some in Hpos as [Hpos Hk].
  destruct (Qlt_le_dec 0 (nth i rem 0%Q)) as [|Hz]; [done|exfalso].
  rewrite <- (qsum_perm_nth rem l Hp) in Hsum.
  rewrite <- (take_drop_middle _ _ _ Hpos) in Hsum, Hs.
  assert (Hall : forall j, j ∈ l -> (0 <= nth j rem 0 < 1)%Q).
  { intros j Hj. rewrite Forall_forall in Hrem. apply Hrem.
    apply list_elem_of_In, nth_In. rewrite Hp in Hj. apply elem_of_seq in Hj. lia. }
  assert (Hdrop : (qsum (map (fun i => nth i rem 0) (drop (S pos) l)) <= 0)%Q).
  { apply StronglySorted_app in Hs as (_ & _ & Hs). inversion Hs as [|?? _ Hle]; subst.
    assert (Hz' : forall j, j ∈ drop (S pos) l -> (nth j rem 0 <= 0)%Q).
    { intros j Hj. rewrite Forall_forall in Hle. specialize (Hle j Hj).
      destruct Hle as [H|[H _]]; lra. }
    clear -Hz'. induction (drop (S pos) l) as [|j r IH]; simpl; [lra|].
    assert (nth j rem 0 <= 0)%Q by (apply Hz'; set_solver).
    assert (qsum (map (fun i => nth i rem 0%Q) r) <= 0)%Q by (apply IH; set_solver). lra. }
  assert (Htake : (qsum (map (fun i => nth i rem 0) (take pos l)) <= inject_Z (Z.of_nat pos))%Q).
  { assert (Hb : forall j, j ∈ take pos l -> (nth j rem 0 <= 1)%Q).
    { intros j Hj. apply Qlt_le_weak, Hall. by apply subseteq_take in Hj. }
    apply Qle_trans with (inject_Z (Z.of_nat (length (take pos l)))).
    - clear -Hb. induction (take pos l) as [|j r IH]; [apply Qle_refl|].
      cbn [map qsum foldr length]. rewrite Nat2Z.inj_succ. unfold Z.succ. rewrite inject_Z_plus.
      change (inject_Z 1) with 1%Q.
      assert (nth j rem 0 <= 1)%Q by (apply Hb; set_solver).
      assert (qsum (map (fun i => nth i rem 0%Q) r) <= inject_Z (Z.of_nat (length r)))%Q
        by (apply IH; set_solver). unfold qsum in *. lra.
    - rewrite <- Zle_Qle. rewrite length_take. lia. }
  rewrite map_app in Hsum. cbn [map] in Hsum.
  assert (Happ : forall a b, (qsum (a ++ b) == qsum a + qsum b)%Q).
  { intros a b. induction a as [|x a IH]; simpl; [lra|]. rewrite IH. lra. }
  rewrite Happ in Hsum. cbn [qsum foldr] in Hsum.
  assert (inject_Z (Z.of_nat pos) + 1 <= inject_Z (Z.of_nat k))%Q.
  { change 1%Q with (inject_Z 1). rewrite <- inject_Z_plus, <- Zle_Qle. lia. }
  unfold qsum in *. lra.
Qed.

Section Largest_remainder.
Context (total : Z) (norm : list Q) (W : Q).
Hypothesis norm_ne : norm <> [].
Hypothesis W_nonzero : ~ (W == 0)%Q.
Hypothesis W_sum : (qsum norm == W)%Q.

Let share (w : Q) : Q := (inject_Z total * w / W)%Q.
Let exact : list Q := map share norm.
Let leftover : Z := total - zsum (map Qfloor exact).
Let rem : list Q := map (fun x => x - inject_Z (Qfloor x))%Q exact.
Let picked : list nat :=
  take (Z.to_nat leftover) (merge_sort (remainder_before rem) (seq 0 (length norm))).

Lemma remainders_bounded : Forall (fun x => 0 <= x < 1)%Q rem.
Proof.
  apply Forall_forall. intros x Hx. apply list_elem_of_In, in_map_iff in Hx as (y & <- & _).
  apply floor_remainder_bounds.
Qed.

Lemma length_rem : length rem = length norm.
Proof. unfold rem, exact. by rewrite !length_map. Qed.

Lemma remainders_sum : (qsum rem == inject_Z leftover)%Q.
Proof.
  unfold rem. rewrite <- (zip_with_map_r (fun e p => e - inject_Z p)%Q), qsum_remainders.
  unfold exact at 1, share. rewrite qsum_share, W_sum by done.
  unfold leftover, Z.sub. rewrite inject_Z_plus, inject_Z_opp. field. done.
Qed.

Lemma leftover_bounds : 0 <= leftover < Z.of_nat (length norm).
Proof.
  destruct (qsum_lt_length rem remainders_bounded) as [H1 H2].
  { intros E. pose proof length_rem as Hl. rewrite E in Hl. by destruct norm. }
  rewrite remainders_sum in H1, H2. rewrite length_rem, <- Zlt_Qlt in H2.
  change 0%Q with (inject_Z 0) in H1. rewrite <- Zle_Qle in H1. lia.
Qed.

Lemma largest_remainder_picked :
  largest_remainder total norm W = bump_all picked (map Qfloor exact).
Proof.
  unfold largest_remainder. fold share exact leftover. unfold py_take.
  destruct (Z.ltb_spec leftover 0) as [H|_]; [pose proof leftover_bounds; lia|].
  by rewrite zip_with_map_r.
Qed.

Lemma picked_perm :
  Permutation (merge_sort (remainder_before rem) (seq 0 (length norm))) (seq 0 (length norm)).
Proof. apply merge_sort_Permutation. Qed.

Lemma picked_NoDup : NoDup picked.
Proof.
  unfold picked. eapply sublist_NoDup; [|apply sublist_take].
  rewrite picked_perm. apply NoDup_seq.
Qed.

Lemma largest_remainder_sum : zsum (largest_remainder total norm W) = total.
Proof.
  pose proof leftover_bounds. rewrite largest_remainder_picked, zsum_bump_all.
  - unfold picked. rewrite length_take, (Permutation_length picked_perm), length_seq.
    unfold leftover in *. lia.
  - apply Forall_forall. intros i Hi. apply subseteq_take in Hi.
    rewrite picked_perm in Hi. apply elem_of_seq in Hi. unfold exact. rewrite !length_map. lia.
Qed.

Lemma length_largest_remainder : length (largest_remainder total norm W) = length norm.
Proof.
  rewrite largest_remainder_picked, length_bump_all. unfold exact. by rewrite !length_map.
Qed.

(** A part is its floor share, or one cent more when the share is not whole. *)
Lemma largest_remainder_part i w p :
  norm !! i = Some w -> largest_remainder total norm W !! i = Some p ->
  p = Qfloor (share w) \/
  (p = Qfloor (share w) + 1 /\ (inject_Z (Qfloor (share w)) < share w)%Q).
Proof.
  intros Hi. rewrite largest_remainder_picked, bump_all_lookup by apply picked_NoDup.
  unfold exact. rewrite !list_lookup_fmap, Hi.
  cbn [fmap option_fmap option_map]. intros [= <-].
  case_decide as Hd; [right|by left]. split; [done|].
  unfold picked in Hd. rewrite <- length_rem in Hd.
  apply largest_positive in Hd; [|apply remainders_bounded|].
  - rewrite (nth_lookup_Some rem i 0%Q (share w - inject_Z (Qfloor (share w)))%Q) in Hd; [lra|].
    unfold rem, exact. by rewrite !list_lookup_fmap, Hi.
  - rewrite Z2Nat.id by apply leftover_bounds. apply remainders_sum.
Qed.
End Largest_remainder.

Lemma rmap_Ok {A B} (f : A -> result B) xs ys :
  rmap f xs = Ok ys <-> Forall2 (fun x y => f x = Ok y) xs ys.
Proof.
  revert ys. induction xs as [|x xs IH]; intros ys; simpl.
  - split; [by intros [= <-]|]. intros H. by inversion H.
  - split.
    + intros H. minv H. constructor; [done|]. by apply IH.
    + intros H. inversion H as [|?? ys' ? H1 H2]; subst. rewrite H1. simpl.
      apply IH in H2. by rewrite H2.
Qed.

Lemma norm_weight_nonneg w q : norm_weight w = Ok q -> (0 <= q)%Q.
Proof.
  unfold norm_weight. intros H. minv H.
  destruct (Qle_bool 0 a) eqn:E; simpl in H; [|done]. simplify_eq. by apply Qle_bool_iff.
Qed.

(** Enough fuel: one negation at most. *)
Lemma allocate_fuel_irrelevant n total ws : allocate_rec (S (S n)) total ws = allocate total ws.
Proof.
  unfold allocate. destruct total; try done. cbn [allocate_rec]. destruct ws as [|w ws]; [done|].
  destruct (rmap norm_weight (w :: ws)) as [norm|e]; [|done]. cbn [rbind].
  destruct (Qeq_bool (qsum norm) 0); [done|].
  destruct (Z.ltb_spec z 0); [|done].
  destruct (Z.ltb_spec (- z) 0); [lia|]. done.
Qed.

(** The recursive call of a negative total meets the same weights with the
    positive total. *)
Lemma allocate_cases total ws norm :
  ws <> [] -> rmap norm_weight ws = Ok norm -> ~ (qsum norm == 0)%Q ->
  allocate (PyInt total) ws =
  Ok (if total <? 0 then map Z.opp (largest_remainder (- total) norm (qsum norm))
      else largest_remainder total norm (qsum norm)).
Proof.
  intros Hne Hn Hs. destruct ws as [|w ws]; [done|].
  assert (norm <> []) as Hne' by (intros ->; by destruct Hs).
  unfold allocate. cbn [allocate_rec]. rewrite Hn. cbn [rbind].
  destruct (Qeq_bool (qsum norm) 0) eqn:E; [by apply Qeq_bool_iff in E|].
  destruct (Z.ltb_spec total 0) as [Ht|Ht].
  - destruct (Z.ltb_spec (- total) 0) as [?|_]; [lia|].
    rewrite largest_remainder_sum, Z.eqb_refl by (done || reflexivity). done.
  - rewrite largest_remainder_sum, Z.eqb_refl by (done || reflexivity). done.
Qed.

Lemma largest_remainder_close t norm W i w p :
  norm <> [] -> ~ (W == 0)%Q -> (qsum norm == W)%Q ->
  norm !! i = Some w -> largest_remainder t norm W !! i = Some p ->
  let share := (inject_Z t * w / W)%Q in
  (share - 1 < inject_Z p < share + 1)%Q /\
  (forall z, (share == inject_Z z)%Q -> p = z).
Proof.
  intros Hne HW HWs Hi Hp share.
  pose proof (largest_remainder_part t norm W Hne HW HWs i w p Hi Hp) as H.
  change (p = Qfloor share \/
    (p = Qfloor share + 1 /\ (inject_Z (Qfloor share) < share)%Q)) in H.
  pose proof (floor_remainder_bounds share) as B. clearbody share. split.
  - destruct H as [->|[-> H]]; rewrite ?inject_Z_plus; change (inject_Z 1) with 1%Q; lra.
  - intros z Hz.
    assert (Qfloor share = z) as Hf by (rewrite Hz; apply Qfloor_Z).
    destruct H as [->|[_ H]]; [done|]. rewrite Hf, Hz in H. by apply Qlt_irrefl in H.
Qed.

(** [allocate] always succeeds on non-empty, non-negative weights that do
    not sum to zero, whatever the sign of the total: it returns one part per
    weight, the parts sum to exactly the total, every part is within one cent
    of its exact proportional share, and a share that is a whole number of
    cents (a zero weight included) is paid exactly. *)
Theorem allocate_fair total ws norm
    (Hne : ws <> []) (Hnorm : rmap norm_weight ws = Ok norm)
    (Hsum : ~ (qsum norm == 0)%Q) :
  exists ps, allocate (PyInt total) ws = Ok ps /\
    length ps = length ws /\ zsum ps = total /\
    forall i w p, norm !! i = Some w -> ps !! i = Some p ->
      let share := (inject_Z total * w / qsum norm)%Q in
      (share - 1 < inject_Z p < share + 1)%Q /\
      (forall z, (share == inject_Z z)%Q -> p = z).
Proof.
  assert (norm <> []) as Hne' by (intros ->; by destruct Hsum).
  assert (length norm = length ws) as Hlen
    by (apply rmap_Ok in Hnorm; symmetry; by eapply Forall2_length).
  rewrite (allocate_cases total ws norm) by done. eexists; split; [done|].
  destruct (Z.ltb_spec total 0) as [Ht|Ht].
  - rewrite length_map, length_largest_remainder, zsum_opp, largest_remainder_sum
      by (done || reflexivity).
    split_and!; [done|lia|]. intros i w p Hi Hp share.
    rewrite list_lookup_fmap in Hp. apply fmap_Some in Hp as (p' & Hp' & ->).
    destruct (largest_remainder_close _ _ _ _ _ _ Hne' Hsum (Qeq_refl _) Hi Hp') as [B E].
    assert (inject_Z (- total) * w / qsum norm == - share)%Q as Hs
      by (unfold share; rewrite inject_Z_opp; field; done).
    rewrite Hs in B. rewrite inject_Z_opp. split; [lra|].
    intros z Hz. rewrite (E (- z)); [lia|]. rewrite Hs, inject_Z_opp, Hz. reflexivity.
  - rewrite length_largest_remainder, largest_remainder_sum by (done || reflexivity).
    split_and!; [done..|]. intros i w p Hi Hp.
    exact (largest_remainder_close _ _ _ _ _ _ Hne' Hsum (Qeq_refl _) Hi Hp).
Qed.

Lemma allocate_fair_witness :
  exists ps, allocate (PyInt (-100)) [PyInt 1; PyInt 0; PyInt 2] = Ok ps /\
    length ps = 3%nat /\ zsum ps = -100.
Proof.
  destruct (allocate_fair (-100) [PyInt 1; PyInt 0; PyInt 2]
              [inject_Z 1; inject_Z 0; inject_Z 2]) as (ps & H1 & H2 & H3 & _);
    [done|reflexivity|discriminate|by exists ps].
Defined.

(** The refusals of [allocate]: a non-integer total, no weights, a negative
    weight, and a non-zero total over weights that sum to zero raise, while a
    zero total over zero weights splits into zeros. *)
Theorem allocate_refusals :
  (forall ws, allocate PyFloat ws = Err TypeError) /\
  (forall t, allocate (PyInt t) [] = Err ValueError) /\
  (forall t n ws, n < 0 -> allocate (PyInt t) (PyInt n :: ws) = Err ValueError) /\
  (forall t n, t <> 0 -> allocate (PyInt t) (replicate (S n) (PyInt 0)) = Err ValueError) /\
  (forall n, allocate (PyInt 0) (replicate (S n) (PyInt 0)) = Ok (replicate (S n) 0)).
Proof.
  assert (Hz : forall n, rmap norm_weight (replicate n (PyInt 0)) = Ok (replicate n (inject_Z 0))).
  { intros n. apply rmap_Ok, Forall2_replicate. reflexivity. }
  assert (Hs : forall n, Qeq_bool (qsum (replicate n (inject_Z 0))) 0 = true).
  { intros n. apply Qeq_bool_iff. induction n; simpl; [reflexivity|].
    unfold qsum in *. rewrite IHn. reflexivity. }
  split_and!; try done.
  - intros t n ws Hn. unfold allocate. cbn [allocate_rec rmap]. unfold norm_weight at 1.
    simpl. destruct (Qle_bool 0 (inject_Z n)) eqn:E; [|done].
    apply Qle_bool_iff in E. change 0%Q with (inject_Z 0) in E. rewrite <- Zle_Qle in E. lia.
  - intros t n Ht. unfold allocate. cbn [allocate_rec]. rewrite Hz. cbn [rbind replicate].
    change (inject_Z 0 :: replicate n (inject_Z 0)) with (replicate (S n) (inject_Z 0)).
    rewrite Hs. by destruct (Z.eqb_spec t 0).
  - intros n. unfold allocate. cbn [allocate_rec]. rewrite Hz. cbn [rbind replicate].
    change (inject_Z 0 :: replicate n (inject_Z 0)) with (replicate (S n) (inject_Z 0)).
    rewrite Hs. simpl. by rewrite length_replicate.
Qed.

(** [to_cents] on a finite [Decimal] that fits the 28-digit context is the
    nearest cent, at most half a cent away with ties away from zero, it
    negates with its argument, and it is exact on a two-decimal amount. *)
Theorem to_cents_nearest c e (He : e < -2) (Hfit : Z.abs c < 10 ^ 28) :
  exists n, to_cents (PyDecimal (DFinite c e)) = Ok n /\
    2 * Z.abs (n * 10 ^ (- 2 - e) - c) <= 10 ^ (- 2 - e) /\
    to_cents (PyDecimal (DFinite (- c) e)) = Ok (- n) /\
    (Z.abs n < 10 ^ 28 -> to_cents (PyDecimal (DFinite n (-2))) = Ok n).
Proof.
  exists (round_half_up c (- 2 - e)).
  pose proof (round_half_up_bound c (- 2 - e) ltac:(lia)) as B.
  set (k := - 2 - e) in *. assert (10 <= 10 ^ k).
  { replace 10 with (10 ^ 1) at 1 by lia. apply Z.pow_le_mono_r; lia. }
  set (q := round_half_up c k) in *. set (p := 10 ^ k) in *.
  assert (Hq : Z.abs q < 10 ^ decimal_prec).
  { unfold decimal_prec. change (10 ^ 28) with 10000000000000000000000000000 in *. nia. }
  unfold to_cents, quantize_cents. destruct (Z.leb_spec (-2) e); [lia|].
  fold k. rewrite round_half_up_opp. fold q. rewrite Z.abs_opp.
  destruct (Z.ltb_spec (Z.abs q) (10 ^ decimal_prec)); [|lia].
  split_and!; [done..|]. intros _. rewrite (Z.leb_refl (-2)).
  change (10 ^ (-2 + 2)) with 1. rewrite Z.mul_1_r.
  destruct (Z.ltb_spec (Z.abs q) (10 ^ decimal_prec)); [done|lia].
Qed.

Lemma to_cents_nearest_witness :
  exists n, to_cents (PyDecimal (DFinite 36255 (-3))) = Ok n /\ n = 3626.
Proof.
  destruct (to_cents_nearest 36255 (-3) ltac:(lia) ltac:(lia)) as (n & H & _).
  exists n. split; [exact H|]. vm_compute in H. by injection H.
Defined.
