(* ===== verification/Models.v ===== *)
(** The tables the ledger reads and writes ([modules/ledger/models.py], and the
    invoice, payment, adjustment and expense rows of
    [models/tenant_models.py]), the database state, and the outside world the
    code calls (the SHA-256 digest and the time-zone database). *)

From S2P Require Import Prelude PyStr Dates Money.

Local Open Scope Z_scope.

(** * Outside code: parameters of the model *)

(** [hashlib.sha256(text).hexdigest()] and [ZoneInfo(name)] (the zone's UTC
    offset at a UTC instant, in microseconds; [None] when the name cannot be
    loaded). *)
Class World : Type := {
  sha256_hexdigest : string -> string;
  zoneinfo : string -> option (Z -> Z)
}.

(** The documented shape of a digest: 64 lower-case hexadecimal digits. *)
Class WorldOk (W : World) : Prop := {
  sha256_hex : forall s, str_all is_hex (sha256_hexdigest s) = true;
  sha256_length : forall s, String.length (sha256_hexdigest s) = 64%nat
}.

(** * Account roles and types *)

Definition ROLE_AR : string := "AR".
Definition ROLE_UNDEPOSITED : string := "UNDEPOSITED".
Definition ROLE_OPERATING_BANK : string := "OPERATING_BANK".
Definition ROLE_SALES_TAX_PAYABLE : string := "SALES_TAX_PAYABLE".
Definition ROLE_CUSTOMER_CREDITS : string := "CUSTOMER_CREDITS".
Definition ROLE_SALES_FALLBACK : string := "SALES_FALLBACK".
Definition ROLE_DISCOUNTS : string := "DISCOUNTS".
Definition ROLE_REFUNDS : string := "REFUNDS".
Definition ROLE_OPENING_EQUITY : string := "OPENING_EQUITY".
Definition ROLE_ROUNDING : string := "ROUNDING".
Definition ROLE_WAGES : string := "WAGES".
Definition ROLE_PAYROLL_TAX : string := "PAYROLL_TAX".
Definition ROLE_EXPENSE_FALLBACK : string := "EXPENSE_FALLBACK".
Definition ROLE_SURCHARGE_INCOME : string := "SURCHARGE_INCOME".

Definition ALL_ROLES : list string :=
  [ROLE_AR; ROLE_UNDEPOSITED; ROLE_OPERATING_BANK; ROLE_SALES_TAX_PAYABLE;
   ROLE_CUSTOMER_CREDITS; ROLE_SALES_FALLBACK; ROLE_DISCOUNTS; ROLE_REFUNDS;
   ROLE_OPENING_EQUITY; ROLE_ROUNDING; ROLE_WAGES; ROLE_PAYROLL_TAX;
   ROLE_EXPENSE_FALLBACK; ROLE_SURCHARGE_INCOME].

Inductive account_type : Type := asset | liability | equity | revenue | expense.
#[export] Instance account_type_eq_dec : EqDecision account_type.
Proof. solve_decision. Defined.

(** * Ledger rows *)

Record GlAccount : Type := mk_account {
  acc_id : uuid;
  acc_code : string;
  acc_name : string;
  acc_type : account_type;
  acc_role : option string;
  acc_is_system : bool;
  acc_active : bool;
  acc_company_id : string;
  acc_created_at : Z
}.

Inductive entry_status : Type := posted | reversed.
#[export] Instance entry_status_eq_dec : EqDecision entry_status.
Proof. solve_decision. Defined.

Record GlJournalEntry : Type := mk_entry {
  je_id : uuid;
  je_entry_no : Z;
  je_effective_at : date;
  je_posted_at : Z;
  je_status : entry_status;
  je_source_type : option string;
  je_source_id : option string;
  je_idempotency_key : option string;
  je_reverses_entry_id : option uuid;
  je_reversed_by_entry_id : option uuid;
  je_created_txid : option Z;
  je_created_by : option string;
  je_company_id : string;
  je_created_at : Z
}.

Record GlJournalLine : Type := mk_jline {
  jl_id : uuid;
  jl_entry_id : uuid;
  jl_account_id : uuid;
  jl_amount_cents : Z;
  jl_memo : option string;
  jl_job_id : option uuid;
  jl_customer_id : option uuid
}.

Record GlPeriodLock : Type := mk_lock { lk_lock_date : date; lk_company_id : string }.

Record GlSettings : Type := mk_settings {
  gs_company_id : string;
  gs_ledger_posting_enabled : bool;
  gs_cutover_month : option date;
  gs_payment_method_role_map : option (gmap string string);
  gs_credit_reason_role_map : option (gmap string string);
  gs_expense_category_account_map : option (gmap string string);
  gs_revenue_category_account_map : option (gmap string string);
  gs_cpa_review : option (gmap string string)
}.

Record AuditLog : Type := mk_audit {
  al_tenant_id : string;
  al_user_id : option string;
  al_action : string;
  al_effective_at : date;
  al_lock_date : date;
  al_context : string
}.

(** * Operational rows *)

Inductive invoice_status : Type := draft | sent | paid | overdue | void.
#[export] Instance invoice_status_eq_dec : EqDecision invoice_status.
Proof. solve_decision. Defined.

Record Invoice : Type := mk_invoice {
  inv_id : uuid;
  inv_number : string;
  inv_status : invoice_status;
  inv_total : option decimal;
  inv_tax_amount : option decimal;
  inv_balance_due : option decimal;
  inv_job_id : option uuid;
  inv_customer_id : option uuid;
  inv_company_id : string;
  inv_invoice_date : option date;
  inv_sent_at : option datetime;
  inv_created_at : option datetime;
  inv_deleted_at : option datetime;
  inv_subtotal : option decimal;
  inv_tax_rate : option decimal;
  inv_totals_locked : bool;
  inv_paid_at : option datetime;
  inv_billing_type : string;
  inv_estimate_id : option uuid;
  inv_origin : option string;
  inv_verified_at : option datetime;
  inv_locked : bool
}.

Record InvoiceLine : Type := mk_invoice_line {
  il_invoice_id : uuid;
  il_description : option string;
  il_line_total : option decimal;
  il_category : option string;
  il_deleted_at : option datetime;
  il_taxable : bool;
  il_quantity : decimal;
  il_unit_price : decimal;
  il_sort_order : Z;
  il_pricing_source : option string;
  il_source : option string;
  il_part_id : option uuid
}.

Record Payment : Type := mk_payment {
  pay_id : uuid;
  pay_invoice_id : uuid;
  pay_amount : option decimal;
  pay_method : option string;
  pay_surcharge_amount : option decimal;
  pay_payment_date : option date;
  pay_voided_at : option datetime;
  pay_created_at : option datetime;
  pay_reference : option string;
  pay_voided_reason : option string
}.

Inductive adjustment_kind : Type := credit_memo | refund | credit_applied.
#[export] Instance adjustment_kind_eq_dec : EqDecision adjustment_kind.
Proof. solve_decision. Defined.

Record InvoiceAdjustment : Type := mk_adjustment {
  adj_id : uuid;
  adj_invoice_id : uuid;
  adj_kind : adjustment_kind;
  adj_amount : option decimal;
  adj_reason : option string;
  adj_refund_method : option string;
  adj_created_at : option datetime;
  adj_tax_component : option decimal
}.

Record Expense : Type := mk_expense {
  exp_id : uuid;
  exp_vendor : string;
  exp_amount : option decimal;
  exp_date : option date;
  exp_category : option string;
  exp_job_id : option uuid;
  exp_company_id : string;
  exp_created_at : option datetime;
  exp_deleted_at : option datetime;
  exp_lines : list (option decimal)
}.

(** * The database *)

(** The ledger tables, with the supplies fresh values are drawn from:
    [gl_next_uuid] stands for [uuid4] (a value never drawn before) and
    [gl_entry_no_seq] for the Postgres sequence, which a rollback does not
    rewind. *)
Record Gl : Type := mk_gl {
  gl_accounts : list GlAccount;
  gl_entries : list GlJournalEntry;
  gl_lines : list GlJournalLine;
  gl_locks : list GlPeriodLock;
  gl_settings : list GlSettings;
  gl_audit : list AuditLog;
  gl_next_uuid : uuid;
  gl_entry_no_seq : Z
}.

Record Ops : Type := mk_ops {
  op_invoices : list Invoice;
  op_invoice_lines : list InvoiceLine;
  op_payments : list Payment;
  op_adjustments : list InvoiceAdjustment;
  op_expenses : list Expense;
  op_app_timezone : option string;   (** [AppSettings.timezone], no row: [None] *)
  op_now : Z;                        (** the UTC clock, as [dt_wall] *)
  op_txid : Z;                       (** [txid_current()] *)
  op_postgres : bool                 (** the bind's dialect is postgresql *)
}.

Record Db : Type := mk_db { db_gl : Gl; db_ops : Ops }.

Definition set_gl (f : Gl -> Gl) (d : Db) : Db := mk_db (f (db_gl d)) (db_ops d).
Definition set_ops (f : Ops -> Ops) (d : Db) : Db := mk_db (db_gl d) (f (db_ops d)).

Definition set_accounts (f : list GlAccount -> list GlAccount) (g : Gl) : Gl :=
  mk_gl (f (gl_accounts g)) (gl_entries g) (gl_lines g) (gl_locks g) (gl_settings g)
    (gl_audit g) (gl_next_uuid g) (gl_entry_no_seq g).
Definition set_entries (f : list GlJournalEntry -> list GlJournalEntry) (g : Gl) : Gl :=
  mk_gl (gl_accounts g) (f (gl_entries g)) (gl_lines g) (gl_locks g) (gl_settings g)
    (gl_audit g) (gl_next_uuid g) (gl_entry_no_seq g).
Definition set_lines (f : list GlJournalLine -> list GlJournalLine) (g : Gl) : Gl :=
  mk_gl (gl_accounts g) (gl_entries g) (f (gl_lines g)) (gl_locks g) (gl_settings g)
    (gl_audit g) (gl_next_uuid g) (gl_entry_no_seq g).
Definition set_settings (f : list GlSettings -> list GlSettings) (g : Gl) : Gl :=
  mk_gl (gl_accounts g) (gl_entries g) (gl_lines g) (gl_locks g) (f (gl_settings g))
    (gl_audit g) (gl_next_uuid g) (gl_entry_no_seq g).
Definition set_audit (f : list AuditLog -> list AuditLog) (g : Gl) : Gl :=
  mk_gl (gl_accounts g) (gl_entries g) (gl_lines g) (gl_locks g) (gl_settings g)
    (f (gl_audit g)) (gl_next_uuid g) (gl_entry_no_seq g).
Definition set_next_uuid (f : uuid -> uuid) (g : Gl) : Gl :=
  mk_gl (gl_accounts g) (gl_entries g) (gl_lines g) (gl_locks g) (gl_settings g)
    (gl_audit g) (f (gl_next_uuid g)) (gl_entry_no_seq g).
Definition set_entry_no_seq (f : Z -> Z) (g : Gl) : Gl :=
  mk_gl (gl_accounts g) (gl_entries g) (gl_lines g) (gl_locks g) (gl_settings g)
    (gl_audit g) (gl_next_uuid g) (f (gl_entry_no_seq g)).

Definition set_invoices (f : list Invoice -> list Invoice) (o : Ops) : Ops :=
  mk_ops (f (op_invoices o)) (op_invoice_lines o) (op_payments o) (op_adjustments o)
    (op_expenses o) (op_app_timezone o) (op_now o) (op_txid o) (op_postgres o).

(** Python truthiness of an optional text. *)
Definition truthy_str (s : option string) : bool :=
  match s with Some (String _ _) => true | _ => false end.

Definition opt_eqb {A} `{EqDecision A} (x y : option A) : bool := bool_decide (x = y).
