(* ===== verification/PyNum.v ===== *)
(** Python's numbers beyond [to_cents]: [Decimal] arithmetic in the default
    context (28 significant digits, ties to even) and binary64 floats, with the
    text a float prints as, which is how the invoice code turns a float back
    into a [Decimal].  A finite float is an integer multiple of [2^-1074], its
    least unit, and is represented by that integer; the sign of a zero is not
    represented.  The lemmas bound the rounding of each operation and show that
    money survives the trip through floats. *)

From S2P Require Import Prelude PyStr Money.

Local Open Scope Z_scope.

(** * Rounding a ratio to an integer, ties to even *)

Definition round_at (q r d : Z) : Z :=
  if 2 * r <? d then q
  else if d <? 2 * r then q + 1
  else if Z.even q then q else q + 1.

Definition round_even (n d : Z) : Z := round_at (n / d) (n mod d) d.

(** The number of decimal digits of [n > 0], less one. *)
Fixpoint ilog10_fuel (fuel : nat) (n : Z) : Z :=
  match fuel with
  | O => 0
  | S fuel' => if n <? 10 then 0 else 1 + ilog10_fuel fuel' (n / 10)
  end.
Definition ilog10 (n : Z) : Z := ilog10_fuel (S (Z.to_nat (Z.log2 n))) n.

(** * [Decimal] arithmetic *)

(** [n / d] to 28 significant digits. *)
Definition dec_of_ratio (n d : Z) : decimal :=
  if n =? 0 then DFinite 0 0
  else
    let j := ilog10 d + 1 in
    let p := ilog10 (Z.abs n * 10 ^ j / d) - j - (decimal_prec - 1) in
    DFinite (round_even (n * 10 ^ Z.max 0 (- p)) (d * 10 ^ Z.max 0 p)) p.

(** An exact result, rounded only when it has more digits than the context. *)
Definition ctx (c e : Z) : decimal :=
  if Z.abs c <? 10 ^ decimal_prec then DFinite c e
  else dec_of_ratio (c * 10 ^ Z.max 0 e) (10 ^ Z.max 0 (- e)).

Definition dec_add (x y : decimal) : result decimal :=
  match x, y with
  | DNaN, _ | _, DNaN => Ok DNaN
  | DInfinity s, DInfinity t => if Bool.eqb s t then Ok x else Err ArithmeticError
  | DInfinity _, _ => Ok x
  | _, DInfinity _ => Ok y
  | DFinite c e, DFinite c' e' =>
      let m := Z.min e e' in
      Ok (ctx (c * 10 ^ (e - m) + c' * 10 ^ (e' - m)) m)
  end.

Definition dec_neg (x : decimal) : decimal :=
  match x with
  | DFinite c e => DFinite (- c) e
  | DInfinity s => DInfinity (negb s)
  | DNaN => DNaN
  end.

Definition dec_sub (x y : decimal) : result decimal := dec_add x (dec_neg y).

Definition dec_abs (x : decimal) : decimal :=
  match x with
  | DFinite c e => DFinite (Z.abs c) e
  | DInfinity _ => DInfinity false
  | DNaN => DNaN
  end.

Definition dec_sign (x : decimal) : Z :=
  match x with DFinite c _ => Z.sgn c | DInfinity s => if s then -1 else 1 | DNaN => 0 end.

Definition dec_mul (x y : decimal) : result decimal :=
  match x, y with
  | DNaN, _ | _, DNaN => Ok DNaN
  | DFinite c e, DFinite c' e' => Ok (ctx (c * c') (e + e'))
  | _, _ =>
      let s := dec_sign x * dec_sign y in
      if s =? 0 then Err ArithmeticError else Ok (DInfinity (s <? 0))
  end.

Definition dec_div (x y : decimal) : result decimal :=
  match x, y with
  | DNaN, _ | _, DNaN => Ok DNaN
  | DInfinity _, DInfinity _ => Err ArithmeticError
  | DInfinity s, DFinite c _ => Ok (DInfinity (if c <? 0 then negb s else s))
  | DFinite _ _, DInfinity _ => Ok (DFinite 0 0)
  | DFinite c e, DFinite c' e' =>
      if c' =? 0 then Err ArithmeticError
      else Ok (dec_of_ratio (Z.sgn c' * c * 10 ^ Z.max 0 (e - e')) (Z.abs c' * 10 ^ Z.max 0 (e' - e)))
  end.

(** [x < y], [x <= y]; a comparison with NaN raises. *)
Definition dec_compare (x y : decimal) : result comparison :=
  match x, y with
  | DNaN, _ | _, DNaN => Err ArithmeticError
  | DInfinity s, DInfinity t => Ok (if Bool.eqb s t then Eq else if s then Lt else Gt)
  | DInfinity s, DFinite _ _ => Ok (if s then Lt else Gt)
  | DFinite _ _, DInfinity t => Ok (if t then Gt else Lt)
  | DFinite c e, DFinite c' e' =>
      let m := Z.min e e' in
      Ok (c * 10 ^ (e - m) ?= c' * 10 ^ (e' - m))
  end.
Definition dec_ltb (x y : decimal) : result bool :=
  let! c := dec_compare x y in Ok (match c with Lt => true | _ => false end).
Definition dec_leb (x y : decimal) : result bool :=
  let! c := dec_compare x y in Ok (match c with Gt => false | _ => true end).

(** [sum(values, Decimal("0"))] *)
Definition dec_sum (l : list decimal) : result decimal :=
  foldl (fun acc x => let! a := acc in dec_add a x) (Ok (DFinite 0 0)) l.

(** [d.quantize(Decimal("0.01"), rounding=ROUND_HALF_UP)] *)
Definition quantize_money (d : decimal) : result decimal :=
  match quantize_cents d with
  | Some c => Ok (DFinite c (-2))
  | None => Err ArithmeticError
  end.

(** * binary64 floats *)

Inductive float64 : Type :=
  | FNum (units : Z)          (** [units * 2^-1074] *)
  | FInf (negative : bool)
  | FNan.

Definition least : Z := 2 ^ 1074.

(** The float nearest to [n / d]: 53 significant bits, ties to even. *)
Definition nearest_float (n d : Z) : float64 :=
  let e := Z.max 0 (Z.log2 (Z.abs n * least / d) - 52) in
  let v := round_even (n * least) (d * 2 ^ e) * 2 ^ e in
  if 2 ^ 1024 * least <=? Z.abs v then FInf (n <? 0) else FNum v.

(** The same, by shifts and on numbers no longer than the ratio's; the
    exponent of the leading bit is found from the lengths of [n] and [d]. *)
Definition lead_bit (n d : Z) : Z :=
  let k := Z.log2 n - Z.log2 d in
  if Z.shiftl d (Z.max 0 k) <=? Z.shiftl n (Z.max 0 (- k)) then k else k - 1.

Definition round_ratio (n d : Z) : Z :=
  let k := Z.log2 d in
  if d =? Z.shiftl 1 k then let q := Z.shiftr n k in round_at q (n - Z.shiftl q k) d
  else round_even n d.

Definition float_of_ratio (n d : Z) : float64 :=
  let e := Z.max 0 (lead_bit (Z.abs n) d + 1022) in
  let v := Z.shiftl (if e <=? 1074 then round_ratio (Z.shiftl n (1074 - e)) d
                     else round_ratio n (Z.shiftl d (e - 1074))) e in
  if Z.log2 (Z.abs v) <? 2098 then FNum v else FInf (n <? 0).

(** [float(d)] *)
Definition float_of_decimal (d : decimal) : float64 :=
  match d with
  | DFinite c e => float_of_ratio (c * 10 ^ Z.max 0 e) (10 ^ Z.max 0 (- e))
  | DInfinity s => FInf s
  | DNaN => FNan
  end.

Definition float_sub (x y : float64) : float64 :=
  match x, y with
  | FNum a, FNum b => float_of_ratio (a - b) least
  | FNan, _ | _, FNan => FNan
  | FInf s, FInf t => if Bool.eqb s t then FNan else FInf s
  | FInf s, FNum _ => FInf s
  | FNum _, FInf t => FInf (negb t)
  end.

Definition float_neg (x : float64) : float64 :=
  match x with FNum a => FNum (- a) | FInf s => FInf (negb s) | FNan => FNan end.
Definition float_add (x y : float64) : float64 := float_sub x (float_neg y).

(** [round(x, 2)]: the exact value to two places, ties to even, as a float. *)
Definition float_round2 (x : float64) : float64 :=
  match x with FNum v => float_of_ratio (round_even (v * 100) least) 100 | _ => x end.

(** [x > y]; false when either is not a number. *)
Definition float_gtb (x y : float64) : bool :=
  match x, y with
  | FNum a, FNum b => b <? a
  | FInf s, FNum _ => negb s
  | FNum _, FInf t => t
  | FInf s, FInf t => negb s && t
  | FNan, _ | _, FNan => false
  end.

Definition float_leb (x y : float64) : bool :=
  match x, y with FNan, _ | _, FNan => false | _, _ => negb (float_gtb x y) end.

(** [float(z)], [x * k] for small integers [k]. *)
Definition float_of_int (z : Z) : float64 := float_of_ratio z 1.
Definition float_scale (k : Z) (x : float64) : float64 :=
  match x with
  | FNum a => float_of_ratio (k * a) least
  | FInf s => if k =? 0 then FNan else FInf (if k <? 0 then negb s else s)
  | FNan => FNan
  end.

(** [x <= 0], [x > 0] *)
Definition float_nonpos (x : float64) : bool :=
  match x with FNum v => v <=? 0 | FInf s => s | FNan => false end.
Definition float_pos (x : float64) : bool := float_gtb x (FNum 0).

(** [max(x, 0)] *)
Definition float_max0 (x : float64) : float64 := if float_gtb (FNum 0) x then FNum 0 else x.

(** [Decimal(str(x))] for the positive float [v] units: the decimal with the
    fewest digits that reads back as the float, the closest of those, looked
    for with one to seventeen digits; the exponent is not normalised. *)
Definition reads_back (v : Z) (d : decimal) : bool :=
  match float_of_decimal d with FNum w => w =? v | _ => false end.

Definition shortest_at (v lead : Z) (digits : Z) : option decimal :=
  let p := lead - digits + 1 in
  let n := v * 10 ^ Z.max 0 (- p) in
  let d := least * 10 ^ Z.max 0 p in
  let lo := DFinite (n / d) p in
  let hi := DFinite (n / d + 1) p in
  let nearest := DFinite (round_even n d) p in
  if reads_back v nearest then Some nearest
  else if reads_back v lo then Some lo
  else if reads_back v hi then Some hi
  else None.

Fixpoint shortest (fuel : nat) (v lead digits : Z) : decimal :=
  match fuel with
  | O => DFinite (v * 5 ^ 1074) (-1074)
  | S fuel' =>
      match shortest_at v lead digits with
      | Some d => d
      | None => shortest fuel' v lead (digits + 1)
      end
  end.

(** The place of the leading digit of [v * 2^-1074]. *)
Definition leading_place (v : Z) : Z :=
  if least <=? v then ilog10 (v / least) else ilog10 (v * 10 ^ 324 / least) - 324.

Definition decimal_of_str (x : float64) : decimal :=
  match x with
  | FNum v =>
      if v =? 0 then DFinite 0 0
      else if v <? 0 then dec_neg (shortest 17 (- v) (leading_place (- v)) 1)
      else shortest 17 v (leading_place v) 1
  | FInf s => DInfinity s
  | FNan => DNaN
  end.

(** * Rounding errors *)

Lemma round_even_spec n d : 0 < d -> Z.abs (2 * (d * round_even n d - n)) <= d.
Proof.
  intros Hd. unfold round_even, round_at.
  pose proof (Z.div_mod n d ltac:(lia)). pose proof (Z.mod_pos_bound n d Hd).
  set (q := n / d) in *. set (r := n mod d) in *.
  destruct (2 * r <? d) eqn:E1; [lia|]. destruct (d <? 2 * r) eqn:E2; [lia|].
  destruct (Z.even q); lia.
Qed.

Lemma round_even_exact q d : 0 < d -> round_even (d * q) d = q.
Proof. intros Hd. pose proof (round_even_spec (d * q) d Hd). nia. Qed.

Lemma round_even_scale n d g : 0 < d -> 0 < g -> round_even (n * g) (d * g) = round_even n d.
Proof.
  intros Hd Hg. unfold round_even, round_at. rewrite Z.div_mul_cancel_r, Z.mul_mod_distr_r by lia.
  set (r := n mod d).
  assert (forall x y, (x * g <? y * g) = (x <? y)) as Hlt.
  { intros x y. destruct (Z.ltb_spec x y), (Z.ltb_spec (x * g) (y * g)); nia. }
  rewrite Z.mul_assoc, !Hlt. done.
Qed.

Lemma round_even_zero d : 0 < d -> round_even 0 d = 0.
Proof. intros Hd. pose proof (round_even_exact 0 d Hd) as H. by rewrite Z.mul_0_r in H. Qed.

Lemma round_ratio_eq n d : 0 < d -> round_ratio n d = round_even n d.
Proof.
  intros Hd. unfold round_ratio. destruct (Z.eqb_spec d (Z.shiftl 1 (Z.log2 d))) as [E|]; [|done].
  pose proof (Z.log2_nonneg d) as Hk. rewrite Z.shiftl_mul_pow2, Z.mul_1_l in E by done.
  unfold round_even. rewrite Z.shiftr_div_pow2, Z.shiftl_mul_pow2, <- E by done.
  f_equal. rewrite (Z.mod_eq n d) by lia. lia.
Qed.

(** The leading bit of [n / d] stands at [2 ^ lead_bit n d]. *)
Lemma lead_bit_core n d : 0 < n -> 0 < d -> let l := lead_bit n d in
  d * 2 ^ Z.max 0 l <= n * 2 ^ Z.max 0 (- l) < 2 * (d * 2 ^ Z.max 0 l).
Proof.
  intros Hn Hd l. unfold l, lead_bit. clear l. set (k := Z.log2 n - Z.log2 d).
  pose proof (Z.log2_nonneg n) as Ln. pose proof (Z.log2_nonneg d) as Ld.
  destruct (Z.log2_spec n Hn) as [N1 N2], (Z.log2_spec d Hd) as [D1 D2].
  rewrite Z.pow_succ_r in N2, D2 by done. rewrite !Z.shiftl_mul_pow2 by lia.
  assert (Hk : 2 ^ Z.log2 n * 2 ^ Z.max 0 (- k) = 2 ^ Z.log2 d * 2 ^ Z.max 0 k).
  { rewrite <- !Z.pow_add_r by lia. f_equal. unfold k. lia. }
  assert (Hs : 2 ^ Z.max 0 (- (k - 1)) = 2 ^ Z.max 0 (- k) /\ 2 ^ Z.max 0 k = 2 * 2 ^ Z.max 0 (k - 1) \/
               2 ^ Z.max 0 (- (k - 1)) = 2 * 2 ^ Z.max 0 (- k) /\ 2 ^ Z.max 0 k = 2 ^ Z.max 0 (k - 1)).
  { destruct (Z.le_gt_cases 1 k); [left|right]; rewrite <- Z.pow_succ_r by lia; split; f_equal; lia. }
  pose proof (Z.pow_pos_nonneg 2 (Z.max 0 k) ltac:(lia) ltac:(lia)) as Pk.
  pose proof (Z.pow_pos_nonneg 2 (Z.max 0 (- k)) ltac:(lia) ltac:(lia)) as Pk'.
  set (a := 2 ^ Z.max 0 (- k)) in *. set (b := 2 ^ Z.max 0 k) in *.
  set (x := 2 ^ Z.log2 n) in *. set (y := 2 ^ Z.log2 d) in *. 
  assert (n * a < 2 * (x * a)) by nia. assert (y * b <= d * b) by nia.
  assert (d * b < 2 * (y * b)) by nia. assert (x * a <= n * a) by nia.
  destruct (Z.leb_spec (d * b) (n * a)) as [Hle|Hlt]; [fold a b; lia|].
  destruct Hs as [[-> E]|[-> E]]; rewrite E in *; clearbody a b; lia.
Qed.

Lemma lead_bit_spec n d T : 0 < n -> 0 < d -> 0 <= T -> let l := lead_bit n d in
  (0 <= l + T -> 2 ^ (l + T) * d <= n * 2 ^ T < 2 * (2 ^ (l + T) * d)) /\
  (l + T < 0 -> n * 2 ^ T < d).
Proof.
  intros Hn Hd HT l. destruct (lead_bit_core n d Hn Hd) as [H1 H2]. fold l in H1, H2. clearbody l.
  assert (Hp : forall z, 0 <= z -> 0 < 2 ^ z) by (intros; apply Z.pow_pos_nonneg; lia).
  pose proof (Hp (Z.max 0 (- l)) ltac:(lia)) as Pm. pose proof (Hp T HT) as PT.
  split; intros H0.
  - assert (E : 2 ^ (l + T) * 2 ^ Z.max 0 (- l) = 2 ^ Z.max 0 l * 2 ^ T).
    { rewrite <- !Z.pow_add_r by lia. f_equal. lia. }
    set (a := 2 ^ Z.max 0 (- l)) in *. set (b := 2 ^ Z.max 0 l) in *. set (P := 2 ^ (l + T)) in *. set (t := 2 ^ T) in *.
    assert (P * d * a = d * b * t) by nia. clearbody a b P t. split.
    + apply (Z.mul_le_mono_pos_r _ _ a); [done|nia].
    + apply (Z.mul_lt_mono_pos_r a); [done|nia].
  - rewrite (Z.max_l 0 l), Z.max_r in * by lia. rewrite Z.pow_0_r in *.
    assert (2 ^ (T + 1) <= 2 ^ (- l)) by (apply Z.pow_le_mono_r; lia).
    rewrite Z.pow_add_r in * by lia. nia.
Qed.

Lemma ilog10_fuel_spec fuel n :
  0 < n < 2 ^ Z.of_nat fuel -> 10 ^ ilog10_fuel fuel n <= n < 10 ^ (ilog10_fuel fuel n + 1) /\ 0 <= ilog10_fuel fuel n.
Proof.
  revert n. induction fuel as [|fuel IH]; intros n Hn; [cbn in Hn; lia|].
  cbn [ilog10_fuel]. destruct (n <? 10) eqn:E; [change (10 ^ (0 + 1)) with 10; cbn; lia|].
  rewrite Nat2Z.inj_succ, Z.pow_succ_r in Hn by lia.
  pose proof (Z.div_mod n 10 ltac:(lia)). pose proof (Z.mod_pos_bound n 10 ltac:(lia)).
  destruct (IH (n / 10) ltac:(lia)) as [[H1 H2] H3].
  rewrite (Z.add_comm 1). split; [|lia]. rewrite !Z.pow_add_r in * by lia. cbn in *. lia.
Qed.

Lemma ilog10_spec n : 0 < n -> 10 ^ ilog10 n <= n < 10 ^ (ilog10 n + 1) /\ 0 <= ilog10 n.
Proof.
  intros Hn. apply ilog10_fuel_spec. split; [done|].
  rewrite Nat2Z.inj_succ, Z2Nat.id by apply Z.log2_nonneg. apply Z.log2_spec, Hn.
Qed.

(** A quotient keeps at least 28 significant digits. *)
Lemma dec_of_ratio_digits n d : 0 < d -> n <> 0 ->
  exists p, dec_of_ratio n d = DFinite (round_even (n * 10 ^ Z.max 0 (- p)) (d * 10 ^ Z.max 0 p)) p /\
    10 ^ 27 * (d * 10 ^ Z.max 0 p) <= Z.abs n * 10 ^ Z.max 0 (- p).
Proof.
  intros Hd Hn. unfold dec_of_ratio. destruct (Z.eqb_spec n 0) as [|_]; [done|].
  set (j := ilog10 d + 1). set (y := Z.abs n * 10 ^ j / d). set (p := ilog10 y - j - (decimal_prec - 1)).
  exists p. split; [done|].
  destruct (ilog10_spec d Hd) as [[_ Hj] Hj0]. fold j in Hj.
  assert (Hy : 0 < y) by (apply Z.div_str_pos; nia).
  destruct (ilog10_spec y Hy) as [[Hlo _] H0].
  pose proof (Z.div_mod (Z.abs n * 10 ^ j) d ltac:(lia)) as Hdm.
  pose proof (Z.mod_pos_bound (Z.abs n * 10 ^ j) d Hd). fold y in Hdm.
  (* y >= 10^(p + 27 + j), hence |n| 10^j >= d 10^(p+27+j) *)
  assert (Hge : d * 10 ^ (p + 27 + j) <= Z.abs n * 10 ^ j).
  { replace (p + 27 + j) with (ilog10 y) by (unfold p, decimal_prec; lia). nia. }
  assert (Hpj : 0 <= p + 27 + j) by (unfold p, decimal_prec; lia).
  apply (Z.mul_le_mono_pos_r _ _ (10 ^ j)); [apply Z.pow_pos_nonneg; unfold j; lia|].
  apply (Z.mul_le_mono_nonneg_r _ _ (10 ^ Z.max 0 (- p))) in Hge; [|apply Z.pow_nonneg; lia].
  replace (10 ^ 27 * (d * 10 ^ Z.max 0 p) * 10 ^ j) with (d * 10 ^ (p + 27 + j) * 10 ^ Z.max 0 (- p)); [nia|].
  rewrite <- !Z.mul_assoc, <- Z.pow_add_r by lia.
  rewrite (Z.mul_comm (10 ^ 27)), <- !Z.mul_assoc, <- !Z.pow_add_r by (unfold j; lia).
  f_equal. f_equal. lia.
Qed.

Lemma least_pos : 0 < least.
Proof. reflexivity. Qed.
Lemma least_pow : least = 2 ^ 1074.
Proof. reflexivity. Qed.

Lemma float_of_ratio_eq n d : 0 < d -> float_of_ratio n d = nearest_float n d.
Proof.
  intros Hd. unfold float_of_ratio, nearest_float. pose proof least_pos as HL.
  assert (He : Z.max 0 (lead_bit (Z.abs n) d + 1022) = Z.max 0 (Z.log2 (Z.abs n * least / d) - 52) \/ n = 0).
  { destruct (Z.eq_dec n 0) as [|Hn]; [by right|left].
    destruct (lead_bit_spec (Z.abs n) d 1074 ltac:(lia) Hd ltac:(lia)) as [H1 H2]. rewrite <- least_pow in *.
    set (l := lead_bit (Z.abs n) d) in *. clearbody l. destruct (Z.le_gt_cases 0 (l + 1074)) as [H0|H0].
    - specialize (H1 H0). rewrite (Z.log2_unique _ (l + 1074) H0); [lia|]. rewrite Z.pow_succ_r by done.
      split; [apply Z.div_le_lower_bound; nia|apply Z.div_lt_upper_bound; nia].
    - rewrite Z.div_small by nia. cbn. lia. }
  set (e := Z.max 0 (lead_bit _ _ + 1022)) in *. set (f := Z.max 0 (Z.log2 _ - 52)) in *.
  pose proof (Z.pow_pos_nonneg 2 f ltac:(lia) ltac:(lia)).
  assert (Hv : Z.shiftl (if e <=? 1074 then round_ratio (Z.shiftl n (1074 - e)) d
                         else round_ratio n (Z.shiftl d (e - 1074))) e = round_even (n * least) (d * 2 ^ f) * 2 ^ f).
  { rewrite Z.shiftl_mul_pow2 by lia. destruct He as [He|Hn0].
    - assert (0 <= e) by lia. rewrite <- He in *. clearbody e. clear He f. f_equal. destruct (Z.leb_spec e 1074) as [Hle|Hgt].
      + rewrite round_ratio_eq, Z.shiftl_mul_pow2 by lia. rewrite <- (round_even_scale _ d (2 ^ e)) by lia.
        rewrite <- Z.mul_assoc, <- Z.pow_add_r by lia. by replace (1074 - e + e) with 1074 by lia.
      + rewrite Z.shiftl_mul_pow2 by lia. pose proof (Z.pow_pos_nonneg 2 (e - 1074) ltac:(lia) ltac:(lia)).
        rewrite round_ratio_eq by (by apply Z.mul_pos_pos). rewrite <- (round_even_scale n _ least) by (done || by apply Z.mul_pos_pos). f_equal.
        rewrite least_pow, <- Z.mul_assoc, <- Z.pow_add_r by lia. by replace (e - 1074 + 1074) with e by lia.
    - rewrite Hn0, Z.mul_0_l, Z.shiftl_0_l, round_even_zero by (by apply Z.mul_pos_pos). destruct (Z.leb_spec e 1074).
      + by rewrite round_ratio_eq, round_even_zero by done.
      + rewrite Z.shiftl_mul_pow2 by lia. pose proof (Z.pow_pos_nonneg 2 (e - 1074) ltac:(lia) ltac:(lia)).
        rewrite round_ratio_eq, round_even_zero by (by apply Z.mul_pos_pos). by rewrite Z.mul_0_l. }
  rewrite Hv. set (v := round_even _ _ * _). clearbody v.
  change (2 ^ 1024 * least) with (2 ^ 2098).
  destruct (Z.eq_dec v 0) as [->|Hv0]; [reflexivity|].
  destruct (Z.ltb_spec (Z.log2 (Z.abs v)) 2098) as [Hlt|Hge], (Z.leb_spec (2 ^ 2098) (Z.abs v)) as [Hb|Hb]; try done.
  - apply Z.log2_lt_pow2 in Hlt; lia.
  - apply Z.log2_lt_pow2 in Hb; lia.
Qed.

(** Below [2^K] a ratio becomes a float within half a unit of the 53rd bit. *)
Lemma float_of_ratio_close n d K : 0 < d -> 0 <= K <= 1000 -> Z.abs n < d * 2 ^ K ->
  exists v, float_of_ratio n d = FNum v /\ 2 ^ 54 * Z.abs (v * d - n * least) <= d * 2 ^ K * least.
Proof.
  intros Hd HK Hn. rewrite float_of_ratio_eq by done. unfold nearest_float.
  set (e := Z.max 0 _). assert (He : 0 <= e <= K + 1021).
  { unfold e. split; [lia|]. apply Z.max_lub; [lia|].
    enough (Z.log2 (Z.abs n * least / d) < K + 1074) by lia.
    destruct (Z.le_gt_cases (Z.abs n * least / d) 0) as [H|H].
    { rewrite Z.log2_nonpos by done. lia. }
    apply Z.log2_lt_pow2; [done|]. apply Z.div_lt_upper_bound; [done|].
    rewrite Z.pow_add_r, <- least_pow by lia. pose proof least_pos. nia. }
  set (r := round_even _ _). pose proof (Z.pow_pos_nonneg 2 e ltac:(lia) ltac:(lia)).
  pose proof (round_even_spec (n * least) (d * 2 ^ e) ltac:(nia)) as Hr. fold r in Hr.
  assert (Hp : 2 ^ e <= 2 ^ (K + 1021)) by (apply Z.pow_le_mono_r; lia).
  assert (Hscale : 2 ^ 53 * 2 ^ (K + 1021) = 2 ^ K * least).
  { rewrite least_pow, <- !Z.pow_add_r by lia. f_equal. lia. }
  assert (Hc : 2 ^ 54 * Z.abs (r * 2 ^ e * d - n * least) <= d * 2 ^ K * least).
  { replace (d * 2 ^ e * r) with (r * 2 ^ e * d) in Hr by ring.
    rewrite Z.abs_mul, (Z.abs_eq 2) in Hr by lia.
    change (2 ^ 54) with (2 ^ 53 * 2). rewrite <- !Z.mul_assoc, <- Hscale. nia. }
  destruct (Z.leb_spec (2 ^ 1024 * least) (Z.abs (r * 2 ^ e))) as [Hbig|_]; [exfalso|eauto].
  assert (2 ^ K * 2 <= 2 ^ 1024).
  { change 2 with (2 ^ 1) at 2. rewrite <- Z.pow_add_r by lia. apply Z.pow_le_mono_r; lia. }
  pose proof least_pos. set (w := r * 2 ^ e) in *. clearbody w. clear Hr.
  assert (Z.abs (w * d) <= Z.abs (n * least) + Z.abs (w * d - n * least)) by lia.
  rewrite !Z.abs_mul, (Z.abs_eq d), (Z.abs_eq least) in * by lia.
  assert (2 ^ 54 * Z.abs (w * d - n * least) <= 2 ^ 54 * (d * 2 ^ K * least)) by nia.
  assert (Z.abs n * least < d * 2 ^ K * least) by nia.
  assert (Z.abs w * d < d * (2 ^ K * 2) * least) by lia. nia.
Qed.

(** A ratio that reads back as the float [v] is close to it. *)
Lemma float_of_ratio_back n d v K : 0 < d -> 0 <= K -> Z.abs v <= 2 ^ K * least ->
  float_of_ratio n d = FNum v -> 2 ^ 52 * Z.abs (v * d - n * least) <= d * 2 ^ K * least.
Proof.
  intros Hd HK Hv. rewrite float_of_ratio_eq by done. unfold nearest_float.
  set (e := Z.max 0 _). set (r := round_even _ _).
  destruct (_ <=? _); [done|]. intros [= Hrv].
  assert (He : 0 <= e) by lia. pose proof (Z.pow_pos_nonneg 2 e ltac:(lia) He).
  pose proof (round_even_spec (n * least) (d * 2 ^ e) ltac:(nia)) as Hr. fold r in Hr.
  replace (d * 2 ^ e * r) with (d * v) in Hr by (rewrite <- Hrv; ring).
  rewrite Z.abs_mul, (Z.abs_eq 2), (Z.mul_comm d v) in Hr by lia.
  pose proof least_pos as HL. pose proof (Z.pow_pos_nonneg 2 K ltac:(lia) HK).
  destruct (Z.eq_dec e 0) as [E0|E0].
  { rewrite E0, Z.mul_1_r in Hr. pose proof (eq_refl : (2 ^ 52 <=? least) = true) as H52.
    apply Z.leb_le in H52. nia. }
  assert (Hx : 2 ^ (e + 52) * d <= Z.abs n * least).
  { assert (Hlog : Z.log2 (Z.abs n * least / d) = e + 52) by lia.
    assert (Hpos : 0 < Z.abs n * least / d).
    { destruct (Z.le_gt_cases (Z.abs n * least / d) 0) as [Hle|]; [|done].
      rewrite Z.log2_nonpos in Hlog by done. lia. }
    pose proof (proj1 (Z.log2_spec _ Hpos)) as Hl. rewrite Hlog in Hl.
    pose proof (Z.mul_div_le (Z.abs n * least) d Hd). nia. }
  rewrite Z.pow_add_r in Hx by lia. change (2 ^ 52) with 4503599627370496 in *.
  set (u := 2 ^ e) in *. clearbody u. clear Hrv.
  assert (Habs : Z.abs (n * least) <= Z.abs (v * d) + Z.abs (v * d - n * least)) by lia.
  rewrite !Z.abs_mul, (Z.abs_eq d), (Z.abs_eq least) in Habs by lia.
  assert (Z.abs v * d <= 2 ^ K * least * d) by nia. lia.
Qed.

Lemma reads_back_close v c p K : 0 <= K -> Z.abs v <= 2 ^ K * least ->
  reads_back v (DFinite c p) = true ->
  2 ^ 52 * Z.abs (v * 10 ^ Z.max 0 (- p) - c * 10 ^ Z.max 0 p * least)
    <= 10 ^ Z.max 0 (- p) * 2 ^ K * least.
Proof.
  intros HK Hv. unfold reads_back. cbn [float_of_decimal].
  destruct (float_of_ratio _ _) as [w| |] eqn:E; [|done..]. intros ->%Z.eqb_eq.
  eapply float_of_ratio_back in E; [exact E|apply Z.pow_pos_nonneg; lia|done..].
Qed.

Lemma shortest_close fuel v lead digits K : 0 <= K -> Z.abs v <= 2 ^ K * least ->
  exists c p, shortest fuel v lead digits = DFinite c p /\
    2 ^ 52 * Z.abs (v * 10 ^ Z.max 0 (- p) - c * 10 ^ Z.max 0 p * least)
      <= 10 ^ Z.max 0 (- p) * 2 ^ K * least.
Proof.
  intros HK Hv. revert digits. induction fuel as [|fuel IH]; intros digits; cbn [shortest].
  { eexists _, _. split; [reflexivity|]. change (Z.max 0 (- -1074)) with 1074.
    change (Z.max 0 (-1074)) with 0. change 10 with (5 * 2). rewrite Z.pow_mul_l, <- least_pow.
    pose proof (Z.pow_pos_nonneg 5 1074 ltac:(lia) ltac:(lia)). pose proof least_pos.
    pose proof (Z.pow_pos_nonneg 2 K ltac:(lia) HK).
    set (f := 5 ^ 1074) in *. clearbody f. rewrite Z.pow_0_r.
    replace (v * (f * least) - v * f * 1 * least) with 0 by ring. cbn [Z.abs]. nia. }
  unfold shortest_at. set (p := lead - digits + 1).
  destruct (reads_back v _) eqn:E1; [eauto using reads_back_close|]. clear E1.
  destruct (reads_back v _) eqn:E1; [eauto using reads_back_close|]. clear E1.
  destruct (reads_back v _) eqn:E1; [eauto using reads_back_close|]. clear E1. apply IH.
Qed.

(** [quantize] to cents finds the only cent within half a cent. *)
Lemma quantize_near c p z : Z.abs z < 10 ^ decimal_prec ->
  2 * Z.abs (c * 10 ^ Z.max 0 p * 100 - z * 10 ^ Z.max 0 (- p)) < 10 ^ Z.max 0 (- p) ->
  quantize_cents (DFinite c p) = Some z.
Proof.
  intros Hz Hc. unfold quantize_cents.
  assert (Hq : (if -2 <=? p then c * 10 ^ (p + 2) else round_half_up c (-2 - p)) = z).
  { destruct (Z.leb_spec (-2) p) as [Hp|Hp].
    - destruct (Z.le_gt_cases 0 p) as [H0|H0].
      { rewrite (Z.max_r 0 p), (Z.max_l 0 (- p)), Z.pow_0_r in Hc by lia.
        rewrite Z.pow_add_r by lia. change (10 ^ 2) with 100. lia. }
      assert (p = -1 \/ p = -2) as [-> | ->] by lia.
      + change (10 ^ Z.max 0 (-1)) with 1 in Hc. change (10 ^ Z.max 0 (- -1)) with 10 in Hc.
        change (10 ^ (-1 + 2)) with 10. lia.
      + change (10 ^ Z.max 0 (-2)) with 1 in Hc. change (10 ^ Z.max 0 (- -2)) with 100 in Hc.
        change (10 ^ (-2 + 2)) with 1. lia.
    - rewrite (Z.max_l 0 p), (Z.max_r 0 (- p)), Z.pow_0_r in Hc by lia.
      set (k := -2 - p). replace (- p) with (k + 2) in Hc by (unfold k; lia).
      rewrite Z.pow_add_r in Hc by lia. change (10 ^ 2) with 100 in Hc.
      pose proof (Z.pow_pos_nonneg 10 k ltac:(lia) ltac:(lia)). unfold round_half_up.
      set (u := 10 ^ k) in *. clearbody u. rewrite (Z.mul_1_r c) in Hc.
      assert (Hu : 2 * Z.abs (c - z * u) < u) by nia.
      destruct (Z.lt_trichotomy c 0) as [?|[->|?]].
      + rewrite Z.sgn_neg, Z.abs_neq by lia. rewrite <- (Z.opp_involutive z).
        rewrite <- (Z.div_unique (2 * - c + u) (2 * u) (- z) (2 * - c + u + 2 * u * z)); nia.
      + cbn. nia.
      + rewrite Z.sgn_pos, Z.abs_eq by lia.
        rewrite <- (Z.div_unique (2 * c + u) (2 * u) z (2 * c + u - 2 * u * z)); nia. }
  rewrite Hq. by destruct (Z.ltb_spec (Z.abs z) (10 ^ decimal_prec)); [|lia].
Qed.

Lemma quantize_cents_opp c p :
  quantize_cents (DFinite (- c) p) = option_map Z.opp (quantize_cents (DFinite c p)).
Proof.
  unfold quantize_cents. rewrite round_half_up_opp. destruct (-2 <=? p);
    rewrite ?Z.mul_opp_l, Z.abs_opp; by destruct (_ <? _).
Qed.

(** * Money through floats *)

(** The float [v] is [z] cents up to [err] times [2^-20] cents. *)
Definition near (v z err : Z) : Prop := 2 ^ 20 * Z.abs (v * 100 - z * least) <= err * least.

Lemma quantize_float_near v z err : Z.abs z <= 10 ^ 13 -> err <= 2 ^ 18 -> near v z err ->
  quantize_money (decimal_of_str (FNum v)) = Ok (DFinite z (-2)).
Proof.
  intros Hz Herr Hn. pose proof least_pos as HL. unfold near in Hn.
  assert (Hv : Z.abs v <= 2 ^ 37 * least).
  { change (2 ^ 37) with 137438953472. change (10 ^ 13) with 10000000000000 in Hz.
    change (2 ^ 18) with 262144 in Herr. change (2 ^ 20) with 1048576 in Hn.
    assert (Z.abs z * least <= 10000000000000 * least) by nia.
    assert (Z.abs (z * least) = Z.abs z * least) by (rewrite Z.abs_mul, (Z.abs_eq least); lia). nia. }
  assert (Hpos : forall w y lead, Z.abs w <= 2 ^ 37 * least -> Z.abs y <= 10 ^ 13 ->
    2 ^ 20 * Z.abs (w * 100 - y * least) <= err * least ->
    exists c p, shortest 17 w lead 1 = DFinite c p /\ quantize_cents (DFinite c p) = Some y).
  { intros w y lead Hw Hy Hwy. destruct (shortest_close 17 w lead 1 37 ltac:(lia) Hw) as (c & p & -> & Hs).
    exists c, p. split; [done|]. apply quantize_near; [change (10 ^ decimal_prec) with (10 ^ 28); lia|].
    pose proof (Z.pow_pos_nonneg 10 (Z.max 0 (- p)) ltac:(lia) ltac:(lia)).
    set (D := 10 ^ Z.max 0 (- p)) in *. set (N := c * 10 ^ Z.max 0 p) in *. clearbody D N.
    change (2 ^ 52) with 4503599627370496 in Hs. change (2 ^ 37) with 137438953472 in Hs.
    change (2 ^ 20) with 1048576 in Hwy. change (2 ^ 18) with 262144 in Herr.
    assert (H1 : 1048576 * D * Z.abs (w * 100 - y * least) <= 262144 * D * least) by nia.
    assert (H2 : Z.abs (N * 100 * least - y * D * least) <=
                 100 * Z.abs (w * D - N * least) + D * Z.abs (w * 100 - y * least)).
    { assert (D * Z.abs (w * 100 - y * least) = Z.abs (D * (w * 100 - y * least))) as ->
        by (rewrite Z.abs_mul, (Z.abs_eq D); lia). lia. }
    replace (N * 100 * least - y * D * least) with ((N * 100 - y * D) * least) in H2 by ring.
    rewrite Z.abs_mul, (Z.abs_eq least) in H2 by lia.
    assert (32768 * Z.abs (w * D - N * least) <= D * least) by lia.
    assert (2 * Z.abs (N * 100 - y * D) * least < D * least) by lia. nia. }
  unfold quantize_money, decimal_of_str.
  destruct (Z.eqb_spec v 0) as [->|Hv0].
  { rewrite (quantize_near 0 0 z); [done|change (10 ^ decimal_prec) with (10 ^ 28); lia|].
    change (2 ^ 20) with 1048576 in Hn. change (2 ^ 18) with 262144 in Herr. cbn.
    rewrite Z.mul_0_l, Z.sub_0_l, Z.abs_opp, Z.abs_mul, (Z.abs_eq least) in Hn by lia.
    assert (z = 0) as -> by nia. lia. }
  destruct (Z.ltb_spec v 0) as [Hneg|Hneg].
  - destruct (Hpos (- v) (- z) (leading_place (- v))) as (c & p & -> & Hq); [lia|lia| |].
    { replace (- v * 100 - - z * least) with (- (v * 100 - z * least)) by ring. by rewrite Z.abs_opp. }
    cbn [dec_neg]. assert (quantize_cents (DFinite (- c) p) = Some z) as ->; [|done].
    rewrite quantize_cents_opp, Hq. cbn. f_equal. lia.
  - by destruct (Hpos v z (leading_place v) Hv Hz Hn) as (c & p & -> & ->).
Qed.

Lemma float_cents c : Z.abs c < 10 ^ 12 ->
  exists v, float_of_decimal (DFinite c (-2)) = FNum v /\ near v c 100.
Proof.
  intros Hc. cbn [float_of_decimal]. change (10 ^ Z.max 0 (-2)) with 1. change (10 ^ Z.max 0 (- -2)) with 100.
  rewrite Z.mul_1_r. destruct (float_of_ratio_close c 100 34) as (v & -> & Hv); [lia|lia| |].
  { change (2 ^ 34) with 17179869184. change (10 ^ 12) with 1000000000000 in Hc. lia. }
  exists v. split; [done|]. unfold near. change (2 ^ 54) with (2 ^ 34 * 2 ^ 20) in Hv.
  pose proof least_pos. change (2 ^ 34) with 17179869184 in Hv. change (2 ^ 20) with 1048576 in *. lia.
Qed.

(** The same for differences of stored amounts. *)
Lemma float_cents_wide c : Z.abs c <= 10 ^ 13 ->
  exists v, float_of_ratio c 100 = FNum v /\ near v c 800.
Proof.
  intros Hc. destruct (float_of_ratio_close c 100 37) as (v & -> & Hv); [lia|lia| |].
  { change (2 ^ 37) with 137438953472. change (10 ^ 13) with 10000000000000 in Hc. lia. }
  exists v. split; [done|]. unfold near. change (2 ^ 54) with (2 ^ 37 * 2 ^ 17) in Hv. pose proof least_pos.
  change (2 ^ 37) with 137438953472 in Hv. change (2 ^ 17) with 131072 in Hv. change (2 ^ 20) with 1048576. lia.
Qed.

Lemma float_zero e : float_of_decimal (DFinite 0 e) = FNum 0.
Proof.
  cbn [float_of_decimal]. rewrite Z.mul_0_l, float_of_ratio_eq by (apply Z.pow_pos_nonneg; lia). unfold nearest_float.
  set (x := Z.max 0 (_ - 52)). assert (0 <= x) by lia.
  assert (round_even (0 * least) (10 ^ Z.max 0 (- e) * 2 ^ x) = 0) as ->.
  { rewrite Z.mul_0_l. rewrite <- (Z.mul_0_r (10 ^ Z.max 0 (- e) * 2 ^ x)) at 1. apply round_even_exact.
    apply Z.mul_pos_pos; apply Z.pow_pos_nonneg; lia. }
  cbn [Z.mul Z.abs]. by destruct (Z.leb_spec (2 ^ 1024 * least) 0) as [H1|]; [pose proof least_pos; lia|].
Qed.

Lemma near_sign v z err : err < 2 ^ 20 -> near v z err ->
  (0 < z -> 0 < v) /\ (z < 0 -> v < 0).
Proof.
  unfold near. intros He Hn. pose proof least_pos. change (2 ^ 20) with 1048576 in *.
  split; intros Hz.
  - assert (least <= z * least) by nia. nia.
  - assert (z * least <= - least) by nia. nia.
Qed.

(** The sign of a money column survives [float]. *)
Lemma float_cents_nonpos c : Z.abs c < 10 ^ 12 ->
  float_nonpos (float_of_decimal (DFinite c (-2))) = (c <=? 0) /\
  float_pos (float_of_decimal (DFinite c (-2))) = (0 <? c).
Proof.
  intros Hc. destruct (Z.eq_dec c 0) as [->|H0]; [by rewrite float_zero|].
  destruct (float_cents c Hc) as (v & -> & Hn). apply near_sign in Hn as [H1 H2]; [|done].
  unfold float_pos. cbn [float_nonpos float_gtb]. split; apply eq_true_iff_eq; rewrite ?Z.leb_le, ?Z.ltb_lt; lia.
Qed.

Lemma float_sub_near a b x y ea eb :
  near a x ea -> near b y eb -> Z.abs (x - y) <= 10 ^ 13 -> ea + eb <= 2 ^ 18 ->
  exists v, float_sub (FNum a) (FNum b) = FNum v /\ near v (x - y) (ea + eb + 800).
Proof.
  unfold near. intros Ha Hb Hxy He. pose proof least_pos as HL. cbn [float_sub].
  change (2 ^ 20) with 1048576 in *. change (2 ^ 18) with 262144 in He.
  change (10 ^ 13) with 10000000000000 in Hxy.
  assert (Hd : 1048576 * Z.abs ((a - b) * 100 - (x - y) * least) <= (ea + eb) * least) by lia.
  assert (Habs : Z.abs ((x - y) * least) = Z.abs (x - y) * least)
    by (rewrite Z.abs_mul, (Z.abs_eq least); lia).
  assert ((ea + eb) * least <= 262144 * least) by nia.
  destruct (float_of_ratio_close (a - b) least 37) as (v & -> & Hv); [done|lia| |].
  { change (2 ^ 37) with 137438953472.
    assert (Z.abs (x - y) * least <= 10000000000000 * least) by nia. nia. }
  exists v. split; [done|].
  replace (v * least - (a - b) * least) with ((v - (a - b)) * least) in Hv by ring.
  rewrite Z.abs_mul, (Z.abs_eq least) in Hv by lia.
  change (2 ^ 54) with (137438953472 * 131072) in Hv. change (2 ^ 37) with 137438953472 in Hv.
  assert (131072 * Z.abs (v - (a - b)) <= least) by nia. lia.
Qed.

Lemma float_add_near a b x y ea eb :
  near a x ea -> near b y eb -> Z.abs (x + y) <= 10 ^ 13 -> ea + eb <= 2 ^ 18 ->
  exists v, float_add (FNum a) (FNum b) = FNum v /\ near v (x + y) (ea + eb + 800).
Proof.
  intros Ha Hb Hxy He. unfold float_add. cbn [float_neg]. replace (x + y) with (x - - y) by lia.
  apply float_sub_near; [done| |by rewrite Z.sub_opp_r|done].
  unfold near in *. replace (- b * 100 - - y * least) with (- (b * 100 - y * least)) by ring. by rewrite Z.abs_opp.
Qed.

(** Rounding to two places finds the nearby cent. *)
Lemma float_round2_near v z err : err <= 2 ^ 18 -> near v z err -> float_round2 (FNum v) = float_of_ratio z 100.
Proof.
  intros Herr Hn. cbn [float_round2]. f_equal. pose proof least_pos as HL.
  pose proof (round_even_spec (v * 100) least HL) as Hr. unfold near in Hn.
  change (2 ^ 20) with 1048576 in Hn. change (2 ^ 18) with 262144 in Herr.
  set (r := round_even _ _) in *. assert (4 * Z.abs (v * 100 - z * least) <= least) by nia.
  assert (Z.abs (least * (r - z)) < least) by lia. rewrite Z.abs_mul, (Z.abs_eq least) in * by lia. nia.
Qed.

Lemma float_of_cents z : float_of_decimal (DFinite z (-2)) = float_of_ratio z 100.
Proof. cbn [float_of_decimal]. change (10 ^ Z.max 0 (-2)) with 1. by rewrite Z.mul_1_r. Qed.

(** * Exact [Decimal] money *)

Lemma ctx_exact c e : Z.abs c < 10 ^ decimal_prec -> ctx c e = DFinite c e.
Proof. intros H. unfold ctx. by rewrite (proj2 (Z.ltb_lt _ _) H). Qed.

Lemma dec_add_cents x y : Z.abs (x + y) < 10 ^ decimal_prec ->
  dec_add (DFinite x (-2)) (DFinite y (-2)) = Ok (DFinite (x + y) (-2)).
Proof. intros H. cbn -[ctx]. rewrite !Z.mul_1_r. by rewrite ctx_exact. Qed.

Lemma quantize_cents_exact c : Z.abs c < 10 ^ decimal_prec ->
  quantize_money (DFinite c (-2)) = Ok (DFinite c (-2)).
Proof.
  intros H. unfold quantize_money. cbn [quantize_cents]. change (-2 <=? -2) with true.
  cbv iota. rewrite Z.mul_1_r. by rewrite (proj2 (Z.ltb_lt _ _) H).
Qed.

(** A sum of money values whose partial sums fit the context is exact. *)
Lemma dec_sum_cents l B : Forall (fun c => Z.abs c <= B) l -> B * Z.of_nat (length l) < 10 ^ decimal_prec ->
  0 <= B ->
  exists e, (e = -2 \/ l = [] /\ e = 0) /\
    dec_sum (map (fun c => DFinite c (-2)) l) = Ok (DFinite (zsum l) e).
Proof.
  intros Hl HB H0. unfold dec_sum.
  assert (Hgen : forall l acc, Forall (fun c => Z.abs c <= B) l ->
    Z.abs acc + B * Z.of_nat (length l) < 10 ^ decimal_prec ->
    foldl (fun acc x => let! a := acc in dec_add a x) (Ok (DFinite acc (-2))) (map (fun c => DFinite c (-2)) l)
    = Ok (DFinite (acc + zsum l) (-2))).
  { clear Hl HB l. induction l as [|c l IH]; intros acc Hl HB; [cbn; by rewrite Z.add_0_r|].
    apply Forall_cons in Hl as [Hc Hl]. cbn [map foldl length] in *. rewrite Nat2Z.inj_succ in HB.
    cbn [rbind]. rewrite dec_add_cents by lia. rewrite IH by (done || lia). cbn. do 2 f_equal. lia. }
  destruct l as [|c l]; [exists 0; cbn; auto|]. exists (-2). split; [by left|].
  apply Forall_cons in Hl as [Hc Hl]. cbn [length] in HB. rewrite Nat2Z.inj_succ in HB.
  cbn [map foldl rbind].
  assert (dec_add (DFinite 0 0) (DFinite c (-2)) = Ok (DFinite c (-2))) as ->.
  { cbn -[ctx]. rewrite Z.mul_1_r. apply f_equal, ctx_exact. lia. }
  rewrite Hgen by (done || lia). done.
Qed.
