(* ===== verification/StrFloat.v ===== *)
(** Decimal text of a float ([Decimal(str(float(d)))], used throughout the
    money code to leave binary arithmetic): a decimal of at most fifteen
    significant digits survives the trip through binary64 and its shortest
    text unchanged in value. *)

From S2P Require Import Prelude Money PyNum.

Local Open Scope Z_scope.

(** * The relative error of a conversion *)

(** A ratio that reads back as the float [v] differs from it by at most
    [2^-52] of [v]. *)
Lemma float_of_ratio_rel n d v : 0 < d -> 2 ^ 60 <= v ->
  float_of_ratio n d = FNum v -> 2 ^ 52 * Z.abs (v * d - n * least) <= d * v.
Proof.
  intros Hd Hv. rewrite float_of_ratio_eq by done. unfold nearest_float. set (e := Z.max 0 _). set (r := round_even _ _).
  destruct (_ <=? _); [done|]. intros [= Hrv].
  assert (He : 0 <= e) by lia. pose proof (Z.pow_pos_nonneg 2 e ltac:(lia) He).
  pose proof (round_even_spec (n * least) (d * 2 ^ e) ltac:(nia)) as Hr. fold r in Hr.
  replace (d * 2 ^ e * r) with (d * v) in Hr by (rewrite <- Hrv; ring).
  rewrite Z.abs_mul, (Z.abs_eq 2), (Z.mul_comm d v) in Hr by lia. pose proof least_pos as HL.
  change (2 ^ 52) with 4503599627370496 in *. change (2 ^ 60) with 1152921504606846976 in Hv.
  destruct (Z.eq_dec e 0) as [E0|E0].
  { rewrite E0, Z.mul_1_r in Hr. nia. }
  assert (Hx : 2 ^ (e + 52) * d <= Z.abs n * least).
  { assert (Hlog : Z.log2 (Z.abs n * least / d) = e + 52) by lia.
    assert (Hpos : 0 < Z.abs n * least / d).
    { destruct (Z.le_gt_cases (Z.abs n * least / d) 0) as [Hle|]; [|done].
      rewrite Z.log2_nonpos in Hlog by done. lia. }
    pose proof (proj1 (Z.log2_spec _ Hpos)) as Hl. rewrite Hlog in Hl.
    pose proof (Z.mul_div_le (Z.abs n * least) d Hd). nia. }
  rewrite Z.pow_add_r in Hx by lia. change (2 ^ 52) with 4503599627370496 in Hx.
  set (u := 2 ^ e) in *. clearbody u. clear Hrv.
  assert (Habs : Z.abs (n * least) <= Z.abs (v * d) + Z.abs (v * d - n * least)) by lia.
  rewrite !Z.abs_mul, (Z.abs_eq d), (Z.abs_eq least), (Z.abs_eq v) in Habs by lia. nia.
Qed.

(** * The leading digit *)

Lemma leading_place_spec v : 0 < v -> least <= v * 10 ^ 323 -> v < 10 ^ 300 * least ->
  let l := leading_place v in
  -324 <= l <= 300 /\
  10 ^ (l + 324) * least <= v * 10 ^ 324 < 10 ^ (l + 325) * least.
Proof.
  intros Hv Hlo Hhi l. unfold l, leading_place. pose proof least_pos as HL.
  destruct (Z.leb_spec least v) as [Hge|Hlt].
  - assert (Hq : 0 < v / least) by (apply Z.div_str_pos; lia).
    destruct (ilog10_spec _ Hq) as [[H1 H2] H0]. set (m := ilog10 (v / least)) in *.
    pose proof (Z.div_mod v least ltac:(lia)). pose proof (Z.mod_pos_bound v least HL).
    assert (Hd : v / least < 10 ^ 300) by (apply Z.div_lt_upper_bound; [done|]; by rewrite Z.mul_comm).
    assert (m < 300) by (apply (Z.pow_lt_mono_r_iff 10 m 300 ltac:(lia) ltac:(lia)); by eapply Z.le_lt_trans).
    split; [lia|]. replace (m + 325) with (m + 1 + 324) by lia.
    rewrite (Z.pow_add_r 10 m 324), (Z.pow_add_r 10 (m + 1) 324) by lia.
    pose proof (Z.pow_pos_nonneg 10 324 ltac:(lia) ltac:(lia)). set (t := 10 ^ 324) in *. clearbody t.
    set (a := 10 ^ m) in *. set (b := 10 ^ (m + 1)) in *. clearbody a b.
    assert (a * least <= v < b * least) by nia. split; nia.
  - assert (Ht : 10 ^ 324 = 10 * 10 ^ 323) by (by rewrite <- Z.pow_succ_r).
    pose proof (Z.pow_pos_nonneg 10 324 ltac:(lia) ltac:(lia)) as Hp. set (t := 10 ^ 324) in *.
    assert (Hq : 0 < v * t / least) by (apply Z.div_str_pos; clearbody t; nia).
    destruct (ilog10_spec _ Hq) as [[H1 H2] H0]. set (m := ilog10 (v * t / least)) in *.
    pose proof (Z.div_mod (v * t) least ltac:(lia)). pose proof (Z.mod_pos_bound (v * t) least HL).
    assert (Hd : v * t / least < t) by (apply Z.div_lt_upper_bound; [done|]; clearbody t; nia).
    assert (m < 324) by (apply (Z.pow_lt_mono_r_iff 10 m 324 ltac:(lia) ltac:(lia)); fold t; by eapply Z.le_lt_trans).
    split; [lia|]. replace (m - 324 + 324) with m by lia. replace (m - 324 + 325) with (m + 1) by lia.
    set (w := v * t) in *. clearbody w t. split; nia.
Qed.

(** The same, against any scale. *)
Lemma leading_place_scaled v s : 0 < v -> least <= v * 10 ^ 323 -> v < 10 ^ 300 * least ->
  0 <= s -> 0 <= leading_place v + s ->
  10 ^ (leading_place v + s) * least <= v * 10 ^ s < 10 * 10 ^ (leading_place v + s) * least.
Proof.
  intros Hv Hlo Hhi Hs Hls. destruct (leading_place_spec v Hv Hlo Hhi) as [[Hl _] [H1 H2]].
  set (l := leading_place v) in *. pose proof (Z.pow_pos_nonneg 10 324 ltac:(lia) ltac:(lia)) as Ht.
  pose proof (Z.pow_pos_nonneg 10 s ltac:(lia) Hs) as Hps.
  assert (E1 : 10 ^ (l + 324) * 10 ^ s = 10 ^ (l + s) * 10 ^ 324).
  { rewrite <- !Z.pow_add_r by lia. f_equal. lia. }
  assert (E2 : 10 ^ (l + 325) = 10 * 10 ^ (l + 324)).
  { replace (l + 325) with (Z.succ (l + 324)) by lia. by rewrite Z.pow_succ_r by lia. }
  rewrite E2 in H2. clear E2 Hlo Hhi. set (t := 10 ^ 324) in *. set (a := 10 ^ (l + 324)) in *.
  set (b := 10 ^ s) in *. set (c := 10 ^ (l + s)) in *. pose proof least_pos as HL.
  set (L := least) in *. clearbody t a b c L. split.
  - apply (Z.mul_le_mono_pos_r _ _ t); [done|]. replace (c * L * t) with (a * L * b) by (rewrite <- Z.mul_assoc, (Z.mul_comm L b), Z.mul_assoc, E1; ring).
    replace (v * b * t) with (v * t * b) by ring. by apply Z.mul_le_mono_nonneg_r; [lia|].
  - apply (Z.mul_lt_mono_pos_r t); [done|].
    replace (10 * c * L * t) with (10 * a * L * b) by (replace (10 * a * L * b) with (10 * L * (a * b)) by ring; rewrite E1; ring).
    replace (v * b * t) with (v * t * b) by ring. by apply Z.mul_lt_mono_pos_r.
Qed.

(** * Scaling *)

Lemma float_of_ratio_scale n d g : 0 < d -> 0 < g -> float_of_ratio (n * g) (d * g) = float_of_ratio n d.
Proof.
  intros Hd Hg. rewrite !float_of_ratio_eq by nia. unfold nearest_float. rewrite (Z.abs_mul n g), (Z.abs_eq g) by lia.
  replace (Z.abs n * g * least) with (Z.abs n * least * g) by ring. rewrite Z.div_mul_cancel_r by lia.
  set (e := Z.max 0 _). pose proof (Z.pow_pos_nonneg 2 e ltac:(lia) ltac:(lia)).
  replace (n * g * least) with (n * least * g) by ring. replace (d * g * 2 ^ e) with (d * 2 ^ e * g) by ring.
  rewrite round_even_scale by nia. destruct (Z.ltb_spec (n * g) 0), (Z.ltb_spec n 0); done || nia.
Qed.

(** * Fifteen digits survive *)

Section Digits.
Variables (a n k v : Z).
Hypotheses (Ha : 1 <= a <= 15) (Hn : 0 < n < 10 ^ a) (Hk : 0 <= k <= 15)
  (Hv : float_of_ratio n (10 ^ k) = FNum v).

Notation l := (leading_place v).

Lemma conversion_range : least <= v * 10 ^ 16 /\ v <= 10 ^ 16 * least.
Proof using Ha Hn Hk Hv.
  pose proof (Z.pow_pos_nonneg 10 k ltac:(lia) ltac:(lia)) as Hp.
  assert (Hk' : 10 ^ k <= 10 ^ 15) by (apply Z.pow_le_mono_r; lia).
  assert (Hn' : n < 10 ^ 15) by (apply (Z.lt_le_trans _ (10 ^ a)); [lia|apply Z.pow_le_mono_r; lia]).
  set (d := 10 ^ k) in *. clearbody d. pose proof least_pos as HL.
  assert (exists K, 0 <= K <= 50 /\ Z.abs n < d * 2 ^ K /\ d * 2 ^ K <= 2 ^ 50 * n \/ n < d /\ K = 0) as (K & HK).
  { destruct (Z.lt_ge_cases n d) as [H|H]; [by exists 0; right|]. exists 50. left.
    change (2 ^ 50) with 1125899906842624. change (10 ^ 15) with 1000000000000000 in *. nia. }
  destruct (float_of_ratio_close n d K) as (w & Ew & Hw).
  { done. } { lia. } { destruct HK as [?|[? ->]]; lia. }
  rewrite Hv in Ew. injection Ew as <-. set (L := least) in *. clearbody L.
  change (10 ^ 16) with 10000000000000000. change (10 ^ 15) with 1000000000000000 in *.
  destruct HK as [(HK & H1 & H2)|[H1 ->]].
  - change (2 ^ 50) with 1125899906842624 in H2. change (2 ^ 54) with 18014398509481984 in Hw.
    assert (H3 : 16 * Z.abs (v * d - n * L) <= n * L) by nia.
    split; nia.
  - change (2 ^ 54) with 18014398509481984 in Hw. rewrite Z.pow_0_r, Z.mul_1_r in Hw. split; nia.
Qed.

Lemma conversion_big : 2 ^ 60 <= v.
Proof using Ha Hn Hk Hv.
  destruct conversion_range as [H _]. pose proof (eq_refl : (2 ^ 60 * 10 ^ 16 <=? least) = true) as Hl.
  apply Z.leb_le in Hl. nia.
Qed.

Lemma leading_scaled s : 0 <= s -> 0 <= l + s -> 10 ^ (l + s) * least <= v * 10 ^ s < 10 * 10 ^ (l + s) * least.
Proof using Ha Hn Hk Hv.
  destruct conversion_range as [H1 H2]. pose proof conversion_big. pose proof least_pos.
  assert (H3 : 10 ^ 16 < 10 ^ 300) by (apply Z.pow_lt_mono_r; lia).
  assert (H4 : 10 ^ 16 <= 10 ^ 323) by (apply Z.pow_le_mono_r; lia).
  intros Hs Hls. apply leading_place_scaled; [lia| | |done|done].
  - etrans; [exact H1|]. apply Z.mul_le_mono_nonneg_l; lia.
  - eapply Z.le_lt_trans; [exact H2|]. by apply Z.mul_lt_mono_pos_r.
Qed.
Lemma ten_a : 1 < 10 ^ a <= 1000000000000000.
Proof using Ha.
  clear -Ha. split; [apply Z.pow_gt_1; lia|]. change 1000000000000000 with (10 ^ 15). apply Z.pow_le_mono_r; lia.
Qed.

Lemma leading_le : l <= a - 1 - k.
Proof using Ha Hn Hk Hv.
  destruct (Z.le_gt_cases l (a - 1 - k)) as [|Hgt]; [done|exfalso].
  destruct (leading_scaled k) as [H1 _]; [lia|lia|].
  assert (H2 : 10 ^ a <= 10 ^ (l + k)) by (apply Z.pow_le_mono_r; lia).
  pose proof (float_of_ratio_rel n (10 ^ k) v ltac:(lia) conversion_big Hv) as He.
  pose proof least_pos as HL. pose proof ten_a as Ht. rewrite (Z.mul_comm (10 ^ k) v) in He.
  set (y := v * 10 ^ k) in *. set (t := 10 ^ a) in *. set (u := 10 ^ (l + k)) in *. set (L := least) in *.
  clearbody y t u L. change (2 ^ 52) with 4503599627370496 in He.
  assert (t * L <= y) by nia. assert (n * L <= (t - 1) * L) by nia. nia.
Qed.

(** The scale at which the value has [a] digits before the point. *)
Notation G := (10 ^ (a - 1 - l)).
Notation N0 := (n * 10 ^ (a - 1 - l - k)).

Lemma scaled_range : 10 ^ (a - 1) * least <= v * G < 10 ^ a * least.
Proof using Ha Hn Hk Hv.
  pose proof leading_le. destruct (leading_scaled (a - 1 - l)) as [H1 H2]; [lia|lia|].
  replace (l + (a - 1 - l)) with (a - 1) in * by lia. split; [done|].
  replace a with (Z.succ (a - 1)) at 2 by lia. by rewrite Z.pow_succ_r by lia.
Qed.

(** Whatever reads back as [v] is near [v] on that scale. *)
Lemma reads_near m d h : 0 < d -> 0 < h -> d * h = G -> float_of_ratio m d = FNum v ->
  4 * Z.abs (v * G - m * h * least) < least.
Proof using Ha Hn Hk Hv.
  intros Hd Hh HG Hm. pose proof (float_of_ratio_rel m d v Hd conversion_big Hm) as He.
  destruct scaled_range as [_ Hr]. pose proof ten_a as Ht. pose proof least_pos as HL. rewrite <- HG in *.
  replace (v * (d * h) - m * h * least) with ((v * d - m * least) * h) by ring.
  rewrite Z.abs_mul, (Z.abs_eq h) by lia. set (E := Z.abs _) in *. set (L := least) in *. set (t := 10 ^ a) in *.
  clearbody E L t. change (2 ^ 52) with 4503599627370496 in He.
  assert (4503599627370496 * (E * h) <= v * (d * h)) by nia. nia.
Qed.

Lemma source_near : 4 * Z.abs (v * G - N0 * least) < least.
Proof using Ha Hn Hk Hv.
  pose proof leading_le. apply (reads_near n (10 ^ k)); [apply Z.pow_pos_nonneg; lia..| |done].
  rewrite <- Z.pow_add_r by lia. f_equal. lia.
Qed.

(** A candidate of [t] digits that reads back is the source. *)
Lemma candidate_exact t c : 1 <= t <= a -> reads_back v (DFinite c (l - t + 1)) = true ->
  c * 10 ^ Z.max 0 (l - t + 1) * 10 ^ k = n * 10 ^ Z.max 0 (- (l - t + 1)) /\ 0 < c <= 10 ^ a.
Proof using Ha Hn Hk Hv.
  intros Ht. unfold reads_back. cbn [float_of_decimal]. set (p := l - t + 1).
  destruct (float_of_ratio (c * 10 ^ Z.max 0 p) (10 ^ Z.max 0 (- p))) as [w| |] eqn:E; [|done..]. intros ->%Z.eqb_eq.
  pose proof leading_le as Hl. assert (Hp : p = l - t + 1) by done. set (h := 10 ^ (a - 1 - l - Z.max 0 (- p))).
  assert (HB : 10 ^ Z.max 0 (- p) * h = G) by (unfold h; rewrite <- Z.pow_add_r by lia; f_equal; lia).
  assert (Hh : 0 < h) by (apply Z.pow_pos_nonneg; lia).
  assert (HB0 : 0 < 10 ^ Z.max 0 (- p)) by (apply Z.pow_pos_nonneg; lia).
  pose proof (reads_near _ _ h HB0 Hh HB E) as H1. pose proof source_near as H2.
  assert (Hg : 10 ^ k * 10 ^ (a - 1 - l - k) = G) by (rewrite <- Z.pow_add_r by lia; f_equal; lia).
  destruct scaled_range as [R1 R2]. pose proof least_pos as HL. pose proof ten_a as Hta.
  assert (Hc1 : 1 <= 10 ^ (a - 1)) by (pose proof (Z.pow_pos_nonneg 10 (a - 1)); lia).
  pose proof (Z.pow_pos_nonneg 10 (Z.max 0 p) ltac:(lia) ltac:(lia)) as HA.
  set (B := 10 ^ Z.max 0 (- p)) in *. set (A := 10 ^ Z.max 0 p) in *. set (g := 10 ^ (a - 1 - l - k)) in *.
  set (d := 10 ^ k) in *. set (L := least) in *. set (x := v * G) in *. set (T := 10 ^ a) in *.
  set (T1 := 10 ^ (a - 1)) in *. 
  assert (HN : c * A * h = n * g /\ 1 <= c * A * h <= T).
  { set (M := c * A * h) in *. set (M0 := n * g) in *. clearbody M M0 x L T T1. clear -H1 H2 R1 R2 HL Hc1. nia. }
  destruct HN as [HN HM].
  split.
  - apply (Z.mul_cancel_r _ _ h); [lia|].
    replace (c * A * d * h) with (c * A * h * d) by ring. rewrite HN.
    replace (n * g * d) with (n * (d * g)) by ring. rewrite Hg, <- HB. ring.
  - clearbody A h T. clear -HM HA Hh. assert (0 < A * h) by nia. rewrite <- Z.mul_assoc in HM. nia.
Qed.

(** The search stops by [a] digits. *)
Lemma found_by_a : shortest_at v l a <> None.
Proof using Ha Hn Hk Hv.
  unfold shortest_at. cbv zeta. set (p := l - a + 1). pose proof leading_le as Hl. assert (Hp : p = l - a + 1) by done.
  rewrite (Z.max_r 0 (- p)), (Z.max_l 0 p), Z.pow_0_r, Z.mul_1_r by lia.
  replace (- p) with (a - 1 - l) by lia. pose proof source_near as H2.
  assert (Hrb : reads_back v (DFinite N0 p) = true).
  { unfold reads_back. cbn [float_of_decimal]. rewrite (Z.max_l 0 p), (Z.max_r 0 (- p)), Z.pow_0_r, Z.mul_1_r by lia.
    assert (10 ^ (- p) = 10 ^ k * 10 ^ (a - 1 - l - k)) as -> by (rewrite <- Z.pow_add_r by lia; f_equal; lia).
    rewrite float_of_ratio_scale by (apply Z.pow_pos_nonneg; lia). rewrite Hv. apply Z.eqb_refl. }
  assert (N0 = v * G / least \/ N0 = v * G / least + 1) as [E|E].
  { pose proof least_pos as HL. pose proof (Z.div_mod (v * G) least ltac:(lia)) as Hdm.
    pose proof (Z.mod_pos_bound (v * G) least HL). set (x := v * G) in *. set (N := N0) in *.
    set (q := x / least) in *. set (L := least) in *. clearbody x N q L. nia. }
  - rewrite <- E, Hrb. by destruct (reads_back v (DFinite (round_even _ _) p)).
  - rewrite <- E, Hrb. destruct (reads_back v (DFinite (round_even _ _) p)); [done|].
    by case_match.
Qed.

Lemma shortest_exact fuel t : 1 <= t -> a < t + Z.of_nat fuel -> t <= a ->
  exists c p, shortest fuel v l t = DFinite c p /\
    c * 10 ^ Z.max 0 p * 10 ^ k = n * 10 ^ Z.max 0 (- p) /\ 0 < c <= 10 ^ a /\ p <= l /\ l - a < p.
Proof using Ha Hn Hk Hv.
  revert t. induction fuel as [|fuel IH]; intros t Ht Hf Hle; [lia|]. cbn [shortest].
  destruct (shortest_at v l t) as [d|] eqn:E.
  - unfold shortest_at in E.
    assert (exists c, d = DFinite c (l - t + 1) /\ reads_back v d = true) as (c & -> & Hc).
    { destruct (reads_back v _) eqn:R1; [injection E as <-; eauto|]. clear R1.
      destruct (reads_back v _) eqn:R1; [injection E as <-; eauto|]. clear R1.
      destruct (reads_back v _) eqn:R1; [injection E as <-; eauto|done]. }
    exists c, (l - t + 1). split; [done|]. destruct (candidate_exact t c ltac:(lia) Hc). split_and!; tauto || lia.
  - destruct (Z.eq_dec t a) as [->|]; [by apply found_by_a in E|]. apply IH; lia.
Qed.
End Digits.

(** The text of the float nearest to a decimal of [a <= 15] digits has the
    decimal's value, with a coefficient no longer than that. *)
Lemma str_of_float a n k : 1 <= a <= 15 -> 0 < n < 10 ^ a -> 0 <= k <= 15 ->
  exists v c p, float_of_decimal (DFinite n (- k)) = FNum v /\ 0 < v /\
    decimal_of_str (FNum v) = DFinite c p /\
    c * 10 ^ Z.max 0 p * 10 ^ k = n * 10 ^ Z.max 0 (- p) /\ 0 < c <= 10 ^ a.
Proof.
  intros Ha Hn Hk. cbn [float_of_decimal]. rewrite Z.opp_involutive, (Z.max_l 0 (- k)), (Z.max_r 0 k) by lia.
  rewrite Z.pow_0_r, Z.mul_1_r. pose proof (Z.pow_pos_nonneg 10 k ltac:(lia) ltac:(lia)) as Hp.
  destruct (float_of_ratio_close n (10 ^ k) 50) as (v & Ev & _); [lia|lia| |].
  { assert (10 ^ a <= 10 ^ 15) by (apply Z.pow_le_mono_r; lia). change (10 ^ 15) with 1000000000000000 in *.
    change (2 ^ 50) with 1125899906842624. nia. }
  pose proof (conversion_big a n k v Ha Hn Hk Ev) as Hv.
  destruct (shortest_exact a n k v Ha Hn Hk Ev 17 1) as (c & p & Hs & He & Hc & _); [lia|lia|lia|].
  exists v, c, p. split; [done|]. split; [lia|]. split; [|done]. unfold decimal_of_str.
  destruct (Z.eqb_spec v 0); [lia|]. destruct (Z.ltb_spec v 0); [lia|]. exact Hs.
Qed.
