(* ===== verification/TaxFloat.v ===== *)
(** Tax through floats: a taxable amount that is a difference of binary
    floats, turned into text and multiplied by a rate as decimals, then rounded
    half up to cents.  On amounts below a million dollars the result is the
    half-up rounding of the exact product, except that an exact half cent may
    be lost. *)

From S2P Require Import Prelude Money PyNum StrFloat.

Local Open Scope Z_scope.

(** * Floats stay put *)

(** A float is its own nearest float. *)
Lemma float_again n d v : 0 < d -> float_of_ratio n d = FNum v -> float_of_ratio v least = FNum v.
Proof.
  intros Hd. rewrite !float_of_ratio_eq by done. unfold nearest_float at 1. set (e := Z.max 0 _). set (r := round_even _ _).
  destruct (_ <=? _) eqn:Hb; [done|]. intros [= Hv].
  assert (He : 0 <= e) by lia. pose proof (Z.pow_pos_nonneg 2 e ltac:(lia) He) as Hpe. pose proof least_pos as HL.
  assert (Hx : Z.abs n * least < 2 ^ (e + 53) * d).
  { destruct (Z.le_gt_cases (Z.abs n * least / d) 0) as [H|H].
    { pose proof (Z.div_mod (Z.abs n * least) d ltac:(lia)). pose proof (Z.mod_pos_bound (Z.abs n * least) d Hd).
      pose proof (Z.pow_pos_nonneg 2 (e + 53) ltac:(lia) ltac:(lia)). nia. }
    pose proof (proj2 (Z.log2_spec _ H)) as Hl.
    assert (2 ^ Z.succ (Z.log2 (Z.abs n * least / d)) <= 2 ^ (e + 53)) by (apply Z.pow_le_mono_r; lia).
    pose proof (Z.div_mod (Z.abs n * least) d ltac:(lia)). pose proof (Z.mod_pos_bound (Z.abs n * least) d Hd). nia. }
  assert (Hr : Z.abs r <= 2 ^ 53).
  { pose proof (round_even_spec (n * least) (d * 2 ^ e) ltac:(nia)) as Hs. fold r in Hs.
    rewrite Z.pow_add_r in Hx by lia. rewrite <- (Z.abs_eq least), <- Z.abs_mul in Hx by lia.
    set (y := n * least) in *. set (D := d * 2 ^ e) in *. assert (0 < D) by (unfold D; nia).
    assert (HD : 2 ^ e * 2 ^ 53 * d = 2 ^ 53 * D) by (unfold D; ring). rewrite HD in Hx.
    clearbody y D r. change (2 ^ 53) with 9007199254740992 in *. nia. }
  assert (Hav : Z.abs v = Z.abs r * 2 ^ e) by (rewrite <- Hv; rewrite (Z.abs_mul r), (Z.abs_eq (2 ^ e)); lia).
  clearbody r e.
  destruct (Z.eq_dec v 0) as [->|Hv0].
  { unfold nearest_float. cbn [Z.abs Z.mul]. rewrite round_even_zero by nia. done. }
  assert (Hdiv : exists q, v = 2 ^ Z.max 0 (Z.log2 (Z.abs v) - 52) * q).
  { destruct (Z.eq_dec (Z.abs r) (2 ^ 53)) as [Er|Er].
    - assert (Hlog : Z.log2 (Z.abs v) = e + 53).
      { rewrite Hav, Er, <- Z.pow_add_r by lia. rewrite Z.log2_pow2; lia. }
      rewrite Hlog, Z.max_r by lia. exists (Z.sgn r * 2 ^ 52). replace (e + 53 - 52) with (e + 1) by lia.
      rewrite Z.pow_add_r by lia. rewrite <- Hv. rewrite <- (Z.abs_sgn r) at 1. rewrite Er. change (2 ^ 53) with (2 ^ 1 * 2 ^ 52). ring.
    - assert (Hlog : Z.log2 (Z.abs v) < e + 53).
      { apply Z.log2_lt_pow2; [lia|]. rewrite Z.pow_add_r, Hav by lia. nia. }
      exists (r * 2 ^ (e - Z.max 0 (Z.log2 (Z.abs v) - 52))). rewrite (Z.mul_comm r), Z.mul_assoc, <- Z.pow_add_r by lia.
      rewrite <- Hv. rewrite (Z.mul_comm r). f_equal. f_equal. lia. }
  destruct Hdiv as [q Hq]. unfold nearest_float. rewrite Z.div_mul by lia.
  set (e' := Z.max 0 _) in *. pose proof (Z.pow_pos_nonneg 2 e' ltac:(lia) ltac:(lia)).
  assert (round_even (v * least) (least * 2 ^ e') = q) as ->.
  { rewrite Hq at 1. replace (2 ^ e' * q * least) with (least * 2 ^ e' * q) by ring. apply round_even_exact. nia. }
  rewrite (Z.mul_comm q), <- Hq. rewrite <- Hv in *. by rewrite Hb.
Qed.

(** * Small amounts *)

(** The float [v] is [z] cents up to [err] times [2^-30] cents. *)
Definition fine (v z err : Z) : Prop := 2 ^ 30 * Z.abs (v * 100 - z * least) <= err * least.

Lemma fine_near v z err : err <= 2 ^ 27 -> fine v z err -> near v z (2 ^ 17).
Proof.
  unfold fine, near. intros He Hf. pose proof least_pos. change (2 ^ 30) with 1073741824 in *.
  change (2 ^ 20) with 1048576. change (2 ^ 27) with 134217728 in He. change (2 ^ 17) with 131072. nia.
Qed.

Lemma fine_zero : fine 0 0 0.
Proof. unfold fine. rewrite !Z.mul_0_l. done. Qed.

Lemma fine_cents c : Z.abs c < 10 ^ 8 -> exists v, float_of_decimal (DFinite c (-2)) = FNum v /\ fine v c 7.
Proof.
  intros Hc. rewrite float_of_cents. destruct (float_of_ratio_close c 100 20) as (v & -> & Hv); [lia|lia| |].
  { change (2 ^ 20) with 1048576. change (10 ^ 8) with 100000000 in Hc. lia. }
  exists v. split; [done|]. unfold fine. change (2 ^ 54) with (1048576 * 17179869184) in Hv.
  change (2 ^ 20) with 1048576 in Hv. change (2 ^ 30) with 1073741824. pose proof least_pos. lia.
Qed.

Lemma fine_sub a b x y ea eb :
  fine a x ea -> fine b y eb -> Z.abs (x - y) <= 10 ^ 8 -> ea + eb <= 2 ^ 20 ->
  exists v, float_sub (FNum a) (FNum b) = FNum v /\ fine v (x - y) (ea + eb + 7).
Proof.
  unfold fine. intros Ha Hb Hxy He. pose proof least_pos as HL. cbn [float_sub].
  change (2 ^ 30) with 1073741824 in *. change (2 ^ 20) with 1048576 in He. change (10 ^ 8) with 100000000 in Hxy.
  assert (Hd : 1073741824 * Z.abs ((a - b) * 100 - (x - y) * least) <= (ea + eb) * least) by lia.
  assert (Habs : Z.abs ((x - y) * least) = Z.abs (x - y) * least) by (rewrite Z.abs_mul, (Z.abs_eq least); lia).
  assert ((ea + eb) * least <= 1048576 * least) by nia.
  destruct (float_of_ratio_close (a - b) least 20) as (v & -> & Hv); [done|lia| |].
  { change (2 ^ 20) with 1048576. assert (Z.abs (x - y) * least <= 100000000 * least) by nia. nia. }
  exists v. split; [done|].
  replace (v * least - (a - b) * least) with ((v - (a - b)) * least) in Hv by ring.
  rewrite Z.abs_mul, (Z.abs_eq least) in Hv by lia.
  change (2 ^ 54) with (1048576 * 17179869184) in Hv. change (2 ^ 20) with 1048576 in Hv.
  assert (17179869184 * Z.abs (v - (a - b)) <= least) by nia. lia.
Qed.

Lemma fine_add a b x y ea eb :
  fine a x ea -> fine b y eb -> Z.abs (x + y) <= 10 ^ 8 -> ea + eb <= 2 ^ 20 ->
  exists v, float_add (FNum a) (FNum b) = FNum v /\ fine v (x + y) (ea + eb + 7).
Proof.
  intros Ha Hb Hxy He. unfold float_add. cbn [float_neg]. replace (x + y) with (x - - y) by lia.
  apply fine_sub; [done| |by rewrite Z.sub_opp_r|done].
  unfold fine in *. replace (- b * 100 - - y * least) with (- (b * 100 - y * least)) by ring. by rewrite Z.abs_opp.
Qed.

Lemma fine_max0 v z err : fine v z err -> exists w, float_max0 (FNum v) = FNum w /\ fine w (Z.max z 0) err /\ 0 <= w.
Proof.
  unfold fine, float_max0. intros Hf. cbn [float_gtb]. pose proof least_pos as HL.
  assert (Habs : Z.max z 0 * least = Z.max (z * least) 0) by nia. rewrite Habs.
  change (2 ^ 30) with 1073741824 in *. destruct (Z.ltb_spec v 0) as [H|H]; eexists; (split; [reflexivity|]); lia.
Qed.

(** * Decimal values *)

Definition dnum (c p : Z) : Z := c * 10 ^ Z.max 0 p.
Definition dden (p : Z) : Z := 10 ^ Z.max 0 (- p).

Lemma dden_pos p : 0 < dden p.
Proof. apply Z.pow_pos_nonneg; lia. Qed.

Lemma dnum_mul c1 p1 c2 p2 :
  dnum c1 p1 * dnum c2 p2 * dden (p1 + p2) = dnum (c1 * c2) (p1 + p2) * (dden p1 * dden p2).
Proof.
  unfold dnum, dden.
  assert (10 ^ Z.max 0 p1 * 10 ^ Z.max 0 p2 * 10 ^ Z.max 0 (- (p1 + p2)) =
          10 ^ Z.max 0 (p1 + p2) * 10 ^ Z.max 0 (- p1) * 10 ^ Z.max 0 (- p2)) as E.
  { rewrite <- !Z.pow_add_r by lia. f_equal. lia. }
  transitivity (c1 * c2 * (10 ^ Z.max 0 p1 * 10 ^ Z.max 0 p2 * 10 ^ Z.max 0 (- (p1 + p2)))); [ring|].
  rewrite E. ring.
Qed.

(** The context rounds to 28 digits: by less than [10^-27] of the value. *)
Lemma ctx_close c e : 0 <= c -> exists c' e', ctx c e = DFinite c' e' /\ 0 <= c' /\
  10 ^ 27 * Z.abs (dnum c' e' * dden e - dnum c e * dden e') <= dnum c e * dden e'.
Proof.
  intros Hc. unfold ctx. pose proof (dden_pos e) as He. assert (0 <= dnum c e) as Hn.
  { apply Z.mul_nonneg_nonneg; [done|apply Z.pow_nonneg; lia]. }
  destruct (Z.ltb_spec (Z.abs c) (10 ^ decimal_prec)) as [Hlt|Hge].
  { exists c, e. split; [done|]. split; [done|]. rewrite Z.sub_diag. cbn. nia. }
  fold (dnum c e). fold (dden e). assert (Hn0 : dnum c e <> 0).
  { unfold dnum. pose proof (Z.pow_pos_nonneg 10 (Z.max 0 e) ltac:(lia) ltac:(lia)).
    change (10 ^ decimal_prec) with (10 ^ 28) in Hge. nia. }
  destruct (dec_of_ratio_digits (dnum c e) (dden e) He Hn0) as (p & -> & Hdig).
  fold (dden p) in *. set (A := 10 ^ Z.max 0 p) in *. assert (0 < A) by (apply Z.pow_pos_nonneg; lia).
  pose proof (dden_pos p) as Hp. set (r := round_even _ _).
  pose proof (round_even_spec (dnum c e * dden p) (dden e * A) ltac:(nia)) as Hr. fold r in Hr.
  exists r, p. split; [done|]. assert (dnum r p = r * A) as -> by done. rewrite (Z.abs_eq (dnum c e)) in Hdig by lia.
  set (x := dnum c e * dden p) in *. set (D := dden e) in *. set (T := 10 ^ 27) in *.
  assert (0 < T) by done. clearbody r T. assert (0 <= x) by (unfold x; nia). clearbody x.
  replace (r * A * D) with (D * A * r) by ring. assert (0 < D * A) by nia. set (u := D * A) in *. clearbody u.
  split; [|nia]. destruct (Z.le_gt_cases 0 r); [done|]. nia.
Qed.

(** [quantize] to cents, of a value that is not negative. *)
Lemma quantize_floor c p : 0 <= c ->
  quantize_cents (DFinite c p) =
    (let z := (2 * (dnum c p * 100) + dden p) / (2 * dden p) in
     if z <? 10 ^ decimal_prec then Some z else None).
Proof.
  intros Hc. unfold quantize_cents, dnum, dden.
  assert (Hz : (if -2 <=? p then c * 10 ^ (p + 2) else round_half_up c (-2 - p)) =
    (2 * (c * 10 ^ Z.max 0 p * 100) + 10 ^ Z.max 0 (- p)) / (2 * 10 ^ Z.max 0 (- p))).
  { destruct (Z.leb_spec (-2) p) as [Hp|Hp].
    - destruct (Z.le_gt_cases 0 p) as [H0|H0].
      { rewrite (Z.max_r 0 p), (Z.max_l 0 (- p)) by lia. rewrite Z.pow_add_r by lia.
        apply (Z.div_unique _ _ _ 1); [lia|]. change (10 ^ 2) with 100. lia. }
      assert (p = -1 \/ p = -2) as [-> | ->] by lia.
      + change (10 ^ Z.max 0 (-1)) with 1. change (10 ^ Z.max 0 (- -1)) with 10. change (10 ^ (-1 + 2)) with 10.
        apply (Z.div_unique _ _ _ 10); lia.
      + change (10 ^ Z.max 0 (-2)) with 1. change (10 ^ Z.max 0 (- -2)) with 100. change (10 ^ (-2 + 2)) with 1.
        apply (Z.div_unique _ _ _ 100); lia.
    - rewrite (Z.max_l 0 p), (Z.max_r 0 (- p)) by lia. unfold round_half_up. set (k := -2 - p).
      replace (- p) with (k + 2) by (unfold k; lia). rewrite Z.pow_add_r by (unfold k; lia). change (10 ^ 2) with 100.
      assert (0 < 10 ^ k) by (apply Z.pow_pos_nonneg; unfold k; lia). set (u := 10 ^ k) in *. clearbody u.
      replace (2 * (c * 10 ^ 0 * 100) + u * 100) with ((2 * c + u) * 100) by ring.
      replace (2 * (u * 100)) with (2 * u * 100) by ring. rewrite Z.div_mul_cancel_r by lia.
      destruct (Z.eq_dec c 0) as [->|].
      + change (Z.sgn 0) with 0. rewrite Z.mul_0_l. symmetry. apply Z.div_small. lia.
      + rewrite Z.sgn_pos, Z.abs_eq by lia. apply Z.mul_1_l. }
  rewrite Hz. cbv zeta. set (z := (_ / _)). assert (0 <= z).
  { apply Z.div_pos; [|pose proof (dden_pos p); unfold dden in *; lia].
    pose proof (Z.pow_nonneg 10 (Z.max 0 p)). pose proof (dden_pos p). unfold dden in *. nia. }
  by rewrite Z.abs_eq by lia.
Qed.

(** * Rounding near a half cent *)

(** A value within half a hundred-millionth of [N * 10^-8] rounds to cents
    like it, but for a lost tie. *)
Lemma half_up_close c p N : 0 <= c -> 0 <= N < 10 ^ 24 ->
  2 * Z.abs (dnum c p * 10 ^ 8 - N * dden p) < dden p ->
  exists z, quantize_money (DFinite c p) = Ok (DFinite z (-2)) /\
    (z = round_half_up N 6 \/ z = round_half_up N 6 - 1 /\ N mod 10 ^ 6 = 500000) /\
    (dnum c p * 10 ^ 8 = N * dden p -> z = round_half_up N 6).
Proof.
  intros Hc HN Hy. unfold quantize_money. rewrite quantize_floor by done. cbv zeta.
  pose proof (dden_pos p) as HB. set (B := dden p) in *. set (X := dnum c p) in *. clearbody B X.
  assert (Hm : round_half_up N 6 = (2 * N + 1000000) / 2000000).
  { unfold round_half_up. change (10 ^ 6) with 1000000. change (2 * 1000000) with 2000000. rewrite (Z.abs_eq N) by lia.
    destruct (Z.eq_dec N 0) as [->|]; [done|]. rewrite Z.sgn_pos by lia. apply Z.mul_1_l. }
  rewrite Hm. set (m := (2 * N + 1000000) / 2000000). pose proof (Z.div_mod (2 * N + 1000000) 2000000 ltac:(lia)) as Hdm.
  pose proof (Z.mod_pos_bound (2 * N + 1000000) 2000000 ltac:(lia)) as Hf. fold m in Hdm.
  set (f := (2 * N + 1000000) mod 2000000) in *. clearbody f m.
  set (z := (2 * (X * 100) + B) / (2 * B)). change (10 ^ 8) with 100000000 in *.
  set (Y := X * 100000000 - N * B) in *.
  assert (Hz : 1000000 * (2 * (X * 100) + B) = B * (2000000 * m + f) + 2 * Y) by (unfold Y; nia).
  assert (Hbig : forall k, 0 <= B * f + 2 * Y - 2000000 * B * k < 2000000 * B -> z = m + k).
  { intros k Hk. unfold z. symmetry. apply (Z.div_unique _ _ _ (2 * (X * 100) + B - 2 * B * (m + k))); [|lia].
    left. nia. }
  assert (Hcase : z = m \/ z = m - 1 /\ f = 0 /\ Y < 0).
  { destruct (Z.eq_dec f 0) as [->|H0].
    - destruct (Z.le_gt_cases 0 Y); [left; rewrite (Hbig 0); nia|right]. split; [rewrite (Hbig (-1)); nia|done].
    - left. rewrite (Hbig 0); [lia|]. assert (2 <= f <= 1999998) by lia. nia. }
  assert (z < 10 ^ decimal_prec) as Hfit.
  { change (10 ^ decimal_prec) with (10 ^ 28). change (10 ^ 24) with 1000000000000000000000000 in HN. lia. }
  rewrite (proj2 (Z.ltb_lt _ _) Hfit). exists z. split; [done|]. split.
  - destruct Hcase as [->|(-> & -> & _)]; [by left|right]. split; [done|]. change (10 ^ 6) with 1000000.
    symmetry. apply (Z.mod_unique _ _ (m - 1)); lia.
  - intros E. assert (Y = 0) by (unfold Y; lia). lia.
Qed.

(** * The tax on a float *)

Lemma shortest_nonneg fuel v lead digits : 0 <= v ->
  exists c p, shortest fuel v lead digits = DFinite c p /\ 0 <= c.
Proof.
  intros Hv. revert digits. induction fuel as [|fuel IH]; intros digits; cbn [shortest].
  { eexists _, _. split; [reflexivity|]. apply Z.mul_nonneg_nonneg; [done|apply Z.pow_nonneg; lia]. }
  unfold shortest_at. set (p := lead - digits + 1). set (n := v * _). set (d := least * _). cbv zeta.
  assert (0 <= n) by (apply Z.mul_nonneg_nonneg; [done|apply Z.pow_nonneg; lia]).
  assert (0 < d) by (apply Z.mul_pos_pos; [done|apply Z.pow_pos_nonneg; lia]).
  assert (0 <= n / d) by (by apply Z.div_pos).
  destruct (reads_back v _); [eexists _, _; split; [reflexivity|]|].
  { pose proof (round_even_spec n d ltac:(lia)). set (r := round_even n d) in *. clearbody n d r. nia. }
  destruct (reads_back v _); [eexists _, _; split; [reflexivity|done]|].
  destruct (reads_back v _); [eexists _, _; split; [reflexivity|lia]|apply IH].
Qed.

(** The text of an amount below a million dollars. *)
Lemma str_fine v z err : 0 <= v -> 0 <= z <= 10 ^ 8 -> err <= 2 ^ 20 -> fine v z err ->
  exists c p, decimal_of_str (FNum v) = DFinite c p /\ 0 <= c /\
    2 ^ 32 * Z.abs (dnum c p * 100 - z * dden p) <= dden p * (100 + 4 * err).
Proof.
  intros Hv Hz Herr Hf. unfold decimal_of_str. pose proof least_pos as HL.
  destruct (Z.eqb_spec v 0) as [->|Hv0].
  { exists 0, 0. split; [done|]. split; [done|]. unfold fine in Hf. change (dnum 0 0) with 0. change (dden 0) with 1. change (2 ^ 30) with 1073741824 in Hf. change (2 ^ 32) with 4294967296.
    rewrite Z.mul_0_l, Z.sub_0_l, Z.abs_opp, Z.abs_mul, (Z.abs_eq least), (Z.abs_eq z) in Hf by lia.
    change (2 ^ 20) with 1048576 in Herr. assert (z = 0) as -> by nia. cbn. nia. }
  destruct (Z.ltb_spec v 0); [lia|].
  destruct (shortest_nonneg 17 v (leading_place v) 1 ltac:(lia)) as (c & p & Hs & Hc).
  assert (Hvb : Z.abs v <= 2 ^ 20 * least).
  { unfold fine in Hf. change (2 ^ 30) with 1073741824 in Hf. change (2 ^ 20) with 1048576 in *.
    change (10 ^ 8) with 100000000 in Hz. nia. }
  destruct (shortest_close 17 v (leading_place v) 1 20 ltac:(lia) Hvb) as (c' & p' & Hs' & Hcl).
  rewrite Hs in Hs'. injection Hs' as <- <-. exists c, p. split; [done|]. split; [done|].
  fold (dden p) (dnum c p) in Hcl. pose proof (dden_pos p) as HB. set (B := dden p) in *. set (X := dnum c p) in *.
  clearbody B X. unfold fine in Hf. change (2 ^ 30) with 1073741824 in Hf. change (2 ^ 32) with 4294967296.
  change (2 ^ 52) with (1048576 * 4294967296) in Hcl. change (2 ^ 20) with 1048576 in *.
  assert (H1 : 4294967296 * Z.abs (v * B - X * least) <= B * least) by nia.
  assert (H2 : Z.abs (X * 100 - z * B) * least <= 100 * Z.abs (v * B - X * least) + B * Z.abs (v * 100 - z * least)).
  { assert (Z.abs (X * 100 - z * B) * least = Z.abs ((X * 100 - z * B) * least)) as ->
      by (rewrite Z.abs_mul, (Z.abs_eq least); lia).
    assert (B * Z.abs (v * 100 - z * least) = Z.abs (B * (v * 100 - z * least))) as ->
      by (rewrite Z.abs_mul, (Z.abs_eq B); lia).
    replace ((X * 100 - z * B) * least) with (B * (v * 100 - z * least) - 100 * (v * B - X * least)) by ring. lia. }
  apply (Z.mul_le_mono_pos_r _ _ least); [done|].
  assert (H3 : 4294967296 * (B * Z.abs (v * 100 - z * least)) <= 4 * B * (err * least)) by nia. nia.
Qed.

(** The text of a rate of at most 100%, to six places. *)
Lemma str_rate r : 0 <= r <= 10 ^ 6 ->
  exists c p, decimal_of_str (float_of_decimal (DFinite r (-6))) = DFinite c p /\ 0 <= c <= 10 ^ 7 /\
    dnum c p * 10 ^ 6 = r * dden p.
Proof.
  intros Hr. destruct (Z.eq_dec r 0) as [->|H0].
  { rewrite float_zero. exists 0, 0. done. }
  destruct (str_of_float 7 r 6) as (v & c & p & Hv & _ & Hs & He & Hc); [lia| |lia|].
  { change (10 ^ 6) with 1000000 in Hr. change (10 ^ 7) with 10000000. lia. }
  exists c, p. change (- (6)) with (-6) in Hv. rewrite Hv, Hs. split; [done|]. split; [lia|]. exact He.
Qed.

(** Decimals with values [X1 / B1] and [r / 10^6] multiply to nearly
    [z * r * 10^-8], when the first is nearly [z] cents. *)
Lemma product_close c1 p1 c2 p2 z r M : 0 <= c1 -> 0 <= c2 -> 0 <= z <= 10 ^ 8 -> 0 <= r <= 10 ^ 6 -> M <= 1700 ->
  2 ^ 32 * Z.abs (dnum c1 p1 * 100 - z * dden p1) <= dden p1 * M -> dnum c2 p2 * 10 ^ 6 = r * dden p2 ->
  exists c p, ctx (c1 * c2) (p1 + p2) = DFinite c p /\ 0 <= c /\
    2 * Z.abs (dnum c p * 10 ^ 8 - z * r * dden p) < dden p.
Proof.
  intros Hc1 Hc2 Hz Hr HM H1 H2. destruct (ctx_close (c1 * c2) (p1 + p2) ltac:(nia)) as (c & p & -> & Hc & H3).
  exists c, p. split; [done|]. split; [done|]. pose proof (dnum_mul c1 p1 c2 p2) as Hm.
  pose proof (dden_pos p1) as P1. pose proof (dden_pos p2) as P2. pose proof (dden_pos (p1 + p2)) as P3.
  pose proof (dden_pos p) as P4.
  assert (0 <= dnum (c1 * c2) (p1 + p2)) as HP.
  { apply Z.mul_nonneg_nonneg; [nia|apply Z.pow_nonneg; lia]. }
  set (X1 := dnum c1 p1) in *. set (X2 := dnum c2 p2) in *. set (P := dnum (c1 * c2) (p1 + p2)) in *.
  set (B1 := dden p1) in *. set (B2 := dden p2) in *. set (Q := dden (p1 + p2)) in *. set (B' := dden p) in *.
  set (X' := dnum c p) in *. clearbody X1 X2 P B1 B2 Q B' X'. clear Hc1 Hc2 Hc c1 c2 p1 p2 c p.
  change (10 ^ 6) with 1000000 in *. change (10 ^ 8) with 100000000 in *. change (2 ^ 32) with 4294967296 in *.
  (* the exact product is within M r / 2^32 *)
  assert (E1 : P * B1 * 1000000 = X1 * r * Q).
  { apply (Z.mul_cancel_r _ _ B2); [lia|]. transitivity (X1 * Q * (X2 * 1000000)); [nia|]. rewrite H2. ring. }
  assert (E2 : B1 * (P * 100000000 - z * r * Q) = (X1 * 100 - z * B1) * (r * Q)) by nia.
  assert (F1 : 4294967296 * Z.abs (P * 100000000 - z * r * Q) <= 1700000000 * Q).
  { apply (Z.mul_le_mono_pos_l _ _ B1); [done|].
    replace (B1 * (4294967296 * Z.abs (P * 100000000 - z * r * Q)))
      with (4294967296 * Z.abs (B1 * (P * 100000000 - z * r * Q))) by (rewrite (Z.abs_mul B1), (Z.abs_eq B1); lia).
    rewrite E2, (Z.abs_mul _ (r * Q)), (Z.abs_eq (r * Q)) by nia.
    set (E := Z.abs (X1 * 100 - z * B1)) in *. clearbody E. assert (0 <= r * Q <= 1000000 * Q) by nia.
    assert (4294967296 * E * (r * Q) <= B1 * M * (r * Q)) by nia. nia. }
  assert (Hw : 0 <= z * r * Q <= 100000000000000 * Q) by (assert (0 <= z * r <= 100000000000000) by nia; nia).
  assert (FP : P <= 2000000 * Q) by (clear - F1 Hw P3; set (w := z * r * Q) in *; clearbody w; lia).
  (* and the context keeps it *)
  set (E := X' * Q - P * B') in *.
  assert (F2 : 1000000000000 * (100000000 * Z.abs E) <= Q * B') 
    by (change (10 ^ 27) with 1000000000000000000000000000 in H3; assert (P * B' <= 2000000 * Q * B') by nia; lia).
  assert (E3 : Q * (X' * 100000000 - z * r * B') = 100000000 * E + B' * (P * 100000000 - z * r * Q)) by (unfold E; ring).
  assert (F3 : Q * Z.abs (X' * 100000000 - z * r * B') <=
               100000000 * Z.abs E + B' * Z.abs (P * 100000000 - z * r * Q)).
  { assert (Q * Z.abs (X' * 100000000 - z * r * B') = Z.abs (Q * (X' * 100000000 - z * r * B'))) as ->
      by (rewrite Z.abs_mul, (Z.abs_eq Q); lia).
    assert (B' * Z.abs (P * 100000000 - z * r * Q) = Z.abs (B' * (P * 100000000 - z * r * Q))) as ->
      by (rewrite Z.abs_mul, (Z.abs_eq B'); lia). rewrite E3. lia. }
  clearbody E. set (G := Z.abs (X' * 100000000 - z * r * B')) in *. set (H := Z.abs (P * 100000000 - z * r * Q)) in *.
  clearbody G H. assert (4294967296 * (B' * H) <= 1700000000 * (Q * B')) by nia.
  assert (Q * (2 * G) < Q * B') by nia. nia.
Qed.

(** The tax the estimates compute, on a float that is [z] cents but for a
    small error. *)
Lemma float_tax v z err r : 0 <= v -> 0 <= z <= 10 ^ 8 -> err <= 400 -> 0 <= r <= 10 ^ 6 -> fine v z err ->
  exists tax, (let! product := dec_mul (decimal_of_str (FNum v)) (decimal_of_str (float_of_decimal (DFinite r (-6)))) in
               quantize_money product) = Ok (DFinite tax (-2)) /\
    (tax = round_half_up (z * r) 6 \/ tax = round_half_up (z * r) 6 - 1 /\ (z * r) mod 10 ^ 6 = 500000).
Proof.
  intros Hv Hz He Hr Hf. destruct (str_fine v z err Hv Hz ltac:(change (2 ^ 20) with 1048576; lia) Hf) as (c1 & p1 & -> & Hc1 & H1).
  destruct (str_rate r Hr) as (c2 & p2 & -> & Hc2 & H2). cbn [dec_mul rbind].
  destruct (product_close c1 p1 c2 p2 z r (100 + 4 * err)) as (c & p & -> & Hc & H3); try done; [lia..|].
  cbn [rbind]. destruct (half_up_close c p (z * r) Hc) as (tax & -> & Ht & _); [|done|by exists tax].
  change (10 ^ 8) with 100000000 in Hz. change (10 ^ 6) with 1000000 in Hr. change (10 ^ 24) with 1000000000000000000000000. nia.
Qed.

(** Where the float is that of the amount itself, no tie is lost. *)
Lemma float_tax_exact z r : 0 <= z < 10 ^ 12 -> 0 <= r <= 10 ^ 6 ->
  (let! product := dec_mul (decimal_of_str (float_of_decimal (DFinite z (-2))))
                     (decimal_of_str (float_of_decimal (DFinite r (-6)))) in
   quantize_money product) = Ok (DFinite (round_half_up (z * r) 6) (-2)).
Proof.
  intros Hz Hr. destruct (str_rate r Hr) as (c2 & p2 & -> & Hc2 & H2).
  assert (exists c1 p1, decimal_of_str (float_of_decimal (DFinite z (-2))) = DFinite c1 p1 /\
            0 <= c1 <= 10 ^ 12 /\ dnum c1 p1 * 100 = z * dden p1) as (c1 & p1 & -> & Hc1 & H1).
  { destruct (Z.eq_dec z 0) as [->|H0]; [rewrite float_zero; by exists 0, 0|].
    destruct (str_of_float 12 z 2) as (v & c & p & Hv & _ & Hs & He & Hc); [lia|lia|lia|].
    change (- (2)) with (-2) in Hv. exists c, p. rewrite Hv, Hs. split_and!; [done|lia|lia|exact He]. }
  cbn [dec_mul rbind]. assert (0 <= c1 * c2 < 10 ^ 28) as Hp.
  { change (10 ^ 12) with 1000000000000 in Hc1. change (10 ^ 7) with 10000000 in Hc2.
    change (10 ^ 28) with 10000000000000000000000000000. nia. }
  rewrite ctx_exact by (change (10 ^ decimal_prec) with (10 ^ 28); lia). cbn [rbind].
  assert (E : dnum (c1 * c2) (p1 + p2) * 10 ^ 8 = z * r * dden (p1 + p2)).
  { pose proof (dnum_mul c1 p1 c2 p2) as Hm. pose proof (dden_pos p1) as P1. pose proof (dden_pos p2) as P2.
    apply (Z.mul_cancel_r _ _ (dden p1 * dden p2)); [nia|]. change (10 ^ 8) with (100 * 10 ^ 6).
    transitivity (dnum (c1 * c2) (p1 + p2) * (dden p1 * dden p2) * (100 * 10 ^ 6)); [ring|]. rewrite <- Hm.
    transitivity (dnum c1 p1 * 100 * (dnum c2 p2 * 10 ^ 6) * dden (p1 + p2)); [ring|]. rewrite H1, H2. ring. }
  destruct (half_up_close (c1 * c2) (p1 + p2) (z * r) ltac:(lia)) as (tax & -> & _ & Ht).
  - change (10 ^ 12) with 1000000000000 in Hz. change (10 ^ 6) with 1000000 in Hr. change (10 ^ 24) with 1000000000000000000000000. nia.
  - rewrite E, Z.sub_diag. apply dden_pos.
  - by rewrite (Ht E).
Qed.
