(* ===== verification/PayPeriods.v ===== *)
(** [core/pay_periods.py]: pay-period arithmetic, the recipient list, and the
    shop's calendar day of an instant (which the posting rules date entries
    with).

    Dates are ordinals, so Python's [date.min]/[date.max] overflow is outside
    the model.  A value that is neither [None], a date nor a datetime (a text
    instant) is outside the model too.  The per-session cache of the zone name
    is a read of the same row, which nothing modelled here writes. *)

From S2P Require Import Prelude PyStr Dates Money Models.

Local Open Scope Z_scope.

(** * Configuration *)

Definition CADENCE_WEEKLY_MON : string := "weekly_mon".
Definition CADENCE_WEEKLY_SUN : string := "weekly_sun".
Definition CADENCE_BIWEEKLY : string := "biweekly".
Definition CADENCE_SEMIMONTHLY : string := "semimonthly".
Definition CADENCES : list string :=
  [CADENCE_WEEKLY_MON; CADENCE_WEEKLY_SUN; CADENCE_BIWEEKLY; CADENCE_SEMIMONTHLY].
Definition DEFAULT_CADENCE : string := CADENCE_WEEKLY_MON.

Record PayPeriod : Type := mk_period { start : date; end_ : date }.

Definition days (p : PayPeriod) : Z := end_ p - start p + 1.
Definition contains (p : PayPeriod) (day : date) : bool := (start p <=? day) && (day <=? end_ p).

(** The values a date-like setting holds. *)
Inductive day_value : Type := DVNone | DVDate (d : date) | DVDatetime (ts : datetime).

Definition _coerce_date (value : day_value) : option date :=
  match value with
  | DVNone => None
  | DVDatetime ts => Some (dt_date ts)
  | DVDate d => Some d
  end.

Definition normalize_cadence (value : option string) : string :=
  let text := str_lower (str_strip (default "" value)) in
  if existsb (String.eqb text) CADENCES then text else DEFAULT_CADENCE.

(** * Periods *)

Definition period_containing (day : date) (cadence : option string) (anchor_start : day_value)
  : result PayPeriod :=
  let cadence := normalize_cadence cadence in
  let anchor := _coerce_date anchor_start in
  if String.eqb cadence CADENCE_WEEKLY_MON then
    let s := day - date_weekday day in Ok (mk_period s (s + 6))
  else if String.eqb cadence CADENCE_WEEKLY_SUN then
    let s := day - (date_weekday day + 1) mod 7 in Ok (mk_period s (s + 6))
  else if String.eqb cadence CADENCE_BIWEEKLY then
    match anchor with
    | None => Err PayPeriodUnconfigured
    | Some anchor =>
        let index := (day - anchor) / 14 in
        let s := anchor + 14 * index in
        Ok (mk_period s (s + 13))
    end
  else if String.eqb cadence CADENCE_SEMIMONTHLY then
    if date_day day <=? 15 then
      let! a := date_replace_day day 1 in
      let! b := date_replace_day day 15 in
      Ok (mk_period a b)
    else
      let last := days_in_month (date_year day) (date_month day) in
      let! a := date_replace_day day 16 in
      let! b := date_replace_day day last in
      Ok (mk_period a b)
  else Err PayPeriodUnconfigured.

Definition previous_period (period : PayPeriod) (cadence : option string) (anchor_start : day_value)
  : result PayPeriod := period_containing (start period - 1) cadence anchor_start.

Definition next_period (period : PayPeriod) (cadence : option string) (anchor_start : day_value)
  : result PayPeriod := period_containing (end_ period + 1) cadence anchor_start.

Definition pay_date (period : PayPeriod) (lag_days : option Z) : date :=
  end_ period + Z.max 0 (default 0 lag_days).

(** The columns of an [AppSettings] row this module reads. *)
Record PaySettings : Type := mk_pay_settings {
  pay_period_cadence : option string;
  pay_period_anchor_start : day_value;
  pay_period_pay_lag_days : option Z
}.

Definition settings_config (settings : PaySettings) : string * option date * Z :=
  (normalize_cadence (pay_period_cadence settings),
   _coerce_date (pay_period_anchor_start settings),
   default 0 (pay_period_pay_lag_days settings)).

Definition as_day_value (d : option date) : day_value :=
  match d with Some x => DVDate x | None => DVNone end.

Definition current_period (day : date) (settings : PaySettings) : result PayPeriod :=
  let '(cadence, anchor, _) := settings_config settings in
  period_containing day (Some cadence) (as_day_value anchor).

Definition is_close_day (day : date) (settings : PaySettings) : result (option PayPeriod) :=
  let '(cadence, anchor, _) := settings_config settings in
  let yesterday := day - 1 in
  let! period := period_containing yesterday (Some cadence) (as_day_value anchor) in
  Ok (if end_ period =? yesterday then Some period else None).

(** * Recipient list *)

Definition is_recipient_sep (c : ascii) : bool :=
  Ascii.eqb c "," || Ascii.eqb c ";" || Ascii.eqb c "010".

(** [re.split] on one or more separators.  Runs of separators only add empty
    chunks, which the loop skips, so splitting at each one is the same. *)
Fixpoint split_recipients (acc s : string) : list string :=
  match s with
  | EmptyString => [acc]
  | String c s' =>
      if is_recipient_sep c then acc :: split_recipients EmptyString s'
      else split_recipients (acc +:+ String c EmptyString) s'
  end.

Fixpoint dedupe_recipients (seen : list string) (chunks : list string) : list string :=
  match chunks with
  | [] => []
  | chunk :: chunks' =>
      let addr := str_strip chunk in
      let key := str_lower addr in
      if String.eqb addr "" then dedupe_recipients seen chunks'
      else if existsb (String.eqb key) seen then dedupe_recipients seen chunks'
      else addr :: dedupe_recipients (key :: seen) chunks'
  end.

Definition parse_recipient_emails (raw : option string) : list string :=
  dedupe_recipients [] (split_recipients EmptyString (default "" raw)).

(** * The shop's calendar day *)

Definition DEFAULT_SHOP_TZ : string := "America/New_York".

Section Zone.
Context `{W : World}.

(** The zone as its UTC-offset function. *)
Definition resolve_zone (tz_name : option string) : Z -> Z :=
  match tz_name with
  | Some (String c s) => default (fun _ => 0) (zoneinfo (String c s))
  | _ => default (fun _ => 0) (zoneinfo "UTC")
  end.

Definition shop_today (tz_name : option string) (now : datetime) : date :=
  dt_zone_date (resolve_zone tz_name) now.

Definition _usable_shop_tz (tz_name : option string) : string :=
  match tz_name with
  | Some (String c s) => match zoneinfo (String c s) with
                         | Some _ => String c s
                         | None => DEFAULT_SHOP_TZ
                         end
  | _ => DEFAULT_SHOP_TZ
  end.

Definition shop_tz_name_from_settings (d : Db) : string :=
  _usable_shop_tz (op_app_timezone (db_ops d)).

Definition shop_today_from_settings (d : Db) : date :=
  shop_today (Some (shop_tz_name_from_settings d)) (mk_datetime (op_now (db_ops d)) (Some 0)).

Definition shop_day_of (value : day_value) (tz_name : option string) : option date :=
  match value with
  | DVNone => None
  | DVDatetime ts => Some (dt_zone_date (resolve_zone tz_name) ts)
  | DVDate d => Some d
  end.
End Zone.

(** * Lemmas *)

(** The cadence can produce a period: it is calendar-derived or anchored. *)
Definition configured (cadence : option string) (anchor : day_value) : Prop :=
  normalize_cadence cadence = CADENCE_BIWEEKLY -> _coerce_date anchor <> None.

Lemma normalize_cadence_cases c :
  normalize_cadence c = CADENCE_WEEKLY_MON \/ normalize_cadence c = CADENCE_WEEKLY_SUN \/
  normalize_cadence c = CADENCE_BIWEEKLY \/ normalize_cadence c = CADENCE_SEMIMONTHLY.
Proof.
  unfold normalize_cadence. case_if; [|by left].
  apply existsb_elem in E as (x & Hx & ->%String.eqb_eq). unfold CADENCES in Hx.
  repeat (apply elem_of_cons in Hx as [->|Hx]; [tauto|]). by apply elem_of_nil in Hx.
Qed.

(** The half-month of a day, by offsets from its first of the month. *)
Definition half_month (day : date) : PayPeriod :=
  let first := day - date_day day in
  if date_day day <=? 15 then mk_period (first + 1) (first + 15)
  else mk_period (first + 16) (first + days_in_month (date_year day) (date_month day)).

(** What [period_containing] computes for each cadence. *)
Lemma period_containing_cases day c anchor :
  configured c anchor ->
  exists p, period_containing day c anchor = Ok p /\
  ((normalize_cadence c = CADENCE_WEEKLY_MON /\
      p = mk_period (day - (day + 6) mod 7) (day - (day + 6) mod 7 + 6)) \/
   (normalize_cadence c = CADENCE_WEEKLY_SUN /\
      p = mk_period (day - ((day + 6) mod 7 + 1) mod 7) (day - ((day + 6) mod 7 + 1) mod 7 + 6)) \/
   (exists a, normalize_cadence c = CADENCE_BIWEEKLY /\ _coerce_date anchor = Some a /\
      p = mk_period (a + 14 * ((day - a) / 14)) (a + 14 * ((day - a) / 14) + 13)) \/
   (normalize_cadence c = CADENCE_SEMIMONTHLY /\ p = half_month day)).
Proof.
  intros Hc. unfold period_containing, configured, half_month in *.
  destruct (date_ymd day) as (_ & Hm & Hd).
  pose proof (days_in_month_bounds (date_year day) (date_month day) Hm) as Hb.
  destruct (normalize_cadence_cases c) as [E|[E|[E|E]]]; rewrite E in *.
  - eexists. split; [reflexivity|]. left. done.
  - eexists. split; [reflexivity|]. right; left. done.
  - destruct (_coerce_date anchor) as [a|] eqn:Ha; [|by destruct Hc].
    eexists. split; [reflexivity|]. right; right; left. by exists a.
  - change (String.eqb CADENCE_SEMIMONTHLY CADENCE_WEEKLY_MON) with false.
    change (String.eqb CADENCE_SEMIMONTHLY CADENCE_WEEKLY_SUN) with false.
    change (String.eqb CADENCE_SEMIMONTHLY CADENCE_BIWEEKLY) with false.
    change (String.eqb CADENCE_SEMIMONTHLY CADENCE_SEMIMONTHLY) with true. cbv iota.
    destruct (Z.leb_spec (date_day day) 15).
    + rewrite !date_replace_day_Ok by lia. cbn. eexists. split; [done|]. auto.
    + rewrite !date_replace_day_Ok by lia. cbn. eexists. split; [done|]. auto.
Qed.

(** A day of the same month, found by its offset from the first. *)
Lemma same_month day k :
  1 <= k <= days_in_month (date_year day) (date_month day) ->
  let day' := day - date_day day + k in
  date_year day' = date_year day /\ date_month day' = date_month day /\ date_day day' = k.
Proof.
  intros Hk day'. destruct (date_ymd day) as (E & Hm & Hd).
  assert (day' = ymd2ord (date_year day) (date_month day) k) as ->
    by (unfold day', ymd2ord in *; lia).
  apply date_of_ymd. split; done.
Qed.

Lemma half_month_partition day day' :
  let p := half_month day in
  start p <= day <= end_ p /\ (start p <= day' <= end_ p -> half_month day' = p).
Proof.
  cbn zeta. unfold half_month. destruct (date_ymd day) as (E & Hm & Hd).
  pose proof (days_in_month_bounds (date_year day) (date_month day) Hm) as Hb.
  destruct (Z.leb_spec (date_day day) 15); cbn [start end_]; (split; [lia|]); intros Hd'.
  - destruct (same_month day (day' - day + date_day day)) as (H1 & H2 & H3); [lia|].
    replace (day - date_day day + (day' - day + date_day day)) with day' in * by lia.
    rewrite H3. destruct (Z.leb_spec (day' - day + date_day day) 15); [|lia]. f_equal; lia.
  - destruct (same_month day (day' - day + date_day day)) as (H1 & H2 & H3); [lia|].
    replace (day - date_day day + (day' - day + date_day day)) with day' in * by lia.
    rewrite H1, H2, H3. destruct (Z.leb_spec (day' - day + date_day day) 15); [lia|]. f_equal; lia.
Qed.

(** Every day of a period derives that same period. *)
Lemma period_partition day c anchor p :
  configured c anchor -> period_containing day c anchor = Ok p ->
  start p <= day <= end_ p /\
  forall day', start p <= day' <= end_ p -> period_containing day' c anchor = Ok p.
Proof.
  intros Hc E. destruct (period_containing_cases day c anchor Hc) as (p' & E' & Hcase).
  rewrite E in E'. injection E' as <-.
  split.
  - destruct Hcase as [[_ ->]|[[_ ->]|[(a & _ & _ & ->)|[_ ->]]]]; cbn [start end_];
      try (Z.div_mod_to_equations; lia). apply half_month_partition. exact day.
  - intros day' Hd'. destruct (period_containing_cases day' c anchor Hc) as (q & Eq & Hcase').
    rewrite Eq. f_equal.
    destruct Hcase as [[N ->]|[[N ->]|[(a & N & Ha & ->)|[N ->]]]];
    destruct Hcase' as [[N' ->]|[[N' ->]|[(a' & N' & Ha' & ->)|[N' ->]]]];
      try (rewrite N in N'; discriminate N'); cbn [start end_] in Hd'.
    + assert (day' - (day' + 6) mod 7 = day - (day + 6) mod 7) by (Z.div_mod_to_equations; lia).
      f_equal; lia.
    + assert (day' - ((day' + 6) mod 7 + 1) mod 7 = day - ((day + 6) mod 7 + 1) mod 7)
        by (Z.div_mod_to_equations; lia). f_equal; lia.
    + assert (a' = a) as -> by congruence.
      assert ((day' - a) / 14 = (day - a) / 14) as -> by (Z.div_mod_to_equations; lia). done.
    + by apply half_month_partition.
Qed.

Lemma normalize_cadence_idem c : normalize_cadence (Some (normalize_cadence c)) = normalize_cadence c.
Proof. destruct (normalize_cadence_cases c) as [E|[E|[E|E]]]; rewrite E; reflexivity. Qed.

Lemma coerce_as_day_value o : _coerce_date (as_day_value o) = o.
Proof. by destruct o. Qed.

Lemma period_containing_ext day c a c' a' :
  normalize_cadence c' = normalize_cadence c -> _coerce_date a' = _coerce_date a ->
  period_containing day c' a' = period_containing day c a.
Proof. unfold period_containing. by intros -> ->. Qed.

Lemma current_period_containing day s :
  current_period day s = period_containing day (pay_period_cadence s) (pay_period_anchor_start s).
Proof.
  unfold current_period, settings_config.
  apply period_containing_ext; [apply normalize_cadence_idem|apply coerce_as_day_value].
Qed.

(** ** Recipients *)

Lemma rstrip_last p s c : p c = false -> str_rstrip p (s +:+ String c EmptyString) = s +:+ String c EmptyString.
Proof.
  intros Hc. induction s as [|x s IH]; cbn [str_rstrip]; [change (EmptyString +:+ ?t) with t; cbn; by rewrite Hc|].
  rewrite str_app_cons. cbn [str_rstrip]. rewrite IH. by destruct s.
Qed.

Lemma rstrip_shape p s :
  str_rstrip p s = EmptyString \/ exists t c, p c = false /\ str_rstrip p s = t +:+ String c EmptyString.
Proof.
  induction s as [|x s IH]; cbn [str_rstrip]; [by left|].
  destruct IH as [->|(t & c & Hc & ->)].
  - destruct (p x) eqn:E; [by left|]. right. exists EmptyString, x. done.
  - right. exists (String x t), c. split; [done|]. rewrite str_app_cons. by destruct t.
Qed.

Lemma rstrip_idem p s : str_rstrip p (str_rstrip p s) = str_rstrip p s.
Proof. destruct (rstrip_shape p s) as [->|(t & c & Hc & ->)]; [done|by apply rstrip_last]. Qed.

Lemma lstrip_rstrip_head p c s :
  p c = false -> str_lstrip p (str_rstrip p (String c s)) = str_rstrip p (String c s).
Proof. intros Hc. cbn [str_rstrip]. destruct (str_rstrip p s); cbn; by rewrite ?Hc; cbn; rewrite ?Hc. Qed.

Lemma lstrip_shape p s :
  str_lstrip p s = EmptyString \/ exists c t, p c = false /\ str_lstrip p s = String c t.
Proof.
  induction s as [|x s IH]; cbn [str_lstrip]; [by left|].
  destruct (p x) eqn:E; [done|]. right. by exists x, s.
Qed.

Lemma strip_idem s : str_strip (str_strip s) = str_strip s.
Proof.
  unfold str_strip. destruct (lstrip_shape chr_isspace s) as [->|(c & t & Hc & ->)]; [done|].
  rewrite lstrip_rstrip_head by done. apply rstrip_idem.
Qed.

Lemma str_all_rstrip q p s : str_all q s = true -> str_all q (str_rstrip p s) = true.
Proof.
  induction s as [|c s IH]; cbn [str_all str_rstrip]; [done|].
  intros [Hc Hs]%andb_prop. specialize (IH Hs).
  destruct (str_rstrip p s); [destruct (p c); cbn; by rewrite ?Hc|]. cbn [str_all] in *. by rewrite Hc.
Qed.

Lemma str_all_lstrip q p s : str_all q s = true -> str_all q (str_lstrip p s) = true.
Proof.
  induction s as [|c s IH]; cbn [str_all str_lstrip]; [done|].
  intros H. destruct (p c); [|done]. apply andb_prop in H as [_ H]. auto.
Qed.

Definition no_sep (s : string) : Prop := str_all (fun c => negb (is_recipient_sep c)) s = true.

Lemma split_no_sep acc s : no_sep acc -> Forall no_sep (split_recipients acc s).
Proof.
  revert acc. induction s as [|c s IH]; intros acc Hacc; cbn [split_recipients]; [by constructor|].
  destruct (is_recipient_sep c) eqn:E; [constructor; [done|by apply IH]|].
  apply IH. unfold no_sep. rewrite str_all_app. unfold no_sep in Hacc. rewrite Hacc. cbn. by rewrite E.
Qed.

Lemma split_prefix acc a s :
  no_sep a -> split_recipients acc (a +:+ String "," s) = (acc +:+ a) :: split_recipients EmptyString s.
Proof.
  revert acc. unfold no_sep. induction a as [|c a IH]; intros acc Ha.
  - by rewrite str_app_nil_r.
  - rewrite str_app_cons. cbn [split_recipients]. cbn [str_all] in Ha.
    apply andb_prop in Ha as [Hc%negb_true_iff Ha]. rewrite Hc, IH by done.
    by rewrite str_app_assoc.
Qed.

Lemma split_last acc a : no_sep a -> split_recipients acc a = [acc +:+ a].
Proof.
  revert acc. unfold no_sep. induction a as [|c a IH]; intros acc Ha; [by rewrite str_app_nil_r|].
  cbn [split_recipients]. cbn [str_all] in Ha.
  apply andb_prop in Ha as [Hc%negb_true_iff Ha]. rewrite Hc, IH by done.
  by rewrite str_app_assoc.
Qed.

Fixpoint join_commas (l : list string) : string :=
  match l with
  | [] => EmptyString
  | [a] => a
  | a :: l' => a +:+ String "," (join_commas l')
  end.

Lemma split_join l : l <> [] -> Forall no_sep l -> split_recipients EmptyString (join_commas l) = l.
Proof.
  intros Hne Hl. induction Hl as [|a l Ha Hl IH]; [done|].
  destruct l as [|b l]; [by apply split_last|].
  change (join_commas (a :: b :: l)) with (a +:+ String "," (join_commas (b :: l))).
  rewrite split_prefix by done. rewrite IH by done. done.
Qed.

(** The addresses kept: stripped, non-empty, no two equal ignoring case. *)
Definition clean_recipients (seen l : list string) : Prop :=
  Forall (fun a => a <> EmptyString /\ str_strip a = a /\ no_sep a) l /\
  NoDup (map str_lower l) /\ forall a, a ∈ l -> str_lower a ∉ seen.

Lemma dedupe_clean seen chunks :
  Forall no_sep chunks -> clean_recipients seen (dedupe_recipients seen chunks).
Proof.
  intros H. revert seen. induction H as [|chunk chunks Hch H IH]; intros seen; cbn [dedupe_recipients].
  { split_and!; [constructor|constructor|]. intros a Ha. by apply elem_of_nil in Ha. }
  destruct (String.eqb_spec (str_strip chunk) ""); [apply IH|].
  destruct (existsb _ seen) eqn:E; [apply IH|].
  destruct (IH (str_lower (str_strip chunk) :: seen)) as (H1 & H2 & H3). split_and!.
  - constructor; [|done]. split_and!; [done|apply strip_idem|].
    by apply str_all_rstrip, str_all_lstrip.
  - cbn [map]. apply NoDup_cons. split; [|done].
    intros (a & Ha & Heq)%elem_of_map_b. apply (H3 a Ha). rewrite Heq. apply list_elem_of_here.
  - intros a [->|Ha]%elem_of_cons.
    + intros Hin. apply not_true_iff_false in E. apply E, existsb_elem. eexists. split; [done|].
      apply String.eqb_refl.
    + intros Hin. by apply (H3 a Ha), list_elem_of_further.
Qed.

Lemma dedupe_id seen l : clean_recipients seen l -> dedupe_recipients seen l = l.
Proof.
  revert seen. induction l as [|a l IH]; intros seen (H1 & H2 & H3); [done|]. cbn [dedupe_recipients].
  apply Forall_cons in H1 as [(Hne & Hs & _) H1]. rewrite Hs.
  destruct (String.eqb_spec a ""); [done|].
  destruct (existsb _ seen) eqn:E.
  { apply existsb_elem in E as (x & Hx & <-%String.eqb_eq). by destruct (H3 a (list_elem_of_here _ _)). }
  f_equal. apply IH. cbn [map] in H2. apply NoDup_cons in H2 as [Ha H2]. split_and!; [done..|].
  intros b Hb [Heq|Hin]%elem_of_cons.
  - apply Ha. rewrite <- Heq. apply elem_of_map_b. eauto.
  - by apply (H3 b (list_elem_of_further _ _ _ Hb)).
Qed.

(** * Properties *)

(** pay periods tile the calendar.  For any configured cadence every day
    has a period that contains it, every day of a period derives that same
    period, the next period starts the day after it ends and its previous
    period is it again; weekly periods have 7 days, biweekly ones 14,
    semi-monthly ones 13 to 16.  An unanchored biweekly cadence is refused. *)
Theorem pay_periods_tile day cadence anchor :
  (configured cadence anchor ->
   exists p, period_containing day cadence anchor = Ok p /\ contains p day = true /\
     (forall day', contains p day' = true -> period_containing day' cadence anchor = Ok p) /\
     (exists q, next_period p cadence anchor = Ok q /\ start q = end_ p + 1 /\
        previous_period q cadence anchor = Ok p) /\
     (if String.eqb (normalize_cadence cadence) CADENCE_BIWEEKLY then days p = 14
      else if String.eqb (normalize_cadence cadence) CADENCE_SEMIMONTHLY then 13 <= days p <= 16
      else days p = 7)) /\
  (~ configured cadence anchor ->
   period_containing day cadence anchor = Err PayPeriodUnconfigured).
Proof.
  split.
  - intros Hc. destruct (period_containing_cases day cadence anchor Hc) as (p & Ep & Hcase).
    destruct (period_partition day cadence anchor p Hc Ep) as [Hin Hall].
    destruct (period_containing_cases (end_ p + 1) cadence anchor Hc) as (q & Eq & _).
    destruct (period_partition _ cadence anchor q Hc Eq) as [Hinq Hallq].
    assert (start q = end_ p + 1) as Hq.
    { destruct (decide (start q <= end_ p)) as [Hle|]; [|lia].
      specialize (Hallq (end_ p) ltac:(lia)). specialize (Hall (end_ p) ltac:(lia)).
      assert (q = p) as -> by congruence. lia. }
    exists p. unfold contains. split_and!; [done|lia| | |].
    + intros day' Hd'. apply Hall. lia.
    + exists q. unfold next_period, previous_period. split_and!; [done..|]. apply Hall. lia.
    + unfold days.
      destruct Hcase as [[-> ->]|[[-> ->]|[(a & -> & _ & ->)|[-> ->]]]]; cbn; [lia..|].
      unfold half_month. destruct (date_ymd day) as (_ & Hm & _).
      pose proof (days_in_month_bounds (date_year day) _ Hm).
      case_if; cbn; lia.
  - intros Hc. unfold period_containing, configured in *.
    destruct (decide (normalize_cadence cadence = CADENCE_BIWEEKLY)) as [E|E]; [|naive_solver].
    destruct (_coerce_date anchor) eqn:Ha; [naive_solver|]. by rewrite E.
Qed.

(** the scheduled send fires exactly once per period: for a configured
    shop, [is_close_day] answers a period on the day after its last day and on
    no other day. *)
Theorem close_day_once settings day p x
    (Hc : configured (pay_period_cadence settings) (pay_period_anchor_start settings))
    (Hp : current_period day settings = Ok p) :
  is_close_day x settings = Ok (Some p) <-> x = end_ p + 1.
Proof.
  rewrite current_period_containing in Hp.
  destruct (period_partition day _ _ p Hc Hp) as [Hin Hall].
  assert (is_close_day x settings =
    (let! period := period_containing (x - 1) (pay_period_cadence settings)
                      (pay_period_anchor_start settings) in
     Ok (if end_ period =? x - 1 then Some period else None))) as ->.
  { unfold is_close_day, settings_config.
    erewrite period_containing_ext; [done|apply normalize_cadence_idem|apply coerce_as_day_value]. }
  split.
  - intros H. minv H. destruct (Z.eqb_spec (end_ a) (x - 1)); [|done]. simplify_eq. lia.
  - intros ->. replace (end_ p + 1 - 1) with (end_ p) by lia.
    rewrite Hall by lia. cbn. by rewrite Z.eqb_refl.
Qed.

Lemma close_day_once_witness :
  is_close_day 739859 (mk_pay_settings (Some "Biweekly ") (DVDate 739845) (Some 5)) =
    Ok (Some (mk_period 739845 739858)).
Proof.
  apply (close_day_once (mk_pay_settings (Some "Biweekly ") (DVDate 739845) (Some 5)) 739850).
  - intros _. discriminate.
  - vm_compute. reflexivity.
  - reflexivity.
Defined.

(** The stored recipient text reads back to a clean list: no address is
    blank or padded, no two agree ignoring case, and writing the list back
    joined with commas parses to exactly the same list. *)
Theorem recipients_roundtrip raw :
  let out := parse_recipient_emails raw in
  Forall (fun a => a <> EmptyString /\ str_strip a = a) out /\
  NoDup (map str_lower out) /\
  parse_recipient_emails (Some (join_commas out)) = out.
Proof.
  cbn zeta. unfold parse_recipient_emails at 1 2.
  destruct (dedupe_clean [] (split_recipients EmptyString (default "" raw))) as (H1 & H2 & H3);
    [by apply split_no_sep|].
  fold (parse_recipient_emails raw) in *. split_and!.
  - eapply Forall_impl; [exact H1|]. naive_solver.
  - done.
  - destruct (decide (parse_recipient_emails raw = [])) as [->|Hne]; [done|].
    unfold parse_recipient_emails at 1. cbn [default]. unfold id.
    rewrite split_join; [|done|eapply Forall_impl; [exact H1|]; naive_solver].
    by apply dedupe_id.
Qed.
