(* ===== verification/Keys.v ===== *)
(** [modules/ledger/keys.py]: canonical JSON and the content hash, the
    idempotency-key forms, and [compute_seq], the count of reversed entries
    under a key prefix. *)

From S2P Require Import Prelude PyStr Dates Money Models.
From stdpp Require Import sorting.

Local Open Scope Z_scope.

(** * Canonical JSON *)

(** The Python values that reach [content_hash]. *)
Inductive pyobj : Type :=
  | ONone
  | OStr (s : string)
  | OBool (b : bool)
  | OInt (z : Z)
  | OFloat
  | OMap (items : list (pyobj * pyobj))
  | OList (l : list pyobj)
  | OTuple (l : list pyobj)
  | OOther.

(** [_validate_canonical] *)
Fixpoint _validate_canonical (value : pyobj) : result unit :=
  match value with
  | ONone | OStr _ | OBool _ | OInt _ => Ok tt
  | OFloat => Err TypeError
  | OMap items =>
      (fix go (items : list (pyobj * pyobj)) : result unit :=
         match items with
         | [] => Ok tt
         | (k, v) :: items' =>
             match k with
             | OStr _ => let! _ := _validate_canonical v in go items'
             | _ => Err TypeError
             end
         end) items
  | OList l | OTuple l =>
      (fix go (l : list pyobj) : result unit :=
         match l with
         | [] => Ok tt
         | v :: l' => let! _ := _validate_canonical v in go l'
         end) l
  | OOther => Err TypeError
  end.

Definition json_u00 (c : ascii) : string := "\u" +:+ hex_fixed 4 (N_of_ascii c).

(** One character of a JSON string, ASCII-only output. *)
Definition json_char (c : ascii) : string :=
  let n := N_of_ascii c in
  if Ascii.eqb c "034" then String "\" (String "034" EmptyString)
  else if Ascii.eqb c "\" then "\\"
  else if Ascii.eqb c "010" then "\n"
  else if Ascii.eqb c "013" then "\r"
  else if Ascii.eqb c "009" then "\t"
  else if Ascii.eqb c "012" then "\f"
  else if Ascii.eqb c "008" then "\b"
  else if (32 <=? n)%N && (n <=? 126)%N then String c EmptyString
  else json_u00 c.

Fixpoint json_chars (s : string) : string :=
  match s with EmptyString => EmptyString | String c s' => json_char c +:+ json_chars s' end.

Definition json_string (s : string) : string :=
  String "034" EmptyString +:+ json_chars s +:+ String "034" EmptyString.

Fixpoint str_join (sep : string) (l : list string) : string :=
  match l with
  | [] => EmptyString
  | [s] => s
  | s :: l' => s +:+ sep +:+ str_join sep l'
  end.

(** The order [sort_keys=True] puts the rendered items in. *)
Definition key_le (a b : string * string) : Prop := String.le (fst a) (fst b).
#[export] Instance key_le_dec : RelDecision key_le.
Proof. intros a b. unfold key_le. apply _. Defined.

(** [json.dumps(value, sort_keys=True, separators=(",", ":"))] on a value that
    passed [_validate_canonical]. *)
Fixpoint json_dumps (value : pyobj) : string :=
  match value with
  | ONone => "null"
  | OStr s => json_string s
  | OBool b => if b then "true" else "false"
  | OInt z => pretty z
  | OFloat | OOther => EmptyString
  | OMap items =>
      let rendered := (fix go (items : list (pyobj * pyobj)) : list (string * string) :=
         match items with
         | [] => []
         | (k, v) :: items' =>
             match k with
             | OStr s => (s, json_dumps v) :: go items'
             | _ => go items'
             end
         end) items in
      "{" +:+ str_join "," (map (fun kv => json_string (fst kv) +:+ ":" +:+ snd kv)
                              (merge_sort key_le rendered)) +:+ "}"
  | OList l | OTuple l =>
      "[" +:+ str_join "," (map json_dumps l) +:+ "]"
  end.

(** [{**base, **extra}] on string-keyed dicts: an existing key keeps its place
    and takes the later value. *)
Definition dict := list (string * pyobj).
Fixpoint dict_set (k : string) (v : pyobj) (d : dict) : dict :=
  match d with
  | [] => [(k, v)]
  | (k', v') :: d' => if String.eqb k' k then (k, v) :: d' else (k', v') :: dict_set k v d'
  end.
Definition dict_update (d extra : dict) : dict :=
  foldl (fun acc kv => dict_set (fst kv) (snd kv) acc) d extra.

Section Hash.
Context `{W : World}.

Definition content_hash (fields : dict) : result string :=
  let value := OMap (map (fun kv => (OStr (fst kv), snd kv)) fields) in
  let! _ := _validate_canonical value in
  Ok (String.substring 0 16 (sha256_hexdigest (json_dumps value))).
End Hash.

(** * Key forms *)

Definition _validate_component (value : string) : result string :=
  match value with
  | EmptyString => Err ValueError
  | _ => if str_contains ":" value then Err ValueError else Ok value
  end.

Definition key_prefix (source_type source_id event chash : string) : result string :=
  let! _ := _validate_component source_type in
  if String.eqb source_type "reversal" then Err ValueError else
  let! _ := _validate_component source_id in
  let! _ := _validate_component event in
  Ok (source_type +:+ ":" +:+ source_id +:+ ":" +:+ event +:+ ":" +:+ chash).

Definition idempotency_key (prefix : string) (seq : Z) : string :=
  prefix +:+ ":" +:+ pretty seq.

Definition reversal_key (original_entry_id : uuid) : string :=
  "reversal:" +:+ str_uuid original_entry_id.

Definition _escape_like (raw : string) : string := escape_like raw.

(** [entry.idempotency_key LIKE pattern ESCAPE '\']; NULL never matches. *)
Definition key_like (esc : option ascii) (pattern : string) (e : GlJournalEntry) : bool :=
  match je_idempotency_key e with
  | Some k => like_match esc pattern k
  | None => false
  end.

Definition compute_seq (company_id prefix : string) (d : Db) : Z :=
  let pattern := _escape_like (prefix +:+ ":") +:+ "%" in
  Z.of_nat (length (List.filter
    (fun e => String.eqb (je_company_id e) company_id &&
              bool_decide (je_status e = reversed) &&
              key_like (Some "\"%char) pattern e)
    (gl_entries (db_gl d)))).

(** * Lemmas *)

Definition no_colon (s : string) : Prop := str_contains ":" s = false.

(** A well-formed event prefix: four parts with no colon inside, the source
    type not the reserved word. *)
Definition event_prefix (p : string) : Prop :=
  exists st si ev ch,
    p = st +:+ ":" +:+ si +:+ ":" +:+ ev +:+ ":" +:+ ch /\
    no_colon st /\ no_colon si /\ no_colon ev /\ no_colon ch /\ st <> "reversal".

Lemma _validate_component_Ok v x : _validate_component v = Ok x -> x = v /\ no_colon v /\ v <> "".
Proof.
  unfold _validate_component, no_colon. destruct v as [|c v]; [done|].
  destruct (str_contains ":" (String c v)); naive_solver.
Qed.

Lemma key_prefix_Ok st si ev ch p :
  key_prefix st si ev ch = Ok p ->
  p = st +:+ ":" +:+ si +:+ ":" +:+ ev +:+ ":" +:+ ch /\
  no_colon st /\ no_colon si /\ no_colon ev /\ st <> "reversal".
Proof.
  unfold key_prefix. intros H. minv H.
  destruct (String.eqb_spec st "reversal"); [done|]. minv H.
  repeat match goal with
  | H : _validate_component _ = Ok _ |- _ => apply _validate_component_Ok in H as (-> & ? & _)
  end. done.
Qed.

Lemma event_prefix_of_key_prefix st si ev ch p :
  key_prefix st si ev ch = Ok p -> no_colon ch -> event_prefix p.
Proof. intros H Hc. apply key_prefix_Ok in H as (-> & ? & ? & ? & ?). by exists st, si, ev, ch. Qed.

Lemma pretty_Z_no_colon (z : Z) : 0 <= z -> no_colon (pretty z).
Proof.
  intros Hz. unfold no_colon.
  assert (forall n acc, str_contains ":" acc = false ->
            str_contains ":" (pretty_N_go n acc) = false) as Hgo.
  { intros n. induction (N.lt_wf_0 n) as [n _ IH]. intros acc Hacc.
    destruct (decide (n = 0)%N) as [->|Hn]; [by rewrite pretty_N_go_0|].
    rewrite pretty_N_go_step by lia. apply IH; [apply N.div_lt; lia|].
    cbn [str_contains]. rewrite Hacc.
    assert (n `mod` 10 < 10)%N as Hd by (apply N.mod_lt; lia).
    unfold pretty_N_char. repeat case_match; try reflexivity. }
  unfold pretty, pretty_Z, pretty, pretty_positive, pretty_N.
  destruct z as [|p|p]; [done| |lia]. simpl. apply Hgo. done.
Qed.

Lemma pretty_Z_inj_nonneg (a b : Z) : pretty a = pretty b -> a = b.
Proof. apply pretty_Z_inj. Qed.

(** An event key is read back to its prefix and sequence number. *)
Lemma event_key_prefix_iff p q n :
  event_prefix p -> event_prefix q -> 0 <= n ->
  String.prefix (q +:+ ":") (idempotency_key p n) = true <-> p = q.
Proof.
  intros Hp Hq Hn. split; [|intros ->; unfold idempotency_key; rewrite <- str_app_assoc;
    apply str_prefix_app].
  destruct Hp as (st & si & ev & ch & -> & H1 & H2 & H3 & H4 & _).
  destruct Hq as (st' & si' & ev' & ch' & -> & H1' & H2' & H3' & H4' & _).
  unfold idempotency_key. rewrite !str_app_assoc. intros H.
  do 3 (apply str_sep_prefix in H as [-> H]; [|done..]).
  apply str_sep_prefix in H as [-> H]; done.
Qed.

Lemma idempotency_key_inj p q n m :
  event_prefix p -> event_prefix q -> 0 <= n -> 0 <= m ->
  idempotency_key p n = idempotency_key q m -> p = q /\ n = m.
Proof.
  intros Hp Hq Hn Hm E.
  assert (p = q) as ->.
  { apply (event_key_prefix_iff p q n); [done..|]. rewrite E.
    by apply (event_key_prefix_iff q q m). }
  split; [done|]. unfold idempotency_key in E.
  apply str_app_inj_l, str_app_inj_l in E. by apply pretty_Z_inj_nonneg.
Qed.

Lemma reversal_key_not_event q u :
  event_prefix q -> String.prefix (q +:+ ":") (reversal_key u) = false.
Proof.
  intros (st & si & ev & ch & -> & H1 & _ & _ & _ & Hr).
  apply not_true_is_false. intros H. unfold reversal_key in H. rewrite !str_app_assoc in H.
  change ("reversal:" +:+ str_uuid u) with ("reversal" +:+ String ":" (str_uuid u)) in H.
  apply str_sep_prefix in H as [-> _]; done.
Qed.

Lemma reversal_key_ne_event p n u : event_prefix p -> 0 <= n -> reversal_key u <> idempotency_key p n.
Proof.
  intros Hp Hn E. pose proof (reversal_key_not_event p u Hp) as H. rewrite E in H.
  rewrite (proj2 (event_key_prefix_iff p p n Hp Hp Hn) eq_refl) in H. done.
Qed.

Lemma reversal_key_inj u v : uuid_ok u -> uuid_ok v -> reversal_key u = reversal_key v -> u = v.
Proof. intros Hu Hv E. unfold reversal_key in E. apply str_app_inj_l in E. by apply str_uuid_inj. Qed.

(** * The pieces [content_hash] is made of *)

Lemma validate_map_cons k v items :
  _validate_canonical (OMap ((OStr k, v) :: items)) =
  (let! _ := _validate_canonical v in _validate_canonical (OMap items)).
Proof. reflexivity. Qed.

Lemma validate_outcome v :
  _validate_canonical v = Ok tt \/ _validate_canonical v = Err TypeError.
Proof.
  revert v. fix IH 1. intros v. destruct v as [| | | | |items|l|l|]; try (by left); try (by right).
  - induction items as [|[k w] items IHi]; [by left|].
    destruct k; try (by right). cbn. destruct (IH w) as [->| ->]; [|by right]. exact IHi.
  - induction l as [|w l IHl]; [by left|].
    cbn. destruct (IH w) as [->| ->]; [|by right]. exact IHl.
  - induction l as [|w l IHl]; [by left|].
    cbn. destruct (IH w) as [->| ->]; [|by right]. exact IHl.
Qed.

Definition dict_items (fields : dict) : list (pyobj * pyobj) :=
  map (fun kv => (OStr (fst kv), snd kv)) fields.

Lemma validate_dict_perm f1 f2 :
  Permutation f1 f2 ->
  _validate_canonical (OMap (dict_items f1)) = _validate_canonical (OMap (dict_items f2)).
Proof.
  induction 1 as [|[k v] l1 l2 _ IH|[k v] [k' v'] l|? ? ? _ IH1 _ IH2]; [done| | |congruence].
  - unfold dict_items in *. cbn [map fst snd]. by rewrite !validate_map_cons, IH.
  - unfold dict_items. cbn [map fst snd]. rewrite !validate_map_cons.
    destruct (validate_outcome v) as [->| ->], (validate_outcome v') as [->| ->]; reflexivity.
Qed.

Definition json_items (fields : dict) : list (string * string) :=
  map (fun kv => (fst kv, json_dumps (snd kv))) fields.

Lemma json_dumps_dict fields :
  json_dumps (OMap (dict_items fields)) =
  "{" +:+ str_join "," (map (fun kv => json_string (fst kv) +:+ ":" +:+ snd kv)
                          (merge_sort key_le (json_items fields))) +:+ "}".
Proof.
  cbn [json_dumps]. do 5 f_equal. induction fields as [|[k v] fs IH]; [done|].
  unfold dict_items, json_items in *. cbn [map fst snd]. f_equal. exact IH.
Qed.

#[local] Instance key_le_trans : Transitive key_le.
Proof. intros a b c. unfold key_le. apply transitivity. Qed.
#[local] Instance key_le_total : Total key_le.
Proof. intros a b. unfold key_le. apply total, _. Qed.

Lemma merge_sort_keys_perm (l1 l2 : list (string * string)) :
  NoDup (map fst l1) -> Permutation l1 l2 -> merge_sort key_le l1 = merge_sort key_le l2.
Proof.
  intros Hnd Hp. apply (StronglySorted_unique_strong key_le).
  - intros x1 x2 Hx1 Hx2 H12 H21. unfold key_le in *.
    assert (fst x1 = fst x2) as E by (by apply (anti_symm String.le)).
    rewrite (merge_sort_Permutation key_le) in Hx1, Hx2. rewrite <- Hp in Hx2.
    clear -Hnd Hx1 Hx2 E. induction l1 as [|y l IH]; [set_solver|].
    apply NoDup_cons in Hnd as [Hy Hnd].
    assert (forall z, z ∈ l -> fst y <> fst z) as Hyz.
    { intros z Hz Heq. apply Hy. apply list_elem_of_In, in_map_iff. exists z.
      by rewrite <- list_elem_of_In. }
    apply elem_of_cons in Hx1 as [->|Hx1], Hx2 as [->|Hx2]; [done| | |by apply IH].
    + by destruct (Hyz x2).
    + by destruct (Hyz x1).
  - apply StronglySorted_merge_sort; apply _.
  - apply StronglySorted_merge_sort; apply _.
  - rewrite !(merge_sort_Permutation key_le). done.
Qed.

Lemma substring_all p n m s : str_all p s = true -> str_all p (String.substring n m s) = true.
Proof.
  revert n m. induction s as [|c s IH]; intros n m H; [by destruct n, m|].
  cbn [str_all] in H. apply andb_prop in H as [H1 H2].
  destruct n, m; cbn [String.substring str_all]; auto. rewrite H1. by apply IH.
Qed.

Lemma content_hash_hex `{WorldOk} fields h : content_hash fields = Ok h -> str_all is_hex h = true.
Proof. unfold content_hash. intros E. minv E. apply substring_all, sha256_hex. Qed.

Lemma content_hash_no_colon `{WorldOk} fields h : content_hash fields = Ok h -> no_colon h.
Proof. intros E%content_hash_hex. eapply str_all_not_contains; [exact E|reflexivity]. Qed.

(** * Properties *)

(** The hash of an event's economic content does not depend on the order
    in which its fields were assembled: any reordering of a dict with distinct
    keys has the same canonical JSON, hence the same hash and the same
    outcome of the type screen. *)
Theorem content_hash_order_free `{World} (f1 f2 : dict)
    (Hkeys : NoDup (map fst f1)) (Hperm : Permutation f1 f2) :
  content_hash f1 = content_hash f2 /\
  json_dumps (OMap (dict_items f1)) = json_dumps (OMap (dict_items f2)).
Proof.
  assert (json_dumps (OMap (dict_items f1)) = json_dumps (OMap (dict_items f2))) as E.
  { rewrite !json_dumps_dict, (merge_sort_keys_perm (json_items f1) (json_items f2)); [done| |].
    - unfold json_items. rewrite map_map. done.
    - unfold json_items. by rewrite Hperm. }
  split; [|done]. unfold content_hash. fold (dict_items f1) (dict_items f2).
  by rewrite E, (validate_dict_perm f1 f2).
Qed.

Definition toy_digest (s : string) : string :=
  hex_fixed 64 (16 ^ 48 * foldr (fun c acc => (257 * acc + N_of_ascii c + 1) mod 2305843009213693951)%N 7%N (String.list_ascii_of_string s)).

Definition toy_world : World :=
  {| sha256_hexdigest := toy_digest; zoneinfo := fun _ => Some (fun _ => - 21600000000) |}.

Lemma toy_world_ok : WorldOk toy_world.
Proof. split; intros s; [apply (hex_fixed_all 64)|apply (length_hex_fixed 64)]. Qed.

Lemma content_hash_order_free_witness :
  content_hash (W := toy_world) [("b", OInt 1); ("a", OStr "x")] =
  content_hash (W := toy_world) [("a", OStr "x"); ("b", OInt 1)].
Proof.
  apply (content_hash_order_free (H := toy_world)); [|apply perm_swap].
  apply NoDup_cons; split; [set_solver|]. apply NoDup_singleton.
Defined.

(** [compute_seq]'s LIKE pattern selects exactly the keys of its own
    prefix: on a journal key of either legal form, the escaped pattern matches
    iff the key is the prefix followed by a sequence number, so no other
    event's keys (nor a reversal's) can inflate the count, whatever
    percent, underscore or backslash characters the identifiers contain. *)
Theorem compute_seq_pattern_exact prefix e
    (Hp : event_prefix prefix)
    (Hk : (exists q n, event_prefix q /\ 0 <= n /\ je_idempotency_key e = Some (idempotency_key q n))
          \/ (exists u, je_idempotency_key e = Some (reversal_key u))) :
  key_like (Some "\"%char) (_escape_like (prefix +:+ ":") +:+ "%") e = true <->
  exists n, 0 <= n /\ je_idempotency_key e = Some (idempotency_key prefix n).
Proof.
  unfold key_like, _escape_like.
  destruct Hk as [(q & n & Hq & Hn & ->)|(u & ->)]; rewrite like_escape_prefix.
  - rewrite event_key_prefix_iff by done. split.
    + intros ->. by exists n.
    + intros (m & Hm & [= E]). by apply idempotency_key_inj in E as [-> _].
  - rewrite reversal_key_not_event by done. split; [done|].
    intros (n & Hn & [= E]). by apply reversal_key_ne_event in E.
Qed.

Lemma compute_seq_pattern_exact_witness :
  key_like (Some "\"%char) (_escape_like ("invoice:a_b:issued:ff" +:+ ":") +:+ "%")
    (mk_entry 1%N 1 1 1 reversed None None (Some "invoice:a_b:issued:ff:0") None None None None "" 0) = true.
Proof.
  apply (compute_seq_pattern_exact "invoice:a_b:issued:ff").
  - exists "invoice", "a_b", "issued", "ff". done.
  - left. exists "invoice:a_b:issued:ff", 0. split_and!; [|lia|reflexivity].
    exists "invoice", "a_b", "issued", "ff". done.
  - exists 0. split; [lia|reflexivity].
Defined.

(** an idempotency key determines its event and sequence number, and can
    never be mistaken for a reversal key: [key_prefix] accepts only components
    that keep the colon-joined form injective. *)
Theorem key_injective st si ev ch p st' si' ev' ch' p' n m
    (H : key_prefix st si ev ch = Ok p) (H' : key_prefix st' si' ev' ch' = Ok p')
    (Hc : no_colon ch) (Hc' : no_colon ch') (Hn : 0 <= n) (Hm : 0 <= m) :
  (idempotency_key p n = idempotency_key p' m ->
     (st, si, ev, ch, n) = (st', si', ev', ch', m)) /\
  (forall u, reversal_key u <> idempotency_key p n).
Proof.
  split.
  - intros E. apply idempotency_key_inj in E as [-> ->];
      [|by eapply event_prefix_of_key_prefix..|done|done].
    apply key_prefix_Ok in H as (-> & H1 & H2 & H3 & _), H' as (E & H1' & H2' & H3' & _).
    apply str_sep_inj in E as [-> E]; [|done..].
    apply str_sep_inj in E as [-> E]; [|done..].
    apply str_sep_inj in E as [-> ->]; done.
  - intros u. apply reversal_key_ne_event; [|done]. by eapply event_prefix_of_key_prefix.
Qed.

Lemma key_injective_witness :
  idempotency_key "a:b:c:d" 1 <> idempotency_key "a:b:c:d" 2.
Proof.
  intros E.
  destruct (key_injective "a" "b" "c" "d" "a:b:c:d" "a" "b" "c" "d" "a:b:c:d" 1 2
              eq_refl eq_refl eq_refl eq_refl ltac:(lia) ltac:(lia)) as [H _].
  specialize (H E). discriminate H.
Defined.
