(* ===== verification/Coa.v ===== *)
(** [modules/ledger/coa.py]: the starter chart of accounts, its idempotent
    seed, and the resolution of a role to the one account that owns it. *)

From S2P Require Import Prelude PyStr Dates Money Models.

Local Open Scope Z_scope.

(** * Drawing fresh values *)

(** [uuid4()]: an identifier never drawn before. *)
Definition fresh_uuid : M Db uuid := fun d =>
  (Ok (gl_next_uuid (db_gl d)), set_gl (set_next_uuid N.succ) d).

(** * The starter chart *)

Record coa_row : Type := mk_coa_row {
  cr_code : string; cr_name : string; cr_type : account_type;
  cr_role : option string; cr_is_system : bool
}.

Definition DEFAULT_COA : list coa_row :=
  [ mk_coa_row "1000" "Operating Bank" asset (Some ROLE_OPERATING_BANK) true;
    mk_coa_row "1050" "Undeposited Funds" asset (Some ROLE_UNDEPOSITED) true;
    mk_coa_row "1200" "Accounts Receivable" asset (Some ROLE_AR) true;
    mk_coa_row "2100" "Sales Tax Payable" liability (Some ROLE_SALES_TAX_PAYABLE) true;
    mk_coa_row "2300" "Customer Credits" liability (Some ROLE_CUSTOMER_CREDITS) true;
    mk_coa_row "3000" "Owner Contributions" equity None false;
    mk_coa_row "3100" "Owner Draws" equity None false;
    mk_coa_row "3900" "Retained Earnings" equity None false;
    mk_coa_row "3950" "Opening Balance Equity" equity (Some ROLE_OPENING_EQUITY) true;
    mk_coa_row "4000" "Service & Repair Revenue" revenue (Some ROLE_SALES_FALLBACK) true;
    mk_coa_row "4100" "Installation Revenue" revenue None false;
    mk_coa_row "4200" "Parts Revenue" revenue None false;
    mk_coa_row "4900" "Discounts Given" revenue (Some ROLE_DISCOUNTS) true;
    mk_coa_row "4910" "Refunds & Allowances" revenue (Some ROLE_REFUNDS) true;
    mk_coa_row "4950" "Card Surcharge Income" revenue (Some ROLE_SURCHARGE_INCOME) true;
    mk_coa_row "5000" "Parts & Materials" expense None false;
    mk_coa_row "5100" "Subcontractors" expense None false;
    mk_coa_row "6050" "Wages & Payroll" expense (Some ROLE_WAGES) true;
    mk_coa_row "6060" "Payroll Taxes & Fees" expense (Some ROLE_PAYROLL_TAX) true;
    mk_coa_row "6100" "Fuel" expense None false;
    mk_coa_row "6200" "Tools & Equipment" expense None false;
    mk_coa_row "6300" "Advertising" expense None false;
    mk_coa_row "6400" "Insurance" expense None false;
    mk_coa_row "6500" "Vehicle Maintenance" expense None false;
    mk_coa_row "6900" "Uncategorized Expense" expense (Some ROLE_EXPENSE_FALLBACK) true;
    mk_coa_row "6990" "Rounding Differences" expense (Some ROLE_ROUNDING) true ].

Definition DEFAULT_EXPENSE_CATEGORY_CODES : list (string * string) :=
  [ ("Fuel", "6100"); ("Parts/Supplies", "5000"); ("Tools/Equipment", "6200");
    ("Advertising", "6300"); ("Insurance", "6400"); ("Vehicle Maintenance", "6500");
    ("Subcontractor", "5100"); ("Other", "6900") ].

(** * Seeding *)

Definition company_accounts (company_id : string) (d : Db) : list GlAccount :=
  List.filter (fun a => String.eqb (acc_company_id a) company_id) (gl_accounts (db_gl d)).

(** [session.add(GlAccount(...))] with the column defaults. *)
Definition add_account (company_id : string) (r : coa_row) : M Db unit :=
  id_ <- fresh_uuid ;;
  mwrite (fun d => set_gl (set_accounts (fun l => l ++
    [mk_account id_ (cr_code r) (cr_name r) (cr_type r) (cr_role r) (cr_is_system r)
       true company_id (op_now (db_ops d))])) d).

Fixpoint seed_rows (company_id : string) (first_boot : bool) (have_roles : list string)
    (rows : list coa_row) (inserted : Z) : M Db Z :=
  match rows with
  | [] => mreturn inserted
  | r :: rows' =>
      let skip := match cr_role r with
                  | Some role => existsb (String.eqb role) have_roles
                  | None => negb first_boot
                  end in
      if skip then seed_rows company_id first_boot have_roles rows' inserted
      else add_account company_id r ;;;
           seed_rows company_id first_boot have_roles rows' (inserted + 1)
  end.

Definition seed_coa (company_id : string) : M Db Z :=
  existing <- mreads (company_accounts company_id) ;;
  let first_boot := match existing with [] => true | _ => false end in
  let have_roles := omap acc_role existing in
  seed_rows company_id first_boot have_roles DEFAULT_COA 0.

(** * Resolving a role *)

Definition owns_role (role : string) (a : GlAccount) : bool :=
  match acc_role a with Some r => String.eqb r role | None => false end.

(** The active system accounts of the company that own [role]. *)
Definition role_owners (company_id role : string) (d : Db) : list GlAccount :=
  List.filter (fun a => String.eqb (acc_company_id a) company_id && owns_role role a &&
                        acc_is_system a && acc_active a)
    (gl_accounts (db_gl d)).

Definition resolve_role_account (company_id role : string) : M Db GlAccount := fun d =>
  if negb (existsb (String.eqb role) ALL_ROLES) then (Err LedgerConfigError, d)
  else match role_owners company_id role d with
       | [a] => (Ok a, d)
       | _ => (Err LedgerConfigError, d)
       end.

Definition _has_any_account (d : Db) : bool :=
  match gl_accounts (db_gl d) with [] => false | _ => true end.

Definition ensure_role_account (company_id role : string) : M Db GlAccount :=
  mcatch (resolve_role_account company_id role) LedgerConfigError
    (has_any <- mreads _has_any_account ;;
     if negb (existsb (String.eqb role) ALL_ROLES) || negb has_any
     then mraise LedgerConfigError
     else inserted <- seed_coa company_id ;;
          if inserted =? 0 then mraise LedgerConfigError
          else resolve_role_account company_id role).

(** [None]: no system account has ever owned the role. *)
Definition resolve_role_account_or_none (company_id role : string) : M Db (option GlAccount) :=
  fun d =>
    if existsb (String.eqb role) ALL_ROLES &&
       negb (existsb (fun a => owns_role role a && acc_is_system a) (gl_accounts (db_gl d)))
    then (Ok None, d)
    else (a <- resolve_role_account company_id role ;; mreturn (Some a)) d.

(** * Lemmas *)

(** What an operation that only appends accounts (and draws identifiers) may
    change. *)
Definition accounts_grow (d d' : Db) : Prop :=
  db_ops d' = db_ops d /\
  (exists news, gl_accounts (db_gl d') = gl_accounts (db_gl d) ++ news) /\
  gl_entries (db_gl d') = gl_entries (db_gl d) /\
  gl_lines (db_gl d') = gl_lines (db_gl d) /\
  gl_locks (db_gl d') = gl_locks (db_gl d) /\
  gl_settings (db_gl d') = gl_settings (db_gl d) /\
  gl_audit (db_gl d') = gl_audit (db_gl d) /\
  gl_entry_no_seq (db_gl d') = gl_entry_no_seq (db_gl d) /\
  (gl_next_uuid (db_gl d) <= gl_next_uuid (db_gl d'))%N.

#[export] Instance accounts_grow_preorder : PreOrder accounts_grow.
Proof.
  split.
  - intros d. unfold accounts_grow. split_and!; try done. exists []. by rewrite app_nil_r.
  - intros d1 d2 d3 (A1 & [n1 A2] & A3 & A4 & A5 & A6 & A7 & A8 & A9)
      (B1 & [n2 B2] & B3 & B4 & B5 & B6 & B7 & B8 & B9).
    unfold accounts_grow. split_and!; try congruence; [|lia].
    exists (n1 ++ n2). by rewrite B2, A2, app_assoc.
Qed.

Definition row_of_account (a : GlAccount) : coa_row :=
  mk_coa_row (acc_code a) (acc_name a) (acc_type a) (acc_role a) (acc_is_system a).

Definition seed_skips (first_boot : bool) (have_roles : list string) (r : coa_row) : bool :=
  match cr_role r with
  | Some role => existsb (String.eqb role) have_roles
  | None => negb first_boot
  end.

Lemma seed_rows_spec c fb have rows n d :
  exists news d',
    seed_rows c fb have rows n d = (Ok (n + Z.of_nat (length news)), d') /\
    gl_accounts (db_gl d') = gl_accounts (db_gl d) ++ news /\
    map row_of_account news = List.filter (fun r => negb (seed_skips fb have r)) rows /\
    Forall (fun a => acc_active a = true /\ acc_company_id a = c) news /\
    accounts_grow d d' /\ (news = [] -> d' = d).
Proof.
  revert n d. induction rows as [|r rows IH]; intros n d.
  { exists [], d. rewrite app_nil_r. cbn. rewrite Z.add_0_r. split_and!; [done..|]. by split. }
  cbn [seed_rows List.filter]. unfold seed_skips at 1.
  destruct (match cr_role r with Some role => existsb (String.eqb role) have | None => negb fb end).
  { cbn. apply IH. }
  unfold mseq at 1, add_account, mseq at 1, fresh_uuid, mwrite. cbn [fst snd].
  match goal with |- context [seed_rows c fb have rows (n + 1) ?x] => set (d1 := x) end.
  assert (accounts_grow d d1) as Hg.
  { unfold accounts_grow. cbn. split_and!; try done; [by eexists|lia]. }
  destruct (IH (n + 1) d1) as (news & d' & E & Ha & Hm & Hf & Hgr & _).
  eexists (_ :: news), d'. split_and!; cbn [negb].
  - rewrite E. cbn [length]. f_equal. f_equal. lia.
  - rewrite Ha. cbn. rewrite <- app_assoc. reflexivity.
  - cbn [map]. rewrite Hm. f_equal. by destruct r.
  - constructor; done.
  - by etrans.
  - done.
Qed.

Lemma seed_coa_spec c d :
  exists news d',
    seed_coa c d = (Ok (Z.of_nat (length news)), d') /\
    gl_accounts (db_gl d') = gl_accounts (db_gl d) ++ news /\
    map row_of_account news =
      List.filter (fun r => negb (seed_skips
        (match company_accounts c d with [] => true | _ => false end)
        (omap acc_role (company_accounts c d)) r)) DEFAULT_COA /\
    Forall (fun a => acc_active a = true /\ acc_company_id a = c) news /\
    accounts_grow d d' /\ (news = [] -> d' = d).
Proof. unfold seed_coa, mseq, mreads. apply seed_rows_spec. Qed.

Lemma company_accounts_app c d d' news :
  gl_accounts (db_gl d') = gl_accounts (db_gl d) ++ news ->
  Forall (fun a => acc_active a = true /\ acc_company_id a = c) news ->
  company_accounts c d' = company_accounts c d ++ news.
Proof.
  intros Ha Hf. unfold company_accounts. rewrite Ha, List.filter_app. f_equal.
  apply filter_all. intros a Hin. rewrite Forall_forall in Hf.
  destruct (Hf a Hin) as [_ ->]. apply String.eqb_refl.
Qed.

Lemma have_roles_elem c d role :
  existsb (String.eqb role) (omap acc_role (company_accounts c d)) = true <->
  exists a, a ∈ company_accounts c d /\ acc_role a = Some role.
Proof.
  rewrite existsb_elem. split.
  - intros (x & (a & Ha & Hr)%list_elem_of_omap & ->%String.eqb_eq). by exists a.
  - intros (a & Ha & Hr). exists role. rewrite String.eqb_refl. split; [|done].
    apply list_elem_of_omap. by exists a.
Qed.

(** Running the seed again finds nothing to do. *)
Lemma seed_coa_fixpoint c d n d' :
  seed_coa c d = (Ok n, d') -> seed_coa c d' = (Ok 0, d').
Proof.
  intros E. destruct (seed_coa_spec c d) as (news & d1 & E1 & Ha & Hm & Hf & _ & Hnil).
  rewrite E in E1. injection E1 as -> <-.
  destruct (seed_coa_spec c d') as (news' & d2 & E2 & _ & Hm' & _ & _ & Hnil').
  rewrite E2.
  assert (news' = []) as ->; [|by rewrite Hnil'].
  apply (map_eq_nil row_of_account). rewrite Hm'. apply filter_none. intros r Hr.
  apply negb_false_iff. unfold seed_skips.
  rewrite (company_accounts_app c d d' news Ha Hf).
  assert (r ∈ map row_of_account news \/ seed_skips
            (match company_accounts c d with [] => true | _ => false end)
            (omap acc_role (company_accounts c d)) r = true) as [Hin|Hs].
  { rewrite Hm, elem_of_filter_b. destruct (seed_skips _ _ r); [by right|left]. done. }
  - apply list_elem_of_In, in_map_iff in Hin as (a & <- & Hin). cbn [cr_role row_of_account].
    rewrite <- list_elem_of_In in Hin. destruct (acc_role a) as [role|] eqn:Hrole.
    + rewrite <- (company_accounts_app c d d' news Ha Hf). apply have_roles_elem.
      exists a. rewrite (company_accounts_app c d d' news Ha Hf), elem_of_app. auto.
    + by destruct (company_accounts c d), news.
  - unfold seed_skips in Hs. destruct (cr_role r) as [role|].
    + rewrite <- (company_accounts_app c d d' news Ha Hf).
      apply have_roles_elem in Hs as (a & Hin & Hrole). apply have_roles_elem. exists a.
      rewrite (company_accounts_app c d d' news Ha Hf), elem_of_app. auto.
    + destruct (company_accounts c d); done.
Qed.

Definition row_owns (role : string) (r : coa_row) : bool :=
  match cr_role r with Some x => String.eqb x role | None => false end && cr_is_system r.

Lemma filter_map_swap {A B} (f : A -> B) (p : B -> bool) l :
  map f (List.filter (fun x => p (f x)) l) = List.filter p (map f l).
Proof. induction l as [|x l IH]; simpl; [done|]. destruct (p (f x)); simpl; congruence. Qed.

(** The owners of a role after accounts were appended by a seed. *)
Lemma role_owners_app c role d d' news :
  gl_accounts (db_gl d') = gl_accounts (db_gl d) ++ news ->
  Forall (fun a => acc_active a = true /\ acc_company_id a = c) news ->
  role_owners c role d' =
    role_owners c role d ++ List.filter (fun a => row_owns role (row_of_account a)) news.
Proof.
  intros Ha Hf. unfold role_owners. rewrite Ha, List.filter_app. f_equal.
  apply List.filter_ext_in. intros a Hin%list_elem_of_In. rewrite Forall_forall in Hf.
  destruct (Hf a Hin) as [-> ->]. rewrite String.eqb_refl, andb_true_r. done.
Qed.

Lemma default_coa_one_owner role :
  role ∈ ALL_ROLES -> length (List.filter (row_owns role) DEFAULT_COA) = 1%nat.
Proof.
  intros H. assert (forallb (fun r => Nat.eqb (length (List.filter (row_owns r) DEFAULT_COA)) 1)
                      ALL_ROLES = true) as E by reflexivity.
  rewrite forallb_elem in E. by apply Nat.eqb_eq, E.
Qed.

Definition role_present (c role : string) (d : Db) : Prop :=
  exists a, a ∈ company_accounts c d /\ acc_role a = Some role.

Lemma seed_new_owners c d news fb role :
  map row_of_account news =
    List.filter (fun r => negb (seed_skips fb (omap acc_role (company_accounts c d)) r)) DEFAULT_COA ->
  length (List.filter (fun a => row_owns role (row_of_account a)) news) =
  length (List.filter (fun r => row_owns role r &&
    negb (existsb (String.eqb role) (omap acc_role (company_accounts c d)))) DEFAULT_COA).
Proof.
  intros Hm. rewrite <- (length_map row_of_account), filter_map_swap, Hm.
  clear. induction DEFAULT_COA as [|r l IH]; [done|]. cbn [List.filter].
  unfold row_owns, seed_skips in *. destruct (cr_role r) as [x|] eqn:E; cbn [andb].
  - destruct (String.eqb_spec x role) as [->|Hne]; cbn [andb].
    + destruct (existsb (String.eqb role) _); cbn [negb List.filter andb].
      * by rewrite andb_false_r.
      * rewrite E, String.eqb_refl, andb_true_r. cbn [andb].
        destruct (cr_is_system r); cbn [length]; auto.
    + destruct (existsb (String.eqb x) _); cbn [negb List.filter]; [exact IH|].
      rewrite E, (proj2 (String.eqb_neq x role)) by done. exact IH.
  - destruct (negb fb); cbn [negb List.filter]; [exact IH|]. rewrite E. exact IH.
Qed.

Lemma seed_role_owners c d n d' role :
  role ∈ ALL_ROLES -> seed_coa c d = (Ok n, d') ->
  (role_present c role d -> role_owners c role d' = role_owners c role d) /\
  (~ role_present c role d -> role_owners c role d = [] /\
     exists a, role_owners c role d' = [a]).
Proof.
  intros Hr E. destruct (seed_coa_spec c d) as (news & d1 & E1 & Ha & Hm & Hf & _).
  rewrite E in E1. injection E1 as -> <-.
  pose proof (seed_new_owners c d news _ role Hm) as Hl.
  rewrite (role_owners_app c role d d' news Ha Hf). split; intros Hp.
  - apply have_roles_elem in Hp. rewrite Hp, (filter_none _ DEFAULT_COA) in Hl
      by (intros; cbn [negb]; apply andb_false_r).
    apply length_zero_iff_nil in Hl. by rewrite Hl, app_nil_r.
  - destruct (existsb (String.eqb role) (omap acc_role (company_accounts c d))) eqn:Ex;
      [by apply have_roles_elem in Ex|].
    assert (role_owners c role d = []) as ->.
    { apply filter_none. intros a Hin. apply not_true_is_false. intros Hown.
      apply andb_prop in Hown as [[[Hc Ho]%andb_prop _]%andb_prop _].
      apply Hp. exists a. unfold company_accounts. rewrite elem_of_filter_b.
      unfold owns_role in Ho. destruct (acc_role a) as [x|]; [|done].
      apply String.eqb_eq in Ho as ->. done. }
    split; [done|]. cbn [app negb] in *.
    rewrite (List.filter_ext _ (row_owns role) (fun r => andb_true_r _) DEFAULT_COA) in Hl.
    rewrite default_coa_one_owner in Hl by done.
    destruct (List.filter _ news) as [|a [|]]; try done. by exists a.
Qed.

Lemma elem_ALL_ROLES role : role ∈ ALL_ROLES -> existsb (String.eqb role) ALL_ROLES = true.
Proof. intros H. apply existsb_elem. exists role. by rewrite String.eqb_refl. Qed.

Lemma resolve_role_account_owner c role a d :
  role ∈ ALL_ROLES -> role_owners c role d = [a] -> resolve_role_account c role d = (Ok a, d).
Proof. intros H E. unfold resolve_role_account. rewrite elem_ALL_ROLES by done. simpl. by rewrite E. Qed.

Lemma resolve_role_account_Ok c role a d d' :
  resolve_role_account c role d = (Ok a, d') ->
  d' = d /\ role_owners c role d = [a] /\ a ∈ gl_accounts (db_gl d) /\
  acc_company_id a = c /\ acc_role a = Some role /\ acc_is_system a = true /\ acc_active a = true.
Proof.
  unfold resolve_role_account. destruct (negb _); [done|].
  destruct (role_owners c role d) as [|x [|]] eqn:E; try done. intros [= -> ->].
  assert (a ∈ role_owners c role d') as Hin by (rewrite E; set_solver).
  unfold role_owners in Hin. apply elem_of_filter_b in Hin as [Hin H].
  apply andb_prop in H as [[[Hc Ho]%andb_prop Hs]%andb_prop Hact].
  apply String.eqb_eq in Hc. unfold owns_role in Ho. destruct (acc_role a) as [y|]; [|done].
  apply String.eqb_eq in Ho as ->. done.
Qed.

Lemma resolve_role_account_reads c role : reads_only (resolve_role_account c role).
Proof. intros d. unfold resolve_role_account. repeat case_match; done. Qed.

Lemma seed_coa_grows c : keeps accounts_grow (seed_coa c).
Proof. intros d. destruct (seed_coa_spec c d) as (news & d' & -> & _ & _ & _ & H & _). done. Qed.

Lemma reads_only_keeps {A} (R : Db -> Db -> Prop) `{!PreOrder R} (m : M Db A) :
  reads_only m -> keeps R m.
Proof. intros H d. by rewrite H. Qed.

Lemma ensure_role_account_grows c role : keeps accounts_grow (ensure_role_account c role).
Proof.
  unfold ensure_role_account.
  apply keeps_catch; [apply _|apply reads_only_keeps; [apply _|apply resolve_role_account_reads]|].
  apply keeps_seq; [apply _|apply keeps_reads; apply _|]. intros has.
  destruct (_ || _); [apply keeps_raise; apply _|].
  apply keeps_seq; [apply _|apply seed_coa_grows|]. intros n.
  destruct (n =? 0); [apply keeps_raise; apply _|].
  apply reads_only_keeps; [apply _|apply resolve_role_account_reads].
Qed.

Lemma ensure_role_account_Ok c role a d d' :
  ensure_role_account c role d = (Ok a, d') ->
  role_owners c role d' = [a] /\ a ∈ gl_accounts (db_gl d') /\ acc_company_id a = c /\
  acc_role a = Some role /\ acc_active a = true /\ accounts_grow d d'.
Proof.
  intros E. pose proof (ensure_role_account_grows c role d) as Hg. rewrite E in Hg. simpl in Hg.
  assert (exists d0, resolve_role_account c role d0 = (Ok a, d')) as [d0 H].
  { unfold ensure_role_account, mcatch in E.
    destruct (resolve_role_account c role d) as [[x|e] d1] eqn:Er;
      [injection E as <- <-; eauto|].
    case_decide; [|done]. minv E. destruct (_ || _); [by minv E|]. minv E.
    destruct (_ =? 0); [by minv E|]. eauto. }
  apply resolve_role_account_Ok in H as (-> & H). naive_solver.
Qed.

Lemma role_present_dec c role d : role_present c role d \/ ~ role_present c role d.
Proof.
  destruct (existsb (String.eqb role) (omap acc_role (company_accounts c d))) eqn:Ex;
    [left; by apply have_roles_elem|right].
  intros H%have_roles_elem. congruence.
Qed.

Lemma resolve_role_account_fails c role d :
  (forall a, role_owners c role d <> [a]) ->
  resolve_role_account c role d = (Err LedgerConfigError, d).
Proof.
  intros H. unfold resolve_role_account. destruct (negb _); [done|].
  destruct (role_owners c role d) as [|a [|]]; try done. by destruct (H a).
Qed.

(** * Properties *)

(** seeding the chart of accounts always succeeds, only appends active
    accounts of the company, and a second run inserts nothing.  On an empty
    chart it inserts the whole starter chart; afterwards every role of
    [ALL_ROLES] that no account (active or not) held before resolves to
    exactly one account, while the owners of a role already held (deactivated
    ones included) are left exactly as they were. *)
Theorem seed_coa_tops_up c d :
  exists news d',
    seed_coa c d = (Ok (Z.of_nat (length news)), d') /\
    gl_accounts (db_gl d') = gl_accounts (db_gl d) ++ news /\
    Forall (fun a => acc_active a = true /\ acc_company_id a = c) news /\
    (company_accounts c d = [] -> map row_of_account news = DEFAULT_COA) /\
    (company_accounts c d <> [] -> Forall (fun a => acc_role a <> None) news) /\
    (forall role, role ∈ ALL_ROLES ->
       (role_present c role d -> role_owners c role d' = role_owners c role d) /\
       (~ role_present c role d -> exists a, resolve_role_account c role d' = (Ok a, d'))) /\
    seed_coa c d' = (Ok 0, d').
Proof.
  destruct (seed_coa_spec c d) as (news & d' & E & Ha & Hm & Hf & _).
  exists news, d'. split_and!; [done..| | | |by eapply seed_coa_fixpoint].
  - intros Hn. rewrite Hm, Hn. apply filter_all. intros r _. unfold seed_skips.
    by destruct (cr_role r).
  - intros Hn. apply Forall_forall. intros a Hin Hr.
    assert (row_of_account a ∈ map row_of_account news) as Hin'
      by (apply list_elem_of_In, in_map, list_elem_of_In; done).
    rewrite Hm, elem_of_filter_b in Hin'. destruct Hin' as [_ Hs].
    unfold seed_skips in Hs. cbn [row_of_account cr_role] in Hs. rewrite Hr in Hs.
    by destruct (company_accounts c d).
  - intros role Hr. destruct (seed_role_owners c d _ d' role Hr E) as [H1 H2].
    split; [done|]. intros Hp. destruct (H2 Hp) as (_ & a & Ho). exists a.
    by apply resolve_role_account_owner.
Qed.

(** [ensure_role_account] on a known role.  A role with one active owner
    resolves without any write; a role nothing ever held is topped up and
    resolves, provided some chart exists; with no chart at all it refuses and
    writes nothing; and a role whose owner was deactivated, or which two
    accounts claim, stays an error with the very same owners (a deactivated
    owner is never resurrected). *)
Theorem ensure_role_account_cases c role d (Hr : role ∈ ALL_ROLES) :
  (forall a, role_owners c role d = [a] -> ensure_role_account c role d = (Ok a, d)) /\
  (~ role_present c role d -> gl_accounts (db_gl d) <> [] ->
     exists a d', ensure_role_account c role d = (Ok a, d') /\
                  role_owners c role d' = [a] /\ accounts_grow d d') /\
  (gl_accounts (db_gl d) = [] -> ensure_role_account c role d = (Err LedgerConfigError, d)) /\
  (role_present c role d -> (forall a, role_owners c role d <> [a]) ->
     exists d', ensure_role_account c role d = (Err LedgerConfigError, d') /\
                role_owners c role d' = role_owners c role d /\ accounts_grow d d').
Proof.
  assert (forall d1, (forall a, role_owners c role d1 <> [a]) -> ensure_role_account c role d1 =
    (if _has_any_account d1
     then (n <- seed_coa c ;; if n =? 0 then mraise LedgerConfigError
           else resolve_role_account c role) d1
     else (Err LedgerConfigError, d1))) as Hens.
  { intros d1 Ho. unfold ensure_role_account, mcatch. rewrite resolve_role_account_fails by done.
    rewrite decide_True by done. unfold mseq at 1, mreads. rewrite elem_ALL_ROLES by done.
    cbn [negb orb]. by destruct (_has_any_account d1). }
  destruct (seed_coa_spec c d) as (news & d' & E & Ha & _ & _ & Hg & Hnil).
  destruct (seed_role_owners c d _ d' role Hr E) as [Hsame Hnew].
  split_and!.
  - intros a Ho. unfold ensure_role_account, mcatch. by rewrite (resolve_role_account_owner c role a).
  - intros Hp Hne. destruct (Hnew Hp) as (Ho & a & Ho'). exists a, d'. split; [|done].
    rewrite Hens by (intros; rewrite Ho; done). unfold _has_any_account, mseq.
    destruct (gl_accounts (db_gl d)) eqn:Hacc; [done|]. rewrite E.
    destruct news; [|cbn; by apply resolve_role_account_owner].
    rewrite (Hnil eq_refl), Ho in Ho'. done.
  - intros Hnone. rewrite Hens; [unfold _has_any_account; by rewrite Hnone|].
    intros a. unfold role_owners. by rewrite Hnone.
  - intros Hp Hno. rewrite Hens by done. unfold _has_any_account, mseq.
    destruct (gl_accounts (db_gl d)) eqn:Hacc; [exists d; split_and!; done|]. rewrite E.
    exists d'. split; [|auto]. destruct (_ =? 0); [done|].
    apply resolve_role_account_fails. by rewrite Hsame.
Qed.

Definition bare_gl (accounts : list GlAccount) : Gl := mk_gl accounts [] [] [] [] [] 100%N 0.
Definition bare_ops (pg : bool) : Ops := mk_ops [] [] [] [] [] None 0 1 pg.

(** A chart whose surcharge account was deactivated on purpose. *)
Definition deactivated_db : Db :=
  mk_db (bare_gl [mk_account 1%N "4950" "Card Surcharge Income" revenue
                    (Some ROLE_SURCHARGE_INCOME) true false "co" 0]) (bare_ops true).

Lemma ensure_role_account_cases_witness :
  exists d', ensure_role_account "co" ROLE_SURCHARGE_INCOME deactivated_db =
    (Err LedgerConfigError, d') /\ role_owners "co" ROLE_SURCHARGE_INCOME d' = [].
Proof.
  destruct (ensure_role_account_cases "co" ROLE_SURCHARGE_INCOME deactivated_db) as (_ & _ & _ & H).
  { unfold ALL_ROLES. repeat (first [apply list_elem_of_here | apply list_elem_of_further]). }
  destruct H as (d' & E & Ho & _).
  - exists (mk_account 1%N "4950" "Card Surcharge Income" revenue
      (Some ROLE_SURCHARGE_INCOME) true false "co" 0). split; [apply list_elem_of_here|reflexivity].
  - intros a E. discriminate E.
  - exists d'. split; [exact E|rewrite Ho; reflexivity].
Defined.
