(* ===== verification/Engine.v ===== *)
(** [modules/ledger/engine.py]: the posting engine.  [post_for_event] and
    [reverse_entry] are the only two ways a journal entry is born; both run
    inside the caller's transaction and insert under a savepoint.

    Writes of other transactions that become visible while an operation runs
    are an explicit argument: [races n] is applied just before the [n]-th
    insert attempt, after the pre-flight reads of that attempt.
    [post_for_event] and [reverse_entry] are the runs with no such writes.

    The log lines are not modelled.  [isinstance(amount_cents, int)] holds by
    typing. *)

From S2P Require Import Prelude PyStr Dates Money Models Keys Coa.

Local Open Scope Z_scope.

Definition _MAX_KEY_ATTEMPTS : nat := 5.

Record PostingLine : Type := mk_pline {
  pl_amount_cents : Z;
  pl_role : option string;
  pl_account_id : option uuid;
  pl_memo : option string;
  pl_job_id : option uuid;
  pl_customer_id : option uuid
}.

Record PostingEvent : Type := mk_event {
  ev_company_id : string;
  ev_source_type : string;
  ev_source_id : string;
  ev_event : string;
  ev_effective_at : date;
  ev_lines : list PostingLine;
  ev_created_by : option string;
  ev_extra_content : option dict
}.

(** * Validation *)

Definition is_none {A} (x : option A) : bool := match x with None => true | _ => false end.

Fixpoint _validate_each (lines : list PostingLine) : result unit :=
  match lines with
  | [] => Ok tt
  | line :: lines' =>
      if pl_amount_cents line =? 0 then Err UnbalancedEntryError
      else if Bool.eqb (is_none (pl_role line)) (is_none (pl_account_id line))
           then Err UnbalancedEntryError
           else _validate_each lines'
  end.

Definition _validate_balance (lines : list PostingLine) : result unit :=
  if (length lines <? 2)%nat then Err UnbalancedEntryError
  else if negb (zsum_of pl_amount_cents lines =? 0) then Err UnbalancedEntryError
  else if negb (existsb (fun l => 0 <? pl_amount_cents l) lines) ||
          negb (existsb (fun l => pl_amount_cents l <? 0) lines)
       then Err UnbalancedEntryError
       else _validate_each lines.

(** * Accounts *)

Definition get_account (id_ : uuid) (d : Db) : option GlAccount :=
  List.find (fun a => N.eqb (acc_id a) id_) (gl_accounts (db_gl d)).

Definition _resolve_line (company_id : string) (line : PostingLine) : M Db uuid :=
  match pl_role line with
  | Some role => account <- ensure_role_account company_id role ;; mreturn (acc_id account)
  | None =>
      match pl_account_id line with
      | None => mraise LedgerConfigError
      | Some account_id =>
          account <- mreads (get_account account_id) ;;
          match account with
          | None => mraise LedgerConfigError
          | Some a =>
              if negb (String.eqb (acc_company_id a) company_id) then mraise LedgerConfigError
              else if negb (acc_active a) then mraise LedgerConfigError
              else mreturn (acc_id a)
          end
      end
  end.

Definition _resolve_lines (company_id : string) (lines : list PostingLine)
  : M Db (list (PostingLine * uuid)) :=
  mmap (fun line => id_ <- _resolve_line company_id line ;; mreturn (line, id_)) lines.

(** * The period lock *)

(** [SELECT max(lock_date)]; NULL when there is no row. *)
Definition max_lock_date (company_id : string) (d : Db) : option date :=
  foldr (fun l acc => match acc with
                      | None => Some (lk_lock_date l)
                      | Some m => Some (Z.max (lk_lock_date l) m)
                      end) None
    (List.filter (fun l => String.eqb (lk_company_id l) company_id) (gl_locks (db_gl d))).

Definition _check_period_lock (company_id : string) (effective_at : date)
    (override_lock : bool) (created_by : option string) (context : string) : M Db unit :=
  lock_date <- mreads (max_lock_date company_id) ;;
  match lock_date with
  | None => mreturn tt
  | Some lock =>
      if lock <? effective_at then mreturn tt
      else if negb override_lock then mraise PeriodLockedError
      else mwrite (set_gl (set_audit (fun l => l ++
             [mk_audit company_id created_by "gl_posted_into_locked_period"
                effective_at lock context])))
  end.

(** * Inserting an entry with its lines *)

Definition _next_entry_no (d : Db) : option Z :=
  if op_postgres (db_ops d) then None
  else Some (foldr Z.max 0 (map je_entry_no (gl_entries (db_gl d))) + 1).

Definition _current_txid (d : Db) : option Z :=
  if op_postgres (db_ops d) then Some (op_txid (db_ops d)) else None.

Definition has_key (key : string) (e : GlJournalEntry) : bool :=
  match je_idempotency_key e with Some k => String.eqb k key | None => false end.

Definition _entry_by_key (company_id key : string) (d : Db) : option GlJournalEntry :=
  List.find (fun e => String.eqb (je_company_id e) company_id && has_key key e)
    (gl_entries (db_gl d)).

(** The rows of [GlJournalLine(entry=entry, ...)], with identifiers drawn
    from [next]. *)
Fixpoint build_lines (next entry_id : uuid) (resolved : list (PostingLine * uuid))
  : list GlJournalLine :=
  match resolved with
  | [] => []
  | (line, account_id) :: resolved' =>
      mk_jline next entry_id account_id (pl_amount_cents line) (pl_memo line)
        (pl_job_id line) (pl_customer_id line)
      :: build_lines (N.succ next) entry_id resolved'
  end.

(** The constraints a flush checks: the unique key (over all companies), the
    unique entry number, the non-zero amounts and the account references. *)
Definition flush_allowed (d : Db) (entry : GlJournalEntry) (lines : list GlJournalLine) : bool :=
  negb (existsb (fun e => match je_idempotency_key entry with
                          | Some k => has_key k e
                          | None => false
                          end) (gl_entries (db_gl d))) &&
  negb (existsb (fun e => je_entry_no e =? je_entry_no entry) (gl_entries (db_gl d))) &&
  forallb (fun l => negb (jl_amount_cents l =? 0) &&
                    existsb (fun a => N.eqb (acc_id a) (jl_account_id l))
                      (gl_accounts (db_gl d))) lines.

(** [_insert_entry] and the flush its savepoint ends with.  A constraint
    violation rolls the rows back; the identifiers and the sequence value stay
    drawn. *)
Definition _insert_entry (company_id : string) (effective_at : date)
    (source_type source_id : option string) (key : string)
    (reverses_entry_id : option uuid) (created_by : option string)
    (resolved_lines : list (PostingLine * uuid)) : M Db GlJournalEntry := fun d =>
  let g := db_gl d in
  let now := op_now (db_ops d) in
  let id_ := gl_next_uuid g in
  let entry_no := match _next_entry_no d with
                  | Some n => n
                  | None => gl_entry_no_seq g + 1
                  end in
  let entry := mk_entry id_ entry_no effective_at now posted source_type source_id (Some key)
                 reverses_entry_id None (_current_txid d) created_by company_id now in
  let lines := build_lines (N.succ id_) id_ resolved_lines in
  let drawn := set_gl (fun g =>
    set_entry_no_seq (fun s => match _next_entry_no d with Some _ => s | None => s + 1 end)
      (set_next_uuid (fun n => n + 1 + N.of_nat (length lines))%N g)) d in
  if flush_allowed d entry lines
  then (Ok entry, set_gl (fun g => set_lines (fun l => l ++ lines)
                           (set_entries (fun l => l ++ [entry]) g)) drawn)
  else (Err IntegrityError, drawn).

(** * Posting *)

Section Post.
Context `{W : World}.

Definition opt_text (u : option uuid) : pyobj :=
  match u with Some x => OStr (str_uuid x) | None => ONone end.

Definition event_content (event : PostingEvent) (resolved : list (PostingLine * uuid)) : dict :=
  dict_update
    [("effective_at", OStr (date_isoformat (ev_effective_at event)));
     ("lines", OList (map (fun la =>
        OMap [(OStr "account_id", OStr (str_uuid (snd la)));
              (OStr "amount_cents", OInt (pl_amount_cents (fst la)));
              (OStr "job_id", opt_text (pl_job_id (fst la)));
              (OStr "customer_id", opt_text (pl_customer_id (fst la)))]) resolved))]
    (default [] (ev_extra_content event)).

Definition live_entry (company_id key : string) (d : Db) : option GlJournalEntry :=
  match _entry_by_key company_id key d with
  | Some e => if decide (je_status e = posted) then Some e else None
  | None => None
  end.

(** The retry loop; [fuel] counts the attempts left. *)
Fixpoint post_attempts (fuel : nat) (races : nat -> Db -> Db) (event : PostingEvent)
    (override_lock : bool) (resolved : list (PostingLine * uuid)) (prefix : string)
    (lock_checked : bool) : M Db GlJournalEntry :=
  match fuel with
  | O => mraise RuntimeError
  | S fuel' =>
      seq <- mreads (compute_seq (ev_company_id event) prefix) ;;
      let key := idempotency_key prefix seq in
      existing <- mreads (live_entry (ev_company_id event) key) ;;
      match existing with
      | Some e => mreturn e
      | None =>
          (if lock_checked then mreturn tt
           else _check_period_lock (ev_company_id event) (ev_effective_at event) override_lock
                  (ev_created_by event)
                  (ev_source_type event +:+ ":" +:+ ev_source_id event +:+ ":" +:+
                   ev_event event)) ;;;
          mwrite (races fuel') ;;;
          mcatch
            (_insert_entry (ev_company_id event) (ev_effective_at event)
               (Some (ev_source_type event)) (Some (ev_source_id event)) key None
               (ev_created_by event) resolved)
            IntegrityError
            (collided <- mreads (_entry_by_key (ev_company_id event) key) ;;
             match collided with
             | None => mraise IntegrityError
             | Some c =>
                 if decide (je_status c = posted) then mreturn c
                 else post_attempts fuel' races event override_lock resolved prefix true
             end)
      end
  end.

Definition post_for_event_racing (races : nat -> Db -> Db) (event : PostingEvent)
    (override_lock : bool) : M Db GlJournalEntry :=
  mlift (_validate_balance (ev_lines event)) ;;;
  resolved <- _resolve_lines (ev_company_id event) (ev_lines event) ;;
  chash <- mlift (content_hash (event_content event resolved)) ;;
  prefix <- mlift (key_prefix (ev_source_type event) (ev_source_id event) (ev_event event) chash) ;;
  post_attempts _MAX_KEY_ATTEMPTS races event override_lock resolved prefix false.

Definition post_for_event (event : PostingEvent) (override_lock : bool) : M Db GlJournalEntry :=
  post_for_event_racing (fun _ d => d) event override_lock.
End Post.

(** * Reversing *)

Definition get_entry (id_ : uuid) (d : Db) : option GlJournalEntry :=
  List.find (fun e => N.eqb (je_id e) id_) (gl_entries (db_gl d)).

Definition entry_lines (id_ : uuid) (d : Db) : list GlJournalLine :=
  List.filter (fun l => N.eqb (jl_entry_id l) id_) (gl_lines (db_gl d)).

Definition mirror_line (entry_no : Z) (line : GlJournalLine) : PostingLine * uuid :=
  (mk_pline (- jl_amount_cents line) None (Some (jl_account_id line))
     (Some ("reversal of entry #" +:+ pretty entry_no)) (jl_job_id line) (jl_customer_id line),
   jl_account_id line).

(** [entry.status = "reversed"; entry.reversed_by_entry_id = reversal.id] *)
Definition mark_reversed (reversal_id : uuid) (e : GlJournalEntry) : GlJournalEntry :=
  mk_entry (je_id e) (je_entry_no e) (je_effective_at e) (je_posted_at e) reversed
    (je_source_type e) (je_source_id e) (je_idempotency_key e) (je_reverses_entry_id e)
    (Some reversal_id) (je_created_txid e) (je_created_by e) (je_company_id e) (je_created_at e).

(** [entry] is the session's object for the row, so its attributes are the
    row's current ones. *)
Definition reverse_entry_racing (race : Db -> Db) (entry_id : uuid)
    (effective_at : option date) (created_by : option string) (override_lock : bool)
  : M Db GlJournalEntry :=
  row <- mreads (get_entry entry_id) ;;
  match row with
  | None => mraise LedgerConfigError
  | Some entry =>
      if decide (je_status entry = reversed)
      then
        existing <- mreads (fun d => match je_reversed_by_entry_id entry with
                                     | Some r => get_entry r d
                                     | None => None
                                     end) ;;
        match existing with
        | None => mraise LedgerConfigError
        | Some e => mreturn e
        end
      else
        let when_ := default (je_effective_at entry) effective_at in
        _check_period_lock (je_company_id entry) when_ override_lock created_by
          ("reversal:" +:+ str_uuid (je_id entry)) ;;;
        lines <- mreads (entry_lines (je_id entry)) ;;
        let mirrored := map (mirror_line (je_entry_no entry)) lines in
        mwrite race ;;;
        inserted <- mcatch
          (r <- _insert_entry (je_company_id entry) when_ (je_source_type entry)
                  (je_source_id entry) (reversal_key (je_id entry)) (Some (je_id entry))
                  created_by mirrored ;;
           mreturn (r, true))
          IntegrityError
          (existing <- mreads (_entry_by_key (je_company_id entry) (reversal_key (je_id entry))) ;;
           match existing with
           | None => mraise IntegrityError
           | Some e => mreturn (e, false)
           end) ;;
        if snd inserted
        then mwrite (set_gl (set_entries (update_where
               (fun e => N.eqb (je_id e) (je_id entry)) (mark_reversed (je_id (fst inserted)))))) ;;;
             mreturn (fst inserted)
        else mreturn (fst inserted)
  end.

Definition reverse_entry (entry_id : uuid) (effective_at : option date)
    (created_by : option string) (override_lock : bool) : M Db GlJournalEntry :=
  reverse_entry_racing (fun d => d) entry_id effective_at created_by override_lock.
