(* ===== verification/EngineInv.v ===== *)
(** The journal invariant of the posting engine, and that posting, reversing
    and everything the rest of the system does to the tables preserve it,
    concurrent writers included. *)

From S2P Require Import Prelude PyStr Dates Money Models Keys Coa Engine.

Local Open Scope Z_scope.

(** * The invariant *)

(** The amounts of one legal entry. *)
Definition balanced (amounts : list Z) : Prop :=
  zsum amounts = 0 /\ Exists (fun x => 0 < x) amounts /\ Exists (fun x => x < 0) amounts /\
  Forall (fun x => x <> 0) amounts.

Definition line_image (l : GlJournalLine) : uuid * Z * option uuid * option uuid :=
  (jl_account_id l, jl_amount_cents l, jl_job_id l, jl_customer_id l).

Definition negate_image (x : uuid * Z * option uuid * option uuid) :=
  let '(a, m, j, c) := x in (a, - m, j, c).

(** The lines of [r] are the lines of [e] negated, leg by leg. *)
Definition mirrors (d : Db) (r e : uuid) : Prop :=
  map line_image (entry_lines r d) = map negate_image (map line_image (entry_lines e d)).

Definition key_is (p : string) (n : Z) (e : GlJournalEntry) : Prop :=
  event_prefix p /\ 0 <= n /\ je_idempotency_key e = Some (idempotency_key p n).

Record ledger_ok (d : Db) : Prop := {
  lo_ids : NoDup (map je_id (gl_entries (db_gl d)));
  lo_ids_bound : forall e, e ∈ gl_entries (db_gl d) ->
    (je_id e < gl_next_uuid (db_gl d))%N /\ uuid_ok (je_id e);
  lo_nos : NoDup (map je_entry_no (gl_entries (db_gl d)));
  lo_nos_bound : forall e, e ∈ gl_entries (db_gl d) -> op_postgres (db_ops d) = true ->
    je_entry_no e <= gl_entry_no_seq (db_gl d);
  lo_keys : NoDup (map je_idempotency_key (gl_entries (db_gl d)));
  lo_key_form : forall e, e ∈ gl_entries (db_gl d) ->
    match je_reverses_entry_id e with
    | None => exists p n, key_is p n e
    | Some u => je_idempotency_key e = Some (reversal_key u)
    end;
  lo_line_refs : forall l, l ∈ gl_lines (db_gl d) ->
    exists e, e ∈ gl_entries (db_gl d) /\ je_id e = jl_entry_id l;
  lo_account_refs : forall l, l ∈ gl_lines (db_gl d) ->
    exists a, a ∈ gl_accounts (db_gl d) /\ acc_id a = jl_account_id l;
  lo_balanced : forall e, e ∈ gl_entries (db_gl d) ->
    balanced (map jl_amount_cents (entry_lines (je_id e) d));
  lo_posted : forall e, e ∈ gl_entries (db_gl d) -> je_status e = posted ->
    je_reversed_by_entry_id e = None;
  lo_reversed : forall e, e ∈ gl_entries (db_gl d) -> je_status e = reversed ->
    exists r, r ∈ gl_entries (db_gl d) /\ je_reversed_by_entry_id e = Some (je_id r) /\
      je_reverses_entry_id r = Some (je_id e) /\ je_company_id r = je_company_id e /\
      mirrors d (je_id r) (je_id e);
  lo_reverses : forall r u, r ∈ gl_entries (db_gl d) -> je_reverses_entry_id r = Some u ->
    exists e, e ∈ gl_entries (db_gl d) /\ je_id e = u /\ je_status e = reversed;
  lo_dense : forall e p n, e ∈ gl_entries (db_gl d) -> key_is p n e ->
    if decide (je_status e = posted) then n = compute_seq (je_company_id e) p d
    else n < compute_seq (je_company_id e) p d;
  lo_full : forall c p n, event_prefix p -> 0 <= n < compute_seq c p d ->
    exists e, e ∈ gl_entries (db_gl d) /\ je_company_id e = c /\ key_is p n e
}.

(** * Changes outside the journal *)

(** What the rest of the system does to the tables: it may add accounts and
    edit them, lock periods, write settings and audit rows, change operational
    rows and draw identifiers, but it does not touch the journal. *)
Record journal_frame (d d' : Db) : Prop := {
  jf_entries : gl_entries (db_gl d') = gl_entries (db_gl d);
  jf_lines : gl_lines (db_gl d') = gl_lines (db_gl d);
  jf_accounts : forall a, a ∈ gl_accounts (db_gl d) ->
    exists a', a' ∈ gl_accounts (db_gl d') /\ acc_id a' = acc_id a;
  jf_uuid : (gl_next_uuid (db_gl d) <= gl_next_uuid (db_gl d'))%N;
  jf_seq : gl_entry_no_seq (db_gl d) <= gl_entry_no_seq (db_gl d');
  jf_postgres : op_postgres (db_ops d') = op_postgres (db_ops d)
}.

#[export] Instance journal_frame_preorder : PreOrder journal_frame.
Proof.
  split.
  - intros d. split; try done; [|lia..]. intros a H. eauto.
  - intros d1 d2 d3 [A1 A2 A3 A4 A5 A6] [B1 B2 B3 B4 B5 B6].
    split; try congruence; [|lia..]. intros a Ha.
    destruct (A3 a Ha) as (a' & Ha' & E). destruct (B3 a' Ha') as (a'' & Ha'' & E').
    exists a''. split; [done|congruence].
Qed.

Lemma accounts_grow_frame d d' : accounts_grow d d' -> journal_frame d d'.
Proof.
  intros (H1 & [news H2] & H3 & H4 & _ & _ & _ & H8 & H9).
  split; try done; [|lia|by rewrite H1].
  intros a Ha. exists a. rewrite H2, elem_of_app. auto.
Qed.

Lemma compute_seq_entries c p d d' :
  gl_entries (db_gl d') = gl_entries (db_gl d) -> compute_seq c p d' = compute_seq c p d.
Proof. unfold compute_seq. by intros ->. Qed.

Lemma entry_lines_lines u d d' :
  gl_lines (db_gl d') = gl_lines (db_gl d) -> entry_lines u d' = entry_lines u d.
Proof. unfold entry_lines. by intros ->. Qed.

Lemma ledger_ok_frame d d' : ledger_ok d -> journal_frame d d' -> ledger_ok d'.
Proof.
  intros [] [E L A U S P].
  assert (forall c p, compute_seq c p d' = compute_seq c p d) as C
    by (intros; by apply compute_seq_entries).
  assert (forall u, entry_lines u d' = entry_lines u d) as EL
    by (intros; by apply entry_lines_lines).
  split; rewrite ?E, ?L, ?P; try done.
  - intros e He. destruct (lo_ids_bound0 e He). split; [lia|done].
  - intros e He Hp. specialize (lo_nos_bound0 e He Hp). lia.
  - intros l Hl. destruct (lo_account_refs0 l Hl) as (a & Ha & Hid).
    destruct (A a Ha) as (a' & Ha' & Hid'). exists a'. split; [done|congruence].
  - intros e He. rewrite EL. auto.
  - intros e He Hs. destruct (lo_reversed0 e He Hs) as (r & Hr & H1 & H2 & H3 & H4).
    exists r. unfold mirrors. rewrite !EL. done.
  - intros e p n. rewrite C. apply lo_dense0.
  - intros c p n. rewrite C. apply lo_full0.
Qed.

(** * Counting reversed entries *)

Lemma key_like_prefix p e :
  key_like (Some "\"%char) (_escape_like (p +:+ ":") +:+ "%") e =
  match je_idempotency_key e with Some k => String.prefix (p +:+ ":") k | None => false end.
Proof. unfold key_like, _escape_like. destruct (je_idempotency_key e); [|done]. apply like_escape_prefix. Qed.

Definition rev_under (c p : string) (e : GlJournalEntry) : bool :=
  String.eqb (je_company_id e) c && bool_decide (je_status e = reversed) &&
  match je_idempotency_key e with Some k => String.prefix (p +:+ ":") k | None => false end.

Lemma compute_seq_count c p d :
  compute_seq c p d = Z.of_nat (length (List.filter (rev_under c p) (gl_entries (db_gl d)))).
Proof.
  unfold compute_seq. do 2 f_equal. apply List.filter_ext. intros e.
  by rewrite key_like_prefix.
Qed.

Lemma compute_seq_nonneg c p d : 0 <= compute_seq c p d.
Proof. unfold compute_seq. lia. Qed.

Lemma key_is_inj e p n q m : key_is p n e -> key_is q m e -> p = q /\ n = m.
Proof. intros (Hp & Hn & E) (Hq & Hm & E'). rewrite E in E'. injection E' as E'. by apply idempotency_key_inj. Qed.

Lemma key_unique d e e' :
  ledger_ok d -> e ∈ gl_entries (db_gl d) -> e' ∈ gl_entries (db_gl d) ->
  je_idempotency_key e = je_idempotency_key e' -> e = e'.
Proof. intros H He He' E. eapply NoDup_map_inj; eauto using lo_keys. Qed.

Lemma id_unique d e e' :
  ledger_ok d -> e ∈ gl_entries (db_gl d) -> e' ∈ gl_entries (db_gl d) ->
  je_id e = je_id e' -> e = e'.
Proof. intros H He He' E. eapply NoDup_map_inj; eauto using lo_ids. Qed.

(** * Inserting *)

Lemma build_lines_entry next eid res l : l ∈ build_lines next eid res -> jl_entry_id l = eid.
Proof.
  revert next. induction res as [|[pl a] res IH]; intros next; cbn [build_lines]; [set_solver|].
  intros [->|H]%elem_of_cons; [done|eauto].
Qed.

Lemma build_lines_image next eid res :
  map line_image (build_lines next eid res) =
  map (fun la => (snd la, pl_amount_cents (fst la), pl_job_id (fst la), pl_customer_id (fst la))) res.
Proof.
  revert next. induction res as [|[pl a] res IH]; intros next; cbn [build_lines map fst snd]; [done|].
  f_equal. apply IH.
Qed.

Lemma build_lines_amounts next eid res :
  map jl_amount_cents (build_lines next eid res) = map (fun la => pl_amount_cents (fst la)) res.
Proof.
  revert next. induction res as [|[pl a] res IH]; intros next; cbn [build_lines map fst snd]; [done|].
  f_equal. apply IH.
Qed.

(** The entry number the next insert takes. *)
Definition draw_entry_no (d : Db) : Z :=
  match _next_entry_no d with Some n => n | None => gl_entry_no_seq (db_gl d) + 1 end.

(** A successful insert appended one posted entry under [key], with its lines,
    and changed nothing else. *)
Record inserted (c : string) (w : date) (st si : option string) (key : string)
    (rv : option uuid) (cb : option string) (res : list (PostingLine * uuid))
    (d : Db) (e : GlJournalEntry) (d' : Db) : Prop := {
  in_entry : e = mk_entry (gl_next_uuid (db_gl d)) (draw_entry_no d) w (op_now (db_ops d)) posted
    st si (Some key) rv None (_current_txid d) cb c (op_now (db_ops d));
  in_key_new : forall x, x ∈ gl_entries (db_gl d) -> je_idempotency_key x <> Some key;
  in_no_new : forall x, x ∈ gl_entries (db_gl d) -> je_entry_no x <> je_entry_no e;
  in_refs : forall l, l ∈ build_lines (N.succ (je_id e)) (je_id e) res ->
    jl_amount_cents l <> 0 /\ exists a, a ∈ gl_accounts (db_gl d) /\ acc_id a = jl_account_id l;
  in_entries : gl_entries (db_gl d') = gl_entries (db_gl d) ++ [e];
  in_lines : gl_lines (db_gl d') =
    gl_lines (db_gl d) ++ build_lines (N.succ (je_id e)) (je_id e) res;
  in_accounts : gl_accounts (db_gl d') = gl_accounts (db_gl d);
  in_locks : gl_locks (db_gl d') = gl_locks (db_gl d);
  in_settings : gl_settings (db_gl d') = gl_settings (db_gl d);
  in_audit : gl_audit (db_gl d') = gl_audit (db_gl d);
  in_uuid : (gl_next_uuid (db_gl d) < gl_next_uuid (db_gl d'))%N;
  in_seq : gl_entry_no_seq (db_gl d') =
    (if op_postgres (db_ops d) then gl_entry_no_seq (db_gl d) + 1 else gl_entry_no_seq (db_gl d));
  in_ops : db_ops d' = db_ops d
}.

Lemma has_key_true k e : has_key k e = true <-> je_idempotency_key e = Some k.
Proof.
  unfold has_key. destruct (je_idempotency_key e) as [x|]; [|done].
  rewrite String.eqb_eq. split; congruence.
Qed.

Lemma flush_allowed_spec d e ls key :
  je_idempotency_key e = Some key ->
  flush_allowed d e ls = true <->
  (forall x, x ∈ gl_entries (db_gl d) -> je_idempotency_key x <> Some key) /\
  (forall x, x ∈ gl_entries (db_gl d) -> je_entry_no x <> je_entry_no e) /\
  (forall l, l ∈ ls -> jl_amount_cents l <> 0 /\
     exists a, a ∈ gl_accounts (db_gl d) /\ acc_id a = jl_account_id l).
Proof.
  intros Hk. unfold flush_allowed. rewrite Hk, !andb_true_iff, !negb_true_iff, forallb_elem.
  rewrite <- !not_true_iff_false, !existsb_elem.
  split.
  - intros [[H1 H2] H3]. split_and!.
    + intros x Hx E. apply H1. exists x. by rewrite has_key_true.
    + intros x Hx E. apply H2. exists x. by rewrite Z.eqb_eq.
    + intros l Hl. specialize (H3 l Hl). apply andb_prop in H3 as [H3 H4].
      apply negb_true_iff, Z.eqb_neq in H3. apply existsb_elem in H4 as (a & Ha & E%N.eqb_eq).
      eauto.
  - intros (H1 & H2 & H3). split_and!.
    + intros (x & Hx & E%has_key_true). by apply (H1 x).
    + intros (x & Hx & E%Z.eqb_eq). by apply (H2 x).
    + intros l Hl. destruct (H3 l Hl) as (Hn & a & Ha & E).
      apply andb_true_intro. split; [by apply negb_true_iff, Z.eqb_neq|].
      apply existsb_elem. exists a. by rewrite N.eqb_eq.
Qed.

Lemma insert_entry_Ok c w st si key rv cb res d e d' :
  _insert_entry c w st si key rv cb res d = (Ok e, d') ->
  inserted c w st si key rv cb res d e d'.
Proof.
  unfold _insert_entry. case_if; [|done]. intros [= <- <-].
  eapply flush_allowed_spec in E as (H1 & H2 & H3); [|reflexivity].
  split; cbn; try done; [lia|].
  unfold _next_entry_no. by destruct (op_postgres (db_ops d)).
Qed.

Lemma insert_entry_Err c w st si key rv cb res d x d' :
  _insert_entry c w st si key rv cb res d = (Err x, d') ->
  x = IntegrityError /\ journal_frame d d'.
Proof.
  unfold _insert_entry. case_if; [done|]. intros [= <- <-]. split; [done|].
  split; cbn; try done; [intros a Ha; by exists a|lia|destruct (_next_entry_no d); lia].
Qed.

(** When an insert succeeds. *)
Lemma insert_entry_succeeds c w st si key rv cb res d :
  (forall x, x ∈ gl_entries (db_gl d) -> je_idempotency_key x <> Some key) ->
  (forall x, x ∈ gl_entries (db_gl d) -> je_entry_no x <> draw_entry_no d) ->
  Forall (fun la => pl_amount_cents (fst la) <> 0 /\
            exists a, a ∈ gl_accounts (db_gl d) /\ acc_id a = snd la) res ->
  exists e d', _insert_entry c w st si key rv cb res d = (Ok e, d').
Proof.
  intros Hk Hn Hr. unfold _insert_entry.
  match goal with |- context [flush_allowed d ?e ?ls] =>
    assert (flush_allowed d e ls = true) as -> end; [|eauto].
  eapply flush_allowed_spec; [reflexivity|]. split_and!; [done|done|].
  generalize (N.succ (gl_next_uuid (db_gl d))). intros u.
  revert u. induction Hr as [|[pl a] res [H1 H2] _ IH]; intros u l; cbn [build_lines]; [set_solver|].
  intros [->|Hl]%elem_of_cons; [by split|eauto].
Qed.

Lemma foldr_max_bound l x : x ∈ l -> x <= foldr Z.max 0 l.
Proof. induction l as [|y l IH]; [set_solver|]. intros [->|H]%elem_of_cons; simpl; [lia|]. specialize (IH H). lia. Qed.

Lemma draw_entry_no_new d e :
  ledger_ok d -> e ∈ gl_entries (db_gl d) -> je_entry_no e <> draw_entry_no d.
Proof.
  intros Hok He. unfold draw_entry_no, _next_entry_no.
  destruct (op_postgres (db_ops d)) eqn:Hpg.
  - pose proof (lo_nos_bound d Hok e He Hpg). lia.
  - pose proof (foldr_max_bound (map je_entry_no (gl_entries (db_gl d))) (je_entry_no e)
      (proj2 (elem_of_map_b _ _ _) (ex_intro _ e (conj He eq_refl)))). lia.
Qed.

(** * Effect of an insert on the views the invariant speaks of *)

Section Inserted.
Context (c : string) (w : date) (st si : option string) (key : string)
  (rv : option uuid) (cb : option string) (res : list (PostingLine * uuid))
  (d : Db) (e : GlJournalEntry) (d' : Db).
Context (Hok : ledger_ok d) (Hin : inserted c w st si key rv cb res d e d').

Lemma inserted_id_new x : x ∈ gl_entries (db_gl d) -> je_id x <> je_id e.
Proof using Hok Hin.
  intros Hx. destruct (lo_ids_bound d Hok x Hx) as [Hb _].
  rewrite (in_entry _ _ _ _ _ _ _ _ _ _ _ Hin). cbn. lia.
Qed.

Lemma inserted_compute_seq q p : compute_seq q p d' = compute_seq q p d.
Proof using Hin.
  rewrite !compute_seq_count, (in_entries _ _ _ _ _ _ _ _ _ _ _ Hin), List.filter_app.
  rewrite length_app. rewrite (filter_none _ [e]); [simpl; lia|].
  intros x ->%list_elem_of_singleton. unfold rev_under.
  rewrite (in_entry _ _ _ _ _ _ _ _ _ _ _ Hin). cbn. by rewrite andb_false_r.
Qed.

Lemma inserted_lines_old u :
  u <> je_id e -> entry_lines u d' = entry_lines u d.
Proof using Hin.
  intros Hu. unfold entry_lines. rewrite (in_lines _ _ _ _ _ _ _ _ _ _ _ Hin), List.filter_app.
  rewrite (filter_none _ (build_lines _ _ _)); [apply app_nil_r|].
  intros l Hl%build_lines_entry. apply N.eqb_neq. congruence.
Qed.

Lemma inserted_lines_new :
  entry_lines (je_id e) d' = build_lines (N.succ (je_id e)) (je_id e) res.
Proof using Hok Hin.
  unfold entry_lines. rewrite (in_lines _ _ _ _ _ _ _ _ _ _ _ Hin), List.filter_app.
  rewrite filter_none; [apply filter_all|].
  - intros l Hl%build_lines_entry. by apply N.eqb_eq.
  - intros l Hl. destruct (lo_line_refs d Hok l Hl) as (x & Hx & <-).
    apply N.eqb_neq. by apply inserted_id_new.
Qed.
End Inserted.

(** * Posting preserves the invariant *)

Lemma insert_event_ok c w st si p cb res d e d' :
  ledger_ok d -> event_prefix p ->
  inserted c w st si (idempotency_key p (compute_seq c p d)) None cb res d e d' ->
  balanced (map (fun la => pl_amount_cents (fst la)) res) -> uuid_ok (je_id e) ->
  ledger_ok d'.
Proof.
  intros Hok Hp Hin Hbal Hu.
  pose proof (inserted_compute_seq _ _ _ _ _ _ _ _ _ _ _ Hin) as C.
  pose proof (inserted_id_new _ _ _ _ _ _ _ _ _ _ _ Hok Hin) as Hnew.
  pose proof (inserted_lines_old _ _ _ _ _ _ _ _ _ _ _ Hin) as Hold.
  pose proof (inserted_lines_new _ _ _ _ _ _ _ _ _ _ _ Hok Hin) as Hlines.
  destruct Hin as [He Hk Hno Href E L A _ _ _ Hnext Hseq Hops].
  assert (key_is p (compute_seq c p d) e) as Hke
    by (rewrite He; split_and!; [done|apply compute_seq_nonneg|done]).
  split; rewrite ?E, ?L, ?A, ?Hops.
  - apply NoDup_snoc_map; [apply Hok|done].
  - intros x [Hx| ->%list_elem_of_singleton]%elem_of_app.
    + destruct (lo_ids_bound d Hok x Hx). split; [lia|done].
    + split; [|done]. rewrite He. cbn. lia.
  - apply NoDup_snoc_map; [apply Hok|done].
  - intros x [Hx| ->%list_elem_of_singleton]%elem_of_app Hpg; rewrite Hseq, Hpg.
    + pose proof (lo_nos_bound d Hok x Hx Hpg). lia.
    + rewrite He. cbn. unfold draw_entry_no, _next_entry_no. rewrite Hpg. lia.
  - apply NoDup_snoc_map; [apply Hok|]. intros x Hx. rewrite He. by apply Hk.
  - intros x [Hx| ->%list_elem_of_singleton]%elem_of_app; [by apply Hok|].
    assert (je_reverses_entry_id e = None) as -> by (by rewrite He). eauto.
  - intros l [Hl|Hl]%elem_of_app.
    + destruct (lo_line_refs d Hok l Hl) as (x & Hx & Hid). exists x. rewrite elem_of_app. auto.
    + exists e. rewrite elem_of_app, list_elem_of_singleton. split; [by right|].
      symmetry. by eapply build_lines_entry.
  - intros l [Hl|Hl]%elem_of_app; [by apply Hok|]. by apply Href.
  - intros x [Hx| ->%list_elem_of_singleton]%elem_of_app.
    + rewrite Hold by auto. by apply Hok.
    + rewrite Hlines, build_lines_amounts. done.
  - intros x [Hx| ->%list_elem_of_singleton]%elem_of_app Hs; [by apply Hok|]. by rewrite He.
  - intros x [Hx| ->%list_elem_of_singleton]%elem_of_app Hs; [|by rewrite He in Hs].
    destruct (lo_reversed d Hok x Hx Hs) as (r & Hr & H1 & H2 & H3 & H4).
    exists r. rewrite elem_of_app. unfold mirrors. rewrite !Hold by auto. auto.
  - intros r u [Hr| ->%list_elem_of_singleton]%elem_of_app Hrv; [|by rewrite He in Hrv].
    destruct (lo_reverses d Hok r u Hr Hrv) as (x & Hx & H1 & H2).
    exists x. rewrite elem_of_app. auto.
  - intros x q n [Hx| ->%list_elem_of_singleton]%elem_of_app Hq; rewrite C; [by apply Hok|].
    destruct (key_is_inj _ _ _ _ _ Hq Hke) as [-> ->]. rewrite He. cbn. done.
  - intros c' q n Hq Hn. rewrite C in Hn. destruct (lo_full d Hok c' q n Hq Hn) as (x & Hx & H).
    exists x. rewrite elem_of_app. auto.
Qed.

(** * Reversing preserves the invariant *)

Lemma count_mark_one (P : GlJournalEntry -> bool) (f : GlJournalEntry -> GlJournalEntry) o l :
  NoDup (map je_id l) -> o ∈ l -> P o = false ->
  length (List.filter P (update_where (fun e => N.eqb (je_id e) (je_id o)) f l)) =
  (length (List.filter P l) + (if P (f o) then 1 else 0))%nat.
Proof.
  intros Hnd Ho HP. induction l as [|x l IH]; [set_solver|].
  cbn [map] in Hnd. apply NoDup_cons in Hnd as [Hx Hnd].
  unfold update_where in *. cbn [map].
  destruct (decide (je_id x = je_id o)) as [Hid|Hid].
  - assert (x = o) as ->.
    { apply elem_of_cons in Ho as [->|Ho]; [done|]. destruct Hx. rewrite Hid.
      apply elem_of_map_b. eauto. }
    rewrite N.eqb_refl. cbn [List.filter]. rewrite HP.
    replace (map _ l) with l; [destruct (P (f o)); simpl; lia|].
    clear IH Ho. induction l as [|y l IHl]; [done|]. cbn [map] in *.
    apply not_elem_of_cons in Hx as [Hy Hx]. apply NoDup_cons in Hnd as [_ Hnd].
    f_equal; [|by apply IHl]. rewrite (proj2 (N.eqb_neq _ _)); congruence.
  - rewrite (proj2 (N.eqb_neq _ _)) by done. cbn [List.filter].
    apply elem_of_cons in Ho as [->|Ho]; [done|].
    destruct (P x); cbn [length]; rewrite IH by done; lia.
Qed.

(** The state [reverse_entry] leaves: the mirror entry [r] inserted, the
    original [o] marked. *)
Definition after_reversal (o r : GlJournalEntry) (d1 : Db) : Db :=
  set_gl (set_entries (update_where (fun e => N.eqb (je_id e) (je_id o))
                         (mark_reversed (je_id r)))) d1.

Section Reversal.
Context (w : date) (cb : option string) (d : Db) (o r : GlJournalEntry) (d1 : Db).
Context (Hok : ledger_ok d) (Ho : o ∈ gl_entries (db_gl d)).
Context (Hin : inserted (je_company_id o) w (je_source_type o) (je_source_id o)
                 (reversal_key (je_id o)) (Some (je_id o)) cb
                 (map (mirror_line (je_entry_no o)) (entry_lines (je_id o) d)) d r d1).

Lemma after_reversal_elem x :
  x ∈ gl_entries (db_gl (after_reversal o r d1)) <->
  x = r \/ (x ∈ gl_entries (db_gl d) /\ je_id x <> je_id o) \/ x = mark_reversed (je_id r) o.
Proof using Hok Ho Hin.
  unfold after_reversal. cbn. rewrite elem_of_update_where.
  rewrite (in_entries _ _ _ _ _ _ _ _ _ _ _ Hin).
  pose proof (inserted_id_new _ _ _ _ _ _ _ _ _ _ _ Hok Hin o Ho) as Hro.
  setoid_rewrite elem_of_app. setoid_rewrite list_elem_of_singleton. split.
  - intros (y & [Hy| ->] & ->).
    + destruct (N.eqb_spec (je_id y) (je_id o)) as [E|E]; [|by eauto].
      rewrite (id_unique d y o) by done. auto.
    + rewrite (proj2 (N.eqb_neq _ _)) by done. auto.
  - intros [->|[[Hx Hne]| ->]].
    + exists r. rewrite (proj2 (N.eqb_neq _ _)) by done. auto.
    + exists x. rewrite (proj2 (N.eqb_neq _ _)) by done. auto.
    + exists o. rewrite N.eqb_refl. auto.
Qed.

Lemma after_reversal_lines u :
  entry_lines u (after_reversal o r d1) = entry_lines u d1.
Proof. reflexivity. Qed.

Lemma after_reversal_mirrors : mirrors (after_reversal o r d1) (je_id r) (je_id o).
Proof using Hok Ho Hin.
  unfold mirrors. rewrite !after_reversal_lines.
  rewrite (inserted_lines_new _ _ _ _ _ _ _ _ _ _ _ Hok Hin).
  rewrite (inserted_lines_old _ _ _ _ _ _ _ _ _ _ _ Hin)
    by (by apply (inserted_id_new _ _ _ _ _ _ _ _ _ _ _ Hok Hin)).
  rewrite build_lines_image, !map_map. done.
Qed.

Lemma after_reversal_seq c p :
  je_status o = posted ->
  compute_seq c p (after_reversal o r d1) =
  compute_seq c p d + (if rev_under c p (mark_reversed (je_id r) o) then 1 else 0).
Proof using Hok Ho Hin.
  intros Hs. rewrite <- (inserted_compute_seq _ _ _ _ _ _ _ _ _ _ _ Hin), !compute_seq_count.
  unfold after_reversal. cbn [db_gl set_gl gl_entries set_entries].
  rewrite count_mark_one.
  - rewrite Nat2Z.inj_add. f_equal. by destruct (rev_under _ _ _).
  - rewrite (in_entries _ _ _ _ _ _ _ _ _ _ _ Hin). apply NoDup_snoc_map; [apply Hok|].
    by apply (inserted_id_new _ _ _ _ _ _ _ _ _ _ _ Hok Hin).
  - rewrite (in_entries _ _ _ _ _ _ _ _ _ _ _ Hin), elem_of_app. auto.
  - unfold rev_under. rewrite Hs. rewrite bool_decide_eq_false_2 by done.
    by rewrite andb_false_r.
Qed.

Lemma rev_under_event c p e n q :
  key_is q n e -> event_prefix p -> je_status e = reversed ->
  rev_under c p e = bool_decide (je_company_id e = c /\ q = p).
Proof.
  intros (Hq & Hn & Hk) Hp Hs. unfold rev_under. rewrite Hs, Hk, bool_decide_eq_true_2 by done.
  rewrite andb_true_r. apply eq_bool_prop_intro. rewrite !Is_true_true, andb_true_iff, bool_decide_eq_true,
    String.eqb_eq, event_key_prefix_iff by done. done.
Qed.

Lemma rev_under_reversal c p e u :
  je_idempotency_key e = Some (reversal_key u) -> event_prefix p -> rev_under c p e = false.
Proof. intros Hk Hp. unfold rev_under. rewrite Hk, reversal_key_not_event by done. apply andb_false_r. Qed.

Lemma negate_balanced l : balanced l -> balanced (map Z.opp l).
Proof.
  intros (H1 & H2 & H3 & H4). unfold balanced. rewrite zsum_opp, !Exists_fmap, Forall_fmap.
  split_and!; [lia| | |].
  - eapply Exists_impl; [exact H3|]. cbn. lia.
  - eapply Exists_impl; [exact H2|]. cbn. lia.
  - eapply Forall_impl; [exact H4|]. cbn. lia.
Qed.

Lemma mirrors_amounts d0 a b :
  mirrors d0 a b ->
  map jl_amount_cents (entry_lines a d0) = map Z.opp (map jl_amount_cents (entry_lines b d0)).
Proof.
  intros H. apply (f_equal (map (fun x : uuid * Z * option uuid * option uuid => snd (fst (fst x))))) in H.
  rewrite !map_map in H. rewrite map_map. cbn in H. exact H.
Qed.

Context (Hs : je_status o = posted) (Hu : uuid_ok (je_id r)).

Lemma original_key_count c p n :
  key_is p n o ->
  (if rev_under c p (mark_reversed (je_id r) o) then 1 else 0) =
  (if decide (je_company_id o = c) then 1 else 0).
Proof using Type.
  intros Hk. rewrite (rev_under_event c p (mark_reversed (je_id r) o) n p); [|done|apply Hk|done].
  cbn. case_decide; [rewrite bool_decide_eq_true_2|rewrite bool_decide_eq_false_2]; naive_solver.
Qed.

(** No other live entry shares the prefix of the original. *)
Lemma other_prefix c p :
  event_prefix p -> (forall n, ~ key_is p n o) ->
  rev_under c p (mark_reversed (je_id r) o) = false.
Proof using Hok Ho.
  intros Hp Hno. pose proof (lo_key_form d Hok o Ho) as Hform.
  destruct (je_reverses_entry_id o) as [u|] eqn:Hrv.
  - by apply (rev_under_reversal c p _ u).
  - destruct Hform as (q & n & Hq).
    rewrite (rev_under_event c p (mark_reversed (je_id r) o) n q); [|done..].
    apply bool_decide_eq_false_2. intros [_ ->]. by apply (Hno n).
Qed.

Lemma after_reversal_dense x p n :
  x ∈ gl_entries (db_gl d) -> je_id x <> je_id o -> key_is p n x ->
  if decide (je_status x = posted)
  then n = compute_seq (je_company_id x) p (after_reversal o r d1)
  else n < compute_seq (je_company_id x) p (after_reversal o r d1).
Proof using Hok Ho Hin Hs.
  intros Hx Hne Hk. rewrite after_reversal_seq by done.
  pose proof (lo_dense d Hok x p n Hx Hk) as Hd.
  destruct (decide (je_status x = posted)) as [Hp|]; [|destruct (rev_under _ _ _); lia].
  destruct (rev_under _ _ _) eqn:Hr; [exfalso|lia].
  pose proof (lo_key_form d Hok o Ho) as Hform.
  destruct (je_reverses_entry_id o) as [u|].
  { by rewrite (rev_under_reversal _ p _ u) in Hr; [| |apply Hk]. }
  destruct Hform as (q & m & Hq). rewrite (rev_under_event _ p _ m q) in Hr; [|done|apply Hk|done].
  apply bool_decide_eq_true in Hr as [Hc ->].
  pose proof (lo_dense d Hok o p m Ho Hq) as Hd'. rewrite decide_True in Hd' by done.
  cbn in Hc. rewrite Hc in Hd'. apply Hne. f_equal. apply (key_unique d); try done.
  destruct Hk as (_ & _ & ->), Hq as (_ & _ & ->). congruence.
Qed.

Lemma after_reversal_full c p n :
  event_prefix p -> 0 <= n < compute_seq c p (after_reversal o r d1) ->
  exists e, e ∈ gl_entries (db_gl (after_reversal o r d1)) /\ je_company_id e = c /\ key_is p n e.
Proof using Hok Ho Hin Hs.
  intros Hp Hn. rewrite after_reversal_seq in Hn by done.
  assert (forall e, e ∈ gl_entries (db_gl d) -> je_company_id e = c -> key_is p n e ->
    exists e', e' ∈ gl_entries (db_gl (after_reversal o r d1)) /\ je_company_id e' = c /\ key_is p n e')
    as Hlift.
  { intros e He Hc Hk. destruct (decide (je_id e = je_id o)) as [Hid|Hid].
    - assert (e = o) as -> by (by apply (id_unique d)). exists (mark_reversed (je_id r) o).
      rewrite after_reversal_elem. auto.
    - exists e. rewrite after_reversal_elem. auto. }
  destruct (decide (n < compute_seq c p d)) as [Hlt|Hge].
  { destruct (lo_full d Hok c p n Hp) as (e & He & Hc & Hk); [lia|]. eauto. }
  destruct (rev_under _ _ _) eqn:Hr; [|lia].
  pose proof (lo_key_form d Hok o Ho) as Hform.
  destruct (je_reverses_entry_id o) as [u|]; [by rewrite (rev_under_reversal _ p _ u) in Hr|].
  destruct Hform as (q & m & Hq). rewrite (rev_under_event _ p _ m q) in Hr by done.
  apply bool_decide_eq_true in Hr as [Hc ->]. cbn in Hc.
  pose proof (lo_dense d Hok o p m Ho Hq) as Hd. rewrite decide_True, Hc in Hd by done.
  apply (Hlift o); [done..|]. replace n with m by lia. done.
Qed.

Lemma after_reversal_reversed x :
  x ∈ gl_entries (db_gl (after_reversal o r d1)) -> je_status x = reversed ->
  exists y, y ∈ gl_entries (db_gl (after_reversal o r d1)) /\
    je_reversed_by_entry_id x = Some (je_id y) /\ je_reverses_entry_id y = Some (je_id x) /\
    je_company_id y = je_company_id x /\ mirrors (after_reversal o r d1) (je_id y) (je_id x).
Proof using Hok Ho Hin.
  pose proof (inserted_id_new _ _ _ _ _ _ _ _ _ _ _ Hok Hin) as Hnew.
  pose proof (inserted_lines_old _ _ _ _ _ _ _ _ _ _ _ Hin) as Hold.
  pose proof (in_entry _ _ _ _ _ _ _ _ _ _ _ Hin) as He.
  intros [->|[[Hx _]| ->]]%after_reversal_elem Hrev; [by rewrite He in Hrev| |].
  - destruct (lo_reversed d Hok x Hx Hrev) as (y & Hy & H1 & H2 & H3 & H4).
    destruct (decide (je_id y = je_id o)) as [Ey|Ey].
    + assert (y = o) as -> by (by apply (id_unique d)). exists (mark_reversed (je_id r) o).
      unfold mirrors. rewrite !after_reversal_lines. cbn [je_id mark_reversed].
      rewrite !Hold by auto. rewrite after_reversal_elem. auto.
    + exists y. unfold mirrors. rewrite !after_reversal_lines, !Hold by auto.
      rewrite after_reversal_elem. auto.
  - exists r. rewrite after_reversal_elem. split; [auto|]. split; [done|].
    split_and!; [by rewrite He..|apply after_reversal_mirrors].
Qed.

Lemma after_reversal_reverses x u :
  x ∈ gl_entries (db_gl (after_reversal o r d1)) -> je_reverses_entry_id x = Some u ->
  exists e, e ∈ gl_entries (db_gl (after_reversal o r d1)) /\ je_id e = u /\ je_status e = reversed.
Proof using Hok Ho Hin Hs.
  pose proof (in_entry _ _ _ _ _ _ _ _ _ _ _ Hin) as He.
  assert (forall y, y ∈ gl_entries (db_gl d) -> je_reverses_entry_id y = Some u ->
    exists e, e ∈ gl_entries (db_gl (after_reversal o r d1)) /\ je_id e = u /\ je_status e = reversed)
    as Hold.
  { intros y Hy Hrv. destruct (lo_reverses d Hok y u Hy Hrv) as (z & Hz & Hzu & Hzs).
    exists z. rewrite after_reversal_elem. split; [|done]. right. left. split; [done|].
    intros Hid. rewrite (id_unique d z o) in Hzs by done. congruence. }
  intros [->|[[Hx _]| ->]]%after_reversal_elem Hrv; [|by eapply Hold|by apply (Hold o)].
  exists (mark_reversed (je_id r) o). rewrite after_reversal_elem. cbn.
  rewrite He in Hrv. cbn in Hrv. split; [auto|]. split; [congruence|done].
Qed.

Lemma after_reversal_ok : ledger_ok (after_reversal o r d1).
Proof using Hok Ho Hin Hs Hu.
  pose proof (inserted_id_new _ _ _ _ _ _ _ _ _ _ _ Hok Hin) as Hnew.
  pose proof (inserted_lines_old _ _ _ _ _ _ _ _ _ _ _ Hin) as Hold.
  pose proof (inserted_lines_new _ _ _ _ _ _ _ _ _ _ _ Hok Hin) as Hlines.
  pose proof after_reversal_mirrors as Hmir.
  pose proof after_reversal_elem as Hel.
  assert (r ∈ gl_entries (db_gl (after_reversal o r d1))) as Hrin by (apply Hel; auto).
  assert (je_reverses_entry_id r = Some (je_id o) /\ je_company_id r = je_company_id o /\
          je_idempotency_key r = Some (reversal_key (je_id o)) /\ je_status r = posted /\
          je_reversed_by_entry_id r = None /\ je_id r = gl_next_uuid (db_gl d) /\
          je_entry_no r = draw_entry_no d) as (Rv & Rc & Rk & Rs & Rb & Ri & Rn)
    by (rewrite (in_entry _ _ _ _ _ _ _ _ _ _ _ Hin); done).
  destruct Hin as [_ Hk Hno Href E L A _ _ _ Hnext Hseq Hops].
  split.
  - unfold after_reversal. cbn. rewrite update_where_map, E by done.
    apply NoDup_snoc_map; [apply Hok|done].
  - cbn [gl_next_uuid after_reversal set_gl set_entries db_gl].
    intros x [->|[[Hx _]| ->]]%Hel; cbn [je_id mark_reversed].
    + split; [lia|done].
    + destruct (lo_ids_bound d Hok x Hx). split; [lia|done].
    + destruct (lo_ids_bound d Hok o Ho). split; [lia|done].
  - unfold after_reversal. cbn. rewrite update_where_map, E by done.
    apply NoDup_snoc_map; [apply Hok|done].
  - intros x Hx Hpg. cbn in Hpg |- *. rewrite Hops in Hpg. rewrite Hseq, Hpg.
    apply Hel in Hx as [->|[[Hx _]| ->]]; cbn [je_entry_no mark_reversed].
    + rewrite Rn. unfold draw_entry_no, _next_entry_no. rewrite Hpg. lia.
    + pose proof (lo_nos_bound d Hok x Hx Hpg). lia.
    + pose proof (lo_nos_bound d Hok o Ho Hpg). lia.
  - unfold after_reversal. cbn. rewrite update_where_map, E by done.
    apply NoDup_snoc_map; [apply Hok|]. rewrite Rk. done.
  - intros x [->|[[Hx _]| ->]]%Hel; [by rewrite Rv|by apply Hok|].
    exact (lo_key_form d Hok o Ho).
  - intros l Hl. cbn in Hl. rewrite L in Hl. apply elem_of_app in Hl as [Hl|Hl].
    + destruct (lo_line_refs d Hok l Hl) as (x & Hx & Hid).
      destruct (decide (je_id x = je_id o)) as [Ex|Ex].
      * exists (mark_reversed (je_id r) o). rewrite Hel. cbn. split; [auto|congruence].
      * exists x. rewrite Hel. auto.
    + exists r. split; [done|]. symmetry. by eapply build_lines_entry.
  - intros l Hl. cbn in Hl |- *. rewrite L in Hl. rewrite A.
    apply elem_of_app in Hl as [Hl|Hl]; [by apply Hok|]. by apply Href.
  - assert (forall x, x ∈ gl_entries (db_gl d) ->
      balanced (map jl_amount_cents (entry_lines (je_id x) (after_reversal o r d1)))) as Hb.
    { intros x Hx. rewrite after_reversal_lines, Hold by auto. by apply Hok. }
    intros x [->|[[Hx _]| ->]]%Hel; [|by apply Hb|by apply (Hb o)].
    rewrite (mirrors_amounts _ _ _ Hmir). by apply negate_balanced, Hb.
  - intros x [->|[[Hx _]| ->]]%Hel Hp; [done|by apply Hok|done].
  - apply after_reversal_reversed.
  - apply after_reversal_reverses.
  - intros x p n Hx Hkx. apply Hel in Hx as [->|[[Hx Hne]| ->]].
    + destruct Hkx as (Hp & Hn & Hkx). rewrite Rk in Hkx. injection Hkx as Hkx.
      by apply reversal_key_ne_event in Hkx.
    + by apply after_reversal_dense.
    + pose proof (lo_dense d Hok o p n Ho Hkx) as Hd. rewrite decide_True in Hd by done.
      rewrite decide_False by done. cbn [je_company_id mark_reversed].
      rewrite after_reversal_seq, (original_key_count _ p n) by done.
      rewrite decide_True by done. lia.
  - intros c p n. apply after_reversal_full.
Qed.
End Reversal.

(** * The pieces of an operation *)

Lemma validate_each_Ok lines :
  _validate_each lines = Ok tt ->
  Forall (fun l => pl_amount_cents l <> 0 /\ (pl_role l = None <-> pl_account_id l <> None)) lines.
Proof.
  induction lines as [|l lines IH]; cbn [_validate_each]; [constructor|].
  destruct (Z.eqb_spec (pl_amount_cents l) 0); [done|].
  destruct (Bool.eqb _ _) eqn:E; [done|]. intros H. constructor; [|auto]. split; [done|].
  apply eqb_false_iff in E. destruct (pl_role l), (pl_account_id l); naive_solver.
Qed.

Lemma validate_balance_Ok lines :
  _validate_balance lines = Ok tt -> balanced (map pl_amount_cents lines).
Proof.
  unfold _validate_balance. destruct (Nat.ltb _ 2); [done|].
  destruct (Z.eqb_spec (zsum_of pl_amount_cents lines) 0) as [Hz|]; [cbn [negb]|done].
  destruct (existsb (fun l => 0 <? pl_amount_cents l) lines) eqn:E1; [cbn [negb orb]|done].
  destruct (existsb (fun l => pl_amount_cents l <? 0) lines) eqn:E2; [cbn [negb]|done].
  intros H%validate_each_Ok.
  unfold balanced. rewrite !Exists_fmap, Forall_fmap, !Exists_exists.
  apply existsb_elem in E1 as (x & Hx & ?%Z.ltb_lt), E2 as (y & Hy & ?%Z.ltb_lt).
  split_and!; [done|by exists x|by exists y|]. eapply Forall_impl; [exact H|]. naive_solver.
Qed.

Lemma get_account_Some u d a :
  get_account u d = Some a -> a ∈ gl_accounts (db_gl d) /\ acc_id a = u.
Proof. intros [H E%N.eqb_eq]%find_some_elem. done. Qed.

Lemma resolve_line_grows c l : keeps accounts_grow (_resolve_line c l).
Proof.
  unfold _resolve_line. destruct (pl_role l) as [role|].
  - apply keeps_seq; [apply _|apply ensure_role_account_grows|]. intros a. apply keeps_return, _.
  - destruct (pl_account_id l); [|apply keeps_raise, _].
    apply keeps_seq; [apply _|apply keeps_reads, _|]. intros [a|]; [|apply keeps_raise, _].
    repeat case_if; first [apply keeps_raise, _|apply keeps_return, _].
Qed.

Lemma resolve_line_Ok c l u d d' :
  _resolve_line c l d = (Ok u, d') -> exists a, a ∈ gl_accounts (db_gl d') /\ acc_id a = u /\
    acc_company_id a = c /\ acc_active a = true.
Proof.
  unfold _resolve_line. destruct (pl_role l) as [role|].
  - intros H. minv H. apply ensure_role_account_Ok in H0 as (_ & Ha & Hc & _ & Hact & _). eauto.
  - destruct (pl_account_id l) as [x|]; [|done]. intros H. minv H.
    destruct (get_account x _) as [a|] eqn:E; [|by minv H].
    destruct (String.eqb_spec (acc_company_id a) c); [cbn [negb] in H|by minv H].
    destruct (acc_active a) eqn:?; [cbn [negb] in H|by minv H]. minv H.
    apply get_account_Some in E as [? ?]. eauto.
Qed.

Lemma resolve_lines_grows c lines : keeps accounts_grow (_resolve_lines c lines).
Proof.
  unfold _resolve_lines. apply keeps_map; [apply _|]. intros l.
  apply keeps_seq; [apply _|apply resolve_line_grows|]. intros u. apply keeps_return, _.
Qed.

(** Every resolved line kept its posting line, in order, and names an active
    account of the company. *)
Lemma resolve_lines_Ok c lines res d d' :
  _resolve_lines c lines d = (Ok res, d') ->
  map fst res = lines /\ accounts_grow d d' /\
  Forall (fun la => exists a, a ∈ gl_accounts (db_gl d') /\ acc_id a = snd la /\
            acc_company_id a = c /\ acc_active a = true) res.
Proof.
  intros E. split_and!; [|pose proof (resolve_lines_grows c lines d) as H; by rewrite E in H|].
  - revert res d d' E. unfold _resolve_lines. induction lines as [|l lines IH]; intros res d d' E;
      cbn [mmap] in E; minv E; [done|]. minv E0. cbn. f_equal. eauto.
  - revert res d d' E. induction lines as [|l lines IH]; intros res d d' E;
      unfold _resolve_lines in *; cbn [mmap] in E; minv E; [constructor|]. minv E0.
    constructor; [|eauto]. apply resolve_line_Ok in E2 as (x & Hx & Hrest).
    pose proof (resolve_lines_grows c lines d0) as Hg. unfold _resolve_lines in Hg.
    rewrite E1 in Hg. cbn in Hg. destruct Hg as (_ & [news ->] & _).
    exists x. rewrite elem_of_app. auto.
Qed.

(** * The period lock *)

Definition period_locked (c : string) (w : date) (d : Db) : bool :=
  match max_lock_date c d with Some lock => negb (lock <? w) | None => false end.

Lemma check_period_lock_frame c w ov cb ctx : keeps journal_frame (_check_period_lock c w ov cb ctx).
Proof.
  unfold _check_period_lock. apply keeps_seq; [apply _|apply keeps_reads, _|].
  intros [lock|]; [|apply keeps_return, _].
  repeat case_if; [apply keeps_return, _|apply keeps_raise, _|].
  intros d. split; cbn; try done. intros a Ha. by exists a.
Qed.

Lemma check_period_lock_open c w ov cb ctx d :
  period_locked c w d = false -> _check_period_lock c w ov cb ctx d = (Ok tt, d).
Proof.
  unfold period_locked, _check_period_lock, mseq, mreads.
  destruct (max_lock_date c d); [|done]. by intros ->%negb_false_iff.
Qed.

Lemma check_period_lock_refused c w cb ctx d :
  period_locked c w d = true -> _check_period_lock c w false cb ctx d = (Err PeriodLockedError, d).
Proof.
  unfold period_locked, _check_period_lock, mseq, mreads.
  destruct (max_lock_date c d); [|done]. by intros ->%negb_true_iff.
Qed.

Lemma check_period_lock_override c w cb ctx d :
  period_locked c w d = true -> exists lock,
  max_lock_date c d = Some lock /\
  _check_period_lock c w true cb ctx d =
    (Ok tt, set_gl (set_audit (fun l => l ++
       [mk_audit c cb "gl_posted_into_locked_period" w lock ctx])) d).
Proof.
  unfold period_locked, _check_period_lock, mseq, mreads.
  destruct (max_lock_date c d) as [lock|]; [|done]. intros H%negb_true_iff.
  exists lock. by rewrite H.
Qed.

(** * History is append-only *)

Definition supply_ok (d : Db) : Prop := (gl_next_uuid (db_gl d) <= 2 ^ 128)%N.

(** An entry row may only change by being marked reversed, once. *)
Definition entry_kept (e e' : GlJournalEntry) : Prop :=
  e' = e \/ (je_status e = posted /\ exists r, e' = mark_reversed r e).

Record append_only (d d' : Db) : Prop := {
  ao_entries : exists kept news, gl_entries (db_gl d') = kept ++ news /\
    Forall2 entry_kept (gl_entries (db_gl d)) kept;
  ao_lines : forall e, e ∈ gl_entries (db_gl d) ->
    entry_lines (je_id e) d' = entry_lines (je_id e) d
}.

Lemma entry_kept_id e e' : entry_kept e e' -> je_id e' = je_id e.
Proof. intros [->|[_ [r ->]]]; done. Qed.

#[export] Instance entry_kept_preorder : PreOrder entry_kept.
Proof.
  split; [by left|]. intros a b c [->|[Ha [r ->]]] [->|[Hb [r' ->]]]; unfold entry_kept; eauto.
Qed.

Lemma append_only_elem d d' e :
  append_only d d' -> e ∈ gl_entries (db_gl d) ->
  exists e', e' ∈ gl_entries (db_gl d') /\ entry_kept e e'.
Proof.
  intros [(kept & news & -> & H) _] He. apply list_elem_of_lookup in He as [i Hi].
  eapply Forall2_lookup_l in Hi as (e' & Hi' & Hk); [|exact H].
  exists e'. split; [|done]. apply elem_of_app. left. by eapply list_elem_of_lookup_2.
Qed.

#[export] Instance append_only_preorder : PreOrder append_only.
Proof.
  split.
  - intros d. split; [|done]. exists (gl_entries (db_gl d)), []. rewrite app_nil_r.
    split; [done|]. by apply Forall_Forall2_diag, Forall_true.
  - intros d1 d2 d3 H12 H23. pose proof (fun e => append_only_elem d1 d2 e H12) as Hel.
    destruct H12 as [(k1 & n1 & E1 & F1) L1], H23 as [(k2 & n2 & E2 & F2) L2].
    split.
    + rewrite E1 in F2. apply Forall2_app_inv_l in F2 as (ka & kb & Fa & Fb & ->).
      exists ka, (kb ++ n2). rewrite app_assoc. split; [done|].
      by etrans.
    + intros e He. destruct (Hel e He) as (e' & He' & Hk).
      rewrite <- (entry_kept_id e e') by done. rewrite L2 by done.
      rewrite (entry_kept_id e e') by done. by apply L1.
Qed.

Lemma journal_frame_append d d' : journal_frame d d' -> append_only d d'.
Proof.
  intros [E L _ _ _ _]. split; [|intros; by apply entry_lines_lines].
  exists (gl_entries (db_gl d)), []. rewrite app_nil_r. split; [done|].
  by apply Forall_Forall2_diag, Forall_true.
Qed.

Lemma append_only_seq c p d d' : append_only d d' -> compute_seq c p d <= compute_seq c p d'.
Proof.
  intros [(kept & news & E & F) _]. rewrite !compute_seq_count, E, List.filter_app, length_app.
  assert (length (List.filter (rev_under c p) (gl_entries (db_gl d))) <=
          length (List.filter (rev_under c p) kept))%nat; [|lia].
  clear E. induction F as [|e e' l l' Hk _ IH]; [done|]. cbn [List.filter].
  assert (rev_under c p e = true -> rev_under c p e' = true) as Hr.
  { destruct Hk as [->|[Hs [r ->]]]; [done|]. unfold rev_under. rewrite Hs. cbn.
    by rewrite andb_false_r. }
  destruct (rev_under c p e); [rewrite Hr by done; cbn [length]; lia|].
  destruct (rev_under c p e'); cbn [length]; lia.
Qed.

(** What any writer of the ledger guarantees to the others. *)
Record rely (d d' : Db) : Prop := {
  rely_uuid : (gl_next_uuid (db_gl d) <= gl_next_uuid (db_gl d'))%N;
  rely_postgres : op_postgres (db_ops d') = op_postgres (db_ops d);
  rely_accounts : forall a, a ∈ gl_accounts (db_gl d) ->
    exists a', a' ∈ gl_accounts (db_gl d') /\ acc_id a' = acc_id a;
  rely_journal : supply_ok d' -> ledger_ok d -> ledger_ok d' /\ append_only d d'
}.

#[export] Instance rely_preorder : PreOrder rely.
Proof.
  split.
  - intros d. split; [lia|done|eauto|]. intros _ H. split; [done|reflexivity].
  - intros d1 d2 d3 [A1 A2 A3 A4] [B1 B2 B3 B4]. split; [lia|congruence| |].
    + intros a Ha. destruct (A3 a Ha) as (a' & Ha' & E). destruct (B3 a' Ha') as (x & Hx & E').
      exists x. split; [done|congruence].
    + intros Hs Hok. assert (supply_ok d2) as Hs2 by (unfold supply_ok in *; lia).
      destruct (A4 Hs2 Hok) as [Hok2 Hao]. destruct (B4 Hs Hok2) as [Hok3 Hao'].
      split; [done|by etrans].
Qed.

Lemma journal_frame_rely d d' : journal_frame d d' -> rely d d'.
Proof.
  intros H. split; [apply H..|]. intros _ Hok.
  split; [by eapply ledger_ok_frame|by apply journal_frame_append].
Qed.

Lemma keeps_rely {A} (m : M Db A) : keeps journal_frame m -> keeps rely m.
Proof. intros H d. apply journal_frame_rely, H. Qed.

Lemma keeps_frame_grow {A} (m : M Db A) : keeps accounts_grow m -> keeps journal_frame m.
Proof. intros H d. apply accounts_grow_frame, H. Qed.

Lemma inserted_append c w st si key rv cb res d e d' :
  ledger_ok d -> inserted c w st si key rv cb res d e d' -> append_only d d'.
Proof.
  intros Hok Hin. split.
  - exists (gl_entries (db_gl d)), [e]. split; [apply Hin|]. by apply Forall_Forall2_diag, Forall_true.
  - intros x Hx. apply (inserted_lines_old _ _ _ _ _ _ _ _ _ _ _ Hin).
    by apply (inserted_id_new _ _ _ _ _ _ _ _ _ _ _ Hok Hin).
Qed.

Lemma inserted_uuid_ok c w st si key rv cb res d e d' :
  inserted c w st si key rv cb res d e d' -> supply_ok d' -> uuid_ok (je_id e).
Proof.
  intros Hin Hs. unfold supply_ok, uuid_ok in *. rewrite (in_entry _ _ _ _ _ _ _ _ _ _ _ Hin). cbn.
  pose proof (in_uuid _ _ _ _ _ _ _ _ _ _ _ Hin). lia.
Qed.

Lemma inserted_accounts c w st si key rv cb res d e d' :
  inserted c w st si key rv cb res d e d' -> forall a, a ∈ gl_accounts (db_gl d) ->
    exists a', a' ∈ gl_accounts (db_gl d') /\ acc_id a' = acc_id a.
Proof. intros Hin a Ha. exists a. by rewrite (in_accounts _ _ _ _ _ _ _ _ _ _ _ Hin). Qed.

(** An insert under a sequence number read before other writers ran: had the
    number moved meanwhile, the key would be taken. *)
Lemma racing_insert_rely c w st si p cb res d0 d1 e d2 :
  rely d0 d1 -> event_prefix p -> balanced (map (fun la => pl_amount_cents (fst la)) res) ->
  _insert_entry c w st si (idempotency_key p (compute_seq c p d0)) None cb res d1 = (Ok e, d2) ->
  rely d0 d2.
Proof.
  intros Hr Hp Hbal Hin%insert_entry_Ok.
  pose proof (in_uuid _ _ _ _ _ _ _ _ _ _ _ Hin) as Hlt.
  split.
  - pose proof (rely_uuid _ _ Hr). lia.
  - rewrite (in_ops _ _ _ _ _ _ _ _ _ _ _ Hin). apply Hr.
  - intros a Ha. rewrite (in_accounts _ _ _ _ _ _ _ _ _ _ _ Hin). by apply Hr.
  - intros Hs Hok. destruct (rely_journal _ _ Hr) as [Hok1 Hao]; [unfold supply_ok in *; lia|done|].
    assert (compute_seq c p d0 = compute_seq c p d1) as Hseq.
    { pose proof (append_only_seq c p d0 d1 Hao).
      destruct (decide (compute_seq c p d0 < compute_seq c p d1)) as [Hm|]; [|lia]. exfalso.
      destruct (lo_full d1 Hok1 c p (compute_seq c p d0) Hp) as (x & Hx & _ & _ & _ & Hk).
      { pose proof (compute_seq_nonneg c p d0). lia. }
      by apply (in_key_new _ _ _ _ _ _ _ _ _ _ _ Hin x). }
    rewrite Hseq in Hin. split.
    + eapply insert_event_ok; eauto using inserted_uuid_ok.
    + etrans; [done|]. by eapply inserted_append.
Qed.

Lemma post_attempts_rely `{W : World} fuel races ev ov res p lc d0 :
  (forall k d, rely d (races k d)) -> event_prefix p ->
  balanced (map (fun la => pl_amount_cents (fst la)) res) ->
  rely d0 (snd (post_attempts fuel races ev ov res p lc d0)).
Proof.
  intros Hraces Hp Hbal. revert lc d0. induction fuel as [|fuel IH]; intros lc d0; [done|].
  cbn [post_attempts]. unfold mseq at 1 2, mreads.
  destruct (live_entry _ _ d0); [done|].
  match goal with |- rely _ (snd (mseq ?check _ _)) =>
    assert (keeps rely check) as Hc; [|unfold mseq at 1; specialize (Hc d0); destruct (check d0) as [[[]|x] d1]] end.
  { destruct lc; [apply keeps_return, _|apply keeps_rely, check_period_lock_frame]. }
  2: done.
  cbn [snd] in Hc. unfold mseq at 1, mwrite.
  assert (rely d0 (races fuel d1)) as Hr by (by etrans). set (d2 := races fuel d1) in *. clearbody d2.
  unfold mcatch. destruct (_insert_entry _ _ _ _ _ _ _ _ d2) as [[e|x] d3] eqn:Hins.
  - by eapply racing_insert_rely.
  - apply insert_entry_Err in Hins as [-> Hf]. rewrite decide_True by done.
    assert (rely d0 d3) as Hr3 by (etrans; [done|by apply journal_frame_rely]).
    unfold mseq, mreads. destruct (_entry_by_key _ _ d3) as [c|]; [|done].
    case_decide; [done|]. etrans; [done|]. apply IH.
Qed.

Lemma post_racing_rely `{WO : WorldOk} races ev ov :
  (forall k d, rely d (races k d)) -> keeps rely (post_for_event_racing races ev ov).
Proof.
  intros Hraces d. unfold post_for_event_racing. unfold mseq at 1, mlift.
  destruct (_validate_balance (ev_lines ev)) as [[]|x] eqn:Hv; [|done].
  unfold mseq at 1. pose proof (resolve_lines_grows (ev_company_id ev) (ev_lines ev) d) as Hg.
  destruct (_resolve_lines _ _ d) as [[res|x] d1] eqn:Hres; cbn [snd] in Hg;
    (etrans; [by apply journal_frame_rely, accounts_grow_frame|]); [|done].
  unfold mseq at 1. destruct (content_hash _) as [ch|] eqn:Hch; [|done].
  unfold mseq at 1. destruct (key_prefix _ _ _ _) as [p|] eqn:Hp; [|done].
  apply post_attempts_rely; [done| |].
  - eapply event_prefix_of_key_prefix; [done|]. by eapply content_hash_no_colon.
  - apply resolve_lines_Ok in Hres as [Hf _]. apply validate_balance_Ok in Hv.
    rewrite <- Hf, map_map in Hv. done.
Qed.

(** * Reversing, with other writers running *)

Lemma get_entry_Some u d e : get_entry u d = Some e -> e ∈ gl_entries (db_gl d) /\ je_id e = u.
Proof. intros [H E%N.eqb_eq]%find_some_elem. done. Qed.

Lemma get_entry_elem d e : ledger_ok d -> e ∈ gl_entries (db_gl d) -> get_entry (je_id e) d = Some e.
Proof.
  intros Hok He. destruct (get_entry (je_id e) d) as [x|] eqn:E.
  - apply get_entry_Some in E as [Hx Hid]. f_equal. by apply (id_unique d).
  - unfold get_entry in E. rewrite find_none_elem in E. specialize (E e He).
    by rewrite N.eqb_refl in E.
Qed.

Lemma after_reversal_append w cb d o r d1 :
  ledger_ok d -> o ∈ gl_entries (db_gl d) -> je_status o = posted ->
  inserted (je_company_id o) w (je_source_type o) (je_source_id o) (reversal_key (je_id o))
    (Some (je_id o)) cb (map (mirror_line (je_entry_no o)) (entry_lines (je_id o) d)) d r d1 ->
  append_only d (after_reversal o r d1).
Proof.
  intros Hok Ho Hs Hin. split.
  - unfold after_reversal. cbn. rewrite (in_entries _ _ _ _ _ _ _ _ _ _ _ Hin).
    unfold update_where. rewrite map_app. eexists _, _. split; [done|].
    apply Forall2_fmap_r, Forall_Forall2_diag, Forall_forall. intros x Hx. cbn.
    destruct (N.eqb_spec (je_id x) (je_id o)) as [E|E]; [|by left].
    rewrite (id_unique d x o) by done. right. eauto.
  - intros x Hx. rewrite after_reversal_lines.
    apply (inserted_lines_old _ _ _ _ _ _ _ _ _ _ _ Hin).
    by apply (inserted_id_new _ _ _ _ _ _ _ _ _ _ _ Hok Hin).
Qed.

(** Had another writer reversed the entry meanwhile, the reversal key would be
    taken; so at a successful insert the original is still as it was read. *)
Lemma racing_reversal_original c w st si rv cb res d0 d1 o e d2 :
  ledger_ok d0 -> ledger_ok d1 -> append_only d0 d1 -> o ∈ gl_entries (db_gl d0) ->
  inserted c w st si (reversal_key (je_id o)) rv cb res d1 e d2 ->
  o ∈ gl_entries (db_gl d1).
Proof.
  intros Hok0 Hok1 Hao Ho Hin. destruct (append_only_elem d0 d1 o Hao Ho) as (o' & Ho' & Hk).
  destruct Hk as [->|[Hs [r ->]]]; [done|]. exfalso.
  destruct (lo_reversed d1 Hok1 _ Ho') as (y & Hy & _ & Hrv & _); [done|].
  pose proof (lo_key_form d1 Hok1 y Hy) as Hform. rewrite Hrv in Hform.
  by apply (in_key_new _ _ _ _ _ _ _ _ _ _ _ Hin y).
Qed.

Lemma racing_reversal_rely w cb d0 d1 o r d2 :
  rely d0 d1 -> (ledger_ok d0 -> o ∈ gl_entries (db_gl d0)) -> je_status o = posted ->
  _insert_entry (je_company_id o) w (je_source_type o) (je_source_id o) (reversal_key (je_id o))
    (Some (je_id o)) cb (map (mirror_line (je_entry_no o)) (entry_lines (je_id o) d0)) d1 = (Ok r, d2) ->
  rely d0 (after_reversal o r d2).
Proof.
  intros Hr Ho Hst Hin%insert_entry_Ok.
  pose proof (in_uuid _ _ _ _ _ _ _ _ _ _ _ Hin) as Hlt. split; cbn.
  - pose proof (rely_uuid _ _ Hr). lia.
  - rewrite (in_ops _ _ _ _ _ _ _ _ _ _ _ Hin). apply Hr.
  - intros a Ha. rewrite (in_accounts _ _ _ _ _ _ _ _ _ _ _ Hin). by apply Hr.
  - intros Hs Hok. specialize (Ho Hok). unfold supply_ok in Hs. cbn in Hs.
    destruct (rely_journal _ _ Hr) as [Hok1 Hao]; [unfold supply_ok; lia|done|].
    pose proof (racing_reversal_original _ _ _ _ _ _ _ _ _ _ _ _ Hok Hok1 Hao Ho Hin) as Ho1.
    rewrite <- (ao_lines _ _ Hao o Ho) in Hin. split.
    + eapply after_reversal_ok; eauto using inserted_uuid_ok.
    + etrans; [done|]. by eapply after_reversal_append.
Qed.

Lemma reverse_racing_rely race u w cb ov :
  (forall d, rely d (race d)) -> keeps rely (reverse_entry_racing race u w cb ov).
Proof.
  intros Hrace d. unfold reverse_entry_racing. unfold mseq at 1, mreads.
  destruct (get_entry u d) as [o|] eqn:Hget; [|done].
  apply get_entry_Some in Hget as [Ho _].
  case_decide as Hst.
  { unfold mseq. destruct (je_reversed_by_entry_id o) as [x|]; [|done]. by destruct (get_entry x d). }
  assert (je_status o = posted) as Hp by (by destruct (je_status o)).
  match goal with |- rely _ (snd (mseq ?check _ _)) =>
    pose proof (keeps_rely check) as Hc; unfold mseq at 1 end.
  specialize (Hc (check_period_lock_frame _ _ _ _ _) d).
  destruct (_check_period_lock _ _ _ _ _ d) as [[[]|x] d1] eqn:Hchk; cbn [snd] in Hc; [|done].
  unfold mseq at 1 2, mwrite.
  assert (entry_lines (je_id o) d1 = entry_lines (je_id o) d) as Hlines.
  { pose proof (check_period_lock_frame (je_company_id o) (default (je_effective_at o) w) ov cb
      ("reversal:" +:+ str_uuid (je_id o)) d) as Hf. rewrite Hchk in Hf.
    by apply entry_lines_lines, Hf. }
  assert (rely d (race d1)) as Hr by (by etrans). set (d2 := race d1) in *. clearbody d2.
  rewrite Hlines. unfold mcatch, mseq.
  destruct (_insert_entry _ _ _ _ _ _ _ _ d2) as [[r|x] d3] eqn:Hins.
  - cbn. apply (racing_reversal_rely (default (je_effective_at o) w) cb d d2 o r d3); auto.
  - apply insert_entry_Err in Hins as [-> Hf].
    rewrite decide_True by done. destruct (_entry_by_key _ _ d3); cbn;
      (etrans; [exact Hr|by apply journal_frame_rely]).
Qed.

(** * Reachable states *)

Section Steps.
Context `{WO : WorldOk}.

(** One transaction's worth of ledger work, or anything else that leaves the
    journal alone. *)
Inductive engine_step : Db -> Db -> Prop :=
  | step_post ev ov d : engine_step d (snd (post_for_event ev ov d))
  | step_reverse u w cb ov d : engine_step d (snd (reverse_entry u w cb ov d))
  | step_other d d' : journal_frame d d' -> engine_step d d'.

Inductive engine_steps : Db -> Db -> Prop :=
  | steps_refl d : engine_steps d d
  | steps_more d1 d2 d3 : engine_steps d1 d2 -> engine_step d2 d3 -> engine_steps d1 d3.

Lemma engine_step_rely d d' : engine_step d d' -> rely d d'.
Proof using WO.
  intros [ev ov d0|u w cb ov d0|d0 d0' H].
  - by apply post_racing_rely.
  - by apply reverse_racing_rely.
  - by apply journal_frame_rely.
Qed.

Lemma engine_steps_rely d d' : engine_steps d d' -> rely d d'.
Proof using WO. induction 1; [done|]. etrans; [done|by apply engine_step_rely]. Qed.
End Steps.
