(* ===== verification/EngineSpec.v ===== *)
(** What [post_for_event] and [reverse_entry] promise: the functional
    behaviour on every branch, idempotent replay, the period lock, reversal,
    and safety with concurrent writers. *)

From S2P Require Import Prelude PyStr Dates Money Models Keys Coa Engine EngineInv.

Local Open Scope Z_scope.

(** * Resolution is stable *)

(** Accounts were only appended, and no role lost its one owner. *)
Record stable_accounts (d d' : Db) : Prop := {
  sa_grow : exists news, gl_accounts (db_gl d') = gl_accounts (db_gl d) ++ news;
  sa_owner : forall c role a, role ∈ ALL_ROLES -> role_owners c role d = [a] ->
    role_owners c role d' = [a]
}.

#[export] Instance stable_accounts_preorder : PreOrder stable_accounts.
Proof.
  split.
  - intros d. split; [exists []; by rewrite app_nil_r|done].
  - intros d1 d2 d3 [[n1 E1] H1] [[n2 E2] H2]. split; [|naive_solver].
    exists (n1 ++ n2). by rewrite E2, E1, app_assoc.
Qed.

Lemma stable_accounts_same d d' :
  gl_accounts (db_gl d') = gl_accounts (db_gl d) -> stable_accounts d d'.
Proof.
  intros E. split; [exists []; by rewrite app_nil_r|]. intros c role a _.
  unfold role_owners. by rewrite E.
Qed.

Lemma seed_coa_stable c : keeps stable_accounts (seed_coa c).
Proof.
  intros d. destruct (seed_coa_spec c d) as (news & d' & E & Ha & _ & Hf & _).
  rewrite E. cbn [snd]. split; [by exists news|]. intros c' role a Hr Ho.
  destruct (decide (c' = c)) as [->|Hc].
  - destruct (seed_role_owners c d _ d' role Hr E) as [-> _]; [done|].
    assert (a ∈ role_owners c role d) as Hin by (rewrite Ho; apply list_elem_of_here).
    unfold role_owners in Hin. apply elem_of_filter_b in Hin as [Hin H].
    apply andb_prop in H as [[[Hc Hown]%andb_prop _]%andb_prop _].
    exists a. unfold company_accounts. rewrite elem_of_filter_b.
    unfold owns_role in Hown. destruct (acc_role a) as [x|]; [|done].
    apply String.eqb_eq in Hown as ->. done.
  - unfold role_owners. rewrite Ha, List.filter_app.
    rewrite (filter_none _ news), app_nil_r; [done|]. intros x Hx.
    rewrite Forall_forall in Hf. destruct (Hf x Hx) as [_ ->].
    by rewrite (proj2 (String.eqb_neq _ _)).
Qed.

Lemma ensure_role_account_stable c role : keeps stable_accounts (ensure_role_account c role).
Proof.
  unfold ensure_role_account.
  apply keeps_catch; [apply _|apply reads_only_keeps; [apply _|apply resolve_role_account_reads]|].
  apply keeps_seq; [apply _|apply keeps_reads, _|]. intros has.
  case_if; [apply keeps_raise, _|].
  apply keeps_seq; [apply _|apply seed_coa_stable|]. intros n.
  case_if; [apply keeps_raise, _|].
  apply reads_only_keeps; [apply _|apply resolve_role_account_reads].
Qed.

Lemma ensure_role_account_known c role a d d' :
  ensure_role_account c role d = (Ok a, d') -> role ∈ ALL_ROLES.
Proof.
  unfold ensure_role_account, mcatch, resolve_role_account at 1.
  destruct (existsb (String.eqb role) ALL_ROLES) eqn:E; cbn [negb orb].
  - intros _. apply existsb_elem in E as (x & Hx & ->%String.eqb_eq). done.
  - rewrite decide_True by done. intros H. minv H.
Qed.

Lemma ensure_role_account_again c role a d d' d'' :
  ensure_role_account c role d = (Ok a, d') -> stable_accounts d' d'' ->
  ensure_role_account c role d'' = (Ok a, d'').
Proof.
  intros E Hs. pose proof (ensure_role_account_known _ _ _ _ _ E) as Hr.
  apply ensure_role_account_Ok in E as (Ho & _).
  unfold ensure_role_account, mcatch.
  rewrite (resolve_role_account_owner c role a); [done..|]. by apply Hs.
Qed.

Lemma resolve_line_stable c l : keeps stable_accounts (_resolve_line c l).
Proof.
  unfold _resolve_line. destruct (pl_role l) as [role|].
  - apply keeps_seq; [apply _|apply ensure_role_account_stable|]. intros a. apply keeps_return, _.
  - destruct (pl_account_id l); [|apply keeps_raise, _].
    apply keeps_seq; [apply _|apply keeps_reads, _|]. intros [a|]; [|apply keeps_raise, _].
    repeat case_if; first [apply keeps_raise, _|apply keeps_return, _].
Qed.

Lemma resolve_line_again c l u d d' d'' :
  _resolve_line c l d = (Ok u, d') -> stable_accounts d' d'' ->
  _resolve_line c l d'' = (Ok u, d'').
Proof.
  unfold _resolve_line. destruct (pl_role l) as [role|].
  - intros H Hs. minv H. unfold mseq. by rewrite (ensure_role_account_again _ _ _ _ _ _ H0 Hs).
  - destruct (pl_account_id l) as [x|]; [|done]. intros H Hs. minv H.
    destruct (get_account x _) as [a|] eqn:E; [|by minv H].
    unfold mseq, mreads.
    destruct (negb (String.eqb (acc_company_id a) c)) eqn:Ec; [by minv H|].
    destruct (negb (acc_active a)) eqn:Ea; [by minv H|]. minv H.
    destruct (sa_grow _ _ Hs) as [news Hn]. unfold get_account in *.
    rewrite Hn, find_app_b, E. by rewrite Ec, Ea.
Qed.

Lemma resolve_lines_stable c lines : keeps stable_accounts (_resolve_lines c lines).
Proof.
  unfold _resolve_lines. apply keeps_map; [apply _|]. intros l.
  apply keeps_seq; [apply _|apply resolve_line_stable|]. intros u. apply keeps_return, _.
Qed.

(** Resolving the same lines again gives the same accounts and writes nothing. *)
Lemma resolve_lines_again c lines res d d' d'' :
  _resolve_lines c lines d = (Ok res, d') -> stable_accounts d' d'' ->
  _resolve_lines c lines d'' = (Ok res, d'').
Proof.
  revert res d. unfold _resolve_lines. induction lines as [|l lines IH]; intros res d E Hs;
    cbn [mmap] in E |- *; minv E; [done|]. minv E0.
  pose proof (resolve_lines_stable c lines d0) as Hst. unfold _resolve_lines in Hst.
  rewrite E1 in Hst. unfold mseq at 1 2.
  rewrite (resolve_line_again _ _ _ _ _ d'' E2) by (by etrans).
  cbn [mreturn]. unfold mseq at 1. by rewrite (IH _ _ E1 Hs).
Qed.

(** * Posting by a single writer *)

Section Posting.
Context `{WO : WorldOk}.

(** The event passed validation: its lines resolve to [res], which leaves the
    chart of [d1], and its key prefix is [p]. *)
Record prepared (ev : PostingEvent) (d : Db) (res : list (PostingLine * uuid)) (p : string)
    (d1 : Db) : Prop := {
  pr_valid : _validate_balance (ev_lines ev) = Ok tt;
  pr_resolved : _resolve_lines (ev_company_id ev) (ev_lines ev) d = (Ok res, d1);
  pr_prefix : exists ch, content_hash (event_content ev res) = Ok ch /\
    key_prefix (ev_source_type ev) (ev_source_id ev) (ev_event ev) ch = Ok p
}.

Lemma post_prepared races ev ov d res p d1 :
  prepared ev d res p d1 ->
  post_for_event_racing races ev ov d =
  post_attempts _MAX_KEY_ATTEMPTS races ev ov res p false d1.
Proof using Type.
  intros [H1 H2 (ch & H3 & H4)]. unfold post_for_event_racing, mlift.
  unfold mseq at 1. rewrite H1. unfold mseq at 1. rewrite H2.
  unfold mseq at 1. rewrite H3. unfold mseq at 1. by rewrite H4.
Qed.

Lemma post_Ok_prepared races ev ov d e d' :
  post_for_event_racing races ev ov d = (Ok e, d') -> exists res p d1, prepared ev d res p d1.
Proof using Type.
  unfold post_for_event_racing. intros H. minv H.
  match goal with u : unit |- _ => destruct u end.
  do 3 eexists. split; eauto.
Qed.

Lemma prepared_event_prefix ev d res p d1 : prepared ev d res p d1 -> event_prefix p.
Proof using WO.
  intros [_ _ (ch & H3 & H4)]. eapply event_prefix_of_key_prefix; [done|].
  by eapply content_hash_no_colon.
Qed.

Lemma prepared_balanced ev d res p d1 :
  prepared ev d res p d1 -> balanced (map (fun la => pl_amount_cents (fst la)) res).
Proof using Type.
  intros [H1%validate_balance_Ok H2 _]. apply resolve_lines_Ok in H2 as [Hf _].
  rewrite <- Hf, map_map in H1. done.
Qed.

(** The source states a single-tenant database: one company's journal. *)
Definition one_company (c : string) (d : Db) : Prop :=
  forall e, e ∈ gl_entries (db_gl d) -> je_company_id e = c.

Definition next_key (c p : string) (d : Db) : string := idempotency_key p (compute_seq c p d).

Lemma live_entry_Some c key d e :
  live_entry c key d = Some e ->
  e ∈ gl_entries (db_gl d) /\ je_company_id e = c /\ je_idempotency_key e = Some key /\
  je_status e = posted.
Proof using Type.
  unfold live_entry, _entry_by_key. destruct (List.find _ _) as [x|] eqn:E; [|done].
  case_decide; [|done]. intros [= ->]. apply find_some_elem in E as [He Hk].
  apply andb_prop in Hk as [Hc%String.eqb_eq Hk%has_key_true]. done.
Qed.

Lemma entry_by_key_elem c key d e :
  ledger_ok d -> e ∈ gl_entries (db_gl d) -> je_company_id e = c ->
  je_idempotency_key e = Some key -> _entry_by_key c key d = Some e.
Proof using Type.
  intros Hok He Hc Hk. destruct (_entry_by_key c key d) as [x|] eqn:E.
  - apply find_some_elem in E as [Hx Hp].
    apply andb_prop in Hp as [_ Hp%has_key_true]. f_equal. apply (key_unique d); congruence.
  - unfold _entry_by_key in E. rewrite find_none_elem in E. specialize (E e He).
    by rewrite Hc, String.eqb_refl, (proj2 (has_key_true _ _) Hk) in E.
Qed.

Lemma live_entry_elem c key d e :
  ledger_ok d -> e ∈ gl_entries (db_gl d) -> je_company_id e = c ->
  je_idempotency_key e = Some key -> je_status e = posted -> live_entry c key d = Some e.
Proof using Type.
  intros. unfold live_entry. erewrite entry_by_key_elem by done. by rewrite decide_True.
Qed.

(** With no live entry, the next key is free: a reversed one would have been
    counted. *)
Lemma next_key_free c p d e :
  ledger_ok d -> one_company c d -> event_prefix p -> live_entry c (next_key c p d) d = None ->
  e ∈ gl_entries (db_gl d) -> je_idempotency_key e <> Some (next_key c p d).
Proof using Type.
  intros Hok Hone Hp Hlive He Hk.
  assert (key_is p (compute_seq c p d) e) as Hke
    by (split_and!; [done|apply compute_seq_nonneg|done]).
  pose proof (lo_dense d Hok e p _ He Hke) as Hd. rewrite (Hone e He) in Hd.
  case_decide as Hs; [|lia]. erewrite live_entry_elem in Hlive; eauto. done.
Qed.

(** The state in which the period check leaves an accepted posting. *)
Definition lock_passed (c : string) (w : date) (ov : bool) (cb : option string) (ctx : string)
    (d d' : Db) : Prop :=
  (period_locked c w d = false /\ d' = d) \/
  (period_locked c w d = true /\ ov = true /\ exists lock, max_lock_date c d = Some lock /\
     d' = set_gl (set_audit (fun l => l ++
            [mk_audit c cb "gl_posted_into_locked_period" w lock ctx])) d).

Definition event_context (ev : PostingEvent) : string :=
  ev_source_type ev +:+ ":" +:+ ev_source_id ev +:+ ":" +:+ ev_event ev.

Lemma lock_passed_exists c w ov cb ctx d :
  period_locked c w d = false \/ ov = true ->
  exists d', lock_passed c w ov cb ctx d d' /\ _check_period_lock c w ov cb ctx d = (Ok tt, d') /\
             journal_frame d d' /\ gl_accounts (db_gl d') = gl_accounts (db_gl d).
Proof using Type.
  intros H. pose proof (check_period_lock_frame c w ov cb ctx d) as Hf.
  destruct (period_locked c w d) eqn:E.
  - destruct H as [?| ->]; [done|].
    destruct (check_period_lock_override c w cb ctx d E) as (lock & Hl & Hc).
    rewrite Hc in Hf. eexists. split; [right; eauto 10|]. split; [done|]. split; [done|done].
  - exists d. rewrite check_period_lock_open in * by done. split; [by left|]. done.
Qed.

Lemma lock_passed_frame c w ov cb ctx d d' : lock_passed c w ov cb ctx d d' -> journal_frame d d'.
Proof using Type.
  intros [[_ ->]|(_ & _ & lock & _ & ->)]; [reflexivity|].
  split; cbn; try done. intros a Ha. by exists a.
Qed.

(** One attempt by a single writer, on a state whose period check passes. *)
Lemma post_attempt fuel ev ov res p d d2 e d' :
  live_entry (ev_company_id ev) (next_key (ev_company_id ev) p d) d = None ->
  _check_period_lock (ev_company_id ev) (ev_effective_at ev) ov (ev_created_by ev)
    (event_context ev) d = (Ok tt, d2) ->
  _insert_entry (ev_company_id ev) (ev_effective_at ev) (Some (ev_source_type ev))
    (Some (ev_source_id ev)) (next_key (ev_company_id ev) p d) None (ev_created_by ev) res d2
    = (Ok e, d') ->
  post_attempts (S fuel) (fun _ d => d) ev ov res p false d = (Ok e, d').
Proof using Type.
  intros Hlive Hchk Hins. cbn [post_attempts]. unfold mseq at 1 2, mreads.
  fold (next_key (ev_company_id ev) p d). rewrite Hlive.
  unfold mseq at 1. fold (event_context ev). rewrite Hchk.
  unfold mseq at 1, mwrite, mcatch. by rewrite Hins.
Qed.

Lemma post_attempt_stops fuel ev ov res p d e :
  live_entry (ev_company_id ev) (next_key (ev_company_id ev) p d) d = Some e ->
  post_attempts (S fuel) (fun _ d => d) ev ov res p false d = (Ok e, d).
Proof using Type.
  intros Hlive. cbn [post_attempts]. unfold mseq at 1 2, mreads.
  fold (next_key (ev_company_id ev) p d). by rewrite Hlive.
Qed.

Lemma post_attempt_locked fuel ev res p d :
  live_entry (ev_company_id ev) (next_key (ev_company_id ev) p d) d = None ->
  period_locked (ev_company_id ev) (ev_effective_at ev) d = true ->
  post_attempts (S fuel) (fun _ d => d) ev false res p false d = (Err PeriodLockedError, d).
Proof using Type.
  intros Hlive Hl. cbn [post_attempts]. unfold mseq at 1 2, mreads.
  fold (next_key (ev_company_id ev) p d). rewrite Hlive.
  unfold mseq at 1. by rewrite check_period_lock_refused.
Qed.

(** The three outcomes of a posting. *)
Lemma post_outcomes ev ov d res p d1 :
  ledger_ok d -> one_company (ev_company_id ev) d -> prepared ev d res p d1 ->
  let c := ev_company_id ev in
  let key := next_key c p d1 in
  match live_entry c key d1 with
  | Some e => post_for_event ev ov d = (Ok e, d1)
  | None =>
      if period_locked c (ev_effective_at ev) d1 && negb ov
      then post_for_event ev ov d = (Err PeriodLockedError, d1)
      else exists d2 e d', post_for_event ev ov d = (Ok e, d') /\
             lock_passed c (ev_effective_at ev) ov (ev_created_by ev) (event_context ev) d1 d2 /\
             inserted c (ev_effective_at ev) (Some (ev_source_type ev)) (Some (ev_source_id ev))
               key None (ev_created_by ev) res d2 e d'
  end.
Proof using WO.
  intros Hok Hone Hprep c key. unfold post_for_event. rewrite (post_prepared _ _ _ _ _ _ _ Hprep).
  pose proof (prepared_event_prefix _ _ _ _ _ Hprep) as Hp.
  pose proof (prepared_balanced _ _ _ _ _ Hprep) as Hbal.
  destruct (resolve_lines_Ok _ _ _ _ _ (pr_resolved _ _ _ _ _ Hprep)) as (_ & Hg & Hacc).
  assert (ledger_ok d1) as Hok1 by (by eapply ledger_ok_frame, accounts_grow_frame).
  assert (one_company c d1) as Hone1
    by (intros e; rewrite (jf_entries _ _ (accounts_grow_frame _ _ Hg)); apply Hone).
  destruct (live_entry c key d1) as [e|] eqn:Hlive; [by apply post_attempt_stops|].
  destruct (period_locked c (ev_effective_at ev) d1 && negb ov) eqn:Hlock.
  - apply andb_prop in Hlock as [Hl ->%negb_true_iff]. by apply post_attempt_locked.
  - apply andb_false_iff in Hlock. rewrite negb_false_iff in Hlock.
    destruct (lock_passed_exists c (ev_effective_at ev) ov (ev_created_by ev) (event_context ev)
                d1 Hlock) as (d2 & Hpass & Hchk & Hf & Ha2).
    assert (ledger_ok d2) as Hok2 by (by eapply ledger_ok_frame).
    destruct (insert_entry_succeeds c (ev_effective_at ev) (Some (ev_source_type ev))
      (Some (ev_source_id ev)) key None (ev_created_by ev) res d2) as (e & d' & Hins).
    + intros x. rewrite (jf_entries _ _ Hf). by apply next_key_free.
    + intros x Hx. by apply draw_entry_no_new.
    + rewrite Ha2. destruct Hbal as (_ & _ & _ & Hnz). rewrite Forall_fmap in Hnz.
      apply Forall_and. split; [exact Hnz|]. eapply Forall_impl; [exact Hacc|]. naive_solver.
    + exists d2, e, d'. split; [by eapply post_attempt|split; [done|by apply insert_entry_Ok]].
Qed.

(** After a posting the returned entry is the live one under the next key. *)
Lemma post_Ok_live ev ov d e d' :
  ledger_ok d -> one_company (ev_company_id ev) d -> supply_ok d' ->
  post_for_event ev ov d = (Ok e, d') ->
  exists res p d1, prepared ev d res p d1 /\ ledger_ok d' /\ one_company (ev_company_id ev) d' /\
    gl_accounts (db_gl d') = gl_accounts (db_gl d1) /\
    live_entry (ev_company_id ev) (next_key (ev_company_id ev) p d') d' = Some e.
Proof using WO.
  intros Hok Hone Hs Hpost. destruct (post_Ok_prepared _ _ _ _ _ _ Hpost) as (res & p & d1 & Hprep).
  exists res, p, d1. split; [done|].
  pose proof (post_racing_rely (fun _ d => d) ev ov (fun _ _ => reflexivity _) d) as Hr.
  unfold post_for_event in Hpost. rewrite Hpost in Hr.
  destruct (rely_journal _ _ Hr Hs Hok) as [Hok' _].
  destruct (resolve_lines_Ok _ _ _ _ _ (pr_resolved _ _ _ _ _ Hprep)) as (_ & Hg & _).
  assert (one_company (ev_company_id ev) d1) as Hone1
    by (intros x; rewrite (jf_entries _ _ (accounts_grow_frame _ _ Hg)); apply Hone).
  split; [done|].
  pose proof (post_outcomes ev ov d res p d1 Hok Hone Hprep) as Hout. cbn zeta in Hout.
  unfold post_for_event in Hout. rewrite Hpost in Hout.
  destruct (live_entry (ev_company_id ev) _ d1) as [x|] eqn:Hlive.
  { injection Hout as <- <-. done. }
  destruct (_ && negb ov); [done|].
  destruct Hout as (d2 & x & d3 & [= <- <-] & Hpass & Hin).
  assert (gl_entries (db_gl d2) = gl_entries (db_gl d1) /\
          gl_accounts (db_gl d2) = gl_accounts (db_gl d1)) as [He2 Ha2]
    by (destruct Hpass as [[_ ->]|(_ & _ & lock & _ & ->)]; done).
  pose proof (in_entries _ _ _ _ _ _ _ _ _ _ _ Hin) as Hent.
  pose proof (in_entry _ _ _ _ _ _ _ _ _ _ _ Hin) as Heq.
  split_and!.
  - intros y. rewrite Hent, He2, elem_of_app, list_elem_of_singleton.
    intros [Hy| ->]; [by apply Hone1|]. by rewrite Heq.
  - rewrite (in_accounts _ _ _ _ _ _ _ _ _ _ _ Hin). done.
  - apply live_entry_elem; [done| |by rewrite Heq| |by rewrite Heq].
    + rewrite Hent, elem_of_app, list_elem_of_singleton. auto.
    + rewrite Heq. cbn. unfold next_key. do 2 f_equal.
      rewrite (inserted_compute_seq _ _ _ _ _ _ _ _ _ _ _ Hin). by apply eq_sym, compute_seq_entries.
Qed.

(** An event prepared once stays prepared, with nothing left to write. *)
Lemma prepared_again ev d res p d1 d2 :
  prepared ev d res p d1 -> stable_accounts d1 d2 -> prepared ev d2 res p d2.
Proof using Type.
  intros [H1 H2 H3] Hs. split; [done|by eapply resolve_lines_again|done].
Qed.
End Posting.

(** * Reversing by a single writer *)

Lemma reversal_key_free d o x :
  ledger_ok d -> o ∈ gl_entries (db_gl d) -> je_status o = posted ->
  x ∈ gl_entries (db_gl d) -> je_idempotency_key x <> Some (reversal_key (je_id o)).
Proof.
  intros Hok Ho Hs Hx Hk. pose proof (lo_key_form d Hok x Hx) as Hform.
  destruct (je_reverses_entry_id x) as [u|] eqn:Hrv.
  - rewrite Hk in Hform. apply Some_inj in Hform.
    destruct (lo_reverses d Hok x u Hx Hrv) as (y & Hy & <- & Hys).
    apply reversal_key_inj in Hform; [|by apply (lo_ids_bound d Hok)..].
    rewrite (id_unique d o y) in Hs by done. congruence.
  - destruct Hform as (p & n & Hp & Hn & Hk'). rewrite Hk in Hk'. apply Some_inj in Hk'.
    by apply reversal_key_ne_event in Hk'.
Qed.

Lemma mirror_lines_insertable d o :
  ledger_ok d -> o ∈ gl_entries (db_gl d) ->
  Forall (fun la => pl_amount_cents (fst la) <> 0 /\
            exists a, a ∈ gl_accounts (db_gl d) /\ acc_id a = snd la)
    (map (mirror_line (je_entry_no o)) (entry_lines (je_id o) d)).
Proof.
  intros Hok Ho. apply Forall_fmap, Forall_forall. intros l Hl. cbn.
  destruct (lo_balanced d Hok o Ho) as (_ & _ & _ & Hnz). rewrite Forall_fmap, Forall_forall in Hnz.
  specialize (Hnz l Hl). unfold entry_lines in Hl. apply elem_of_filter_b in Hl as [Hl _].
  split; [cbn in Hnz; lia|]. by apply (lo_account_refs d Hok).
Qed.

Ltac open_reverse :=
  unfold reverse_entry, reverse_entry_racing; unfold mseq at 1, mreads;
  rewrite get_entry_elem by done; rewrite decide_False by congruence; cbv zeta.

Lemma reverse_live d o w cb ov :
  ledger_ok d -> o ∈ gl_entries (db_gl d) -> je_status o = posted ->
  let when_ := default (je_effective_at o) w in
  if period_locked (je_company_id o) when_ d && negb ov
  then reverse_entry (je_id o) w cb ov d = (Err PeriodLockedError, d)
  else exists d2 r d3, reverse_entry (je_id o) w cb ov d = (Ok r, after_reversal o r d3) /\
         lock_passed (je_company_id o) when_ ov cb ("reversal:" +:+ str_uuid (je_id o)) d d2 /\
         inserted (je_company_id o) when_ (je_source_type o) (je_source_id o)
           (reversal_key (je_id o)) (Some (je_id o)) cb
           (map (mirror_line (je_entry_no o)) (entry_lines (je_id o) d2)) d2 r d3.
Proof.
  intros Hok Ho Hs when_. destruct (period_locked _ when_ d && negb ov) eqn:Hlock.
  - apply andb_prop in Hlock as [Hl ->%negb_true_iff]. open_reverse. unfold mseq at 1.
    by rewrite check_period_lock_refused.
  - apply andb_false_iff in Hlock. rewrite negb_false_iff in Hlock.
    destruct (lock_passed_exists (je_company_id o) when_ ov cb ("reversal:" +:+ str_uuid (je_id o))
                d Hlock) as (d2 & Hpass & Hchk & Hf & Ha).
    assert (ledger_ok d2) as Hok2 by (by eapply ledger_ok_frame).
    assert (o ∈ gl_entries (db_gl d2)) as Ho2 by (by rewrite (jf_entries _ _ Hf)).
    destruct (insert_entry_succeeds (je_company_id o) when_ (je_source_type o) (je_source_id o)
      (reversal_key (je_id o)) (Some (je_id o)) cb
      (map (mirror_line (je_entry_no o)) (entry_lines (je_id o) d2)) d2) as (r & d3 & Hins).
    + intros x Hx. by eapply reversal_key_free.
    + intros x Hx. by apply draw_entry_no_new.
    + by apply mirror_lines_insertable.
    + exists d2, r, d3. split; [|split; [done|by apply insert_entry_Ok]].
      open_reverse. unfold mseq at 1. fold when_. rewrite Hchk. unfold mseq at 1 2, mwrite, mcatch, mseq. by rewrite Hins.
Qed.

Lemma reverse_again d o r w cb ov :
  ledger_ok d -> o ∈ gl_entries (db_gl d) -> je_status o = reversed ->
  r ∈ gl_entries (db_gl d) -> je_reversed_by_entry_id o = Some (je_id r) ->
  reverse_entry (je_id o) w cb ov d = (Ok r, d).
Proof.
  intros Hok Ho Hs Hr Hby. unfold reverse_entry, reverse_entry_racing.
  unfold mseq at 1, mreads. rewrite get_entry_elem by done. rewrite decide_True by done.
  rewrite Hby. unfold mseq. by rewrite get_entry_elem.
Qed.

(** The net movement of an entry on one account. *)
Definition account_net (a e : uuid) (d : Db) : Z :=
  zsum_of jl_amount_cents
    (List.filter (fun l => N.eqb (jl_account_id l) a) (entry_lines e d)).

Lemma mirrors_net d r o a : mirrors d r o -> account_net a r d = - account_net a o d.
Proof.
  unfold mirrors, account_net. generalize (entry_lines r d), (entry_lines o d).
  intros l1. induction l1 as [|x l1 IH]; intros [|y l2] H; cbn [map] in H; try done.
  injection H as H1 H2 H3 H4 H5. cbn [List.filter]. rewrite H1.
  specialize (IH l2 H5). destruct (N.eqb (jl_account_id y) a); cbn [map zsum]; lia.
Qed.

Lemma after_reversal_by w cb d o r d1 :
  ledger_ok d -> o ∈ gl_entries (db_gl d) ->
  inserted (je_company_id o) w (je_source_type o) (je_source_id o) (reversal_key (je_id o))
    (Some (je_id o)) cb (map (mirror_line (je_entry_no o)) (entry_lines (je_id o) d)) d r d1 ->
  r ∈ gl_entries (db_gl (after_reversal o r d1)) /\
  mark_reversed (je_id r) o ∈ gl_entries (db_gl (after_reversal o r d1)).
Proof. intros Hok Ho Hin. rewrite !(after_reversal_elem w cb d o r d1 Hok Ho Hin). auto. Qed.

(** What reversing the live entry of a prefix leaves. *)
Record reversed_state (c p : string) (d1 : Db) (e r : GlJournalEntry) (d2 : Db) : Prop := {
  rs_ok : ledger_ok d2;
  rs_company : one_company c d2;
  rs_seq : compute_seq c p d2 = compute_seq c p d1 + 1;
  rs_accounts : gl_accounts (db_gl d2) = gl_accounts (db_gl d1);
  rs_marked : mark_reversed (je_id r) e ∈ gl_entries (db_gl d2);
  rs_free : live_entry c (next_key c p d2) d2 = None
}.

Lemma key_bound d c p n e :
  ledger_ok d -> e ∈ gl_entries (db_gl d) -> je_company_id e = c -> key_is p n e ->
  n <= compute_seq c p d.
Proof. intros Hok He <- Hk. pose proof (lo_dense d Hok e p n He Hk) as Hd. case_decide; lia. Qed.

Lemma reverse_live_state c p w cb ov d1 e r d2 :
  ledger_ok d1 -> one_company c d1 -> event_prefix p ->
  live_entry c (next_key c p d1) d1 = Some e ->
  reverse_entry (je_id e) w cb ov d1 = (Ok r, d2) -> supply_ok d2 ->
  reversed_state c p d1 e r d2.
Proof.
  intros Hok1 Hone1 Hp Hlive Hrev Hs.
  destruct (live_entry_Some _ _ _ _ Hlive) as (He & Hec & Hek & Hes).
  pose proof (reverse_live d1 e w cb ov Hok1 He Hes) as Hout. cbn zeta in Hout.
  destruct (_ && negb ov); [congruence|].
  destruct Hout as (dl & r' & d1r & Hrev' & Hpass & Hin).
  rewrite Hrev in Hrev'. injection Hrev' as <- ->.
  pose proof (lock_passed_frame _ _ _ _ _ _ _ Hpass) as Hf.
  pose proof (ledger_ok_frame _ _ Hok1 Hf) as Hokl.
  assert (e ∈ gl_entries (db_gl dl)) as Hel by (by rewrite (jf_entries _ _ Hf)).
  pose proof (after_reversal_elem _ _ _ _ _ _ Hokl Hel Hin) as Helem.
  assert (key_is p (compute_seq c p d1) e) as Hke
    by (split_and!; [done|apply compute_seq_nonneg|done]).
  assert (compute_seq c p (after_reversal e r d1r) = compute_seq c p d1 + 1) as Hseq.
  { rewrite (after_reversal_seq _ _ _ _ _ _ Hokl Hel Hin) by done.
    rewrite (original_key_count e r c p _ Hke), decide_True by done.
    by rewrite (compute_seq_entries c p d1 dl) by apply Hf. }
  split; [|..|done| |apply Helem; auto|].
  - eapply after_reversal_ok; eauto using inserted_uuid_ok.
  - intros x [->|[[Hx _]| ->]]%Helem; [|rewrite (jf_entries _ _ Hf) in Hx; by apply Hone1|done].
    by rewrite (in_entry _ _ _ _ _ _ _ _ _ _ _ Hin).
  - cbn. rewrite (in_accounts _ _ _ _ _ _ _ _ _ _ _ Hin).
    destruct Hpass as [[_ ->]|(_ & _ & lock & _ & ->)]; done.
  - destruct (live_entry c _ (after_reversal e r d1r)) as [x|] eqn:Hx; [exfalso|done].
    apply live_entry_Some in Hx as (Hx & Hxc & Hxk & Hxs). unfold next_key in Hxk. rewrite Hseq in Hxk.
    pose proof (compute_seq_nonneg c p d1) as Hnn.
    apply Helem in Hx as [->|[[Hx _]| ->]]; [| |done].
    + rewrite (in_entry _ _ _ _ _ _ _ _ _ _ _ Hin) in Hxk. cbn in Hxk.
      apply Some_inj, reversal_key_ne_event in Hxk; [done|done|lia].
    + rewrite (jf_entries _ _ Hf) in Hx.
      assert (key_is p (compute_seq c p d1 + 1) x) as Hkx by (split_and!; [done|lia|done]).
      pose proof (key_bound d1 c p _ x Hok1 Hx Hxc Hkx). lia.
Qed.

(** A database whose journal is still empty. *)
Definition empty_journal (d : Db) : Prop := gl_entries (db_gl d) = [] /\ gl_lines (db_gl d) = [].

Lemma ledger_ok_empty d : empty_journal d -> ledger_ok d.
Proof.
  intros [E L]. split; rewrite ?E, ?L; try (apply NoDup_nil_2);
    try (intros ? H; by apply elem_of_nil in H).
  - intros ?? H. by apply elem_of_nil in H.
  - intros ??? H. by apply elem_of_nil in H.
  - intros c p n _ Hn. unfold compute_seq in Hn. rewrite E in Hn. cbn in Hn. lia.
Qed.

(** * A concrete ledger for the witnesses *)

Definition demo_db : Db := snd (seed_coa "co" (mk_db (bare_gl []) (bare_ops true))).

Definition demo_event (cents : Z) : PostingEvent :=
  mk_event "co" "invoice" "11" "issued" 738000
    [mk_pline cents (Some ROLE_AR) None (Some "Invoice 11") None (Some 7%N);
     mk_pline (- cents) (Some ROLE_SALES_FALLBACK) None None None (Some 7%N)]
    (Some "user-1") None.

Definition lock_through (w : date) (d : Db) : Db :=
  set_gl (fun g => mk_gl (gl_accounts g) (gl_entries g) (gl_lines g) (mk_lock w "co" :: gl_locks g)
                     (gl_settings g) (gl_audit g) (gl_next_uuid g) (gl_entry_no_seq g)) d.

Definition run_post (ev : PostingEvent) (d : Db) : option GlJournalEntry * Db :=
  match post_for_event (W := toy_world) ev false d with
  | (Ok e, d') => (Some e, d')
  | (Err _, d') => (None, d')
  end.

Lemma demo_db_ok : ledger_ok demo_db.
Proof. apply ledger_ok_empty. split; vm_compute; reflexivity. Qed.

Lemma demo_db_company : one_company "co" demo_db.
Proof. intros e H. vm_compute in H. by apply elem_of_nil in H. Qed.

Lemma demo_prepared cents :
  _validate_balance (ev_lines (demo_event cents)) = Ok tt ->
  exists res p, prepared (W := toy_world) (demo_event cents) demo_db res p demo_db.
Proof.
  intros Hv. eexists _, _. split; [exact Hv|vm_compute; reflexivity|].
  eexists. split; reflexivity.
Qed.

(** * Properties *)

(** C1: [post_for_event] on a validated event, by a single writer, has
    exactly three outcomes.  If the same content is live, that entry is
    returned and nothing is written.  Otherwise, if the date is in a locked
    period and the caller does not override, it raises [PeriodLockedError] and
    writes nothing.  Otherwise it inserts one posted, balanced entry at the
    first attempt, whose lines carry the event's amounts, dimensions and
    resolved accounts in order, leaving every other entry and line as it was;
    an override adds exactly one audit row naming the lock. *)
Theorem post_for_event_outcomes `{WO : WorldOk} ev ov d res p d1
    (Hok : ledger_ok d) (Hone : one_company (ev_company_id ev) d)
    (Hprep : prepared ev d res p d1) :
  let c := ev_company_id ev in
  match live_entry c (next_key c p d1) d1 with
  | Some e => post_for_event ev ov d = (Ok e, d1)
  | None =>
      if period_locked c (ev_effective_at ev) d1 && negb ov
      then post_for_event ev ov d = (Err PeriodLockedError, d1)
      else exists e d', post_for_event ev ov d = (Ok e, d') /\
        gl_entries (db_gl d') = gl_entries (db_gl d) ++ [e] /\
        je_status e = posted /\ je_company_id e = c /\
        je_effective_at e = ev_effective_at ev /\
        je_idempotency_key e = Some (next_key c p d1) /\
        map line_image (entry_lines (je_id e) d') =
          map (fun la => (snd la, pl_amount_cents (fst la), pl_job_id (fst la),
                          pl_customer_id (fst la))) res /\
        balanced (map jl_amount_cents (entry_lines (je_id e) d')) /\
        (forall x, x ∈ gl_entries (db_gl d) -> entry_lines (je_id x) d' = entry_lines (je_id x) d) /\
        length (gl_audit (db_gl d')) = (length (gl_audit (db_gl d)) +
          (if period_locked c (ev_effective_at ev) d1 then 1 else 0))%nat
  end.
Proof.
  intros c. pose proof (post_outcomes ev ov d res p d1 Hok Hone Hprep) as Hout. fold c in Hout.
  cbn zeta in Hout. destruct (live_entry c (next_key c p d1) d1); [done|].
  destruct (period_locked c (ev_effective_at ev) d1 && negb ov) eqn:Hl; [done|].
  destruct Hout as (d2 & e & d' & Hpost & Hpass & Hin). exists e, d'.
  destruct (resolve_lines_Ok _ _ _ _ _ (pr_resolved _ _ _ _ _ Hprep)) as (_ & Hg & _).
  assert (journal_frame d d2) as Hf.
  { etrans; [by apply accounts_grow_frame|].
    by eapply lock_passed_frame. }
  assert (ledger_ok d2) as Hok2 by (by eapply ledger_ok_frame).
  pose proof (in_entry _ _ _ _ _ _ _ _ _ _ _ Hin) as He.
  split; [done|]. rewrite (inserted_lines_new _ _ _ _ _ _ _ _ _ _ _ Hok2 Hin).
  rewrite build_lines_image, build_lines_amounts. split_and!.
  - by rewrite (in_entries _ _ _ _ _ _ _ _ _ _ _ Hin), (jf_entries _ _ Hf).
  - by rewrite He.
  - by rewrite He.
  - by rewrite He.
  - by rewrite He.
  - done.
  - by eapply prepared_balanced.
  - intros x Hx. rewrite (inserted_lines_old _ _ _ _ _ _ _ _ _ _ _ Hin).
    + by apply entry_lines_lines, Hf.
    + apply (inserted_id_new _ _ _ _ _ _ _ _ _ _ _ Hok2 Hin). by rewrite (jf_entries _ _ Hf).
  - rewrite (in_audit _ _ _ _ _ _ _ _ _ _ _ Hin).
    destruct Hg as (_ & _ & _ & _ & _ & _ & <- & _).
    destruct Hpass as [[-> ->]|(-> & _ & lock & _ & ->)]; [lia|]. cbn. by rewrite length_app.
Qed.

Lemma post_for_event_outcomes_witness :
  exists e d', post_for_event (W := toy_world) (demo_event 100) false demo_db = (Ok e, d') /\
    gl_entries (db_gl d') = gl_entries (db_gl demo_db) ++ [e] /\
    balanced (map jl_amount_cents (entry_lines (je_id e) d')).
Proof.
  destruct (demo_prepared 100 eq_refl) as (res & p & Hprep).
  pose proof (post_for_event_outcomes (WO := toy_world_ok) (demo_event 100) false _ _ _ _ demo_db_ok demo_db_company Hprep)
    as H. cbn zeta in H.
  assert (live_entry "co" (next_key "co" p demo_db) demo_db = None) as E by reflexivity.
  change (ev_company_id (demo_event 100)) with "co" in H. rewrite E in H.
  assert (period_locked "co" (ev_effective_at (demo_event 100)) demo_db = false) as E'
    by (vm_compute; reflexivity).
  rewrite E' in H. cbn [andb] in H.
  destruct H as (e & d' & H1 & H2 & _ & _ & _ & _ & _ & H3 & _). exists e, d'. auto.
Defined.

(** posting is idempotent.  Once [post_for_event] returned entry [e],
    running it again with the same event returns the same [e] and writes
    nothing, with or without the override, even if the period has been locked
    (or any settings, audit or operational rows changed) in between. *)
Theorem post_for_event_replay `{WO : WorldOk} ev ov ov' d e d' d''
    (Hok : ledger_ok d) (Hone : one_company (ev_company_id ev) d) (Hs : supply_ok d')
    (Hpost : post_for_event ev ov d = (Ok e, d'))
    (Hent : gl_entries (db_gl d'') = gl_entries (db_gl d'))
    (Hlin : gl_lines (db_gl d'') = gl_lines (db_gl d'))
    (Hacc : gl_accounts (db_gl d'') = gl_accounts (db_gl d')) :
  post_for_event ev ov' d'' = (Ok e, d'').
Proof.
  destruct (post_Ok_live ev ov d e d' Hok Hone Hs Hpost) as (res & p & d1 & Hprep & _ & _ & Ha & Hlive).
  assert (prepared ev d'' res p d'') as Hprep2.
  { eapply prepared_again; [done|]. apply stable_accounts_same. congruence. }
  unfold post_for_event. rewrite (post_prepared _ _ _ _ _ _ _ Hprep2).
  apply post_attempt_stops. revert Hlive. unfold next_key, live_entry, _entry_by_key.
  by rewrite Hent, (compute_seq_entries _ _ d' d'') by done.
Qed.

Lemma post_for_event_replay_witness :
  let '(r, d') := post_for_event (W := toy_world) (demo_event 100) false demo_db in
  post_for_event (W := toy_world) (demo_event 100) false (lock_through 800000 d') =
    (r, lock_through 800000 d').
Proof.
  destruct (post_for_event (W := toy_world) (demo_event 100) false demo_db) as [[e|x] d'] eqn:E.
  - eapply (post_for_event_replay (WO := toy_world_ok));
      [exact demo_db_ok|exact demo_db_company| |exact E|done..].
    assert (d' = snd (post_for_event (W := toy_world) (demo_event 100) false demo_db)) as -> by (by rewrite E).
    unfold supply_ok. vm_compute. discriminate.
  - exfalso. assert (fst (post_for_event (W := toy_world) (demo_event 100) false demo_db) = Err x) as H by (by rewrite E).
    vm_compute in H. discriminate H.
Defined.

(** C4: reversing a live entry.  Unless the date is locked without override
    (then [PeriodLockedError] and nothing written), [reverse_entry] inserts
    the mirror entry and marks the original: on every account the two entries
    net to zero, the original changes only in its status and back-reference,
    every other entry and all earlier lines stay as they were, the journal
    invariant holds again, and a second reversal returns the same mirror entry
    without writing. *)
Theorem reverse_entry_undoes d o w cb ov
    (Hok : ledger_ok d) (Ho : o ∈ gl_entries (db_gl d)) (Hst : je_status o = posted) :
  let when_ := default (je_effective_at o) w in
  if period_locked (je_company_id o) when_ d && negb ov
  then reverse_entry (je_id o) w cb ov d = (Err PeriodLockedError, d)
  else exists r d', reverse_entry (je_id o) w cb ov d = (Ok r, d') /\
    je_effective_at r = when_ /\ je_reverses_entry_id r = Some (je_id o) /\
    (forall x, x ∈ gl_entries (db_gl d') <->
       x = r \/ (x ∈ gl_entries (db_gl d) /\ je_id x <> je_id o) \/ x = mark_reversed (je_id r) o) /\
    (forall a, account_net a (je_id o) d' + account_net a (je_id r) d' = 0) /\
    (forall x, x ∈ gl_entries (db_gl d) -> entry_lines (je_id x) d' = entry_lines (je_id x) d) /\
    (supply_ok d' -> ledger_ok d' /\
       forall w' cb' ov', reverse_entry (je_id o) w' cb' ov' d' = (Ok r, d')).
Proof.
  intros when_. pose proof (reverse_live d o w cb ov Hok Ho Hst) as Hout. fold when_ in Hout.
  cbn zeta in Hout. destruct (period_locked _ when_ d && negb ov); [done|].
  destruct Hout as (d2 & r & d3 & Hrev & Hpass & Hin).
  pose proof (lock_passed_frame _ _ _ _ _ _ _ Hpass) as Hf.
  assert (ledger_ok d2) as Hok2 by (by eapply ledger_ok_frame).
  assert (o ∈ gl_entries (db_gl d2)) as Ho2 by (by rewrite (jf_entries _ _ Hf)).
  pose proof (after_reversal_elem _ _ _ _ _ _ Hok2 Ho2 Hin) as Hel.
  exists r, (after_reversal o r d3). split; [done|].
  pose proof (in_entry _ _ _ _ _ _ _ _ _ _ _ Hin) as He.
  split_and!; [by rewrite He..|by rewrite <- (jf_entries _ _ Hf)| | |].
  - intros a. rewrite (mirrors_net _ (je_id r) (je_id o)); [lia|]. by eapply after_reversal_mirrors.
  - intros x Hx. rewrite <- (jf_entries _ _ Hf) in Hx.
    rewrite (ao_lines _ _ (after_reversal_append _ _ _ _ _ _ Hok2 Ho2 Hst Hin) x Hx).
    by apply entry_lines_lines, Hf.
  - intros Hs. assert (ledger_ok (after_reversal o r d3)) as Hok3.
    { eapply after_reversal_ok; eauto using inserted_uuid_ok. }
    split; [done|]. intros w' cb' ov'.
    apply (reverse_again (after_reversal o r d3) (mark_reversed (je_id r) o)); [done|..|done|apply Hel|done];
      [apply Hel|]; auto.
Qed.

(** The state after one posting, and the entry it made. *)
Definition posted_db : Db := snd (run_post (demo_event 100) demo_db).
Definition posted_entry : GlJournalEntry :=
  default (mk_entry 0%N 0 0 0 posted None None None None None None None "" 0)
    (fst (run_post (demo_event 100) demo_db)).

Lemma posted_db_ok : ledger_ok posted_db.
Proof.
  assert (rely demo_db posted_db) as Hr.
  { pose proof (post_racing_rely (WO := toy_world_ok) (fun _ d => d) (demo_event 100) false
      (fun _ _ => reflexivity _) demo_db) as H.
    unfold posted_db, run_post, post_for_event. by destruct (post_for_event_racing _ _ _ _) as [[]]. }
  apply (rely_journal _ _ Hr); [|exact demo_db_ok]. unfold supply_ok. vm_compute. discriminate.
Qed.

Lemma posted_entry_in : posted_entry ∈ gl_entries (db_gl posted_db).
Proof.
  assert (gl_entries (db_gl posted_db) = [posted_entry]) as -> by (vm_compute; reflexivity).
  apply list_elem_of_here.
Qed.

Lemma reverse_entry_undoes_witness :
  exists r d', reverse_entry (je_id posted_entry) None None false posted_db = (Ok r, d') /\
    forall a, account_net a (je_id posted_entry) d' + account_net a (je_id r) d' = 0.
Proof.
  pose proof (reverse_entry_undoes posted_db posted_entry None None false posted_db_ok
    posted_entry_in ltac:(vm_compute; reflexivity)) as H. cbn zeta in H.
  assert (period_locked (je_company_id posted_entry)
    (default (je_effective_at posted_entry) None) posted_db = false) as E by (vm_compute; reflexivity).
  rewrite E in H. cbn [andb] in H.
  destruct H as (r & d' & H1 & _ & _ & _ & H2 & _). exists r, d'. split; [exact H1|exact H2].
Defined.

(** edit, revert, repeat.  After an event is posted and its entry
    reversed, posting the very same content again makes a new live entry under
    the next sequence number instead of returning the dead one. *)
Theorem repost_after_reversal `{WO : WorldOk} ev ov w cb ov' d e d1 r d2
    (Hok : ledger_ok d) (Hone : one_company (ev_company_id ev) d)
    (Hpost : post_for_event ev ov d = (Ok e, d1))
    (Hrev : reverse_entry (je_id e) w cb ov' d1 = (Ok r, d2)) (Hs : supply_ok d2)
    (Hopen : period_locked (ev_company_id ev) (ev_effective_at ev) d2 = false) :
  exists e2 d3, post_for_event ev false d2 = (Ok e2, d3) /\
    e2 ∉ gl_entries (db_gl d2) /\ je_id e2 <> je_id e /\ je_status e2 = posted /\
    mark_reversed (je_id r) e ∈ gl_entries (db_gl d3) /\
    exists p n, je_idempotency_key e = Some (idempotency_key p n) /\
                je_idempotency_key e2 = Some (idempotency_key p (n + 1)).
Proof.
  set (c := ev_company_id ev) in *. unfold reverse_entry in Hrev.
  pose proof (reverse_racing_rely (fun d => d) (je_id e) w cb ov' (fun _ => reflexivity _) d1) as Hr12.
  rewrite Hrev in Hr12. cbn [snd] in Hr12. fold (reverse_entry (je_id e) w cb ov' d1) in Hrev.
  assert (supply_ok d1) as Hs1 by (pose proof (rely_uuid _ _ Hr12); unfold supply_ok in *; lia).
  destruct (post_Ok_live ev ov d e d1 Hok Hone Hs1 Hpost)
    as (res & p & d0 & Hprep & Hok1 & Hone1 & Ha & Hlive).
  pose proof (prepared_event_prefix _ _ _ _ _ Hprep) as Hp.
  destruct (reverse_live_state c p w cb ov' d1 e r d2 Hok1 Hone1 Hp Hlive Hrev Hs)
    as [Hok2 Hone2 Hseq Hacc Hme Hfree].
  assert (prepared ev d2 res p d2) as Hprep2
    by (eapply prepared_again; [done|]; apply stable_accounts_same; congruence).
  pose proof (post_outcomes ev false d2 res p d2 Hok2 Hone2 Hprep2) as Hout. cbn zeta in Hout.
  fold c in Hout. rewrite Hfree, Hopen in Hout. cbn [andb] in Hout.
  destruct Hout as (d2' & e2 & d3 & Hpost2 & Hpass2 & Hin2). exists e2, d3. split; [done|].
  pose proof (lock_passed_frame _ _ _ _ _ _ _ Hpass2) as Hf2.
  pose proof (in_entry _ _ _ _ _ _ _ _ _ _ _ Hin2) as He2.
  pose proof (inserted_id_new _ _ _ _ _ _ _ _ _ _ _ (ledger_ok_frame _ _ Hok2 Hf2) Hin2) as Hnew.
  rewrite (jf_entries _ _ Hf2) in Hnew. split_and!.
  - intros Hin'. by apply (Hnew e2).
  - intros Hid. by apply (Hnew _ Hme).
  - by rewrite He2.
  - rewrite (in_entries _ _ _ _ _ _ _ _ _ _ _ Hin2), (jf_entries _ _ Hf2), elem_of_app. auto.
  - exists p, (compute_seq c p d1). split; [apply (live_entry_Some _ _ _ _ Hlive)|].
    rewrite He2. cbn. unfold next_key. by rewrite Hseq.
Qed.

Lemma repost_after_reversal_witness :
  exists e2 d3, post_for_event (W := toy_world) (demo_event 100) false
      (snd (reverse_entry (je_id posted_entry) None None false posted_db)) = (Ok e2, d3) /\
    je_id e2 <> je_id posted_entry.
Proof.
  assert (exists r, reverse_entry (je_id posted_entry) None None false posted_db =
    (Ok r, snd (reverse_entry (je_id posted_entry) None None false posted_db))) as [r Hr].
  { eexists. vm_compute. reflexivity. }
  destruct (repost_after_reversal (WO := toy_world_ok) (demo_event 100) false None None false
    demo_db posted_entry posted_db r _ demo_db_ok demo_db_company
    ltac:(vm_compute; reflexivity) Hr ltac:(unfold supply_ok; vm_compute; discriminate)
    ltac:(vm_compute; reflexivity)) as (e2 & d3 & H1 & _ & H2 & _).
  exists e2, d3. split; [exact H1|exact H2].
Defined.

Lemma ledger_lines_sum d : ledger_ok d -> zsum_of jl_amount_cents (gl_lines (db_gl d)) = 0.
Proof.
  intros Hok.
  rewrite (zsum_partition jl_entry_id jl_amount_cents (map je_id (gl_entries (db_gl d))));
    [|apply Hok|].
  - rewrite map_map.
    assert (forall l, (forall e, e ∈ l -> e ∈ gl_entries (db_gl d)) ->
      zsum (map (fun e => zsum_of jl_amount_cents (entry_lines (je_id e) d)) l) = 0) as H; [|by apply H].
    induction l as [|e l IH]; intros Hl; cbn [map zsum]; [done|].
    rewrite IH by (intros; apply Hl; by apply list_elem_of_further).
    destruct (lo_balanced d Hok e) as [-> _]; [|done]. apply Hl, list_elem_of_here.
  - intros l Hl. destruct (lo_line_refs d Hok l Hl) as (e & He & <-).
    apply elem_of_map_b. eauto.
Qed.

(** Two live entries of one company under one prefix are the same entry. *)
Lemma live_unique d e e' p n m :
  ledger_ok d -> e ∈ gl_entries (db_gl d) -> e' ∈ gl_entries (db_gl d) ->
  je_company_id e = je_company_id e' -> je_status e = posted -> je_status e' = posted ->
  key_is p n e -> key_is p m e' -> e = e'.
Proof.
  intros Hok He He' Hc Hs Hs' Hk Hk'.
  pose proof (lo_dense d Hok e p n He Hk) as Hd. pose proof (lo_dense d Hok e' p m He' Hk') as Hd'.
  rewrite decide_True in Hd by done. rewrite decide_True in Hd' by done.
  apply (key_unique d); [done..|].
  destruct Hk as (_ & _ & ->), Hk' as (_ & _ & ->). congruence.
Qed.

Lemma post_attempts_Ok `{W : World} fuel races ev ov res p lc d e d' :
  event_prefix p -> post_attempts fuel races ev ov res p lc d = (Ok e, d') ->
  e ∈ gl_entries (db_gl d') /\ je_company_id e = ev_company_id ev /\ je_status e = posted /\
  exists n, key_is p n e.
Proof.
  intros Hp. revert lc d. induction fuel as [|fuel IH]; intros lc d H; cbn [post_attempts] in H; minv H.
  pose proof (compute_seq_nonneg (ev_company_id ev) p d) as Hnn.
  destruct (live_entry _ _ d) as [x|] eqn:Hlive.
  { minv H. apply live_entry_Some in Hlive as (? & ? & ? & ?). split_and!; try done. by eexists. }
  minv H. unfold mcatch in H.
  destruct (_insert_entry _ _ _ _ _ _ _ _ _) as [[x|x] d3] eqn:Hins.
  - injection H as -> ->. apply insert_entry_Ok in Hins.
    pose proof (in_entry _ _ _ _ _ _ _ _ _ _ _ Hins) as He.
    split_and!; [|by rewrite He..|].
    + rewrite (in_entries _ _ _ _ _ _ _ _ _ _ _ Hins), elem_of_app, list_elem_of_singleton. auto.
    + eexists. split_and!; [done|exact Hnn|by rewrite He].
  - case_decide; [|done]. minv H. destruct (_entry_by_key _ _ _) as [y|] eqn:Hy; [|by minv H].
    case_decide; [|by eapply IH]. minv H.
    apply find_some_elem in Hy as [Hin Hb].
    apply andb_prop in Hb as [Hc%String.eqb_eq Hk%has_key_true].
    split_and!; try done. by eexists.
Qed.

(** C2: the journal invariant holds in every reachable state.  Starting from
    an empty journal, after any sequence of postings, reversals and unrelated
    writes: identifiers, entry numbers and keys are unique; every entry is
    balanced with a debit and a credit and no zero line; every line points to
    an existing entry and account; an entry is reversed iff one mirror entry
    reverses it; at most one entry per company and content prefix is live; the
    whole ledger sums to zero; and history was only appended to. *)
Theorem reachable_ledger_ok `{WO : WorldOk} d0 d
    (H0 : empty_journal d0) (Hsteps : engine_steps d0 d) (Hs : supply_ok d) :
  ledger_ok d /\
  zsum_of jl_amount_cents (gl_lines (db_gl d)) = 0 /\
  (forall e e' p n m, e ∈ gl_entries (db_gl d) -> e' ∈ gl_entries (db_gl d) ->
     je_company_id e = je_company_id e' -> je_status e = posted -> je_status e' = posted ->
     key_is p n e -> key_is p m e' -> e = e') /\
  (forall d', engine_steps d d' -> supply_ok d' -> append_only d d').
Proof.
  assert (ledger_ok d) as Hok.
  { apply (rely_journal _ _ (engine_steps_rely _ _ Hsteps) Hs). by apply ledger_ok_empty. }
  split_and!; [done|by apply ledger_lines_sum| |].
  - intros. by eapply live_unique.
  - intros d' Hd' Hs'. by apply (rely_journal _ _ (engine_steps_rely _ _ Hd') Hs').
Qed.

Lemma reachable_ledger_ok_witness :
  zsum_of jl_amount_cents (gl_lines (db_gl
    (snd (post_for_event (W := toy_world) (demo_event 100) false demo_db)))) = 0.
Proof.
  apply (reachable_ledger_ok (WO := toy_world_ok) demo_db).
  - split; vm_compute; reflexivity.
  - eapply steps_more; [apply steps_refl|]. apply step_post.
  - unfold supply_ok. vm_compute. discriminate.
Defined.

(** C3: posting is safe with concurrent writers.  Whatever sequences of
    postings and reversals other transactions commit between this call's reads
    and each of its insert attempts, the journal invariant holds afterwards,
    history was only appended to, and an entry the call returns is a live
    entry of the event's own content, the only one. *)
Theorem post_racing_safe `{WO : WorldOk} races ev ov d r d'
    (Hok : ledger_ok d) (Hraces : forall k x, engine_steps x (races k x))
    (Hs : supply_ok d') (Hpost : post_for_event_racing races ev ov d = (r, d')) :
  ledger_ok d' /\ append_only d d' /\
  forall e, r = Ok e ->
    e ∈ gl_entries (db_gl d') /\ je_status e = posted /\ je_company_id e = ev_company_id ev /\
    exists res p d1 n, prepared ev d res p d1 /\ key_is p n e /\
      forall e' m, e' ∈ gl_entries (db_gl d') -> je_company_id e' = ev_company_id ev ->
        je_status e' = posted -> key_is p m e' -> e' = e.
Proof.
  pose proof (post_racing_rely races ev ov (fun k x => engine_steps_rely _ _ (Hraces k x)) d) as Hr.
  rewrite Hpost in Hr. destruct (rely_journal _ _ Hr Hs Hok) as [Hok' Hao].
  split_and!; [done..|]. intros e ->.
  destruct (post_Ok_prepared _ _ _ _ _ _ Hpost) as (res & p & d1 & Hprep).
  rewrite (post_prepared _ _ _ _ _ _ _ Hprep) in Hpost.
  apply post_attempts_Ok in Hpost as (He & Hc & Hst & n & Hk); [|by eapply prepared_event_prefix].
  split_and!; try done. exists res, p, d1, n. split_and!; [done..|].
  intros e' m He' Hc' Hs' Hk'. eapply live_unique; eauto. congruence.
Qed.

(** Another transaction posts the same content before the first attempt. *)
Definition demo_races (k : nat) (d : Db) : Db :=
  match k with
  | 4%nat => snd (post_for_event (W := toy_world) (demo_event 100) false d)
  | _ => d
  end.

Lemma post_racing_safe_witness :
  ledger_ok (snd (post_for_event_racing (W := toy_world) demo_races (demo_event 100) false demo_db)).
Proof.
  destruct (post_for_event_racing (W := toy_world) demo_races (demo_event 100) false demo_db)
    as [r d'] eqn:E.
  assert (d' = snd (post_for_event_racing (W := toy_world) demo_races (demo_event 100) false demo_db))
    as Hd by (by rewrite E).
  apply (post_racing_safe (WO := toy_world_ok) demo_races (demo_event 100) false demo_db r d').
  - exact demo_db_ok.
  - intros k x. unfold demo_races. repeat case_match; try apply steps_refl.
    eapply steps_more; [apply steps_refl|]. apply step_post.
  - rewrite Hd. unfold supply_ok. vm_compute. discriminate.
  - exact E.
Defined.
