(* ===== verification/Triggers.v ===== *)
(** [modules/ledger/ddl.py]: the Postgres triggers that guard the journal
    tables, a statement-level executor that fires them, what any accepted
    transaction is forced to preserve, and that the engine's own writes are
    accepted.  [Err RaiseException] is a PL/pgSQL [RAISE EXCEPTION]. *)

From S2P Require Import Prelude PyStr Dates Money Models Keys Coa Engine EngineInv EngineSpec.

Local Open Scope Z_scope.

(** * The trigger functions *)

(** [x IS DISTINCT FROM y] *)
Definition is_distinct {A} `{EqDecision A} (x y : A) : bool := negb (bool_decide (x = y)).

(** BEFORE UPDATE OR DELETE on a line: always refused. *)
Definition gl_lines_immutable : result unit := Err RaiseException.

(** [to_jsonb(row) - 'status' - 'reversed_by_entry_id'] *)
Definition sealed_part (e : GlJournalEntry) :=
  (je_id e, je_entry_no e, je_effective_at e, je_posted_at e, je_source_type e, je_source_id e,
   je_idempotency_key e, je_reverses_entry_id e, je_created_txid e, je_created_by e,
   je_company_id e, je_created_at e).

(** BEFORE UPDATE OR DELETE on an entry; [None] is a DELETE. *)
Definition gl_entries_immutable (OLD : GlJournalEntry) (NEW : option GlJournalEntry) : result unit :=
  match NEW with
  | None => Err RaiseException
  | Some NEW =>
      if is_distinct (je_status NEW) (je_status OLD) &&
         negb (bool_decide (je_status OLD = posted) && bool_decide (je_status NEW = reversed))
      then Err RaiseException
      else if is_distinct (je_reversed_by_entry_id NEW) (je_reversed_by_entry_id OLD) &&
              negb (is_none (je_reversed_by_entry_id OLD))
      then Err RaiseException
      else if is_distinct (sealed_part OLD) (sealed_part NEW) then Err RaiseException
      else Ok tt
  end.

(** BEFORE INSERT on a line, run in transaction [txid_current]. *)
Definition gl_lines_sealing (txid_current : Z) (d : Db) (NEW : GlJournalLine) : result unit :=
  let entry_txid := match get_entry (jl_entry_id NEW) d with
                    | Some e => je_created_txid e
                    | None => None
                    end in
  match entry_txid with
  | None => Err RaiseException
  | Some t => if t =? txid_current then Ok tt else Err RaiseException
  end.

(** AFTER INSERT on a line, deferred to commit. *)
Definition gl_assert_entry_balanced (d : Db) (entry_id : uuid) : result unit :=
  let amounts := map jl_amount_cents (entry_lines entry_id d) in
  let n_debit := length (List.filter (fun x => 0 <? x) amounts) in
  let n_credit := length (List.filter (fun x => x <? 0) amounts) in
  if negb (zsum amounts =? 0) then Err RaiseException
  else if (length amounts <? 2)%nat then Err RaiseException
  else if (n_debit <? 1)%nat || (n_credit <? 1)%nat then Err RaiseException
  else Ok tt.

(** * Statements and transactions on the guarded tables *)

Inductive stmt : Type :=
  | InsertEntry (e : GlJournalEntry)
  | InsertLine (l : GlJournalLine)
  | UpdateEntry (id_ : uuid) (f : GlJournalEntry -> GlJournalEntry)
  | DeleteEntry (id_ : uuid)
  | UpdateLine (id_ : uuid) (f : GlJournalLine -> GlJournalLine)
  | DeleteLine (id_ : uuid).

Fixpoint fire {A} (trigger : A -> result unit) (rows : list A) : result unit :=
  match rows with
  | [] => Ok tt
  | x :: rows' => let! _ := trigger x in fire trigger rows'
  end.

(** One statement with its row triggers; an UPDATE or DELETE that matches no
    row fires nothing. *)
Definition exec (txid_current : Z) (s : stmt) (d : Db) : result Db :=
  match s with
  | InsertEntry e => Ok (set_gl (set_entries (fun l => l ++ [e])) d)
  | InsertLine l =>
      let! _ := gl_lines_sealing txid_current d l in
      Ok (set_gl (set_lines (fun ls => ls ++ [l])) d)
  | UpdateEntry id_ f =>
      let hit e := N.eqb (je_id e) id_ in
      let! _ := fire (fun e => gl_entries_immutable e (Some (f e)))
                  (List.filter hit (gl_entries (db_gl d))) in
      Ok (set_gl (set_entries (update_where hit f)) d)
  | DeleteEntry id_ =>
      let hit e := N.eqb (je_id e) id_ in
      let! _ := fire (fun e => gl_entries_immutable e None)
                  (List.filter hit (gl_entries (db_gl d))) in
      Ok (set_gl (set_entries (List.filter (fun e => negb (hit e)))) d)
  | UpdateLine id_ f =>
      let hit l := N.eqb (jl_id l) id_ in
      let! _ := fire (fun _ => gl_lines_immutable) (List.filter hit (gl_lines (db_gl d))) in
      Ok (set_gl (set_lines (update_where hit f)) d)
  | DeleteLine id_ =>
      let hit l := N.eqb (jl_id l) id_ in
      let! _ := fire (fun _ => gl_lines_immutable) (List.filter hit (gl_lines (db_gl d))) in
      Ok (set_gl (set_lines (List.filter (fun l => negb (hit l)))) d)
  end.

Fixpoint exec_all (txid_current : Z) (ss : list stmt) (d : Db) : result Db :=
  match ss with
  | [] => Ok d
  | s :: ss' => let! d' := exec txid_current s d in exec_all txid_current ss' d'
  end.

Definition inserted_line_entries (ss : list stmt) : list uuid :=
  omap (fun s => match s with InsertLine l => Some (jl_entry_id l) | _ => None end) ss.

(** A transaction: the statements, then the deferred balance checks. *)
Definition commit (txid_current : Z) (ss : list stmt) (d : Db) : result Db :=
  let! d' := exec_all txid_current ss d in
  let! _ := fire (gl_assert_entry_balanced d') (inserted_line_entries ss) in
  Ok d'.

(** * Lemmas *)

(** The change of an entry row the triggers let through. *)
Definition row_allowed (e e' : GlJournalEntry) : Prop :=
  sealed_part e' = sealed_part e /\
  (je_status e' = je_status e \/ (je_status e = posted /\ je_status e' = reversed)) /\
  (je_reversed_by_entry_id e' = je_reversed_by_entry_id e \/ je_reversed_by_entry_id e = None).

#[export] Instance row_allowed_preorder : PreOrder row_allowed.
Proof.
  split; [intros e; unfold row_allowed; auto|].
  intros a b c (A1 & A2 & A3) (B1 & B2 & B3). unfold row_allowed. split_and!; [congruence| |].
  - destruct A2 as [A2|[A2 A2']], B2 as [B2|[B2 B2']]; try (left; congruence); right; split; congruence.
  - destruct A3 as [A3|A3], B3 as [B3|B3]; [left|right|right|right]; congruence.
Qed.

Lemma entries_immutable_Ok e e' :
  gl_entries_immutable e (Some e') = Ok tt <-> row_allowed e e'.
Proof.
  unfold gl_entries_immutable, row_allowed, is_distinct.
  destruct (decide (je_status e' = je_status e)), (decide (je_status e = posted)),
    (decide (je_status e' = reversed)),
    (decide (je_reversed_by_entry_id e' = je_reversed_by_entry_id e)),
    (decide (sealed_part e = sealed_part e')), (je_reversed_by_entry_id e) eqn:?;
  repeat first [rewrite bool_decide_eq_true_2 by congruence
               |rewrite bool_decide_eq_false_2 by congruence];
  cbn; split; try done; intuition congruence.
Qed.

Lemma fire_Ok {A} (t : A -> result unit) rows :
  fire t rows = Ok tt <-> forall x, x ∈ rows -> t x = Ok tt.
Proof.
  induction rows as [|x rows IH]; cbn [fire]; [split; [|done]; intros _ x H; by apply elem_of_nil in H|].
  destruct (t x) as [[]|] eqn:E; cbn [rbind].
  - rewrite IH. split; intros H y.
    + intros [->|Hy]%elem_of_cons; auto.
    + intros Hy. apply H. by apply list_elem_of_further.
  - split; [done|]. intros H. rewrite H in E by apply list_elem_of_here. done.
Qed.

Lemma filter_length_pos {A} (p : A -> bool) l :
  (1 <= length (List.filter p l))%nat <-> Exists (fun x => p x = true) l.
Proof.
  rewrite Exists_exists. induction l as [|x l IH]; cbn [List.filter length].
  - split; [lia|]. intros (x & H & _). by apply elem_of_nil in H.
  - destruct (p x) eqn:E; cbn [length].
    + split; [|lia]. intros _. exists x. split; [apply list_elem_of_here|done].
    + rewrite IH. split; intros (y & Hy & Hp); exists y; split; try done.
      * by apply list_elem_of_further.
      * apply elem_of_cons in Hy as [->|Hy]; [congruence|done].
Qed.

Lemma assert_balanced_Ok d u :
  gl_assert_entry_balanced d u = Ok tt <->
  let amounts := map jl_amount_cents (entry_lines u d) in
  zsum amounts = 0 /\ Exists (fun x => 0 < x) amounts /\ Exists (fun x => x < 0) amounts.
Proof.
  unfold gl_assert_entry_balanced. cbv zeta. generalize (map jl_amount_cents (entry_lines u d)).
  intros l. setoid_rewrite <- Z.ltb_lt.
  rewrite <- (filter_length_pos (fun x => 0 <? x)), <- (filter_length_pos (fun x => x <? 0)).
  assert (zsum l = 0 -> (1 <= length (List.filter (fun x => (0 <? x)%Z) l))%nat ->
          (2 <= length l)%nat) as H2.
  { destruct l as [|x [|y l]]; cbn; [lia| |lia]. destruct (Z.ltb_spec 0 x); cbn; lia. }
  destruct (Z.eqb_spec (zsum l) 0); cbn [negb]; [|naive_solver].
  destruct (Nat.ltb_spec (length l) 2); [split; [done|]; intros (? & H3 & _); specialize (H2 e H3); lia|].
  generalize dependent (length (List.filter (fun x => (0 <? x)%Z) l)). intros nd Hnd.
  generalize (length (List.filter (fun x => (x <? 0)%Z) l)). intros nc.
  destruct (Nat.ltb_spec nd 1), (Nat.ltb_spec nc 1); cbn [orb]; split; try done;
    first [intros (? & ? & ?); lia | intros _; split_and!; [done|lia..]].
Qed.

(** What the triggers force on the tables: lines only appended, and only to
    entries created by the running transaction; entry rows only changed as
    [row_allowed]; new entries appended. *)
Record guarded (txid : Z) (d d' : Db) : Prop := {
  gd_entries : exists kept news, gl_entries (db_gl d') = kept ++ news /\
    Forall2 row_allowed (gl_entries (db_gl d)) kept;
  gd_lines : exists news, gl_lines (db_gl d') = gl_lines (db_gl d) ++ news;
  gd_sealed : forall e, get_entry (je_id e) d = Some e -> je_created_txid e <> Some txid ->
    entry_lines (je_id e) d' = entry_lines (je_id e) d
}.

Lemma row_allowed_sealed e e' : row_allowed e e' -> sealed_part e' = sealed_part e.
Proof. by intros [? _]. Qed.

Lemma find_Forall2 (p : GlJournalEntry -> bool) l l' e :
  (forall x y, sealed_part y = sealed_part x -> p y = p x) ->
  Forall2 row_allowed l l' -> List.find p l = Some e ->
  exists e', List.find p l' = Some e' /\ row_allowed e e'.
Proof.
  intros Hp HF. induction HF as [|x y l l' Hxy HF IH]; [done|]. cbn [List.find].
  rewrite (Hp x y) by (by apply row_allowed_sealed). destruct (p x); [|done].
  intros [= ->]. eauto.
Qed.

Lemma get_entry_guarded d kept news d' u e :
  gl_entries (db_gl d') = kept ++ news -> Forall2 row_allowed (gl_entries (db_gl d)) kept ->
  get_entry u d = Some e -> exists e', get_entry u d' = Some e' /\ row_allowed e e'.
Proof.
  intros E F H. unfold get_entry in *. rewrite E, find_app_b.
  destruct (find_Forall2 (fun e => N.eqb (je_id e) u) _ _ _
    (fun x y (Hxy : sealed_part y = sealed_part x) =>
       ltac:(injection Hxy; intros; congruence)) F H) as (e' & -> & Ha). eauto.
Qed.

Lemma sealed_part_eq e e' : sealed_part e' = sealed_part e ->
  je_id e' = je_id e /\ je_created_txid e' = je_created_txid e.
Proof. intros H. injection H. auto. Qed.

Lemma guarded_trans txid d1 d2 d3 : guarded txid d1 d2 -> guarded txid d2 d3 -> guarded txid d1 d3.
Proof.
  intros [(k1 & n1 & E1 & F1) [l1 L1] S1] [(k2 & n2 & E2 & F2) [l2 L2] S2]. split.
  - pose proof F2 as F2'. rewrite E1 in F2'.
    apply Forall2_app_inv_l in F2' as (ka & kb & Fa & Fb & ->).
    exists ka, (kb ++ n2). rewrite app_assoc. split; [done|by etrans].
  - exists (l1 ++ l2). by rewrite L2, L1, app_assoc.
  - intros e He Ht. rewrite <- (S1 e He Ht).
    destruct (get_entry_guarded d1 k1 n1 d2 _ _ E1 F1 He) as (e' & He' & Ha).
    destruct (sealed_part_eq _ _ (row_allowed_sealed _ _ Ha)) as [Hid Htx].
    rewrite <- Hid in He' |- *. apply S2; [done|]. by rewrite Htx.
Qed.

Lemma guarded_refl txid d : guarded txid d d.
Proof.
  split; [exists (gl_entries (db_gl d)), []|exists []|done]; rewrite app_nil_r; [|done].
  split; [done|]. by apply Forall_Forall2_diag, Forall_true.
Qed.

Lemma guarded_entries txid d f :
  (exists kept news, f (gl_entries (db_gl d)) = kept ++ news /\
     Forall2 row_allowed (gl_entries (db_gl d)) kept) ->
  guarded txid d (set_gl (set_entries f) d).
Proof. intros H. split; [exact H|exists []; by rewrite app_nil_r|done]. Qed.

Lemma filter_nil_all {A} (p : A -> bool) (l : list A) :
  List.filter p l = [] -> List.filter (fun x => negb (p x)) l = l.
Proof.
  intros H. apply filter_all. intros x Hx. destruct (p x) eqn:E; [|done].
  assert (x ∈ List.filter p l) as Hin by (by apply elem_of_filter_b).
  rewrite H in Hin. by apply elem_of_nil in Hin.
Qed.

Lemma filter_nil_update {A} (p : A -> bool) f (l : list A) :
  List.filter p l = [] -> update_where p f l = l.
Proof.
  intros H. unfold update_where. rewrite <- (map_id l) at 2. apply map_ext_in.
  intros x Hx%list_elem_of_In. destruct (p x) eqn:E; [|done].
  assert (x ∈ List.filter p l) as Hin by (by apply elem_of_filter_b).
  rewrite H in Hin. by apply elem_of_nil in Hin.
Qed.

Lemma fire_refused {A} (t : A -> result unit) rows :
  (forall x, t x <> Ok tt) -> fire t rows = Ok tt -> rows = [].
Proof.
  intros Ht H. rewrite fire_Ok in H. destruct rows as [|x rows]; [done|].
  exfalso. by apply (Ht x), H, list_elem_of_here.
Qed.

Lemma set_gl_same (f : Gl -> Gl) d : f (db_gl d) = db_gl d -> set_gl f d = d.
Proof. destruct d. unfold set_gl. cbn. by intros ->. Qed.

Lemma set_entries_same f g : f (gl_entries g) = gl_entries g -> set_entries f g = g.
Proof. destruct g. unfold set_entries. cbn. by intros ->. Qed.
Lemma set_lines_same f g : f (gl_lines g) = gl_lines g -> set_lines f g = g.
Proof. destruct g. unfold set_lines. cbn. by intros ->. Qed.

Lemma exec_guarded txid s d d' : exec txid s d = Ok d' -> guarded txid d d'.
Proof.
  destruct s as [e|l|u f|u|u f|u]; cbn [exec]; intros H; minv H;
    repeat match goal with x : unit |- _ => destruct x end.
  - apply guarded_entries. eexists _, [e]. split; [done|]. by apply Forall_Forall2_diag, Forall_true.
  - split; [|by eexists|].
    + exists (gl_entries (db_gl d)), []. rewrite app_nil_r. split; [done|].
      by apply Forall_Forall2_diag, Forall_true.
    + intros e He Ht. unfold entry_lines. cbn. rewrite List.filter_app. cbn.
      destruct (N.eqb_spec (jl_entry_id l) (je_id e)) as [E|E]; [|by rewrite app_nil_r].
      unfold gl_lines_sealing in H0. rewrite E, He in H0.
      destruct (je_created_txid e) as [t|]; [|done].
      destruct (Z.eqb_spec t txid); [congruence|done].
  - apply guarded_entries. exists (update_where (fun e => N.eqb (je_id e) u) f (gl_entries (db_gl d))), [].
    rewrite app_nil_r. split; [done|]. rewrite fire_Ok in H0.
    unfold update_where. apply Forall2_fmap_r, Forall_Forall2_diag, Forall_forall.
    intros e He. cbn. destruct (N.eqb (je_id e) u) eqn:E; [|reflexivity].
    apply entries_immutable_Ok, H0. by apply elem_of_filter_b.
  - apply fire_refused in H0; [|done]. rewrite set_gl_same; [apply guarded_refl|].
    apply set_entries_same. by apply filter_nil_all.
  - apply fire_refused in H0; [|done]. rewrite set_gl_same; [apply guarded_refl|].
    apply set_lines_same. by apply filter_nil_update.
  - apply fire_refused in H0; [|done]. rewrite set_gl_same; [apply guarded_refl|].
    apply set_lines_same. by apply filter_nil_all.
Qed.

Lemma exec_all_guarded txid ss d d' : exec_all txid ss d = Ok d' -> guarded txid d d'.
Proof.
  revert d. induction ss as [|s ss IH]; intros d H; cbn [exec_all] in H; minv H; [apply guarded_refl|].
  eapply guarded_trans; [by eapply exec_guarded|by apply IH].
Qed.

(** * The engine's writes, as statements *)

Lemma exec_lines txid d e ls :
  get_entry (je_id e) d = Some e -> je_created_txid e = Some txid ->
  (forall l, l ∈ ls -> jl_entry_id l = je_id e) ->
  exists d', exec_all txid (map InsertLine ls) d = Ok d' /\
    gl_entries (db_gl d') = gl_entries (db_gl d) /\ gl_lines (db_gl d') = gl_lines (db_gl d) ++ ls.
Proof.
  intros He Ht. revert d He. induction ls as [|l ls IH]; intros d He Hl.
  { exists d. by rewrite app_nil_r. }
  cbn [map exec_all exec]. unfold gl_lines_sealing.
  rewrite (Hl l) by apply list_elem_of_here. rewrite He, Ht, Z.eqb_refl. cbn [rbind].
  destruct (IH (set_gl (set_lines (fun x => x ++ [l])) d)) as (d' & E & E1 & E2);
    [done|intros x Hx; by apply Hl, list_elem_of_further|].
  exists d'. split_and!; [done..|]. rewrite E2. cbn. by rewrite <- app_assoc.
Qed.

Definition insert_stmts (e : GlJournalEntry) (ls : list GlJournalLine) : list stmt :=
  InsertEntry e :: map InsertLine ls.

Lemma insert_stmts_run c w st si key rv cb res d e d' d0 :
  ledger_ok d -> inserted c w st si key rv cb res d e d' -> op_postgres (db_ops d) = true ->
  gl_entries (db_gl d0) = gl_entries (db_gl d) -> gl_lines (db_gl d0) = gl_lines (db_gl d) ->
  exists dx, exec_all (op_txid (db_ops d))
      (insert_stmts e (build_lines (N.succ (je_id e)) (je_id e) res)) d0 = Ok dx /\
    gl_entries (db_gl dx) = gl_entries (db_gl d') /\ gl_lines (db_gl dx) = gl_lines (db_gl d').
Proof.
  intros Hok Hin Hpg He0 Hl0. unfold insert_stmts. cbn [exec_all exec rbind].
  destruct (exec_lines (op_txid (db_ops d)) (set_gl (set_entries (fun l => l ++ [e])) d0) e
    (build_lines (N.succ (je_id e)) (je_id e) res)) as (dx & E & E1 & E2).
  - unfold get_entry. cbn. rewrite find_app_b, He0.
    rewrite (proj2 (find_none_elem _ _)); [cbn; by rewrite N.eqb_refl|].
    intros x Hx. apply N.eqb_neq. by apply (inserted_id_new _ _ _ _ _ _ _ _ _ _ _ Hok Hin).
  - rewrite (in_entry _ _ _ _ _ _ _ _ _ _ _ Hin). cbn. unfold _current_txid. by rewrite Hpg.
  - intros l Hl. by eapply build_lines_entry.
  - exists dx. split; [done|]. rewrite E1, E2. cbn.
    by rewrite (in_entries _ _ _ _ _ _ _ _ _ _ _ Hin), (in_lines _ _ _ _ _ _ _ _ _ _ _ Hin), He0, Hl0.
Qed.

(** Statements that reach the journal of a sound state pass the deferred
    checks. *)
Lemma commit_of_run txid ss d0 dx d' :
  exec_all txid ss d0 = Ok dx -> gl_entries (db_gl dx) = gl_entries (db_gl d') ->
  gl_lines (db_gl dx) = gl_lines (db_gl d') -> ledger_ok d' ->
  (forall u, u ∈ inserted_line_entries ss -> exists e, e ∈ gl_entries (db_gl d') /\ je_id e = u) ->
  commit txid ss d0 = Ok dx.
Proof.
  intros E He Hl Hok Hu. unfold commit. rewrite E. cbn [rbind].
  assert (fire (gl_assert_entry_balanced dx) (inserted_line_entries ss) = Ok tt) as ->; [|done].
  apply fire_Ok. intros u Hin. destruct (Hu u Hin) as (e & Hein & <-).
  apply assert_balanced_Ok. rewrite (entry_lines_lines _ d' dx) by done.
  destruct (lo_balanced d' Hok e Hein) as (? & ? & ? & _). done.
Qed.

Lemma inserted_line_entries_app a b :
  inserted_line_entries (a ++ b) = inserted_line_entries a ++ inserted_line_entries b.
Proof. apply omap_app. Qed.

Lemma insert_stmts_entries e ls u :
  (forall l, l ∈ ls -> jl_entry_id l = je_id e) ->
  u ∈ inserted_line_entries (insert_stmts e ls) -> u = je_id e.
Proof.
  intros Hl H. unfold inserted_line_entries, insert_stmts in H.
  apply list_elem_of_omap in H as (s & Hs & Hm).
  apply elem_of_cons in Hs as [->|Hs]; [done|].
  apply elem_of_map_b in Hs as (l & Hin & <-). injection Hm as <-. auto.
Qed.

Lemma exec_all_app txid a b d :
  exec_all txid (a ++ b) d = (let! d' := exec_all txid a d in exec_all txid b d').
Proof.
  revert d. induction a as [|s a IH]; intros d; cbn [app exec_all rbind]; [done|].
  destruct (exec txid s d); cbn [rbind]; [apply IH|done].
Qed.

(** Marking a live entry reversed passes the entry trigger. *)
Lemma mark_stmt_run txid d o r :
  je_reversed_by_entry_id o = None -> je_status o = posted ->
  (forall x, x ∈ gl_entries (db_gl d) -> je_id x = je_id o -> x = o) ->
  exec_all txid [UpdateEntry (je_id o) (mark_reversed r)] d =
  Ok (set_gl (set_entries (update_where (fun e => N.eqb (je_id e) (je_id o)) (mark_reversed r))) d).
Proof.
  intros Hby Hs Hu. cbn [exec_all exec].
  assert (fire (fun e => gl_entries_immutable e (Some (mark_reversed r e)))
            (List.filter (fun e => N.eqb (je_id e) (je_id o)) (gl_entries (db_gl d))) = Ok tt) as ->; [|done].
  apply fire_Ok. intros x [Hx Hid%N.eqb_eq]%elem_of_filter_b. rewrite (Hu x Hx Hid).
  apply entries_immutable_Ok. unfold row_allowed. cbn. rewrite Hs, Hby. auto.
Qed.

Lemma lock_passed_ops c w ov cb ctx d d' : lock_passed c w ov cb ctx d d' -> db_ops d' = db_ops d.
Proof. intros [[_ ->]|(_ & _ & lock & _ & ->)]; done. Qed.

Lemma post_stmts `{WO : WorldOk} d ev ov e d' :
  ledger_ok d -> op_postgres (db_ops d) = true -> one_company (ev_company_id ev) d ->
  supply_ok d' -> post_for_event ev ov d = (Ok e, d') ->
  exists ss dx, commit (op_txid (db_ops d)) ss d = Ok dx /\
    gl_entries (db_gl dx) = gl_entries (db_gl d') /\ gl_lines (db_gl dx) = gl_lines (db_gl d').
Proof.
  intros Hok Hpg Hone Hs Hpost.
  destruct (post_Ok_live ev ov d e d' Hok Hone Hs Hpost) as (res & p & d1 & Hprep & Hok' & _).
  pose proof (post_outcomes ev ov d res p d1 Hok Hone Hprep) as Hout. cbn zeta in Hout.
  destruct (resolve_lines_Ok _ _ _ _ _ (pr_resolved _ _ _ _ _ Hprep)) as (_ & Hg & _).
  pose proof (accounts_grow_frame _ _ Hg) as Hf1.
  rewrite Hpost in Hout. destruct (live_entry _ _ d1) as [x|].
  { injection Hout as <- <-. exists [], d.
    split; [done|]. by rewrite (jf_entries _ _ Hf1), (jf_lines _ _ Hf1). }
  destruct (_ && negb ov); [done|]. destruct Hout as (d2 & x & d3 & [= <- <-] & Hpass & Hin).
  pose proof (lock_passed_frame _ _ _ _ _ _ _ Hpass) as Hf2.
  assert (journal_frame d d2) as Hf by (by etrans).
  assert (db_ops d2 = db_ops d) as Hops.
  { rewrite (lock_passed_ops _ _ _ _ _ _ _ Hpass). apply Hg. }
  destruct (insert_stmts_run _ _ _ _ _ _ _ _ d2 e d' d (ledger_ok_frame _ _ Hok Hf) Hin)
    as (dx & E & E1 & E2); [by rewrite Hops|by rewrite (jf_entries _ _ Hf)|by rewrite (jf_lines _ _ Hf)|].
  rewrite Hops in E. eexists _, dx. split; [|done]. eapply commit_of_run; [done..|].
  intros u ->%insert_stmts_entries; [|intros; by eapply build_lines_entry].
  exists e. split; [|done]. rewrite (in_entries _ _ _ _ _ _ _ _ _ _ _ Hin), elem_of_app,
    list_elem_of_singleton. auto.
Qed.

Lemma reverse_stmts d o w cb ov r d' :
  ledger_ok d -> op_postgres (db_ops d) = true -> o ∈ gl_entries (db_gl d) ->
  je_status o = posted -> supply_ok d' -> reverse_entry (je_id o) w cb ov d = (Ok r, d') ->
  exists ss dx, commit (op_txid (db_ops d)) ss d = Ok dx /\
    gl_entries (db_gl dx) = gl_entries (db_gl d') /\ gl_lines (db_gl dx) = gl_lines (db_gl d').
Proof.
  intros Hok Hpg Ho Hst Hs Hrev.
  pose proof (reverse_live d o w cb ov Hok Ho Hst) as Hout. cbn zeta in Hout.
  rewrite Hrev in Hout. destruct (_ && negb ov); [done|].
  destruct Hout as (d2 & r' & d3 & [= <- ->] & Hpass & Hin).
  pose proof (lock_passed_frame _ _ _ _ _ _ _ Hpass) as Hf.
  pose proof (ledger_ok_frame _ _ Hok Hf) as Hok2.
  assert (o ∈ gl_entries (db_gl d2)) as Ho2 by (by rewrite (jf_entries _ _ Hf)).
  assert (db_ops d2 = db_ops d) as Hops by (by apply (lock_passed_ops _ _ _ _ _ _ _ Hpass)).
  destruct (insert_stmts_run _ _ _ _ _ _ _ _ d2 r d3 d Hok2 Hin)
    as (dx & E & E1 & E2); [by rewrite Hops|by rewrite (jf_entries _ _ Hf)|by rewrite (jf_lines _ _ Hf)|].
  rewrite Hops in E.
  eexists (_ ++ [UpdateEntry (je_id o) (mark_reversed (je_id r))]), _. split.
  - eapply (commit_of_run _ _ d _ (after_reversal o r d3)).
    + rewrite exec_all_app, E. cbn [rbind]. apply mark_stmt_run; [by apply (lo_posted d)|done|].
      intros x Hx Hid. rewrite E1, (in_entries _ _ _ _ _ _ _ _ _ _ _ Hin) in Hx.
      apply elem_of_app in Hx as [Hx| ->%list_elem_of_singleton]; [by apply (id_unique d2)|].
      by destruct (inserted_id_new _ _ _ _ _ _ _ _ _ _ _ Hok2 Hin o Ho2).
    + cbn. by rewrite E1.
    + cbn. by rewrite E2.
    + eapply after_reversal_ok; eauto using inserted_uuid_ok.
    + intros u Hu. rewrite inserted_line_entries_app in Hu. apply elem_of_app in Hu as [Hu|Hu];
        [|by apply elem_of_nil in Hu].
      apply insert_stmts_entries in Hu as ->; [|intros; by eapply build_lines_entry].
      exists r. split; [|done]. by apply (after_reversal_by _ _ _ _ _ _ Hok2 Ho2 Hin).
  - cbn. by rewrite E1, E2.
Qed.

(** * Properties *)

(** C33: what the triggers enforce on any transaction, whoever wrote it.  A
    sequence of statements on the journal tables that commits has appended
    lines and entries only; has changed existing entry rows at most by
    posted-to-reversed and a first back-reference; has added no line to an
    entry an earlier transaction created; and every entry that received a line
    sums to zero with at least one debit and one credit. *)
Theorem triggers_enforce txid ss d d' (Hc : commit txid ss d = Ok d') :
  (exists kept news, gl_entries (db_gl d') = kept ++ news /\
     Forall2 row_allowed (gl_entries (db_gl d)) kept) /\
  (exists news, gl_lines (db_gl d') = gl_lines (db_gl d) ++ news) /\
  (forall e, get_entry (je_id e) d = Some e -> je_created_txid e <> Some txid ->
     entry_lines (je_id e) d' = entry_lines (je_id e) d) /\
  (forall u, u ∈ inserted_line_entries ss ->
     let amounts := map jl_amount_cents (entry_lines u d') in
     zsum amounts = 0 /\ Exists (fun x => 0 < x) amounts /\ Exists (fun x => x < 0) amounts).
Proof.
  unfold commit in Hc. minv Hc. destruct a0.
  destruct (exec_all_guarded _ _ _ _ Hc0) as [G1 G2 G3]. split_and!; [done..|].
  intros u Hu. apply assert_balanced_Ok. rewrite fire_Ok in Hc1. auto.
Qed.

Lemma triggers_enforce_witness :
  exists d', commit 1 (insert_stmts posted_entry (gl_lines (db_gl posted_db))) demo_db = Ok d' /\
    exists news, gl_lines (db_gl d') = gl_lines (db_gl demo_db) ++ news.
Proof.
  eexists. split; [vm_compute; reflexivity|].
  eapply (triggers_enforce 1 (insert_stmts posted_entry (gl_lines (db_gl posted_db))) demo_db).
  vm_compute. reflexivity.
Defined.

(** C34: on Postgres, the engine's own writes pass every trigger: the rows a
    successful posting adds, and the rows a successful reversal adds and marks,
    are a transaction of statements that commits under the triggers and leaves
    exactly the journal the engine computed. *)
Theorem engine_writes_accepted `{WO : WorldOk} d
    (Hok : ledger_ok d) (Hpg : op_postgres (db_ops d) = true) :
  (forall ev ov e d', one_company (ev_company_id ev) d -> supply_ok d' ->
     post_for_event ev ov d = (Ok e, d') ->
     exists ss dx, commit (op_txid (db_ops d)) ss d = Ok dx /\
       gl_entries (db_gl dx) = gl_entries (db_gl d') /\ gl_lines (db_gl dx) = gl_lines (db_gl d')) /\
  (forall o w cb ov r d', o ∈ gl_entries (db_gl d) -> je_status o = posted -> supply_ok d' ->
     reverse_entry (je_id o) w cb ov d = (Ok r, d') ->
     exists ss dx, commit (op_txid (db_ops d)) ss d = Ok dx /\
       gl_entries (db_gl dx) = gl_entries (db_gl d') /\ gl_lines (db_gl dx) = gl_lines (db_gl d')).
Proof.
  split; intros.
  - by eapply post_stmts.
  - by eapply reverse_stmts.
Qed.

Lemma engine_writes_accepted_witness :
  exists ss dx, commit 1 ss demo_db = Ok dx /\ gl_entries (db_gl dx) = [posted_entry].
Proof.
  destruct (engine_writes_accepted (WO := toy_world_ok) demo_db demo_db_ok eq_refl) as [H _].
  destruct (H (demo_event 100) false posted_entry posted_db demo_db_company
    ltac:(unfold supply_ok; vm_compute; discriminate) ltac:(vm_compute; reflexivity))
    as (ss & dx & H1 & H2 & _).
  exists ss, dx. split; [exact H1|]. rewrite H2. vm_compute. reflexivity.
Defined.
