(* ===== verification/Service.v ===== *)
(** [modules/ledger/service.py]: the accounting configuration store (the
    settings singleton and its maps), and [core/expense_categories.py].  The
    invoice-status chokepoint of the same file is in [Chokepoint]. *)

From S2P Require Import Prelude PyStr Dates Money Models Keys Coa Engine EngineInv.

Local Open Scope Z_scope.

(** * Default maps *)

Definition DEFAULT_PAYMENT_METHOD_ROLE_MAP : gmap string string :=
  list_to_map
    [("cash", ROLE_UNDEPOSITED); ("check", ROLE_UNDEPOSITED); ("card", ROLE_UNDEPOSITED);
     ("zelle", ROLE_OPERATING_BANK); ("venmo", ROLE_OPERATING_BANK);
     ("ach", ROLE_OPERATING_BANK); ("quickbooks", ROLE_OPERATING_BANK);
     ("other", ROLE_UNDEPOSITED)].

Definition DEFAULT_CREDIT_REASON_ROLE_MAP : gmap string string :=
  list_to_map
    [("discount", ROLE_DISCOUNTS); ("promotion", ROLE_DISCOUNTS); ("goodwill", ROLE_DISCOUNTS);
     ("warranty", ROLE_REFUNDS); ("workmanship", ROLE_REFUNDS);
     ("billing_error", ROLE_REFUNDS); ("other", ROLE_REFUNDS)].

(** * Payment methods *)

Definition normalize_payment_method (method : option string) : string :=
  match str_lower (str_strip (default "" method)) with
  | EmptyString => "other"
  | s => s
  end.

Definition resolve_payment_method_role (settings : GlSettings) (method : option string)
  : result string :=
  let mapping := default ∅ (gs_payment_method_role_map settings) in
  let found := mapping !! normalize_payment_method method in
  let role := if truthy_str found then found else mapping !! "other" in
  match role with
  | None => Err LedgerConfigError
  | Some r => Ok r
  end.

(** * Materializing the maps *)

(** The preferred account of a code: active first, then oldest. *)
Definition better_account (a cur : GlAccount) : bool :=
  match acc_active a, acc_active cur with
  | true, false => true
  | false, true => false
  | _, _ => - acc_created_at cur <? - acc_created_at a
  end.

Definition pick_account (code : string) (rows : list GlAccount) : option GlAccount :=
  foldl (fun cur a =>
           if String.eqb (acc_code a) code then
             match cur with
             | None => Some a
             | Some c => if better_account a c then Some a else cur
             end
           else cur) None rows.

Definition _expense_category_map_with_topup (company_id : string)
    (current : option (gmap string string)) (d : Db) : result (gmap string string) :=
  let current := default ∅ current in
  let wanted := List.filter (fun cc => bool_decide (current !! fst cc = None))
                  DEFAULT_EXPENSE_CATEGORY_CODES in
  let rows := List.filter (fun a => String.eqb (acc_company_id a) company_id)
                (gl_accounts (db_gl d)) in
  if existsb (fun cc => match pick_account (snd cc) rows with None => true | _ => false end) wanted
  then Err LedgerConfigError
  else Ok (foldl (fun m cc =>
             match pick_account (snd cc) rows with
             | Some a => <[fst cc := str_uuid (acc_id a)]> m
             | None => m
             end) current wanted).

Definition _with_topup (current : option (gmap string string)) (defaults : gmap string string)
  : gmap string string := default ∅ current ∪ defaults.

Definition validate_role_map (mapping : gmap string string) : result unit :=
  if forallb (fun kv => existsb (String.eqb (snd kv)) ALL_ROLES) (map_to_list mapping)
  then Ok tt else Err LedgerConfigError.

Definition validate_payment_method_map (mapping : gmap string string) : result unit :=
  let! _ := validate_role_map mapping in
  match mapping !! "other" with None => Err LedgerConfigError | Some _ => Ok tt end.

(** * The settings row *)

Definition get_gl_settings (company_id : string) (d : Db) : option GlSettings :=
  List.find (fun s => String.eqb (gs_company_id s) company_id) (gl_settings (db_gl d)).

(** An attribute write on the company's row ([company_id] is unique). *)
Definition write_settings (company_id : string) (f : GlSettings -> GlSettings) : M Db unit :=
  mwrite (set_gl (set_settings (update_where (fun s => String.eqb (gs_company_id s) company_id) f))).

Definition set_payment_map (m : gmap string string) (s : GlSettings) : GlSettings :=
  mk_settings (gs_company_id s) (gs_ledger_posting_enabled s) (gs_cutover_month s) (Some m)
    (gs_credit_reason_role_map s) (gs_expense_category_account_map s)
    (gs_revenue_category_account_map s) (gs_cpa_review s).
Definition set_reason_map (m : gmap string string) (s : GlSettings) : GlSettings :=
  mk_settings (gs_company_id s) (gs_ledger_posting_enabled s) (gs_cutover_month s)
    (gs_payment_method_role_map s) (Some m) (gs_expense_category_account_map s)
    (gs_revenue_category_account_map s) (gs_cpa_review s).
Definition set_expense_map (m : gmap string string) (s : GlSettings) : GlSettings :=
  mk_settings (gs_company_id s) (gs_ledger_posting_enabled s) (gs_cutover_month s)
    (gs_payment_method_role_map s) (gs_credit_reason_role_map s) (Some m)
    (gs_revenue_category_account_map s) (gs_cpa_review s).
Definition default_cpa_review (s : GlSettings) : GlSettings :=
  mk_settings (gs_company_id s) (gs_ledger_posting_enabled s) (gs_cutover_month s)
    (gs_payment_method_role_map s) (gs_credit_reason_role_map s)
    (gs_expense_category_account_map s) (gs_revenue_category_account_map s)
    (Some (default ∅ (gs_cpa_review s))).

Definition new_settings (company_id : string) : GlSettings :=
  mk_settings company_id false None None None None None None.

(** The current attributes of the company's row. *)
Definition settings_row (company_id : string) : M Db GlSettings := fun d =>
  match get_gl_settings company_id d with
  | Some row => (Ok row, d)
  | None => (Err RuntimeError, d)
  end.

Definition ensure_gl_settings (company_id : string) : M Db GlSettings :=
  found <- mreads (get_gl_settings company_id) ;;
  (match found with
   | None => mwrite (set_gl (set_settings (fun l => l ++ [new_settings company_id])))
   | Some _ => mreturn tt
   end) ;;;
  row <- settings_row company_id ;;
  write_settings company_id
    (set_payment_map (_with_topup (gs_payment_method_role_map row) DEFAULT_PAYMENT_METHOD_ROLE_MAP)) ;;;
  write_settings company_id
    (set_reason_map (_with_topup (gs_credit_reason_role_map row) DEFAULT_CREDIT_REASON_ROLE_MAP)) ;;;
  expense_map <- (fun d => (_expense_category_map_with_topup company_id
                              (gs_expense_category_account_map row) d, d)) ;;
  write_settings company_id (set_expense_map expense_map) ;;;
  write_settings company_id default_cpa_review ;;;
  row <- settings_row company_id ;;
  mlift (validate_payment_method_map (default ∅ (gs_payment_method_role_map row))) ;;;
  mlift (validate_role_map (default ∅ (gs_credit_reason_role_map row))) ;;;
  mreturn row.

Definition ensure_gl_seed (company_id : string) : M Db GlSettings :=
  seed_coa company_id ;;; ensure_gl_settings company_id.

Definition ledger_posting_enabled (company_id : string) (d : Db) : bool :=
  match get_gl_settings company_id d with
  | Some row => gs_ledger_posting_enabled row
  | None => false
  end.

(** * Expense categories *)

Definition EXPENSE_CATEGORIES : list string :=
  ["Fuel"; "Parts/Supplies"; "Tools/Equipment"; "Advertising"; "Insurance";
   "Vehicle Maintenance"; "Subcontractor"; "Other"].

Definition LEGACY_EXPENSE_CATEGORY_MAP : list (string * string) :=
  [("materials", "Parts/Supplies"); ("supplies", "Parts/Supplies"); ("parts", "Parts/Supplies");
   ("equipment", "Tools/Equipment"); ("tools", "Tools/Equipment"); ("travel", "Other");
   ("meals", "Other"); ("fuel", "Fuel"); ("gas", "Fuel"); ("vehicle", "Vehicle Maintenance");
   ("sub", "Subcontractor"); ("subcontractors", "Subcontractor")].

Definition canonicalize_expense_category (raw : option string) : option string :=
  let key := str_lower (str_strip (default "" raw)) in
  if String.eqb key "" then None
  else match List.find (fun c => String.eqb (str_lower c) key) EXPENSE_CATEGORIES with
       | Some c => Some c
       | None => option_map snd
                   (List.find (fun kv => String.eqb (fst kv) key) LEGACY_EXPENSE_CATEGORY_MAP)
       end.

(** * Lemmas *)

Definition keeps_company (f : GlSettings -> GlSettings) : Prop :=
  forall s, gs_company_id (f s) = gs_company_id s.

Lemma find_update_where {A} (p : A -> bool) (f : A -> A) l :
  (forall x, p (f x) = p x) -> List.find p (update_where p f l) = option_map f (List.find p l).
Proof.
  intros H. induction l as [|x l IH]; cbn; [done|].
  destruct (p x) eqn:E; cbn; [by rewrite H, E|by rewrite E].
Qed.

Lemma get_write_settings c f d d' u :
  keeps_company f -> write_settings c f d = (Ok u, d') ->
  get_gl_settings c d' = option_map f (get_gl_settings c d).
Proof.
  intros Hf. unfold write_settings, mwrite. intros [= _ <-]. unfold get_gl_settings. cbn.
  apply find_update_where. intros s. by rewrite Hf.
Qed.

(** The row [ensure_gl_settings] ends with. *)
Definition topped_up (row : GlSettings) (expense_map : gmap string string) : GlSettings :=
  default_cpa_review (set_expense_map expense_map
    (set_reason_map (_with_topup (gs_credit_reason_role_map row) DEFAULT_CREDIT_REASON_ROLE_MAP)
       (set_payment_map (_with_topup (gs_payment_method_role_map row) DEFAULT_PAYMENT_METHOD_ROLE_MAP)
          row))).

Definition with_settings (l : list GlSettings) (d : Db) : Db := set_gl (set_settings (fun _ => l)) d.

Lemma with_settings_same d : with_settings (gl_settings (db_gl d)) d = d.
Proof. by destruct d as [[] ?]. Qed.

(** The settings table with the company's row present. *)
Definition rows_with (c : string) (d : Db) : list GlSettings :=
  match get_gl_settings c d with
  | Some _ => gl_settings (db_gl d)
  | None => gl_settings (db_gl d) ++ [new_settings c]
  end.

Definition current_row (c : string) (d : Db) : GlSettings :=
  default (new_settings c) (get_gl_settings c d).

Lemma update_where_compose {A} (p : A -> bool) (f g : A -> A) l :
  (forall x, p (f x) = p x) ->
  update_where p g (update_where p f l) = update_where p (fun x => g (f x)) l.
Proof.
  intros H. unfold update_where. rewrite map_map. apply map_ext. intros x.
  destruct (p x) eqn:E; [by rewrite H, E|by rewrite E].
Qed.

Lemma find_rows_with c d :
  List.find (fun s => String.eqb (gs_company_id s) c) (rows_with c d) = Some (current_row c d).
Proof.
  unfold rows_with, current_row. destruct (get_gl_settings c d) eqn:E; [exact E|].
  unfold get_gl_settings in E. rewrite find_app_b, E. cbn. by rewrite String.eqb_refl.
Qed.

Lemma expense_map_accounts c cur d d' :
  gl_accounts (db_gl d') = gl_accounts (db_gl d) ->
  _expense_category_map_with_topup c cur d' = _expense_category_map_with_topup c cur d.
Proof. unfold _expense_category_map_with_topup. by intros ->. Qed.

(** What [ensure_gl_settings] computes, on every branch. *)
Lemma ensure_gl_settings_run c d :
  let row := current_row c d in
  let pm := _with_topup (gs_payment_method_role_map row) DEFAULT_PAYMENT_METHOD_ROLE_MAP in
  let rm := _with_topup (gs_credit_reason_role_map row) DEFAULT_CREDIT_REASON_ROLE_MAP in
  exists d_err, ensure_gl_settings c d =
  match _expense_category_map_with_topup c (gs_expense_category_account_map row) d with
  | Err e => (Err e, d_err)
  | Ok em =>
      (let! _ := validate_payment_method_map pm in
       let! _ := validate_role_map rm in
       Ok (topped_up row em),
       with_settings (update_where (fun s => String.eqb (gs_company_id s) c)
         (fun s => default_cpa_review (set_expense_map em (set_reason_map rm (set_payment_map pm s))))
         (rows_with c d)) d)
  end.
Proof.
  cbv zeta. eexists. unfold ensure_gl_settings. unfold mseq at 1, mreads.
  assert (exists d1, (match get_gl_settings c d with
     | None => mwrite (set_gl (set_settings (fun l => l ++ [new_settings c])))
     | Some _ => mreturn tt end) d = (Ok tt, d1) /\ d1 = with_settings (rows_with c d) d)
    as (d1 & E1 & Hd1).
  { unfold rows_with. destruct (get_gl_settings c d); eexists; (split; [reflexivity|]).
    - by rewrite with_settings_same.
    - done. }
  unfold mseq at 1. rewrite E1. subst d1.
  unfold mseq at 1, settings_row at 1, get_gl_settings at 1. cbn [gl_settings with_settings set_gl set_settings db_gl].
  rewrite find_rows_with. unfold mseq at 1, write_settings at 1, mwrite.
  unfold mseq at 1, write_settings at 1, mwrite. unfold mseq at 1.
  match goal with |- context [_expense_category_map_with_topup c ?cur (set_gl ?f ?x)] =>
    rewrite (expense_map_accounts c cur d (set_gl f x)) by done end.
  destruct (_expense_category_map_with_topup c _ d) as [em|e]; [|reflexivity].
  unfold mseq at 1, write_settings at 1, mwrite. unfold mseq at 1, write_settings at 1, mwrite.
  match goal with |- context [set_gl (set_settings (update_where ?p default_cpa_review)) ?x] =>
    replace (set_gl (set_settings (update_where p default_cpa_review)) x) with
      (with_settings (update_where p (fun s => default_cpa_review (set_expense_map em
         (set_reason_map (_with_topup (gs_credit_reason_role_map (current_row c d)) DEFAULT_CREDIT_REASON_ROLE_MAP)
         (set_payment_map (_with_topup (gs_payment_method_role_map (current_row c d))
            DEFAULT_PAYMENT_METHOD_ROLE_MAP) s)))) (rows_with c d)) d)
      by (unfold with_settings, set_gl, set_settings; cbn -[update_where]; by rewrite !update_where_compose) end.
  unfold mseq at 1, settings_row, get_gl_settings.
  cbn [gl_settings with_settings set_gl set_settings db_gl].
  rewrite find_update_where by done. rewrite find_rows_with. cbn [option_map]. unfold topped_up.
  unfold mseq, mlift. cbn [gs_payment_method_role_map gs_credit_reason_role_map default_cpa_review
    set_expense_map set_reason_map set_payment_map default].
  unfold id. destruct (validate_payment_method_map _) as [[]|]; [|done]. cbn [rbind].
  destruct (validate_role_map _) as [[]|]; done.
Qed.

Lemma validate_role_map_Ok m :
  validate_role_map m = Ok tt <-> forall k v, m !! k = Some v -> v ∈ ALL_ROLES.
Proof.
  unfold validate_role_map. destruct (forallb _ _) eqn:E.
  - split; [|done]. intros _ k v Hk. rewrite forallb_elem in E.
    apply elem_of_map_to_list in Hk. specialize (E (k, v) Hk). cbn [snd] in E.
    apply existsb_elem in E as (x & Hx & ->%String.eqb_eq). done.
  - split; [done|]. intros H. apply not_true_iff_false in E. destruct E. apply forallb_elem.
    intros [k v] Hk%elem_of_map_to_list. apply existsb_elem. exists v. split; [by eapply H|].
    apply String.eqb_refl.
Qed.

Lemma validate_payment_Ok m :
  validate_payment_method_map m = Ok tt <->
  (forall k v, m !! k = Some v -> v ∈ ALL_ROLES) /\ is_Some (m !! "other").
Proof.
  unfold validate_payment_method_map. rewrite <- validate_role_map_Ok.
  destruct (validate_role_map m) as [[]|]; cbn; [|naive_solver].
  destruct (m !! "other"); split; [eauto|done|done|]. by intros [_ [x ?]].
Qed.

Lemma topup_keeps cur defs k v :
  default ∅ cur !! k = Some v -> _with_topup cur defs !! k = Some v.
Proof. intros H. unfold _with_topup. by apply lookup_union_Some_l. Qed.

Lemma topup_defaults cur defs k : is_Some (defs !! k) -> is_Some (_with_topup cur defs !! k).
Proof. intros H. unfold _with_topup. rewrite lookup_union_is_Some. auto. Qed.

Lemma topup_idem cur defs : _with_topup (Some (_with_topup cur defs)) defs = _with_topup cur defs.
Proof. unfold _with_topup. cbn. unfold id. by rewrite <- (assoc_L (∪)), (idemp_L (∪) defs). Qed.

(** ** The expense-category map *)

Section ExpenseMap.
Context (c : string) (d : Db).

Definition company_rows : list GlAccount :=
  List.filter (fun a => String.eqb (acc_company_id a) c) (gl_accounts (db_gl d)).

Definition add_category (m : gmap string string) (cc : string * string) : gmap string string :=
  match pick_account (snd cc) company_rows with
  | Some a => <[fst cc := str_uuid (acc_id a)]> m
  | None => m
  end.

Lemma add_categories_keep wanted m k :
  (forall cc, cc ∈ wanted -> fst cc <> k) -> foldl add_category m wanted !! k = m !! k.
Proof.
  revert m. induction wanted as [|cc w IH]; intros m H; cbn [foldl]; [done|].
  rewrite IH by (intros; apply H; by apply list_elem_of_further).
  unfold add_category. destruct (pick_account _ _); [|done].
  apply lookup_insert_ne, H, list_elem_of_here.
Qed.

Lemma add_categories_some wanted m k : is_Some (m !! k) -> is_Some (foldl add_category m wanted !! k).
Proof.
  revert m. induction wanted as [|cc w IH]; intros m H; cbn [foldl]; [done|]. apply IH.
  unfold add_category. destruct (pick_account _ _); [|done]. apply lookup_insert_is_Some.
  destruct (decide (fst cc = k)); auto.
Qed.

Lemma add_categories_new wanted m cc :
  cc ∈ wanted -> is_Some (pick_account (snd cc) company_rows) ->
  is_Some (foldl add_category m wanted !! fst cc).
Proof.
  intros Hcc [a Ha]. revert m. induction wanted as [|x w IH]; intros m; [by apply elem_of_nil in Hcc|].
  cbn [foldl]. apply elem_of_cons in Hcc as [<-|Hcc]; [|by apply IH].
  apply add_categories_some. unfold add_category. rewrite Ha, lookup_insert_eq. eauto.
Qed.

(** A successful top-up keeps every mapped category and maps every default one. *)
Lemma expense_map_Ok cur em :
  _expense_category_map_with_topup c cur d = Ok em ->
  (forall k v, default ∅ cur !! k = Some v -> em !! k = Some v) /\
  (forall cc, cc ∈ DEFAULT_EXPENSE_CATEGORY_CODES -> is_Some (em !! fst cc)).
Proof.
  unfold _expense_category_map_with_topup. fold company_rows.
  destruct (existsb _ _) eqn:E; [done|]. apply not_true_iff_false in E. rewrite existsb_elem in E.
  intros [= <-]. change (foldl _ _ _) with (foldl add_category (default ∅ cur)
    (List.filter (fun cc => bool_decide (default ∅ cur !! fst cc = None)) DEFAULT_EXPENSE_CATEGORY_CODES)).
  split.
  - intros k v Hk. rewrite add_categories_keep; [done|].
    intros cc [_ Hcc%bool_decide_eq_true]%elem_of_filter_b <-. congruence.
  - intros cc Hcc. destruct (default ∅ cur !! fst cc) as [v|] eqn:Hk.
    + apply add_categories_some. eauto.
    + assert (cc ∈ List.filter (fun cc => bool_decide (default ∅ cur !! fst cc = None))
                DEFAULT_EXPENSE_CATEGORY_CODES) as Hw
        by (apply elem_of_filter_b; by rewrite bool_decide_eq_true).
      apply add_categories_new; [done|].
      destruct (pick_account (snd cc) company_rows) eqn:Hp; [eauto|].
      destruct E. exists cc. split; [done|by rewrite Hp].
Qed.

Lemma expense_map_full cur :
  (forall cc, cc ∈ DEFAULT_EXPENSE_CATEGORY_CODES -> is_Some (default ∅ cur !! fst cc)) ->
  _expense_category_map_with_topup c cur d = Ok (default ∅ cur).
Proof.
  intros H. unfold _expense_category_map_with_topup. rewrite (filter_none _ DEFAULT_EXPENSE_CATEGORY_CODES); [done|].
  intros cc Hcc. apply bool_decide_eq_false_2. destruct (H cc Hcc) as [v ->]. done.
Qed.
End ExpenseMap.

Lemma update_where_fix {A} (p : A -> bool) (f : A -> A) l :
  (forall x, x ∈ l -> p x = true -> f x = x) -> update_where p f l = l.
Proof.
  intros H. unfold update_where. rewrite <- (map_id l) at 2. apply map_ext_in.
  intros x Hx%list_elem_of_In. destruct (p x) eqn:E; [by apply H|done].
Qed.

Lemma find_unique {A B} (key : A -> B) (p : A -> bool) l x y :
  NoDup (map key l) -> (forall a b, p a = true -> p b = true -> key a = key b) ->
  List.find p l = Some x -> y ∈ l -> p y = true -> y = x.
Proof.
  intros Hnd Hk [Hx Hpx]%find_some_elem Hy Hpy. eapply NoDup_map_inj; eauto.
Qed.

Lemma topped_up_fix row em :
  topped_up (topped_up row em) em = topped_up row em.
Proof.
  unfold topped_up at 1. cbn [gs_credit_reason_role_map gs_payment_method_role_map topped_up
    default_cpa_review set_expense_map set_reason_map set_payment_map].
  unfold topped_up. rewrite !topup_idem. by destruct (gs_cpa_review row).
Qed.

Lemma NoDup_rows_with c d :
  NoDup (map gs_company_id (gl_settings (db_gl d))) -> NoDup (map gs_company_id (rows_with c d)).
Proof.
  intros H. unfold rows_with. destruct (get_gl_settings c d) eqn:E; [done|].
  apply NoDup_snoc_map; [done|]. intros y Hy. unfold get_gl_settings in E.
  rewrite find_none_elem in E. specialize (E y Hy). by apply String.eqb_neq in E.
Qed.

Lemma pick_fold_some code rows a :
  is_Some (foldl (fun cur a =>
    if String.eqb (acc_code a) code then
      match cur with
      | None => Some a
      | Some c => if better_account a c then Some a else cur
      end
    else cur) (Some a) rows).
Proof.
  revert a. induction rows as [|x rows IH]; intros a; cbn [foldl]; [eauto|].
  destruct (String.eqb _ code); [|apply IH]. destruct (better_account x a); apply IH.
Qed.

Lemma pick_account_some code rows a :
  a ∈ rows -> acc_code a = code -> is_Some (pick_account code rows).
Proof.
  intros Ha Hc. unfold pick_account.
  induction rows as [|x rows IH]; [by apply elem_of_nil in Ha|]. cbn [foldl].
  destruct (String.eqb_spec (acc_code x) code); [apply pick_fold_some|].
  apply elem_of_cons in Ha as [->|Ha]; [done|auto].
Qed.

(** On a freshly seeded chart every default category has its account. *)
Lemma seeded_codes c d news :
  map row_of_account news = DEFAULT_COA ->
  (forall a, a ∈ news -> a ∈ company_rows c d) ->
  exists em, _expense_category_map_with_topup c None d = Ok em.
Proof.
  intros Hm Hin. unfold _expense_category_map_with_topup. fold (company_rows c d).
  destruct (existsb _ _) eqn:E; [exfalso|eauto].
  apply existsb_elem in E as (cc & [Hcc _]%elem_of_filter_b & Hp).
  assert (exists r, r ∈ DEFAULT_COA /\ cr_code r = snd cc) as (r & Hr & Hcode).
  { assert (forallb (fun cc => existsb (fun r => String.eqb (cr_code r) (snd cc)) DEFAULT_COA)
      DEFAULT_EXPENSE_CATEGORY_CODES = true) as Hall by reflexivity.
    rewrite forallb_elem in Hall. specialize (Hall cc Hcc).
    apply existsb_elem in Hall as (r & Hr & ?%String.eqb_eq). eauto. }
  rewrite <- Hm in Hr. apply elem_of_map_b in Hr as (a & Ha & <-).
  destruct (pick_account_some (snd cc) (company_rows c d) a (Hin a Ha) Hcode) as [x Hx].
  by rewrite Hx in Hp.
Qed.

(** * Properties *)

(** materializing the settings row keeps the operator's choices and makes
    posting configurable.  When [ensure_gl_settings] succeeds: every entry the
    operator had in any map is kept, every default payment method, credit
    reason and expense category is mapped, the switches and cutover are as
    they were, every payment method whatever its text resolves to a known
    role, and running it again returns the same row and changes nothing. *)
Theorem ensure_gl_settings_keeps c d row d'
    (Hnd : NoDup (map gs_company_id (gl_settings (db_gl d))))
    (Hrun : ensure_gl_settings c d = (Ok row, d')) :
  let old := current_row c d in
  get_gl_settings c d' = Some row /\
  gs_ledger_posting_enabled row = gs_ledger_posting_enabled old /\
  gs_cutover_month row = gs_cutover_month old /\
  (forall k v, default ∅ (gs_payment_method_role_map old) !! k = Some v ->
     default ∅ (gs_payment_method_role_map row) !! k = Some v) /\
  (forall k v, default ∅ (gs_credit_reason_role_map old) !! k = Some v ->
     default ∅ (gs_credit_reason_role_map row) !! k = Some v) /\
  (forall k v, default ∅ (gs_expense_category_account_map old) !! k = Some v ->
     default ∅ (gs_expense_category_account_map row) !! k = Some v) /\
  (forall cc, cc ∈ DEFAULT_EXPENSE_CATEGORY_CODES ->
     is_Some (default ∅ (gs_expense_category_account_map row) !! fst cc)) /\
  (forall method, exists role, resolve_payment_method_role row method = Ok role /\ role ∈ ALL_ROLES) /\
  ensure_gl_settings c d' = (Ok row, d').
Proof.
  intros old. destruct (ensure_gl_settings_run c d) as [derr Hspec]. fold old in Hspec.
  rewrite Hspec in Hrun.
  destruct (_expense_category_map_with_topup c _ d) as [em|] eqn:Hem; [|done].
  injection Hrun as Hres Hd'. symmetry in Hd'.
  apply rbind_Ok in Hres as ([] & Hres0 & Hres). apply rbind_Ok in Hres as ([] & Hres1 & Hres).
  injection Hres as <-.
  set (pm := _with_topup _ DEFAULT_PAYMENT_METHOD_ROLE_MAP) in *.
  set (rm := _with_topup _ DEFAULT_CREDIT_REASON_ROLE_MAP) in *.
  destruct (expense_map_Ok _ _ _ _ Hem) as [He1 He2].
  assert (get_gl_settings c d' = Some (topped_up old em)) as Hget.
  { rewrite Hd'. unfold get_gl_settings. cbn [gl_settings with_settings set_gl set_settings db_gl].
    rewrite find_update_where, find_rows_with by done. done. }
  split_and!; [done..| | | | | |].
  - intros k v. apply topup_keeps.
  - intros k v. apply topup_keeps.
  - exact He1.
  - exact He2.
  - intros method. apply validate_payment_Ok in Hres0 as [Hroles [r Hother]].
    unfold resolve_payment_method_role. cbn [gs_payment_method_role_map topped_up default_cpa_review
      set_expense_map set_reason_map set_payment_map default]. unfold id. fold pm.
    destruct (pm !! normalize_payment_method method) as [[|x s]|] eqn:Hm; cbn [truthy_str].
    + rewrite Hother. eauto.
    + eauto.
    + rewrite Hother. eauto.
  - destruct (ensure_gl_settings_run c d') as [derr' Hspec'].
    unfold current_row in Hspec'. rewrite Hget in Hspec'. cbn [default] in Hspec'. unfold id in Hspec'.
    cbn [gs_expense_category_account_map gs_payment_method_role_map gs_credit_reason_role_map
      topped_up default_cpa_review set_expense_map set_reason_map set_payment_map] in Hspec'.
    rewrite expense_map_full in Hspec' by exact He2. cbn [default] in Hspec'. unfold id in Hspec'.
    rewrite !topup_idem in Hspec'. fold pm rm in Hspec'.
    rewrite Hspec', Hres0, Hres1. cbn [rbind].
    rewrite topped_up_fix. f_equal. unfold rows_with. rewrite Hget.
    rewrite update_where_fix; [apply with_settings_same|]. intros s Hs Hc.
    assert (s = topped_up old em) as ->.
    { eapply (find_unique gs_company_id _ (gl_settings (db_gl d'))); [| |exact Hget|done|done].
      - rewrite Hd'. cbn -[update_where]. rewrite update_where_map by done. by apply NoDup_rows_with.
      - intros a b Ha%String.eqb_eq Hb%String.eqb_eq. congruence. }
    rewrite <- (topped_up_fix old em) at 2. unfold topped_up at 2.
    cbn [gs_credit_reason_role_map gs_payment_method_role_map topped_up default_cpa_review
      set_expense_map set_reason_map set_payment_map]. rewrite !topup_idem. done.
Qed.

Definition service_db : Db := snd (seed_coa "co" (mk_db (bare_gl []) (bare_ops true))).

Lemma ensure_gl_settings_keeps_witness :
  exists row d', ensure_gl_settings "co" service_db = (Ok row, d') /\
    ensure_gl_settings "co" d' = (Ok row, d').
Proof.
  destruct (ensure_gl_settings "co" service_db) as [[row|x] d'] eqn:E.
  - exists row, d'. split; [reflexivity|].
    apply (ensure_gl_settings_keeps "co" service_db row d'); [|exact E]. vm_compute. constructor.
  - exfalso. assert (fst (ensure_gl_settings "co" service_db) = Err x) as H by (by rewrite E).
    vm_compute in H. discriminate H.
Defined.

(** First boot always succeeds: with no account and no settings row for the
    company yet, [ensure_gl_seed] seeds the starter chart and returns a
    settings row with posting switched off. *)
Theorem first_boot_succeeds c d
    (Hacc : company_accounts c d = []) (Hset : get_gl_settings c d = None) :
  exists row d', ensure_gl_seed c d = (Ok row, d') /\ gs_ledger_posting_enabled row = false /\
    exists news, gl_accounts (db_gl d') = gl_accounts (db_gl d) ++ news /\
                 map row_of_account news = DEFAULT_COA.
Proof.
  destruct (seed_coa_spec c d) as (news & d1 & E & Ha & Hm & Hf & Hg & _).
  rewrite Hacc in Hm. cbn [omap list_omap] in Hm. rewrite filter_all in Hm
    by (intros r _; unfold seed_skips; by destruct (cr_role r)).
  assert (get_gl_settings c d1 = None) as Hset1
    by (unfold get_gl_settings; destruct Hg as (_ & _ & _ & _ & _ & -> & _); exact Hset).
  destruct (ensure_gl_settings_run c d1) as [derr Hrun].
  unfold current_row in Hrun. rewrite Hset1 in Hrun. cbn [default] in Hrun.
  destruct (seeded_codes c d1 news Hm) as [em Hem].
  { intros a Hin. unfold company_rows. rewrite Ha. apply elem_of_filter_b.
    rewrite elem_of_app. split; [auto|]. rewrite Forall_forall in Hf.
    destruct (Hf a Hin) as [_ ->]. apply String.eqb_refl. }
  cbn [gs_expense_category_account_map new_settings] in Hrun. rewrite Hem in Hrun.
  assert (validate_payment_method_map (_with_topup None DEFAULT_PAYMENT_METHOD_ROLE_MAP) = Ok tt) as V1
    by (vm_compute; reflexivity).
  assert (validate_role_map (_with_topup None DEFAULT_CREDIT_REASON_ROLE_MAP) = Ok tt) as V2
    by (vm_compute; reflexivity).
  cbn [gs_payment_method_role_map gs_credit_reason_role_map new_settings] in Hrun.
  rewrite V1, V2 in Hrun. cbn [rbind] in Hrun.
  eexists _, _. split; [unfold ensure_gl_seed, mseq; rewrite E; exact Hrun|].
  split; [done|]. exists news. split; [exact Ha|done].
Qed.

Lemma first_boot_succeeds_witness :
  exists row d', ensure_gl_seed "co" (mk_db (bare_gl []) (bare_ops true)) = (Ok row, d') /\
    gs_ledger_posting_enabled row = false.
Proof.
  destruct (first_boot_succeeds "co" (mk_db (bare_gl []) (bare_ops true)) eq_refl eq_refl)
    as (row & d' & H1 & H2 & _). exists row, d'. split; [exact H1|exact H2].
Defined.
