(* ===== verification/RulesBase.v ===== *)
(** [modules/ledger/rules.py], the parts every rule shares: amounts in cents,
    the live entry of an event, effective dates, and membership of the
    pre-cutover era. *)

From S2P Require Import Prelude PyStr Dates Money Models PayPeriods Keys Coa Engine Service.

Local Open Scope Z_scope.

(** * Amounts *)

Definition _dec (value : option decimal) : decimal := default (DFinite 0 0) value.

Definition cents_of (value : option decimal) : result Z := to_cents (PyDecimal (_dec value)).

Definition cents_sum (values : list (option decimal)) : result Z :=
  let! l := rmap cents_of values in Ok (zsum l).

(** [str(x)] inside an f-string, [None] included. *)
Definition fmt_opt (s : option string) : string := default "None" s.

(** * Statuses and events *)

Definition ISSUED_STATUSES : list invoice_status := [sent; paid].
Definition is_issued (s : invoice_status) : bool := bool_decide (s ∈ ISSUED_STATUSES).

Definition EVENT_ISSUED : string := "issued".
Definition EVENT_PAYMENT : string := "received".
Definition EVENT_ERA_SETTLEMENT : string := "era_settlement".
Definition EVENT_EXPENSE : string := "recorded".
Definition EVENT_OPENING : string := "opening".
Definition EVENT_OPENING_VOID : string := "opening_void".
Definition EVENT_OPENING_PAYMENT_VOID : string := "opening_payment_void".

(** * Live entries *)

(** Posted entries of a source in a company whose key matches an unescaped
    LIKE pattern. *)
Definition live_like (company_id source_type source_id pattern : string) (d : Db)
  : list GlJournalEntry :=
  List.filter (fun e =>
      String.eqb (je_company_id e) company_id &&
      opt_eqb (je_source_type e) (Some source_type) &&
      opt_eqb (je_source_id e) (Some source_id) &&
      bool_decide (je_status e = posted) && key_like None pattern e)
    (gl_entries (db_gl d)).

Definition _live_issuance_entry (invoice : Invoice) (d : Db) : option GlJournalEntry :=
  head (live_like (inv_company_id invoice) "invoice" (str_uuid (inv_id invoice))
          ("invoice:" +:+ str_uuid (inv_id invoice) +:+ ":" +:+ EVENT_ISSUED +:+ ":%") d).

Definition _live_payment_entries (payment : Payment) (company_id : string) (d : Db)
  : list GlJournalEntry :=
  live_like company_id "payment" (str_uuid (pay_id payment))
    ("payment:" +:+ str_uuid (pay_id payment) +:+ ":" +:+ EVENT_PAYMENT +:+ ":%") d.

Definition _live_era_settlement_entries (payment : Payment) (company_id : string) (d : Db)
  : list GlJournalEntry :=
  live_like company_id "payment" (str_uuid (pay_id payment))
    ("payment:" +:+ str_uuid (pay_id payment) +:+ ":" +:+ EVENT_ERA_SETTLEMENT +:+ ":%") d.

Definition _live_expense_entry (expense : Expense) (d : Db) : option GlJournalEntry :=
  head (live_like (exp_company_id expense) "expense" (str_uuid (exp_id expense))
          ("expense:" +:+ str_uuid (exp_id expense) +:+ ":" +:+ EVENT_EXPENSE +:+ ":%") d).

Definition _live_opening_entry (invoice : Invoice) (d : Db) : option GlJournalEntry :=
  head (live_like (inv_company_id invoice) "invoice" (str_uuid (inv_id invoice))
          ("invoice:" +:+ str_uuid (inv_id invoice) +:+ ":" +:+ EVENT_OPENING +:+ ":%") d).

Definition has_opening_anchor (invoice : Invoice) (d : Db) : bool :=
  match _live_opening_entry invoice d with Some _ => true | None => false end.

(** [ORDER BY created_at, entry_no, id] *)
Definition earlier (a b : GlJournalEntry) : bool :=
  (je_created_at a <? je_created_at b) ||
  ((je_created_at a =? je_created_at b) &&
   ((je_entry_no a <? je_entry_no b) ||
    ((je_entry_no a =? je_entry_no b) && (je_id a <? je_id b)%N))).

Definition earliest (l : list GlJournalEntry) : option GlJournalEntry :=
  match l with
  | [] => None
  | x :: l' => Some (foldl (fun cur y => if earlier y cur then y else cur) x l')
  end.

Definition _live_event_entry (source_type source_id event : string) (d : Db)
  : option GlJournalEntry :=
  earliest (List.filter (fun e =>
      opt_eqb (je_source_type e) (Some source_type) &&
      opt_eqb (je_source_id e) (Some source_id) &&
      bool_decide (je_status e = posted) &&
      key_like (Some "\"%char)
        (_escape_like (source_type +:+ ":" +:+ source_id +:+ ":" +:+ event +:+ ":") +:+ "%") e)
    (gl_entries (db_gl d))).

(** * Dates *)

Definition _effective_at (invoice : Invoice) (d : Db) : date :=
  match inv_invoice_date invoice with
  | Some w => w
  | None =>
      match inv_sent_at invoice with
      | Some ts => dt_date ts
      | None =>
          match inv_created_at invoice with
          | Some ts => dt_date ts
          | None => op_now (db_ops d) / usec_per_day   (** [date.today()], the server on UTC *)
          end
      end
  end.

Section Dating.
Context `{W : World}.

Definition _shop_effective_at (source_type source_id event : string) (ts : option datetime)
    (d : Db) : date :=
  match _live_event_entry source_type source_id event d with
  | Some e => je_effective_at e
  | None =>
      match ts with
      | None => shop_today_from_settings d
      | Some t => dt_zone_date (resolve_zone (Some (shop_tz_name_from_settings d))) t
      end
  end.
End Dating.

(** * The cutover *)

Definition _cutover_date (company_id : string) (d : Db) : option date :=
  match get_gl_settings company_id d with
  | Some settings => gs_cutover_month settings
  | None => None
  end.

(** The UTC day of [created_at]. *)
Definition _created_date (created_at : option datetime) : option date :=
  option_map dt_utc_date created_at.

Definition _existed_at_cutover (created_at : option datetime) (cutover : date) : bool :=
  match _created_date created_at with Some c => c <? cutover | None => false end.

Definition _voided_before_cutover (payment : Payment) (cutover : date) : bool :=
  match pay_voided_at payment with Some ts => dt_utc_date ts <? cutover | None => false end.

Definition pre_cutover_era (invoice : Invoice) (d : Db) : bool :=
  match _cutover_date (inv_company_id invoice) d with
  | Some cutover => _effective_at invoice d <? cutover
  | None => false
  end.

(** * Operational rows of an invoice *)

Definition invoice_payments (invoice : Invoice) (d : Db) : list Payment :=
  List.filter (fun p => N.eqb (pay_invoice_id p) (inv_id invoice)) (op_payments (db_ops d)).

Definition is_credit_kind (k : adjustment_kind) : bool :=
  match k with credit_memo | credit_applied => true | refund => false end.

Definition invoice_adjustments (invoice : Invoice) (d : Db) : list InvoiceAdjustment :=
  List.filter (fun a => N.eqb (adj_invoice_id a) (inv_id invoice)) (op_adjustments (db_ops d)).

Definition invoice_credited_cents (invoice : Invoice) (d : Db) : result Z :=
  cents_sum (map adj_amount
    (List.filter (fun a => is_credit_kind (adj_kind a)) (invoice_adjustments invoice d))).
