(* ===== verification/Opening.v ===== *)
(** [modules/ledger/rules.py], P8: the opening balance of a pre-cutover
    invoice, posted once as its anchor, and the settlement of the anchor when
    the invoice is voided. *)

From S2P Require Import Prelude PyStr Dates Money Models PayPeriods Keys Coa Engine EngineInv EngineSpec Service RulesBase.

Local Open Scope Z_scope.

Definition opening_balance_cents (invoice : Invoice) (cutover : date) (d : Db) : result Z :=
  let! total := cents_of (inv_total invoice) in
  let! paid_ := cents_sum (map pay_amount
    (List.filter (fun p => _existed_at_cutover (pay_created_at p) cutover &&
                           negb (_voided_before_cutover p cutover)) (invoice_payments invoice d))) in
  let! credited := cents_sum (map adj_amount
    (List.filter (fun a => is_credit_kind (adj_kind a) && _existed_at_cutover (adj_created_at a) cutover)
       (invoice_adjustments invoice d))) in
  Ok (total - paid_ - credited).

Definition build_opening_lines (invoice : Invoice) (opening_cents : Z) : list PostingLine :=
  if opening_cents <=? 0 then []
  else
    let memo := "P8 opening balance — invoice " +:+ inv_number invoice in
    [mk_pline opening_cents (Some ROLE_AR) None (Some memo) (inv_job_id invoice)
       (inv_customer_id invoice);
     mk_pline (- opening_cents) (Some ROLE_OPENING_EQUITY) None (Some memo) None
       (inv_customer_id invoice)].

Section Opening.
Context `{W : World}.

Definition post_opening_balance (invoice : Invoice) (actor : option string)
  : M Db (option GlJournalEntry) :=
  cutover <- mreads (_cutover_date (inv_company_id invoice)) ;;
  match cutover with
  | None => mraise LedgerConfigError
  | Some cutover =>
      if negb (is_issued (inv_status invoice)) ||
         match inv_deleted_at invoice with Some _ => true | None => false end
      then mreturn None
      else
        effective <- mreads (_effective_at invoice) ;;
        if cutover <=? effective then mreturn None
        else
          live <- mreads (_live_event_entry "invoice" (str_uuid (inv_id invoice)) EVENT_OPENING) ;;
          match live with
          | Some e => mreturn (Some e)
          | None =>
              opening <- (fun d => (opening_balance_cents invoice cutover d, d)) ;;
              let lines := build_opening_lines invoice opening in
              match lines with
              | [] => mreturn None
              | _ =>
                  e <- post_for_event
                         (mk_event (inv_company_id invoice) "invoice" (str_uuid (inv_id invoice))
                            EVENT_OPENING cutover lines actor None) false ;;
                  mreturn (Some e)
              end
          end
  end.

(** * The receivable on the ledger *)

Definition has_role (role : string) (account_id : uuid) (d : Db) : bool :=
  existsb (fun a => N.eqb (acc_id a) account_id && owns_role role a) (gl_accounts (db_gl d)).

(** [(source_type, source_id, amount_cents)] of every line on an AR-role
    account: the three-way join. *)
Definition ar_role_lines (d : Db) : list (option string * option string * Z) :=
  omap (fun l =>
          if has_role ROLE_AR (jl_account_id l) d then
            match get_entry (jl_entry_id l) d with
            | Some e => Some (je_source_type e, je_source_id e, jl_amount_cents l)
            | None => None
            end
          else None) (gl_lines (db_gl d)).

Definition source_of_invoice (invoice : Invoice) (d : Db) (st si : option string) : bool :=
  (opt_eqb st (Some "invoice") && opt_eqb si (Some (str_uuid (inv_id invoice)))) ||
  (opt_eqb st (Some "payment") &&
     existsb (fun p => opt_eqb si (Some (str_uuid (pay_id p)))) (invoice_payments invoice d)) ||
  (opt_eqb st (Some "adjustment") &&
     existsb (fun a => opt_eqb si (Some (str_uuid (adj_id a)))) (invoice_adjustments invoice d)).

Definition invoice_ar_balance_cents (invoice : Invoice) (d : Db) : Z :=
  zsum (map snd (List.filter (fun x => source_of_invoice invoice d (fst (fst x)) (snd (fst x)))
                   (ar_role_lines d))).

(** * Void *)

Definition settle_opening_on_void (invoice : Invoice) (actor : option string) : M Db unit :=
  enabled <- mreads (ledger_posting_enabled (inv_company_id invoice)) ;;
  if negb enabled then mreturn tt
  else
    era <- mreads (pre_cutover_era invoice) ;;
    anchored <- mreads (has_opening_anchor invoice) ;;
    if negb era && negb anchored then mreturn tt
    else
      existing <- mreads (fun d => head (live_like (inv_company_id invoice) "invoice"
          (str_uuid (inv_id invoice))
          ("invoice:" +:+ str_uuid (inv_id invoice) +:+ ":" +:+ EVENT_OPENING_VOID +:+ ":%") d)) ;;
      match existing with
      | Some _ => mreturn tt
      | None =>
          remaining <- mreads (invoice_ar_balance_cents invoice) ;;
          if remaining <=? 0 then mreturn tt
          else
            today <- mreads shop_today_from_settings ;;
            let memo := "void of pre-cutover invoice " +:+ inv_number invoice in
            post_for_event
              (mk_event (inv_company_id invoice) "invoice" (str_uuid (inv_id invoice))
                 EVENT_OPENING_VOID today
                 [mk_pline remaining (Some ROLE_OPENING_EQUITY) None (Some memo) None
                    (inv_customer_id invoice);
                  mk_pline (- remaining) (Some ROLE_AR) None (Some memo) (inv_job_id invoice)
                    (inv_customer_id invoice)]
                 actor None) false ;;;
            mreturn tt
      end.
End Opening.
