(* ===== verification/Issuance.v ===== *)
(** [modules/ledger/rules.py], P1: the entry an invoice's issuance posts, its
    repost after an edit, and its reversal on void. *)

From S2P Require Import Prelude PyStr Dates Money Models PayPeriods Keys Coa Engine EngineInv EngineSpec Service RulesBase Opening.

Local Open Scope Z_scope.

(** [UUID(str(x))] through an account map: a missing, blank, malformed or
    dangling entry, or a foreign or inactive account, gives [None]. *)
Definition mapped_account (company_id : string) (acct_id : option string) (d : Db) : option uuid :=
  if negb (truthy_str acct_id) then None
  else match uuid_of_string (default "" acct_id) with
       | None => None
       | Some u =>
           match get_account u d with
           | None => None
           | Some a => if negb (String.eqb (acc_company_id a) company_id) || negb (acc_active a)
                       then None else Some (acc_id a)
           end
       end.

Definition _revenue_account_id_for (settings : option GlSettings) (company_id : string)
    (category : option string) (d : Db) : option uuid :=
  if negb (truthy_str category) then None
  else
    let mapping := default ∅ (match settings with
                              | Some s => gs_revenue_category_account_map s
                              | None => None
                              end) in
    mapped_account company_id (mapping !! default "" category) d.

Definition MAX_RESIDUAL_CENTS : Z := 100.

Definition _live_invoice_lines (invoice : Invoice) (d : Db) : list InvoiceLine :=
  List.filter (fun il => N.eqb (il_invoice_id il) (inv_id invoice) &&
                         match il_deleted_at il with None => true | Some _ => false end)
    (op_invoice_lines (db_ops d)).

(** The posting line of one invoice line. *)
Definition revenue_line (settings : option GlSettings) (invoice : Invoice) (il : InvoiceLine)
    (line_cents : Z) (d : Db) : PostingLine :=
  let memo := String.substring 0 200 (default "" (il_description il)) in
  match _revenue_account_id_for settings (inv_company_id invoice) (il_category il) d with
  | None =>
      mk_pline (- line_cents) (Some ROLE_SALES_FALLBACK) None
        (Some ((if truthy_str (il_category il)
                then "[unmapped category: " +:+ default "" (il_category il) +:+ "] " else "") +:+ memo))
        (inv_job_id invoice) (inv_customer_id invoice)
  | Some account_id =>
      mk_pline (- line_cents) None (Some account_id) (Some memo) (inv_job_id invoice)
        (inv_customer_id invoice)
  end.

(** The loop over the live lines: the posting lines and the cents credited. *)
Fixpoint revenue_lines (settings : option GlSettings) (invoice : Invoice)
    (ils : list InvoiceLine) (d : Db) : result (list PostingLine * Z) :=
  match ils with
  | [] => Ok ([], 0)
  | il :: ils' =>
      let! line_cents := cents_of (il_line_total il) in
      let! rest := revenue_lines settings invoice ils' d in
      if line_cents =? 0 then Ok rest
      else Ok (revenue_line settings invoice il line_cents d :: fst rest, line_cents + snd rest)
  end.

Definition build_issuance_lines (invoice : Invoice) (d : Db) : result (list PostingLine) :=
  let settings := get_gl_settings (inv_company_id invoice) d in
  let! total_cents := cents_of (inv_total invoice) in
  if total_cents =? 0 then Ok []
  else
    let ar := mk_pline total_cents (Some ROLE_AR) None
                (Some ("invoice " +:+ inv_number invoice +:+ " issued"))
                (inv_job_id invoice) (inv_customer_id invoice) in
    let! rev := revenue_lines settings invoice (_live_invoice_lines invoice d) d in
    let! tax_cents := cents_of (inv_tax_amount invoice) in
    let tax := if tax_cents =? 0 then []
               else [mk_pline (- tax_cents) (Some ROLE_SALES_TAX_PAYABLE) None
                       (Some "sales tax (mirrored from invoice)")
                       (inv_job_id invoice) (inv_customer_id invoice)] in
    let credited := snd rev + tax_cents in
    let residual := total_cents - credited in
    if residual =? 0 then Ok (ar :: fst rev ++ tax)
    else if MAX_RESIDUAL_CENTS <? Z.abs residual then Err IssuanceCompositionError
    else Ok (ar :: fst rev ++ tax ++
               [mk_pline (- residual) (Some ROLE_ROUNDING) None
                  (Some ("[P1 residual] total − (lines + tax) = " +:+ pretty residual +:+ " cents"))
                  (inv_job_id invoice) (inv_customer_id invoice)]).

Section Issuance.
Context `{W : World}.

Definition issuance_event (invoice : Invoice) (lines : list PostingLine) (actor : option string)
    (d : Db) : PostingEvent :=
  mk_event (inv_company_id invoice) "invoice" (str_uuid (inv_id invoice)) EVENT_ISSUED
    (_effective_at invoice d) lines actor None.

Definition post_invoice_issuance (invoice : Invoice) (actor : option string) : M Db unit :=
  era <- mreads (pre_cutover_era invoice) ;;
  if era then post_opening_balance invoice actor ;;; mreturn tt
  else
    lines <- (fun d => (build_issuance_lines invoice d, d)) ;;
    match lines with
    | [] => mreturn tt
    | _ => event <- mreads (issuance_event invoice lines actor) ;;
           post_for_event event false ;;; mreturn tt
    end.

Definition repost_invoice_issuance (invoice : Invoice) (actor : option string) : M Db unit :=
  if negb (is_issued (inv_status invoice)) then mreturn tt
  else
    enabled <- mreads (ledger_posting_enabled (inv_company_id invoice)) ;;
    if negb enabled then mreturn tt
    else
      live <- mreads (_live_issuance_entry invoice) ;;
      era <- mreads (pre_cutover_era invoice) ;;
      if match live with None => era | Some _ => false end
      then post_opening_balance invoice actor ;;; mreturn tt
      else
        lines <- (fun d => (build_issuance_lines invoice d, d)) ;;
        match lines, live with
        | [], Some l => reverse_entry (je_id l) None actor false ;;; mreturn tt
        | [], None => mreturn tt
        | _, None => post_invoice_issuance invoice actor
        | _, Some l =>
            event <- mreads (issuance_event invoice lines actor) ;;
            posted_ <- post_for_event event false ;;
            if N.eqb (je_id posted_) (je_id l) then mreturn tt
            else reverse_entry (je_id l) None actor false ;;; mreturn tt
        end.

Definition reverse_invoice_issuance (invoice : Invoice) (actor : option string) : M Db unit :=
  live <- mreads (_live_issuance_entry invoice) ;;
  match live with
  | Some l => reverse_entry (je_id l) None actor false ;;; mreturn tt
  | None => mreturn tt
  end.
End Issuance.
