(* ===== verification/Payments.v ===== *)
(** [modules/ledger/rules.py], P3/P4: payments, the late-learned settlement of
    pre-cutover invoices, the compensator of a voided opening-era payment, and
    the resettlement of an invoice's payments. *)

From S2P Require Import Prelude PyStr Dates Money Models PayPeriods Keys Coa Engine EngineInv EngineSpec Service RulesBase Opening Issuance.
From stdpp Require Import sorting.

Local Open Scope Z_scope.

(** * Splitting a payment *)

(** [datetime.min]: ordinal 1, midnight. *)
Definition datetime_min : Z := usec_per_day.

(** [(created_at or datetime.min, str(id))], normalized to naive UTC. *)
Definition pay_key (p : Payment) : Z * string :=
  (match pay_created_at p with Some ts => dt_utc_wall ts | None => datetime_min end,
   str_uuid (pay_id p)).

Definition key_lt (a b : Z * string) : bool :=
  (fst a <? fst b) || ((fst a =? fst b) && String.ltb (snd a) (snd b)).

Definition is_voided (p : Payment) : bool :=
  match pay_voided_at p with Some _ => true | None => false end.

Definition _prior_nonvoided_paid_cents (invoice : Invoice) (payment : Payment) (d : Db) : result Z :=
  cents_sum (map pay_amount
    (List.filter (fun p => key_lt (pay_key p) (pay_key payment))
       (List.filter (fun p => negb (is_voided p) && negb (N.eqb (pay_id p) (pay_id payment)))
          (invoice_payments invoice d)))).

(** What the invoice still asks for when [payment] arrives. *)
Definition remaining_ar_cents (invoice : Invoice) (payment : Payment) (d : Db) : result Z :=
  if bool_decide (inv_status invoice = void) then Ok 0
  else
    let! total_cents := cents_of (inv_total invoice) in
    let! prior := _prior_nonvoided_paid_cents invoice payment d in
    let! credited := invoice_credited_cents invoice d in
    Ok (Z.max (total_cents - prior - credited) 0).

Definition build_payment_lines (payment : Payment) (invoice : Invoice) : M Db (list PostingLine) :=
  amount_cents <- mlift (cents_of (pay_amount payment)) ;;
  surcharge_cents <- mlift (cents_of (pay_surcharge_amount payment)) ;;
  if (amount_cents =? 0) && (surcharge_cents =? 0) then mreturn []
  else
    settings <- mreads (get_gl_settings (inv_company_id invoice)) ;;
    match settings with
    | None => mraise LedgerConfigError
    | Some settings =>
        method_role <- mlift (resolve_payment_method_role settings (pay_method payment)) ;;
        let is_void := bool_decide (inv_status invoice = void) in
        remaining_ar <- (fun d => (remaining_ar_cents invoice payment d, d)) ;;
        let ar_portion := Z.min amount_cents remaining_ar in
        let excess := amount_cents - ar_portion in
        let line cents role memo :=
          mk_pline cents (Some role) None (Some memo) (inv_job_id invoice) (inv_customer_id invoice) in
        let number := inv_number invoice in
        (if surcharge_cents =? 0 then mreturn tt
         else ensure_role_account (inv_company_id invoice) ROLE_SURCHARGE_INCOME ;;; mreturn tt) ;;;
        mreturn
          ([line (amount_cents + surcharge_cents) method_role
              ("payment on " +:+ number +:+ " (" +:+ fmt_opt (pay_method payment) +:+ ")")] ++
           (if surcharge_cents =? 0 then []
            else [line (- surcharge_cents) ROLE_SURCHARGE_INCOME ("card surcharge on " +:+ number)]) ++
           (if ar_portion =? 0 then []
            else [line (- ar_portion) ROLE_AR ("payment applied to " +:+ number)]) ++
           (if excess =? 0 then []
            else [line (- excess) ROLE_CUSTOMER_CREDITS
                    (if is_void then "payment on voided invoice " +:+ number +:+ " → customer credit"
                     else "overpayment on " +:+ number +:+ " → customer credit")]))
    end.

(** * Late-learned era settlements *)

Definition _is_late_era_settlement (payment : Payment) (invoice_is_era : bool)
    (cutover : option date) : bool :=
  invoice_is_era &&
  match cutover, pay_payment_date payment with
  | Some c, Some w => (w <? c) && negb (_existed_at_cutover (pay_created_at payment) c)
  | _, _ => false
  end.

(** [(payment_date, created_at, str(id))] *)
Definition late_le (a b : Payment) : Prop :=
  let key p := (default 0 (pay_payment_date p), pay_key p) in
  fst (key a) < fst (key b) \/
  (fst (key a) = fst (key b) /\ key_lt (snd (key b)) (snd (key a)) = false).

#[export] Instance late_le_dec : RelDecision late_le.
Proof. intros a b. unfold late_le. apply _. Defined.

(** Consuming the pool in order; a voided payment takes nothing. *)
Fixpoint allocate_pool (pool : Z) (late : list Payment) : result (list (uuid * Z)) :=
  match late with
  | [] => Ok []
  | p :: late' =>
      if is_voided p then
        let! rest := allocate_pool pool late' in Ok ((pay_id p, 0) :: rest)
      else
        let! amount := cents_of (pay_amount p) in
        let cents := Z.min amount pool in
        let! rest := allocate_pool (pool - cents) late' in Ok ((pay_id p, cents) :: rest)
  end.

Definition _late_era_allocation (invoice : Invoice) (cutover : date) (d : Db)
  : result (list (uuid * Z)) :=
  let! opening := opening_balance_cents invoice cutover d in
  let late := List.filter (fun p => _is_late_era_settlement p true (Some cutover))
                (invoice_payments invoice d) in
  allocate_pool (Z.max 0 opening) (merge_sort late_le late).

(** [allocation.get(payment.id, 0)] *)
Definition allocated (allocation : list (uuid * Z)) (id_ : uuid) : Z :=
  match List.find (fun kv => N.eqb (fst kv) id_) allocation with Some kv => snd kv | None => 0 end.

Section Payments.
Context `{W : World}.

Definition post_era_settlement (payment : Payment) (invoice : Invoice) (cents : Z)
    (actor : option string) : M Db (option GlJournalEntry) :=
  enabled <- mreads (ledger_posting_enabled (inv_company_id invoice)) ;;
  if negb enabled then mreturn None
  else
    _amount <- mlift (cents_of (pay_amount payment)) ;;
    if cents <=? 0 then mreturn None
    else
      cutover <- mreads (_cutover_date (inv_company_id invoice)) ;;
      let true_date := match pay_payment_date payment with
                       | Some w => date_isoformat w
                       | None => "unknown"
                       end in
      let memo := "era settlement of " +:+ inv_number invoice +:+ ": payment dated " +:+
                  true_date +:+ ", recorded after cutover — posted at first open day" in
      let lines :=
        [mk_pline cents (Some ROLE_OPENING_EQUITY) None (Some memo) None (inv_customer_id invoice);
         mk_pline (- cents) (Some ROLE_AR) None (Some memo) (inv_job_id invoice)
           (inv_customer_id invoice)] in
      match cutover with
      | None =>
          (** [event.effective_at.isoformat()] on [None] *)
          _resolve_lines (inv_company_id invoice) lines ;;; mraise AttributeError
      | Some cutover =>
          e <- post_for_event
                 (mk_event (inv_company_id invoice) "payment" (str_uuid (pay_id payment))
                    EVENT_ERA_SETTLEMENT cutover lines actor None) false ;;
          mreturn (Some e)
      end.

Definition _post_opening_payment_void (payment : Payment) (invoice : Invoice)
    (actor : option string) : M Db unit :=
  settings <- mreads (get_gl_settings (inv_company_id invoice)) ;;
  match settings with
  | None => mraise LedgerConfigError
  | Some settings =>
      method_role <- mlift (resolve_payment_method_role settings (pay_method payment)) ;;
      amount_cents <- mlift (cents_of (pay_amount payment)) ;;
      if amount_cents =? 0 then mreturn tt
      else
        live <- mreads (_live_event_entry "payment" (str_uuid (pay_id payment))
                          EVENT_OPENING_PAYMENT_VOID) ;;
        match live with
        | Some _ => mreturn tt
        | None =>
            voided_on <- mreads (_shop_effective_at "payment" (str_uuid (pay_id payment))
                                   EVENT_OPENING_PAYMENT_VOID (pay_voided_at payment)) ;;
            let memo := "void of opening-era payment on " +:+ inv_number invoice in
            post_for_event
              (mk_event (inv_company_id invoice) "payment" (str_uuid (pay_id payment))
                 EVENT_OPENING_PAYMENT_VOID voided_on
                 [mk_pline amount_cents (Some ROLE_AR) None (Some memo) (inv_job_id invoice)
                    (inv_customer_id invoice);
                  mk_pline (- amount_cents) (Some method_role) None (Some memo) (inv_job_id invoice)
                    (inv_customer_id invoice)] actor None) false ;;;
            mreturn tt
        end
  end.

(** * Resettling *)

(** Reverse at the entry's own date, falling back only if that is locked. *)
Definition _reverse (actor : option string) (fallback : option date) (live : uuid)
  : M Db GlJournalEntry :=
  mcatch (reverse_entry live None actor false) PeriodLockedError
    (match fallback with
     | None => mraise PeriodLockedError
     | Some w => reverse_entry live (Some w) actor false
     end).

Definition payment_event (payment : Payment) (invoice : Invoice) (lines : list PostingLine)
    (actor : option string) (when_ : date) : PostingEvent :=
  mk_event (inv_company_id invoice) "payment" (str_uuid (pay_id payment)) EVENT_PAYMENT when_
    lines actor None.

Definition _repost (actor : option string) (fallback : option date) (invoice : Invoice)
    (payment : Payment) (lines : list PostingLine) : M Db GlJournalEntry :=
  today <- mreads shop_today_from_settings ;;
  let natural := default today (pay_payment_date payment) in
  mcatch (post_for_event (payment_event payment invoice lines actor natural) false) PeriodLockedError
    (match fallback with
     | None => mraise PeriodLockedError
     | Some w => post_for_event (payment_event payment invoice lines actor w) false
     end).

(** Reverse every entry of a query's result but [keep]. *)
Definition reverse_all (actor : option string) (fallback : option date) (keep : option uuid)
    (entries : list GlJournalEntry) : M Db unit :=
  mfor entries (fun live =>
    if opt_eqb (Some (je_id live)) keep then mreturn tt
    else _reverse actor fallback (je_id live) ;;; mreturn tt).

(** The body of the loop over the invoice's payments. *)
Definition resettle_payment (actor : option string) (fallback : option date) (invoice : Invoice)
    (era_invoice : bool) (cutover : option date) (era_allocation : list (uuid * Z))
    (payment : Payment) : M Db unit :=
  let company_id := inv_company_id invoice in
  let in_opening := era_invoice && match cutover with
                                   | Some c => _existed_at_cutover (pay_created_at payment) c
                                   | None => false
                                   end in
  let late_era := _is_late_era_settlement payment era_invoice cutover in
  if is_voided payment then
    live <- mreads (_live_payment_entries payment company_id) ;;
    reverse_all actor fallback None live ;;;
    live <- mreads (_live_era_settlement_entries payment company_id) ;;
    reverse_all actor fallback None live ;;;
    if in_opening && match cutover with
                     | Some c => negb (_voided_before_cutover payment c)
                     | None => true
                     end
    then _post_opening_payment_void payment invoice actor
    else mreturn tt
  else if late_era then
    posted_ <- post_era_settlement payment invoice (allocated era_allocation (pay_id payment)) actor ;;
    live <- mreads (_live_era_settlement_entries payment company_id) ;;
    reverse_all actor fallback (option_map je_id posted_) live
  else if in_opening then mreturn tt
  else
    lines <- build_payment_lines payment invoice ;;
    match lines with
    | [] => mreturn tt
    | _ =>
        posted_ <- _repost actor fallback invoice payment lines ;;
        live <- mreads (_live_payment_entries payment company_id) ;;
        reverse_all actor fallback (Some (je_id posted_)) live
    end.

Definition resettle_invoice_payments (invoice : Invoice) (actor : option string)
    (locked_period_fallback_at : option date) : M Db unit :=
  enabled <- mreads (ledger_posting_enabled (inv_company_id invoice)) ;;
  if negb enabled then mreturn tt
  else
    era_invoice <- mreads (pre_cutover_era invoice) ;;
    cutover <- mreads (fun d => if era_invoice then _cutover_date (inv_company_id invoice) d else None) ;;
    payments <- mreads (invoice_payments invoice) ;;
    era_allocation <- (fun d => (match cutover with
                                 | Some c => if era_invoice then _late_era_allocation invoice c d else Ok []
                                 | None => Ok []
                                 end, d)) ;;
    mfor payments (resettle_payment actor locked_period_fallback_at invoice era_invoice cutover
                     era_allocation).

(** * Recording *)

Definition post_payment_received (payment : Payment) (invoice : Invoice) (actor : option string)
  : M Db (option GlJournalEntry) :=
  enabled <- mreads (ledger_posting_enabled (inv_company_id invoice)) ;;
  if negb enabled then mreturn None
  else
    era <- mreads (pre_cutover_era invoice) ;;
    cutover <- mreads (_cutover_date (inv_company_id invoice)) ;;
    if era && _is_late_era_settlement payment true cutover then
      resettle_invoice_payments invoice actor None ;;;
      mreads (fun d => head (_live_era_settlement_entries payment (inv_company_id invoice) d))
    else
      lines <- build_payment_lines payment invoice ;;
      match lines with
      | [] => mreturn None
      | _ =>
          today <- mreads shop_today_from_settings ;;
          e <- post_for_event (payment_event payment invoice lines actor
                                 (default today (pay_payment_date payment))) false ;;
          mreturn (Some e)
      end.
End Payments.
