(* ===== verification/Adjustments.v ===== *)
(** [modules/ledger/rules.py]: credit memos, refunds, applied credit and their
    reversal on void; P5/P6 expenses. *)

From S2P Require Import Prelude PyStr Dates Money Models PayPeriods Keys Coa Engine EngineInv EngineSpec Service RulesBase Opening Issuance Payments.

Local Open Scope Z_scope.

(** * Credit memos *)

Definition _reason_role (settings : option GlSettings) (reason : option string) : string :=
  let mapping := default ∅ (match settings with
                            | Some s => gs_credit_reason_role_map s
                            | None => None
                            end) in
  default ROLE_REFUNDS (mapping !! str_lower (str_strip (default "" reason))).

(** [adjustment.reason or 'unspecified'] *)
Definition reason_text (reason : option string) : string :=
  if truthy_str reason then default "" reason else "unspecified".

(** The balance of the customer on account 2300: all lines, no status filter. *)
Definition account_customer_sum (company_id : string) (account_id : uuid) (customer_id : option uuid)
    (d : Db) : Z :=
  zsum_of jl_amount_cents
    (List.filter (fun l =>
        N.eqb (jl_account_id l) account_id &&
        (match customer_id with Some _ => opt_eqb (jl_customer_id l) customer_id
         | None => match jl_customer_id l with None => true | Some _ => false end end) &&
        match get_entry (jl_entry_id l) d with
        | Some e => String.eqb (je_company_id e) company_id
        | None => false
        end) (gl_lines (db_gl d))).

Definition customer_credit_balance_cents (company_id : string) (customer_id : option uuid) : M Db Z :=
  credits_acct <- resolve_role_account_or_none company_id ROLE_CUSTOMER_CREDITS ;;
  match credits_acct with
  | None => mreturn 0
  | Some a => total <- mreads (account_customer_sum company_id (acc_id a) customer_id) ;;
              mreturn (- total)
  end.

(** [SELECT sum(amount)]: exact, NULLs skipped, NULL when no row is left. *)
Definition numeric_add (a b : decimal) : decimal :=
  match a, b with
  | DFinite c1 e1, DFinite c2 e2 =>
      let e := Z.min e1 e2 in DFinite (c1 * 10 ^ (e1 - e) + c2 * 10 ^ (e2 - e)) e
  | _, _ => DNaN
  end.

Definition sql_sum (values : list (option decimal)) : option decimal :=
  foldr (fun v acc => match v, acc with
                      | Some a, Some b => Some (numeric_add a b)
                      | Some a, None => Some a
                      | None, acc => acc
                      end) None values.

Definition _refund_overpayment_cents (invoice : Invoice) (d : Db) : result Z :=
  let! paid_ := cents_of (sql_sum (map pay_amount
    (List.filter (fun p => negb (is_voided p)) (invoice_payments invoice d)))) in
  if bool_decide (inv_status invoice = void) then Ok (Z.max paid_ 0)
  else
    let! total := cents_of (inv_total invoice) in
    let! credited := invoice_credited_cents invoice d in
    Ok (Z.max (paid_ - total - credited) 0).

Section Adjustments.
Context `{W : World}.

Definition adjustment_event (adjustment : InvoiceAdjustment) (invoice : Invoice) (event : string)
    (lines : list PostingLine) (actor : option string) (d : Db) : PostingEvent :=
  mk_event (inv_company_id invoice) "adjustment" (str_uuid (adj_id adjustment)) event
    (_shop_effective_at "adjustment" (str_uuid (adj_id adjustment)) event (adj_created_at adjustment) d)
    lines actor None.

Definition adjustment_line (invoice : Invoice) (cents : Z) (role memo : string) : PostingLine :=
  mk_pline cents (Some role) None (Some memo) (inv_job_id invoice) (inv_customer_id invoice).

Definition post_credit_memo (adjustment : InvoiceAdjustment) (invoice : Invoice)
    (actor : option string) : M Db (option GlJournalEntry) :=
  enabled <- mreads (ledger_posting_enabled (inv_company_id invoice)) ;;
  if negb enabled then mreturn None
  else
    amount_cents <- mlift (cents_of (adj_amount adjustment)) ;;
    if amount_cents =? 0 then mreturn None
    else
      live <- mreads (_live_event_entry "adjustment" (str_uuid (adj_id adjustment)) "credit_memo") ;;
      match live with
      | Some e => mreturn (Some e)
      | None =>
          settings <- mreads (get_gl_settings (inv_company_id invoice)) ;;
          event <- mreads (adjustment_event adjustment invoice "credit_memo"
            [adjustment_line invoice amount_cents (_reason_role settings (adj_reason adjustment))
               ("credit memo on " +:+ inv_number invoice +:+ ": " +:+ reason_text (adj_reason adjustment));
             adjustment_line invoice (- amount_cents) ROLE_AR
               ("credit memo applied to " +:+ inv_number invoice)] actor) ;;
          e <- post_for_event event false ;; mreturn (Some e)
      end.

(** * Refunds *)

(** The split of a refund: the customer's own money first, capped by the
    overpayment and by the credit actually on the ledger. *)
Definition refund_from_credit (amount_cents overpayment on_ledger : Z) : Z :=
  Z.max (Z.min (Z.min amount_cents overpayment) (Z.max on_ledger 0)) 0.

Definition refund_lines (adjustment : InvoiceAdjustment) (invoice : Invoice)
    (settings : option GlSettings) (cash_role : string) (amount_cents from_credit : Z)
  : list PostingLine :=
  let from_revenue := amount_cents - from_credit in
  (if from_credit =? 0 then []
   else [adjustment_line invoice from_credit ROLE_CUSTOMER_CREDITS
           ("overpayment returned on " +:+ inv_number invoice)]) ++
  (if from_revenue =? 0 then []
   else [adjustment_line invoice from_revenue (_reason_role settings (adj_reason adjustment))
           ("refund on " +:+ inv_number invoice +:+ ": " +:+ reason_text (adj_reason adjustment))]) ++
  [adjustment_line invoice (- amount_cents) cash_role
     ("refund paid out via " +:+ fmt_opt (adj_refund_method adjustment))].

Definition post_refund (adjustment : InvoiceAdjustment) (invoice : Invoice)
    (actor : option string) : M Db (option GlJournalEntry) :=
  enabled <- mreads (ledger_posting_enabled (inv_company_id invoice)) ;;
  if negb enabled then mreturn None
  else
    amount_cents <- mlift (cents_of (adj_amount adjustment)) ;;
    if amount_cents =? 0 then mreturn None
    else
      live <- mreads (_live_event_entry "adjustment" (str_uuid (adj_id adjustment)) "refund") ;;
      match live with
      | Some e => mreturn (Some e)
      | None =>
          settings <- mreads (get_gl_settings (inv_company_id invoice)) ;;
          match settings with
          | None => mraise LedgerConfigError
          | Some s =>
              cash_role <- mlift (resolve_payment_method_role s (adj_refund_method adjustment)) ;;
              on_ledger <- customer_credit_balance_cents (inv_company_id invoice) (inv_customer_id invoice) ;;
              overpayment <- (fun d => (_refund_overpayment_cents invoice d, d)) ;;
              let from_credit := refund_from_credit amount_cents overpayment on_ledger in
              event <- mreads (adjustment_event adjustment invoice "refund"
                (refund_lines adjustment invoice settings cash_role amount_cents from_credit) actor) ;;
              e <- post_for_event event false ;; mreturn (Some e)
          end
      end.

(** * Applied credit *)

Definition post_credit_application (adjustment : InvoiceAdjustment) (invoice : Invoice)
    (actor : option string) : M Db (option GlJournalEntry) :=
  enabled <- mreads (ledger_posting_enabled (inv_company_id invoice)) ;;
  if negb enabled then mreturn None
  else
    amount_cents <- mlift (cents_of (adj_amount adjustment)) ;;
    if amount_cents =? 0 then mreturn None
    else
      live <- mreads (_live_event_entry "adjustment" (str_uuid (adj_id adjustment)) "credit_applied") ;;
      match live with
      | Some e => mreturn (Some e)
      | None =>
          event <- mreads (adjustment_event adjustment invoice "credit_applied"
            [adjustment_line invoice amount_cents ROLE_CUSTOMER_CREDITS
               ("customer credit applied to " +:+ inv_number invoice);
             adjustment_line invoice (- amount_cents) ROLE_AR
               ("credit applied to " +:+ inv_number invoice)] actor) ;;
          e <- post_for_event event false ;; mreturn (Some e)
      end.

(** * Void *)

Definition live_adjustment_entries (company_id : string) (adjustment : InvoiceAdjustment) (d : Db)
  : list GlJournalEntry :=
  List.filter (fun e => String.eqb (je_company_id e) company_id &&
                        opt_eqb (je_source_type e) (Some "adjustment") &&
                        opt_eqb (je_source_id e) (Some (str_uuid (adj_id adjustment))) &&
                        bool_decide (je_status e = posted)) (gl_entries (db_gl d)).

Definition reverse_invoice_adjustments (invoice : Invoice) (actor : option string) : M Db unit :=
  enabled <- mreads (ledger_posting_enabled (inv_company_id invoice)) ;;
  if negb enabled then mreturn tt
  else
    adjustments <- mreads (invoice_adjustments invoice) ;;
    mfor adjustments (fun adjustment =>
      live <- mreads (live_adjustment_entries (inv_company_id invoice) adjustment) ;;
      mfor live (fun entry => reverse_entry (je_id entry) None actor false ;;; mreturn tt)).
End Adjustments.

(** * Expenses *)

Definition _expense_account_id (settings : option GlSettings) (company_id : string)
    (category : option string) (d : Db) : option uuid :=
  let mapping := default ∅ (match settings with
                            | Some s => gs_expense_category_account_map s
                            | None => None
                            end) in
  let canonical := canonicalize_expense_category category in
  let key := if truthy_str canonical then default "" canonical else default "" category in
  mapped_account company_id (mapping !! key) d.

(** [str(expense.date)] in the memo. *)
Definition fmt_date (w : option date) : string :=
  match w with Some x => date_isoformat x | None => "None" end.

Definition build_expense_lines (expense : Expense) (d : Db) : result (list PostingLine) :=
  let! amount_cents := cents_of (exp_amount expense) in
  if amount_cents =? 0 then Ok []
  else
    let settings := get_gl_settings (exp_company_id expense) d in
    let! lines_sum := cents_sum (exp_lines expense) in
    if (match exp_lines expense with [] => false | _ => true end) && (amount_cents <? lines_sum)
    then Err ExpenseCompositionError
    else
      let memo := exp_vendor expense +:+ ": " +:+ fmt_opt (exp_category expense) in
      let debit :=
        match _expense_account_id settings (exp_company_id expense) (exp_category expense) d with
        | None => mk_pline amount_cents (Some ROLE_EXPENSE_FALLBACK) None
                    (Some ("[unmapped category: " +:+ fmt_opt (exp_category expense) +:+ "] " +:+ memo))
                    (exp_job_id expense) None
        | Some account_id => mk_pline amount_cents None (Some account_id) (Some memo)
                               (exp_job_id expense) None
        end in
      Ok [debit;
          mk_pline (- amount_cents) (Some ROLE_OPERATING_BANK) None
            (Some ("paid " +:+ exp_vendor expense +:+ " on " +:+ fmt_date (exp_date expense)))
            (exp_job_id expense) None].

Section Expenses.
Context `{W : World}.

Definition expense_event (expense : Expense) (lines : list PostingLine) (actor : option string)
    (d : Db) : PostingEvent :=
  mk_event (exp_company_id expense) "expense" (str_uuid (exp_id expense)) EVENT_EXPENSE
    (default (shop_today_from_settings d) (exp_date expense)) lines actor None.

Definition post_expense_recorded (expense : Expense) (actor : option string)
  : M Db (option GlJournalEntry) :=
  enabled <- mreads (ledger_posting_enabled (exp_company_id expense)) ;;
  if negb enabled then mreturn None
  else
    lines <- (fun d => (build_expense_lines expense d, d)) ;;
    match lines with
    | [] => mreturn None
    | _ => event <- mreads (expense_event expense lines actor) ;;
           e <- post_for_event event false ;; mreturn (Some e)
    end.

Definition reverse_if_live (live : option GlJournalEntry) (actor : option string) : M Db unit :=
  match live with
  | Some l => reverse_entry (je_id l) None actor false ;;; mreturn tt
  | None => mreturn tt
  end.

Definition repost_expense (expense : Expense) (actor : option string) : M Db unit :=
  enabled <- mreads (ledger_posting_enabled (exp_company_id expense)) ;;
  if negb enabled then mreturn tt
  else
    live <- mreads (_live_expense_entry expense) ;;
    match exp_deleted_at expense with
    | Some _ => reverse_if_live live actor
    | None =>
        lines <- (fun d => (build_expense_lines expense d, d)) ;;
        match lines with
        | [] => reverse_if_live live actor
        | _ =>
            event <- mreads (expense_event expense lines actor) ;;
            posted_ <- post_for_event event false ;;
            match live with
            | Some l => if N.eqb (je_id posted_) (je_id l) then mreturn tt
                        else reverse_entry (je_id l) None actor false ;;; mreturn tt
            | None => mreturn tt
            end
        end
    end.
End Expenses.
