(* ===== verification/LinesSpec.v ===== *)
(** What the posting rules put on an entry: the lines every rule builds are
    balanced, pass the engine's validation, and carry the amounts the books
    need on the receivable, tax, credit and rounding accounts. *)

From S2P Require Import Prelude PyStr Dates Money Models PayPeriods Keys Coa Engine EngineInv EngineSpec Service RulesBase Opening Issuance Payments Adjustments.
From stdpp Require Import sorting.

Local Open Scope Z_scope.

(** * Posting lines by role *)

Definition role_is (role : string) (l : PostingLine) : bool :=
  match pl_role l with Some r => String.eqb r role | None => false end.

Definition role_sum (role : string) (lines : list PostingLine) : Z :=
  zsum_of pl_amount_cents (List.filter (role_is role) lines).

Lemma role_sum_cons role l lines :
  role_sum role (l :: lines) = (if role_is role l then pl_amount_cents l else 0) + role_sum role lines.
Proof. unfold role_sum. cbn [List.filter]. by destruct (role_is role l). Qed.

Lemma role_sum_nil role : role_sum role [] = 0.
Proof. done. Qed.

Lemma role_sum_app role l1 l2 : role_sum role (l1 ++ l2) = role_sum role l1 + role_sum role l2.
Proof. unfold role_sum. by rewrite List.filter_app, map_app, zsum_app. Qed.

(** A line the engine's validation accepts. *)
Definition line_ok (l : PostingLine) : Prop :=
  pl_amount_cents l <> 0 /\ Bool.eqb (is_none (pl_role l)) (is_none (pl_account_id l)) = false.

Lemma validate_each_intro lines : Forall line_ok lines -> _validate_each lines = Ok tt.
Proof.
  induction 1 as [|l lines [H1 H2] _ IH]; cbn [_validate_each]; [done|].
  by rewrite (proj2 (Z.eqb_neq _ _) H1), H2.
Qed.

Lemma existsb_not {A} (p : A -> bool) l : existsb p l = false <-> Forall (fun x => p x = false) l.
Proof.
  rewrite Forall_forall. destruct (existsb p l) eqn:E.
  - apply existsb_elem in E as (x & Hx & Hp). split; [done|]. intros H. by rewrite (H x Hx) in Hp.
  - split; [|done]. intros _ x Hx. destruct (p x) eqn:Hp; [|done].
    rewrite (proj2 (existsb_elem p l)) in E by eauto. done.
Qed.

(** A non-empty list of non-zero amounts that sums to zero has both signs. *)
Lemma zero_sum_signs {A} (f : A -> Z) l :
  l <> [] -> Forall (fun x => f x <> 0) l -> zsum_of f l = 0 ->
  existsb (fun x => 0 <? f x) l = true /\ existsb (fun x => f x <? 0) l = true.
Proof.
  intros Hne Hnz Hz. split; apply not_false_is_true; intros H%existsb_not.
  - assert (zsum_of f l < 0); [|lia]. clear Hz. destruct l as [|x l]; [done|]. clear Hne.
    inversion_clear Hnz as [|?? Hx Hl]. inversion_clear H as [|?? Hpx Hpl].
    assert (zsum_of f l <= 0).
    { clear -Hpl. induction Hpl; cbn [map zsum]; lia. }
    cbn [map zsum]. lia.
  - assert (0 < zsum_of f l); [|lia]. clear Hz. destruct l as [|x l]; [done|]. clear Hne.
    inversion_clear Hnz as [|?? Hx Hl]. inversion_clear H as [|?? Hpx Hpl].
    assert (0 <= zsum_of f l).
    { clear -Hpl. induction Hpl; cbn [map zsum]; lia. }
    cbn [map zsum]. lia.
Qed.

Lemma validate_balance_intro lines :
  lines <> [] -> Forall line_ok lines -> zsum_of pl_amount_cents lines = 0 ->
  _validate_balance lines = Ok tt.
Proof.
  intros Hne Hok Hz. unfold _validate_balance.
  assert (Forall (fun l => pl_amount_cents l <> 0) lines) as Hnz
    by (eapply Forall_impl; [exact Hok|]; by intros ? []).
  destruct (zero_sum_signs pl_amount_cents lines Hne Hnz Hz) as [-> ->].
  rewrite Hz. cbn [Z.eqb negb orb]. rewrite validate_each_intro by done.
  destruct (Nat.ltb_spec (length lines) 2); [|done].
  destruct lines as [|l [|]]; [done| |cbn in *; lia]. cbn in Hz.
  inversion_clear Hnz. lia.
Qed.

Ltac line_ok_tac := repeat first [apply Forall_nil_2 | apply Forall_cons_2]; split; cbn; lia || done.
Ltac role_sums :=
  rewrite ?role_sum_app, ?role_sum_cons, ?role_sum_nil; cbn; lia.

(** * Issuance *)

Lemma revenue_lines_spec settings invoice ils d ls :
  rmap cents_of (map il_line_total ils) = Ok ls ->
  exists pls, revenue_lines settings invoice ils d = Ok (pls, zsum ls) /\
    zsum_of pl_amount_cents pls = - zsum ls /\ Forall line_ok pls /\
    forall role, role <> ROLE_SALES_FALLBACK -> role_sum role pls = 0.
Proof.
  revert ls. induction ils as [|il ils IH]; intros ls H; cbn [map rmap] in H; minv H.
  { exists []. done. }
  destruct (IH _ H1) as (pls & E & Hz & Hok & Hr). cbn [revenue_lines rbind]. rewrite H0. cbn [rbind].
  rewrite E. cbn [rbind fst snd]. destruct (Z.eqb_spec a 0) as [->|Ha].
  { exists pls. split_and!; try done. }
  eexists. split; [reflexivity|].
  assert (pl_amount_cents (revenue_line settings invoice il a d) = - a) as Hamt.
  { unfold revenue_line. by destruct (_revenue_account_id_for _ _ _ _). }
  split_and!.
  - cbn [map zsum]. rewrite Hamt, Hz. lia.
  - constructor; [|done]. split; [lia|]. unfold revenue_line.
    by destruct (_revenue_account_id_for _ _ _ _).
  - intros role Hne. rewrite role_sum_cons, (Hr role Hne).
    assert (role_is role (revenue_line settings invoice il a d) = false) as ->; [|done].
    unfold revenue_line. destruct (_revenue_account_id_for _ _ _ _); [done|].
    apply String.eqb_neq. by apply not_eq_sym.
Qed.

Definition tax_lines (invoice : Invoice) (tax : Z) : list PostingLine :=
  if tax =? 0 then []
  else [mk_pline (- tax) (Some ROLE_SALES_TAX_PAYABLE) None (Some "sales tax (mirrored from invoice)")
          (inv_job_id invoice) (inv_customer_id invoice)].

Lemma tax_lines_spec invoice tax :
  zsum_of pl_amount_cents (tax_lines invoice tax) = - tax /\ Forall line_ok (tax_lines invoice tax) /\
  forall role, role_sum role (tax_lines invoice tax) =
    if String.eqb ROLE_SALES_TAX_PAYABLE role then - tax else 0.
Proof.
  unfold tax_lines. destruct (Z.eqb_spec tax 0) as [->|Ht].
  - split_and!; [done..|]. intros role. rewrite role_sum_nil. by case_if.
  - split_and!; [cbn; lia|line_ok_tac|]. intros role. rewrite role_sum_cons, role_sum_nil.
    cbn [role_is pl_role pl_amount_cents]. case_if; lia.
Qed.

Definition residual_lines (invoice : Invoice) (residual : Z) : list PostingLine :=
  if residual =? 0 then []
  else [mk_pline (- residual) (Some ROLE_ROUNDING) None
          (Some ("[P1 residual] total − (lines + tax) = " +:+ pretty residual +:+ " cents"))
          (inv_job_id invoice) (inv_customer_id invoice)].

Lemma residual_lines_spec invoice residual :
  zsum_of pl_amount_cents (residual_lines invoice residual) = - residual /\
  Forall line_ok (residual_lines invoice residual) /\
  forall role, role_sum role (residual_lines invoice residual) =
    if String.eqb ROLE_ROUNDING role then - residual else 0.
Proof.
  unfold residual_lines. destruct (Z.eqb_spec residual 0) as [->|Ht].
  - split_and!; [done..|]. intros role. rewrite role_sum_nil. by case_if.
  - split_and!; [cbn; lia|line_ok_tac|]. intros role. rewrite role_sum_cons, role_sum_nil.
    cbn [role_is pl_role pl_amount_cents]. case_if; lia.
Qed.

(** The issuance lines in one equation. *)
Lemma build_issuance_eq invoice d total pls ls tax :
  cents_of (inv_total invoice) = Ok total -> cents_of (inv_tax_amount invoice) = Ok tax ->
  revenue_lines (get_gl_settings (inv_company_id invoice) d) invoice (_live_invoice_lines invoice d) d
    = Ok (pls, zsum ls) -> total <> 0 ->
  let residual := total - (zsum ls + tax) in
  build_issuance_lines invoice d =
    if MAX_RESIDUAL_CENTS <? Z.abs residual then Err IssuanceCompositionError
    else Ok (mk_pline total (Some ROLE_AR) None
               (Some ("invoice " +:+ inv_number invoice +:+ " issued"))
               (inv_job_id invoice) (inv_customer_id invoice)
             :: pls ++ tax_lines invoice tax ++ residual_lines invoice residual).
Proof.
  intros Htotal Htax Hrev Hne residual. unfold build_issuance_lines. rewrite Htotal. cbn [rbind].
  rewrite (proj2 (Z.eqb_neq _ _) Hne), Hrev. cbn [rbind fst snd]. rewrite Htax. cbn [rbind].
  fold residual. fold (tax_lines invoice tax). unfold residual_lines.
  destruct (Z.eqb_spec residual 0) as [->|]; [|by destruct (MAX_RESIDUAL_CENTS <? _)].
  by rewrite app_nil_r.
Qed.

(** an invoice's issuance entry.  When its amounts convert, a zero total
    posts nothing; a header that differs from lines plus tax by more than a
    dollar is refused; and otherwise the lines debit the receivable by exactly
    the total, credit tax by exactly the mirrored tax and rounding by exactly
    the residual (never more than a dollar), sum to zero, and are accepted by
    the engine's validation. *)
Theorem issuance_lines_compose invoice d total ls tax
    (Htotal : cents_of (inv_total invoice) = Ok total)
    (Hlines : rmap cents_of (map il_line_total (_live_invoice_lines invoice d)) = Ok ls)
    (Htax : cents_of (inv_tax_amount invoice) = Ok tax) :
  let residual := total - (zsum ls + tax) in
  (total = 0 -> build_issuance_lines invoice d = Ok []) /\
  (total <> 0 -> MAX_RESIDUAL_CENTS < Z.abs residual ->
     build_issuance_lines invoice d = Err IssuanceCompositionError) /\
  (total <> 0 -> Z.abs residual <= MAX_RESIDUAL_CENTS -> exists lines,
     build_issuance_lines invoice d = Ok lines /\ _validate_balance lines = Ok tt /\
     role_sum ROLE_AR lines = total /\ role_sum ROLE_SALES_TAX_PAYABLE lines = - tax /\
     role_sum ROLE_ROUNDING lines = - residual).
Proof.
  intros residual.
  destruct (revenue_lines_spec (get_gl_settings (inv_company_id invoice) d) invoice
              (_live_invoice_lines invoice d) d ls Hlines) as (pls & Hrev & Hz & Hok & Hr).
  pose proof (build_issuance_eq invoice d total pls ls tax Htotal Htax Hrev) as Hbuild.
  cbn zeta in Hbuild. fold residual in Hbuild.
  split_and!.
  - intros ->. unfold build_issuance_lines. by rewrite Htotal.
  - intros Hne Hbig. by rewrite (Hbuild Hne), (proj2 (Z.ltb_lt _ _) Hbig).
  - intros Hne Hsmall. rewrite (Hbuild Hne), (proj2 (Z.ltb_ge _ _) Hsmall).
    destruct (tax_lines_spec invoice tax) as (Tz & Tok & Tr).
    destruct (residual_lines_spec invoice residual) as (Rz & Rok & Rr).
    eexists. split; [reflexivity|].
    rewrite !role_sum_cons, !role_sum_app, !Hr, !Tr, !Rr by done.
    split_and!; [|cbn; lia..]. apply validate_balance_intro; [done| |].
    + constructor; [by split|]. by rewrite !Forall_app.
    + cbn [map zsum pl_amount_cents]. rewrite !map_app, !zsum_app, Hz, Tz, Rz. unfold residual. lia.
Qed.

Definition lined_invoice : Invoice :=
  mk_invoice 7%N "INV-7" sent (Some (DFinite 10825 (-2))) (Some (DFinite 825 (-2)))
    (Some (DFinite 10825 (-2))) None None "co" (Some 738000) None None None None None false None "standard" None None None false.

Definition lined_db : Db :=
  mk_db (db_gl demo_db)
    (mk_ops [lined_invoice]
       [mk_invoice_line 7%N (Some "spring") (Some (DFinite 9999 (-2))) None None true (DFinite 1 0) (DFinite 9999 (-2)) 1 None None None] [] [] [] None 0 1 true).

Lemma issuance_lines_compose_witness :
  exists lines, build_issuance_lines lined_invoice lined_db = Ok lines /\
    role_sum ROLE_AR lines = 10825 /\ role_sum ROLE_ROUNDING lines = -1.
Proof.
  destruct (issuance_lines_compose lined_invoice lined_db 10825 [9999] 825 eq_refl eq_refl eq_refl)
    as (_ & _ & H).
  destruct H as (lines & H1 & _ & H2 & _ & H3); [discriminate|vm_compute; discriminate|].
  exists lines. split_and!; [exact H1|exact H2|exact H3].
Defined.

(** * Payments *)

(** The credit side of a payment entry. *)
Definition payment_credits (invoice : Invoice) (surcharge ar_portion excess : Z) (memo1 memo2 memo3 : string)
  : list PostingLine :=
  let line cents role memo :=
    mk_pline cents (Some role) None (Some memo) (inv_job_id invoice) (inv_customer_id invoice) in
  (if surcharge =? 0 then [] else [line (- surcharge) ROLE_SURCHARGE_INCOME memo1]) ++
  (if ar_portion =? 0 then [] else [line (- ar_portion) ROLE_AR memo2]) ++
  (if excess =? 0 then [] else [line (- excess) ROLE_CUSTOMER_CREDITS memo3]).

Lemma payment_credits_spec invoice s a x m1 m2 m3 :
  let lines := payment_credits invoice s a x m1 m2 m3 in
  zsum_of pl_amount_cents lines = - (s + a + x) /\ Forall line_ok lines /\
  role_sum ROLE_SURCHARGE_INCOME lines = - s /\ role_sum ROLE_AR lines = - a /\
  role_sum ROLE_CUSTOMER_CREDITS lines = - x.
Proof.
  cbn zeta. unfold payment_credits.
  destruct (Z.eqb_spec s 0), (Z.eqb_spec a 0), (Z.eqb_spec x 0); cbn [app];
    (split_and!; [cbn; lia|repeat first [apply Forall_nil_2|apply Forall_cons_2];
       (split; cbn; [lia|done])|role_sums..]).
Qed.

(** a payment entry.  For a payment whose amounts convert, whose method
    has a role, and whose invoice still asks for [remaining] cents, the lines
    debit the cash account by the whole payment and credit the surcharge
    income by the surcharge, the receivable by what the invoice still asks for
    and no more, and the customer's credit by all the rest; they sum to zero
    and pass the engine's validation; on a void invoice everything is customer
    credit.  Nothing but a missing surcharge account is ever added. *)
Theorem payment_lines_split payment invoice d settings role amount surcharge remaining
    (Hamount : cents_of (pay_amount payment) = Ok amount)
    (Hsurcharge : cents_of (pay_surcharge_amount payment) = Ok surcharge)
    (Hsettings : get_gl_settings (inv_company_id invoice) d = Some settings)
    (Hrole : resolve_payment_method_role settings (pay_method payment) = Ok role)
    (Hremaining : remaining_ar_cents invoice payment d = Ok remaining)
    (Haccount : surcharge = 0 \/
       exists a d', ensure_role_account (inv_company_id invoice) ROLE_SURCHARGE_INCOME d = (Ok a, d'))
    (Hpos : amount + surcharge <> 0) :
  exists cash credits d',
    build_payment_lines payment invoice d = (Ok (cash :: credits), d') /\ accounts_grow d d' /\
    (surcharge = 0 -> d' = d) /\
    pl_role cash = Some role /\ pl_amount_cents cash = amount + surcharge /\
    role_sum ROLE_SURCHARGE_INCOME credits = - surcharge /\
    role_sum ROLE_AR credits = - Z.min amount remaining /\
    role_sum ROLE_CUSTOMER_CREDITS credits = - (amount - Z.min amount remaining) /\
    _validate_balance (cash :: credits) = Ok tt /\
    (inv_status invoice = void -> 0 <= amount -> role_sum ROLE_CUSTOMER_CREDITS credits = - amount).
Proof.
  set (ar := Z.min amount remaining). unfold build_payment_lines.
  unfold mseq at 1, mlift at 1. rewrite Hamount. unfold mseq at 1, mlift at 1. rewrite Hsurcharge.
  assert ((amount =? 0) && (surcharge =? 0) = false) as -> by lia.
  unfold mseq at 1, mreads at 1. rewrite Hsettings.
  unfold mseq at 1, mlift at 1. rewrite Hrole. unfold mseq at 1. rewrite Hremaining. fold ar.
  match goal with |- context [([?l] ++ (if surcharge =? 0 then [] else [mk_pline _ _ _ (Some ?m1) _ _])
    ++ (if ar =? 0 then [] else [mk_pline _ _ _ (Some ?m2) _ _]) ++ (if _ then [] else [mk_pline _ _ _ (Some ?m3) _ _]))] =>
    set (cash := l); destruct (payment_credits_spec invoice surcharge ar (amount - ar) m1 m2 m3)
      as (Hz & Hok & H1 & H2 & H3); set (credits := payment_credits invoice surcharge ar (amount - ar) m1 m2 m3) in *
  end.
  assert (exists d', (if surcharge =? 0 then mreturn tt
      else ensure_role_account (inv_company_id invoice) ROLE_SURCHARGE_INCOME ;;; mreturn tt) d = (Ok tt, d') /\
      accounts_grow d d' /\ (surcharge = 0 -> d' = d)) as (d' & Htop & Hg & Hsame).
  { destruct (Z.eqb_spec surcharge 0) as [->|Hs]; [exists d; split_and!; [done|reflexivity|done]|].
    destruct Haccount as [?|(a & d' & E)]; [done|]. exists d'. unfold mseq. rewrite E. split; [done|].
    split; [|done]. pose proof (ensure_role_account_grows (inv_company_id invoice) ROLE_SURCHARGE_INCOME d) as Hg.
    by rewrite E in Hg. }
  exists cash, credits, d'. unfold mseq at 1. rewrite Htop.
  split; [reflexivity|]. split_and!; try done.
  - apply validate_balance_intro; [done| |].
    + constructor; [split; [exact Hpos|done]|done].
    + cbn [map zsum]. rewrite Hz. cbn. lia.
  - intros Hv Hnn. rewrite H3. revert Hremaining. unfold remaining_ar_cents.
    rewrite bool_decide_eq_true_2 by done. intros [= <-]. unfold ar. lia.
Qed.

Definition pay1 : Payment :=
  mk_payment 31%N 7%N (Some (DFinite 20000 (-2))) (Some "Card") (Some (DFinite 300 (-2))) (Some 738005)
    None (Some (mk_datetime 1000000 None)) None None.
Definition pay2 : Payment :=
  mk_payment 32%N 7%N (Some (DFinite 500 (-2))) (Some "cash") None (Some 738006)
    None (Some (mk_datetime 2000000 None)) None None.

Definition paid_db : Db :=
  mk_db (set_settings (fun _ => [mk_settings "co" true None (Some DEFAULT_PAYMENT_METHOD_ROLE_MAP)
                                   None None None None]) (db_gl demo_db))
    (mk_ops [lined_invoice] [] [pay2; pay1] [] [] None 0 1 true).

Lemma payment_lines_split_witness :
  exists cash credits d', build_payment_lines pay1 lined_invoice paid_db = (Ok (cash :: credits), d') /\
    role_sum ROLE_AR credits = -10825 /\ role_sum ROLE_CUSTOMER_CREDITS credits = -9175.
Proof.
  destruct (payment_lines_split pay1 lined_invoice paid_db
    (mk_settings "co" true None (Some DEFAULT_PAYMENT_METHOD_ROLE_MAP) None None None None)
    ROLE_UNDEPOSITED 20000 300 10825) as (cash & credits & d' & H1 & _ & _ & _ & _ & _ & H2 & H3 & _).
  - reflexivity.
  - reflexivity.
  - vm_compute. reflexivity.
  - vm_compute. reflexivity.
  - vm_compute. reflexivity.
  - right. eexists _, _. vm_compute. reflexivity.
  - discriminate.
  - exists cash, credits, d'. split_and!; [exact H1|exact H2|exact H3].
Defined.

(** ** The order of payments *)

Lemma string_compare_trans a b c :
  String.compare a b = Lt -> String.compare b c = Lt -> String.compare a c = Lt.
Proof.
  revert b c. induction a as [|x a IH]; intros [|y b] [|z c]; cbn; try done.
  destruct (Ascii.compare x y) eqn:Exy, (Ascii.compare y z) eqn:Eyz; try done.
  - apply Ascii.compare_eq_iff in Exy, Eyz. subst.
    assert (Ascii.compare z z = Eq) as -> by apply N.compare_refl. apply IH.
  - apply Ascii.compare_eq_iff in Exy. subst. by rewrite Eyz.
  - apply Ascii.compare_eq_iff in Eyz. subst. by rewrite Exy.
  - intros _ _. assert (Ascii.compare x z = Lt) as ->; [|done].
    unfold Ascii.compare in *. rewrite N.compare_lt_iff in *. lia.
Qed.

Lemma string_ltb_spec a b : String.ltb a b = true <-> String.compare a b = Lt.
Proof. unfold String.ltb. by destruct (String.compare a b). Qed.

Lemma string_ltb_total a b : String.ltb a b = false -> String.ltb b a = false -> a = b.
Proof.
  unfold String.ltb. rewrite (String.compare_antisym b a). intros H1 H2.
  apply String.compare_eq_iff. by destruct (String.compare a b).
Qed.

Lemma key_lt_irrefl k : key_lt k k = false.
Proof.
  unfold key_lt. rewrite Z.ltb_irrefl, Z.eqb_refl. cbn. unfold String.ltb.
  pose proof (String.compare_antisym (snd k) (snd k)) as H. by destruct (String.compare (snd k) (snd k)).
Qed.

Lemma key_lt_trans a b c : key_lt a b = true -> key_lt b c = true -> key_lt a c = true.
Proof.
  unfold key_lt. rewrite !orb_true_iff, !andb_true_iff, !Z.ltb_lt, !Z.eqb_eq, !string_ltb_spec.
  intros [H1|[H1 H1']] [H2|[H2 H2']]; [left; lia..|]. right. split; [lia|by eapply string_compare_trans].
Qed.

Lemma key_lt_asym a b : key_lt a b = true -> key_lt b a = false.
Proof.
  intros H. apply not_true_is_false. intros H'. pose proof (key_lt_trans _ _ _ H H') as E.
  by rewrite key_lt_irrefl in E.
Qed.

Lemma key_lt_total a b : key_lt a b = false -> key_lt b a = false -> a = b.
Proof.
  unfold key_lt. rewrite !orb_false_iff, !andb_false_iff, !Z.ltb_ge, !Z.eqb_neq.
  intros [H1 H2] [H3 H4]. destruct a as [x s], b as [y t]. cbn in *.
  f_equal; [lia|]. apply string_ltb_total; [destruct H2 as [?|?]|destruct H4 as [?|?]]; done || lia.
Qed.

(** Later payments first. *)
Definition later_le (a b : Payment) : Prop := key_lt (pay_key a) (pay_key b) = false.

#[export] Instance later_le_dec : RelDecision later_le.
Proof. intros a b. unfold later_le. apply _. Defined.
#[export] Instance later_le_total : Total later_le.
Proof.
  intros a b. unfold later_le. destruct (key_lt (pay_key a) (pay_key b)) eqn:E; [|auto].
  right. by apply key_lt_asym.
Qed.
#[export] Instance later_le_trans : Transitive later_le.
Proof.
  intros a b c H1 H2. unfold later_le in *. apply not_true_is_false. intros H.
  destruct (key_lt (pay_key b) (pay_key c)) eqn:E; [done|].
  destruct (key_lt (pay_key c) (pay_key b)) eqn:E'.
  - by rewrite (key_lt_trans _ _ _ H E') in H1.
  - rewrite (key_lt_total _ _ E E') in H1. congruence.
Qed.

Definition prior (amt : Payment -> Z) (l : list Payment) (p : Payment) : Z :=
  zsum_of amt (List.filter (fun q => key_lt (pay_key q) (pay_key p)) l).

Lemma filter_Permutation_b {A} (f : A -> bool) l l' :
  Permutation l l' -> Permutation (List.filter f l) (List.filter f l').
Proof.
  induction 1 as [|x l l' H IH|x y l|l l' l'' H1 IH1 H2 IH2]; cbn.
  - done.
  - destruct (f x); [by constructor|done].
  - destruct (f x), (f y); try done. constructor.
  - by etrans.
Qed.

Lemma prior_perm amt l l' p : Permutation l l' -> prior amt l p = prior amt l' p.
Proof. intros H. unfold prior. apply zsum_perm. apply Permutation_map, filter_Permutation_b, H. Qed.

(** Taking turns at a pool of [T]: in arrival order each payment takes what is
    left, and together they take the pool or all they have. *)
Lemma waterfall_sorted (amt : Payment -> Z) T l :
  StronglySorted later_le l -> NoDup (map pay_key l) -> Forall (fun p => 0 <= amt p) l ->
  zsum_of (fun p => Z.min (amt p) (Z.max (T - prior amt l p) 0)) l =
    Z.min (zsum_of amt l) (Z.max T 0).
Proof.
  induction 1 as [|x l Hs IH Hx]; intros Hnd Hnn; [cbn; lia|].
  cbn [map] in Hnd. apply NoDup_cons in Hnd as [Hnx Hnd].
  apply Forall_cons in Hnn as [Hax Hnn]. specialize (IH Hnd Hnn).
  rewrite Forall_forall in Hx.
  assert (forall p, p ∈ l -> prior amt (x :: l) p = prior amt l p) as Hp.
  { intros p Hp. unfold prior. cbn [List.filter]. by rewrite (Hx p Hp). }
  assert (prior amt (x :: l) x = zsum_of amt l) as Hpx.
  { unfold prior. cbn [List.filter]. rewrite key_lt_irrefl. f_equal. f_equal. apply filter_all.
    intros q Hq. destruct (key_lt (pay_key q) (pay_key x)) eqn:E; [done|]. destruct Hnx.
    apply elem_of_map_b. exists q. split; [done|]. apply key_lt_total; [done|apply (Hx q Hq)]. }
  assert (0 <= zsum_of amt l).
  { apply zsum_nonneg. by apply Forall_map. }
  cbn [map zsum]. rewrite Hpx.
  rewrite (zsum_of_ext (fun p => Z.min (amt p) (Z.max (T - prior amt (x :: l) p) 0))
    (fun p => Z.min (amt p) (Z.max (T - prior amt l p) 0)) l) by (intros p Hpl; by rewrite Hp).
  rewrite IH. lia.
Qed.

Lemma waterfall (amt : Payment -> Z) T l :
  NoDup (map pay_key l) -> Forall (fun p => 0 <= amt p) l ->
  zsum_of (fun p => Z.min (amt p) (Z.max (T - prior amt l p) 0)) l =
    Z.min (zsum_of amt l) (Z.max T 0).
Proof.
  intros Hnd Hnn. pose proof (merge_sort_Permutation later_le l) as Hp.
  pose proof (waterfall_sorted amt T (merge_sort later_le l)) as H.
  rewrite <- (zsum_perm _ _ (Permutation_map (fun p => Z.min (amt p) (Z.max (T - prior amt l p) 0)) Hp)).
  rewrite <- (zsum_perm _ _ (Permutation_map amt Hp)).
  rewrite <- H.
  - apply zsum_of_ext. intros p _. by rewrite (prior_perm amt _ _ p Hp).
  - by apply StronglySorted_merge_sort; apply _.
  - by rewrite Hp.
  - by rewrite Hp.
Qed.

Definition live_payments (invoice : Invoice) (d : Db) : list Payment :=
  List.filter (fun p => negb (is_voided p)) (invoice_payments invoice d).

Lemma rmap_map {A} (f : A -> option decimal) (g : A -> Z) l :
  (forall x, x ∈ l -> cents_of (f x) = Ok (g x)) -> rmap cents_of (map f l) = Ok (map g l).
Proof.
  induction l as [|x l IH]; intros H; [done|]. cbn [map rmap].
  rewrite (H x) by apply list_elem_of_here. cbn [rbind].
  rewrite IH by (intros; apply H; by apply list_elem_of_further). done.
Qed.

Lemma cents_sum_map {A} (f : A -> option decimal) (g : A -> Z) l :
  (forall x, x ∈ l -> cents_of (f x) = Ok (g x)) -> cents_sum (map f l) = Ok (zsum_of g l).
Proof. intros H. unfold cents_sum. by rewrite (rmap_map f g l H). Qed.

Lemma pay_key_inj p q :
  uuid_ok (pay_id p) -> uuid_ok (pay_id q) -> pay_key p = pay_key q -> pay_id p = pay_id q.
Proof. intros Hp Hq E. apply str_uuid_inj; [done|done|exact (f_equal snd E)]. Qed.

Lemma filter_filter_b {A} (f g : A -> bool) l :
  List.filter f (List.filter g l) = List.filter (fun x => g x && f x) l.
Proof.
  induction l as [|x l IH]; [done|]. cbn [List.filter].
  destruct (g x); cbn [List.filter andb]; [by rewrite IH|done].
Qed.

Lemma NoDup_map_coarser {A B C} (f : A -> B) (g : A -> C) l :
  (forall x y, x ∈ l -> y ∈ l -> g x = g y -> f x = f y) -> NoDup (map f l) -> NoDup (map g l).
Proof.
  induction l as [|x l IH]; intros H Hnd; [constructor|]. cbn [map] in *.
  apply NoDup_cons in Hnd as [Hx Hnd]. apply NoDup_cons. split.
  - intros (y & Hy & E)%elem_of_map_b. apply Hx, elem_of_map_b. exists y. split; [done|].
    apply H; [by apply list_elem_of_further|apply list_elem_of_here|done].
  - apply IH; [|done]. intros y z Hy Hz. apply H; by apply list_elem_of_further.
Qed.

(** What came before [p], over the live payments. *)
Lemma prior_paid_eq invoice d amt p :
  (forall q, q ∈ live_payments invoice d -> cents_of (pay_amount q) = Ok (amt q)) ->
  (forall q, q ∈ live_payments invoice d -> uuid_ok (pay_id q)) ->
  NoDup (map pay_id (live_payments invoice d)) -> p ∈ live_payments invoice d ->
  _prior_nonvoided_paid_cents invoice p d = Ok (prior amt (live_payments invoice d) p).
Proof.
  intros Hamt Hids Hnd Hp. unfold _prior_nonvoided_paid_cents, prior.
  assert (List.filter (fun q => key_lt (pay_key q) (pay_key p))
      (List.filter (fun q => negb (is_voided q) && negb (N.eqb (pay_id q) (pay_id p)))
         (invoice_payments invoice d)) =
    List.filter (fun q => key_lt (pay_key q) (pay_key p)) (live_payments invoice d)) as ->.
  { unfold live_payments. rewrite !filter_filter_b. apply List.filter_ext_in.
    intros q Hq%list_elem_of_In. destruct (is_voided q) eqn:Hv; [done|]. cbn [negb andb].
    destruct (N.eqb_spec (pay_id q) (pay_id p)) as [E|]; [|done].
    assert (q = p) as ->; [|by rewrite key_lt_irrefl].
    eapply (NoDup_map_inj pay_id); [exact Hnd| |done|done]. apply elem_of_filter_b. by rewrite Hv. }
  apply cents_sum_map. intros q Hq. apply Hamt. by apply elem_of_filter_b in Hq as [? _].
Qed.

(** What each live payment still finds on the invoice. *)
Lemma remaining_is invoice d amt total credited p :
  inv_status invoice <> void -> cents_of (inv_total invoice) = Ok total ->
  invoice_credited_cents invoice d = Ok credited ->
  (forall q, q ∈ live_payments invoice d -> cents_of (pay_amount q) = Ok (amt q)) ->
  (forall q, q ∈ live_payments invoice d -> uuid_ok (pay_id q)) ->
  NoDup (map pay_id (live_payments invoice d)) -> p ∈ live_payments invoice d ->
  remaining_ar_cents invoice p d =
    Ok (Z.max (total - credited - prior amt (live_payments invoice d) p) 0).
Proof.
  intros Hvoid Htotal Hcredited Hamt Hids Hnd Hp. unfold remaining_ar_cents.
  rewrite bool_decide_eq_false_2 by done. rewrite Htotal. cbn [rbind].
  rewrite (prior_paid_eq invoice d amt p) by done. cbn [rbind]. rewrite Hcredited. cbn [rbind].
  do 2 f_equal. lia.
Qed.

Lemma waterfall_live invoice d amt T :
  (forall q, q ∈ live_payments invoice d -> 0 <= amt q) ->
  (forall q, q ∈ live_payments invoice d -> uuid_ok (pay_id q)) ->
  NoDup (map pay_id (live_payments invoice d)) ->
  zsum_of (fun p => Z.min (amt p) (Z.max (T - prior amt (live_payments invoice d) p) 0))
    (live_payments invoice d) = Z.min (zsum_of amt (live_payments invoice d)) (Z.max T 0).
Proof.
  intros Hnn Hids Hnd. apply waterfall; [|by apply Forall_forall].
  apply (NoDup_map_coarser pay_id pay_key); [|done]. intros p q Hp Hq E. apply pay_key_inj; auto.
Qed.

(** the receivable is never over-applied.  Over the live payments of a
    non-void invoice (amounts not negative, identifiers distinct), the parts
    the payment rule credits to the receivable add up to all that was paid, or
    to what the invoice asks for after credits, whichever is less: together
    the entries settle the invoice exactly, in whatever order the rows were
    read. *)
Theorem payments_settle_receivable invoice d amt total credited
    (Hvoid : inv_status invoice <> void)
    (Htotal : cents_of (inv_total invoice) = Ok total)
    (Hcredited : invoice_credited_cents invoice d = Ok credited)
    (Hamt : forall p, p ∈ live_payments invoice d -> cents_of (pay_amount p) = Ok (amt p) /\ 0 <= amt p)
    (Hids : forall p, p ∈ live_payments invoice d -> uuid_ok (pay_id p))
    (Hnd : NoDup (map pay_id (live_payments invoice d))) :
  exists remaining : Payment -> Z,
    (forall p, p ∈ live_payments invoice d -> remaining_ar_cents invoice p d = Ok (remaining p)) /\
    zsum_of (fun p => Z.min (amt p) (remaining p)) (live_payments invoice d) =
      Z.min (zsum_of amt (live_payments invoice d)) (Z.max (total - credited) 0).
Proof.
  exists (fun p => Z.max (total - credited - prior amt (live_payments invoice d) p) 0). split.
  - intros p Hp. apply remaining_is; naive_solver.
  - apply waterfall_live; naive_solver.
Qed.

Lemma payments_settle_receivable_witness :
  exists remaining : Payment -> Z,
    zsum_of (fun p => Z.min (if N.eqb (pay_id p) 31 then 20000 else 500) (remaining p))
      (live_payments lined_invoice paid_db) = 10825.
Proof.
  destruct (payments_settle_receivable lined_invoice paid_db
    (fun p => if N.eqb (pay_id p) 31 then 20000 else 500) 10825 0) as (r & _ & H).
  - discriminate.
  - reflexivity.
  - vm_compute. reflexivity.
  - intros p Hp. vm_compute in Hp.
    repeat (apply elem_of_cons in Hp as [->|Hp]; [split; [reflexivity|discriminate]|]).
    by apply elem_of_nil in Hp.
  - intros p Hp. vm_compute in Hp. repeat (apply elem_of_cons in Hp as [->|Hp]; [reflexivity|]).
    by apply elem_of_nil in Hp.
  - apply (bool_decide_unpack _). vm_compute. exact I.
  - exists r. rewrite H. vm_compute. reflexivity.
Defined.

(** * Late-learned settlements *)

(** What a payment can take of the opening pool. *)
Definition takes (amt : Payment -> Z) (p : Payment) : Z := if is_voided p then 0 else amt p.

Lemma allocate_pool_spec amt pool late :
  0 <= pool ->
  (forall p, p ∈ late -> is_voided p = false -> cents_of (pay_amount p) = Ok (amt p) /\ 0 <= amt p) ->
  exists al, allocate_pool pool late = Ok al /\ map fst al = map pay_id late /\
    zsum_of snd al = Z.min pool (zsum_of (takes amt) late) /\
    Forall2 (fun kv p => 0 <= snd kv <= takes amt p) al late.
Proof.
  revert pool. induction late as [|p late IH]; intros pool Hpool Hamt.
  { exists []. split_and!; [done|done|cbn; lia|constructor]. }
  assert (forall q, q ∈ late -> is_voided q = false ->
    cents_of (pay_amount q) = Ok (amt q) /\ 0 <= amt q) as Hamt' by
    (intros q Hq; apply Hamt; by apply list_elem_of_further).
  assert (0 <= zsum_of (takes amt) late) as Hsum.
  { apply zsum_nonneg, Forall_map, Forall_forall. intros q Hq. unfold takes.
    destruct (is_voided q) eqn:E; [lia|]. by apply Hamt'. }
  cbn [allocate_pool map zsum]. unfold takes at 1 3. destruct (is_voided p) eqn:Ev.
  - destruct (IH pool Hpool Hamt') as (al & -> & H1 & H2 & H3). eexists. split; [reflexivity|].
    cbn [map fst snd zsum]. rewrite H1, H2. split_and!; [done|lia|].
    constructor; [|done]. cbn. unfold takes. rewrite Ev. lia.
  - destruct (Hamt p (list_elem_of_here _ _) Ev) as [Ea Hnn]. rewrite Ea. cbn [rbind].
    destruct (IH (pool - Z.min (amt p) pool) ltac:(lia) Hamt') as (al & -> & H1 & H2 & H3).
    eexists. split; [reflexivity|]. cbn [map fst snd zsum]. rewrite H1, H2. split_and!; [done|lia|].
    constructor; [|done]. cbn. unfold takes. rewrite Ev. lia.
Qed.

(** late-learned payments of a pre-cutover invoice never settle more than
    its opening balance.  When the amounts convert and are not negative, the
    allocation covers exactly the late payments, gives each between nothing
    and its own amount (nothing when it is voided), and hands out in total the
    opening balance or all that was paid, whichever is less. *)
Theorem late_allocation_exact invoice cutover d amt opening
    (Hopening : opening_balance_cents invoice cutover d = Ok opening)
    (Hamt : forall p, p ∈ invoice_payments invoice d -> is_voided p = false ->
       cents_of (pay_amount p) = Ok (amt p) /\ 0 <= amt p) :
  let late := List.filter (fun p => _is_late_era_settlement p true (Some cutover))
                (invoice_payments invoice d) in
  exists al, _late_era_allocation invoice cutover d = Ok al /\
    Permutation (map fst al) (map pay_id late) /\
    zsum_of snd al = Z.min (Z.max 0 opening) (zsum_of (takes amt) late) /\
    (forall k v, (k, v) ∈ al -> 0 <= v) /\
    (forall k v, (k, v) ∈ al -> exists p, p ∈ late /\ pay_id p = k /\ v <= takes amt p).
Proof.
  intros late. unfold _late_era_allocation. rewrite Hopening. cbn [rbind]. fold late.
  pose proof (merge_sort_Permutation late_le late) as Hp.
  destruct (allocate_pool_spec amt (Z.max 0 opening) (merge_sort late_le late))
    as (al & E & H1 & H2 & H3); [lia| |].
  { intros p Hpl. rewrite Hp in Hpl. apply elem_of_filter_b in Hpl as [Hpl _]. by apply Hamt. }
  assert (forall k v, (k, v) ∈ al -> exists p, p ∈ late /\ pay_id p = k /\ 0 <= v <= takes amt p) as Hall.
  { intros k v (i & Hi)%list_elem_of_lookup. destruct (Forall2_lookup_l _ _ _ _ _ H3 Hi) as (p & Hpi & Hv).
    exists p. split_and!; [|  |cbn in Hv; lia..].
    - rewrite <- Hp. by eapply list_elem_of_lookup_2.
    - assert (map fst al !! i = map pay_id (merge_sort late_le late) !! i) as Hk by (by rewrite H1).
      rewrite !list_lookup_fmap, Hi, Hpi in Hk. by injection Hk. }
  exists al. split_and!; [done| | | |].
  - rewrite H1. by apply Permutation_map.
  - rewrite H2. f_equal. apply zsum_perm, Permutation_map, Hp.
  - intros k v Hkv. destruct (Hall k v Hkv) as (p & _ & _ & Hv). lia.
  - intros k v Hkv. destruct (Hall k v Hkv) as (p & Hp1 & Hp2 & Hv). exists p. split_and!; [done|done|lia].
Qed.

Definition era_db : Db :=
  mk_db (db_gl paid_db)
    (mk_ops [lined_invoice] []
       [mk_payment 33%N 7%N (Some (DFinite 20000 (-2))) None None (Some 737000) None
          (Some (mk_datetime (740000 * usec_per_day) None)) None None] [] [] None 0 1 true).

Lemma late_allocation_exact_witness :
  exists al, _late_era_allocation lined_invoice 739000 era_db = Ok al /\ zsum_of snd al = 10825.
Proof.
  destruct (late_allocation_exact lined_invoice 739000 era_db (fun _ => 20000) 10825)
    as (al & E & _ & H & _).
  - vm_compute. reflexivity.
  - intros p Hp _. vm_compute in Hp. apply elem_of_cons in Hp as [->|Hp]; [split; [reflexivity|discriminate]|].
    by apply elem_of_nil in Hp.
  - exists al. split; [exact E|]. rewrite H. vm_compute. reflexivity.
Defined.

(** * Refunds *)

(** a refund hands back the customer's own money first.  For a positive
    refund, the part taken from the customer's credit lies between nothing and
    the refund, never exceeds the overpayment nor the credit actually on the
    ledger, and is the largest such part; the lines give exactly that part to
    the credit account and the rest to the reason's account, pay the whole
    amount out of the cash account, sum to zero and pass the engine's
    validation. *)
Theorem refund_split adjustment invoice settings cash_role amount overpayment on_ledger
    (Hpos : 0 < amount) :
  let from_credit := refund_from_credit amount overpayment on_ledger in
  let lines := refund_lines adjustment invoice settings cash_role amount from_credit in
  (0 <= from_credit <= amount) /\ from_credit <= Z.max 0 overpayment /\
  from_credit <= Z.max 0 on_ledger /\
  (forall x, x <= amount -> x <= overpayment -> x <= on_ledger -> x <= from_credit) /\
  _validate_balance lines = Ok tt /\
  exists debits cash, lines = debits ++ [cash] /\ pl_amount_cents cash = - amount /\
    pl_role cash = Some cash_role /\ zsum_of pl_amount_cents debits = amount /\
    (_reason_role settings (adj_reason adjustment) <> ROLE_CUSTOMER_CREDITS ->
       role_sum ROLE_CUSTOMER_CREDITS debits = from_credit).
Proof.
  intros fc lines.
  assert (0 <= fc <= amount) as Hfc by (unfold fc, refund_from_credit; lia).
  assert (zsum_of pl_amount_cents lines = 0 /\ Forall line_ok lines) as [Hz Hok].
  { unfold lines, refund_lines. destruct (Z.eqb_spec fc 0), (Z.eqb_spec (amount - fc) 0); cbn [app];
      (split; [cbn; lia|]); repeat first [apply Forall_nil_2|apply Forall_cons_2]; (split; cbn; [lia|done]). }
  split_and!; [lia|lia|unfold fc, refund_from_credit; lia..| |].
  - apply validate_balance_intro; [|done|done]. unfold lines, refund_lines.
    intros E. apply (f_equal length) in E. rewrite !length_app in E. cbn in E. lia.
  - unfold lines, refund_lines. rewrite app_assoc. eexists _, _. split; [reflexivity|].
    split_and!; [done|done| |].
    + destruct (Z.eqb_spec fc 0), (Z.eqb_spec (amount - fc) 0); cbn; lia.
    + intros Hne. apply String.eqb_neq in Hne.
      destruct (Z.eqb_spec fc 0), (Z.eqb_spec (amount - fc) 0);
        rewrite ?role_sum_app, ?role_sum_cons, ?role_sum_nil; cbn [role_is adjustment_line pl_role];
        rewrite ?Hne; cbn; lia.
Qed.

Lemma refund_split_witness :
  refund_from_credit 5000 3000 2000 = 2000 /\
  _validate_balance (refund_lines (mk_adjustment 9%N 7%N refund (Some (DFinite 5000 (-2))) None None None None)
     lined_invoice None ROLE_UNDEPOSITED 5000 2000) = Ok tt.
Proof.
  split; [reflexivity|].
  exact (proj1 (proj2 (proj2 (proj2 (proj2 (refund_split
    (mk_adjustment 9%N 7%N refund (Some (DFinite 5000 (-2))) None None None None) lined_invoice None
    ROLE_UNDEPOSITED 5000 3000 2000 ltac:(reflexivity))))))).
Defined.

(** the overpayment a refund looks at is not the one the payments booked.
    On a non-void invoice whose amounts convert and are not negative, the
    payment entries put [max 0 (paid - max 0 (total - credited))] on the
    customer's credit, while the refund rule computes
    [max 0 (paid - total - credited)]: credits enter with the wrong sign.  The
    refund never sees more than was booked, and sees less whenever the invoice
    has a credit and an overpayment. *)
Theorem refund_overpayment_gap invoice d amt total credited
    (Hvoid : inv_status invoice <> void)
    (Htotal : cents_of (inv_total invoice) = Ok total)
    (Hcredited : invoice_credited_cents invoice d = Ok credited)
    (Hamt : forall p, p ∈ live_payments invoice d -> cents_of (pay_amount p) = Ok (amt p) /\ 0 <= amt p)
    (Hsum : cents_of (sql_sum (map pay_amount (live_payments invoice d))) =
              Ok (zsum_of amt (live_payments invoice d)))
    (Hids : forall p, p ∈ live_payments invoice d -> uuid_ok (pay_id p))
    (Hnd : NoDup (map pay_id (live_payments invoice d)))
    (Hnn : 0 <= total) (Hcr : 0 <= credited) :
  exists (remaining : Payment -> Z) overpayment,
    (forall p, p ∈ live_payments invoice d -> remaining_ar_cents invoice p d = Ok (remaining p)) /\
    _refund_overpayment_cents invoice d = Ok overpayment /\
    let booked := zsum_of (fun p => amt p - Z.min (amt p) (remaining p)) (live_payments invoice d) in
    overpayment <= booked /\ (overpayment = booked <-> credited = 0 \/ booked = 0).
Proof.
  exists (fun p => Z.max (total - credited - prior amt (live_payments invoice d) p) 0).
  exists (Z.max (zsum_of amt (live_payments invoice d) - total - credited) 0). split_and!.
  - intros p Hp. apply remaining_is; naive_solver.
  - unfold _refund_overpayment_cents. fold (live_payments invoice d). rewrite Hsum. cbn [rbind].
    rewrite bool_decide_eq_false_2 by done. rewrite Htotal. cbn [rbind]. by rewrite Hcredited.
  - assert (0 <= zsum_of amt (live_payments invoice d)) as Hpos.
    { apply zsum_nonneg, Forall_map, Forall_forall. intros p Hp. by apply Hamt. }
    cbn zeta. rewrite zsum_of_sub, (waterfall_live invoice d amt (total - credited)); [lia|naive_solver..].
Qed.

(** A 100.00 invoice, a 30.00 credit memo and a 100.00 payment: 30.00 is booked
    as the customer's credit and the refund rule sees no overpayment. *)
Definition memo_db : Db :=
  mk_db (db_gl paid_db)
    (mk_ops [] [] [mk_payment 31%N 7%N (Some (DFinite 10000 (-2))) None None None None None None None]
       [mk_adjustment 41%N 7%N credit_memo (Some (DFinite 3000 (-2))) None None None None] [] None 0 1 true).
Definition memo_invoice : Invoice :=
  mk_invoice 7%N "INV-7" paid (Some (DFinite 10000 (-2))) None None None None "co" None None None None None None false None "standard" None None None false.

Lemma refund_overpayment_gap_witness :
  exists remaining : Payment -> Z,
    zsum_of (fun p => 10000 - Z.min 10000 (remaining p)) (live_payments memo_invoice memo_db) = 3000 /\
    _refund_overpayment_cents memo_invoice memo_db = Ok 0.
Proof.
  assert (forall p, p ∈ live_payments memo_invoice memo_db ->
    p = mk_payment 31%N 7%N (Some (DFinite 10000 (-2))) None None None None None None None) as Hp.
  { intros p Hp. vm_compute in Hp. apply elem_of_cons in Hp as [->|Hp]; [reflexivity|].
    by apply elem_of_nil in Hp. }
  destruct (refund_overpayment_gap memo_invoice memo_db (fun _ => 10000) 10000 3000)
    as (r & o & H1 & H2 & _).
  - discriminate.
  - reflexivity.
  - vm_compute. reflexivity.
  - intros p E%Hp. rewrite E. split; [reflexivity|discriminate].
  - vm_compute. reflexivity.
  - intros p E%Hp. rewrite E. reflexivity.
  - apply (bool_decide_unpack _). vm_compute. exact I.
  - discriminate.
  - discriminate.
  - exists r. split; [|vm_compute; reflexivity].
    assert (live_payments memo_invoice memo_db =
      [mk_payment 31%N 7%N (Some (DFinite 10000 (-2))) None None None None None None None]) as E by (vm_compute; reflexivity).
    rewrite E in *. specialize (H1 _ (list_elem_of_here _ _)). vm_compute in H1.
    cbn [map zsum]. injection H1 as H1. rewrite <- H1. reflexivity.
Defined.
