(* ===== verification/CashBasis.v ===== *)
(** [modules/ledger/cash_basis.py]: the report-time split of a payment event
    over an invoice's revenue, tax and rounding components. *)

From S2P Require Import Prelude PyStr Dates Money Models PayPeriods Keys Coa Engine EngineInv EngineSpec Service RulesBase Opening Issuance LinesSpec.
From Stdlib Require Import QArith Qround Lqa.

Local Open Scope Z_scope.

Record RevenueComponent : Type := mk_component {
  rc_cents : Z;
  rc_role : option string;
  rc_account_id : option uuid;
  rc_memo : option string
}.

Definition component_of (line : PostingLine) : RevenueComponent :=
  mk_component (- pl_amount_cents line) (pl_role line) (pl_account_id line) (pl_memo line).

Definition invoice_components (invoice : Invoice) (d : Db) : result (list RevenueComponent) :=
  let! lines := build_issuance_lines invoice d in
  Ok (map component_of (List.filter (fun l => pl_amount_cents l <? 0) lines)).

Definition prorate_event_cents (components : list Z) (event_cents invoice_total_cents : Z)
  : result (list Z) :=
  if (invoice_total_cents <=? 0) || match components with [] => true | _ => false end
  then Ok (replicate (length components) 0)
  else
    let recognized := if 0 <=? event_cents then Z.min event_cents invoice_total_cents
                      else Z.max event_cents (- invoice_total_cents) in
    if recognized =? 0 then Ok (replicate (length components) 0)
    else allocate (PyInt recognized) (map PyInt components).

(** [zip(components, parts, strict=True)] *)
Definition zip_strict {A B} (xs : list A) (ys : list B) : result (list (A * B)) :=
  if Nat.eqb (length xs) (length ys) then Ok (zip xs ys) else Err ValueError.

Definition prorate_components (components : list RevenueComponent)
    (event_cents invoice_total_cents : Z) : result (list (RevenueComponent * Z)) :=
  let! parts := prorate_event_cents (map rc_cents components) event_cents invoice_total_cents in
  zip_strict components parts.

(** * Lemmas *)

(** The part of an event that is recognized. *)
Definition recognized (event total : Z) : Z := Z.max (- total) (Z.min event total).

Lemma norm_ints ws : Forall (fun w => 0 <= w) ws -> rmap norm_weight (map PyInt ws) = Ok (map inject_Z ws).
Proof.
  induction 1 as [|w ws Hw _ IH]; [done|]. cbn [map rmap]. rewrite IH. unfold norm_weight. cbn [weight_fraction rbind].
  assert (Qle_bool 0 (inject_Z w) = true) as ->; [|done].
  apply Qle_bool_iff. change 0%Q with (inject_Z 0). by rewrite <- Zle_Qle.
Qed.

Lemma qsum_ints ws : (qsum (map inject_Z ws) == inject_Z (zsum ws))%Q.
Proof.
  induction ws as [|w ws IH]; [reflexivity|]. cbn [map qsum foldr zsum]. unfold qsum in IH.
  rewrite IH, inject_Z_plus. reflexivity.
Qed.

Lemma positive_sum ws : ws <> [] -> Forall (fun w => 0 < w) ws -> 0 < zsum ws.
Proof.
  intros Hne H. destruct H as [|w ws Hw H]; [done|]. cbn [zsum].
  assert (0 <= zsum ws); [|lia]. apply zsum_nonneg. eapply Forall_impl; [exact H|]. cbn. lia.
Qed.

(** With whole-cent weights a part is within one cent of its share. *)
Lemma int_share_close ws t i w p :
  map inject_Z ws <> [] -> ~ (qsum (map inject_Z ws) == 0)%Q -> 0 < zsum ws ->
  map inject_Z ws !! i = Some (inject_Z w) ->
  largest_remainder t (map inject_Z ws) (qsum (map inject_Z ws)) !! i = Some p ->
  Z.abs (p * zsum ws - t * w) < zsum ws.
Proof.
  intros Hne' Hq HW Hi Hp.
  destruct (largest_remainder_close t _ _ i _ p Hne' Hq (Qeq_refl _) Hi Hp) as [[B1 B2] _].
  rewrite qsum_ints in B1, B2.
  assert (0 < inject_Z (zsum ws))%Q as HWq by (change 0%Q with (inject_Z 0); by rewrite <- Zlt_Qlt).
  set (W := inject_Z (zsum ws)) in *.
  assert (inject_Z t * inject_Z w / W * W == inject_Z t * inject_Z w)%Q as E by (field; lra).
  set (share := (inject_Z t * inject_Z w / W)%Q) in *. clearbody share.
  pose proof (Qmult_lt_compat_r _ _ W HWq B1) as D1. pose proof (Qmult_lt_compat_r _ _ W HWq B2) as D2.
  assert (inject_Z t * inject_Z w - W < inject_Z p * W)%Q as C1 by lra.
  assert (inject_Z p * W < inject_Z t * inject_Z w + W)%Q as C2 by lra.
  assert (t * w - zsum ws < p * zsum ws) as Z1.
  { rewrite Zlt_Qlt. unfold Z.sub. rewrite inject_Z_plus, inject_Z_opp, !inject_Z_mult. exact C1. }
  assert (p * zsum ws < t * w + zsum ws) as Z2.
  { rewrite Zlt_Qlt. rewrite inject_Z_plus, !inject_Z_mult. exact C2. }
  lia.
Qed.

(** Proration over positive weights succeeds and is exact. *)
Lemma prorate_sum ws event total :
  ws <> [] -> Forall (fun w => 0 < w) ws -> 0 < total ->
  exists parts, prorate_event_cents ws event total = Ok parts /\ length parts = length ws /\
    zsum parts = recognized event total /\
    (forall i w p, ws !! i = Some w -> parts !! i = Some p ->
       Z.abs (p * zsum ws - recognized event total * w) < zsum ws).
Proof.
  intros Hne Hpos Htot. unfold prorate_event_cents. rewrite (proj2 (Z.leb_gt _ _) Htot).
  destruct ws as [|w0 ws0] eqn:Ews; [done|]. rewrite <- Ews in *. cbn [orb].
  assert ((if 0 <=? event then Z.min event total else Z.max event (- total)) = recognized event total) as ->.
  { unfold recognized. destruct (Z.leb_spec 0 event); lia. }
  pose proof (positive_sum ws ltac:(by rewrite Ews) Hpos) as HW.
  set (r := recognized event total).
  destruct (Z.eqb_spec r 0) as [Hr|Hr].
  - exists (replicate (length ws) 0). split; [done|]. rewrite length_replicate, zsum_replicate.
    split_and!; [done|lia|]. intros i w p _ [-> _]%lookup_replicate. rewrite Hr. exact HW.
  - assert (Forall (fun w => 0 <= w) ws) as Hnn by (eapply Forall_impl; [exact Hpos|]; cbn; lia).
    assert (~ (qsum (map inject_Z ws) == 0)%Q) as Hq.
    { rewrite qsum_ints. intros E. assert (zsum ws = 0) by (apply inject_Z_injective; exact E). lia. }
    assert (map inject_Z ws <> []) as Hne' by (by rewrite Ews).
    rewrite (allocate_cases r (map PyInt ws) (map inject_Z ws)) by (first [by apply norm_ints|done|by rewrite Ews]).
    assert (forall t, zsum (largest_remainder t (map inject_Z ws) (qsum (map inject_Z ws))) = t) as Hsum
      by (intros t; apply largest_remainder_sum; [done|done|reflexivity]).
    assert (forall t, length (largest_remainder t (map inject_Z ws) (qsum (map inject_Z ws))) = length ws) as Hlen
      by (intros t; rewrite length_largest_remainder by (done || reflexivity); apply length_map).
    eexists. split; [reflexivity|]. destruct (Z.ltb_spec r 0).
    + rewrite length_map, Hlen, zsum_opp, Hsum. split_and!; [done|lia|].
      intros i w p Hi Hp. rewrite list_lookup_fmap in Hp. apply fmap_Some in Hp as (q & Hq' & ->).
      pose proof (int_share_close ws (- r) i w q Hne' Hq HW ltac:(by rewrite list_lookup_fmap, Hi) Hq'). lia.
    + rewrite Hlen, Hsum. split_and!; [done..|]. intros i w p Hi Hp.
      apply (int_share_close ws r i w p Hne' Hq HW); [by rewrite list_lookup_fmap, Hi|done].
Qed.

Lemma revenue_lines_sum settings invoice ils d pls c :
  revenue_lines settings invoice ils d = Ok (pls, c) -> zsum_of pl_amount_cents pls = - c.
Proof.
  revert pls c. induction ils as [|il ils IH]; intros pls c H; cbn [revenue_lines] in H; minv H; [done|].
  destruct a0 as [pls0 c0]. specialize (IH _ _ H1). cbn [fst snd] in *.
  destruct (a =? 0); minv H; [done|]. cbn [map zsum]. rewrite IH.
  assert (pl_amount_cents (revenue_line settings invoice il a d) = - a) as ->; [|lia].
  unfold revenue_line. by destruct (_revenue_account_id_for _ _ _ _).
Qed.

(** Whatever the issuance lines are, they balance and open with the receivable. *)
Lemma issuance_lines_Ok invoice d lines total :
  build_issuance_lines invoice d = Ok lines -> cents_of (inv_total invoice) = Ok total -> total <> 0 ->
  zsum_of pl_amount_cents lines = 0 /\ exists ar rest, lines = ar :: rest /\ pl_amount_cents ar = total.
Proof.
  unfold build_issuance_lines. intros H Ht Hne. rewrite Ht in H. cbn [rbind] in H.
  rewrite (proj2 (Z.eqb_neq _ _) Hne) in H. minv H. destruct a as [pls c].
  pose proof (revenue_lines_sum _ _ _ _ _ _ H0) as Hz. cbn [fst snd] in *.
  destruct (Z.eqb_spec (total - (c + a0)) 0) as [E|E];
    [|destruct (MAX_RESIDUAL_CENTS <? _); [done|]]; minv H;
    (split; [|eauto]); cbn [map zsum pl_amount_cents]; rewrite !map_app, !zsum_app, Hz;
    destruct (Z.eqb_spec a0 0); cbn; lia.
Qed.

Lemma negative_part l :
  zsum (map Z.opp (List.filter (fun x => x <? 0) l)) = zsum (List.filter (fun x => negb (x <? 0)) l) - zsum l.
Proof. induction l as [|x l IH]; [done|]. cbn. destruct (x <? 0); cbn; lia. Qed.

Lemma filter_map_amounts lines :
  map rc_cents (map component_of (List.filter (fun l => pl_amount_cents l <? 0) lines)) =
  map Z.opp (List.filter (fun x => x <? 0) (map pl_amount_cents lines)).
Proof. induction lines as [|l lines IH]; [done|]. cbn. destruct (_ <? 0); cbn; by rewrite <- IH. Qed.

(** The components of an invoice that composes cover its total. *)
Lemma components_cover invoice d lines total :
  build_issuance_lines invoice d = Ok lines -> cents_of (inv_total invoice) = Ok total -> 0 < total ->
  exists components, invoice_components invoice d = Ok components /\ components <> [] /\
    Forall (fun c => 0 < rc_cents c) components /\ total <= zsum_of rc_cents components.
Proof.
  intros Hlines Htotal Hpos.
  destruct (issuance_lines_Ok invoice d lines total Hlines Htotal ltac:(lia)) as (Hz & ar & rest & El & Har).
  set (components := map component_of (List.filter (fun l => pl_amount_cents l <? 0) lines)).
  assert (total <= zsum_of rc_cents components) as Hcover.
  { unfold components. rewrite filter_map_amounts, negative_part, Hz, El. cbn [map List.filter].
    destruct (Z.ltb_spec (pl_amount_cents ar) 0); [lia|]. cbn [negb zsum].
    assert (0 <= zsum (List.filter (fun x => negb (x <? 0)) (map pl_amount_cents rest))); [|lia].
    apply zsum_nonneg, Forall_forall. intros x [_ Hx]%elem_of_filter_b. lia. }
  exists components. split_and!; [unfold invoice_components; by rewrite Hlines| | |done].
  - intros E. rewrite E in Hcover. cbn in Hcover. lia.
  - unfold components. apply Forall_map, Forall_forall. intros l [_ Hl]%elem_of_filter_b. cbn. lia.
Qed.

(** Prorating over such components succeeds. *)
Lemma prorate_components_Ok components event total :
  components <> [] -> Forall (fun c => 0 < rc_cents c) components -> 0 < total ->
  exists parts, prorate_components components event total = Ok (zip components parts) /\
    length parts = length components /\ zsum parts = recognized event total /\
    (forall i c p, components !! i = Some c -> parts !! i = Some p ->
       Z.abs (p * zsum_of rc_cents components - zsum parts * rc_cents c) < zsum_of rc_cents components).
Proof.
  intros Hne Hcpos Hpos. assert (map rc_cents components <> []) as Hne' by (by destruct components).
  destruct (prorate_sum (map rc_cents components) event total Hne' ltac:(by apply Forall_map) Hpos)
    as (parts & Hp & Hlen & Hsum & Hclose).
  rewrite length_map in Hlen. exists parts. split_and!; try done.
  - unfold prorate_components, zip_strict. rewrite Hp. cbn [rbind]. by rewrite Hlen, Nat.eqb_refl.
  - intros i c p Hc Hpi. rewrite Hsum. apply (Hclose i); [|done]. by rewrite list_lookup_fmap, Hc.
Qed.

(** * Properties *)

(** cash-basis recognition is exact.  For an invoice with a positive total
    whose issuance lines compose, the components exist, are all positive and
    cover the total; and any payment event (or refund, negative) prorates over
    them without error into one part per component, summing to exactly the
    event clamped to the invoice total, each part within one cent of its
    proportional share: nothing beyond the total is ever recognized and not a
    cent is lost. *)
Theorem cash_proration_exact invoice d lines total event
    (Hlines : build_issuance_lines invoice d = Ok lines)
    (Htotal : cents_of (inv_total invoice) = Ok total) (Hpos : 0 < total) :
  exists components parts, invoice_components invoice d = Ok components /\
    components <> [] /\ Forall (fun c => 0 < rc_cents c) components /\
    total <= zsum_of rc_cents components /\
    prorate_components components event total = Ok (zip components parts) /\
    length parts = length components /\
    zsum parts = Z.max (- total) (Z.min event total) /\
    (forall i c p, components !! i = Some c -> parts !! i = Some p ->
       Z.abs (p * zsum_of rc_cents components - zsum parts * rc_cents c) < zsum_of rc_cents components).
Proof.
  destruct (components_cover invoice d lines total Hlines Htotal Hpos) as (components & Hc & Hne & Hcpos & Hcover).
  destruct (prorate_components_Ok components event total Hne Hcpos Hpos) as (parts & Hp & Hlen & Hsum & Hclose).
  exists components, parts. split_and!; done.
Qed.

Lemma cash_proration_exact_witness :
  exists components parts, invoice_components lined_invoice lined_db = Ok components /\
    prorate_components components 5000 10825 = Ok (zip components parts) /\ zsum parts = 5000.
Proof.
  destruct (cash_proration_exact lined_invoice lined_db
    (match build_issuance_lines lined_invoice lined_db with Ok l => l | Err _ => [] end) 10825 5000)
    as (components & parts & H1 & _ & _ & _ & H2 & _ & H3 & _).
  - vm_compute. reflexivity.
  - reflexivity.
  - reflexivity.
  - exists components, parts. split_and!; [exact H1|exact H2|exact H3].
Defined.
