(* ===== verification/RulesSafe.v ===== *)
(** Every posting rule preserves the journal invariant and only appends to
    history, whatever branch it takes and however it ends. *)

From S2P Require Import Prelude PyStr Dates Money Models PayPeriods Keys Coa Engine EngineInv EngineSpec Service RulesBase Opening Issuance Payments Adjustments.

Local Open Scope Z_scope.

(** What a relation between the states before and after must satisfy for
    every rule to keep it: the rules touch the tables only through the engine
    and the role top-up. *)
Class LedgerRelation `{W : World} (R : Db -> Db -> Prop) : Prop := {
  lr_preorder :: PreOrder R;
  lr_post : forall ev ov, keeps R (post_for_event ev ov);
  lr_reverse : forall u w cb ov, keeps R (reverse_entry u w cb ov);
  lr_grow : forall d d', accounts_grow d d' -> R d d'
}.

Section Safe.
Context `{W : World} (R : Db -> Db -> Prop) `{!LedgerRelation R}.

Lemma ensure_role_keeps c role : keeps R (ensure_role_account c role).
Proof. intros d. apply lr_grow, ensure_role_account_grows. Qed.

Lemma resolve_lines_keeps c lines : keeps R (_resolve_lines c lines).
Proof. intros d. apply lr_grow, resolve_lines_grows. Qed.

Lemma pure_keeps {A} (f : Db -> result A) : keeps R (fun d => (f d, d)).
Proof. intros d. reflexivity. Qed.

Lemma resolve_or_none_keeps c role : keeps R (resolve_role_account_or_none c role).
Proof.
  intros d. unfold resolve_role_account_or_none. case_if; [reflexivity|].
  unfold mseq. pose proof (resolve_role_account_reads c role d) as H.
  destruct (resolve_role_account c role d) as [[a|e] d1]; cbn in *; by subst.
Qed.

Ltac keeps_auto :=
  repeat first
    [ apply keeps_return; exact _ | apply keeps_raise; exact _ | apply keeps_lift; exact _
    | apply keeps_reads; exact _ | apply pure_keeps | apply lr_post | apply lr_reverse
    | apply ensure_role_keeps | apply resolve_lines_keeps | apply resolve_or_none_keeps
    | assumption
    | match goal with H : forall _, _ |- keeps _ _ => apply H end
    | apply keeps_seq; [exact _| |intros ?] | apply keeps_catch; [exact _| |]
    | apply keeps_for; [exact _|intros ? _]
    | match goal with
      | |- keeps _ (match ?x with _ => _ end) => destruct x
      | |- keeps _ (let '(_, _) := ?x in _) => destruct x
      end ].

Lemma post_opening_balance_keeps inv actor : keeps R (post_opening_balance inv actor).
Proof. unfold post_opening_balance. keeps_auto. Qed.
Lemma settle_opening_on_void_keeps inv actor : keeps R (settle_opening_on_void inv actor).
Proof. unfold settle_opening_on_void. keeps_auto. Qed.
Lemma post_invoice_issuance_keeps inv actor : keeps R (post_invoice_issuance inv actor).
Proof.
  pose proof (post_opening_balance_keeps inv actor). unfold post_invoice_issuance. keeps_auto.
Qed.
Lemma repost_invoice_issuance_keeps inv actor : keeps R (repost_invoice_issuance inv actor).
Proof.
  pose proof (post_opening_balance_keeps inv actor).
  pose proof (post_invoice_issuance_keeps inv actor). unfold repost_invoice_issuance. keeps_auto.
Qed.
Lemma reverse_invoice_issuance_keeps inv actor : keeps R (reverse_invoice_issuance inv actor).
Proof. unfold reverse_invoice_issuance. keeps_auto. Qed.
Lemma build_payment_lines_keeps p inv : keeps R (build_payment_lines p inv).
Proof. unfold build_payment_lines. keeps_auto. Qed.
Lemma post_era_settlement_keeps p inv cents actor : keeps R (post_era_settlement p inv cents actor).
Proof. unfold post_era_settlement. keeps_auto. Qed.
Lemma opening_payment_void_keeps p inv actor : keeps R (_post_opening_payment_void p inv actor).
Proof. unfold _post_opening_payment_void. keeps_auto. Qed.
Lemma reverse_fallback_keeps actor fb u : keeps R (_reverse actor fb u).
Proof. unfold _reverse. keeps_auto. Qed.
Lemma repost_keeps actor fb inv p lines : keeps R (_repost actor fb inv p lines).
Proof. unfold _repost. keeps_auto. Qed.
Lemma reverse_all_keeps actor fb keep l : keeps R (reverse_all actor fb keep l).
Proof.
  pose proof (reverse_fallback_keeps actor fb). unfold reverse_all. keeps_auto.
Qed.
Lemma resettle_payment_keeps actor fb inv era cut alloc p :
  keeps R (resettle_payment actor fb inv era cut alloc p).
Proof.
  pose proof (reverse_all_keeps actor fb) as H1. pose proof (opening_payment_void_keeps p inv actor) as H2.
  pose proof (post_era_settlement_keeps p inv) as H3. pose proof (build_payment_lines_keeps p inv) as H4.
  pose proof (repost_keeps actor fb inv p) as H5.
  unfold resettle_payment. keeps_auto.
Qed.
Lemma resettle_keeps inv actor fb : keeps R (resettle_invoice_payments inv actor fb).
Proof.
  pose proof (resettle_payment_keeps actor fb inv). unfold resettle_invoice_payments. keeps_auto.
Qed.
Lemma post_payment_received_keeps p inv actor : keeps R (post_payment_received p inv actor).
Proof.
  pose proof (resettle_keeps inv actor). pose proof (build_payment_lines_keeps p inv).
  unfold post_payment_received. keeps_auto.
Qed.
Lemma post_credit_memo_keeps a inv actor : keeps R (post_credit_memo a inv actor).
Proof. unfold post_credit_memo. keeps_auto. Qed.
Lemma credit_balance_keeps c cust : keeps R (customer_credit_balance_cents c cust).
Proof. unfold customer_credit_balance_cents. keeps_auto. Qed.
Lemma post_refund_keeps a inv actor : keeps R (post_refund a inv actor).
Proof.
  pose proof (credit_balance_keeps (inv_company_id inv) (inv_customer_id inv)).
  unfold post_refund. keeps_auto.
Qed.
Lemma post_credit_application_keeps a inv actor : keeps R (post_credit_application a inv actor).
Proof. unfold post_credit_application. keeps_auto. Qed.
Lemma reverse_invoice_adjustments_keeps inv actor : keeps R (reverse_invoice_adjustments inv actor).
Proof. unfold reverse_invoice_adjustments. keeps_auto. Qed.
Lemma post_expense_recorded_keeps x actor : keeps R (post_expense_recorded x actor).
Proof. unfold post_expense_recorded. keeps_auto. Qed.
Lemma repost_expense_keeps x actor : keeps R (repost_expense x actor).
Proof. unfold repost_expense, reverse_if_live. keeps_auto. Qed.
End Safe.

(** The rules preserve the journal guarantee. *)
#[export] Instance rely_ledger_relation `{WO : WorldOk} : LedgerRelation rely.
Proof.
  split; [apply _| | |].
  - intros ev ov. apply post_racing_rely. intros _ d. reflexivity.
  - intros u w cb ov. apply reverse_racing_rely. intros d. reflexivity.
  - intros d d' H. by apply journal_frame_rely, accounts_grow_frame.
Qed.

(** The rules write no operational row. *)
Definition same_ops (d d' : Db) : Prop := db_ops d' = db_ops d.

#[export] Instance same_ops_preorder : PreOrder same_ops.
Proof. split; [done|]. intros a b c H1 H2. unfold same_ops in *. congruence. Qed.

(** A relation that the primitive writes of the engine keep, the inserts at
    least for the dates and back-references [allowed]. *)
Section Primitive.
Context `{W : World} (R : Db -> Db -> Prop) `{!PreOrder R}.
Context (allowed : date -> option uuid -> Prop).
Context (Hinsert : forall c w st si key rv cb res, allowed w rv -> keeps R (_insert_entry c w st si key rv cb res)).
Context (Hlock : forall c w ov cb ctx, keeps R (_check_period_lock c w ov cb ctx)).
Context (Hgrow : forall d d', accounts_grow d d' -> R d d').
Context (Hmark : forall p r, keeps R (mwrite (set_gl (set_entries (update_where p (mark_reversed r)))))).

Lemma post_keeps_allowed ev ov : allowed (ev_effective_at ev) None -> keeps R (post_for_event ev ov).
Proof using All.
  intros Hev. unfold post_for_event, post_for_event_racing.
  apply keeps_seq; [exact _|apply keeps_lift, _|intros _].
  apply keeps_seq; [exact _|intros d; apply Hgrow, resolve_lines_grows|intros res].
  apply keeps_seq; [exact _|apply keeps_lift, _|intros ch].
  apply keeps_seq; [exact _|apply keeps_lift, _|intros p].
  generalize false as lc. induction _MAX_KEY_ATTEMPTS as [|fuel IH]; intros lc; cbn [post_attempts];
    [apply keeps_raise, _|].
  apply keeps_seq; [exact _|apply keeps_reads, _|intros seq].
  apply keeps_seq; [exact _|apply keeps_reads, _|intros [e|]]; [apply keeps_return, _|].
  apply keeps_seq; [exact _|destruct lc; [apply keeps_return, _|apply Hlock]|intros _].
  apply keeps_seq; [exact _|intros d; reflexivity|intros _].
  apply keeps_catch; [exact _|by apply Hinsert|].
  apply keeps_seq; [exact _|apply keeps_reads, _|intros [c|]]; [|apply keeps_raise, _].
  case_decide; [apply keeps_return, _|apply IH].
Qed.

Lemma reverse_keeps_allowed u w cb ov :
  (forall w' u', allowed w' (Some u')) -> keeps R (reverse_entry u w cb ov).
Proof using All.
  intros Hu. unfold reverse_entry, reverse_entry_racing.
  apply keeps_seq; [exact _|apply keeps_reads, _|intros [e|]]; [|apply keeps_raise, _].
  case_decide.
  { apply keeps_seq; [exact _|apply keeps_reads, _|intros [x|]];
      [apply keeps_return, _|apply keeps_raise, _]. }
  apply keeps_seq; [exact _|apply Hlock|intros _].
  apply keeps_seq; [exact _|apply keeps_reads, _|intros lines].
  apply keeps_seq; [exact _|intros d; reflexivity|intros _].
  apply keeps_seq; [exact _| |intros [r b]].
  { apply keeps_catch; [exact _| |].
    - apply keeps_seq; [exact _|by apply Hinsert|intros r; apply keeps_return, _].
    - apply keeps_seq; [exact _|apply keeps_reads, _|intros [x|]];
        [apply keeps_return, _|apply keeps_raise, _]. }
  destruct b; cbn [snd fst]; [|apply keeps_return, _].
  apply keeps_seq; [exact _|apply Hmark|intros _; apply keeps_return, _].
Qed.

Lemma ledger_relation_intro : (forall w rv, allowed w rv) -> LedgerRelation R.
Proof using All.
  intros Hall. split; [apply _| | |done].
  - intros ev ov. by apply post_keeps_allowed.
  - intros u w cb ov. by apply reverse_keeps_allowed.
Qed.
End Primitive.

(** The period check only ever adds an audit row. *)
Lemma check_lock_keeps (R : Db -> Db -> Prop) `{!PreOrder R} c w ov cb ctx :
  (forall d f, R d (set_gl (set_audit f) d)) -> keeps R (_check_period_lock c w ov cb ctx).
Proof.
  intros H. unfold _check_period_lock. apply keeps_seq; [exact _|apply keeps_reads, _|].
  intros [lock|]; [|apply keeps_return, _].
  repeat case_if; [apply keeps_return, _|apply keeps_raise, _|]. intros d. apply H.
Qed.

#[export] Instance same_ops_ledger_relation `{W : World} : LedgerRelation same_ops.
Proof.
  apply (ledger_relation_intro _ (fun _ _ => True)); [| | | |done].
  - intros c w st si key rv cb res _ d. unfold _insert_entry, same_ops. by case_if.
  - intros. by apply check_lock_keeps; [apply _|].
  - intros d d' H. apply H.
  - intros p r d. done.
Qed.

(** The rules never touch the settings. *)
Definition same_settings (d d' : Db) : Prop := gl_settings (db_gl d') = gl_settings (db_gl d).

#[export] Instance same_settings_preorder : PreOrder same_settings.
Proof. split; [done|]. intros a b c H1 H2. unfold same_settings in *. congruence. Qed.

#[export] Instance same_settings_ledger_relation `{W : World} : LedgerRelation same_settings.
Proof.
  apply (ledger_relation_intro _ (fun _ _ => True)); [| | | |done].
  - intros c w st si key rv cb res _ d. unfold _insert_entry, same_settings. by case_if.
  - intros. by apply check_lock_keeps; [apply _|].
  - intros d d' H. apply H.
  - intros p r d. done.
Qed.

(** * Properties *)

(** Every entry point of the posting rules. *)
Inductive rule_call : Type :=
  | CallIssuance (invoice : Invoice) (actor : option string)
  | CallRepostIssuance (invoice : Invoice) (actor : option string)
  | CallReverseIssuance (invoice : Invoice) (actor : option string)
  | CallOpeningBalance (invoice : Invoice) (actor : option string)
  | CallSettleOpeningOnVoid (invoice : Invoice) (actor : option string)
  | CallPaymentReceived (payment : Payment) (invoice : Invoice) (actor : option string)
  | CallResettle (invoice : Invoice) (actor : option string) (fallback : option date)
  | CallCreditMemo (adjustment : InvoiceAdjustment) (invoice : Invoice) (actor : option string)
  | CallRefund (adjustment : InvoiceAdjustment) (invoice : Invoice) (actor : option string)
  | CallCreditApplication (adjustment : InvoiceAdjustment) (invoice : Invoice) (actor : option string)
  | CallReverseAdjustments (invoice : Invoice) (actor : option string)
  | CallExpense (expense : Expense) (actor : option string)
  | CallRepostExpense (expense : Expense) (actor : option string).

Definition run_rule `{W : World} (c : rule_call) : M Db unit :=
  match c with
  | CallIssuance i a => post_invoice_issuance i a
  | CallRepostIssuance i a => repost_invoice_issuance i a
  | CallReverseIssuance i a => reverse_invoice_issuance i a
  | CallOpeningBalance i a => post_opening_balance i a ;;; mreturn tt
  | CallSettleOpeningOnVoid i a => settle_opening_on_void i a
  | CallPaymentReceived p i a => post_payment_received p i a ;;; mreturn tt
  | CallResettle i a fb => resettle_invoice_payments i a fb
  | CallCreditMemo x i a => post_credit_memo x i a ;;; mreturn tt
  | CallRefund x i a => post_refund x i a ;;; mreturn tt
  | CallCreditApplication x i a => post_credit_application x i a ;;; mreturn tt
  | CallReverseAdjustments i a => reverse_invoice_adjustments i a
  | CallExpense x a => post_expense_recorded x a ;;; mreturn tt
  | CallRepostExpense x a => repost_expense x a
  end.

Definition run_rules `{W : World} (calls : list rule_call) (d : Db) : Db :=
  foldl (fun d c => snd (run_rule c d)) d calls.

Lemma run_rule_keeps `{W : World} (R : Db -> Db -> Prop) `{!LedgerRelation R} c :
  keeps R (run_rule c).
Proof.
  destruct c; unfold run_rule; cbv beta iota;
    lazymatch goal with |- keeps _ (mseq _ _) => apply keeps_seq; [exact _| |intros _; apply keeps_return, _]
                      | |- _ => idtac end.
  - apply post_invoice_issuance_keeps, _.
  - apply repost_invoice_issuance_keeps, _.
  - apply reverse_invoice_issuance_keeps, _.
  - apply post_opening_balance_keeps, _.
  - apply settle_opening_on_void_keeps, _.
  - apply post_payment_received_keeps, _.
  - apply resettle_keeps, _.
  - apply post_credit_memo_keeps, _.
  - apply post_refund_keeps, _.
  - apply post_credit_application_keeps, _.
  - apply reverse_invoice_adjustments_keeps, _.
  - apply post_expense_recorded_keeps, _.
  - apply repost_expense_keeps, _.
Qed.

Lemma run_rules_keeps `{W : World} (R : Db -> Db -> Prop) `{!LedgerRelation R} calls d :
  R d (run_rules calls d).
Proof.
  revert d. induction calls as [|c calls IH]; intros d; [reflexivity|].
  etrans; [apply (run_rule_keeps R c)|apply IH].
Qed.

(** C5: whatever sequence of posting rules runs, on whatever invoices,
    payments, adjustments and expenses, succeeding or failing midway, a sound
    journal stays sound: every entry balanced, keys and identifiers unique,
    reversed entries mirrored; the whole ledger sums to zero; history is only
    appended to; and no operational row is written by a rule. *)
Theorem rules_preserve_ledger `{WO : WorldOk} calls d
    (Hok : ledger_ok d) (Hs : supply_ok (run_rules calls d)) :
  ledger_ok (run_rules calls d) /\ append_only d (run_rules calls d) /\
  zsum_of jl_amount_cents (gl_lines (db_gl (run_rules calls d))) = 0 /\
  db_ops (run_rules calls d) = db_ops d.
Proof.
  pose proof (run_rules_keeps rely calls d) as Hr.
  destruct (rely_journal d (run_rules calls d) Hr Hs Hok) as [H1 H2].
  split_and!; [done|done|by apply ledger_lines_sum|].
  change (same_ops d (run_rules calls d)). exact (run_rules_keeps same_ops calls d).
Qed.

Definition demo_expense : Expense :=
  mk_expense 21%N "Shell" (Some (DFinite 4250 (-2))) (Some 738000) (Some "gas") None "co" None None [].

Definition enabled_db : Db :=
  set_gl (set_settings (fun _ => [mk_settings "co" true None None None None None None])) demo_db.

Lemma rules_preserve_ledger_witness :
  ledger_ok (run_rules (W := toy_world) [CallExpense demo_expense None] enabled_db) /\
  length (gl_entries (db_gl (run_rules (W := toy_world) [CallExpense demo_expense None] enabled_db))) = 1%nat.
Proof.
  split; [|vm_compute; reflexivity].
  apply (rules_preserve_ledger (WO := toy_world_ok) [CallExpense demo_expense None] enabled_db).
  - apply ledger_ok_empty. split; vm_compute; reflexivity.
  - unfold supply_ok. vm_compute. discriminate.
Defined.
