(* ===== verification/RulesSpec.v ===== *)
(** What the posting rules do to the journal: an event stream (the live
    entries of one source under one event name) holds at most one live entry,
    reposting swaps it, one-shot events post once, and voiding an opening
    balance clears the receivable. *)

From S2P Require Import Prelude PyStr Dates Money Models PayPeriods Keys Coa Engine EngineInv EngineSpec Service RulesBase Opening Issuance Payments Adjustments LinesSpec RulesSafe.

Local Open Scope Z_scope.

(** * Event streams *)

Definition stream (st si ev : string) : string := st +:+ ":" +:+ si +:+ ":" +:+ ev +:+ ":".

Definition key_starts (p : string) (e : GlJournalEntry) : bool :=
  match je_idempotency_key e with Some k => String.prefix p k | None => false end.

Definition in_stream (c st si ev : string) (e : GlJournalEntry) : bool :=
  String.eqb (je_company_id e) c && opt_eqb (je_source_type e) (Some st) &&
  opt_eqb (je_source_id e) (Some si) && bool_decide (je_status e = posted) &&
  key_starts (stream st si ev) e.

Definition live_stream (c st si ev : string) (d : Db) : list GlJournalEntry :=
  List.filter (in_stream c st si ev) (gl_entries (db_gl d)).

(** The unescaped LIKE of the rules selects exactly the stream, when nothing in
    it is a wildcard. *)
Lemma live_like_stream c st si ev d :
  str_contains "%" (stream st si ev) = false -> str_contains "_" (stream st si ev) = false ->
  live_like c st si (stream st si ev +:+ "%") d = live_stream c st si ev d.
Proof.
  intros H1 H2. unfold live_like, live_stream. apply List.filter_ext. intros e.
  unfold in_stream, key_like, key_starts. do 4 f_equal.
  destruct (je_idempotency_key e); [|done]. by rewrite like_plain_prefix.
Qed.

(** The escaped LIKE needs no proviso. *)
Lemma live_event_stream st si ev d c :
  one_company c d -> _live_event_entry st si ev d = earliest (live_stream c st si ev d).
Proof.
  intros Hone. unfold _live_event_entry, live_stream. f_equal. apply List.filter_ext_in.
  intros e He%list_elem_of_In. unfold in_stream, key_like, key_starts, _escape_like.
  rewrite (Hone e He), String.eqb_refl. cbn [andb]. do 3 f_equal.
  destruct (je_idempotency_key e); [|done]. unfold stream. by rewrite like_escape_prefix.
Qed.

Lemma live_event_None st si ev d c :
  one_company c d -> _live_event_entry st si ev d = None -> live_stream c st si ev d = [].
Proof.
  intros Hone. rewrite (live_event_stream _ _ _ _ c Hone). unfold earliest.
  by destruct (live_stream c st si ev d).
Qed.

Lemma stream_wildcard_free st ev u w :
  str_contains w st = false -> str_contains w ev = false -> is_uuid_char w = false ->
  w <> ":"%char -> str_contains w (stream st (str_uuid u) ev) = false.
Proof.
  intros H1 H2 H3 H4. unfold stream. rewrite !str_contains_app, H1, H2, (str_uuid_no w u H3).
  assert (str_contains w ":" = false) as ->; [|done]. cbn [str_contains].
  destruct (Ascii.eqb_spec ":" w); [congruence|]. destruct (Ascii.eqb_spec w ":"); [congruence|done].
Qed.

(** * Keys name their source *)

(** An entry that is not a reversal is keyed by its own source. *)
Definition sourced (e : GlJournalEntry) : Prop :=
  je_reverses_entry_id e = None -> exists st si ev ch n,
    je_source_type e = Some st /\ je_source_id e = Some si /\ no_colon st /\ no_colon si /\
    je_idempotency_key e = Some (idempotency_key (st +:+ ":" +:+ si +:+ ":" +:+ ev +:+ ":" +:+ ch) n).

Definition sources_ok (d : Db) : Prop := forall e, e ∈ gl_entries (db_gl d) -> sourced e.

Definition keeps_sources (d d' : Db) : Prop := sources_ok d -> sources_ok d'.

#[export] Instance keeps_sources_preorder : PreOrder keeps_sources.
Proof. split; [intros d H; exact H|intros a b c H1 H2 Ha; auto]. Qed.

Lemma same_entries_sources d d' : gl_entries (db_gl d') = gl_entries (db_gl d) -> keeps_sources d d'.
Proof. intros E H e. rewrite E. apply H. Qed.

Lemma frame_sources d d' : journal_frame d d' -> keeps_sources d d'.
Proof. intros H. apply same_entries_sources, H. Qed.

Lemma insert_sources c w st si key rv cb res d :
  (rv = None -> exists st' si' ev ch n, st = Some st' /\ si = Some si' /\ no_colon st' /\ no_colon si' /\
     key = idempotency_key (st' +:+ ":" +:+ si' +:+ ":" +:+ ev +:+ ":" +:+ ch) n) ->
  keeps_sources d (snd (_insert_entry c w st si key rv cb res d)).
Proof.
  intros Hk. unfold _insert_entry. case_if; [|by apply same_entries_sources].
  intros H e. cbn. rewrite elem_of_app, list_elem_of_singleton. intros [He| ->]; [by apply H|].
  intros Hr. cbn in Hr. destruct (Hk Hr) as (st' & si' & ev & ch & n & -> & -> & H1 & H2 & ->).
  by exists st', si', ev, ch, n.
Qed.

Lemma post_attempts_sources `{W : World} fuel ev ov res p lc ch :
  key_prefix (ev_source_type ev) (ev_source_id ev) (ev_event ev) ch = Ok p ->
  keeps keeps_sources (post_attempts fuel (fun _ d => d) ev ov res p lc).
Proof.
  intros Hp. apply key_prefix_Ok in Hp as (-> & H1 & H2 & H3 & _). revert lc.
  induction fuel as [|fuel IH]; intros lc; cbn [post_attempts]; [apply keeps_raise, _|].
  apply keeps_seq; [exact _|apply keeps_reads, _|intros seq].
  apply keeps_seq; [exact _|apply keeps_reads, _|intros [e|]]; [apply keeps_return, _|].
  apply keeps_seq; [exact _| |intros _].
  { destruct lc; [apply keeps_return, _|]. intros d. apply frame_sources, check_period_lock_frame. }
  apply keeps_seq; [exact _|intros d; reflexivity|intros _].
  apply keeps_catch; [exact _| |].
  { intros d. apply insert_sources. intros _. eexists _, _, _, _, _. split_and!; try done. }
  apply keeps_seq; [exact _|apply keeps_reads, _|intros [c|]]; [|apply keeps_raise, _].
  case_decide; [apply keeps_return, _|apply IH].
Qed.

#[export] Instance sources_ledger_relation `{W : World} : LedgerRelation keeps_sources.
Proof.
  split; [apply _| | |].
  - intros ev ov. unfold post_for_event, post_for_event_racing.
    apply keeps_seq; [exact _|apply keeps_lift, _|intros _].
    apply keeps_seq; [exact _|intros d; apply frame_sources, accounts_grow_frame, resolve_lines_grows|intros res].
    apply keeps_seq; [exact _|apply keeps_lift, _|intros ch]. intros d. unfold mseq, mlift.
    destruct (key_prefix _ _ _ ch) as [p|] eqn:E; [|reflexivity]. by eapply post_attempts_sources.
  - intros u w cb ov. unfold reverse_entry, reverse_entry_racing.
    apply keeps_seq; [exact _|apply keeps_reads, _|intros [e|]]; [|apply keeps_raise, _].
    case_decide.
    { apply keeps_seq; [exact _|apply keeps_reads, _|intros [x|]];
        [apply keeps_return, _|apply keeps_raise, _]. }
    apply keeps_seq; [exact _|intros d; apply frame_sources, check_period_lock_frame|intros _].
    apply keeps_seq; [exact _|apply keeps_reads, _|intros lines].
    apply keeps_seq; [exact _|intros d; reflexivity|intros _].
    apply keeps_seq; [exact _| |intros [r b]].
    { apply keeps_catch; [exact _| |].
      - apply keeps_seq; [exact _|intros d; by apply insert_sources|intros r; apply keeps_return, _].
      - apply keeps_seq; [exact _|apply keeps_reads, _|intros [x|]];
          [apply keeps_return, _|apply keeps_raise, _]. }
    destruct b; cbn [snd fst]; [|apply keeps_return, _].
    apply keeps_seq; [exact _| |intros _; apply keeps_return, _].
    intros d Hsrc y. cbn. rewrite elem_of_update_where. intros (x & Hx & ->). case_if; [|by apply Hsrc].
    apply (Hsrc x Hx).
  - intros d d' H. by apply frame_sources, accounts_grow_frame.
Qed.

(** * Posting and reversing, on a stream *)

Abbreviation ev_live ev d :=
  (live_stream (ev_company_id ev) (ev_source_type ev) (ev_source_id ev) (ev_event ev) d).


Section Streams.
Context `{WO : WorldOk}.

Lemma stream_of_key st si ev ch n :
  String.prefix (stream st si ev) (idempotency_key (st +:+ ":" +:+ si +:+ ":" +:+ ev +:+ ":" +:+ ch) n) = true.
Proof using Type.
  unfold stream, idempotency_key. rewrite !str_app_assoc.
  repeat (rewrite <- (str_app_assoc _ ":")). repeat rewrite <- (str_app_assoc _ _ (_ +:+ _)).
  rewrite !str_app_assoc.
  replace (st +:+ ":" +:+ si +:+ ":" +:+ ev +:+ ":" +:+ ch +:+ ":" +:+ pretty n)
    with ((st +:+ ":" +:+ si +:+ ":" +:+ ev +:+ ":") +:+ (ch +:+ ":" +:+ pretty n))
    by (by rewrite !str_app_assoc).
  apply str_prefix_app.
Qed.

(** The key of a sourced entry determines the source. *)
Lemma sourced_key e st si ev ch n :
  sourced e -> je_reverses_entry_id e = None -> no_colon st -> no_colon si ->
  je_idempotency_key e = Some (idempotency_key (st +:+ ":" +:+ si +:+ ":" +:+ ev +:+ ":" +:+ ch) n) ->
  je_source_type e = Some st /\ je_source_id e = Some si.
Proof using Type.
  intros Hs Hr H1 H2 Hk. destruct (Hs Hr) as (st' & si' & ev' & ch' & n' & -> & -> & H1' & H2' & Hk').
  rewrite Hk in Hk'. apply Some_inj in Hk'. unfold idempotency_key in Hk'. rewrite !str_app_assoc in Hk'.
  cbn [String.append] in Hk'. apply str_sep_inj in Hk' as [-> Hk']; [|done..].
  apply str_sep_inj in Hk' as [-> _]; done.
Qed.

Lemma in_stream_intro c st si ev ch n e :
  je_company_id e = c -> je_source_type e = Some st -> je_source_id e = Some si -> je_status e = posted ->
  je_idempotency_key e = Some (idempotency_key (st +:+ ":" +:+ si +:+ ":" +:+ ev +:+ ":" +:+ ch) n) ->
  in_stream c st si ev e = true.
Proof using Type.
  intros H1 H2 H3 H4 H5. unfold in_stream, key_starts.
  rewrite H1, H2, H3, H4, H5, String.eqb_refl. unfold opt_eqb. rewrite !bool_decide_eq_true_2 by done.
  by rewrite stream_of_key.
Qed.

(** What a posting leaves of the journal and of its stream. *)
Record stream_post (ev : PostingEvent) (d : Db) (e : GlJournalEntry) (d' : Db) : Prop := {
  sp_ok : ledger_ok d';
  sp_company : one_company (ev_company_id ev) d';
  sp_live : in_stream (ev_company_id ev) (ev_source_type ev) (ev_source_id ev) (ev_event ev) e = true;
  sp_in : e ∈ gl_entries (db_gl d');
  sp_cases : gl_entries (db_gl d') = gl_entries (db_gl d) \/
    (gl_entries (db_gl d') = gl_entries (db_gl d) ++ [e] /\
     map jl_amount_cents (entry_lines (je_id e) d') = map pl_amount_cents (ev_lines ev))
}.

Lemma post_stream ev ov d e d' :
  ledger_ok d -> one_company (ev_company_id ev) d -> sources_ok d -> supply_ok d' ->
  post_for_event ev ov d = (Ok e, d') -> stream_post ev d e d'.
Proof using WO.
  intros Hok Hone Hsrc Hs Hpost.
  destruct (post_Ok_live ev ov d e d' Hok Hone Hs Hpost) as (res & p & d1 & Hprep & Hok' & Hone' & _ & Hlive).
  destruct (pr_prefix _ _ _ _ _ Hprep) as (ch & _ & Hp).
  pose proof (prepared_event_prefix _ _ _ _ _ Hprep) as Hev.
  apply key_prefix_Ok in Hp as (Ep & Hst & Hsi & _).
  destruct (live_entry_Some _ _ _ _ Hlive) as (He & Hec & Hek & Hes).
  destruct (resolve_lines_Ok _ _ _ _ _ (pr_resolved _ _ _ _ _ Hprep)) as (Hres & Hg & _).
  assert (sources_ok d') as Hsrc'.
  { pose proof (lr_post (R := keeps_sources) ev ov d) as H. rewrite Hpost in H. by apply H. }
  assert (je_reverses_entry_id e = None) as Hrev.
  { pose proof (lo_key_form d' Hok' e He) as Hf. destruct (je_reverses_entry_id e) as [u|]; [|done].
    rewrite Hek in Hf. unfold next_key in Hf. apply Some_inj in Hf. symmetry in Hf.
    by apply reversal_key_ne_event in Hf; [|done|apply compute_seq_nonneg]. }
  rewrite Ep in Hek. unfold next_key in Hek.
  destruct (sourced_key e _ _ _ _ _ (Hsrc' e He) Hrev Hst Hsi Hek) as [Het Hei].
  split; [done|done|by eapply in_stream_intro|done|].
  pose proof (post_outcomes ev ov d res p d1 Hok Hone Hprep) as Hout. cbn zeta in Hout.
  rewrite Hpost in Hout. pose proof (jf_entries _ _ (accounts_grow_frame _ _ Hg)) as E1.
  destruct (live_entry _ _ d1) as [x|]; [injection Hout as _ ->; by left|].
  destruct (_ && negb ov); [done|]. destruct Hout as (d2 & x & d3 & [= <- <-] & Hpass & Hin). right.
  pose proof (lock_passed_frame _ _ _ _ _ _ _ Hpass) as Hf.
  split; [by rewrite (in_entries _ _ _ _ _ _ _ _ _ _ _ Hin), (jf_entries _ _ Hf), E1|].
  rewrite (inserted_lines_new _ _ _ _ _ _ _ _ d2 _ _) by
    (eauto using ledger_ok_frame, accounts_grow_frame).
  rewrite build_lines_amounts, <- Hres, map_map. done.
Qed.

Lemma filter_update_out {A} (p q : A -> bool) (f : A -> A) l :
  (forall x, q x = true -> p (f x) = false) ->
  List.filter p (update_where q f l) = List.filter (fun x => negb (q x) && p x) l.
Proof using Type.
  intros H. induction l as [|x l IH]; [done|]. cbn [update_where map List.filter].
  fold (update_where q f l). destruct (q x) eqn:E; cbn [negb andb]; [by rewrite (H x E)|].
  destruct (p x); by rewrite IH.
Qed.

Lemma reverse_stream c st si ev o w cb ov d r d' :
  ledger_ok d -> one_company c d -> no_colon st -> st <> "reversal" ->
  o ∈ gl_entries (db_gl d) -> je_status o = posted ->
  reverse_entry (je_id o) w cb ov d = (Ok r, d') ->
  live_stream c st si ev d' =
    List.filter (fun x => negb (N.eqb (je_id x) (je_id o))) (live_stream c st si ev d).
Proof using Type.
  intros Hok Hone Hst Hne Ho Hpost Hrev.
  pose proof (reverse_live d o w cb ov Hok Ho Hpost) as Hout. cbn zeta in Hout.
  destruct (_ && negb ov); [congruence|].
  destruct Hout as (d2 & r' & d3 & Hrev' & Hpass & Hin).
  rewrite Hrev in Hrev'. injection Hrev' as <- ->.
  pose proof (lock_passed_frame _ _ _ _ _ _ _ Hpass) as Hf.
  unfold live_stream, after_reversal. cbn [db_gl gl_entries set_gl set_entries].
  rewrite filter_update_out.
  2: { intros x _. unfold in_stream. cbn. by rewrite andb_false_r. }
  rewrite (in_entries _ _ _ _ _ _ _ _ _ _ _ Hin), (jf_entries _ _ Hf), List.filter_app.
  rewrite (filter_none _ [r]).
  2: { intros x ->%list_elem_of_singleton. unfold in_stream, key_starts.
       rewrite (in_entry _ _ _ _ _ _ _ _ _ _ _ Hin). cbn [je_idempotency_key].
       assert (String.prefix (stream st si ev) (reversal_key (je_id o)) = false) as ->;
         [|by rewrite !andb_false_r].
       apply not_true_is_false. intros H. unfold stream, reversal_key in H.
       change ("reversal:" +:+ str_uuid (je_id o)) with ("reversal" +:+ String ":" (str_uuid (je_id o))) in H.
       by apply str_sep_prefix in H as [-> _]. }
  rewrite app_nil_r, filter_filter_b. apply List.filter_ext. intros x. apply andb_comm.
Qed.

(** The repost pattern of the rules: post the new content, then reverse what
    was live before, unless it is the very same entry. *)
Definition swap (ev : PostingEvent) (live : option GlJournalEntry) (actor : option string) : M Db unit :=
  posted_ <- post_for_event ev false ;;
  match live with
  | Some l => if N.eqb (je_id posted_) (je_id l) then mreturn tt
              else reverse_entry (je_id l) None actor false ;;; mreturn tt
  | None => mreturn tt
  end.

Lemma live_stream_elem c st si ev d e :
  e ∈ live_stream c st si ev d <-> e ∈ gl_entries (db_gl d) /\ in_stream c st si ev e = true.
Proof using Type. unfold live_stream. apply elem_of_filter_b. Qed.

Lemma in_stream_posted c st si ev e : in_stream c st si ev e = true -> je_status e = posted.
Proof using Type.
  unfold in_stream. rewrite !andb_true_iff. intros [[_ H] _]. by apply bool_decide_eq_true in H.
Qed.

Lemma post_live_cases ev d e d' :
  ledger_ok d -> stream_post ev d e d' -> ~ e ∈ gl_entries (db_gl d) \/ gl_entries (db_gl d') = gl_entries (db_gl d).
Proof using Type.
  intros Hok [Hok' _ _ _ Hcases]. destruct Hcases as [E|[E _]]; [by right|left].
  intros He. pose proof (lo_ids d' Hok') as Hnd. rewrite E, map_app in Hnd.
  apply NoDup_app in Hnd as (_ & Hdis & _). apply (Hdis (je_id e)); [by apply elem_of_map_b; eauto|].
  apply list_elem_of_here.
Qed.

Lemma swap_one_live ev actor d d' :
  ledger_ok d -> one_company (ev_company_id ev) d -> sources_ok d -> supply_ok d' ->
  (length (ev_live ev d) <= 1)%nat ->
  swap ev (head (ev_live ev d)) actor d = (Ok tt, d') ->
  exists e, ev_live ev d' = [e] /\
    (e ∈ ev_live ev d \/
     map jl_amount_cents (entry_lines (je_id e) d') = map pl_amount_cents (ev_lines ev)).
Proof using WO.
  intros Hok Hone Hsrc Hs Hlen Hrun. unfold swap in Hrun. apply mseq_Ok in Hrun as (e & d1 & Hpost & Hrun).
  assert (rely d1 d') as Hr1.
  { pose proof (reverse_racing_rely (fun x => x)) as HR.
    destruct (head _) as [l|]; [|by minv Hrun]. destruct (N.eqb _ _); [by minv Hrun|].
    apply mseq_Ok in Hrun as (r & d2 & Hrev & Hrun). minv Hrun.
    specialize (HR (je_id l) None actor false (fun x => reflexivity x) d1).
    unfold reverse_entry in Hrev. by rewrite Hrev in HR. }
  assert (supply_ok d1) as Hs1 by (unfold supply_ok in *; pose proof (rely_uuid _ _ Hr1); lia).
  pose proof (post_stream ev false d e d1 Hok Hone Hsrc Hs1 Hpost) as Hsp.
  destruct (post_live_cases ev d e d1 Hok Hsp) as [Hnew|Hsame].
  - destruct Hsp as [Hok1 Hone1 Hlive1 Hin1 [E|[E Hlines]]]; [rewrite E in Hin1; done|].
    assert (ev_live ev d1 = ev_live ev d ++ [e]) as El1.
    { unfold live_stream. rewrite E, List.filter_app. cbn [List.filter]. by rewrite Hlive1. }
    exists e. destruct (ev_live ev d) as [|l [|]] eqn:El; [| |cbn in Hlen; lia]; cbn [head] in Hrun.
    { minv Hrun. split; [done|by right]. }
    assert (l ∈ ev_live ev d) as Hl by (rewrite El; apply list_elem_of_here).
    apply live_stream_elem in Hl as [Hl Hlst].
    destruct (N.eqb_spec (je_id e) (je_id l)) as [Eid|Hne].
    { exfalso. apply Hnew. assert (e = l) as ->; [|done].
      apply (id_unique d1); [done|done| |done]. rewrite E. apply elem_of_app. by left. }
    apply mseq_Ok in Hrun as (r & d2 & Hrev & Hrun). minv Hrun.
    assert (l ∈ gl_entries (db_gl d1)) as Hl1 by (rewrite E; apply elem_of_app; by left).
    destruct (post_Ok_live ev false d e d1 Hok Hone Hs1 Hpost) as (res & p & dx & Hprep & _).
    destruct (pr_prefix _ _ _ _ _ Hprep) as (ch & _ & Hp). apply key_prefix_Ok in Hp as (_ & Hst & _ & _ & Hnr).
    rewrite (reverse_stream _ _ _ _ l None actor false d1 r d' Hok1 Hone1 Hst Hnr Hl1
               (in_stream_posted _ _ _ _ _ Hlst) Hrev), El1.
    cbn [app List.filter]. rewrite N.eqb_refl, (proj2 (N.eqb_neq _ _) Hne). cbn [negb].
    split; [done|]. right.
    destruct (rely_journal _ _ Hr1 Hs Hok1) as [_ Hao]. rewrite (ao_lines _ _ Hao e Hin1). done.
  - destruct Hsp as [Hok1 Hone1 Hlive1 Hin1 _]. exists e.
    assert (ev_live ev d1 = ev_live ev d) as El1 by (unfold live_stream; by rewrite Hsame).
    assert (e ∈ ev_live ev d) as Hel by (apply live_stream_elem; by rewrite <- Hsame).
    destruct (ev_live ev d) as [|l [|]] eqn:El; [by apply elem_of_nil in Hel| |cbn in Hlen; lia].
    apply list_elem_of_singleton in Hel as ->. cbn [head] in Hrun. rewrite N.eqb_refl in Hrun. minv Hrun.
    split; [done|]. left. apply list_elem_of_here.
Qed.
End Streams.

(** * Reposting *)

Definition issuance_live (invoice : Invoice) (d : Db) : list GlJournalEntry :=
  live_like (inv_company_id invoice) "invoice" (str_uuid (inv_id invoice))
    ("invoice:" +:+ str_uuid (inv_id invoice) +:+ ":" +:+ EVENT_ISSUED +:+ ":%") d.

Definition expense_live (expense : Expense) (d : Db) : list GlJournalEntry :=
  live_like (exp_company_id expense) "expense" (str_uuid (exp_id expense))
    ("expense:" +:+ str_uuid (exp_id expense) +:+ ":" +:+ EVENT_EXPENSE +:+ ":%") d.

Lemma issuance_live_stream invoice d :
  issuance_live invoice d =
    live_stream (inv_company_id invoice) "invoice" (str_uuid (inv_id invoice)) EVENT_ISSUED d.
Proof.
  rewrite <- live_like_stream by (by apply stream_wildcard_free).
  unfold issuance_live, stream. by f_equal.
Qed.

Lemma expense_live_stream expense d :
  expense_live expense d =
    live_stream (exp_company_id expense) "expense" (str_uuid (exp_id expense)) EVENT_EXPENSE d.
Proof.
  rewrite <- live_like_stream by (by apply stream_wildcard_free).
  unfold expense_live, stream. by f_equal.
Qed.

(** Reversing the only live entry of a stream empties it. *)
Lemma reverse_only c st si ev l actor d r d' :
  ledger_ok d -> one_company c d -> no_colon st -> st <> "reversal" ->
  live_stream c st si ev d = [l] ->
  reverse_entry (je_id l) None actor false d = (Ok r, d') -> live_stream c st si ev d' = [].
Proof.
  intros Hok Hone Hst Hne El Hrev.
  assert (l ∈ live_stream c st si ev d) as Hl by (rewrite El; apply list_elem_of_here).
  apply live_stream_elem in Hl as [Hl Hs].
  rewrite (reverse_stream c st si ev l None actor false d r d' Hok Hone Hst Hne Hl
             (in_stream_posted _ _ _ _ _ Hs) Hrev), El.
  cbn. by rewrite N.eqb_refl.
Qed.

Section Repost.
Context `{WO : WorldOk}.

Lemma repost_issuance_run invoice actor d lines :
  is_issued (inv_status invoice) = true -> ledger_posting_enabled (inv_company_id invoice) d = true ->
  pre_cutover_era invoice d = false -> build_issuance_lines invoice d = Ok lines ->
  repost_invoice_issuance invoice actor d =
  match lines with
  | [] => reverse_if_live (_live_issuance_entry invoice d) actor d
  | _ => swap (issuance_event invoice lines actor d) (_live_issuance_entry invoice d) actor d
  end.
Proof using Type.
  intros H1 H2 H3 H4. unfold repost_invoice_issuance. rewrite H1. cbn [negb].
  unfold mseq at 1, mreads at 1. rewrite H2. cbn [negb]. unfold mseq at 1, mreads at 1.
  unfold mseq at 1, mreads at 1. rewrite H3.
  destruct (_live_issuance_entry invoice d) as [l|].
  - unfold mseq at 1. rewrite H4. destruct lines; [done|]. unfold mseq at 1, mreads at 1. reflexivity.
  - unfold mseq at 1. rewrite H4. destruct lines as [|x lines]; [done|].
    unfold post_invoice_issuance. unfold mseq at 1, mreads at 1. rewrite H3.
    unfold mseq at 1. rewrite H4. unfold mseq at 1, mreads at 1. unfold swap, mseq.
    by destruct (post_for_event _ _ _) as [[]].
Qed.

Lemma repost_expense_run expense actor d lines :
  ledger_posting_enabled (exp_company_id expense) d = true -> exp_deleted_at expense = None ->
  build_expense_lines expense d = Ok lines ->
  repost_expense expense actor d =
  match lines with
  | [] => reverse_if_live (_live_expense_entry expense d) actor d
  | _ => swap (expense_event expense lines actor d) (_live_expense_entry expense d) actor d
  end.
Proof using Type.
  intros H1 H2 H3. unfold repost_expense. unfold mseq at 1, mreads at 1. rewrite H1. cbn [negb].
  unfold mseq at 1, mreads at 1. rewrite H2. unfold mseq at 1. rewrite H3. by destruct lines.
Qed.

Lemma reverse_if_live_empties c st si ev actor d d' :
  ledger_ok d -> one_company c d -> no_colon st -> st <> "reversal" ->
  (length (live_stream c st si ev d) <= 1)%nat ->
  reverse_if_live (head (live_stream c st si ev d)) actor d = (Ok tt, d') ->
  live_stream c st si ev d' = [].
Proof using Type.
  intros Hok Hone Hst Hne Hlen Hrun.
  destruct (live_stream c st si ev d) as [|l [|]] eqn:El; [| |cbn in Hlen; lia]; cbn in Hrun.
  - by minv Hrun.
  - apply mseq_Ok in Hrun as (r & d2 & Hrev & Hrun). minv Hrun. by eapply reverse_only.
Qed.
End Repost.

(** reposting an edited invoice keeps exactly one issuance entry live.
    When a repost of an issued, posting, post-cutover invoice succeeds on a
    sound journal whose stream had at most one live entry, afterwards a zero
    total leaves none, and any other content leaves exactly one: the entry
    that was live before (same content) or a new one whose amounts are the
    lines of the current invoice. *)
Theorem repost_issuance_one_live `{WO : WorldOk} invoice actor d d' lines
    (Hok : ledger_ok d) (Hone : one_company (inv_company_id invoice) d) (Hsrc : sources_ok d)
    (Hissued : is_issued (inv_status invoice) = true)
    (Hon : ledger_posting_enabled (inv_company_id invoice) d = true)
    (Hera : pre_cutover_era invoice d = false)
    (Hlines : build_issuance_lines invoice d = Ok lines)
    (Hlen : (length (issuance_live invoice d) <= 1)%nat)
    (Hrun : repost_invoice_issuance invoice actor d = (Ok tt, d')) (Hs : supply_ok d') :
  match lines with
  | [] => issuance_live invoice d' = []
  | _ => exists e, issuance_live invoice d' = [e] /\
           (e ∈ issuance_live invoice d \/
            map jl_amount_cents (entry_lines (je_id e) d') = map pl_amount_cents lines)
  end.
Proof.
  rewrite (repost_issuance_run invoice actor d lines) in Hrun by done.
  unfold _live_issuance_entry in Hrun. fold (issuance_live invoice d) in Hrun.
  rewrite !issuance_live_stream in *. destruct lines as [|x lines].
  - by eapply (reverse_if_live_empties (inv_company_id invoice)).
  - exact (swap_one_live (issuance_event invoice (x :: lines) actor d) actor d d' Hok Hone Hsrc Hs Hlen Hrun).
Qed.

(** the same for expenses: after a successful repost a deleted or
    zero-amount expense has no live entry, and any other has exactly one, the
    one it had or a new one carrying the current amounts. *)
Theorem repost_expense_one_live `{WO : WorldOk} expense actor d d' lines
    (Hok : ledger_ok d) (Hone : one_company (exp_company_id expense) d) (Hsrc : sources_ok d)
    (Hon : ledger_posting_enabled (exp_company_id expense) d = true)
    (Hlines : build_expense_lines expense d = Ok lines)
    (Hlen : (length (expense_live expense d) <= 1)%nat)
    (Hrun : repost_expense expense actor d = (Ok tt, d')) (Hs : supply_ok d') :
  if bool_decide (is_Some (exp_deleted_at expense) \/ lines = []) then expense_live expense d' = []
  else exists e, expense_live expense d' = [e] /\
         (e ∈ expense_live expense d \/
          map jl_amount_cents (entry_lines (je_id e) d') = map pl_amount_cents lines).
Proof.
  destruct (exp_deleted_at expense) as [t|] eqn:Hdel.
  - rewrite bool_decide_eq_true_2 by (left; by eexists). revert Hrun. unfold repost_expense.
    unfold mseq at 1, mreads at 1. rewrite Hon. cbn [negb]. unfold mseq at 1, mreads at 1. rewrite Hdel.
    unfold _live_expense_entry. fold (expense_live expense d). rewrite !expense_live_stream in *.
    intros Hrun. by eapply (reverse_if_live_empties (exp_company_id expense)).
  - rewrite (repost_expense_run expense actor d lines) in Hrun by done.
    unfold _live_expense_entry in Hrun. fold (expense_live expense d) in Hrun.
    rewrite !expense_live_stream in *. destruct lines as [|x lines].
    + rewrite bool_decide_eq_true_2 by (by right).
      by eapply (reverse_if_live_empties (exp_company_id expense)).
    + rewrite bool_decide_eq_false_2 by (intros [[? [=]]|[=]]).
      exact (swap_one_live (expense_event expense (x :: lines) actor d) actor d d' Hok Hone Hsrc Hs Hlen Hrun).
Qed.

Definition issued_db : Db :=
  mk_db (set_settings (fun _ => [mk_settings "co" true None None None None None None]) (db_gl lined_db))
    (db_ops lined_db).

Lemma empty_sources d : gl_entries (db_gl d) = [] -> sources_ok d.
Proof. intros E e He. rewrite E in He. by apply elem_of_nil in He. Qed.

Lemma empty_company c d : gl_entries (db_gl d) = [] -> one_company c d.
Proof. intros E e He. rewrite E in He. by apply elem_of_nil in He. Qed.

Definition issued_lines : list PostingLine :=
  match build_issuance_lines lined_invoice issued_db with Ok l => l | Err _ => [] end.

Definition reposted_db : Db :=
  snd (repost_invoice_issuance (W := toy_world) lined_invoice None issued_db).

Lemma repost_issuance_one_live_witness :
  exists e, issuance_live lined_invoice reposted_db = [e].
Proof.
  destruct (repost_issuance_one_live (WO := toy_world_ok) lined_invoice None issued_db reposted_db issued_lines)
    as (e & H & _).
  - apply ledger_ok_empty. split; vm_compute; reflexivity.
  - apply empty_company. vm_compute. reflexivity.
  - apply empty_sources. vm_compute. reflexivity.
  - vm_compute. reflexivity.
  - vm_compute. reflexivity.
  - vm_compute. reflexivity.
  - vm_compute. reflexivity.
  - vm_compute. lia.
  - vm_compute. reflexivity.
  - unfold supply_ok. vm_compute. discriminate.
  - exists e. exact H.
Defined.

(** The expense was posted at 42.50 and is then edited to 50.00. *)
Definition expense_db : Db := run_rules (W := toy_world) [CallExpense demo_expense None] enabled_db.
Definition edited_expense : Expense :=
  mk_expense 21%N "Shell" (Some (DFinite 5000 (-2))) (Some 738000) (Some "gas") None "co" None None [].

Lemma expense_db_ok : ledger_ok expense_db.
Proof.
  pose proof (run_rules_keeps (W := toy_world) (rely) (LedgerRelation0 := rely_ledger_relation (WO := toy_world_ok))
    [CallExpense demo_expense None] enabled_db) as Hr.
  apply (rely_journal _ _ Hr); [unfold supply_ok; vm_compute; discriminate|].
  apply ledger_ok_empty. split; vm_compute; reflexivity.
Qed.

Lemma expense_db_sources : sources_ok expense_db.
Proof.
  apply (run_rules_keeps (W := toy_world) keeps_sources [CallExpense demo_expense None] enabled_db).
  apply empty_sources. vm_compute. reflexivity.
Qed.

Definition edited_lines : list PostingLine :=
  match build_expense_lines edited_expense expense_db with Ok l => l | Err _ => [] end.

Definition edited_db : Db := snd (repost_expense (W := toy_world) edited_expense None expense_db).

Lemma repost_expense_one_live_witness :
  exists e, expense_live edited_expense edited_db = [e] /\
    map jl_amount_cents (entry_lines (je_id e) edited_db) = [5000; -5000].
Proof.
  destruct (repost_expense_one_live (WO := toy_world_ok) edited_expense None expense_db edited_db edited_lines)
    as (e & H & Hc).
  - exact expense_db_ok.
  - intros e He. vm_compute in He. apply list_elem_of_singleton in He as ->. reflexivity.
  - exact expense_db_sources.
  - vm_compute. reflexivity.
  - vm_compute. reflexivity.
  - vm_compute. lia.
  - vm_compute. reflexivity.
  - unfold supply_ok. vm_compute. discriminate.
  - exists e. split; [exact H|]. destruct Hc as [Hc|Hc]; [|rewrite Hc; vm_compute; reflexivity].
    assert (e ∈ expense_live edited_expense edited_db) as He by (rewrite H; apply list_elem_of_here).
    vm_compute in Hc, He. apply list_elem_of_singleton in Hc, He. rewrite Hc in He. discriminate He.
Defined.

(** * One-shot events *)

Definition adjustment_rule `{W : World} (kind : adjustment_kind)
  : InvoiceAdjustment -> Invoice -> option string -> M Db (option GlJournalEntry) :=
  match kind with
  | credit_memo => post_credit_memo
  | refund => post_refund
  | credit_applied => post_credit_application
  end.

Definition adjustment_event_name (kind : adjustment_kind) : string :=
  match kind with credit_memo => "credit_memo" | refund => "refund" | credit_applied => "credit_applied" end.

Definition live_adjustment (kind : adjustment_kind) (a : InvoiceAdjustment) (d : Db) : option GlJournalEntry :=
  _live_event_entry "adjustment" (str_uuid (adj_id a)) (adjustment_event_name kind) d.

Section OneShot.
Context `{WO : WorldOk}.

(** Posting into an empty stream makes the posted entry the live one. *)
Lemma post_into_empty ev ov d e d' :
  ledger_ok d -> one_company (ev_company_id ev) d -> sources_ok d -> supply_ok d' ->
  _live_event_entry (ev_source_type ev) (ev_source_id ev) (ev_event ev) d = None ->
  post_for_event ev ov d = (Ok e, d') ->
  _live_event_entry (ev_source_type ev) (ev_source_id ev) (ev_event ev) d' = Some e.
Proof using WO.
  intros Hok Hone Hsrc Hs Hnone Hpost.
  pose proof (post_stream ev ov d e d' Hok Hone Hsrc Hs Hpost) as [Hok' Hone' Hlive Hin Hcases].
  apply (live_event_None _ _ _ _ _ Hone) in Hnone. rewrite (live_event_stream _ _ _ _ _ Hone').
  destruct Hcases as [E|[E _]].
  - assert (e ∈ ev_live ev d) as He by (apply live_stream_elem; by rewrite <- E).
    rewrite Hnone in He. by apply elem_of_nil in He.
  - unfold live_stream in *. rewrite E, List.filter_app, Hnone. cbn [List.filter app]. by rewrite Hlive.
Qed.

Lemma resolve_or_none_reads c role : reads_only (resolve_role_account_or_none c role).
Proof using Type.
  intros d. unfold resolve_role_account_or_none. case_if; [done|].
  unfold mseq. pose proof (resolve_role_account_reads c role d) as H.
  by destruct (resolve_role_account c role d) as [[a|x] d1].
Qed.

Lemma credit_balance_reads c cust : reads_only (customer_credit_balance_cents c cust).
Proof using Type.
  intros d. unfold customer_credit_balance_cents, mseq.
  pose proof (resolve_or_none_reads c ROLE_CUSTOMER_CREDITS d) as H.
  destruct (resolve_role_account_or_none c ROLE_CUSTOMER_CREDITS d) as [[[a|]|x] d1]; done.
Qed.

(** The shape all three rules share: off or zero posts nothing, a live entry is
    returned untouched, and otherwise the event is posted. *)
Lemma adjustment_rule_off kind a inv actor d :
  ledger_posting_enabled (inv_company_id inv) d = false ->
  adjustment_rule kind a inv actor d = (Ok None, d).
Proof using Type.
  intros H. destruct kind; cbn [adjustment_rule];
    [unfold post_credit_memo|unfold post_refund|unfold post_credit_application];
    unfold mseq at 1, mreads at 1; by rewrite H.
Qed.

Lemma adjustment_rule_live kind a inv actor d cents e :
  ledger_posting_enabled (inv_company_id inv) d = true -> cents_of (adj_amount a) = Ok cents ->
  cents <> 0 -> live_adjustment kind a d = Some e ->
  adjustment_rule kind a inv actor d = (Ok (Some e), d).
Proof using Type.
  intros H1 H2 H3%Z.eqb_neq H4. unfold live_adjustment in H4.
  destruct kind; cbn [adjustment_rule];
    [unfold post_credit_memo|unfold post_refund|unfold post_credit_application];
    unfold mseq at 1, mreads at 1; rewrite H1; cbn [negb]; unfold mseq at 1, mlift at 1; rewrite H2, H3;
    unfold mseq at 1, mreads at 1; cbn [adjustment_event_name] in H4; by rewrite H4.
Qed.

Lemma adjustment_rule_posts kind a inv actor d e d' :
  live_adjustment kind a d = None -> adjustment_rule kind a inv actor d = (Ok (Some e), d') ->
  exists lines, post_for_event (adjustment_event a inv (adjustment_event_name kind) lines actor d) false d
    = (Ok e, d').
Proof using Type.
  intros Hnone. unfold live_adjustment in Hnone.
  destruct kind; cbn [adjustment_rule adjustment_event_name] in *;
    [unfold post_credit_memo|unfold post_refund|unfold post_credit_application]; intros H; minv H;
    (destruct (ledger_posting_enabled _ _); cbn [negb] in H; [|by minv H]); minv H;
    (destruct (_ =? 0); [by minv H|]); minv H; rewrite Hnone in H; minv H; [eauto| |eauto].
  destruct (get_gl_settings _ _); [|by minv H]. minv H.
  match goal with Hc : customer_credit_balance_cents ?c ?k ?x = (Ok _, ?y) |- _ =>
    pose proof (credit_balance_reads c k x) as Hrd; rewrite Hc in Hrd; cbn in Hrd; subst y end.
  eauto.
Qed.
End OneShot.

(** an adjustment posts once.  After a credit memo, a refund or a credit
    application returned an entry, running the same rule again for that
    adjustment, even after its amount, reason, invoice row or actor changed,
    returns the same entry and writes nothing: money is never moved twice. *)
Theorem adjustments_post_once `{WO : WorldOk} kind a inv actor d e d' a' inv' actor' cents
    (Hok : ledger_ok d) (Hone : one_company (inv_company_id inv) d) (Hsrc : sources_ok d)
    (Hs : supply_ok d')
    (Hrun : adjustment_rule kind a inv actor d = (Ok (Some e), d'))
    (Hid : adj_id a' = adj_id a) (Hcompany : inv_company_id inv' = inv_company_id inv)
    (Hcents : cents_of (adj_amount a') = Ok cents) (Hnz : cents <> 0) :
  adjustment_rule kind a' inv' actor' d' = (Ok (Some e), d').
Proof.
  destruct (ledger_posting_enabled (inv_company_id inv) d) eqn:Hon;
    [|by rewrite adjustment_rule_off in Hrun by done].
  assert (same_settings d d') as Hset.
  { assert (keeps same_settings (adjustment_rule kind a inv actor)) as Hk.
    { destruct kind; [apply post_credit_memo_keeps, _|apply post_refund_keeps, _|
        apply post_credit_application_keeps, _]. }
    specialize (Hk d). by rewrite Hrun in Hk. }
  assert (ledger_posting_enabled (inv_company_id inv') d' = true) as Hon'.
  { rewrite Hcompany. revert Hon. unfold ledger_posting_enabled, get_gl_settings. by rewrite Hset. }
  apply (adjustment_rule_live kind a' inv' actor' d' cents e); [done..|].
  unfold live_adjustment. rewrite Hid. destruct (live_adjustment kind a d) as [x|] eqn:Hlive.
  - assert (exists c, cents_of (adj_amount a) = Ok c /\ c <> 0) as (c & Hc & Hcnz).
    { revert Hrun. destruct kind; cbn [adjustment_rule];
        [unfold post_credit_memo|unfold post_refund|unfold post_credit_application]; intros H; minv H;
        rewrite Hon in H; cbn [negb] in H; minv H;
        match type of H with context [?z =? 0] => exists z; destruct (Z.eqb_spec z 0); [by minv H|] end;
        split; done. }
    rewrite (adjustment_rule_live kind a inv actor d c x) in Hrun by done. injection Hrun as <- <-. exact Hlive.
  - destruct (adjustment_rule_posts kind a inv actor d e d' Hlive Hrun) as (lines & Hpost).
    exact (post_into_empty (adjustment_event a inv (adjustment_event_name kind) lines actor d) false d e d'
             Hok Hone Hsrc Hs Hlive Hpost).
Qed.

Definition refund_adj (cents : Z) : InvoiceAdjustment :=
  mk_adjustment 9%N 7%N refund (Some (DFinite cents (-2))) (Some "warranty") (Some "cash") None None.

Definition refunded_db : Db := snd (post_refund (W := toy_world) (refund_adj 5000) lined_invoice None paid_db).
Definition refund_entry : option GlJournalEntry :=
  head (gl_entries (db_gl refunded_db)).

(** The refund was of 50.00; it is edited to 60.00 and run again. *)
Lemma adjustments_post_once_witness :
  exists e, post_refund (W := toy_world) (refund_adj 6000) lined_invoice (Some "x") refunded_db =
    (Ok (Some e), refunded_db) /\ refund_entry = Some e.
Proof.
  eexists. split; [|vm_compute; reflexivity].
  apply (adjustments_post_once (WO := toy_world_ok) refund (refund_adj 5000) lined_invoice None paid_db
    _ refunded_db (refund_adj 6000) lined_invoice (Some "x") 6000).
  - apply ledger_ok_empty. split; vm_compute; reflexivity.
  - apply empty_company. vm_compute. reflexivity.
  - apply empty_sources. vm_compute. reflexivity.
  - unfold supply_ok. vm_compute. discriminate.
  - vm_compute. reflexivity.
  - reflexivity.
  - reflexivity.
  - reflexivity.
  - discriminate.
Defined.

(** * Voiding an opening balance *)

(** A wildcard in the pattern only widens the match. *)
Lemma like_plain_superset raw s :
  str_contains "%" raw = false -> String.prefix raw s = true -> like_match None (raw +:+ "%") s = true.
Proof.
  revert s. induction raw as [|c raw IH]; intros s H1 H2.
  { by apply like_percent. }
  destruct s as [|x s]; [done|]. cbn [String.prefix] in H2.
  destruct (ascii_dec c x) as [->|]; [|done]. cbn [str_contains] in H1. apply orb_false_elim in H1 as [Hc H1].
  rewrite str_app_cons. cbn [like_match]. rewrite Hc, (IH s) by done.
  by rewrite Ascii.eqb_refl, orb_true_r.
Qed.

Lemma live_like_empty c st si ev d :
  str_contains "%" (stream st si ev) = false ->
  head (live_like c st si (stream st si ev +:+ "%") d) = None -> live_stream c st si ev d = [].
Proof.
  intros H Hh. unfold live_like, live_stream in *. apply filter_none. intros e He.
  destruct (List.filter _ (gl_entries (db_gl d))) as [|x l] eqn:E; [|done].
  destruct (in_stream c st si ev e) eqn:Hin; [|done].
  assert (e ∈ (@nil GlJournalEntry)) as Hnil; [|by apply elem_of_nil in Hnil].
  rewrite <- E. apply elem_of_filter_b. split; [done|]. unfold in_stream, key_starts, key_like in *.
  apply andb_prop in Hin as [-> Hin]. destruct (je_idempotency_key e); [|done].
  by apply like_plain_superset.
Qed.

Section Void.
Context `{WO : WorldOk}.

(** Posting into an empty stream with the accounts in place inserts the entry
    with its resolved lines. *)
Lemma post_inserts ev ov d e d' res p :
  ledger_ok d -> one_company (ev_company_id ev) d -> sources_ok d -> supply_ok d' ->
  prepared ev d res p d -> ev_live ev d = [] -> post_for_event ev ov d = (Ok e, d') ->
  exists d2 key, journal_frame d d2 /\ gl_accounts (db_gl d2) = gl_accounts (db_gl d) /\
    db_ops d2 = db_ops d /\
    inserted (ev_company_id ev) (ev_effective_at ev) (Some (ev_source_type ev)) (Some (ev_source_id ev))
      key None (ev_created_by ev) res d2 e d'.
Proof using WO.
  intros Hok Hone Hsrc Hs Hprep Hempty Hpost.
  pose proof (post_outcomes ev ov d res p d Hok Hone Hprep) as Hout. cbn zeta in Hout.
  rewrite Hpost in Hout.
  destruct (live_entry _ _ d) as [x|] eqn:Hlive.
  - injection Hout as E1 E2. subst.
    pose proof (post_stream ev ov d x d Hok Hone Hsrc Hs Hpost) as [_ _ H1 H2 _].
    assert (x ∈ ev_live ev d) as Hx by (by apply live_stream_elem).
    rewrite Hempty in Hx. by apply elem_of_nil in Hx.
  - destruct (_ && negb ov); [done|]. destruct Hout as (d2 & x & d3 & [= <- <-] & Hpass & Hin).
    exists d2, (next_key (ev_company_id ev) p d). split; [by eapply lock_passed_frame|].
    split; [|split; [|exact Hin]]; by destruct Hpass as [[_ ->]|(_ & _ & lock & _ & ->)].
Qed.

Lemma ensure_owner c role a d :
  role ∈ ALL_ROLES -> role_owners c role d = [a] -> ensure_role_account c role d = (Ok a, d).
Proof using Type.
  intros Hr Ho. unfold ensure_role_account, mcatch. by rewrite (resolve_role_account_owner c role a d Hr Ho).
Qed.

(** Two role lines resolve without touching the chart. *)
Lemma resolve_two c r1 r2 a1 a2 l1 l2 d :
  r1 ∈ ALL_ROLES -> r2 ∈ ALL_ROLES -> role_owners c r1 d = [a1] -> role_owners c r2 d = [a2] ->
  pl_role l1 = Some r1 -> pl_role l2 = Some r2 ->
  _resolve_lines c [l1; l2] d = (Ok [(l1, acc_id a1); (l2, acc_id a2)], d).
Proof using Type.
  intros H1 H2 O1 O2 E1 E2. unfold _resolve_lines. cbn [mmap]. unfold _resolve_line. rewrite E1, E2.
  unfold mseq, mreturn. rewrite (ensure_owner c r1 a1 d H1 O1), (ensure_owner c r2 a2 d H2 O2). done.
Qed.

Lemma role_owner_elem c role a d :
  role_owners c role d = [a] -> a ∈ gl_accounts (db_gl d) /\ acc_role a = Some role.
Proof using Type.
  intros E. assert (a ∈ role_owners c role d) as H by (rewrite E; apply list_elem_of_here).
  unfold role_owners in H. apply elem_of_filter_b in H as [H1 H2]. split; [done|].
  rewrite !andb_true_iff in H2. destruct H2 as [[[_ H2] _] _]. unfold owns_role in H2.
  destruct (acc_role a); [|done]. by apply String.eqb_eq in H2 as ->.
Qed.

Lemma has_role_of role a d :
  NoDup (map acc_id (gl_accounts (db_gl d))) -> a ∈ gl_accounts (db_gl d) ->
  has_role role (acc_id a) d = owns_role role a.
Proof using Type.
  intros Hnd Ha. unfold has_role. destruct (owns_role role a) eqn:E.
  - apply existsb_elem. exists a. by rewrite N.eqb_refl, E.
  - apply existsb_not, Forall_forall. intros b Hb. destruct (N.eqb_spec (acc_id b) (acc_id a)) as [Eid|]; [|done].
    by rewrite (NoDup_map_inj acc_id _ b a Hnd Hb Ha Eid), E.
Qed.

Lemma omap_ext_elem {A B} (f g : A -> option B) (l : list A) :
  (forall x, x ∈ l -> f x = g x) -> omap f l = omap g l.
Proof using Type.
  intros H. apply list_omap_ext, Forall_Forall2_diag, Forall_forall, H.
Qed.

(** An insert adds its AR lines to the receivable view. *)
Lemma ar_role_lines_inserted c w st si key rv cb res d d2 e d' :
  ledger_ok d -> journal_frame d d2 -> gl_accounts (db_gl d2) = gl_accounts (db_gl d) ->
  inserted c w st si key rv cb res d2 e d' ->
  ar_role_lines d' = ar_role_lines d ++
    omap (fun la => if has_role ROLE_AR (snd la) d then Some (st, si, pl_amount_cents (fst la)) else None) res.
Proof using Type.
  intros Hok Hf Hacc Hin. pose proof (ledger_ok_frame _ _ Hok Hf) as Hok2.
  assert (forall u, has_role ROLE_AR u d' = has_role ROLE_AR u d) as Hrole.
  { intros u. unfold has_role. by rewrite (in_accounts _ _ _ _ _ _ _ _ _ _ _ Hin), Hacc. }
  assert (get_entry (je_id e) d' = Some e) as Hnew.
  { unfold get_entry. rewrite (in_entries _ _ _ _ _ _ _ _ _ _ _ Hin), find_app_b.
    destruct (List.find _ (gl_entries (db_gl d2))) as [x|] eqn:E.
    - apply find_some_elem in E as [Hx E%N.eqb_eq].
      by destruct (inserted_id_new _ _ _ _ _ _ _ _ _ _ _ Hok2 Hin x Hx).
    - cbn. by rewrite N.eqb_refl. }
  unfold ar_role_lines. rewrite (in_lines _ _ _ _ _ _ _ _ _ _ _ Hin), omap_app, (jf_lines _ _ Hf).
  f_equal.
  - apply omap_ext_elem. intros l Hl. rewrite Hrole. case_if; [|done].
    destruct (lo_line_refs d Hok l Hl) as (x & Hx & <-).
    assert (get_entry (je_id x) d' = Some x) as ->; [|by rewrite (get_entry_elem d x)].
    unfold get_entry. rewrite (in_entries _ _ _ _ _ _ _ _ _ _ _ Hin), find_app_b, (jf_entries _ _ Hf).
    fold (get_entry (je_id x) d). by rewrite (get_entry_elem d x).
  - assert (je_source_type e = st /\ je_source_id e = si) as [Hst Hsi]
      by (by rewrite (in_entry _ _ _ _ _ _ _ _ _ _ _ Hin)).
    clear Hin. generalize (N.succ (je_id e)). induction res as [|[pl u] res IH]; intros next; [done|].
    cbn -[has_role get_entry]. rewrite Hrole, Hnew, Hst, Hsi.
    destruct (has_role ROLE_AR u d); [f_equal|]; apply IH.
Qed.

Lemma settle_run invoice actor d :
  ledger_posting_enabled (inv_company_id invoice) d = true ->
  pre_cutover_era invoice d || has_opening_anchor invoice d = true ->
  live_like (inv_company_id invoice) "invoice" (str_uuid (inv_id invoice))
    ("invoice:" +:+ str_uuid (inv_id invoice) +:+ ":" +:+ EVENT_OPENING_VOID +:+ ":%") d = [] ->
  0 < invoice_ar_balance_cents invoice d ->
  let remaining := invoice_ar_balance_cents invoice d in
  let memo := "void of pre-cutover invoice " +:+ inv_number invoice in
  settle_opening_on_void invoice actor d =
  (post_for_event
     (mk_event (inv_company_id invoice) "invoice" (str_uuid (inv_id invoice)) EVENT_OPENING_VOID
        (shop_today_from_settings d)
        [mk_pline remaining (Some ROLE_OPENING_EQUITY) None (Some memo) None (inv_customer_id invoice);
         mk_pline (- remaining) (Some ROLE_AR) None (Some memo) (inv_job_id invoice) (inv_customer_id invoice)]
        actor None) false ;;; mreturn tt) d.
Proof using Type.
  intros H1 H2 H3 H4 remaining memo. unfold settle_opening_on_void.
  unfold mseq at 1, mreads at 1. rewrite H1. cbn [negb]. unfold mseq at 1, mreads at 1.
  unfold mseq at 1, mreads at 1. rewrite <- negb_orb, H2. cbn [negb].
  unfold mseq at 1, mreads at 1. rewrite H3. cbn [head].
  unfold mseq at 1, mreads at 1. rewrite (proj2 (Z.leb_gt _ _) H4).
  unfold mseq at 1, mreads at 1. reflexivity.
Qed.
End Void.

(** voiding a pre-cutover invoice clears its receivable.  With the
    receivable and opening-equity accounts in place, when the ledger still
    shows a positive balance for the invoice (issuance, payments and
    adjustments together) and the settlement was not posted before, a
    settlement that succeeds leaves exactly zero. *)
Theorem settle_opening_clears `{WO : WorldOk} invoice actor d d' ar equity
    (Hok : ledger_ok d) (Hone : one_company (inv_company_id invoice) d) (Hsrc : sources_ok d)
    (Haccounts : NoDup (map acc_id (gl_accounts (db_gl d))))
    (Har : role_owners (inv_company_id invoice) ROLE_AR d = [ar])
    (Hequity : role_owners (inv_company_id invoice) ROLE_OPENING_EQUITY d = [equity])
    (Hon : ledger_posting_enabled (inv_company_id invoice) d = true)
    (Hera : pre_cutover_era invoice d || has_opening_anchor invoice d = true)
    (Hfresh : live_like (inv_company_id invoice) "invoice" (str_uuid (inv_id invoice))
       ("invoice:" +:+ str_uuid (inv_id invoice) +:+ ":" +:+ EVENT_OPENING_VOID +:+ ":%") d = [])
    (Hpos : 0 < invoice_ar_balance_cents invoice d)
    (Hrun : settle_opening_on_void invoice actor d = (Ok tt, d')) (Hs : supply_ok d') :
  invoice_ar_balance_cents invoice d' = 0.
Proof.
  rewrite (settle_run invoice actor d Hon Hera Hfresh Hpos) in Hrun. apply mseq_Ok in Hrun as (e & d1 & Hpost & Hrun).
  minv Hrun. set (remaining := invoice_ar_balance_cents invoice d) in *.
  match type of Hpost with post_for_event ?x _ _ = _ => set (ev := x) in * end.
  assert (ev_live ev d = []) as Hempty.
  { apply live_like_empty; [by apply stream_wildcard_free|].
    change (stream (ev_source_type ev) (ev_source_id ev) (ev_event ev) +:+ "%") with
      ("invoice:" +:+ str_uuid (inv_id invoice) +:+ ":" +:+ EVENT_OPENING_VOID +:+ ":%").
    cbn [ev_company_id ev_source_type ev_source_id ev]. by rewrite Hfresh. }
  destruct (post_Ok_prepared _ _ _ _ _ _ Hpost) as (res & p & dx & Hprep).
  pose proof (resolve_two (inv_company_id invoice) ROLE_OPENING_EQUITY ROLE_AR equity ar
    _ _ d ltac:(by apply (bool_decide_unpack _)) ltac:(by apply (bool_decide_unpack _)) Hequity Har
    (eq_refl : pl_role (mk_pline remaining (Some ROLE_OPENING_EQUITY) None
       (Some ("void of pre-cutover invoice " +:+ inv_number invoice)) None (inv_customer_id invoice)) = _)
    (eq_refl : pl_role (mk_pline (- remaining) (Some ROLE_AR) None
       (Some ("void of pre-cutover invoice " +:+ inv_number invoice)) (inv_job_id invoice)
       (inv_customer_id invoice)) = _)) as Hres.
  pose proof (pr_resolved _ _ _ _ _ Hprep) as Hres'. cbn [ev_company_id ev_lines ev] in Hres'.
  rewrite Hres in Hres'. injection Hres' as <- <-.
  destruct (post_inserts ev false d e d' _ p Hok Hone Hsrc Hs Hprep Hempty Hpost)
    as (d2 & key & Hf & Hacc & Hops & Hin).
  pose proof (ar_role_lines_inserted _ _ _ _ _ _ _ _ d d2 e d' Hok Hf Hacc Hin) as Hlines.
  destruct (role_owner_elem _ _ _ _ Har) as [Hain Harole].
  destruct (role_owner_elem _ _ _ _ Hequity) as [Hein Herole].
  cbn [omap list_omap snd fst] in Hlines. rewrite !has_role_of in Hlines by done.
  unfold owns_role in Hlines. rewrite Harole, Herole in Hlines. cbn in Hlines.
  assert (forall x y, source_of_invoice invoice d' x y = source_of_invoice invoice d x y) as Hsame.
  { intros x y. unfold source_of_invoice, invoice_payments, invoice_adjustments.
    by rewrite (in_ops _ _ _ _ _ _ _ _ _ _ _ Hin), Hops. }
  unfold invoice_ar_balance_cents. rewrite Hlines, List.filter_app, map_app, zsum_app.
  rewrite (List.filter_ext _ (fun x => source_of_invoice invoice d (fst (fst x)) (snd (fst x))))
    by (intros x; apply Hsame).
  fold (invoice_ar_balance_cents invoice d). fold remaining. cbn [List.filter fst snd].
  rewrite Hsame. unfold source_of_invoice at 1, opt_eqb at 1 2. rewrite !bool_decide_eq_true_2 by done.
  cbn. lia.
Qed.

Definition cutover_db : Db :=
  mk_db (set_settings (fun _ => [mk_settings "co" true (Some 739000) None None None None None]) (db_gl lined_db))
    (db_ops lined_db).
Definition anchored_db : Db := run_rules (W := toy_world) [CallOpeningBalance lined_invoice None] cutover_db.
Definition owner (role : string) : GlAccount :=
  default (mk_account 0%N "" "" asset None false false "" 0) (head (role_owners "co" role anchored_db)).

Lemma anchored_db_ok : ledger_ok anchored_db.
Proof.
  pose proof (run_rules_keeps (W := toy_world) rely (LedgerRelation0 := rely_ledger_relation (WO := toy_world_ok))
    [CallOpeningBalance lined_invoice None] cutover_db) as Hr.
  apply (rely_journal _ _ Hr); [unfold supply_ok; vm_compute; discriminate|].
  apply ledger_ok_empty. split; vm_compute; reflexivity.
Qed.

Lemma anchored_db_sources : sources_ok anchored_db.
Proof.
  apply (run_rules_keeps (W := toy_world) keeps_sources [CallOpeningBalance lined_invoice None] cutover_db).
  apply empty_sources. vm_compute. reflexivity.
Qed.

Definition settled_db : Db := snd (settle_opening_on_void (W := toy_world) lined_invoice None anchored_db).

Lemma settle_opening_clears_witness :
  invoice_ar_balance_cents lined_invoice anchored_db = 10825 /\
  invoice_ar_balance_cents lined_invoice settled_db = 0.
Proof.
  split; [vm_compute; reflexivity|].
  apply (settle_opening_clears (WO := toy_world_ok) lined_invoice None anchored_db settled_db
           (owner ROLE_AR) (owner ROLE_OPENING_EQUITY)).
  - exact anchored_db_ok.
  - intros e He. vm_compute in He. apply list_elem_of_singleton in He as ->. reflexivity.
  - exact anchored_db_sources.
  - apply (bool_decide_unpack _). vm_compute. exact I.
  - vm_compute. reflexivity.
  - vm_compute. reflexivity.
  - vm_compute. reflexivity.
  - vm_compute. reflexivity.
  - vm_compute. reflexivity.
  - vm_compute. reflexivity.
  - vm_compute. reflexivity.
  - unfold supply_ok. vm_compute. discriminate.
Defined.
