(* ===== verification/Chokepoint.v ===== *)
(** The chokepoint of invoice status ([transition_invoice_status] in
    [modules/ledger/service.py], the rule table at the end of
    [modules/ledger/rules.py]), the flush guard that polices it
    ([modules/ledger/guard.py]) and the invoice void
    ([core/invoice_void.py]).

    The session state is the database plus what lives in [session.info] and on
    the instances: the sanction stamp of an invoice, the registry of stamped
    invoices, the flag cache, and the domain events emitted so far (the
    emitter is outside code, observed only through what it is handed).

    The session does not autoflush, so a stamp lives until an explicit flush.
    The flushes that a posting rule causes ([begin_nested] in the engine, the
    top-up of the chart) are modelled in the transition and in the void
    ([on_ledger]): they run the guard over the stamped invoices and spend the
    stamps.  The flushes and the commit of the request handlers are not: the
    handlers of the other files are about the rows and look at no stamp. *)

From S2P Require Import Prelude PyStr Dates Money Models PayPeriods Keys Coa Engine EngineInv EngineSpec Service RulesBase Opening Issuance Payments Adjustments RulesSafe.

Local Open Scope Z_scope.

Record Session : Type := mk_session {
  se_db : Db;
  se_sanctions : gmap uuid invoice_status;
  se_registry : list uuid;
  se_flag_cache : gmap string bool;
  se_events : list (string * uuid * Z)
}.

Definition set_db (f : Db -> Db) (s : Session) : Session :=
  mk_session (f (se_db s)) (se_sanctions s) (se_registry s) (se_flag_cache s) (se_events s).
Definition set_sanctions (f : gmap uuid invoice_status -> gmap uuid invoice_status) (s : Session)
  : Session :=
  mk_session (se_db s) (f (se_sanctions s)) (se_registry s) (se_flag_cache s) (se_events s).
Definition set_registry (f : list uuid -> list uuid) (s : Session) : Session :=
  mk_session (se_db s) (se_sanctions s) (f (se_registry s)) (se_flag_cache s) (se_events s).
Definition set_flag_cache (f : gmap string bool -> gmap string bool) (s : Session) : Session :=
  mk_session (se_db s) (se_sanctions s) (se_registry s) (f (se_flag_cache s)) (se_events s).
Definition emit (e : string * uuid * Z) (s : Session) : Session :=
  mk_session (se_db s) (se_sanctions s) (se_registry s) (se_flag_cache s) (se_events s ++ [e]).

(** A database computation run by the session. *)
Definition on_db {A} (m : M Db A) : M Session A := fun s =>
  let '(r, d) := m (se_db s) in (r, set_db (fun _ => d) s).

(** * Rows *)

Definition get_invoice (id_ : uuid) (d : Db) : option Invoice :=
  List.find (fun i => N.eqb (inv_id i) id_) (op_invoices (db_ops d)).

Definition with_status (st : invoice_status) (i : Invoice) : Invoice :=
  mk_invoice (inv_id i) (inv_number i) st (inv_total i) (inv_tax_amount i) (inv_balance_due i)
    (inv_job_id i) (inv_customer_id i) (inv_company_id i) (inv_invoice_date i) (inv_sent_at i)
    (inv_created_at i) (inv_deleted_at i) (inv_subtotal i) (inv_tax_rate i) (inv_totals_locked i) (inv_paid_at i)
    (inv_billing_type i) (inv_estimate_id i) (inv_origin i) (inv_verified_at i) (inv_locked i).

Definition write_status (id_ : uuid) (st : invoice_status) : Db -> Db :=
  set_ops (set_invoices (update_where (fun i => N.eqb (inv_id i) id_) (with_status st))).

(** [int((total or 0) * 100)] *)
Definition event_cents (total : option decimal) : result Z :=
  match _dec total with
  | DFinite c e => Ok (if -2 <=? e then c * 10 ^ (e + 2) else Z.quot c (10 ^ (- 2 - e)))
  | DInfinity _ => Err ArithmeticError
  | DNaN => Err ValueError
  end.

(** * The flush guard *)

(** An [Invoice] instance as the unit of work sees it. *)
Record GuardObj : Type := mk_obj {
  ob_id : uuid;
  ob_company_id : string;
  ob_status : option invoice_status;
  ob_status_changed : bool
}.

Record FlushSet : Type := mk_flush {
  fl_dirty : list GuardObj; fl_new : list GuardObj; fl_deleted : list GuardObj
}.

(** [GDX_ENV] and [PYTEST_CURRENT_TEST] *)
Definition _raise_mode (gdx_env pytest : option string) : bool :=
  let env := str_lower (str_strip (default "" gdx_env)) in
  if existsb (String.eqb env) ["prod"; "production"; "staging"] then false
  else if existsb (String.eqb env) ["dev"; "development"; "test"; "testing"; "local"] then true
  else truthy_str pytest.

Definition _flag_for (company_id : string) : M Session bool := fun s =>
  match se_flag_cache s !! company_id with
  | Some b => (Ok b, s)
  | None => let b := ledger_posting_enabled company_id (se_db s) in
            (Ok b, set_flag_cache (<[company_id := b]>) s)
  end.

Definition _consume_sanction (obj : GuardObj) : M Session bool := fun s =>
  match se_sanctions s !! ob_id obj with
  | None => (Ok false, s)
  | Some st => (Ok (opt_eqb (Some st) (ob_status obj)), set_sanctions (delete (ob_id obj)) s)
  end.

Definition check_dirty (obj : GuardObj) : M Session (list uuid) :=
  if negb (ob_status_changed obj) then mreturn []
  else ok <- _consume_sanction obj ;;
       if ok : bool then mreturn []
       else flag <- _flag_for (ob_company_id obj) ;;
            mreturn (if flag : bool then [ob_id obj] else []).

Definition check_new (obj : GuardObj) : M Session (list uuid) :=
  if opt_eqb (ob_status obj) None || opt_eqb (ob_status obj) (Some draft) then mreturn []
  else ok <- _consume_sanction obj ;;
       if ok : bool then mreturn []
       else flag <- _flag_for (ob_company_id obj) ;;
            mreturn (if flag : bool then [ob_id obj] else []).

Definition check_deleted (obj : GuardObj) : M Session (list uuid) :=
  flag <- _flag_for (ob_company_id obj) ;;
  mreturn (if flag : bool then [ob_id obj] else []).

(** The offenders the guard found; in log-only mode the flush proceeds. *)
Definition _check_flush (raise_mode : bool) (fl : FlushSet) : M Session (list uuid) :=
  a <- mmap check_dirty (fl_dirty fl) ;;
  b <- mmap check_new (fl_new fl) ;;
  c <- mmap check_deleted (fl_deleted fl) ;;
  let offenders := concat a ++ concat b ++ concat c in
  match offenders with
  | [] => mreturn []
  | _ => if raise_mode then mraise ChokepointBypassError else mreturn offenders
  end.

(** What SQLAlchemy left of an instance after a savepoint rollback: expunged,
    expired, or its loaded status. *)
Inductive after_rollback : Type := Expunged | Expired | Loaded (st : option invoice_status).

Definition _sanctioned_write_survived (state : after_rollback) (sanction : option invoice_status) : bool :=
  match state with
  | Expunged | Expired => false
  | Loaded st => opt_eqb st sanction
  end.

(** The registry filter of a savepoint rollback. *)
Fixpoint filter_registry (state : uuid -> after_rollback) (registry : list uuid)
    (sanctions : gmap uuid invoice_status) : list uuid * gmap uuid invoice_status :=
  match registry with
  | [] => ([], sanctions)
  | obj :: registry' =>
      match sanctions !! obj with
      | None => filter_registry state registry' sanctions
      | Some st =>
          if _sanctioned_write_survived (state obj) (Some st)
          then let '(survivors, sanctions') := filter_registry state registry' sanctions in
               (obj :: survivors, sanctions')
          else filter_registry state registry' (delete obj sanctions)
      end
  end.

Definition _clear_sanctions_on_rollback (nested : bool) (state : uuid -> after_rollback)
  : Session -> Session := fun s =>
  if negb nested then
    set_registry (fun _ => [])
      (set_sanctions (fun m => foldl (fun m obj => delete obj m) m (se_registry s)) s)
  else
    let '(survivors, sanctions) := filter_registry state (se_registry s) (se_sanctions s) in
    set_registry (fun _ => survivors) (set_sanctions (fun _ => sanctions) s).

(** * Flushes the ledger causes *)

(** The invoices a flush finds with a changed status: those whose stamp is
    still live, since a stamp is set together with the status write and
    deleted by the flush that writes it out. *)
Definition dirty_invoices (s : Session) : list GuardObj :=
  omap (fun us => (fun i => mk_obj (fst us) (inv_company_id i) (Some (inv_status i)) true) <$>
                  get_invoice (fst us) (se_db s))
    (map_to_list (se_sanctions s)).

(** A flush, as far as the guard's [before_flush] listener is concerned, in
    production's log-only mode; when the stamps agree with the rows nothing
    depends on the mode ([sanctioned_flush]). *)
Definition flush_session (s : Session) : Session :=
  snd (_check_flush false (mk_flush (dirty_invoices s) [] []) s).

(** Did a ledger computation flush?  The session does not autoflush
    ([core/database.py]); the engine flushes when [begin_nested] takes the
    savepoint of an insert (and again after a reversal), [seed_coa] when it
    added accounts.  Each of them draws identifiers, and nothing else in a
    posting rule does. *)
Definition ids_drawn (d d' : Db) : bool :=
  negb (N.eqb (gl_next_uuid (db_gl d)) (gl_next_uuid (db_gl d'))).

(** Did one of its savepoints roll back (an insert refused by a constraint)?
    Every identifier drawn is that of an account, entry or line; those of a
    rolled back insert are drawn and lost. *)
Definition rows_count (d : Db) : N :=
  N.of_nat (length (gl_accounts (db_gl d)) + length (gl_entries (db_gl d)) + length (gl_lines (db_gl d))).
Definition savepoint_rolled_back (d d' : Db) : bool :=
  negb (N.eqb (gl_next_uuid (db_gl d') - gl_next_uuid (db_gl d)) (rows_count d' - rows_count d)).

(** What the listeners do to the session meanwhile: the flush comes before the
    savepoint, so its rollback unwinds no status write. *)
Definition after_flush (rolled_back : bool) (s : Session) : Session :=
  let s' := flush_session s in
  if rolled_back
  then _clear_sanctions_on_rollback true (fun u => Loaded (inv_status <$> get_invoice u (se_db s'))) s'
  else s'.

(** A posting rule run by the session: a flush on its way spends the stamps,
    whether the rule then succeeds or not. *)
Definition on_ledger {A} (m : M Db A) : M Session A := fun s =>
  let '(r, d) := m (se_db s) in
  let s' := set_db (fun _ => d) s in
  (r, if ids_drawn (se_db s) d then after_flush (savepoint_rolled_back (se_db s) d) s' else s').

(** * The transition *)

Section Transition.
Context `{W : World}.

(** The rule registered for [(old_status, new_status)]. *)
Definition _POSTING_RULES (old_status new_status : invoice_status)
  : option (Invoice -> option string -> M Db unit) :=
  match old_status, new_status with
  | draft, sent => Some post_invoice_issuance
  | draft, paid => Some post_invoice_issuance
  | sent, void => Some reverse_invoice_issuance
  | paid, void => Some reverse_invoice_issuance
  | _, _ => None
  end.

Definition transition_invoice_status (id_ : uuid) (new_status : invoice_status)
    (actor : option string) : M Session invoice_status :=
  found <- on_db (mreads (get_invoice id_)) ;;
  match found with
  | None => mraise AttributeError
  | Some invoice =>
      let old_status := inv_status invoice in
      if decide (new_status = old_status) then mreturn old_status
      else if decide (old_status = void) then mreturn old_status
      else
        mwrite (set_sanctions (<[id_ := new_status]>)) ;;;
        mwrite (set_registry (fun l => l ++ [id_])) ;;;
        mwrite (set_db (write_status id_ new_status)) ;;;
        let invoice := with_status new_status invoice in
        enabled <- on_db (mreads (ledger_posting_enabled (inv_company_id invoice))) ;;
        (match _POSTING_RULES old_status new_status with
         | Some rule => if enabled : bool then on_ledger (rule invoice actor) else mreturn tt
         | None => mreturn tt
         end) ;;;
        (if bool_decide (new_status = paid)
         then amount_cents <- mlift (event_cents (inv_total invoice)) ;;
              mwrite (emit ("invoice.paid", id_, amount_cents))
         else mreturn tt) ;;;
        mreturn old_status
  end.

End Transition.

(** * The void *)

(** [db.rollback()] of a session that began its transaction in [s0]: the
    database and the staged events are as they were, the guard's listener
    runs, the flag cache stays. *)
Definition rollback (s0 s : Session) : Session :=
  _clear_sanctions_on_rollback false (fun _ => Expunged)
    (mk_session (se_db s0) (se_sanctions s) (se_registry s) (se_flag_cache s) (se_events s0)).

Section Void.
Context `{W : World}.

(** The ledger writes of a void, inside its [try]. *)
Definition void_postings (id_ : uuid) (invoice : Invoice) (actor : string) : M Session unit :=
  transition_invoice_status id_ void (Some actor) ;;;
  on_ledger (reverse_invoice_adjustments (with_status void invoice) (Some actor)) ;;;
  on_ledger (settle_opening_on_void (with_status void invoice) (Some actor)).

(** [invoice.balance_due = Decimal("0.00")] *)
Definition clear_balance (id_ : uuid) : Db -> Db :=
  set_ops (set_invoices (update_where (fun i => N.eqb (inv_id i) id_)
    (fun i => mk_invoice (inv_id i) (inv_number i) (inv_status i) (inv_total i)
       (inv_tax_amount i) (Some (DFinite 0 (-2))) (inv_job_id i) (inv_customer_id i)
       (inv_company_id i) (inv_invoice_date i) (inv_sent_at i) (inv_created_at i)
       (inv_deleted_at i) (inv_subtotal i) (inv_tax_rate i) (inv_totals_locked i) (inv_paid_at i)
       (inv_billing_type i) (inv_estimate_id i) (inv_origin i) (inv_verified_at i) (inv_locked i)))).

(** [void_invoice] up to the balance write; the releases of parts, change
    orders and time entries, the payment plan and the audit row follow it in
    the same transaction and are not modelled.  A locked period rolls the
    session back to where it began. *)
Definition void_invoice (id_ : uuid) (actor : string) : M Session bool := fun s0 =>
  (if String.eqb (str_strip actor) "" then mraise ValueError
   else
     found <- on_db (mreads (get_invoice id_)) ;;
     match found with
     | None => mraise (HTTPException 404)
     | Some invoice =>
         match inv_deleted_at invoice with
         | Some _ => mraise (HTTPException 404)
         | None =>
             if decide (inv_status invoice = void) then mreturn true
             else
               live <- on_db (mreads (fun d =>
                 List.filter (fun p => negb (is_voided p)) (invoice_payments invoice d))) ;;
               match live with
               | _ :: _ => mraise (HTTPException 409)
               | [] =>
                   mcatch (void_postings id_ invoice actor) PeriodLockedError
                     (mwrite (rollback s0) ;;; mraise (HTTPException 409)) ;;;
                   mwrite (set_db (clear_balance id_)) ;;;
                   mreturn false
               end
         end
     end) s0.
End Void.

(** * Lemmas: the guard *)

(** The flag the guard sees: cached, or read now. *)
Definition flag_of (s : Session) (c : string) : bool :=
  default (ledger_posting_enabled c (se_db s)) (se_flag_cache s !! c).

Definition exactly_sanctioned (s : Session) (obj : GuardObj) : bool :=
  match se_sanctions s !! ob_id obj with
  | Some st => opt_eqb (Some st) (ob_status obj)
  | None => false
  end.

(** Both loops of the guard over objects whose status needs a sanction. *)
Definition check_with (policed : GuardObj -> bool) (obj : GuardObj) : M Session (list uuid) :=
  if negb (policed obj) then mreturn []
  else ok <- _consume_sanction obj ;;
       if ok : bool then mreturn []
       else flag <- _flag_for (ob_company_id obj) ;;
            mreturn (if flag : bool then [ob_id obj] else []).

Definition offends (policed : GuardObj -> bool) (s : Session) (obj : GuardObj) : bool :=
  policed obj && negb (exactly_sanctioned s obj) && flag_of s (ob_company_id obj).

Definition policed_new (obj : GuardObj) : bool :=
  negb (opt_eqb (ob_status obj) None || opt_eqb (ob_status obj) (Some draft)).

Lemma check_dirty_with obj : check_dirty obj = check_with ob_status_changed obj.
Proof. reflexivity. Qed.
Lemma check_new_with obj : check_new obj = check_with policed_new obj.
Proof. unfold check_new, check_with, policed_new. by rewrite negb_involutive. Qed.

(** What a guard step leaves alone. *)
Record guard_frame (s s' : Session) : Prop := {
  gf_db : se_db s' = se_db s;
  gf_registry : se_registry s' = se_registry s;
  gf_flag : forall c, flag_of s' c = flag_of s c;
  gf_events : se_events s' = se_events s
}.

#[export] Instance guard_frame_preorder : PreOrder guard_frame.
Proof.
  split; [by split|]. intros a b c [A1 A2 A3 A4] [B1 B2 B3 B4].
  split; [congruence..| |congruence]. intros x. by rewrite B3, A3.
Qed.

Lemma flag_for_run c s :
  exists s', _flag_for c s = (Ok (flag_of s c), s') /\ guard_frame s s' /\
             se_sanctions s' = se_sanctions s.
Proof.
  unfold _flag_for, flag_of. destruct (se_flag_cache s !! c) as [b|] eqn:E.
  - exists s. split_and!; [done|reflexivity|done].
  - eexists. split; [reflexivity|]. split; [|done]. split; try done. intros x. unfold flag_of. cbn.
    destruct (decide (x = c)) as [->|Hne]; [by rewrite lookup_insert_eq, E|by rewrite lookup_insert_ne].
Qed.

Lemma check_with_run policed obj s :
  exists s', check_with policed obj s = (Ok (if offends policed s obj then [ob_id obj] else []), s') /\
    guard_frame s s' /\
    se_sanctions s' = if policed obj then delete (ob_id obj) (se_sanctions s) else se_sanctions s.
Proof.
  unfold check_with, offends. destruct (policed obj); cbn [negb andb];
    [|exists s; split_and!; [done|reflexivity|done]].
  unfold mseq at 1, _consume_sanction, exactly_sanctioned.
  destruct (se_sanctions s !! ob_id obj) as [st|] eqn:E.
  - set (s1 := set_sanctions (delete (ob_id obj)) s).
    assert (guard_frame s s1) as Hf by done.
    destruct (opt_eqb (Some st) (ob_status obj)); cbn [negb andb].
    + exists s1. done.
    + unfold mseq. destruct (flag_for_run (ob_company_id obj) s1) as (s2 & -> & Hf2 & Hs2).
      exists s2. split_and!; [done|by etrans|]. by rewrite Hs2.
  - cbn [negb andb]. unfold mseq. destruct (flag_for_run (ob_company_id obj) s) as (s2 & -> & Hf2 & Hs2).
    exists s2. split_and!; [done|done|]. rewrite Hs2. by rewrite delete_id.
Qed.

Lemma check_with_map policed l s :
  NoDup (map ob_id l) ->
  exists offs s', mmap (check_with policed) l s = (Ok offs, s') /\
    concat offs = map ob_id (List.filter (offends policed s) l) /\ guard_frame s s' /\
    (forall u, (exists o, o ∈ l /\ ob_id o = u /\ policed o = true) -> se_sanctions s' !! u = None) /\
    (forall u, u ∉ map ob_id l -> se_sanctions s' !! u = se_sanctions s !! u) /\
    (forall u st, se_sanctions s' !! u = Some st -> se_sanctions s !! u = Some st).
Proof.
  revert s. induction l as [|o l IH]; intros s Hnd; cbn [mmap].
  { exists [], s. split_and!; try done. intros u (x & Hx & _). by apply elem_of_nil in Hx. }
  cbn [map] in Hnd. apply NoDup_cons in Hnd as [Ho Hnd].
  destruct (check_with_run policed o s) as (s1 & E1 & Hf1 & Hs1).
  unfold mseq at 1. rewrite E1. destruct (IH s1 Hnd) as (offs & s2 & E2 & Hc & Hf2 & Hdel & Hout & Hin).
  unfold mseq at 1. rewrite E2. eexists _, s2. split; [reflexivity|].
  assert (forall u, u <> ob_id o -> se_sanctions s1 !! u = se_sanctions s !! u) as Hne.
  { intros u Hu. rewrite Hs1. destruct (policed o); [by rewrite lookup_delete_ne|done]. }
  assert (List.filter (offends policed s1) l = List.filter (offends policed s) l) as Hfilt.
  { apply List.filter_ext_in. intros x Hx%list_elem_of_In. unfold offends, exactly_sanctioned.
    rewrite (gf_flag _ _ Hf1), Hne; [done|]. intros Heq. apply Ho. rewrite <- Heq.
    apply elem_of_map_b. eauto. }
  split_and!.
  - cbn [concat List.filter]. rewrite Hc, Hfilt. by destruct (offends policed s o).
  - by etrans.
  - intros u (x & Hx & <- & Hp). apply elem_of_cons in Hx as [->|Hx]; [|apply Hdel; eauto].
    rewrite Hout by done. rewrite Hs1, Hp. apply lookup_delete_eq.
  - intros u Hu. cbn [map] in Hu. apply not_elem_of_cons in Hu as [Hu1 Hu2].
    rewrite Hout by done. by apply Hne.
  - intros u st Hu. apply Hin in Hu. rewrite Hs1 in Hu.
    destruct (policed o); [|done]. by apply lookup_delete_Some in Hu as [_ Hu].
Qed.

Lemma check_deleted_map l s :
  exists offs s', mmap check_deleted l s = (Ok offs, s') /\
    concat offs = map ob_id (List.filter (fun o => flag_of s (ob_company_id o)) l) /\
    guard_frame s s' /\ se_sanctions s' = se_sanctions s.
Proof.
  revert s. induction l as [|o l IH]; intros s; cbn [mmap].
  { exists [], s. split_and!; done. }
  destruct (flag_for_run (ob_company_id o) s) as (s1 & E1 & Hf1 & Hs1).
  unfold mseq at 1, check_deleted at 1, mseq at 1. rewrite E1. cbn [mreturn].
  destruct (IH s1) as (offs & s2 & E2 & Hc & Hf2 & Hs2). unfold mseq at 1. rewrite E2.
  eexists _, s2. split; [reflexivity|]. split_and!; [|by etrans|congruence].
  cbn [concat List.filter]. rewrite Hc.
  rewrite (List.filter_ext _ (fun x => flag_of s (ob_company_id x)))
    by (intros x; apply (gf_flag _ _ Hf1)). by destruct (flag_of s (ob_company_id o)).
Qed.

(** Every live stamp is in the registry, so the root rollback finds it. *)
Definition stamps_registered (s : Session) : Prop :=
  forall u st, se_sanctions s !! u = Some st -> u ∈ se_registry s.

Definition keeps_registered (a b : Session) : Prop := stamps_registered a -> stamps_registered b.

#[export] Instance keeps_registered_preorder : PreOrder keeps_registered.
Proof. split; [intros a Ha; exact Ha|intros a b c H1 H2 Ha; auto]. Qed.

(** What a savepoint rollback keeps of the stamps. *)
Lemma filter_registry_spec state registry m l m' :
  filter_registry state registry m = (l, m') ->
  (forall u, m' !! u =
     match m !! u with
     | Some st => if decide (u ∈ registry) then
                    (if _sanctioned_write_survived (state u) (Some st) then Some st else None)
                  else Some st
     | None => None
     end) /\
  (forall u, is_Some (m' !! u) -> u ∈ registry -> u ∈ l).
Proof.
  revert m l m'. induction registry as [|x registry IH]; intros m l m' E; cbn [filter_registry] in E.
  { injection E as <- <-. split.
    - intros u. destruct (m !! u); [|done]. rewrite decide_False; [done|]. apply not_elem_of_nil.
    - intros u _ Hu. by apply elem_of_nil in Hu. }
  destruct (m !! x) as [st|] eqn:Hx.
  - destruct (_sanctioned_write_survived (state x) (Some st)) eqn:Hs.
    + destruct (filter_registry state registry m) as [l1 m1] eqn:E1. injection E as <- <-.
      destruct (IH _ _ _ E1) as [H1 H2]. split.
      * intros u. rewrite H1. destruct (m !! u) as [st'|] eqn:Hu; [|done].
        destruct (decide (u = x)) as [->|Hne].
        -- assert (st' = st) as -> by congruence. rewrite Hs.
           rewrite (decide_True _ _ (list_elem_of_here x registry)). by case_decide.
        -- destruct (decide (u ∈ registry)); [rewrite decide_True|rewrite decide_False]; try done.
           ++ by apply list_elem_of_further.
           ++ by apply not_elem_of_cons.
      * intros u Hu [->|Hr]%elem_of_cons; [apply list_elem_of_here|]. apply list_elem_of_further. auto.
    + destruct (IH _ _ _ E) as [H1 H2]. split.
      * intros u. rewrite H1. destruct (decide (u = x)) as [->|Hne].
        -- rewrite lookup_delete_eq, Hx, Hs. by rewrite decide_True by apply list_elem_of_here.
        -- rewrite lookup_delete_ne by done. destruct (m !! u); [|done].
           destruct (decide (u ∈ registry)); [rewrite decide_True|rewrite decide_False]; try done.
           ++ by apply list_elem_of_further.
           ++ by apply not_elem_of_cons.
      * intros u Hu [->|Hr]%elem_of_cons; [|auto]. rewrite H1, lookup_delete_eq in Hu. by destruct Hu.
  - destruct (IH _ _ _ E) as [H1 H2]. split.
    + intros u. rewrite H1. destruct (m !! u) eqn:Hu; [|done].
      assert (u <> x) by congruence.
      destruct (decide (u ∈ registry)); [rewrite decide_True|rewrite decide_False]; try done.
      * by apply list_elem_of_further.
      * by apply not_elem_of_cons.
    + intros u Hu [->|Hr]%elem_of_cons; [|auto]. rewrite H1, Hx in Hu. by destruct Hu.
Qed.

(** A savepoint rollback forgets stamps, and keeps those it leaves registered. *)
Lemma nested_rollback_run state s :
  let s' := _clear_sanctions_on_rollback true state s in
  se_db s' = se_db s /\ se_events s' = se_events s /\
  (forall u st, se_sanctions s' !! u = Some st -> se_sanctions s !! u = Some st) /\ keeps_registered s s'.
Proof.
  unfold _clear_sanctions_on_rollback. cbn [negb].
  destruct (filter_registry state (se_registry s) (se_sanctions s)) as [l m] eqn:E.
  destruct (filter_registry_spec _ _ _ _ _ E) as [H1 H2]. cbn. split_and!; [done..| |].
  - intros u st. rewrite H1. destruct (se_sanctions s !! u) as [x|]; [|done]. case_decide; [|done]. by case_if.
  - intros Hs u st Hu. cbn in Hu |- *. apply H2; [by rewrite Hu|]. rewrite H1 in Hu.
    destruct (se_sanctions s !! u) as [x|] eqn:Ex; [|done]. by eapply Hs.
Qed.

(** ** The flush of a posting rule *)

Lemma dirty_elem s o :
  o ∈ dirty_invoices s <->
  exists u st i, se_sanctions s !! u = Some st /\ get_invoice u (se_db s) = Some i /\
    o = mk_obj u (inv_company_id i) (Some (inv_status i)) true.
Proof.
  unfold dirty_invoices. rewrite list_elem_of_omap. split.
  - intros ([u st] & Hm & E). apply elem_of_map_to_list in Hm. cbn in E.
    destruct (get_invoice u (se_db s)) as [i|] eqn:Hi; [|done]. injection E as <-. eauto 6.
  - intros (u & st & i & Hs & Hi & ->). exists (u, st). rewrite elem_of_map_to_list. cbn. by rewrite Hi.
Qed.

Lemma dirty_nodup s : NoDup (map ob_id (dirty_invoices s)).
Proof.
  pose proof (NoDup_fst_map_to_list (se_sanctions s)) as H. unfold dirty_invoices.
  induction (map_to_list (se_sanctions s)) as [|[u st] l IH]; [constructor|].
  cbn [fmap list_fmap fst] in H. apply NoDup_cons in H as [Hu Hl]. cbn [omap list_omap fst].
  destruct (get_invoice u (se_db s)) as [i|]; cbn [fmap option_fmap option_map]; [|by apply IH].
  cbn [map ob_id]. apply NoDup_cons. split; [|by apply IH]. intros (o & Ho & E)%elem_of_map_b.
  apply Hu. apply list_elem_of_omap in Ho as ([v st'] & Hv & Eo). cbn in Eo.
  destruct (get_invoice v (se_db s)); [|done]. injection Eo as <-. cbn in E. subst v.
  apply list_elem_of_fmap. by exists (u, st').
Qed.

(** The guard over updated invoices alone, in either mode. *)
Lemma check_flush_dirty raise_mode l s :
  NoDup (map ob_id l) ->
  exists offs s', offs = map ob_id (List.filter (offends ob_status_changed s) l) /\
    _check_flush raise_mode (mk_flush l [] []) s =
      (match offs with [] => Ok [] | _ => if raise_mode then Err ChokepointBypassError else Ok offs end, s') /\
    guard_frame s s' /\
    (forall o, o ∈ l -> ob_status_changed o = true -> se_sanctions s' !! ob_id o = None) /\
    (forall u st, se_sanctions s' !! u = Some st -> se_sanctions s !! u = Some st) /\
    (forall u, u ∉ map ob_id l -> se_sanctions s' !! u = se_sanctions s !! u).
Proof.
  intros Hnd. destruct (check_with_map ob_status_changed l s Hnd) as (oa & s1 & E & C & F & D & O & I).
  eexists _, s1. split; [reflexivity|]. split; [|by eauto 10].
  unfold _check_flush. unfold mseq at 1. cbn [fl_dirty fl_new fl_deleted].
  change check_dirty with (check_with ob_status_changed). rewrite E.
  unfold mseq. cbn [mmap mreturn concat]. rewrite !app_nil_r, C.
  destruct (map _ (List.filter _ _)); [reflexivity|by destruct raise_mode].
Qed.

Lemma flush_session_run s :
  guard_frame s (flush_session s) /\
  (forall u i, get_invoice u (se_db s) = Some i -> se_sanctions (flush_session s) !! u = None) /\
  (forall u st, se_sanctions (flush_session s) !! u = Some st -> se_sanctions s !! u = Some st).
Proof.
  unfold flush_session.
  destruct (check_flush_dirty false (dirty_invoices s) s (dirty_nodup s)) as (offs & s' & _ & E & F & D & I & O).
  rewrite E. cbn [snd]. split_and!; [done| |done]. intros u i Hi.
  destruct (se_sanctions s' !! u) as [st|] eqn:Hs; [|done]. pose proof (I u st Hs) as Hs0.
  rewrite <- Hs. refine (D (mk_obj u (inv_company_id i) (Some (inv_status i)) true) _ eq_refl).
  apply dirty_elem. eauto 7.
Qed.

(** Every live stamp is on an invoice that carries the stamped status, as the
    chokepoint leaves it. *)
Definition stamps_agree (s : Session) : Prop :=
  forall u st, se_sanctions s !! u = Some st ->
    exists i, get_invoice u (se_db s) = Some i /\ inv_status i = st.

(** A flush of nothing but sanctioned writes has no offender in either mode,
    touches nothing but the stamps and spends them all. *)
Lemma sanctioned_flush raise_mode s :
  stamps_agree s ->
  exists s', _check_flush raise_mode (mk_flush (dirty_invoices s) [] []) s = (Ok [], s') /\
    guard_frame s s' /\ se_sanctions s' = ∅.
Proof.
  intros Ha.
  destruct (check_flush_dirty raise_mode (dirty_invoices s) s (dirty_nodup s)) as (offs & s' & Eo & E & F & D & I & O).
  assert (offs = []) as ->.
  { rewrite Eo. replace (List.filter _ _) with (@nil GuardObj); [done|]. symmetry. apply filter_none.
    intros o (u & st & i & Hs & Hi & ->)%dirty_elem. unfold offends, exactly_sanctioned. cbn.
    rewrite Hs. destruct (Ha u st Hs) as (j & Hj & <-). rewrite Hi in Hj. injection Hj as ->.
    unfold opt_eqb. by rewrite bool_decide_eq_true_2. }
  exists s'. split_and!; [done..|]. apply map_eq. intros u. rewrite lookup_empty.
  destruct (se_sanctions s' !! u) as [st|] eqn:Hs; [|done]. pose proof (I u st Hs) as Hs0.
  destruct (Ha u st Hs0) as (i & Hi & _). rewrite <- Hs.
  refine (D (mk_obj u (inv_company_id i) (Some (inv_status i)) true) _ eq_refl). apply dirty_elem. eauto 7.
Qed.

Lemma after_flush_run rolled_back s :
  let s' := after_flush rolled_back s in
  se_db s' = se_db s /\ se_events s' = se_events s /\
  (forall u i, get_invoice u (se_db s) = Some i -> se_sanctions s' !! u = None) /\ keeps_registered s s'.
Proof.
  destruct (flush_session_run s) as ([Hd Hr _ He] & Hnone & Hsub). unfold after_flush. cbv zeta.
  assert (keeps_registered s (flush_session s)) as Hk by (intros Hs u st Hu; rewrite Hr; by eapply Hs, Hsub).
  destruct rolled_back; [|done].
  destruct (nested_rollback_run (fun u => Loaded (inv_status <$> get_invoice u (se_db (flush_session s)))) (flush_session s))
    as (Hd' & He' & Hsub' & Hk'). split_and!; [congruence..| |by etrans].
  intros u i Hi. match goal with |- ?m !! u = None => destruct (m !! u) as [st|] eqn:E; [|done] end.
  apply Hsub' in E. by rewrite (Hnone u i Hi) in E.
Qed.

Lemma on_ledger_db {A} (m : M Db A) s :
  fst (on_ledger m s) = fst (m (se_db s)) /\ se_db (snd (on_ledger m s)) = snd (m (se_db s)).
Proof.
  unfold on_ledger. destruct (m (se_db s)) as [r d]. cbn. split; [done|]. case_if; [|done].
  by destruct (after_flush_run (savepoint_rolled_back (se_db s) d) (set_db (fun _ => d) s)) as [-> _].
Qed.

(** A relation that only looks at the database. *)
Lemma on_ledger_keeps_db {A} (R : Db -> Db -> Prop) (m : M Db A) :
  keeps R m -> keeps (fun a b => R (se_db a) (se_db b)) (on_ledger m).
Proof. intros H s. destruct (on_ledger_db m s) as [_ ->]. apply H. Qed.

(** * Lemmas: the journal *)

Definition srely (s s' : Session) : Prop := rely (se_db s) (se_db s').

#[export] Instance srely_preorder : PreOrder srely.
Proof.
  split; [intros s; unfold srely; reflexivity|]. intros a b c H1 H2. unfold srely in *. by etrans.
Qed.

Lemma on_db_keeps {A} (m : M Db A) : keeps rely m -> keeps srely (on_db m).
Proof.
  intros H s. unfold on_db, srely. specialize (H (se_db s)). destruct (m (se_db s)). done.
Qed.

Lemma keeps_mwrite {S} (R : S -> S -> Prop) f : (forall s, R s (f s)) -> keeps R (mwrite f).
Proof. intros H s. apply H. Qed.

Lemma invoices_frame f d : journal_frame d (set_ops (set_invoices f) d).
Proof. split; try done. intros a Ha. by exists a. Qed.

Section TransitionSafe.
Context `{WO : WorldOk}.

Lemma posting_rules_keep old new rule inv actor :
  _POSTING_RULES old new = Some rule -> keeps rely (rule inv actor).
Proof using WO.
  destruct old, new; cbn; intros [= <-];
    solve [apply post_invoice_issuance_keeps, _|apply reverse_invoice_issuance_keeps, _].
Qed.

Lemma transition_keeps u st actor : keeps srely (transition_invoice_status u st actor).
Proof using WO.
  unfold transition_invoice_status.
  apply keeps_seq; [exact _|apply on_db_keeps, keeps_reads, _|]. intros [inv|]; [|apply keeps_raise, _].
  repeat (case_decide; [apply keeps_return, _|]).
  apply keeps_seq; [exact _|apply keeps_mwrite; intros s; unfold srely; cbn; reflexivity|intros _].
  apply keeps_seq; [exact _|apply keeps_mwrite; intros s; unfold srely; cbn; reflexivity|intros _].
  apply keeps_seq; [exact _|apply keeps_mwrite; intros s; apply journal_frame_rely, invoices_frame|intros _].
  apply keeps_seq; [exact _|apply on_db_keeps, keeps_reads, _|intros enabled].
  apply keeps_seq; [exact _| |intros _].
  { destruct (_POSTING_RULES _ _) as [rule|] eqn:E; [|apply keeps_return, _].
    destruct enabled; [|apply keeps_return, _]. by eapply on_ledger_keeps_db, posting_rules_keep. }
  apply keeps_seq; [exact _| |intros _; apply keeps_return, _].
  case_bool_decide; [|apply keeps_return, _].
  apply keeps_seq; [exact _|apply keeps_lift, _|intros c].
  apply keeps_mwrite. intros s. unfold srely. cbn. reflexivity.
Qed.
End TransitionSafe.

(** * Lemmas: the stamps *)

Lemma delete_all_lookup (l : list uuid) (m : gmap uuid invoice_status) u :
  foldl (fun m obj => delete obj m) m l !! u = if decide (u ∈ l) then None else m !! u.
Proof.
  revert m. induction l as [|x l IH]; intros m; cbn [foldl].
  { rewrite decide_False; [done|]. apply not_elem_of_nil. }
  rewrite IH. destruct (decide (u ∈ l)) as [Hl|Hl].
  - rewrite decide_True; [done|]. by apply list_elem_of_further.
  - destruct (decide (u = x)) as [->|Hne].
    + rewrite decide_True by apply list_elem_of_here. apply lookup_delete_eq.
    + rewrite decide_False by (by apply not_elem_of_cons). by apply lookup_delete_ne.
Qed.

Lemma root_rollback_clears s state :
  stamps_registered s -> se_sanctions (_clear_sanctions_on_rollback false state s) = ∅.
Proof.
  intros H. cbn. apply map_eq. intros u. rewrite delete_all_lookup, lookup_empty.
  case_decide as Hu; [done|]. destruct (se_sanctions s !! u) eqn:E; [|done].
  by apply H in E.
Qed.

Lemma on_db_registered {A} (m : M Db A) : keeps keeps_registered (on_db m).
Proof. intros s Hs. unfold on_db. by destruct (m (se_db s)). Qed.

Lemma on_ledger_registered {A} (m : M Db A) : keeps keeps_registered (on_ledger m).
Proof.
  intros s Hs. unfold on_ledger. destruct (m (se_db s)) as [r d]. cbn [snd]. case_if; [|done].
  destruct (after_flush_run (savepoint_rolled_back (se_db s) d) (set_db (fun _ => d) s)) as (_ & _ & _ & Hk).
  by apply Hk.
Qed.

Lemma stamp_registered u st s :
  keeps_registered s (set_db (write_status u st) (set_registry (fun l => l ++ [u])
    (set_sanctions (<[u := st]>) s))).
Proof.
  intros Hs v st'. cbn. destruct (decide (v = u)) as [->|Hne].
  - intros _. rewrite elem_of_app, list_elem_of_singleton. auto.
  - rewrite lookup_insert_ne by done. intros Hv. rewrite elem_of_app. left. by eapply Hs.
Qed.

Lemma transition_registers `{W : World} u st actor :
  keeps keeps_registered (transition_invoice_status u st actor).
Proof.
  unfold transition_invoice_status.
  apply keeps_seq; [exact _|apply on_db_registered|]. intros [inv|]; [|apply keeps_raise, _].
  repeat (case_decide; [apply keeps_return, _|]).
  intros s. unfold mseq at 1 2 3, mwrite. etrans; [apply (stamp_registered u st)|].
  generalize (set_db (write_status u st) (set_registry (fun l => l ++ [u])
    (set_sanctions (<[u := st]>) s))). intros y.
  match goal with |- keeps_registered y (snd (?m y)) => enough (keeps keeps_registered m) as Hk by apply Hk end.
  apply keeps_seq; [exact _|apply on_db_registered|intros enabled].
  apply keeps_seq; [exact _| |intros _].
  { destruct (_POSTING_RULES _ _); [|apply keeps_return, _].
    destruct enabled; [apply on_ledger_registered|apply keeps_return, _]. }
  apply keeps_seq; [exact _| |intros _; apply keeps_return, _].
  case_bool_decide; [|apply keeps_return, _].
  apply keeps_seq; [exact _|apply keeps_lift, _|intros c]. intros z Hz. exact Hz.
Qed.

(** The part of a transition after the status write. *)
Definition after_stamp `{W : World} (id_ : uuid) (invoice : Invoice) (new_status : invoice_status)
    (actor : option string) : M Session invoice_status :=
  enabled <- on_db (mreads (ledger_posting_enabled (inv_company_id invoice))) ;;
  (match _POSTING_RULES (inv_status invoice) new_status with
   | Some rule => if enabled : bool then on_ledger (rule (with_status new_status invoice) actor) else mreturn tt
   | None => mreturn tt
   end) ;;;
  (if bool_decide (new_status = paid)
   then amount_cents <- mlift (event_cents (inv_total invoice)) ;;
        mwrite (emit ("invoice.paid", id_, amount_cents))
   else mreturn tt) ;;;
  mreturn (inv_status invoice).

Definition stamped (id_ : uuid) (st : invoice_status) (s : Session) : Session :=
  set_db (write_status id_ st) (set_registry (fun l => l ++ [id_]) (set_sanctions (<[id_ := st]>) s)).

Lemma set_db_same s : set_db (fun _ => se_db s) s = s.
Proof. by destruct s. Qed.

Lemma transition_moves `{W : World} s id_ new_status actor invoice :
  get_invoice id_ (se_db s) = Some invoice -> new_status <> inv_status invoice ->
  inv_status invoice <> void ->
  transition_invoice_status id_ new_status actor s =
  after_stamp id_ invoice new_status actor (stamped id_ new_status s).
Proof.
  intros Hinv Hne Hv. unfold transition_invoice_status. unfold mseq at 1, on_db at 1, mreads at 1.
  rewrite Hinv, set_db_same. rewrite !decide_False by done. reflexivity.
Qed.

Lemma get_invoice_update id_ d f :
  (forall i, inv_id (f i) = inv_id i) ->
  get_invoice id_ (set_ops (set_invoices (update_where (fun i => N.eqb (inv_id i) id_) f)) d) =
  f <$> get_invoice id_ d.
Proof.
  intros Hf. unfold get_invoice. cbn -[update_where].
  induction (op_invoices (db_ops d)) as [|i l IH]; [done|]. cbn [update_where map List.find].
  destruct (N.eqb (inv_id i) id_) eqn:E; cbn [List.find].
  - by rewrite Hf, E.
  - by rewrite E.
Qed.

Lemma stamped_row s id_ st invoice :
  get_invoice id_ (se_db s) = Some invoice ->
  get_invoice id_ (se_db (stamped id_ st s)) = Some (with_status st invoice).
Proof.
  intros Hinv. unfold stamped. cbn [se_db set_db set_registry set_sanctions]. unfold write_status.
  rewrite get_invoice_update by done. by rewrite Hinv.
Qed.

Lemma stamped_stamp s id_ st : se_sanctions (stamped id_ st s) !! id_ = Some st.
Proof. apply lookup_insert_eq. Qed.

(** The guard finds the write it stamped sanctioned. *)
Lemma stamped_flush_clean id_ st company_id s :
  _check_flush true (mk_flush [mk_obj id_ company_id (Some st) true] [] []) (stamped id_ st s) =
  (Ok [], set_sanctions (delete id_) (stamped id_ st s)).
Proof.
  unfold _check_flush, mseq. cbn [fl_dirty fl_new fl_deleted mmap]. unfold mseq, check_dirty at 1.
  cbn [ob_status_changed negb]. unfold mseq, _consume_sanction. cbn [ob_id ob_status].
  rewrite stamped_stamp. unfold opt_eqb. by rewrite bool_decide_eq_true_2.
Qed.

(** ** What the rule leaves of the stamps *)

(** A posting rule that drew no identifier wrote nothing to the journal. *)
Record unflushed_writes_nothing (d d' : Db) : Prop := {
  uw_uuid : (gl_next_uuid (db_gl d) <= gl_next_uuid (db_gl d'))%N;
  uw_entries : gl_next_uuid (db_gl d') = gl_next_uuid (db_gl d) ->
    gl_entries (db_gl d') = gl_entries (db_gl d) /\ gl_lines (db_gl d') = gl_lines (db_gl d)
}.

#[export] Instance unflushed_writes_nothing_preorder : PreOrder unflushed_writes_nothing.
Proof.
  split; [by split|]. intros a b c [A1 A2] [B1 B2]. split; [lia|]. intros E.
  destruct A2 as [A2 A3]; [lia|]. destruct B2 as [B2 B3]; [lia|]. split; congruence.
Qed.

Lemma journal_frame_unflushed d d' : journal_frame d d' -> unflushed_writes_nothing d d'.
Proof. intros [H1 H2 _ H3 _ _]. by split. Qed.

Lemma drawn_unflushed d d' :
  (gl_next_uuid (db_gl d) < gl_next_uuid (db_gl d'))%N -> unflushed_writes_nothing d d'.
Proof. intros H. split; [lia|]. intros E. lia. Qed.

Lemma post_attempts_unflushed `{W : World} fuel ev ov res p lc :
  keeps unflushed_writes_nothing (post_attempts fuel (fun _ d => d) ev ov res p lc).
Proof.
  revert lc. induction fuel as [|fuel IH]; intros lc; cbn [post_attempts]; [apply keeps_raise, _|].
  apply keeps_seq; [exact _|apply keeps_reads, _|intros seq].
  apply keeps_seq; [exact _|apply keeps_reads, _|intros [e|]]; [apply keeps_return, _|].
  apply keeps_seq; [exact _| |intros _].
  { destruct lc; [apply keeps_return, _|]. intros d. apply journal_frame_unflushed, check_period_lock_frame. }
  apply keeps_seq; [exact _|intros d; reflexivity|intros _]. apply keeps_catch; [exact _| |].
  - intros d. destruct (_insert_entry _ _ _ _ _ _ _ _ d) as [[e|x] d'] eqn:E.
    + apply drawn_unflushed. eapply in_uuid, insert_entry_Ok, E.
    + apply journal_frame_unflushed. by eapply insert_entry_Err.
  - apply keeps_seq; [exact _|apply keeps_reads, _|intros [c|]]; [|apply keeps_raise, _].
    case_decide; [apply keeps_return, _|apply IH].
Qed.

Lemma reverse_entry_unflushed u w cb ov : keeps unflushed_writes_nothing (reverse_entry u w cb ov).
Proof.
  intros d. unfold reverse_entry, reverse_entry_racing. unfold mseq at 1, mreads.
  destruct (get_entry u d) as [o|]; [|reflexivity]. case_decide.
  { unfold mseq. destruct (je_reversed_by_entry_id o) as [x|]; [|reflexivity].
    destruct (get_entry x d); reflexivity. }
  unfold mseq at 1.
  pose proof (check_period_lock_frame (je_company_id o) (default (je_effective_at o) w) ov cb
    ("reversal:" +:+ str_uuid (je_id o)) d) as Hc%journal_frame_unflushed.
  destruct (_check_period_lock _ _ _ _ _ d) as [[[]|x] d1]; [|exact Hc]. etrans; [exact Hc|].
  unfold mseq at 1 2, mwrite. unfold mcatch, mseq.
  destruct (_insert_entry _ _ _ _ _ _ _ _ d1) as [[r|x] d2] eqn:Hins.
  - apply drawn_unflushed. cbn. eapply in_uuid, insert_entry_Ok, Hins.
  - apply insert_entry_Err in Hins as [-> Hf%journal_frame_unflushed]. rewrite decide_True by done.
    destruct (_entry_by_key _ _ d2); exact Hf.
Qed.

#[export] Instance unflushed_ledger_relation `{W : World} : LedgerRelation unflushed_writes_nothing.
Proof.
  split; [exact _| |intros; apply reverse_entry_unflushed|].
  - intros ev ov. unfold post_for_event, post_for_event_racing.
    apply keeps_seq; [exact _|apply keeps_lift, _|intros _].
    apply keeps_seq; [exact _| |intros res].
    { intros d. apply journal_frame_unflushed, accounts_grow_frame, resolve_lines_grows. }
    do 2 (apply keeps_seq; [exact _|apply keeps_lift, _|intros ?]). apply post_attempts_unflushed.
  - intros d d' H. by apply journal_frame_unflushed, accounts_grow_frame.
Qed.

(** The stamps after a ledger computation that leaves the operational rows
    alone. *)
Lemma on_ledger_stamps {A} (m : M Db A) s u i :
  keeps same_ops m -> get_invoice u (se_db s) = Some i ->
  se_sanctions (snd (on_ledger m s)) !! u =
    (if ids_drawn (se_db s) (se_db (snd (on_ledger m s))) then None else se_sanctions s !! u) /\
  (ids_drawn (se_db s) (se_db (snd (on_ledger m s))) = false -> se_registry (snd (on_ledger m s)) = se_registry s).
Proof.
  intros Hm Hi. destruct (on_ledger_db m s) as [_ ->]. specialize (Hm s.(se_db)). unfold on_ledger.
  destruct (m (se_db s)) as [r d]. cbn [snd] in *. destruct (ids_drawn (se_db s) d); [|done].
  destruct (after_flush_run (savepoint_rolled_back (se_db s) d) (set_db (fun _ => d) s)) as (_ & _ & Hnone & _).
  split; [|done].
  apply (Hnone u i). cbn. revert Hi. unfold get_invoice. by rewrite Hm.
Qed.

Lemma ids_drawn_refl d : ids_drawn d d = false.
Proof. unfold ids_drawn. by rewrite N.eqb_refl. Qed.

(** The rule of a transition, if posting is on and there is one. *)
Definition run_rule `{W : World} (invoice : Invoice) (st : invoice_status) (actor : option string)
    (enabled : bool) : M Session unit :=
  match _POSTING_RULES (inv_status invoice) st with
  | Some rule => if enabled then on_ledger (rule (with_status st invoice) actor) else mreturn tt
  | None => mreturn tt
  end.

Lemma rule_same_ops `{W : World} old new rule inv actor :
  _POSTING_RULES old new = Some rule -> keeps same_ops (rule inv actor).
Proof.
  destruct old, new; cbn; intros [= <-];
    solve [apply post_invoice_issuance_keeps, _|apply reverse_invoice_issuance_keeps, _].
Qed.

Lemma run_rule_stamps `{W : World} invoice st actor enabled s u i :
  get_invoice u (se_db s) = Some i ->
  let s' := snd (run_rule invoice st actor enabled s) in
  se_sanctions s' !! u = (if ids_drawn (se_db s) (se_db s') then None else se_sanctions s !! u) /\
  (ids_drawn (se_db s) (se_db s') = false -> se_registry s' = se_registry s) /\ unflushed_writes_nothing (se_db s) (se_db s').
Proof.
  intros Hi. unfold run_rule. destruct (_POSTING_RULES _ _) as [rule|] eqn:E; [destruct enabled|];
    cbv zeta; [|rewrite ids_drawn_refl; split_and!; [reflexivity|intros _; reflexivity|reflexivity]..].
  destruct (on_ledger_stamps (rule (with_status st invoice) actor) s u i) as [H1 H2];
    [by eapply rule_same_ops|done|]. split_and!; [done..|].
  destruct (on_ledger_db (rule (with_status st invoice) actor) s) as [_ ->].
  revert E. destruct (inv_status invoice), st; cbn; intros [= <-];
    solve [apply post_invoice_issuance_keeps, _|apply reverse_invoice_issuance_keeps, _].
Qed.

Lemma after_stamp_rule `{W : World} id_ invoice st actor s :
  after_stamp id_ invoice st actor s =
  (run_rule invoice st actor (ledger_posting_enabled (inv_company_id invoice) (se_db s)) ;;;
   (if bool_decide (st = paid)
    then amount_cents <- mlift (event_cents (inv_total invoice)) ;;
         mwrite (emit ("invoice.paid", id_, amount_cents))
    else mreturn tt) ;;;
   mreturn (inv_status invoice)) s.
Proof. unfold after_stamp. unfold mseq at 1, on_db at 1, mreads at 1. by rewrite set_db_same. Qed.

(** The stamp after a transition: spent if its rule flushed, else there. *)
Lemma after_stamp_stamps `{W : World} id_ invoice st actor s u i :
  get_invoice u (se_db s) = Some i ->
  let s' := snd (after_stamp id_ invoice st actor s) in
  se_sanctions s' !! u = (if ids_drawn (se_db s) (se_db s') then None else se_sanctions s !! u) /\
  (ids_drawn (se_db s) (se_db s') = false -> se_registry s' = se_registry s) /\ unflushed_writes_nothing (se_db s) (se_db s').
Proof.
  intros Hi. cbv zeta.
  pose proof (run_rule_stamps invoice st actor
    (ledger_posting_enabled (inv_company_id invoice) (se_db s)) s u i Hi) as Hr. cbv zeta in Hr.
  rewrite after_stamp_rule. unfold mseq.
  destruct (run_rule invoice st actor _ s) as [[[]|e] s1]; cbn [snd] in Hr; [|exact Hr].
  destruct (bool_decide (st = paid)); [|exact Hr].
  unfold mlift. by destruct (event_cents (inv_total invoice)).
Qed.

(** With posting off nothing of the ledger is touched. *)
Lemma after_stamp_off `{W : World} id_ invoice st actor s :
  ledger_posting_enabled (inv_company_id invoice) (se_db s) = false ->
  db_gl (se_db (snd (after_stamp id_ invoice st actor s))) = db_gl (se_db s) /\
  (st <> paid -> after_stamp id_ invoice st actor s = (Ok (inv_status invoice), s)).
Proof.
  intros Hoff. unfold after_stamp. destruct (_POSTING_RULES (inv_status invoice) st) as [rule|];
    cbv beta iota delta [mseq on_db mreads mreturn mlift]; rewrite ?Hoff, ?set_db_same;
    (split; [case_bool_decide; [by destruct (event_cents _)|done]|]);
    intros Hp; by rewrite bool_decide_eq_false_2.
Qed.

(** * Properties *)

(** the flush guard is exact.  Over distinct instances, the offenders it
    finds are precisely the invoices whose flag is on and whose changed status
    (or non-draft birth) was not stamped by the chokepoint at that very
    status, plus the hard-deleted ones; in raise mode it raises iff there is
    one; no stamp survives the flush of its invoice; and the guard changes
    neither the database nor the registry. *)
Theorem flush_guard_exact raise_mode fl s
    (Hnd : NoDup (map ob_id (fl_dirty fl ++ fl_new fl))) :
  let offenders :=
    map ob_id (List.filter (offends ob_status_changed s) (fl_dirty fl)) ++
    map ob_id (List.filter (offends policed_new s) (fl_new fl)) ++
    map ob_id (List.filter (fun o => flag_of s (ob_company_id o)) (fl_deleted fl)) in
  exists s', _check_flush raise_mode fl s =
      (if raise_mode && bool_decide (offenders <> []) then Err ChokepointBypassError
       else Ok offenders, s') /\
    se_db s' = se_db s /\ se_registry s' = se_registry s /\
    (forall o, o ∈ fl_dirty fl -> ob_status_changed o = true -> se_sanctions s' !! ob_id o = None) /\
    (forall o, o ∈ fl_new fl -> policed_new o = true -> se_sanctions s' !! ob_id o = None).
Proof.
  intros offenders. rewrite map_app in Hnd. apply NoDup_app in Hnd as (Hd & Hdis & Hn).
  destruct (check_with_map ob_status_changed (fl_dirty fl) s Hd)
    as (oa & s1 & E1 & C1 & F1 & D1 & O1 & I1).
  destruct (check_with_map policed_new (fl_new fl) s1 Hn) as (ob & s2 & E2 & C2 & F2 & D2 & O2 & I2).
  destruct (check_deleted_map (fl_deleted fl) s2) as (oc & s3 & E3 & C3 & F3 & S3).
  assert (List.filter (offends policed_new s1) (fl_new fl) =
          List.filter (offends policed_new s) (fl_new fl)) as Hf2.
  { apply List.filter_ext_in. intros x Hx%list_elem_of_In. unfold offends, exactly_sanctioned.
    rewrite (gf_flag _ _ F1), O1; [done|]. intros Hin. apply (Hdis _ Hin).
    apply elem_of_map_b. eauto. }
  assert (concat oa ++ concat ob ++ concat oc = offenders) as Hoff.
  { unfold offenders. rewrite C1, C2, C3, Hf2. do 3 f_equal. apply List.filter_ext. intros x.
    by rewrite (gf_flag _ _ F2), (gf_flag _ _ F1). }
  exists s3. split; [|split_and!].
  - unfold _check_flush. unfold mseq at 1. change check_dirty with (check_with ob_status_changed).
    rewrite E1. unfold mseq at 1.
    assert (mmap check_new (fl_new fl) s1 = (Ok ob, s2)) as ->.
    { rewrite <- E2. clear. revert s1. induction (fl_new fl) as [|x l IH]; intros s1; [done|].
      cbn [mmap]. rewrite check_new_with. unfold mseq.
      destruct (check_with policed_new x s1) as [[]]; [|done]. by rewrite IH. }
    unfold mseq. rewrite E3, Hoff.
    destruct offenders; [by destruct raise_mode|]. by destruct raise_mode.
  - by rewrite (gf_db _ _ F3), (gf_db _ _ F2), (gf_db _ _ F1).
  - by rewrite (gf_registry _ _ F3), (gf_registry _ _ F2), (gf_registry _ _ F1).
  - intros o Ho Hc. rewrite S3. destruct (se_sanctions s2 !! ob_id o) eqn:E; [|done].
    apply I2 in E. rewrite D1 in E by eauto. done.
  - intros o Ho Hp. rewrite S3. apply D2. eauto.
Qed.

Definition guard_session : Session :=
  mk_session (mk_db (mk_gl [] [] [] [] [mk_settings "co" true None None None None None None] [] 1%N 0)
    (bare_ops true)) {[ 7%N := sent ]} [7%N] ∅ [].

Lemma flush_guard_exact_witness :
  fst (_check_flush true (mk_flush [mk_obj 7%N "co" (Some paid) true] [] []) guard_session) =
    Err ChokepointBypassError.
Proof.
  destruct (flush_guard_exact true (mk_flush [mk_obj 7%N "co" (Some paid) true] [] []) guard_session)
    as (s' & E & _); [apply NoDup_singleton|]. rewrite E. vm_compute. reflexivity.
Defined.

(** stamps do not outlive the writes they bless.  If every stamp is
    registered (as the chokepoint leaves them), then a root rollback leaves no
    stamp at all, a savepoint rollback keeps exactly the stamps whose status
    write survived it, and after either every stamp is still registered, so
    the next rollback finds it. *)
Theorem rollback_clears_stamps s state (Hreg : stamps_registered s) :
  (se_sanctions (_clear_sanctions_on_rollback false state s) = ∅) /\
  (forall u, se_sanctions (_clear_sanctions_on_rollback true state s) !! u =
     match se_sanctions s !! u with
     | Some st => if _sanctioned_write_survived (state u) (Some st) then Some st else None
     | None => None
     end) /\
  (forall nested, stamps_registered (_clear_sanctions_on_rollback nested state s)) /\
  (forall u st actor `{World}, stamps_registered (snd (transition_invoice_status u st actor s))).
Proof.
  assert (forall u, se_sanctions (_clear_sanctions_on_rollback true state s) !! u =
     match se_sanctions s !! u with
     | Some st => if _sanctioned_write_survived (state u) (Some st) then Some st else None
     | None => None
     end) as Hnested.
  { intros u. unfold _clear_sanctions_on_rollback. cbn [negb].
    destruct (filter_registry state (se_registry s) (se_sanctions s)) as [l m] eqn:E. cbn.
    destruct (filter_registry_spec _ _ _ _ _ E) as [H _]. rewrite H.
    destruct (se_sanctions s !! u) eqn:Hu; [|done]. rewrite decide_True; [done|]. by eapply Hreg. }
  split_and!; [by apply root_rollback_clears|done| |].
  - intros [|] u st Hu.
    + pose proof (Hnested u) as Hn. rewrite Hu in Hn. revert Hu.
      unfold _clear_sanctions_on_rollback. cbn [negb].
      destruct (filter_registry state (se_registry s) (se_sanctions s)) as [l m] eqn:E. cbn. intros Hu.
      destruct (filter_registry_spec _ _ _ _ _ E) as [_ H]. apply H; [eauto|].
      destruct (se_sanctions s !! u) eqn:Hs; [by eapply Hreg|done].
    + rewrite root_rollback_clears in Hu by done. by rewrite lookup_empty in Hu.
  - intros u st actor W. by apply transition_registers.
Qed.

Lemma rollback_clears_stamps_witness :
  se_sanctions (_clear_sanctions_on_rollback false (fun _ => Expunged) guard_session) = ∅.
Proof.
  apply (rollback_clears_stamps guard_session (fun _ => Expunged)).
  intros u st H. unfold guard_session in H. cbn in H.
  apply lookup_singleton_Some in H as [<- _]. apply list_elem_of_here.
Defined.


Definition draft_invoice : Invoice :=
  mk_invoice 7%N "INV-7" draft (Some (DFinite 10000 (-2))) None (Some (DFinite 10000 (-2))) None None
    "co" (Some 738000) None None None None None false None "standard" None None None false.

(** The draft in a session of a company that has no books, and in one of a
    company that posts. *)
Definition draft_session : Session :=
  mk_session (mk_db (mk_gl [] [] [] [] [] [] 1%N 0)
    (mk_ops [draft_invoice] [] [] [] [] None 0 1 true)) ∅ [] ∅ [].
Definition posting_session : Session :=
  mk_session (snd (seed_coa "co"
    (mk_db (mk_gl [] [] [] [] [mk_settings "co" true None None None None None None] [] 1%N 0)
      (mk_ops [draft_invoice]
        [mk_invoice_line 7%N (Some "Spring") (Some (DFinite 10000 (-2))) None None false (DFinite 1 0)
           (DFinite 10000 (-2)) 0 None None None] [] [] [] None 0 1 true)))) ∅ [] ∅ [].


(** There the sale really posted. *)
Example posting_session_posts :
  let run := transition_invoice_status (W := toy_world) 7%N sent None posting_session in
  (fst run, length (gl_entries (db_gl (se_db (snd run)))), map_to_list (se_sanctions (snd run)),
   se_registry (snd run)) = (Ok draft, 1%nat, [], [7%N]).
Proof. vm_compute. reflexivity. Qed.

(** ** The void *)

(** After a transition the operational rows are as the status write left them. *)
Lemma after_stamp_ops `{W : World} id_ invoice st actor s :
  db_ops (se_db (snd (after_stamp id_ invoice st actor s))) = db_ops (se_db s).
Proof.
  pose (R := fun a b : Session => same_ops (se_db a) (se_db b)).
  assert (PreOrder R) as HR.
  { split; [intros a; unfold R; reflexivity|intros a b c H1 H2; unfold R in *; by etrans]. }
  assert (forall A (m : M Db A), keeps same_ops m -> keeps R (on_db m)) as Hon.
  { intros A m Hm x. unfold on_db, R. specialize (Hm (se_db x)). by destruct (m (se_db x)). }
  enough (keeps R (after_stamp id_ invoice st actor)) as Hk by apply Hk.
  unfold after_stamp. apply keeps_seq; [exact _|apply Hon, keeps_reads, _|intros enabled].
  apply keeps_seq; [exact _| |intros _].
  { destruct (_POSTING_RULES _ _) as [rule|] eqn:E; [|apply keeps_return, _].
    destruct enabled; [|apply keeps_return, _]. by eapply on_ledger_keeps_db, rule_same_ops. }
  apply keeps_seq; [exact _| |intros _; apply keeps_return, _].
  case_bool_decide; [|apply keeps_return, _].
  apply keeps_seq; [exact _|apply keeps_lift, _|intros c]. intros z. unfold R. reflexivity.
Qed.

Lemma existsb_filter {A} (f : A -> bool) l :
  existsb f l = match List.filter f l with [] => false | _ => true end.
Proof. induction l as [|x l IH]; [done|]. cbn. by destruct (f x). Qed.

(** A step that keeps the operational rows. *)
Definition sops (a b : Session) : Prop := same_ops (se_db a) (se_db b).

#[export] Instance sops_preorder : PreOrder sops.
Proof. split; [intros a; unfold sops; reflexivity|intros a b c H1 H2; unfold sops in *; by etrans]. Qed.

Lemma on_db_sops {A} (m : M Db A) : keeps same_ops m -> keeps sops (on_db m).
Proof. intros Hm x. unfold on_db, sops. specialize (Hm (se_db x)). by destruct (m (se_db x)). Qed.

Lemma on_ledger_sops {A} (m : M Db A) : keeps same_ops m -> keeps sops (on_ledger m).
Proof. apply on_ledger_keeps_db. Qed.

Lemma get_invoice_ops id_ d d' : same_ops d d' -> get_invoice id_ d' = get_invoice id_ d.
Proof. unfold same_ops, get_invoice. by intros ->. Qed.

(** Whatever the ledger does during the void, the invoice row carries the new
    status. *)
Lemma void_postings_row `{W : World} s id_ actor invoice :
  get_invoice id_ (se_db s) = Some invoice -> inv_status invoice <> void ->
  get_invoice id_ (se_db (snd (void_postings id_ invoice actor s))) = Some (with_status void invoice).
Proof.
  intros Hinv Hv.
  rewrite <- (stamped_row s id_ void invoice Hinv). apply get_invoice_ops.
  unfold void_postings. unfold mseq at 1. rewrite (transition_moves s id_ void (Some actor) invoice Hinv) by done.
  pose proof (after_stamp_ops id_ invoice void (Some actor) (stamped id_ void s)) as Hops.
  destruct (after_stamp id_ invoice void (Some actor) (stamped id_ void s)) as [[st|e] s1]; [|exact Hops].
  etrans; [exact Hops|].
  match goal with |- same_ops _ (se_db (snd (?m s1))) => enough (keeps sops m) as Hk by apply (Hk s1) end.
  apply keeps_seq; [exact _|apply on_ledger_sops, reverse_invoice_adjustments_keeps, _|intros _].
  apply on_ledger_sops, settle_opening_on_void_keeps, _.
Qed.

Lemma void_invoice_unfold `{W : World} s id_ actor :
  str_strip actor <> "" ->
  void_invoice id_ actor s =
  match get_invoice id_ (se_db s) with
  | None => (Err (HTTPException 404), s)
  | Some invoice =>
      match inv_deleted_at invoice with
      | Some _ => (Err (HTTPException 404), s)
      | None =>
          if decide (inv_status invoice = void) then (Ok true, s)
          else if existsb (fun p => negb (is_voided p)) (invoice_payments invoice (se_db s))
          then (Err (HTTPException 409), s)
          else match void_postings id_ invoice actor s with
               | (Ok _, s1) => (Ok false, set_db (clear_balance id_) s1)
               | (Err PeriodLockedError, s1) => (Err (HTTPException 409), rollback s s1)
               | (Err e, s1) => (Err e, s1)
               end
      end
  end.
Proof.
  intros Hactor. unfold void_invoice. rewrite (proj2 (String.eqb_neq _ _) Hactor).
  unfold mseq at 1, on_db at 1, mreads at 1. rewrite set_db_same.
  destruct (get_invoice id_ (se_db s)) as [invoice|]; [|done].
  destruct (inv_deleted_at invoice) as [t|]; [done|].
  case_decide as Hv; [done|]. unfold mseq at 1, on_db at 1, mreads at 1. rewrite set_db_same, existsb_filter.
  destruct (List.filter _ (invoice_payments invoice (se_db s))) as [|p l]; [|done].
  unfold mseq at 1, mcatch. destruct (void_postings id_ invoice actor s) as [[[]|e] s1]; [done|].
  by destruct e.
Qed.

(** voiding an invoice.  A missing or deleted invoice is a 404, an invoice
    with live payments a 409, and an already void one is reported as such,
    each without any write.  Otherwise the ledger postings decide: when they
    hit a locked period the void is a 409 and the database and the staged
    events are exactly as they were; any other ledger error propagates; and
    when they succeed the invoice is void with nothing due and every other
    column unchanged. *)
Theorem void_invoice_outcomes `{W : World} s id_ actor (Hactor : str_strip actor <> "") :
  let run := void_invoice id_ actor s in
  match get_invoice id_ (se_db s) with
  | None => run = (Err (HTTPException 404), s)
  | Some invoice =>
      if bool_decide (is_Some (inv_deleted_at invoice)) then run = (Err (HTTPException 404), s)
      else if decide (inv_status invoice = void) then run = (Ok true, s)
      else if existsb (fun p => negb (is_voided p)) (invoice_payments invoice (se_db s))
      then run = (Err (HTTPException 409), s)
      else match fst (void_postings id_ invoice actor s) with
           | Err PeriodLockedError =>
               fst run = Err (HTTPException 409) /\ se_db (snd run) = se_db s /\
               se_events (snd run) = se_events s
           | Err e => run = (Err e, snd (void_postings id_ invoice actor s))
           | Ok _ =>
               fst run = Ok false /\
               get_invoice id_ (se_db (snd run)) =
                 Some (mk_invoice (inv_id invoice) (inv_number invoice) void (inv_total invoice)
                   (inv_tax_amount invoice) (Some (DFinite 0 (-2))) (inv_job_id invoice)
                   (inv_customer_id invoice) (inv_company_id invoice) (inv_invoice_date invoice)
                   (inv_sent_at invoice) (inv_created_at invoice) (inv_deleted_at invoice)
                   (inv_subtotal invoice) (inv_tax_rate invoice) (inv_totals_locked invoice)
                   (inv_paid_at invoice) (inv_billing_type invoice) (inv_estimate_id invoice) (inv_origin invoice)
                   (inv_verified_at invoice) (inv_locked invoice))
           end
  end.
Proof.
  intros run. unfold run. rewrite (void_invoice_unfold s id_ actor Hactor). clear run.
  destruct (get_invoice id_ (se_db s)) as [invoice|] eqn:Hinv; [|done].
  destruct (inv_deleted_at invoice) as [t|] eqn:Hdel; [by rewrite bool_decide_eq_true_2|].
  rewrite bool_decide_eq_false_2 by (intros [x Hx]; discriminate Hx).
  case_decide as Hv; [done|]. case_if; [done|].
  pose proof (void_postings_row s id_ actor invoice Hinv Hv) as Hrow.
  destruct (void_postings id_ invoice actor s) as [[[]|e] s1]; cbn [fst snd] in *.
  - split; [reflexivity|]. cbn [snd se_db set_db]. unfold clear_balance.
    rewrite get_invoice_update by done. rewrite Hrow. cbn. by rewrite Hdel.
  - destruct e; try reflexivity. split_and!; reflexivity.
Qed.

Lemma void_invoice_outcomes_witness :
  fst (void_invoice (W := toy_world) 7%N "ops" draft_session) = Ok false.
Proof.
  pose proof (void_invoice_outcomes (W := toy_world) draft_session 7%N "ops") as H.
  assert (str_strip "ops" <> "") as Ha by discriminate. specialize (H Ha). vm_compute in H |- *.
  apply H.
Defined.
