(* ===== verification/InvoiceTotals.v ===== *)
(** The arithmetic of an invoice: [_recalculate_invoice] and its helpers in
    [routers/invoices.py], the tax share of a credit ([core/invoice_tax.py]),
    and the totals invariant ([check_invoice] of
    [core/invoice_invariants.py]).  Stored money is [Numeric(12, 2)]; the code
    adds it up partly as [Decimal] and partly as float, as modelled in
    [PyNum]. *)

From S2P Require Import Prelude PyStr Dates Money PyNum Models PayPeriods Keys Coa Engine EngineInv EngineSpec Service RulesBase Opening Issuance Payments Adjustments RulesSafe RulesSpec Chokepoint.

Local Open Scope Z_scope.

(** * Money helpers *)

(** [_money(x)] of a [Decimal] and of a float. *)
Definition _money (d : decimal) : result decimal := quantize_money d.
Definition _money_float (x : float64) : result decimal := quantize_money (decimal_of_str x).

Definition _to_float (value : option decimal) : float64 := float_of_decimal (_dec value).

(** * What an invoice's lines, payments and credits add up to *)

Definition active_lines (id_ : uuid) (d : Db) : list InvoiceLine :=
  List.filter (fun il => N.eqb (il_invoice_id il) id_ &&
                         match il_deleted_at il with None => true | Some _ => false end)
    (op_invoice_lines (db_ops d)).

Definition line_sum (l : list InvoiceLine) : result decimal := dec_sum (map (fun il => _dec (il_line_total il)) l).

Definition paid_sum (id_ : uuid) (d : Db) : option decimal :=
  sql_sum (map pay_amount
    (List.filter (fun p => N.eqb (pay_invoice_id p) id_ && negb (is_voided p)) (op_payments (db_ops d)))).

Definition credited_sum (id_ : uuid) (d : Db) : option decimal :=
  sql_sum (map adj_amount
    (List.filter (fun a => N.eqb (adj_invoice_id a) id_ && is_credit_kind (adj_kind a))
       (op_adjustments (db_ops d)))).

(** The taxable base, floored at zero. *)
Definition taxable_base (l : list InvoiceLine) : result decimal :=
  let! taxable := line_sum (List.filter il_taxable l) in
  let! negative := dec_ltb taxable (DFinite 0 0) in
  Ok (if negative : bool then DFinite 0 0 else taxable).

Definition _remaining_receivable (invoice : Invoice) (d : Db) : float64 :=
  float_round2 (float_sub (float_sub (_to_float (inv_total invoice)) (_to_float (credited_sum (inv_id invoice) d)))
                          (_to_float (paid_sum (inv_id invoice) d))).

(** * [_recalculate_invoice] *)

Definition with_tax (tax : decimal) (i : Invoice) : Invoice :=
  mk_invoice (inv_id i) (inv_number i) (inv_status i) (inv_total i) (Some tax) (inv_balance_due i)
    (inv_job_id i) (inv_customer_id i) (inv_company_id i) (inv_invoice_date i) (inv_sent_at i)
    (inv_created_at i) (inv_deleted_at i) (inv_subtotal i) (inv_tax_rate i) (inv_totals_locked i)
    (inv_paid_at i) (inv_billing_type i) (inv_estimate_id i) (inv_origin i) (inv_verified_at i) (inv_locked i).
Definition with_totals (subtotal total balance : decimal) (i : Invoice) : Invoice :=
  mk_invoice (inv_id i) (inv_number i) (inv_status i) (Some total) (inv_tax_amount i) (Some balance)
    (inv_job_id i) (inv_customer_id i) (inv_company_id i) (inv_invoice_date i) (inv_sent_at i)
    (inv_created_at i) (inv_deleted_at i) (Some subtotal) (inv_tax_rate i) (inv_totals_locked i)
    (inv_paid_at i) (inv_billing_type i) (inv_estimate_id i) (inv_origin i) (inv_verified_at i) (inv_locked i).
Definition with_paid_at (t : option datetime) (i : Invoice) : Invoice :=
  mk_invoice (inv_id i) (inv_number i) (inv_status i) (inv_total i) (inv_tax_amount i) (inv_balance_due i)
    (inv_job_id i) (inv_customer_id i) (inv_company_id i) (inv_invoice_date i) (inv_sent_at i)
    (inv_created_at i) (inv_deleted_at i) (inv_subtotal i) (inv_tax_rate i) (inv_totals_locked i)
    t (inv_billing_type i) (inv_estimate_id i) (inv_origin i) (inv_verified_at i) (inv_locked i).

(** Assignments to columns of the invoice row. *)
Definition write_invoice (id_ : uuid) (f : Invoice -> Invoice) : Session -> Session :=
  set_db (set_ops (set_invoices (update_where (fun i => N.eqb (inv_id i) id_) f))).

(** [tax_amount], and whether it is assigned to the row. *)
Definition recalc_tax (invoice : Invoice) (line_rows : list InvoiceLine) : result (decimal * bool) :=
  match inv_tax_rate invoice, inv_totals_locked invoice with
  | Some rate, false =>
      let! taxable := taxable_base line_rows in
      let! tax := dec_mul taxable rate in
      let! tax_amount := _money tax in
      Ok (tax_amount, true)
  | _, _ => let! tax_amount := _money_float (_to_float (inv_tax_amount invoice)) in Ok (tax_amount, false)
  end.

(** [subtotal_amount] and [total_amount]. *)
Definition recalc_total (invoice : Invoice) (subtotal_amount tax_amount : decimal)
  : result (decimal * decimal) :=
  if inv_totals_locked invoice then
    let! subtotal_amount := _money_float (_to_float (inv_subtotal invoice)) in
    let! total_amount := _money_float (_to_float (inv_total invoice)) in
    Ok (subtotal_amount, total_amount)
  else
    let! sum := dec_add subtotal_amount tax_amount in
    let! total_amount := _money sum in
    Ok (subtotal_amount, total_amount).

Definition recalc_balance (invoice : Invoice) (total_amount : decimal) (d : Db) : result decimal :=
  let! paid_amount := _money_float (_to_float (paid_sum (inv_id invoice) d)) in
  let! balance_due :=
    _money_float (float_max0 (float_sub (float_sub (float_of_decimal total_amount) (float_of_decimal paid_amount))
                                        (_to_float (credited_sum (inv_id invoice) d)))) in
  if bool_decide (inv_status invoice = void) then _money (DFinite 0 0) else Ok balance_due.

Section Recalculate.
Context `{W : World}.

(** The ledger's refusals become 409s. *)
Definition repost_or_409 (invoice : Invoice) (actor : option string) : M Session unit :=
  mcatch (mcatch (on_db (repost_invoice_issuance invoice actor)) PeriodLockedError (mraise (HTTPException 409)))
    IssuanceCompositionError (mraise (HTTPException 409)).

(** The flip to paid, and the stamp if it took. *)
Definition settle_if_paid (id_ : uuid) (is_void : bool) (total_amount balance_due : decimal)
    (actor : option string) : M Session unit :=
  if negb is_void && float_nonpos (float_of_decimal balance_due) && float_pos (float_of_decimal total_amount)
  then
    transition_invoice_status id_ paid actor ;;;
    mwrite (fun s => write_invoice id_ (fun i =>
      if bool_decide (inv_status i = paid) && bool_decide (inv_paid_at i = None)
      then with_paid_at (Some (mk_datetime (op_now (db_ops (se_db s))) (Some 0))) i else i) s)
  else mreturn tt.

Definition _recalculate_invoice (id_ : uuid) (actor : option string) : M Session unit :=
  found <- on_db (mreads (get_invoice id_)) ;;
  match found with
  | None => mraise AttributeError
  | Some invoice =>
      line_rows <- on_db (mreads (active_lines id_)) ;;
      subtotal <- mlift (line_sum line_rows) ;;
      subtotal_amount <- mlift (_money subtotal) ;;
      tax <- mlift (recalc_tax invoice line_rows) ;;
      (if snd tax : bool then mwrite (write_invoice id_ (with_tax (fst tax))) else mreturn tt) ;;;
      totals <- mlift (recalc_total invoice subtotal_amount (fst tax)) ;;
      balance_due <- (fun s => (recalc_balance invoice (snd totals) (se_db s), s)) ;;
      mwrite (write_invoice id_ (with_totals (fst totals) (snd totals) balance_due)) ;;;
      current <- on_db (mreads (get_invoice id_)) ;;
      repost_or_409 (default invoice current) actor ;;;
      settle_if_paid id_ (bool_decide (inv_status invoice = void)) (snd totals) balance_due actor
  end.
End Recalculate.

(** * The totals invariant *)

Definition TOLERANCE : decimal := DFinite 5 (-3).

(** Whether the invoice violates [total == Σ(active line_total) + tax_amount]. *)
Definition check_invoice (invoice : Invoice) (d : Db) : result bool :=
  if inv_totals_locked invoice then Ok false
  else match active_lines (inv_id invoice) d with
       | [] => Ok false
       | rows =>
           let! line_total := line_sum rows in
           let! expected := dec_add line_total (_dec (inv_tax_amount invoice)) in
           let! difference := dec_sub (_dec (inv_total invoice)) expected in
           let! within := dec_leb (dec_abs difference) TOLERANCE in
           Ok (negb within)
       end.

(** * [credit_tax_component] *)

(** [d.quantize(Decimal("0.01"))]: ties to even. *)
Definition quantize_even (d : decimal) : result decimal :=
  match d with
  | DFinite c e =>
      let q := if -2 <=? e then c * 10 ^ (e + 2) else round_even c (10 ^ (-2 - e)) in
      if Z.abs q <? 10 ^ decimal_prec then Ok (DFinite q (-2)) else Err ArithmeticError
  | _ => Err ArithmeticError
  end.

Definition credit_tax_component (invoice : Invoice) (amount : option decimal) : result decimal :=
  let total := _dec (inv_total invoice) in
  let tax := _dec (inv_tax_amount invoice) in
  let amt := _dec amount in
  let! t := dec_leb total (DFinite 0 0) in
  let! x := dec_leb tax (DFinite 0 0) in
  let! a := dec_leb amt (DFinite 0 0) in
  if t || x || a then Ok (DFinite 0 (-2))
  else
    let! product := dec_mul amt tax in
    let! quotient := dec_div product total in
    let! component := _money quotient in
    let! cap := quantize_even tax in
    let! smaller := dec_ltb cap component in
    Ok (if smaller : bool then cap else component).

(** * Stored money *)

(** The cents of a [Numeric(12, 2)] column. *)
Definition money_col (x : option decimal) : option Z :=
  match x with
  | Some (DFinite c e) => if (e =? -2) && (Z.abs c <? 10 ^ 12) then Some c else None
  | _ => None
  end.

Lemma money_col_Some x c : money_col x = Some c <-> x = Some (DFinite c (-2)) /\ Z.abs c < 10 ^ 12.
Proof.
  destruct x as [[c' e| |]|]; cbn [money_col]; [|by intuition discriminate..].
  destruct ((e =? -2) && (Z.abs c' <? 10 ^ 12)) eqn:E.
  - apply andb_true_iff in E as [->%Z.eqb_eq E%Z.ltb_lt]. split; [intros [= ->]; auto|intros [[= ->] _]; done].
  - split; [done|]. intros [[= -> ->] H]. apply andb_false_iff in E as [E|E]; [done|]. lia.
Qed.

(** The cents of a column over a list of rows. *)
Definition cents_col {A} (f : A -> option decimal) (l : list A) : option (list Z) := mapM (fun x => money_col (f x)) l.

Lemma cents_col_dec {A} (f : A -> option decimal) l lc : cents_col f l = Some lc ->
  map (fun x => _dec (f x)) l = map (fun c => DFinite c (-2)) lc /\
  map f l = map (fun c => Some (DFinite c (-2))) lc /\
  Forall (fun c => Z.abs c <= 10 ^ 12) lc /\ length lc = length l.
Proof.
  unfold cents_col. revert lc. induction l as [|x l IH]; intros lc H.
  { injection H as <-. auto. }
  cbn [mapM] in H. destruct (money_col (f x)) as [c|] eqn:E; [|done]. cbn in H.
  destruct (mapM _ l) as [lc'|] eqn:E2; [|done]. injection H as <-.
  destruct (IH _ eq_refl) as (H1 & H2 & H3 & H4).
  apply money_col_Some in E as [E Hc]. cbn [map]. rewrite H1, H2, E. cbn [_dec default length].
  split_and!; [done|done|constructor; [lia|done]|by rewrite H4].
Qed.

Lemma cents_col_app {A} (f : A -> option decimal) l1 l2 k :
  cents_col f (l1 ++ l2) = Some k <-> exists k1 k2, k = k1 ++ k2 /\ cents_col f l1 = Some k1 /\ cents_col f l2 = Some k2.
Proof.
  unfold cents_col. setoid_rewrite mapM_Some. split.
  - intros (k1 & k2 & H1 & H2 & ->)%Forall2_app_inv_l. eauto.
  - intros (k1 & k2 & -> & H1 & H2). by apply Forall2_app.
Qed.

Lemma cents_col_one {A} (f : A -> option decimal) x k :
  cents_col f [x] = Some k <-> exists c, money_col (f x) = Some c /\ k = [c].
Proof.
  unfold cents_col. cbn. destruct (money_col (f x)) as [c|]; cbn; [|naive_solver].
  split; [intros [= <-]; eauto|by intros (c' & [= <-] & ->)].
Qed.

Lemma line_sum_cents l lc : cents_col il_line_total l = Some lc -> Z.of_nat (length l) <= 10 ^ 15 ->
  exists e, (e = -2 \/ l = [] /\ e = 0) /\ line_sum l = Ok (DFinite (zsum lc) e).
Proof.
  intros H Hlen. destruct (cents_col_dec _ _ _ H) as (H1 & _ & H2 & H3). unfold line_sum. rewrite H1.
  destruct (dec_sum_cents lc (10 ^ 12) H2) as (e & He & ->); [rewrite H3; change (10 ^ decimal_prec) with (10 ^ 28); lia|lia|].
  exists e. split; [|done]. destruct He as [->|[-> ->]]; [by left|]. right. by destruct l.
Qed.

(** A [SUM] of stored money, as a column value. *)
Lemma sql_sum_cents {A} (f : A -> option decimal) l lc : cents_col f l = Some lc ->
  sql_sum (map f l) = None /\ zsum lc = 0 \/ sql_sum (map f l) = Some (DFinite (zsum lc) (-2)).
Proof.
  intros H. destruct (cents_col_dec _ _ _ H) as (_ & H2 & _ & _). rewrite H2. clear.
  induction lc as [|c lc IH]; [by left|]. right. unfold sql_sum in *. cbn [map foldr].
  destruct IH as [[-> H0]| ->].
  - cbn. rewrite H0. do 2 f_equal. lia.
  - cbn. rewrite !Z.mul_1_r. done.
Qed.

(** * Exactness *)

(** A column or an SQL sum that is worth [c] cents. *)
Definition worth (x : option decimal) (c : Z) : Prop :=
  (x = None /\ c = 0 \/ x = Some (DFinite c (-2))) /\ Z.abs c < 10 ^ 12.

Lemma money_col_worth x c : money_col x = Some c -> worth x c.
Proof. intros [-> H]%money_col_Some. split; auto. Qed.

Lemma to_float_worth x c : worth x c -> exists v, _to_float x = FNum v /\ near v c 100.
Proof.
  intros [[[-> ->]| ->] Hc]; unfold _to_float; cbn [_dec default].
  - exists 0. split; [apply float_zero|]. unfold near. pose proof least_pos. lia.
  - by apply float_cents.
Qed.

Lemma money_float_worth x c : worth x c -> _money_float (_to_float x) = Ok (DFinite c (-2)).
Proof.
  intros H. destruct (to_float_worth x c H) as (v & -> & Hn). destruct H as [_ H].
  apply (quantize_float_near v c 100); [lia|lia|done].
Qed.

(** The clamped difference of three stored amounts, through floats. *)
Lemma balance_exact t x c T P C :
  worth (Some t) T -> worth (Some x) P -> worth c C ->
  _money_float (float_max0 (float_sub (float_sub (float_of_decimal t) (float_of_decimal x)) (_to_float c)))
  = Ok (DFinite (Z.max (T - P - C) 0) (-2)).
Proof.
  intros HT HP HC.
  destruct (to_float_worth _ _ HT) as (vt & Et & Nt). destruct (to_float_worth _ _ HP) as (vp & Ep & Np).
  destruct (to_float_worth _ _ HC) as (vc & -> & Nc). change (float_of_decimal t = FNum vt) in Et.
  change (float_of_decimal x = FNum vp) in Ep.
  rewrite Et, Ep. destruct HT as [_ HT], HP as [_ HP], HC as [_ HC].
  destruct (float_sub_near _ _ _ _ _ _ Nt Np) as (v1 & -> & N1); [lia|lia|].
  destruct (float_sub_near _ _ _ _ _ _ N1 Nc) as (v2 & -> & N2); [lia|lia|].
  unfold float_max0. cbn [float_gtb]. 
  destruct (near_sign v2 (T - P - C) (100 + 100 + 800 + 100 + 800) ltac:(lia) N2) as [S1 S2].
  destruct (Z.ltb_spec v2 0) as [Hneg|Hpos].
  - assert (T - P - C <= 0) by (destruct (Z.lt_trichotomy (T - P - C) 0) as [?|[?|?]]; [lia|lia|];
      specialize (S1 ltac:(lia)); lia).
    rewrite Z.max_r by lia. reflexivity.
  - destruct (Z.lt_ge_cases (T - P - C) 0) as [Hn|Hn]; [specialize (S2 Hn); lia|].
    rewrite Z.max_l by lia. by apply (quantize_float_near v2 (T - P - C) (100 + 100 + 800 + 100 + 800)); [lia|lia|].
Qed.

(** What the rows of an invoice add up to: all lines, the taxable ones, live
    payments, credits. *)
Record sums : Type := { s_lines : Z; s_taxable : Z; s_paid : Z; s_credited : Z }.

Definition fits (c : Z) : bool := Z.abs c <? 10 ^ 12.

Definition invoice_sums (id_ : uuid) (d : Db) : option sums :=
  let lines := active_lines id_ d in
  lc ← cents_col il_line_total lines;
  tc ← cents_col il_line_total (List.filter il_taxable lines);
  pc ← cents_col pay_amount
         (List.filter (fun p => N.eqb (pay_invoice_id p) id_ && negb (is_voided p)) (op_payments (db_ops d)));
  cc ← cents_col adj_amount
         (List.filter (fun a => N.eqb (adj_invoice_id a) id_ && is_credit_kind (adj_kind a))
            (op_adjustments (db_ops d)));
  if (Z.of_nat (length lines) <=? 10 ^ 15) && fits (zsum lc) && fits (zsum tc) && fits (zsum pc) && fits (zsum cc)
  then Some {| s_lines := zsum lc; s_taxable := zsum tc; s_paid := zsum pc; s_credited := zsum cc |}
  else None.

(** The totals an invoice should show, in cents: subtotal, tax, total, balance. *)
Definition due_totals (invoice : Invoice) (s : sums) : option (Z * Z * Z * Z) :=
  tax ← match inv_tax_rate invoice, inv_totals_locked invoice with
        | Some (DFinite r e), false =>
            if (r =? 0) || ((e =? -6) && (Z.abs r <? 10 ^ 9)) then Some (round_half_up (Z.max (s_taxable s) 0 * r) 6) else None
        | Some _, false => None
        | _, _ => money_col (inv_tax_amount invoice)
        end;
  st ← (if inv_totals_locked invoice
        then subtotal ← money_col (inv_subtotal invoice); total ← money_col (inv_total invoice); Some (subtotal, total)
        else Some (s_lines s, s_lines s + tax));
  let balance := if bool_decide (inv_status invoice = void) then 0
                 else Z.max (snd st - s_paid s - s_credited s) 0 in
  if fits tax && fits (snd st) && fits balance then Some (fst st, tax, snd st, balance) else None.

(** The four columns of an invoice's rows. *)
Record rows_cents (id_ : uuid) (d : Db) (lc tc pc cc : list Z) : Prop := {
  rc_lines : cents_col il_line_total (active_lines id_ d) = Some lc;
  rc_taxable : cents_col il_line_total (List.filter il_taxable (active_lines id_ d)) = Some tc;
  rc_paid : cents_col pay_amount
    (List.filter (fun p => N.eqb (pay_invoice_id p) id_ && negb (is_voided p)) (op_payments (db_ops d))) = Some pc;
  rc_credited : cents_col adj_amount
    (List.filter (fun a => N.eqb (adj_invoice_id a) id_ && is_credit_kind (adj_kind a))
       (op_adjustments (db_ops d))) = Some cc
}.

Lemma invoice_sums_rows id_ d sm : invoice_sums id_ d = Some sm <->
  exists lc tc pc cc, rows_cents id_ d lc tc pc cc /\
    sm = {| s_lines := zsum lc; s_taxable := zsum tc; s_paid := zsum pc; s_credited := zsum cc |} /\
    Z.of_nat (length (active_lines id_ d)) <= 10 ^ 15 /\
    Z.abs (zsum lc) < 10 ^ 12 /\ Z.abs (zsum tc) < 10 ^ 12 /\ Z.abs (zsum pc) < 10 ^ 12 /\ Z.abs (zsum cc) < 10 ^ 12.
Proof.
  unfold invoice_sums. split.
  - intros H. destruct (cents_col il_line_total (active_lines id_ d)) as [lc|] eqn:E1; [cbn in H|done].
    destruct (cents_col il_line_total (List.filter _ _)) as [tc|] eqn:E2; [cbn in H|done].
    destruct (cents_col pay_amount _) as [pc|] eqn:E3; [cbn in H|done].
    destruct (cents_col adj_amount _) as [cc|] eqn:E4; [cbn in H|done].
    destruct (_ && _) eqn:Eb; [|done]. injection H as <-.
    unfold fits in Eb. rewrite !andb_true_iff, Z.leb_le, !Z.ltb_lt in Eb. exists lc, tc, pc, cc.
    split; [done|]. split; [done|]. tauto.
  - intros (lc & tc & pc & cc & [-> -> -> ->] & -> & H0 & H1 & H2 & H3 & H4). cbn -[Z.pow Z.leb].
    unfold fits. rewrite (proj2 (Z.leb_le _ _) H0).
    by rewrite (proj2 (Z.ltb_lt _ _) H1), (proj2 (Z.ltb_lt _ _) H2), (proj2 (Z.ltb_lt _ _) H3),
      (proj2 (Z.ltb_lt _ _) H4).
Qed.

Lemma invoice_sums_spec id_ d sm : invoice_sums id_ d = Some sm ->
  (exists e, line_sum (active_lines id_ d) = Ok (DFinite (s_lines sm) e) /\ (e = -2 \/ e = 0 /\ s_lines sm = 0)) /\
  (exists e, line_sum (List.filter il_taxable (active_lines id_ d)) = Ok (DFinite (s_taxable sm) e) /\
     (e = -2 \/ e = 0 /\ s_taxable sm = 0)) /\
  worth (paid_sum id_ d) (s_paid sm) /\ worth (credited_sum id_ d) (s_credited sm) /\
  Z.abs (s_lines sm) < 10 ^ 12 /\ Z.abs (s_taxable sm) < 10 ^ 12.
Proof.
  intros (lc & tc & pc & cc & [E1 E2 E3 E4] & -> & Hlen & HL & HT & HP & HC)%invoice_sums_rows.
  cbn [s_lines s_taxable s_paid s_credited].
  assert (Hlt : (length (List.filter il_taxable (active_lines id_ d)) <= length (active_lines id_ d))%nat)
    by (clear; induction (active_lines id_ d) as [|x l IH]; cbn; [lia|destruct (il_taxable x); cbn; lia]).
  split_and!; [| | | |done|done].
  - destruct (line_sum_cents _ _ E1 Hlen) as (e & He & ->). exists e. split; [done|].
    destruct He as [->|[Hn ->]]; [by left|]. rewrite Hn in E1. injection E1 as <-. auto.
  - destruct (line_sum_cents _ _ E2 ltac:(lia)) as (e & He & ->). exists e. split; [done|].
    destruct He as [->|[Hn ->]]; [by left|]. rewrite Hn in E2. injection E2 as <-. auto.
  - split; [|done]. unfold paid_sum. apply (sql_sum_cents _ _ _ E3).
  - split; [|done]. unfold credited_sum. apply (sql_sum_cents _ _ _ E4).
Qed.

Notation cents c := (DFinite c (-2)).

Lemma fits_prec c : Z.abs c < 10 ^ 12 -> Z.abs c < 10 ^ decimal_prec.
Proof. change (10 ^ decimal_prec) with (10 ^ 28). lia. Qed.

(** A sum worth [c] cents, as [_money] leaves it. *)
Lemma money_of_sum c e : (e = -2 \/ e = 0 /\ c = 0) -> Z.abs c < 10 ^ 12 -> _money (DFinite c e) = Ok (cents c).
Proof. intros [->|[-> ->]] Hc; [|done]. by apply quantize_cents_exact, fits_prec. Qed.

Lemma quantize_zero e : _money (DFinite 0 e) = Ok (cents 0).
Proof.
  unfold _money, quantize_money, quantize_cents. destruct (-2 <=? e); [by rewrite Z.mul_0_l|].
  by change (round_half_up 0 (-2 - e)) with 0.
Qed.

Lemma taxable_base_exact l t e : line_sum (List.filter il_taxable l) = Ok (DFinite t e) ->
  (e = -2 \/ e = 0 /\ t = 0) ->
  exists e', taxable_base l = Ok (DFinite (Z.max t 0) e') /\ (e' = -2 \/ e' = 0 /\ Z.max t 0 = 0).
Proof.
  intros H He. unfold taxable_base. rewrite H. cbn [rbind].
  assert (dec_ltb (DFinite t e) (DFinite 0 0) = Ok (t <? 0)) as ->.
  { unfold dec_ltb. destruct He as [->|[-> ->]]; cbn; [|done]. rewrite Z.mul_1_r. by destruct t. }
  cbn [rbind]. destruct (Z.ltb_spec t 0) as [Hn|Hn].
  - exists 0. rewrite Z.max_r by lia. auto.
  - exists e. rewrite Z.max_l by lia. auto.
Qed.

Lemma recalc_tax_exact invoice lines sm b tax : b = inv_totals_locked invoice ->
  (exists e, line_sum (List.filter il_taxable lines) = Ok (DFinite (s_taxable sm) e) /\
     (e = -2 \/ e = 0 /\ s_taxable sm = 0)) ->
  Z.abs (s_taxable sm) < 10 ^ 12 -> Z.abs tax < 10 ^ 12 ->
  match inv_tax_rate invoice, b with
  | Some (DFinite r e), false =>
      if (r =? 0) || ((e =? -6) && (Z.abs r <? 10 ^ 9)) then Some (round_half_up (Z.max (s_taxable sm) 0 * r) 6) else None
  | Some _, false => None
  | _, _ => money_col (inv_tax_amount invoice)
  end = Some tax ->
  exists w, recalc_tax invoice lines = Ok (cents tax, w) /\
    (w = false -> inv_tax_amount invoice = Some (cents tax)).
Proof.
  intros -> (e & Hs & He) HT Htax H. unfold recalc_tax.
  assert (Hflat : money_col (inv_tax_amount invoice) = Some tax ->
    exists w, (let! tax_amount := _money_float (_to_float (inv_tax_amount invoice)) in Ok (tax_amount, false))
                = Ok (cents tax, w) /\ (w = false -> inv_tax_amount invoice = Some (cents tax))).
  { intros Hm. exists false. rewrite (money_float_worth _ tax) by (by apply money_col_worth).
    split; [done|]. intros _. by apply money_col_Some in Hm as [-> _]. }
  destruct (inv_tax_rate invoice) as [[r er| |]|], (inv_totals_locked invoice); try done; try (by apply Hflat).
  destruct ((r =? 0) || ((er =? -6) && (Z.abs r <? 10 ^ 9))) eqn:Er; [|done]. injection H as H.
  exists true. split; [|done].
  destruct (taxable_base_exact lines _ _ Hs He) as (e' & -> & He'). cbn [rbind].
  apply orb_true_iff in Er as [->%Z.eqb_eq|[->%Z.eqb_eq Hr%Z.ltb_lt]%andb_true_iff].
  { rewrite Z.mul_0_r in H. change (round_half_up 0 6) with 0 in H. subst tax. cbn [dec_mul rbind]. rewrite Z.mul_0_r.
    rewrite ctx_exact by done. cbn [rbind]. by rewrite quantize_zero. }
  cbn [dec_mul rbind]. set (base := Z.max (s_taxable sm) 0) in *.
  assert (Hp : Z.abs (base * r) < 10 ^ 21) by (rewrite Z.abs_mul; nia).
  rewrite ctx_exact by (change (10 ^ decimal_prec) with (10 ^ 28); lia). cbn [rbind].
  assert (Hm : _money (DFinite (base * r) (e' + -6)) = Ok (cents tax)).
  { unfold _money, quantize_money, quantize_cents. destruct He' as [->|[-> H0]].
    - change (-2 <=? -2 + -6) with false. cbv iota. change (-2 - (-2 + -6)) with 6. rewrite H.
      by rewrite (proj2 (Z.ltb_lt _ _) (fits_prec _ Htax)).
    - rewrite H0, Z.mul_0_l in *. change (round_half_up 0 6) with 0 in H. by subst tax. }
  by rewrite Hm.
Qed.

Lemma recalc_parts invoice d sm sub tax total bal :
  invoice_sums (inv_id invoice) d = Some sm -> due_totals invoice sm = Some (sub, tax, total, bal) ->
  exists st w, line_sum (active_lines (inv_id invoice) d) = Ok st /\ _money st = Ok (cents (s_lines sm)) /\
    recalc_tax invoice (active_lines (inv_id invoice) d) = Ok (cents tax, w) /\
    (w = false -> inv_tax_amount invoice = Some (cents tax)) /\
    recalc_total invoice (cents (s_lines sm)) (cents tax) = Ok (cents sub, cents total) /\
    recalc_balance invoice (cents total) d = Ok (cents bal) /\
    Z.abs total < 10 ^ 12 /\ Z.abs bal < 10 ^ 12 /\ Z.abs tax < 10 ^ 12 /\
    (inv_totals_locked invoice = false -> sub = s_lines sm /\ total = s_lines sm + tax).
Proof.
  intros Hsm Hdue. destruct (invoice_sums_spec _ _ _ Hsm) as ((e & Hl & He) & Ht & HP & HC & HL & HT).
  unfold due_totals in Hdue.
  match type of Hdue with (?m ≫= _) = _ => destruct m as [tax'|] eqn:Etax; [cbn in Hdue|done] end.
  match type of Hdue with (?m ≫= _) = _ => destruct m as [[sub' total']|] eqn:Est; [cbn in Hdue|done] end.
  set (bal' := if bool_decide (inv_status invoice = void) then 0 else _) in Hdue.
  destruct (fits tax' && fits total' && fits bal') eqn:Ef; [|done]. rewrite !andb_true_iff in Ef.
  destruct Ef as [[Ftax%Z.ltb_lt Ftot%Z.ltb_lt] Fbal%Z.ltb_lt]. injection Hdue as -> -> -> Hbal.
  rewrite Hbal in Fbal. unfold bal' in Hbal.
  destruct (recalc_tax_exact invoice _ sm _ tax eq_refl Ht HT Ftax Etax) as (w & Hw & Hw').
  exists (DFinite (s_lines sm) e), w. split_and!; try done.
  - by apply money_of_sum.
  - unfold recalc_total. destruct (inv_totals_locked invoice).
    + destruct (money_col (inv_subtotal invoice)) as [a|] eqn:E1; [|done].
      destruct (money_col (inv_total invoice)) as [b|] eqn:E2; [|done]. injection Est as -> ->.
      rewrite (money_float_worth _ sub), (money_float_worth _ total) by (by apply money_col_worth). done.
    + injection Est as <- <-. rewrite dec_add_cents by (by apply fits_prec). cbn [rbind].
      unfold _money. rewrite quantize_cents_exact by (by apply fits_prec). done.
  - unfold recalc_balance. rewrite (money_float_worth _ _ HP). cbn [rbind].
    rewrite (balance_exact (cents total) (cents (s_paid sm)) _ total (s_paid sm) (s_credited sm)).
    2: { split; [by right|done]. } 2: { split; [by right|apply HP]. } 2: { done. }
    cbn [rbind]. case_bool_decide; by rewrite <- Hbal.
  - intros E. rewrite E in Est. injection Est as <- <-. done.
Qed.

(** * The recalculated row *)

Definition recalculated (sub tax total bal : Z) (i : Invoice) : Invoice :=
  with_totals (cents sub) (cents total) (cents bal) (with_tax (cents tax) i).

(** Paid, and stamped unless it was. *)
Definition settled (now : datetime) (i : Invoice) : Invoice :=
  with_paid_at (Some (default now (inv_paid_at i))) (with_status paid i).

(** Operational rows apart from invoices. *)
Definition other_rows (d : Db) :=
  (op_invoice_lines (db_ops d), op_payments (db_ops d), op_adjustments (db_ops d), op_expenses (db_ops d)).

Lemma get_invoice_id id_ d i : get_invoice id_ d = Some i -> inv_id i = id_.
Proof. intros [_ H]%List.find_some. by apply N.eqb_eq in H. Qed.

Lemma write_invoice_row id_ f s i : (forall j, inv_id (f j) = inv_id j) ->
  get_invoice id_ (se_db s) = Some i -> get_invoice id_ (se_db (write_invoice id_ f s)) = Some (f i).
Proof. intros Hf Hi. cbn [write_invoice se_db set_db]. rewrite get_invoice_update by done. by rewrite Hi. Qed.

Section RecalcRun.
Context `{W : World}.

Lemma repost_or_409_sops i actor : keeps sops (repost_or_409 i actor).
Proof.
  unfold repost_or_409. repeat (apply keeps_catch; [exact _| |apply keeps_raise, _]).
  apply on_db_sops, repost_invoice_issuance_keeps, _.
Qed.

Lemma repost_or_409_off i actor s :
  ledger_posting_enabled (inv_company_id i) (se_db s) = false -> repost_or_409 i actor s = (Ok tt, s).
Proof.
  intros Hoff. unfold repost_or_409, mcatch, on_db, repost_invoice_issuance.
  destruct (negb (is_issued (inv_status i))); [by cbn; rewrite set_db_same|].
  unfold mseq, mreads. rewrite Hoff. cbn. by rewrite set_db_same.
Qed.

Lemma transition_row id_ st actor s i : get_invoice id_ (se_db s) = Some i -> inv_status i <> void ->
  get_invoice id_ (se_db (snd (transition_invoice_status id_ st actor s))) = Some (with_status st i) /\
  other_rows (se_db (snd (transition_invoice_status id_ st actor s))) = other_rows (se_db s) /\
  op_now (db_ops (se_db (snd (transition_invoice_status id_ st actor s)))) = op_now (db_ops (se_db s)).
Proof.
  intros Hi Hv. destruct (decide (st = inv_status i)) as [E|E].
  - assert (transition_invoice_status id_ st actor s = (Ok (inv_status i), s)) as ->.
    { unfold transition_invoice_status, mseq, on_db, mreads. rewrite Hi, set_db_same.
      by rewrite decide_True. }
    subst st. split; [|done]. cbn [snd]. rewrite Hi. by destruct i.
  - rewrite (transition_moves s id_ st actor i Hi E Hv).
    pose proof (after_stamp_ops id_ i st actor (stamped id_ st s)) as Hops.
    split; [|unfold other_rows; by rewrite Hops].
    rewrite (get_invoice_ops _ _ _ Hops). cbn [stamped se_db set_db]. unfold write_status.
    cbn [se_db set_registry set_sanctions]. rewrite get_invoice_update by done. by rewrite Hi.
Qed.

Lemma transition_paid_off id_ actor s i c :
  get_invoice id_ (se_db s) = Some i -> inv_total i = Some (cents c) ->
  ledger_posting_enabled (inv_company_id i) (se_db s) = false ->
  exists old, fst (transition_invoice_status id_ paid actor s) = Ok old.
Proof.
  intros Hi Hc Hoff. unfold transition_invoice_status. unfold mseq at 1, on_db at 1, mreads at 1.
  rewrite Hi, set_db_same. case_decide; [cbn; eauto|]. case_decide; [cbn; eauto|].
  cbv beta iota delta [mseq on_db mreads mreturn mlift mwrite]. cbn [inv_company_id with_status].
  match goal with |- context [ledger_posting_enabled _ ?d] =>
    assert (ledger_posting_enabled (inv_company_id i) d = false) as -> by exact Hoff end.
  cbn [inv_total with_status]. rewrite Hc. destruct (_POSTING_RULES _ _); cbn; eauto.
Qed.

Lemma settle_if_paid_spec id_ iv total bal actor s i :
  get_invoice id_ (se_db s) = Some i -> iv = bool_decide (inv_status i = void) ->
  inv_total i = Some (cents total) -> Z.abs total < 10 ^ 12 -> Z.abs bal < 10 ^ 12 ->
  let run := settle_if_paid id_ iv (cents total) (cents bal) actor s in
  let now := mk_datetime (op_now (db_ops (se_db s))) (Some 0) in
  let flips := negb iv && (bal <=? 0) && (0 <? total) in
  (fst run = Ok tt -> get_invoice id_ (se_db (snd run)) = Some (if flips then settled now i else i)) /\
  (ledger_posting_enabled (inv_company_id i) (se_db s) = false -> fst run = Ok tt) /\
  other_rows (se_db (snd run)) = other_rows (se_db s).
Proof.
  intros Hi -> Htot Hb1 Hb2 run now flips. unfold run, settle_if_paid.
  rewrite (proj1 (float_cents_nonpos bal Hb2)), (proj2 (float_cents_nonpos total Hb1)). fold flips.
  destruct flips eqn:Ef; [|by split_and!]. unfold flips in Ef. rewrite !andb_true_iff in Ef.
  destruct Ef as [[Hv _] _]. apply negb_true_iff, bool_decide_eq_false in Hv.
  destruct (transition_row id_ paid actor s i Hi Hv) as (Hrow & Hoth & Hnow).
  pose proof (transition_paid_off id_ actor s i total Hi Htot) as Hoff.
  unfold mseq. destruct (transition_invoice_status id_ paid actor s) as [[old|e] s2]; cbn [fst snd] in *.
  - split_and!; [intros _|done|exact Hoth].
    unfold mwrite. cbn [snd]. rewrite (write_invoice_row _ _ _ (with_status paid i)); [|intros j; by case_match|done].
    cbn [inv_status with_status inv_paid_at]. rewrite (bool_decide_eq_true_2 (paid = paid)) by done.
    rewrite Hnow. fold now. unfold settled. destruct (inv_paid_at i) as [t|] eqn:Et; cbn.
    + f_equal. destruct i; cbn in *. by rewrite Et.
    + done.
  - split_and!; [done| |exact Hoth]. intros H. destruct (Hoff H) as [x Hx]. done.
Qed.

Lemma recalculate_run id_ actor s invoice sm sub tax total bal :
  get_invoice id_ (se_db s) = Some invoice -> invoice_sums id_ (se_db s) = Some sm ->
  due_totals invoice sm = Some (sub, tax, total, bal) ->
  exists s1, get_invoice id_ (se_db s1) = Some (recalculated sub tax total bal invoice) /\
    other_rows (se_db s1) = other_rows (se_db s) /\ db_gl (se_db s1) = db_gl (se_db s) /\
    op_now (db_ops (se_db s1)) = op_now (db_ops (se_db s)) /\
    _recalculate_invoice id_ actor s =
    match repost_or_409 (recalculated sub tax total bal invoice) actor s1 with
    | (Ok _, s2) => settle_if_paid id_ (bool_decide (inv_status invoice = void)) (cents total) (cents bal) actor s2
    | (Err e, s2) => (Err e, s2)
    end.
Proof.
  intros Hi Hsm Hdue. pose proof (get_invoice_id _ _ _ Hi) as Hid. subst id_.
  destruct (recalc_parts invoice (se_db s) sm sub tax total bal Hsm Hdue)
    as (st & w & Hl & Hm & Ht & Hw & Htot & Hbal & _).
  unfold _recalculate_invoice. unfold mseq at 1, on_db at 1, mreads at 1. rewrite Hi, set_db_same.
  unfold mseq at 1, on_db at 1, mreads at 1. rewrite set_db_same.
  unfold mseq at 1, mlift at 1. rewrite Hl. unfold mseq at 1, mlift at 1. rewrite Hm.
  unfold mseq at 1, mlift at 1. rewrite Ht. cbn [fst snd].
  set (s0 := if w then write_invoice (inv_id invoice) (with_tax (cents tax)) s else s).
  assert (H0 : get_invoice (inv_id invoice) (se_db s0) = Some (with_tax (cents tax) invoice) /\
    other_rows (se_db s0) = other_rows (se_db s) /\ db_gl (se_db s0) = db_gl (se_db s) /\
    op_now (db_ops (se_db s0)) = op_now (db_ops (se_db s)) /\
    recalc_balance invoice (cents total) (se_db s0) = Ok (cents bal)).
  { unfold s0. destruct w.
    - split_and!; [|done..]. by apply write_invoice_row.
    - split_and!; [|done..]. rewrite Hi. f_equal. unfold with_tax. rewrite <- (Hw eq_refl). by destruct invoice. }
  destruct H0 as (Hrow0 & Hoth0 & Hgl0 & Hnow0 & Hbal0).
  assert (Hwr : forall B (k : M Session B),
    ((if w then mwrite (write_invoice (inv_id invoice) (with_tax (cents tax))) else mreturn tt) ;;; k) s = k s0).
  { intros B k. unfold s0. by destruct w. }
  rewrite Hwr. unfold mseq at 1, mlift at 1. rewrite Htot. cbn [fst snd].
  unfold mseq at 1. rewrite Hbal0. unfold mseq at 1, mwrite at 1.
  set (s1 := write_invoice _ _ s0). exists s1.
  assert (Hrow1 : get_invoice (inv_id invoice) (se_db s1) = Some (recalculated sub tax total bal invoice))
    by (apply (write_invoice_row _ _ s0 (with_tax (cents tax) invoice)); done).
  split_and!; [exact Hrow1|exact Hoth0|exact Hgl0|exact Hnow0|].
  unfold mseq at 1, on_db at 1, mreads at 1. rewrite Hrow1, set_db_same. reflexivity.
Qed.
End RecalcRun.

(** The guard accepts the recalculated row. *)
Lemma recalculated_checks invoice d sm sub tax total bal :
  invoice_sums (inv_id invoice) d = Some sm -> due_totals invoice sm = Some (sub, tax, total, bal) ->
  check_invoice (recalculated sub tax total bal invoice) d = Ok false.
Proof.
  intros Hsm Hdue.
  destruct (recalc_parts invoice d sm sub tax total bal Hsm Hdue)
    as (st & w & _ & _ & _ & _ & _ & _ & Ht & _ & Hx & Hun).
  destruct (invoice_sums_spec _ _ _ Hsm) as ((e & Hl & He) & _ & _ & _ & HL & _).
  unfold check_invoice. cbn [recalculated with_totals with_tax inv_totals_locked inv_id inv_tax_amount inv_total].
  destruct (inv_totals_locked invoice) eqn:Elock; [done|]. destruct (Hun eq_refl) as [_ ->].
  destruct (active_lines (inv_id invoice) d) as [|il l] eqn:El; [done|]. rewrite Hl. cbn [rbind _dec default].
  assert (dec_add (DFinite (s_lines sm) e) (cents tax) = Ok (cents (s_lines sm + tax))) as Hadd.
  { destruct He as [->|[-> ->]]; [by apply dec_add_cents, fits_prec|].
    cbn -[ctx]. rewrite Z.mul_1_r. by rewrite ctx_exact by (by apply fits_prec). }
  unfold id. rewrite Hadd. cbn [rbind]. unfold dec_sub. cbn [dec_neg]. rewrite dec_add_cents; [|rewrite Z.add_opp_diag_r; done].
  rewrite Z.add_opp_diag_r. reflexivity.
Qed.

(** The row a recalculation leaves. *)
Definition after_recalc (sub tax total bal : Z) (now : datetime) (i : Invoice) : Invoice :=
  let row := recalculated sub tax total bal i in
  if negb (bool_decide (inv_status i = void)) && (bal <=? 0) && (0 <? total) then settled now row else row.

Lemma recalculate_row `{W : World} id_ actor s s' invoice sm sub tax total bal :
  get_invoice id_ (se_db s) = Some invoice -> invoice_sums id_ (se_db s) = Some sm ->
  due_totals invoice sm = Some (sub, tax, total, bal) ->
  _recalculate_invoice id_ actor s = (Ok tt, s') ->
  get_invoice id_ (se_db s') =
    Some (after_recalc sub tax total bal (mk_datetime (op_now (db_ops (se_db s))) (Some 0)) invoice).
Proof.
  intros Hi Hsm Hdue H. pose proof (get_invoice_id _ _ _ Hi) as Hid.
  destruct (recalc_parts invoice (se_db s) sm sub tax total bal) as
    (_ & _ & _ & _ & _ & _ & _ & _ & Ht & Hb & _ & _); [by rewrite Hid|done|].
  destruct (recalculate_run id_ actor s invoice sm sub tax total bal Hi Hsm Hdue)
    as (s1 & Hrow & _ & _ & Hnow & Hrun). rewrite Hrun in H.
  pose proof (repost_or_409_sops (recalculated sub tax total bal invoice) actor s1) as Hops.
  destruct (repost_or_409 _ actor s1) as [[[]|e] s2]; [|done]. cbn [snd] in Hops. unfold sops, same_ops in Hops.
  rewrite <- (get_invoice_ops _ _ _ Hops) in Hrow.
  destruct (settle_if_paid_spec id_ (bool_decide (inv_status invoice = void)) total bal actor s2 _ Hrow)
    as (H1 & _); [done..|]. rewrite H in H1. specialize (H1 eq_refl). cbn [snd] in H1. rewrite H1.
  by rewrite Hops, Hnow.
Qed.

(** C7: Recalculating an invoice is exact.  On an invoice whose money
    columns, lines, live payments and credits fit their columns,
    [_recalculate_invoice], although it adds up partly in binary floats,
    writes to the cent: the subtotal is the sum of the active lines, the tax
    the half-up rounding of rate times the taxable base floored at zero (or
    the stored amount without a rate), the total their sum (or the stored one
    of a locked import), the balance what payments and credits leave, never
    below zero, and nothing on a void.  Exactly an invoice that is not void,
    has a total and owes nothing is moved to paid, with its first payment
    stamp kept.  The row satisfies the totals invariant; lines, payments and
    adjustments are untouched however the run ends; and with ledger posting
    off it never fails. *)
Theorem recalculate_exact `{W : World} id_ actor s invoice sm sub tax total bal :
  get_invoice id_ (se_db s) = Some invoice -> invoice_sums id_ (se_db s) = Some sm ->
  due_totals invoice sm = Some (sub, tax, total, bal) ->
  let run := _recalculate_invoice id_ actor s in
  let row := recalculated sub tax total bal invoice in
  let now := mk_datetime (op_now (db_ops (se_db s))) (Some 0) in
  (fst run = Ok tt ->
     get_invoice id_ (se_db (snd run)) = Some (after_recalc sub tax total bal now invoice)) /\
  check_invoice row (se_db (snd run)) = Ok false /\
  other_rows (se_db (snd run)) = other_rows (se_db s) /\
  (ledger_posting_enabled (inv_company_id invoice) (se_db s) = false -> fst run = Ok tt).
Proof.
  intros Hi Hsm Hdue run row now. pose proof (get_invoice_id _ _ _ Hi) as Hid.
  destruct (recalc_parts invoice (se_db s) sm sub tax total bal) as
    (_ & _ & _ & _ & _ & _ & _ & _ & Ht & Hb & _ & _); [by rewrite Hid|done|].
  destruct (recalculate_run id_ actor s invoice sm sub tax total bal Hi Hsm Hdue)
    as (s1 & Hrow & Hoth & Hgl & Hnow & Hrun). fold row in Hrow, Hrun. unfold run. rewrite Hrun.
  pose proof (repost_or_409_sops row actor s1) as Hops. pose proof (repost_or_409_off row actor s1) as Hoff.
  assert (Hen : ledger_posting_enabled (inv_company_id invoice) (se_db s1) =
                ledger_posting_enabled (inv_company_id invoice) (se_db s)) by (unfold ledger_posting_enabled, get_gl_settings; by rewrite Hgl).
  assert (Hchk : forall d', other_rows d' = other_rows (se_db s) -> check_invoice row d' = Ok false).
  { intros d' E. rewrite <- (recalculated_checks invoice (se_db s) sm sub tax total bal) by (done || by rewrite Hid).
    unfold check_invoice, active_lines. unfold other_rows in E. by injection E as -> _ _ _. }
  destruct (repost_or_409 row actor s1) as [[[]|e] s2]; cbn [snd] in Hops; unfold sops, same_ops in Hops.
  - assert (Hrow2 : get_invoice id_ (se_db s2) = Some row) by (by rewrite (get_invoice_ops _ _ _ Hops)).
    destruct (settle_if_paid_spec id_ (bool_decide (inv_status invoice = void)) total bal actor s2 row)
      as (H1 & H2 & H3); [done..|]. cbn [fst snd].
    assert (H3' : other_rows (se_db (snd (settle_if_paid id_ (bool_decide (inv_status invoice = void)) (cents total)
        (cents bal) actor s2))) = other_rows (se_db s)).
    { rewrite H3. unfold other_rows. rewrite Hops. exact Hoth. }
    split_and!; [|by apply Hchk|exact H3'|].
    + intros Hok. destruct (settle_if_paid _ _ _ _ _ s2) as [[[]|e] s3] eqn:E; [|done].
      by apply (recalculate_row id_ actor s s3 invoice sm).
    + intros E. apply H2. rewrite E in Hen. specialize (Hoff Hen). by injection Hoff as ->.
  - assert (other_rows (se_db s2) = other_rows (se_db s)) by (unfold other_rows; rewrite Hops; exact Hoth).
    cbn [fst snd]. split_and!; [done|by apply Hchk|done|]. intros E. rewrite E in Hen. by specialize (Hoff Hen).
Qed.

(** * The tax share of a credit *)

(** A product of two amounts divided by a third, rounded to 28 digits and then
    half up to cents, is the exact quotient rounded half up: the first
    rounding never crosses a tie. *)
Lemma prorated_cents a t T : 0 < a < 10 ^ 12 -> 0 < t < 10 ^ 12 -> 0 < T < 10 ^ 12 ->
  _money (dec_of_ratio (a * t) (T * 100)) = Ok (cents ((2 * (a * t) + T) / (2 * T))).
Proof.
  intros Ha Ht HT. set (n := a * t). assert (Hn : 0 < n < 10 ^ 24) by (unfold n; nia). clearbody n. clear Ha Ht.
  destruct (dec_of_ratio_digits n (T * 100)) as (p & -> & Hdig); [lia|lia|].
  assert (Hp : p <= -5).
  { destruct (Z.le_gt_cases p (-5)) as [|Hgt]; [done|exfalso].
    assert (10 ^ Z.max 0 (- p) <= 10 ^ 4) by (apply Z.pow_le_mono_r; lia).
    pose proof (Z.pow_pos_nonneg 10 (Z.max 0 p) ltac:(lia) ltac:(lia)).
    rewrite Z.abs_eq in Hdig by lia. nia. }
  rewrite (Z.max_l 0 p), (Z.max_r 0 (- p)), Z.mul_1_r in * by lia.
  set (u := 10 ^ (- p - 2)). assert (Hu : 10 ^ (- p) = 100 * u).
  { unfold u. change 100 with (10 ^ 2). rewrite <- Z.pow_add_r by lia. f_equal. lia. }
  assert (Hu0 : 0 < u) by (apply Z.pow_pos_nonneg; lia). rewrite Hu in *. rewrite Z.abs_eq in Hdig by lia.
  set (q := round_even _ _). pose proof (round_even_spec (n * (100 * u)) (T * 100) ltac:(lia)) as Hr. fold q in Hr.
  set (z := (2 * n + T) / (2 * T)).
  pose proof (Z.div_mod (2 * n + T) (2 * T) ltac:(lia)) as Hz. pose proof (Z.mod_pos_bound (2 * n + T) (2 * T) ltac:(lia)) as Hf.
  fold z in Hz. set (f := (2 * n + T) mod (2 * T)) in *.
  assert (Htie : f = 0 -> T * q = n * u).
  { intros H0. assert (Hex : n * (100 * u) = T * 100 * ((2 * z - 1) * 5 * (u / 10))).
    { assert (u = 10 * (u / 10)).
      { unfold u. replace (- p - 2) with (1 + (- p - 3)) by lia. rewrite Z.pow_add_r by lia.
        change (10 ^ 1) with 10. rewrite (Z.mul_comm 10), Z.div_mul; lia. }
      nia. }
    unfold q. rewrite Hex, round_even_exact by lia. nia. }
  assert (Hsmall : 2 * Z.abs (T * q - n * u) <= T) by lia.
  assert (Hnu : 10 ^ 27 * T <= n * u) by nia.
  assert (HTu : 2 * T < u) by nia.
  assert (Hq0 : 0 < q) by (assert (0 < T * q) by lia; nia).
  assert (Hq : quantize_cents (DFinite q p) = Some z).
  { unfold quantize_cents. destruct (Z.leb_spec (-2) p); [lia|]. unfold round_half_up.
    replace (-2 - p) with (- p - 2) by lia. fold u.
    rewrite (Z.sgn_pos q), (Z.abs_eq q), Z.mul_1_l by lia.
    assert (Hdiv : (2 * q + u) / (2 * u) = z).
    { symmetry. apply (Z.div_unique _ _ _ (2 * q + u - 2 * u * z)); [|lia]. left.
      assert (HT2 : T * (2 * q + u - 2 * u * z) = 2 * (T * q - n * u) + u * f) by (rewrite (Z.mul_comm 2 n) in *; nia).
      destruct (Z.eq_dec f 0) as [H0|H0]; [rewrite (Htie H0), H0 in HT2; nia|]. split; nia. }
    rewrite Hdiv. destruct (Z.ltb_spec (Z.abs z) (10 ^ decimal_prec)) as [|Hbig]; [done|exfalso].
    change (10 ^ decimal_prec) with (10 ^ 28) in Hbig. nia. }
  unfold _money, quantize_money. by rewrite Hq.
Qed.

(** The tax share of a credit is exact: for an invoice with positive
    total and tax and a positive credit, [credit_tax_component] is credit
    times tax over total rounded half up to the cent, although the division
    is carried out in 28 digits first, and at most the tax charged; a credit
    of the whole total gives back the whole tax; without tax, total or credit
    it is nothing. *)
Theorem credit_tax_exact invoice amount total tax a
    (Htotal : money_col (inv_total invoice) = Some total) (Htax : money_col (inv_tax_amount invoice) = Some tax)
    (Ha : money_col amount = Some a) :
  credit_tax_component invoice amount =
    Ok (cents (if (total <=? 0) || (tax <=? 0) || (a <=? 0) then 0
               else Z.min ((2 * (a * tax) + total) / (2 * total)) tax)) /\
  (0 < total -> 0 <= tax -> a = total -> credit_tax_component invoice amount = Ok (cents tax)).
Proof.
  assert (Hle : forall c, dec_leb (cents c) (DFinite 0 0) = Ok (c <=? 0)).
  { intros c. unfold dec_leb. cbn. rewrite Z.mul_1_r. by destruct c. }
  apply money_col_Some in Htotal as [Htotal B1], Htax as [Htax B2], Ha as [Ha B3].
  assert (Hmain : credit_tax_component invoice amount =
    Ok (cents (if (total <=? 0) || (tax <=? 0) || (a <=? 0) then 0
               else Z.min ((2 * (a * tax) + total) / (2 * total)) tax))).
  { unfold credit_tax_component. rewrite Htotal, Htax, Ha. cbn [_dec default]. unfold id. rewrite !Hle. cbn [rbind].
    destruct ((total <=? 0) || (tax <=? 0) || (a <=? 0)) eqn:Ez; [done|].
    rewrite !orb_false_iff, !Z.leb_gt in Ez. destruct Ez as [[P1 P2] P3].
    cbn [dec_mul]. assert (0 < a * tax < 10 ^ 24) by nia.
    rewrite ctx_exact by (change (10 ^ decimal_prec) with (10 ^ 28); lia). cbn [rbind dec_div].
    destruct (Z.eqb_spec total 0); [lia|]. rewrite Z.sgn_pos, Z.mul_1_l, (Z.abs_eq total) by lia.
    change (10 ^ Z.max 0 (-2 + -2 - -2)) with 1. change (10 ^ Z.max 0 (-2 - (-2 + -2))) with 100.
    rewrite Z.mul_1_r. cbn [rbind]. rewrite prorated_cents by lia. cbn [rbind].
    set (z := (_ / _)). assert (Hcap : quantize_even (cents tax) = Ok (cents tax)).
    { unfold quantize_even. change (-2 <=? -2) with true. cbv iota. rewrite Z.mul_1_r.
      by rewrite (proj2 (Z.ltb_lt _ _) (fits_prec _ B2)). }
    rewrite Hcap. cbn [rbind]. unfold dec_ltb. cbn [dec_compare rbind]. rewrite Z.min_id, Z.sub_diag, !Z.mul_1_r.
    destruct (Z.compare_spec tax z); cbn [rbind]; do 2 f_equal; lia. }
  split; [exact Hmain|]. intros P1 P2 ->. rewrite Hmain. do 2 f_equal.
  destruct (Z.leb_spec total 0); [lia|]. cbn [orb]. destruct (Z.leb_spec tax 0); cbn [orb]; [lia|].
  replace ((2 * (total * tax) + total) / (2 * total)) with tax; [lia|].
  apply (Z.div_unique _ _ _ total); lia.
Qed.

(** * The ledger under a recalculation *)

Lemma write_invoice_srely id_ f s : srely s (write_invoice id_ f s).
Proof. apply journal_frame_rely, invoices_frame. Qed.

Lemma recalculate_keeps `{WO : WorldOk} id_ actor : keeps srely (_recalculate_invoice id_ actor).
Proof.
  assert (Hr : forall A (f : Db -> A), keeps srely (on_db (mreads f))) by (intros; apply on_db_keeps, keeps_reads, _).
  unfold _recalculate_invoice. apply keeps_seq; [exact _|apply Hr|intros [i|]; [|apply keeps_raise, _]].
  apply keeps_seq; [exact _|apply Hr|intros rows].
  do 3 (apply keeps_seq; [exact _|apply keeps_lift, _|intros ?]).
  apply keeps_seq; [exact _| |intros _].
  { case_match; [|apply keeps_return, _]. apply keeps_mwrite. intros s. apply write_invoice_srely. }
  apply keeps_seq; [exact _|apply keeps_lift, _|intros totals].
  apply keeps_seq; [exact _|intros s; cbn; reflexivity|intros bal].
  apply keeps_seq; [exact _|apply keeps_mwrite; intros s; apply write_invoice_srely|intros _].
  apply keeps_seq; [exact _|apply Hr|intros cur].
  apply keeps_seq; [exact _| |intros _].
  { unfold repost_or_409. repeat (apply keeps_catch; [exact _| |apply keeps_raise, _]).
    apply on_db_keeps, repost_invoice_issuance_keeps, _. }
  unfold settle_if_paid. case_match; [|apply keeps_return, _].
  apply keeps_seq; [exact _|apply transition_keeps|intros _].
  apply keeps_mwrite. intros s. apply write_invoice_srely.
Qed.

(** * Only invoices are written *)

Definition only_invoices (s s' : Session) : Prop :=
  exists l, db_ops (se_db s') = set_invoices (fun _ => l) (db_ops (se_db s)).

#[export] Instance only_invoices_preorder : PreOrder only_invoices.
Proof.
  split.
  - intros s. exists (op_invoices (db_ops (se_db s))). by destruct (db_ops (se_db s)).
  - intros a b c [l1 H1] [l2 H2]. exists l2. by rewrite H2, H1.
Qed.

Lemma sops_only s s' : sops s s' -> only_invoices s s'.
Proof. unfold sops, same_ops. intros H. exists (op_invoices (db_ops (se_db s))). rewrite H. by destruct (db_ops (se_db s)). Qed.

Lemma keeps_sops_only {A} (m : M Session A) : keeps sops m -> keeps only_invoices m.
Proof. intros H s. apply sops_only, H. Qed.

Lemma only_invoices_rows s s' : only_invoices s s' ->
  other_rows (se_db s') = other_rows (se_db s) /\ op_now (db_ops (se_db s')) = op_now (db_ops (se_db s)).
Proof. intros [l H]. unfold other_rows. by rewrite H. Qed.

Lemma write_invoice_only id_ f s : only_invoices s (write_invoice id_ f s).
Proof. by eexists. Qed.

Lemma transition_only `{W : World} id_ st actor : keeps only_invoices (transition_invoice_status id_ st actor).
Proof.
  intros s. destruct (get_invoice id_ (se_db s)) as [i|] eqn:Hi.
  - destruct (decide (st = inv_status i)) as [E|E].
    { unfold transition_invoice_status, mseq, on_db, mreads. rewrite Hi, set_db_same, decide_True by done.
      cbn. reflexivity. }
    destruct (decide (inv_status i = void)) as [Ev|Ev].
    { unfold transition_invoice_status, mseq, on_db, mreads. rewrite Hi, set_db_same, decide_False by done.
      rewrite decide_True by done. cbn. reflexivity. }
    rewrite (transition_moves s id_ st actor i Hi E Ev).
    etrans; [|apply sops_only; exact (after_stamp_ops id_ i st actor (stamped id_ st s))]. by eexists.
  - unfold transition_invoice_status, mseq, on_db, mreads. rewrite Hi. cbn. rewrite set_db_same. reflexivity.
Qed.

Lemma recalculate_only `{W : World} id_ actor : keeps only_invoices (_recalculate_invoice id_ actor).
Proof.
  assert (Hr : forall A (f : Db -> A), keeps only_invoices (on_db (mreads f))).
  { intros. apply keeps_sops_only, on_db_sops, keeps_reads, _. }
  unfold _recalculate_invoice. apply keeps_seq; [exact _|apply Hr|intros [i|]; [|apply keeps_raise, _]].
  apply keeps_seq; [exact _|apply Hr|intros rows].
  do 3 (apply keeps_seq; [exact _|apply keeps_lift, _|intros ?]).
  apply keeps_seq; [exact _| |intros _].
  { case_match; [|apply keeps_return, _]. apply keeps_mwrite. intros s. apply write_invoice_only. }
  apply keeps_seq; [exact _|apply keeps_lift, _|intros totals].
  apply keeps_seq; [exact _|intros s; cbn; reflexivity|intros bal].
  apply keeps_seq; [exact _|apply keeps_mwrite; intros s; apply write_invoice_only|intros _].
  apply keeps_seq; [exact _|apply Hr|intros cur].
  apply keeps_seq; [exact _|apply keeps_sops_only, repost_or_409_sops|intros _].
  unfold settle_if_paid. case_match; [|apply keeps_return, _].
  apply keeps_seq; [exact _|apply transition_only|intros _].
  apply keeps_mwrite. intros s. apply write_invoice_only.
Qed.

(** * Witnesses *)

Definition taxed_invoice : Invoice :=
  mk_invoice 7%N "INV-7" sent (Some (cents 0)) (Some (cents 0)) (Some (cents 0)) None None "co" (Some 738000) None
    None None (Some (cents 0)) (Some (DFinite 68750 (-6))) false None "standard" None None None false.

Definition taxed_session : Session :=
  mk_session (mk_db (mk_gl [] [] [] [] [] [] 1%N 0)
    (mk_ops [taxed_invoice]
       [mk_invoice_line 7%N (Some "spring") (Some (cents 9999)) None None true (DFinite 1 0) (cents 9999) 1 None None None;
        mk_invoice_line 7%N (Some "labor") (Some (cents 12000)) None None false (DFinite 1 0) (cents 12000) 2 None None None]
       [mk_payment 31%N 7%N (Some (cents 22686)) (Some "cash") None (Some 738005) None None None None]
       [] [] None 5 1 true)) ∅ [] ∅ [].

Lemma recalculate_exact_witness :
  get_invoice 7%N (se_db (snd (_recalculate_invoice (W := toy_world) 7%N None taxed_session))) =
    Some (settled (mk_datetime 5 (Some 0)) (recalculated 21999 687 22686 0 taxed_invoice)).
Proof.
  destruct (recalculate_exact (W := toy_world) 7%N None taxed_session taxed_invoice
    {| s_lines := 21999; s_taxable := 9999; s_paid := 22686; s_credited := 0 |} 21999 687 22686 0)
    as (H1 & _ & _ & H2); [reflexivity|reflexivity|reflexivity|].
  apply H1, H2. reflexivity.
Defined.

Lemma credit_tax_exact_witness :
  credit_tax_component (recalculated 21999 687 22686 0 taxed_invoice) (Some (cents 10000)) = Ok (cents 303).
Proof.
  apply (credit_tax_exact (recalculated 21999 687 22686 0 taxed_invoice) (Some (cents 10000)) 22686 687 10000);
    reflexivity.
Defined.
