(* ===== verification/Estimates.v ===== *)
(** What an estimate comes to: the job taxonomy ([core/job_taxonomy.py]), the
    tax rate of a customer and of a job ([modules/tax/service.py]), the price
    of an accepted tier ([modules/proposals/service.py]) and the totals every
    customer-facing surface shows ([modules/proposals/totals.py]).

    The tables of the sales side are a record of lists; the reads of
    [compute_estimate_totals] are modelled with a session (its argument
    [db=None] is used by no caller with an accepted tier or a missing rate)
    and without database failures, which the code contains one by one. *)

From S2P Require Import Prelude PyStr Dates Money PyNum Models PayPeriods RulesBase InvoiceTotals.

Local Open Scope Z_scope.

(** * Job types *)

Definition SERVICE_CALL : string := "Service Call".
Definition REPAIR : string := "Repair".
Definition MAINTENANCE : string := "Maintenance".
Definition INSTALLATION : string := "Installation".
Definition NEW_CONSTRUCTION : string := "New Construction".
Definition INSPECTION : string := "Inspection".
Definition OTHER : string := "Other".
Definition QB_IMPORT : string := "QB Import".

Definition JOB_TYPE_OPTIONS : list string :=
  [SERVICE_CALL; INSTALLATION; REPAIR; MAINTENANCE; NEW_CONSTRUCTION; INSPECTION; OTHER].

Definition _ALIASES : list (string * string) :=
  [("service", SERVICE_CALL); ("service call", SERVICE_CALL); ("servicecall", SERVICE_CALL);
   ("repair", REPAIR); ("maintenance", MAINTENANCE); ("install", INSTALLATION);
   ("installation", INSTALLATION); ("new construction", NEW_CONSTRUCTION); ("inspection", INSPECTION);
   ("other", OTHER); ("qb import", QB_IMPORT); ("quickbooks import", QB_IMPORT)].

Definition SERVICE_LANE_TYPES : list string := [SERVICE_CALL; REPAIR; MAINTENANCE].

(** [s.split()] *)
Fixpoint str_words (word : string) (s : string) : list string :=
  match s with
  | EmptyString => if String.eqb word "" then [] else [word]
  | String c s' =>
      if chr_isspace c then (if String.eqb word "" then [] else [word]) ++ str_words "" s'
      else str_words (word +:+ String c "") s'
  end.

Definition canonical_job_type (value : option string) : option string :=
  match value with
  | None => None
  | Some v =>
      let key := str_lower (String.concat " " (str_words "" v)) in
      if String.eqb key "" then None
      else match List.find (fun a => String.eqb (fst a) key) _ALIASES with
           | Some a => Some (snd a)
           | None => Some (str_strip v)
           end
  end.

Inductive lane : Type := service | install | office.

Definition in_types (canon : option string) (types : list string) : bool :=
  match canon with Some c => existsb (String.eqb c) types | None => false end.

Definition pricing_lane (job_type : option string) : lane :=
  let canon := canonical_job_type job_type in
  if in_types canon SERVICE_LANE_TYPES then service
  else if in_types canon [INSTALLATION] then install
  else office.

(** * The sales tables *)

Record Job : Type := mk_job {
  job_id : uuid;
  job_type : option string;
  job_deleted_at : option datetime;
  job_customer_id : option uuid;
  job_not_billable_at : option datetime
}.

Record TaxConfig : Type := mk_tax_config { tc_default_rate : option decimal; tc_tax_labor : bool }.

Record TaxExemption : Type := mk_exemption {
  te_customer_id : uuid;
  te_exempt : bool;
  te_exempt_from : option date;
  te_exempt_until : option date
}.

Inductive estimate_status : Type := EDraft | ESent | EAccepted | EDeclined | ERejected | EExpired.
#[export] Instance estimate_status_eq_dec : EqDecision estimate_status.
Proof. solve_decision. Defined.

Record Estimate : Type := mk_estimate {
  est_id : uuid;
  est_number : string;
  est_job_id : option uuid;
  est_customer_id : option uuid;
  est_company_id : string;
  est_tax_rate : option decimal;
  est_discount : option decimal;
  est_total : option decimal;
  est_status : estimate_status;
  est_accepted_tier_id : option uuid;
  est_deleted_at : option datetime
}.

(** A row of [estimate_lines] or of [proposal_tier_lines]; the parent is the
    estimate or the tier. *)
Record QuoteLine : Type := mk_quote_line {
  ql_id : uuid;
  ql_parent_id : uuid;
  ql_description : string;
  ql_category : option string;
  ql_quantity : option Z;
  ql_unit_price : option decimal;
  ql_line_total : option decimal;
  ql_sort_order : Z;
  ql_created_at : datetime;
  ql_pricing_source : option string   (** of an estimate's line only *)
}.

Inductive tier_name : Type := good | better | best.
#[export] Instance tier_name_eq_dec : EqDecision tier_name.
Proof. solve_decision. Defined.

Record ProposalTier : Type := mk_tier {
  pt_id : uuid;
  pt_estimate_id : uuid;
  pt_tier_name : tier_name;
  pt_description : option string;
  pt_total_price : option decimal;
  pt_warranty_months : Z;
  pt_display_order : Z
}.

Record Sales : Type := mk_sales {
  sa_jobs : list Job;
  sa_tax_config : list TaxConfig;
  sa_exemptions : list TaxExemption;
  sa_estimates : list Estimate;
  sa_estimate_lines : list QuoteLine;
  sa_tiers : list ProposalTier;
  sa_tier_lines : list QuoteLine
}.

(** * Tax rates *)

Definition get_or_create_config : M Sales TaxConfig := fun s =>
  match sa_tax_config s with
  | cfg :: _ => (Ok cfg, s)
  | [] => let cfg := mk_tax_config (Some (DFinite 0 0)) false in
          (Ok cfg, mk_sales (sa_jobs s) [cfg] (sa_exemptions s) (sa_estimates s) (sa_estimate_lines s)
                     (sa_tiers s) (sa_tier_lines s))
  end.

Definition is_install_lane (job_type : option string) : bool :=
  in_types (canonical_job_type job_type) [INSTALLATION; NEW_CONSTRUCTION].

Section Rates.
Context `{W : World}.

(** [scalar_one_or_none] refuses a second exempt row of the customer. *)
Definition is_customer_exempt (s : Sales) (d : Db) (customer_id : option uuid) : result bool :=
  match customer_id with
  | None => Ok false
  | Some cid =>
      match List.filter (fun t => N.eqb (te_customer_id t) cid && te_exempt t) (sa_exemptions s) with
      | [] => Ok false
      | [row] =>
          match te_exempt_from row, te_exempt_until row with
          | None, None => Ok true
          | from, until =>
              let today := shop_today_from_settings d in
              if match from with Some f => today <? f | None => false end then Ok false
              else if match until with Some u => u <? today | None => false end then Ok false
              else Ok true
          end
      | _ => Err MultipleResultsFound
      end
  end.

Definition resolve_rate (s : Sales) (d : Db) (customer_id : option uuid) : result decimal :=
  let! exempt := is_customer_exempt s d customer_id in
  if exempt : bool then Ok (DFinite 0 0)
  else match sa_tax_config s with
       | cfg :: _ => Ok (default (DFinite 0 0) (tc_default_rate cfg))
       | [] => Ok (DFinite 0 0)
       end.

Definition resolve_rate_for_job (s : Sales) (d : Db) (customer_id : option uuid) (job_type : option string)
    (quoted_rate : option decimal) : result decimal :=
  if is_install_lane job_type then Ok (DFinite 0 0)
  else match quoted_rate with
       | None => resolve_rate s d customer_id
       | Some quoted =>
           let! exempt := is_customer_exempt s d customer_id in
           Ok (if exempt : bool then DFinite 0 0 else quoted)
       end.

(** [select(Job.job_type).where(Job.id == job_id)] *)
Definition find_job (s : Sales) (id_ : uuid) : option Job := List.find (fun j => N.eqb (job_id j) id_) (sa_jobs s).

Definition new_estimate_tax_rate (s : Sales) (job : option uuid) : option decimal :=
  match job with
  | None => Some (DFinite 0 0)
  | Some id_ =>
      match find_job s id_ with
      | None => Some (DFinite 0 0)
      | Some j => if is_install_lane (job_type j) then Some (DFinite 0 0) else None
      end
  end.

Definition null_rate_untaxed (s : Sales) (job : option uuid) : bool :=
  match new_estimate_tax_rate s job with Some _ => true | None => false end.

(** * Tiers *)

Definition ql_before (a b : QuoteLine) : bool :=
  (ql_sort_order a <? ql_sort_order b) || ((ql_sort_order a =? ql_sort_order b) && (ql_id a <=? ql_id b)%N).

Definition children (parent : uuid) (l : list QuoteLine) : list QuoteLine :=
  List.filter (fun ln => N.eqb (ql_parent_id ln) parent) l.

Definition tier_contract_lines (s : Sales) (tier : ProposalTier) : list QuoteLine :=
  stable_sort ql_before (children (pt_id tier) (sa_tier_lines s)).

(** [_money2] of a stored amount; ties to even, as [quantize] defaults to. *)
Definition _money2 (v : decimal) : result decimal := quantize_even v.

Definition tier_contract_subtotal (s : Sales) (tier : ProposalTier) : result decimal :=
  match tier_contract_lines s tier with
  | [] => _money2 (_dec (pt_total_price tier))
  | lines => let! sum := dec_sum (map (fun ln => _dec (ql_line_total ln)) lines) in _money2 sum
  end.

Definition find_tier (s : Sales) (id_ : uuid) : option ProposalTier :=
  List.find (fun t => N.eqb (pt_id t) id_) (sa_tiers s).

(** * Totals *)

Record EstimateTotals : Type := mk_totals {
  et_subtotal : float64;
  et_discount : float64;
  et_labor_subtotal : float64;
  et_taxable_subtotal : float64;
  et_tax : float64;
  et_tax_rate : float64;
  et_tax_rate_pct : float64;
  et_tax_labor : bool;
  et_total : float64
}.

Definition _is_labor_line (category : option string) : bool :=
  String.eqb (str_lower (str_strip (default "" category))) "labor".

Definition _load_tax_labor_flag (s : Sales) : bool :=
  match sa_tax_config s with cfg :: _ => tc_tax_labor cfg | [] => false end.

Definition _load_lines (s : Sales) (estimate : Estimate) : list QuoteLine :=
  match est_accepted_tier_id estimate with
  | Some tid => children tid (sa_tier_lines s)
  | None => children (est_id estimate) (sa_estimate_lines s)
  end.

(** The subtotal: the accepted tier's, where its row exists. *)
Definition estimate_subtotal (s : Sales) (estimate : Estimate) : result float64 :=
  match est_accepted_tier_id estimate with
  | Some tid => match find_tier s tid with
                | Some tier => let! sub := tier_contract_subtotal s tier in Ok (float_of_decimal sub)
                | None => Ok (_to_float (est_total estimate))
                end
  | None => Ok (_to_float (est_total estimate))
  end.

(** The rate: the estimate's own, else the lane's, else the customer's; 0.0
    where that read fails. *)
Definition estimate_rate (s : Sales) (d : Db) (estimate : Estimate) : float64 :=
  match est_tax_rate estimate with
  | Some r => _to_float (Some r)
  | None =>
      if null_rate_untaxed s (est_job_id estimate) then FNum 0
      else match resolve_rate s d (est_customer_id estimate) with
           | Ok r => _to_float (Some r)
           | Err _ => FNum 0
           end
  end.

Definition labor_sum (lines : list QuoteLine) : float64 :=
  foldl (fun acc ln => if _is_labor_line (ql_category ln) then float_add acc (_to_float (ql_line_total ln)) else acc)
    (FNum 0) lines.

(** [round(x, 4)] *)
Definition float_round4 (x : float64) : float64 :=
  match x with FNum v => float_of_ratio (round_even (v * 10000) least) 10000 | _ => x end.

Definition compute_estimate_totals (s : Sales) (d : Db) (estimate : Estimate) : result EstimateTotals :=
  let! subtotal := estimate_subtotal s estimate in
  let discount := _to_float (est_discount estimate) in
  let rate := estimate_rate s d estimate in
  let tax_labor := _load_tax_labor_flag s in
  let labor_subtotal := if tax_labor then FNum 0 else labor_sum (_load_lines s estimate) in
  let taxable_pre_discount := float_max0 (float_sub subtotal labor_subtotal) in
  let taxable := float_max0 (float_sub taxable_pre_discount discount) in
  let! product := dec_mul (decimal_of_str taxable) (decimal_of_str rate) in
  let! tax_dec := quantize_money product in
  let tax := float_of_decimal tax_dec in
  let total := float_round2 (float_add (float_max0 (float_sub subtotal discount)) tax) in
  Ok (mk_totals subtotal discount (float_round2 labor_subtotal) (float_round2 taxable) tax rate
        (float_round4 (float_scale 100 rate)) tax_labor total).
End Rates.
