(* ===== verification/EstimateSpec.v ===== *)
(** What [compute_estimate_totals] shows, in cents: exact but for a half cent
    of tax that float subtraction can lose. *)

From S2P Require Import Prelude PyStr Dates Money PyNum StrFloat TaxFloat Models PayPeriods Keys RulesBase InvoiceTotals Estimates.

Local Open Scope Z_scope.

(** * The quote in cents *)

Record quote : Type := mk_quote { q_subtotal : Z; q_labor : Z; q_discount : Z; q_rate : Z }.

Definition subtotal_cents (s : Sales) (e : Estimate) : option Z :=
  match est_accepted_tier_id e ≫= find_tier s with
  | Some tier => match tier_contract_lines s tier with
                 | [] => money_col (pt_total_price tier)
                 | lines => lc ← cents_col ql_line_total lines;
                            if Z.of_nat (length lc) <=? 10 ^ 6 then Some (zsum lc) else None
                 end
  | None => money_col (est_total e)
  end.

(** The labor lines the tax leaves out. *)
Definition labor_lines (s : Sales) (e : Estimate) : list QuoteLine :=
  if _load_tax_labor_flag s then [] else List.filter (fun ln => _is_labor_line (ql_category ln)) (_load_lines s e).

Definition discount_cents (e : Estimate) : option Z :=
  match est_discount e with None => Some 0 | x => money_col x end.

Section Quote.
Context `{W : World}.

Definition rate_dec (s : Sales) (d : Db) (e : Estimate) : decimal :=
  match est_tax_rate e with
  | Some r => r
  | None => if null_rate_untaxed s (est_job_id e) then DFinite 0 0
            else match resolve_rate s d (est_customer_id e) with Ok r => r | Err _ => DFinite 0 0 end
  end.

(** A rate column is [Numeric(9, 6)]. *)
Definition micros (r : decimal) : option Z :=
  match r with DFinite c e => if c =? 0 then Some 0 else if e =? -6 then Some c else None | _ => None end.

(** Amounts that are not negative, below a million dollars, a rate up to
    100% and at most 25 labor lines. *)
Definition quote_of (s : Sales) (d : Db) (e : Estimate) : option quote :=
  sub ← subtotal_cents s e;
  lc ← cents_col ql_line_total (labor_lines s e);
  dis ← discount_cents e;
  r ← micros (rate_dec s d e);
  if (0 <=? sub) && (sub <? 10 ^ 8) && forallb (Z.leb 0) lc && (zsum lc <? 10 ^ 8) &&
     (Z.of_nat (length lc) <=? 25) && (0 <=? dis) && (dis <? 10 ^ 8) && (0 <=? r) && (r <=? 10 ^ 6)
  then Some (mk_quote sub (zsum lc) dis r) else None.

(** The taxable base and the tax due on it. *)
Definition quote_base (q : quote) : Z := Z.max (Z.max (q_subtotal q - q_labor q) 0 - q_discount q) 0.
Definition quote_tax (q : quote) : Z := round_half_up (quote_base q * q_rate q) 6.

(** * Subtotal, labor and rate *)

Lemma tier_lines_cents s tier lc : cents_col ql_line_total (tier_contract_lines s tier) = Some lc ->
  tier_contract_lines s tier <> [] -> Z.abs (zsum lc) < 10 ^ 12 -> Z.of_nat (length lc) <= 10 ^ 15 ->
  tier_contract_subtotal s tier = Ok (DFinite (zsum lc) (-2)).
Proof.
  intros H Hne Hs Hlen. unfold tier_contract_subtotal. destruct (tier_contract_lines s tier) as [|x l] eqn:E; [done|].
  destruct (cents_col_dec _ _ _ H) as (H1 & _ & H2 & H3). rewrite H1.
  destruct (dec_sum_cents lc (10 ^ 12) H2) as (e & He & ->); [change (10 ^ decimal_prec) with (10 ^ 28); lia|lia|].
  destruct He as [->|[-> _]]; [|done]. cbn [rbind]. unfold _money2, quantize_even.
  change (-2 <=? -2) with true. cbv iota. rewrite Z.mul_1_r.
  by rewrite (proj2 (Z.ltb_lt _ _) (fits_prec _ Hs)).
Qed.

Lemma subtotal_spec s e sub : subtotal_cents s e = Some sub -> Z.abs sub < 10 ^ 12 ->
  estimate_subtotal s e = Ok (float_of_decimal (DFinite sub (-2))).
Proof.
  unfold subtotal_cents, estimate_subtotal.
  assert (Hcol : forall x, money_col x = Some sub -> _to_float x = float_of_decimal (DFinite sub (-2))).
  { intros x [-> _]%money_col_Some. done. }
  destruct (est_accepted_tier_id e) as [tid|]; cbn [mbind option_bind]; [|by intros H _; rewrite (Hcol _ H)].
  destruct (find_tier s tid) as [tier|]; [|by intros H _; rewrite (Hcol _ H)].
  destruct (tier_contract_lines s tier) as [|x l] eqn:E.
  - intros [H Hb]%money_col_Some _. unfold tier_contract_subtotal. rewrite E, H. cbn [_dec default].
    unfold _money2, quantize_even, id. change (-2 <=? -2) with true. cbv iota. rewrite Z.mul_1_r.
    by rewrite (proj2 (Z.ltb_lt _ _) (fits_prec _ Hb)).
  - destruct (cents_col ql_line_total (x :: l)) as [lc|] eqn:Ec; [|done]. cbn [mbind option_bind].
    destruct (Z.leb_spec (Z.of_nat (length lc)) (10 ^ 6)) as [Hlen|]; [|done]. intros [= <-] Hb.
    rewrite (tier_lines_cents s tier lc); [done|by rewrite E|by rewrite E|done|].
    change (10 ^ 6) with 1000000 in Hlen. change (10 ^ 15) with 1000000000000000. lia.
Qed.

Lemma labor_sum_fine lines lc v z err :
  cents_col ql_line_total (List.filter (fun ln => _is_labor_line (ql_category ln)) lines) = Some lc ->
  Forall (Z.le 0) lc -> 0 <= z -> z + zsum lc < 10 ^ 8 -> fine v z err -> err + 14 * Z.of_nat (length lc) <= 2 ^ 20 ->
  exists w, foldl (fun acc ln => if _is_labor_line (ql_category ln) then float_add acc (_to_float (ql_line_total ln)) else acc)
              (FNum v) lines = FNum w /\ fine w (z + zsum lc) (err + 14 * Z.of_nat (length lc)).
Proof.
  revert lc v z err. induction lines as [|ln lines IH]; intros lc v z err Hc Hnn Hz Hb Hf He.
  { injection Hc as <-. exists v. cbn [zsum length foldl]. rewrite Z.add_0_r. split; [done|]. unfold fine in *. cbn in *. lia. }
  cbn [List.filter foldl] in *. destruct (_is_labor_line (ql_category ln)) eqn:El; [|by apply (IH lc)].
  apply (cents_col_app _ [ln]) in Hc as (k1 & k2 & -> & (c & Em & ->)%cents_col_one & H2). cbn [app zsum length] in *.
  apply Forall_cons in Hnn as [Hc0 Hnn]. rewrite Nat2Z.inj_succ in *.
  assert (Hpos : 0 <= zsum k2) by (clear -Hnn; induction k2 as [|x k IHk]; [done|]; apply Forall_cons in Hnn as [? ?]; cbn; specialize (IHk H0); lia).
  apply money_col_Some in Em as [-> _]. destruct (fine_cents c) as (u & Hu & Hfu); [lia|].
  assert (_to_float (Some (DFinite c (-2))) = FNum u) as -> by exact Hu.
  destruct (fine_add v u z c err 7 Hf Hfu) as (w & -> & Hw); [lia|lia|].
  destruct (IH k2 w (z + c) (err + 14)) as (w' & -> & Hw'); [done|done|lia|lia| |lia|].
  { by replace (err + 14) with (err + 7 + 7) by lia. }
  exists w'. split; [done|]. replace (z + (c + zsum k2)) with (z + c + zsum k2) by lia.
  by replace (err + 14 * Z.succ (Z.of_nat (length k2))) with (err + 14 + 14 * Z.of_nat (length k2)) by lia.
Qed.

Lemma rate_spec s d e r : micros (rate_dec s d e) = Some r -> estimate_rate s d e = float_of_decimal (DFinite r (-6)).
Proof.
  assert (Hm : forall x, micros x = Some r -> float_of_decimal x = float_of_decimal (DFinite r (-6))).
  { intros [c ex| |]; cbn [micros]; [|done..]. destruct (Z.eqb_spec c 0) as [->|]; [intros [= <-]; by rewrite !float_zero|].
    destruct (Z.eqb_spec ex (-6)) as [->|]; [by intros [= ->]|done]. }
  unfold rate_dec, estimate_rate. destruct (est_tax_rate e); [by apply Hm|].
  destruct (null_rate_untaxed _ _); [intros H; rewrite <- (Hm _ H); by rewrite float_zero|].
  destruct (resolve_rate _ _ _); [by apply Hm|]. intros H. rewrite <- (Hm _ H). by rewrite float_zero.
Qed.

Lemma discount_spec e dis : discount_cents e = Some dis -> Z.abs dis < 10 ^ 8 ->
  _to_float (est_discount e) = float_of_decimal (DFinite dis (-2)).
Proof.
  unfold discount_cents, _to_float. destruct (est_discount e) as [x|].
  - intros [[= ->] _]%money_col_Some _. done.
  - intros [= <-] _. cbn [_dec default]. by rewrite !float_zero.
Qed.

Lemma quote_of_spec s d e q : quote_of s d e = Some q ->
  exists lc, subtotal_cents s e = Some (q_subtotal q) /\ cents_col ql_line_total (labor_lines s e) = Some lc /\
    q_labor q = zsum lc /\ Forall (Z.le 0) lc /\ Z.of_nat (length lc) <= 25 /\
    discount_cents e = Some (q_discount q) /\ micros (rate_dec s d e) = Some (q_rate q) /\
    0 <= q_subtotal q < 10 ^ 8 /\ 0 <= q_labor q < 10 ^ 8 /\ 0 <= q_discount q < 10 ^ 8 /\ 0 <= q_rate q <= 10 ^ 6.
Proof.
  unfold quote_of. destruct (subtotal_cents s e) as [sub|]; [cbn [mbind option_bind]|done].
  destruct (cents_col _ _) as [lc|]; [cbn [mbind option_bind]|done].
  destruct (discount_cents e) as [dis|]; [cbn [mbind option_bind]|done].
  destruct (micros _) as [r|]; [cbn [mbind option_bind]|done].
  destruct (_ && _) eqn:Eb; [|done]. intros [= <-]. rewrite !andb_true_iff, !Z.leb_le, !Z.ltb_lt in Eb.
  destruct Eb as [[[[[[[[? ?] Hf] ?] ?] ?] ?] ?] ?]. exists lc. cbn [q_subtotal q_labor q_discount q_rate].
  assert (Hnn : Forall (Z.le 0) lc).
  { apply Forall_forall. intros x Hx. rewrite forallb_forall in Hf. apply Z.leb_le, Hf. by apply list_elem_of_In. }
  assert (0 <= zsum lc) by (clear -Hnn; induction Hnn; cbn; lia). split_and!; done.
Qed.

(** The taxable amount as the code's float. *)
Lemma taxable_fine s e q lc : cents_col ql_line_total (labor_lines s e) = Some lc -> Forall (Z.le 0) lc ->
  Z.of_nat (length lc) <= 25 -> q_labor q = zsum lc ->
  0 <= q_subtotal q < 10 ^ 8 -> 0 <= q_labor q < 10 ^ 8 -> 0 <= q_discount q < 10 ^ 8 ->
  exists v, float_max0 (float_sub (float_max0 (float_sub (float_of_decimal (DFinite (q_subtotal q) (-2)))
                  (if _load_tax_labor_flag s then FNum 0 else labor_sum (_load_lines s e))))
                (float_of_decimal (DFinite (q_discount q) (-2)))) = FNum v /\ 0 <= v /\ fine v (quote_base q) 400.
Proof.
  intros Hl Hnn Hlen HL Hs Hlb Hd.
  destruct (fine_cents (q_subtotal q)) as (v1 & -> & F1); [lia|].
  destruct (fine_cents (q_discount q)) as (v2 & -> & F2); [lia|].
  assert (exists w, (if _load_tax_labor_flag s then FNum 0 else labor_sum (_load_lines s e)) = FNum w /\
            fine w (q_labor q) 350) as (w & -> & Fw).
  { unfold labor_lines in Hl. destruct (_load_tax_labor_flag s).
    - injection Hl as <-. rewrite HL. exists 0. split; [done|]. unfold fine. cbn. pose proof least_pos. lia.
    - destruct (labor_sum_fine (_load_lines s e) lc 0 0 0 Hl Hnn) as (w & Hw & Fw); [lia|lia|apply fine_zero|change (2 ^ 20) with 1048576; lia|].
      exists w. split; [exact Hw|]. rewrite HL. unfold fine in *. pose proof least_pos. rewrite !Z.add_0_l in Fw. nia. }
  destruct (fine_sub v1 w _ _ _ _ F1 Fw) as (v3 & -> & F3); [lia|change (2 ^ 20) with 1048576; lia|].
  destruct (fine_max0 v3 _ _ F3) as (v4 & -> & F4 & _).
  destruct (fine_sub v4 v2 _ _ _ _ F4 F2) as (v5 & -> & F5); [lia|change (2 ^ 20) with 1048576; lia|].
  destruct (fine_max0 v5 _ _ F5) as (v6 & -> & F6 & H6). exists v6. split; [done|]. split; [done|].
  unfold quote_base, fine in *. pose proof least_pos. lia.
Qed.

Lemma quote_base_bound q : 0 <= q_subtotal q < 10 ^ 8 -> 0 <= q_labor q -> 0 <= q_discount q ->
  0 <= quote_base q <= q_subtotal q.
Proof. unfold quote_base. lia. Qed.

Lemma half_up_bound z r : 0 <= z <= 10 ^ 8 -> 0 <= r <= 10 ^ 6 -> 0 <= round_half_up (z * r) 6 <= z.
Proof.
  intros Hz Hr. change (10 ^ 6) with 1000000 in *. unfold round_half_up. change (10 ^ 6) with 1000000.
  rewrite (Z.abs_eq (z * r)) by nia. destruct (Z.eq_dec (z * r) 0) as [->|Hn]; [cbn; lia|].
  rewrite Z.sgn_pos, Z.mul_1_l by nia. split; [apply Z.div_pos; nia|].
  apply Z.lt_succ_r, Z.div_lt_upper_bound; [lia|]. nia.
Qed.

(** The displayed total. *)
Lemma total_exact sub dis tax : 0 <= sub < 10 ^ 8 -> 0 <= dis < 10 ^ 8 -> -1 <= tax <= 10 ^ 8 ->
  float_round2 (float_add (float_max0 (float_sub (float_of_decimal (DFinite sub (-2))) (float_of_decimal (DFinite dis (-2)))))
    (float_of_decimal (DFinite tax (-2)))) = float_of_decimal (DFinite (Z.max (sub - dis) 0 + tax) (-2)).
Proof.
  intros Hs Hd Ht. destruct (fine_cents sub) as (v1 & -> & F1); [lia|]. destruct (fine_cents dis) as (v2 & -> & F2); [lia|].
  destruct (fine_sub v1 v2 _ _ _ _ F1 F2) as (v3 & -> & F3); [lia|done|].
  destruct (fine_max0 v3 _ _ F3) as (v4 & -> & F4 & _).
  destruct (float_cents tax) as (u & -> & Fu); [lia|].
  destruct (float_add_near v4 u (Z.max (sub - dis) 0) tax (2 ^ 17) 100) as (w & -> & Fw);
    [by apply (fine_near _ _ (7 + 7 + 7))|done|lia|done|].
  rewrite float_of_cents. apply (float_round2_near w _ (2 ^ 17 + 100 + 800)); done.
Qed.

(** With nothing subtracted the taxable float is the subtotal's. *)
Lemma float_sub_zero c v : float_of_decimal (DFinite c (-2)) = FNum v -> float_sub (FNum v) (FNum 0) = FNum v.
Proof. rewrite float_of_cents. intros H. cbn [float_sub]. rewrite Z.sub_0_r. by apply (float_again c 100). Qed.

Lemma taxable_plain s e c : labor_lines s e = [] -> 0 <= c < 10 ^ 8 ->
  float_max0 (float_sub (float_max0 (float_sub (float_of_decimal (DFinite c (-2)))
     (if _load_tax_labor_flag s then FNum 0 else labor_sum (_load_lines s e)))) (FNum 0)) = float_of_decimal (DFinite c (-2)).
Proof.
  intros Hl Hc. assert ((if _load_tax_labor_flag s then FNum 0 else labor_sum (_load_lines s e)) = FNum 0) as ->.
  { unfold labor_lines in Hl. destruct (_load_tax_labor_flag s); [done|]. unfold labor_sum.
    induction (_load_lines s e) as [|ln l IH]; [done|]. cbn [List.filter foldl] in *.
    destruct (_is_labor_line _); [done|by apply IH]. }
  destruct (fine_cents c) as (v & Hv & _); [lia|]. rewrite Hv, (float_sub_zero c v Hv).
  assert (Hv0 : float_max0 (FNum v) = FNum v).
  { unfold float_max0. cbn [float_gtb]. destruct (Z.ltb_spec v 0) as [Hn|]; [|done].
    destruct (float_cents_nonpos c) as [H _]; [lia|]. rewrite Hv in H. cbn [float_nonpos] in H.
    assert (c = 0) as -> by (rewrite (proj2 (Z.leb_le v 0)) in H by lia; symmetry in H; apply Z.leb_le in H; lia).
    rewrite float_zero in Hv. injection Hv as <-. lia. }
  by rewrite Hv0, (float_sub_zero c v Hv), Hv0.
Qed.
End Quote.

(** C23: What an estimate shows is the quote to the cent.  For amounts below a
    million dollars that are not negative, a rate up to 100% and at most 25
    labor lines, [compute_estimate_totals] succeeds although it subtracts in
    binary floats: the subtotal is the tier's or the estimate's own, the total
    the discounted subtotal (not below zero) plus the tax, and the tax the
    half-up rounding of rate times the taxable base; only where that product
    is exactly half a cent can the tax be one cent short, and not when neither
    labor nor a discount is subtracted. *)
Theorem estimate_totals_exact `{W : World} s d e q (Hq : quote_of s d e = Some q) :
  exists t tax, compute_estimate_totals s d e = Ok t /\
    et_subtotal t = float_of_decimal (DFinite (q_subtotal q) (-2)) /\
    et_tax t = float_of_decimal (DFinite tax (-2)) /\
    et_total t = float_of_decimal (DFinite (Z.max (q_subtotal q - q_discount q) 0 + tax) (-2)) /\
    (tax = quote_tax q \/ tax = quote_tax q - 1 /\ (quote_base q * q_rate q) mod 10 ^ 6 = 500000) /\
    (labor_lines s e = [] -> q_discount q = 0 -> tax = quote_tax q).
Proof.
  destruct (quote_of_spec s d e q Hq) as (lc & H1 & H2 & H3 & H4 & H5 & H6 & H7 & B1 & B2 & B3 & B4).
  pose proof (quote_base_bound q B1 ltac:(lia) ltac:(lia)) as HB.
  destruct (taxable_fine s e q lc H2 H4 H5 H3 B1 B2 B3) as (v & Hv & Hv0 & Fv).
  destruct (float_tax v (quote_base q) 400 (q_rate q) Hv0 ltac:(lia) ltac:(lia) B4 Fv) as (tax & Htax & Hcase).
  pose proof (half_up_bound (quote_base q) (q_rate q) ltac:(lia) B4) as Hb. fold (quote_tax q) in *.
  eexists _, tax. unfold compute_estimate_totals.
  rewrite (subtotal_spec s e _ H1) by lia. cbn [rbind]. rewrite (discount_spec e _ H6), (rate_spec s d e _ H7) by lia.
  rewrite Hv. destruct (dec_mul _ _) as [product|] eqn:Em; [|done]. cbn [rbind] in *. rewrite Htax. cbn [rbind].
  split; [reflexivity|]. cbn [et_subtotal et_tax et_total]. split; [done|]. split; [done|].
  split; [apply total_exact; lia|]. split; [done|]. intros Hnl Hd0.
  rewrite Hd0, float_zero, (taxable_plain s e _ Hnl B1) in Hv.
  assert (Hbase : quote_base q = q_subtotal q).
  { unfold quote_base. rewrite Hnl in H2. injection H2 as <-. cbn in H3. lia. }
  pose proof (float_tax_exact (q_subtotal q) (q_rate q) ltac:(lia) B4) as He. rewrite Hv in He.
  rewrite Em in He. cbn [rbind] in He. rewrite Htax in He. injection He as ->. unfold quote_tax. by rewrite Hbase.
Qed.

(** * Witnesses *)

(** A hundred dollars of parts and fifty of labor, ten dollars off, at the
    Minnesota rate. *)
Definition quoted_estimate : Estimate :=
  mk_estimate 5%N "EST-000005" (Some 2%N) (Some 3%N) "co" (Some (DFinite 68750 (-6))) (Some (DFinite 1000 (-2)))
    (Some (DFinite 15000 (-2))) EAccepted None None.

Definition quoted_sales : Sales :=
  mk_sales [mk_job 2%N (Some "Service") None (Some 3%N) None] [mk_tax_config (Some (DFinite 68750 (-6))) false] [] [quoted_estimate]
    [mk_quote_line 11%N 5%N "door" (Some "Parts") (Some 1) (Some (DFinite 10000 (-2))) (Some (DFinite 10000 (-2))) 1 (mk_datetime 0 (Some 0)) None;
     mk_quote_line 12%N 5%N "install" (Some "Labor") (Some 1) (Some (DFinite 5000 (-2))) (Some (DFinite 5000 (-2))) 2 (mk_datetime 0 (Some 0)) None]
    [] [].

Definition bare_db : Db := mk_db (mk_gl [] [] [] [] [] [] 1%N 0) (mk_ops [] [] [] [] [] None 5 1 true).

Lemma estimate_totals_exact_witness :
  exists t, compute_estimate_totals (W := toy_world) quoted_sales bare_db quoted_estimate = Ok t /\
    et_total t = float_of_decimal (DFinite 14619 (-2)).
Proof.
  destruct (estimate_totals_exact (W := toy_world) quoted_sales bare_db quoted_estimate (mk_quote 15000 5000 1000 68750)
    eq_refl) as (t & tax & H & _ & _ & Ht & [->|[_ Htie]] & _); [|discriminate Htie].
  exists t. split; [exact H|]. rewrite Ht. reflexivity.
Defined.

(** The half cent float subtraction loses: 64.07 less 27.82 of labor is a
    taxable 36.24999..., so at ten percent the estimate shows 3.62 of tax
    where half up on 36.25 gives 3.63. *)
Definition short_estimate : Estimate :=
  mk_estimate 5%N "EST-000005" (Some 2%N) (Some 3%N) "co" (Some (DFinite 100000 (-6))) None
    (Some (DFinite 6407 (-2))) EAccepted None None.

Definition short_sales : Sales :=
  mk_sales [mk_job 2%N (Some "Service") None (Some 3%N) None] [] [] [short_estimate]
    [mk_quote_line 11%N 5%N "spring" (Some "Parts") (Some 1) (Some (DFinite 3625 (-2))) (Some (DFinite 3625 (-2))) 1 (mk_datetime 0 (Some 0)) None;
     mk_quote_line 12%N 5%N "labor" (Some "Labor") (Some 1) (Some (DFinite 2782 (-2))) (Some (DFinite 2782 (-2))) 2 (mk_datetime 0 (Some 0)) None]
    [] [].

Lemma half_cent_lost :
  quote_of (W := toy_world) short_sales bare_db short_estimate = Some (mk_quote 6407 2782 0 100000) /\
  quote_tax (mk_quote 6407 2782 0 100000) = 363 /\
  exists t, compute_estimate_totals (W := toy_world) short_sales bare_db short_estimate = Ok t /\
    et_tax t = float_of_decimal (DFinite 362 (-2)).
Proof.
  split_and!; [vm_compute; reflexivity|vm_compute; reflexivity|]. eexists. split; vm_compute; reflexivity.
Qed.
