(* ===== verification/InvoiceGuard.v ===== *)
(** The totals invariant enforced at commit: [_record_for], [_record_touched],
    [_check] and the listeners [install] registers
    ([core/invoice_invariants.py]).

    The state of a session is its transaction: the database as last committed,
    the database as the transaction sees it, the record of touched invoices of
    the outermost transaction, and one frame per open savepoint, innermost
    first.  A flush is a list of row writes; what the listener finds in
    [session.new], [session.dirty] and [session.deleted] are the rows written.
    A step is one thing a session does: flush, open, release or roll back a
    savepoint, commit, roll back. *)

From S2P Require Import Prelude PyStr Dates Money PyNum Models RulesBase Chokepoint InvoiceTotals.

Local Open Scope Z_scope.

(** * Row writes *)

(** A line is named by its position in the table. *)
Inductive row_write : Type :=
  | AddInvoice (i : Invoice)
  | SetInvoice (i : Invoice)
  | DelInvoice (id_ : uuid)
  | AddLine (il : InvoiceLine)
  | SetLine (at_ : nat) (il : InvoiceLine)
  | DelLine (at_ : nat)
  | OtherWrite (f : Gl -> Gl).

Definition set_invoice_lines (f : list InvoiceLine -> list InvoiceLine) (o : Ops) : Ops :=
  mk_ops (op_invoices o) (f (op_invoice_lines o)) (op_payments o) (op_adjustments o)
    (op_expenses o) (op_app_timezone o) (op_now o) (op_txid o) (op_postgres o).

Definition write_row (w : row_write) (d : Db) : Db :=
  match w with
  | AddInvoice i => set_ops (set_invoices (fun l => l ++ [i])) d
  | SetInvoice i => set_ops (set_invoices (update_where (fun j => N.eqb (inv_id j) (inv_id i)) (fun _ => i))) d
  | DelInvoice id_ => set_ops (set_invoices (List.filter (fun j => negb (N.eqb (inv_id j) id_)))) d
  | AddLine il => set_ops (set_invoice_lines (fun l => l ++ [il])) d
  | SetLine k il => set_ops (set_invoice_lines (<[k := il]>)) d
  | DelLine k => set_ops (set_invoice_lines (fun l => take k l ++ drop (S k) l)) d
  | OtherWrite f => set_gl f d
  end.

(** What [_record_touched] adds for the object of a write: the invoice, or the
    line's invoice and the one it left. *)
Definition touches (w : row_write) (d : Db) : list uuid :=
  match w with
  | AddInvoice i | SetInvoice i => [inv_id i]
  | DelInvoice id_ => [id_]
  | AddLine il => [il_invoice_id il]
  | SetLine k il =>
      il_invoice_id il :: match op_invoice_lines (db_ops d) !! k with Some old => [il_invoice_id old] | None => [] end
  | DelLine k => match op_invoice_lines (db_ops d) !! k with Some old => [il_invoice_id old] | None => [] end
  | OtherWrite _ => []
  end.

(** * The session *)

Record frame : Type := mk_frame { fr_record : gset uuid; fr_released : bool; fr_snapshot : Db }.

Record tx : Type := mk_tx {
  tx_committed : Db;
  tx_db : Db;
  tx_touched : gset uuid;       (** [session.info[_TOUCHED_KEY]] *)
  tx_frames : list frame        (** [session.info[_SAVEPOINTS_KEY]], innermost first *)
}.

(** Where a flush records: the innermost open savepoint, or the outermost
    transaction. *)
Definition _record_for (f : gset uuid -> gset uuid) (t : tx) : tx :=
  match tx_frames t with
  | [] => mk_tx (tx_committed t) (tx_db t) (f (tx_touched t)) []
  | fr :: frs =>
      mk_tx (tx_committed t) (tx_db t) (tx_touched t)
        (mk_frame (f (fr_record fr)) (fr_released fr) (fr_snapshot fr) :: frs)
  end.

Definition set_tx_db (d : Db) (t : tx) : tx := mk_tx (tx_committed t) d (tx_touched t) (tx_frames t).

Fixpoint flush_rows (ws : list row_write) (d : Db) : Db * gset uuid :=
  match ws with
  | [] => (d, ∅)
  | w :: ws' =>
      let '(d', ids) := flush_rows ws' (write_row w d) in (d', list_to_set (touches w d) ∪ ids)
  end.

(** A flush, and [_after_flush] after it. *)
Definition flush (ws : list row_write) (t : tx) : tx :=
  let '(d, ids) := flush_rows ws (tx_db t) in _record_for (fun r => r ∪ ids) (set_tx_db d t).

(** [_check]: the first violation raises in strict mode; an amount that cannot
    be compared raises in any mode. *)
Fixpoint _check (strict : bool) (ids : list uuid) (d : Db) : result unit :=
  match ids with
  | [] => Ok tt
  | id_ :: ids' =>
      match get_invoice id_ d with
      | None => _check strict ids' d
      | Some invoice =>
          match inv_deleted_at invoice with
          | Some _ => _check strict ids' d
          | None =>
              let! violation := check_invoice invoice d in
              if (violation : bool) && strict then Err InvoiceTotalsInvariantError
              else _check strict ids' d
          end
      end
  end.

(** [_before_commit]: of a savepoint release, marking the frame; of the
    outermost commit. *)
Definition _before_commit (strict : bool) (t : tx) : result tx :=
  match tx_frames t with
  | [] => let! _ := _check strict (elements (tx_touched t)) (tx_db t) in Ok t
  | fr :: frs =>
      let! _ := _check strict (elements (fr_record fr)) (tx_db t) in
      Ok (mk_tx (tx_committed t) (tx_db t) (tx_touched t)
            (mk_frame (fr_record fr) true (fr_snapshot fr) :: frs))
  end.

(** [_after_transaction_end] of a savepoint, whose frame is on top. *)
Definition _after_savepoint_end (t : tx) : tx :=
  match tx_frames t with
  | [] => t
  | fr :: frs =>
      let t' := mk_tx (tx_committed t) (tx_db t) (tx_touched t) frs in
      if fr_released fr then _record_for (fun r => r ∪ fr_record fr) t' else t'
  end.

(** [_after_transaction_end] of the outermost transaction. *)
Definition _after_root_end (t : tx) : tx := mk_tx (tx_committed t) (tx_db t) ∅ [].

Inductive session_step (strict : bool) : tx -> tx -> Prop :=
  | SFlush ws t : session_step strict t (flush ws t)
  | SBegin t :
      session_step strict t
        (mk_tx (tx_committed t) (tx_db t) (tx_touched t) (mk_frame ∅ false (tx_db t) :: tx_frames t))
  | SRelease t t' fr frs :
      tx_frames t = fr :: frs -> _before_commit strict t = Ok t' ->
      session_step strict t (_after_savepoint_end t')
  | SReleaseFails t t' fr frs :
      tx_frames t = fr :: frs -> _before_commit strict t = Ok t' ->
      session_step strict t (_after_savepoint_end (set_tx_db (fr_snapshot fr) t'))
  | SRollbackSavepoint t fr frs :
      tx_frames t = fr :: frs ->
      session_step strict t (_after_savepoint_end (set_tx_db (fr_snapshot fr) t))
  | SCommit t t' :
      tx_frames t = [] -> _before_commit strict t = Ok t' ->
      session_step strict t (_after_root_end (mk_tx (tx_db t') (tx_db t') (tx_touched t') (tx_frames t')))
  | SRollback t :
      session_step strict t (_after_root_end (set_tx_db (tx_committed t) t)).

(** A fresh session on a database. *)
Definition open_session (d : Db) : tx := mk_tx d d ∅ [].

(** * What an invoice's check depends on *)

Definition view (id_ : uuid) (d : Db) : option Invoice * list InvoiceLine :=
  (get_invoice id_ d, List.filter (fun il => N.eqb (il_invoice_id il) id_) (op_invoice_lines (db_ops d))).

(** Outside [r] nothing an invoice's check depends on has changed. *)
Definition same_outside (r : gset uuid) (d d' : Db) : Prop := forall id_, id_ ∉ r -> view id_ d' = view id_ d.

(** Every live invoice satisfies the invariant. *)
Definition totals_hold (d : Db) : Prop :=
  forall id_ i, get_invoice id_ d = Some i -> inv_deleted_at i = None -> check_invoice i d = Ok false.

Lemma same_outside_refl d : same_outside ∅ d d.
Proof. done. Qed.

Lemma same_outside_trans r r' d d' d'' :
  same_outside r d d' -> same_outside r' d' d'' -> same_outside (r ∪ r') d d''.
Proof. intros H1 H2 id_ Hn. rewrite H2, H1 by set_solver. done. Qed.

Lemma active_lines_view id_ d :
  active_lines id_ d =
  List.filter (fun il => match il_deleted_at il with None => true | Some _ => false end) (snd (view id_ d)).
Proof.
  unfold active_lines, view. cbn [snd]. induction (op_invoice_lines (db_ops d)) as [|x l IH]; [done|].
  cbn. destruct (N.eqb (il_invoice_id x) id_); cbn; [|done]. destruct (il_deleted_at x); by rewrite IH.
Qed.

Lemma check_view i d d' : view (inv_id i) d' = view (inv_id i) d -> check_invoice i d' = check_invoice i d.
Proof. intros H. unfold check_invoice. by rewrite !active_lines_view, H. Qed.

Lemma get_invoice_filter id_ id' l : id_ <> id' ->
  List.find (fun i => N.eqb (inv_id i) id_) (List.filter (fun j => negb (N.eqb (inv_id j) id')) l) =
  List.find (fun i => N.eqb (inv_id i) id_) l.
Proof.
  intros Hne. induction l as [|x l IH]; [done|]. cbn.
  destruct (N.eqb_spec (inv_id x) id') as [E|E]; cbn.
  - destruct (N.eqb_spec (inv_id x) id_); [congruence|done].
  - by destruct (N.eqb (inv_id x) id_).
Qed.

Lemma filter_insert_out {A} (f : A -> bool) k x old (l : list A) :
  l !! k = Some old -> f x = false -> f old = false -> List.filter f (<[k := x]> l) = List.filter f l.
Proof.
  intros Hk Hx Ho. revert k Hk. induction l as [|y l IH]; intros [|k] Hk; try done; cbn in *.
  - injection Hk as ->. by rewrite Hx, Ho.
  - by rewrite IH.
Qed.

Lemma filter_remove_out {A} (f : A -> bool) k old (l : list A) :
  l !! k = Some old -> f old = false -> List.filter f (take k l ++ drop (S k) l) = List.filter f l.
Proof.
  intros Hk Ho. revert k Hk. induction l as [|y l IH]; intros [|k] Hk; try done; cbn in *.
  - injection Hk as ->. by rewrite Ho.
  - rewrite <- (IH k Hk). done.
Qed.

(** A write touches what it changes. *)
Lemma write_row_outside w d : same_outside (list_to_set (touches w d)) d (write_row w d).
Proof.
  intros id_ Hn. rewrite elem_of_list_to_set in Hn.
  destruct w as [i|i|u|il|k il|k|f]; cbn [touches write_row] in *; try (apply not_elem_of_cons in Hn as [Hne Hn]);
    unfold view, get_invoice; cbn -[update_where].
  - f_equal. rewrite find_app_b. destruct (List.find _ _); [done|]. cbn.
    by destruct (N.eqb_spec (inv_id i) id_); [congruence|].
  - f_equal. induction (op_invoices (db_ops d)) as [|x l IH]; [done|]. cbn.
    destruct (N.eqb_spec (inv_id x) (inv_id i)) as [E|E].
    + rewrite <- E in Hne. destruct (N.eqb_spec (inv_id i) id_); [congruence|].
      by destruct (N.eqb_spec (inv_id x) id_); [congruence|].
    + by destruct (N.eqb (inv_id x) id_).
  - f_equal. by apply get_invoice_filter.
  - f_equal. rewrite List.filter_app. cbn. destruct (N.eqb_spec (il_invoice_id il) id_); [congruence|].
    by rewrite app_nil_r.
  - f_equal. destruct (op_invoice_lines (db_ops d) !! k) as [old|] eqn:Ek.
    + apply not_elem_of_cons in Hn as [Hne' _].
      eapply filter_insert_out; [exact Ek| |]; by apply N.eqb_neq.
    + by rewrite list_insert_ge by (by apply lookup_ge_None).
  - f_equal. destruct (op_invoice_lines (db_ops d) !! k) as [old|] eqn:Ek.
    + apply not_elem_of_cons in Hn as [Hne' _]. eapply filter_remove_out; [exact Ek|]. by apply N.eqb_neq.
    + apply lookup_ge_None in Ek. rewrite take_ge, drop_ge by lia. by rewrite app_nil_r.
  - done.
Qed.

Lemma flush_rows_outside ws d d' ids : flush_rows ws d = (d', ids) -> same_outside ids d d'.
Proof.
  revert d d' ids. induction ws as [|w ws IH]; intros d d' ids H; cbn in H.
  { injection H as <- <-. apply same_outside_refl. }
  destruct (flush_rows ws (write_row w d)) as [d1 ids1] eqn:E. injection H as <- <-.
  eapply same_outside_trans; [apply write_row_outside|by apply IH].
Qed.

(** * The records cover every change *)

(** From the committed database outwards in: what differs between one
    savepoint's start and the next is in the record of the level between. *)
Fixpoint covered (d0 : Db) (root : gset uuid) (frames : list frame) (d : Db) : Prop :=
  match frames with
  | [] => same_outside root d0 d
  | fr :: frs => same_outside (fr_record fr) (fr_snapshot fr) d /\ covered d0 root frs (fr_snapshot fr)
  end.

Definition tx_ok (t : tx) : Prop :=
  totals_hold (tx_committed t) /\ covered (tx_committed t) (tx_touched t) (tx_frames t) (tx_db t).

(** Recording more, at the level where a change happened, keeps the cover. *)
Lemma record_covers t r d :
  covered (tx_committed t) (tx_touched t) (tx_frames t) (tx_db t) -> same_outside r (tx_db t) d ->
  let t' := _record_for (fun x => x ∪ r) (set_tx_db d t) in
  tx_committed t' = tx_committed t /\ covered (tx_committed t') (tx_touched t') (tx_frames t') (tx_db t').
Proof.
  intros Hc Hs. unfold _record_for, set_tx_db. cbn. destruct (tx_frames t) as [|fr frs]; cbn in *.
  - split; [done|]. by eapply same_outside_trans.
  - destruct Hc as [H1 H2]. split; [done|]. split; [|done]. by eapply same_outside_trans.
Qed.

Lemma savepoint_end_covers c r fr frs d :
  covered c r frs (fr_snapshot fr) -> (fr_released fr = true -> same_outside (fr_record fr) (fr_snapshot fr) d) ->
  (fr_released fr = false -> d = fr_snapshot fr) ->
  let t' := _after_savepoint_end (mk_tx c d r (fr :: frs)) in
  tx_committed t' = c /\ covered (tx_committed t') (tx_touched t') (tx_frames t') (tx_db t').
Proof.
  intros Hc H1 H2. unfold _after_savepoint_end. cbn. destruct (fr_released fr); cbn.
  - apply (record_covers (mk_tx c (fr_snapshot fr) r frs) (fr_record fr) d Hc (H1 eq_refl)).
  - by rewrite (H2 eq_refl).
Qed.

(** A frame is marked released only on its way out. *)
Definition unreleased (t : tx) : Prop := Forall (fun fr => fr_released fr = false) (tx_frames t).

Lemma record_unreleased f t : unreleased t -> unreleased (_record_for f t).
Proof.
  unfold unreleased, _record_for. destruct (tx_frames t) as [|fr frs]; [done|].
  intros [H1 H2]%Forall_cons. cbn. by constructor.
Qed.

Lemma before_commit_frame strict t t' fr frs :
  tx_frames t = fr :: frs -> _before_commit strict t = Ok t' ->
  t' = mk_tx (tx_committed t) (tx_db t) (tx_touched t) (mk_frame (fr_record fr) true (fr_snapshot fr) :: frs).
Proof.
  unfold _before_commit. intros ->. destruct (_check _ _ _); [|done]. by intros [= <-].
Qed.

(** What [_check] decides. *)
Lemma check_spec strict ids d :
  (_check strict ids d = Ok tt <->
   forall id_ i, id_ ∈ ids -> get_invoice id_ d = Some i -> inv_deleted_at i = None ->
     exists v, check_invoice i d = Ok v /\ (strict = true -> v = false)).
Proof.
  induction ids as [|u ids IH]; cbn [_check].
  { split; [|done]. intros _ id_ i Hi. by apply elem_of_nil in Hi. }
  assert (Hskip : (forall i, get_invoice u d = Some i -> inv_deleted_at i = None ->
      exists v, check_invoice i d = Ok v /\ (strict = true -> v = false)) ->
    (_check strict ids d = Ok tt <->
     forall id_ i, id_ ∈ u :: ids -> get_invoice id_ d = Some i -> inv_deleted_at i = None ->
       exists v, check_invoice i d = Ok v /\ (strict = true -> v = false))).
  { intros Hu. rewrite IH. split; intros H id_ i Hin; [|apply H; by apply list_elem_of_further].
    apply elem_of_cons in Hin as [->|Hin]; [apply Hu|by apply H]. }
  destruct (get_invoice u d) as [i|] eqn:Ei; [|apply Hskip; by intros].
  destruct (inv_deleted_at i) eqn:Ed; [apply Hskip; intros j [= <-]; by rewrite Ed|].
  destruct (check_invoice i d) as [v|e] eqn:Ec; cbn [rbind].
  - destruct (v && strict) eqn:Ev.
    + apply andb_true_iff in Ev as [-> ->]. split; [done|]. intros H.
      destruct (H u i) as (v & Hv & Hf); [by left|done|done|]. rewrite Ec in Hv. injection Hv as <-.
      by specialize (Hf eq_refl).
    + apply Hskip. intros j [= <-] _. exists v. split; [done|]. intros ->. by rewrite andb_true_r in Ev.
  - split; [done|]. intros H. destruct (H u i) as (v & Hv & _); [by left|done|done|]. by rewrite Ec in Hv.
Qed.

Lemma session_step_ok t t' : tx_ok t /\ unreleased t -> session_step true t t' -> tx_ok t' /\ unreleased t'.
Proof.
  intros [[Hh Hc] Hu] Hs. destruct Hs as [ws t|t|t t1 fr frs Ef Eb|t t1 fr frs Ef Eb|t fr frs Ef|t t1 Ef Eb|t].
  - unfold flush. destruct (flush_rows ws (tx_db t)) as [d ids] eqn:E.
    destruct (record_covers t ids d Hc (flush_rows_outside _ _ _ _ E)) as [H1 H2].
    split; [split; [by rewrite H1|done]|]. by apply record_unreleased.
  - split; [split; [done|]|by constructor]. cbn. split; [apply same_outside_refl|done].
  - rewrite (before_commit_frame _ _ _ _ _ Ef Eb). rewrite Ef in Hc. destruct Hc as [Hc1 Hc2].
    destruct (savepoint_end_covers (tx_committed t) (tx_touched t)
      (mk_frame (fr_record fr) true (fr_snapshot fr)) frs (tx_db t)) as [H1 H2]; [done..|].
    split; [split; [by rewrite H1|done]|]. unfold unreleased in Hu. rewrite Ef in Hu. apply Forall_cons in Hu as [_ Hu].
    by apply record_unreleased.
  - rewrite (before_commit_frame _ _ _ _ _ Ef Eb). rewrite Ef in Hc. destruct Hc as [Hc1 Hc2].
    destruct (savepoint_end_covers (tx_committed t) (tx_touched t)
      (mk_frame (fr_record fr) true (fr_snapshot fr)) frs (fr_snapshot fr)) as [H1 H2]; [done..|].
    unfold set_tx_db. cbn [tx_committed tx_touched tx_frames].
    split; [split; [by rewrite H1|done]|]. unfold unreleased in Hu. rewrite Ef in Hu. apply Forall_cons in Hu as [_ Hu].
    by apply record_unreleased.
  - unfold set_tx_db, _after_savepoint_end, unreleased in *. cbn. rewrite Ef in *. destruct Hc as [Hc1 Hc2].
    apply Forall_cons in Hu as [Hr Hu]. rewrite Hr. done.
  - unfold _before_commit in Eb. rewrite Ef in Eb.
    destruct (_check true _ _) as [[]|] eqn:Ec; [|done]. injection Eb as <-. rewrite Ef in Hc.
    split; [|by constructor]. unfold _after_root_end. split; cbn; [|apply same_outside_refl].
    rewrite check_spec in Ec. intros id_ i Hi Hd. destruct (decide (id_ ∈ tx_touched t)) as [Hin|Hout].
    + destruct (Ec id_ i) as (v & Hv & Hf); [by apply elem_of_elements|done|done|]. by rewrite Hv, (Hf eq_refl).
    + cbn in Hc. pose proof (Hc id_ Hout) as Hv. pose proof (get_invoice_id _ _ _ Hi) as Hid.
      rewrite <- Hid in Hv. rewrite (check_view i _ _ Hv). apply (Hh id_); [|done].
      rewrite Hid in Hv. unfold view in Hv. injection Hv as Hv _. by rewrite <- Hv.
  - split; [|by constructor]. split; [done|]. apply same_outside_refl.
Qed.

Definition session_steps (strict : bool) : tx -> tx -> Prop := rtc (session_step strict).

(** C8: The totals invariant is enforced.  Start from a database in which
    every live invoice shows its lines plus tax (or is exempt).  Whatever a
    session then does in strict mode, in any order and any nesting (flush any
    rows, open, release, fail to release and roll back savepoints, commit,
    roll back), the committed database satisfies it again after every step;
    and the outermost commit is refused exactly when a live invoice touched in
    the transaction violates it or cannot be checked. *)
Theorem guard_enforces_totals d t :
  totals_hold d -> session_steps true (open_session d) t ->
  totals_hold (tx_committed t) /\
  (tx_frames t = [] ->
   ((exists t', _before_commit true t = Ok t') <->
    forall id_ i, id_ ∈ tx_touched t -> get_invoice id_ (tx_db t) = Some i -> inv_deleted_at i = None ->
      check_invoice i (tx_db t) = Ok false)).
Proof.
  intros Hd Hs. assert (Hinv : tx_ok t /\ unreleased t).
  { revert t Hs. apply (rtc_ind_r (fun t => tx_ok t /\ unreleased t)); [split; [by split|by constructor]|].
    intros y z _ Hyz Hy. by eapply session_step_ok. }
  split; [apply Hinv|]. intros Hf. unfold _before_commit. rewrite Hf.
  destruct (_check true (elements (tx_touched t)) (tx_db t)) as [[]|e] eqn:Ec; cbn.
  - split; [|eauto]. intros _ id_ i Hin Hi Hdel. rewrite check_spec in Ec.
    destruct (Ec id_ i) as (v & -> & Hv); [by apply elem_of_elements|done|done|]. by rewrite Hv.
  - split; [by intros [t' Ht']|]. intros H. exfalso.
    assert (_check true (elements (tx_touched t)) (tx_db t) = Ok tt) as Hok; [|congruence].
    apply check_spec. intros id_ i Hin%elem_of_elements Hi Hdel. exists false. split; [by eapply H|done].
Qed.

(** * Witness *)

Definition sound_row : Invoice := recalculated 21999 687 22686 0 taxed_invoice.
Definition sound_db : Db := set_ops (set_invoices (fun _ => [sound_row])) (se_db taxed_session).

Lemma sound_db_holds : totals_hold sound_db.
Proof.
  intros id_ i Hi _. pose proof (List.find_some _ _ Hi) as [[<-|[]] _]. vm_compute. reflexivity.
Qed.

(** A header restated without its lines is refused at commit. *)
Lemma guard_enforces_totals_witness :
  let t := flush [SetInvoice (recalculated 21999 687 30000 0 taxed_invoice)] (open_session sound_db) in
  totals_hold (tx_committed t) /\ (forall t', _before_commit true t <> Ok t').
Proof.
  cbn zeta. set (t := flush _ _).
  destruct (guard_enforces_totals sound_db t sound_db_holds) as [H1 H2]; [apply rtc_once, SFlush|].
  split; [exact H1|]. intros t' Ht'. destruct (H2 eq_refl) as [H3 _].
  specialize (H3 (ex_intro _ t' Ht') 7%N (recalculated 21999 687 30000 0 taxed_invoice)).
  assert (check_invoice (recalculated 21999 687 30000 0 taxed_invoice) (tx_db t) = Ok true) as E
    by (vm_compute; reflexivity).
  rewrite E in H3. assert (Ok true = Ok false) as Hf; [|discriminate Hf].
  apply H3; [|reflexivity|reflexivity].
  change (7%N ∈ (∅ ∪ (list_to_set [7%N] ∪ ∅) : gset uuid)). set_solver.
Defined.
