(* ===== verification/MoneyRoutes.v ===== *)
(** The routes that move money on an invoice: [record_payment],
    [void_payment], [issue_credit_memo], [apply_customer_credit] and
    [process_refund] of [routers/invoices.py], and the reversal of a payment by
    a Stripe event in [core/payments.py].

    A handler is modelled up to its commit: an exception rolls the session
    back, a commit runs the totals guard over the invoice the handler wrote.
    What follows the commit (the audit row, queueing the sweep of stale Stripe
    intents), the audit rows and office alerts of the Stripe handlers, and the
    refresh of the customer's cached volume, which has its own savepoint and
    whose failure is swallowed, touch other tables and are left out.  Rows committed by concurrent requests between the duplicate check and
    the insert are an argument. *)

From S2P Require Import Prelude PyStr Dates Money PyNum Models PayPeriods Keys Coa Engine EngineInv EngineSpec Service RulesBase Opening Issuance Payments Adjustments RulesSafe RulesSpec Chokepoint InvoiceTotals InvoiceGuard.

Local Open Scope Z_scope.

(** * Requests *)

(** The end of a request that raised: the session is closed. *)
Definition request {A} (m : M Session A) : M Session A := fun s =>
  match m s with
  | (Ok a, s') => (Ok a, s')
  | (Err e, s') => (Err e, rollback s s')
  end.

Definition http {A} (status : Z) : M Session A := mraise (HTTPException status).

(** [db.commit()] of a transaction that wrote one invoice. *)
Definition commit_invoice (id_ : uuid) : M Session unit := fun s => (_check true [id_] (se_db s), s).

Definition _get_invoice_or_404 (id_ : uuid) : M Session Invoice :=
  found <- on_db (mreads (get_invoice id_)) ;;
  match found with
  | Some invoice => match inv_deleted_at invoice with None => mreturn invoice | Some _ => http 404 end
  | None => http 404
  end.

(** The row as it is now: what the handler's [invoice] reads. *)
Definition reread (id_ : uuid) (invoice : Invoice) : M Session Invoice :=
  on_db (mreads (fun d => default invoice (get_invoice id_ d))).

Definition set_payments (f : list Payment -> list Payment) (o : Ops) : Ops :=
  mk_ops (op_invoices o) (op_invoice_lines o) (f (op_payments o)) (op_adjustments o)
    (op_expenses o) (op_app_timezone o) (op_now o) (op_txid o) (op_postgres o).
Definition set_adjustments (f : list InvoiceAdjustment -> list InvoiceAdjustment) (o : Ops) : Ops :=
  mk_ops (op_invoices o) (op_invoice_lines o) (op_payments o) (f (op_adjustments o))
    (op_expenses o) (op_app_timezone o) (op_now o) (op_txid o) (op_postgres o).

Definition half_cent : float64 := float_of_decimal (DFinite 5 (-3)).

(** * [record_payment] *)

Record PaymentCreateIn : Type := {
  pi_amount : option float64;
  pi_pay_remaining : bool;
  pi_method : string;
  pi_date : option date;
  pi_allow_overpayment : bool;
  pi_reference : option string
}.

(** The field bound and [_amount_xor_pay_remaining]. *)
Definition valid_payment (p : PaymentCreateIn) : bool :=
  match pi_amount p with
  | Some a => float_pos a && negb (pi_pay_remaining p)
  | None => pi_pay_remaining p
  end.

Definition _CASHLIKE_DEDUPE_SECONDS : Z := 120.

Definition blank_to_none (s : option string) : option string :=
  let t := str_strip (default "" s) in if String.eqb t "" then None else Some t.

(** A deposit closed out by a credit memo that says it was superseded. *)
Definition superseded_deposit (invoice : Invoice) (d : Db) : bool :=
  String.eqb (inv_billing_type invoice) "deposit" &&
  float_nonpos (_to_float (inv_balance_due invoice)) &&
  match List.find (fun a => N.eqb (adj_invoice_id a) (inv_id invoice) && bool_decide (adj_kind a = credit_memo))
          (op_adjustments (db_ops d)) with
  | Some a => match adj_reason a with
              | Some r => negb (String.eqb r "") && str_in "superseded" (str_lower r)
              | None => false
              end
  | None => false
  end.

(** A live payment of the invoice under the same reference. *)
Definition same_reference (id_ : uuid) (reference : string) (p : Payment) : bool :=
  N.eqb (pay_invoice_id p) id_ && opt_eqb (pay_reference p) (Some reference) && negb (is_voided p).

Definition same_amount (x : option decimal) (y : decimal) : bool :=
  match x with
  | Some v => match dec_compare v y with Ok Eq => true | _ => false end
  | None => false
  end.

(** An identical payment without a reference, within the window. *)
Definition recent_twin (id_ : uuid) (amount : decimal) (method : string) (now : Z) (p : Payment) : bool :=
  N.eqb (pay_invoice_id p) id_ && opt_eqb (pay_reference p) None && negb (is_voided p) &&
  same_amount (pay_amount p) amount &&
  match pay_method p with Some m => String.eqb (str_lower m) method | None => false end &&
  match pay_created_at p with
  | Some t => now - _CASHLIKE_DEDUPE_SECONDS * 1000000 <=? dt_utc_wall t
  | None => false
  end.

(** [pay_remaining]: what is still owed, or nothing is. *)
Definition remaining_to_pay (invoice : Invoice) : M Session float64 :=
  if float_nonpos (_to_float (inv_balance_due invoice)) then http 409
  else
    remaining <- on_db (mreads (_remaining_receivable invoice)) ;;
    if float_leb remaining half_cent then http 409 else mreturn remaining.

Section Routes.
Context `{W : World}.

(** [db.flush()] of a new payment: the partial unique index decides. *)
Definition insert_payment (p : Payment) : M Session unit := fun s =>
  match pay_reference p with
  | Some r =>
      if existsb (same_reference (pay_invoice_id p) r) (op_payments (db_ops (se_db s)))
      then (Err (HTTPException 409), s)
      else (Ok tt, set_db (set_ops (set_payments (fun l => l ++ [p]))) s)
  | None => (Ok tt, set_db (set_ops (set_payments (fun l => l ++ [p]))) s)
  end.

(** The handler's checks; nothing is written. *)
Record accepted : Type := {
  ac_invoice : Invoice;
  ac_today : date;
  ac_date : date;
  ac_money : decimal;
  ac_method : string;
  ac_reference : option string
}.

Definition accept_payment (id_ : uuid) (payload : PaymentCreateIn) : M Session accepted :=
  invoice <- _get_invoice_or_404 id_ ;;
  if decide (inv_status invoice = void) then http 409
  else
    shop_today <- on_db (mreads shop_today_from_settings) ;;
    let date_ := default shop_today (pi_date payload) in
    if shop_today <? date_ then http 422
    else
      superseded <- on_db (mreads (superseded_deposit invoice)) ;;
      if superseded : bool then http 409
      else
        amount <- (match pi_pay_remaining payload, pi_amount payload with
                   | true, _ => remaining_to_pay invoice
                   | false, Some a => mreturn a
                   | false, None => mraise ArithmeticError
                   end) ;;
        enabled <- on_db (mreads (ledger_posting_enabled (inv_company_id invoice))) ;;
        (if enabled && negb (pi_allow_overpayment payload) then
           money <- mlift (_money_float amount) ;;
           remaining <- on_db (mreads (_remaining_receivable invoice)) ;;
           if float_gtb (float_of_decimal money) (float_add remaining half_cent) then http 422 else mreturn tt
         else mreturn tt) ;;;
        let reference_value := blank_to_none (pi_reference payload) in
        let method := str_lower (str_strip (pi_method payload)) in
        payments <- on_db (mreads (fun d => op_payments (db_ops d))) ;;
        now <- on_db (mreads (fun d => op_now (db_ops d))) ;;
        (match reference_value with
         | Some r => if existsb (same_reference id_ r) payments then http 409 else mreturn tt
         | None => money <- mlift (_money_float amount) ;;
                   if existsb (recent_twin id_ money method now) payments then http 409 else mreturn tt
         end) ;;;
        money <- mlift (_money_float amount) ;;
        mreturn {| ac_invoice := invoice; ac_today := shop_today; ac_date := date_; ac_money := money;
                   ac_method := method; ac_reference := reference_value |}.

(** The new row. *)
Definition payment_row (pid id_ : uuid) (a : accepted) (now : Z) : Payment :=
  mk_payment pid id_ (Some (ac_money a)) (Some (ac_method a)) None (Some (ac_date a)) None
    (Some (mk_datetime now (Some 0))) (ac_reference a) None.

(** A payment dated before today that settled the invoice dates the settlement. *)
Definition backdate_settlement (id_ : uuid) (a : accepted) : M Session unit :=
  current <- reread id_ (ac_invoice a) ;;
  if bool_decide (inv_paid_at (ac_invoice a) = None) && negb (bool_decide (inv_paid_at current = None)) &&
     (ac_date a <? ac_today a)
  then mwrite (write_invoice id_ (with_paid_at (Some (mk_datetime (ac_date a * usec_per_day) (Some 0)))))
  else mreturn tt.

(** The writes, up to the commit. *)
Definition book_payment (races : list Payment) (id_ : uuid) (a : accepted) (actor : string) : M Session Payment :=
  mwrite (set_db (set_ops (set_payments (fun l => l ++ races)))) ;;;
  pid <- on_db fresh_uuid ;;
  now <- on_db (mreads (fun d => op_now (db_ops d))) ;;
  insert_payment (payment_row pid id_ a now) ;;;
  _recalculate_invoice id_ (Some actor) ;;;
  backdate_settlement id_ a ;;;
  current <- reread id_ (ac_invoice a) ;;
  mcatch (on_db (post_payment_received (payment_row pid id_ a now) current (Some actor)) ;;; mreturn tt)
    PeriodLockedError (http 409) ;;;
  commit_invoice id_ ;;;
  mreturn (payment_row pid id_ a now).

Definition record_payment (races : list Payment) (id_ : uuid) (payload : PaymentCreateIn) (actor : string)
  : M Session Payment :=
  if valid_payment payload then request (a <- accept_payment id_ payload ;; book_payment races id_ a actor)
  else http 422.

(** * Voiding and un-voiding a payment *)

Inductive on_period_lock : Type := Raise | RetryThenDefer.

Definition get_payment (pid : uuid) (d : Db) : option Payment :=
  List.find (fun p => N.eqb (pay_id p) pid) (op_payments (db_ops d)).

Definition with_void (at_ : option datetime) (reason : option string) (p : Payment) : Payment :=
  mk_payment (pay_id p) (pay_invoice_id p) (pay_amount p) (pay_method p) (pay_surcharge_amount p)
    (pay_payment_date p) at_ (pay_created_at p) (pay_reference p) reason.

(** [(reason or "")[:64] or None] *)
Definition void_reason (reason : option string) : option string :=
  let r := String.substring 0 64 (default "" reason) in if String.eqb r "" then None else Some r.

(** [attempt]: the flag, the flush, the resettlement.  Un-voiding a payment
    whose reference a live payment of the invoice carries violates the unique
    index at the flush. *)
Definition void_attempt (void_ : bool) (reason : option string) (actor : string) (p : Payment)
    (locked_period_fallback_at : option date) (post_to_ledger : bool) : M Session (option Invoice) := fun s =>
  let now := mk_datetime (op_now (db_ops (se_db s))) (Some 0) in
  let p' := if void_ then with_void (Some now) (void_reason reason) p else with_void None None p in
  if negb void_ && match pay_reference p with
                   | Some r => existsb (fun q => same_reference (pay_invoice_id p) r q && negb (N.eqb (pay_id q) (pay_id p)))
                                 (op_payments (db_ops (se_db s)))
                   | None => false
                   end
  then (Err IntegrityError, s)
  else
    (mwrite (set_db (set_ops (set_payments (update_where (fun q => N.eqb (pay_id q) (pay_id p)) (fun _ => p'))))) ;;;
     invoice <- on_db (mreads (get_invoice (pay_invoice_id p))) ;;
     match invoice with
     | Some i => if post_to_ledger
                 then on_db (resettle_invoice_payments i (Some actor) locked_period_fallback_at) ;;; mreturn invoice
                 else mreturn invoice
     | None => mreturn None
     end) s.

(** The three rungs: natural dates, the open day, no ledger effect. *)
Definition _apply_payment_void_state (void_ : bool) (reason : option string) (actor : string)
    (policy : on_period_lock) (p : Payment) : M Session (option Invoice) := fun s0 =>
  mcatch (void_attempt void_ reason actor p None true) PeriodLockedError
    (match policy with
     | Raise => mraise PeriodLockedError
     | RetryThenDefer =>
         mwrite (rollback s0) ;;;
         today <- on_db (mreads shop_today_from_settings) ;;
         mcatch (void_attempt void_ reason actor p (Some today) true) PeriodLockedError
           (mwrite (rollback s0) ;;; void_attempt void_ reason actor p None false)
     end) s0.

Definition apply_payment_void (reason actor : string) (policy : on_period_lock) (p : Payment)
  : M Session (option Invoice) := _apply_payment_void_state true (Some reason) actor policy p.
Definition apply_payment_unvoid (actor : string) (policy : on_period_lock) (p : Payment)
  : M Session (option Invoice) := _apply_payment_void_state false None actor policy p.

(** A paid invoice that owes again goes back to sent. *)
Definition reopen_if_owing (id_ : uuid) (invoice : Invoice) (actor : string) : M Session bool :=
  current <- reread id_ invoice ;;
  if bool_decide (inv_status current = paid) && float_pos (_to_float (inv_balance_due current)) then
    transition_invoice_status id_ sent (Some actor) ;;;
    mwrite (write_invoice id_ (with_paid_at None)) ;;; mreturn true
  else mreturn false.

Definition void_payment (id_ pid : uuid) (actor : string) : M Session Payment :=
  request (
    invoice <- _get_invoice_or_404 id_ ;;
    found <- on_db (mreads (get_payment pid)) ;;
    match found with
    | None => http 404
    | Some payment =>
        if negb (N.eqb (pay_invoice_id payment) (inv_id invoice)) then http 404
        else if is_voided payment then mreturn payment
        else
          mcatch (apply_payment_void "office_void" actor Raise payment ;;; mreturn tt) PeriodLockedError (http 409) ;;;
          _recalculate_invoice id_ (Some actor) ;;;
          reopen_if_owing id_ invoice actor ;;;
          commit_invoice id_ ;;;
          voided <- on_db (mreads (get_payment pid)) ;;
          mreturn (default payment voided)
    end).

(** * Stripe reversals *)

Definition _WEBHOOK_ACTOR : string := "stripe-webhook".
Definition _DISPUTE_VOID_REASONS : list string := ["charge.dispute.created"; "charge.dispute.funds_withdrawn"].

Inductive webhook_status : Type :=
  | NoReference | NoPaymentToReverse | Reversed (invoice : uuid) (reopened : bool)
  | NoPaymentToReinstate | ReinstateNeedsReview | Reinstated (invoice : uuid)
  | PartialRefundNotRecorded.

Definition live_by_reference (reference : string) (d : Db) : option Payment :=
  List.find (fun p => opt_eqb (pay_reference p) (Some reference) && negb (is_voided p)) (op_payments (db_ops d)).

Definition _reverse_recorded_payment (reference reason : string) : M Session webhook_status :=
  if String.eqb reference "" then mreturn NoReference
  else
    request (
      found <- on_db (mreads (live_by_reference reference)) ;;
      match found with
      | None => mreturn NoPaymentToReverse
      | Some payment =>
          invoice <- apply_payment_void reason _WEBHOOK_ACTOR RetryThenDefer payment ;;
          reopened <- (match invoice with
                       | Some i => _recalculate_invoice (inv_id i) (Some _WEBHOOK_ACTOR) ;;;
                                   reopen_if_owing (inv_id i) i _WEBHOOK_ACTOR
                       | None => mreturn false
                       end) ;;
          commit_invoice (pay_invoice_id payment) ;;;
          mreturn (Reversed (pay_invoice_id payment) reopened)
      end).

Definition voided_by_reference (reference : string) (d : Db) : list Payment :=
  List.filter (fun p => opt_eqb (pay_reference p) (Some reference) && is_voided p) (op_payments (db_ops d)).

Definition _reinstate_reversed_payment (reference : string) : M Session webhook_status :=
  if String.eqb reference "" then mreturn NoReference
  else
    request (
      voided <- on_db (mreads (voided_by_reference reference)) ;;
      match voided with
      | [] => mreturn NoPaymentToReinstate
      | _ :: _ :: _ => mreturn ReinstateNeedsReview
      | [payment] =>
          if negb (existsb (String.eqb (default "" (pay_voided_reason payment))) _DISPUTE_VOID_REASONS)
          then mreturn ReinstateNeedsReview
          else
            invoice <- apply_payment_unvoid _WEBHOOK_ACTOR RetryThenDefer payment ;;
            (match invoice with
             | Some i =>
                 _recalculate_invoice (inv_id i) (Some _WEBHOOK_ACTOR) ;;;
                 current <- reread (inv_id i) i ;;
                 let when_paid := match pay_created_at payment, pay_payment_date payment with
                                  | Some t, _ => Some t
                                  | None, Some day => Some (mk_datetime (day * usec_per_day) (Some 0))
                                  | None, None => None
                                  end in
                 (match when_paid, inv_paid_at current with
                  | Some t, Some _ => mwrite (write_invoice (inv_id i) (with_paid_at (Some t)))
                  | _, _ => mreturn tt
                  end)
             | None => mreturn tt
             end) ;;;
            commit_invoice (pay_invoice_id payment) ;;;
            mreturn (Reinstated (pay_invoice_id payment))
      end).

(** [round(int(value) / 100.0, 2)] *)
Definition _cents_to_dollars (value : option Z) : option float64 :=
  option_map (fun v => float_round2 match float_of_int v with
                                    | FNum u => float_of_ratio u (100 * least)
                                    | x => x
                                    end) value.

(** A full refund voids the payment; a partial one only says so. *)
Definition _apply_charge_refund (payment_intent : option string) (amount amount_refunded : option Z)
  : M Session webhook_status :=
  let reference := default "" payment_intent in
  if String.eqb reference "" then mreturn NoReference
  else
    match _cents_to_dollars amount_refunded, _cents_to_dollars amount with
    | Some refunded_total, Some charge_total =>
        if float_leb charge_total refunded_total
        then _reverse_recorded_payment reference "charge.refunded"
        else
          found <- on_db (mreads (live_by_reference reference)) ;;
          mreturn (match found with Some _ => PartialRefundNotRecorded | None => NoPaymentToReverse end)
    | _, _ => _reverse_recorded_payment reference "charge.refunded"
    end.

(** * Credits and refunds *)

Definition creditable (st : invoice_status) : bool := bool_decide (st ∈ [sent; paid; overdue]).

Definition new_adjustment (kind : adjustment_kind) (invoice : Invoice) (amount : decimal)
    (reason refund_method : option string) : M Session InvoiceAdjustment :=
  tax <- mlift (credit_tax_component invoice (Some amount)) ;;
  aid <- on_db fresh_uuid ;;
  now <- on_db (mreads (fun d => op_now (db_ops d))) ;;
  let adjustment := mk_adjustment aid (inv_id invoice) kind (Some amount) reason refund_method
                      (Some (mk_datetime now (Some 0))) (Some tax) in
  mwrite (set_db (set_ops (set_adjustments (fun l => l ++ [adjustment])))) ;;;
  mreturn adjustment.

Definition exceeds_balance (amount : decimal) (invoice : Invoice) : bool :=
  float_gtb (float_of_decimal amount) (float_add (_to_float (inv_balance_due invoice)) half_cent).

(** The credit posted, the payments resettled, the balance recomputed. *)
Definition settle_credit (post : InvoiceAdjustment -> Invoice -> option string -> M Db (option GlJournalEntry))
    (id_ : uuid) (invoice : Invoice) (adjustment : InvoiceAdjustment) (actor : string) : M Session unit :=
  on_db (post adjustment invoice (Some actor)) ;;;
  on_db (resettle_invoice_payments invoice (Some actor) None) ;;;
  _recalculate_invoice id_ (Some actor) ;;;
  commit_invoice id_.

(** [closeout]: absent, or the job of the closeout row found under the given
    identifier. *)
Definition issue_credit_memo (id_ : uuid) (amount : float64) (reason : string) (closeout : option (option uuid))
    (actor : string) : M Session InvoiceAdjustment :=
  if negb (float_pos amount) || String.eqb reason "" then http 422
  else request (
    invoice <- _get_invoice_or_404 id_ ;;
    if negb (creditable (inv_status invoice)) then http 409
    else if match closeout with
            | Some job => bool_decide (job = None) || negb (opt_eqb job (inv_job_id invoice))
            | None => false
            end then http 422
    else
      credit_amount <- mlift (_money_float amount) ;;
      _recalculate_invoice id_ (Some actor) ;;;
      invoice <- reread id_ invoice ;;
      if exceeds_balance credit_amount invoice then http 422
      else
        adjustment <- new_adjustment credit_memo invoice credit_amount (Some (str_strip reason)) None ;;
        settle_credit post_credit_memo id_ invoice adjustment actor ;;;
        mreturn adjustment).

Definition apply_customer_credit (id_ : uuid) (amount : float64) (actor : string)
  : M Session InvoiceAdjustment :=
  if negb (float_pos amount) then http 422
  else request (
    invoice <- _get_invoice_or_404 id_ ;;
    if negb (creditable (inv_status invoice)) then http 409
    else
      enabled <- on_db (mreads (ledger_posting_enabled (inv_company_id invoice))) ;;
      if negb (enabled : bool) then http 409
      else if bool_decide (inv_customer_id invoice = None) then http 422
      else
        amount <- mlift (_money_float amount) ;;
        _recalculate_invoice id_ (Some actor) ;;;
        invoice <- reread id_ invoice ;;
        available <- on_db (customer_credit_balance_cents (inv_company_id invoice) (inv_customer_id invoice)) ;;
        if float_gtb (float_scale 100 (float_of_decimal amount))
             (float_add (float_of_int available) (float_of_decimal (DFinite 5 (-1)))) then http 422
        else if exceeds_balance amount invoice then http 422
        else
          adjustment <- new_adjustment credit_applied invoice amount (Some "customer credit applied") None ;;
          settle_credit post_credit_application id_ invoice adjustment actor ;;;
          mreturn adjustment).

(** Live payments less refunds. *)
Definition _net_paid (invoice : Invoice) (d : Db) : float64 :=
  float_sub (_to_float (paid_sum (inv_id invoice) d))
    (_to_float (sql_sum (map adj_amount
       (List.filter (fun a => N.eqb (adj_invoice_id a) (inv_id invoice) && bool_decide (adj_kind a = refund))
          (op_adjustments (db_ops d)))))).

Definition process_refund (id_ : uuid) (amount : float64) (reason : string) (refund_method : option string)
    (actor : string) : M Session InvoiceAdjustment :=
  if negb (float_pos amount) || float_gtb amount (float_of_int 1000000) || (500 <? Z.of_nat (String.length reason)) ||
     (50 <? Z.of_nat (String.length (default "" refund_method))) then http 422
  else request (
    invoice <- _get_invoice_or_404 id_ ;;
    if negb (creditable (inv_status invoice)) then http 409
    else
      refund_amount <- mlift (_money_float amount) ;;
      net_paid <- on_db (mreads (_net_paid invoice)) ;;
      if float_gtb (float_of_decimal refund_amount) (float_add net_paid half_cent) then http 422
      else
        enabled <- on_db (mreads (ledger_posting_enabled (inv_company_id invoice))) ;;
        let method := blank_to_none refund_method in
        if enabled && bool_decide (method = None) then http 422
        else
          adjustment <- new_adjustment refund invoice refund_amount (blank_to_none (Some reason))
                          (option_map str_lower method) ;;
          on_db (post_refund adjustment invoice (Some actor)) ;;;
          mreturn adjustment).
End Routes.

(** * Lemmas: reading steps *)

Lemma bind_reads {A B} (f : Db -> A) (k : A -> M Session B) s :
  mseq (on_db (mreads f)) k s = k (f (se_db s)) s.
Proof. unfold mseq, on_db, mreads. by rewrite set_db_same. Qed.

Lemma get_or_404_Ok id_ s i s' : _get_invoice_or_404 id_ s = (Ok i, s') ->
  s' = s /\ get_invoice id_ (se_db s) = Some i /\ inv_deleted_at i = None.
Proof.
  unfold _get_invoice_or_404. rewrite bind_reads. destruct (get_invoice id_ (se_db s)) as [j|]; [|done].
  destruct (inv_deleted_at j) eqn:E; [done|]. by intros [= -> ->].
Qed.

Lemma remaining_to_pay_Ok i s x s' : remaining_to_pay i s = (Ok x, s') ->
  s' = s /\ x = _remaining_receivable i (se_db s) /\ float_nonpos (_to_float (inv_balance_due i)) = false /\
  float_leb x half_cent = false.
Proof.
  unfold remaining_to_pay. destruct (float_nonpos _); [done|]. rewrite bind_reads.
  destruct (float_leb _ _) eqn:E; [done|]. intros [= <- <-]. by rewrite E.
Qed.

Section RouteLemmas.
Context `{W : World}.

(** What an accepted payment has passed. *)
Record acceptable (id_ : uuid) (payload : PaymentCreateIn) (s : Session) (a : accepted) : Prop := {
  ok_invoice : get_invoice id_ (se_db s) = Some (ac_invoice a);
  ok_live : inv_deleted_at (ac_invoice a) = None;
  ok_not_void : inv_status (ac_invoice a) <> void;
  ok_date : ac_date a <= ac_today a;
  ok_amount : exists f, _money_float f = Ok (ac_money a) /\
    if pi_pay_remaining payload
    then f = _remaining_receivable (ac_invoice a) (se_db s) /\ float_leb f half_cent = false
    else pi_amount payload = Some f;
  ok_reference : ac_reference a = blank_to_none (pi_reference payload);
  ok_method : ac_method a = str_lower (str_strip (pi_method payload));
  ok_new : match ac_reference a with
           | Some r => existsb (same_reference id_ r) (op_payments (db_ops (se_db s))) = false
           | None => existsb (recent_twin id_ (ac_money a) (ac_method a) (op_now (db_ops (se_db s))))
                       (op_payments (db_ops (se_db s))) = false
           end
}.

Lemma accept_payment_Ok id_ payload s a s' : accept_payment id_ payload s = (Ok a, s') ->
  s' = s /\ acceptable id_ payload s a.
Proof.
  unfold accept_payment. intros H. minv_step H. apply get_or_404_Ok in H0 as (-> & Hi & Hdel).
  case_decide as Hv; [done|]. rewrite bind_reads in H. case_match eqn:Hdate; [done|]. rewrite bind_reads in H.
  case_match; [done|]. apply mseq_Ok in H as (f & s1 & Hf & H).
  assert (s1 = s /\ if pi_pay_remaining payload
                    then f = _remaining_receivable a0 (se_db s) /\ float_leb f half_cent = false
                    else pi_amount payload = Some f) as [-> Hamt].
  { destruct (pi_pay_remaining payload); [by apply remaining_to_pay_Ok in Hf as (-> & -> & _ & E)|].
    destruct (pi_amount payload); [|done]. by injection Hf as -> ->. }
  rewrite bind_reads in H. apply mseq_Ok in H as ([] & s2 & Hgate & H).
  assert (s2 = s) as ->.
  { destruct (_ && _); [|by injection Hgate]. apply mseq_Ok in Hgate as (m0 & s2b & Hm0 & Hgate).
    unfold mlift in Hm0. injection Hm0 as _ <-.
    rewrite bind_reads in Hgate. destruct (float_gtb _ _); [done|]. by injection Hgate. }
  rewrite !bind_reads in H. apply mseq_Ok in H as ([] & s3 & Hdup & H).
  apply mseq_Ok in H as (m & s4 & Hm & H). unfold mlift in Hm. injection Hm as Hm <-.
  injection H as <- <-.
  assert (s3 = s /\ match blank_to_none (pi_reference payload) with
           | Some r => existsb (same_reference id_ r) (op_payments (db_ops (se_db s))) = false
           | None => existsb (recent_twin id_ m (str_lower (str_strip (pi_method payload))) (op_now (db_ops (se_db s))))
                       (op_payments (db_ops (se_db s))) = false
           end) as [-> Hnew].
  { destruct (blank_to_none (pi_reference payload)) as [r|].
    - destruct (existsb _ _); [done|]. by injection Hdup.
    - apply mseq_Ok in Hdup as (m1 & s5 & Hm1 & Hdup). unfold mlift in Hm1. rewrite Hm in Hm1.
      injection Hm1 as <- <-. destruct (existsb _ _); [done|]. by injection Hdup. }
  split; [done|]. constructor; cbn; try done; [lia|]. by exists f.
Qed.
End RouteLemmas.

(** * The ledger under the routes *)

Lemma set_rows_srely f s : (forall o, op_postgres (f o) = op_postgres o) -> srely s (set_db (set_ops f) s).
Proof. intros Hf. apply journal_frame_rely. split; try done; [|by rewrite <- (Hf (db_ops (se_db s)))]. eauto. Qed.

Lemma fresh_uuid_keeps : keeps srely (on_db fresh_uuid).
Proof. apply on_db_keeps. intros d. apply journal_frame_rely. split; try done; [eauto|cbn; lia]. Qed.

Section RouteSafe.
Context `{WO : WorldOk}.

Lemma reads_srely {A} (f : Db -> A) : keeps srely (on_db (mreads f)).
Proof. apply on_db_keeps, keeps_reads, _. Qed.

Lemma insert_payment_keeps p : keeps srely (insert_payment p).
Proof.
  intros s. unfold insert_payment. destruct (pay_reference p); [destruct (existsb _ _); [cbn; reflexivity|]|];
    by apply set_rows_srely.
Qed.

Lemma commit_keeps id_ : keeps srely (commit_invoice id_).
Proof. intros s. cbn. reflexivity. Qed.

Lemma book_payment_keeps races id_ a actor : keeps srely (book_payment races id_ a actor).
Proof using WO.
  unfold book_payment. apply keeps_seq; [exact _|apply keeps_mwrite; intros s; by apply set_rows_srely|intros _].
  apply keeps_seq; [exact _|apply fresh_uuid_keeps|intros pid].
  apply keeps_seq; [exact _|apply reads_srely|intros now].
  apply keeps_seq; [exact _|apply insert_payment_keeps|intros _].
  apply keeps_seq; [exact _|apply recalculate_keeps|intros _].
  apply keeps_seq; [exact _| |intros _].
  { unfold backdate_settlement, reread. apply keeps_seq; [exact _|apply reads_srely|intros cur].
    case_match; [|apply keeps_return, _]. apply keeps_mwrite. intros s. apply write_invoice_srely. }
  apply keeps_seq; [exact _|apply reads_srely|intros cur].
  apply keeps_seq; [exact _| |intros _].
  { apply keeps_catch; [exact _| |apply keeps_raise, _].
    apply keeps_seq; [exact _|apply on_db_keeps, post_payment_received_keeps, _|intros _; apply keeps_return, _]. }
  apply keeps_seq; [exact _|apply commit_keeps|intros _; apply keeps_return, _].
Qed.
End RouteSafe.

(** * Booking *)

Section Booking.
Context `{W : World}.

(** The session with the concurrent rows and the new one in place. *)
Definition with_payment (races : list Payment) (p : Payment) (s : Session) : Session :=
  set_db (fun d => set_ops (set_payments (fun l => (l ++ races) ++ [p])) (set_gl (set_next_uuid N.succ) d)) s.

Lemma insert_payment_Ok p s s' : insert_payment p s = (Ok tt, s') ->
  s' = set_db (set_ops (set_payments (fun l => l ++ [p]))) s /\
  forall r, pay_reference p = Some r ->
    existsb (same_reference (pay_invoice_id p) r) (op_payments (db_ops (se_db s))) = false.
Proof.
  unfold insert_payment. destruct (pay_reference p) as [r|].
  - destruct (existsb _ _) eqn:E; [done|]. intros [= <-]. split; [done|]. by intros r' [= <-].
  - by intros [= <-].
Qed.

(** The rows of the invoice after the payment entry: those of the
    recalculation, but for the date of the settlement. *)
Lemma backdate_row id_ a s s' i : backdate_settlement id_ a s = (Ok tt, s') ->
  get_invoice id_ (se_db s) = Some i ->
  only_invoices s s' /\
  exists t, get_invoice id_ (se_db s') = Some (with_paid_at t i) /\
    (inv_paid_at i = None -> t = None) /\ (inv_paid_at (ac_invoice a) <> None -> t = inv_paid_at i) /\
    (inv_paid_at i <> None -> t <> None).
Proof.
  unfold backdate_settlement, reread. rewrite bind_reads. intros H Hi. rewrite Hi in H. cbn [default] in H. unfold id in H.
  destruct (_ && _ && _) eqn:E.
  - rewrite !andb_true_iff in E. destruct E as [[E1%bool_decide_eq_true E2] _].
    apply negb_true_iff, bool_decide_eq_false in E2. injection H as <-.
    split; [apply write_invoice_only|]. eexists. split; [by apply write_invoice_row|].
    split_and!; [done|done|by intros].
  - injection H as <-. split; [reflexivity|]. exists (inv_paid_at i). split_and!; try done.
    rewrite Hi. by destruct i.
Qed.

Lemma book_payment_Ok races id_ a actor s p s' : book_payment races id_ a actor s = (Ok p, s') ->
  p = payment_row (gl_next_uuid (db_gl (se_db s))) id_ a (op_now (db_ops (se_db s))) /\
  (forall r, ac_reference a = Some r ->
     existsb (same_reference id_ r) (op_payments (db_ops (se_db s)) ++ races) = false) /\
  _check true [id_] (se_db s') = Ok tt /\
  exists s2, _recalculate_invoice id_ (Some actor) (with_payment races p s) = (Ok tt, s2) /\
    only_invoices (with_payment races p s) s2 /\ only_invoices s2 s' /\
    forall i, get_invoice id_ (se_db s2) = Some i ->
      exists t, get_invoice id_ (se_db s') = Some (with_paid_at t i) /\
        (inv_paid_at i = None -> t = None) /\ (inv_paid_at (ac_invoice a) <> None -> t = inv_paid_at i) /\
        (inv_paid_at i <> None -> t <> None).
Proof.
  unfold book_payment. intros H. apply mseq_Ok in H as (x & s1 & H1 & H).
  unfold mwrite in H1. injection H1 as _ <-. apply mseq_Ok in H as (pid & s2 & H1 & H).
  unfold on_db, fresh_uuid in H1. injection H1 as <- <-. rewrite bind_reads in H.
  apply mseq_Ok in H as ([] & s3 & H1 & H). apply insert_payment_Ok in H1 as [-> Href].
  apply mseq_Ok in H as ([] & s4 & Hrec & H). apply mseq_Ok in H as ([] & s5 & Hback & H).
  unfold reread in H. rewrite bind_reads in H. apply mseq_Ok in H as ([] & s6 & Hpost & H).
  apply mseq_Ok in H as ([] & s7 & Hc & H). unfold commit_invoice in Hc. injection Hc as Hc <-.
  injection H as <- <-. split; [done|]. split; [exact Href|]. split; [exact Hc|].
  exists s4. split; [exact Hrec|].
  assert (Hops : sops s5 s6).
  { match type of Hpost with ?m s5 = _ => assert (keeps sops m) as Hk end.
    { apply keeps_catch; [exact _| |apply keeps_raise, _].
      apply keeps_seq; [exact _|apply on_db_sops, post_payment_received_keeps, _|intros _; apply keeps_return, _]. }
    specialize (Hk s5). by rewrite Hpost in Hk. }
  split; [|split].
  - match type of Hrec with _ ?x = _ => pose proof (recalculate_only id_ (Some actor) x) as Hk end.
    by rewrite Hrec in Hk.
  - etrans; [|by apply sops_only].
    assert (Hb : keeps only_invoices (backdate_settlement id_ a)).
    { unfold backdate_settlement, reread. apply keeps_seq; [exact _|apply keeps_sops_only, on_db_sops, keeps_reads, _|].
      intros cur. destruct (_ && _ && _); [|apply keeps_return, _].
      apply keeps_mwrite. intros y. apply write_invoice_only. }
    specialize (Hb s4). by rewrite Hback in Hb.
  - intros i Hi. destruct (backdate_row id_ a s4 s5 i Hback Hi) as (_ & t & Ht & Ht').
    exists t. split; [|done]. by rewrite (get_invoice_ops _ _ _ Hops).
Qed.
End Booking.

(** The references of live payments, per invoice. *)
Definition live_ref (p : Payment) : option (uuid * string) :=
  if is_voided p then None else option_map (pair (pay_invoice_id p)) (pay_reference p).
Definition live_refs (l : list Payment) : list (uuid * string) := omap live_ref l.

Lemma live_refs_new l p : NoDup (live_refs l) ->
  (forall r, pay_reference p = Some r -> existsb (same_reference (pay_invoice_id p) r) l = false) ->
  NoDup (live_refs (l ++ [p])).
Proof.
  intros Hl Hp. unfold live_refs. rewrite omap_app. apply NoDup_app. split; [done|].
  cbn. destruct (live_ref p) as [x|] eqn:E; [|split; [intros y _ Hy; by apply elem_of_nil in Hy|constructor]].
  split; [|apply NoDup_singleton]. intros y Hy ->%list_elem_of_singleton.
  unfold live_ref in E. destruct (is_voided p); [done|]. destruct (pay_reference p) as [r|] eqn:Er; [|done].
  injection E as <-. specialize (Hp r eq_refl). apply list_elem_of_omap in Hy as (q & Hq & Eq).
  unfold live_ref in Eq. destruct (is_voided q) eqn:Evq; [done|].
  destruct (pay_reference q) as [r'|] eqn:Erq; [|done]. injection Eq as Ei ->.
  assert (existsb (same_reference (pay_invoice_id p) r) l = true) as Hex; [|congruence].
  apply existsb_elem. exists q. split; [done|]. unfold same_reference, opt_eqb. rewrite Erq, Evq, Ei, N.eqb_refl.
  by rewrite bool_decide_eq_true_2.
Qed.

(** C27: Recording a payment is all or nothing.  A refused or failed request
    leaves the database and the staged events as they were.  An accepted one,
    whatever payments other requests committed in the meantime, appends
    exactly one live payment to a live, not void invoice, for the amount
    asked (or the remaining receivable) rounded to cents and not dated in the
    future; no two live payments of an invoice share a reference if none did;
    lines and adjustments are unchanged, the invoice satisfies the totals
    invariant, and a sound journal is sound and only appended to. *)
Theorem record_payment_outcomes `{WO : WorldOk} races id_ payload actor s :
  let run := record_payment races id_ payload actor s in
  let s' := snd run in
  match fst run with
  | Err _ => se_db s' = se_db s /\ se_events s' = se_events s
  | Ok p =>
      (exists i f, get_invoice id_ (se_db s) = Some i /\ inv_deleted_at i = None /\ inv_status i <> void /\
         (exists m, _money_float f = Ok m /\ pay_amount p = Some m) /\
         if pi_pay_remaining payload then f = _remaining_receivable i (se_db s) else pi_amount payload = Some f) /\
      op_payments (db_ops (se_db s')) = (op_payments (db_ops (se_db s)) ++ races) ++ [p] /\
      pay_invoice_id p = id_ /\ is_voided p = false /\
      pay_reference p = blank_to_none (pi_reference payload) /\
      (exists day today, pay_payment_date p = Some day /\ day <= today) /\
      (NoDup (live_refs (op_payments (db_ops (se_db s)) ++ races)) ->
         NoDup (live_refs (op_payments (db_ops (se_db s'))))) /\
      op_invoice_lines (db_ops (se_db s')) = op_invoice_lines (db_ops (se_db s)) /\
      op_adjustments (db_ops (se_db s')) = op_adjustments (db_ops (se_db s)) /\
      (forall i, get_invoice id_ (se_db s') = Some i -> inv_deleted_at i = None ->
         check_invoice i (se_db s') = Ok false) /\
      (ledger_ok (se_db s) -> supply_ok (se_db s') ->
         ledger_ok (se_db s') /\ append_only (se_db s) (se_db s'))
  end.
Proof.
  intros run s'. unfold s', run, record_payment. destruct (valid_payment payload); [|done].
  unfold request. destruct (mseq _ _ s) as [[p|e] s1] eqn:E; cbn [fst snd]; [|done].
  apply mseq_Ok in E as (a & s2 & Ha & Hb). apply accept_payment_Ok in Ha as [-> Hacc].
  pose proof (book_payment_keeps races id_ a actor s) as Hrely. rewrite Hb in Hrely.
  destruct (book_payment_Ok races id_ a actor s p s1 Hb) as (Hp & Href & Hchk & s2 & Hrec & H1 & H2 & _).
  assert (Hrows : other_rows (se_db s1) = other_rows (se_db (with_payment races p s)))
    by (apply only_invoices_rows; by etrans).
  unfold other_rows in Hrows. injection Hrows as Hl Hpay Hadj _. cbn in Hl, Hpay, Hadj.
  destruct Hacc as [Hi Hlive Hv Hdate (f & Hm & Hf) Hr Hmeth Hnew].
  split_and!; try done.
  - exists (ac_invoice a), f. split_and!; try done; [exists (ac_money a); by rewrite Hp|].
    destruct (pi_pay_remaining payload); [by destruct Hf|done].
  - by rewrite Hp.
  - by rewrite Hp.
  - by rewrite Hp.
  - exists (ac_date a), (ac_today a). by rewrite Hp.
  - intros Hnd. rewrite Hpay. apply live_refs_new; [done|]. rewrite Hp. exact Href.
  - intros i Hi' Hd. rewrite check_spec in Hchk. destruct (Hchk id_ i) as (v & -> & Hvf); [by left|done|done|].
    by rewrite Hvf.
  - intros Hok Hs. by apply (rely_journal _ _ Hrely).
Qed.
