(* ===== verification/Deposits.v ===== *)
(** Deposit invoices ([modules/deposits/service.py]) and the invoice number
    they are issued under ([next_invoice_number] and
    [flush_invoice_with_number_retry] of [core/closeout_billing.py]).

    The estimate's side is read from the sales tables of [Estimates]; what
    [get_features] returns for the tenant, the random text of the fallback
    number and the rows other requests commit before the flush are arguments.
    The audit rows of a superseded deposit and of a created one belong to
    [AuditChain]'s table and are left out, as are the due date, the notes and
    the public token of the new row. *)

From S2P Require Import Prelude PyStr Dates Money PyNum Models PayPeriods Keys Coa Engine Service RulesBase Opening Issuance Payments Adjustments Chokepoint InvoiceTotals Estimates InvoiceGuard MoneyRoutes.

Local Open Scope Z_scope.

(** * Invoice numbers *)

(** The digits of [int(s)]: single underscores may separate digits. *)
Fixpoint parse_dec (acc : N) (after_digit : bool) (s : string) : option N :=
  match s with
  | EmptyString => if after_digit then Some acc else None
  | String c s' =>
      if Ascii.eqb c "_" then if after_digit then parse_dec acc false s' else None
      else let n := N_of_ascii c in
           if (48 <=? n)%N && (n <=? 57)%N then parse_dec (10 * acc + (n - 48)) true s' else None
  end.

(** [int(s)]; [None] is the [ValueError]. *)
Definition int_base10 (s : string) : option Z :=
  match str_strip s with
  | String "-" s' => option_map (fun n => - Z.of_N n) (parse_dec 0 false s')
  | String "+" s' => option_map Z.of_N (parse_dec 0 false s')
  | s' => option_map Z.of_N (parse_dec 0 false s')
  end.

(** [f"{n:06d}"] *)
Definition fmt_06d (n : Z) : string := if n <? 0 then "-" +:+ zpad 5 (- n) else zpad 6 n.

(** [s.split("-", 1)[1]] of a text that has a dash. *)
Fixpoint after_dash (s : string) : string :=
  match s with
  | EmptyString => EmptyString
  | String c s' => if Ascii.eqb c "-" then s' else after_dash s'
  end.

Definition str_max (x y : string) : string := if String.ltb x y then y else x.

(** [SELECT MAX(invoice_number) ... LIKE 'INV-______'] *)
Definition max_number (numbers : list string) : option string :=
  match List.filter (like_match None "INV-______") numbers with
  | [] => None
  | x :: l => Some (foldl str_max x l)
  end.

Definition high_water (numbers : list string) : Z :=
  match max_number numbers with
  | Some row => if String.eqb row "" then 0 else default 0 (int_base10 (after_dash row))
  | None => 0
  end.

Definition invoice_candidate (n : Z) : string := "INV-" +:+ fmt_06d n.

(** [for candidate_n in range(n + 1, n + 51)] *)
Fixpoint first_candidate (numbers : list string) (n : Z) (k : nat) : option string :=
  match k with
  | O => None
  | S k' => if existsb (String.eqb (invoice_candidate n)) numbers then first_candidate numbers (n + 1) k'
            else Some (invoice_candidate n)
  end.

Definition invoice_numbers (d : Db) : list string := map inv_number (op_invoices (db_ops d)).

Definition next_invoice_number (fallback : string) (d : Db) : string :=
  let numbers := invoice_numbers d in
  default fallback (first_candidate numbers (high_water numbers + 1) 50).

(** [db.add(invoice); db.flush()]: the unique constraint decides. *)
Definition insert_invoice (i : Invoice) : M Session unit := fun s =>
  if existsb (String.eqb (inv_number i)) (invoice_numbers (se_db s)) then (Err IntegrityError, s)
  else (Ok tt, set_db (set_ops (set_invoices (fun l => l ++ [i]))) s).

Definition with_number (n : string) (i : Invoice) : Invoice :=
  mk_invoice (inv_id i) n (inv_status i) (inv_total i) (inv_tax_amount i) (inv_balance_due i)
    (inv_job_id i) (inv_customer_id i) (inv_company_id i) (inv_invoice_date i) (inv_sent_at i)
    (inv_created_at i) (inv_deleted_at i) (inv_subtotal i) (inv_tax_rate i) (inv_totals_locked i)
    (inv_paid_at i) (inv_billing_type i) (inv_estimate_id i) (inv_origin i) (inv_verified_at i) (inv_locked i).

(** The new invoice is the first thing the transaction writes, so its rollback
    undoes nothing else; [races] are the rows other requests committed since
    the number was drawn.  The winner's row, or our own as flushed. *)
Definition flush_invoice_with_number_retry (races : list Invoice) (fallback : string) (invoice : Invoice)
    (already_won : Db -> option Invoice) : M Session (Invoice + Invoice) := fun s =>
  let s1 := set_db (set_ops (set_invoices (fun l => l ++ races))) s in
  match insert_invoice invoice s1 with
  | (Ok _, s2) => (Ok (inr invoice), s2)
  | (Err IntegrityError, s2) =>
      (mwrite (rollback s1) ;;;
       winner <- on_db (mreads already_won) ;;
       match winner with
       | Some w => mreturn (inl w)
       | None =>
           number <- on_db (mreads (next_invoice_number fallback)) ;;
           insert_invoice (with_number number invoice) ;;;
           mreturn (inr (with_number number invoice))
       end) s2
  | (Err e, s2) => (Err e, s2)
  end.

(** * Asking for a deposit *)

Definition DEPOSIT_CATEGORY : string := "Deposit".

(** The constant reasons of a refusal, by code. *)
Definition DEPOSIT_ERROR_MESSAGES : list (string * string) :=
  [("no_customer", "estimate has no customer — a deposit invoice needs one");
   ("amount_not_positive", "deposit amount must be greater than zero");
   ("exceeds_estimate_total", "deposit exceeds the estimate total")].

Definition deposit_skip_reason (code : string) : string :=
  match List.find (fun m => String.eqb (fst m) code) DEPOSIT_ERROR_MESSAGES with
  | Some m => snd m
  | None => "deposit request rejected"
  end.

(** [x / 100.0] *)
Definition float_percent (x : float64) : float64 :=
  match x with FNum a => float_of_ratio a (100 * least) | _ => x end.

Section Deposits.
Context `{W : World}.

(** [(amount, pct, cap_total)], or no ask. *)
Definition deposit_ask_for (deposit_pct : option Z) (sales : Sales) (d : Db) (estimate : Estimate)
  : result (option (float64 * Z * option float64)) :=
  let pct := Z.max 0 (Z.min 100 (default 0 deposit_pct)) in
  if (pct <=? 0) || bool_decide (est_customer_id estimate = None) then Ok None
  else
    let tier := match est_accepted_tier_id estimate with
                | Some tid => List.find (fun t => N.eqb (pt_id t) tid && N.eqb (pt_estimate_id t) (est_id estimate))
                                (sa_tiers sales)
                | None => None
                end in
    let! base_cap := match tier with
                     | Some t => let! sub := tier_contract_subtotal sales t in
                                 Ok (Some (float_of_decimal sub, Some (float_of_decimal sub)))
                     | None => match compute_estimate_totals sales d estimate with
                               | Ok t => Ok (Some (et_total t, None))
                               | Err _ => Ok None
                               end
                     end in
    match base_cap with
    | None => Ok None
    | Some (base, cap) =>
        let amount := float_round2 (float_percent (float_scale pct base)) in
        if float_nonpos amount then Ok None else Ok (Some (amount, pct, cap))
    end.

(** * The live deposit of an estimate *)

Definition is_deposit (i : Invoice) : bool := String.eqb (inv_billing_type i) "deposit".

Definition is_live (i : Invoice) : bool :=
  bool_decide (inv_deleted_at i = None) && negb (bool_decide (inv_status i = void)).

(** [created_at], never null. *)
Definition created_wall (i : Invoice) : Z :=
  match inv_created_at i with Some t => dt_utc_wall t | None => 0 end.

Definition newest_first (a b : Invoice) : bool := created_wall b <=? created_wall a.
Definition oldest_first (a b : Invoice) : bool := created_wall a <=? created_wall b.

Definition find_deposit_invoice_for_estimate (estimate_id : uuid) (d : Db) : option Invoice :=
  head (stable_sort newest_first
    (List.filter (fun i => opt_eqb (inv_estimate_id i) (Some estimate_id) && is_deposit i && is_live i)
       (op_invoices (db_ops d)))).

(** * Creating the deposit invoice *)

Definition set_invoice_lines (f : list InvoiceLine -> list InvoiceLine) (o : Ops) : Ops :=
  mk_ops (op_invoices o) (f (op_invoice_lines o)) (op_payments o) (op_adjustments o)
    (op_expenses o) (op_app_timezone o) (op_now o) (op_txid o) (op_postgres o).

Definition add_line (l : InvoiceLine) : M Session unit :=
  mwrite (set_db (set_ops (set_invoice_lines (fun ls => ls ++ [l])))).

(** [tenant_id or estimate.company_id or ""] *)
Definition company_of (tenant_id : string) (estimate : Estimate) : string :=
  if String.eqb tenant_id "" then est_company_id estimate else tenant_id.

Definition deposit_row (id_ : uuid) (estimate : Estimate) (number : string) (amount : decimal) (company_id : string)
    (today : date) (now : Z) : Invoice :=
  mk_invoice id_ number draft (Some amount) (Some (DFinite 0 0)) (Some amount) (est_job_id estimate)
    (est_customer_id estimate) company_id (Some today) None (Some (mk_datetime now (Some 0))) None (Some amount)
    None false None "deposit" (Some (est_id estimate)) None None false.

Definition deposit_line (id_ : uuid) (estimate : Estimate) (amount : decimal) : InvoiceLine :=
  mk_invoice_line id_ (Some (String.substring 0 500 ("Deposit — Estimate " +:+ est_number estimate))) (Some amount)
    (Some DEPOSIT_CATEGORY) None false (DFinite 1 0) amount 1 None None None.

(** The ceiling: the caller's, else the estimate's total, else its stored one. *)
Definition deposit_cap (sales : Sales) (d : Db) (estimate : Estimate) (cap_total : option float64) : float64 :=
  match cap_total with
  | Some c => c
  | None => match compute_estimate_totals sales d estimate with
            | Ok t => et_total t
            | Err _ => _to_float (est_total estimate)
            end
  end.

Definition create_deposit_invoice (races : list Invoice) (fallback : string) (sales : Sales) (estimate : Estimate)
    (amount : float64) (tenant_id actor : string) (cap_total : option float64) : M Session Invoice :=
  existing <- on_db (mreads (find_deposit_invoice_for_estimate (est_id estimate))) ;;
  match existing with
  | Some i => mreturn i
  | None =>
      if bool_decide (est_customer_id estimate = None) then mraise (DepositError "no_customer")
      else
        amount_dec <- mlift (_money_float amount) ;;
        nonpos <- mlift (dec_leb amount_dec (DFinite 0 0)) ;;
        if nonpos : bool then mraise (DepositError "amount_not_positive")
        else
          est_total <- on_db (mreads (fun d => deposit_cap sales d estimate cap_total)) ;;
          if float_pos est_total && float_gtb (float_of_decimal amount_dec) (float_add est_total half_cent)
          then mraise (DepositError "exceeds_estimate_total")
          else
            now <- on_db (mreads (fun d => op_now (db_ops d))) ;;
            shop_today <- on_db (mreads shop_today_from_settings) ;;
            number <- on_db (mreads (next_invoice_number fallback)) ;;
            id_ <- on_db fresh_uuid ;;
            flushed <- flush_invoice_with_number_retry races fallback
              (deposit_row id_ estimate number amount_dec (company_of tenant_id estimate) shop_today now)
              (find_deposit_invoice_for_estimate (est_id estimate)) ;;
            match flushed with
            | inl winner => mreturn winner
            | inr invoice =>
                add_line (deposit_line id_ estimate amount_dec) ;;;
                _recalculate_invoice id_ (Some actor) ;;;
                transition_invoice_status id_ sent (Some actor) ;;;
                commit_invoice id_ ;;;
                reread id_ invoice
            end
  end.

(** * Adopting deposits born before the job *)

Definition with_job (job : option uuid) (i : Invoice) : Invoice :=
  mk_invoice (inv_id i) (inv_number i) (inv_status i) (inv_total i) (inv_tax_amount i) (inv_balance_due i)
    job (inv_customer_id i) (inv_company_id i) (inv_invoice_date i) (inv_sent_at i)
    (inv_created_at i) (inv_deleted_at i) (inv_subtotal i) (inv_tax_rate i) (inv_totals_locked i)
    (inv_paid_at i) (inv_billing_type i) (inv_estimate_id i) (inv_origin i) (inv_verified_at i) (inv_locked i).

Definition is_orphan (estimate_id : uuid) (i : Invoice) : bool :=
  opt_eqb (inv_estimate_id i) (Some estimate_id) && is_deposit i && bool_decide (inv_job_id i = None) &&
  bool_decide (inv_deleted_at i = None).

Definition adopt_orphan_deposit_invoices (estimate : Estimate) (job : uuid) : M Session Z :=
  orphans <- on_db (mreads (fun d => List.filter (is_orphan (est_id estimate)) (op_invoices (db_ops d)))) ;;
  mwrite (set_db (set_ops (set_invoices (update_where (is_orphan (est_id estimate)) (with_job (Some job)))))) ;;;
  mreturn (Z.of_nat (length orphans)).

(** * Netting deposits into the final invoice *)

(** [0.009]: below a cent. *)
Definition a_cent : float64 := float_of_decimal (DFinite 9 (-3)).

(** [min(x, y)] *)
Definition float_min (x y : float64) : float64 := if float_gtb x y then y else x.

Inductive netting : Type :=
  | NothingToDo
  | Skipped (prior : string)
  | Netted (applied unapplied : float64) (superseded voided sources : list string).

(** The deposits of the invoice's job or estimate, oldest first. *)
Definition deposits_for (invoice : Invoice) (d : Db) : list Invoice :=
  let matches i := match inv_job_id invoice with Some j => opt_eqb (inv_job_id i) (Some j) | None => false end ||
                   match inv_estimate_id invoice with Some e => opt_eqb (inv_estimate_id i) (Some e) | None => false end in
  stable_sort oldest_first
    (List.filter (fun i => matches i && is_deposit i && negb (N.eqb (inv_id i) (inv_id invoice)) && is_live i)
       (op_invoices (db_ops d))).

Definition is_netting_line (l : InvoiceLine) : bool :=
  bool_decide (il_deleted_at l = None) && opt_eqb (il_category l) (Some DEPOSIT_CATEGORY) &&
  match il_line_total l with
  | Some t => match dec_ltb t (DFinite 0 0) with Ok b => b | Err _ => false end
  | None => false
  end.

(** Another live invoice of the job that already nets a deposit. *)
Definition prior_netting (invoice : Invoice) (d : Db) : option string :=
  match inv_job_id invoice with
  | None => None
  | Some j =>
      match List.find (fun i => opt_eqb (inv_job_id i) (Some j) && negb (N.eqb (inv_id i) (inv_id invoice)) &&
                                negb (is_deposit i) && is_live i &&
                                existsb (fun l => N.eqb (il_invoice_id l) (inv_id i) && is_netting_line l)
                                  (op_invoice_lines (db_ops d)))
              (op_invoices (db_ops d)) with
      | Some i => if String.eqb (inv_number i) "" then None else Some (inv_number i)
      | None => None
      end
  end.

(** What the loop gathers. *)
Record gathered : Type := mk_gathered {
  ga_total_paid : float64;
  ga_sources : list string;
  ga_superseded : list string;
  ga_voided : list string
}.

Definition owing_issued (st : invoice_status) : bool := bool_decide (st ∈ [sent; overdue]).

(** The remainder of a partly paid deposit, credited away. *)
Definition credit_remainder (dep : Invoice) (remainder : float64) (final_number actor : string) : M Session unit :=
  amount <- mlift (_money_float remainder) ;;
  adj <- new_adjustment credit_memo dep amount
           (Some (String.substring 0 200 ("Deposit superseded by " +:+ final_number))) None ;;
  on_db (post_credit_memo adj dep (Some actor)) ;;;
  on_db (resettle_invoice_payments dep (Some actor) None) ;;;
  _recalculate_invoice (inv_id dep) (Some actor).

(** One deposit: trued up, its payments counted, its unpaid rest voided or
    credited. *)
Definition supersede_deposit (final_number actor : string) (g : gathered) (dep : Invoice) : M Session gathered :=
  _recalculate_invoice (inv_id dep) (Some actor) ;;;
  dep <- reread (inv_id dep) dep ;;
  paid <- on_db (mreads (fun d => _to_float (paid_sum (inv_id dep) d))) ;;
  let counted := float_gtb paid a_cent in
  let g := if counted then mk_gathered (float_add (ga_total_paid g) paid) (ga_sources g ++ [inv_number dep])
                             (ga_superseded g) (ga_voided g) else g in
  let remainder := _to_float (inv_balance_due dep) in
  if float_gtb remainder a_cent && owing_issued (inv_status dep) then
    if float_leb paid a_cent then
      void_postings (inv_id dep) dep actor ;;;
      mwrite (set_db (clear_balance (inv_id dep))) ;;;
      mreturn (mk_gathered (ga_total_paid g) (ga_sources g) (ga_superseded g) (ga_voided g ++ [inv_number dep]))
    else
      credit_remainder dep remainder final_number actor ;;;
      mreturn (mk_gathered (ga_total_paid g) (ga_sources g) (ga_superseded g ++ [inv_number dep]) (ga_voided g))
  else mreturn g.

(** [max(sort_order)] of the invoice's lines, deleted or not, or 0. *)
Definition max_sort (id_ : uuid) (d : Db) : Z :=
  match map il_sort_order (List.filter (fun l => N.eqb (il_invoice_id l) id_) (op_invoice_lines (db_ops d))) with
  | [] => 0
  | x :: l => foldl Z.max x l
  end.

Definition netting_line (id_ : uuid) (amount : decimal) (sources : list string) (sort_order : Z) : InvoiceLine :=
  mk_invoice_line id_ (Some (String.substring 0 500 ("Less deposit paid — " +:+ String.concat ", " sources)))
    (Some amount) (Some DEPOSIT_CATEGORY) None false (DFinite 1 0) amount sort_order None None None.

(** The negative line, capped at what the lines come to. *)
Definition net_deposit (id_ : uuid) (g : gathered) : M Session netting :=
  line_total <- on_db (mreads (fun d => _to_float (sql_sum (map il_line_total (active_lines id_ d))))) ;;
  let applied := float_round2 (float_min (ga_total_paid g) (float_max0 line_total)) in
  (if float_pos applied then
     sort <- on_db (mreads (max_sort id_)) ;;
     amount <- mlift (_money_float (float_neg applied)) ;;
     add_line (netting_line id_ amount (ga_sources g) (sort + 1))
   else mreturn tt) ;;;
  mreturn (Netted applied (float_round2 (float_sub (ga_total_paid g) applied)) (ga_superseded g) (ga_voided g)
             (ga_sources g)).

Definition apply_deposits_to_final (id_ : uuid) (actor : string) : M Session netting :=
  found <- on_db (mreads (get_invoice id_)) ;;
  match found with
  | None => mraise AttributeError
  | Some invoice =>
      if is_deposit invoice then mreturn NothingToDo
      else
        deposits <- on_db (mreads (deposits_for invoice)) ;;
        match deposits with
        | [] => mreturn NothingToDo
        | _ =>
            prior <- on_db (mreads (prior_netting invoice)) ;;
            match prior with
            | Some number => mreturn (Skipped number)
            | None =>
                g <- mfold (supersede_deposit (inv_number invoice) actor) (mk_gathered (FNum 0) [] [] []) deposits ;;
                if float_leb (ga_total_paid g) a_cent
                then mreturn (Netted (FNum 0) (FNum 0) (ga_superseded g) (ga_voided g) (ga_sources g))
                else net_deposit id_ g
            end
        end
  end.
End Deposits.
