(* ===== verification/Closeouts.v ===== *)
(** Labor hours and the draft a closeout bills them on:
    [core/closeout_billing.py], [core/closeouts.py], [core/billing_lanes.py]
    and [core/quantities.py].

    A closeout attests the final day's hours, day rows attest the earlier
    days, and every invoice that bills them stamps them first.  The work
    tables are a record beside the sales tables of [Estimates] and the session
    of [Chokepoint]; a failed request is rolled back by its caller.  What
    [str.format] makes of the tenant's own description template is an
    argument ([None] is the exception), and the rows of [audit_logs] that say
    a job was reopened are a table here.  The audit rows the claims stage
    belong to [AuditChain]'s table and are left out, and so are the due date,
    the public token and the company of a line.  Text is bytes, so a cut at
    500 counts bytes. *)

From S2P Require Import Prelude PyStr Dates Money PyNum Models PayPeriods Keys Coa Engine Service RulesBase Opening Issuance Payments Adjustments Chokepoint InvoiceTotals Estimates InvoiceGuard MoneyRoutes Deposits.

Local Open Scope Z_scope.

(** * The work tables *)

Record TimeEntry : Type := mk_time_entry {
  tm_id : uuid;
  tm_job_id : option uuid;
  tm_clock_in : datetime;
  tm_clock_out : option datetime;
  tm_duration_minutes : option Z;
  tm_deleted_at : option datetime;
  tm_day_closed_at : option datetime;
  tm_billed_invoice_id : option uuid
}.

Record JobCloseout : Type := mk_closeout {
  jc_id : uuid;
  jc_job_id : uuid;
  jc_hours_worked : decimal;
  jc_techs_on_site : Z;
  jc_labor_matrix_item_id : option uuid;
  jc_closed_at : datetime;
  jc_superseded_at : option datetime;
  jc_supersedes_id : option uuid;
  jc_is_restatement : option bool;
  jc_man_hours_billed : option decimal;
  jc_billed_invoice_id : option uuid;
  jc_deleted_at : option datetime
}.

Record JobPartNeeded : Type := mk_part {
  jp_id : uuid;
  jp_job_id : uuid;
  jp_part_name : string;
  jp_sku : option string;
  jp_quantity : option Z;
  jp_status : option string;
  jp_source : string;
  jp_unit_price : option decimal;
  jp_billed_invoice_id : option uuid
}.

Record ChangeOrder : Type := mk_change_order {
  co_id : uuid;
  co_number : string;
  co_job_id : option uuid;
  co_customer_id : option uuid;
  co_title : string;
  co_status : string;
  co_amount : option decimal;
  co_created_at : datetime;
  co_deleted_at : option datetime;
  co_billed_invoice_id : option uuid
}.

Record ChangeOrderLine : Type := mk_co_line {
  cl_id : uuid;
  cl_co_id : uuid;
  cl_description : string;
  cl_qty : option Z;
  cl_unit_price : decimal;
  cl_line_total : option decimal;
  cl_taxable : bool
}.

Record LaborPriceItem : Type := mk_labor_price {
  lp_id : uuid;
  lp_description : string;
  lp_flat_price : option decimal;
  lp_active : bool;
  lp_effective_to : option date
}.

Record PricingSettings : Type := mk_pricing {
  ps_first_hour_price : decimal;
  ps_hourly_rate : decimal;
  ps_template : option string;
  ps_updated_at : datetime
}.

Record Work : Type := mk_work {
  wk_time_entries : list TimeEntry;
  wk_closeouts : list JobCloseout;
  wk_parts : list JobPartNeeded;
  wk_change_orders : list ChangeOrder;
  wk_co_lines : list ChangeOrderLine;
  wk_labor_prices : list LaborPriceItem;
  wk_pricing : list PricingSettings;
  wk_uncompleted : list (uuid * datetime)     (** [job_uncompleted] audit rows *)
}.

Definition set_time_entries (f : list TimeEntry -> list TimeEntry) (w : Work) : Work :=
  mk_work (f (wk_time_entries w)) (wk_closeouts w) (wk_parts w) (wk_change_orders w) (wk_co_lines w)
    (wk_labor_prices w) (wk_pricing w) (wk_uncompleted w).
Definition set_closeouts (f : list JobCloseout -> list JobCloseout) (w : Work) : Work :=
  mk_work (wk_time_entries w) (f (wk_closeouts w)) (wk_parts w) (wk_change_orders w) (wk_co_lines w)
    (wk_labor_prices w) (wk_pricing w) (wk_uncompleted w).
Definition set_parts (f : list JobPartNeeded -> list JobPartNeeded) (w : Work) : Work :=
  mk_work (wk_time_entries w) (wk_closeouts w) (f (wk_parts w)) (wk_change_orders w) (wk_co_lines w)
    (wk_labor_prices w) (wk_pricing w) (wk_uncompleted w).
Definition set_change_orders (f : list ChangeOrder -> list ChangeOrder) (w : Work) : Work :=
  mk_work (wk_time_entries w) (wk_closeouts w) (wk_parts w) (f (wk_change_orders w)) (wk_co_lines w)
    (wk_labor_prices w) (wk_pricing w) (wk_uncompleted w).

(** Everything a billing request reads and writes. *)
Record Office : Type := mk_office { of_session : Session; of_sales : Sales; of_work : Work }.

Definition of_db (o : Office) : Db := se_db (of_session o).
Definition set_session (f : Session -> Session) (o : Office) : Office :=
  mk_office (f (of_session o)) (of_sales o) (of_work o).
Definition set_work (f : Work -> Work) (o : Office) : Office :=
  mk_office (of_session o) (of_sales o) (f (of_work o)).

Definition on_session {A} (m : M Session A) : M Office A := fun o =>
  let '(r, s) := m (of_session o) in (r, set_session (fun _ => s) o).

(** * Quantities *)

(** [recorded_quantity]: blank is unstated and reads as 1. *)
Definition recorded_quantity (raw : option Z) : Z := default 1 raw.

Inductive verdict : Type := Bill | Skip | Refuse.
#[export] Instance verdict_eq_dec : EqDecision verdict.
Proof. solve_decision. Defined.

(** [not Decimal(str(x))]: a finite zero. *)
Definition dec_is_zero (x : decimal) : bool := match x with DFinite c _ => c =? 0 | _ => false end.

Definition zero_quantity_verdict (quantity : option Z) (line_total : option decimal) : verdict :=
  if 0 <? recorded_quantity quantity then Bill
  else if dec_is_zero (_dec line_total) then Skip else Refuse.

(** * Day rows *)

(** [day_row_clauses] *)
Definition is_day_row (t : TimeEntry) : bool :=
  bool_decide (tm_day_closed_at t <> None) &&
  match tm_duration_minutes t with Some m => 0 <? m | None => false end &&
  bool_decide (tm_deleted_at t = None) && bool_decide (tm_clock_out t <> None).

Definition day_row (t : TimeEntry) : uuid * datetime * Z :=
  (tm_id t, tm_clock_in t, default 0 (tm_duration_minutes t)).

(** [ORDER BY clock_in, id] *)
Definition day_row_before (a b : TimeEntry) : bool :=
  (dt_utc_wall (tm_clock_in a) <? dt_utc_wall (tm_clock_in b)) ||
  ((dt_utc_wall (tm_clock_in a) =? dt_utc_wall (tm_clock_in b)) && (tm_id a <=? tm_id b)%N).

Definition day_rows_where (p : TimeEntry -> bool) (job : uuid) (w : Work) : list (uuid * datetime * Z) :=
  map day_row (stable_sort day_row_before
    (List.filter (fun t => opt_eqb (tm_job_id t) (Some job) && is_day_row t && p t) (wk_time_entries w))).

Definition day_row_entries (job : uuid) (w : Work) : list (datetime * Z) :=
  map (fun t => (tm_clock_in t, default 0 (tm_duration_minutes t)))
    (List.filter (fun t => opt_eqb (tm_job_id t) (Some job) && is_day_row t) (wk_time_entries w)).

Definition unbilled_day_rows (job : uuid) (invoice_id : option uuid) (w : Work) : list (uuid * datetime * Z) :=
  day_rows_where (fun t => match tm_billed_invoice_id t with
                           | None => true
                           | Some h => opt_eqb invoice_id (Some h)
                           end) job w.

Definition held_day_rows (job invoice_id : uuid) (w : Work) : list (uuid * datetime * Z) :=
  day_rows_where (fun t => opt_eqb (tm_billed_invoice_id t) (Some invoice_id)) job w.

Definition with_time_holder (h : option uuid) (t : TimeEntry) : TimeEntry :=
  mk_time_entry (tm_id t) (tm_job_id t) (tm_clock_in t) (tm_clock_out t) (tm_duration_minutes t)
    (tm_deleted_at t) (tm_day_closed_at t) h.

Definition free_row (row_ids : list uuid) (t : TimeEntry) : bool :=
  existsb (N.eqb (tm_id t)) row_ids && bool_decide (tm_billed_invoice_id t = None).

(** The rows stamped, counted. *)
Definition claim_day_rows (invoice_id : uuid) (row_ids : list uuid) : M Office Z :=
  n <- mreads (fun o => Z.of_nat (length (List.filter (free_row row_ids) (wk_time_entries (of_work o))))) ;;
  mwrite (set_work (set_time_entries (update_where (free_row row_ids) (with_time_holder (Some invoice_id))))) ;;;
  mreturn n.

(** * The closeout's hours *)

Definition get_closeout (id_ : uuid) (w : Work) : option JobCloseout :=
  List.find (fun c => N.eqb (jc_id c) id_) (wk_closeouts w).

(** [get_current_closeout]; the unique index leaves at most one. *)
Definition get_current_closeout (job : uuid) (w : Work) : result (option JobCloseout) :=
  match List.filter (fun c => N.eqb (jc_job_id c) job && bool_decide (jc_superseded_at c = None) &&
                              bool_decide (jc_deleted_at c = None)) (wk_closeouts w) with
  | [] => Ok None
  | [c] => Ok (Some c)
  | _ => Err MultipleResultsFound
  end.

(** [_live_invoice_ids] *)
Definition live_invoice (d : Db) (id_ : uuid) : bool :=
  existsb (fun i => N.eqb (inv_id i) id_ && is_live i) (op_invoices (db_ops d)).

Definition closeout_hours_holder (d : Db) (w : Work) (id_ : uuid) : option uuid :=
  match get_closeout id_ w with
  | Some c => match jc_billed_invoice_id c with
              | Some h => if live_invoice d h then Some h else None
              | None => None
              end
  | None => None
  end.

(** [math.ceil(x)] *)
Definition float_ceil (x : float64) : result Z :=
  match x with FNum v => Ok (- ((- v) / least)) | FInf _ => Err ArithmeticError | FNan => Err ValueError end.

Definition roundup_to_half (hours : decimal) : result float64 :=
  let! halves := float_ceil (float_scale 2 (float_of_decimal hours)) in
  Ok (float_of_ratio halves 2).

Definition dec_max (x y : decimal) : result decimal :=
  let! b := dec_ltb x y in Ok (if b : bool then y else x).

Definition crew (techs : Z) : Z := Z.max 1 techs.

Definition closeout_man_hours (c : JobCloseout) : result decimal :=
  let! none := dec_leb (jc_hours_worked c) (DFinite 0 0) in
  if none : bool then Ok (DFinite 0 0)
  else let! h := roundup_to_half (jc_hours_worked c) in
       dec_mul (decimal_of_str h) (DFinite (crew (jc_techs_on_site c)) 0).

(** Whether [c] restates [prior]: its own flag, or for an older row whether
    the job stayed completed between the two. *)
Definition _restates (w : Work) (c prior : JobCloseout) : bool :=
  match jc_is_restatement c with
  | Some flag => flag
  | None =>
      negb (existsb (fun u => N.eqb (fst u) (jc_job_id c) &&
                              (dt_utc_wall (jc_closed_at prior) <? dt_utc_wall (snd u)) &&
                              (dt_utc_wall (snd u) <=? dt_utc_wall (jc_closed_at c))) (wk_uncompleted w))
  end.

(** The walk back through [supersedes_id], newest first; [seen] stops it on a
    cycle, so the number of closeouts bounds it. *)
Fixpoint restated_run (fuel : nat) (w : Work) (seen : list uuid) (cur : JobCloseout) : list JobCloseout :=
  match fuel with
  | O => []
  | S fuel' =>
      match jc_supersedes_id cur with
      | None => []
      | Some p =>
          if existsb (N.eqb p) seen then []
          else match get_closeout p w with
               | None => []
               | Some prior => if _restates w cur prior then prior :: restated_run fuel' w (p :: seen) prior else []
               end
      end
  end.

Definition _restated_run (w : Work) (c : JobCloseout) : list JobCloseout :=
  restated_run (S (length (wk_closeouts w))) w [] c.

Definition _claim_man_hours (w : Work) (c : JobCloseout) : result decimal :=
  match get_closeout (jc_id c) w ≫= jc_man_hours_billed with
  | Some billed => Ok billed
  | None => closeout_man_hours c
  end.

Definition is_held (d : Db) (w : Work) (c : JobCloseout) : bool :=
  match closeout_hours_holder d w (jc_id c) with Some _ => true | None => false end.

Definition closeout_hours_billed_before (d : Db) (w : Work) (c : JobCloseout) : result decimal :=
  let! hours := rmap (_claim_man_hours w) (List.filter (is_held d w) (_restated_run w c)) in
  dec_sum hours.

Definition closeout_man_hours_to_bill (d : Db) (w : Work) (c : JobCloseout) : result decimal :=
  let! all := closeout_man_hours c in
  let! before := closeout_hours_billed_before d w c in
  let! rest := dec_sub all before in
  dec_max (DFinite 0 0) rest.

Definition closeout_man_hours_left_unbilled (d : Db) (w : Work) (c : JobCloseout) : result decimal :=
  if negb (is_held d w c) then Ok (DFinite 0 0)
  else let! to_bill := closeout_man_hours_to_bill d w c in
       let! claimed := _claim_man_hours w c in
       let! rest := dec_sub to_bill claimed in
       dec_max (DFinite 0 0) rest.

Definition with_claim (h : uuid) (man_hours : decimal) (c : JobCloseout) : JobCloseout :=
  mk_closeout (jc_id c) (jc_job_id c) (jc_hours_worked c) (jc_techs_on_site c) (jc_labor_matrix_item_id c)
    (jc_closed_at c) (jc_superseded_at c) (jc_supersedes_id c) (jc_is_restatement c) (Some man_hours) (Some h)
    (jc_deleted_at c).
Definition without_holder (c : JobCloseout) : JobCloseout :=
  mk_closeout (jc_id c) (jc_job_id c) (jc_hours_worked c) (jc_techs_on_site c) (jc_labor_matrix_item_id c)
    (jc_closed_at c) (jc_superseded_at c) (jc_supersedes_id c) (jc_is_restatement c) (jc_man_hours_billed c) None
    (jc_deleted_at c).

(** The UPDATE's condition: no live invoice holds the row. *)
Definition claimable (d : Db) (id_ : uuid) (c : JobCloseout) : bool :=
  N.eqb (jc_id c) id_ &&
  match jc_billed_invoice_id c with None => true | Some h => negb (live_invoice d h) end.

Definition claim_closeout_hours (invoice_id : uuid) (c : JobCloseout) : M Office bool := fun o =>
  (to_bill <- mlift (closeout_man_hours_to_bill (of_db o) (of_work o) c) ;;
   some <- mlift (dec_ltb (DFinite 0 0) to_bill) ;;
   if negb some then mreturn false
   else
     let p := claimable (of_db o) (jc_id c) in
     mwrite (set_work (set_closeouts (update_where p (with_claim invoice_id to_bill)))) ;;;
     mreturn (existsb p (wk_closeouts (of_work o)))) o.

(** [_release_stamps] on each table, and the count of day rows. *)
Definition release_closeout_hours (invoice_id : uuid) : M Office Z :=
  let held c := opt_eqb (jc_billed_invoice_id c) (Some invoice_id) in
  n <- mreads (fun o => Z.of_nat (length (List.filter held (wk_closeouts (of_work o))))) ;;
  mwrite (set_work (set_closeouts (update_where held without_holder))) ;;;
  mreturn n.

Definition release_day_rows (invoice_id : uuid) : M Office Z :=
  release_closeout_hours invoice_id ;;;
  let held t := opt_eqb (tm_billed_invoice_id t) (Some invoice_id) in
  n <- mreads (fun o => Z.of_nat (length (List.filter held (wk_time_entries (of_work o))))) ;;
  mwrite (set_work (set_time_entries (update_where held (with_time_holder None)))) ;;;
  mreturn n.

(** * Rates and the first hour *)

(** [_money] of [core/billing_lanes.py] rounds half up; that of
    [core/closeout_billing.py] rounds half to even. *)
Definition lane_money (d : decimal) : result decimal := quantize_money d.
Definition draft_money (d : decimal) : result decimal := quantize_even d.
Definition draft_money_float (x : float64) : result decimal := quantize_even (decimal_of_str x).

Definition service_rates (w : Work) : result (decimal * decimal) :=
  let '(first, hourly) := match wk_pricing w with
                          | p :: _ => (ps_first_hour_price p, ps_hourly_rate p)
                          | [] => (DFinite 100 0, DFinite 100 0)
                          end in
  let! f := lane_money first in
  let! h := lane_money hourly in
  Ok (f, h).

(** [f"{c / 100:.2f}"] of an amount in hundredths. *)
Definition fmt_cents (c : Z) : string :=
  (if c <? 0 then "-" else "") +:+ zpad 1 (Z.abs c / 100) +:+ "." +:+ zpad 2 (Z.abs c mod 100).
Definition fmt_dec (d : decimal) : string :=
  match quantize_even d with Ok (DFinite c _) => fmt_cents c | _ => "" end.
Definition fmt_float (x : float64) : string :=
  match x with FNum v => fmt_cents (round_even (v * 100) least) | FInf true => "-inf" | FInf false => "inf" | FNan => "nan" end.

Definition DEFAULT_SERVICE_LABOR_TEMPLATE : string :=
  "Service labor — {man_hours:.2f} man-hours ({hours:.2f} h on site × {techs} tech{tech_plural}; first hour ${first_hour_price}, then ${hourly_rate}/hr)".

Definition FIRST_HOUR_DESCRIPTION : string := "Service labor — first hour".

Record labor_vars : Type := mk_labor_vars {
  lv_man_hours : float64;
  lv_hours : float64;
  lv_techs : Z;
  lv_tech_plural : string;
  lv_first_hour_price : decimal;
  lv_hourly_rate : decimal
}.

(** [DEFAULT_SERVICE_LABOR_TEMPLATE.format( **vars )] *)
Definition default_service_description (v : labor_vars) : string :=
  "Service labor — " +:+ fmt_float (lv_man_hours v) +:+ " man-hours (" +:+ fmt_float (lv_hours v) +:+ " h on site × "
    +:+ zpad 1 (lv_techs v) +:+ " tech" +:+ lv_tech_plural v +:+ "; first hour $" +:+ fmt_dec (lv_first_hour_price v)
    +:+ ", then $" +:+ fmt_dec (lv_hourly_rate v) +:+ "/hr)".

Definition service_labor_description_template (w : Work) : string :=
  match wk_pricing w with
  | p :: _ => let tpl := str_strip (default "" (ps_template p)) in
              if String.eqb tpl "" then DEFAULT_SERVICE_LABOR_TEMPLATE else tpl
  | [] => DEFAULT_SERVICE_LABOR_TEMPLATE
  end.

(** The attested lines of the job's other live invoices, with the invoice's
    creation time. *)
Definition attested_elsewhere (d : Db) (job : uuid) (invoice_id : option uuid) : list (InvoiceLine * option datetime) :=
  flat_map (fun l => match List.find (fun i => N.eqb (inv_id i) (il_invoice_id l)) (op_invoices (db_ops d)) with
                     | Some i => if opt_eqb (inv_job_id i) (Some job) && is_live i &&
                                    bool_decide (il_deleted_at l = None) &&
                                    opt_eqb (il_pricing_source l) (Some "labor_attested") &&
                                    negb (opt_eqb invoice_id (Some (inv_id i)))
                                 then [(l, inv_created_at i)] else []
                     | None => []
                     end) (op_invoice_lines (db_ops d)).

(** Created before the rates last changed. *)
Definition older_than (created : option datetime) (since : option datetime) : bool :=
  match since with
  | None => false
  | Some s => match created with None => true | Some c => dt_utc_wall c <? dt_utc_wall s end
  end.

Record elsewhere : Type := mk_elsewhere { ew_hours : decimal; ew_older : decimal; ew_carried : bool }.

Definition count_line (hourly : decimal) (since : option datetime) (acc : elsewhere)
    (row : InvoiceLine * option datetime) : result elsewhere :=
  let '(l, created) := row in
  let! hours := dec_add (ew_hours acc) (il_quantity l) in
  if String.eqb (default "" (il_description l)) FIRST_HOUR_DESCRIPTION
  then Ok (mk_elsewhere hours (ew_older acc) true)
  else if older_than created since
  then let! older := dec_add (ew_older acc) (il_quantity l) in Ok (mk_elsewhere hours older (ew_carried acc))
  else let! unit := lane_money (il_unit_price l) in
       let! c := dec_compare unit hourly in
       Ok (mk_elsewhere hours (ew_older acc) (ew_carried acc || negb (bool_decide (c = Eq)))).

Definition first_hour_elsewhere (d : Db) (w : Work) (job : uuid) (invoice_id : option uuid)
  : result (bool * decimal) :=
  match attested_elsewhere d job invoice_id with
  | [] => Ok (false, DFinite 0 0)
  | rows =>
      let! rates := service_rates w in
      let '(first, hourly) := rates in
      let since := match wk_pricing w with p :: _ => Some (ps_updated_at p) | [] => None end in
      let! e := rfold (count_line hourly since) (mk_elsewhere (DFinite 0 0) (DFinite 0 0) false) rows in
      let! old := dec_leb (DFinite 1 0) (ew_older e) in
      let! same := dec_compare first hourly in
      let! enough := dec_leb (DFinite 1 0) (ew_hours e) in
      Ok (ew_carried e || old || (bool_decide (same = Eq) && enough), ew_hours e)
  end.

Definition first_hour_charged_elsewhere (d : Db) (w : Work) (job : uuid) (invoice_id : option uuid) : result bool :=
  let! e := first_hour_elsewhere d w job invoice_id in Ok (fst e).

(** * The labor lines *)

Record labor_line : Type := mk_labor_line {
  ll_description : string;
  ll_quantity : decimal;
  ll_unit_price : decimal;
  ll_line_total : decimal;
  ll_man_hours : float64;
  ll_carrier : option (list uuid * option uuid * decimal)
    (** on one line: [time_entry_ids], [closeout_id], [estimated_man_hours] *)
}.

Section Labor.
Context `{W : World}.
Variable str_format : string -> labor_vars -> option string.

Definition _render_service_description (w : Work) (v : labor_vars) : string :=
  let tpl := service_labor_description_template w in
  if String.eqb tpl DEFAULT_SERVICE_LABOR_TEMPLATE then default_service_description v
  else default (default_service_description v) (str_format tpl v).

(** The closeout's hours still to offer: attested hours, billed man-hours and
    what the restated run billed before. *)
Definition final_day (d : Db) (w : Work) (closeout : option JobCloseout) (invoice_id : option uuid)
  : result (decimal * decimal * decimal) :=
  match closeout with
  | None => Ok (DFinite 0 0, DFinite 0 0, DFinite 0 0)
  | Some c =>
      let! pos := dec_ltb (DFinite 0 0) (jc_hours_worked c) in
      let taken := match closeout_hours_holder d w (jc_id c) with
                   | Some h => negb (opt_eqb invoice_id (Some h))
                   | None => false
                   end in
      let hours := if (pos : bool) && negb taken then jc_hours_worked c else DFinite 0 0 in
      if (pos : bool) && negb taken then
        let! h := roundup_to_half hours in
        let! man := dec_mul (decimal_of_str h) (DFinite (crew (jc_techs_on_site c)) 0) in
        let! some := dec_ltb (DFinite 0 0) man in
        let! carried := if some : bool then closeout_hours_billed_before d w c else Ok (DFinite 0 0) in
        let! restated := dec_ltb (DFinite 0 0) carried in
        if restated : bool then
          let! rest := dec_sub man carried in
          let! man := dec_max (DFinite 0 0) rest in
          let! nothing := dec_leb man (DFinite 0 0) in
          Ok (if nothing : bool then DFinite 0 0 else hours, man, carried)
        else Ok (hours, man, carried)
      else Ok (hours, DFinite 0 0, DFinite 0 0)
  end.

(** Minutes of day rows, rounded up to the half hour once. *)
Definition rows_man (minutes : Z) : decimal :=
  if 0 <? minutes then DFinite (- ((- minutes) / 30) * 5) (-1) else DFinite 0 0.

(** The shop days billed. *)
Definition days_billed (d : Db) (closeout : option JobCloseout) (final_hours : decimal) (day_rows : list (uuid * datetime * Z))
  : result Z :=
  match day_rows with
  | [] => Ok 1
  | _ =>
      let tz := Some (shop_tz_name_from_settings d) in
      let! pos := dec_ltb (DFinite 0 0) final_hours in
      let closing := match closeout with
                     | Some c => if pos : bool then [shop_day_of (DVDatetime (jc_closed_at c)) tz] else []
                     | None => []
                     end in
      let days := map (fun r => shop_day_of (DVDatetime (snd (fst r))) tz) day_rows ++ closing in
      Ok (Z.max 1 (Z.of_nat (length (remove_dups (omap (fun x => x) days)))))
  end.

Definition make_line (raw_man : decimal) (description : string) (qty unit : decimal) : result labor_line :=
  let! product := dec_mul qty unit in
  let! line_total := lane_money product in
  Ok (mk_labor_line (String.substring 0 500 description) qty unit line_total (float_of_decimal raw_man) None).

(** [lines[-1]] carries the claim. *)
Fixpoint carry (c : list uuid * option uuid * decimal) (l : list labor_line) : list labor_line :=
  match l with
  | [] => []
  | [x] => [mk_labor_line (ll_description x) (ll_quantity x) (ll_unit_price x) (ll_line_total x) (ll_man_hours x) (Some c)]
  | x :: l' => x :: carry c l'
  end.

(** The floor of the job's first hour, topped up past what siblings bill. *)
Definition floored (first_applies : bool) (hours_elsewhere man : decimal) : result decimal :=
  if first_applies then
    let! nonneg := dec_max (DFinite 0 0) hours_elsewhere in
    let! lt := dec_ltb nonneg (DFinite 1 0) in
    let! floor := dec_sub (DFinite 1 0) (if lt : bool then nonneg else DFinite 1 0) in
    dec_max floor man
  else Ok man.

Definition price_lines (w : Work) (first hourly : decimal) (first_applies : bool) (hours_elsewhere carried : decimal)
    (day_rows : list (uuid * datetime * Z)) (final_hours : decimal) (techs : Z) (man raw_man : decimal) (over : string)
  : result (list labor_line) :=
  let! same := dec_compare first hourly in
  if negb first_applies || bool_decide (same = Eq) then
    let plain := first_applies && (match day_rows with [] => true | _ => false end) && dec_is_zero hours_elsewhere &&
                 dec_is_zero carried in
    let desc := if plain then
                  _render_service_description w (mk_labor_vars (float_of_decimal man) (float_of_decimal final_hours)
                    techs (if techs =? 1 then "" else "s") first hourly)
                else "Service labor — " +:+ fmt_dec man +:+ " man-hours at $" +:+ fmt_dec hourly +:+ "/hr" +:+ over in
    let! line := make_line raw_man desc man hourly in Ok [line]
  else
    let! short := dec_ltb man (DFinite 100 (-2)) in
    let! first_line := make_line raw_man FIRST_HOUR_DESCRIPTION (if short : bool then man else DFinite 100 (-2)) first in
    let! rest := dec_sub man (DFinite 1 0) in
    let! more := dec_ltb (DFinite 0 0) rest in
    if more : bool then
      let! line := make_line raw_man
        ("Service labor — " +:+ fmt_dec rest +:+ " h after the first hour at $" +:+ fmt_dec hourly +:+ "/hr (" +:+
           fmt_dec man +:+ " man-hours" +:+ over +:+ ")") rest hourly in
      Ok [first_line; line]
    else Ok [first_line].

Definition job_labor_lines (d : Db) (w : Work) (job : uuid) (job_type : option string) (closeout : option JobCloseout)
    (invoice_id : option uuid) (include_day_rows : bool) (given_rows : option (list (uuid * datetime * Z)))
  : result (list labor_line) :=
  match pricing_lane job_type with
  | service =>
      let! final := final_day d w closeout invoice_id in
      let '(final_hours, final_man, carried) := final in
      let techs := match closeout with Some c => crew (jc_techs_on_site c) | None => 1 end in
      let day_rows := match given_rows with
                      | Some rows => rows
                      | None => if include_day_rows then unbilled_day_rows job invoice_id w else []
                      end in
      let minutes := zsum (map snd day_rows) in
      let! man := dec_add final_man (rows_man minutes) in
      let! nothing := dec_leb man (DFinite 0 0) in
      if nothing : bool then Ok []
      else
        let! rates := service_rates w in
        let '(first, hourly) := rates in
        let! e := first_hour_elsewhere d w job invoice_id in
        let '(charged, hours_elsewhere) := e in
        let! man := floored (negb charged) hours_elsewhere man in
        let! man := quantize_even man in
        let! restated := dec_ltb (DFinite 0 0) carried in
        let! raw_final := if restated : bool then Ok final_man else dec_mul final_hours (DFinite techs 0) in
        let! raw_minutes := dec_div (DFinite minutes 0) (DFinite 60 0) in
        let! raw := dec_add raw_final raw_minutes in
        let! raw_man := quantize_even raw in
        let! days := days_billed d closeout final_hours day_rows in
        let over := if 1 <? days then " over " +:+ zpad 1 days +:+ " days" else "" in
        let! lines := price_lines w first hourly (negb charged) hours_elsewhere carried day_rows final_hours techs man
                        raw_man over in
        let! pos := dec_ltb (DFinite 0 0) final_hours in
        Ok (carry (map (fun r => fst (fst r)) day_rows,
                   match closeout with Some c => if pos : bool then Some (jc_id c) else None | None => None end,
                   raw_man) lines)
  | _ => Ok []
  end.

(** * The flat install price *)

Definition install_labor_line (d : Db) (w : Work) (item_id : uuid) : result (option (string * decimal)) :=
  match List.find (fun i => N.eqb (lp_id i) item_id) (wk_labor_prices w) with
  | None => Ok None
  | Some item =>
      if negb (lp_active item) then Ok None
      else if match lp_effective_to item with Some e => e <? shop_today_from_settings d | None => false end then Ok None
      else
        let! price := lane_money (_dec (lp_flat_price item)) in
        let! none := dec_leb price (DFinite 0 0) in
        Ok (if none : bool then None
            else Some (String.substring 0 500 ("Install — " +:+ lp_description item), price))
  end.

(** * Building the draft's lines *)

Definition AUTODRAFT_ORIGIN : string := "closeout_autodraft".
Definition AUTODRAFT_LINE_SOURCE : string := "autodraft".

(** What the builder counts: the next [sort_order], the lines added, their
    total and the taxable part of it. *)
Record tally : Type := mk_tally { ta_sort : Z; ta_added : Z; ta_total : decimal; ta_taxable : decimal }.

Definition count_added (taxable : bool) (amount : decimal) (t : tally) : result tally :=
  let! total := dec_add (ta_total t) amount in
  let! taxed := if taxable then dec_add (ta_taxable t) amount else Ok (ta_taxable t) in
  Ok (mk_tally (ta_sort t + 1) (ta_added t + 1) total taxed).

(** [db.add(InvoiceLine(...))] and the counters. *)
Definition add_draft_line (t : tally) (l : InvoiceLine) : M Office tally :=
  on_session (add_line l) ;;;
  mlift (count_added (il_taxable l) (_dec (il_line_total l)) t).

Definition install_line (invoice_id : uuid) (taxable : bool) (sort : Z) (description : string) (price : decimal)
  : InvoiceLine :=
  mk_invoice_line invoice_id (Some description) (Some price) (Some "Labor") None taxable (DFinite 1 0) price sort None
    (Some AUTODRAFT_LINE_SOURCE) None.

Definition attested_line (invoice_id : uuid) (taxable : bool) (sort : Z) (l : labor_line) : InvoiceLine :=
  mk_invoice_line invoice_id (Some (ll_description l)) (Some (ll_line_total l)) (Some "Labor") None taxable
    (ll_quantity l) (ll_unit_price l) sort (Some "labor_attested") (Some AUTODRAFT_LINE_SOURCE) None.

Definition part_line (invoice_id : uuid) (taxable : bool) (sort : Z) (p : JobPartNeeded) (unit total : decimal)
  : InvoiceLine :=
  let name := if negb (String.eqb (jp_part_name p) "") then jp_part_name p
              else if truthy_str (jp_sku p) then default "" (jp_sku p) else "Part" in
  mk_invoice_line invoice_id (Some (String.substring 0 500 name)) (Some total) (Some "Parts") None taxable
    (DFinite (recorded_quantity (jp_quantity p)) 0) unit sort None (Some AUTODRAFT_LINE_SOURCE) (Some (jp_id p)).

Definition install_lane_lines (invoice_id job : uuid) (closeout : JobCloseout) (labor_taxable : bool) (t : tally)
  : M Office tally :=
  match jc_labor_matrix_item_id closeout with
  | None => mreturn t
  | Some item =>
      found <- (fun o => (install_labor_line (of_db o) (of_work o) item, o)) ;;
      match found with
      | Some (description, price) => add_draft_line t (install_line invoice_id labor_taxable (ta_sort t) description price)
      | None => mreturn t
      end
  end.

(** Claim first, then price what the invoice holds. *)
Definition service_lane_lines (invoice_id job : uuid) (job_type : option string) (closeout : JobCloseout)
    (labor_taxable : bool) (t : tally) : M Office tally :=
  unbilled <- mreads (fun o => unbilled_day_rows job None (of_work o)) ;;
  claim_day_rows invoice_id (map (fun r => fst (fst r)) unbilled) ;;;
  stamped <- mreads (fun o => held_day_rows job invoice_id (of_work o)) ;;
  claim_closeout_hours invoice_id closeout ;;;
  lines <- (fun o => (job_labor_lines (of_db o) (of_work o) job job_type (Some closeout) (Some invoice_id) true
                        (Some stamped), o)) ;;
  mfold (fun t l => add_draft_line t (attested_line invoice_id labor_taxable (ta_sort t) l)) t lines.

Definition is_candidate_part (job : uuid) (p : JobPartNeeded) : bool :=
  N.eqb (jp_job_id p) job && existsb (String.eqb (jp_source p)) ["closeout"; "mobile"; "van"] &&
  bool_decide (jp_billed_invoice_id p = None) &&
  match jp_unit_price p with
  | Some u => match dec_ltb (DFinite 0 0) u with Ok b => b | Err _ => false end
  | None => false
  end &&
  negb (opt_eqb (jp_status p) (Some "wont_bill")).

Definition with_part_holder (h : option uuid) (p : JobPartNeeded) : JobPartNeeded :=
  mk_part (jp_id p) (jp_job_id p) (jp_part_name p) (jp_sku p) (jp_quantity p) (jp_status p) (jp_source p)
    (jp_unit_price p) h.

Definition free_part (id_ : uuid) (p : JobPartNeeded) : bool :=
  N.eqb (jp_id p) id_ && bool_decide (jp_billed_invoice_id p = None).

(** One candidate part: claimed, then lined. *)
Definition bill_part (invoice_id : uuid) (parts_taxable : bool) (t : tally) (p : JobPartNeeded) : M Office tally :=
  if bool_decide (zero_quantity_verdict (jp_quantity p) None = Skip) then mreturn t
  else
    claimed <- mreads (fun o => existsb (free_part (jp_id p)) (wk_parts (of_work o))) ;;
    mwrite (set_work (set_parts (update_where (free_part (jp_id p)) (with_part_holder (Some invoice_id))))) ;;;
    if negb claimed then mreturn t
    else
      let qty := recorded_quantity (jp_quantity p) in
      unit <- mlift (draft_money (_dec (jp_unit_price p))) ;;
      total <- mlift (draft_money_float (float_scale qty (float_of_decimal unit))) ;;
      add_draft_line t (part_line invoice_id parts_taxable (ta_sort t) p unit total).

Definition build_closeout_lines (invoice_id job : uuid) (job_type : option string) (closeout : JobCloseout)
  : M Office tally :=
  tax_labor <- mreads (fun o => _load_tax_labor_flag (of_sales o)) ;;
  let parts_taxable := negb (is_install_lane job_type) in
  let labor_taxable := tax_labor && parts_taxable in
  let start := mk_tally 1 0 (DFinite 0 0) (DFinite 0 0) in
  t <- match pricing_lane job_type with
       | install => install_lane_lines invoice_id job closeout labor_taxable start
       | service => service_lane_lines invoice_id job job_type closeout labor_taxable start
       | office => mreturn start
       end ;;
  candidates <- mreads (fun o => List.filter (is_candidate_part job) (wk_parts (of_work o))) ;;
  mfold (bill_part invoice_id parts_taxable) t candidates.

(** * The autodraft *)

Definition is_untouched_autodraft (inv : Invoice) (d : Db) : bool :=
  opt_eqb (inv_origin inv) (Some AUTODRAFT_ORIGIN) && bool_decide (inv_status inv = draft) &&
  bool_decide (inv_verified_at inv = None) && bool_decide (inv_sent_at inv = None) && negb (inv_locked inv) &&
  bool_decide (inv_paid_at inv = None) && dec_is_zero (_dec (paid_sum (inv_id inv) d)) &&
  negb (existsb (fun l => N.eqb (il_invoice_id l) (inv_id inv) && bool_decide (il_deleted_at l = None) &&
                          negb (opt_eqb (il_source l) (Some AUTODRAFT_LINE_SOURCE))) (op_invoice_lines (db_ops d))).

Definition _live_autodraft (job : uuid) (d : Db) : option Invoice :=
  head (stable_sort newest_first
    (List.filter (fun i => opt_eqb (inv_job_id i) (Some job) && bool_decide (inv_deleted_at i = None) &&
                           opt_eqb (inv_origin i) (Some AUTODRAFT_ORIGIN) && bool_decide (inv_status i = draft))
       (op_invoices (db_ops d)))).

Definition release_parts (invoice_id : uuid) : M Office Z :=
  let held p := opt_eqb (jp_billed_invoice_id p) (Some invoice_id) in
  n <- mreads (fun o => Z.of_nat (length (List.filter held (wk_parts (of_work o))))) ;;
  mwrite (set_work (set_parts (update_where held (with_part_holder None)))) ;;;
  mreturn n.

(** The header of an emptied or built draft. *)
Definition with_header (subtotal tax total : decimal) (i : Invoice) : Invoice :=
  with_totals subtotal total total (with_tax tax i).

Definition zero_money : decimal := DFinite 0 (-2).

Definition release_untouched_autodraft (job : uuid) : M Office (option Invoice) :=
  found <- mreads (fun o => _live_autodraft job (of_db o)) ;;
  match found with
  | None => mreturn None
  | Some inv =>
      untouched <- mreads (fun o => is_untouched_autodraft inv (of_db o)) ;;
      if negb untouched then mreturn None
      else
        release_parts (inv_id inv) ;;;
        release_day_rows (inv_id inv) ;;;
        on_session (mwrite (set_db (set_ops (set_invoice_lines
          (List.filter (fun l => negb (N.eqb (il_invoice_id l) (inv_id inv)))))))) ;;;
        on_session (mwrite (write_invoice (inv_id inv) (with_header zero_money zero_money zero_money))) ;;;
        inv <- on_session (reread (inv_id inv) inv) ;;
        mreturn (Some inv)
  end.

(** The caller has checked that the draft is untouched. *)
Definition void_untouched_autodraft (inv : Invoice) (actor : option string) : M Office Z :=
  released <- release_parts (inv_id inv) ;;
  release_day_rows (inv_id inv) ;;;
  on_session (transition_invoice_status (inv_id inv) void actor) ;;;
  on_session (mwrite (set_db (clear_balance (inv_id inv)))) ;;;
  mreturn released.

Definition _resolve_draft_rate (s : Sales) (d : Db) (customer_id : option uuid) (job_type : option string)
  : option decimal :=
  let install := is_install_lane job_type in
  match resolve_rate_for_job s d customer_id job_type None with
  | Err _ => if install then Some (DFinite 0 0) else None
  | Ok candidate =>
      match dec_ltb (DFinite 0 0) candidate with
      | Err _ => if install then Some (DFinite 0 0) else None
      | Ok pos => if pos || install then Some candidate else None
      end
  end.

Definition autodraft_row (id_ : uuid) (job : Job) (number : string) (today : date) (now : Z) (company_id : string)
  : Invoice :=
  mk_invoice id_ number draft (Some zero_money) (Some zero_money) (Some zero_money) (Some (job_id job))
    (job_customer_id job) company_id (Some today) None (Some (mk_datetime now (Some 0))) None (Some zero_money) None
    false None "standard" None (Some AUTODRAFT_ORIGIN) None false.

Definition with_rate (rate : option decimal) (i : Invoice) : Invoice :=
  mk_invoice (inv_id i) (inv_number i) (inv_status i) (inv_total i) (inv_tax_amount i) (inv_balance_due i)
    (inv_job_id i) (inv_customer_id i) (inv_company_id i) (inv_invoice_date i) (inv_sent_at i)
    (inv_created_at i) (inv_deleted_at i) (inv_subtotal i) rate (inv_totals_locked i)
    (inv_paid_at i) (inv_billing_type i) (inv_estimate_id i) (inv_origin i) (inv_verified_at i) (inv_locked i).

(** The reasons to leave the closeout unbilled. *)
Definition autodraft_skipped (job : Job) (reuse : bool) (s : Sales) (d : Db) : bool :=
  bool_decide (job_not_billable_at job <> None) || bool_decide (job_customer_id job = None) ||
  existsb (fun e => opt_eqb (est_job_id e) (Some (job_id job)) && bool_decide (est_status e = EAccepted) &&
                    bool_decide (est_deleted_at e = None)) (sa_estimates s) ||
  (negb reuse && existsb (fun i => opt_eqb (inv_job_id i) (Some (job_id job)) && is_live i) (op_invoices (db_ops d))).

Definition draft_tax (t : tally) (rate : option decimal) : result decimal :=
  match rate with
  | Some r => if dec_is_zero r then Ok zero_money else let! tax := dec_mul (ta_taxable t) r in draft_money tax
  | None => Ok zero_money
  end.

(** The rate, and where anything is billed the amounts. *)
Definition write_draft_header (inv : Invoice) (job : Job) (t : tally) : M Office unit :=
  rate <- mreads (fun o => _resolve_draft_rate (of_sales o) (of_db o) (inv_customer_id inv) (job_type job)) ;;
  on_session (mwrite (write_invoice (inv_id inv) (with_rate rate))) ;;;
  billed <- mlift (dec_ltb (DFinite 0 0) (ta_total t)) ;;
  if billed : bool then
    tax <- mlift (draft_tax t rate) ;;
    subtotal <- mlift (draft_money (ta_total t)) ;;
    sum <- mlift (dec_add (ta_total t) tax) ;;
    total <- mlift (draft_money sum) ;;
    on_session (mwrite (write_invoice (inv_id inv) (with_header subtotal tax total)))
  else mreturn tt.

Definition delete_invoice_row (id_ : uuid) : M Session unit :=
  mwrite (set_db (set_ops (set_invoices (List.filter (fun i => negb (N.eqb (inv_id i) id_)))))).

Definition new_autodraft (fallback tenant_id : string) (job : Job) : M Session Invoice :=
  today <- on_db (mreads shop_today_from_settings) ;;
  now <- on_db (mreads (fun d => op_now (db_ops d))) ;;
  number <- on_db (mreads (next_invoice_number fallback)) ;;
  id_ <- on_db fresh_uuid ;;
  let inv := autodraft_row id_ job number today now tenant_id in
  insert_invoice inv ;;;
  mreturn inv.

Definition autodraft_invoice_for_closeout (fallback tenant_id : string) (job : Job) (closeout : JobCloseout)
    (reuse_invoice : option Invoice) : M Office (option Invoice) :=
  skipped <- mreads (fun o => autodraft_skipped job (bool_decide (reuse_invoice <> None)) (of_sales o) (of_db o)) ;;
  if skipped : bool then mreturn None
  else
    inv <- match reuse_invoice with
           | Some inv => mreturn inv
           | None => on_session (new_autodraft fallback tenant_id job)
           end ;;
    t <- build_closeout_lines (inv_id inv) (job_id job) (job_type job) closeout ;;
    if (ta_added t =? 0) && bool_decide (reuse_invoice = None) then
      on_session (delete_invoice_row (inv_id inv)) ;;;
      mreturn None
    else
      write_draft_header inv job t ;;;
      inv <- on_session (reread (inv_id inv) inv) ;;
      mreturn (Some inv).
End Labor.

(** * Wall-clock hours *)

Section WallClock.
Context `{W : World}.

(** The longest row of each shop day. *)
Definition longest_day_row_minutes (entries : list (datetime * Z)) (tz_name : string) : gmap Z Z :=
  foldl (fun per_day e => match shop_day_of (DVDatetime (fst e)) (Some tz_name) with
                          | Some day => <[day := Z.max (default 0 (per_day !! day)) (snd e)]> per_day
                          | None => per_day
                          end) ∅ entries.

(** One job's entry of [worked_wall_clock_hours]; absent without day rows. *)
Definition worked_wall_clock_hours (job : uuid) (d : Db) (w : Work) : option float64 :=
  match day_row_entries job w with
  | [] => None
  | rows => Some (float_of_ratio (map_fold (fun _ m acc => m + acc) 0
                                    (longest_day_row_minutes rows (shop_tz_name_from_settings d))) 60)
  end.
End WallClock.
