(* ===== verification/Billing.v ===== *)
(** [create_invoice] of [routers/invoices.py], with the double-billing guard
    ([core/billing_predicates.py]), the zero-price policy
    ([modules/catalog_policy/service.py]) and the pricing lanes a line may
    claim ([core/pricing_provenance.py]).

    The request is checked against what is stored, then written in one
    transaction: the row under a fresh number, the lines of the estimate or of
    the request, change orders and parts claimed before they are billed,
    deposits netted, totals recalculated.  [races] are the invoices other
    requests commit between the check and the write.  Left out: the due date
    and its terms, notes, photos and the display flag, and a line's cost,
    margin and labor-matrix columns; the audit row follows the commit. *)

From S2P Require Import Prelude PyStr Dates Money PyNum Models PayPeriods Keys Coa Engine Service RulesBase Opening Issuance Payments Adjustments Chokepoint InvoiceTotals Estimates InvoiceGuard MoneyRoutes Deposits Closeouts.

Local Open Scope Z_scope.

(** * The request *)

Record InvoiceLineCreateIn : Type := mk_line_in {
  li_description : string;
  li_quantity : decimal;
  li_unit_price : float64;
  li_taxable : bool;
  li_category : option string;
  li_cost : option float64;
  li_margin_pct_override : option float64;
  li_part_id : option uuid;
  li_labor_price_item_id : option uuid;
  li_estimated_man_hours : option float64;
  li_labor_source : option string;
  li_time_entry_ids : option (list uuid);
  li_closeout_id : option uuid
}.

Record InvoiceCreateIn : Type := mk_create_in {
  ci_job_id : option uuid;
  ci_estimate_id : option uuid;
  ci_source_estimate_id : option uuid;
  ci_customer_id : uuid;
  ci_billing_type : string;
  ci_tax_rate : option float64;
  ci_tax_amount : float64;
  ci_invoice_date : option date;
  ci_line_items : list InvoiceLineCreateIn;
  ci_from_part_ids : list uuid;
  ci_from_change_order_ids : list uuid;
  ci_force : bool;
  ci_discount : option float64
}.

(** [0 <= x <= c / 100] on a float field. *)
Definition float_between (c : Z) (x : float64) : bool :=
  float_leb (FNum 0) x && float_leb x (float_of_decimal (DFinite c (-2))).

Definition opt_all {A} (p : A -> bool) (x : option A) : bool := match x with Some a => p a | None => true end.

(** [gt=0, le=9999, max_digits=6, decimal_places=2] *)
Definition valid_quantity (q : decimal) : bool :=
  match q with
  | DFinite c e => (0 <? c) && (-2 <=? e) &&
                   match dec_leb q (DFinite 9999 0) with Ok b => b | Err _ => false end
  | _ => false
  end.

Definition valid_line (l : InvoiceLineCreateIn) : bool :=
  negb (String.eqb (str_strip (li_description l)) "") && (String.length (li_description l) <=? 500)%nat &&
  valid_quantity (li_quantity l) && float_between 99999999 (li_unit_price l) &&
  opt_all (float_between 99999999) (li_cost l) &&
  opt_all (fun h => float_leb (FNum 0) h && float_leb h (float_of_int 999)) (li_estimated_man_hours l) &&
  opt_all (fun s => existsb (String.eqb s) ["matrix"; "attested"; "manual"]) (li_labor_source l) &&
  negb (opt_eqb (li_labor_source l) (Some "matrix") && bool_decide (li_labor_price_item_id l = None)) &&
  negb (bool_decide (li_labor_price_item_id l <> None) && bool_decide (li_labor_source l = None)) &&
  negb (bool_decide (li_labor_price_item_id l <> None) && opt_eqb (li_labor_source l) (Some "attested")) &&
  negb (bool_decide (li_estimated_man_hours l <> None) && bool_decide (li_labor_source l = None)) &&
  opt_all (fun ids => (length ids <=? 500)%nat) (li_time_entry_ids l).

(** A float field that is set and not zero. *)
Definition truthy_float (x : option float64) : bool :=
  match x with Some (FNum v) => negb (v =? 0) | Some _ => true | None => false end.

(** The request's own rules; a refusal is a 422. *)
Definition valid_create (p : InvoiceCreateIn) : bool :=
  let has {A} (x : option A) := match x with Some _ => true | None => false end in
  let some {A} (l : list A) := match l with [] => false | _ => true end in
  negb (has (ci_source_estimate_id p) && has (ci_estimate_id p)) &&
  negb (truthy_float (ci_discount p) && has (ci_estimate_id p)) &&
  negb (has (ci_source_estimate_id p) && negb (has (ci_job_id p))) &&
  negb (has (ci_estimate_id p) && some (ci_from_part_ids p)) &&
  negb (has (ci_estimate_id p) && negb (has (ci_job_id p))) &&
  negb (some (ci_from_part_ids p) && negb (has (ci_job_id p))) &&
  negb (some (ci_from_change_order_ids p) && negb (has (ci_job_id p))) &&
  negb (negb (has (ci_job_id p)) && existsb (fun l => has (li_part_id l)) (ci_line_items p)) &&
  negb (String.eqb (ci_billing_type p) "") && (String.length (ci_billing_type p) <=? 50)%nat &&
  opt_all (fun r => float_leb (FNum 0) r && float_leb r (float_of_int 1)) (ci_tax_rate p) &&
  float_between 100000000 (ci_tax_amount p) &&
  opt_all (float_between 99999999) (ci_discount p) &&
  forallb valid_line (ci_line_items p).

(** * The double-billing guard *)

(** [job_billed_exists]'s row, as [first_billing_real_invoice] spells it. *)
Definition bills_job (job : uuid) (i : Invoice) : bool :=
  opt_eqb (inv_job_id i) (Some job) && is_live i && negb (is_deposit i) &&
  (match inv_total i with
   | Some t => match dec_ltb (DFinite 0 0) t with Ok b => b | Err _ => false end
   | None => false
   end || negb (bool_decide (inv_status i = draft))).

Definition first_billing_real_invoice (job : uuid) (d : Db) : option Invoice :=
  head (stable_sort newest_first (List.filter (bills_job job) (op_invoices (db_ops d)))).

(** * The zero-price policy *)

Record CatalogPolicy : Type := mk_policy { block_zero_price_on_invoice : bool; warn_zero_price_on_invoice : bool }.

Definition block_or_warn_invoice_line (p : CatalogPolicy) (price : float64) : result (option string) :=
  if float_pos price then Ok None
  else if block_zero_price_on_invoice p then Err (HTTPException 422)
  else Ok (if warn_zero_price_on_invoice p then Some "zero-price line item — review before sending invoice" else None).

(** The warnings of the lines, or the refusal. *)
Definition price_warnings (p : CatalogPolicy) (lines : list (string * float64)) : result (list string) :=
  if existsb (fun l => float_nonpos (snd l)) lines then
    let! warns := rmap (fun l => let! w := block_or_warn_invoice_line p (snd l) in
                                 Ok (match w with
                                     | Some t => [t +:+ ": " +:+ str_strip (if String.eqb (fst l) "" then "line item" else fst l)]
                                     | None => []
                                     end)) lines in
    Ok (concat warns)
  else Ok [].

(** * Pricing lanes *)

Definition PRICING_SOURCES : list string :=
  ["line_override"; "customer_override"; "wholesale_tier"; "tier"; "labor_matrix"; "client_cost";
   "office"; "job_quote"; "inventory"; "catalog"; "catalog_cost"; "chi"; "chi_cost";
   "manual"; "estimate_copy"; "accepted_tier"; "tier_package"; "estimate_discount"; "operator_discount";
   "change_order"; "co_amount"; "labor_attested"; "part_row_legacy"; "deposit_schedule"; "deposit_credit"; "qb_import"].

Definition lane_of (l : InvoiceLine) : bool :=
  match il_pricing_source l with Some s => existsb (String.eqb s) PRICING_SOURCES | None => false end.

(** [db.add(build_invoice_line(...))]: an unknown lane raises. *)
Definition add_priced_line (l : InvoiceLine) : M Office unit :=
  if lane_of l then on_session (add_line l) else mraise ValueError.

Definition _hand_line_pricing_source (l : InvoiceLineCreateIn) : string :=
  if bool_decide (li_time_entry_ids l <> None) || bool_decide (li_closeout_id l <> None) ||
     opt_eqb (li_labor_source l) (Some "attested") then "labor_attested"
  else if match li_margin_pct_override l with Some _ => true | None => false end then "line_override"
  else if match li_cost l with Some _ => true | None => false end then "client_cost"
  else "manual".

Definition find_estimate (s : Sales) (id_ : uuid) : option Estimate :=
  List.find (fun e => N.eqb (est_id e) id_ && bool_decide (est_deleted_at e = None)) (sa_estimates s).

(** * The lines of an estimate *)

Definition estimate_line_before (a b : QuoteLine) : bool :=
  (ql_sort_order a <? ql_sort_order b) ||
  ((ql_sort_order a =? ql_sort_order b) &&
   ((dt_utc_wall (ql_created_at a) <? dt_utc_wall (ql_created_at b)) ||
    ((dt_utc_wall (ql_created_at a) =? dt_utc_wall (ql_created_at b)) && (ql_id a <=? ql_id b)%N))).

Definition tier_label (t : tier_name) : string :=
  match t with good => "Good" | better => "Better" | best => "Best" end.

(** A flat tier's single line. *)
Definition package_line (tier : ProposalTier) : QuoteLine :=
  let desc := tier_label (pt_tier_name tier) +:+ " package" in
  let desc := if truthy_str (pt_description tier) then desc +:+ " — " +:+ default "" (pt_description tier) else desc in
  mk_quote_line 0%N (pt_id tier) (String.substring 0 500 desc) None (Some 1) (pt_total_price tier) (pt_total_price tier) 1
    (mk_datetime 0 None) (Some "tier_package").

(** The lines the contract bills, and the lane of one that recorded none. *)
Definition contract_lines (s : Sales) (estimate : Estimate) : list QuoteLine * string :=
  match est_accepted_tier_id estimate ≫= find_tier s with
  | Some tier => (match tier_contract_lines s tier with [] => [package_line tier] | lines => lines end, "accepted_tier")
  | None => (stable_sort estimate_line_before (children (est_id estimate) (sa_estimate_lines s)), "estimate_copy")
  end.

Definition copied_line (invoice_id : uuid) (tax_labor : bool) (lane : string) (ln : QuoteLine) (unit total : decimal)
  : InvoiceLine :=
  mk_invoice_line invoice_id (Some (ql_description ln)) (Some total) (ql_category ln) None
    (tax_labor || negb (_is_labor_line (ql_category ln))) (DFinite (recorded_quantity (ql_quantity ln)) 0) unit
    (ql_sort_order ln) (Some (if truthy_str (ql_pricing_source ln) then default "" (ql_pricing_source ln) else lane)) None None.

Definition copy_line (invoice_id : uuid) (tax_labor : bool) (lane : string) (ln : QuoteLine) : M Office unit :=
  match zero_quantity_verdict (ql_quantity ln) (ql_line_total ln) with
  | Refuse => mraise (HTTPException 409)
  | Skip => mreturn tt
  | Bill =>
      unit <- mlift (_money (_dec (ql_unit_price ln))) ;;
      total <- mlift (_money (_dec (ql_line_total ln))) ;;
      add_priced_line (copied_line invoice_id tax_labor lane ln unit total)
  end.

Definition discount_line (invoice_id : uuid) (amount : decimal) (lane : string) (sort : Z) : InvoiceLine :=
  mk_invoice_line invoice_id (Some "Discount") (Some amount) (Some "discount") None true (DFinite 1 0) amount sort
    (Some lane) None None.

Definition last_sort (lines : list QuoteLine) : Z :=
  match map ql_sort_order lines with [] => 0 | x :: l => foldl Z.max x l end.

Definition copy_estimate (invoice_id : uuid) (estimate : Estimate) : M Office unit :=
  s <- mreads of_sales ;;
  let '(lines, lane) := contract_lines s estimate in
  mfor lines (copy_line invoice_id (_load_tax_labor_flag s) lane) ;;;
  let discount := _dec (est_discount estimate) in
  pos <- mlift (dec_ltb (DFinite 0 0) discount) ;;
  if pos : bool then
    amount <- mlift (_money (dec_neg discount)) ;;
    add_priced_line (discount_line invoice_id amount "estimate_discount" (last_sort lines + 1))
  else mreturn tt.

(** * Labor a line bills *)

Section Create.
Context `{W : World}.
Variable str_format : string -> labor_vars -> option string.

(** The day rows a labor line names, claimed or refused; how many. *)
Definition _claim_labor_day_rows (invoice_id : uuid) (job : option uuid) (ids : option (list uuid)) : M Office Z :=
  match ids with
  | None | Some [] => mreturn 0
  | Some ids =>
      if negb (bool_decide (NoDup ids)) then mraise (HTTPException 422)
      else
        eligible <- mreads (fun o => match job with
          | None => O
          | Some j => length (List.filter (fun t => existsb (N.eqb (tm_id t)) ids && opt_eqb (tm_job_id t) (Some j) &&
                                                    is_day_row t) (wk_time_entries (of_work o)))
          end) ;;
        if negb (Nat.eqb eligible (length ids)) then mraise (HTTPException 422)
        else
          claimed <- claim_day_rows invoice_id ids ;;
          if claimed =? Z.of_nat (length ids) then mreturn claimed else mraise (HTTPException 409)
  end.

(** The rows among [ids] the invoice now holds. *)
Definition rows_held (invoice_id : uuid) (ids : list uuid) (w : Work) : list (uuid * datetime * Z) :=
  map day_row (stable_sort day_row_before
    (List.filter (fun t => existsb (N.eqb (tm_id t)) ids && opt_eqb (tm_billed_invoice_id t) (Some invoice_id))
       (wk_time_entries w))).

(** A restatement's line must say the man-hours the suggestion builds now. *)
Definition _refuse_restated_line_off_the_suggestion (invoice_id job : uuid) (closeout : JobCloseout)
    (estimated_man_hours : option float64) (time_entry_ids : list uuid) : M Office unit :=
  match estimated_man_hours with
  | None => mraise (HTTPException 409)
  | Some stated =>
      lines <- (fun o =>
        (match find_job (of_sales o) job with
         | None => Err AttributeError
         | Some j => job_labor_lines str_format (of_db o) (of_work o) job (job_type j) (Some closeout) (Some invoice_id) true
                       (Some (rows_held invoice_id time_entry_ids (of_work o)))
         end, o)) ;;
      match List.find (fun l => match ll_carrier l with
                                | Some (_, c, _) => opt_eqb c (Some (jc_id closeout))
                                | None => false
                                end) lines ≫= ll_carrier with
      | None => mraise (HTTPException 409)
      | Some (_, _, built) =>
          diff <- mlift (dec_sub built (decimal_of_str stated)) ;;
          off <- mlift (dec_ltb (DFinite 1 (-2)) (dec_abs diff)) ;;
          if off : bool then mraise (HTTPException 409) else mreturn tt
      end
  end.

(** The closeout a labor line names, claimed or refused. *)
Definition _claim_labor_closeout (invoice_id : uuid) (job : option uuid) (closeout_id : option uuid)
    (estimated_man_hours : option float64) (time_entry_ids : option (list uuid)) : M Office bool :=
  match closeout_id with
  | None => mreturn false
  | Some named =>
      current <- (fun o => (match job with Some j => get_current_closeout j (of_work o) | None => Ok None end, o)) ;;
      match current, job with
      | Some closeout, Some j =>
          if negb (N.eqb (jc_id closeout) named) then mraise (HTTPException 409)
          else
            to_bill <- (fun o => (closeout_man_hours_to_bill (of_db o) (of_work o) closeout, o)) ;;
            some <- mlift (dec_ltb (DFinite 0 0) to_bill) ;;
            if negb some then mraise (HTTPException 409)
            else
              before <- (fun o => (closeout_hours_billed_before (of_db o) (of_work o) closeout, o)) ;;
              netted <- mlift (dec_ltb (DFinite 0 0) before) ;;
              (if netted || opt_eqb (jc_is_restatement closeout) (Some true)
               then _refuse_restated_line_off_the_suggestion invoice_id j closeout estimated_man_hours
                      (default [] time_entry_ids)
               else mreturn tt) ;;;
              holder <- mreads (fun o => closeout_hours_holder (of_db o) (of_work o) (jc_id closeout)) ;;
              match holder with
              | Some _ => mraise (HTTPException 409)
              | None =>
                  claimed <- claim_closeout_hours invoice_id closeout ;;
                  if claimed : bool then mreturn true else mraise (HTTPException 409)
              end
      | _, _ => mraise (HTTPException 409)
      end
  end.

(** * The lines of the request *)

Definition hand_total (l : InvoiceLineCreateIn) : result decimal :=
  let! unit := _money_float (li_unit_price l) in
  let! product := dec_mul unit (li_quantity l) in
  _money product.

Definition hand_line (invoice_id : uuid) (l : InvoiceLineCreateIn) (unit total : decimal) (sort : Z) : InvoiceLine :=
  mk_invoice_line invoice_id (Some (str_strip (li_description l))) (Some total) (li_category l) None (li_taxable l)
    (li_quantity l) unit sort (Some (_hand_line_pricing_source l)) None (li_part_id l).

Definition add_hand_line (invoice_id : uuid) (job : option uuid) (sort : Z) (l : InvoiceLineCreateIn) : M Office Z :=
  unit <- mlift (_money_float (li_unit_price l)) ;;
  total <- mlift (hand_total l) ;;
  add_priced_line (hand_line invoice_id l unit total sort) ;;;
  _claim_labor_day_rows invoice_id job (li_time_entry_ids l) ;;;
  _claim_labor_closeout invoice_id job (li_closeout_id l) (li_estimated_man_hours l) (li_time_entry_ids l) ;;;
  mreturn (sort + 1).

(** An operator's discount, at most the goods. *)
Definition add_operator_discount (invoice_id : uuid) (p : InvoiceCreateIn) : M Office unit :=
  match ci_discount p, ci_estimate_id p with
  | Some d, None =>
      if float_pos d then
        let discount := decimal_of_str d in
        totals <- mlift (rmap hand_total (ci_line_items p)) ;;
        goods <- mlift (dec_sum totals) ;;
        over <- mlift (dec_ltb goods discount) ;;
        if over : bool then mraise (HTTPException 422)
        else
          amount <- mlift (_money (dec_neg discount)) ;;
          add_priced_line (discount_line invoice_id amount "operator_discount" (Z.of_nat (length (ci_line_items p)) + 1))
      else mreturn tt
  | _, _ => mreturn tt
  end.

(** * Change orders *)

Definition with_co_holder (h : option uuid) (c : ChangeOrder) : ChangeOrder :=
  mk_change_order (co_id c) (co_number c) (co_job_id c) (co_customer_id c) (co_title c) (co_status c) (co_amount c)
    (co_created_at c) (co_deleted_at c) h.

Definition billable_co (p : InvoiceCreateIn) (c : ChangeOrder) : bool :=
  existsb (N.eqb (co_id c)) (ci_from_change_order_ids p) && bool_decide (ci_job_id p <> None) &&
  bool_decide (co_job_id c = ci_job_id p) &&
  (bool_decide (co_customer_id c = None) || opt_eqb (co_customer_id c) (Some (ci_customer_id p))) &&
  String.eqb (co_status c) "approved" && bool_decide (co_billed_invoice_id c = None) &&
  bool_decide (co_deleted_at c = None).

Definition co_before (a b : ChangeOrder) : bool := dt_utc_wall (co_created_at a) <=? dt_utc_wall (co_created_at b).

(** [ORDER BY created_at, line id] of the stamped orders' lines. *)
Definition co_line_before (a b : ChangeOrder * ChangeOrderLine) : bool :=
  let wa := dt_utc_wall (co_created_at (fst a)) in
  let wb := dt_utc_wall (co_created_at (fst b)) in
  (wa <? wb) || ((wa =? wb) && (cl_id (snd a) <=? cl_id (snd b))%N).

Definition co_rows (stamped : list ChangeOrder) (w : Work) : list (ChangeOrder * ChangeOrderLine) :=
  stable_sort co_line_before
    (flat_map (fun c => map (pair c) (List.filter (fun l => N.eqb (cl_co_id l) (co_id c)) (wk_co_lines w))) stamped).

Definition co_line (invoice_id : uuid) (c : ChangeOrder) (l : ChangeOrderLine) (unit total : decimal) (sort : Z)
  : InvoiceLine :=
  mk_invoice_line invoice_id (Some (String.substring 0 500 (co_number c +:+ ": " +:+ cl_description l))) (Some total) None
    None (cl_taxable l) (DFinite (recorded_quantity (cl_qty l)) 0) unit sort (Some "change_order") None None.

Definition co_amount_line (invoice_id : uuid) (c : ChangeOrder) (amount : decimal) (sort : Z) : InvoiceLine :=
  mk_invoice_line invoice_id (Some (String.substring 0 500 (co_number c +:+ ": " +:+ co_title c))) (Some amount) None None
    true (DFinite 1 0) amount sort (Some "co_amount") None None.

(** The offset of the last row and the orders that got a line. *)
Definition copy_co_line (invoice_id : uuid) (base : Z) (acc : Z * list uuid) (row : ChangeOrder * ChangeOrderLine)
  : M Office (Z * list uuid) :=
  let '(c, l) := row in
  let offset := fst acc + 1 in
  match zero_quantity_verdict (cl_qty l) (cl_line_total l) with
  | Refuse => mraise (HTTPException 409)
  | Skip => mreturn (offset, snd acc)
  | Bill =>
      unit <- mlift (_money (cl_unit_price l)) ;;
      total <- mlift (_money (_dec (cl_line_total l))) ;;
      add_priced_line (co_line invoice_id c l unit total (base + offset)) ;;;
      mreturn (offset, co_id c :: snd acc)
  end.

Definition bill_lineless (invoice_id : uuid) (base : Z) (seen : list uuid) (offset : Z) (c : ChangeOrder) : M Office Z :=
  if float_nonpos (_to_float (co_amount c)) then
    if existsb (N.eqb (co_id c)) seen then mreturn offset else mraise (HTTPException 409)
  else
    amount <- mlift (_money (_dec (co_amount c))) ;;
    add_priced_line (co_amount_line invoice_id c amount (base + (offset + 1))) ;;;
    mreturn (offset + 1).

(** The stamp gates the copy.  [base] is the largest [sort_order] flushed so
    far, which orders the display only. *)
Definition bill_change_orders (invoice_id : uuid) (base : Z) (p : InvoiceCreateIn) : M Office unit :=
  match ci_from_change_order_ids p with
  | [] => mreturn tt
  | ids =>
      stamped <- mreads (fun o => List.filter (billable_co p) (wk_change_orders (of_work o))) ;;
      mwrite (set_work (set_change_orders (update_where (billable_co p) (with_co_holder (Some invoice_id))))) ;;;
      if negb (forallb (fun i => existsb (fun c => N.eqb (co_id c) i) stamped) ids) then mraise (HTTPException 409)
      else
        rows <- mreads (fun o => co_rows stamped (of_work o)) ;;
        copied <- mfold (copy_co_line invoice_id base) (0, []) rows ;;
        let lineless := stable_sort co_before
                          (List.filter (fun c => negb (existsb (N.eqb (co_id c)) (snd copied))) stamped) in
        mfold (bill_lineless invoice_id base (map (fun r => co_id (fst r)) rows)) (fst copied) lineless ;;;
        mreturn tt
  end.

(** * Parts *)

Definition requested_parts (p : InvoiceCreateIn) : list uuid :=
  match omap li_part_id (ci_line_items p) with [] => ci_from_part_ids p | ids => ids end.

Definition claimable_part (ids : list uuid) (job : option uuid) (p : JobPartNeeded) : bool :=
  existsb (N.eqb (jp_id p)) ids && opt_eqb job (Some (jp_job_id p)) && bool_decide (jp_billed_invoice_id p = None).

Definition claim_parts (invoice_id : uuid) (p : InvoiceCreateIn) : M Office unit :=
  match requested_parts p with
  | [] => mreturn tt
  | ids =>
      stamped <- mreads (fun o => List.filter (claimable_part ids (ci_job_id p)) (wk_parts (of_work o))) ;;
      mwrite (set_work (set_parts (update_where (claimable_part ids (ci_job_id p)) (with_part_holder (Some invoice_id))))) ;;;
      if forallb (fun i => existsb (fun q => N.eqb (jp_id q) i) stamped) ids then mreturn tt
      else mraise (HTTPException 409)
  end.

(** * Creating the invoice *)

Definition found_estimate (p : InvoiceCreateIn) (s : Sales) : result (option Estimate) :=
  match ci_estimate_id p with
  | None => Ok None
  | Some eid =>
      match find_estimate s eid with
      | None => Err (HTTPException 404)
      | Some e => if negb (bool_decide (est_job_id e = ci_job_id p)) then Err (HTTPException 404)
                  else if negb (bool_decide (est_status e = EAccepted)) then Err (HTTPException 409)
                  else Ok (Some e)
      end
  end.

Definition found_source (p : InvoiceCreateIn) (s : Sales) : result (option Estimate) :=
  match ci_source_estimate_id p with
  | None => Ok None
  | Some eid =>
      match find_estimate s eid with
      | None => Err (HTTPException 404)
      | Some e => if bool_decide (ci_job_id p <> None) && negb (bool_decide (est_job_id e = ci_job_id p))
                  then Err (HTTPException 422) else Ok (Some e)
      end
  end.

(** The rate the row is born with: the caller's; else the lane's, the
    exemption's, the quote's or the default; none where that answers 0
    without a quote or cannot be read. *)
Definition resolved_rate (p : InvoiceCreateIn) (job_type : option string) (quoted : option decimal) (s : Sales) (d : Db)
  : option decimal :=
  match ci_tax_rate p with
  | Some r => Some (decimal_of_str r)
  | None =>
      let failed := if is_install_lane job_type then Some (DFinite 0 0) else None in
      match resolve_rate_for_job s d (Some (ci_customer_id p)) job_type quoted with
      | Err _ => failed
      | Ok candidate =>
          match dec_ltb (DFinite 0 0) candidate with
          | Err _ => failed
          | Ok pos => if pos || is_install_lane job_type || bool_decide (quoted <> None) then Some candidate else None
          end
      end
  end.

(** [subtotal_value] *)
Definition first_subtotal (p : InvoiceCreateIn) (estimate : option Estimate) : result float64 :=
  match estimate with
  | Some e => Ok (_to_float (est_total e))
  | None => let! totals := rmap hand_total (ci_line_items p) in
            Ok (foldl (fun acc t => float_add acc (float_of_decimal t)) (FNum 0) totals)
  end.

Definition policy_lines (p : InvoiceCreateIn) (estimate : option Estimate) (s : Sales) : list (string * float64) :=
  match estimate with
  | Some e => map (fun l => (ql_description l, _to_float (ql_unit_price l))) (children (est_id e) (sa_estimate_lines s))
  | None => map (fun l => (str_strip (li_description l), li_unit_price l)) (ci_line_items p)
  end.

(** What the checks leave for the write. *)
Record prepared : Type := mk_prepared {
  pr_estimate : option Estimate;
  pr_row : uuid -> Invoice;
  pr_warnings : list string
}.

Definition new_row (p : InvoiceCreateIn) (tenant_id number : string) (rate : option decimal)
    (subtotal total tax : decimal) (dated : date) (now : Z) (id_ : uuid) : Invoice :=
  mk_invoice id_ number draft (Some total) (Some tax) (Some total) (ci_job_id p) (Some (ci_customer_id p)) tenant_id
    (Some dated) None (Some (mk_datetime now (Some 0))) None (Some subtotal) rate false None (ci_billing_type p)
    (ci_estimate_id p) None None false.

Definition find_live_job (s : Sales) (id_ : uuid) : option Job :=
  List.find (fun j => N.eqb (job_id j) id_ && bool_decide (job_deleted_at j = None)) (sa_jobs s).

(** Everything the handler checks before it writes. *)
Definition prepare (policy : CatalogPolicy) (tenant_id fallback : string) (p : InvoiceCreateIn) (s : Sales) (d : Db)
  : result prepared :=
  let! job := match ci_job_id p with
              | None => Ok None
              | Some j => match find_live_job s j with Some job => Ok (Some job) | None => Err (HTTPException 404) end
              end in
  let billed := match job with
                | Some j => negb (String.eqb (ci_billing_type p) "deposit") && negb (ci_force p) &&
                            bool_decide (first_billing_real_invoice (job_id j) d <> None)
                | None => false
                end in
  if billed then Err (HTTPException 409)
  else
    let! estimate := found_estimate p s in
    let! source := found_source p s in
    let today := shop_today_from_settings d in
    if match ci_invoice_date p with Some x => today <? x | None => false end then Err (HTTPException 422)
    else
      let! subtotal_value := first_subtotal p estimate in
      let quoted := (match estimate with Some e => Some e | None => source end) ≫= est_tax_rate in
      let rate := resolved_rate p (job ≫= job_type) quoted s d in
      let! given_tax := _money_float (ci_tax_amount p) in
      let! taxed := match rate with Some r => dec_ltb (DFinite 0 0) r | None => Ok false end in
      let initial_tax := if taxed : bool then DFinite 0 0 else given_tax in
      let! warnings := price_warnings policy (policy_lines p estimate s) in
      let! subtotal := _money_float subtotal_value in
      let! sum := dec_add (decimal_of_str subtotal_value) initial_tax in
      let! total := _money sum in
      Ok (mk_prepared estimate
            (new_row p tenant_id (next_invoice_number fallback d) rate subtotal total initial_tax
               (default today (ci_invoice_date p)) (op_now (db_ops d))) warnings).

(** [db.rollback()]: sales and work tables as the transaction found them. *)
Definition atomically {A} (m : M Office A) : M Office A := fun o =>
  match m o with
  | (Ok a, o') => (Ok a, o')
  | (Err e, o') => (Err e, mk_office (rollback (of_session o) (of_session o')) (of_sales o) (of_work o))
  end.

Definition write_lines (id_ : uuid) (base : Z) (p : InvoiceCreateIn) (estimate : option Estimate) : M Office unit :=
  match estimate with
  | Some e => copy_estimate id_ e
  | None => mfold (add_hand_line id_ (ci_job_id p)) 1 (ci_line_items p) ;;; mreturn tt
  end ;;;
  add_operator_discount id_ p ;;;
  bill_change_orders id_ base p ;;;
  claim_parts id_ p.

(** [db.commit()] of a transaction that wrote several invoices. *)
Definition commit_invoices (ids : list uuid) : M Session unit := fun s => (_check true ids (se_db s), s).

Definition finish_invoice (id_ : uuid) (p : InvoiceCreateIn) (invoice : Invoice) (actor : string) : M Session netting :=
  deposits <- on_db (mreads (deposits_for invoice)) ;;
  netted <- (if negb (String.eqb (ci_billing_type p) "deposit") &&
                (bool_decide (ci_job_id p <> None) || bool_decide (ci_estimate_id p <> None))
             then apply_deposits_to_final id_ actor else mreturn NothingToDo) ;;
  _recalculate_invoice id_ (Some actor) ;;;
  commit_invoices (id_ :: map inv_id deposits) ;;;
  mreturn netted.

Definition write_invoice_rows (base : Z) (fallback actor : string) (p : InvoiceCreateIn) (x : prepared)
  : M Office (Invoice * netting * list string) :=
  id_ <- on_session (on_db fresh_uuid) ;;
  flushed <- on_session (flush_invoice_with_number_retry [] fallback (pr_row x id_) (fun _ => None)) ;;
  match flushed with
  | inl _ => mraise RuntimeError
  | inr invoice =>
      write_lines id_ base p (pr_estimate x) ;;;
      netted <- on_session (finish_invoice id_ p invoice actor) ;;
      invoice <- on_session (reread id_ invoice) ;;
      mreturn (invoice, netted, pr_warnings x)
  end.

Definition create_invoice (policy : CatalogPolicy) (races : list Invoice) (base : Z) (tenant_id fallback actor : string)
    (p : InvoiceCreateIn) : M Office (Invoice * netting * list string) :=
  if negb (valid_create p) then mraise (HTTPException 422)
  else
    x <- (fun o => (prepare policy tenant_id fallback p (of_sales o) (of_db o), o)) ;;
    on_session (mwrite (set_db (set_ops (set_invoices (fun l => l ++ races))))) ;;;
    atomically (write_invoice_rows base fallback actor p x).
End Create.
