(* ===== verification/MoneySpec.v ===== *)
(** What the money routes do to an invoice, to the cent: recording a payment
    ([record_payment]), voiding it ([void_payment]), and the two in a row. *)

From S2P Require Import Prelude PyStr Dates Money PyNum Models PayPeriods Keys Coa Engine EngineInv EngineSpec Service RulesBase Opening Issuance Payments Adjustments RulesSafe RulesSpec Chokepoint InvoiceTotals InvoiceGuard MoneyRoutes.

Local Open Scope Z_scope.

(** * The remaining receivable *)

Lemma half_cent_near : exists h, half_cent = FNum h /\ 0 < h /\ near h 1 (2 ^ 19 + 100).
Proof.
  unfold half_cent. cbn [float_of_decimal]. change (5 * 10 ^ Z.max 0 (-3)) with 5. change (10 ^ Z.max 0 (- -3)) with 1000.
  destruct (float_of_ratio_close 5 1000 0) as (h & -> & Hh); [lia|lia|lia|]. exists h. split; [done|].
  pose proof least_pos. unfold near. change (2 ^ 54) with 18014398509481984 in Hh. change (2 ^ 20) with 1048576.
  change (2 ^ 19) with 524288. rewrite Z.mul_1_r in Hh. lia.
Qed.

(** The remaining receivable, to the cent. *)
Lemma remaining_exact i d sm t : invoice_sums (inv_id i) d = Some sm -> money_col (inv_total i) = Some t ->
  _remaining_receivable i d = float_of_ratio (t - s_credited sm - s_paid sm) 100 /\
  Z.abs (t - s_credited sm - s_paid sm) < 3 * 10 ^ 12.
Proof.
  intros Hsm Ht. destruct (invoice_sums_spec _ _ _ Hsm) as (_ & _ & HP & HC & _ & _).
  apply money_col_worth in Ht. unfold _remaining_receivable.
  destruct (to_float_worth _ _ Ht) as (vt & -> & Nt). destruct (to_float_worth _ _ HC) as (vc & -> & Nc).
  destruct (to_float_worth _ _ HP) as (vp & -> & Np). destruct Ht as [_ Ht], HP as [_ HP], HC as [_ HC].
  destruct (float_sub_near _ _ _ _ _ _ Nt Nc) as (v1 & -> & N1); [lia|lia|].
  destruct (float_sub_near _ _ _ _ _ _ N1 Np) as (v2 & -> & N2); [lia|lia|].
  split; [by apply (float_round2_near v2 _ (100 + 100 + 800 + 100 + 800))|lia].
Qed.

(** A receivable that passes the half-cent test is at least a cent. *)
Lemma remaining_positive z : Z.abs z <= 10 ^ 13 -> float_leb (float_of_ratio z 100) half_cent = false -> 0 < z.
Proof.
  intros Hz. destruct (float_cents_wide z Hz) as (v & -> & Hn). destruct half_cent_near as (h & -> & Hh & Hh1).
  cbn [float_leb float_gtb]. rewrite negb_false_iff, Z.ltb_lt. intros Hv.
  destruct (Z.lt_trichotomy z 0) as [Hneg|[->|]]; [|exfalso|done].
  - apply near_sign in Hn as [_ Hn]; [|lia]. specialize (Hn Hneg). lia.
  - unfold near in *. pose proof least_pos. change (2 ^ 20) with 1048576 in *. change (2 ^ 19) with 524288 in *. lia.
Qed.

(** * The rows of one more, or one less, payment *)

Definition add_paid (c : Z) (sm : sums) : sums :=
  {| s_lines := s_lines sm; s_taxable := s_taxable sm; s_paid := s_paid sm + c; s_credited := s_credited sm |}.

Lemma add_paid_twice a b sm : add_paid a (add_paid b sm) = add_paid (b + a) sm.
Proof. unfold add_paid. cbn. f_equal. lia. Qed.

Lemma add_paid_0 sm : add_paid 0 sm = sm.
Proof. destruct sm. unfold add_paid. cbn. f_equal. lia. Qed.

(** The live payments of an invoice. *)
Definition live_on (id_ : uuid) (p : Payment) : bool := N.eqb (pay_invoice_id p) id_ && negb (is_voided p).

(** Replacing the payments of a database whose other rows stay. *)
Lemma invoice_sums_repaid id_ d d' sm pc' c :
  invoice_sums id_ d = Some sm ->
  op_invoice_lines (db_ops d') = op_invoice_lines (db_ops d) -> op_adjustments (db_ops d') = op_adjustments (db_ops d) ->
  cents_col pay_amount (List.filter (live_on id_) (op_payments (db_ops d'))) = Some pc' ->
  (forall pc, cents_col pay_amount (List.filter (live_on id_) (op_payments (db_ops d))) = Some pc -> zsum pc' = zsum pc + c) ->
  fits (s_paid sm + c) = true -> invoice_sums id_ d' = Some (add_paid c sm).
Proof.
  rewrite !invoice_sums_rows. intros (lc & tc & pc & cc & [E1 E2 E3 E4] & -> & H0 & H1 & H2 & H3 & H4) Hl Ha Hp Hc Hf%Z.ltb_lt.
  specialize (Hc pc E3). cbn [s_paid] in Hf.
  assert (Hal : active_lines id_ d' = active_lines id_ d) by (unfold active_lines; by rewrite Hl).
  exists lc, tc, pc', cc. rewrite Hal. split_and!; try done; [|unfold add_paid; cbn; by rewrite Hc|by rewrite Hc].
  split; rewrite ?Hal, ?Ha; done.
Qed.

Lemma invoice_sums_payment p s sm c :
  invoice_sums (pay_invoice_id p) (se_db s) = Some sm -> is_voided p = false -> money_col (pay_amount p) = Some c ->
  fits (s_paid sm + c) = true ->
  invoice_sums (pay_invoice_id p) (se_db (with_payment [] p s)) = Some (add_paid c sm).
Proof.
  intros Hsm Hv Hc Hf. pose proof Hsm as (lc & tc & pc & cc & [_ _ E3 _] & _)%invoice_sums_rows.
  apply (invoice_sums_repaid _ (se_db s) _ _ (pc ++ [c])); try done.
  - cbn. rewrite app_nil_r, List.filter_app. apply cents_col_app. exists pc, [c]. split_and!; [done|exact E3|].
    unfold live_on. cbn [List.filter]. rewrite N.eqb_refl, Hv. cbn [negb andb]. apply cents_col_one. eauto.
  - intros pc' E. assert (pc' = pc) as -> by (unfold live_on in E; congruence). rewrite zsum_app. cbn. lia.
Qed.

(** The totals once more, with the paid sum changed. *)
Lemma due_totals_balance i sm sub tax total bal : due_totals i sm = Some (sub, tax, total, bal) ->
  inv_status i <> void -> bal = Z.max (total - s_paid sm - s_credited sm) 0.
Proof.
  unfold due_totals. intros H Hv.
  match type of H with (?m ≫= _) = _ => destruct m as [tax'|]; [cbn in H|done] end.
  match type of H with (?m ≫= _) = _ => destruct m as [[sub' total']|]; [cbn in H|done] end.
  destruct (_ && _ && _); [|done]. injection H as _ _ <- <-. by rewrite bool_decide_eq_false_2.
Qed.

(** * Recording *)

Section Recording.
Context `{W : World}.

Lemma record_payment_Ok races id_ payload actor s p s' : record_payment races id_ payload actor s = (Ok p, s') ->
  exists a, acceptable id_ payload s a /\ book_payment races id_ a actor s = (Ok p, s').
Proof.
  unfold record_payment. destruct (valid_payment payload); [|done]. unfold request.
  destruct (mseq _ _ s) as [[x|e] s1] eqn:E; [|done]. intros [= -> ->].
  apply mseq_Ok in E as (a & s2 & Ha & Hb). apply accept_payment_Ok in Ha as [-> Ha]. eauto.
Qed.

(** What [pay_remaining] books. *)
Lemma remaining_booked id_ payload s a i sm t c :
  acceptable id_ payload s a -> pi_pay_remaining payload = true ->
  get_invoice id_ (se_db s) = Some i -> invoice_sums id_ (se_db s) = Some sm -> money_col (inv_total i) = Some t ->
  money_col (Some (ac_money a)) = Some c -> 0 < c /\ c = t - s_credited sm - s_paid sm.
Proof.
  intros [Hi _ _ _ (f & Hm & Hf) _ _ _] Hr Hi' Hsm Ht Hc. rewrite Hi in Hi'. injection Hi' as <-.
  rewrite Hr in Hf. destruct Hf as [-> Hpos].
  pose proof (get_invoice_id _ _ _ Hi) as Hid. rewrite <- Hid in Hsm.
  destruct (remaining_exact (ac_invoice a) (se_db s) sm t Hsm Ht) as [E Hz]. rewrite E in *.
  set (z := t - s_credited sm - s_paid sm) in *. clearbody z.
  assert (0 < z) by (apply remaining_positive; [lia|done]).
  destruct (float_cents_wide z) as (v & Ev & Hn); [lia|]. rewrite Ev in Hm.
  assert (Hq : _money_float (FNum v) = Ok (DFinite z (-2))) by (eapply quantize_float_near; [..|exact Hn]; lia).
  rewrite Hq in Hm. injection Hm as Hm. rewrite <- Hm in Hc. apply money_col_Some in Hc as [[= <-] _]. done.
Qed.

Lemma recorded_row id_ payload actor s p s' i sm c sub tax total bal :
  record_payment [] id_ payload actor s = (Ok p, s') ->
  get_invoice id_ (se_db s) = Some i -> invoice_sums id_ (se_db s) = Some sm ->
  money_col (pay_amount p) = Some c -> fits (s_paid sm + c) = true ->
  due_totals i (add_paid c sm) = Some (sub, tax, total, bal) ->
  let row := after_recalc sub tax total bal (mk_datetime (op_now (db_ops (se_db s))) (Some 0)) i in
  inv_status i <> void /\
  exists t, get_invoice id_ (se_db s') = Some (with_paid_at t row) /\
    (inv_paid_at i <> None -> t = inv_paid_at i) /\ (inv_paid_at row = None -> t = None) /\
    (inv_paid_at row <> None -> t <> None).
Proof.
  intros H Hi Hsm Hc Hf Hdue row. apply record_payment_Ok in H as (a & Hacc & Hb).
  destruct (book_payment_Ok [] id_ a actor s p s' Hb) as (Hp & _ & _ & s2 & Hrec & _ & _ & Hrow).
  destruct Hacc as [Hi' _ Hv _ _ _ _ _]. rewrite Hi in Hi'. injection Hi' as ->.
  split; [done|].
  assert (Hid : pay_invoice_id p = id_) by (by rewrite Hp).
  assert (Hsm' : invoice_sums id_ (se_db (with_payment [] p s)) = Some (add_paid c sm)).
  { rewrite <- Hid in Hsm |- *. by apply invoice_sums_payment; [|rewrite Hp|..]. }
  assert (Hnow : op_now (db_ops (se_db (with_payment [] p s))) = op_now (db_ops (se_db s))) by done.
  pose proof (recalculate_row id_ (Some actor) (with_payment [] p s) s2 _ _ sub tax total bal Hi Hsm' Hdue Hrec) as Hr2.
  rewrite Hnow in Hr2. fold row in Hr2. destruct (Hrow row Hr2) as (t & Ht & H1 & H2 & H3).
  exists t. split_and!; try done. intros Hn. rewrite (H2 Hn). unfold row, after_recalc.
  destruct (_ && _ && _); [|done]. cbn. by destruct (inv_paid_at (ac_invoice a)).
Qed.

End Recording.

(** C28: A recorded payment moves the invoice by exactly its amount.  After an
    accepted payment of [c] cents the stored balance is the total less
    credits, earlier payments and [c], never below zero; the invoice is paid
    exactly when nothing is left of a positive total; an earlier settlement
    date is kept, and one is set exactly when the payment settles.  A payment
    of the remaining balance is at least a cent, leaves exactly zero and
    settles the invoice. *)
Theorem record_payment_exact `{W : World} id_ payload actor s p s' i sm c sub tax total bal
    (Hrun : record_payment [] id_ payload actor s = (Ok p, s'))
    (Hi : get_invoice id_ (se_db s) = Some i) (Hsm : invoice_sums id_ (se_db s) = Some sm)
    (Hc : money_col (pay_amount p) = Some c) (Hf : fits (s_paid sm + c) = true)
    (Hdue : due_totals i (add_paid c sm) = Some (sub, tax, total, bal)) :
  (exists i', get_invoice id_ (se_db s') = Some i' /\
     inv_total i' = Some (cents total) /\ inv_balance_due i' = Some (cents bal) /\
     bal = Z.max (total - s_credited sm - s_paid sm - c) 0 /\
     inv_status i' = (if (bal <=? 0) && (0 <? total) then paid else inv_status i) /\
     (inv_paid_at i <> None -> inv_paid_at i' = inv_paid_at i) /\
     (inv_paid_at i = None -> inv_paid_at i' <> None <-> bal = 0 /\ 0 < total)) /\
  (pi_pay_remaining payload = true -> money_col (inv_total i) = Some total ->
     0 < c /\ c = total - s_credited sm - s_paid sm /\ bal = 0).
Proof.
  destruct (recorded_row id_ payload actor s p s' i sm c sub tax total bal Hrun Hi Hsm Hc Hf Hdue)
    as (Hv & t & Hrow & H1 & H2 & H3).
  pose proof (due_totals_balance i _ _ _ _ _ Hdue Hv) as Hbal. cbn [s_paid s_credited add_paid] in Hbal.
  split.
  - eexists. split; [exact Hrow|]. cbn [with_paid_at inv_total inv_balance_due inv_status inv_paid_at].
    unfold after_recalc in *. rewrite bool_decide_eq_false_2 in * by done. cbn [negb andb] in *.
    destruct (Z.leb_spec bal 0), (Z.ltb_spec 0 total); cbn [andb] in *; cbn in H2, H3 |- *;
      (split_and!; try done; [lia|]); intros Hn; rewrite Hn in *; (split; [intros Ht|intros []]);
      try (exfalso; lia); try (by destruct (Ht (H2 eq_refl))); try lia; by apply H3.
  - intros Hr Htot. apply record_payment_Ok in Hrun as (a & Hacc & Hb).
    destruct (book_payment_Ok [] id_ a actor s p s' Hb) as (Hp & _).
    destruct (remaining_booked id_ payload s a i sm total c) as [E1 E2]; try done; [by rewrite Hp in Hc|].
    split_and!; [done|done|lia].
Qed.

(** * Voiding *)

Definition with_voided (p' : Payment) (s : Session) : Session :=
  set_db (set_ops (set_payments (update_where (fun q => N.eqb (pay_id q) (pay_id p')) (fun _ => p')))) s.

Section Voiding.
Context `{W : World}.

Lemma void_attempt_Ok reason actor p fb post s r s' : void_attempt true reason actor p fb post s = (Ok r, s') ->
  sops (with_voided (with_void (Some (mk_datetime (op_now (db_ops (se_db s))) (Some 0))) (void_reason reason) p) s) s'.
Proof.
  unfold void_attempt. cbn [negb andb]. intros H. apply mseq_Ok in H as (x & s1 & H1 & H).
  unfold mwrite in H1. injection H1 as _ <-. rewrite bind_reads in H.
  destruct (get_invoice _ _) as [i|]; [|by injection H as _ <-].
  destruct post; [|by injection H as _ <-]. apply mseq_Ok in H as (y & s2 & H1 & H). injection H as _ <-.
  match type of H1 with _ ?x = _ => assert (sops x (snd (on_db (resettle_invoice_payments i (Some actor) fb) x))) as Hk end.
  { apply on_db_sops, resettle_keeps, _. }
  by rewrite H1 in Hk.
Qed.

Lemma catch_raise_Ok {A} (m : M Session A) e e' s a s' :
  mcatch m e (mraise e') s = (Ok a, s') -> m s = (Ok a, s').
Proof. unfold mcatch. destruct (m s) as [[b|x] s1]; [done|]. by case_decide. Qed.

Lemma void_payment_Ok id_ pid actor s q s' : void_payment id_ pid actor s = (Ok q, s') ->
  exists i p, get_invoice id_ (se_db s) = Some i /\ inv_deleted_at i = None /\
    get_payment pid (se_db s) = Some p /\ pay_invoice_id p = id_ /\
    (is_voided p = true /\ s' = s \/
     is_voided p = false /\ exists p' s1 s2 b,
       p' = with_void (Some (mk_datetime (op_now (db_ops (se_db s))) (Some 0))) (Some "office_void") p /\
       sops (with_voided p' s) s1 /\
       _recalculate_invoice id_ (Some actor) s1 = (Ok tt, s2) /\
       reopen_if_owing id_ i actor s2 = (Ok b, s')).
Proof.
  unfold void_payment, request. destruct (mseq _ _ s) as [[x|e] s0] eqn:H; [|done]. intros [= -> ->].
  apply mseq_Ok in H as (i & s1 & H1 & H). apply get_or_404_Ok in H1 as (-> & Hi & Hd). rewrite bind_reads in H.
  destruct (get_payment pid (se_db s)) as [p|] eqn:Hp; [|done].
  destruct (N.eqb_spec (pay_invoice_id p) (inv_id i)) as [E|]; [cbn [negb] in H|done].
  rewrite (get_invoice_id _ _ _ Hi) in E. exists i, p. split_and!; try done.
  destruct (is_voided p) eqn:Ev; [left; by injection H as _ <-|]. right. split; [done|].
  apply mseq_Ok in H as ([] & s2 & H1 & H). apply catch_raise_Ok in H1.
  apply mseq_Ok in H1 as (r & s3 & H1 & H2). injection H2 as <-. apply catch_raise_Ok, void_attempt_Ok in H1.
  apply mseq_Ok in H as ([] & s4 & H2 & H). apply mseq_Ok in H as (b & s5 & H3 & H).
  apply mseq_Ok in H as ([] & s6 & H4 & H). injection H4 as _ <-. rewrite bind_reads in H. injection H as _ <-.
  eexists _, s3, s4, b. split; [reflexivity|]. by split_and!.
Qed.

(** A reopened invoice. *)
Definition reopened (i : Invoice) : Invoice :=
  if bool_decide (inv_status i = paid) && float_pos (_to_float (inv_balance_due i))
  then with_paid_at None (with_status sent i) else i.

Lemma reopen_row id_ i0 actor s b s' i : reopen_if_owing id_ i0 actor s = (Ok b, s') ->
  get_invoice id_ (se_db s) = Some i ->
  get_invoice id_ (se_db s') = Some (reopened i) /\ other_rows (se_db s') = other_rows (se_db s).
Proof.
  unfold reopen_if_owing, reread, reopened. rewrite bind_reads. intros H Hi. rewrite Hi in H. cbn [default] in H.
  unfold id in H. destruct (bool_decide (inv_status i = paid)) eqn:E1; cbn [andb] in *; [|by injection H as _ <-].
  destruct (float_pos _); [|by injection H as _ <-]. apply bool_decide_eq_true in E1.
  apply mseq_Ok in H as (old & s1 & H1 & H). apply mseq_Ok in H as (x & s2 & H2 & H). injection H as _ <-.
  unfold mwrite in H2. injection H2 as _ <-.
  destruct (transition_row id_ sent (Some actor) s i Hi) as (Hr & Ho & _); [by rewrite E1|]. rewrite H1 in Hr, Ho.
  split; [|exact Ho]. by apply write_invoice_row.
Qed.
End Voiding.

(** A payment found by its unique key, voided in place. *)
Lemma update_one l pid (p p' : Payment) : NoDup (map pay_id l) ->
  List.find (fun q => N.eqb (pay_id q) pid) l = Some p -> pay_id p' = pay_id p ->
  exists l1 l2, l = l1 ++ p :: l2 /\ update_where (fun q => N.eqb (pay_id q) (pay_id p')) (fun _ => p') l = l1 ++ p' :: l2.
Proof.
  intros Hnd Hf Hid. apply List.find_some in Hf as [Hin Hp%N.eqb_eq].
  apply list_elem_of_In, list_elem_of_split in Hin as (l1 & l2 & ->). exists l1, l2. split; [done|].
  rewrite map_app, NoDup_app in Hnd. cbn [map] in Hnd. destruct Hnd as (_ & Hd & Hn). apply NoDup_cons in Hn as [Hn _].
  assert (Hsame : forall k, (forall q, q ∈ k -> pay_id q <> pay_id p) ->
    update_where (fun q => N.eqb (pay_id q) (pay_id p')) (fun _ => p') k = k).
  { intros k Hk. unfold update_where. rewrite <- (map_id k) at 2. apply map_ext_in. intros q Hq%list_elem_of_In.
    destruct (N.eqb_spec (pay_id q) (pay_id p')); [|done]. destruct (Hk q Hq). congruence. }
  unfold update_where at 1. rewrite map_app. cbn [map]. rewrite Hid, N.eqb_refl, <- Hid.
  fold (update_where (fun q => N.eqb (pay_id q) (pay_id p')) (fun _ => p') l1).
  fold (update_where (fun q => N.eqb (pay_id q) (pay_id p')) (fun _ => p') l2).
  rewrite !Hsame; [done| |].
  - intros q Hq Eq. apply Hn. rewrite <- Eq. apply elem_of_map_b. eauto.
  - intros q Hq Eq. apply (Hd (pay_id q)); [apply elem_of_map_b; eauto|rewrite Eq; left].
Qed.

Lemma invoice_sums_void p p' pid s sm c :
  invoice_sums (pay_invoice_id p) (se_db s) = Some sm -> get_payment pid (se_db s) = Some p ->
  NoDup (map pay_id (op_payments (db_ops (se_db s)))) ->
  is_voided p = false -> is_voided p' = true -> pay_id p' = pay_id p -> money_col (pay_amount p) = Some c ->
  fits (s_paid sm - c) = true ->
  invoice_sums (pay_invoice_id p) (se_db (with_voided p' s)) = Some (add_paid (- c) sm).
Proof.
  intros Hsm Hp Hnd Hv Hv' Hid Hc Hf. pose proof Hsm as (lc & tc & pc & cc & [_ _ E3 _] & _)%invoice_sums_rows.
  destruct (update_one _ pid p p' Hnd Hp Hid) as (l1 & l2 & E & E').
  fold (live_on (pay_invoice_id p)) in E3. rewrite E, List.filter_app in E3. cbn [List.filter] in E3.
  assert (live_on (pay_invoice_id p) p = true) as Hl by (unfold live_on; by rewrite N.eqb_refl, Hv).
  assert (live_on (pay_invoice_id p) p' = false) as Hl' by (unfold live_on; by rewrite Hv', andb_false_r).
  rewrite Hl in E3. apply cents_col_app in E3 as (k1 & k2 & -> & C1 & C2).
  apply (cents_col_app _ [p]) in C2 as (k3 & k4 & -> & C2 & C3). apply cents_col_one in C2 as (c' & Hc' & ->).
  rewrite Hc in Hc'. injection Hc' as <-.
  apply (invoice_sums_repaid _ (se_db s) _ _ (k1 ++ k4)); try done.
  - cbn [with_voided se_db set_db db_ops set_ops op_payments set_payments]. rewrite E', List.filter_app. cbn [List.filter].
    rewrite Hl'. apply cents_col_app. eauto.
  - intros pc' C4. rewrite E, List.filter_app in C4. cbn [List.filter] in C4. rewrite Hl in C4.
    apply cents_col_app in C4 as (m1 & m2 & -> & D1 & D2). apply (cents_col_app _ [p]) in D2 as (m3 & m4 & -> & D2 & D3).
    apply cents_col_one in D2 as (c' & Hc' & ->). rewrite Hc in Hc'. injection Hc' as <-.
    rewrite C1 in D1. rewrite C3 in D3. injection D1 as <-. injection D3 as <-. rewrite !zsum_app. cbn. lia.
Qed.

(** * A payment and its void *)

Lemma due_totals_paid i sm c r r' : due_totals i sm = Some r -> due_totals i (add_paid c sm) = Some r' ->
  fst r' = fst r.
Proof.
  unfold due_totals. cbn [s_taxable s_lines add_paid].
  match goal with |- (?m ≫= _) = _ -> _ => destruct m as [tax|]; [cbn|done] end.
  match goal with |- (?m ≫= _) = _ -> _ => destruct m as [[sub total]|]; [cbn|done] end.
  destruct (_ && _ && _); [|done]. destruct (_ && _ && _); [|done]. by intros [= <-] [= <-].
Qed.

(** The stored results of a recalculation are a fixed point of the next. *)
Lemma due_totals_again i sm sm' sub tax total bal t st : due_totals i sm = Some (sub, tax, total, bal) ->
  s_lines sm' = s_lines sm -> s_taxable sm' = s_taxable sm -> inv_status i <> void -> st <> void ->
  due_totals (with_paid_at t (with_status st (recalculated sub tax total bal i))) sm' = due_totals i sm'.
Proof.
  unfold due_totals. cbn [recalculated with_paid_at with_status with_totals with_tax inv_tax_rate inv_totals_locked
    inv_tax_amount inv_subtotal inv_total inv_status]. intros H E1 E2 Hv Hst. rewrite E1, E2.
  rewrite !bool_decide_eq_false_2 in * by done.
  destruct (inv_tax_rate i) as [[r e| |]|] eqn:Er, (inv_totals_locked i) eqn:El; try done.
  all: destruct (money_col (inv_tax_amount i)) as [tax'|] eqn:Et; [cbn -[Z.pow fits money_col] in *|done].
  all: try (destruct (money_col (inv_subtotal i)) as [sub'|] eqn:Es; [cbn -[Z.pow fits money_col] in *|done];
    destruct (money_col (inv_total i)) as [total'|] eqn:Eo; [cbn -[Z.pow fits money_col] in *|done]).
  all: destruct (_ && _ && _) in H; [|done]; injection H as <- <- <- <-.
  all: apply money_col_Some in Et as [Et Bt]; rewrite (proj2 (money_col_Some _ _) (conj eq_refl Bt)).
  all: try (apply money_col_Some in Es as [Es Bs]; rewrite (proj2 (money_col_Some _ _) (conj eq_refl Bs));
    apply money_col_Some in Eo as [Eo Bo]; rewrite (proj2 (money_col_Some _ _) (conj eq_refl Bo))); done.
Qed.

Section Roundtrip.
Context `{W : World}.

(** What voiding a live payment leaves. *)
Lemma voided_row id_ pid actor s q s' i p sm c sub tax total bal :
  void_payment id_ pid actor s = (Ok q, s') ->
  get_invoice id_ (se_db s) = Some i -> get_payment pid (se_db s) = Some p -> is_voided p = false ->
  NoDup (map pay_id (op_payments (db_ops (se_db s)))) -> money_col (pay_amount p) = Some c ->
  invoice_sums id_ (se_db s) = Some sm -> fits (s_paid sm - c) = true ->
  due_totals i (add_paid (- c) sm) = Some (sub, tax, total, bal) ->
  let now := mk_datetime (op_now (db_ops (se_db s))) (Some 0) in
  get_invoice id_ (se_db s') = Some (reopened (after_recalc sub tax total bal now i)) /\
  other_rows (se_db s') = other_rows (se_db (with_voided (with_void (Some now) (Some "office_void") p) s)).
Proof.
  intros H Hi Hp Hv Hnd Hc Hsm Hf Hdue now.
  apply void_payment_Ok in H as (i' & p0 & Hi' & _ & Hp' & Hpi & H). rewrite Hi in Hi'. injection Hi' as <-.
  rewrite Hp in Hp'. injection Hp' as <-. destruct H as [[E _]|(_ & p' & s1 & s2 & b & Hp' & Hops & Hrec & Hre)]; [congruence|].
  fold now in Hp'. unfold sops, same_ops in Hops. rewrite <- Hpi in Hsm.
  pose proof (invoice_sums_void p p' pid s sm c Hsm Hp Hnd Hv) as Hsm'. rewrite Hpi in Hsm'.
  assert (Hsm1 : invoice_sums id_ (se_db s1) = Some (add_paid (- c) sm)).
  { unfold invoice_sums, active_lines. rewrite Hops. apply Hsm'; subst p'; done. }
  assert (Hi1 : get_invoice id_ (se_db s1) = Some i) by (by rewrite (get_invoice_ops _ _ _ Hops)).
  pose proof (recalculate_row id_ (Some actor) s1 s2 i _ sub tax total bal Hi1 Hsm1 Hdue Hrec) as Hr2.
  assert (Hnow1 : op_now (db_ops (se_db s1)) = op_now (db_ops (se_db s))) by (by rewrite Hops).
  rewrite Hnow1 in Hr2. fold now in Hr2.
  destruct (reopen_row id_ i actor s2 b s' _ Hre Hr2) as [Hr Ho]. split; [done|]. rewrite Ho.
  pose proof (recalculate_only id_ (Some actor) s1) as Hk. rewrite Hrec in Hk. apply only_invoices_rows in Hk as [Hk _].
  cbn [snd] in Hk. rewrite Hk. unfold other_rows. rewrite Hops. by rewrite Hp'.
Qed.
(** The database after a payment entry, as the void finds it. *)
Lemma recorded_state id_ payload actor s p s1 i sm c sub tax total bal :
  record_payment [] id_ payload actor s = (Ok p, s1) ->
  get_invoice id_ (se_db s) = Some i -> inv_status i = sent -> inv_paid_at i = None ->
  invoice_sums id_ (se_db s) = Some sm -> money_col (pay_amount p) = Some c -> fits (s_paid sm + c) = true ->
  due_totals i (add_paid c sm) = Some (sub, tax, total, bal) ->
  other_rows (se_db s1) = (op_invoice_lines (db_ops (se_db s)), op_payments (db_ops (se_db s)) ++ [p],
    op_adjustments (db_ops (se_db s)), op_expenses (db_ops (se_db s))) /\
  is_voided p = false /\ invoice_sums id_ (se_db s1) = Some (add_paid c sm) /\
  exists st t, get_invoice id_ (se_db s1) = Some (with_paid_at t (with_status st (recalculated sub tax total bal i))) /\
    (st = paid \/ st = sent /\ t = None).
Proof.
  intros Hrec Hi Hst Hpaid Hsm Hc Hf Hdue.
  destruct (recorded_row id_ payload actor s p s1 i sm c sub tax total bal Hrec Hi Hsm Hc Hf Hdue)
    as (Hv & t & Hrow1 & _ & Ht & _).
  apply record_payment_Ok in Hrec as (a & _ & Hb).
  destruct (book_payment_Ok [] id_ a actor s p s1 Hb) as (Hp & _ & _ & s' & _ & O1 & O2 & _).
  assert (Hrows : other_rows (se_db s1) = other_rows (se_db (with_payment [] p s)))
    by (apply only_invoices_rows; by etrans).
  assert (Hpid : pay_invoice_id p = id_ /\ is_voided p = false) by (by rewrite Hp). destruct Hpid as [Hpid Hpv].
  pose proof Hrows as Hrows'. unfold other_rows in Hrows'. injection Hrows' as Hl Hpay Hadj _. cbn in Hl, Hpay, Hadj.
  rewrite Hrows. unfold other_rows. cbn. rewrite app_nil_r in *. split_and!; [done|done| |].
  - rewrite <- Hpid in Hsm |- *. pose proof (invoice_sums_payment p s sm c Hsm Hpv Hc Hf) as Hs.
    unfold invoice_sums, active_lines in *. cbn in Hs. rewrite app_nil_r in Hs. by rewrite Hl, Hpay, Hadj.
  - exists (if (bal <=? 0) && (0 <? total) then paid else sent), t. rewrite Hrow1. unfold after_recalc in *.
    rewrite bool_decide_eq_false_2 in * by done. cbn [negb andb] in *.
    destruct (_ && _); cbn in *; [by auto|]. split; [|by auto]. f_equal. destruct i; cbn in *; by subst.
Qed.

Lemma get_payment_last l (p : Payment) : NoDup (map pay_id (l ++ [p])) ->
  List.find (fun q => N.eqb (pay_id q) (pay_id p)) (l ++ [p]) = Some p.
Proof.
  intros Hnd. induction l as [|x l IH]; cbn in *; [by rewrite N.eqb_refl|]. apply NoDup_cons in Hnd as [Hx Hnd].
  destruct (N.eqb_spec (pay_id x) (pay_id p)) as [E|]; [|by apply IH]. destruct Hx.
  rewrite E. apply elem_of_map_b. exists p. split; [|done]. apply elem_of_app. right. left.
Qed.

Lemma update_last l (p p' : Payment) : NoDup (map pay_id (l ++ [p])) -> pay_id p' = pay_id p ->
  update_where (fun q => N.eqb (pay_id q) (pay_id p')) (fun _ => p') (l ++ [p]) = l ++ [p'].
Proof.
  intros Hnd Hid. destruct (update_one (l ++ [p]) (pay_id p) p p' Hnd (get_payment_last l p Hnd) Hid) as (l1 & l2 & E & ->).
  destruct l2 as [|x l2] using rev_ind; [by apply app_inj_tail in E as [-> _]|]. exfalso.
  rewrite app_comm_cons, app_assoc in E. apply app_inj_tail in E as [-> ->].
  rewrite map_app, NoDup_app in Hnd. destruct Hnd as (_ & Hd & _). apply (Hd (pay_id x)); [|left].
  apply elem_of_map_b. exists x. split; [|done]. apply elem_of_app. right. left.
Qed.
End Roundtrip.

(** C29: Voiding a payment undoes recording it.  On a sent invoice that owes
    money, a payment entry followed by its void, whatever the amount, gives
    back the invoice row as recalculated before the payment, balance and sent
    status included, with no settlement date, although the entry may have
    settled it; the payment row stays, voided, among the unchanged others,
    and lines and adjustments are unchanged. *)
Theorem record_void_roundtrip `{W : World} id_ payload actor actor' s p s1 q s2 i sm c sub tax total bal bal'
    (Hrec : record_payment [] id_ payload actor s = (Ok p, s1))
    (Hvoid : void_payment id_ (pay_id p) actor' s1 = (Ok q, s2))
    (Hi : get_invoice id_ (se_db s) = Some i) (Hsent : inv_status i = sent) (Hunpaid : inv_paid_at i = None)
    (Hkey : NoDup (map pay_id (op_payments (db_ops (se_db s1)))))
    (Hsm : invoice_sums id_ (se_db s) = Some sm) (Hc : money_col (pay_amount p) = Some c)
    (Hf : fits (s_paid sm + c) = true)
    (Hdue : due_totals i sm = Some (sub, tax, total, bal)) (Howes : 0 < bal)
    (Hdue' : due_totals i (add_paid c sm) = Some (sub, tax, total, bal')) :
  get_invoice id_ (se_db s2) = Some (recalculated sub tax total bal i) /\
  (exists at_, op_payments (db_ops (se_db s2)) =
     op_payments (db_ops (se_db s)) ++ [with_void (Some at_) (Some "office_void") p]) /\
  op_invoice_lines (db_ops (se_db s2)) = op_invoice_lines (db_ops (se_db s)) /\
  op_adjustments (db_ops (se_db s2)) = op_adjustments (db_ops (se_db s)).
Proof.
  destruct (recorded_state id_ payload actor s p s1 i sm c sub tax total bal' Hrec Hi Hsent Hunpaid Hsm Hc Hf Hdue')
    as (Hrows & Hpv & Hsm1 & st & t & Hi1 & Hst).
  unfold other_rows in Hrows. injection Hrows as Hl Hpay Hadj _. rewrite Hpay in Hkey.
  assert (Hstv : st <> void) by (by destruct Hst as [->|[-> _]]).
  destruct (recalc_parts i (se_db s) sm sub tax total bal) as (_ & _ & _ & _ & _ & _ & _ & _ & _ & Hfit & _);
    [by rewrite (get_invoice_id _ _ _ Hi)|done|].
  destruct (invoice_sums_spec _ _ _ Hsm) as (_ & _ & [_ HP] & _).
  destruct (voided_row id_ (pay_id p) actor' s1 q s2 _ p (add_paid c sm) c sub tax total bal Hvoid Hi1) as [Hrow Hrows].
  - unfold get_payment. rewrite Hpay. by apply get_payment_last.
  - done.
  - by rewrite Hpay.
  - done.
  - done.
  - cbn [add_paid s_paid]. apply Z.ltb_lt. by replace (s_paid sm + c - c) with (s_paid sm) by lia.
  - rewrite add_paid_twice, Z.add_opp_diag_r, add_paid_0.
    rewrite (due_totals_again i (add_paid c sm) sm sub tax total bal' t st); try done. by rewrite Hsent.
  - unfold other_rows in Hrows. injection Hrows as Hl2 Hpay2 Hadj2 _. cbn -[update_where] in Hl2, Hpay2, Hadj2.
    pose proof (fun at_ => update_last _ p (with_void (Some at_) (Some "office_void") p) Hkey eq_refl) as Hu.
    cbn -[update_where] in Hu. rewrite Hl2, Hpay2, Hadj2, Hpay, Hadj, Hl, Hu. split_and!; [|by eexists|done|done].
    rewrite Hrow. f_equal. unfold after_recalc. cbn [inv_status with_paid_at with_status].
    rewrite (bool_decide_eq_false_2 _ Hstv). destruct (Z.leb_spec bal 0); [lia|]. cbn [negb andb].
    unfold reopened. cbn [recalculated with_totals with_tax with_paid_at with_status inv_status inv_balance_due].
    unfold _to_float. cbn [_dec default]. unfold id. rewrite (proj2 (float_cents_nonpos bal Hfit)).
    destruct (Z.ltb_spec 0 bal); [|lia]. destruct Hst as [->|[-> ->]]; cbn; by destruct i; cbn in *; subst.
Qed.

(** * Witnesses *)

Ltac by_compute := vm_compute; reflexivity.

Definition owing_invoice : Invoice :=
  mk_invoice 7%N "INV-7" sent (Some (cents 20000)) (Some (cents 0)) (Some (cents 20000)) None None "co" (Some 738000) None
    None None (Some (cents 20000)) None false None "standard" None None None false.

Definition owing_rows (i : Invoice) (payments : list Payment) (next : uuid) : Db :=
  mk_db (mk_gl [] [] [] [] [] [] next 0)
    (mk_ops [i] [mk_invoice_line 7%N (Some "spring") (Some (cents 20000)) None None true (DFinite 1 0) (cents 20000) 1 None None None] payments [] [] None 5 1 true).

Definition owing_session : Session := mk_session (owing_rows owing_invoice [] 1%N) ∅ [] ∅ [].

Definition pay_all : PaymentCreateIn :=
  {| pi_amount := None; pi_pay_remaining := true; pi_method := " Cash"; pi_date := None;
     pi_allow_overpayment := false; pi_reference := Some "r1" |}.

Definition owing_sums : sums := {| s_lines := 20000; s_taxable := 20000; s_paid := 0; s_credited := 0 |}.

Definition the_payment : Payment :=
  mk_payment 1%N 7%N (Some (cents 20000)) (Some "cash") None (Some (-1)) None (Some (mk_datetime 5 (Some 0)))
    (Some "r1") None.

Definition paid_session : Session :=
  mk_session (owing_rows (settled (mk_datetime 5 (Some 0)) (recalculated 20000 0 20000 0 owing_invoice)) [the_payment] 2%N)
    {[7%N := paid]} [7%N] ∅ [("invoice.paid", 7%N, 20000)].

Definition voided_again : Payment := with_void (Some (mk_datetime 5 (Some 0))) (Some "office_void") the_payment.

Definition voided_session : Session :=
  mk_session (owing_rows owing_invoice [voided_again] 2%N) {[7%N := sent]} [7%N; 7%N] ∅ [("invoice.paid", 7%N, 20000)].

Lemma record_payment_outcomes_witness :
  op_payments (db_ops (se_db paid_session)) = [the_payment] /\ NoDup (live_refs [the_payment]).
Proof.
  pose proof (record_payment_outcomes (WO := toy_world_ok) [] 7%N pay_all "amy" owing_session) as H.
  assert (E : record_payment (W := toy_world) [] 7%N pay_all "amy" owing_session = (Ok the_payment, paid_session))
    by by_compute.
  rewrite E in H. destruct H as (_ & Hp & _ & _ & _ & _ & Hn & _). split; [exact Hp|]. apply Hn. constructor.
Defined.

Lemma record_payment_exact_witness :
  exists i', get_invoice 7%N (se_db paid_session) = Some i' /\ inv_balance_due i' = Some (cents 0) /\
    inv_status i' = paid /\ inv_paid_at i' <> None.
Proof.
  destruct (record_payment_exact (W := toy_world) 7%N pay_all "amy" owing_session the_payment paid_session
    owing_invoice owing_sums 20000 20000 0 20000 0) as [(i' & H1 & _ & H2 & _ & H3 & _ & H4) _];
    [by_compute|reflexivity..|].
  exists i'. split; [exact H1|]. split; [exact H2|]. split; [exact H3|]. apply H4; [reflexivity|]. by split.
Defined.

Lemma record_void_roundtrip_witness :
  get_invoice 7%N (se_db voided_session) = Some owing_invoice /\ se_db voided_session <> se_db paid_session.
Proof.
  destruct (record_void_roundtrip (W := toy_world) 7%N pay_all "amy" "bob" owing_session the_payment paid_session
    voided_again voided_session owing_invoice owing_sums 20000 20000 0 20000 20000 0)
    as [H _]; [by_compute|by_compute|reflexivity|reflexivity|reflexivity|apply NoDup_singleton|reflexivity|reflexivity
      |reflexivity|reflexivity|lia|reflexivity|split; [exact H|discriminate]].
Defined.
