(* ===== verification/StripeSpec.v ===== *)
(** The Stripe events that reverse a recorded payment and give it back:
    [_reverse_recorded_payment] and [_reinstate_reversed_payment] of
    [core/payments.py]. *)

From S2P Require Import Prelude PyStr Dates Money PyNum Models PayPeriods Keys Coa Engine EngineInv EngineSpec Service RulesBase Opening Issuance Payments Adjustments RulesSafe RulesSpec Chokepoint InvoiceTotals InvoiceGuard MoneyRoutes MoneySpec.

Local Open Scope Z_scope.

(** The payment row after the flag is set or cleared. *)
Definition flagged (void_ : bool) (reason : option string) (now : Z) (p : Payment) : Payment :=
  if void_ then with_void (Some (mk_datetime now (Some 0))) (void_reason reason) p else with_void None None p.

Section Attempts.
Context `{W : World}.

Lemma attempt_rows void_ reason actor p fb post s r s' : void_attempt void_ reason actor p fb post s = (Ok r, s') ->
  sops (with_voided (flagged void_ reason (op_now (db_ops (se_db s))) p) s) s' /\
  r = get_invoice (pay_invoice_id p) (se_db s).
Proof.
  unfold void_attempt. destruct (_ && _); [done|]. intros H. apply mseq_Ok in H as (x & s1 & H1 & H).
  unfold mwrite in H1. injection H1 as _ <-. rewrite bind_reads in H. unfold flagged, with_voided.
  assert (Hid : forall a b, pay_id (if void_ then with_void (Some a) b p else with_void None None p) = pay_id p)
    by (by destruct void_). rewrite Hid.
  change (get_invoice (pay_invoice_id p) (se_db (set_db (set_ops _) s))) with (get_invoice (pay_invoice_id p) (se_db s)) in H.
  destruct (get_invoice _ _) as [i|]; [|by injection H as <- <-].
  destruct post; [|by injection H as <- <-]. apply mseq_Ok in H as (y & s2 & H1 & H). injection H as <- <-.
  match type of H1 with _ ?x = _ => assert (sops x (snd (on_db (resettle_invoice_payments i (Some actor) fb) x))) as Hk end.
  { apply on_db_sops, resettle_keeps, _. }
  by rewrite H1 in Hk.
Qed.

(** Whichever rung of the ladder succeeds, the operational rows are those of
    the first attempt. *)
Lemma void_state_rows void_ reason actor policy p s r s' :
  _apply_payment_void_state void_ reason actor policy p s = (Ok r, s') ->
  sops (with_voided (flagged void_ reason (op_now (db_ops (se_db s))) p) s) s' /\
  r = get_invoice (pay_invoice_id p) (se_db s).
Proof.
  unfold _apply_payment_void_state, mcatch at 1.
  destruct (void_attempt _ _ _ _ None true s) as [[x|e] s1] eqn:E1; [intros [= -> ->]; by eapply attempt_rows|].
  case_decide as D1; [|done]. destruct policy; [done|]. intros H.
  apply mseq_Ok in H as (u & s2 & H1 & H). unfold mwrite in H1. injection H1 as _ <-. rewrite bind_reads in H.
  unfold mcatch in H. destruct (void_attempt _ _ _ _ (Some _) true _) as [[x|e2] s3] eqn:E2.
  { injection H as -> ->. by apply attempt_rows in E2. }
  case_decide as D2; [|done]. apply mseq_Ok in H as (u2 & s4 & H1 & H). unfold mwrite in H1. injection H1 as _ <-.
  by apply attempt_rows in H.
Qed.

Lemma reopen_only id_ i actor : keeps only_invoices (reopen_if_owing id_ i actor).
Proof.
  unfold reopen_if_owing, reread. apply keeps_seq; [exact _|apply keeps_sops_only, on_db_sops, keeps_reads, _|intros cur].
  destruct (_ && _); [|apply keeps_return, _]. apply keeps_seq; [exact _|apply transition_only|intros _].
  apply keeps_seq; [exact _|apply keeps_mwrite; intros s; apply write_invoice_only|intros _; apply keeps_return, _].
Qed.

Lemma Ok_only {A} (m : M Session A) s a s' : keeps only_invoices m -> m s = (Ok a, s') ->
  op_payments (db_ops (se_db s')) = op_payments (db_ops (se_db s)).
Proof.
  intros Hk H. specialize (Hk s). rewrite H in Hk. apply only_invoices_rows in Hk as [Hk _].
  unfold other_rows in Hk. by injection Hk as _ -> _ _.
Qed.

Lemma reverse_Ok reference reason s r s' : _reverse_recorded_payment reference reason s = (Ok r, s') ->
  match r with
  | Reversed id_ _ => exists p, live_by_reference reference (se_db s) = Some p /\ pay_invoice_id p = id_ /\
      op_payments (db_ops (se_db s')) =
        update_where (fun q => N.eqb (pay_id q) (pay_id p))
          (fun _ => flagged true (Some reason) (op_now (db_ops (se_db s))) p) (op_payments (db_ops (se_db s)))
  | NoReference => reference = "" /\ s' = s
  | NoPaymentToReverse => live_by_reference reference (se_db s) = None /\ s' = s
  | _ => False
  end.
Proof.
  unfold _reverse_recorded_payment. destruct (String.eqb_spec reference "") as [->|_]; [by intros [= <- <-]|].
  unfold request. destruct (mseq _ _ s) as [[x|e] s0] eqn:H; [|done]. intros [= -> ->]. rewrite bind_reads in H.
  destruct (live_by_reference reference (se_db s)) as [p|] eqn:Ep; [|by injection H as <- <-].
  apply mseq_Ok in H as (inv & s1 & H1 & H). apply void_state_rows in H1 as [Hops ->].
  apply mseq_Ok in H as (b & s2 & H2 & H). apply mseq_Ok in H as ([] & s3 & H3 & H). injection H as <- <-.
  injection H3 as _ <-. exists p. split_and!; [done|done|].
  assert (Hp : op_payments (db_ops (se_db s2)) = op_payments (db_ops (se_db s1))).
  { destruct (get_invoice _ _) as [i|]; [|by injection H2 as _ <-]. eapply Ok_only; [|exact H2].
    apply keeps_seq; [exact _|apply recalculate_only|intros _; apply reopen_only]. }
  unfold sops, same_ops in Hops. by rewrite Hp, Hops.
Qed.

Lemma reinstate_Ok reference s r s' : _reinstate_reversed_payment reference s = (Ok r, s') ->
  match r with
  | Reinstated id_ => exists p, voided_by_reference reference (se_db s) = [p] /\ pay_invoice_id p = id_ /\
      existsb (String.eqb (default "" (pay_voided_reason p))) _DISPUTE_VOID_REASONS = true /\
      op_payments (db_ops (se_db s')) =
        update_where (fun q => N.eqb (pay_id q) (pay_id p)) (fun _ => with_void None None p) (op_payments (db_ops (se_db s)))
  | NoReference => reference = "" /\ s' = s
  | NoPaymentToReinstate => voided_by_reference reference (se_db s) = [] /\ s' = s
  | ReinstateNeedsReview => s' = s /\ forall p, voided_by_reference reference (se_db s) = [p] ->
      existsb (String.eqb (default "" (pay_voided_reason p))) _DISPUTE_VOID_REASONS = false
  | _ => False
  end.
Proof.
  unfold _reinstate_reversed_payment. destruct (String.eqb_spec reference "") as [->|_]; [by intros [= <- <-]|].
  unfold request. destruct (mseq _ _ s) as [[x|e] s0] eqn:H; [|done]. intros [= -> ->]. rewrite bind_reads in H.
  destruct (voided_by_reference reference (se_db s)) as [|p [|]] eqn:Ep; [by injection H as <- <-| |by injection H as <- <-].
  destruct (existsb _ _) eqn:Er; cbn [negb] in H; [|injection H as <- <-; split; [done|]; by intros ? [= <-]].
  apply mseq_Ok in H as (inv & s1 & H1 & H). unfold apply_payment_unvoid in H1. apply void_state_rows in H1 as [Hops ->].
  apply mseq_Ok in H as ([] & s2 & H2 & H). apply mseq_Ok in H as ([] & s3 & H3 & H). injection H as <- <-.
  injection H3 as _ <-. exists p. split_and!; [done|done|done|].
  assert (Hp : op_payments (db_ops (se_db s2)) = op_payments (db_ops (se_db s1))).
  { destruct (get_invoice _ _) as [i|]; [|by injection H2 as <-]. eapply Ok_only; [|exact H2].
    apply keeps_seq; [exact _|apply recalculate_only|intros _]. unfold reread.
    apply keeps_seq; [exact _|apply keeps_sops_only, on_db_sops, keeps_reads, _|intros cur].
    repeat case_match; try apply keeps_return, _; apply keeps_mwrite; intros y; apply write_invoice_only. }
  unfold sops, same_ops in Hops. by rewrite Hp, Hops.
Qed.
End Attempts.

(** * Redelivery and disputes *)

Definition carries (reference : string) (p : Payment) : bool := opt_eqb (pay_reference p) (Some reference).

Lemma find_elem {A} (f : A -> bool) l x : List.find f l = Some x -> x ∈ l /\ f x = true.
Proof. rewrite list_elem_of_In. apply List.find_some. Qed.

(** The live payments of a reference. *)
Definition live_carriers (reference : string) (d : Db) : list Payment :=
  List.filter (fun p => carries reference p && negb (is_voided p)) (op_payments (db_ops d)).

Lemma live_by_reference_head reference d : live_by_reference reference d = head (live_carriers reference d).
Proof.
  unfold live_by_reference, live_carriers, carries. induction (op_payments (db_ops d)) as [|x l IH]; [done|]. cbn.
  by destruct (_ && _).
Qed.

(** Changing one row found by its key, under a filter. *)
Lemma filter_update_one (f : Payment -> bool) l p p' : NoDup (map pay_id l) -> p ∈ l -> pay_id p' = pay_id p ->
  exists l1 l2, l = l1 ++ p :: l2 /\
    List.filter f l = List.filter f l1 ++ (if f p then [p] else []) ++ List.filter f l2 /\
    List.filter f (update_where (fun q => N.eqb (pay_id q) (pay_id p)) (fun _ => p') l) =
      List.filter f l1 ++ (if f p' then [p'] else []) ++ List.filter f l2.
Proof.
  intros Hnd Hp Hid.
  assert (Hf : List.find (fun q => N.eqb (pay_id q) (pay_id p)) l = Some p).
  { destruct (List.find _ l) as [x|] eqn:E; [apply find_elem in E as [Hx Ex%N.eqb_eq]; f_equal; by eapply NoDup_map_inj|].
    apply List.find_none with (x := p) in E; [|by apply list_elem_of_In]. by rewrite N.eqb_refl in E. }
  destruct (update_one l (pay_id p) p p' Hnd Hf Hid) as (l1 & l2 & E & E'). rewrite Hid in E'.
  exists l1, l2. rewrite E', E, !List.filter_app. cbn. by destruct (f p), (f p').
Qed.

Lemma update_twice l (p p' : Payment) : NoDup (map pay_id l) -> p ∈ l -> pay_id p' = pay_id p ->
  update_where (fun q => N.eqb (pay_id q) (pay_id p)) (fun _ => p)
    (update_where (fun q => N.eqb (pay_id q) (pay_id p)) (fun _ => p') l) = l.
Proof.
  intros Hnd Hp Hid. unfold update_where. rewrite map_map, <- (map_id l) at 1. rewrite map_id.
  rewrite <- (map_id l) at 2. apply map_ext_in. intros x Hx%list_elem_of_In.
  destruct (N.eqb_spec (pay_id x) (pay_id p)) as [E|E].
  - rewrite Hid, N.eqb_refl. symmetry. by eapply NoDup_map_inj.
  - by rewrite (proj2 (N.eqb_neq _ _) E).
Qed.

Lemma short_reason r : (String.length r <= 64)%nat -> default "" (void_reason (Some r)) = r.
Proof.
  intros Hl. unfold void_reason. cbn [default]. unfold id.
  assert (forall n t, (String.length t <= n)%nat -> String.substring 0 n t = t) as Hs.
  { induction n as [|n IH]; intros [|c t] H; cbn in *; try done; [lia|]. f_equal. apply IH. lia. }
  rewrite Hs by done. by destruct (String.eqb_spec r "").
Qed.

(** A reversal is applied once.  When Stripe reports that the money of a
    reference went back, the payment it finds is voided, every other payment
    is unchanged, and one live payment fewer carries the reference; when one
    did, a redelivered or second event for it, whatever its kind, finds
    nothing to reverse and leaves the session as it is. *)
Theorem reversal_once `{W : World} reference reason s id_ b s'
    (Hrun : _reverse_recorded_payment reference reason s = (Ok (Reversed id_ b), s'))
    (Hkey : NoDup (map pay_id (op_payments (db_ops (se_db s))))) :
  (exists p, p ∈ op_payments (db_ops (se_db s)) /\ pay_invoice_id p = id_ /\ carries reference p = true /\
     is_voided p = false /\
     op_payments (db_ops (se_db s')) =
       update_where (fun q => N.eqb (pay_id q) (pay_id p))
         (fun _ => flagged true (Some reason) (op_now (db_ops (se_db s))) p) (op_payments (db_ops (se_db s)))) /\
  S (length (live_carriers reference (se_db s'))) = length (live_carriers reference (se_db s)) /\
  (length (live_carriers reference (se_db s)) = 1%nat -> forall reason',
     _reverse_recorded_payment reference reason' s' = (Ok NoPaymentToReverse, s')).
Proof.
  pose proof Hrun as (p & Hp & Hi & Hpay)%reverse_Ok. pose proof Hp as [Hin Hlive]%find_elem.
  apply andb_true_iff in Hlive as [Hc Hv%negb_true_iff].
  destruct (filter_update_one (fun p => carries reference p && negb (is_voided p)) _ p
    (flagged true (Some reason) (op_now (db_ops (se_db s))) p) Hkey Hin eq_refl) as (l1 & l2 & _ & E1 & E2).
  rewrite <- Hpay in E2. fold (live_carriers reference (se_db s)) in E1. fold (live_carriers reference (se_db s')) in E2.
  unfold carries at 2 in E1. rewrite Hc, Hv in E1. cbn [negb andb] in E1.
  unfold flagged in E2 at 1. cbn [with_void is_voided pay_voided_at] in E2. rewrite andb_false_r in E2.
  assert (Hlen : S (length (live_carriers reference (se_db s'))) = length (live_carriers reference (se_db s)))
    by (rewrite E1, E2, !length_app; cbn; lia).
  split; [by exists p|]. split; [exact Hlen|]. intros H1 reason'.
  assert (Hnone : live_by_reference reference (se_db s') = None).
  { rewrite live_by_reference_head. by destruct (live_carriers reference (se_db s')); [|cbn in *; lia]. }
  unfold _reverse_recorded_payment in Hrun |- *. destruct (String.eqb reference ""); [done|].
  unfold request. rewrite bind_reads, Hnone. done.
Qed.

(** A dispute that is won gives the payment back.  When a payment was
    reversed by a dispute event, and no other payment voided earlier carries
    its reference, reinstating it restores the payments exactly; a payment
    reversed for any other reason, a refund say, is never reinstated: the
    event is left for review and nothing changes. *)
Theorem dispute_roundtrip `{W : World} reference reason s id_ b s1 r s2
    (Hrev : _reverse_recorded_payment reference reason s = (Ok (Reversed id_ b), s1))
    (Hrest : _reinstate_reversed_payment reference s1 = (Ok r, s2))
    (Hkey : NoDup (map pay_id (op_payments (db_ops (se_db s)))))
    (Hnone : voided_by_reference reference (se_db s) = [])
    (Hclean : forall p, p ∈ op_payments (db_ops (se_db s)) -> is_voided p = false -> pay_voided_reason p = None)
    (Hreason : (String.length reason <= 64)%nat) :
  if existsb (String.eqb reason) _DISPUTE_VOID_REASONS
  then r = Reinstated id_ /\ op_payments (db_ops (se_db s2)) = op_payments (db_ops (se_db s))
  else r = ReinstateNeedsReview /\ s2 = s1.
Proof.
  apply reverse_Ok in Hrev as Hr. destruct Hr as (p & Hp & Hi & Hpay). apply find_elem in Hp as [Hin Hlive].
  apply andb_true_iff in Hlive as [Hc Hv%negb_true_iff].
  set (p' := flagged true (Some reason) (op_now (db_ops (se_db s))) p) in *.
  destruct (filter_update_one (fun p => carries reference p && is_voided p) _ p p' Hkey Hin eq_refl) as (l1 & l2 & _ & E1 & E2).
  rewrite <- Hpay in E2.
  change (List.filter _ (op_payments (db_ops (se_db s)))) with (voided_by_reference reference (se_db s)) in E1.
  change (List.filter _ (op_payments (db_ops (se_db s1)))) with (voided_by_reference reference (se_db s1)) in E2.
  rewrite Hnone in E1. symmetry in E1. apply app_eq_nil in E1 as [E1 (_ & E1')%app_eq_nil].
  rewrite E1, E1' in E2.
  assert (Hp' : carries reference p' && is_voided p' = true) by (change (carries reference p && true = true); by rewrite andb_true_r).
  rewrite Hp' in E2. cbn [app] in E2.
  assert (Hwhy : default "" (pay_voided_reason p') = reason) by (by apply short_reason).
  apply reinstate_Ok in Hrest. rewrite E2 in Hrest.
  destruct r as [| | | | |id'|]; try done.
  - destruct Hrest as [-> _]. by unfold _reverse_recorded_payment in Hrev.
  - by destruct Hrest.
  - destruct Hrest as [-> Hno]. specialize (Hno p' eq_refl). rewrite Hwhy in Hno. by rewrite Hno.
  - destruct Hrest as (q & [= <-] & Hq & Hyes & Hpay2). rewrite Hwhy in Hyes. rewrite Hyes.
    split; [f_equal; by rewrite <- Hq, <- Hi|]. rewrite Hpay2, Hpay.
    assert (with_void None None p' = p) as ->.
    { specialize (Hclean p Hin Hv). unfold is_voided in Hv. destruct p as [? ? ? ? ? ? at_ ? ? why]; cbn in *. subst why.
      by destruct at_. }
    by apply (update_twice _ p p').

Qed.

(** * Witnesses *)

Local Notation before := paid_session.

Definition disputed (reason : string) : Payment :=
  with_void (Some (mk_datetime 5 (Some 0))) (Some reason) the_payment.

Definition reversed_session (reason : string) : Session :=
  mk_session (owing_rows owing_invoice [disputed reason] 2%N) {[7%N := sent]} [7%N; 7%N] ∅ [("invoice.paid", 7%N, 20000)].

Lemma reversal_once_witness :
  _reverse_recorded_payment (W := toy_world) "r1" "charge.refunded" (reversed_session "charge.dispute.created") =
    (Ok NoPaymentToReverse, reversed_session "charge.dispute.created").
Proof.
  apply (reversal_once (W := toy_world) "r1" "charge.dispute.created" before 7%N true
    (reversed_session "charge.dispute.created")); [by_compute|apply NoDup_singleton|reflexivity].
Defined.

Definition reinstated_session : Session :=
  mk_session (owing_rows (settled (mk_datetime 5 (Some 0)) (recalculated 20000 0 20000 0 owing_invoice)) [the_payment] 2%N)
    {[7%N := paid]} [7%N; 7%N; 7%N] ∅ [("invoice.paid", 7%N, 20000); ("invoice.paid", 7%N, 20000)].

Lemma dispute_roundtrip_witness :
  op_payments (db_ops (se_db reinstated_session)) = op_payments (db_ops (se_db before)).
Proof.
  destruct (dispute_roundtrip (W := toy_world) "r1" "charge.dispute.created" before 7%N true
    (reversed_session "charge.dispute.created") (Reinstated 7%N) reinstated_session)
    as [_ H]; [by_compute|by_compute|apply NoDup_singleton|reflexivity| |cbn; lia|exact H].
  intros p ->%list_elem_of_singleton _. reflexivity.
Defined.
