(* ===== verification/CreditSpec.v ===== *)
(** What credits and refunds do to an invoice, to the cent:
    [issue_credit_memo], [apply_customer_credit] and [process_refund] of
    [routers/invoices.py]. *)

From S2P Require Import Prelude PyStr Dates Money PyNum StrFloat TaxFloat Models PayPeriods Keys Coa Engine EngineInv EngineSpec Service RulesBase Opening Issuance Payments Adjustments RulesSafe RulesSpec Chokepoint InvoiceTotals InvoiceGuard MoneyRoutes MoneySpec.

Local Open Scope Z_scope.

(** * The half-cent cap *)

(** An amount of whole cents that does not exceed a float near a number of
    cents by more than half a cent is at most that number. *)
Lemma float_cap x y a b err : near x a 100 -> near y b err -> 0 <= err <= 2 ^ 16 -> Z.abs b <= 10 ^ 13 ->
  float_gtb (FNum x) (float_add (FNum y) half_cent) = false -> a <= b.
Proof.
  unfold near, half_cent. intros Hx Hy He Hb. pose proof least_pos as HL. cbn [float_of_decimal].
  change (5 * 10 ^ Z.max 0 (-3)) with 5. change (10 ^ Z.max 0 (- -3)) with 1000.
  destruct (float_of_ratio_close 5 1000 0) as (h & -> & Hh); [lia|lia|lia|].
  change (2 ^ 54) with 18014398509481984 in Hh. change (2 ^ 0) with 1 in Hh. change (2 ^ 20) with 1048576 in *.
  change (2 ^ 16) with 65536 in He. change (10 ^ 13) with 10000000000000 in Hb.
  assert (Habs : Z.abs (b * least) <= 10000000000000 * least) by (rewrite Z.abs_mul, (Z.abs_eq least) by lia; nia).
  assert (Herr : err * least <= 65536 * least) by nia.
  unfold float_add. cbn [float_neg float_sub].
  destruct (float_of_ratio_close (y - - h) least 37) as (v & -> & Hv); [done|lia| |].
  { change (2 ^ 37) with 137438953472. lia. }
  change (2 ^ 54) with 18014398509481984 in Hv. change (2 ^ 37) with 137438953472 in Hv.
  assert (Hv' : 131072 * Z.abs (v - (y + h)) <= least).
  { replace (v * least - (y - - h) * least) with ((v - (y + h)) * least) in Hv by ring.
    rewrite Z.abs_mul, (Z.abs_eq least) in Hv by lia. nia. }
  clear Hv. cbn [float_gtb]. intros Hle%Z.ltb_ge.
  assert (1000 * (a * least) <= 1000 * (b * least) + 600 * least) by lia. nia.
Qed.

(** * One more credit *)

Definition add_credited (c : Z) (sm : sums) : sums :=
  {| s_lines := s_lines sm; s_taxable := s_taxable sm; s_paid := s_paid sm; s_credited := s_credited sm + c |}.

(** The session with a new adjustment in place. *)
Definition with_adjustment (a : InvoiceAdjustment) (s : Session) : Session :=
  set_db (fun d => set_ops (set_adjustments (fun l => l ++ [a])) (set_gl (set_next_uuid N.succ) d)) s.

Lemma invoice_sums_credit id_ a s d sm c :
  invoice_sums id_ (se_db s) = Some sm -> other_rows d = other_rows (se_db (with_adjustment a s)) ->
  adj_invoice_id a = id_ -> is_credit_kind (adj_kind a) = true -> money_col (adj_amount a) = Some c ->
  fits (s_credited sm + c) = true -> invoice_sums id_ d = Some (add_credited c sm).
Proof.
  rewrite !invoice_sums_rows. intros (lc & tc & pc & cc & [E1 E2 E3 E4] & -> & H0 & H1 & H2 & H3 & H4) Hd Hid Hk Hc Hf%Z.ltb_lt.
  unfold other_rows in Hd. injection Hd as Hl Hp Ha _. cbn in Hl, Hp, Ha. cbn [s_credited] in Hf.
  assert (Hz : zsum (cc ++ [c]) = zsum cc + c) by (rewrite zsum_app; cbn; lia).
  assert (Hal : active_lines id_ d = active_lines id_ (se_db s)) by (unfold active_lines; by rewrite Hl).
  exists lc, tc, pc, (cc ++ [c]). rewrite Hal. split_and!; try done; [|unfold add_credited; cbn; by rewrite Hz|by rewrite Hz].
  split; rewrite ?Hal, ?Hp, ?Ha; try done. rewrite List.filter_app. apply cents_col_app. exists cc, [c].
  split_and!; [done|done|]. cbn [List.filter]. rewrite Hid, N.eqb_refl, Hk. cbn [andb]. apply cents_col_one. eauto.
Qed.

Section Credits.
Context `{W : World}.

Lemma new_adjustment_Ok kind i amount reason method s a s' :
  new_adjustment kind i amount reason method s = (Ok a, s') ->
  adj_invoice_id a = inv_id i /\ adj_kind a = kind /\ adj_amount a = Some amount /\
  (exists tax, credit_tax_component i (Some amount) = Ok tax /\ adj_tax_component a = Some tax) /\
  s' = with_adjustment a s.
Proof.
  unfold new_adjustment. intros H. apply mseq_Ok in H as (tax & s1 & H1 & H). unfold mlift in H1. injection H1 as Ht <-.
  apply mseq_Ok in H as (aid & s2 & H1 & H). unfold on_db, fresh_uuid in H1. injection H1 as <- <-.
  rewrite bind_reads in H. apply mseq_Ok in H as (x & s3 & H1 & H). unfold mwrite in H1. injection H1 as _ <-.
  injection H as <- <-. split_and!; try done. by exists tax.
Qed.

Lemma settle_credit_Ok post id_ i a actor s s' :
  (forall a i actor, keeps same_ops (post a i actor)) -> settle_credit post id_ i a actor s = (Ok tt, s') ->
  exists s1, sops s s1 /\ _recalculate_invoice id_ (Some actor) s1 = (Ok tt, s') /\ _check true [id_] (se_db s') = Ok tt.
Proof.
  intros Hpost. unfold settle_credit. intros H. apply mseq_Ok in H as (x & s1 & H1 & H).
  apply mseq_Ok in H as (y & s2 & H2 & H). apply mseq_Ok in H as ([] & s3 & H3 & H). injection H as Hc <-.
  exists s2. split_and!; [|done|done].
  pose proof (on_db_sops _ (Hpost a i (Some actor)) s) as K1. rewrite H1 in K1.
  assert (K2 : sops s1 (snd (on_db (resettle_invoice_payments i (Some actor) None) s1)))
    by (apply on_db_sops, resettle_keeps, _).
  rewrite H2 in K2. unfold sops, same_ops in *. cbn [snd] in *. congruence.
Qed.

(** A credit as both routes book it: recalculated, capped, entered, settled. *)
Definition credited (kind : adjustment_kind) (id_ : uuid) (actor : string) (s : Session) (a : InvoiceAdjustment)
    (s' : Session) : Prop :=
  exists i m s1 i1 s2,
    get_invoice id_ (se_db s) = Some i /\ creditable (inv_status i) = true /\
    _recalculate_invoice id_ (Some actor) s = (Ok tt, s1) /\ i1 = default i (get_invoice id_ (se_db s1)) /\
    exceeds_balance m i1 = false /\ (exists f, float_pos f = true /\ _money_float f = Ok m) /\ adj_amount a = Some m /\ adj_invoice_id a = inv_id i1 /\ adj_kind a = kind /\
    sops (with_adjustment a s1) s2 /\ _recalculate_invoice id_ (Some actor) s2 = (Ok tt, s').

Lemma issue_credit_memo_Ok id_ amount reason closeout actor s a s' :
  issue_credit_memo id_ amount reason closeout actor s = (Ok a, s') -> credited credit_memo id_ actor s a s'.
Proof.
  unfold issue_credit_memo. destruct (_ || _) eqn:Ep; [done|].
  apply orb_false_iff in Ep as [Ep%negb_false_iff _]. unfold request.
  destruct (mseq _ _ s) as [[x|e] s0] eqn:H; [|done]. intros [= -> ->].
  apply mseq_Ok in H as (i & s1 & H1 & H). apply get_or_404_Ok in H1 as (-> & Hi & _).
  destruct (creditable _) eqn:Ec; cbn [negb] in H; [|done].
  match type of H with (if ?c then _ else _) _ = _ => destruct c; [done|] end.
  apply mseq_Ok in H as (m & s1 & H1 & H). unfold mlift in H1. injection H1 as Hm <-.
  apply mseq_Ok in H as ([] & s1 & Hrec & H). unfold reread in H. rewrite bind_reads in H.
  destruct (exceeds_balance _ _) eqn:Ex; [done|].
  apply mseq_Ok in H as (a' & s2 & H1 & H). apply new_adjustment_Ok in H1 as (A1 & A2 & A3 & _ & ->).
  apply mseq_Ok in H as ([] & s3 & H1 & H). injection H as -> ->.
  apply settle_credit_Ok in H1 as (s4 & Hops & Hrec2 & _); [|intros; apply post_credit_memo_keeps, _].
  exists i, m, s1, (default i (get_invoice id_ (se_db s1))), s4. split_and!; try done. by exists amount.
Qed.

Lemma apply_customer_credit_Ok id_ amount actor s a s' :
  apply_customer_credit id_ amount actor s = (Ok a, s') -> credited credit_applied id_ actor s a s'.
Proof.
  unfold apply_customer_credit. destruct (negb _) eqn:Ep; [done|].
  apply negb_false_iff in Ep. unfold request.
  destruct (mseq _ _ s) as [[x|e] s0] eqn:H; [|done]. intros [= -> ->].
  apply mseq_Ok in H as (i & s1 & H1 & H). apply get_or_404_Ok in H1 as (-> & Hi & _).
  destruct (creditable _) eqn:Ec; cbn [negb] in H; [|done]. rewrite bind_reads in H.
  destruct (negb _); [done|]. case_bool_decide as Hcust; [done|].
  apply mseq_Ok in H as (m & s1 & H1 & H). unfold mlift in H1. injection H1 as Hm <-.
  apply mseq_Ok in H as ([] & s1 & Hrec & H). unfold reread in H. rewrite bind_reads in H.
  apply mseq_Ok in H as (av & s1' & H1 & H).
  assert (s1' = s1) as ->.
  { unfold on_db in H1. pose proof (credit_balance_reads (inv_company_id (default i (get_invoice id_ (se_db s1))))
      (inv_customer_id (default i (get_invoice id_ (se_db s1)))) (se_db s1)) as Hr.
    destruct (customer_credit_balance_cents _ _ _) as [r d]. cbn in Hr. injection H1 as _ <-. rewrite Hr. apply set_db_same. }
  destruct (float_gtb _ _); [done|]. destruct (exceeds_balance _ _) eqn:Ex; [done|].
  apply mseq_Ok in H as (a' & s2 & H1' & H). apply new_adjustment_Ok in H1' as (A1 & A2 & A3 & _ & ->).
  apply mseq_Ok in H as ([] & s3 & H1' & H). injection H as -> ->.
  apply settle_credit_Ok in H1' as (s4 & Hops & Hrec2 & _); [|intros; apply post_credit_application_keeps, _].
  exists i, m, s1, (default i (get_invoice id_ (se_db s1))), s4. split_and!; try done. by exists amount.
Qed.
End Credits.

(** A positive float is a nonnegative amount of cents. *)
Lemma money_float_nonneg f m : float_pos f = true -> _money_float f = Ok m -> exists c, m = DFinite c (-2) /\ 0 <= c.
Proof.
  unfold _money_float, quantize_money. destruct f as [v| |]; [|by destruct negative|done]. cbn [float_pos decimal_of_str].
  intros Hv%Z.ltb_lt. destruct (Z.eqb_spec v 0); [lia|]. destruct (Z.ltb_spec v 0); [lia|].
  destruct (shortest_nonneg 17 v (leading_place v) 1) as (c & p & -> & Hc); [lia|].
  destruct (quantize_cents (DFinite c p)) as [z|] eqn:E; [|done]. intros [= <-]. exists z. split; [done|].
  unfold quantize_cents in E. destruct (_ <? _) in E; [|done]. injection E as <-.
  destruct (Z.leb_spec (-2) p); [pose proof (Z.pow_nonneg 10 (p + 2) ltac:(lia)); nia|]. unfold round_half_up.
  pose proof (Z.pow_pos_nonneg 10 (-2 - p) ltac:(lia) ltac:(lia)).
  apply Z.mul_nonneg_nonneg; [lia|]. apply Z.div_pos; lia.
Qed.

(** The cap, as the routes test it. *)
Lemma exceeds_cap c bal i : Z.abs c < 10 ^ 12 -> Z.abs bal < 10 ^ 12 -> inv_balance_due i = Some (cents bal) ->
  exceeds_balance (cents c) i = false -> c <= bal.
Proof.
  intros Hc Hb Hi. unfold exceeds_balance. rewrite Hi.
  destruct (to_float_worth (Some (cents c)) c) as (x & Ex & Nx); [by split; [right|]|].
  destruct (to_float_worth (Some (cents bal)) bal) as (y & Ey & Ny); [by split; [right|]|].
  change (float_of_decimal (cents c) = FNum x) in Ex. rewrite Ex, Ey.
  apply (float_cap x y c bal 100); try done; lia.
Qed.

(** * The row after two recalculations *)

Lemma after_recalc_form sub tax total bal now i : inv_status i <> void ->
  exists t, after_recalc sub tax total bal now i =
    with_paid_at t (with_status (if (bal <=? 0) && (0 <? total) then paid else inv_status i)
      (recalculated sub tax total bal i)).
Proof.
  intros Hv. unfold after_recalc. rewrite bool_decide_eq_false_2 by done. cbn [negb andb].
  destruct (_ && _); [by eexists|]. exists (inv_paid_at i). by destruct i.
Qed.

(** C30: A credit never exceeds what is owed and lowers the balance by exactly
    its amount.  When a credit memo or an application of customer credit goes
    through, its amount, rounded to cents, is not negative and at most the
    recalculated balance (the code's half-cent allowance never lets a cent
    more through), and the stored balance is the old one less it; the invoice
    is paid exactly when nothing is left of a positive total; the one new
    adjustment is appended and nothing else of lines, payments and
    adjustments changes. *)
Theorem credit_exact `{W : World} id_ amount reason closeout actor s a s' i sm c sub tax total bal bal'
    (Hrun : issue_credit_memo id_ amount reason closeout actor s = (Ok a, s') \/
            apply_customer_credit id_ amount actor s = (Ok a, s'))
    (Hi : get_invoice id_ (se_db s) = Some i) (Hsm : invoice_sums id_ (se_db s) = Some sm)
    (Hc : money_col (adj_amount a) = Some c) (Hf : fits (s_credited sm + c) = true)
    (Hdue : due_totals i sm = Some (sub, tax, total, bal))
    (Hdue' : due_totals i (add_credited c sm) = Some (sub, tax, total, bal')) :
  0 <= c <= bal /\ bal' = bal - c /\
  (exists i', get_invoice id_ (se_db s') = Some i' /\
     inv_total i' = Some (cents total) /\ inv_balance_due i' = Some (cents bal') /\
     inv_status i' = (if (bal' <=? 0) && (0 <? total) then paid else inv_status i)) /\
  other_rows (se_db s') = (op_invoice_lines (db_ops (se_db s)), op_payments (db_ops (se_db s)),
    op_adjustments (db_ops (se_db s)) ++ [a], op_expenses (db_ops (se_db s))).
Proof.
  assert (Hcr : exists kind, is_credit_kind kind = true /\ credited kind id_ actor s a s').
  { destruct Hrun as [H|H]; eexists; (split; [|first [by eapply issue_credit_memo_Ok|by eapply apply_customer_credit_Ok]]); done. }
  destruct Hcr as (kind & Hk & i0 & m & s1 & i1 & s2 & Hi0 & Hcred & Hrec1 & Hi1 & Hcap & (f & Hfp & Hm) & Ha & Haid & Hak
    & Hops & Hrec2).
  rewrite Hi in Hi0. injection Hi0 as <-. rewrite Ha in Hc.
  destruct (money_float_nonneg f m Hfp Hm) as (c' & -> & Hc0). apply money_col_Some in Hc as [[= ->] Hcb].
  assert (Hv : inv_status i <> void) by (intros E; by rewrite E in Hcred).
  pose proof (recalculate_row id_ (Some actor) s s1 i sm sub tax total bal Hi Hsm Hdue Hrec1) as Hrow1.
  rewrite Hrow1 in Hi1. cbn [default] in Hi1. unfold id in Hi1.
  destruct (after_recalc_form sub tax total bal (mk_datetime (op_now (db_ops (se_db s))) (Some 0)) i Hv) as [t Ht].
  rewrite Ht in Hrow1, Hi1. set (st := if (bal <=? 0) && (0 <? total) then paid else inv_status i) in *.
  assert (Hst : st <> void) by (unfold st; by destruct (_ && _)).
  destruct (recalc_parts i (se_db s) sm sub tax total bal) as (_ & _ & _ & _ & _ & _ & _ & _ & _ & Hfit & _);
    [by rewrite (get_invoice_id _ _ _ Hi)|done|].
  assert (Hle : c <= bal) by (apply (exceeds_cap c bal i1); [done|done|by rewrite Hi1|done]).
  pose proof (due_totals_balance i _ _ _ _ _ Hdue Hv) as Hb.
  pose proof (due_totals_balance i _ _ _ _ _ Hdue' Hv) as Hb'. cbn [s_paid s_credited add_credited] in Hb'.
  assert (Hbal' : bal' = bal - c) by lia.
  assert (Hid : adj_invoice_id a = id_) by (rewrite Haid, Hi1; exact (get_invoice_id _ _ _ Hi)).
  pose proof (recalculate_only id_ (Some actor) s) as Ho1. rewrite Hrec1 in Ho1. apply only_invoices_rows in Ho1 as [Ho1 _].
  pose proof (recalculate_only id_ (Some actor) s2) as Ho2. rewrite Hrec2 in Ho2. apply only_invoices_rows in Ho2 as [Ho2 _].
  cbn [snd] in Ho1, Ho2. unfold sops, same_ops in Hops.
  assert (Hr2 : other_rows (se_db s2) = other_rows (se_db (with_adjustment a s))).
  { unfold other_rows in *. rewrite Hops. cbn. by injection Ho1 as -> -> -> ->. }
  pose proof (invoice_sums_credit id_ a s (se_db s2) sm c Hsm Hr2 Hid) as Hsm2.
  rewrite Hak, Ha in Hsm2. specialize (Hsm2 Hk ltac:(by apply money_col_Some) Hf).
  assert (Hi2 : get_invoice id_ (se_db s2) = Some (with_paid_at t (with_status st (recalculated sub tax total bal i))))
    by (rewrite (get_invoice_ops _ _ _ Hops); exact Hrow1).
  assert (Hdue2 : due_totals (with_paid_at t (with_status st (recalculated sub tax total bal i))) (add_credited c sm) =
    Some (sub, tax, total, bal')) by (by rewrite (due_totals_again i sm)).
  pose proof (recalculate_row id_ (Some actor) s2 s' _ _ sub tax total bal' Hi2 Hsm2 Hdue2 Hrec2) as Hrow2.
  split; [lia|]. split; [done|]. split; [|rewrite Ho2, Hr2; done].
  eexists. split; [exact Hrow2|].
  edestruct (after_recalc_form sub tax total bal') as [t2 ->]; [exact Hst|]. split; [done|]. split; [done|].
  cbn [inv_status with_paid_at with_status]. unfold st.
  destruct (Z.leb_spec bal' 0), (Z.leb_spec bal 0), (0 <? total); done || lia.
Qed.

(** * Refunds *)

Definition refunds (id_ : uuid) (d : Db) : list InvoiceAdjustment :=
  List.filter (fun a => N.eqb (adj_invoice_id a) id_ && bool_decide (adj_kind a = refund)) (op_adjustments (db_ops d)).

Lemma net_paid_near i d sm rc : invoice_sums (inv_id i) d = Some sm ->
  cents_col adj_amount (refunds (inv_id i) d) = Some rc -> fits (zsum rc) = true ->
  exists v, _net_paid i d = FNum v /\ near v (s_paid sm - zsum rc) 1000 /\ Z.abs (s_paid sm - zsum rc) <= 10 ^ 13.
Proof.
  intros Hsm Hr Hf%Z.ltb_lt. destruct (invoice_sums_spec _ _ _ Hsm) as (_ & _ & HP & _).
  assert (HR : worth (sql_sum (map adj_amount (refunds (inv_id i) d))) (zsum rc)) by (split; [by apply sql_sum_cents|done]).
  unfold _net_paid. fold (refunds (inv_id i) d).
  destruct (to_float_worth _ _ HP) as (x & -> & Nx). destruct (to_float_worth _ _ HR) as (y & -> & Ny).
  destruct HP as [_ HP]. destruct (float_sub_near _ _ _ _ _ _ Nx Ny) as (v & -> & Nv); [lia|lia|].
  exists v. split_and!; [done|done|lia].
Qed.

(** Refunds never exceed the payments received.  When a refund of [c]
    cents goes through, the refunds of the invoice including it are at most
    its live payments, to the cent; with ledger posting on it names the method
    the money leaves by; and of the operational rows only the new adjustment
    is written: the invoice keeps its totals, balance and status. *)
Theorem refund_within_payments `{W : World} id_ amount reason method actor s a s' sm rc c
    (Hrun : process_refund id_ amount reason method actor s = (Ok a, s'))
    (Hsm : invoice_sums id_ (se_db s) = Some sm)
    (Hr : cents_col adj_amount (refunds id_ (se_db s)) = Some rc) (Hf : fits (zsum rc) = true)
    (Hc : money_col (adj_amount a) = Some c) :
  0 <= c /\ zsum rc + c <= s_paid sm /\
  adj_invoice_id a = id_ /\ adj_kind a = refund /\
  db_ops (se_db s') = set_adjustments (fun l => l ++ [a]) (db_ops (se_db s)) /\
  (forall i, get_invoice id_ (se_db s) = Some i -> creditable (inv_status i) = true /\
     (ledger_posting_enabled (inv_company_id i) (se_db s) = true -> blank_to_none method <> None)).
Proof.
  unfold process_refund in Hrun. destruct (_ || _) eqn:Ep in Hrun; [done|].
  rewrite !orb_false_iff in Ep. destruct Ep as [[[Ep%negb_false_iff _] _] _].
  unfold request in Hrun. destruct (mseq _ _ s) as [[x|e] s0] eqn:H; [|done]. injection Hrun as -> ->.
  apply mseq_Ok in H as (i & s1 & H1 & H). apply get_or_404_Ok in H1 as (-> & Hi & _).
  destruct (creditable _) eqn:Ec; cbn [negb] in H; [|done].
  apply mseq_Ok in H as (m & s1 & H1 & H). unfold mlift in H1. injection H1 as Hm <-. rewrite bind_reads in H.
  destruct (float_gtb _ _) eqn:Ecap; [done|]. rewrite bind_reads in H.
  destruct (_ && _) eqn:Emeth; [done|].
  apply mseq_Ok in H as (a' & s2 & H1 & H). apply new_adjustment_Ok in H1 as (A1 & A2 & A3 & _ & ->).
  apply mseq_Ok in H as (r & s3 & H1 & H). injection H as -> ->.
  assert (Hops : sops (with_adjustment a s) s').
  { assert (K : sops (with_adjustment a s) (snd (on_db (post_refund a i (Some actor)) (with_adjustment a s))))
      by (apply on_db_sops, post_refund_keeps, _). by rewrite H1 in K. }
  pose proof (get_invoice_id _ _ _ Hi) as Hid. rewrite A3 in Hc. rewrite <- Hid in Hsm, Hr.
  destruct (money_float_nonneg amount m Ep Hm) as (c' & -> & Hc0). apply money_col_Some in Hc as [[= ->] Hcb].
  destruct (net_paid_near i (se_db s) sm rc Hsm Hr Hf) as (v & Ev & Nv & Hb). rewrite Ev in Ecap.
  destruct (to_float_worth (Some (cents c)) c) as (x & Ex & Nx); [by split; [right|]|].
  change (float_of_decimal (cents c) = FNum x) in Ex. rewrite Ex in Ecap.
  pose proof (float_cap x v c (s_paid sm - zsum rc) 1000 Nx Nv ltac:(lia) Hb Ecap) as Hcap.
  split_and!; [done|lia|by rewrite A1|done|exact Hops|].
  intros j Hj. rewrite Hi in Hj. injection Hj as <-. split; [done|]. intros Hen Hno. rewrite Hen, Hno in Emeth. done.
Qed.

(** * Witnesses *)

Definition goodwill : InvoiceAdjustment :=
  mk_adjustment 1%N 7%N credit_memo (Some (cents 5000)) (Some "goodwill") None (Some (mk_datetime 5 (Some 0)))
    (Some (cents 0)).

Definition with_credit (i : Invoice) (a : InvoiceAdjustment) (payments : list Payment) : Db :=
  set_ops (set_adjustments (fun _ => [a])) (owing_rows i payments (N.succ (adj_id a))).

Definition credited_session : Session :=
  mk_session (with_credit (recalculated 20000 0 20000 15000 owing_invoice) goodwill []) ∅ [] ∅ [].

Lemma credit_exact_witness :
  exists i', get_invoice 7%N (se_db credited_session) = Some i' /\ inv_balance_due i' = Some (cents 15000) /\
    inv_status i' = sent.
Proof.
  destruct (credit_exact (W := toy_world) 7%N (float_of_int 50) " goodwill" None "amy" owing_session goodwill
    credited_session owing_invoice owing_sums 5000 20000 0 20000 20000 15000)
    as (_ & _ & (i' & H1 & _ & H2 & H3) & _); [left; by_compute|reflexivity..|by exists i'].
Defined.

Definition paid_back : InvoiceAdjustment :=
  mk_adjustment 2%N 7%N refund (Some (cents 20000)) None None (Some (mk_datetime 5 (Some 0))) (Some (cents 0)).

Definition refunded_session : Session :=
  mk_session (with_credit (settled (mk_datetime 5 (Some 0)) (recalculated 20000 0 20000 0 owing_invoice)) paid_back
    [the_payment]) {[7%N := paid]} [7%N] ∅ [("invoice.paid", 7%N, 20000)].

Lemma refund_within_payments_witness :
  0 + 20000 <= s_paid (add_paid 20000 owing_sums) /\ op_adjustments (db_ops (se_db refunded_session)) = [paid_back].
Proof.
  destruct (refund_within_payments (W := toy_world) 7%N (float_of_int 200) "" None "amy" paid_session paid_back
    refunded_session (add_paid 20000 owing_sums) [] 20000) as (_ & H1 & _ & _ & H2 & _); [by_compute|reflexivity..|].
  split; [exact H1|]. rewrite H2. reflexivity.
Defined.
