(* ===== verification/DepositSpec.v ===== *)
(** What the deposits do to the final invoice: the netting line is the paid
    portion to the cent and never more than the lines come to, a deposit is
    netted on one final per job, and an unpaid rest is voided or credited
    away. *)

From S2P Require Import Prelude PyStr Dates Money PyNum StrFloat TaxFloat Models PayPeriods Keys Coa Engine EngineInv EngineSpec Service RulesBase Opening Issuance Payments Adjustments RulesSafe RulesSpec Chokepoint InvoiceTotals Estimates InvoiceGuard MoneyRoutes Deposits MoneySpec CreditSpec.

Local Open Scope Z_scope.

(** * What a run may touch *)

(** Only invoice rows under [P] change, none appears or goes, and lines and
    payments are as they were. *)
Definition only_touches (P : uuid -> Prop) (s s' : Session) : Prop :=
  op_invoice_lines (db_ops (se_db s')) = op_invoice_lines (db_ops (se_db s)) /\
  op_payments (db_ops (se_db s')) = op_payments (db_ops (se_db s)) /\
  exists f, (forall i, inv_id (f i) = inv_id i) /\ (forall i, ~ P (inv_id i) -> f i = i) /\
    op_invoices (db_ops (se_db s')) = map f (op_invoices (db_ops (se_db s))).

#[export] Instance touches_preorder P : PreOrder (only_touches P).
Proof.
  split.
  - intros s. split; [done|]. split; [done|]. exists (fun i => i). by rewrite map_id.
  - intros a b c (L1 & P1 & f & F1 & F2 & F3) (L2 & P2 & g & G1 & G2 & G3).
    split; [by rewrite L2|]. split; [by rewrite P2|]. exists (fun i => g (f i)). split; [|split].
    + intros i. by rewrite G1, F1.
    + intros i Hi. rewrite G2; [by apply F2|by rewrite F1].
    + rewrite G3, F3, map_map. done.
Qed.

Lemma touches_mono (P Q : uuid -> Prop) s s' : (forall x, P x -> Q x) -> only_touches P s s' -> only_touches Q s s'.
Proof.
  intros HPQ (L & Pm & f & F1 & F2 & F3). split; [done|]. split; [done|]. exists f. split; [done|].
  split; [|done]. intros i Hi. apply F2. intros HP. by apply Hi, HPQ.
Qed.

Lemma sops_touches P s s' : sops s s' -> only_touches P s s'.
Proof.
  unfold sops, same_ops. intros H. unfold only_touches. rewrite H. split; [done|]. split; [done|].
  exists (fun i => i). by rewrite map_id.
Qed.

Lemma keeps_sops_touches {A} P (m : M Session A) : keeps sops m -> keeps (only_touches P) m.
Proof. intros H s. apply sops_touches, H. Qed.

Lemma reads_touch {A} P (f : Db -> A) : keeps (only_touches P) (on_db (mreads f)).
Proof. apply keeps_sops_touches, on_db_sops, keeps_reads, _. Qed.

(** Writes at one row. *)
Lemma update_touches id_ f s s' : (forall i, inv_id (f i) = inv_id i) ->
  db_ops (se_db s') = set_invoices (update_where (fun i => N.eqb (inv_id i) id_) f) (db_ops (se_db s)) ->
  only_touches (eq id_) s s'.
Proof.
  intros Hf H. unfold only_touches. rewrite H. split; [done|]. split; [done|].
  exists (fun i => if N.eqb (inv_id i) id_ then f i else i). split; [|split; [|done]].
  - intros i. destruct (N.eqb _ _); [apply Hf|done].
  - intros i Hi. destruct (N.eqb_spec (inv_id i) id_); [by subst|done].
Qed.

Lemma write_invoice_touches id_ f : (forall i, inv_id (f i) = inv_id i) -> keeps (only_touches (eq id_)) (mwrite (write_invoice id_ f)).
Proof. intros Hf. apply keeps_mwrite. intros s. by apply (update_touches id_ f). Qed.

Section Touches.
Context `{W : World}.

Lemma transition_touches id_ st actor : keeps (only_touches (eq id_)) (transition_invoice_status id_ st actor).
Proof.
  intros s. destruct (get_invoice id_ (se_db s)) as [i|] eqn:Hi.
  - destruct (decide (st = inv_status i)) as [E|E].
    { unfold transition_invoice_status, mseq, on_db, mreads. rewrite Hi, set_db_same, decide_True by done. cbn. reflexivity. }
    destruct (decide (inv_status i = void)) as [Ev|Ev].
    { unfold transition_invoice_status, mseq, on_db, mreads. rewrite Hi, set_db_same, decide_False by done.
      rewrite decide_True by done. cbn. reflexivity. }
    rewrite (transition_moves s id_ st actor i Hi E Ev).
    etrans; [|apply sops_touches; exact (after_stamp_ops id_ i st actor (stamped id_ st s))].
    by apply (update_touches id_ (with_status st)).
  - unfold transition_invoice_status, mseq, on_db, mreads. rewrite Hi. cbn. rewrite set_db_same. reflexivity.
Qed.

Lemma repost_touches P i actor : keeps (only_touches P) (repost_or_409 i actor).
Proof. apply keeps_sops_touches, repost_or_409_sops. Qed.

(** The monad's rules, and the lemma of each call. *)
Ltac touch_step :=
  match goal with
  | |- keeps _ (on_db (mreads _)) => apply reads_touch
  | |- keeps _ (on_db fresh_uuid) => apply keeps_sops_touches; intros ?; reflexivity
  | |- keeps _ (on_db (resettle_invoice_payments _ _ _)) => apply keeps_sops_touches, on_db_sops, resettle_keeps; exact _
  | |- keeps _ (on_db (post_credit_memo _ _ _)) => apply keeps_sops_touches, on_db_sops, post_credit_memo_keeps; exact _
  | |- keeps _ (on_ledger (reverse_invoice_adjustments _ _)) => apply keeps_sops_touches, on_ledger_sops, reverse_invoice_adjustments_keeps; exact _
  | |- keeps _ (on_ledger (settle_opening_on_void _ _)) => apply keeps_sops_touches, on_ledger_sops, settle_opening_on_void_keeps; exact _
  | |- keeps _ (repost_or_409 _ _) => apply repost_touches
  | |- keeps _ (transition_invoice_status _ _ _) => apply transition_touches
  | |- keeps _ (mwrite (write_invoice _ _)) => apply write_invoice_touches; intros ?; try done; by case_match
  | |- keeps _ (mreturn _) => apply keeps_return; exact _
  | |- keeps _ (mraise _) => apply keeps_raise; exact _
  | |- keeps _ (mlift _) => apply keeps_lift; exact _
  | |- keeps _ (mseq _ _) => apply keeps_seq; [exact _| |intros ?]
  | |- keeps _ (if ?b then _ else _) => destruct b
  | |- keeps _ (match ?x with _ => _ end) => destruct x
  end.
Ltac touch := repeat touch_step.

Lemma recalculate_touches id_ actor : keeps (only_touches (eq id_)) (_recalculate_invoice id_ actor).
Proof.
  unfold _recalculate_invoice, settle_if_paid. touch.
  - intros s. cbn. reflexivity.
  - apply keeps_mwrite. intros s. eapply update_touches; [|reflexivity]. intros j. cbn beta. by case_match.
Qed.

Lemma void_postings_touches id_ i actor : keeps (only_touches (eq id_)) (void_postings id_ i actor).
Proof. unfold void_postings. touch. Qed.

Lemma new_adjustment_touches P kind i amount reason method : keeps (only_touches P) (new_adjustment kind i amount reason method).
Proof.
  unfold new_adjustment. touch. apply keeps_mwrite. intros s. split; [done|]. split; [done|].
  exists (fun i => i). by rewrite map_id.
Qed.

Lemma credit_remainder_touches dep r number actor : keeps (only_touches (eq (inv_id dep))) (credit_remainder dep r number actor).
Proof. unfold credit_remainder. touch; [apply new_adjustment_touches|apply recalculate_touches]. Qed.

Lemma supersede_touches number actor g dep : keeps (only_touches (eq (inv_id dep))) (supersede_deposit number actor g dep).
Proof.
  unfold supersede_deposit. apply keeps_seq; [exact _|apply recalculate_touches|intros _].
  unfold reread. intros s. rewrite bind_reads.
  set (i := default dep (get_invoice (inv_id dep) (se_db s))).
  assert (Hid : inv_id i = inv_id dep).
  { unfold i. destruct (get_invoice (inv_id dep) (se_db s)) eqn:E; [by apply get_invoice_id in E|done]. }
  rewrite <- Hid. clearbody i. generalize s. clear s.
  match goal with |- forall s, only_touches _ s (snd (?m s)) => change (keeps (only_touches (eq (inv_id i))) m) end.
  touch; [apply void_postings_touches| |apply credit_remainder_touches].
  apply keeps_mwrite. intros s. by eapply update_touches; [|reflexivity].
Qed.

(** The whole loop only_touches the deposits only. *)
Lemma gather_touches number actor deps g :
  keeps (only_touches (fun x => x ∈ map inv_id deps)) (mfold (supersede_deposit number actor) g deps).
Proof.
  revert g. induction deps as [|dep deps IH]; intros g; cbn [mfold map]; [apply keeps_return, _|].
  apply keeps_seq; [exact _| |intros g'].
  - intros s. eapply touches_mono; [|apply supersede_touches]. intros x <-. by left.
  - intros s. eapply touches_mono; [|apply IH]. intros x Hx. by right.
Qed.

End Touches.

(** * What was paid on the deposits *)

Definition paid_cents (id_ : uuid) (d : Db) : option Z :=
  pc ← cents_col pay_amount
         (List.filter (fun p => N.eqb (pay_invoice_id p) id_ && negb (is_voided p)) (op_payments (db_ops d)));
  if fits (zsum pc) then Some (zsum pc) else None.

(** The positive sums, deposit by deposit. *)
Definition paid_on (deps : list Invoice) (d : Db) : option Z :=
  cs ← mapM (fun i => paid_cents (inv_id i) d) deps; Some (zsum (map (fun c => Z.max c 0) cs)).

Lemma paid_cents_worth id_ d c : paid_cents id_ d = Some c -> worth (paid_sum id_ d) c.
Proof.
  unfold paid_cents. destruct (cents_col _ _) as [pc|] eqn:E; [cbn [mbind option_bind]|done].
  destruct (fits (zsum pc)) eqn:Ef; [|done]. intros [= <-]. apply Z.ltb_lt in Ef. split; [|done].
  unfold paid_sum. by apply sql_sum_cents.
Qed.

Lemma a_cent_spec : exists h, a_cent = FNum h /\ 80 * least <= h * 10000 <= 91 * least.
Proof.
  unfold a_cent. cbn [float_of_decimal]. change (10 ^ Z.max 0 (-3)) with 1. change (10 ^ Z.max 0 (- -3)) with 1000.
  rewrite Z.mul_1_r. destruct (float_of_ratio_close 9 1000 0) as (h & -> & Hh); [lia|lia|done|]. exists h. split; [done|].
  change (2 ^ 54) with 18014398509481984 in Hh. rewrite Z.pow_0_r, Z.mul_1_r in Hh. pose proof least_pos. lia.
Qed.

(** A stored amount above 0.009 is at least a cent. *)
Lemma above_a_cent v c err : err <= 2 ^ 16 -> near v c err -> (0 < c -> float_gtb (FNum v) a_cent = true) /\
  (c <= 0 -> float_gtb (FNum v) a_cent = false).
Proof.
  intros He Hn. destruct a_cent_spec as (h & -> & Hh). unfold near in Hn. cbn [float_gtb]. pose proof least_pos as HL.
  change (2 ^ 20) with 1048576 in Hn. change (2 ^ 16) with 65536 in He.
  assert (Herr : 16 * Z.abs (v * 100 - c * least) <= least) by nia.
  split; intros Hc; [apply Z.ltb_lt|apply Z.ltb_ge]; nia.
Qed.

Section Gather.
Context `{W : World}.

Lemma supersede_paid number actor g dep s g' s' c : supersede_deposit number actor g dep s = (Ok g', s') ->
  paid_cents (inv_id dep) (se_db s) = Some c ->
  ga_total_paid g' = (if 0 <? c then float_add (ga_total_paid g) (_to_float (paid_sum (inv_id dep) (se_db s)))
                      else ga_total_paid g).
Proof.
  unfold supersede_deposit. intros H Hc. apply mseq_Ok in H as ([] & s1 & H1 & H).
  pose proof (recalculate_touches (inv_id dep) (Some actor) s) as Ht. rewrite H1 in Ht. destruct Ht as (_ & Hp & _). cbn [snd] in Hp.
  unfold reread in H. rewrite !bind_reads in H. set (i := default dep _) in H.
  assert (Hid : inv_id i = inv_id dep).
  { unfold i. destruct (get_invoice (inv_id dep) (se_db s1)) eqn:E; [by apply get_invoice_id in E|done]. }
  assert (Hsum : paid_sum (inv_id i) (se_db s1) = paid_sum (inv_id dep) (se_db s)) by (unfold paid_sum; by rewrite Hid, Hp).
  cbv zeta in H. rewrite Hsum in H. destruct (to_float_worth _ _ (paid_cents_worth _ _ _ Hc)) as (v & Hv & Nv). rewrite Hv in H |- *.
  destruct (above_a_cent v c 100 ltac:(done) Nv) as [A1 A2].
  assert (Hcount : float_gtb (FNum v) a_cent = (0 <? c)).
  { destruct (Z.ltb_spec 0 c); [by apply A1|by apply A2]. }
  rewrite Hcount in H. clearbody i. clear A1 A2 Hcount.
  assert (Hg : forall g1, (exists s2, mseq (void_postings (inv_id i) i actor) (fun _ => mseq (mwrite (set_db (clear_balance (inv_id i))))
      (fun _ => mreturn (mk_gathered (ga_total_paid g1) (ga_sources g1) (ga_superseded g1) (ga_voided g1 ++ [inv_number i])))) s1 = (Ok g', s2)) \/
    (exists s2, mseq (credit_remainder i (_to_float (inv_balance_due i)) number actor)
      (fun _ => mreturn (mk_gathered (ga_total_paid g1) (ga_sources g1) (ga_superseded g1 ++ [inv_number i]) (ga_voided g1))) s1 = (Ok g', s2)) \/
    g' = g1 -> ga_total_paid g' = ga_total_paid g1).
  { intros g1 [(s2 & E)|[(s2 & E)| ->]]; [| |done].
    - apply mseq_Ok in E as (x & s3 & _ & E). apply mseq_Ok in E as (y & s4 & _ & E). by injection E as <-.
    - apply mseq_Ok in E as (x & s3 & _ & E). by injection E as <-. }
  assert (Hpick : ga_total_paid g' = ga_total_paid (if 0 <? c then mk_gathered (float_add (ga_total_paid g) (FNum v))
       (ga_sources g ++ [inv_number i]) (ga_superseded g) (ga_voided g) else g)).
  { apply Hg. destruct (_ && _); [destruct (float_leb _ _); [left; by exists s'|right; left; by exists s']|].
    right; right. by injection H as <-. }
  rewrite Hpick. by destruct (0 <? c).
Qed.

Lemma paid_cents_ext id_ d d' : op_payments (db_ops d') = op_payments (db_ops d) -> paid_cents id_ d' = paid_cents id_ d.
Proof. unfold paid_cents. by intros ->. Qed.

Lemma gather_paid number actor deps g s g' s' P v z err :
  mfold (supersede_deposit number actor) g deps s = (Ok g', s') -> paid_on deps (se_db s) = Some P ->
  ga_total_paid g = FNum v -> near v z err -> 0 <= z -> z + P < 10 ^ 12 -> err + 900 * Z.of_nat (length deps) <= 2 ^ 17 ->
  exists w, ga_total_paid g' = FNum w /\ near w (z + P) (err + 900 * Z.of_nat (length deps)) /\ 0 <= P.
Proof.
  revert g s P v z err. induction deps as [|dep deps IH]; intros g s P v z err H HP Hg Hn Hz Hb He.
  { injection H as <- <-. injection HP as <-. exists v. rewrite Hg. cbn. rewrite !Z.add_0_r. done. }
  cbn [mfold] in H. apply mseq_Ok in H as (g1 & s1 & H1 & H). unfold paid_on in HP. cbn [mapM] in HP.
  destruct (paid_cents (inv_id dep) (se_db s)) as [c|] eqn:Ec; [cbn [mbind option_bind mret option_ret] in HP|done].
  destruct (mapM _ deps) as [cs|] eqn:Em; [cbn [mbind option_bind mret option_ret] in HP|done].
  injection HP as <-. cbn [map zsum] in Hb. 
  pose proof (supersede_touches number actor g dep s) as Ht. rewrite H1 in Ht. destruct Ht as (_ & Hp & _). cbn [snd] in Hp.
  assert (HP1 : paid_on deps (se_db s1) = Some (zsum (map (fun c => Z.max c 0) cs))).
  { unfold paid_on. erewrite mapM_ext; [by rewrite Em|]. intros i. by apply paid_cents_ext. }
  assert (Hpos : 0 <= zsum (map (fun c => Z.max c 0) cs)) by (clear; induction cs as [|x cs IHc]; cbn [map zsum]; lia).
  pose proof (supersede_paid number actor g dep s g1 s1 c H1 Ec) as Hg1. rewrite Hg in Hg1. cbn [length] in *.
  rewrite Nat2Z.inj_succ in *. destruct (Z.ltb_spec 0 c) as [Hc|Hc].
  - destruct (to_float_worth _ _ (paid_cents_worth _ _ _ Ec)) as (u & Hu & Nu). rewrite Hu in Hg1.
    destruct (float_add_near v u z c err 100 Hn Nu) as (w & Hw & Nw); [lia|change (2 ^ 17) with 131072 in He; change (2 ^ 18) with 262144; lia|].
    rewrite Hw in Hg1. destruct (IH g1 s1 _ w (z + c) (err + 100 + 800) H HP1 Hg1 Nw) as (w' & -> & Nw' & _); [lia|lia|lia|].
    exists w'. cbn [map zsum]. rewrite (Z.max_l c 0) by lia. split; [done|]. split; [|lia].
    replace (z + (c + zsum (map (fun c => Z.max c 0) cs))) with (z + c + zsum (map (fun c => Z.max c 0) cs)) by lia.
    unfold near in *. pose proof least_pos. lia.
  - destruct (IH g1 s1 _ v z err H HP1 Hg1 Hn Hz) as (w' & -> & Nw' & _); [lia|lia|].
    exists w'. cbn [map zsum]. rewrite (Z.max_r c 0) by lia. split; [done|]. split; [|lia].
    rewrite Z.add_0_l. unfold near in *. pose proof least_pos. nia.
Qed.
End Gather.

(** * The netting line *)

Lemma near_min v w x y err : near v x err -> near w y err ->
  exists u, float_min (FNum v) (FNum w) = FNum u /\ near u (Z.min x y) err.
Proof.
  unfold near, float_min. cbn [float_gtb]. intros Hv Hw. pose proof least_pos as HL.
  assert (Hm : Z.min x y * least = Z.min (x * least) (y * least)) by nia. rewrite Hm.
  change (2 ^ 20) with 1048576 in *. destruct (Z.ltb_spec w v); eexists; (split; [reflexivity|]); lia.
Qed.

Lemma near_max0 v z err : near v z err -> exists u, float_max0 (FNum v) = FNum u /\ near u (Z.max z 0) err.
Proof.
  unfold near, float_max0. cbn [float_gtb]. intros Hv. pose proof least_pos as HL.
  assert (Hm : Z.max z 0 * least = Z.max (z * least) 0) by nia. rewrite Hm.
  change (2 ^ 20) with 1048576 in *. destruct (Z.ltb_spec v 0); eexists; (split; [reflexivity|]); lia.
Qed.

Lemma near_weaken v z e1 e2 : e1 <= e2 -> near v z e1 -> near v z e2.
Proof. unfold near. intros He Hn. pose proof least_pos. nia. Qed.

Lemma near_opp v z err : near v z err -> near (- v) (- z) err.
Proof. unfold near. replace (- v * 100 - - z * least) with (- (v * 100 - z * least)) by ring. by rewrite Z.abs_opp. Qed.

Section Netting.
Context `{W : World}.

(** The lines after netting [A] cents. *)
Definition netted_lines (id_ : uuid) (A : Z) (sources : list string) (d : Db) : list InvoiceLine :=
  op_invoice_lines (db_ops d) ++
  (if 0 <? A then [netting_line id_ (DFinite (- A) (-2)) sources (max_sort id_ d + 1)] else []).

Lemma net_deposit_exact id_ g s v P lc :
  ga_total_paid g = FNum v -> near v P (2 ^ 17) -> 0 <= P < 10 ^ 12 ->
  cents_col il_line_total (active_lines id_ (se_db s)) = Some lc -> fits (zsum lc) = true ->
  let A := Z.min P (Z.max (zsum lc) 0) in
  exists s', net_deposit id_ g s = (Ok (Netted (float_of_decimal (DFinite A (-2))) (float_of_decimal (DFinite (P - A) (-2)))
      (ga_superseded g) (ga_voided g) (ga_sources g)), s') /\
    op_invoice_lines (db_ops (se_db s')) = netted_lines id_ A (ga_sources g) (se_db s) /\
    op_invoices (db_ops (se_db s')) = op_invoices (db_ops (se_db s)) /\
    op_payments (db_ops (se_db s')) = op_payments (db_ops (se_db s)).
Proof.
  intros Hg Nv HP Hlc Hf%Z.ltb_lt A. unfold net_deposit. rewrite bind_reads.
  assert (Hw : worth (sql_sum (map il_line_total (active_lines id_ (se_db s)))) (zsum lc)) by (split; [by apply sql_sum_cents|done]).
  destruct (to_float_worth _ _ Hw) as (l & -> & Nl). rewrite Hg.
  destruct (near_max0 l _ _ Nl) as (l0 & -> & Nl0).
  destruct (near_min v l0 P (Z.max (zsum lc) 0) (2 ^ 17) Nv) as (m & -> & Nm); [by apply (near_weaken _ _ 100)|]. fold A in Nm.
  rewrite (float_round2_near m A (2 ^ 17) ltac:(done) Nm), <- float_of_cents. cbv zeta.
  assert (HA : 0 <= A < 10 ^ 12) by lia. rewrite (proj2 (float_cents_nonpos A ltac:(lia))).
  destruct (float_cents A ltac:(lia)) as (a & Ea & Na).
  assert (Hneg : _money_float (float_neg (float_of_decimal (DFinite A (-2)))) = Ok (DFinite (- A) (-2))).
  { rewrite Ea. cbn [float_neg]. unfold _money_float. apply (quantize_float_near (- a) (- A) 100); [lia|done|by apply near_opp]. }
  assert (Hun : float_round2 (float_sub (FNum v) (float_of_decimal (DFinite A (-2)))) = float_of_decimal (DFinite (P - A) (-2))).
  { rewrite Ea. destruct (float_sub_near v a P A (2 ^ 17) 100 Nv Na) as (u & -> & Nu); [lia|done|].
    rewrite (float_round2_near u (P - A) (2 ^ 17 + 100 + 800)); [by rewrite <- float_of_cents|done|done]. }
  unfold netted_lines. destruct (0 <? A).
  - unfold mseq at 1. rewrite bind_reads. unfold mseq at 1, mlift at 1. rewrite Hneg.
    eexists. unfold add_line, mwrite, mreturn. rewrite Hun. split; [reflexivity|]. by split.
  - eexists. unfold mseq, mreturn. rewrite Hun. split; [reflexivity|]. by rewrite app_nil_r.
Qed.

Lemma touches_lines P id_ s s' : only_touches P s s' ->
  active_lines id_ (se_db s') = active_lines id_ (se_db s) /\ max_sort id_ (se_db s') = max_sort id_ (se_db s).
Proof. intros (Hl & _). unfold active_lines, max_sort. by rewrite Hl. Qed.

Lemma touches_row P id_ s s' : only_touches P s s' -> ~ P id_ -> get_invoice id_ (se_db s') = get_invoice id_ (se_db s).
Proof.
  intros (_ & _ & f & F1 & F2 & F3) HP. unfold get_invoice. rewrite F3. clear F3.
  induction (op_invoices (db_ops (se_db s))) as [|i l IH]; [done|]. cbn [map List.find]. rewrite F1.
  destruct (N.eqb_spec (inv_id i) id_) as [E|E]; [|exact IH]. rewrite F2; [done|by rewrite E].
Qed.

(** A deposit of the list is not the invoice itself. *)
Lemma deposits_for_other invoice d : inv_id invoice ∉ map inv_id (deposits_for invoice d).
Proof.
  intros (i & Hi & H)%list_elem_of_fmap. unfold deposits_for in H.
  assert (Hp : i ∈ List.filter (fun j => (match inv_job_id invoice with Some k => opt_eqb (inv_job_id j) (Some k) | None => false end ||
                   match inv_estimate_id invoice with Some e => opt_eqb (inv_estimate_id j) (Some e) | None => false end) &&
                   is_deposit j && negb (N.eqb (inv_id j) (inv_id invoice)) && is_live j) (op_invoices (db_ops d))).
  { by rewrite <- (stable_sort_perm oldest_first). }
  apply list_elem_of_In, filter_In in Hp as [_ Hp]. rewrite !andb_true_iff in Hp. destruct Hp as [[_ Hp] _].
  by rewrite <- Hi, N.eqb_refl in Hp.
Qed.

(** The run of [apply_deposits_to_final] past its guards. *)
Lemma apply_deposits_run id_ actor s s' r invoice lc P :
  get_invoice id_ (se_db s) = Some invoice -> is_deposit invoice = false -> prior_netting invoice (se_db s) = None ->
  deposits_for invoice (se_db s) <> [] -> apply_deposits_to_final id_ actor s = (Ok r, s') ->
  paid_on (deposits_for invoice (se_db s)) (se_db s) = Some P -> P < 10 ^ 12 ->
  (length (deposits_for invoice (se_db s)) <= 50)%nat ->
  cents_col il_line_total (active_lines id_ (se_db s)) = Some lc -> fits (zsum lc) = true ->
  let A := Z.min P (Z.max (zsum lc) 0) in
  0 <= P /\ exists superseded voided sources s1,
    r = Netted (float_of_decimal (DFinite A (-2))) (float_of_decimal (DFinite (P - A) (-2))) superseded voided sources /\
    only_touches (fun x => x ∈ map inv_id (deposits_for invoice (se_db s))) s s1 /\
    op_invoice_lines (db_ops (se_db s')) = netted_lines id_ A sources (se_db s) /\
    op_invoices (db_ops (se_db s')) = op_invoices (db_ops (se_db s1)) /\
    op_payments (db_ops (se_db s')) = op_payments (db_ops (se_db s)).
Proof.
  intros Hi Hd Hprior Hne H HP HPb Hlen Hlc Hf A. unfold apply_deposits_to_final in H. rewrite bind_reads, Hi, Hd, bind_reads in H.
  set (deps := deposits_for invoice (se_db s)) in *. destruct deps as [|d0 dl] eqn:Edeps; [done|]. rewrite <- Edeps in *. clear Hne.
  rewrite bind_reads, Hprior in H.
  apply mseq_Ok in H as (g & s1 & H1 & H).
  destruct (gather_paid (inv_number invoice) actor deps _ s g s1 P 0 0 0 H1 HP eq_refl) as (w & Hw & Nw & HP0);
    [unfold near; by rewrite !Z.mul_0_l|lia|lia|change (2 ^ 17) with 131072; lia|].
  pose proof (gather_touches (inv_number invoice) actor deps (mk_gathered (FNum 0) [] [] []) s) as Ht. rewrite H1 in Ht. cbn [snd] in Ht.
  destruct (touches_lines _ id_ _ _ Ht) as [Hal Hms]. destruct Ht as (Hl & Hp & Ht'). split; [done|].
  rewrite Z.add_0_l in Nw. rewrite Hw in H. destruct (above_a_cent w P (2 ^ 16) ltac:(done)) as [A1 A2];
    [apply (near_weaken _ _ (0 + 900 * Z.of_nat (length deps))); [change (2 ^ 16) with 65536; lia|done]|].
  destruct (Z.eq_dec P 0) as [EP|EP].
  - assert (float_leb (FNum w) a_cent = true) as Hleb.
    { destruct a_cent_spec as (h & Eh & _). rewrite Eh in *. cbn [float_leb]. by rewrite A2 by lia. }
    rewrite Hleb in H. injection H as <- <-. assert (A = 0) as -> by lia.
    exists (ga_superseded g), (ga_voided g), (ga_sources g), s1.
    rewrite EP, Z.sub_diag, !float_zero. unfold netted_lines. cbn [Z.ltb Z.compare]. rewrite app_nil_r.
    split; [reflexivity|]. split; [exact (conj Hl (conj Hp Ht'))|]. split; [exact Hl|]. split; [reflexivity|exact Hp].
  - assert (float_leb (FNum w) a_cent = false) as Hleb.
    { destruct a_cent_spec as (h & Eh & _). rewrite Eh in *. cbn [float_leb]. by rewrite A1 by lia. }
    rewrite Hleb in H.
    destruct (net_deposit_exact id_ g s1 w P lc Hw) as (s2 & E & L1 & L2 & L3);
      [apply (near_weaken _ _ (0 + 900 * Z.of_nat (length deps))); [change (2 ^ 17) with 131072; lia|done]|lia|by rewrite Hal|done|].
    rewrite E in H. injection H as <- <-. exists (ga_superseded g), (ga_voided g), (ga_sources g), s1.
    split; [reflexivity|]. split; [exact (conj Hl (conj Hp Ht'))|]. split; [|split; [exact L2|by rewrite L3]].
    rewrite L1. unfold netted_lines. by rewrite Hl, Hms.
Qed.
End Netting.

(** C24: The final invoice nets the deposits to the cent.  When the deposits of
    its job or estimate (at most fifty, in amounts that fit their columns) are
    applied to an invoice that is not itself a deposit and no other live
    invoice of the job nets one, the amount applied is what is paid on the
    deposits or, if less, what the lines come to, never below zero; one
    non-taxable line for minus that amount is added if it is positive and no
    other line changes; the rest is reported unapplied; payments are
    unchanged, and so is every invoice but the deposits. *)
Theorem deposits_netted `{W : World} id_ actor s s' r invoice lc P
    (Hi : get_invoice id_ (se_db s) = Some invoice) (Hd : is_deposit invoice = false)
    (Hprior : prior_netting invoice (se_db s) = None) (Hne : deposits_for invoice (se_db s) <> [])
    (Hrun : apply_deposits_to_final id_ actor s = (Ok r, s'))
    (HP : paid_on (deposits_for invoice (se_db s)) (se_db s) = Some P) (HPb : P < 10 ^ 12)
    (Hlen : (length (deposits_for invoice (se_db s)) <= 50)%nat)
    (Hlc : cents_col il_line_total (active_lines id_ (se_db s)) = Some lc) (Hf : fits (zsum lc) = true) :
  let A := Z.min P (Z.max (zsum lc) 0) in
  0 <= A <= P /\
  (exists superseded voided sources,
    r = Netted (float_of_decimal (DFinite A (-2))) (float_of_decimal (DFinite (P - A) (-2))) superseded voided sources /\
    op_invoice_lines (db_ops (se_db s')) = netted_lines id_ A sources (se_db s)) /\
  op_payments (db_ops (se_db s')) = op_payments (db_ops (se_db s)) /\
  (forall j, j ∉ map inv_id (deposits_for invoice (se_db s)) -> get_invoice j (se_db s') = get_invoice j (se_db s)) /\
  get_invoice id_ (se_db s') = Some invoice.
Proof.
  intros A. destruct (apply_deposits_run id_ actor s s' r invoice lc P) as (HP0 & sup & vo & src & s1 & Hr & Ht & Hl & Hinv & Hp);
    try assumption. fold A in Hr, Hl.
  assert (Hrows : forall j, j ∉ map inv_id (deposits_for invoice (se_db s)) ->
                    get_invoice j (se_db s') = get_invoice j (se_db s)).
  { intros j Hj. rewrite <- (touches_row _ j _ _ Ht Hj). unfold get_invoice. by rewrite Hinv. }
  split; [lia|]. split; [by exists sup, vo, src|]. split; [exact Hp|]. split; [exact Hrows|].
  rewrite Hrows; [exact Hi|]. rewrite <- (get_invoice_id _ _ _ Hi). apply deposits_for_other.
Qed.

(** The first netting line found belongs to an invoice with a number. *)
Lemma prior_found invoice j d i l : inv_job_id invoice = Some j ->
  Forall (fun i => inv_number i <> "") (op_invoices (db_ops d)) ->
  i ∈ op_invoices (db_ops d) -> l ∈ op_invoice_lines (db_ops d) ->
  inv_job_id i = Some j -> inv_id i <> inv_id invoice -> is_deposit i = false -> is_live i = true ->
  il_invoice_id l = inv_id i -> is_netting_line l = true -> prior_netting invoice d <> None.
Proof.
  intros Hj Hnum Hi Hl Hij Hid Hdep Hlive Hlid Hnet. unfold prior_netting. rewrite Hj.
  destruct (List.find _ _) as [k|] eqn:E.
  - apply List.find_some in E as [Hk _]. rewrite Forall_forall in Hnum. apply list_elem_of_In in Hk.
    specialize (Hnum k Hk). destruct (String.eqb_spec (inv_number k) ""); done.
  - eapply List.find_none in E; [|by apply list_elem_of_In]. cbn beta in E. unfold opt_eqb in E.
    rewrite Hij, bool_decide_eq_true_2, Hdep, Hlive in E by done.
    rewrite (proj2 (N.eqb_neq _ _) Hid) in E. cbn [andb negb] in E.
    assert (existsb (fun l => N.eqb (il_invoice_id l) (inv_id i) && is_netting_line l) (op_invoice_lines (db_ops d)) = true)
      as Hex; [|congruence].
    apply existsb_elem. exists l. split; [done|]. by rewrite Hlid, N.eqb_refl, Hnet.
Qed.

Lemma netting_line_nets id_ A sources sort : 0 < A -> is_netting_line (netting_line id_ (DFinite (- A) (-2)) sources sort) = true.
Proof.
  intros HA. unfold is_netting_line, netting_line, opt_eqb. cbn [il_deleted_at il_category il_line_total].
  rewrite !bool_decide_eq_true_2 by done. cbn [andb]. unfold dec_ltb. cbn. rewrite Z.mul_1_r. by destruct A.
Qed.

(** A job's deposits are netted once.  After deposits were netted into a
    live final invoice of a job for a positive amount, applying the job's
    deposits to any other invoice of the job writes nothing at all and adds no
    second line: it is skipped, naming an invoice, or there is nothing to
    do. *)
Theorem deposits_netted_once `{W : World} id_ actor s s' r invoice lc P j id2 actor2 invoice2
    (Hi : get_invoice id_ (se_db s) = Some invoice) (Hd : is_deposit invoice = false)
    (Hprior : prior_netting invoice (se_db s) = None) (Hne : deposits_for invoice (se_db s) <> [])
    (Hrun : apply_deposits_to_final id_ actor s = (Ok r, s'))
    (HP : paid_on (deposits_for invoice (se_db s)) (se_db s) = Some P) (HPb : P < 10 ^ 12)
    (Hlen : (length (deposits_for invoice (se_db s)) <= 50)%nat)
    (Hlc : cents_col il_line_total (active_lines id_ (se_db s)) = Some lc) (Hf : fits (zsum lc) = true)
    (Hlive : is_live invoice = true) (Hjob : inv_job_id invoice = Some j)
    (Hnum : Forall (fun i => inv_number i <> "") (op_invoices (db_ops (se_db s'))))
    (Hpos : 0 < Z.min P (Z.max (zsum lc) 0))
    (Hi2 : get_invoice id2 (se_db s') = Some invoice2) (Hid2 : id2 <> id_) (Hjob2 : inv_job_id invoice2 = Some j) :
  exists r2, apply_deposits_to_final id2 actor2 s' = (Ok r2, s') /\
    (r2 = NothingToDo \/ exists prior, r2 = Skipped prior).
Proof.
  destruct (apply_deposits_run id_ actor s s' r invoice lc P) as (HP0 & sup & vo & src & s1 & Hr & Ht & Hl & Hinv & Hp);
    try assumption.
  set (A := Z.min P (Z.max (zsum lc) 0)) in *.
  assert (Hrow : get_invoice id_ (se_db s') = Some invoice).
  { rewrite <- Hi. etrans; [|apply (touches_row _ id_ _ _ Ht)]; [unfold get_invoice; by rewrite Hinv|].
    rewrite <- (get_invoice_id _ _ _ Hi). apply deposits_for_other. }
  assert (Hpn : prior_netting invoice2 (se_db s') <> None).
  { eapply (prior_found invoice2 j (se_db s') invoice); try done.
    - unfold get_invoice in Hrow. apply List.find_some in Hrow as [Hin _]. by apply list_elem_of_In.
    - rewrite Hl. unfold netted_lines. rewrite (proj2 (Z.ltb_lt _ _) Hpos). apply elem_of_app. right. by left.
    - rewrite (get_invoice_id _ _ _ Hi), (get_invoice_id _ _ _ Hi2). congruence.
    - cbn [netting_line il_invoice_id]. by rewrite (get_invoice_id _ _ _ Hi).
    - by apply netting_line_nets. }
  unfold apply_deposits_to_final. rewrite bind_reads, Hi2. destruct (is_deposit invoice2); [by exists NothingToDo; auto|].
  rewrite bind_reads. destruct (deposits_for invoice2 (se_db s')); [by exists NothingToDo; auto|].
  rewrite bind_reads. destruct (prior_netting invoice2 (se_db s')) as [n|]; [|done]. exists (Skipped n). eauto.
Qed.

(** * The unpaid rest of a deposit *)

Lemma due_totals_closed i sm sub tax total bal : due_totals i sm = Some (sub, tax, total, bal) ->
  inv_status i <> void -> 0 < bal -> due_totals i (add_credited bal sm) = Some (sub, tax, total, 0).
Proof.
  unfold due_totals. cbn [add_credited s_lines s_taxable s_paid s_credited]. intros H Hv Hb.
  rewrite bool_decide_eq_false_2 in * by done.
  match type of H with (?m ≫= _) = _ => destruct m as [tax'|]; [cbn [mbind option_bind] in *|done] end.
  match type of H with (?m ≫= _) = _ => destruct m as [[sub' total']|]; [cbn [mbind option_bind fst snd] in *|done] end.
  destruct (fits tax') eqn:F1; [|done]. destruct (fits total') eqn:F2; [|done]. cbn [andb] in *.
  destruct (fits (Z.max _ 0)) eqn:F3 in H; [|done]. injection H as -> -> -> H.
  rewrite (Z.max_r _ 0) by lia. done.
Qed.

Section Superseded.
Context `{W : World}.

(** A deposit with nothing paid, as the void leaves it. *)
Lemma void_deposit id_ actor s s' i : get_invoice id_ (se_db s) = Some i -> inv_status i <> void ->
  void_postings id_ i actor s = (Ok tt, s') ->
  exists i', get_invoice id_ (clear_balance id_ (se_db s')) = Some i' /\ inv_status i' = void /\
    inv_balance_due i' = Some (DFinite 0 (-2)) /\ inv_total i' = inv_total i.
Proof.
  intros Hi Hv H. pose proof (void_postings_row s id_ actor i Hi Hv) as Hrow. rewrite H in Hrow. cbn [snd] in Hrow.
  unfold clear_balance. rewrite get_invoice_update by done. rewrite Hrow. eexists. split; [reflexivity|]. done.
Qed.

Lemma void_postings_adjustments id_ i actor s s' : void_postings id_ i actor s = (Ok tt, s') ->
  op_adjustments (db_ops (se_db s')) = op_adjustments (db_ops (se_db s)).
Proof.
  intros H. assert (Hk : keeps only_invoices (void_postings id_ i actor)).
  { unfold void_postings. apply keeps_seq; [exact _|apply transition_only|intros _].
    apply keeps_seq; [exact _|apply keeps_sops_only, on_ledger_sops, reverse_invoice_adjustments_keeps, _|intros _].
    apply keeps_sops_only, on_ledger_sops, settle_opening_on_void_keeps, _. }
  specialize (Hk s). rewrite H in Hk. by apply only_invoices_rows in Hk as [[= _ _ -> _] _].
Qed.

(** A partly paid one, as the credit leaves it. *)
Lemma credit_deposit number actor s s' i sm sub tax total bal :
  get_invoice (inv_id i) (se_db s) = Some i -> inv_status i <> void -> invoice_sums (inv_id i) (se_db s) = Some sm ->
  due_totals i sm = Some (sub, tax, total, bal) -> 0 < bal -> fits (s_credited sm + bal) = true ->
  inv_balance_due i = Some (DFinite bal (-2)) ->
  credit_remainder i (_to_float (inv_balance_due i)) number actor s = (Ok tt, s') ->
  exists i' a, get_invoice (inv_id i) (se_db s') = Some i' /\ inv_balance_due i' = Some (DFinite 0 (-2)) /\
    inv_status i' = (if 0 <? total then paid else inv_status i) /\
    op_adjustments (db_ops (se_db s')) = op_adjustments (db_ops (se_db s)) ++ [a] /\
    adj_invoice_id a = inv_id i /\ adj_kind a = credit_memo /\ adj_amount a = Some (DFinite bal (-2)).
Proof.
  intros Hi Hv Hsm Hdue Hb Hf Hbal H. unfold credit_remainder in H.
  destruct (recalc_parts i (se_db s) sm sub tax total bal Hsm Hdue) as (_ & _ & _ & _ & _ & _ & _ & _ & _ & Hfit & _).
  apply mseq_Ok in H as (m & s1 & H1 & H). unfold mlift in H1. injection H1 as Hm <-.
  rewrite Hbal, (money_float_worth _ bal) in Hm by (split; [by right|done]). injection Hm as <-.
  apply mseq_Ok in H as (a & s2 & H1 & H). apply new_adjustment_Ok in H1 as (A1 & A2 & A3 & _ & ->).
  apply mseq_Ok in H as (x & s3 & H1 & H). apply mseq_Ok in H as (y & s4 & H2 & H).
  assert (K1 : sops (with_adjustment a s) (snd (on_db (post_credit_memo a i (Some actor)) (with_adjustment a s))))
    by (apply on_db_sops, post_credit_memo_keeps, _). rewrite H1 in K1.
  assert (K2 : sops s3 (snd (on_db (resettle_invoice_payments i (Some actor) None) s3))) by (apply on_db_sops, resettle_keeps, _).
  rewrite H2 in K2. unfold sops, same_ops in K1, K2. cbn [snd] in K1, K2.
  assert (Hops : db_ops (se_db s4) = db_ops (se_db (with_adjustment a s))) by congruence.
  assert (Hsm2 : invoice_sums (inv_id i) (se_db s4) = Some (add_credited bal sm)).
  { apply (invoice_sums_credit (inv_id i) a s); try done; [unfold other_rows; by rewrite Hops|by rewrite A2|].
    rewrite A3. by apply money_col_Some. }
  assert (Hi2 : get_invoice (inv_id i) (se_db s4) = Some i) by (rewrite (get_invoice_ops _ _ _ Hops); exact Hi).
  pose proof (due_totals_closed i sm sub tax total bal Hdue Hv Hb) as Hdue2.
  pose proof (recalculate_row (inv_id i) (Some actor) s4 s' i _ sub tax total 0 Hi2 Hsm2 Hdue2 H) as Hrow.
  pose proof (recalculate_only (inv_id i) (Some actor) s4) as Ho. rewrite H in Ho. apply only_invoices_rows in Ho as [Ho _].
  cbn [snd] in Ho. edestruct (after_recalc_form sub tax total 0) as [t Ht]; [exact Hv|]. rewrite Ht in Hrow.
  eexists _, a. split; [exact Hrow|]. split; [done|]. split; [done|]. split; [|done].
  unfold other_rows in Ho. injection Ho as _ _ Ho _. rewrite Ho, Hops. done.
Qed.
End Superseded.

Lemma mreturn_Ok {S A} (a b : A) (s s' : S) : mreturn a s = (Ok b, s') -> s' = s.
Proof. by intros [= _ <-]. Qed.

(** Every issued deposit that the final supersedes is closed.  A deposit
    (not void, in amounts that fit) is first trued up, to a balance [bal].  If
    it owes nothing, or was never issued, it is left as trued up.  If it owes
    something and nothing is paid on it, it becomes void with nothing due.  If
    it is partly paid, exactly one credit memo for the balance is added and the
    deposit is paid with nothing due.  In no case does an issued deposit keep a
    balance beside the final, and the payments stay. *)
Theorem deposit_superseded `{W : World} number actor g dep s g' s' i sm sub tax total bal
    (Hi : get_invoice (inv_id dep) (se_db s) = Some i) (Hv : inv_status i <> void)
    (Hsm : invoice_sums (inv_id dep) (se_db s) = Some sm)
    (Hdue : due_totals i sm = Some (sub, tax, total, bal)) (Hf : fits (s_credited sm + bal) = true)
    (Hrun : supersede_deposit number actor g dep s = (Ok g', s')) :
  exists i', get_invoice (inv_id dep) (se_db s') = Some i' /\
    op_payments (db_ops (se_db s')) = op_payments (db_ops (se_db s)) /\
    if (0 <? bal) && owing_issued (inv_status i) then
      inv_balance_due i' = Some (DFinite 0 (-2)) /\
      if s_paid sm <=? 0 then
        inv_status i' = void /\ op_adjustments (db_ops (se_db s')) = op_adjustments (db_ops (se_db s))
      else
        inv_status i' = (if 0 <? total then paid else inv_status i) /\
        exists a, op_adjustments (db_ops (se_db s')) = op_adjustments (db_ops (se_db s)) ++ [a] /\
          adj_invoice_id a = inv_id dep /\ adj_kind a = credit_memo /\ adj_amount a = Some (DFinite bal (-2))
    else
      i' = after_recalc sub tax total bal (mk_datetime (op_now (db_ops (se_db s))) (Some 0)) i /\
      op_adjustments (db_ops (se_db s')) = op_adjustments (db_ops (se_db s)).
Proof.
  pose proof (supersede_touches number actor g dep s) as (_ & Hpay & _). rewrite Hrun in Hpay. cbn [snd] in Hpay.
  unfold supersede_deposit in Hrun. apply mseq_Ok in Hrun as ([] & s1 & H1 & H).
  pose proof (recalculate_row (inv_id dep) (Some actor) s s1 i sm sub tax total bal Hi Hsm Hdue H1) as Hrow.
  pose proof (recalculate_only (inv_id dep) (Some actor) s) as Ho. rewrite H1 in Ho. apply only_invoices_rows in Ho as [Ho _].
  cbn [snd] in Ho. assert (Hadj : op_adjustments (db_ops (se_db s1)) = op_adjustments (db_ops (se_db s))) by (by injection Ho).
  assert (Hp1 : op_payments (db_ops (se_db s1)) = op_payments (db_ops (se_db s))) by (by injection Ho).
  unfold reread in H. rewrite bind_reads, Hrow in H. cbn [default] in H. unfold id in H.
  set (row := after_recalc sub tax total bal _ i) in *.
  destruct (after_recalc_form sub tax total bal (mk_datetime (op_now (db_ops (se_db s))) (Some 0)) i Hv) as [t Ht]. fold row in Ht.
  pose proof (get_invoice_id _ _ _ Hrow) as Hrid. pose proof (get_invoice_id _ _ _ Hi) as Hid.
  destruct (recalc_parts i (se_db s) sm sub tax total bal) as (_ & _ & _ & _ & _ & _ & _ & _ & _ & Hfit & _); [by rewrite Hid|done|].
  destruct (invoice_sums_spec _ _ _ Hsm) as (_ & _ & HP & _).
  rewrite bind_reads in H. cbv zeta in H.
  assert (Hps : paid_sum (inv_id row) (se_db s1) = paid_sum (inv_id dep) (se_db s)) by (unfold paid_sum; by rewrite Hp1, Hrid).
  rewrite Hps in H. destruct (to_float_worth _ _ HP) as (pv & Epv & Npv). rewrite Epv in H.
  assert (Hbd : inv_balance_due row = Some (DFinite bal (-2))) by (by rewrite Ht).
  destruct (to_float_worth (Some (DFinite bal (-2))) bal) as (bv & Ebv & Nbv); [by split; [right|]|].
  destruct (above_a_cent pv (s_paid sm) 100 ltac:(done) Npv) as [A1 A2].
  destruct (above_a_cent bv bal 100 ltac:(done) Nbv) as [B1 B2].
  assert (Hrem : float_gtb (_to_float (inv_balance_due row)) a_cent = (0 <? bal)).
  { rewrite Hbd, Ebv. destruct (Z.ltb_spec 0 bal); [by apply B1|by apply B2]. }
  rewrite Hrem in H.
  assert (Hst : 0 < bal -> inv_status row = inv_status i).
  { intros Hb. rewrite Ht. cbn [inv_status with_paid_at with_status]. by rewrite (proj2 (Z.leb_gt _ _) Hb). }
  destruct (0 <? bal) eqn:Eb; cbn [andb] in *.
  2: { apply mreturn_Ok in H as ->. exists row. split; [exact Hrow|]. split; [exact Hpay|]. split; [reflexivity|exact Hadj]. }
  apply Z.ltb_lt in Eb. rewrite (Hst Eb) in H. destruct (owing_issued (inv_status i)).
  2: { apply mreturn_Ok in H as ->. exists row. split; [exact Hrow|]. split; [exact Hpay|]. split; [reflexivity|exact Hadj]. }
  assert (Hleb : float_leb (FNum pv) a_cent = (s_paid sm <=? 0)).
  { destruct a_cent_spec as (h & Eh & _). rewrite Eh in *. cbn [float_leb].
    destruct (Z.leb_spec (s_paid sm) 0); [by rewrite A2|by rewrite A1]. }
  rewrite Hleb in H. assert (Hvr : inv_status row <> void) by (by rewrite (Hst Eb)).
  assert (Hrow' : get_invoice (inv_id row) (se_db s1) = Some row) by (by rewrite Hrid).
  destruct (s_paid sm <=? 0).
  - apply mseq_Ok in H as ([] & s2 & H2 & H). apply mseq_Ok in H as ([] & s3 & H3 & H). apply mreturn_Ok in H as ->. injection H3 as <-.
    destruct (void_deposit (inv_id row) actor s1 s2 row Hrow' Hvr H2) as (i' & Hi' & Hvoid & Hb0 & _).
    exists i'. rewrite <- Hrid. split; [exact Hi'|]. split; [exact Hpay|]. split; [exact Hb0|]. split; [exact Hvoid|].
    rewrite <- Hadj. exact (void_postings_adjustments _ _ _ _ _ H2).
  - apply mseq_Ok in H as ([] & s2 & H2 & H). apply mreturn_Ok in H as ->.
    assert (Hrow2 : other_rows (se_db s1) = other_rows (se_db s)) by exact Ho.
    assert (Hsm1 : invoice_sums (inv_id row) (se_db s1) = Some sm).
    { rewrite Hrid. unfold invoice_sums, active_lines in *. unfold other_rows in Hrow2. injection Hrow2 as -> -> -> _. exact Hsm. }
    assert (Hdue1 : due_totals row sm = Some (sub, tax, total, bal)).
    { rewrite Ht. rewrite (due_totals_again i sm sm sub tax total bal t _ Hdue eq_refl eq_refl Hv); [exact Hdue|].
      destruct (_ && _); [discriminate|exact Hv]. }
    destruct (credit_deposit number actor s1 s2 row sm sub tax total bal Hrow' Hvr Hsm1 Hdue1 Eb Hf Hbd H2)
      as (i' & a & Hi' & Hb0 & Hstat & Hads & Ha1 & Ha2 & Ha3).
    exists i'. rewrite <- Hrid. split; [exact Hi'|]. split; [exact Hpay|]. split; [exact Hb0|].
    rewrite <- (Hst Eb), <- Hadj. split; [exact Hstat|]. exists a. split; [exact Hads|]. split; [exact Ha1|]. split; [exact Ha2|exact Ha3].
Qed.

(** * Witnesses *)

Definition line_of (id_ : uuid) (c : Z) (category : option string) : InvoiceLine :=
  mk_invoice_line id_ (Some "work") (Some (DFinite c (-2))) category None true (DFinite 1 0) (DFinite c (-2)) 1
    None None None.

(** Two finals of a job, 200 and 80 dollars, and its deposit of 100 with 60
    paid. *)
Definition job_invoice (id_ : uuid) (number : string) (st : invoice_status) (c : Z) (created : Z) (billing : string) : Invoice :=
  mk_invoice id_ number st (Some (DFinite c (-2))) (Some (DFinite 0 (-2))) (Some (DFinite c (-2))) (Some 2%N) (Some 3%N)
    "co" (Some 738000) None (Some (mk_datetime created (Some 0))) None (Some (DFinite c (-2))) None false None billing None None None false.

Definition first_final : Invoice := job_invoice 7%N "INV-000007" draft 20000 20 "standard".
Definition second_final : Invoice := job_invoice 9%N "INV-000009" draft 8000 30 "final".
Definition job_deposit : Invoice := job_invoice 8%N "INV-000008" sent 10000 10 "deposit".

Definition deposit_rows (payments : list Payment) (adjustments : list InvoiceAdjustment) : Session :=
  mk_session (mk_db (mk_gl [] [] [] [] [] [] 100%N 0)
    (mk_ops [first_final; job_deposit; second_final]
       [line_of 7%N 20000 None; line_of 8%N 10000 (Some "Deposit"); line_of 9%N 8000 None]
       payments adjustments [] None 5 1 true)) ∅ [] ∅ [].

Definition deposit_payment : Payment :=
  mk_payment 31%N 8%N (Some (DFinite 6000 (-2))) (Some "check") None (Some 737990) None (Some (mk_datetime 12 (Some 0))) None None.

Definition deposit_session : Session := deposit_rows [deposit_payment] [].
Notation deposit_run := (apply_deposits_to_final (W := toy_world) 7%N "ops" deposit_session).

Definition went_through {A} (r : result A * Session) : bool := match fst r with Ok _ => true | Err _ => false end.

Lemma deposits_netted_witness :
  exists s' sources, op_invoice_lines (db_ops (se_db s')) = netted_lines 7%N 6000 sources (se_db deposit_session).
Proof.
  assert (Hok : went_through deposit_run = true) by by_compute.
  destruct deposit_run as [[r|e] s'] eqn:E; [|discriminate Hok].
  destruct (deposits_netted (W := toy_world) 7%N "ops" deposit_session s' r first_final [20000] 6000)
    as (_ & (sup & vo & src & _ & Hl) & _); [reflexivity|reflexivity|by_compute|vm_compute; discriminate|exact E|by_compute
    |reflexivity|vm_compute; lia|by_compute|reflexivity|]. exists s', src. exact Hl.
Defined.

Lemma deposits_netted_once_witness :
  exists s' r2, apply_deposits_to_final (W := toy_world) 9%N "ops" s' = (Ok r2, s') /\
    (r2 = NothingToDo \/ exists prior, r2 = Skipped prior).
Proof.
  assert (Hok : went_through deposit_run = true) by by_compute.
  assert (Hnum : forallb (fun i => negb (String.eqb (inv_number i) "")) (op_invoices (db_ops (se_db (snd deposit_run)))) = true)
    by by_compute.
  assert (Hi2 : get_invoice 9%N (se_db (snd deposit_run)) = Some second_final) by by_compute.
  destruct deposit_run as [[r|e] s'] eqn:E; [|discriminate Hok]. cbn [snd] in Hnum, Hi2. exists s'.
  apply (deposits_netted_once (W := toy_world) 7%N "ops" deposit_session s' r first_final [20000] 6000 2%N 9%N "ops" second_final);
    [reflexivity|reflexivity|by_compute|vm_compute; discriminate|exact E|by_compute|reflexivity|vm_compute; lia|by_compute
    |reflexivity|reflexivity|reflexivity| |reflexivity|exact Hi2|discriminate|reflexivity].
  apply Forall_forall. intros i Hi En. rewrite forallb_forall in Hnum. specialize (Hnum i). rewrite En in Hnum.
  discriminate Hnum. by apply list_elem_of_In.
Defined.

Notation supersede_run :=
  (supersede_deposit (W := toy_world) "INV-000007" "ops" (mk_gathered (FNum 0) [] [] []) job_deposit deposit_session).

Lemma deposit_superseded_witness :
  exists s' i', get_invoice 8%N (se_db s') = Some i' /\ inv_balance_due i' = Some (DFinite 0 (-2)) /\ inv_status i' = paid.
Proof.
  assert (Hok : went_through supersede_run = true) by by_compute.
  destruct supersede_run as [[g'|e] s'] eqn:E; [|discriminate Hok].
  destruct (deposit_superseded (W := toy_world) "INV-000007" "ops" (mk_gathered (FNum 0) [] [] []) job_deposit deposit_session g' s'
    job_deposit {| s_lines := 10000; s_taxable := 10000; s_paid := 6000; s_credited := 0 |} 10000 0 10000 4000)
    as (i' & Hi' & _ & Hb & Hst & _); [reflexivity|discriminate|by_compute|by_compute|reflexivity|exact E|].
  exists s', i'. split; [exact Hi'|]. split; [exact Hb|exact Hst].
Defined.

(** A deposit whose payment was refunded in full is netted all the same: the
    loop counts the payments, which a refund leaves in place. *)
Definition deposit_refund : InvoiceAdjustment :=
  mk_adjustment 41%N 8%N refund (Some (DFinite 6000 (-2))) (Some "cancelled") (Some "check") (Some (mk_datetime 14 (Some 0))) None.

Lemma refunded_deposit_netted :
  exists s' sources,
    op_invoice_lines (db_ops (se_db s')) =
      netted_lines 7%N 6000 sources (se_db (deposit_rows [deposit_payment] [deposit_refund])) /\
    snd (apply_deposits_to_final (W := toy_world) 7%N "ops" (deposit_rows [deposit_payment] [deposit_refund])) = s'.
Proof. eexists _, ["INV-000008"]. split; [|reflexivity]. vm_compute. reflexivity. Qed.
