(* ===== verification/BillingSpec.v ===== *)
(** What [create_invoice] bills: an accepted estimate is billed as quoted, to
    the cent. *)

From S2P Require Import Prelude PyStr Dates Money PyNum StrFloat TaxFloat Models PayPeriods Keys Coa Engine Service RulesBase Opening Issuance Payments Adjustments Chokepoint InvoiceTotals Estimates EstimateSpec InvoiceGuard MoneyRoutes Deposits Closeouts Billing MoneySpec DepositSpec.

Local Open Scope Z_scope.

(** * Running on the session *)

Lemma on_session_run {A} (m : M Session A) o r s : m (of_session o) = (r, s) ->
  on_session m o = (r, set_session (fun _ => s) o).
Proof. unfold on_session. by intros ->. Qed.

Definition append_lines (ls : list InvoiceLine) (s : Session) : Session :=
  set_db (set_ops (set_invoice_lines (fun l => l ++ ls))) s.

Lemma append_lines_nil s : append_lines [] s = s.
Proof.
  unfold append_lines, set_db, set_ops, set_invoice_lines. rewrite app_nil_r.
  by destruct s as [[gl []] ? ? ? ?].
Qed.

Lemma append_lines_app ls ls' s : append_lines ls' (append_lines ls s) = append_lines (ls ++ ls') s.
Proof. unfold append_lines, set_db, set_ops, set_invoice_lines. cbn. by rewrite app_assoc. Qed.

Lemma add_priced_line_run l o : lane_of l = true ->
  add_priced_line l o = (Ok tt, set_session (append_lines [l]) o).
Proof. intros H. unfold add_priced_line. by rewrite H. Qed.

(** * Copying the lines *)

(** A line the copy takes: its amounts are money, and it has a quantity or no
    amount. *)
Definition copyable (lane : string) (ln : QuoteLine) : bool :=
  match money_col (ql_unit_price ln), money_col (ql_line_total ln) with
  | Some _, Some c =>
      ((0 <? recorded_quantity (ql_quantity ln)) || (c =? 0)) &&
      existsb (String.eqb (if truthy_str (ql_pricing_source ln) then default "" (ql_pricing_source ln) else lane)) PRICING_SOURCES
  | _, _ => false
  end.

(** The invoice line it becomes, if any. *)
Definition billed_line (id_ : uuid) (tax_labor : bool) (lane : string) (ln : QuoteLine) : list InvoiceLine :=
  if 0 <? recorded_quantity (ql_quantity ln)
  then [copied_line id_ tax_labor lane ln (_dec (ql_unit_price ln)) (_dec (ql_line_total ln))] else [].

Lemma money_of_col x c : money_col x = Some c -> _money (_dec x) = Ok (_dec x).
Proof. intros [-> Hc]%money_col_Some. cbn [_dec default]. unfold id. by apply quantize_cents_exact, fits_prec. Qed.

Lemma copy_line_run id_ tax_labor lane ln o : copyable lane ln = true ->
  copy_line id_ tax_labor lane ln o = (Ok tt, set_session (append_lines (billed_line id_ tax_labor lane ln)) o).
Proof.
  unfold copyable, copy_line, billed_line, zero_quantity_verdict.
  destruct (money_col (ql_unit_price ln)) as [u|] eqn:Eu; [|done].
  destruct (money_col (ql_line_total ln)) as [c|] eqn:Ec; [|done].
  intros [Hq Hlane]%andb_true_iff. destruct (0 <? recorded_quantity (ql_quantity ln)) eqn:Epos.
  - rewrite (money_of_col _ _ Eu), (money_of_col _ _ Ec). unfold mseq, mlift. by apply add_priced_line_run.
  - destruct (proj1 (money_col_Some _ _) Ec) as [-> _]. cbn [_dec default dec_is_zero id orb] in *. rewrite Hq.
    unfold mreturn, set_session. rewrite append_lines_nil. by destruct o.
Qed.

Lemma copy_lines_run id_ tax_labor lane lines o : forallb (copyable lane) lines = true ->
  mfor lines (copy_line id_ tax_labor lane) o =
    (Ok tt, set_session (append_lines (flat_map (billed_line id_ tax_labor lane) lines)) o).
Proof.
  revert o. induction lines as [|ln lines IH]; intros o; cbn [mfor flat_map forallb].
  - intros _. unfold mreturn, set_session. rewrite append_lines_nil. by destruct o.
  - intros [H1 H2]%andb_true_iff. rewrite (mseq_run _ _ _ _ _ (copy_line_run id_ tax_labor lane ln o H1)).
    rewrite IH by done. unfold set_session. cbn [of_session of_sales of_work]. by rewrite append_lines_app.
Qed.

(** * What the lines come to *)

Definition line_cents (ln : QuoteLine) : Z := default 0 (money_col (ql_line_total ln)).

Lemma copyable_cents lane ln : copyable lane ln = true ->
  ql_line_total ln = Some (DFinite (line_cents ln) (-2)) /\ Z.abs (line_cents ln) < 10 ^ 12 /\
  (recorded_quantity (ql_quantity ln) <= 0 -> line_cents ln = 0).
Proof.
  unfold copyable, line_cents. destruct (money_col (ql_unit_price ln)); [|done].
  destruct (money_col (ql_line_total ln)) as [c|] eqn:Ec; [|done]. cbn [default id].
  intros [Hq _]%andb_true_iff. apply money_col_Some in Ec as [-> Hc]. split_and!; [done|done|].
  intros Hn. apply orb_true_iff in Hq as [H%Z.ltb_lt|H%Z.eqb_eq]; [lia|done].
Qed.

Lemma billed_cents id_ tax_labor lane lines : forallb (copyable lane) lines = true ->
  exists lc tc, cents_col il_line_total (flat_map (billed_line id_ tax_labor lane) lines) = Some lc /\
    zsum lc = zsum (map line_cents lines) /\
    cents_col il_line_total (List.filter il_taxable (flat_map (billed_line id_ tax_labor lane) lines)) = Some tc /\
    zsum tc = zsum (map line_cents (List.filter (fun ln => tax_labor || negb (_is_labor_line (ql_category ln))) lines)).
Proof.
  induction lines as [|ln lines IH]; cbn [forallb flat_map]; [intros _; by exists [], []|].
  intros [H1 H2]%andb_true_iff. destruct (IH H2) as (lc & tc & L1 & L2 & T1 & T2).
  destruct (copyable_cents lane ln H1) as (E & Hc & Hz). unfold billed_line at 1 3.
  rewrite List.filter_app. cbn [map zsum List.filter]. destruct (Z.ltb_spec 0 (recorded_quantity (ql_quantity ln))) as [Hq|Hq].
  - set (t := tax_labor || negb (_is_labor_line (ql_category ln))).
    assert (Hm : cents_col il_line_total [copied_line id_ tax_labor lane ln (_dec (ql_unit_price ln)) (_dec (ql_line_total ln))]
                 = Some [line_cents ln]).
    { apply cents_col_one. exists (line_cents ln). split; [|done]. cbn [copied_line il_line_total]. rewrite E. by apply money_col_Some. }
    exists (line_cents ln :: lc), (if t then line_cents ln :: tc else tc). cbn [List.filter copied_line il_taxable]. fold t.
    split_and!; [by apply (cents_col_app _ [_]); exists [line_cents ln], lc|cbn; lia| |].
    + destruct t; cbn [app]; [by apply (cents_col_app _ [_]); exists [line_cents ln], tc|done].
    + destruct t; cbn; lia.
  - exists lc, tc. cbn [app List.filter]. rewrite (Hz Hq) in *. split_and!; [done|lia|done|].
    destruct (tax_labor || _); cbn [map zsum]; [rewrite (Hz Hq)|]; lia.
Qed.

Lemma cents_col_line_cents l lc : cents_col ql_line_total l = Some lc -> zsum lc = zsum (map line_cents l).
Proof.
  revert lc. induction l as [|ln l IH]; intros lc; [by intros [= <-]|].
  intros (k1 & k2 & -> & (c & Ec & ->)%cents_col_one & H2)%(cents_col_app _ [ln]). cbn. rewrite (IH _ H2).
  unfold line_cents. by rewrite Ec.
Qed.

Lemma split_labor l : zsum (map line_cents l) =
  zsum (map line_cents (List.filter (fun ln => _is_labor_line (ql_category ln)) l)) +
  zsum (map line_cents (List.filter (fun ln => negb (_is_labor_line (ql_category ln))) l)).
Proof. induction l as [|ln l IH]; [done|]. cbn. destruct (_is_labor_line _); cbn; lia. Qed.

Lemma filter_perm {A} (f : A -> bool) l l' : Permutation l l' -> Permutation (List.filter f l) (List.filter f l').
Proof.
  induction 1 as [|x l l' _ IH|x y l|l1 l2 l3 _ IH1 _ IH2]; cbn; [done| | |by etrans].
  - destruct (f x); [by constructor|done].
  - destruct (f x), (f y); [apply perm_swap|done..].
Qed.

(** The row of an accepted tier exists. *)
Definition tier_known (s : Sales) (e : Estimate) : bool :=
  match est_accepted_tier_id e with
  | Some tid => match find_tier s tid with Some _ => true | None => false end
  | None => true
  end.

Section Contract.
Context `{W : World}.
Variables (s : Sales) (d : Db) (e : Estimate) (q : quote).
Hypothesis (Hq : quote_of s d e = Some q) (Htier : tier_known s e = true).

Let lines := fst (contract_lines s e).
Let lane := snd (contract_lines s e).

(** The lines the quote excludes labor from are the lines the contract bills,
    but for a flat tier's package. *)
Lemma labor_of_contract : forall f, (forall ln, ql_category ln = None -> f ln = false) ->
  zsum (map line_cents (List.filter f lines)) = zsum (map line_cents (List.filter f (_load_lines s e))).
Proof.
  intros f Hf. unfold lines, contract_lines, _load_lines, tier_known in *.
  destruct (est_accepted_tier_id e) as [tid|]; cbn [mbind option_bind].
  - destruct (find_tier s tid) as [tier|] eqn:Et; [|done]. cbn [fst].
    assert (pt_id tier = tid) as <- by (apply List.find_some in Et as [_ Et]; by apply N.eqb_eq).
    pose proof (stable_sort_perm ql_before (children (pt_id tier) (sa_tier_lines s))) as Hp.
    fold (tier_contract_lines s tier) in Hp. destruct (tier_contract_lines s tier) as [|x l] eqn:El.
    + apply Permutation_nil in Hp. rewrite Hp. cbn. by rewrite Hf.
    + apply zsum_perm, Permutation_map, filter_perm, Hp.
  - apply zsum_perm, Permutation_map, filter_perm, stable_sort_perm.
Qed.

Hypothesis (Hcopy : forallb (copyable lane) lines = true)
  (Hsub : est_accepted_tier_id e = None -> zsum (map line_cents lines) = q_subtotal q).

Lemma contract_total : zsum (map line_cents lines) = q_subtotal q.
Proof.
  destruct (quote_of_spec s d e q Hq) as (lc & Hs & _). unfold subtotal_cents in Hs.
  destruct (est_accepted_tier_id e) as [tid|] eqn:Ea; [clear Hsub|by apply Hsub].
  unfold lines, contract_lines, tier_known in *. rewrite Ea in *. cbn [mbind option_bind] in *.
  destruct (find_tier s tid) as [tier|]; [|done]. cbn [fst].
  destruct (tier_contract_lines s tier) as [|x l].
  - cbn. unfold line_cents. cbn [package_line ql_line_total]. rewrite Hs. cbn. lia.
  - destruct (cents_col ql_line_total (x :: l)) as [lc'|] eqn:Ec; [cbn [mbind option_bind] in Hs|done].
    destruct (_ <=? _); [|done]. injection Hs as <-. by rewrite (cents_col_line_cents _ _ Ec).
Qed.

Lemma contract_taxable :
  zsum (map line_cents (List.filter (fun ln => _load_tax_labor_flag s || negb (_is_labor_line (ql_category ln))) lines))
    = q_subtotal q - q_labor q.
Proof.
  pose proof contract_total as Ht. destruct (quote_of_spec s d e q Hq) as (lc & _ & Hl & -> & _).
  unfold labor_lines in Hl. rewrite (cents_col_line_cents _ _ Hl). clear Hl.
  destruct (_load_tax_labor_flag s); cbn [orb].
  - cbn [map zsum]. rewrite Z.sub_0_r, <- Ht. do 2 f_equal. clear. induction lines; cbn; by f_equal.
  - rewrite <- Ht, (split_labor lines). rewrite <- labor_of_contract by (by intros ln ->). lia.
Qed.
End Contract.

(** * The first amounts of the row *)

Lemma money_value c p t : c * 10 ^ Z.max 0 p * 100 = t * 10 ^ Z.max 0 (- p) -> Z.abs t < 10 ^ 12 ->
  _money (DFinite c p) = Ok (DFinite t (-2)).
Proof.
  intros H Ht. unfold _money, quantize_money, quantize_cents.
  assert ((if -2 <=? p then c * 10 ^ (p + 2) else round_half_up c (-2 - p)) = t) as ->.
  { destruct (Z.leb_spec (-2) p) as [Hp|Hp].
    - destruct (Z.le_gt_cases 0 p) as [H0|H0].
      + rewrite Z.max_r, Z.max_l in H by lia. rewrite Z.pow_0_r in H. rewrite Z.pow_add_r by lia. change (10 ^ 2) with 100. lia.
      + rewrite (Z.max_l 0 p), (Z.max_r 0 (- p)) in H by lia. assert (p = -1 \/ p = -2) as [->| ->] by lia; cbn in *; lia.
    - rewrite (Z.max_l 0 p), (Z.max_r 0 (- p)) in H by lia. replace (- p) with (2 + (-2 - p)) in H by lia.
      rewrite Z.pow_add_r in H by lia. pose proof (Z.pow_pos_nonneg 10 (-2 - p) ltac:(lia) ltac:(lia)) as Hk.
      assert (Hc : c = t * 10 ^ (-2 - p)) by (change (10 ^ 2) with 100 in H; nia).
      pose proof (round_half_up_bound c (-2 - p) ltac:(lia)) as Hb. rewrite Hc in Hb at 2.
      set (r := round_half_up c (-2 - p)) in *. clearbody r. nia. }
  by rewrite (proj2 (Z.ltb_lt _ _) (fits_prec _ Ht)).
Qed.

(** The text of a stored amount, with a zero added, is the amount. *)
Lemma first_total x t z : money_col x = Some t -> 0 <= t -> z = 0 \/ z = -2 ->
  exists sum, dec_add (decimal_of_str (_to_float x)) (DFinite 0 z) = Ok sum /\ _money sum = Ok (DFinite t (-2)).
Proof.
  intros [-> Hc]%money_col_Some H0 Hz. unfold _to_float. cbn [_dec default]. unfold id.
  destruct (Z.eq_dec t 0) as [->|Hn].
  { rewrite float_zero. exists (DFinite 0 z). destruct Hz as [->| ->]; split; reflexivity. }
  destruct (str_of_float 12 t 2 ltac:(lia) ltac:(lia) ltac:(lia)) as (v & c & p & Ev & _ & Es & Hv & Hcb).
  change (- (2)) with (-2) in Ev. rewrite Ev, Es. cbn [dec_add]. rewrite Z.mul_0_l, Z.add_0_r. set (m := Z.min p z).
  change (10 ^ 2) with 100 in Hv.
  assert (Hm : c * 10 ^ (p - m) * 10 ^ Z.max 0 m * 100 = t * 10 ^ Z.max 0 (- m)).
  { destruct (Z.le_gt_cases p z) as [Hle|Hgt].
    - unfold m. rewrite Z.min_l by lia. rewrite Z.sub_diag, Z.pow_0_r, Z.mul_1_r. done.
    - unfold m. rewrite Z.min_r by lia. rewrite (Z.max_l 0 z) by lia. rewrite Z.pow_0_r, Z.mul_1_r.
      destruct Hz as [->| ->].
      + rewrite Z.max_r, Z.max_l in Hv by lia. rewrite Z.sub_0_r. change (10 ^ Z.max 0 (-0)) with (10 ^ 0). lia.
      + destruct (Z.le_gt_cases 0 p) as [Hp|Hp].
        * rewrite Z.max_r, Z.max_l in Hv by lia. rewrite Z.pow_0_r in Hv. replace (p - -2) with (p + 2) by lia. rewrite Z.pow_add_r by lia.
          change (10 ^ 2) with 100. change (10 ^ Z.max 0 (- -2)) with 100. nia.
        * assert (p = -1) as -> by lia. change (10 ^ Z.max 0 (-1)) with 1 in Hv. change (10 ^ Z.max 0 (- -1)) with 10 in Hv.
          change (10 ^ (-1 - -2)) with 10. change (10 ^ Z.max 0 (- -2)) with 100. lia. }
  assert (Hsmall : Z.abs (c * 10 ^ (p - m)) < 10 ^ 15).
  { pose proof (Z.pow_pos_nonneg 10 (p - m) ltac:(lia) ltac:(lia)).
    pose proof (Z.pow_pos_nonneg 10 (Z.max 0 m) ltac:(lia) ltac:(lia)).
    destruct (Z.le_gt_cases p z) as [Hle|Hgt].
    - unfold m. rewrite Z.min_l, Z.sub_diag by lia. change (10 ^ 0) with 1. lia.
    - assert (10 ^ Z.max 0 (- m) <= 10 ^ 2) by (apply Z.pow_le_mono_r; lia). change (10 ^ 2) with 100 in *.
      set (x := c * 10 ^ (p - m)) in *. assert (0 <= x) by (unfold x; nia). clearbody x. nia. }
  rewrite ctx_exact by (change (10 ^ decimal_prec) with (10 ^ 28); lia).
  eexists. split; [reflexivity|]. apply money_value; [exact Hm|done].
Qed.

(** * The rate *)

(** A row's rate charges [r] millionths. *)
Definition charges (rate : option decimal) (r : Z) : Prop :=
  match rate with Some x => micros x = Some r | None => r = 0 end.

(** An estimate's own rate holds where the job can be taxed. *)
Definition rate_honoured `{W : World} (s : Sales) (d : Db) (e : Estimate) (j : Job) : Prop :=
  est_tax_rate e <> None ->
  is_install_lane (job_type j) = false /\ is_customer_exempt s d (est_customer_id e) = Ok false.

Section Rate.
Context `{W : World}.
Variables (s : Sales) (d : Db) (e : Estimate) (j : Job) (p : InvoiceCreateIn).
Hypothesis (Hjob : est_job_id e = Some (job_id j)) (Hfind : find_job s (job_id j) = Some j)
  (Hcust : est_customer_id e = Some (ci_customer_id p)) (Hrate : ci_tax_rate p = None)
  (Hheld : rate_honoured s d e j).

Lemma micros_pos x r : micros x = Some r -> 0 <= r -> dec_ltb (DFinite 0 0) x = Ok (0 <? r).
Proof.
  destruct x as [c ex| |]; [|done..]. cbn [micros]. destruct (Z.eqb_spec c 0) as [->|Hc].
  - intros [= <-] _. unfold dec_ltb. cbn. by rewrite Z.mul_0_l.
  - destruct (Z.eqb_spec ex (-6)) as [->|]; [|done]. intros [= <-] H. unfold dec_ltb. cbn. rewrite Z.mul_1_r.
    by destruct c.
Qed.

Lemma rate_billed r : micros (rate_dec s d e) = Some r -> 0 <= r ->
  charges (resolved_rate p (job_type j) (est_tax_rate e) s d) r.
Proof.
  unfold rate_dec, resolved_rate, resolve_rate_for_job. rewrite Hrate, <- Hcust.
  destruct (est_tax_rate e) as [x|] eqn:Ex.
  - destruct (Hheld ltac:(by rewrite Ex)) as [-> ->]. cbn [rbind]. intros H H0. rewrite (micros_pos _ _ H H0).
    rewrite bool_decide_eq_true_2 by done. by rewrite !orb_true_r.
  - unfold null_rate_untaxed, new_estimate_tax_rate. rewrite Hjob, Hfind.
    destruct (is_install_lane (job_type j)); [intros [= <-] _; cbn; done|].
    destruct (resolve_rate s d (est_customer_id e)) as [x|]; [|by intros [= <-] _].
    intros H H0. rewrite (micros_pos _ _ H H0). destruct (Z.ltb_spec 0 r) as [Hr|Hr]; cbn; [done|lia].
Qed.

Lemma charges_taxed rate r : charges rate r -> 0 <= r ->
  match rate with Some x => dec_ltb (DFinite 0 0) x | None => Ok false end = Ok (0 <? r).
Proof. destruct rate; cbn; [by apply micros_pos|by intros -> _]. Qed.
End Rate.

(** * The checks *)

(** A request to bill the accepted estimate [e] of the job [j] as it stands. *)
Record bills_estimate `{W : World} (policy : CatalogPolicy) (o : Office) (p : InvoiceCreateIn) (e : Estimate) (j : Job)
    : Prop := {
  be_valid : valid_create p = true;
  be_asked : ci_estimate_id p = Some (est_id e) /\ ci_job_id p = Some (job_id j);
  be_found : find_estimate (of_sales o) (est_id e) = Some e /\ find_job (of_sales o) (job_id j) = Some j;
  be_accepted : est_status e = EAccepted /\ est_job_id e = Some (job_id j) /\ job_deleted_at j = None;
  be_customer : est_customer_id e = Some (ci_customer_id p);
  be_unbilled : ci_force p = true \/ first_billing_real_invoice (job_id j) (of_db o) = None;
  be_dated : forall x, ci_invoice_date p = Some x -> x <= shop_today_from_settings (of_db o);
  be_untaxed : ci_tax_rate p = None /\ ci_tax_amount p = FNum 0;
  be_alone : requested_parts p = [] /\ ci_from_change_order_ids p = [] /\ ci_billing_type p <> "deposit";
  be_policy : block_zero_price_on_invoice policy = false;
  be_rate : rate_honoured (of_sales o) (of_db o) e j
}.

Lemma rmap_total {A B} (f : A -> result B) l : (forall x, exists y, f x = Ok y) -> exists ys, rmap f l = Ok ys.
Proof.
  intros Hf. induction l as [|x l [ys IH]]; cbn [rmap]; [by eauto|]. destruct (Hf x) as [y ->]. cbn [rbind].
  rewrite IH. cbn. eauto.
Qed.

Lemma price_warnings_Ok policy lines : block_zero_price_on_invoice policy = false ->
  exists ws, price_warnings policy lines = Ok ws.
Proof.
  intros Hb. unfold price_warnings. destruct (existsb _ lines); [|by eauto].
  match goal with |- context [rmap ?f lines] => destruct (rmap_total f lines) as [ws ->] end; [|cbn; eauto].
  intros l. unfold block_or_warn_invoice_line. rewrite Hb. destruct (float_pos (snd l)); cbn; eauto.
Qed.

Lemma find_live (s : Sales) j : find_job s (job_id j) = Some j -> job_deleted_at j = None -> find_live_job s (job_id j) = Some j.
Proof.
  unfold find_job, find_live_job. intros H Hd. revert H. induction (sa_jobs s) as [|k l IH]; cbn [List.find]; [done|].
  destruct (N.eqb (job_id k) (job_id j)) eqn:E; cbn [andb]; [|done].
  intros [= ->]. by rewrite Hd.
Qed.

(** A draft that still owes is recalculated without touching the ledger. *)
Lemma recalculate_draft `{W : World} id_ actor s invoice sm sub tax total bal :
  get_invoice id_ (se_db s) = Some invoice -> invoice_sums id_ (se_db s) = Some sm ->
  due_totals invoice sm = Some (sub, tax, total, bal) -> inv_status invoice = draft -> total <= bal ->
  exists s1, _recalculate_invoice id_ actor s = (Ok tt, s1) /\
    get_invoice id_ (se_db s1) = Some (recalculated sub tax total bal invoice) /\
    other_rows (se_db s1) = other_rows (se_db s).
Proof.
  intros Hi Hsm Hdue Hst Htb. pose proof (get_invoice_id _ _ _ Hi) as Hid.
  destruct (recalc_parts invoice (se_db s) sm sub tax total bal) as
    (_ & _ & _ & _ & _ & _ & _ & _ & Ht & Hb & _ & _); [by rewrite Hid|done|].
  destruct (recalculate_run id_ actor s invoice sm sub tax total bal Hi Hsm Hdue) as (s1 & Hrow & Hoth & _ & _ & ->).
  exists s1. split; [|done].
  assert (repost_or_409 (recalculated sub tax total bal invoice) actor s1 = (Ok tt, s1)) as ->.
  { unfold repost_or_409, mcatch, on_db, repost_invoice_issuance.
    cbn [inv_status recalculated with_totals with_tax]. rewrite Hst. change (negb (is_issued draft)) with true.
    cbv iota. unfold mreturn. by rewrite set_db_same. }
  unfold settle_if_paid. rewrite (proj1 (float_cents_nonpos bal Hb)), (proj2 (float_cents_nonpos total Ht)).
  rewrite Hst. destruct (Z.leb_spec bal 0), (Z.ltb_spec 0 total); [lia|reflexivity..].
Qed.

Section Bill.
Context `{W : World}.
Variables (policy : CatalogPolicy) (base : Z) (tenant_id fallback actor : string).
Variables (o : Office) (p : InvoiceCreateIn) (e : Estimate) (j : Job) (q : quote) (t : Z).
Hypothesis (Hb : bills_estimate policy o p e j) (Hq : quote_of (of_sales o) (of_db o) e = Some q)
  (Ht : money_col (est_total e) = Some t) (Ht0 : 0 <= t).

Let s := of_sales o.
Let d := of_db o.

(** The row before its lines. *)
Definition born (i : Invoice) (id_ : uuid) : Prop :=
  inv_id i = id_ /\ inv_number i = next_invoice_number fallback d /\ inv_status i = draft /\
  inv_job_id i = Some (job_id j) /\ inv_estimate_id i = Some (est_id e) /\ inv_customer_id i = est_customer_id e /\
  inv_billing_type i = ci_billing_type p /\ inv_totals_locked i = false /\ inv_deleted_at i = None /\
  charges (inv_tax_rate i) (q_rate q) /\ (inv_tax_rate i = None -> inv_tax_amount i = Some (DFinite 0 (-2))).

Lemma prepare_estimate : exists row ws,
  prepare policy tenant_id fallback p s d = Ok (mk_prepared (Some e) row ws) /\ forall id_, born (row id_) id_.
Proof.
  destruct Hb as [_ [Pe Pj] [Fe Fj] (Ae & Aj & Ad) Bc Bu Bd [Br Bt] (_ & _ & Bty) Bp Bh].
  destruct (quote_of_spec s d e q Hq) as (lc & _ & _ & _ & _ & _ & _ & Hr & _ & _ & _ & Hr0).
  unfold born, s, d in *. clear s d. unfold prepare. rewrite Pj, (find_live _ _ Fj Ad). cbn [rbind].
  assert (negb (String.eqb (ci_billing_type p) "deposit") && negb (ci_force p) &&
          bool_decide (first_billing_real_invoice (job_id j) (of_db o) <> None) = false) as ->.
  { destruct Bu as [->| Hn]; [by rewrite andb_false_r|]. rewrite bool_decide_eq_false_2, andb_false_r; [done|]. by intros []. }
  unfold found_estimate, found_source. rewrite Pe, Fe, Aj, Pj.
  assert (ci_source_estimate_id p = None) as ->.
  { destruct Hb as [Hv _ _ _ _ _ _ _ _ _ _]. unfold valid_create in Hv. rewrite Pe in Hv.
    destruct (ci_source_estimate_id p); [by destruct (ci_job_id p)|done]. }
  rewrite bool_decide_eq_true_2 by done. rewrite bool_decide_eq_true_2 by done. cbn [negb rbind].
  assert (match ci_invoice_date p with Some x => shop_today_from_settings (of_db o) <? x | None => false end = false) as ->.
  { destruct (ci_invoice_date p) as [x|]; [|done]. apply Z.ltb_ge, Bd. done. }
  unfold first_subtotal. cbn [rbind mbind option_bind].
  pose proof (rate_billed (of_sales o) (of_db o) e j p Aj Fj Bc Br Bh _ Hr ltac:(lia)) as Hc.
  set (rate := resolved_rate p (job_type j) (est_tax_rate e) (of_sales o) (of_db o)) in *.
  rewrite Bt. assert (_money_float (FNum 0) = Ok (DFinite 0 (-2))) as -> by reflexivity. cbn [rbind].
  rewrite (charges_taxed _ _ Hc) by lia. cbn [rbind].
  destruct (price_warnings_Ok policy (policy_lines p (Some e) (of_sales o)) Bp) as [ws ->]. cbn [rbind].
  rewrite (money_float_worth _ t) by (by apply money_col_worth). cbn [rbind].
  set (tax := if 0 <? q_rate q then DFinite 0 0 else DFinite 0 (-2)).
  assert (exists z, tax = DFinite 0 z /\ (z = 0 \/ z = -2)) as (z & Ez & Hz) by (unfold tax; destruct (0 <? q_rate q); eauto).
  destruct (first_total (est_total e) t z Ht Ht0 Hz) as (sum & H1 & H2). rewrite Ez, H1. cbn [rbind]. rewrite H2. cbn [rbind].
  eexists _, ws. split; [reflexivity|]. intros id_.
  unfold new_row. cbn [inv_id inv_number inv_status inv_job_id inv_estimate_id inv_customer_id inv_billing_type
    inv_totals_locked inv_deleted_at inv_tax_rate inv_tax_amount].
  split_and!; try done. intros Hn. rewrite Hn in Hc. cbn in Hc. unfold tax in Ez. rewrite Hc in Ez. by rewrite <- Ez.
Qed.

(** * The write *)

(** No row carries the id. *)
Definition unused (id_ : uuid) (d : Db) : bool :=
  negb (existsb (fun i => N.eqb (inv_id i) id_) (op_invoices (db_ops d))) &&
  negb (existsb (fun l => N.eqb (il_invoice_id l) id_) (op_invoice_lines (db_ops d))) &&
  negb (existsb (fun x => N.eqb (pay_invoice_id x) id_) (op_payments (db_ops d))) &&
  negb (existsb (fun x => N.eqb (adj_invoice_id x) id_) (op_adjustments (db_ops d))).

Definition next_id (d : Db) : uuid := gl_next_uuid (db_gl d).

Lemma existsb_eqb_In x l : existsb (String.eqb x) l = true <-> In x l.
Proof.
  rewrite existsb_exists. split; [intros (y & Hy & ->%String.eqb_eq); done|]. intros H. exists x. by rewrite String.eqb_refl.
Qed.

Lemma first_candidate_new numbers n k c : first_candidate numbers n k = Some c -> ~ In c numbers.
Proof.
  revert n. induction k as [|k IH]; intros n; cbn [first_candidate]; [done|].
  destruct (existsb _ numbers) eqn:Ex; [apply IH|]. intros [= <-] Hin. apply existsb_eqb_In in Hin. by rewrite Ex in Hin.
Qed.

(** The number drawn is free unless the fallback is taken. *)
Lemma next_number_new : ~ In fallback (invoice_numbers d) -> ~ In (next_invoice_number fallback d) (invoice_numbers d).
Proof.
  intros Hf. unfold next_invoice_number. destruct (first_candidate _ _ _) eqn:Ec; [|done]. by eapply first_candidate_new.
Qed.

Lemma insert_run i s0 : ~ In (inv_number i) (invoice_numbers (se_db s0)) ->
  flush_invoice_with_number_retry [] fallback i (fun _ => None) s0 =
    (Ok (inr i), set_db (set_ops (set_invoices (fun l => l ++ [i]))) s0).
Proof.
  intros Hn. unfold flush_invoice_with_number_retry.
  assert (set_db (set_ops (set_invoices (fun l => l ++ []))) s0 = s0) as ->.
  { unfold set_db, set_ops, set_invoices. rewrite app_nil_r. by destruct s0 as [[gl []] ? ? ? ?]. }
  unfold insert_invoice. destruct (existsb _ _) eqn:Ex; [|done]. apply existsb_eqb_In in Ex. done.
Qed.

(** The lines of the bill. *)
Definition bill_lines (id_ : uuid) : list InvoiceLine :=
  let '(lines, lane) := contract_lines s e in
  flat_map (billed_line id_ (_load_tax_labor_flag s) lane) lines ++
  (if 0 <? q_discount q then [discount_line id_ (DFinite (- q_discount q) (-2)) "estimate_discount" (last_sort lines + 1)] else []).

Hypothesis (Htier : tier_known s e = true)
  (Hcopy : forallb (copyable (snd (contract_lines s e))) (fst (contract_lines s e)) = true)
  (Hsub : est_accepted_tier_id e = None -> zsum (map line_cents (fst (contract_lines s e))) = q_subtotal q).

Lemma discount_dec : dec_ltb (DFinite 0 0) (_dec (est_discount e)) = Ok (0 <? q_discount q) /\
  (0 < q_discount q -> _money (dec_neg (_dec (est_discount e))) = Ok (DFinite (- q_discount q) (-2))).
Proof.
  destruct (quote_of_spec s d e q Hq) as (lc & _ & _ & _ & _ & _ & Hd & _ & _ & _ & Hd0 & _).
  unfold discount_cents in Hd. destruct (est_discount e) as [x|].
  - apply money_col_Some in Hd as [[= ->] Hc]. cbn [_dec default]. unfold id. split.
    + unfold dec_ltb. cbn. rewrite Z.mul_1_r. by destruct (q_discount q).
    + intros _. cbn [dec_neg]. apply quantize_cents_exact, fits_prec. by rewrite Z.abs_opp.
  - injection Hd as <-. split; [done|lia].
Qed.

Lemma copy_estimate_run o' id_ : of_sales o' = s ->
  copy_estimate id_ e o' = (Ok tt, set_session (append_lines (bill_lines id_)) o').
Proof.
  intros Hs. unfold copy_estimate, bill_lines. unfold mseq at 1, mreads at 1. rewrite Hs.
  pose proof Hcopy as Hc. destruct (contract_lines s e) as [lines lane]. cbn [fst snd] in Hc.
  rewrite (mseq_run _ _ _ _ _ (copy_lines_run id_ _ lane lines o' Hc)).
  destruct discount_dec as [D1 D2]. unfold mseq at 1, mlift at 1. rewrite D1. destruct (Z.ltb_spec 0 (q_discount q)) as [Hd|Hd].
  - unfold mseq at 1, mlift at 1. rewrite (D2 Hd). rewrite add_priced_line_run by done.
    unfold set_session. cbn [of_session of_sales of_work]. by rewrite append_lines_app.
  - unfold mreturn. by rewrite app_nil_r.
Qed.

(** What they add up to. *)
Lemma bill_lines_cents id_ : exists lc tc,
  cents_col il_line_total (bill_lines id_) = Some lc /\ zsum lc = q_subtotal q - q_discount q /\
  cents_col il_line_total (List.filter il_taxable (bill_lines id_)) = Some tc /\
  zsum tc = q_subtotal q - q_labor q - q_discount q.
Proof.
  pose proof (contract_total s d e q Hq Htier Hcopy Hsub) as H1.
  pose proof (contract_taxable s d e q Hq Htier Hcopy Hsub) as H2.
  unfold bill_lines. pose proof Hcopy as Hc. destruct (contract_lines s e) as [lines lane]. cbn [fst snd] in *.
  destruct (billed_cents id_ (_load_tax_labor_flag s) lane lines Hc) as (lc & tc & L1 & L2 & T1 & T2).
  destruct (quote_of_spec s d e q Hq) as (_ & _ & _ & _ & _ & _ & _ & _ & _ & _ & Hd0 & _).
  rewrite List.filter_app. destruct (Z.ltb_spec 0 (q_discount q)) as [Hd|Hd].
  - assert (Hm : cents_col il_line_total [discount_line id_ (DFinite (- q_discount q) (-2)) "estimate_discount" (last_sort lines + 1)]
                 = Some [- q_discount q]).
    { apply cents_col_one. exists (- q_discount q). split; [|done]. apply money_col_Some. split; [done|].
      rewrite Z.abs_opp. change (10 ^ 8) with 100000000 in Hd0. change (10 ^ 12) with 1000000000000. lia. }
    exists (lc ++ [- q_discount q]), (tc ++ [- q_discount q]). rewrite !zsum_app. cbn [zsum List.filter discount_line il_taxable].
    split_and!; [by apply cents_col_app; exists lc, [- q_discount q]|lia|by apply cents_col_app; exists tc, [- q_discount q]|lia].
  - exists lc, tc. cbn [List.filter]. rewrite !app_nil_r. split_and!; [done|lia|done|lia].
Qed.

Lemma bill_lines_own id_ : Forall (fun l => il_invoice_id l = id_ /\ il_deleted_at l = None) (bill_lines id_).
Proof.
  unfold bill_lines. destruct (contract_lines s e) as [lines lane]. apply Forall_app. split.
  - clear. induction lines as [|ln lines IH]; cbn [flat_map]; [done|]. apply Forall_app. split; [|done].
    unfold billed_line. destruct (0 <? _); repeat constructor.
  - destruct (0 <? q_discount q); repeat constructor.
Qed.

(** The session with the row and its lines in. *)
Definition billed_session (row : Invoice) (id_ : uuid) : Session :=
  append_lines (bill_lines id_)
    (set_db (set_ops (set_invoices (fun l => l ++ [row]))) (set_db (set_gl (set_next_uuid N.succ)) (of_session o))).

Lemma existsb_filter_nil {A} (f : A -> bool) l : existsb f l = false -> List.filter f l = [].
Proof. induction l as [|x l IH]; cbn; [done|]. destruct (f x); cbn; [done|exact IH]. Qed.

Lemma filter_and_nil {A} (f g : A -> bool) l : List.filter f l = [] -> List.filter (fun x => f x && g x) l = [].
Proof. induction l as [|x l IH]; cbn; [done|]. destruct (f x); cbn; [done|exact IH]. Qed.

Lemma filter_whole {A} (f : A -> bool) l : Forall (fun x => f x = true) l -> List.filter f l = l.
Proof. induction 1 as [|x l Hx _ IH]; cbn; [done|]. by rewrite Hx, IH. Qed.

Lemma billed_active row id_ : unused id_ d = true -> active_lines id_ (se_db (billed_session row id_)) = bill_lines id_.
Proof.
  unfold unused. rewrite !andb_true_iff, !negb_true_iff. intros [[[_ Hl] _] _]. unfold active_lines.
  cbn [billed_session append_lines set_db se_db set_ops db_ops set_invoice_lines op_invoice_lines set_invoices set_gl].
  rewrite List.filter_app, (filter_and_nil _ _ _ (existsb_filter_nil _ _ Hl)). cbn [app]. apply filter_whole.
  eapply Forall_impl; [apply bill_lines_own|]. intros l [-> ->]. by rewrite N.eqb_refl.
Qed.

Lemma billed_sums row id_ : unused id_ d = true -> Z.of_nat (length (bill_lines id_)) <= 10 ^ 15 ->
  invoice_sums id_ (se_db (billed_session row id_)) =
    Some {| s_lines := q_subtotal q - q_discount q; s_taxable := q_subtotal q - q_labor q - q_discount q;
            s_paid := 0; s_credited := 0 |}.
Proof.
  intros Hu Hlen. apply invoice_sums_rows. destruct (bill_lines_cents id_) as (lc & tc & L1 & L2 & T1 & T2).
  pose proof (billed_active row id_ Hu) as Hact.
  exists lc, tc, [], []. rewrite Hact, L2, T2.
  destruct (quote_of_spec s d e q Hq) as (_ & _ & _ & _ & _ & _ & _ & _ & H1 & H2 & H3 & _).
  split; [|split; [done|]; split; [done|]; change (10 ^ 8) with 100000000 in *; change (10 ^ 12) with 1000000000000; cbn; lia].
  unfold unused in Hu. rewrite !andb_true_iff, !negb_true_iff in Hu. destruct Hu as [[_ Hp] Ha].
  split; [by rewrite Hact|by rewrite Hact| |];
    cbn [billed_session append_lines set_db se_db set_ops db_ops set_invoice_lines op_payments op_adjustments set_invoices set_gl].
  - by rewrite (filter_and_nil _ _ _ (existsb_filter_nil _ _ Hp)).
  - by rewrite (filter_and_nil _ _ _ (existsb_filter_nil _ _ Ha)).
Qed.

Lemma billed_row row id_ : inv_id row = id_ -> unused id_ d = true -> get_invoice id_ (se_db (billed_session row id_)) = Some row.
Proof.
  intros Hid Hu. unfold unused in Hu. rewrite !andb_true_iff, !negb_true_iff in Hu. destruct Hu as [[[Hi _] _] _].
  unfold get_invoice.
  cbn [billed_session append_lines set_db se_db set_ops db_ops set_invoice_lines op_invoices set_invoices set_gl].
  rewrite find_app_b. destruct (List.find _ _) as [i|] eqn:Ef.
  - apply List.find_some in Ef as [Hin Hx]. rewrite <- not_true_iff_false in Hi. exfalso. apply Hi, existsb_exists. eauto.
  - cbn. by rewrite Hid, N.eqb_refl.
Qed.

(** No live deposit of the job or the estimate. *)
Definition no_deposits : bool :=
  negb (existsb (fun i => (opt_eqb (inv_job_id i) (Some (job_id j)) || opt_eqb (inv_estimate_id i) (Some (est_id e))) &&
                          is_deposit i && is_live i) (op_invoices (db_ops d))).

Lemma billed_no_deposits row id_ : born row id_ -> no_deposits = true -> deposits_for row (se_db (billed_session row id_)) = [].
Proof.
  intros (_ & _ & _ & Hj & He & _ & Hty & _) Hn. apply negb_true_iff in Hn. unfold deposits_for. rewrite Hj, He.
  cbn [billed_session append_lines set_db se_db set_ops db_ops set_invoice_lines op_invoices set_invoices set_gl].
  rewrite List.filter_app.
  assert (Hnil : forall l, existsb (fun i => (opt_eqb (inv_job_id i) (Some (job_id j)) || opt_eqb (inv_estimate_id i) (Some (est_id e))) &&
                          is_deposit i && is_live i) l = false ->
    List.filter (fun i => (opt_eqb (inv_job_id i) (Some (job_id j)) || opt_eqb (inv_estimate_id i) (Some (est_id e))) && is_deposit i &&
                          negb (N.eqb (inv_id i) (inv_id row)) && is_live i) l = []).
  { clear. induction l as [|i l IH]; cbn; [done|]. intros [H1 H2]%orb_false_iff. rewrite IH by done.
    destruct (_ || _), (is_deposit i), (is_live i), (negb (N.eqb _ _)); cbn in *; done. }
  pose proof (Hnil _ Hn) as Hx. unfold d, of_db in Hx. rewrite Hx. destruct (be_alone _ _ _ _ _ Hb) as (_ & _ & Hnd).
  assert (is_deposit row = false) as Hd by (unfold is_deposit; rewrite Hty; by apply String.eqb_neq).
  cbn [List.filter app]. rewrite Hd, andb_false_r. done.
Qed.

Lemma billed_due row id_ sm : born row id_ -> q_discount q <= q_subtotal q ->
  sm = {| s_lines := q_subtotal q - q_discount q; s_taxable := q_subtotal q - q_labor q - q_discount q;
          s_paid := 0; s_credited := 0 |} ->
  let total := q_subtotal q - q_discount q + quote_tax q in
  due_totals row sm = Some (q_subtotal q - q_discount q, quote_tax q, total, total) /\ 0 <= quote_tax q <= 10 ^ 8.
Proof.
  intros (_ & _ & Hst & _ & _ & _ & _ & Hlk & _ & Hc & Hta) Hdis -> total.
  destruct (quote_of_spec s d e q Hq) as (_ & _ & _ & _ & _ & _ & _ & _ & H1 & H2 & H3 & H4).
  assert (Hbase : Z.max (q_subtotal q - q_labor q - q_discount q) 0 = quote_base q) by (unfold quote_base; lia).
  assert (Hb0 : 0 <= quote_base q < 10 ^ 8) by (unfold quote_base; lia).
  assert (Htax : 0 <= quote_tax q <= 10 ^ 8).
  { unfold quote_tax, round_half_up. change (10 ^ 6) with 1000000 in *. change (10 ^ 8) with 100000000 in *.
    rewrite (Z.abs_eq (quote_base q * q_rate q)) by nia. set (x := quote_base q * q_rate q).
    assert (0 <= x <= 100000000 * 1000000) by (unfold x; nia). clearbody x.
    assert (0 <= (2 * x + 1000000) / (2 * 1000000) <= 100000000) as [? ?].
    { split; [apply Z.div_pos; lia|]. apply Z.lt_succ_r, Z.div_lt_upper_bound; lia. }
    destruct x; cbn [Z.sgn]; lia. }
  split; [|done]. unfold due_totals. rewrite Hlk. cbn [s_taxable s_lines s_paid s_credited].
  assert (match inv_tax_rate row with
          | Some (DFinite r ex) => if (r =? 0) || ((ex =? -6) && (Z.abs r <? 10 ^ 9))
              then Some (round_half_up (Z.max (q_subtotal q - q_labor q - q_discount q) 0 * r) 6) else None
          | Some _ => None
          | None => money_col (inv_tax_amount row)
          end = Some (quote_tax q)) as Hrate.
  { rewrite Hbase. unfold charges in Hc. destruct (inv_tax_rate row) as [[c ex| |]|]; [|done..|].
    - cbn [micros] in Hc. unfold quote_tax. destruct (Z.eqb_spec c 0) as [->|Hcn]; [by injection Hc as <-|].
      destruct (Z.eqb_spec ex (-6)); [|done]. injection Hc as ->. cbn [orb andb].
      by rewrite (proj2 (Z.ltb_lt (Z.abs (q_rate q)) (10 ^ 9))) by (change (10 ^ 6) with 1000000 in *; change (10 ^ 9) with 1000000000; lia).
    - rewrite (Hta eq_refl). unfold quote_tax. rewrite Hc, Z.mul_0_r. done. }
  rewrite Hst, bool_decide_eq_false_2 by done.
  destruct (inv_tax_rate row) as [[c ex| |]|]; [|done..|]; rewrite Hrate; cbn [mbind option_bind fst snd];
    rewrite !Z.sub_0_r; unfold fits; fold total; change (10 ^ 8) with 100000000 in *; change (10 ^ 12) with 1000000000000;
    (rewrite (Z.max_l total 0) by (unfold total; lia)); rewrite !(proj2 (Z.ltb_lt _ _)) by (unfold total; lia); done.
Qed.

Hypothesis (Hdis : q_discount q <= q_subtotal q) (Hfree : unused (next_id d) d = true) (Hnodep : no_deposits = true)
  (Hfall : ~ In fallback (invoice_numbers d)) (Hlen : Z.of_nat (length (bill_lines (next_id d))) <= 10 ^ 15).

(** The row the bill leaves. *)
Definition billed_as (row : Invoice) : Invoice :=
  let total := q_subtotal q - q_discount q + quote_tax q in
  recalculated (q_subtotal q - q_discount q) (quote_tax q) total total row.

Lemma finish_run row : born row (next_id d) -> let id_ := next_id d in
  exists s1, finish_invoice id_ p row actor (billed_session row id_) = (Ok NothingToDo, s1) /\
    get_invoice id_ (se_db s1) = Some (billed_as row).
Proof.
  intros Hborn id_. pose proof Hborn as (Hid & _ & Hst & _ & _ & _ & Hty & _ & Hdel & _).
  pose proof (billed_sums row id_ Hfree Hlen) as Hsm. pose proof (billed_row row id_ Hid Hfree) as Hrow.
  pose proof (billed_no_deposits row id_ Hborn Hnodep) as Hnd.
  destruct (billed_due row id_ _ Hborn Hdis eq_refl) as [Hdue Htax].
  set (total := q_subtotal q - q_discount q + quote_tax q) in *.
  destruct (recalculate_draft id_ (Some actor) _ row _ _ _ _ _ Hrow Hsm Hdue Hst (Z.le_refl _)) as (s1 & Hrun & Hnew & Hoth).
  exists s1. split; [|exact Hnew]. unfold finish_invoice. rewrite bind_reads, Hnd.
  assert (is_deposit row = false) as Hd.
  { unfold is_deposit. rewrite Hty. apply String.eqb_neq. apply (be_alone _ _ _ _ _ Hb). }
  assert (Happly : apply_deposits_to_final id_ actor (billed_session row id_) = (Ok NothingToDo, billed_session row id_)).
  { unfold apply_deposits_to_final. rewrite bind_reads, Hrow, Hd, bind_reads, Hnd. done. }
  assert (Hskip : (if negb (String.eqb (ci_billing_type p) "deposit") &&
                     (bool_decide (ci_job_id p <> None) || bool_decide (ci_estimate_id p <> None))
                   then apply_deposits_to_final id_ actor else mreturn NothingToDo) (billed_session row id_)
                  = (Ok NothingToDo, billed_session row id_)) by (by destruct (_ && _)).
  rewrite (mseq_run _ _ _ _ _ Hskip), (mseq_run _ _ _ _ _ Hrun). cbn [map].
  assert (Hchk : _check true [id_] (se_db s1) = Ok tt).
  { apply check_spec. intros k i ->%list_elem_of_singleton Hi _. rewrite Hnew in Hi. injection Hi as <-. exists false.
    split; [|done]. rewrite <- (recalculated_checks row (se_db (billed_session row id_)) _ _ _ _ _ ltac:(by rewrite Hid) Hdue).
    unfold check_invoice, active_lines. unfold other_rows in Hoth. by injection Hoth as -> _ _ _. }
  unfold commit_invoices, mseq, mreturn. by rewrite Hchk.
Qed.

Lemma write_lines_run str_format o' id_ : of_sales o' = s ->
  write_lines str_format id_ base p (Some e) o' = (Ok tt, set_session (append_lines (bill_lines id_)) o').
Proof.
  intros Hs. unfold write_lines. destruct (be_alone _ _ _ _ _ Hb) as (Hp & Hc & _). destruct (be_asked _ _ _ _ _ Hb) as [He _].
  rewrite (mseq_run _ _ _ _ _ (copy_estimate_run o' id_ Hs)).
  unfold add_operator_discount, bill_change_orders, claim_parts. rewrite He, Hc, Hp. by destruct (ci_discount p).
Qed.
End Bill.


(** * Witnesses *)

Definition no_work : Work := mk_work [] [] [] [] [] [] [] [].

Definition quoted_office : Office := mk_office (mk_session bare_db ∅ [] ∅ []) quoted_sales no_work.

Definition bill_request (items : list InvoiceLineCreateIn) : InvoiceCreateIn :=
  mk_create_in (Some 2%N) (Some 5%N) None 3%N "standard" None (FNum 0) None items [] [] false None.

Definition easy_policy : CatalogPolicy := mk_policy false true.


(** * Where the copy parts from the quote *)

(** A discount beyond the goods: the estimate shows nothing to pay, the
    invoice is negative. *)
Definition generous_estimate : Estimate :=
  mk_estimate 5%N "EST-000005" (Some 2%N) (Some 3%N) "co" (Some (DFinite 68750 (-6))) (Some (DFinite 20000 (-2)))
    (Some (DFinite 15000 (-2))) EAccepted None None.
Definition generous_office : Office :=
  mk_office (mk_session bare_db ∅ [] ∅ [])
    (mk_sales (sa_jobs quoted_sales) (sa_tax_config quoted_sales) [] [generous_estimate] (sa_estimate_lines quoted_sales) [] [])
    no_work.

Lemma over_discount_billed_negative :
  (exists t, compute_estimate_totals (W := toy_world) (of_sales generous_office) bare_db generous_estimate = Ok t /\
     et_total t = FNum 0) /\
  exists inv ws o',
    create_invoice (W := toy_world) (fun _ _ => None) easy_policy [] 0 "co" "INV-X" "office" (bill_request []) generous_office
      = (Ok (inv, NothingToDo, ws), o') /\ inv_total inv = Some (DFinite (-5000) (-2)).
Proof.
  split; [eexists; split; vm_compute; reflexivity|]. eexists _, _, _. split; [vm_compute; reflexivity|reflexivity].
Qed.

(** Parts named on the request's own lines are stamped billed by an invoice
    that copies the estimate's lines instead. *)
Definition part_request : InvoiceCreateIn :=
  bill_request [mk_line_in "spring" (DFinite 1 0) (float_of_int 80) true (Some "Parts") None None (Some 41%N) None None None None None].
Definition parts_office : Office :=
  mk_office (mk_session bare_db ∅ [] ∅ []) quoted_sales
    (mk_work [] [] [mk_part 41%N 2%N "spring" None (Some 1) (Some "needed") "mobile" (Some (DFinite 8000 (-2))) None] [] [] [] [] []).

Lemma parts_stamped_unbilled :
  exists inv ws o',
    create_invoice (W := toy_world) (fun _ _ => None) easy_policy [] 0 "co" "INV-X" "office" part_request parts_office
      = (Ok (inv, NothingToDo, ws), o') /\
    map jp_billed_invoice_id (wk_parts (of_work o')) = [Some (inv_id inv)] /\
    existsb (fun l => opt_eqb (il_part_id l) (Some 41%N)) (op_invoice_lines (db_ops (of_db o'))) = false /\
    inv_total inv = Some (DFinite 14619 (-2)).
Proof. eexists _, _, _. split; [vm_compute; reflexivity|]. split_and!; vm_compute; reflexivity. Qed.
