(* ===== verification/CloseoutSpec.v ===== *)
(** Hours are billed once.  The decimals and floats the labor code works with
    are exact in hundredths of an hour, a restatement bills the difference to
    what its run has billed, and the labor lines come to the rates times the
    hours. *)

From S2P Require Import Prelude PyStr Dates Money PyNum StrFloat TaxFloat Models PayPeriods Keys Coa Engine Service RulesBase Opening Issuance Payments Adjustments Chokepoint InvoiceTotals Estimates EstimateSpec InvoiceGuard MoneyRoutes Deposits Closeouts.

Local Open Scope Z_scope.

(** * Hundredths *)

(** The decimal [x] is [h] hundredths, with no digit below them. *)
Definition hund (x : decimal) (h : Z) : Prop :=
  exists c p, x = DFinite c p /\ -2 <= p /\ c * 10 ^ (p + 2) = h.

Definition hund_of (x : decimal) : option Z :=
  match x with DFinite c p => if -2 <=? p then Some (c * 10 ^ (p + 2)) else None | _ => None end.

Lemma hund_of_Some x h : hund_of x = Some h <-> hund x h.
Proof.
  unfold hund. split.
  - destruct x as [c p| |]; [|done..]. cbn [hund_of]. destruct (Z.leb_spec (-2) p); [|done]. intros [= <-]. by exists c, p.
  - intros (c & p & -> & Hp & <-). cbn [hund_of]. by rewrite (proj2 (Z.leb_le _ _) Hp).
Qed.

Lemma hund_int z : hund (DFinite z 0) (z * 100).
Proof. by exists z, 0. Qed.

Lemma hund_cents z : hund (DFinite z (-2)) z.
Proof. exists z, (-2). split_and!; [done|lia|cbn; lia]. Qed.

Lemma scale_to c p m : m <= p -> -2 <= m -> c * 10 ^ (p - m) * 10 ^ (m + 2) = c * 10 ^ (p + 2).
Proof. intros H H0. rewrite <- Z.mul_assoc, <- Z.pow_add_r by lia. do 2 f_equal. lia. Qed.

Lemma hund_add x y a b : hund x a -> hund y b -> Z.abs (a + b) < 10 ^ 27 -> exists z, dec_add x y = Ok z /\ hund z (a + b).
Proof.
  intros (c & p & -> & Hp & Hc) (c' & p' & -> & Hp' & Hc') Hb. cbn [dec_add]. set (m := Z.min p p').
  assert (Hs : (c * 10 ^ (p - m) + c' * 10 ^ (p' - m)) * 10 ^ (m + 2) = a + b).
  { rewrite Z.mul_add_distr_r, !scale_to by (unfold m; lia). lia. }
  pose proof (Z.pow_pos_nonneg 10 (m + 2) ltac:(lia) ltac:(unfold m; lia)) as H10.
  set (k := c * 10 ^ (p - m) + c' * 10 ^ (p' - m)) in *.
  rewrite ctx_exact by (change (10 ^ decimal_prec) with (10 ^ 28); rewrite <- Hs, Z.abs_mul in Hb; nia).
  eexists. split; [reflexivity|]. exists k, m. split_and!; [done|unfold m; lia|done].
Qed.

Lemma hund_neg x a : hund x a -> hund (dec_neg x) (- a).
Proof. intros (c & p & -> & Hp & <-). exists (- c), p. split_and!; [done|done|lia]. Qed.

Lemma hund_sub x y a b : hund x a -> hund y b -> Z.abs (a - b) < 10 ^ 27 -> exists z, dec_sub x y = Ok z /\ hund z (a - b).
Proof. intros Hx Hy Hb. unfold dec_sub. by apply (hund_add x (dec_neg y) a (- b) Hx (hund_neg _ _ Hy)). Qed.

Lemma hund_compare x y a b : hund x a -> hund y b -> dec_compare x y = Ok (a ?= b).
Proof.
  intros (c & p & -> & Hp & <-) (c' & p' & -> & Hp' & <-). cbn [dec_compare]. set (m := Z.min p p'). f_equal.
  pose proof (Z.pow_pos_nonneg 10 (m + 2) ltac:(lia) ltac:(unfold m; lia)) as H10.
  rewrite <- (scale_to c p m), <- (scale_to c' p' m) by (unfold m; lia).
  destruct (Z.compare_spec (c * 10 ^ (p - m)) (c' * 10 ^ (p' - m))) as [->|H|H]; symmetry;
    [apply Z.compare_refl|apply Z.compare_lt_iff; nia|apply Z.compare_gt_iff; nia].
Qed.

Lemma hund_ltb x y a b : hund x a -> hund y b -> dec_ltb x y = Ok (a <? b).
Proof. intros Hx Hy. unfold dec_ltb. rewrite (hund_compare _ _ _ _ Hx Hy). cbn [rbind]. by destruct (Z.compare_spec a b), (Z.ltb_spec a b); try lia. Qed.

Lemma hund_leb x y a b : hund x a -> hund y b -> dec_leb x y = Ok (a <=? b).
Proof. intros Hx Hy. unfold dec_leb. rewrite (hund_compare _ _ _ _ Hx Hy). cbn [rbind]. by destruct (Z.compare_spec a b), (Z.leb_spec a b); try lia. Qed.

Lemma hund_max x y a b : hund x a -> hund y b -> exists z, dec_max x y = Ok z /\ hund z (Z.max a b).
Proof.
  intros Hx Hy. unfold dec_max. rewrite (hund_ltb _ _ _ _ Hx Hy). cbn [rbind]. destruct (Z.ltb_spec a b).
  - exists y. by rewrite Z.max_r by lia.
  - exists x. by rewrite Z.max_l by lia.
Qed.

Lemma hund_scale x a k : hund x a -> Z.abs (a * k) < 10 ^ 27 -> exists z, dec_mul x (DFinite k 0) = Ok z /\ hund z (a * k).
Proof.
  intros (c & p & -> & Hp & <-) Hb. cbn [dec_mul]. rewrite Z.add_0_r.
  pose proof (Z.pow_pos_nonneg 10 (p + 2) ltac:(lia) ltac:(lia)) as H10.
  assert (Heq : c * 10 ^ (p + 2) * k = c * k * 10 ^ (p + 2)) by ring. rewrite Heq in *.
  rewrite ctx_exact by (change (10 ^ decimal_prec) with (10 ^ 28); rewrite Z.abs_mul, (Z.abs_eq (10 ^ _)) in Hb by lia; nia).
  eexists. split; [reflexivity|]. by exists (c * k), p.
Qed.

Lemma hund_quantize x a : hund x a -> Z.abs a < 10 ^ 28 -> quantize_even x = Ok (DFinite a (-2)).
Proof.
  intros (c & p & -> & Hp & <-) Hb. cbn [quantize_even]. rewrite (proj2 (Z.leb_le _ _) Hp).
  by rewrite (proj2 (Z.ltb_lt _ _)) by (by change (10 ^ decimal_prec) with (10 ^ 28)).
Qed.

Lemma hund_sum l hs : Forall2 hund l hs -> Forall (fun h => Z.abs h < 10 ^ 12) hs -> Z.of_nat (length hs) <= 10 ^ 12 ->
  exists z, dec_sum l = Ok z /\ hund z (zsum hs).
Proof.
  intros Hl Hb Hlen. unfold dec_sum.
  assert (Hg : forall a x, hund x a -> Z.abs a + Z.of_nat (length hs) * 10 ^ 12 <= 10 ^ 26 ->
    exists z, foldl (fun acc x => let! a := acc in dec_add a x) (Ok x) l = Ok z /\ hund z (a + zsum hs)).
  { clear Hlen. revert Hb. induction Hl as [|y h l hs Hy _ IH]; intros Hb a x Hx Ha; cbn [foldl zsum].
    - exists x. rewrite Z.add_0_r. done.
    - apply Forall_cons in Hb as [Hh Hb]. cbn [length] in Ha. rewrite Nat2Z.inj_succ in Ha.
      assert (0 <= Z.of_nat (length hs)) by lia. change (10 ^ 12) with 1000000000000 in *. change (10 ^ 26) with 100000000000000000000000000 in *.
      destruct (hund_add x y a h Hx Hy) as (z & Hz & Hz'); [change (10 ^ 27) with 1000000000000000000000000000; lia|].
      cbn [rbind]. rewrite Hz. destruct (IH Hb (a + h) z Hz') as (w & Hw & Hw'); [lia|]. exists w.
      by replace (a + (h + zsum hs)) with (a + h + zsum hs) by lia. }
  apply (Hg 0 (DFinite 0 0)); [apply hund_int|]. change (10 ^ 12) with 1000000000000 in *. change (10 ^ 26) with 100000000000000000000000000. lia.
Qed.

(** * Rounding up to the half hour *)

(** A ratio that is a float is converted exactly. *)
Lemma float_exact n d v K : 0 < d -> n * least = d * v -> 0 <= K <= 2000 -> (2 ^ K | v) -> Z.abs v < 2 ^ (K + 53) ->
  float_of_ratio n d = FNum v.
Proof.
  intros Hd Hv HK [w Hw] Hb. rewrite float_of_ratio_eq by done. unfold nearest_float. pose proof least_pos as HL.
  assert (Habs : Z.abs n * least / d = Z.abs v).
  { replace (Z.abs n * least) with (Z.abs v * d); [apply Z.div_mul; lia|].
    rewrite <- (Z.abs_eq least) at 1 by lia. rewrite <- Z.abs_mul, Hv, Z.abs_mul, (Z.abs_eq d) by lia. lia. }
  rewrite Habs, Hv. set (e := Z.max 0 (Z.log2 (Z.abs v) - 52)).
  assert (He : 0 <= e <= K).
  { unfold e. split; [lia|]. destruct (Z.eq_dec v 0) as [E|Hn]; [rewrite E; change (Z.log2 (Z.abs 0)) with 0; lia|].
    pose proof (proj1 (Z.log2_lt_pow2 (Z.abs v) (K + 53) ltac:(lia)) Hb). lia. }
  pose proof (Z.pow_pos_nonneg 2 e ltac:(lia) ltac:(lia)) as Hpe.
  assert (Hve : v = 2 ^ e * (w * 2 ^ (K - e))).
  { rewrite Hw. replace K with (e + (K - e)) at 1 by lia. rewrite Z.pow_add_r by lia. ring. }
  assert (round_even (d * v) (d * 2 ^ e) * 2 ^ e = v) as ->.
  { rewrite Hve at 1. rewrite Z.mul_assoc, round_even_exact by nia. lia. }
  assert (Hmono : 2 ^ (K + 53) <= 2 ^ 2098) by (apply Z.pow_le_mono_r; lia).
  change (2 ^ 1024 * least) with (2 ^ 2098). by rewrite (proj2 (Z.leb_gt _ _)) by lia.
Qed.

Lemma half_least m : 0 <= m < 2 ^ 40 -> float_of_ratio m 2 = FNum (m * 2 ^ 1073).
Proof.
  intros Hm. apply (float_exact m 2 (m * 2 ^ 1073) 1073); [lia| |lia| |].
  - rewrite least_pow. change 1074 with (Z.succ 1073). rewrite Z.pow_succ_r by lia. ring.
  - by exists m.
  - rewrite Z.abs_mul, (Z.abs_eq m), (Z.abs_eq (2 ^ 1073)) by (apply Z.pow_nonneg || lia; lia).
    rewrite Z.pow_add_r by lia. pose proof (Z.pow_pos_nonneg 2 1073 ltac:(lia) ltac:(lia)) as Hp.
    set (P := 2 ^ 1073) in *. clearbody P. change (2 ^ 40) with 1099511627776 in Hm. change (2 ^ 53) with 9007199254740992. nia.
Qed.

Definition half_hours (h : Z) : Z := - ((- h) / 50).

Lemma half_hours_spec h : 50 * half_hours h - 50 < h <= 50 * half_hours h.
Proof. unfold half_hours. pose proof (Z.div_mod (- h) 50 ltac:(lia)). pose proof (Z.mod_pos_bound (- h) 50 ltac:(lia)). lia. Qed.

Lemma float_ceil_spec v m : (m - 1) * least < v <= m * least -> float_ceil (FNum v) = Ok m.
Proof.
  intros H. unfold float_ceil. pose proof least_pos as HL. f_equal.
  assert (- v / least = - m); [|lia]. symmetry. apply (Z.div_unique _ _ _ (- v + m * least)); [left; lia|lia].
Qed.

Lemma roundup_exact h : 0 < h < 10 ^ 10 -> roundup_to_half (DFinite h (-2)) = Ok (float_of_ratio (half_hours h) 2).
Proof.
  intros Hh. unfold roundup_to_half. pose proof (half_hours_spec h) as Hs. pose proof least_pos as HL.
  change (10 ^ 10) with 10000000000 in Hh.
  enough (float_ceil (float_scale 2 (float_of_decimal (DFinite h (-2)))) = Ok (half_hours h)) as -> by done.
  set (m := half_hours h) in *. clearbody m. rewrite float_of_cents.
  destruct (Z.eq_dec h (50 * m)) as [E|E].
  - assert (float_of_ratio h 100 = FNum (m * 2 ^ 1073)) as ->.
    { rewrite E. replace (50 * m) with (m * 50) by lia. change 100 with (2 * 50). rewrite float_of_ratio_scale by lia.
      apply half_least. change (2 ^ 40) with 1099511627776. lia. }
    cbn [float_scale]. assert (Hd : 2 * (m * 2 ^ 1073) = m * least).
    { rewrite least_pow. change 1074 with (Z.succ 1073). rewrite Z.pow_succ_r by lia. ring. }
    rewrite Hd. assert (float_of_ratio (m * least) least = FNum (m * least)) as ->.
    { apply (float_exact _ _ _ 1074); [done|ring|lia|by exists m|]. rewrite Z.pow_add_r, <- least_pow by lia.
      rewrite Z.abs_mul, (Z.abs_eq m), (Z.abs_eq least) by lia. change (2 ^ 53) with 9007199254740992. nia. }
    apply float_ceil_spec. nia.
  - destruct (float_of_ratio_close h 100 34) as (v & -> & Hv); [lia|lia|change (2 ^ 34) with 17179869184; lia|].
    cbn [float_scale]. change (2 ^ 54) with (2 ^ 34 * 2 ^ 20) in Hv. change (2 ^ 34) with 17179869184 in Hv. change (2 ^ 20) with 1048576 in Hv.
    assert (Hv' : 1048576 * Z.abs (v * 100 - h * least) <= 100 * least) by nia.
    assert (Hv0 : Z.abs v < 17179869184 * least) by nia.
    destruct (float_of_ratio_close (2 * v) least 35) as (u & -> & Hu); [done|lia|change (2 ^ 35) with 34359738368; lia|].
    change (2 ^ 54) with (2 ^ 35 * 2 ^ 19) in Hu. change (2 ^ 35) with 34359738368 in Hu. change (2 ^ 19) with 524288 in Hu.
    assert (Hu' : 524288 * Z.abs (u - 2 * v) <= least) by nia.
    apply float_ceil_spec. clear Hv Hu. split; nia.
Qed.

(** The text of a half-hour count. *)
Lemma half_text m : 0 < m < 2 ^ 40 -> hund (decimal_of_str (float_of_ratio m 2)) (50 * m).
Proof.
  intros Hm. change (2 ^ 40) with 1099511627776 in Hm.
  destruct (ilog10_spec (5 * m) ltac:(lia)) as [[L1 L2] L0]. set (a := ilog10 (5 * m)) in *. clearbody a.
  assert (Ha : a < 14).
  { apply (Z.pow_lt_mono_r_iff 10 a 14 ltac:(lia) ltac:(lia)). change (10 ^ 14) with 100000000000000. lia. }
  destruct (str_of_float (a + 1) (5 * m) 1 ltac:(lia) ltac:(lia) ltac:(lia)) as (v & c & p & Ev & _ & Es & Hv & Hc).
  assert (float_of_ratio m 2 = FNum v) as ->.
  { rewrite <- Ev. cbn [float_of_decimal]. change (10 ^ Z.max 0 (-(1))) with 1. change (10 ^ Z.max 0 (- -(1))) with 10.
    rewrite Z.mul_1_r. change 10 with (2 * 5). rewrite (Z.mul_comm 5 m). by rewrite float_of_ratio_scale by lia. }
  rewrite Es. exists c, p. split; [done|]. change (10 ^ 1) with 10 in Hv. destruct (Z.le_gt_cases 0 p) as [Hp|Hp].
  - rewrite Z.max_r, Z.max_l in Hv by lia. rewrite Z.pow_0_r in Hv. split; [lia|]. rewrite Z.pow_add_r by lia.
    change (10 ^ 2) with 100. lia.
  - rewrite (Z.max_l 0 p), (Z.max_r 0 (- p)), Z.pow_0_r in Hv by lia.
    assert (Hp2 : -2 <= p).
    { destruct (Z.le_gt_cases (-2) p) as [|Hlt]; [done|exfalso].
      assert (10 ^ 3 <= 10 ^ (- p)) by (apply Z.pow_le_mono_r; lia). change (10 ^ 3) with 1000 in *.
      rewrite Z.pow_add_r in Hc by lia. change (10 ^ 1) with 10 in Hc.
      assert (c * 1 * 10 >= 5 * m * 1000) by nia. nia. }
    split; [done|]. assert (p = -1 \/ p = -2) as [->| ->] by lia.
    + change (10 ^ - -1) with 10 in Hv. change (10 ^ (-1 + 2)) with 10. lia.
    + change (10 ^ - -2) with 100 in Hv. change (10 ^ (-2 + 2)) with 1. lia.
Qed.

(** * A run of restatements *)

(** The man-hours a closeout attests, in hundredths. *)
Definition attested (c : JobCloseout) : Z :=
  match jc_hours_worked c with
  | DFinite h (-2) => if h <=? 0 then 0 else 50 * half_hours h * crew (jc_techs_on_site c)
  | _ => 0
  end.

(** The column has two decimals; hours and crew are of a plausible size. *)
Definition sane_hours (c : JobCloseout) : Prop :=
  exists h, jc_hours_worked c = DFinite h (-2) /\ h < 10 ^ 6 /\ jc_techs_on_site c <= 1000.

Lemma attested_bound c : sane_hours c -> 0 <= attested c < 10 ^ 10.
Proof.
  intros (h & E & Hh & Ht). unfold attested. rewrite E. change (10 ^ 10) with 10000000000.
  change (10 ^ 6) with 1000000 in Hh. destruct (Z.leb_spec h 0); [lia|].
  pose proof (half_hours_spec h). unfold crew. nia.
Qed.

Lemma round_up_exact h : 0 < h < 10 ^ 6 -> exists x, roundup_to_half (DFinite h (-2)) = Ok x /\ hund (decimal_of_str x) (50 * half_hours h).
Proof.
  intros Hh. change (10 ^ 6) with 1000000 in Hh. rewrite roundup_exact by (change (10 ^ 10) with 10000000000; lia).
  eexists. split; [done|]. apply half_text. pose proof (half_hours_spec h). change (2 ^ 40) with 1099511627776. lia.
Qed.

Lemma attested_exact c : sane_hours c -> exists z, closeout_man_hours c = Ok z /\ hund z (attested c).
Proof.
  intros Hs. pose proof (attested_bound c Hs) as Hb. destruct Hs as (h & E & Hh & Ht). unfold closeout_man_hours, attested in *.
  rewrite E in *. rewrite (hund_leb _ _ _ _ (hund_cents h) (hund_int 0)). cbn [rbind]. rewrite Z.mul_0_l.
  destruct (Z.leb_spec h 0); [exists (DFinite 0 0); split; [done|apply (hund_int 0)]|].
  destruct (round_up_exact h) as (x & -> & Hx); [lia|]. cbn [rbind].
  apply (hund_scale _ _ (crew (jc_techs_on_site c)) Hx). change (10 ^ 27) with 1000000000000000000000000000.
  change (10 ^ 10) with 10000000000 in Hb. lia.
Qed.

(** A live invoice bills the row, for [billed_row] hundredths. *)
Definition held_row (d : Db) (c : JobCloseout) : bool :=
  match jc_billed_invoice_id c with Some h => live_invoice d h | None => false end.
Definition billed_row (c : JobCloseout) : Z := default 0 (jc_man_hours_billed c ≫= hund_of).
Definition billed (d : Db) (l : list JobCloseout) : Z := zsum (map billed_row (List.filter (held_row d) l)).

Definition claim_ok (d : Db) (c : JobCloseout) : Prop :=
  held_row d c = true -> exists m, jc_man_hours_billed c = Some m /\ hund m (billed_row c) /\ 0 <= billed_row c < 10 ^ 12.

(** Closeouts of the table, newest first, each restating the next. *)
Fixpoint chain (w : Work) (l : list JobCloseout) : Prop :=
  match l with
  | [] => True
  | c :: t =>
      get_closeout (jc_id c) w = Some c /\
      match t with
      | [] => jc_supersedes_id c = None
      | p :: _ => jc_supersedes_id c = Some (jc_id p) /\ _restates w c p = true
      end /\ chain w t
  end.

Lemma chain_row w l c : chain w l -> c ∈ l -> get_closeout (jc_id c) w = Some c.
Proof.
  induction l as [|x l IH]; [by intros _ ?%not_elem_of_nil|]. intros (Hx & _ & Hl) [->|Hc]%elem_of_cons; [done|auto].
Qed.

Lemma chain_run w c t fuel seen : chain w (c :: t) -> NoDup (map jc_id t) -> (forall x, x ∈ t -> jc_id x ∉ seen) ->
  (length t < fuel)%nat -> restated_run fuel w seen c = t.
Proof.
  revert c fuel seen. induction t as [|p t IH]; intros c fuel seen Hc Hnd Hs Hf.
  - destruct fuel; [done|]. cbn [restated_run]. destruct Hc as (_ & -> & _). done.
  - destruct fuel as [|fuel]; [cbn in Hf; lia|]. destruct Hc as (_ & [Hp Hr] & Ht). cbn [restated_run]. rewrite Hp. clear Hp.
    destruct (existsb (N.eqb (jc_id p)) seen) eqn:E.
    { exfalso. apply existsb_elem in E as (y & Hy & <-%N.eqb_eq). apply (Hs p); [left|done]. }
    rewrite (chain_row w (p :: t) p Ht) by left. rewrite Hr. f_equal. cbn [map] in Hnd. apply NoDup_cons in Hnd as [Hp Hnd].
    apply IH; [done|done| |cbn in Hf; lia]. intros x Hx. rewrite not_elem_of_cons. split; [|apply Hs; by right].
    intros E'. apply Hp. apply elem_of_map_b. by exists x.
Qed.

Lemma chain_length w l : chain w l -> NoDup (map jc_id l) -> (length l <= length (wk_closeouts w))%nat.
Proof.
  intros Hl Hnd. rewrite <- (length_map jc_id l), <- (length_map jc_id (wk_closeouts w)).
  apply submseteq_length, NoDup_submseteq; [done|]. intros i (c & Hc & <-)%elem_of_map_b.
  apply elem_of_map_b. exists c. split; [|done]. apply (chain_row w l c Hl) in Hc. unfold get_closeout in Hc.
  apply find_some in Hc as [Hc _]. by apply list_elem_of_In.
Qed.

Lemma chain_restated w c t : chain w (c :: t) -> NoDup (map jc_id (c :: t)) -> _restated_run w c = t.
Proof.
  intros Hc Hnd. pose proof (chain_length w (c :: t) Hc Hnd) as Hl. cbn [map] in Hnd. apply NoDup_cons in Hnd as [_ Hnd].
  apply chain_run; [done|done|by intros ? _ ?%not_elem_of_nil|cbn in Hl; lia].
Qed.

Lemma row_held d w c : get_closeout (jc_id c) w = Some c -> is_held d w c = held_row d c.
Proof.
  intros Hc. unfold is_held, closeout_hours_holder, held_row. rewrite Hc.
  destruct (jc_billed_invoice_id c) as [h|]; [|done]. by destruct (live_invoice d h).
Qed.

Lemma rmap_hund {A} (f : A -> result decimal) (g : A -> Z) l :
  (forall x, x ∈ l -> exists z, f x = Ok z /\ hund z (g x)) -> exists zs, rmap f l = Ok zs /\ Forall2 hund zs (map g l).
Proof.
  induction l as [|x l IH]; intros H; [by exists []; repeat constructor|]. destruct (H x) as (z & Hz & Hg); [left|].
  destruct IH as (zs & Hzs & Hl); [intros y Hy; apply H; by right|]. exists (z :: zs). cbn [rmap]. rewrite Hz. cbn [rbind].
  rewrite Hzs. split; [done|]. by constructor.
Qed.

Lemma billed_bound d l : Forall (claim_ok d) l -> 0 <= billed d l <= Z.of_nat (length l) * 10 ^ 12.
Proof.
  unfold billed. change (10 ^ 12) with 1000000000000. induction 1 as [|c l Hc _ IH]; [done|]. cbn [List.filter].
  cbn [length]. destruct (held_row d c) eqn:E; cbn [map zsum]; [|lia]. destruct (Hc E) as (m & _ & _ & Hm).
  change (10 ^ 12) with 1000000000000 in Hm. lia.
Qed.

Section Chain.
Variables (d : Db) (w : Work) (c : JobCloseout) (t : list JobCloseout).
Hypothesis Hchain : chain w (c :: t).
Hypothesis Hids : NoDup (map jc_id (c :: t)).
Hypothesis Hclaims : Forall (claim_ok d) t.
Hypothesis Hlen : Z.of_nat (length t) <= 10 ^ 6.

Lemma before_exact : exists z, closeout_hours_billed_before d w c = Ok z /\ hund z (billed d t).
Proof.
  unfold closeout_hours_billed_before. rewrite (chain_restated w c t Hchain Hids).
  rewrite (filter_ext_in (is_held d w) (held_row d)).
  2: { intros x Hx%list_elem_of_In. apply row_held. apply (chain_row w (c :: t)); [done|by right]. }
  assert (Hx : forall x, x ∈ List.filter (held_row d) t -> x ∈ t /\ held_row d x = true).
  { intros x (H1 & H2)%list_elem_of_In%filter_In. split; [by apply list_elem_of_In|done]. }
  rewrite Forall_forall in Hclaims.
  destruct (rmap_hund (_claim_man_hours w) billed_row (List.filter (held_row d) t)) as (zs & -> & Hzs).
  { intros x [Hxt Hh]%Hx. destruct (Hclaims x Hxt Hh) as (m & Hm & Hb & _). exists m. split; [|done].
    unfold _claim_man_hours. rewrite (chain_row w (c :: t) x Hchain) by (by right). cbn. by rewrite Hm. }
  cbn [rbind]. apply (hund_sum _ _ Hzs).
  - apply Forall_forall. intros h (x & [Hxt Hh]%Hx & <-)%elem_of_map_b. destruct (Hclaims x Hxt Hh) as (_ & _ & _ & Hb). lia.
  - rewrite length_map. pose proof (List.filter_length_le (held_row d) t). change (10 ^ 6) with 1000000 in Hlen.
    change (10 ^ 12) with 1000000000000. lia.
Qed.

Lemma to_bill_exact : sane_hours c ->
  exists z, closeout_man_hours_to_bill d w c = Ok z /\ hund z (Z.max 0 (attested c - billed d t)).
Proof.
  intros Hs. unfold closeout_man_hours_to_bill. destruct (attested_exact c Hs) as (a & -> & Ha). cbn [rbind].
  destruct before_exact as (b & -> & Hb). cbn [rbind].
  pose proof (attested_bound c Hs) as B1. pose proof (billed_bound d t Hclaims) as B2.
  change (10 ^ 6) with 1000000 in Hlen. change (10 ^ 12) with 1000000000000 in B2. change (10 ^ 10) with 10000000000 in B1.
  destruct (hund_sub a b _ _ Ha Hb) as (r & -> & Hr); [change (10 ^ 27) with 1000000000000000000000000000; lia|].
  cbn [rbind]. apply (hund_max _ _ 0 _ (hund_int 0) Hr).
Qed.
End Chain.

(** * Claims *)

(** What a claim leaves of a row: the links of its run. *)
Definition same_links (a b : JobCloseout) : Prop :=
  jc_id a = jc_id b /\ jc_closed_at a = jc_closed_at b /\ jc_supersedes_id a = jc_supersedes_id b /\
  jc_job_id a = jc_job_id b /\ jc_is_restatement a = jc_is_restatement b.

Lemma restates_links w w' c p p' : wk_uncompleted w' = wk_uncompleted w -> same_links p p' -> _restates w' c p = _restates w c p'.
Proof. intros Hu (_ & Hc & _). unfold _restates. by rewrite Hu, Hc. Qed.

Lemma find_map {A} (p : A -> bool) (f : A -> A) l : (forall x, p (f x) = p x) -> List.find p (map f l) = f <$> List.find p l.
Proof. intros H. induction l as [|x l IH]; [done|]. cbn [map List.find]. rewrite H. by destruct (p x). Qed.

Lemma get_claimed p inv m w id_ :
  get_closeout id_ (set_closeouts (update_where p (with_claim inv m)) w) =
  (fun x => if p x then with_claim inv m x else x) <$> get_closeout id_ w.
Proof. apply find_map. intros x. by destruct (p x). Qed.

Lemma chain_frame w w' l : wk_uncompleted w' = wk_uncompleted w -> (forall x, x ∈ l -> get_closeout (jc_id x) w' = get_closeout (jc_id x) w) ->
  chain w l -> chain w' l.
Proof.
  intros Hu. induction l as [|c l IH]; intros Hg Hl; [done|]. destruct Hl as (H1 & H2 & H3). cbn [chain].
  split_and!; [rewrite Hg by left; done| |apply IH; [intros x Hx; apply Hg; by right|done]].
  destruct l as [|p l]; [done|]. destruct H2 as [H2 H4]. split; [done|]. by rewrite (restates_links w w' c p p Hu).
Qed.

(** The state a claim leaves and the row it leaves the chain with. *)
Definition claimed_as (inv : uuid) (d : Db) (w w' : Work) (c c' : JobCloseout) (t : list JobCloseout) : Prop :=
  (w' = w \/ billed d t < attested c /\ jc_billed_invoice_id c' = Some inv) /\ same_links c' c /\ chain w' (c' :: t) /\ claim_ok d c' /\
  billed d (c' :: t) = Z.max (billed d t) (attested c) /\ wk_uncompleted w' = wk_uncompleted w /\
  (forall id_, id_ <> jc_id c -> get_closeout id_ w' = get_closeout id_ w).

Lemma claim_step inv o c t :
  let d := of_db o in let w := of_work o in
  chain w (c :: t) -> NoDup (map jc_id (c :: t)) -> Forall (claim_ok d) t -> Z.of_nat (length t) <= 10 ^ 6 ->
  sane_hours c -> held_row d c = false -> live_invoice d inv = true ->
  exists b w' c', claim_closeout_hours inv c o = (Ok b, set_work (fun _ => w') o) /\ claimed_as inv d w w' c c' t.
Proof.
  intros d w Hch Hnd Hcl Hlen Hs Hheld Hlive. destruct (to_bill_exact d w c t Hch Hnd Hcl Hlen Hs) as (z & Hz & Hh).
  unfold claim_closeout_hours. fold d w. rewrite Hz. unfold mseq at 1. cbn [mlift].
  unfold mseq at 1. rewrite (hund_ltb _ _ _ _ (hund_int 0) Hh). cbn [mlift]. rewrite Z.mul_0_l.
  pose proof (billed_bound d t Hcl) as B. pose proof (attested_bound c Hs) as A.
  destruct (Z.ltb_spec 0 (Z.max 0 (attested c - billed d t))) as [Hpos|Hpos]; cbn [negb].
  2: { exists false, w, c. split; [unfold mreturn; by destruct o|]. split_and!; [by left|done|exact Hch|congruence| |done|done].
       unfold billed in *. cbn [List.filter]. rewrite Hheld. lia. }
  set (p := claimable d (jc_id c)). set (w' := set_closeouts (update_where p (with_claim inv z)) w).
  exists (existsb p (wk_closeouts w)), w', (with_claim inv z c). split; [done|].
  assert (Hpc : p c = true).
  { unfold p, claimable. rewrite N.eqb_refl. unfold held_row in Hheld. destruct (jc_billed_invoice_id c); [by rewrite Hheld|done]. }
  assert (Hget : forall id_, id_ <> jc_id c -> get_closeout id_ w' = get_closeout id_ w).
  { intros id_ Hne. unfold w'. rewrite get_claimed. destruct (get_closeout id_ w) as [x|] eqn:E; [|done]. cbn.
    unfold get_closeout in E. apply find_some in E as [_ E%N.eqb_eq]. unfold p, claimable.
    destruct (N.eqb_spec (jc_id x) (jc_id c)); [congruence|done]. }
  assert (Hrow : billed_row (with_claim inv z c) = Z.max 0 (attested c - billed d t)).
  { unfold billed_row. cbn. apply hund_of_Some in Hh. by rewrite Hh. }
  split_and!; [right; split; [lia|done]|done| | | |done|done].
  - destruct Hch as (Hg & Hlink & Hch). cbn [chain]. split_and!.
    + change (jc_id (with_claim inv z c)) with (jc_id c). unfold w'. rewrite get_claimed, Hg. cbn. by rewrite Hpc.
    + by destruct t as [|q t].
    + apply (chain_frame w w'); [done| |done]. intros x Hx. apply Hget. intros E. cbn [map] in Hnd.
      apply NoDup_cons in Hnd as [Hnd _]. apply Hnd, elem_of_map_b. by exists x.
  - intros _. exists z. split; [done|]. rewrite Hrow. split; [done|].
    change (10 ^ 12) with 1000000000000. change (10 ^ 10) with 10000000000 in A. lia.
  - unfold billed at 1. cbn [List.filter]. assert (held_row d (with_claim inv z c) = true) as -> by done.
    cbn [map zsum]. rewrite Hrow. fold (billed d t). lia.
Qed.

(** The claims of a run, each closeout on its own invoice, the oldest first;
    [l] lists them newest first. *)
Fixpoint claim_run (l : list (uuid * JobCloseout)) : M Office unit :=
  match l with
  | [] => mreturn tt
  | (inv, c) :: l' => claim_run l' ;;; claim_closeout_hours inv c ;;; mreturn tt
  end.

(** The hundredths of an hour the closeout's invoice bills, if a live one does. *)
Definition hours_claimed (d : Db) (w : Work) (id_ : uuid) : Z :=
  match get_closeout id_ w with Some c => if held_row d c then billed_row c else 0 | None => 0 end.

Lemma billed_claimed d w l : chain w l -> zsum (map (fun c => hours_claimed d w (jc_id c)) l) = billed d l.
Proof.
  unfold billed. induction l as [|c l IH]; [done|]. intros (Hc & _ & Hl). cbn [map zsum List.filter]. rewrite (IH Hl).
  unfold hours_claimed. rewrite Hc. by destruct (held_row d c).
Qed.

Lemma links_ids l l' : Forall2 same_links l l' -> map jc_id l = map jc_id l'.
Proof. induction 1 as [|a b l l' [H _] _ IH]; [done|]. cbn [map]. by rewrite H, IH. Qed.

(** The chain as its claims leave it. *)
Definition run_claimed (d : Db) (w w' : Work) (l l' : list JobCloseout) : Prop :=
  Forall2 same_links l' l /\ chain w' l' /\ Forall (claim_ok d) l' /\ billed d l' = foldr Z.max 0 (map attested l) /\
  wk_uncompleted w' = wk_uncompleted w /\ (forall id_, id_ ∉ map jc_id l -> get_closeout id_ w' = get_closeout id_ w).

Lemma claim_run_exact l o :
  let d := of_db o in let w := of_work o in let cs := map snd l in
  chain w cs -> NoDup (map jc_id cs) -> Forall sane_hours cs -> Forall (fun c => held_row d c = false) cs ->
  Forall (fun x => live_invoice d (fst x) = true) l -> Z.of_nat (length l) <= 10 ^ 6 ->
  exists w' l', claim_run l o = (Ok tt, set_work (fun _ => w') o) /\ run_claimed d w w' cs l'.
Proof.
  intros d w. induction l as [|[inv c] l IH]; intros cs Hch Hnd Hs Hh Hlive Hlen.
  - exists w, []. split; [unfold claim_run, mreturn; by destruct o|]. split_and!; done.
  - unfold cs in *. clear cs. cbn [map fst snd] in *. apply NoDup_cons in Hnd as [Hc Hnd]. apply Forall_cons in Hs as [Hsc Hs].
    apply Forall_cons in Hh as [Hhc Hh]. apply Forall_cons in Hlive as [Hinv Hlive]. cbn [length] in Hlen.
    destruct IH as (w1 & l1 & E1 & Hl1 & Hch1 & Hok1 & Hb1 & Hu1 & Hg1); [apply Hch|done..|lia|].
    cbn [claim_run]. rewrite (mseq_run _ _ _ _ _ E1).
    assert (Hch2 : chain w1 (c :: l1)).
    { cbn [chain]. destruct Hch as (H1 & H2 & _). split_and!; [rewrite Hg1 by done; exact H1| |done].
      revert H2. clear - Hl1 Hu1. destruct Hl1 as [|p q l1 l2 Hpq _]; [done|]. intros [H2 H3].
      split; [rewrite H2; f_equal; symmetry; apply Hpq|]. by rewrite (restates_links w w1 c p q Hu1 Hpq). }
    assert (Hlen1 : length l1 = length l) by (rewrite (Forall2_length _ _ _ Hl1); apply length_map).
    destruct (claim_step inv (set_work (fun _ => w1) o) c l1) as (b & w2 & c' & E2 & _ & Hlk & Hch3 & Hok2 & Hb2 & Hu2 & Hg2);
      [exact Hch2| |done|lia|done|done|done|].
    { cbn [map]. rewrite (links_ids _ _ Hl1). by apply NoDup_cons. }
    rewrite (mseq_run _ _ _ _ _ E2). exists w2, (c' :: l1). split; [done|]. split_and!.
    + by constructor.
    + exact Hch3.
    + by constructor.
    + transitivity (Z.max (billed d l1) (attested c)); [exact Hb2|]. rewrite Hb1. cbn [map foldr]. lia.
    + etransitivity; [exact Hu2|exact Hu1].
    + intros id_ Hi. cbn [map] in Hi. apply not_elem_of_cons in Hi as [Hi1 Hi2]. by rewrite Hg2, <- Hg1.
Qed.

(** C25: however often a closeout is restated, its hours are billed once.
    When each of a run of restated closeouts, none of them billed yet, is
    claimed in turn on a live invoice of its own, every claim succeeds, and the
    man-hours the invoices bill between them come to the largest figure the run
    attests: half hours rounded up, times the crew. *)
Theorem restated_hours_billed_once (l : list (uuid * JobCloseout)) (o : Office)
  (Hchain : chain (of_work o) (map snd l)) (Hids : NoDup (map jc_id (map snd l))) (Hsane : Forall sane_hours (map snd l))
  (Hfree : Forall (fun c => held_row (of_db o) c = false) (map snd l))
  (Hlive : Forall (fun x => live_invoice (of_db o) (fst x) = true) l) (Hlen : Z.of_nat (length l) <= 10 ^ 6) :
  exists o', claim_run l o = (Ok tt, o') /\ of_session o' = of_session o /\
    zsum (map (fun x => hours_claimed (of_db o') (of_work o') (jc_id (snd x))) l) =
    foldr Z.max 0 (map (fun x => attested (snd x)) l).
Proof.
  destruct (claim_run_exact l o Hchain Hids Hsane Hfree Hlive Hlen) as (w' & l' & E & Hl & Hch & _ & Hb & _).
  eexists. split; [exact E|]. split; [done|]. rewrite map_map in Hb. rewrite <- Hb, <- (billed_claimed _ w' _ Hch).
  pose proof (links_ids _ _ Hl) as Hi. rewrite <- (map_map jc_id (hours_claimed (of_db o) w')), Hi, !map_map. done.
Qed.

(** Two men for 2.25 hours, then for 3, then one man for one: 5, 6 and 1
    man-hours, billed as 5, 1 and nothing. *)
Definition restatement (id_ : uuid) (h techs : Z) (prior : option uuid) : JobCloseout :=
  mk_closeout id_ 5%N (DFinite h (-2)) techs None (mk_datetime 0 None) None prior (Some true) None None None.

Definition run_invoice (id_ : uuid) : Invoice :=
  mk_invoice id_ "INV" draft None None None (Some 5%N) None "co" None None None None None None false None "standard" None None
    None false.

Definition run_closeouts : list JobCloseout :=
  [restatement 11%N 225 2 None; restatement 12%N 300 2 (Some 11%N); restatement 13%N 100 1 (Some 12%N)].

Definition run_claims : list (uuid * JobCloseout) :=
  [(23%N, restatement 13%N 100 1 (Some 12%N)); (22%N, restatement 12%N 300 2 (Some 11%N)); (21%N, restatement 11%N 225 2 None)].

Definition run_office : Office :=
  mk_office (mk_session (set_ops (set_invoices (fun _ => map run_invoice [21%N; 22%N; 23%N])) bare_db) ∅ [] ∅ [])
    (mk_sales [] [] [] [] [] [] []) (mk_work [] run_closeouts [] [] [] [] [] []).

Lemma restated_hours_billed_once_witness :
  exists o', claim_run run_claims run_office = (Ok tt, o') /\ of_session o' = of_session run_office /\
    zsum (map (fun x => hours_claimed (of_db o') (of_work o') (jc_id (snd x))) run_claims) = 600.
Proof.
  destruct (restated_hours_billed_once run_claims run_office) as (o' & E & Hs & Hz).
  - repeat split.
  - apply (bool_decide_unpack _). vm_compute. exact I.
  - repeat constructor; (eexists; split; [reflexivity|]; split; vm_compute; congruence).
  - repeat constructor.
  - repeat constructor.
  - vm_compute. congruence.
  - exists o'. split; [exact E|]. split; [exact Hs|]. rewrite Hz. vm_compute. reflexivity.
Defined.

(** * Sizes *)

(** A finite value between 0 and [b]: enough for [quantize] to succeed. *)
Definition sized (x : decimal) (b : Z) : Prop := exists c p, x = DFinite c p /\ 0 <= c /\ dnum c p <= b * dden p.

Lemma hund_sized x h : hund x h -> 0 <= h -> sized x h.
Proof.
  intros (c & p & -> & Hp & <-) Hh. exists c, p. pose proof (Z.pow_pos_nonneg 10 (p + 2) ltac:(lia) ltac:(lia)).
  assert (0 <= c) by nia. split; [done|]. split; [done|]. unfold dnum, dden. destruct (Z.le_gt_cases 0 p).
  - rewrite Z.max_r, Z.max_l by lia. rewrite Z.pow_0_r, Z.pow_add_r by lia. change (10 ^ 2) with 100.
    pose proof (Z.pow_pos_nonneg 10 p ltac:(lia) ltac:(lia)). nia.
  - rewrite (Z.max_l 0 p), Z.pow_0_r by lia. assert (p = -1 \/ p = -2) as [-> | ->] by lia.
    + change (10 ^ (-1 + 2)) with 10. change (10 ^ Z.max 0 (- -1)) with 10. lia.
    + change (10 ^ (-2 + 2)) with 1. change (10 ^ Z.max 0 (- -2)) with 100. lia.
Qed.

Lemma ctx_sized c e b : 0 <= c -> dnum c e <= b * dden e -> sized (ctx c e) (2 * b).
Proof.
  intros Hc Hb. destruct (ctx_close c e Hc) as (c' & e' & -> & Hc' & Hcl). exists c', e'. split; [done|]. split; [done|].
  pose proof (dden_pos e). pose proof (dden_pos e'). set (D := dden e) in *. set (D' := dden e') in *.
  set (n := dnum c e) in *. set (n' := dnum c' e') in *. assert (0 <= n) by (unfold n, dnum; apply Z.mul_nonneg_nonneg; [done|apply Z.pow_nonneg; lia]).
  clearbody D D' n n'. change (10 ^ 27) with 1000000000000000000000000000 in Hcl. assert (n' * D <= 2 * (n * D')) by nia.
  assert (n * D' <= b * D * D') by nia. apply (Z.mul_le_mono_pos_r _ _ D); [done|]. nia.
Qed.

Lemma dnum_align c e m : m <= e -> dnum (c * 10 ^ (e - m)) m * dden e = dnum c e * dden m.
Proof.
  intros He. unfold dnum, dden. rewrite <- !Z.mul_assoc, <- !Z.pow_add_r by lia. do 2 f_equal. lia.
Qed.

Lemma sized_add x y a b : sized x a -> sized y b -> exists z, dec_add x y = Ok z /\ sized z (2 * (a + b)).
Proof.
  intros (c & p & -> & Hc & Ha) (c' & p' & -> & Hc' & Hb). cbn [dec_add]. set (m := Z.min p p'). eexists. split; [done|].
  pose proof (Z.pow_nonneg 10 (p - m) ltac:(lia)). pose proof (Z.pow_nonneg 10 (p' - m) ltac:(lia)).
  apply ctx_sized; [nia|].
  assert (E : dnum (c * 10 ^ (p - m) + c' * 10 ^ (p' - m)) m = dnum (c * 10 ^ (p - m)) m + dnum (c' * 10 ^ (p' - m)) m) by (unfold dnum; ring).
  rewrite E. pose proof (dnum_align c p m ltac:(lia)) as A1. pose proof (dnum_align c' p' m ltac:(lia)) as A2.
  pose proof (dden_pos p). pose proof (dden_pos p'). pose proof (dden_pos m).
  assert (dnum (c * 10 ^ (p - m)) m <= a * dden m) by (apply (Z.mul_le_mono_pos_r _ _ (dden p)); nia).
  assert (dnum (c' * 10 ^ (p' - m)) m <= b * dden m) by (apply (Z.mul_le_mono_pos_r _ _ (dden p')); nia). lia.
Qed.

Lemma sized_quantize x b : sized x b -> b < 10 ^ 20 -> exists q, quantize_even x = Ok (DFinite q (-2)).
Proof.
  intros (c & p & -> & Hc & Hb) Hlt. cbn [quantize_even]. set (q := if -2 <=? p then _ else _).
  enough (Z.abs q < 10 ^ decimal_prec) as E by (exists q; by rewrite (proj2 (Z.ltb_lt _ _) E)).
  change (10 ^ decimal_prec) with 10000000000000000000000000000. change (10 ^ 20) with 100000000000000000000 in Hlt.
  unfold q, dnum, dden in *. clear q. destruct (Z.leb_spec (-2) p).
  - destruct (Z.le_gt_cases 0 p).
    + rewrite Z.max_r, Z.max_l in Hb by lia. rewrite Z.pow_add_r by lia. change (10 ^ 2) with 100. change (10 ^ 0) with 1 in Hb.
      pose proof (Z.pow_nonneg 10 p ltac:(lia)). nia.
    + rewrite (Z.max_l 0 p), Z.pow_0_r in Hb by lia. assert (p = -1 \/ p = -2) as [-> | ->] by lia.
      * change (10 ^ (-1 + 2)) with 10. change (10 ^ Z.max 0 (- -1)) with 10 in Hb. lia.
      * change (10 ^ (-2 + 2)) with 1. change (10 ^ Z.max 0 (- -2)) with 100 in Hb. lia.
  - rewrite (Z.max_l 0 p), Z.pow_0_r, Z.max_r in Hb by lia. replace (- p) with (-2 - p + 2) in Hb by lia.
    rewrite Z.pow_add_r in Hb by lia. change (10 ^ 2) with 100 in Hb.
    pose proof (Z.pow_pos_nonneg 10 (-2 - p) ltac:(lia) ltac:(lia)) as Hu. set (u := 10 ^ (-2 - p)) in *. clearbody u.
    pose proof (round_even_spec c u Hu). set (r := round_even c u) in *. clearbody r. assert (2 * u * r <= 2 * c + u) by lia.
    assert (-u <= 2 * u * r) by lia. assert (-1 <= r) by nia. assert (r <= 100 * b + 1) by nia. lia.
Qed.

Lemma minutes_sized m : 0 <= m < 10 ^ 9 -> exists z, dec_div (DFinite m 0) (DFinite 60 0) = Ok z /\ sized z (2 * m).
Proof.
  intros Hm. cbn [dec_div]. change (60 =? 0) with false. cbv iota. eexists. split; [done|].
  change (Z.sgn 60 * m * 10 ^ Z.max 0 (0 - 0)) with (1 * m * 1). change (Z.abs 60 * 10 ^ Z.max 0 (0 - 0)) with 60.
  rewrite Z.mul_1_l, Z.mul_1_r. destruct (Z.eq_dec m 0) as [->|Hn]; [by exists 0, 0|].
  destruct (dec_of_ratio_digits m 60 ltac:(lia) Hn) as (p & -> & Hd). eexists _, p. split; [done|].
  pose proof (round_even_spec (m * 10 ^ Z.max 0 (- p)) (60 * 10 ^ Z.max 0 p)) as Hr. unfold dnum, dden.
  pose proof (Z.pow_pos_nonneg 10 (Z.max 0 p) ltac:(lia) ltac:(lia)). pose proof (Z.pow_pos_nonneg 10 (Z.max 0 (- p)) ltac:(lia) ltac:(lia)).
  set (A := 10 ^ Z.max 0 p) in *. set (B := 10 ^ Z.max 0 (- p)) in *. set (r := round_even _ _) in *. clearbody A B r.
  specialize (Hr ltac:(lia)). rewrite Z.abs_eq in Hd by lia. change (10 ^ 27) with 1000000000000000000000000000 in Hd.
  split; [nia|]. nia.
Qed.

(** * Labor lines *)

Definition in_hund (x : decimal) : Z := default 0 (hund_of x).

Lemma in_hund_eq x h : hund x h -> in_hund x = h.
Proof. intros H%hund_of_Some. unfold in_hund. by rewrite H. Qed.

(** The closeout is for [inv] to bill: no other live invoice does. *)
Definition offered (d : Db) (w : Work) (inv : option uuid) (c : JobCloseout) : bool :=
  match closeout_hours_holder d w (jc_id c) with Some h => opt_eqb inv (Some h) | None => true end.

Lemma attested_pos c h : jc_hours_worked c = DFinite h (-2) -> (0 <? attested c) = (0 <? h).
Proof.
  intros E. unfold attested. rewrite E. destruct (Z.leb_spec h 0); [destruct (Z.ltb_spec 0 h); [lia|done]|].
  pose proof (half_hours_spec h). unfold crew. destruct (Z.ltb_spec 0 h); [|lia]. apply Z.ltb_lt. nia.
Qed.

(** The final day's hours, billed man-hours and what was billed before. *)
Lemma final_day_exact d w inv c b B : sane_hours c -> closeout_hours_billed_before d w c = Ok b -> hund b B -> 0 <= B < 10 ^ 20 ->
  let F := if offered d w inv c then Z.max 0 (attested c - B) else 0 in
  exists hours man carried h k, final_day d w (Some c) inv = Ok (hours, man, carried) /\
    hund man F /\ hund hours h /\ 0 <= h < 10 ^ 6 /\ (0 <? h) = (0 <? F) /\ hund carried k /\ 0 <= k.
Proof.
  intros Hs Hb HB Hbb F. destruct (attested_exact c Hs) as (a & Ha & Hha). pose proof (attested_bound c Hs) as Hbnd.
  pose proof Hs as (h & E & Hh & Ht). pose proof (attested_pos c h E) as Hpos.
  unfold final_day. rewrite E, (hund_ltb _ _ _ _ (hund_int 0) (hund_cents h)). cbn [rbind]. rewrite Z.mul_0_l.
  assert (Hoff : negb match closeout_hours_holder d w (jc_id c) with Some h0 => negb (opt_eqb inv (Some h0)) | None => false end = offered d w inv c).
  { unfold offered. destruct (closeout_hours_holder _ _ _); [by rewrite negb_involutive|done]. }
  rewrite Hoff. unfold F. clear F Hoff. destruct (Z.ltb_spec 0 h) as [Hp|Hp]; cbn [andb].
  2: { exists (DFinite 0 0), (DFinite 0 0), (DFinite 0 0), 0, 0. assert (attested c = 0) as -> by (apply Z.ltb_ge in Hpos; lia).
       rewrite Z.max_l by lia. destruct (offered _ _ _ _); split_and!; try done; apply (hund_int 0). }
  destruct (offered d w inv c).
  2: { exists (DFinite 0 0), (DFinite 0 0), (DFinite 0 0), 0, 0. split_and!; try done; apply (hund_int 0). }
  assert (Ha' : (let! h0 := roundup_to_half (DFinite h (-2)) in dec_mul (decimal_of_str h0) (DFinite (crew (jc_techs_on_site c)) 0)) = Ok a).
  { rewrite <- Ha. unfold closeout_man_hours. rewrite E, (hund_leb _ _ _ _ (hund_cents h) (hund_int 0)). cbn [rbind].
    destruct (Z.leb_spec h (0 * 100)); [lia|done]. }
  apply rbind_Ok in Ha' as (x & -> & Ha'). cbn [rbind]. rewrite Ha'. cbn [rbind].
  rewrite (hund_ltb _ _ _ _ (hund_int 0) Hha), Z.mul_0_l, Hpos. cbn [rbind]. rewrite Hb. cbn [rbind].
  rewrite (hund_ltb _ _ _ _ (hund_int 0) HB), Z.mul_0_l. cbn [rbind]. apply Z.ltb_lt in Hpos.
  destruct (Z.ltb_spec 0 B) as [HB0|HB0].
  - change (10 ^ 10) with 10000000000 in Hbnd. change (10 ^ 20) with 100000000000000000000 in Hbb.
    destruct (hund_sub a b _ _ Hha HB) as (r & -> & Hr); [change (10 ^ 27) with 1000000000000000000000000000; lia|]. cbn [rbind].
    destruct (hund_max _ _ 0 _ (hund_int 0) Hr) as (mx & -> & Hmx). cbn [rbind].
    rewrite (hund_leb _ _ _ _ Hmx (hund_int 0)), Z.mul_0_l. cbn [rbind].
    eexists _, _, _, (if Z.max 0 (attested c - B) <=? 0 then 0 else h), B. split; [reflexivity|]. split; [done|].
    destruct (Z.leb_spec (Z.max 0 (attested c - B)) 0) as [Hz|Hz].
    + split; [apply (hund_int 0)|]. split; [done|]. split; [|split; [done|lia]]. symmetry. apply Z.ltb_ge. lia.
    + split; [apply hund_cents|]. split; [lia|]. split; [|split; [done|lia]]. apply Z.ltb_lt in Hz. rewrite Hz. by apply Z.ltb_lt.
  - assert (B = 0) as -> by lia. exists (DFinite h (-2)), a, b, h, 0. rewrite Z.sub_0_r, Z.max_r by lia. split_and!; try done; try lia. apply hund_cents.
Qed.

(** The man-hours of day rows of [m] minutes. *)
Definition rows_hund (m : Z) : Z := if 0 <? m then 50 * - ((- m) / 30) else 0.

Lemma rows_man_exact m : hund (rows_man m) (rows_hund m).
Proof.
  unfold rows_man, rows_hund. destruct (0 <? m); [|apply (hund_int 0)]. eexists _, _. split; [done|]. split; [lia|].
  change (10 ^ (-1 + 2)) with 10. lia.
Qed.

Lemma rows_hund_bound m : 0 <= m < 10 ^ 9 -> 0 <= rows_hund m < 10 ^ 10 /\ (0 <? rows_hund m) = (0 <? m).
Proof.
  intros Hm. unfold rows_hund. change (10 ^ 9) with 1000000000 in Hm. change (10 ^ 10) with 10000000000.
  pose proof (Z.div_mod (- m) 30 ltac:(lia)). pose proof (Z.mod_pos_bound (- m) 30 ltac:(lia)).
  destruct (Z.ltb_spec 0 m); [|split; [lia|done]]. split; [lia|]. apply Z.ltb_lt. lia.
Qed.

(** The hours billed: with the job's first hour still to charge, at least what
    of it no other invoice bills. *)
Definition floor_hund (charged : bool) (elsewhere man : Z) : Z :=
  if charged then man else Z.max (Z.max 0 (100 - Z.max 0 elsewhere)) man.

Lemma floored_exact charged he E man m : hund he E -> hund man m -> 0 <= m < 10 ^ 12 ->
  exists z, floored (negb charged) he man = Ok z /\ hund z (floor_hund charged E m) /\ 0 <= floor_hund charged E m < 10 ^ 12.
Proof.
  intros He Hm Hb. unfold floored, floor_hund. destruct charged; cbn [negb]; [by exists man|].
  destruct (hund_max _ _ _ _ (hund_int 0) He) as (n & -> & Hn). cbn [rbind]. rewrite Z.mul_0_l in Hn.
  rewrite (hund_ltb _ _ _ _ Hn (hund_int 1)). cbn [rbind]. change (1 * 100) with 100.
  assert (Hx : hund (if Z.max 0 E <? 100 then n else DFinite 1 0) (Z.min (Z.max 0 E) 100)).
  { destruct (Z.ltb_spec (Z.max 0 E) 100); [rewrite Z.min_l by lia; done|]. rewrite Z.min_r by lia. apply (hund_int 1). }
  destruct (hund_sub _ _ _ _ (hund_int 1) Hx) as (f & -> & Hf); [change (10 ^ 27) with 1000000000000000000000000000; lia|].
  cbn [rbind]. destruct (hund_max _ _ _ _ Hf Hm) as (z & -> & Hz). exists z. split; [done|].
  change (10 ^ 12) with 1000000000000 in *. replace (1 * 100 - Z.min (Z.max 0 E) 100) with (Z.max 0 (100 - Z.max 0 E)) in Hz by lia. split; [done|lia].
Qed.

(** What [man] hundredths cost at [f] for the first hour and [r] after it. *)
Definition labor_amount (charged : bool) (f r man : Z) : Z :=
  if charged || (f =? r) then round_half_up (man * r) 2
  else round_half_up (Z.min man 100 * f) 2 + round_half_up (Z.max 0 (man - 100) * r) 2.

Lemma make_line_exact raw desc a b : 0 <= a < 10 ^ 12 -> 0 <= b < 10 ^ 12 ->
  exists l, make_line raw desc (DFinite a (-2)) (DFinite b (-2)) = Ok l /\ ll_quantity l = DFinite a (-2) /\
    ll_line_total l = DFinite (round_half_up (a * b) 2) (-2).
Proof.
  intros Ha Hb. unfold make_line. change (10 ^ 12) with 1000000000000 in *. cbn [dec_mul rbind].
  rewrite ctx_exact by (change (10 ^ decimal_prec) with 10000000000000000000000000000; nia).
  unfold lane_money, quantize_money, quantize_cents. change (-2 <=? -2 + -2) with false. cbv iota zeta. change (-2 - (-2 + -2)) with 2.
  rewrite (proj2 (Z.ltb_lt _ _)); [by eexists|]. change (10 ^ decimal_prec) with 10000000000000000000000000000.
  unfold round_half_up. assert (0 <= a * b < 1000000000000000000000000) by nia. rewrite (Z.abs_eq (a * b)) by lia.
  change (10 ^ 2) with 100. assert (0 <= (2 * (a * b) + 100) / (2 * 100) <= a * b + 1).
  { split; [apply Z.div_pos; lia|]. apply Z.div_le_upper_bound; lia. }
  destruct (a * b) eqn:Eab; cbn [Z.sgn]; lia.
Qed.

Lemma carry_map {B} (f : labor_line -> B) c l :
  (forall x k, f (mk_labor_line (ll_description x) (ll_quantity x) (ll_unit_price x) (ll_line_total x) (ll_man_hours x) k) = f x) ->
  map f (carry c l) = map f l.
Proof.
  intros H. induction l as [|x l IH]; [done|]. destruct l as [|y l]; [cbn; by rewrite H|].
  change (carry c (x :: y :: l)) with (x :: carry c (y :: l)). cbn [map]. cbn [map] in IH. by rewrite IH.
Qed.

Lemma cents_in_hund a : in_hund (DFinite a (-2)) = a.
Proof. apply in_hund_eq, hund_cents. Qed.

Definition billed_quantity (l : list labor_line) : Z := zsum (map (fun x => in_hund (ll_quantity x)) l).
Definition billed_total (l : list labor_line) : Z := zsum (map (fun x => in_hund (ll_line_total x)) l).

Section LaborLines.
Variable str_format : string -> labor_vars -> option string.

Lemma price_lines_exact w f r charged he carried rows fh techs m raw over :
  0 <= f < 10 ^ 12 -> 0 <= r < 10 ^ 12 -> 0 <= m < 10 ^ 12 ->
  exists lines, price_lines str_format w (DFinite f (-2)) (DFinite r (-2)) (negb charged) he carried rows fh techs (DFinite m (-2)) raw over = Ok lines /\
    lines <> [] /\ billed_quantity lines = m /\ billed_total lines = labor_amount charged f r m.
Proof.
  intros Hf Hr Hm. unfold price_lines, labor_amount, billed_quantity, billed_total.
  rewrite (hund_compare _ _ _ _ (hund_cents f) (hund_cents r)). cbn [rbind]. rewrite negb_involutive.
  assert (bool_decide ((f ?= r) = Eq) = (f =? r)) as -> by (destruct (Z.eqb_spec f r) as [->|]; [by rewrite Z.compare_refl|]; apply bool_decide_eq_false_2; by intros ?%Z.compare_eq).
  destruct (charged || (f =? r)).
  - match goal with |- context [make_line raw ?desc _ _] => destruct (make_line_exact raw desc m r Hm Hr) as (l & -> & Hq & Hl) end.
    cbn [rbind]. exists [l]. cbn [map zsum]. rewrite Hq, Hl, !cents_in_hund. split_and!; [done|done|lia|lia].
  - change (100 =? 100) with true. rewrite (hund_ltb _ _ _ _ (hund_cents m) (hund_cents 100)). cbn [rbind].
    assert (Hmin : (if m <? 100 then DFinite m (-2) else DFinite 100 (-2)) = DFinite (Z.min m 100) (-2)).
    { destruct (Z.ltb_spec m 100); f_equal; lia. }
    rewrite Hmin. destruct (make_line_exact raw FIRST_HOUR_DESCRIPTION (Z.min m 100) f) as (l & -> & Hq & Hl); [lia|done|]. cbn [rbind].
    assert (Hrest : dec_sub (DFinite m (-2)) (DFinite 1 0) = Ok (DFinite (m - 100) (-2))).
    { unfold dec_sub. cbn [dec_neg dec_add]. change (Z.min (-2) 0) with (-2). change (10 ^ (-2 - -2)) with 1. change (10 ^ (0 - -2)) with 100.
      change (10 ^ 12) with 1000000000000 in *. rewrite ctx_exact by (change (10 ^ decimal_prec) with 10000000000000000000000000000; lia).
      do 2 f_equal. lia. }
    rewrite Hrest. cbn [rbind]. rewrite (hund_ltb _ _ _ _ (hund_int 0) (hund_cents (m - 100))). cbn [rbind]. rewrite Z.mul_0_l.
    destruct (Z.ltb_spec 0 (m - 100)) as [Hmore|Hmore].
    + match goal with |- context [make_line raw ?desc _ _] => destruct (make_line_exact raw desc (m - 100) r) as (l2 & -> & Hq2 & Hl2); [lia|done|] end. cbn [rbind].
      exists [l; l2]. cbn [map zsum]. rewrite Hq, Hl, Hq2, Hl2, !cents_in_hund, Z.max_r by lia. split_and!; [done|done|lia|lia].
    + exists [l]. cbn [map zsum]. rewrite Hq, Hl, !cents_in_hund, Z.max_l by lia. rewrite Z.mul_0_l. change (round_half_up 0 2) with 0. split_and!; [done|done|lia|lia].
Qed.

Section Exact.
Context `{W : World}.
Variables (d : Db) (w : Work) (job : uuid) (jt : option string) (c : JobCloseout) (inv : option uuid) (incl : bool)
  (given : option (list (uuid * datetime * Z))).
Variables (b he : decimal) (B E f r : Z) (charged : bool).

(** The day rows the lines are built from, and their minutes. *)
Definition labor_rows : list (uuid * datetime * Z) :=
  match given with Some rows => rows | None => if incl then unbilled_day_rows job inv w else [] end.
Definition labor_minutes : Z := zsum (map snd labor_rows).

(** The man-hours to bill, before the floor. *)
Definition labor_hund : Z := (if offered d w inv c then Z.max 0 (attested c - B) else 0) + rows_hund labor_minutes.

Hypothesis Hlane : pricing_lane jt = service.
Hypothesis Hsane : sane_hours c.
Hypothesis Hbefore : closeout_hours_billed_before d w c = Ok b.
Hypothesis HB : hund b B.
Hypothesis HBb : 0 <= B < 10 ^ 20.
Hypothesis Hmin : 0 <= labor_minutes < 10 ^ 9.
Hypothesis Hrates : service_rates w = Ok (DFinite f (-2), DFinite r (-2)).
Hypothesis Hf : 0 <= f < 10 ^ 12.
Hypothesis Hr : 0 <= r < 10 ^ 12.
Hypothesis Helse : first_hour_elsewhere d w job inv = Ok (charged, he).
Hypothesis HE : hund he E.

Lemma days_total hours h : hund hours h -> exists n, days_billed d (Some c) hours labor_rows = Ok n.
Proof.
  intros Hh. unfold days_billed. destruct labor_rows as [|x l]; [by eexists|]. rewrite (hund_ltb _ _ _ _ (hund_int 0) Hh).
  cbn [rbind]. by eexists.
Qed.

Lemma job_labor_run :
  exists lines, job_labor_lines str_format d w job jt (Some c) inv incl given = Ok lines /\
    if labor_hund <=? 0 then lines = []
    else lines <> [] /\ billed_quantity lines = floor_hund charged E labor_hund /\
         billed_total lines = labor_amount charged f r (floor_hund charged E labor_hund).
Proof.
  destruct (final_day_exact d w inv c b B Hsane Hbefore HB HBb) as (hours & man & carried & h & k & Hfin & Hman & Hh & Hhb & Hpos & Hk & Hk0).
  pose proof (attested_bound c Hsane) as Ha. destruct (rows_hund_bound _ Hmin) as [Hrb _].
  unfold job_labor_lines. rewrite Hlane, Hfin. cbn [rbind]. fold labor_rows. fold labor_minutes.
  set (F := if offered d w inv c then Z.max 0 (attested c - B) else 0) in *.
  assert (HF : 0 <= F < 10 ^ 10) by (unfold F; destruct (offered _ _ _ _); lia). change (10 ^ 10) with 10000000000 in *.
  destruct (hund_add _ _ _ _ Hman (rows_man_exact labor_minutes)) as (m & -> & Hm); [change (10 ^ 27) with 1000000000000000000000000000; lia|].
  cbn [rbind]. rewrite (hund_leb _ _ _ _ Hm (hund_int 0)). cbn [rbind]. rewrite Z.mul_0_l.
  change (F + rows_hund labor_minutes) with labor_hund in *. destruct (Z.leb_spec labor_hund 0) as [Hz|Hz]; [by eexists|].
  rewrite Hrates. cbn [rbind]. rewrite Helse. cbn [rbind].
  assert (Hlb : 0 <= labor_hund < 10 ^ 12) by (unfold labor_hund; fold F; change (10 ^ 12) with 1000000000000; lia).
  destruct (floored_exact charged he E m labor_hund HE Hm Hlb) as (z & -> & Hzz & Hzb). cbn [rbind].
  rewrite (hund_quantize _ _ Hzz) by (change (10 ^ 12) with 1000000000000 in Hzb; change (10 ^ 28) with 10000000000000000000000000000; lia).
  cbn [rbind]. rewrite (hund_ltb _ _ _ _ (hund_int 0) Hk). cbn [rbind]. change (10 ^ 6) with 1000000 in Hhb.
  assert (Hraw : exists rf, (if 0 * 100 <? k then Ok man else dec_mul hours (DFinite (crew (jc_techs_on_site c)) 0)) = Ok rf /\ sized rf (10 ^ 12)).
  { destruct Hsane as (h0 & _ & _ & Ht). destruct (0 * 100 <? k).
    - exists man. split; [done|]. destruct (hund_sized _ _ Hman ltac:(lia)) as (c0 & p0 & -> & H0 & H1). exists c0, p0. split_and!; [done|done|].
      pose proof (dden_pos p0). change (10 ^ 12) with 1000000000000. nia.
    - destruct (hund_scale hours h (crew (jc_techs_on_site c)) Hh) as (rf & -> & Hrf).
      { unfold crew. change (10 ^ 27) with 1000000000000000000000000000. nia. }
      exists rf. split; [done|]. destruct (hund_sized _ _ Hrf) as (c0 & p0 & -> & H0 & H1); [unfold crew; nia|]. exists c0, p0. split_and!; [done|done|].
      pose proof (dden_pos p0). change (10 ^ 12) with 1000000000000. assert (h * crew (jc_techs_on_site c) <= 1000000000000) by (unfold crew; nia). nia. }
  destruct Hraw as (rf & -> & Hrf). cbn [rbind]. destruct (minutes_sized _ Hmin) as (rm & -> & Hrm). cbn [rbind].
  destruct (sized_add _ _ _ _ Hrf Hrm) as (raw & -> & Hraw). cbn [rbind].
  destruct (sized_quantize _ _ Hraw) as (q & ->). { change (10 ^ 12) with 1000000000000. change (10 ^ 20) with 100000000000000000000. change (10 ^ 9) with 1000000000 in Hmin. lia. }
  cbn [rbind]. destruct (days_total hours h Hh) as (n & ->). cbn [rbind].
  match goal with |- context [price_lines _ ?w ?f0 ?r0 _ he carried ?rows hours ?techs _ ?raw ?over] =>
    destruct (price_lines_exact w f r charged he carried rows hours techs (floor_hund charged E labor_hund) raw over Hf Hr Hzb) as (lines & -> & Hne & Hq & Ht) end.
  cbn [rbind]. rewrite (hund_ltb _ _ _ _ (hund_int 0) Hh). cbn [rbind]. eexists. split; [reflexivity|]. split; [|split].
  - intros Hn. apply Hne. destruct lines as [|x [|y l]]; done.
  - rewrite <- Hq. unfold billed_quantity. by rewrite carry_map.
  - rewrite <- Ht. unfold billed_total. by rewrite carry_map.
Qed.
End Exact.
End LaborLines.

(** C26: a service visit's labor lines bill its hours at the rates.  For a
    closeout whose run of restatements is in the table, with the rates in
    cents, [job_labor_lines] succeeds, although hours pass through floats and
    their text.  With nothing to bill it offers no line.  Else the quantities
    add up to the man-hours due: the attested ones, half hours rounded up times
    the crew, less what the run billed before, unless another invoice holds
    them, and the day rows' minutes rounded up to the half hour, raised to what
    is left of the job's first hour while that is not charged; and the amounts
    to those hours at the first-hour price and the hourly rate, each line
    rounded half up. *)
Theorem labor_lines_exact `{W : World} str_format d w job jt c t inv incl given he E f r charged
    (Hlane : pricing_lane jt = service) (Hsane : sane_hours c) (Hchain : chain w (c :: t))
    (Hids : NoDup (map jc_id (c :: t))) (Hclaims : Forall (claim_ok d) t) (Hlen : Z.of_nat (length t) <= 10 ^ 6)
    (Hmin : 0 <= labor_minutes w job inv incl given < 10 ^ 9)
    (Hrates : service_rates w = Ok (DFinite f (-2), DFinite r (-2))) (Hf : 0 <= f < 10 ^ 12) (Hr : 0 <= r < 10 ^ 12)
    (Helse : first_hour_elsewhere d w job inv = Ok (charged, he)) (HE : hund he E) :
  let due := labor_hund d w job c inv incl given (billed d t) in
  exists lines, job_labor_lines str_format d w job jt (Some c) inv incl given = Ok lines /\
    if due <=? 0 then lines = []
    else billed_quantity lines = floor_hund charged E due /\
         billed_total lines = labor_amount charged f r (floor_hund charged E due).
Proof.
  intros due. destruct (before_exact d w c t Hchain Hids Hclaims Hlen) as (b & Hb & HB).
  pose proof (billed_bound d t Hclaims) as Hbb. change (10 ^ 6) with 1000000 in Hlen. change (10 ^ 12) with 1000000000000 in Hbb.
  destruct (job_labor_run str_format d w job jt c inv incl given b he (billed d t) E f r charged Hlane Hsane Hb HB) as (lines & Hrun & H);
    [change (10 ^ 20) with 100000000000000000000; lia|done..|].
  exists lines. split; [exact Hrun|]. fold due in H. destruct (due <=? 0); [exact H|apply H].
Qed.

(** Two men for 2.25 hours and a day row of 100 minutes, at 150.00 for the
    first hour and 95.00 after it. *)
Definition visit_closeout : JobCloseout := restatement 11%N 225 2 None.
Definition visit_work : Work :=
  mk_work [mk_time_entry 31%N (Some 5%N) (mk_datetime 0 (Some 0)) (Some (mk_datetime 6000 (Some 0))) (Some 100) None
             (Some (mk_datetime 6000 (Some 0))) None]
    [visit_closeout] [] [] [] [] [mk_pricing (DFinite 15000 (-2)) (DFinite 9500 (-2)) None (mk_datetime 0 (Some 0))] [].

Lemma labor_lines_exact_witness :
  exists lines, job_labor_lines (W := toy_world) (fun _ _ => None) bare_db visit_work 5%N (Some "Service") (Some visit_closeout)
      None true None = Ok lines /\ billed_quantity lines = 700 /\ billed_total lines = 72000.
Proof.
  destruct (labor_lines_exact (W := toy_world) (fun _ _ => None) bare_db visit_work 5%N (Some "Service") visit_closeout [] None true None
    (DFinite 0 0) 0 15000 9500 false) as (lines & H & Hl).
  - reflexivity.
  - eexists. split; [reflexivity|]. split; vm_compute; congruence.
  - split_and!; reflexivity.
  - apply (bool_decide_unpack _). vm_compute. exact I.
  - constructor.
  - vm_compute. congruence.
  - vm_compute. split; congruence.
  - vm_compute. reflexivity.
  - lia.
  - lia.
  - vm_compute. reflexivity.
  - apply (hund_int 0).
  - exists lines. split; [exact H|]. vm_compute in Hl. exact Hl.
Defined.
