(* ===== verification/BillingSafe.v ===== *)
(** Work is billed once.  Every table an invoice bills from carries the
    invoice's stamp; what any part of [create_invoice] or of the autodraft does
    to such a table is to stamp rows that were free, and a request that fails
    leaves the tables as they were. *)

From S2P Require Import Prelude PyStr Dates Money PyNum StrFloat TaxFloat Models PayPeriods Keys Coa Engine Service RulesBase Opening Issuance Payments Adjustments Chokepoint InvoiceTotals Estimates EstimateSpec InvoiceGuard MoneyRoutes Deposits Closeouts Billing CloseoutSpec.

Local Open Scope Z_scope.

(** * Stamped rows *)

(** A row that at most one invoice bills. *)
Class Stamped (A : Type) : Type := {
  row_id : A -> uuid;
  holder : A -> option uuid;
  stamp : uuid -> A -> A;
  row_id_stamp i x : row_id (stamp i x) = row_id x;
  holder_stamp i x : holder (stamp i x) = Some i
}.

#[export] Instance time_stamped : Stamped TimeEntry :=
  {| row_id := tm_id; holder := tm_billed_invoice_id; stamp i := with_time_holder (Some i); row_id_stamp _ _ := eq_refl; holder_stamp _ _ := eq_refl |}.
#[export] Instance part_stamped : Stamped JobPartNeeded :=
  {| row_id := jp_id; holder := jp_billed_invoice_id; stamp i := with_part_holder (Some i); row_id_stamp _ _ := eq_refl; holder_stamp _ _ := eq_refl |}.
#[export] Instance co_stamped : Stamped ChangeOrder :=
  {| row_id := co_id; holder := co_billed_invoice_id; stamp i := with_co_holder (Some i); row_id_stamp _ _ := eq_refl; holder_stamp _ _ := eq_refl |}.

Section Stamps.
Context {A : Type} `{!Stamped A}.

(** [inv] took rows no invoice held, and nothing else changed. *)
Definition took (inv : uuid) (x x' : A) : Prop := x' = x \/ holder x = None /\ x' = stamp inv x.
Definition stamps_free (inv : uuid) (l l' : list A) : Prop := Forall2 (took inv) l l'.
Definition held_by (inv i : uuid) (l : list A) : Prop := exists x, x ∈ l /\ row_id x = i /\ holder x = Some inv.

#[export] Instance stamps_free_preorder inv : PreOrder (stamps_free inv).
Proof.
  split.
  - intros l. apply Forall_Forall2_diag, Forall_forall. intros x _. by left.
  - intros a b c H. revert c. induction H as [|x y a b Hxy _ IH]; intros c Hc; [done|].
    inversion Hc as [|? z ? c' Hyz Hc']; subst. constructor; [|by apply IH].
    destruct Hxy as [->|[H0 ->]]; [done|]. destruct Hyz as [->|[H1 _]]; [by right|]. by rewrite holder_stamp in H1.
Qed.

Lemma stamp_where inv p l : (forall x, p x = true -> holder x = None) -> stamps_free inv l (update_where p (stamp inv) l).
Proof.
  intros Hp. unfold update_where. induction l as [|x l IH]; [constructor|]. constructor; [|done].
  destruct (p x) eqn:E; [right; auto|by left].
Qed.

Lemma stamps_held inv inv' i l l' : stamps_free inv l l' -> held_by inv' i l -> held_by inv' i l'.
Proof.
  intros H (x & Hx & Hi & Hh). apply list_elem_of_lookup in Hx as [k Hk].
  destruct (Forall2_lookup_l _ _ _ _ _ H Hk) as (y & Hy & [->|[H0 _]]); [|by rewrite H0 in Hh].
  exists x. split; [by apply list_elem_of_lookup; exists k|done].
Qed.

Lemma stamp_held inv i p l x : x ∈ l -> p x = true -> row_id x = i -> held_by inv i (update_where p (stamp inv) l).
Proof.
  intros Hx Hp Hi. exists (stamp inv x). split; [|by rewrite row_id_stamp, holder_stamp].
  apply elem_of_update_where. exists x. by rewrite Hp.
Qed.

(** As many free rows as there are ids: each id has its row. *)
Lemma count_held inv ids (p : A -> bool) l : NoDup ids -> NoDup (map row_id l) -> (forall x, p x = true -> row_id x ∈ ids) ->
  length (List.filter p l) = length ids -> forall i, i ∈ ids -> held_by inv i (update_where p (stamp inv) l).
Proof.
  intros Hi Hl Hp Hn i Hii.
  assert (Hsub : NoDup (map row_id (List.filter p l))).
  { clear - Hl. induction l as [|x l IH]; [constructor|]. cbn [map] in Hl. apply NoDup_cons in Hl as [Hx Hl]. cbn [List.filter].
    destruct (p x); [|auto]. cbn [map]. apply NoDup_cons. split; [|auto].
    intros (y & (Hy & _)%list_elem_of_In%filter_In & E)%elem_of_map_b. apply Hx, elem_of_map_b. exists y.
    split; [by apply list_elem_of_In|done]. }
  assert (Hperm : map row_id (List.filter p l) ≡ₚ ids).
  { apply submseteq_length_Permutation; [|rewrite length_map; lia]. apply NoDup_submseteq; [done|].
    intros j (y & (_ & Hy)%list_elem_of_In%filter_In & <-)%elem_of_map_b. by apply Hp. }
  rewrite <- Hperm in Hii. apply elem_of_map_b in Hii as (x & (Hx & Hpx)%list_elem_of_In%filter_In & E).
  apply (stamp_held inv i p l x); [by apply list_elem_of_In|done|done].
Qed.
End Stamps.

(** * Closeouts *)

(** A closeout is free unless a live invoice holds it. *)
Definition took_closeout (d : Db) (inv : uuid) (c c' : JobCloseout) : Prop :=
  c' = c \/ held_row d c = false /\ exists m, c' = with_claim inv m c.

Lemma closeouts_trans d inv a b c : live_invoice d inv = true ->
  Forall2 (took_closeout d inv) a b -> Forall2 (took_closeout d inv) b c -> Forall2 (took_closeout d inv) a c.
Proof.
  intros Hl H. revert c. induction H as [|x y a b Hxy _ IH]; intros c Hc; [done|].
  inversion Hc as [|? z ? c' Hyz Hc']; subst. constructor; [|by apply IH].
  destruct Hxy as [->|[H0 [m ->]]]; [done|]. destruct Hyz as [->|[H1 _]]; [by right; eauto|].
  unfold held_row in H1. cbn in H1. by rewrite Hl in H1.
Qed.

Definition closeout_held (inv i : uuid) (l : list JobCloseout) : Prop :=
  exists c, c ∈ l /\ jc_id c = i /\ jc_billed_invoice_id c = Some inv.

Lemma closeouts_held d inv i l l' : live_invoice d inv = true -> Forall2 (took_closeout d inv) l l' ->
  closeout_held inv i l -> closeout_held inv i l'.
Proof.
  intros Hl H (x & Hx & Hi & Hh). apply list_elem_of_lookup in Hx as [k Hk].
  destruct (Forall2_lookup_l _ _ _ _ _ H Hk) as (y & Hy & [->|[H0 _]]).
  - exists x. split; [by apply list_elem_of_lookup; exists k|done].
  - unfold held_row in H0. rewrite Hh, Hl in H0. done.
Qed.

(** * What a billing step does *)

Record stamps (d : Db) (inv : uuid) (w w' : Work) : Prop := mk_stamps {
  st_time : stamps_free inv (wk_time_entries w) (wk_time_entries w');
  st_parts : stamps_free inv (wk_parts w) (wk_parts w');
  st_orders : stamps_free inv (wk_change_orders w) (wk_change_orders w');
  st_closeouts : Forall2 (took_closeout d inv) (wk_closeouts w) (wk_closeouts w');
  st_rest : wk_co_lines w' = wk_co_lines w /\ wk_labor_prices w' = wk_labor_prices w /\
            wk_pricing w' = wk_pricing w /\ wk_uncompleted w' = wk_uncompleted w
}.

(** A step of the billing of the live invoice [inv]: it may add lines, and it
    stamps free work. *)
Definition bills (inv : uuid) (o o' : Office) : Prop :=
  op_invoices (db_ops (of_db o')) = op_invoices (db_ops (of_db o)) /\ of_sales o' = of_sales o /\
  (live_invoice (of_db o) inv = true -> stamps (of_db o) inv (of_work o) (of_work o')).

Lemma live_ext d d' i : op_invoices (db_ops d') = op_invoices (db_ops d) -> live_invoice d' i = live_invoice d i.
Proof. intros H. unfold live_invoice. by rewrite H. Qed.

Lemma took_weaken d d' inv l l' : (forall i, live_invoice d i = true -> live_invoice d' i = true) ->
  Forall2 (took_closeout d' inv) l l' -> Forall2 (took_closeout d inv) l l'.
Proof.
  intros H Hl. apply (Forall2_impl _ _ _ _ Hl). intros c c' [->|[Hc E]]; [by left|right]. split; [|done].
  unfold held_row in *. destruct (jc_billed_invoice_id c) as [h|]; [|done].
  destruct (live_invoice d h) eqn:El; [|done]. by rewrite (H h El) in Hc.
Qed.

Lemma stamps_refl d inv w : stamps d inv w w.
Proof. split; try reflexivity; [|done]. apply Forall_Forall2_diag, Forall_forall. intros x _. by left. Qed.

Lemma stamps_trans d inv a b c : live_invoice d inv = true -> stamps d inv a b -> stamps d inv b c -> stamps d inv a c.
Proof.
  intros Hl [A1 A2 A3 A4 (A5 & A6 & A7 & A8)] [B1 B2 B3 B4 (B5 & B6 & B7 & B8)].
  split; [etrans; eassumption..|by eapply closeouts_trans|]. split_and!; congruence.
Qed.

Lemma stamps_weaken d d' inv w w' : (forall i, live_invoice d i = true -> live_invoice d' i = true) ->
  stamps d' inv w w' -> stamps d inv w w'.
Proof. intros H [A1 A2 A3 A4 A5]. split; [done..| |done]. by apply (took_weaken d d'). Qed.

#[export] Instance bills_preorder inv : PreOrder (bills inv).
Proof.
  split.
  - intros o. split_and!; [done|done|]. intros _. apply stamps_refl.
  - intros a b c (A1 & A2 & A3) (B1 & B2 & B3). split_and!; [congruence|congruence|]. intros Hl.
    apply (stamps_trans _ _ _ (of_work b)); [done|by apply A3|]. apply (stamps_weaken _ (of_db b)).
    + intros i. by rewrite (live_ext _ _ _ A1).
    + apply B3. by rewrite (live_ext _ _ _ A1).
Qed.

Lemma bills_work inv (f : Work -> Work) o :
  (live_invoice (of_db o) inv = true -> stamps (of_db o) inv (of_work o) (f (of_work o))) -> bills inv o (set_work f o).
Proof. intros H. split_and!; [done|done|exact H]. Qed.

Lemma keeps_fun {A} inv (f : Office -> result A) : keeps (bills inv) (fun o => (f o, o)).
Proof. intros o. cbn. reflexivity. Qed.

Create HintDb bills.

(** [keep]: a step built from steps that keep the relation. *)
Ltac keep :=
  repeat first
    [ progress cbv zeta | apply keeps_return; exact _ | apply keeps_raise; exact _ | apply keeps_lift; exact _
    | apply keeps_reads; exact _ | apply keeps_fun | solve [auto with bills]
    | apply keeps_seq; [exact _| |intros ?] | apply keeps_for; [exact _|intros ? _] | apply keeps_fold; [exact _|intros ? ?]
    | case_match ].

Section Steps.
Context `{W : World}.
Variable str_format : string -> labor_vars -> option string.
Variable inv : uuid.
Notation step := (keeps (bills inv)).

Lemma add_line_bills l : step (on_session (add_line l)).
Proof. intros o. split_and!; [done|done|]. intros _. apply stamps_refl. Qed.
Hint Resolve add_line_bills : bills.

Lemma add_priced_line_bills l : step (add_priced_line l).
Proof. unfold add_priced_line. keep. Qed.
Hint Resolve add_priced_line_bills : bills.

(** An UPDATE that stamps the free rows of one table. *)
Lemma stamp_time_bills p : (forall x, p x = true -> tm_billed_invoice_id x = None) ->
  step (mwrite (set_work (set_time_entries (update_where p (with_time_holder (Some inv)))))).
Proof.
  intros Hp o. apply bills_work. intros _. destruct (stamps_refl (of_db o) inv (of_work o)) as [A1 A2 A3 A4 A5].
  split; [|done..]. exact (stamp_where (A := TimeEntry) inv p (wk_time_entries (of_work o)) Hp).
Qed.

Lemma stamp_part_bills p : (forall x, p x = true -> jp_billed_invoice_id x = None) ->
  step (mwrite (set_work (set_parts (update_where p (with_part_holder (Some inv)))))).
Proof.
  intros Hp o. apply bills_work. intros _. destruct (stamps_refl (of_db o) inv (of_work o)) as [A1 A2 A3 A4 A5].
  split; [done| |done..]. exact (stamp_where (A := JobPartNeeded) inv p (wk_parts (of_work o)) Hp).
Qed.

Lemma stamp_order_bills p : (forall x, p x = true -> co_billed_invoice_id x = None) ->
  step (mwrite (set_work (set_change_orders (update_where p (with_co_holder (Some inv)))))).
Proof.
  intros Hp o. apply bills_work. intros _. destruct (stamps_refl (of_db o) inv (of_work o)) as [A1 A2 A3 A4 A5].
  split; [done|done| |done..]. exact (stamp_where (A := ChangeOrder) inv p (wk_change_orders (of_work o)) Hp).
Qed.

Lemma claim_day_rows_bills ids : step (claim_day_rows inv ids).
Proof.
  unfold claim_day_rows. keep. apply stamp_time_bills. by intros x [_ H%bool_decide_eq_true]%andb_true_iff.
Qed.
Hint Resolve claim_day_rows_bills : bills.

Lemma claim_closeout_bills c : step (claim_closeout_hours inv c).
Proof.
  intros o. unfold claim_closeout_hours. set (p := claimable (of_db o) (jc_id c)).
  destruct (closeout_man_hours_to_bill (of_db o) (of_work o) c) as [z|e]; cbn; [|reflexivity].
  destruct (dec_ltb (DFinite 0 0) z) as [[|]|e]; cbn; [|reflexivity..].
  apply bills_work. intros _. destruct (stamps_refl (of_db o) inv (of_work o)) as [A1 A2 A3 A4 A5].
  split; [done..| |done]. clear. unfold set_closeouts, update_where. cbn.
  induction (wk_closeouts (of_work o)) as [|x l IH]; [constructor|]. constructor; [|done].
  destruct (p x) eqn:E; [right|by left]. split; [|by exists z]. unfold p, claimable in E. apply andb_true_iff in E as [_ E].
  unfold held_row. destruct (jc_billed_invoice_id x) as [h|]; [|done]. by apply negb_true_iff.
Qed.
Hint Resolve claim_closeout_bills : bills.

Lemma claim_rows_bills job ids : step (_claim_labor_day_rows inv job ids).
Proof. unfold _claim_labor_day_rows. keep. Qed.
Lemma refuse_off_bills job c man ids : step (_refuse_restated_line_off_the_suggestion str_format inv job c man ids).
Proof. unfold _refuse_restated_line_off_the_suggestion. keep. Qed.
Hint Resolve claim_rows_bills refuse_off_bills : bills.
Lemma claim_labor_closeout_bills job c man ids : step (_claim_labor_closeout str_format inv job c man ids).
Proof. unfold _claim_labor_closeout. keep. Qed.
Hint Resolve claim_labor_closeout_bills : bills.
Lemma add_hand_line_bills job sort l : step (add_hand_line str_format inv job sort l).
Proof. unfold add_hand_line. keep. Qed.
Lemma copy_estimate_bills e : step (copy_estimate inv e).
Proof. unfold copy_estimate, copy_line. keep. Qed.
Lemma discount_bills p : step (add_operator_discount inv p).
Proof. unfold add_operator_discount. keep. Qed.
Hint Resolve add_hand_line_bills copy_estimate_bills discount_bills : bills.

Lemma change_orders_bills base p : step (bill_change_orders inv base p).
Proof.
  unfold bill_change_orders, copy_co_line, bill_lineless. keep.
  all: apply stamp_order_bills; intros x Hx; unfold billable_co in Hx; rewrite !andb_true_iff in Hx; destruct_and?; by eapply bool_decide_unpack, Is_true_true.
Qed.

Lemma claim_parts_bills p : step (claim_parts inv p).
Proof.
  unfold claim_parts. keep. all: apply stamp_part_bills; intros x Hx; unfold claimable_part in Hx; rewrite !andb_true_iff in Hx; destruct_and?; by eapply bool_decide_unpack, Is_true_true.
Qed.
Hint Resolve change_orders_bills claim_parts_bills : bills.

Lemma write_lines_bills base p e : step (write_lines str_format inv base p e).
Proof. unfold write_lines. keep. Qed.
End Steps.

(** * What a request names is claimed *)

Definition time_held (inv i : uuid) (w : Work) : Prop := held_by inv i (wk_time_entries w).
Definition part_held (inv i : uuid) (w : Work) : Prop := held_by inv i (wk_parts w).
Definition order_held (inv i : uuid) (w : Work) : Prop := held_by inv i (wk_change_orders w).
Definition hours_held (inv i : uuid) (w : Work) : Prop := closeout_held inv i (wk_closeouts w).

(** The work a line names. *)
Definition line_claimed (inv : uuid) (l : InvoiceLineCreateIn) (w : Work) : Prop :=
  (forall i, i ∈ default [] (li_time_entry_ids l) -> time_held inv i w) /\
  (forall c, li_closeout_id l = Some c -> hours_held inv c w).

Lemma line_claimed_stamps d inv l w w' : live_invoice d inv = true -> stamps d inv w w' -> line_claimed inv l w -> line_claimed inv l w'.
Proof.
  intros Hl [A1 _ _ A4 _] [H1 H2]. split.
  - intros i Hi. by apply (stamps_held inv inv i _ _ A1), H1.
  - intros c Hc. by apply (closeouts_held d inv c _ _ Hl A4), H2.
Qed.

Lemma stamps_ids {A} `{!Stamped A} inv (l l' : list A) : stamps_free inv l l' -> map row_id l' = map row_id l.
Proof.
  induction 1 as [|x y l l' Hxy _ IH]; [done|]. cbn [map]. rewrite IH. f_equal.
  destruct Hxy as [->|[_ ->]]; [done|]. apply row_id_stamp.
Qed.

Definition time_keys (w : Work) : Prop := NoDup (map tm_id (wk_time_entries w)).

Lemma stamps_keys d inv w w' : stamps d inv w w' -> time_keys w -> time_keys w'.
Proof. intros [A1 _ _ _ _]. unfold time_keys. by rewrite (stamps_ids inv _ _ A1 : map tm_id _ = map tm_id _). Qed.

Section Claims.
Context `{W : World}.
Variable str_format : string -> labor_vars -> option string.
Variable inv : uuid.

Lemma claim_rows_held job ids o n o' : time_keys (of_work o) -> _claim_labor_day_rows inv job ids o = (Ok n, o') ->
  forall i, i ∈ default [] ids -> time_held inv i (of_work o').
Proof.
  intros Hk. unfold _claim_labor_day_rows. destruct ids as [[|i0 ids]|]; [by intros _ i ?%not_elem_of_nil| |by intros _ i ?%not_elem_of_nil].
  set (l := i0 :: ids). destruct (bool_decide (NoDup l)) eqn:Ed; cbn [negb]; [|done]. apply bool_decide_eq_true in Ed.
  intros (e & o1 & H1 & H)%mseq_Ok. destruct (Nat.eqb e (length l)); cbn [negb] in H; [|done].
  apply mseq_Ok in H as (c & o2 & H2 & H). assert (o1 = o) as -> by (by injection H1).
  destruct (Z.eqb_spec c (Z.of_nat (length l))) as [Ec|]; [|done].
  unfold claim_day_rows in H2. apply mseq_Ok in H2 as (n0 & o3 & H3 & H2). injection H3 as <- <-.
  apply mseq_Ok in H2 as (u & o4 & H4 & H2). injection H4 as <- <-. injection H2 as <- <-. injection H as <- <-.
  intros i Hi. refine (count_held (A := TimeEntry) inv l (free_row l) (wk_time_entries (of_work o)) Ed Hk _ _ i Hi); [|lia].
  intros x [(y & Hy & E%N.eqb_eq)%existsb_elem _]%andb_true_iff. cbn. by rewrite E.
Qed.

Lemma claim_closeout_held_run c o o' : claim_closeout_hours inv c o = (Ok true, o') -> hours_held inv (jc_id c) (of_work o').
Proof.
  unfold claim_closeout_hours. set (p := claimable (of_db o) (jc_id c)).
  intros (z & o1 & H1 & H)%mseq_Ok. apply mseq_Ok in H as (b & o2 & H2 & H). injection H1 as H1 <-. injection H2 as H2 <-.
  destruct b; cbn [negb] in H; [|done]. apply mseq_Ok in H as (u & o3 & H3 & H). injection H3 as <- <-.
  injection H as H <-. apply existsb_elem in H as (x & Hx & Hp). exists (with_claim inv z x). split_and!; [|by apply andb_true_iff in Hp as [?%N.eqb_eq _]|done].
  cbn. apply elem_of_update_where. exists x. by rewrite Hp.
Qed.

Lemma claim_labor_closeout_held job c man ids o b o' : _claim_labor_closeout str_format inv job (Some c) man ids o = (Ok b, o') ->
  hours_held inv c (of_work o').
Proof.
  unfold _claim_labor_closeout. intros (cur & o1 & H1 & H)%mseq_Ok.
  destruct cur as [x|]; [|by destruct job]. destruct job as [j|]; [|done].
  destruct (N.eqb_spec (jc_id x) c) as [Hc|]; cbn [negb] in H; [|done].
  apply mseq_Ok in H as (z & o2 & _ & H). apply mseq_Ok in H as (s & o3 & _ & H). destruct s; cbn [negb] in H; [|done].
  apply mseq_Ok in H as (be & o4 & _ & H). apply mseq_Ok in H as (n & o5 & _ & H). apply mseq_Ok in H as (u & o6 & _ & H).
  apply mseq_Ok in H as (h & o7 & _ & H). destruct h; [done|]. apply mseq_Ok in H as (cl & o8 & H8 & H).
  destruct cl; [|done]. injection H as <- <-. rewrite <- Hc. by apply (claim_closeout_held_run x o7).
Qed.

(** A step run from an office where [inv] is live. *)
Lemma run_bills {A} (m : M Office A) o r o' : keeps (bills inv) m -> m o = (r, o') -> live_invoice (of_db o) inv = true ->
  live_invoice (of_db o') inv = true /\ stamps (of_db o) inv (of_work o) (of_work o').
Proof.
  intros Hk H Hl. specialize (Hk o). rewrite H in Hk. destruct Hk as (A1 & _ & A3). split; [|by apply A3].
  by rewrite (live_ext _ _ _ A1).
Qed.

Lemma hand_line_claimed job sort l o n o' : live_invoice (of_db o) inv = true -> time_keys (of_work o) ->
  add_hand_line str_format inv job sort l o = (Ok n, o') -> line_claimed inv l (of_work o').
Proof.
  intros Hl Hk. unfold add_hand_line. intros (u & o1 & H1 & H)%mseq_Ok. injection H1 as _ <-.
  apply mseq_Ok in H as (t & o2 & H2 & H). injection H2 as _ <-.
  apply mseq_Ok in H as (a & o3 & H3 & H). destruct (run_bills _ _ _ _ (add_priced_line_bills inv _) H3 Hl) as [Hl3 Hs3].
  apply mseq_Ok in H as (b & o4 & H4 & H). destruct (run_bills _ _ _ _ (claim_rows_bills inv _ _) H4 Hl3) as [Hl4 Hs4].
  apply mseq_Ok in H as (c & o5 & H5 & H). injection H as _ <-.
  destruct (run_bills _ _ _ _ (claim_labor_closeout_bills str_format inv _ _ _ _) H5 Hl4) as [Hl5 Hs5].
  pose proof (claim_rows_held _ _ _ _ _ (stamps_keys _ _ _ _ Hs3 Hk) H4) as Hrows. split.
  - intros i Hi. by apply (stamps_held inv inv i _ _ (st_time _ _ _ _ Hs5)), Hrows.
  - intros c' Hc. rewrite Hc in H5. by apply (claim_labor_closeout_held _ _ _ _ _ _ _ H5).
Qed.

Lemma hand_lines_claimed job ls sort o n o' : live_invoice (of_db o) inv = true -> time_keys (of_work o) ->
  mfold (add_hand_line str_format inv job) sort ls o = (Ok n, o') -> forall l, l ∈ ls -> line_claimed inv l (of_work o').
Proof.
  revert sort o. induction ls as [|l ls IH]; intros sort o Hl Hk; [by intros _ l ?%not_elem_of_nil|].
  cbn [mfold]. intros (s & o1 & H1 & H)%mseq_Ok. destruct (run_bills _ _ _ _ (add_hand_line_bills str_format inv _ _ _) H1 Hl) as [Hl1 Hs1].
  intros x [->|Hx]%elem_of_cons; [|by apply (IH s o1 Hl1 (stamps_keys _ _ _ _ Hs1 Hk) H)].
  assert (Hrest : keeps (bills inv) (mfold (add_hand_line str_format inv job) s ls)).
  { apply keeps_fold; [exact _|]. intros. apply add_hand_line_bills. }
  destruct (run_bills _ _ _ _ Hrest H Hl1) as [_ Hs2]. apply (line_claimed_stamps _ _ _ _ _ Hl1 Hs2).
  by apply (hand_line_claimed _ _ _ _ _ _ Hl Hk H1).
Qed.
End Claims.

(** * The request as a whole *)

Definition request_claimed (inv : uuid) (p : InvoiceCreateIn) (w : Work) : Prop :=
  (ci_estimate_id p = None -> forall l, l ∈ ci_line_items p -> line_claimed inv l w) /\
  (forall i, i ∈ ci_from_change_order_ids p -> order_held inv i w) /\
  (forall i, i ∈ requested_parts p -> part_held inv i w).

Section Request.
Context `{W : World}.
Variable str_format : string -> labor_vars -> option string.
Variable inv : uuid.

Lemma orders_claimed base p o u o' : live_invoice (of_db o) inv = true -> bill_change_orders inv base p o = (Ok u, o') ->
  forall i, i ∈ ci_from_change_order_ids p -> order_held inv i (of_work o').
Proof.
  intros Hl. unfold bill_change_orders. destruct (ci_from_change_order_ids p) as [|i0 ids] eqn:Ei; [by intros _ i ?%not_elem_of_nil|].
  rewrite <- Ei. clear i0 ids Ei. set (ids := ci_from_change_order_ids p).
  intros (st & o1 & H1 & H)%mseq_Ok. injection H1 as <- <-. apply mseq_Ok in H as (v & o2 & H2 & H). injection H2 as _ H2.
  destruct (forallb _ _) eqn:Ef; cbn [negb] in H; [|done]. intros i Hi.
  assert (Hi2 : order_held inv i (of_work o2)).
  { rewrite forallb_elem in Ef. apply (Ef i), existsb_elem in Hi as (x & (Hx & Hp)%list_elem_of_In%filter_In & E%N.eqb_eq).
    rewrite <- H2. refine (stamp_held (A := ChangeOrder) inv i _ _ x _ Hp E). by apply list_elem_of_In. }
  assert (Hl2 : live_invoice (of_db o2) inv = true) by (by rewrite <- H2).
  apply (run_bills inv) in H as [_ Hs]; [|unfold copy_co_line, bill_lineless; keep; apply add_priced_line_bills|done].
  by apply (stamps_held inv inv i _ _ (st_orders _ _ _ _ Hs)).
Qed.

Lemma parts_claimed p o u o' : claim_parts inv p o = (Ok u, o') -> forall i, i ∈ requested_parts p -> part_held inv i (of_work o').
Proof.
  unfold claim_parts. destruct (requested_parts p) as [|i0 ids] eqn:Ei; [by intros _ i ?%not_elem_of_nil|].
  rewrite <- Ei. clear i0 ids Ei. set (ids := requested_parts p).
  intros (st & o1 & H1 & H)%mseq_Ok. injection H1 as <- <-. apply mseq_Ok in H as (v & o2 & H2 & H). injection H2 as _ H2.
  destruct (forallb _ _) eqn:Ef; [|done]. injection H as _ <-. intros i Hi.
  rewrite forallb_elem in Ef. apply (Ef i), existsb_elem in Hi as (x & (Hx & Hp)%list_elem_of_In%filter_In & E%N.eqb_eq).
  rewrite <- H2. refine (stamp_held (A := JobPartNeeded) inv i _ _ x _ Hp E). by apply list_elem_of_In.
Qed.

Lemma write_lines_claimed base p e o u o' : live_invoice (of_db o) inv = true -> time_keys (of_work o) ->
  (ci_estimate_id p = None -> e = None) -> write_lines str_format inv base p e o = (Ok u, o') -> request_claimed inv p (of_work o').
Proof.
  intros Hl Hk He. unfold write_lines. intros (a & o1 & H1 & H)%mseq_Ok.
  assert (K1 : keeps (bills inv) match e with
    | Some e => copy_estimate inv e
    | None => mfold (add_hand_line str_format inv (ci_job_id p)) 1 (ci_line_items p) ;;; mreturn tt end).
  { destruct e; [apply copy_estimate_bills|]. apply keeps_seq; [exact _| |intros; apply keeps_return, _].
    apply keeps_fold; [exact _|]. intros. apply add_hand_line_bills. }
  destruct (run_bills inv _ _ _ _ K1 H1 Hl) as [Hl1 Hs1].
  apply mseq_Ok in H as (b & o2 & H2 & H). destruct (run_bills inv _ _ _ _ (discount_bills inv p) H2 Hl1) as [Hl2 Hs2].
  apply mseq_Ok in H as (c & o3 & H3 & H). destruct (run_bills inv _ _ _ _ (change_orders_bills inv base p) H3 Hl2) as [Hl3 Hs3].
  destruct (run_bills inv _ _ _ _ (claim_parts_bills inv p) H Hl3) as [Hl4 Hs4]. split_and!.
  - intros Hn l Hin. rewrite (He Hn) in H1. apply mseq_Ok in H1 as (n & o0 & H1 & H0). injection H0 as _ <-.
    apply (line_claimed_stamps _ _ _ _ _ Hl3 Hs4), (line_claimed_stamps _ _ _ _ _ Hl2 Hs3), (line_claimed_stamps _ _ _ _ _ Hl1 Hs2).
    by apply (hand_lines_claimed _ _ _ _ _ _ _ _ Hl Hk H1).
  - intros i Hi. apply (stamps_held inv inv i _ _ (st_orders _ _ _ _ Hs4)). by apply (orders_claimed _ _ _ _ _ Hl2 H3).
  - intros i Hi. by apply (parts_claimed _ _ _ _ H).
Qed.
End Request.

(** The flushed row is the draft, whatever number it ends with. *)
Lemma flush_row fallback i s i' s' : flush_invoice_with_number_retry [] fallback i (fun _ => None) s = (Ok (inr i'), s') ->
  inv_id i' = inv_id i /\ inv_status i' = inv_status i /\ inv_deleted_at i' = inv_deleted_at i /\
  op_invoices (db_ops (se_db s')) = op_invoices (db_ops (se_db s)) ++ [i'].
Proof.
  unfold flush_invoice_with_number_retry.
  assert (set_db (set_ops (set_invoices (fun l => l ++ []))) s = s) as ->.
  { unfold set_db, set_ops, set_invoices. rewrite app_nil_r. by destruct s as [[gl []] ? ? ? ?]. }
  unfold insert_invoice. destruct (existsb _ _); [|intros [[= <-] <-]%pair_equal_spec; split_and!; reflexivity].
  intros (a & s1 & [_ <-]%pair_equal_spec & H)%mseq_Ok. apply mseq_Ok in H as (w & s2 & [[= <-] <-]%pair_equal_spec & H).
  apply mseq_Ok in H as (n & s3 & [_ <-]%pair_equal_spec & H). apply mseq_Ok in H as (u & s4 & H4 & H).
  destruct (existsb _ _) in H4; [by apply pair_equal_spec in H4 as [H4 _]|]. apply pair_equal_spec in H4 as [_ <-].
  apply pair_equal_spec in H as [[= <-] <-]. split_and!; reflexivity.
Qed.

Lemma on_session_work {A} (m : M Session A) o r o' : on_session m o = (r, o') ->
  of_work o' = of_work o /\ m (of_session o) = (r, of_session o').
Proof. unfold on_session. destruct (m (of_session o)) as [r0 s0]. by intros [<- <-]%pair_equal_spec. Qed.

Lemma live_app d l i : op_invoices (db_ops d) = l -> forall d' l', op_invoices (db_ops d') = l ++ l' ->
  live_invoice d i = true -> live_invoice d' i = true.
Proof. intros <- d' l' E. unfold live_invoice. rewrite E, existsb_app. by intros ->. Qed.

Lemma prepared_row `{W : World} policy tenant_id fallback p s d x id_ : prepare policy tenant_id fallback p s d = Ok x ->
  inv_id (pr_row x id_) = id_ /\ is_live (pr_row x id_) = true /\ (ci_estimate_id p = None -> pr_estimate x = None).
Proof.
  unfold prepare. intros (job & _ & H)%rbind_Ok. destruct (match job with Some _ => _ | None => _ end); [done|].
  apply rbind_Ok in H as (e & He & H). apply rbind_Ok in H as (src & _ & H).
  destruct (match ci_invoice_date p with Some _ => _ | None => _ end); [done|].
  do 7 (apply rbind_Ok in H as (? & _ & H)). injection H as <-. split_and!; [done|done|].
  intros Hn. unfold found_estimate in He. rewrite Hn in He. by injection He as <-.
Qed.

Lemma written_once `{W : World} str_format base fallback actor p x o invoice n ws o' d0 :
  time_keys (of_work o) -> (forall id_, inv_id (pr_row x id_) = id_ /\ is_live (pr_row x id_) = true) ->
  (ci_estimate_id p = None -> pr_estimate x = None) ->
  (forall i, live_invoice d0 i = true -> live_invoice (of_db o) i = true) ->
  write_invoice_rows str_format base fallback actor p x o = (Ok (invoice, n, ws), o') ->
  stamps d0 (inv_id invoice) (of_work o) (of_work o') /\ request_claimed (inv_id invoice) p (of_work o').
Proof.
  intros Hk Hrow He Hlive. unfold write_invoice_rows. intros (id_ & o1 & [W1 H1]%on_session_work & H)%mseq_Ok.
  assert (I1 : op_invoices (db_ops (of_db o1)) = op_invoices (db_ops (of_db o))).
  { unfold of_db. apply pair_equal_spec in H1 as [_ <-]. reflexivity. }
  apply mseq_Ok in H as ([?|i] & o2 & [W2 H2]%on_session_work & H); [done|].
  apply flush_row in H2 as (Hid & Hst & Hdel & I2). destruct (Hrow id_) as [Hr1 Hr2]. rewrite Hr1 in Hid.
  assert (Hl2 : live_invoice (of_db o2) id_ = true).
  { unfold live_invoice. unfold of_db at 1. rewrite I2, existsb_app. apply orb_true_iff. right. cbn [existsb].
    rewrite Hid, N.eqb_refl. unfold is_live in *. by rewrite Hst, Hdel, Hr2. }
  assert (Hk2 : time_keys (of_work o2)) by (by rewrite W2, W1).
  apply mseq_Ok in H as (u & o3 & H3 & H).
  pose proof (write_lines_claimed str_format id_ base p _ o2 u o3 Hl2 Hk2 He H3) as Hc.
  destruct (run_bills id_ _ _ _ _ (write_lines_bills str_format id_ base p _) H3 Hl2) as [_ Hs].
  apply mseq_Ok in H as (net & o4 & [W4 _]%on_session_work & H).
  apply mseq_Ok in H as (i' & o5 & [W5 H5]%on_session_work & H). apply pair_equal_spec in H as [[= <- _ _] <-].
  assert (inv_id i' = id_) as ->.
  { apply pair_equal_spec in H5 as [[= <-] _]. destruct (get_invoice id_ _) as [j|] eqn:Ej; [|exact Hid].
    unfold get_invoice in Ej. apply find_some in Ej as [_ Ej]. by apply N.eqb_eq in Ej. }
  rewrite W5, W4. split; [|done]. rewrite <- W1, <- W2. apply (stamps_weaken _ (of_db o2)); [|done].
  intros j Hj%Hlive. apply (live_app (of_db o) _ j eq_refl _ [i]); [|done]. unfold of_db at 1. rewrite I2. by rewrite <- I1.
Qed.

(** A request that went through: the checks passed, other requests' rows in,
    and the rows written. *)
Lemma create_written `{W : World} str_format policy races base tenant_id fallback actor p o z o' :
  create_invoice str_format policy races base tenant_id fallback actor p o = (Ok z, o') ->
  exists x o1, of_work o1 = of_work o /\ (forall i, live_invoice (of_db o) i = true -> live_invoice (of_db o1) i = true) /\
    (forall id_, inv_id (pr_row x id_) = id_ /\ is_live (pr_row x id_) = true) /\
    (ci_estimate_id p = None -> pr_estimate x = None) /\
    write_invoice_rows str_format base fallback actor p x o1 = (Ok z, o').
Proof.
  unfold create_invoice. destruct (valid_create p); cbn [negb]; [|done].
  unfold mseq at 1. destruct (prepare policy tenant_id fallback p (of_sales o) (of_db o)) as [x|e] eqn:Ex; [|done].
  set (o1 := set_session (set_db (set_ops (set_invoices (fun l => l ++ races)))) o).
  assert (E1 : on_session (mwrite (set_db (set_ops (set_invoices (fun l => l ++ races))))) o = (Ok tt, o1)) by reflexivity.
  rewrite (mseq_run _ _ _ _ _ E1). unfold atomically.
  destruct (write_invoice_rows _ _ _ _ _ _ o1) as [[z'|e] o2] eqn:E2; intros [H1 H2]%pair_equal_spec; [|done].
  injection H1 as <-. subst o2. exists x, o1. split; [done|]. split; [|split; [|split; [|exact E2]]].
  - intros i. by apply (live_app (of_db o) _ i eq_refl (of_db o1) races).
  - intros id_. destruct (prepared_row _ _ _ _ _ _ _ id_ Ex) as (A & B & _). done.
  - by destruct (prepared_row _ _ _ _ _ _ _ 0%N Ex) as (_ & _ & H).
Qed.

Lemma create_refused `{W : World} str_format policy races base tenant_id fallback actor p o e o' :
  create_invoice str_format policy races base tenant_id fallback actor p o = (Err e, o') -> of_work o' = of_work o.
Proof.
  unfold create_invoice. destruct (negb (valid_create p)); [by intros [_ <-]%pair_equal_spec|].
  unfold mseq at 1. destruct (prepare policy tenant_id fallback p (of_sales o) (of_db o)) as [x|]; [|by intros [_ <-]%pair_equal_spec].
  unfold mseq, on_session, mwrite, atomically. destruct (write_invoice_rows _ _ _ _ _ _ _) as [[z|e'] o2]; [done|].
  by intros [_ <-]%pair_equal_spec.
Qed.

(** C9: work is billed once.  Whatever [create_invoice] is asked and whatever
    other requests commit before it writes, a refusal leaves every time entry,
    closeout, part and change order as it was; a success only stamps rows no
    invoice held, or for a closeout no live invoice held, with the new
    invoice, so a row another invoice bills is never taken from it, and all
    the work the request names is then held by the new invoice. *)
Theorem work_billed_once `{W : World} str_format policy races base tenant_id fallback actor p o r o'
    (Hkeys : time_keys (of_work o))
    (Hrun : create_invoice str_format policy races base tenant_id fallback actor p o = (r, o')) :
  match r with
  | Err _ => of_work o' = of_work o
  | Ok (invoice, _, _) =>
      stamps (of_db o) (inv_id invoice) (of_work o) (of_work o') /\ request_claimed (inv_id invoice) p (of_work o')
  end.
Proof.
  destruct r as [[[invoice n] ws]|e]; [|exact (create_refused _ _ _ _ _ _ _ _ _ _ _ Hrun)].
  destruct (create_written _ _ _ _ _ _ _ _ _ _ _ Hrun) as (x & o1 & Hw & Hlive & Hrow & He & Hwr). rewrite <- Hw in *.
  by apply (written_once str_format base fallback actor p x o1 invoice n ws o' (of_db o)).
Qed.

(** * The autodraft *)

Lemma update_where_none {A} (p : A -> bool) f l : existsb p l = false -> update_where p f l = l.
Proof.
  unfold update_where. induction l as [|x l IH]; [done|]. cbn [existsb map]. intros [-> H]%orb_false_iff. by rewrite IH.
Qed.

Section Autodraft.
Context `{W : World}.
Variable str_format : string -> labor_vars -> option string.
Variable inv : uuid.
Notation step := (keeps (bills inv)).

Lemma add_draft_line_bills t l : step (add_draft_line t l).
Proof. unfold add_draft_line. apply keeps_seq; [exact _|apply add_line_bills|intros _; apply keeps_lift, _]. Qed.
Hint Resolve add_draft_line_bills : bills.

Lemma install_lane_bills job c tx t : step (install_lane_lines inv job c tx t).
Proof. unfold install_lane_lines. keep. Qed.

Lemma service_lane_bills job jt c tx t : step (service_lane_lines str_format inv job jt c tx t).
Proof. unfold service_lane_lines. keep; [apply claim_day_rows_bills|apply claim_closeout_bills]. Qed.

Lemma bill_part_bills tx t p : step (bill_part inv tx t p).
Proof.
  unfold bill_part. keep; apply stamp_part_bills; intros x [_ Hx]%andb_true_iff; by apply bool_decide_eq_true in Hx.
Qed.
Hint Resolve install_lane_bills service_lane_bills bill_part_bills : bills.

Lemma build_lines_bills job jt c : step (build_closeout_lines str_format inv job jt c).
Proof. unfold build_closeout_lines. keep. Qed.

(** A step that counts a line, or leaves the work alone. *)
Definition counted (t t' : tally) (o o' : Office) : Prop :=
  ta_added t < ta_added t' \/ ta_added t' = ta_added t /\ of_work o' = of_work o.

Lemma counted_trans t1 t2 t3 o1 o2 o3 : counted t1 t2 o1 o2 -> counted t2 t3 o2 o3 -> counted t1 t3 o1 o3.
Proof. unfold counted. intros [?|[? E1]] [?|[? E2]]; [left; lia..|right]. split; [lia|by rewrite E2]. Qed.

Lemma counted_fold {A} (body : tally -> A -> M Office tally) l t o t' o' :
  (forall t x o t' o', body t x o = (Ok t', o') -> counted t t' o o') -> mfold body t l o = (Ok t', o') -> counted t t' o o'.
Proof.
  intros Hb. revert t o. induction l as [|x l IH]; intros t o; cbn [mfold].
  - intros [[= <-] <-]%pair_equal_spec. by right.
  - intros (t1 & o1 & H1 & H)%mseq_Ok. apply (counted_trans _ t1 _ _ o1); [by apply (Hb _ _ _ _ _ H1)|by apply IH].
Qed.

Lemma add_draft_line_counted t l o t' o' : add_draft_line t l o = (Ok t', o') -> ta_added t' = ta_added t + 1 /\ of_work o' = of_work o.
Proof.
  unfold add_draft_line. intros (u & o1 & [E _]%on_session_work & H)%mseq_Ok. apply pair_equal_spec in H as [H <-]. split; [|done].
  unfold count_added in H. apply rbind_Ok in H as (a & _ & H). by apply rbind_Ok in H as (b & _ & [= <-]).
Qed.

Lemma bill_part_counted tx t p o t' o' : bill_part inv tx t p o = (Ok t', o') -> counted t t' o o'.
Proof.
  unfold bill_part. destruct (bool_decide _); [intros [[= <-] <-]%pair_equal_spec; by right|].
  intros (b & o1 & [[= Hb] <-]%pair_equal_spec & H)%mseq_Ok. apply mseq_Ok in H as (u & o2 & [_ <-]%pair_equal_spec & H).
  destruct b; cbn [negb] in H.
  - left. apply mseq_Ok in H as (u1 & o3 & _ & H). apply mseq_Ok in H as (u2 & o4 & _ & H).
    apply add_draft_line_counted in H as [-> _]. lia.
  - apply pair_equal_spec in H as [[= <-] <-]. right. split; [done|]. cbn. unfold set_parts. rewrite update_where_none by done.
    by destruct (of_work o).
Qed.

(** The day rows' minutes are positive. *)
Lemma day_rows_minutes p job w : 0 <= zsum (map snd (day_rows_where p job w)) /\
  (forall x, x ∈ wk_time_entries w -> opt_eqb (tm_job_id x) (Some job) && is_day_row x && p x = true ->
   0 < zsum (map snd (day_rows_where p job w))).
Proof.
  unfold day_rows_where. rewrite map_map. set (l := List.filter _ _).
  assert (Hl : forall x, x ∈ stable_sort day_row_before l -> 0 < snd (day_row x)).
  { intros x Hx. rewrite stable_sort_perm in Hx. apply list_elem_of_In, filter_In in Hx as [_ Hx].
    rewrite !andb_true_iff in Hx. destruct Hx as [[_ Hd] _]. unfold is_day_row in Hd. rewrite !andb_true_iff in Hd.
    destruct Hd as [[[_ Hd] _] _]. cbn. destruct (tm_duration_minutes x); [by apply Z.ltb_lt|done]. }
  split.
  - clear - Hl. induction (stable_sort day_row_before l) as [|x s IH]; [done|]. cbn [map zsum].
    pose proof (Hl x ltac:(left)). specialize (IH (fun y Hy => Hl y ltac:(by right))). lia.
  - intros x Hx Hp. assert (Hin : x ∈ stable_sort day_row_before l).
    { rewrite stable_sort_perm. apply list_elem_of_In, filter_In. split; [by apply list_elem_of_In|done]. }
    clear Hp Hx. clearbody l. induction (stable_sort day_row_before l) as [|y s IH]; [by apply not_elem_of_nil in Hin|].
    cbn [map zsum]. pose proof (Hl y ltac:(left)). enough (0 <= zsum (map (fun x => snd (day_row x)) s)) by lia.
    assert (Hs : forall z, z ∈ s -> 0 < snd (day_row z)) by (intros z Hz; apply Hl; by right). clear - Hs.
    induction s as [|z s IH]; [done|]. cbn [map zsum]. pose proof (Hs z ltac:(left)). specialize (IH (fun y Hy => Hs y ltac:(by right))). lia.
Qed.
Lemma nothing_added x y a b z : hund x a -> hund y b -> 0 <= a -> 0 <= b -> dec_add x y = Ok z ->
  dec_leb z (DFinite 0 0) = Ok true -> a = 0 /\ b = 0.
Proof.
  intros (c & p & -> & Hp & Hc) (c' & p' & -> & Hp' & Hc') Ha Hb. cbn [dec_add]. set (m := Z.min p p'). intros [= <-].
  assert (Hs : (c * 10 ^ (p - m) + c' * 10 ^ (p' - m)) * 10 ^ (m + 2) = a + b).
  { rewrite Z.mul_add_distr_r, !scale_to by (unfold m; lia). lia. }
  pose proof (Z.pow_pos_nonneg 10 (m + 2) ltac:(lia) ltac:(unfold m; lia)) as H10. set (s := c * 10 ^ (p - m) + c' * 10 ^ (p' - m)) in *.
  clearbody s m. assert (Hs0 : 0 <= s) by nia. destruct (ctx_close s m Hs0) as (c1 & e1 & -> & Hc1 & Hcl).
  unfold dec_leb. cbn [dec_compare rbind]. intros Hle. pose proof (Z.pow_pos_nonneg 10 (e1 - Z.min e1 0) ltac:(lia) ltac:(lia)) as Hu.
  rewrite Z.mul_0_l in Hle. assert (c1 = 0).
  { destruct (Z.compare_spec (c1 * 10 ^ (e1 - Z.min e1 0)) 0); [nia|nia|done]. }
  subst c1. assert (dnum 0 e1 = 0) as E0 by done. rewrite E0, Z.mul_0_l in Hcl. pose proof (dden_pos e1) as Hd.
  assert (Hn : 0 <= dnum s m) by (unfold dnum; apply Z.mul_nonneg_nonneg; [done|apply Z.pow_nonneg; lia]).
  assert (dnum s m = 0) as Hz.
  { change (10 ^ 27) with 1000000000000000000000000000 in Hcl. nia. }
  unfold dnum in Hz. pose proof (Z.pow_pos_nonneg 10 (Z.max 0 m) ltac:(lia) ltac:(lia)). assert (s = 0) by nia. nia.
Qed.

Lemma rows_hund_nonneg m : 0 <= m -> 0 <= rows_hund m.
Proof.
  intros Hm. unfold rows_hund. pose proof (Z.div_mod (- m) 30 ltac:(lia)). pose proof (Z.mod_pos_bound (- m) 30 ltac:(lia)).
  destruct (0 <? m); lia.
Qed.

(** No line: the man-hours come to nothing. *)
Lemma no_labor_lines d w job jt c given : pricing_lane jt = service ->
  job_labor_lines str_format d w job jt (Some c) (Some inv) true (Some given) = Ok [] ->
  exists hours man carried m, final_day d w (Some c) (Some inv) = Ok (hours, man, carried) /\
    dec_add man (rows_man (zsum (map snd given))) = Ok m /\ dec_leb m (DFinite 0 0) = Ok true.
Proof.
  intros Hlane. unfold job_labor_lines. rewrite Hlane. intros ([[hours man] carried] & Hf & H)%rbind_Ok.
  apply rbind_Ok in H as (m & Hm & H). apply rbind_Ok in H as (b & Hb & H). exists hours, man, carried, m.
  destruct b; [done|exfalso]. apply rbind_Ok in H as ([f r] & _ & H). apply rbind_Ok in H as ([ch el] & _ & H).
  do 8 (apply rbind_Ok in H as (? & _ & H)). apply rbind_Ok in H as (lines & Hl & H). apply rbind_Ok in H as (p & _ & [= H]).
  assert (lines = []) as -> by (by destruct lines as [|? [|? ?]]). clear H.
  unfold price_lines in Hl. apply rbind_Ok in Hl as (s & _ & Hl). destruct (negb (negb ch) || _).
  - by apply rbind_Ok in Hl as (l & _ & [=]).
  - do 4 (apply rbind_Ok in Hl as (? & _ & Hl)). case_match; [|done]. by apply rbind_Ok in Hl as (l & _ & [=]).
Qed.

Lemma run_links fuel w seen c c' : same_links c c' -> restated_run fuel w seen c = restated_run fuel w seen c'.
Proof.
  intros (_ & E1 & E2 & E3 & E4). destruct fuel; [done|]. cbn [restated_run]. rewrite E2.
  destruct (jc_supersedes_id c'); [|done]. case_match; [done|]. destruct (get_closeout u w) as [p|]; [|done].
  unfold _restates. by rewrite E1, E3, E4.
Qed.

Lemma held_not_claimable d w c : NoDup (map jc_id (wk_closeouts w)) -> get_closeout (jc_id c) w = Some c -> held_row d c = true ->
  existsb (claimable d (jc_id c)) (wk_closeouts w) = false.
Proof.
  intros Hnd Hc Hh. apply not_true_iff_false. intros (x & Hx & [Hi%N.eqb_eq Hx']%andb_true_iff)%existsb_elem.
  assert (x = c) as ->.
  { apply (NoDup_map_inj jc_id (wk_closeouts w)); [done|done| |done]. unfold get_closeout in Hc.
    apply find_some in Hc as [Hc _]. by apply list_elem_of_In. }
  unfold held_row in Hh. destruct (jc_billed_invoice_id c); [by rewrite Hh in Hx'|done].
Qed.

Section Lane.
Variables (c : JobCloseout) (tl : list JobCloseout).

(** The closeout and the run it restates, as the table has them. *)
Definition run_known (o : Office) : Prop :=
  chain (of_work o) (c :: tl) /\ NoDup (map jc_id (wk_closeouts (of_work o))) /\ NoDup (map jc_id (c :: tl)) /\
  Forall (claim_ok (of_db o)) tl /\ Z.of_nat (length tl) <= 10 ^ 6 /\ sane_hours c.

(** The claim, and what is then left for the lines. *)
Lemma claim_then_final o b o' : run_known o -> live_invoice (of_db o) inv = true -> claim_closeout_hours inv c o = (Ok b, o') ->
  of_db o' = of_db o /\ wk_time_entries (of_work o') = wk_time_entries (of_work o) /\
  forall hours man carried, final_day (of_db o') (of_work o') (Some c) (Some inv) = Ok (hours, man, carried) ->
    exists F, hund man F /\ 0 <= F < 10 ^ 12 /\ (F = 0 -> of_work o' = of_work o).
Proof.
  intros (Hch & Hkeys & Hnd & Hcl & Hlen & Hs) Hl Hrun.
  pose proof (billed_bound (of_db o) tl Hcl) as Hbb. pose proof (attested_bound c Hs) as Hab.
  change (10 ^ 6) with 1000000 in Hlen. change (10 ^ 12) with 1000000000000 in *. change (10 ^ 10) with 10000000000 in Hab.
  destruct (before_exact (of_db o) (of_work o) c tl Hch Hnd Hcl) as (z0 & Hz0 & Hh0); [change (10 ^ 6) with 1000000; lia|].
  assert (Hsame : of_db o' = of_db o -> of_work o' = of_work o ->
    of_db o' = of_db o /\ wk_time_entries (of_work o') = wk_time_entries (of_work o) /\
    forall hours man carried, final_day (of_db o') (of_work o') (Some c) (Some inv) = Ok (hours, man, carried) ->
    exists F, hund man F /\ 0 <= F < 1000000000000 /\ (F = 0 -> of_work o' = of_work o)).
  { intros -> ->. split_and!; [done|done|]. intros hours man carried Hf.
    destruct (final_day_exact (of_db o) (of_work o) (Some inv) c z0 (billed (of_db o) tl) Hs Hz0 Hh0) as (h1 & m1 & c1 & h & k & E & Hm & _);
      [change (10 ^ 20) with 100000000000000000000; lia|]. rewrite E in Hf. injection Hf as <- <- <-. eexists. split; [exact Hm|].
    split; [|done]. destruct (offered _ _ _ _); lia. }
  destruct (held_row (of_db o) c) eqn:Eh.
  { pose proof (held_not_claimable (of_db o) (of_work o) c Hkeys (proj1 Hch) Eh) as Hnone. clear - Hrun Hnone Hsame.
    unfold claim_closeout_hours in Hrun. apply mseq_Ok in Hrun as (z & o1 & [_ <-]%pair_equal_spec & H).
    apply mseq_Ok in H as (s & o2 & [_ <-]%pair_equal_spec & H). destruct s; cbn [negb] in H.
    - apply mseq_Ok in H as (u & o3 & [_ <-]%pair_equal_spec & [_ <-]%pair_equal_spec). apply Hsame; [done|].
      cbn. unfold set_closeouts. rewrite update_where_none by done. by destruct (of_work o).
    - apply pair_equal_spec in H as [_ <-]. by apply Hsame. }
  destruct (claim_step inv o c tl Hch Hnd Hcl ltac:(change (10 ^ 6) with 1000000; lia) Hs Eh Hl)
    as (b' & w' & c' & E & Hor & Hlk & Hch' & Hok & Hbil & _ & _). rewrite E in Hrun. apply pair_equal_spec in Hrun as [_ <-].
  destruct Hor as [->|[Hlt Hinv]]; [apply Hsame; reflexivity|]. split; [done|]. split.
  { clear - E. unfold claim_closeout_hours in E. apply mseq_Ok in E as (z & o1 & [_ <-]%pair_equal_spec & H).
    apply mseq_Ok in H as (s & o2 & [_ <-]%pair_equal_spec & H). destruct s; cbn [negb] in H.
    - apply mseq_Ok in H as (u & o3 & [_ <-]%pair_equal_spec & [_ H]%pair_equal_spec).
      change (wk_time_entries (of_work (set_work (fun _ => w') o)) = wk_time_entries (of_work o)). by rewrite <- H.
    - apply pair_equal_spec in H as [_ H]. by rewrite <- H. }
  intros hours man carried Hf.
  assert (Hnd' : NoDup (map jc_id (c' :: tl))) by (cbn [map] in *; destruct Hlk as [-> _]; done).
  destruct (before_exact (of_db o) w' c' tl Hch' Hnd' Hcl) as (z1 & Hz1 & Hh1); [change (10 ^ 6) with 1000000; lia|].
  assert (Hz2 : closeout_hours_billed_before (of_db o) w' c = Ok z1).
  { rewrite <- Hz1. unfold closeout_hours_billed_before, _restated_run. by rewrite (run_links _ _ _ _ _ Hlk). }
  destruct (final_day_exact (of_db o) w' (Some inv) c z1 (billed (of_db o) tl) Hs Hz2 Hh1) as (h1 & m1 & c1 & h & k & E1 & Hm & _);
    [change (10 ^ 20) with 100000000000000000000; lia|].
  change (final_day (of_db o) w' (Some c) (Some inv) = Ok (hours, man, carried)) in Hf. rewrite E1 in Hf. injection Hf as <- <- <-. eexists. split; [exact Hm|].
  assert (offered (of_db o) w' (Some inv) c = true) as ->.
  { unfold offered, closeout_hours_holder. destruct Hlk as [<- _]. rewrite (proj1 Hch'), Hinv, Hl. unfold opt_eqb. by apply bool_decide_eq_true. }
  lia.
Qed.
Lemma run_known_time f o : run_known o -> run_known (set_work (set_time_entries f) o).
Proof.
  intros (Hch & H). split; [|exact H]. by apply (chain_frame (of_work o)).
Qed.

(** Unbilled day rows, once claimed, are minutes to bill. *)
Lemma claimed_minutes job w : let ids := map (fun r => fst (fst r)) (unbilled_day_rows job None w) in
  unbilled_day_rows job None w <> [] ->
  0 < zsum (map snd (held_day_rows job inv (set_time_entries (update_where (free_row ids) (with_time_holder (Some inv))) w))).
Proof.
  intros ids Hne. destruct (unbilled_day_rows job None w) as [|y U] eqn:EU; [done|].
  assert (Hy : y ∈ unbilled_day_rows job None w) by (rewrite EU; left).
  apply elem_of_map_b in Hy as (e & He & Hye). rewrite stable_sort_perm in He. apply list_elem_of_In, filter_In in He as [He Hp].
  rewrite !andb_true_iff in Hp. destruct Hp as [[Hj Hd] Hb].
  assert (Hb0 : tm_billed_invoice_id e = None) by (destruct (tm_billed_invoice_id e); [by apply bool_decide_eq_true in Hb|done]).
  assert (Hfree : free_row ids e = true).
  { unfold free_row. rewrite Hb0, bool_decide_eq_true_2, andb_true_r by done. apply existsb_elem. exists (tm_id e). split; [|apply N.eqb_refl].
    unfold ids. apply elem_of_map_b. exists y. split; [left|by rewrite <- Hye]. }
  apply (proj2 (day_rows_minutes _ job _) (with_time_holder (Some inv) e)).
  - change (with_time_holder (Some inv) e ∈ update_where (free_row ids) (with_time_holder (Some inv)) (wk_time_entries w)).
    apply elem_of_update_where. exists e. rewrite Hfree. split; [by apply list_elem_of_In|done].
  - rewrite !andb_true_iff. split_and!; [exact Hj|exact Hd|by apply bool_decide_eq_true].
Qed.

Lemma rows_hund_pos m : 0 < m -> 0 < rows_hund m.
Proof.
  intros Hm. unfold rows_hund. rewrite (proj2 (Z.ltb_lt _ _) Hm). pose proof (Z.div_mod (- m) 30 ltac:(lia)).
  pose proof (Z.mod_pos_bound (- m) 30 ltac:(lia)). lia.
Qed.

Lemma service_lane_counted job jt tx t o t' o' : pricing_lane jt = service -> run_known o -> live_invoice (of_db o) inv = true ->
  service_lane_lines str_format inv job jt c tx t o = (Ok t', o') -> counted t t' o o'.
Proof.
  intros Hlane Hk Hl. unfold service_lane_lines. intros (U & o1 & [[= <-] <-]%pair_equal_spec & H)%mseq_Ok.
  apply mseq_Ok in H as (n & o1 & H1 & H). apply mseq_Ok in H1 as (n0 & o0 & [_ <-]%pair_equal_spec & H1).
  apply mseq_Ok in H1 as (u & o0 & [_ E1]%pair_equal_spec & [_ <-]%pair_equal_spec).
  set (U := unbilled_day_rows job None (of_work o)) in *. set (ids := map (fun r => fst (fst r)) U) in *.
  apply mseq_Ok in H as (st & o2 & [[= Hst] <-]%pair_equal_spec & H). apply mseq_Ok in H as (b & o2 & Hcl & H).
  assert (Hk1 : run_known o0) by (rewrite <- E1; by apply run_known_time).
  assert (Hl1 : live_invoice (of_db o0) inv = true) by (by rewrite <- E1).
  destruct (claim_then_final o0 b o2 Hk1 Hl1 Hcl) as (_ & _ & Hfin).
  apply mseq_Ok in H as (lines & o3 & [Hlines <-]%pair_equal_spec & H). destruct lines as [|x lines].
  - apply pair_equal_spec in H as [[= <-] <-]. right. split; [done|].
    destruct (no_labor_lines _ _ _ _ _ _ Hlane Hlines) as (hours & man & carried & m & Hf & Hm & Hle).
    destruct (Hfin _ _ _ Hf) as (F & HF & HF0 & Hw). set (mins := zsum (map snd st)) in *.
    assert (Hmins : 0 <= mins) by (unfold mins; rewrite <- Hst; apply day_rows_minutes).
    destruct (nothing_added _ _ _ _ _ HF (rows_man_exact mins) (proj1 HF0) (rows_hund_nonneg mins Hmins) Hm Hle) as [HFz Hr].
    assert (HU0 : U = []).
    { destruct (decide (U = [])) as [|Hne]; [done|exfalso]. pose proof (claimed_minutes job (of_work o) Hne) as Hpos.
      fold U ids in Hpos. change (set_time_entries _ (of_work o)) with (of_work (set_work (set_time_entries (update_where (free_row ids) (with_time_holder (Some inv)))) o)) in Hpos.
      rewrite E1, Hst in Hpos. apply rows_hund_pos in Hpos. fold mins in Hpos. lia. }
    rewrite (Hw HFz), <- E1. cbn. unfold set_time_entries. rewrite update_where_none; [by destruct (of_work o)|].
    unfold ids. rewrite HU0. clear. induction (wk_time_entries (of_work o)) as [|e l IH]; [done|]. cbn [existsb]. by rewrite IH.
  - cbn [mfold] in H. apply mseq_Ok in H as (t1 & o4 & Ha & H). apply add_draft_line_counted in Ha as [Ha _].
    left. apply counted_fold in H; [destruct H as [?|[? _]]; lia|].
    intros t2 y o5 t3 o6 Hy. apply add_draft_line_counted in Hy as [Hy _]. left. lia.
Qed.

Lemma install_lane_counted job tx t o t' o' : install_lane_lines inv job c tx t o = (Ok t', o') -> counted t t' o o'.
Proof.
  unfold install_lane_lines. destruct (jc_labor_matrix_item_id c); [|intros [[= <-] <-]%pair_equal_spec; by right].
  intros (f & o1 & [_ <-]%pair_equal_spec & H)%mseq_Ok. destruct f as [[desc price]|]; [|apply pair_equal_spec in H as [[= <-] <-]; by right].
  apply add_draft_line_counted in H as [H _]. left. lia.
Qed.

(** A draft with no line stamps nothing. *)
Lemma build_lines_counted job jt o t o' : run_known o -> live_invoice (of_db o) inv = true ->
  build_closeout_lines str_format inv job jt c o = (Ok t, o') -> ta_added t = 0 -> of_work o' = of_work o.
Proof.
  intros Hk Hl. unfold build_closeout_lines. intros (tx & o1 & [_ <-]%pair_equal_spec & H)%mseq_Ok Ht.
  set (t0 := mk_tally 1 0 (DFinite 0 0) (DFinite 0 0)) in *. apply mseq_Ok in H as (t1 & o1 & H1 & H).
  apply mseq_Ok in H as (cs & o2 & [_ <-]%pair_equal_spec & H). apply counted_fold in H; [|intros *; apply bill_part_counted].
  assert (H1' : counted t0 t1 o o1).
  { destruct (pricing_lane jt) eqn:Elane; [by apply (service_lane_counted _ _ _ _ _ _ _ Elane Hk Hl H1)|by apply (install_lane_counted _ _ _ _ _ _ H1)|].
    apply pair_equal_spec in H1 as [[= <-] <-]. by right. }
  destruct (counted_trans _ _ _ _ _ _ H1' H) as [Hlt|[_ E]]; [|done]. cbn in Hlt. lia.
Qed.
End Lane.
End Autodraft.

Lemma new_autodraft_row `{W : World} fallback tenant_id job s i s' : new_autodraft fallback tenant_id job s = (Ok i, s') ->
  is_live i = true /\ op_invoices (db_ops (se_db s')) = op_invoices (db_ops (se_db s)) ++ [i].
Proof.
  unfold new_autodraft. intros (today & s1 & [_ <-]%pair_equal_spec & H)%mseq_Ok. apply mseq_Ok in H as (now & s2 & [_ <-]%pair_equal_spec & H).
  apply mseq_Ok in H as (n & s3 & [_ <-]%pair_equal_spec & H). apply mseq_Ok in H as (id_ & s4 & [_ <-]%pair_equal_spec & H).
  apply mseq_Ok in H as (u & s5 & H5 & [[= <-] <-]%pair_equal_spec). unfold insert_invoice in H5.
  destruct (existsb _ _) in H5; [by apply pair_equal_spec in H5 as [? _]|]. apply pair_equal_spec in H5 as [_ <-]. split; reflexivity.
Qed.

(** A stamped closeout records what it was billed for. *)
Definition claim_recorded (c : JobCloseout) : Prop :=
  jc_billed_invoice_id c <> None ->
  exists m, jc_man_hours_billed c = Some m /\ hund m (billed_row c) /\ 0 <= billed_row c < 10 ^ 12.

Lemma recorded_ok d c : claim_recorded c -> claim_ok d c.
Proof. intros H Hh. apply H. unfold held_row in Hh. by destruct (jc_billed_invoice_id c). Qed.

Lemma header_work `{W : World} inv job t o r o' : write_draft_header inv job t o = (r, o') -> of_work o' = of_work o.
Proof.
  assert (Hp : PreOrder (fun a b => of_work b = of_work a)) by (split; [by intros ?|intros a b c H1 H2; congruence]).
  assert (Hs : forall A (m : M Session A), keeps (fun a b => of_work b = of_work a) (on_session m)).
  { intros A m x. unfold on_session. by destruct (m (of_session x)). }
  intros H. enough (keeps (fun a b => of_work b = of_work a) (write_draft_header inv job t)) as Hk by (specialize (Hk o); by rewrite H in Hk).
  unfold write_draft_header. repeat first [apply keeps_return; exact _|apply keeps_lift; exact _|apply keeps_reads; exact _
    |apply Hs|apply keeps_seq; [exact _| |intros ?]|case_match].
Qed.

(** The draft the closeout bills on, reused or new, is live. *)
Lemma draft_ready `{W : World} fallback tenant_id job reuse o inv o1 :
  (forall i, reuse = Some i -> live_invoice (of_db o) (inv_id i) = true) ->
  match reuse with Some i => mreturn i | None => on_session (new_autodraft fallback tenant_id job) end o = (Ok inv, o1) ->
  of_work o1 = of_work o /\ live_invoice (of_db o1) (inv_id inv) = true /\
  (forall i, live_invoice (of_db o) i = true -> live_invoice (of_db o1) i = true).
Proof.
  intros Hr. destruct reuse as [i|].
  - intros [[= <-] <-]%pair_equal_spec. split_and!; [done|by apply Hr|done].
  - intros [Hw Hn]%on_session_work. apply new_autodraft_row in Hn as [Hlive Happ]. split_and!; [done| |].
    + unfold live_invoice. unfold of_db. rewrite Happ, existsb_app. apply orb_true_iff. right. cbn [existsb].
      by rewrite N.eqb_refl, Hlive.
    + intros i. by apply (live_app (of_db o) _ i eq_refl (of_db o1) [inv]).
Qed.

(** the autodraft claims what it bills and nothing else.  When
    [autodraft_invoice_for_closeout] leaves a draft it has only stamped free
    work with it, under the same rule as [create_invoice]; when it bills
    nothing, and takes the empty draft away again, no time entry, closeout or
    part has been stamped, so no hours are lost to an invoice that is gone. *)
Theorem autodraft_claims_what_it_bills `{W : World} str_format fallback tenant_id job c tl reuse o r o'
    (Hchain : chain (of_work o) (c :: tl)) (Hkeys : NoDup (map jc_id (wk_closeouts (of_work o))))
    (Hids : NoDup (map jc_id (c :: tl))) (Hclaims : Forall claim_recorded tl) (Hlen : Z.of_nat (length tl) <= 10 ^ 6)
    (Hsane : sane_hours c) (Hreuse : forall i, reuse = Some i -> live_invoice (of_db o) (inv_id i) = true)
    (Hrun : autodraft_invoice_for_closeout str_format fallback tenant_id job c reuse o = (Ok r, o')) :
  match r with
  | Some invoice => stamps (of_db o) (inv_id invoice) (of_work o) (of_work o')
  | None => of_work o' = of_work o
  end.
Proof.
  revert Hrun. unfold autodraft_invoice_for_closeout. intros (sk & o0 & [_ <-]%pair_equal_spec & H)%mseq_Ok.
  destruct sk; [by apply pair_equal_spec in H as [[= <-] <-]|]. apply mseq_Ok in H as (inv & o1 & H1 & H).
  destruct (draft_ready _ _ _ _ _ _ _ Hreuse H1) as (W1 & L1 & Hmore). clear H1.
  apply mseq_Ok in H as (t & o2 & H2 & H).
  destruct (run_bills (inv_id inv) _ _ _ _ (build_lines_bills str_format (inv_id inv) _ _ _) H2 L1) as [_ Hst].
  destruct ((ta_added t =? 0) && bool_decide (reuse = None)) eqn:Ez.
  - apply andb_true_iff in Ez as [Ez%Z.eqb_eq _]. apply mseq_Ok in H as (u & o3 & [W3 _]%on_session_work & H).
    apply pair_equal_spec in H as [[= <-] <-]. rewrite W3, <- W1.
    apply (build_lines_counted str_format (inv_id inv) c tl _ _ _ _ _) with (2 := L1) (3 := H2) (4 := Ez).
    split_and!; try done; [by rewrite W1|by rewrite W1|]. apply (Forall_impl _ _ _ Hclaims). intros x. apply recorded_ok.
  - apply mseq_Ok in H as (u & o3 & H3 & H). apply header_work in H3. apply mseq_Ok in H as (i' & o4 & [W4 H4]%on_session_work & H).
    apply pair_equal_spec in H as [[= <-] <-]. rewrite W4, H3, <- W1.
    assert (inv_id i' = inv_id inv) as ->.
    { apply pair_equal_spec in H4 as [[= <-] _]. destruct (get_invoice (inv_id inv) _) as [j|] eqn:Ej; [|done].
      unfold get_invoice in Ej. apply find_some in Ej as [_ Ej]. by apply N.eqb_eq in Ej. }
    by apply (stamps_weaken _ (of_db o1)).
Qed.

(** A visit's day row, a change order and a part, on one invoice; the other
    day row is billed already. *)
Definition visit_row (id_ : uuid) (h : option uuid) : TimeEntry :=
  mk_time_entry id_ (Some 2%N) (mk_datetime 0 (Some 0)) (Some (mk_datetime 3600 (Some 0))) (Some 60) None
    (Some (mk_datetime 3600 (Some 0))) h.
Definition visit_part : JobPartNeeded :=
  mk_part 41%N 2%N "spring" None (Some 1) (Some "needed") "mobile" (Some (DFinite 8000 (-2))) None.
Definition visit_order : ChangeOrder :=
  mk_change_order 51%N "CO-1" (Some 2%N) (Some 3%N) "opener" "approved" (Some (DFinite 12500 (-2))) (mk_datetime 0 (Some 0)) None None.
Definition visit_office : Office :=
  mk_office (mk_session bare_db ∅ [] ∅ []) quoted_sales
    (mk_work [visit_row 31%N (Some 90%N); visit_row 32%N None] [] [visit_part] [visit_order] [] [] [] []).
Definition visit_request : InvoiceCreateIn :=
  mk_create_in (Some 2%N) None None 3%N "standard" None (FNum 0) None
    [mk_line_in "labor" (DFinite 1 0) (float_of_int 100) false (Some "Labor") None None None None None None (Some [32%N]) None;
     mk_line_in "spring" (DFinite 1 0) (float_of_int 80) true (Some "Parts") None None (Some 41%N) None None None None None]
    [] [51%N] false None.

Notation visit_run :=
  (create_invoice (W := toy_world) (fun _ _ => None) (mk_policy false true) [] 0 "co" "INV-X" "office" visit_request visit_office).

Lemma work_billed_once_witness :
  exists invoice n ws o', visit_run = (Ok (invoice, n, ws), o') /\
    stamps (of_db visit_office) (inv_id invoice) (of_work visit_office) (of_work o') /\
    request_claimed (inv_id invoice) visit_request (of_work o') /\ inv_id invoice <> 90%N /\
    map tm_billed_invoice_id (wk_time_entries (of_work o')) = [Some 90%N; Some (inv_id invoice)].
Proof.
  assert (Hk : time_keys (of_work visit_office)) by (apply (bool_decide_unpack _); vm_compute; exact I).
  eexists _, _, _, _. split; [vm_compute; reflexivity|].
  pose proof (work_billed_once (W := toy_world) (fun _ _ => None) (mk_policy false true) [] 0 "co" "INV-X" "office"
    visit_request visit_office _ _ Hk ltac:(vm_compute; reflexivity)) as [H1 H2].
  split; [exact H1|]. split; [exact H2|]. split; [vm_compute; discriminate|reflexivity].
Defined.

(** The closeout of two men's 2.25 hours and its day row of 100 minutes,
    drafted at 720.00. *)
Definition closing_office : Office := mk_office (mk_session bare_db ∅ [] ∅ []) quoted_sales visit_work.
Definition closing_job : Job := mk_job 5%N (Some "Service") None (Some 3%N) None.

Notation closing_run :=
  (autodraft_invoice_for_closeout (W := toy_world) (fun _ _ => None) "INV-X" "co" closing_job visit_closeout None closing_office).

Lemma autodraft_claims_what_it_bills_witness :
  exists invoice o', closing_run = (Ok (Some invoice), o') /\
    stamps (of_db closing_office) (inv_id invoice) (of_work closing_office) (of_work o') /\
    map tm_billed_invoice_id (wk_time_entries (of_work o')) = [Some (inv_id invoice)] /\
    map jc_billed_invoice_id (wk_closeouts (of_work o')) = [Some (inv_id invoice)] /\
    inv_total invoice = Some (DFinite 72000 (-2)).
Proof.
  eexists _, _. split; [vm_compute; reflexivity|].
  split; [|split; [reflexivity|split; reflexivity]].
  refine (autodraft_claims_what_it_bills (W := toy_world) (fun _ _ => None) "INV-X" "co" closing_job visit_closeout [] None closing_office
    (Some _) _ _ _ _ _ _ _ _ _).
  - split_and!; reflexivity.
  - apply (bool_decide_unpack _). vm_compute. exact I.
  - apply (bool_decide_unpack _). vm_compute. exact I.
  - constructor.
  - vm_compute. congruence.
  - eexists. split; [reflexivity|]. split; vm_compute; congruence.
  - discriminate.
  - vm_compute. reflexivity.
Defined.

(** * Where the draft's tax parts from the office's *)

(** A part of 10.00 at 7.25%: the autodraft rounds the half cent to even, the
    recalculation every later edit runs rounds it up, with no line changed. *)
Definition half_cent_sales : Sales :=
  mk_sales (sa_jobs quoted_sales) [mk_tax_config (Some (DFinite 72500 (-6))) false] [] [] [] [] [].
Definition half_cent_office : Office :=
  mk_office (mk_session bare_db ∅ [] ∅ []) half_cent_sales
    (mk_work [] [restatement 11%N 0 1 None]
       [mk_part 41%N 5%N "spring" None (Some 1) (Some "needed") "closeout" (Some (DFinite 1000 (-2))) None] [] [] [] [] []).

Lemma draft_tax_rounds_to_even :
  exists invoice o1 o2,
    autodraft_invoice_for_closeout (W := toy_world) (fun _ _ => None) "INV-X" "co" closing_job (restatement 11%N 0 1 None) None half_cent_office
      = (Ok (Some invoice), o1) /\ inv_tax_amount invoice = Some (DFinite 72 (-2)) /\
    on_session (_recalculate_invoice (W := toy_world) (inv_id invoice) (Some "office")) o1 = (Ok tt, o2) /\
    option_map inv_tax_amount (get_invoice (inv_id invoice) (of_db o2)) = Some (Some (DFinite 73 (-2))).
Proof.
  eexists _, _, _. split; [vm_compute; reflexivity|]. split; [reflexivity|]. split; vm_compute; reflexivity.
Qed.
