(* ===== verification/PaymentPlans.v ===== *)
(** Payment plans: [create_payment_plan], [get_payment_plan] and
    [cancel_payment_plan] of [routers/invoices.py] over the two plan tables of
    [models/tenant_models.py].

    A plan splits what an issued invoice still owes into monthly installments,
    through floats; reading it derives each installment's status from the
    money that arrived.  [Desk] is the office's state with the plan tables,
    for the handlers that write both.  The stored status of an installment
    (nothing ever changes it) and the audit rows are left out. *)

From S2P Require Import Prelude PyStr Dates Money PyNum Models PayPeriods Keys Coa Engine Service RulesBase Opening Issuance Payments Adjustments Chokepoint InvoiceTotals Estimates InvoiceGuard MoneyRoutes MoneySpec TaxFloat Deposits Closeouts.

Local Open Scope Z_scope.

(** * The tables *)

Inductive plan_status : Type := active | cancelled | completed.
#[export] Instance plan_status_eq_dec : EqDecision plan_status.
Proof. solve_decision. Defined.

Record PaymentPlan : Type := mk_plan {
  pl_id : uuid;
  pl_invoice_id : uuid;
  pl_status : plan_status;
  pl_num_installments : Z;
  pl_total_amount : decimal;
  pl_start_date : date;
  pl_created_by : option string;
  pl_created_at : datetime;
  pl_cancelled_at : option datetime;
  pl_cancelled_by : option string
}.

Record PaymentPlanInstallment : Type := mk_installment {
  in_id : uuid;
  in_plan_id : uuid;
  in_seq : Z;
  in_due_date : date;
  in_amount : decimal
}.

(** [pn_setting] is the first [AppSettings] row's [payment_plans_enabled]. *)
Record Plans : Type := mk_plans {
  pn_setting : option bool;
  pn_plans : list PaymentPlan;
  pn_installments : list PaymentPlanInstallment
}.

Record Desk : Type := mk_desk { dk_office : Office; dk_plans : Plans }.

Definition dk_db (k : Desk) : Db := of_db (dk_office k).
Definition set_plans (f : Plans -> Plans) (k : Desk) : Desk := mk_desk (dk_office k) (f (dk_plans k)).
Definition on_office {A} (m : M Office A) : M Desk A := fun k =>
  let '(r, o) := m (dk_office k) in (r, mk_desk o (dk_plans k)).

(** The end of a request that raised: every table as the request found it. *)
Definition desk_request {A} (m : M Desk A) : M Desk A := fun k =>
  match m k with
  | (Ok a, k') => (Ok a, k')
  | (Err e, k') =>
      (Err e, mk_desk (mk_office (rollback (of_session (dk_office k)) (of_session (dk_office k')))
                         (of_sales (dk_office k)) (of_work (dk_office k))) (dk_plans k))
  end.

Definition _payment_plans_enabled (p : Plans) : bool := default false (pn_setting p).

(** * The live plan *)

Definition is_active (p : PaymentPlan) : bool := bool_decide (pl_status p = active).

Definition newest_plan (a b : PaymentPlan) : bool :=
  dt_utc_wall (pl_created_at b) <=? dt_utc_wall (pl_created_at a).

Definition _live_plan (invoice_id : uuid) (p : Plans) : option PaymentPlan :=
  head (stable_sort newest_plan
    (List.filter (fun x => N.eqb (pl_invoice_id x) invoice_id && is_active x) (pn_plans p))).

Definition with_cancel (at_ : datetime) (by_ : string) (p : PaymentPlan) : PaymentPlan :=
  mk_plan (pl_id p) (pl_invoice_id p) cancelled (pl_num_installments p) (pl_total_amount p) (pl_start_date p)
    (pl_created_by p) (pl_created_at p) (Some at_) (Some by_).

(** The assignments to the plan object, a write to its row. *)
Definition cancel_plan (plan : PaymentPlan) (actor : string) : M Desk unit := fun k =>
  let now := mk_datetime (op_now (db_ops (dk_db k))) (Some 0) in
  (Ok tt, set_plans (fun p => mk_plans (pn_setting p)
            (update_where (fun x => N.eqb (pl_id x) (pl_id plan)) (with_cancel now actor) (pn_plans p))
            (pn_installments p)) k).

(** * The schedule *)

(** [x / n] for an integer [n > 0]. *)
Definition float_over (x : float64) (n : Z) : float64 :=
  match x with FNum v => float_of_ratio v (n * least) | _ => x end.

Record PaymentPlanIn : Type := mk_plan_in { pp_num_installments : Z; pp_start_date : date }.

Definition valid_plan (p : PaymentPlanIn) : bool := (2 <=? pp_num_installments p) && (pp_num_installments p <=? 12).

(** [per_installment] and [last]. *)
Definition plan_amounts (total : float64) (n : Z) : result (decimal * decimal) :=
  let! per_installment := _money_float (float_over total n) in
  let! last := _money_float (float_sub total (float_scale (n - 1) (float_of_decimal per_installment))) in
  Ok (per_installment, last).

(** [date.max] *)
Definition last_date : date := 3652059.

Definition due_on (start : date) (i : Z) : result date :=
  if start + 30 * i <=? last_date then Ok (start + 30 * i) else Err ArithmeticError.

Definition plan_row (plan : PaymentPlan) : M Desk unit :=
  mwrite (set_plans (fun p => mk_plans (pn_setting p) (pn_plans p ++ [plan]) (pn_installments p))).

Definition installment_row (r : PaymentPlanInstallment) : M Desk unit :=
  mwrite (set_plans (fun p => mk_plans (pn_setting p) (pn_plans p) (pn_installments p ++ [r]))).

Definition new_uuid : M Desk uuid := on_office (on_session (on_db fresh_uuid)).

(** The loop's body, for [i = 0 .. n - 1]. *)
Definition add_installment (plan_id : uuid) (p : PaymentPlanIn) (per_installment last : decimal) (i : Z)
  : M Desk PaymentPlanInstallment :=
  due <- mlift (due_on (pp_start_date p) i) ;;
  id_ <- new_uuid ;;
  let r := mk_installment id_ plan_id (i + 1) due (if i <? pp_num_installments p - 1 then per_installment else last) in
  installment_row r ;;;
  mreturn r.

Definition range (n : Z) : list Z := map Z.of_nat (seq 0 (Z.to_nat n)).

Definition create_payment_plan (id_ : uuid) (payload : PaymentPlanIn) (actor : string)
  : M Desk (PaymentPlan * list PaymentPlanInstallment) := desk_request (
  if negb (valid_plan payload) then mraise (HTTPException 422)
  else
    enabled <- mreads (fun k => _payment_plans_enabled (dk_plans k)) ;;
    if negb enabled then mraise (HTTPException 409)
    else
      invoice <- on_office (on_session (_get_invoice_or_404 id_)) ;;
      if negb (creditable (inv_status invoice)) then mraise (HTTPException 409)
      else
        total <- mreads (fun k => _remaining_receivable invoice (dk_db k)) ;;
        if float_nonpos total then mraise (HTTPException 422)
        else
          live <- mreads (fun k => _live_plan (inv_id invoice) (dk_plans k)) ;;
          match live with
          | Some _ => mraise (HTTPException 409)
          | None =>
              amounts <- mlift (plan_amounts total (pp_num_installments payload)) ;;
              if float_nonpos (float_of_decimal (snd amounts)) then mraise (HTTPException 422)
              else
                plan_id <- new_uuid ;;
                total_amount <- mlift (_money_float total) ;;
                now <- mreads (fun k => op_now (db_ops (dk_db k))) ;;
                let plan := mk_plan plan_id (inv_id invoice) active (pp_num_installments payload) total_amount
                              (pp_start_date payload) (Some actor) (mk_datetime now (Some 0)) None None in
                plan_row plan ;;;
                installments <- mmap (add_installment plan_id payload (fst amounts) (snd amounts))
                                  (range (pp_num_installments payload)) ;;
                mreturn (plan, installments)
          end).

Definition cancel_payment_plan (id_ : uuid) (actor : string) : M Desk uuid := desk_request (
  invoice <- on_office (on_session (_get_invoice_or_404 id_)) ;;
  live <- mreads (fun k => _live_plan (inv_id invoice) (dk_plans k)) ;;
  match live with
  | None => mraise (HTTPException 404)
  | Some plan => cancel_plan plan actor ;;; mreturn (pl_id plan)
  end).

(** * Reading a plan *)

Inductive installment_status : Type := Covered | Overdue | Pending.
#[export] Instance installment_status_eq_dec : EqDecision installment_status.
Proof. solve_decision. Defined.

(** The loop of [_plan_out]; the accumulator is [cumulative]. *)
Fixpoint derive_statuses (paid : float64) (today : date) (cumulative : float64) (l : list PaymentPlanInstallment)
  : list installment_status :=
  match l with
  | [] => []
  | i :: l =>
      let cumulative := float_round2 (float_add cumulative (float_of_decimal (in_amount i))) in
      (if float_leb cumulative (float_add paid half_cent) then Covered
       else if in_due_date i <? today then Overdue else Pending) :: derive_statuses paid today cumulative l
  end.

Section Read.
Context `{W : World}.

Definition _plan_out (invoice : Invoice) (installments : list PaymentPlanInstallment) (d : Db)
  : list (PaymentPlanInstallment * installment_status) :=
  combine installments
    (derive_statuses (_to_float (paid_sum (inv_id invoice) d)) (shop_today_from_settings d) (FNum 0) installments).

Definition seq_before (a b : PaymentPlanInstallment) : bool := in_seq a <=? in_seq b.

(** Whether plans are on, and the live plan with its installments. *)
Definition get_payment_plan (id_ : uuid)
  : M Desk (bool * option (PaymentPlan * list (PaymentPlanInstallment * installment_status))) :=
  invoice <- on_office (on_session (_get_invoice_or_404 id_)) ;;
  mreads (fun k =>
    if negb (_payment_plans_enabled (dk_plans k)) then (false, None)
    else match _live_plan (inv_id invoice) (dk_plans k) with
         | None => (true, None)
         | Some plan =>
             (true, Some (plan, _plan_out invoice
                (stable_sort seq_before
                   (List.filter (fun r => N.eqb (in_plan_id r) (pl_id plan)) (pn_installments (dk_plans k)))) (dk_db k)))
         end).
End Read.

(** * Amounts *)

(** [_money] of a float that is not negative: the nearest cent, but for the
    float's own error near a half. *)
Lemma money_float_half v : 0 <= v <= 2 ^ 37 * least ->
  exists p, _money_float (FNum v) = Ok (DFinite p (-2)) /\ 0 <= p /\
    2 ^ 16 * Z.abs (p * least - 100 * v) <= (2 ^ 15 + 200) * least.
Proof.
  intros Hv. pose proof least_pos as HL. unfold _money_float, decimal_of_str.
  destruct (Z.eqb_spec v 0) as [->|H0].
  { exists 0. split; [done|]. split; [done|]. rewrite Z.mul_0_l, Z.mul_0_r. cbn [Z.sub Z.add Z.opp Z.abs]. lia. }
  destruct (Z.ltb_spec v 0); [lia|].
  destruct (shortest_nonneg 17 v (leading_place v) 1 ltac:(lia)) as (c & p & Hs & Hc).
  destruct (shortest_close 17 v (leading_place v) 1 37 ltac:(lia) ltac:(rewrite Z.abs_eq; lia)) as (c' & p' & Hs' & Hcl).
  rewrite Hs in Hs'. injection Hs' as <- <-. rewrite Hs. fold (dden p) (dnum c p) in Hcl.
  unfold quantize_money. rewrite quantize_floor by done. cbv zeta. pose proof (dden_pos p) as HD.
  assert (0 <= dnum c p) as HN by (apply Z.mul_nonneg_nonneg; [done|apply Z.pow_nonneg; lia]).
  set (N := dnum c p) in *. set (D := dden p) in *. clearbody N D. set (z := (2 * (N * 100) + D) / (2 * D)).
  pose proof (Z.div_mod (2 * (N * 100) + D) (2 * D) ltac:(lia)) as Hdm. fold z in Hdm.
  pose proof (Z.mod_pos_bound (2 * (N * 100) + D) (2 * D) ltac:(lia)) as Hm.
  set (r := (2 * (N * 100) + D) mod (2 * D)) in *. assert (0 <= z) by (apply Z.div_pos; lia). clearbody r z.
  change (2 ^ 52) with (32768 * 137438953472) in Hcl. change (2 ^ 37) with 137438953472 in *.
  assert (Hd : 32768 * Z.abs (v * D - N * least) <= D * least) by nia.
  assert (Hz : Z.abs (2 * (z * D) - 200 * N) <= D) by nia.
  assert (Hb : 65536 * (D * Z.abs (z * least - 100 * v)) <= D * (32968 * least)).
  { rewrite <- (Z.abs_eq D) at 1 by lia. rewrite <- Z.abs_mul.
    assert (E : 2 * (D * (z * least - 100 * v)) = (2 * (z * D) - 200 * N) * least - 200 * (v * D - N * least)) by ring.
    assert (Z.abs ((2 * (z * D) - 200 * N) * least) <= D * least) by (rewrite Z.abs_mul, (Z.abs_eq least); nia).
    set (x := D * (z * least - 100 * v)) in *. set (y := (2 * (z * D) - 200 * N) * least) in *.
    set (w := v * D - N * least) in *. clearbody x y w. lia. }
  assert (Hfit : z < 10 ^ decimal_prec).
  { change (10 ^ decimal_prec) with 10000000000000000000000000000.
    assert (65536 * Z.abs (z * least - 100 * v) <= 32968 * least) by nia. nia. }
  rewrite (proj2 (Z.ltb_lt _ _) Hfit). exists z. split; [done|]. split; [done|].
  change (2 ^ 16) with 65536. change (2 ^ 15 + 200) with 32968. nia.
Qed.

(** An amount of cents over [n]: the cents nearest to the [n]th part. *)
Lemma installment_cents c n : 0 < c <= 3 * 10 ^ 12 -> 2 <= n <= 12 ->
  exists p, _money_float (float_over (float_of_ratio c 100) n) = Ok (DFinite p (-2)) /\ 0 <= p /\ 2 * Z.abs (n * p - c) <= n.
Proof.
  intros Hc Hn. pose proof least_pos as HL. destruct (float_cents_wide c ltac:(lia)) as (v & -> & Hv).
  assert (0 < v) as Hv0 by (apply near_sign in Hv as [H _]; [apply H; lia|done]).
  unfold near in Hv. change (2 ^ 20) with 1048576 in Hv. change (10 ^ 12) with 1000000000000 in Hc.
  assert (v <= 30000000001 * least) as Hvb by nia. cbn [float_over].
  assert (0 < n * least) as HnL by (clear - HL Hn; set (l := least) in *; clearbody l; nia).
  destruct (float_of_ratio_close v (n * least) 36) as (q & -> & Hq); [done|lia| |].
  { change (2 ^ 36) with 68719476736. nia. }
  change (2 ^ 54) with (262144 * 68719476736) in Hq. change (2 ^ 36) with 68719476736 in Hq.
  assert (Hq' : 262144 * Z.abs (q * n - v) <= n * least).
  { replace (q * (n * least) - v * least) with ((q * n - v) * least) in Hq by ring.
    rewrite Z.abs_mul, (Z.abs_eq least) in Hq by lia. nia. }
  assert (0 <= q) as Hq0 by nia.
  destruct (money_float_half q) as (p & -> & Hp & Hc'); [change (2 ^ 37) with 137438953472; nia|].
  exists p. split; [done|]. split; [done|]. change (2 ^ 16) with 65536 in Hc'. change (2 ^ 15 + 200) with 32968 in Hc'.
  assert (E : (n * p - c) * least = n * (p * least - 100 * q) + 100 * (q * n - v) + (v * 100 - c * least)) by ring.
  assert (Hn1 : 65536 * Z.abs (n * (p * least - 100 * q)) <= n * (32968 * least)) by (rewrite Z.abs_mul, (Z.abs_eq n); nia).
  assert (Hsum : 65536 * Z.abs ((n * p - c) * least) <= (33100 * n) * least).
  { rewrite E. replace (n * (32968 * least)) with (32968 * (n * least)) in Hn1 by ring.
    replace (33100 * n * least) with (33100 * (n * least)) by ring. assert (least <= n * least) by (clear - HL Hn; nia).
    set (X := n * (p * least - 100 * q)) in *. set (Y := q * n - v) in *. set (Z0 := v * 100 - c * least) in *.
    set (nL := n * least) in *. clearbody X Y Z0 nL. clear - Hn1 Hq' Hv H. lia. }
  rewrite Z.abs_mul, (Z.abs_eq least), Z.mul_assoc in Hsum by lia. apply Z.mul_le_mono_pos_r in Hsum; [|done]. lia.
Qed.

Lemma float_scale_near k v z e : 0 <= k <= 11 -> near v z e -> 0 <= e <= 2 ^ 13 -> Z.abs (k * z) <= 10 ^ 13 ->
  exists w, float_scale k (FNum v) = FNum w /\ near w (k * z) (k * e + 800).
Proof.
  unfold near. intros Hk Hv He Hz. pose proof least_pos as HL. cbn [float_scale].
  change (2 ^ 20) with 1048576 in *. change (2 ^ 13) with 8192 in He. change (10 ^ 13) with 10000000000000 in Hz.
  assert (Hkv : 1048576 * Z.abs (k * v * 100 - k * z * least) <= k * e * least).
  { replace (k * v * 100 - k * z * least) with (k * (v * 100 - z * least)) by ring. rewrite Z.abs_mul, (Z.abs_eq k); nia. }
  assert (Habs : Z.abs (k * z * least) = Z.abs (k * z) * least) by (rewrite Z.abs_mul, (Z.abs_eq least); lia).
  assert (k * e * least <= 90112 * least) by nia.
  destruct (float_of_ratio_close (k * v) least 37) as (w & -> & Hw); [done|lia| |].
  { change (2 ^ 37) with 137438953472. assert (Z.abs (k * z) * least <= 10000000000000 * least) by nia. nia. }
  exists w. split; [done|]. replace (w * least - k * v * least) with ((w - k * v) * least) in Hw by ring.
  rewrite Z.abs_mul, (Z.abs_eq least) in Hw by lia.
  change (2 ^ 54) with (137438953472 * 131072) in Hw. change (2 ^ 37) with 137438953472 in Hw.
  assert (131072 * Z.abs (w - k * v) <= least) by nia. lia.
Qed.

(** The two amounts of a plan, to the cent. *)
Lemma plan_amounts_exact c n : 0 < c <= 3 * 10 ^ 12 -> 2 <= n <= 12 ->
  exists p, plan_amounts (float_of_ratio c 100) n = Ok (DFinite p (-2), DFinite (c - (n - 1) * p) (-2)) /\
    0 <= p /\ 2 * Z.abs (n * p - c) <= n.
Proof.
  intros Hc Hn. destruct (installment_cents c n Hc Hn) as (p & Hp & Hp0 & Hpc). exists p. split; [|done].
  unfold plan_amounts. rewrite Hp. cbn [rbind]. change (10 ^ 12) with 1000000000000 in Hc. rewrite float_of_cents.
  destruct (float_cents_wide p) as (w & -> & Hw); [change (10 ^ 13) with 10000000000000; nia|].
  destruct (float_scale_near (n - 1) w p 800) as (x & -> & Hx); [lia|done|change (2 ^ 13) with 8192; lia| |].
  { change (10 ^ 13) with 10000000000000. nia. }
  destruct (float_cents_wide c) as (v & -> & Hv); [change (10 ^ 13) with 10000000000000; lia|].
  destruct (float_sub_near _ _ _ _ _ _ Hv Hx) as (y & -> & Hy).
  { change (10 ^ 13) with 10000000000000. nia. } { change (2 ^ 18) with 262144. nia. }
  unfold _money_float. rewrite (quantize_float_near y (c - (n - 1) * p) (800 + ((n - 1) * 800 + 800) + 800)); [done|..|done].
  - change (10 ^ 13) with 10000000000000. nia.
  - change (2 ^ 18) with 262144. nia.
Qed.

(** * Steps of a plan request *)

Lemma desk_get id_ k i k' : on_office (on_session (_get_invoice_or_404 id_)) k = (Ok i, k') ->
  k' = k /\ get_invoice id_ (dk_db k) = Some i /\ inv_deleted_at i = None.
Proof.
  unfold on_office, on_session. destruct (_get_invoice_or_404 id_ _) as [r s] eqn:E. intros [-> <-]%pair_equal_spec.
  apply get_or_404_Ok in E as (-> & Hg & Hd). split; [|done]. by destruct k as [[] ?].
Qed.

(** Nothing of the books moved: identifiers were drawn. *)
Definition drew_ids (d d' : Db) : Prop := exists u, (gl_next_uuid (db_gl d) <= u)%N /\ d' = set_gl (set_next_uuid (fun _ => u)) d.

#[export] Instance drew_ids_preorder : PreOrder drew_ids.
Proof.
  split.
  - intros [[] o]. eexists. split; [reflexivity|]. reflexivity.
  - intros d _ _ (u & Hu & ->) (u' & Hu' & ->). exists u'. split; [cbn in *; lia|done].
Qed.

Definition desk_frame (k k' : Desk) : Prop :=
  drew_ids (dk_db k) (dk_db k') /\ of_work (dk_office k') = of_work (dk_office k) /\
  of_sales (dk_office k') = of_sales (dk_office k) /\ pn_setting (dk_plans k') = pn_setting (dk_plans k).

#[export] Instance desk_frame_preorder : PreOrder desk_frame.
Proof.
  split; [intros k; by split|]. intros a b c (H1 & H2 & H3 & H4) (G1 & G2 & G3 & G4).
  split_and!; [by etrans|congruence..].
Qed.

Lemma new_uuid_run k : exists k', new_uuid k = (Ok (gl_next_uuid (db_gl (dk_db k))), k') /\ desk_frame k k' /\
  dk_plans k' = dk_plans k /\ gl_next_uuid (db_gl (dk_db k')) = N.succ (gl_next_uuid (db_gl (dk_db k))).
Proof.
  eexists. split; [reflexivity|]. split; [|done]. split; [|done]. exists (N.succ (gl_next_uuid (db_gl (dk_db k)))).
  split; [lia|]. reflexivity.
Qed.

(** The rows the loop writes. *)
Lemma add_installments plan_id p per last xs k l k' :
  mmap (add_installment plan_id p per last) xs k = (Ok l, k') ->
  desk_frame k k' /\ pn_plans (dk_plans k') = pn_plans (dk_plans k) /\
  pn_installments (dk_plans k') = pn_installments (dk_plans k) ++ l /\
  Forall (fun r => in_plan_id r = plan_id) l /\ map in_seq l = map Z.succ xs /\
  map in_due_date l = map (fun i => pp_start_date p + 30 * i) xs /\
  map in_amount l = map (fun i => if i <? pp_num_installments p - 1 then per else last) xs.
Proof.
  revert k l. induction xs as [|x xs IH]; intros k l H; cbn [mmap] in H.
  { apply pair_equal_spec in H as [[= <-] <-]. rewrite app_nil_r. split_and!; try done. }
  apply mseq_Ok in H as (r & k1 & H1 & (rest & k2 & H2 & [[= <-] <-]%pair_equal_spec)%mseq_Ok).
  destruct (IH _ _ H2) as (F & P & I & A1 & A2 & A3 & A4). unfold add_installment in H1.
  apply mseq_Ok in H1 as (due & ? & [Hdue <-]%pair_equal_spec & H1).
  destruct (new_uuid_run k) as (k3 & E3 & F3 & P3 & _). rewrite (mseq_run _ _ _ _ _ E3) in H1.
  apply pair_equal_spec in H1 as [[= <-] <-]. unfold due_on in Hdue.
  destruct (pp_start_date p + 30 * x <=? last_date); [|done]. injection Hdue as <-.
  split_and!.
  - etrans; [exact F3|]. etrans; [|exact F]. by split_and!.
  - rewrite P. cbn. by rewrite P3.
  - rewrite I. cbn. rewrite P3. by rewrite <- app_assoc.
  - by constructor.
  - cbn [map in_seq]. by rewrite A2.
  - cbn [map in_due_date]. by rewrite A3.
  - cbn [map in_amount]. by rewrite A4.
Qed.

(** The amounts of the loop, in cents. *)
Lemma schedule_cents n p q : 2 <= n ->
  map (fun i => if i <? n - 1 then DFinite p (-2) else DFinite q (-2)) (range n) =
  map (fun c => DFinite c (-2)) (replicate (Z.to_nat (n - 1)) p ++ [q]).
Proof.
  intros Hn. unfold range. replace (Z.to_nat n) with (Z.to_nat (n - 1) + 1)%nat by lia.
  rewrite seq_app, !map_app. f_equal.
  - rewrite map_map. apply list_eq. intros i.
    change (map (fun c => DFinite c (-2)) (replicate (Z.to_nat (n - 1)) p))
      with ((fun c => DFinite c (-2)) <$> replicate (Z.to_nat (n - 1)) p). rewrite fmap_replicate.
    change (map (fun x => if Z.of_nat x <? n - 1 then DFinite p (-2) else DFinite q (-2)) (seq 0 (Z.to_nat (n - 1))))
      with ((fun x => if Z.of_nat x <? n - 1 then DFinite p (-2) else DFinite q (-2)) <$> seq 0 (Z.to_nat (n - 1))).
    rewrite list_lookup_fmap. destruct (decide (i < Z.to_nat (n - 1))%nat) as [Hi|Hi].
    + rewrite lookup_seq_lt, lookup_replicate_2 by done. cbn. destruct (Z.ltb_spec (Z.of_nat i) (n - 1)); [done|lia].
    + rewrite !lookup_ge_None_2; [done|rewrite length_replicate; lia|rewrite length_seq; lia].
  - cbn [seq map]. f_equal. destruct (Z.ltb_spec (Z.of_nat (0 + Z.to_nat (n - 1))) (n - 1)); [lia|done].
Qed.

(** A refused request leaves every table as it found it. *)
Lemma desk_request_err {A} (m : M Desk A) k e k' : desk_request m k = (Err e, k') ->
  dk_db k' = dk_db k /\ of_work (dk_office k') = of_work (dk_office k) /\ dk_plans k' = dk_plans k.
Proof.
  unfold desk_request. destruct (m k) as [[a|e'] k1]; [done|]. intros [_ <-]%pair_equal_spec. by destruct k as [[[]] ?].
Qed.

Lemma desk_request_ok {A} (m : M Desk A) k a k' : desk_request m k = (Ok a, k') -> m k = (Ok a, k').
Proof. unfold desk_request. by destruct (m k) as [[a'|e'] k1]. Qed.

(** What an accepted plan has passed, and what it wrote. *)
Record planned (id_ : uuid) (payload : PaymentPlanIn) (k : Desk) (plan : PaymentPlan)
    (l : list PaymentPlanInstallment) (k' : Desk) : Prop := {
  pd_count : 2 <= pp_num_installments payload <= 12;
  pd_enabled : _payment_plans_enabled (dk_plans k) = true;
  pd_invoice : exists invoice, get_invoice id_ (dk_db k) = Some invoice /\ inv_deleted_at invoice = None /\
    creditable (inv_status invoice) = true /\ pl_invoice_id plan = inv_id invoice /\
    let total := _remaining_receivable invoice (dk_db k) in
    float_nonpos total = false /\ _money_float total = Ok (pl_total_amount plan) /\
    exists per last, plan_amounts total (pp_num_installments payload) = Ok (per, last) /\
      float_nonpos (float_of_decimal last) = false /\
      map in_amount l = map (fun i => if i <? pp_num_installments payload - 1 then per else last)
                            (range (pp_num_installments payload));
  pd_alone : _live_plan (pl_invoice_id plan) (dk_plans k) = None;
  pd_plan : pl_status plan = active /\ pl_num_installments plan = pp_num_installments payload /\
    pl_start_date plan = pp_start_date payload /\ pl_id plan = gl_next_uuid (db_gl (dk_db k)) /\
    (pl_id plan < gl_next_uuid (db_gl (dk_db k')))%N;
  pd_rows : pn_plans (dk_plans k') = pn_plans (dk_plans k) ++ [plan] /\
    pn_installments (dk_plans k') = pn_installments (dk_plans k) ++ l;
  pd_installments : Forall (fun r => in_plan_id r = pl_id plan) l /\
    map in_seq l = map Z.succ (range (pp_num_installments payload)) /\
    map in_due_date l = map (fun i => pp_start_date payload + 30 * i) (range (pp_num_installments payload));
  pd_frame : desk_frame k k'
}.

Lemma create_plan_Ok id_ payload actor k plan l k' :
  create_payment_plan id_ payload actor k = (Ok (plan, l), k') -> planned id_ payload k plan l k'.
Proof.
  unfold create_payment_plan. intros H%desk_request_ok. unfold valid_plan in H.
  destruct ((2 <=? _) && _) eqn:En; [|done]. cbn [negb] in H. apply andb_true_iff in En as [E1%Z.leb_le E2%Z.leb_le].
  apply mseq_Ok in H as (? & ? & [[= <-] <-]%pair_equal_spec & H).
  destruct (_payment_plans_enabled _) eqn:Een; [|done]. cbn [negb] in H.
  apply mseq_Ok in H as (invoice & ? & (-> & Hi & Hd)%desk_get & H).
  destruct (creditable _) eqn:Ec; [|done]. cbn [negb] in H.
  apply mseq_Ok in H as (? & ? & [[= <-] <-]%pair_equal_spec & H). set (total := _remaining_receivable _ _) in *.
  destruct (float_nonpos total) eqn:Et; [done|].
  apply mseq_Ok in H as (? & ? & [[= <-] <-]%pair_equal_spec & H). destruct (_live_plan _ _) eqn:El; [done|].
  apply mseq_Ok in H as ([per last] & ? & [Ha <-]%pair_equal_spec & H). cbn [fst snd] in H.
  destruct (float_nonpos (float_of_decimal last)) eqn:Elast; [done|].
  destruct (new_uuid_run k) as (k1 & N1 & F1 & P1 & U1). rewrite (mseq_run _ _ _ _ _ N1) in H.
  apply mseq_Ok in H as (ta & ? & [Hta <-]%pair_equal_spec & H).
  apply mseq_Ok in H as (? & ? & [[= <-] <-]%pair_equal_spec & H). cbv zeta in H. set (plan0 := mk_plan _ _ _ _ _ _ _ _ _ _) in *.
  apply mseq_Ok in H as (? & k2 & [_ Hk2]%pair_equal_spec & H).
  apply mseq_Ok in H as (rows & k3 & Hm & [[= <- <-] <-]%pair_equal_spec).
  apply add_installments in Hm as (F3 & P3 & I3 & A1 & A2 & A3 & A4). subst k2. cbn in P3, I3. rewrite P1 in P3, I3.
  assert (F : desk_frame k k3) by (etrans; [exact F1|]; etrans; [|exact F3]; by split_and!).
  split; try done.
  - exists invoice. split_and!; try done. cbv zeta. fold total. split_and!; try done. by exists per, last.
  - split_and!; try done. destruct F3 as [(u & Hu & E) _]. rewrite E.
    change (gl_next_uuid (db_gl (dk_db k1)) <= u)%N in Hu. change (gl_next_uuid (db_gl (dk_db k)) < u)%N. lia.
Qed.

(** C15: a payment plan schedules what is owed, to the cent.  A refused request
    changes nothing.  An accepted one is on an issued invoice with no other
    active plan; the plan's total is what the invoice still owes, the
    installments are [n - 1] equal ones within half a cent of the [n]th part
    and a last one that is at least a cent, they sum to the total exactly
    whatever the floats in between did, they are numbered from 1 and fall due
    every 30 days from the start, and no other table is written. *)
Theorem plan_schedules_what_is_owed id_ payload actor k r k' invoice sm t
    (Hi : get_invoice id_ (dk_db k) = Some invoice)
    (Hsm : invoice_sums (inv_id invoice) (dk_db k) = Some sm) (Ht : money_col (inv_total invoice) = Some t)
    (Hrun : create_payment_plan id_ payload actor k = (r, k')) :
  let owed := t - s_credited sm - s_paid sm in
  let n := pp_num_installments payload in
  match r with
  | Err _ => dk_db k' = dk_db k /\ of_work (dk_office k') = of_work (dk_office k) /\ dk_plans k' = dk_plans k
  | Ok (plan, l) =>
      creditable (inv_status invoice) = true /\ _live_plan (inv_id invoice) (dk_plans k) = None /\
      pl_status plan = active /\ pl_invoice_id plan = inv_id invoice /\ pl_total_amount plan = DFinite owed (-2) /\
      (exists p, 0 <= p /\ 2 * Z.abs (n * p - owed) <= n /\ 0 < owed - (n - 1) * p /\
         let cents := replicate (Z.to_nat (n - 1)) p ++ [owed - (n - 1) * p] in
         map in_amount l = map (fun c => DFinite c (-2)) cents /\ zsum cents = owed) /\
      map in_seq l = map Z.succ (range n) /\
      map in_due_date l = map (fun i => pp_start_date payload + 30 * i) (range n) /\
      pn_plans (dk_plans k') = pn_plans (dk_plans k) ++ [plan] /\
      pn_installments (dk_plans k') = pn_installments (dk_plans k) ++ l /\
      Forall (fun x => in_plan_id x = pl_id plan) l /\ desk_frame k k'
  end.
Proof.
  cbv zeta. destruct r as [[plan l]|e]; [|exact (desk_request_err _ _ _ _ Hrun)].
  destruct (create_plan_Ok _ _ _ _ _ _ _ Hrun) as [Hn _ (i & Hi' & _ & Hc & Hid & Hpos & Hta & per & last & Ha & Hlast & Hamt) Hl (H1 & _) (R1 & R2) (I1 & I2 & I3) F].
  rewrite Hi in Hi'. injection Hi' as <-. destruct (remaining_exact _ _ _ _ Hsm Ht) as [Er Eb]. rewrite Er in *.
  set (owed := t - s_credited sm - s_paid sm) in *. clearbody owed.
  assert (Ho : 0 < owed).
  { destruct (float_cents_wide owed ltac:(lia)) as (v & Ev & Nv). rewrite Ev in Hpos. cbn in Hpos. apply Z.leb_gt in Hpos.
    apply near_sign in Nv as [_ Nv]; [|done]. destruct (Z.lt_trichotomy owed 0) as [H|[H|H]]; [specialize (Nv H); lia| |done].
    subst owed. pose proof (float_zero (-2)) as Z0. rewrite float_of_cents, Ev in Z0. injection Z0 as ->. lia. }
  destruct (plan_amounts_exact owed (pp_num_installments payload) ltac:(lia) Hn) as (p & Ep & Hp0 & Hp1).
  rewrite Ep in Ha. injection Ha as <- <-. set (n := pp_num_installments payload) in *.
  rewrite Hid in Hl. split_and!; try done.
  - destruct (float_cents_wide owed ltac:(lia)) as (v & Ev & Nv). rewrite Ev in Hta. unfold _money_float in Hta.
    rewrite (quantize_float_near v owed 800) in Hta; [|lia|done|done]. by injection Hta as <-.
  - exists p. split_and!; try done.
    + assert (Hq : Z.abs (owed - (n - 1) * p) < 10 ^ 12 \/ 10 ^ 12 <= Z.abs (owed - (n - 1) * p)) by lia.
      destruct Hq as [Hq|Hq]; [|replace (owed - (n - 1) * p) with (p - (n * p - owed)) in * by ring; lia]. destruct (float_cents_nonpos _ Hq) as [Hz _]. rewrite Hz in Hlast. by apply Z.leb_gt in Hlast.
    + rewrite Hamt. apply schedule_cents. lia.
    + rewrite zsum_app, zsum_replicate. cbn [zsum foldr]. rewrite Z2Nat.id by lia. lia.
Qed.

(** * The derived statuses *)

Lemma float_cents_zero : float_of_ratio 0 100 = FNum 0.
Proof. by rewrite <- float_of_cents, float_zero. Qed.

(** [cumulative], to the cent. *)
Lemma cumulative_exact C a : Z.abs C <= 10 ^ 12 -> Z.abs a < 10 ^ 12 ->
  float_round2 (float_add (float_of_ratio C 100) (float_of_decimal (DFinite a (-2)))) = float_of_ratio (C + a) 100.
Proof.
  intros HC Ha. destruct (float_cents_wide C ltac:(lia)) as (v & -> & Nv). destruct (float_cents a Ha) as (w & -> & Nw).
  destruct (float_add_near _ _ _ _ _ _ Nv Nw) as (x & -> & Nx); [lia|done|]. by apply (float_round2_near x _ (800 + 100 + 800)).
Qed.

(** [paid + 0.005 >= cumulative] compares cents. *)
Lemma covers_exact vp P z : near vp P 100 -> Z.abs P <= 10 ^ 12 -> Z.abs z <= 10 ^ 13 ->
  float_leb (float_of_ratio z 100) (float_add (FNum vp) half_cent) = (z <=? P).
Proof.
  intros Np HP Hz. destruct (float_cents_wide z Hz) as (v & -> & Nv). unfold half_cent. cbn [float_of_decimal].
  change (5 * 10 ^ Z.max 0 (-3)) with 5. change (10 ^ Z.max 0 (- -3)) with 1000. pose proof least_pos as HL.
  destruct (float_of_ratio_close 5 1000 0) as (h & -> & Hh); [lia|lia|lia|]. unfold float_add. cbn [float_neg float_sub].
  unfold near in Np, Nv. change (2 ^ 20) with 1048576 in *. change (2 ^ 54) with 18014398509481984 in Hh.
  rewrite Z.sub_opp_r. assert (Hp : Z.abs (P * least) <= 1000000000000 * least)
    by (rewrite Z.abs_mul, (Z.abs_eq least) by lia; change (10 ^ 12) with 1000000000000 in HP; nia).
  destruct (float_of_ratio_close (vp + h) least 37) as (w & -> & Hw); [done|lia|change (2 ^ 37) with 137438953472; lia|].
  replace (w * least - (vp + h) * least) with ((w - (vp + h)) * least) in Hw by ring.
  rewrite Z.abs_mul, (Z.abs_eq least) in Hw by lia.
  change (2 ^ 54) with (137438953472 * 131072) in Hw. change (2 ^ 37) with 137438953472 in Hw.
  assert (Hw' : 131072 * Z.abs (w - (vp + h)) <= least) by nia. clear Hw.
  cbn [float_leb float_gtb]. apply eq_true_iff_eq. rewrite negb_true_iff, Z.ltb_ge, Z.leb_le. split; intros H.
  - destruct (Z.le_gt_cases z P) as [|Hgt]; [done|exfalso]. assert ((P + 1) * least <= z * least) by nia. lia.
  - assert (z * least <= P * least) by nia. lia.
Qed.

Lemma derive_statuses_exact vp P today l cs C : near vp P 100 -> Z.abs P <= 10 ^ 12 ->
  map in_amount l = map (fun c => DFinite c (-2)) cs -> Forall (fun c => 0 <= c) cs -> 0 <= C -> C + zsum cs < 10 ^ 12 ->
  forall j i, l !! j = Some i ->
  derive_statuses (FNum vp) today (float_of_ratio C 100) l !! j =
    Some (if C + zsum (take (S j) cs) <=? P then Covered else if in_due_date i <? today then Overdue else Pending).
Proof.
  intros Np HP. revert cs C. induction l as [|x l IH]; intros [|c cs] C Hl Hc HC Hs j i Hj; [done..|].
  injection Hl as Ex Hl. apply Forall_cons in Hc as [Hc0 Hc]. cbn [zsum foldr] in Hs. fold (zsum cs) in Hs.
  pose proof (zsum_nonneg cs Hc) as Hn. cbn [derive_statuses]. rewrite Ex, cumulative_exact by lia. destruct j as [|j].
  - injection Hj as ->. cbn. rewrite (covers_exact vp P) by (done || lia). by rewrite firstn_O, Z.add_0_r.
  - change ((x :: l) !! S j) with (l !! j) in Hj.
    etransitivity; [exact (IH cs (C + c) Hl Hc ltac:(lia) ltac:(lia) j i Hj)|]. cbn [take zsum foldr].
    change (foldr Z.add 0 (take (S j) cs)) with (zsum (take (S j) cs)). by rewrite Z.add_assoc.
Qed.

Lemma lookup_combine {A B} (l : list A) (l' : list B) j a b : l !! j = Some a -> l' !! j = Some b ->
  combine l l' !! j = Some (a, b).
Proof.
  revert l l'. induction j as [|j IH]; intros [|x l] [|y l']; try done; [by intros [= ->] [= ->]|apply IH].
Qed.

(** C16: a plan shows the money that arrived.  Reading a plan whose
    installments are whole cents, through floats, marks an installment covered
    exactly when the payments reach the sum of the installments up to it, and
    the others overdue or pending by their due date against the shop's day. *)
Theorem plan_shows_money_that_arrived `{W : World} invoice l d cs P j i
    (Hl : map in_amount l = map (fun c => DFinite c (-2)) cs) (Hc : Forall (fun c => 0 <= c) cs) (Hs : zsum cs < 10 ^ 12)
    (HP : worth (paid_sum (inv_id invoice) d) P) (Hj : l !! j = Some i) :
  _plan_out invoice l d !! j =
    Some (i, if zsum (take (S j) cs) <=? P then Covered
             else if in_due_date i <? shop_today_from_settings d then Overdue else Pending).
Proof.
  unfold _plan_out. destruct (to_float_worth _ _ HP) as (vp & -> & Np). destruct HP as [_ HP].
  pose proof (derive_statuses_exact vp P (shop_today_from_settings d) l cs 0 Np ltac:(lia) Hl Hc ltac:(lia) ltac:(lia) j i Hj) as H.
  rewrite float_cents_zero, Z.add_0_l in H. by apply lookup_combine.
Qed.

(** * Witnesses *)

(** An issued invoice of [c] cents, with [paid_] cents received. *)
Definition plan_invoice (c : Z) : Invoice :=
  mk_invoice 7%N "INV-7" sent (Some (DFinite c (-2))) (Some (DFinite 0 (-2))) (Some (DFinite c (-2))) None None "co"
    (Some 738000) None None None (Some (DFinite c (-2))) None false None "standard" None None None false.
Definition plan_desk (c paid_ : Z) : Desk :=
  mk_desk (mk_office (mk_session (mk_db (mk_gl [] [] [] [] [] [] 100%N 0)
      (mk_ops [plan_invoice c] []
         [mk_payment 31%N 7%N (Some (DFinite paid_ (-2))) (Some "cash") None (Some 738005) None None None None]
         [] [] None 5 1 true)) ∅ [] ∅ [])
    (mk_sales [] [] [] [] [] [] []) (mk_work [] [] [] [] [] [] [] [])) (mk_plans (Some true) [] []).

(** 99.99 over seven installments: the last one takes the three cents left. *)
Lemma plan_schedules_what_is_owed_witness :
  exists plan l k', create_payment_plan 7%N (mk_plan_in 7 738010) "office" (plan_desk 10000 1) = (Ok (plan, l), k') /\
    pl_total_amount plan = DFinite 9999 (-2) /\
    map in_amount l = map (fun c => DFinite c (-2)) [1428; 1428; 1428; 1428; 1428; 1428; 1431].
Proof.
  eexists _, _, _. split; [vm_compute; reflexivity|].
  pose proof (plan_schedules_what_is_owed 7%N (mk_plan_in 7 738010) "office" (plan_desk 10000 1) _ _ (plan_invoice 10000)
    {| s_lines := 0; s_taxable := 0; s_paid := 1; s_credited := 0 |} 10000 eq_refl eq_refl eq_refl
    ltac:(vm_compute; reflexivity)) as H.
  cbv beta iota zeta in H. destruct H as (_ & _ & _ & _ & H & _). split; [exact H|reflexivity].
Defined.

Lemma plan_shows_money_that_arrived_witness :
  _plan_out (W := toy_world) (plan_invoice 10000)
    [mk_installment 1%N 9%N 1 738010 (DFinite 3333 (-2)); mk_installment 2%N 9%N 2 738040 (DFinite 6667 (-2))]
    (dk_db (plan_desk 10000 3333)) !! O = Some (mk_installment 1%N 9%N 1 738010 (DFinite 3333 (-2)), Covered).
Proof.
  apply (plan_shows_money_that_arrived (W := toy_world) (plan_invoice 10000) _ (dk_db (plan_desk 10000 3333)) [3333; 6667] 3333 0
    (mk_installment 1%N 9%N 1 738010 (DFinite 3333 (-2)))); [reflexivity|repeat constructor; lia|reflexivity| |reflexivity].
  split; [by right|reflexivity].
Defined.

(** Five cents over twelve months are accepted: eleven installments of
    nothing and one of 0.05, though the refusal of a plan says that each
    installment must be at least a cent. *)
Lemma zero_cent_installments :
  exists plan l k', create_payment_plan 7%N (mk_plan_in 12 738010) "office" (plan_desk 6 1) = (Ok (plan, l), k') /\
    map in_amount l = replicate 11 (DFinite 0 (-2)) ++ [DFinite 5 (-2)].
Proof. eexists _, _, _. split; [vm_compute; reflexivity|]. reflexivity. Qed.
