(* ===== verification/InvoiceEdits.v ===== *)
(** The life of an invoice after it is created, as [routers/invoices.py] and
    [core/invoice_void.py] run it: header and line edits of a draft, the
    office's verification and the delivery gate of [core/invoice_delivery.py],
    the lock, the soft delete and the void with everything it gives back.

    A handler is modelled up to its commit, which runs the totals guard over
    the invoice; an exception leaves every table as the request found it.  A
    line is named by its place in the table, which stands for its primary key.
    Left out: the [version] token of the edit screen, notes, due date, display
    flag and photos of the header; a line's cost, margin, labor lane and
    labor-matrix columns (the checks and the relabelling a cost makes are
    kept); the public link and the channel of a delivery; audit rows. *)

From S2P Require Import Prelude PyStr Dates Money PyNum Models PayPeriods Keys Coa Engine Service RulesBase Opening Issuance Payments Adjustments Chokepoint InvoiceTotals Estimates InvoiceGuard MoneyRoutes Deposits Closeouts Billing PaymentPlans.

Local Open Scope Z_scope.

Definition utc_now (d : Db) : datetime := mk_datetime (op_now (db_ops d)) (Some 0).

(** [invoice.locked or invoice.status != "draft"] refuses. *)
Definition open_draft (i : Invoice) : bool := negb (inv_locked i) && bool_decide (inv_status i = draft).

(** * Columns of the header *)

Definition with_rate_date (rate : option decimal) (dated : option date) (i : Invoice) : Invoice :=
  mk_invoice (inv_id i) (inv_number i) (inv_status i) (inv_total i) (inv_tax_amount i) (inv_balance_due i)
    (inv_job_id i) (inv_customer_id i) (inv_company_id i) dated (inv_sent_at i) (inv_created_at i) (inv_deleted_at i)
    (inv_subtotal i) rate (inv_totals_locked i) (inv_paid_at i) (inv_billing_type i) (inv_estimate_id i) (inv_origin i)
    (inv_verified_at i) (inv_locked i).
Definition with_marks (sent_at deleted_at verified_at : option datetime) (locked : bool) (i : Invoice) : Invoice :=
  mk_invoice (inv_id i) (inv_number i) (inv_status i) (inv_total i) (inv_tax_amount i) (inv_balance_due i)
    (inv_job_id i) (inv_customer_id i) (inv_company_id i) (inv_invoice_date i) sent_at (inv_created_at i) deleted_at
    (inv_subtotal i) (inv_tax_rate i) (inv_totals_locked i) (inv_paid_at i) (inv_billing_type i) (inv_estimate_id i)
    (inv_origin i) verified_at locked.
Definition with_sent_at (t : datetime) (i : Invoice) : Invoice :=
  with_marks (Some t) (inv_deleted_at i) (inv_verified_at i) (inv_locked i) i.
Definition with_deleted_at (t : datetime) (i : Invoice) : Invoice :=
  with_marks (inv_sent_at i) (Some t) (inv_verified_at i) (inv_locked i) i.
Definition with_verified_at (t : datetime) (i : Invoice) : Invoice :=
  with_marks (inv_sent_at i) (inv_deleted_at i) (Some t) (inv_locked i) i.
Definition with_lock (i : Invoice) : Invoice :=
  with_marks (inv_sent_at i) (inv_deleted_at i) (inv_verified_at i) true i.

(** * Lines *)

Definition with_line_deleted (t : datetime) (l : InvoiceLine) : InvoiceLine :=
  mk_invoice_line (il_invoice_id l) (il_description l) (il_line_total l) (il_category l) (Some t) (il_taxable l)
    (il_quantity l) (il_unit_price l) (il_sort_order l) (il_pricing_source l) (il_source l) (il_part_id l).

Definition is_live_line (id_ : uuid) (l : InvoiceLine) : bool :=
  N.eqb (il_invoice_id l) id_ && bool_decide (il_deleted_at l = None).

Definition _get_line_or_404 (id_ : uuid) (k : nat) : M Session InvoiceLine :=
  found <- on_db (mreads (fun d => op_invoice_lines (db_ops d) !! k)) ;;
  match found with
  | Some l => if is_live_line id_ l then mreturn l else http 404
  | None => http 404
  end.

(** Assignments to columns of the line in place [k]. *)
Definition write_line (k : nat) (f : InvoiceLine -> InvoiceLine) : Session -> Session :=
  set_db (set_ops (set_invoice_lines (alter f k))).

(** "Less deposit paid": not to be edited or deleted. *)
Definition mirrors_deposit (l : InvoiceLine) : bool :=
  String.eqb (default "" (il_category l)) "Deposit" && float_gtb (FNum 0) (_to_float (il_line_total l)).

Definition ATTESTED : string := "labor_attested".
Definition is_attested (l : InvoiceLine) : bool := opt_eqb (il_pricing_source l) (Some ATTESTED).

(** ** The fields of a line PATCH *)

(** [None]: not in the payload; [Some None]: sent as null. *)
Record InvoiceLinePatchIn : Type := mk_line_patch {
  lp_description : option string;
  lp_quantity : option (option decimal);
  lp_unit_price : option (option float64);
  lp_taxable : option bool;
  lp_sort_order : option Z;
  lp_category : option (option string);
  lp_cost : option (option float64)
}.

Definition opt2_all {A} (p : A -> bool) (x : option (option A)) : bool := opt_all (opt_all p) x.

Definition valid_line_patch (u : InvoiceLinePatchIn) : bool :=
  opt_all (fun s => negb (String.eqb s "") && (String.length s <=? 500)%nat) (lp_description u) &&
  opt2_all valid_quantity (lp_quantity u) && opt2_all (float_between 99999999) (lp_unit_price u) &&
  opt_all (fun n => (1 <=? n) && (n <=? 9999)) (lp_sort_order u) &&
  opt2_all (fun s => (String.length s <=? 80)%nat) (lp_category u) && opt2_all (float_between 99999999) (lp_cost u).

Definition COST_FORBIDDEN : list string :=
  ["estimate_discount"; "operator_discount"; "deposit_schedule"; "deposit_credit"; "qb_import"].

(** [d.quantize(Decimal("0.0001"), rounding=ROUND_HALF_UP)] *)
Definition quantize_fourth (d : decimal) : result decimal :=
  match d with
  | DFinite c e =>
      let q := if -4 <=? e then c * 10 ^ (e + 4) else round_half_up c (-4 - e) in
      if Z.abs q <? 10 ^ decimal_prec then Ok (DFinite q (-4)) else Err ArithmeticError
  | _ => Err ArithmeticError
  end.

Definition derive_margin_pct (cost unit_price : option decimal) : result (option decimal) :=
  match cost, unit_price with
  | Some c, Some u =>
      let! free := dec_leb u (DFinite 0 0) in
      let! odd := dec_ltb c (DFinite 0 0) in
      if free || odd then Ok None
      else
        let! profit := dec_sub u c in
        let! ratio := dec_div profit u in
        let! derived := quantize_fourth ratio in
        let! unfit := dec_leb derived (DFinite (-999999) (-4)) in
        Ok (if unfit : bool then None else Some derived)
  | _, _ => Ok None
  end.

(** The lane after a cost is sent: refused where a cost means nothing; a line
    typed by hand becomes priced from its cost. *)
Definition lane_after_cost (cost : option float64) (unit_price : decimal) (lane : option string) : result (option string) :=
  if bool_decide (cost <> None) && existsb (fun s => opt_eqb lane (Some s)) COST_FORBIDDEN then Err (HTTPException 422)
  else
    let! healed := derive_margin_pct (option_map decimal_of_str cost) (Some unit_price) in
    Ok (match healed with
        | Some _ => if bool_decide (lane = None) || opt_eqb lane (Some "manual") then Some "client_cost" else lane
        | None => lane
        end).

(** The row after the PATCH.  Its total is recomputed when the payload names
    the quantity or the price. *)
Definition patched_line (u : InvoiceLinePatchIn) (l : InvoiceLine) : result InvoiceLine :=
  let quantity := default (il_quantity l) (mjoin (lp_quantity u)) in
  let! unit_price := match mjoin (lp_unit_price u) with Some x => _money_float x | None => Ok (il_unit_price l) end in
  let! lane := match lp_cost u with
               | Some cost => lane_after_cost cost unit_price (il_pricing_source l)
               | None => Ok (il_pricing_source l)
               end in
  let! line_total := if bool_decide (lp_quantity u <> None) || bool_decide (lp_unit_price u <> None)
                     then let! product := dec_mul quantity unit_price in
                          let! total := _money product in Ok (Some total)
                     else Ok (il_line_total l) in
  Ok (mk_invoice_line (il_invoice_id l)
        (match lp_description u with Some s => Some (str_strip s) | None => il_description l end)
        line_total (match lp_category u with Some c => c | None => il_category l end) (il_deleted_at l)
        (default (il_taxable l) (lp_taxable u)) quantity unit_price (default (il_sort_order l) (lp_sort_order u))
        lane (il_source l) (il_part_id l)).

(** * The delivery gate *)

Definition draft_needs_verification (i : Invoice) : bool :=
  bool_decide (inv_status i = draft) && bool_decide (inv_verified_at i = None).

Definition require_deliverable (i : Invoice) : M Session unit :=
  if draft_needs_verification i then http 409 else mreturn tt.

Definition _UNBILLED_PART_STATUSES : list string := ["ordered"; "received"; "used"].

(** The parts of the job nothing bills, not already lined on this draft. *)
Definition _unbilled_parts_for_invoice (i : Invoice) (d : Db) (w : Work) : list JobPartNeeded :=
  match inv_job_id i with
  | None => []
  | Some job =>
      if negb (bool_decide (inv_status i = draft)) then []
      else
        let lined := omap il_part_id (List.filter (is_live_line (inv_id i)) (op_invoice_lines (db_ops d))) in
        List.filter (fun p => N.eqb (jp_job_id p) job && bool_decide (jp_billed_invoice_id p = None) &&
                              existsb (fun s => opt_eqb (jp_status p) (Some s)) _UNBILLED_PART_STATUSES &&
                              negb (existsb (N.eqb (jp_id p)) lined)) (wk_parts w)
  end.

(** * Giving work back *)

Definition release_orders (invoice_id : uuid) : M Office Z :=
  let held c := opt_eqb (co_billed_invoice_id c) (Some invoice_id) in
  n <- mreads (fun o => Z.of_nat (length (List.filter held (wk_change_orders (of_work o))))) ;;
  mwrite (set_work (set_change_orders (update_where held (with_co_holder None)))) ;;;
  mreturn n.

(** The part a deleted line billed. *)
Definition release_line_part (invoice_id : uuid) (part : option uuid) : M Office unit :=
  match part with
  | None => mreturn tt
  | Some p => mwrite (set_work (set_parts (update_where
      (fun q => N.eqb (jp_id q) p && opt_eqb (jp_billed_invoice_id q) (Some invoice_id)) (with_part_holder None))))
  end.

(** The part an added line bills, claimed or refused. *)
Definition claim_line_part (invoice_id : uuid) (job part : option uuid) : M Office unit :=
  match part with
  | None => mreturn tt
  | Some p =>
      claimed <- mreads (fun o => existsb (claimable_part [p] job) (wk_parts (of_work o))) ;;
      mwrite (set_work (set_parts (update_where (claimable_part [p] job) (with_part_holder (Some invoice_id))))) ;;;
      if claimed : bool then mreturn tt else mraise (HTTPException 409)
  end.

Definition live_payments (i : Invoice) (d : Db) : list Payment :=
  List.filter (fun p => negb (is_voided p)) (invoice_payments i d).

(** * The handlers *)

Record InvoicePatchIn : Type := mk_patch {
  ip_tax_rate : option (option float64);
  ip_tax_amount : option float64;
  ip_invoice_date : option (option date)
}.

Definition valid_patch (u : InvoicePatchIn) : bool :=
  opt2_all (fun r => float_leb (FNum 0) r && float_leb r (float_of_int 1)) (ip_tax_rate u) &&
  opt_all (float_leb (FNum 0)) (ip_tax_amount u).

Section Handlers.
Context `{W : World}.
Variable str_format : string -> labor_vars -> option string.

(** A date being changed may not lie ahead of the shop's day. *)
Definition refuses_date (u : InvoicePatchIn) (i : Invoice) (d : Db) : bool :=
  match ip_invoice_date u with
  | Some (Some x) => negb (opt_eqb (inv_invoice_date i) (Some x)) && (shop_today_from_settings d <? x)
  | _ => false
  end.

Definition patch_invoice (id_ : uuid) (u : InvoicePatchIn) (actor : string) : M Office Invoice :=
  if negb (valid_patch u) then mraise (HTTPException 422)
  else atomically (
    invoice <- on_session (_get_invoice_or_404 id_) ;;
    if negb (bool_decide (inv_status invoice = draft)) then mraise (HTTPException 409)
    else
      ahead <- mreads (fun o => refuses_date u invoice (of_db o)) ;;
      if ahead : bool then mraise (HTTPException 422)
      else
        let rate := match ip_tax_rate u with Some r => option_map decimal_of_str r | None => inv_tax_rate invoice end in
        let dated := match ip_invoice_date u with Some x => x | None => inv_invoice_date invoice end in
        on_session (mwrite (write_invoice id_ (with_rate_date rate dated))) ;;;
        match ip_tax_amount u with
        | Some x => tax <- mlift (_money_float x) ;; on_session (mwrite (write_invoice id_ (with_tax tax)))
        | None => mreturn tt
        end ;;;
        on_session (_recalculate_invoice id_ (Some actor)) ;;;
        on_session (commit_invoice id_) ;;;
        on_session (reread id_ invoice)).

Definition delete_invoice (id_ : uuid) : M Office unit := atomically (
  invoice <- on_session (_get_invoice_or_404 id_) ;;
  if negb (bool_decide (inv_status invoice = draft)) then mraise (HTTPException 409)
  else
    live <- mreads (fun o => live_payments invoice (of_db o)) ;;
    match live with
    | _ :: _ => mraise (HTTPException 409)
    | [] =>
        on_session (mwrite (fun s => write_invoice id_ (with_deleted_at (utc_now (se_db s))) s)) ;;;
        release_parts id_ ;;;
        release_orders id_ ;;;
        release_day_rows id_ ;;;
        on_session (commit_invoice id_)
    end).

Definition mark_invoice_sent (id_ : uuid) (actor : string) : M Session Invoice := request (
  invoice <- _get_invoice_or_404 id_ ;;
  if bool_decide (inv_status invoice = void) then http 409
  else
    require_deliverable invoice ;;;
    (if bool_decide (inv_status invoice = paid) then mreturn tt
     else transition_invoice_status id_ sent (Some actor) ;;; mreturn tt) ;;;
    mwrite (fun s => write_invoice id_ (with_sent_at (utc_now (se_db s))) s) ;;;
    commit_invoice id_ ;;;
    reread id_ invoice).

Definition finalize_invoice (id_ : uuid) (actor : string) : M Session Invoice := request (
  invoice <- _get_invoice_or_404 id_ ;;
  if bool_decide (inv_status invoice = void) then http 409
  else if inv_locked invoice then mreturn invoice
  else
    _recalculate_invoice id_ (Some actor) ;;;
    mwrite (write_invoice id_ with_lock) ;;;
    commit_invoice id_ ;;;
    reread id_ invoice).

(** The stamp, and whether it was there already. *)
Definition verify_invoice (id_ : uuid) (acknowledged : bool) : M Office (option datetime * bool) := atomically (
  invoice <- on_session (_get_invoice_or_404 id_) ;;
  match inv_verified_at invoice with
  | Some t => mreturn (Some t, true)
  | None =>
      unbilled <- mreads (fun o => _unbilled_parts_for_invoice invoice (of_db o) (of_work o)) ;;
      if match unbilled with [] => false | _ => negb acknowledged end then mraise (HTTPException 409)
      else
        on_session (mwrite (fun s => write_invoice id_ (with_verified_at (utc_now (se_db s))) s)) ;;;
        on_session (commit_invoice id_) ;;;
        now <- mreads (fun o => utc_now (of_db o)) ;;
        mreturn (Some now, false)
  end).

(** ** Lines *)

Definition add_invoice_line (policy : CatalogPolicy) (id_ : uuid) (payload : InvoiceLineCreateIn) (actor : string)
  : M Office (InvoiceLine * option string) :=
  if negb (valid_line payload) then mraise (HTTPException 422)
  else atomically (
    invoice <- on_session (_get_invoice_or_404 id_) ;;
    if negb (open_draft invoice) then mraise (HTTPException 409)
    else
      warning <- mlift (block_or_warn_invoice_line policy (li_unit_price payload)) ;;
      sort_order <- mreads (fun o => max_sort id_ (of_db o) + 1) ;;
      price <- mlift (_money_float (li_unit_price payload)) ;;
      product <- mlift (dec_mul (li_quantity payload) price) ;;
      line_total <- mlift (_money product) ;;
      let line := hand_line id_ payload price line_total sort_order in
      add_priced_line line ;;;
      claim_line_part id_ (inv_job_id invoice) (li_part_id payload) ;;;
      _claim_labor_day_rows id_ (inv_job_id invoice) (li_time_entry_ids payload) ;;;
      _claim_labor_closeout str_format id_ (inv_job_id invoice) (li_closeout_id payload) (li_estimated_man_hours payload)
        (li_time_entry_ids payload) ;;;
      on_session (_recalculate_invoice id_ (Some actor)) ;;;
      on_session (commit_invoice id_) ;;;
      mreturn (line, warning)).

Definition patch_invoice_line (id_ : uuid) (k : nat) (u : InvoiceLinePatchIn) (actor : string) : M Session InvoiceLine :=
  if negb (valid_line_patch u) then http 422
  else request (
    invoice <- _get_invoice_or_404 id_ ;;
    if negb (open_draft invoice) then http 409
    else
      line <- _get_line_or_404 id_ k ;;
      if mirrors_deposit line then http 409
      else
        line' <- mlift (patched_line u line) ;;
        mwrite (write_line k (fun _ => line')) ;;;
        _recalculate_invoice id_ (Some actor) ;;;
        commit_invoice id_ ;;;
        mreturn line').

Definition delete_invoice_line (id_ : uuid) (k : nat) (actor : string) : M Office Z := atomically (
  invoice <- on_session (_get_invoice_or_404 id_) ;;
  if negb (open_draft invoice) then mraise (HTTPException 409)
  else
    line <- on_session (_get_line_or_404 id_ k) ;;
    if mirrors_deposit line then mraise (HTTPException 409)
    else
      release_line_part id_ (il_part_id line) ;;;
      on_session (mwrite (fun s => write_line k (with_line_deleted (utc_now (se_db s))) s)) ;;;
      still <- mreads (fun o => existsb (fun l => is_live_line id_ l && is_attested l)
                                  (op_invoice_lines (db_ops (of_db o)))) ;;
      released <- (if is_attested line && negb still then release_day_rows id_ else mreturn 0) ;;
      on_session (_recalculate_invoice id_ (Some actor)) ;;;
      on_session (commit_invoice id_) ;;;
      mreturn released).

(** ** The void *)

Record InvoiceVoidResult : Type := mk_void_result {
  vr_already_void : bool;
  vr_released_parts : Z;
  vr_released_change_orders : Z;
  vr_released_time_entries : Z
}.

(** [Chokepoint.void_invoice] is the function up to the balance write. *)
Definition void_invoice (id_ : uuid) (actor : string) : M Desk InvoiceVoidResult := desk_request (
  already <- on_office (on_session (Chokepoint.void_invoice id_ actor)) ;;
  if already : bool then mreturn (mk_void_result true 0 0 0)
  else
    released_parts <- on_office (release_parts id_) ;;
    released_cos <- on_office (release_orders id_) ;;
    released_time_entries <- on_office (release_day_rows id_) ;;
    live <- mreads (fun k => _live_plan id_ (dk_plans k)) ;;
    match live with
    | Some plan => cancel_plan plan actor
    | None => mreturn tt
    end ;;;
    on_office (on_session (commit_invoice id_)) ;;;
    mreturn (mk_void_result false released_parts released_cos released_time_entries)).
End Handlers.
