(* ===== verification/VoidSpec.v ===== *)
(** What voiding or deleting an invoice gives back.  A void returns every row
    the invoice held and nothing else, so that billing work and voiding the
    bill leaves the work tables as they were; it ends the invoice's payment
    plan, of which there is never more than one. *)

From S2P Require Import Prelude PyStr Dates Money PyNum Models PayPeriods Keys Coa Engine EngineInv Service RulesBase Opening Issuance Payments Adjustments RulesSafe Chokepoint InvoiceTotals Estimates InvoiceGuard MoneyRoutes Deposits Closeouts Billing CloseoutSpec DepositSpec BillingSpec BillingSafe PaymentPlans InvoiceEdits.

Local Open Scope Z_scope.

(** * Rows given back *)

(** A stamped row can be freed, which undoes a stamp. *)
Class Freed (A : Type) `{!Stamped A} : Type := {
  freed : A -> A;
  row_id_freed x : row_id (freed x) = row_id x;
  holder_freed x : holder (freed x) = None;
  freed_stamp i x : holder x = None -> freed (stamp i x) = x
}.

#[export] Instance time_freed : Freed TimeEntry.
Proof. refine {| freed := with_time_holder None |}; [done|done|]. intros i [] H; cbn in *. by subst. Defined.
#[export] Instance part_freed : Freed JobPartNeeded.
Proof. refine {| freed := with_part_holder None |}; [done|done|]. intros i [] H; cbn in *. by subst. Defined.
#[export] Instance order_freed : Freed ChangeOrder.
Proof. refine {| freed := with_co_holder None |}; [done|done|]. intros i [] H; cbn in *. by subst. Defined.

Section Returns.
Context {A : Type} `{!Stamped A} `{!Freed A}.

(** The rows [inv] held are free, the others as they were. *)
Definition gave_back (inv : uuid) (x x' : A) : Prop :=
  holder x = Some inv /\ x' = freed x \/ holder x <> Some inv /\ x' = x.
Definition gives_back (inv : uuid) (l l' : list A) : Prop := Forall2 (gave_back inv) l l'.
Definition holds (inv : uuid) (x : A) : bool := opt_eqb (holder x) (Some inv).

Lemma free_where inv l : gives_back inv l (update_where (holds inv) freed l).
Proof.
  unfold update_where, holds, opt_eqb. induction l as [|x l IH]; constructor; [|done]. case_bool_decide; [by left|by right].
Qed.

Lemma given_back_free inv i l l' : gives_back inv l l' -> ~ held_by inv i l'.
Proof.
  intros H (x & Hx & _ & Hh). apply list_elem_of_lookup in Hx as [k Hk].
  destruct (Forall2_lookup_r _ _ _ _ _ H Hk) as (y & _ & [[_ ->]|[Hn ->]]); [by rewrite holder_freed in Hh|done].
Qed.

(** What was stamped on rows nobody held comes back unchanged. *)
Lemma stamp_then_free inv l l1 l2 : Forall (fun x => holder x <> Some inv) l ->
  stamps_free inv l l1 -> gives_back inv l1 l2 -> l2 = l.
Proof.
  intros Hl H. revert l2 Hl. induction H as [|x y l l1 Hxy _ IH]; intros l2 Hl Hg; inversion Hg as [|? z ? l2' Hyz Hg']; subst; [done|].
  apply Forall_cons in Hl as [Hx Hl]. rewrite (IH l2' Hl Hg'). f_equal. destruct Hxy as [->|[H0 ->]].
  - by destruct Hyz as [[? _]|[_ ->]].
  - destruct Hyz as [[_ ->]|[Hn _]]; [by apply freed_stamp|]. by rewrite holder_stamp in Hn.
Qed.
End Returns.

(** A closeout keeps the figure of the hours once billed. *)
Definition gave_closeout (inv : uuid) (c c' : JobCloseout) : Prop :=
  jc_billed_invoice_id c = Some inv /\ c' = without_holder c \/ jc_billed_invoice_id c <> Some inv /\ c' = c.

Record returns (inv : uuid) (w w' : Work) : Prop := mk_returns {
  rt_time : gives_back inv (wk_time_entries w) (wk_time_entries w');
  rt_parts : gives_back inv (wk_parts w) (wk_parts w');
  rt_orders : gives_back inv (wk_change_orders w) (wk_change_orders w');
  rt_closeouts : Forall2 (gave_closeout inv) (wk_closeouts w) (wk_closeouts w');
  rt_rest : wk_co_lines w' = wk_co_lines w /\ wk_labor_prices w' = wk_labor_prices w /\
            wk_pricing w' = wk_pricing w /\ wk_uncompleted w' = wk_uncompleted w
}.

(** The invoice holds nothing. *)
Definition holds_nothing (inv : uuid) (w : Work) : Prop :=
  forall i, ~ time_held inv i w /\ ~ part_held inv i w /\ ~ order_held inv i w /\ ~ hours_held inv i w.

Lemma returns_nothing inv w w' : returns inv w w' -> holds_nothing inv w'.
Proof.
  intros [H1 H2 H3 H4 _] i. split_and!; [eapply given_back_free; eassumption..|]. intros (c & Hc & _ & Hh).
  apply list_elem_of_lookup in Hc as [k Hk]. by destruct (Forall2_lookup_r _ _ _ _ _ H4 Hk) as (y & _ & [[_ ->]|[Hn ->]]).
Qed.

(** The three releases together. *)
Definition released_work (inv : uuid) (w : Work) : Work :=
  mk_work (update_where (holds inv) freed (wk_time_entries w))
    (update_where (fun c => opt_eqb (jc_billed_invoice_id c) (Some inv)) without_holder (wk_closeouts w))
    (update_where (holds inv) freed (wk_parts w)) (update_where (holds inv) freed (wk_change_orders w))
    (wk_co_lines w) (wk_labor_prices w) (wk_pricing w) (wk_uncompleted w).

Lemma released_returns inv w : returns inv w (released_work inv w).
Proof.
  split; [apply free_where..| |by split_and!]. cbn. unfold update_where, opt_eqb.
  induction (wk_closeouts w) as [|c l IH]; constructor; [|done]. case_bool_decide; [by left|by right].
Qed.

(** How many rows of each kind are given back. *)
Definition held_count {A} `{!Stamped A} (inv : uuid) (l : list A) : Z := Z.of_nat (length (List.filter (holds inv) l)).

Lemma releases_run inv o :
  (parts <- release_parts inv ;; orders <- release_orders inv ;; rows <- release_day_rows inv ;; mreturn (parts, orders, rows)) o =
  (Ok (held_count inv (wk_parts (of_work o)), held_count inv (wk_change_orders (of_work o)),
       held_count inv (wk_time_entries (of_work o))), set_work (released_work inv) o).
Proof. by destruct o as [? ? []]. Qed.

(** * The plan of an invoice *)

(** Plans have their own ids, and an invoice has one active plan at most. *)
Definition plans_ok (p : Plans) : Prop :=
  NoDup (map pl_id (pn_plans p)) /\ NoDup (map pl_invoice_id (List.filter is_active (pn_plans p))).

Definition active_on (inv : uuid) (x : PaymentPlan) : bool := N.eqb (pl_invoice_id x) inv && is_active x.

Lemma active_on_at_most_one inv p : plans_ok p ->
  List.filter (active_on inv) (pn_plans p) = [] \/ exists x, List.filter (active_on inv) (pn_plans p) = [x].
Proof.
  intros [_ Hu]. induction (pn_plans p) as [|x l IH]; [by left|]. cbn [List.filter] in *.
  destruct (active_on inv x) eqn:Ex.
  - apply andb_true_iff in Ex as [<-%N.eqb_eq Ea]. rewrite Ea in Hu. cbn [map] in Hu. apply NoDup_cons in Hu as [Hx Hu].
    right. exists x. f_equal. apply filter_none. intros y Hy. destruct (active_on (pl_invoice_id x) y) eqn:Ey; [|done].
    apply andb_true_iff in Ey as [E%N.eqb_eq Ey]. exfalso. apply Hx, elem_of_map_b. exists y. split; [|done].
    by apply elem_of_filter_b.
  - apply IH. destruct (is_active x); [|done]. by apply NoDup_cons in Hu as [_ Hu].
Qed.

Lemma live_plan_spec inv p : plans_ok p ->
  List.filter (active_on inv) (pn_plans p) = match _live_plan inv p with Some x => [x] | None => [] end.
Proof.
  intros H. unfold _live_plan. destruct (active_on_at_most_one inv p H) as [E|[x E]]; unfold active_on in *; by rewrite E.
Qed.

Lemma live_plan_none inv p : _live_plan inv p = None <-> List.filter (active_on inv) (pn_plans p) = [].
Proof.
  unfold _live_plan. change (fun x => N.eqb (pl_invoice_id x) inv && is_active x) with (active_on inv).
  pose proof (stable_sort_perm newest_plan (List.filter (active_on inv) (pn_plans p))) as Hp.
  destruct (stable_sort _ _) as [|x l] eqn:E; cbn.
  - split; [|done]. intros _. apply Permutation_nil in Hp. done.
  - split; [done|]. intros E0. rewrite E0 in Hp. symmetry in Hp. by apply Permutation_nil in Hp.
Qed.

(** The active plan of [inv] is cancelled, the others are as they were. *)
Definition plan_ended (inv : uuid) (at_ : datetime) (by_ : string) (x x' : PaymentPlan) : Prop :=
  active_on inv x = true /\ x' = with_cancel at_ by_ x \/ active_on inv x = false /\ x' = x.
Definition plans_ended (inv : uuid) (at_ : datetime) (by_ : string) (p p' : Plans) : Prop :=
  pn_setting p' = pn_setting p /\ pn_installments p' = pn_installments p /\
  Forall2 (plan_ended inv at_ by_) (pn_plans p) (pn_plans p').

Definition end_plan (inv : uuid) (actor : string) : M Desk unit :=
  live <- mreads (fun k => _live_plan inv (dk_plans k)) ;;
  match live with Some plan => cancel_plan plan actor | None => mreturn tt end.

Lemma end_plan_run inv actor k : plans_ok (dk_plans k) ->
  exists k', end_plan inv actor k = (Ok tt, k') /\ dk_office k' = dk_office k /\
    plans_ended inv (utc_now (dk_db k)) actor (dk_plans k) (dk_plans k').
Proof.
  intros Hok. unfold end_plan, mseq, mreads. pose proof (live_plan_spec inv _ Hok) as Hl.
  destruct (_live_plan inv (dk_plans k)) as [plan|].
  - eexists. split; [reflexivity|]. split; [done|]. split; [done|]. split; [done|]. cbn. fold (utc_now (dk_db k)).
    destruct Hok as [Hid _]. assert (Hp : plan ∈ pn_plans (dk_plans k) /\ active_on inv plan = true)
      by (apply elem_of_filter_b; rewrite Hl; by left). destruct Hp as [Hp Ha].
    assert (Hall : forall x, x ∈ pn_plans (dk_plans k) -> N.eqb (pl_id x) (pl_id plan) = active_on inv x).
    { intros x Hx. apply eq_true_iff_eq. rewrite N.eqb_eq. split.
      - intros E. by rewrite (NoDup_map_inj pl_id (pn_plans (dk_plans k)) x plan Hid Hx Hp E).
      - intros Hax. assert (x ∈ List.filter (active_on inv) (pn_plans (dk_plans k))) as Hf by (by apply elem_of_filter_b).
        rewrite Hl in Hf. by apply list_elem_of_singleton in Hf as ->. }
    clear Hl Hid Hp Ha. revert Hall. unfold update_where. induction (pn_plans (dk_plans k)) as [|x l IH]; intros Hall; constructor.
    + rewrite Hall by (by left). destruct (active_on inv x) eqn:E; [by left|by right].
    + apply IH. intros y Hy. apply Hall. by right.
  - exists k. split; [done|]. split; [done|]. split; [done|]. split; [done|].
    apply Forall_Forall2_diag, Forall_forall. intros x Hx. right. split; [|done].
    destruct (active_on inv x) eqn:E; [|done]. exfalso.
    assert (Hf : x ∈ List.filter (active_on inv) (pn_plans (dk_plans k))) by (by apply elem_of_filter_b). rewrite Hl in Hf. inversion Hf.
Qed.

Lemma ended_ids inv t by_ p p' : plans_ended inv t by_ p p' -> map pl_id (pn_plans p') = map pl_id (pn_plans p).
Proof. intros (_ & _ & H). induction H as [|x y l l' [[_ ->]|[_ ->]] _ IH]; [done|..]; cbn; by rewrite IH. Qed.

Lemma ended_active inv t by_ p p' : plans_ended inv t by_ p p' ->
  List.filter is_active (pn_plans p') = List.filter (fun x => is_active x && negb (N.eqb (pl_invoice_id x) inv)) (pn_plans p).
Proof.
  intros (_ & _ & H). induction H as [|x y l l' Hxy _ IH]; [done|]. cbn [List.filter]. unfold plan_ended, active_on in Hxy.
  destruct Hxy as [[[E1 E2]%andb_true_iff ->]|[E ->]].
  - rewrite E1, E2. cbn. exact IH.
  - destruct (is_active x); cbn [andb] in *; [|exact IH]. rewrite andb_true_r in E. rewrite E. cbn [negb]. by rewrite IH.
Qed.

Lemma NoDup_map_filter {A B} (f : A -> B) (p : A -> bool) l : NoDup (map f l) -> NoDup (map f (List.filter p l)).
Proof.
  induction l as [|x l IH]; [done|]. cbn [map List.filter]. intros [Hx Hl]%NoDup_cons. destruct (p x); [|auto]. cbn [map].
  apply NoDup_cons. split; [|auto]. intros (y & (Hy & _)%elem_of_filter_b & E)%elem_of_map_b. apply Hx, elem_of_map_b. by exists y.
Qed.

Lemma filter_andb {A} (p q : A -> bool) l : List.filter (fun x => p x && q x) l = List.filter q (List.filter p l).
Proof. induction l as [|x l IH]; [done|]. cbn [List.filter]. destruct (p x); cbn [andb List.filter]; by rewrite IH. Qed.

Lemma ended_ok inv t by_ p p' : plans_ok p -> plans_ended inv t by_ p p' -> plans_ok p' /\ _live_plan inv p' = None.
Proof.
  intros [H1 H2] He. pose proof (ended_active _ _ _ _ _ He) as Ha. split; [split|].
  - by rewrite (ended_ids _ _ _ _ _ He).
  - rewrite Ha, filter_andb. by apply NoDup_map_filter.
  - apply live_plan_none. unfold active_on. rewrite (filter_ext _ (fun x => is_active x && N.eqb (pl_invoice_id x) inv))
      by (intros x; apply andb_comm). rewrite filter_andb, Ha, filter_andb. apply filter_none. intros x (_ & Hx)%elem_of_filter_b.
    by apply negb_true_iff in Hx.
Qed.

(** * The void *)

(** The row a void leaves: nothing due, every other column as it was. *)
Definition voided (i : Invoice) : Invoice :=
  mk_invoice (inv_id i) (inv_number i) void (inv_total i) (inv_tax_amount i) (Some (DFinite 0 (-2))) (inv_job_id i)
    (inv_customer_id i) (inv_company_id i) (inv_invoice_date i) (inv_sent_at i) (inv_created_at i) (inv_deleted_at i)
    (inv_subtotal i) (inv_tax_rate i) (inv_totals_locked i) (inv_paid_at i) (inv_billing_type i) (inv_estimate_id i)
    (inv_origin i) (inv_verified_at i) (inv_locked i).

Lemma choke_void_Ok `{W : World} id_ actor s b s' : Chokepoint.void_invoice id_ actor s = (Ok b, s') ->
  exists i, get_invoice id_ (se_db s) = Some i /\ inv_deleted_at i = None /\
    if b then inv_status i = void /\ s' = s
    else inv_status i <> void /\ live_payments i (se_db s) = [] /\ get_invoice id_ (se_db s') = Some (voided i) /\
         only_invoices s s'.
Proof.
  intros H. assert (Ha : str_strip actor <> "").
  { intros E. unfold Chokepoint.void_invoice in H. by rewrite (proj2 (String.eqb_eq _ _) E) in H. }
  rewrite (void_invoice_unfold s id_ actor Ha) in H. destruct (get_invoice id_ (se_db s)) as [i|] eqn:Hi; [|done].
  destruct (inv_deleted_at i) eqn:Ed; [done|]. exists i. split; [done|]. split; [done|]. case_decide as Hv.
  { by apply pair_equal_spec in H as [[= <-] <-]. }
  destruct (existsb _ _) eqn:El; [done|]. pose proof (void_postings_row s id_ actor i Hi Hv) as Hrow.
  assert (Hops : only_invoices s (snd (void_postings id_ i actor s))).
  { enough (keeps only_invoices (void_postings id_ i actor)) as Hk by apply Hk.
    apply keeps_seq; [exact _|apply transition_only|intros _].
    apply keeps_seq; [exact _|apply keeps_sops_only, on_ledger_sops, reverse_invoice_adjustments_keeps, _|intros _].
    apply keeps_sops_only, on_ledger_sops, settle_opening_on_void_keeps, _. }
  destruct (void_postings id_ i actor s) as [[[]|e] s1]; [|by destruct e]. cbn [snd] in *.
  apply pair_equal_spec in H as [[= <-] <-]. split; [done|]. split.
  { unfold live_payments. rewrite existsb_filter in El. by destruct (List.filter _ _). }
  split; [|etrans; [exact Hops|by eexists]]. cbn [se_db set_db]. unfold clear_balance. rewrite get_invoice_update by done.
  rewrite Hrow. cbn. unfold voided. by rewrite Ed.
Qed.

Lemma on_office_run {A} (m : M Office A) k r k' : on_office m k = (r, k') ->
  m (dk_office k) = (r, dk_office k') /\ dk_plans k' = dk_plans k.
Proof. unfold on_office. destruct (m (dk_office k)) as [r0 o]. by intros [<- <-]%pair_equal_spec. Qed.

Lemma on_session_inv {A} (m : M Session A) o r o' : on_session m o = (r, o') ->
  m (of_session o) = (r, of_session o') /\ of_work o' = of_work o /\ of_sales o' = of_sales o.
Proof. unfold on_session. destruct (m (of_session o)) as [r0 s]. by intros [<- <-]%pair_equal_spec. Qed.

(** The steps of a void that happened. *)
Lemma void_steps `{W : World} id_ actor k v k' : void_invoice id_ actor k = (Ok v, k') ->
  exists i s', get_invoice id_ (dk_db k) = Some i /\ inv_deleted_at i = None /\
    if vr_already_void v then inv_status i = void /\ k' = k
    else
      Chokepoint.void_invoice id_ actor (of_session (dk_office k)) = (Ok false, s') /\
      of_session (dk_office k') = s' /\ of_work (dk_office k') = released_work id_ (of_work (dk_office k)) /\
      (let w := of_work (dk_office k) in
       v = mk_void_result false (held_count id_ (wk_parts w)) (held_count id_ (wk_change_orders w))
             (held_count id_ (wk_time_entries w))) /\
      exists k4 k5, dk_plans k4 = dk_plans k /\ end_plan id_ actor k4 = (Ok tt, k5) /\ dk_plans k' = dk_plans k5.
Proof.
  intros Hrun%desk_request_ok.
  apply mseq_Ok in Hrun as (already & k1 & [(H1 & W1 & S1)%on_session_inv P1]%on_office_run & H).
  pose proof (choke_void_Ok _ _ _ _ _ H1) as (i & Hi & Hd & Hb). exists i, (of_session (dk_office k1)). split; [exact Hi|]. split; [done|].
  destruct already.
  { destruct Hb as [Hv Hs]. apply pair_equal_spec in H as [[= <-] <-]. cbn [vr_already_void]. split; [done|].
    destruct k as [[] ?], k1 as [[] ?]; cbn in *. by subst. }
  clear Hb. apply mseq_Ok in H as (n1 & ? & [[= <-] <-]%pair_equal_spec & H).
  apply mseq_Ok in H as (n2 & ? & [[= <-] <-]%pair_equal_spec & H).
  apply mseq_Ok in H as (n3 & k4 & [[= <-] Hk4]%pair_equal_spec & H).
  apply mseq_Ok in H as (live & ? & [[= <-] <-]%pair_equal_spec & H).
  apply mseq_Ok in H as ([] & k5 & H5 & H). change (end_plan id_ actor k4 = (Ok tt, k5)) in H5.
  assert (O5 : dk_office k5 = dk_office k4).
  { revert H5. unfold end_plan, mseq, mreads. destruct (_live_plan id_ (dk_plans k4)); by intros [_ <-]%pair_equal_spec. }
  apply mseq_Ok in H as (? & k6 & [(H6 & W6 & _)%on_session_inv P6]%on_office_run & H).
  apply pair_equal_spec in H as [[= <-] <-]. cbn [vr_already_void].
  apply pair_equal_spec in H6 as [_ H6]. rewrite O5 in H6, W6. split_and!; [exact H1| | | |].
  - by rewrite <- H6, <- Hk4.
  - rewrite W6, <- Hk4, <- W1. by destruct (of_work (dk_office k1)) eqn:E; cbn; rewrite E.
  - cbv zeta. by rewrite <- W1.
  - exists k4, k5. split_and!; [by rewrite <- Hk4|done|done].
Qed.

(** C11: a void gives back exactly what the invoice held.  A refused void
    changes nothing; an invoice already void is reported, unchanged.  A void
    that happens is of a live invoice with no live payment: the row is void
    with nothing due and otherwise as it was, every part, change order, day
    row and closeout the invoice held is free again, every other row is
    untouched, the counts returned are those of the rows freed, the invoice's
    active payment plan is cancelled under the actor's name and no other plan
    is touched, and payments, credits and lines are as they were. *)
Theorem void_gives_back `{W : World} id_ actor k r k' (Hplans : plans_ok (dk_plans k))
    (Hrun : void_invoice id_ actor k = (r, k')) :
  match r with
  | Err _ => dk_db k' = dk_db k /\ of_work (dk_office k') = of_work (dk_office k) /\ dk_plans k' = dk_plans k
  | Ok v => exists i, get_invoice id_ (dk_db k) = Some i /\ inv_deleted_at i = None /\
      if vr_already_void v then inv_status i = void /\ k' = k
      else
        let w := of_work (dk_office k) in
        inv_status i <> void /\ live_payments i (dk_db k) = [] /\ get_invoice id_ (dk_db k') = Some (voided i) /\
        returns id_ w (of_work (dk_office k')) /\ holds_nothing id_ (of_work (dk_office k')) /\
        vr_released_parts v = held_count id_ (wk_parts w) /\
        vr_released_change_orders v = held_count id_ (wk_change_orders w) /\
        vr_released_time_entries v = held_count id_ (wk_time_entries w) /\
        (exists t, plans_ended id_ t actor (dk_plans k) (dk_plans k')) /\ _live_plan id_ (dk_plans k') = None /\
        other_rows (dk_db k') = other_rows (dk_db k)
  end.
Proof.
  destruct r as [v|e]; [|exact (desk_request_err _ _ _ _ Hrun)].
  destruct (void_steps _ _ _ _ _ Hrun) as (i & s' & Hi & Hd & H). exists i. split; [done|]. split; [done|].
  destruct (vr_already_void v); [done|]. destruct H as (Hc & Hs & Hw & -> & k4 & k5 & P4 & E5 & P5). cbv zeta in *.
  apply choke_void_Ok in Hc as (j & Hj & _ & Hv & Hl & Hrow & Honly). change (get_invoice id_ (dk_db k) = Some j) in Hj.
  rewrite Hi in Hj. injection Hj as <-. destruct (end_plan_run id_ actor k4 ltac:(by rewrite P4)) as (k5' & E & _ & He).
  rewrite E5 in E. apply pair_equal_spec in E as [_ <-]. rewrite P4 in He. destruct (ended_ok _ _ _ _ _ Hplans He) as [_ Hnone].
  unfold dk_db, of_db. rewrite Hs, Hw, P5. split_and!; try done.
  - apply released_returns.
  - apply (returns_nothing _ (of_work (dk_office k))), released_returns.
  - by exists (utc_now (dk_db k4)).
  - by apply only_invoices_rows in Honly as [Honly _].
Qed.

(** * Billing and voiding *)

(** A closeout billed and freed: as it was, or never held by a live invoice
    and free, with the figure of the hours the void took back. *)
Definition closeout_restored (d : Db) (c c' : JobCloseout) : Prop :=
  c' = c \/ held_row d c = false /\ exists m, c' = without_holder (with_claim (jc_id c) m c).

(** C12: billing work and voiding the bill is a round trip.  When
    [create_invoice] succeeds and the invoice is then voided, time entries,
    parts and change orders are exactly as they were before it was created,
    and so are all closeouts but the ones the invoice took, which are free
    and keep only the figure of the hours once billed. *)
Theorem bill_then_void_restores_work `{W : World} str_format policy races base tenant_id fallback actor p o invoice n ws o1
    plans actor' v k'
    (Hkeys : time_keys (of_work o))
    (Hcreate : create_invoice str_format policy races base tenant_id fallback actor p o = (Ok (invoice, n, ws), o1))
    (Hnew : holds_nothing (inv_id invoice) (of_work o))
    (Hvoid : void_invoice (inv_id invoice) actor' (mk_desk o1 plans) = (Ok v, k')) (Hv : vr_already_void v = false) :
  let w := of_work o in
  let w' := of_work (dk_office k') in
  wk_time_entries w' = wk_time_entries w /\ wk_parts w' = wk_parts w /\ wk_change_orders w' = wk_change_orders w /\
  Forall2 (closeout_restored (of_db o)) (wk_closeouts w) (wk_closeouts w').
Proof.
  cbv zeta. destruct (create_written _ _ _ _ _ _ _ _ _ _ _ Hcreate) as (x & o0 & Hw & Hlive & Hrow & He & Hwr). rewrite <- Hw in *.
  destruct (written_once str_format base fallback actor p x o0 invoice n ws o1 (of_db o) Hkeys Hrow He Hlive Hwr) as [[S1 S2 S3 S4 _] _].
  destruct (void_steps _ _ _ _ _ Hvoid) as (i & s' & _ & _ & H). rewrite Hv in H. destruct H as (_ & _ & -> & _). cbn [dk_office].
  destruct (released_returns (inv_id invoice) (of_work o1)) as [R1 R2 R3 R4 _].
  assert (Hnone : forall A (S : Stamped A) (l : list A), (forall i, ~ held_by (inv_id invoice) i l) ->
                  Forall (fun y => holder y <> Some (inv_id invoice)) l).
  { intros A S l Hl. apply Forall_forall. intros y Hy Hh. apply (Hl (row_id y)). by exists y. }
  split_and!.
  - refine (stamp_then_free _ _ _ _ (Hnone _ _ _ _) S1 R1). intros j. by destruct (Hnew j).
  - refine (stamp_then_free _ _ _ _ (Hnone _ _ _ _) S2 R2). intros j. by destruct (Hnew j) as (_ & H & _).
  - refine (stamp_then_free _ _ _ _ (Hnone _ _ _ _) S3 R3). intros j. by destruct (Hnew j) as (_ & _ & H & _).
  - assert (Hc : forall c, c ∈ wk_closeouts (of_work o0) -> jc_billed_invoice_id c <> Some (inv_id invoice)).
    { intros c Hc Hh. destruct (Hnew (jc_id c)) as (_ & _ & _ & H). apply H. by exists c. }
    revert R4 Hc. generalize (wk_closeouts (released_work (inv_id invoice) (of_work o1))). clear - S4.
    induction S4 as [|c c1 l l1 Hcc _ IH]; intros l2 R4 Hc; inversion R4 as [|? c2 ? l2' H12 R4']; subst; constructor.
    + destruct Hcc as [->|[H0 [m ->]]].
      * left. destruct H12 as [[H _]|[_ ->]]; [|done]. exfalso. apply (Hc c); [by left|done].
      * right. split; [done|]. exists m. by destruct H12 as [[_ ->]|[Hn _]].
    + apply IH; [done|]. intros y Hy. apply Hc. by right.
Qed.

(** * One active plan *)

(** The plan tables under the supply of identifiers. *)
Definition plan_inv (k : Desk) : Prop :=
  plans_ok (dk_plans k) /\ Forall (fun x => pl_id x < gl_next_uuid (db_gl (dk_db k)))%N (pn_plans (dk_plans k)).

(** A request: one of the handlers that write plans, whatever its outcome, or
    any other, which leaves the plan tables alone. *)
Inductive plan_step `{W : World} : Desk -> Desk -> Prop :=
  | step_create id_ payload actor k r k' : create_payment_plan id_ payload actor k = (r, k') -> plan_step k k'
  | step_cancel id_ actor k r k' : cancel_payment_plan id_ actor k = (r, k') -> plan_step k k'
  | step_void id_ actor k r k' : void_invoice id_ actor k = (r, k') -> plan_step k k'
  | step_other k k' : dk_plans k' = dk_plans k ->
      (gl_next_uuid (db_gl (dk_db k)) <= gl_next_uuid (db_gl (dk_db k')))%N -> plan_step k k'.

Lemma plan_inv_weaken k k' : plan_inv k -> plans_ok (dk_plans k') ->
  map pl_id (pn_plans (dk_plans k')) = map pl_id (pn_plans (dk_plans k)) ->
  (gl_next_uuid (db_gl (dk_db k)) <= gl_next_uuid (db_gl (dk_db k')))%N -> plan_inv k'.
Proof.
  intros [_ H] Hok Hids Hu. split; [done|]. apply Forall_forall. intros x Hx.
  assert (Hin : pl_id x ∈ map pl_id (pn_plans (dk_plans k))) by (rewrite <- Hids; apply elem_of_map_b; by exists x).
  apply elem_of_map_b in Hin as (y & Hy & <-). rewrite Forall_forall in H. specialize (H y Hy). cbn in H. lia.
Qed.

Lemma refused_inv {A} (m : M Desk A) k e k' : desk_request m k = (Err e, k') -> plan_inv k -> plan_inv k'.
Proof. intros (H1 & _ & H2)%desk_request_err [I1 I2]. unfold plan_inv. by rewrite H1, H2. Qed.

Lemma create_plan_inv id_ payload actor k r k' : create_payment_plan id_ payload actor k = (r, k') -> plan_inv k -> plan_inv k'.
Proof.
  destruct r as [[plan l]|e]; [|by apply refused_inv]. intros H [[I1 I2] I3]. apply create_plan_Ok in H as [_ _ _ Hl (Ha & _ & _ & Hid & Hlt) [R1 _] _ _].
  unfold plan_inv, plans_ok. rewrite R1, map_app, List.filter_app, map_app. cbn [map List.filter]. unfold is_active at 2. rewrite Ha. cbn [bool_decide].
  rewrite bool_decide_eq_true_2 by done. cbn [map]. split; [split|].
  - apply NoDup_app. split_and!; [done| |apply NoDup_singleton]. intros y Hy Hy'. apply list_elem_of_singleton in Hy' as ->.
    apply elem_of_map_b in Hy as (x & Hx & E). rewrite Forall_forall in I3. specialize (I3 x Hx). cbn in I3. lia.
  - apply NoDup_app. split_and!; [done| |apply NoDup_singleton]. intros y Hy Hy'. apply list_elem_of_singleton in Hy' as ->.
    apply elem_of_map_b in Hy as (x & (Hx & Hx')%elem_of_filter_b & E). apply live_plan_none in Hl.
    assert (Hf : x ∈ List.filter (active_on (pl_invoice_id plan)) (pn_plans (dk_plans k))).
    { apply elem_of_filter_b. split; [done|]. unfold active_on. by rewrite E, N.eqb_refl. }
    rewrite Hl in Hf. inversion Hf.
  - apply Forall_app. split; [|by constructor]. apply Forall_forall. intros x Hx. rewrite Forall_forall in I3. specialize (I3 x Hx). cbn in *. lia.
Qed.

Lemma cancel_plan_inv id_ actor k r k' : cancel_payment_plan id_ actor k = (r, k') -> plan_inv k -> plan_inv k'.
Proof.
  destruct r as [u|e]; [|by apply refused_inv]. intros H%desk_request_ok Hi.
  apply mseq_Ok in H as (i & ? & (-> & _)%desk_get & H). apply mseq_Ok in H as (live & ? & [E <-]%pair_equal_spec & H).
  injection E as <-. destruct (_live_plan (inv_id i) (dk_plans k)) as [plan|] eqn:El; [|done].
  apply mseq_Ok in H as (? & k2 & H2 & [_ <-]%pair_equal_spec). destruct (end_plan_run (inv_id i) actor k) as (k3 & E3 & O3 & He); [by destruct Hi|].
  unfold end_plan, mseq, mreads in E3. rewrite El, H2 in E3. apply pair_equal_spec in E3 as [_ ->].
  apply (plan_inv_weaken k); [done|by eapply ended_ok; [destruct Hi|]|by eapply ended_ids|]. unfold dk_db. rewrite O3. lia.
Qed.

Lemma choke_void_keeps `{WO : WorldOk} id_ actor s b s' : Chokepoint.void_invoice id_ actor s = (Ok b, s') -> srely s s'.
Proof.
  intros H. assert (Ha : str_strip actor <> "").
  { intros E. unfold Chokepoint.void_invoice in H. by rewrite (proj2 (String.eqb_eq _ _) E) in H. }
  rewrite (void_invoice_unfold s id_ actor Ha) in H. destruct (get_invoice id_ (se_db s)) as [i|]; [|done].
  destruct (inv_deleted_at i); [done|]. case_decide; [apply pair_equal_spec in H as [_ <-]; reflexivity|].
  destruct (existsb _ _); [done|].
  assert (Hk : srely s (snd (void_postings id_ i actor s))).
  { enough (keeps srely (void_postings id_ i actor)) as Hk by apply Hk.
    apply keeps_seq; [exact _|apply transition_keeps|intros _].
    apply keeps_seq; [exact _|apply on_ledger_keeps_db, reverse_invoice_adjustments_keeps, _|intros _].
    apply on_ledger_keeps_db, settle_opening_on_void_keeps, _. }
  destruct (void_postings id_ i actor s) as [[[]|e] s1]; [|by destruct e]. apply pair_equal_spec in H as [_ <-].
  etrans; [exact Hk|]. apply journal_frame_rely, invoices_frame.
Qed.

Lemma void_plan_inv `{WO : WorldOk} id_ actor k r k' : void_invoice id_ actor k = (r, k') -> plan_inv k -> plan_inv k'.
Proof.
  destruct r as [v|e]; [|by apply refused_inv]. intros H Hi. apply void_steps in H as (i & s' & _ & _ & H).
  destruct (vr_already_void v); [by destruct H as [_ ->]|]. destruct H as (Hc & Hs & _ & _ & k4 & k5 & P4 & E5 & P5).
  pose proof (proj1 Hi) as Hok. destruct (end_plan_run id_ actor k4) as (k5' & E & _ & He); [by rewrite P4|]. rewrite E5 in E. apply pair_equal_spec in E as [_ <-].
  rewrite P4 in He. apply (plan_inv_weaken k); [done|rewrite P5; by eapply ended_ok|rewrite P5; by eapply ended_ids|].
  apply choke_void_keeps in Hc. unfold dk_db, of_db. rewrite Hs. exact (rely_uuid _ _ Hc).
Qed.

(** an invoice never has two active payment plans.  Starting from tables
    where every active plan is the only one of its invoice, after any number
    of requests, in any order and whatever their outcomes, [_live_plan] finds
    the one active plan of an invoice or there is none. *)
Theorem one_active_plan `{WO : WorldOk} k k' inv (Hi : plan_inv k) (Hsteps : rtc plan_step k k') :
  List.filter (active_on inv) (pn_plans (dk_plans k')) =
    match _live_plan inv (dk_plans k') with Some x => [x] | None => [] end.
Proof.
  apply live_plan_spec. enough (plan_inv k') as [H _] by exact H. induction Hsteps as [|k k1 k2 Hs _ IH]; [done|].
  apply IH. destruct Hs as [id_ payload actor k r k1 H|id_ actor k r k1 H|id_ actor k r k1 H|k k1 Hp Hu].
  - by eapply create_plan_inv.
  - by eapply cancel_plan_inv.
  - by eapply void_plan_inv.
  - destruct Hi as [I1 I2]. apply (plan_inv_weaken k); rewrite ?Hp; done.
Qed.

(** * Witnesses *)

(** An issued invoice that holds a part and has a plan, beside a part another
    invoice holds. *)
Definition held_part (id_ : uuid) (h : uuid) : JobPartNeeded :=
  mk_part id_ 2%N "spring" None (Some 1) (Some "used") "mobile" (Some (DFinite 8000 (-2))) (Some h).
Definition held_plan (id_ inv : uuid) : PaymentPlan :=
  mk_plan id_ inv active 2 (DFinite 10000 (-2)) 738010 (Some "office") (mk_datetime 3 (Some 0)) None None.
Definition held_desk : Desk :=
  mk_desk (mk_office (mk_session (mk_db (mk_gl [] [] [] [] [] [] 100%N 0)
      (mk_ops [plan_invoice 10000] [] [] [] [] None 5 1 true)) ∅ [] ∅ [])
    (mk_sales [] [] [] [] [] [] []) (mk_work [] [] [held_part 41%N 7%N; held_part 42%N 8%N] [] [] [] [] []))
    (mk_plans (Some true) [held_plan 61%N 7%N; held_plan 62%N 8%N] []).

Lemma held_plans_ok : plans_ok (dk_plans held_desk).
Proof. split; apply (bool_decide_unpack _); vm_compute; exact I. Qed.

Lemma void_gives_back_witness :
  exists v k', void_invoice (W := toy_world) 7%N "office" held_desk = (Ok v, k') /\ vr_released_parts v = 1 /\
    map jp_billed_invoice_id (wk_parts (of_work (dk_office k'))) = [None; Some 8%N] /\
    map pl_status (pn_plans (dk_plans k')) = [cancelled; active] /\ holds_nothing 7%N (of_work (dk_office k')).
Proof.
  eexists _, _. split; [vm_compute; reflexivity|]. split; [reflexivity|]. split; [reflexivity|]. split; [reflexivity|].
  pose proof (void_gives_back (W := toy_world) 7%N "office" held_desk _ _ held_plans_ok ltac:(vm_compute; reflexivity)) as (i & _ & _ & H).
  cbn [vr_already_void] in H. cbv zeta in H. destruct H as (_ & _ & _ & _ & H & _). exact H.
Defined.

Lemma bill_then_void_restores_work_witness :
  exists invoice n ws o1 v k', visit_run = (Ok (invoice, n, ws), o1) /\
    void_invoice (W := toy_world) (inv_id invoice) "office" (mk_desk o1 (mk_plans None [] [])) = (Ok v, k') /\
    map tm_billed_invoice_id (wk_time_entries (of_work o1)) = [Some 90%N; Some (inv_id invoice)] /\
    wk_time_entries (of_work (dk_office k')) = [visit_row 31%N (Some 90%N); visit_row 32%N None].
Proof.
  eexists _, _, _, _, _, _. split; [vm_compute; reflexivity|]. split; [vm_compute; reflexivity|]. split; [reflexivity|].
  refine (proj1 (bill_then_void_restores_work (W := toy_world) (fun _ _ => None) (mk_policy false true) [] 0 "co" "INV-X" "office"
    visit_request visit_office _ _ _ _ (mk_plans None [] []) "office" _ _ _ _ _ _ _)).
  - apply (bool_decide_unpack _). vm_compute. exact I.
  - vm_compute. reflexivity.
  - intros i. unfold time_held, part_held, order_held, hours_held, held_by, closeout_held. cbn.
    split_and!; intros (x & Hx & _ & Hh); repeat (apply elem_of_cons in Hx as [->|Hx]; [discriminate Hh|]); inversion Hx.
  - vm_compute. reflexivity.
  - reflexivity.
Defined.

Lemma one_active_plan_witness :
  List.filter (active_on 7%N) (pn_plans (dk_plans held_desk)) = [held_plan 61%N 7%N].
Proof.
  apply (one_active_plan (WO := toy_world_ok) held_desk held_desk 7%N); [|apply rtc_refl].
  split; [exact held_plans_ok|]. repeat constructor.
Defined.

(** A plan outlives the void of its invoice where the void is not
    [void_invoice]: an issued, unpaid deposit with an active plan is voided
    when the final invoice supersedes it, and the plan stays active. *)
Lemma superseded_deposit_keeps_plan :
  let k := mk_desk (mk_office (deposit_rows [] []) (mk_sales [] [] [] [] [] [] []) (mk_work [] [] [] [] [] [] [] []))
             (mk_plans (Some true) [] []) in
  exists plan l k1 r k2, create_payment_plan 8%N (mk_plan_in 2 738010) "office" k = (Ok (plan, l), k1) /\
    on_office (on_session (apply_deposits_to_final (W := toy_world) 7%N "ops")) k1 = (Ok r, k2) /\
    option_map inv_status (get_invoice 8%N (dk_db k2)) = Some void /\ _live_plan 8%N (dk_plans k2) = Some plan.
Proof. eexists _, _, _, _, _. split; [vm_compute; reflexivity|]. split; [vm_compute; reflexivity|]. split; reflexivity. Qed.
