(* ===== verification/EditSpec.v ===== *)
(** What the edits of a draft do, over all of them at once: who may be edited,
    what an edit leaves alone, the header after it, the price of a line, the
    hours an invoice holds, and the gate before a delivery. *)

From S2P Require Import Prelude PyStr Dates Money PyNum StrFloat TaxFloat Models PayPeriods Keys Coa Engine Service RulesBase Opening Issuance Payments Adjustments RulesSafe Chokepoint InvoiceTotals Estimates InvoiceGuard MoneyRoutes Deposits Closeouts Billing CloseoutSpec BillingSafe PaymentPlans InvoiceEdits VoidSpec.

Local Open Scope Z_scope.

(** * The edits *)

Inductive edit : Type :=
  | AddLine (payload : InvoiceLineCreateIn)
  | PatchLine (k : nat) (u : InvoiceLinePatchIn)
  | DeleteLine (k : nat)
  | PatchHeader (u : InvoicePatchIn)
  | DeleteInvoice.

Definition edits_lines (e : edit) : bool := match e with PatchHeader _ | DeleteInvoice => false | _ => true end.
Definition edited_line (e : edit) : option nat := match e with PatchLine k _ | DeleteLine k => Some k | _ => None end.

Definition lines_of (o : Office) : list InvoiceLine := op_invoice_lines (db_ops (of_db o)).

Section Edits.
Context `{W : World}.
Variable str_format : string -> labor_vars -> option string.
Variable policy : CatalogPolicy.

Definition run_edit (id_ : uuid) (actor : string) (e : edit) : M Office unit :=
  match e with
  | AddLine p => add_invoice_line str_format policy id_ p actor ;;; mreturn tt
  | PatchLine k u => on_session (patch_invoice_line id_ k u actor) ;;; mreturn tt
  | DeleteLine k => delete_invoice_line id_ k actor ;;; mreturn tt
  | PatchHeader u => patch_invoice id_ u actor ;;; mreturn tt
  | DeleteInvoice => delete_invoice id_
  end.

(** ** Refusals *)

Definition same_tables (o o' : Office) : Prop := of_db o' = of_db o /\ of_work o' = of_work o /\ of_sales o' = of_sales o.

Lemma atomically_err {A} (m : M Office A) o e o' : atomically m o = (Err e, o') -> same_tables o o'.
Proof.
  unfold atomically. destruct (m o) as [[a|e'] o1]; [done|]. intros [_ <-]%pair_equal_spec. unfold same_tables, of_db. by destruct o as [[] ? ?].
Qed.

Lemma atomically_ok {A} (m : M Office A) o a o' : atomically m o = (Ok a, o') -> m o = (Ok a, o').
Proof. unfold atomically. by destruct (m o) as [[a'|e'] o1]. Qed.

Lemma request_ok {A} (m : M Session A) s a s' : request m s = (Ok a, s') -> m s = (Ok a, s').
Proof. unfold request. by destruct (m s) as [[a'|e'] s1]. Qed.

Lemma request_err {A} (m : M Session A) s e s' : request m s = (Err e, s') -> se_db s' = se_db s.
Proof. unfold request. destruct (m s) as [[a'|e'] s1]; [done|]. by intros [_ <-]%pair_equal_spec. Qed.

Lemma seq_unit_err {A} (m : M Office A) o e o' : (m ;;; mreturn tt) o = (Err e, o') -> m o = (Err e, o').
Proof. unfold mseq, mreturn. destruct (m o) as [[a|e'] o1]; intros [H <-]%pair_equal_spec; [done|]. by injection H as ->. Qed.

Lemma seq_unit_ok {A} (m : M Office A) o u o' : (m ;;; mreturn tt) o = (Ok u, o') -> exists a, m o = (Ok a, o').
Proof. unfold mseq. destruct (m o) as [[a|e'] o1]; [|done]. intros [_ <-]%pair_equal_spec. by exists a. Qed.

Lemma edit_refused id_ actor e o x o' : run_edit id_ actor e o = (Err x, o') -> same_tables o o'.
Proof.
  destruct e as [p|k u|k|u|]; cbn [run_edit]; [intros H%seq_unit_err..|].
  - unfold add_invoice_line in H. destruct (negb _); [by apply pair_equal_spec in H as [_ <-]|]. by eapply atomically_err.
  - apply on_session_inv in H as (H & Hw & Hs). split; [|done]. unfold of_db. unfold patch_invoice_line in H.
    destruct (negb _); [by apply pair_equal_spec in H as [_ <-]|]. by eapply request_err.
  - by eapply atomically_err.
  - unfold patch_invoice in H. destruct (negb _); [by apply pair_equal_spec in H as [_ <-]|]. by eapply atomically_err.
  - by eapply atomically_err.
Qed.

(** ** Steps that leave the session alone *)

Definition same_session (o o' : Office) : Prop := of_session o' = of_session o /\ of_sales o' = of_sales o.

#[local] Instance same_session_preorder : PreOrder same_session.
Proof. split; [by intros o|]. intros a b c [H1 H2] [G1 G2]. split; congruence. Qed.

Lemma keeps_read_session {A} (f : Office -> result A) : keeps same_session (fun o => (f o, o)).
Proof. by intros o. Qed.
Lemma set_work_session f : keeps same_session (mwrite (set_work f)).
Proof. by intros o. Qed.

Ltac keep_session :=
  repeat first
    [ progress cbv zeta | apply keeps_return; exact _ | apply keeps_raise; exact _ | apply keeps_lift; exact _
    | apply keeps_reads; exact _ | apply set_work_session | apply keeps_read_session
    | apply keeps_seq; [exact _| |intros ?] | case_match ].

Lemma claim_closeout_session inv c : keeps same_session (claim_closeout_hours inv c).
Proof. intros o. unfold claim_closeout_hours. 
  match goal with |- same_session _ (snd (?m o)) => enough (keeps same_session m) as H by apply H end. keep_session.
Qed.

Lemma claim_part_session inv job p : keeps same_session (claim_line_part inv job p).
Proof. unfold claim_line_part. keep_session. Qed.
Lemma claim_rows_session inv job ids : keeps same_session (_claim_labor_day_rows inv job ids).
Proof. unfold _claim_labor_day_rows, claim_day_rows. keep_session. Qed.
Lemma claim_labor_session inv job c man ids : keeps same_session (_claim_labor_closeout str_format inv job c man ids).
Proof.
  unfold _claim_labor_closeout, _refuse_restated_line_off_the_suggestion. keep_session. apply claim_closeout_session.
Qed.
(** ** What a successful edit of a line ran *)

(** The invoice checked, the lines written, then the recalculation. *)
Record line_edit (id_ : uuid) (actor : string) (i : Invoice) (o o1 o' : Office) : Prop := {
  le_found : get_invoice id_ (of_db o) = Some i /\ inv_deleted_at i = None;
  le_open : open_draft i = true;
  le_rows : exists l, of_db o1 = set_ops (set_invoice_lines (fun _ => l)) (of_db o);
  le_recalc : _recalculate_invoice id_ (Some actor) (of_session o1) = (Ok tt, of_session o');
  le_check : _check true [id_] (of_db o') = Ok tt;
  le_work : of_work o' = of_work o1 /\ of_sales o' = of_sales o
}.

Lemma get_Ok id_ o i o' : on_session (_get_invoice_or_404 id_) o = (Ok i, o') ->
  o' = o /\ get_invoice id_ (of_db o) = Some i /\ inv_deleted_at i = None.
Proof.
  unfold on_session. destruct (_get_invoice_or_404 id_ _) as [r s] eqn:E. intros [-> <-]%pair_equal_spec.
  apply get_or_404_Ok in E as (-> & Hg & Hd). split; [|done]. by destruct o.
Qed.

Lemma get_line_Ok id_ k s l s' : _get_line_or_404 id_ k s = (Ok l, s') ->
  s' = s /\ op_invoice_lines (db_ops (se_db s)) !! k = Some l /\ is_live_line id_ l = true.
Proof.
  unfold _get_line_or_404. rewrite bind_reads. destruct (_ !! k) as [x|]; [|done]. destruct (is_live_line id_ x) eqn:E; [|done].
  by intros [[= <-] <-]%pair_equal_spec.
Qed.

Lemma commit_Ok id_ s u s' : commit_invoice id_ s = (Ok u, s') -> s' = s /\ _check true [id_] (se_db s) = Ok tt.
Proof. unfold commit_invoice. intros [H <-]%pair_equal_spec. by destruct u. Qed.

Lemma session_eta o : set_session (fun _ => of_session o) o = o.
Proof. by destruct o. Qed.

(** The end of every edit of a line. *)
Lemma finish_edit {A} id_ actor (z : A) o a o' :
  (on_session (_recalculate_invoice id_ (Some actor)) ;;; on_session (commit_invoice id_) ;;; mreturn z) o = (Ok a, o') ->
  a = z /\ _recalculate_invoice id_ (Some actor) (of_session o) = (Ok tt, of_session o') /\
  _check true [id_] (of_db o') = Ok tt /\ of_work o' = of_work o /\ of_sales o' = of_sales o.
Proof.
  intros ([] & o1 & (H1 & W1 & S1)%on_session_inv & H)%mseq_Ok. apply mseq_Ok in H as (u & o2 & (H2 & W2 & S2)%on_session_inv & H).
  apply pair_equal_spec in H as [[= <-] <-]. apply commit_Ok in H2 as [H2 H3]. unfold of_db. rewrite H2. split_and!; try done; congruence.
Qed.

Lemma keeps_run {S A} (R : S -> S -> Prop) (m : M S A) s r s' : keeps R m -> m s = (r, s') -> R s s'.
Proof. intros H E. specialize (H s). by rewrite E in H. Qed.

Lemma add_line_Ok id_ p actor o line w o' : add_invoice_line str_format policy id_ p actor o = (Ok (line, w), o') ->
  exists i o1 price total, line_edit id_ actor i o o1 o' /\ lines_of o1 = lines_of o ++ [line] /\
    line = hand_line id_ p price total (max_sort id_ (of_db o) + 1) /\ valid_line p = true /\
    _money_float (li_unit_price p) = Ok price /\ (let! x := dec_mul (li_quantity p) price in _money x) = Ok total /\
    bills id_ o o1.
Proof.
  unfold add_invoice_line. destruct (valid_line p) eqn:Ev; [|done]. cbn [negb]. intros H%atomically_ok.
  apply mseq_Ok in H as (i & ? & (-> & Hi & Hd)%get_Ok & H). destruct (open_draft i) eqn:Eo; [|done]. cbn [negb] in H.
  apply mseq_Ok in H as (warning & ? & [_ <-]%pair_equal_spec & H).
  apply mseq_Ok in H as (? & ? & [[= <-] <-]%pair_equal_spec & H).
  apply mseq_Ok in H as (price & ? & [Hp <-]%pair_equal_spec & H).
  apply mseq_Ok in H as (product & ? & [Hx <-]%pair_equal_spec & H).
  apply mseq_Ok in H as (total & ? & [Ht <-]%pair_equal_spec & H). cbv zeta in H. set (ln := hand_line id_ p price total (max_sort id_ (of_db o) + 1)) in H.
  apply mseq_Ok in H as (u1 & o1 & H1 & H). pose proof (keeps_run _ _ _ _ _ (add_priced_line_bills id_ ln) H1) as B1.
  apply mseq_Ok in H as (u2 & o2 & H2 & H). pose proof (keeps_run _ _ _ _ _ (claim_part_session id_ (inv_job_id i) (li_part_id p)) H2) as S2.
  assert (B2 : bills id_ o1 o2).
  { refine (keeps_run _ _ _ _ _ _ H2). unfold claim_line_part. keep. apply (stamp_part_bills id_). intros q Hq. unfold claimable_part in Hq.
    apply andb_true_iff in Hq as [_ Hq]. by apply bool_decide_eq_true in Hq. }
  apply mseq_Ok in H as (u3 & o3 & H3 & H). pose proof (keeps_run _ _ _ _ _ (claim_rows_session id_ _ _) H3) as S3.
  pose proof (keeps_run _ _ _ _ _ (claim_rows_bills id_ _ _) H3) as B3.
  apply mseq_Ok in H as (u4 & o4 & H4 & H). pose proof (keeps_run _ _ _ _ _ (claim_labor_session id_ _ _ _ _) H4) as S4.
  pose proof (keeps_run _ _ _ _ _ (claim_labor_closeout_bills str_format id_ _ _ _ _) H4) as B4.
  apply finish_edit in H as ([= -> ->] & Hrec & Hchk & Hw & Hs). exists i, o4, price, total.
  assert (Hses : of_session o4 = of_session o1 /\ of_sales o4 = of_sales o1) by (destruct S2, S3, S4; split; congruence).
  unfold add_priced_line in H1. destruct (lane_of ln) eqn:El; [|done]. apply on_session_inv in H1 as (H1 & W1 & S1).
  apply pair_equal_spec in H1 as [_ H1]. destruct Hses as [E1 E2].
  assert (Hdb : of_db o4 = set_ops (set_invoice_lines (fun l => l ++ [ln])) (of_db o)) by (unfold of_db; by rewrite E1, <- H1).
  split_and!; try done.
  - split; try done; [eexists; exact Hdb|]. split; [done|congruence].
  - unfold lines_of. by rewrite Hdb.
  - cbn [rbind]. by rewrite Hx.
  - etrans; [exact B1|]. etrans; [exact B2|]. by etrans.
Qed.

Lemma alter_insert {A} (f : A -> A) k (l : list A) x : l !! k = Some x -> alter f k l = <[k := f x]> l.
Proof.
  revert k. induction l as [|y l IH]; intros [|k] H; [done..|by injection H as ->|]. cbn. f_equal. by apply IH.
Qed.

Lemma patch_line_Ok id_ k u actor o line' o' : on_session (patch_invoice_line id_ k u actor) o = (Ok line', o') ->
  exists i o1 l, line_edit id_ actor i o o1 o' /\ lines_of o !! k = Some l /\ is_live_line id_ l = true /\
    mirrors_deposit l = false /\ valid_line_patch u = true /\ patched_line u l = Ok line' /\
    lines_of o1 = <[k := line']> (lines_of o) /\ of_work o1 = of_work o.
Proof.
  intros (H & Hw & Hs)%on_session_inv. unfold patch_invoice_line in H. destruct (valid_line_patch u) eqn:Ev; [|done]. cbn [negb] in H.
  apply request_ok in H. apply mseq_Ok in H as (i & ? & (-> & Hi & Hd)%get_or_404_Ok & H). destruct (open_draft i) eqn:Eo; [|done]. cbn [negb] in H.
  apply mseq_Ok in H as (l & ? & (-> & Hl & Hll)%get_line_Ok & H). destruct (mirrors_deposit l) eqn:Em; [done|].
  apply mseq_Ok in H as (l' & ? & [Hp <-]%pair_equal_spec & H). apply mseq_Ok in H as (? & s1 & [_ Hs1]%pair_equal_spec & H).
  apply mseq_Ok in H as ([] & s2 & Hrec & H). apply mseq_Ok in H as (? & s3 & (-> & Hchk)%commit_Ok & H). apply pair_equal_spec in H as [[= ->] H].
  rewrite H in *. clear H. exists i, (set_session (fun _ => s1) o), l. split_and!; try done.
  - split; try done. eexists. unfold of_db. cbn [of_session set_session]. rewrite <- Hs1. reflexivity.
  - unfold lines_of, of_db. cbn [of_session set_session]. rewrite <- Hs1. exact (alter_insert (fun _ => line') k _ l Hl).
Qed.

(** The work after a line is deleted: its part back if this invoice holds it,
    and with the last attested line all hours. *)
Definition work_less_line (id_ : uuid) (l : InvoiceLine) (last : bool) (w : Work) : Work :=
  let w := match il_part_id l with
           | Some p => set_parts (update_where (fun q => N.eqb (jp_id q) p && holds id_ q) freed) w
           | None => w
           end in
  if last then set_time_entries (update_where (holds id_) freed)
                 (set_closeouts (update_where (fun c => opt_eqb (jc_billed_invoice_id c) (Some id_)) without_holder) w)
  else w.

Lemma release_rows_run id_ o : release_day_rows id_ o =
  (Ok (held_count id_ (wk_time_entries (of_work o))),
   set_work (fun w => set_time_entries (update_where (holds id_) freed)
     (set_closeouts (update_where (fun c => opt_eqb (jc_billed_invoice_id c) (Some id_)) without_holder) w)) o).
Proof. by destruct o as [? ? []]. Qed.

Definition attested_left (id_ : uuid) (ls : list InvoiceLine) : bool := existsb (fun l => is_live_line id_ l && is_attested l) ls.

Lemma delete_line_Ok id_ k actor o n o' : delete_invoice_line id_ k actor o = (Ok n, o') ->
  exists i o1 l, line_edit id_ actor i o o1 o' /\ lines_of o !! k = Some l /\ is_live_line id_ l = true /\
    mirrors_deposit l = false /\ lines_of o1 = <[k := with_line_deleted (utc_now (of_db o)) l]> (lines_of o) /\
    of_work o1 = work_less_line id_ l (is_attested l && negb (attested_left id_ (lines_of o1))) (of_work o).
Proof.
  intros H%atomically_ok. apply mseq_Ok in H as (i & ? & (-> & Hi & Hd)%get_Ok & H). destruct (open_draft i) eqn:Eo; [|done]. cbn [negb] in H.
  apply mseq_Ok in H as (l & o0 & (Hl0 & W0 & S0)%on_session_inv & H). apply get_line_Ok in Hl0 as (E0 & Hl & Hll).
  assert (o0 = o) as -> by (destruct o, o0; cbn in *; by subst). clear E0 W0 S0. destruct (mirrors_deposit l) eqn:Em; [done|].
  apply mseq_Ok in H as (? & o1 & H1 & H). apply mseq_Ok in H as (? & o2 & (H2 & W2 & S2)%on_session_inv & H).
  apply pair_equal_spec in H2 as [_ H2]. apply mseq_Ok in H as (? & ? & [[= <-] <-]%pair_equal_spec & H).
  apply mseq_Ok in H as (m & o3 & H3 & H). apply finish_edit in H as (_ & Hrec & Hchk & Hw & Hs).
  set (w1 := match il_part_id l with Some p => set_parts (update_where (fun q => N.eqb (jp_id q) p && holds id_ q) freed) (of_work o) | None => of_work o end).
  assert (E1 : of_session o1 = of_session o /\ of_sales o1 = of_sales o /\ of_work o1 = w1).
  { unfold release_line_part in H1. unfold w1. destruct (il_part_id l); by apply pair_equal_spec in H1 as [_ <-]. }
  destruct E1 as (E1 & E1s & E1w). fold (lines_of o2) (attested_left id_ (lines_of o2)) in H3.
  assert (E3 : of_session o3 = of_session o2 /\ of_sales o3 = of_sales o2 /\
    of_work o3 = work_less_line id_ l (is_attested l && negb (attested_left id_ (lines_of o2))) (of_work o)).
  { unfold work_less_line. fold w1. rewrite <- E1w, <- W2. destruct (is_attested l && negb (attested_left id_ (lines_of o2))).
    - rewrite release_rows_run in H3. by apply pair_equal_spec in H3 as [_ <-].
    - by apply pair_equal_spec in H3 as [_ <-]. }
  destruct E3 as (E3 & E3s & E3w).
  assert (Hdb : of_db o3 = set_ops (set_invoice_lines (alter (with_line_deleted (utc_now (of_db o))) k)) (of_db o)).
  { unfold of_db. rewrite E3, <- H2, E1. reflexivity. }
  assert (Hlines : lines_of o3 = lines_of o2) by (unfold lines_of, of_db; by rewrite E3).
  exists i, o3, l. split_and!; try done.
  - split; try done; [eexists; exact Hdb|]. split; [done|congruence].
  - unfold lines_of. rewrite Hdb. exact (alter_insert (with_line_deleted (utc_now (of_db o))) k _ l Hl).
  - by rewrite E3w, Hlines.
Qed.
(** The header's columns after a PATCH, before the recalculation. *)
Definition patched_header (u : InvoicePatchIn) (i : Invoice) : result Invoice :=
  let i := with_rate_date (match ip_tax_rate u with Some r => option_map decimal_of_str r | None => inv_tax_rate i end)
             (match ip_invoice_date u with Some x => x | None => inv_invoice_date i end) i in
  match ip_tax_amount u with
  | Some x => let! tax := _money_float x in Ok (with_tax tax i)
  | None => Ok i
  end.

Lemma header_Ok id_ u actor o i' o' : patch_invoice id_ u actor o = (Ok i', o') ->
  exists i s1, get_invoice id_ (of_db o) = Some i /\ inv_deleted_at i = None /\ inv_status i = draft /\ valid_patch u = true /\
    refuses_date u i (of_db o) = false /\ only_invoices (of_session o) s1 /\
    (exists i0, patched_header u i = Ok i0 /\ get_invoice id_ (se_db s1) = Some i0) /\
    _recalculate_invoice id_ (Some actor) s1 = (Ok tt, of_session o') /\ of_work o' = of_work o.
Proof.
  unfold patch_invoice. destruct (valid_patch u) eqn:Ev; [|done]. cbn [negb]. intros H%atomically_ok.
  apply mseq_Ok in H as (i & ? & (-> & Hi & Hd)%get_Ok & H). case_bool_decide as Hst; [|done]. cbn [negb] in H.
  apply mseq_Ok in H as (? & ? & [[= <-] <-]%pair_equal_spec & H). destruct (refuses_date u i (of_db o)) eqn:Er; [done|]. cbv zeta in H.
  apply mseq_Ok in H as (? & o1 & (H1 & W1 & _)%on_session_inv & H). apply pair_equal_spec in H1 as [_ H1].
  apply mseq_Ok in H as (? & o2 & H2 & H).
  set (i1 := with_rate_date (match ip_tax_rate u with Some r => option_map decimal_of_str r | None => inv_tax_rate i end)
    (match ip_invoice_date u with Some x => x | None => inv_invoice_date i end) i). assert (Hi1 : get_invoice id_ (se_db (of_session o1)) = Some i1)
    by (rewrite <- H1; by apply write_invoice_row).
  assert (E2 : only_invoices (of_session o1) (of_session o2) /\ of_work o2 = of_work o1 /\
    exists i0, patched_header u i = Ok i0 /\ get_invoice id_ (se_db (of_session o2)) = Some i0).
  { unfold patched_header. fold i1. destruct (ip_tax_amount u).
    - apply mseq_Ok in H2 as (tax & ? & [Ht <-]%pair_equal_spec & (H2 & W2 & _)%on_session_inv). apply pair_equal_spec in H2 as [_ H2].
      split; [rewrite <- H2; apply write_invoice_only|]. split; [done|]. rewrite Ht. eexists. split; [reflexivity|].
      rewrite <- H2. by apply write_invoice_row.
    - apply pair_equal_spec in H2 as [_ <-]. split; [reflexivity|]. split; [done|]. by exists i1. }
  destruct E2 as (E2 & W2 & E2i). apply mseq_Ok in H as ([] & o3 & (H3 & W3 & _)%on_session_inv & H).
  apply mseq_Ok in H as (? & o4 & (H4 & W4 & _)%on_session_inv & (H5 & W5 & _)%on_session_inv).
  apply commit_Ok in H4 as [H4 _].
  unfold reread, on_db, mreads in H5. apply pair_equal_spec in H5 as [_ H5]. rewrite set_db_same in H5.
  exists i, (of_session o2). split_and!; try done.
  - etrans; [|exact E2]. rewrite <- H1. apply write_invoice_only.
  - by rewrite H3, <- H5, H4.
  - congruence.
Qed.

Lemma delete_Ok id_ o u o' : delete_invoice id_ o = (Ok u, o') ->
  exists i, get_invoice id_ (of_db o) = Some i /\ inv_deleted_at i = None /\ inv_status i = draft /\
    live_payments i (of_db o) = [] /\ of_work o' = released_work id_ (of_work o) /\
    of_session o' = write_invoice id_ (with_deleted_at (utc_now (of_db o))) (of_session o).
Proof.
  intros H%atomically_ok. apply mseq_Ok in H as (i & ? & (-> & Hi & Hd)%get_Ok & H). case_bool_decide as Hst; [|done]. cbn [negb] in H.
  apply mseq_Ok in H as (? & ? & [[= <-] <-]%pair_equal_spec & H). destruct (live_payments i (of_db o)) eqn:El; [|done].
  apply mseq_Ok in H as (? & o1 & (H1 & W1 & _)%on_session_inv & H). apply pair_equal_spec in H1 as [_ H1].
  apply mseq_Ok in H as (? & ? & [_ <-]%pair_equal_spec & H). apply mseq_Ok in H as (? & ? & [_ <-]%pair_equal_spec & H).
  apply mseq_Ok in H as (? & o2 & H2 & (H3 & W3 & _)%on_session_inv). rewrite release_rows_run in H2. apply pair_equal_spec in H2 as [_ H2].
  apply commit_Ok in H3 as [H3 _]. exists i. split_and!; try done.
  - rewrite W3, <- H2, <- W1. by destruct o1 as [? ? []].
  - rewrite H3, <- H2. exact (eq_sym H1).
Qed.

(** ** Who may be edited, and what an edit leaves alone *)

Definition others_lines (id_ : uuid) (ls : list InvoiceLine) : list InvoiceLine :=
  List.filter (fun l => negb (N.eqb (il_invoice_id l) id_)) ls.

Lemma patched_invoice u l l' : patched_line u l = Ok l' -> il_invoice_id l' = il_invoice_id l /\ il_deleted_at l' = il_deleted_at l /\
  il_part_id l' = il_part_id l /\ (is_attested l = true -> is_attested l' = true).
Proof.
  unfold patched_line. intros (price & _ & H)%rbind_Ok. apply rbind_Ok in H as (lane & Hl & H). apply rbind_Ok in H as (t & _ & H).
  injection H as <-. split_and!; [done|done|done|]. unfold is_attested. cbn [il_pricing_source]. intros Ha.
  destruct (lp_cost u) as [cost|]; [|by injection Hl as <-]. unfold lane_after_cost in Hl. destruct (_ && _); [done|].
  apply rbind_Ok in Hl as (healed & _ & Hl). injection Hl as <-. destruct healed; [|done].
  apply bool_decide_eq_true in Ha. rewrite Ha. reflexivity.
Qed.

Lemma line_edit_frame id_ actor i o o1 o' : line_edit id_ actor i o o1 o' ->
  lines_of o' = lines_of o1 /\ op_payments (db_ops (of_db o')) = op_payments (db_ops (of_db o)) /\
  op_adjustments (db_ops (of_db o')) = op_adjustments (db_ops (of_db o)).
Proof.
  intros [_ _ [l Hl] Hr _ _]. pose proof (keeps_run _ _ _ _ _ (recalculate_only id_ (Some actor)) Hr) as Hk.
  apply only_invoices_rows in Hk as [Hk _]. unfold other_rows in Hk. change (se_db (of_session o')) with (of_db o') in Hk.
  change (se_db (of_session o1)) with (of_db o1) in Hk. injection Hk as H1 H2 H3 _. unfold lines_of. rewrite H1, H2, H3, Hl. done.
Qed.

Lemma live_line_id id_ l : is_live_line id_ l = true -> il_invoice_id l = id_ /\ il_deleted_at l = None.
Proof. intros [E1%N.eqb_eq E2%bool_decide_eq_true]%andb_true_iff. done. Qed.

Lemma deposit_line_kept k id_ (ls : list InvoiceLine) l y : ls !! k = Some l -> mirrors_deposit l = false ->
  forall j x, ls !! j = Some x -> is_live_line id_ x = true -> mirrors_deposit x = true -> <[k := y]> ls !! j = Some x.
Proof.
  intros Hk Hm j x Hj _ Hx. destruct (decide (j = k)) as [->|Hne]; [|by rewrite list_lookup_insert_ne by done].
  rewrite Hk in Hj. injection Hj as ->. by rewrite Hx in Hm.
Qed.
End Edits.

(** C14: only a draft is edited, and only where it says.  A refused edit, of
    any kind and for any reason, leaves every table as it was.  A successful
    one was of an invoice that exists, is not deleted and is a draft; an edit
    of a line, and only that (the header and the deletion check no lock,
    [locked_header_edited]), also of one that is not locked, and of a line
    that is live, is the invoice's and is not the one that nets a deposit; a
    deletion of one without live payments.  Payments, credits and the lines of
    every other invoice are untouched, and so are the lines that net
    deposits. *)
Theorem edits_need_an_open_draft `{W : World} str_format policy id_ actor e o r o'
    (Hrun : run_edit str_format policy id_ actor e o = (r, o')) :
  match r with
  | Err _ => same_tables o o'
  | Ok _ => exists i, get_invoice id_ (of_db o) = Some i /\ inv_deleted_at i = None /\ inv_status i = draft /\
      (edits_lines e = true -> inv_locked i = false) /\
      (forall k, edited_line e = Some k -> exists l, lines_of o !! k = Some l /\ is_live_line id_ l = true /\ mirrors_deposit l = false) /\
      (e = DeleteInvoice -> live_payments i (of_db o) = []) /\
      op_payments (db_ops (of_db o')) = op_payments (db_ops (of_db o)) /\
      op_adjustments (db_ops (of_db o')) = op_adjustments (db_ops (of_db o)) /\
      others_lines id_ (lines_of o') = others_lines id_ (lines_of o) /\
      forall j x, lines_of o !! j = Some x -> is_live_line id_ x = true -> mirrors_deposit x = true -> lines_of o' !! j = Some x
  end.
Proof.
  destruct r as [[]|x]; [|by eapply edit_refused].
  assert (Hopen : forall i, open_draft i = true -> inv_status i = draft /\ inv_locked i = false).
  { intros i [H1%negb_true_iff H2%bool_decide_eq_true]%andb_true_iff. done. }
  destruct e as [p|k u|k|u|]; cbn [run_edit] in Hrun; try apply seq_unit_ok in Hrun as [z H]; cbn [edits_lines edited_line].
  - destruct z as [line w]. apply add_line_Ok in H as (i & o1 & price & total & Hle & Hl & -> & _).
    destruct (line_edit_frame _ _ _ _ _ _ Hle) as (F1 & F2 & F3). destruct Hle as [[Hi Hd] Ho _ _ _ _]. apply Hopen in Ho as [Ho1 Ho2].
    exists i. rewrite F1, Hl. split_and!; try done.
    + unfold others_lines. rewrite List.filter_app. cbn. by rewrite N.eqb_refl, app_nil_r.
    + intros j x Hj _ _. by apply lookup_app_l_Some.
  - apply patch_line_Ok in H as (i & o1 & l & Hle & Hl & Hll & Hm & _ & Hp & Hls & _).
    destruct (line_edit_frame _ _ _ _ _ _ Hle) as (F1 & F2 & F3). destruct Hle as [[Hi Hd] Ho _ _ _ _]. apply Hopen in Ho as [Ho1 Ho2].
    destruct (live_line_id _ _ Hll) as [Hid _]. destruct (patched_invoice _ _ _ Hp) as [Hid' _]. exists i. rewrite F1, Hls. split_and!; try done.
    + intros k0 [= <-]. by exists l.
    + unfold others_lines. apply (filter_insert_out _ _ _ l); rewrite ?Hid', ?Hid, ?N.eqb_refl; done.
    + by apply (deposit_line_kept k id_ _ l).
  - apply delete_line_Ok in H as (i & o1 & l & Hle & Hl & Hll & Hm & Hls & _).
    destruct (line_edit_frame _ _ _ _ _ _ Hle) as (F1 & F2 & F3). destruct Hle as [[Hi Hd] Ho _ _ _ _]. apply Hopen in Ho as [Ho1 Ho2].
    destruct (live_line_id _ _ Hll) as [Hid _]. exists i. rewrite F1, Hls. split_and!; try done.
    + intros k0 [= <-]. by exists l.
    + unfold others_lines. apply (filter_insert_out _ _ _ l); cbn; rewrite ?Hid, ?N.eqb_refl; done.
    + by apply (deposit_line_kept k id_ _ l).
  - apply header_Ok in H as (i & s1 & Hi & Hd & Hst & _ & _ & Hs1 & _ & Hr & _).
    pose proof (keeps_run _ _ _ _ _ (recalculate_only id_ (Some actor)) Hr) as Hk.
    assert (Hall : only_invoices (of_session o) (of_session o')) by (by etrans). apply only_invoices_rows in Hall as [Hall _].
    unfold other_rows in Hall. injection Hall as H1 H2 H3 _. exists i. unfold lines_of, of_db. rewrite H1, H2, H3. by split_and!.
  - apply delete_Ok in Hrun as (i & Hi & Hd & Hst & Hl & _ & Hs). exists i. unfold lines_of, of_db. rewrite Hs. by split_and!.
Qed.

(** * The header after an edit *)

Lemma invoice_sums_ext id_ d d' : op_invoice_lines (db_ops d') = op_invoice_lines (db_ops d) ->
  op_payments (db_ops d') = op_payments (db_ops d) -> op_adjustments (db_ops d') = op_adjustments (db_ops d) ->
  invoice_sums id_ d' = invoice_sums id_ d.
Proof. intros H1 H2 H3. unfold invoice_sums, active_lines. by rewrite H1, H2, H3. Qed.

(** The header an edit starts its recalculation from. *)
Definition edited_header (e : edit) (i : Invoice) : result Invoice :=
  match e with PatchHeader u => patched_header u i | _ => Ok i end.

(** an edit leaves the header equal to its lines.  After any successful
    edit of a draft but its deletion, the header is to the cent the
    recalculation of the invoice as it now stands: the subtotal of the live
    lines, the tax of the rate the edit left, the total, and the balance that
    payments and credits leave, with a fully paid draft settled. *)
Theorem edits_settle_the_header `{W : World} str_format policy id_ actor e o o' i i0 sm sub tax total bal
    (Hrun : run_edit str_format policy id_ actor e o = (Ok tt, o')) (He : e <> DeleteInvoice)
    (Hi : get_invoice id_ (of_db o) = Some i) (Hi0 : edited_header e i = Ok i0)
    (Hsm : invoice_sums id_ (of_db o') = Some sm) (Hdue : due_totals i0 sm = Some (sub, tax, total, bal)) :
  get_invoice id_ (of_db o') =
    Some (after_recalc sub tax total bal (mk_datetime (op_now (db_ops (of_db o))) (Some 0)) i0).
Proof.
  assert (Hgen : forall s1, only_invoices s1 (of_session o') -> get_invoice id_ (se_db s1) = Some i0 ->
    op_now (db_ops (se_db s1)) = op_now (db_ops (of_db o)) ->
    _recalculate_invoice id_ (Some actor) s1 = (Ok tt, of_session o') ->
    get_invoice id_ (of_db o') = Some (after_recalc sub tax total bal (mk_datetime (op_now (db_ops (of_db o))) (Some 0)) i0)).
  { intros s1 Ho Hg Hn Hr. rewrite <- Hn. apply (recalculate_row id_ (Some actor) s1 (of_session o') i0 sm); try done.
    rewrite <- Hsm. apply only_invoices_rows in Ho as [Ho _]. unfold other_rows in Ho. injection Ho as H1 H2 H3 _.
    symmetry. by apply invoice_sums_ext. }
  assert (Hline : forall i1 o1, i0 = i -> line_edit id_ actor i1 o o1 o' ->
    get_invoice id_ (of_db o') = Some (after_recalc sub tax total bal (mk_datetime (op_now (db_ops (of_db o))) (Some 0)) i0)).
  { intros i1 o1 -> [_ _ [l Hl] Hr _ _]. apply (Hgen (of_session o1)); try done.
    - exact (keeps_run _ _ _ _ _ (recalculate_only id_ (Some actor)) Hr).
    - change (get_invoice id_ (of_db o1) = Some i). by rewrite Hl.
    - change (op_now (db_ops (of_db o1)) = op_now (db_ops (of_db o))). by rewrite Hl. }
  destruct e as [p|k u|k|u|]; cbn [run_edit edited_header] in *; [..|done]; apply seq_unit_ok in Hrun as [z H].
  - injection Hi0 as <-. destruct z as [line w]. apply add_line_Ok in H as (i1 & o1 & ? & ? & Hle & _). by apply (Hline i1 o1).
  - injection Hi0 as <-. apply patch_line_Ok in H as (i1 & o1 & ? & Hle & _). by apply (Hline i1 o1).
  - injection Hi0 as <-. apply delete_line_Ok in H as (i1 & o1 & ? & Hle & _). by apply (Hline i1 o1).
  - apply header_Ok in H as (i1 & s1 & Hi1 & _ & _ & _ & _ & Hs1 & (i2 & Hi2 & Hg) & Hr & _).
    rewrite Hi in Hi1. injection Hi1 as <-. rewrite Hi0 in Hi2. injection Hi2 as <-. apply (Hgen s1); try done.
    + exact (keeps_run _ _ _ _ _ (recalculate_only id_ (Some actor)) Hr).
    + by apply only_invoices_rows in Hs1 as [_ Hs1].
Qed.

(** * The price of a line *)

(** Hundredths of a unit times cents, half up. *)
Definition extended (h c : Z) : Z := (2 * (h * c) + 100) / 200.

Lemma extend_exact q e c : 0 < q < 10 ^ 6 -> -2 <= e <= 3 -> 0 <= c < 10 ^ 10 ->
  (let! x := dec_mul (DFinite q e) (DFinite c (-2)) in _money x) = Ok (DFinite (extended (q * 10 ^ (e + 2)) c) (-2)).
Proof.
  intros Hq He Hc. cbn [dec_mul rbind]. change (10 ^ 6) with 1000000 in Hq. change (10 ^ 10) with 10000000000 in Hc.
  rewrite ctx_exact by (change (10 ^ decimal_prec) with 10000000000000000000000000000; nia). cbn [rbind].
  unfold _money, quantize_money. rewrite quantize_floor by nia. cbv zeta.
  assert (Hv : (2 * (dnum (q * c) (e + -2) * 100) + dden (e + -2)) / (2 * dden (e + -2)) = extended (q * 10 ^ (e + 2)) c).
  { unfold extended, dnum, dden. assert (e = -2 \/ e = -1 \/ e = 0 \/ e = 1 \/ e = 2 \/ e = 3) as [->|[->|[->|[->|[->| ->]]]]] by lia; cbn [Z.add Z.opp Z.max Z.compare];
      repeat match goal with |- context [10 ^ ?k] => let v := eval compute in (10 ^ k) in change (10 ^ k) with v end.
    - rewrite <- (Z.div_mul_cancel_r (2 * (q * 1 * c) + 100) 200 100) by lia. f_equal; lia.
    - rewrite <- (Z.div_mul_cancel_r (2 * (q * 10 * c) + 100) 200 10) by lia. f_equal; lia.
    - f_equal; lia.
    - rewrite <- (Z.div_mul_cancel_r (2 * (q * c * 1 * 100) + 10) (2 * 10) 10) by lia. f_equal; lia.
    - rewrite <- (Z.div_mul_cancel_r (2 * (q * c * 1 * 100) + 1) (2 * 1) 100) by lia. f_equal; lia.
    - rewrite <- (Z.div_mul_cancel_r (2 * (q * c * 10 * 100) + 1) (2 * 1) 100) by lia. f_equal; lia. }
  rewrite Hv. assert (Hfit : extended (q * 10 ^ (e + 2)) c < 10 ^ decimal_prec).
  { unfold extended. apply Z.div_lt_upper_bound; [lia|]. assert (10 ^ (e + 2) <= 10 ^ 5) by (apply Z.pow_le_mono_r; lia).
    assert (0 <= 10 ^ (e + 2)) by (apply Z.pow_nonneg; lia). change (10 ^ 5) with 100000 in *. change (10 ^ decimal_prec) with 10000000000000000000000000000.
    assert (q * 10 ^ (e + 2) <= 1000000 * 100000) by nia. nia. }
  by rewrite (proj2 (Z.ltb_lt _ _) Hfit).
Qed.

(** The place of the line an edit writes, and whether the edit prices it. *)
Definition written_at (e : edit) (ls : list InvoiceLine) : option nat :=
  match e with AddLine _ => Some (length ls) | PatchLine k _ => Some k | _ => None end.
Definition prices_line (e : edit) : bool :=
  match e with
  | AddLine _ => true
  | PatchLine _ u => bool_decide (lp_quantity u <> None) || bool_decide (lp_unit_price u <> None)
  | _ => false
  end.

(** a line costs its quantity times its price.  The line a successful
    edit adds or patches stands at its place; if the edit names the quantity
    or the price, its total is quantity times unit price rounded half up to
    the cent, exactly; if it names neither, the stored total is untouched. *)
Theorem edited_line_priced `{W : World} str_format policy id_ actor e o o' j line q ex c
    (Hrun : run_edit str_format policy id_ actor e o = (Ok tt, o')) (Hj : written_at e (lines_of o) = Some j)
    (Hline : lines_of o' !! j = Some line) (Hq : il_quantity line = DFinite q ex) (Hc : il_unit_price line = DFinite c (-2))
    (Hqb : 0 < q < 10 ^ 6) (Hex : -2 <= ex <= 3) (Hcb : 0 <= c < 10 ^ 10) :
  if prices_line e then il_line_total line = Some (DFinite (extended (q * 10 ^ (ex + 2)) c) (-2))
  else exists l, lines_of o !! j = Some l /\ il_line_total line = il_line_total l.
Proof.
  destruct e as [p|k u|k|u|]; cbn [run_edit written_at prices_line] in *; try done; apply seq_unit_ok in Hrun as [z H]; injection Hj as <-.
  - destruct z as [l w]. apply add_line_Ok in H as (i & o1 & price & total & Hle & Hl & -> & _ & _ & Ht & _).
    destruct (line_edit_frame _ _ _ _ _ _ Hle) as (F1 & _). rewrite F1, Hl, list_lookup_middle in Hline by done.
    injection Hline as <-. cbn [hand_line il_quantity il_unit_price il_line_total] in *. rewrite Hq, Hc, extend_exact in Ht by done.
    by injection Ht as <-.
  - apply patch_line_Ok in H as (i & o1 & l & Hle & Hl & _ & _ & _ & Hp & Hls & _).
    destruct (line_edit_frame _ _ _ _ _ _ Hle) as (F1 & _). rewrite F1, Hls, list_lookup_insert_eq in Hline by (by eapply lookup_lt_Some).
    injection Hline as <-. unfold patched_line in Hp. apply rbind_Ok in Hp as (price & _ & Hp). apply rbind_Ok in Hp as (lane & _ & Hp).
    apply rbind_Ok in Hp as (t & Ht & Hp). injection Hp as <-. cbn [il_quantity il_unit_price il_line_total] in *.
    destruct (bool_decide _ || bool_decide _).
    + rewrite Hq, Hc in Ht. apply rbind_Ok in Ht as (x & Hx & Ht). apply rbind_Ok in Ht as (total & Ht & E). injection E as <-.
      pose proof (extend_exact q ex c Hqb Hex Hcb) as He. rewrite Hx in He. cbn [rbind] in He. rewrite Ht in He. by injection He as ->.
    + exists l. split; [done|]. by injection Ht as <-.
Qed.

(** * The gate before a delivery *)

Lemma sent_row `{W : World} id_ actor s s' : forall i, get_invoice id_ (se_db s) = Some i -> inv_status i <> void ->
  ((if bool_decide (inv_status i = paid) then mreturn tt else transition_invoice_status id_ sent (Some actor) ;;; mreturn tt) : M Session unit) s
    = (Ok tt, s') ->
  get_invoice id_ (se_db s') = Some (with_status (if bool_decide (inv_status i = paid) then paid else sent) i) /\
  only_invoices s s'.
Proof.
  intros i Hi Hv. case_bool_decide as Hp.
  - intros [_ <-]%pair_equal_spec. split; [|reflexivity]. rewrite Hi. f_equal. rewrite <- Hp. by destruct i.
  - intros (st & s1 & H & [_ <-]%pair_equal_spec)%mseq_Ok. destruct (transition_row id_ sent (Some actor) s i Hi Hv) as (H1 & _).
    pose proof (transition_only id_ sent (Some actor) s) as H2. rewrite H in H1, H2. done.
Qed.

(** nothing unverified is sent.  Marking an invoice sent either changes
    nothing or was of an invoice that exists, is neither deleted nor void and,
    if a draft, was verified; then a paid invoice stays paid and any other is
    sent, stamped with the time, no other row of the tables changed but for
    what the status move posts. *)
Theorem sent_only_if_verified `{W : World} id_ actor s r s' (Hrun : mark_invoice_sent id_ actor s = (r, s')) :
  match r with
  | Err _ => se_db s' = se_db s
  | Ok _ => exists i, get_invoice id_ (se_db s) = Some i /\ inv_deleted_at i = None /\ inv_status i <> void /\
      (inv_status i = draft -> inv_verified_at i <> None) /\
      get_invoice id_ (se_db s') =
        Some (with_sent_at (utc_now (se_db s)) (with_status (if bool_decide (inv_status i = paid) then paid else sent) i)) /\
      other_rows (se_db s') = other_rows (se_db s)
  end.
Proof.
  destruct r as [i'|e]; [|by eapply request_err]. apply request_ok in Hrun.
  apply mseq_Ok in Hrun as (i & ? & (-> & Hi & Hd)%get_or_404_Ok & H). case_bool_decide as Hv; [done|].
  apply mseq_Ok in H as (u & s1 & H1 & H). unfold require_deliverable in H1. destruct (draft_needs_verification i) eqn:Eg; [done|].
  apply pair_equal_spec in H1 as [_ <-]. apply mseq_Ok in H as ([] & s2 & H2 & H).
  apply (sent_row id_ actor s s2 i Hi Hv) in H2 as [Hrow Ho]. apply mseq_Ok in H as (? & s3 & [_ H3]%pair_equal_spec & H).
  apply mseq_Ok in H as (? & ? & [-> _]%commit_Ok & H). unfold reread, on_db, mreads in H. apply pair_equal_spec in H as [_ H].
  rewrite set_db_same in H. subst s'. exists i. destruct (only_invoices_rows _ _ Ho) as [Hr Hn]. split_and!; try done.
  - intros Hdr Hnone. unfold draft_needs_verification in Eg. by rewrite Hdr, Hnone in Eg.
  - rewrite <- H3. unfold utc_now. rewrite <- Hn. by apply (write_invoice_row id_ _ s2).
  - by rewrite <- H3.
Qed.

(** verification accounts for the parts.  A first stamp is kept: a second
    verification reports it and changes nothing.  A draft is stamped only if
    the caller acknowledged missing parts, or every part ordered, received or
    used on its job is billed by some invoice or lined on this one. *)
Theorem verification_accounts_for_parts `{W : World} id_ acknowledged o r o'
    (Hrun : verify_invoice id_ acknowledged o = (r, o')) :
  match r with
  | Err _ => same_tables o o'
  | Ok (t, already) => exists i, get_invoice id_ (of_db o) = Some i /\ inv_deleted_at i = None /\
      if already : bool then inv_verified_at i <> None /\ t = inv_verified_at i /\ o' = o
      else
        inv_verified_at i = None /\ get_invoice id_ (of_db o') = Some (with_verified_at (utc_now (of_db o)) i) /\
        t = Some (utc_now (of_db o)) /\ of_work o' = of_work o /\ lines_of o' = lines_of o /\
        (acknowledged = false -> inv_status i = draft ->
         forall job p s, inv_job_id i = Some job -> p ∈ wk_parts (of_work o) -> jp_job_id p = job ->
           jp_billed_invoice_id p = None -> jp_status p = Some s -> s ∈ _UNBILLED_PART_STATUSES ->
           exists l, l ∈ lines_of o /\ is_live_line id_ l = true /\ il_part_id l = Some (jp_id p))
  end.
Proof.
  destruct r as [[t already]|e]; [|by eapply atomically_err]. apply atomically_ok in Hrun.
  apply mseq_Ok in Hrun as (i & ? & (-> & Hi & Hd)%get_Ok & H). exists i. split; [done|]. split; [done|].
  destruct (inv_verified_at i) as [v|] eqn:Ev; [by apply pair_equal_spec in H as [[= <- <-] <-]|].
  apply mseq_Ok in H as (? & ? & [[= <-] <-]%pair_equal_spec & H). destruct (match _unbilled_parts_for_invoice _ _ _ with [] => _ | _ => _ end) eqn:Eu; [done|].
  apply mseq_Ok in H as (? & o1 & (H1 & W1 & _)%on_session_inv & H). apply pair_equal_spec in H1 as [_ H1].
  apply mseq_Ok in H as (? & o2 & (H2 & W2 & _)%on_session_inv & H). apply commit_Ok in H2 as [H2 _].
  apply mseq_Ok in H as (? & ? & [[= <-] <-]%pair_equal_spec & [[= <- <-] <-]%pair_equal_spec).
  assert (Hdb : of_db o2 = se_db (write_invoice id_ (with_verified_at (utc_now (of_db o))) (of_session o)))
    by (unfold of_db; by rewrite H2, <- H1).
  split_and!; try done.
  - rewrite Hdb. by apply (write_invoice_row id_ _ (of_session o)).
  - by rewrite Hdb.
  - congruence.
  - unfold lines_of. by rewrite Hdb.
  - intros -> Hst job p s Hj Hp Hjp Hf Hs Hin. unfold _unbilled_parts_for_invoice in Eu. rewrite Hj, bool_decide_eq_true_2 in Eu by done. cbn [negb] in Eu.
    destruct (List.filter _ (wk_parts (of_work o))) as [|y l0] eqn:Ef; [|done]. set (lined := omap il_part_id _) in Ef.
    destruct (existsb (N.eqb (jp_id p)) lined) eqn:El.
    + apply existsb_exists in El as (pid & Hpid & <-%N.eqb_eq). apply list_elem_of_In, list_elem_of_omap in Hpid as (l & Hl & Hlp).
      apply elem_of_filter_b in Hl as [Hl Hll]. apply get_invoice_id in Hi. rewrite Hi in Hll. by exists l.
    + exfalso. enough (p ∈ []) as Hnil by inversion Hnil. rewrite <- Ef. apply elem_of_filter_b. split; [done|].
      rewrite Hjp, N.eqb_refl, El. rewrite bool_decide_eq_true_2 by done. cbn [andb negb]. rewrite andb_true_r.
      apply existsb_exists. exists s. split; [by apply list_elem_of_In|]. unfold opt_eqb. by apply bool_decide_eq_true.
Qed.

(** * Witnesses *)

(** A draft with a lump-sum line of 350.00 recorded as two of 100.00, a line
    of attested hours and the line that nets a deposit of 50.00. *)
Definition draft_row (rate : option decimal) (locked : bool) : Invoice :=
  mk_invoice 7%N "INV-7" draft (Some (DFinite 40000 (-2))) (Some (DFinite 0 (-2))) (Some (DFinite 40000 (-2))) (Some 2%N) (Some 3%N)
    "co" (Some 738000) None None None (Some (DFinite 40000 (-2))) rate false None "standard" None None None locked.
Definition edit_lines : list InvoiceLine :=
  [mk_invoice_line 7%N (Some "doors") (Some (DFinite 35000 (-2))) None None true (DFinite 2 0) (DFinite 10000 (-2)) 1 (Some "manual") None None;
   mk_invoice_line 7%N (Some "labor") (Some (DFinite 10000 (-2))) (Some "Labor") None false (DFinite 1 0) (DFinite 10000 (-2)) 2 (Some ATTESTED) None None;
   mk_invoice_line 7%N (Some "Less deposit paid") (Some (DFinite (-5000) (-2))) (Some "Deposit") None false (DFinite 1 0) (DFinite (-5000) (-2)) 3
     (Some "deposit_credit") None None].
Definition edit_office (rate : option decimal) (locked : bool) : Office :=
  mk_office (mk_session (mk_db (mk_gl [] [] [] [] [] [] 100%N 0) (mk_ops [draft_row rate locked] edit_lines [] [] [] None 5 1 true)) ∅ [] ∅ [])
    (mk_sales [] [] [] [] [] [] [])
    (mk_work [visit_row 31%N (Some 7%N)] []
       [mk_part 41%N 2%N "spring" None (Some 1) (Some "used") "mobile" (Some (DFinite 8000 (-2))) None] [] [] [] [] []).

Definition edit_run (e : edit) (o : Office) : result unit * Office :=
  run_edit (W := toy_world) (fun _ _ => None) (mk_policy false true) 7%N "office" e o.

(** Three doors at 99.99. *)
Definition three_doors : edit :=
  PatchLine 0 (mk_line_patch None (Some (Some (DFinite 3 0))) (Some (Some (float_of_decimal (DFinite 9999 (-2))))) None None None None).

Lemma edits_need_an_open_draft_witness :
  exists o', edit_run (DeleteLine 2) (edit_office None false) = (Err (HTTPException 409), o') /\ same_tables (edit_office None false) o'.
Proof.
  eexists. split; [vm_compute; reflexivity|].
  exact (edits_need_an_open_draft (W := toy_world) (fun _ _ => None) (mk_policy false true) 7%N "office" (DeleteLine 2)
    (edit_office None false) (Err (HTTPException 409)) _ ltac:(vm_compute; reflexivity)).
Defined.

Lemma edits_settle_the_header_witness :
  exists o', edit_run three_doors (edit_office None false) = (Ok tt, o') /\
    get_invoice 7%N (of_db o') = Some (recalculated 34997 0 34997 34997 (draft_row None false)).
Proof.
  eexists. split; [vm_compute; reflexivity|].
  refine (edits_settle_the_header (W := toy_world) (fun _ _ => None) (mk_policy false true) 7%N "office" three_doors
    (edit_office None false) _ (draft_row None false) (draft_row None false)
    {| s_lines := 34997; s_taxable := 29997; s_paid := 0; s_credited := 0 |} 34997 0 34997 34997 _ _ _ _ _ _);
    [vm_compute; reflexivity|discriminate|reflexivity|reflexivity|vm_compute; reflexivity|reflexivity].
Defined.

Lemma edited_line_priced_witness :
  exists o' line, edit_run three_doors (edit_office None false) = (Ok tt, o') /\ lines_of o' !! O = Some line /\
    il_line_total line = Some (DFinite 29997 (-2)).
Proof.
  eexists _, _. split; [vm_compute; reflexivity|]. split; [reflexivity|].
  exact (edited_line_priced (W := toy_world) (fun _ _ => None) (mk_policy false true) 7%N "office" three_doors (edit_office None false) _ O _ 3 0 9999
    ltac:(vm_compute; reflexivity) eq_refl eq_refl eq_refl eq_refl ltac:(lia) ltac:(lia) ltac:(lia)).
Defined.

Lemma sent_only_if_verified_witness :
  exists s', mark_invoice_sent (W := toy_world) 7%N "office" (of_session (edit_office None false)) = (Err (HTTPException 409), s') /\
    se_db s' = of_db (edit_office None false).
Proof.
  eexists. split; [vm_compute; reflexivity|].
  exact (sent_only_if_verified (W := toy_world) 7%N "office" (of_session (edit_office None false)) (Err (HTTPException 409)) _
    ltac:(vm_compute; reflexivity)).
Defined.

Lemma verification_accounts_for_parts_witness :
  exists o', verify_invoice 7%N false (edit_office None false) = (Err (HTTPException 409), o') /\ same_tables (edit_office None false) o'.
Proof.
  eexists. split; [vm_compute; reflexivity|].
  exact (verification_accounts_for_parts (W := toy_world) 7%N false (edit_office None false) (Err (HTTPException 409)) _
    ltac:(vm_compute; reflexivity)).
Defined.

(** * Where the handlers part from their comments *)

(** A new description sent with the stored quantity and price, as the detail
    screen sends every PATCH, rewrites the total of a line that was never
    quantity times price: 350.00 becomes 200.00 and the invoice 250.00. *)
Lemma description_edit_reprices :
  exists o', edit_run (PatchLine 0 (mk_line_patch (Some "two doors") (Some (Some (DFinite 2 0))) (Some (Some (float_of_int 100))) None None None None))
      (edit_office None false) = (Ok tt, o') /\
    option_map il_line_total (lines_of o' !! O) = Some (Some (DFinite 20000 (-2))) /\
    option_map inv_total (get_invoice 7%N (of_db o')) = Some (Some (DFinite 25000 (-2))).
Proof. eexists. split; [vm_compute; reflexivity|]. split; reflexivity. Qed.

(** A PATCH with a rate and a tax amount: the amount is lost to the rate. *)
Lemma tax_override_lost :
  exists o', edit_run (PatchHeader (mk_patch (Some (Some (float_of_decimal (DFinite 7 (-2))))) (Some (float_of_int 5)) None))
      (edit_office None false) = (Ok tt, o') /\
    option_map inv_tax_amount (get_invoice 7%N (of_db o')) = Some (Some (DFinite 2450 (-2))).
Proof. eexists. split; [vm_compute; reflexivity|]. reflexivity. Qed.

(** A locked draft refuses a line edit but takes a new tax rate, which moves
    its total. *)
Lemma locked_header_edited :
  exists o1 o2, edit_run three_doors (edit_office None true) = (Err (HTTPException 409), o1) /\
    edit_run (PatchHeader (mk_patch (Some (Some (float_of_decimal (DFinite 7 (-2))))) None None)) (edit_office None true) = (Ok tt, o2) /\
    option_map inv_total (get_invoice 7%N (of_db o2)) = Some (Some (DFinite 42450 (-2))).
Proof. eexists _, _. split; [vm_compute; reflexivity|]. split; [vm_compute; reflexivity|]. reflexivity. Qed.
