(* ===== verification/HoursSpec.v ===== *)
(** Hours are held only where they are billed: an invariant of the day rows
    and closeouts that creating an invoice, every edit of a draft and the void
    keep between them. *)

From S2P Require Import Prelude PyStr Dates Money PyNum StrFloat TaxFloat Models PayPeriods Keys Coa Engine Service RulesBase Opening Issuance Payments Adjustments RulesSafe Chokepoint InvoiceTotals Estimates InvoiceGuard MoneyRoutes Deposits Closeouts Billing CloseoutSpec DepositSpec BillingSafe PaymentPlans InvoiceEdits VoidSpec EditSpec.

Local Open Scope Z_scope.

(** * Hours an invoice holds *)

(** An invoice that holds hours bills attested ones. *)
Definition hours_billed (o : Office) : Prop :=
  forall inv i, time_held inv i (of_work o) \/ hours_held inv i (of_work o) -> attested_left inv (lines_of o) = true.

Lemma attested_app inv a b : attested_left inv (a ++ b) = attested_left inv a || attested_left inv b.
Proof. unfold attested_left. by rewrite existsb_app. Qed.

Lemma held_after_stamps d id_ inv i w w' : stamps d id_ w w' -> inv <> id_ ->
  time_held inv i w' \/ hours_held inv i w' -> time_held inv i w \/ hours_held inv i w.
Proof.
  intros [H1 _ _ H4 _] Hne [(x & Hx & Hi & Hh)|(x & Hx & Hi & Hh)]; [left|right]; apply list_elem_of_lookup in Hx as [k Hk].
  - destruct (Forall2_lookup_r _ _ _ _ _ H1 Hk) as (y & Hy & [->|[_ ->]]).
    + exists y. split; [by apply list_elem_of_lookup; exists k|done].
    + rewrite holder_stamp in Hh. by injection Hh as ->.
  - destruct (Forall2_lookup_r _ _ _ _ _ H4 Hk) as (y & Hy & [->|[_ [m ->]]]).
    + exists y. split; [by apply list_elem_of_lookup; exists k|done].
    + cbn in Hh. by injection Hh as ->.
Qed.

Lemma attested_insert inv (ls : list InvoiceLine) k l y : ls !! k = Some l -> attested_left inv ls = true ->
  (is_live_line inv l && is_attested l = true -> is_live_line inv y && is_attested y = true) ->
  attested_left inv (<[k := y]> ls) = true.
Proof.
  unfold attested_left. rewrite !existsb_exists. intros Hk (x & Hx & Hp) Hy. apply list_elem_of_In, list_elem_of_lookup in Hx as [j Hj].
  destruct (decide (j = k)) as [->|Hne].
  - rewrite Hk in Hj. injection Hj as ->. exists y. split; [|auto]. apply list_elem_of_In, list_elem_of_lookup. exists k.
    apply list_lookup_insert_eq. by eapply lookup_lt_Some.
  - exists x. split; [|done]. apply list_elem_of_In, list_elem_of_lookup. exists j. by rewrite list_lookup_insert_ne.
Qed.

Lemma freed_unheld {A} `{!Stamped A} `{!Freed A} (p : A -> bool) inv i (l : list A) :
  held_by inv i (update_where p freed l) -> held_by inv i l.
Proof.
  intros (x & (y & Hy & E)%elem_of_update_where & Hi & Hh). exists y. destruct (p y); subst; [by rewrite holder_freed in Hh|done].
Qed.

Lemma closeout_unheld inv inv' i l :
  closeout_held inv i (update_where (fun c => opt_eqb (jc_billed_invoice_id c) (Some inv')) without_holder l) ->
  closeout_held inv i l /\ inv <> inv'.
Proof.
  intros (x & (y & Hy & E)%elem_of_update_where & Hi & Hh). destruct (opt_eqb (jc_billed_invoice_id y) (Some inv')) eqn:Eh; subst; [done|].
  split; [by exists y|]. intros ->. unfold opt_eqb in Eh. apply bool_decide_eq_false in Eh. done.
Qed.

Lemma time_unheld inv inv' i (l : list TimeEntry) : held_by inv i (update_where (holds inv') freed l) -> held_by inv i l /\ inv <> inv'.
Proof.
  intros (x & (y & Hy & E)%elem_of_update_where & Hi & Hh). destruct (holds inv' y) eqn:Eh; subst; [by rewrite holder_freed in Hh|].
  split; [by exists y|]. intros ->. unfold holds, opt_eqb in Eh. apply bool_decide_eq_false in Eh. done.
Qed.

Lemma released_unheld id_ inv i w : time_held inv i (released_work id_ w) \/ hours_held inv i (released_work id_ w) ->
  (time_held inv i w \/ hours_held inv i w) /\ inv <> id_.
Proof. intros [[H ?]%time_unheld|[H ?]%closeout_unheld]; split; auto. Qed.

Lemma less_line_unheld id_ l last inv i w : time_held inv i (work_less_line id_ l last w) \/ hours_held inv i (work_less_line id_ l last w) ->
  (time_held inv i w \/ hours_held inv i w) /\ (last = true -> inv <> id_).
Proof.
  unfold work_less_line. set (w1 := match il_part_id l with Some _ => _ | None => w end).
  assert (E : wk_time_entries w1 = wk_time_entries w /\ wk_closeouts w1 = wk_closeouts w) by (unfold w1; by destruct (il_part_id l)).
  clearbody w1. destruct E as [E1 E2]. unfold time_held, hours_held. destruct last; cbn; rewrite ?E1, ?E2; [|auto].
  intros [[H ?]%time_unheld|[H ?]%closeout_unheld]; auto.
Qed.

(** Claimed hours come with an attested line. *)
Lemma unclaimed_rows `{W : World} id_ job o n o' : _claim_labor_day_rows id_ job None o = (Ok n, o') -> o' = o.
Proof. by intros [_ <-]%pair_equal_spec. Qed.

Lemma line_claims `{W : World} str_format policy id_ p actor o line w o' i :
  add_invoice_line str_format policy id_ p actor o = (Ok (line, w), o') -> is_attested line = false ->
  time_held id_ i (of_work o') \/ hours_held id_ i (of_work o') -> time_held id_ i (of_work o) \/ hours_held id_ i (of_work o).
Proof.
  intros H Ha. assert (Hnone : li_time_entry_ids p = None /\ li_closeout_id p = None).
  { apply add_line_Ok in H as (? & ? & ? & ? & _ & _ & -> & _). unfold is_attested, hand_line in Ha. cbn [il_pricing_source] in Ha.
    unfold _hand_line_pricing_source in Ha. destruct (li_time_entry_ids p), (li_closeout_id p); try done. }
  destruct Hnone as [N1 N2]. unfold add_invoice_line in H. destruct (negb _); [done|]. apply atomically_ok in H.
  apply mseq_Ok in H as (iv & ? & (-> & _)%get_Ok & H). destruct (negb _); [done|].
  do 5 (apply mseq_Ok in H as (? & ? & [_ <-]%pair_equal_spec & H)). cbv zeta in H.
  apply mseq_Ok in H as (? & o1 & H1 & H). assert (W1 : of_work o1 = of_work o).
  { unfold add_priced_line in H1. destruct (lane_of _); [|done]. by apply on_session_inv in H1 as (_ & -> & _). }
  apply mseq_Ok in H as (? & o2 & H2 & H). assert (W2 : wk_time_entries (of_work o2) = wk_time_entries (of_work o1) /\ wk_closeouts (of_work o2) = wk_closeouts (of_work o1)).
  { unfold claim_line_part in H2. destruct (li_part_id p); [|by apply pair_equal_spec in H2 as [_ <-]].
    apply mseq_Ok in H2 as (b & ? & [[= <-] <-]%pair_equal_spec & H2). apply mseq_Ok in H2 as (? & ? & [_ <-]%pair_equal_spec & H2).
    destruct (existsb _ _); [|done]. by apply pair_equal_spec in H2 as [_ <-]. }
  rewrite N1, N2 in H. apply mseq_Ok in H as (? & ? & ->%unclaimed_rows & H). apply mseq_Ok in H as (? & ? & [_ <-]%pair_equal_spec & H).
  apply finish_edit in H as (_ & _ & _ & Hw & _). unfold time_held, hours_held. rewrite Hw. destruct W2 as [-> ->]. by rewrite W1.
Qed.

Lemma edit_keeps_hours `{W : World} str_format policy id_ actor e o r o'
    (Hinv : hours_billed o) (Hrun : run_edit str_format policy id_ actor e o = (r, o')) : hours_billed o'.
Proof.
  destruct r as [[]|x].
  2:{ destruct (edit_refused _ _ _ _ _ _ _ _ Hrun) as (H1 & H2 & _). unfold hours_billed, lines_of. by rewrite H1, H2. }
  intros inv h Hh. destruct e as [p|k u|k|u|]; cbn [run_edit] in Hrun; try apply seq_unit_ok in Hrun as [z H].
  - destruct z as [line w]. pose proof H as Hadd. apply add_line_Ok in H as (i & o1 & ? & ? & Hle & Hl & Hlin & _ & _ & _ & Hb).
    destruct (line_edit_frame _ _ _ _ _ _ Hle) as (F1 & _). destruct Hle as [[Hi Hd] Ho _ _ _ [Hw _]]. rewrite F1, Hl, attested_app.
    apply orb_true_iff. destruct (decide (inv = id_)) as [->|Hne].
    + destruct (is_attested line) eqn:Ea.
      { right. cbn. rewrite Ea, orb_false_r, andb_true_r. rewrite Hlin. unfold is_live_line. cbn. by rewrite N.eqb_refl. }
      left. apply (Hinv id_ h). by eapply line_claims.
    + left. apply (Hinv inv h). rewrite Hw in Hh. destruct Hb as (_ & _ & Hb).
      assert (Hlive : live_invoice (of_db o) id_ = true).
      { unfold live_invoice. apply existsb_exists. exists i. apply List.find_some in Hi as [Hin Hid]. split; [done|]. rewrite Hid. unfold is_live. rewrite Hd.
        apply andb_true_iff in Ho as [_ Ho%bool_decide_eq_true]. by rewrite Ho. }
      by eapply held_after_stamps; [apply Hb|..].
  - apply patch_line_Ok in H as (i & o1 & l & Hle & Hl & Hll & _ & _ & Hp & Hls & Hw1).
    destruct (line_edit_frame _ _ _ _ _ _ Hle) as (F1 & _). destruct Hle as [_ _ _ _ _ [Hw _]]. rewrite F1, Hls. rewrite Hw, Hw1 in Hh.
    apply (attested_insert inv _ k l); [done|by apply (Hinv inv h)|]. destruct (patched_invoice _ _ _ Hp) as (E1 & E2 & _ & E3).
    unfold is_live_line. rewrite E1, E2. rewrite !andb_true_iff. intros [H1 H2]. auto.
  - apply delete_line_Ok in H as (i & o1 & l & Hle & Hl & Hll & _ & Hls & Hw1).
    destruct (line_edit_frame _ _ _ _ _ _ Hle) as (F1 & _). destruct Hle as [_ _ _ _ _ [Hw _]]. rewrite Hw, Hw1 in Hh. rewrite F1.
    apply less_line_unheld in Hh as [Hh Hlast]. destruct (decide (inv = id_)) as [->|Hne].
    + destruct (attested_left id_ (lines_of o1)) eqn:Ea; [done|]. destruct (is_attested l) eqn:El; [by destruct (Hlast eq_refl)|].
      rewrite <- Ea, Hls. apply (attested_insert id_ _ k l); [done|by apply (Hinv id_ h)|]. by rewrite El, andb_false_r.
    + rewrite Hls. apply (attested_insert inv _ k l); [done|by apply (Hinv inv h)|]. destruct (live_line_id _ _ Hll) as [Hid _].
      unfold is_live_line at 1. rewrite Hid. by destruct (N.eqb_spec id_ inv) as [->|].
  - apply header_Ok in H as (i & s1 & _ & _ & _ & _ & _ & Hs1 & _ & Hr & Hw). rewrite Hw in Hh.
    assert (Hall : only_invoices (of_session o) (of_session o')) by (etrans; [exact Hs1|]; exact (keeps_run _ _ _ _ _ (recalculate_only id_ (Some actor)) Hr)).
    apply only_invoices_rows in Hall as [Hall _]. unfold other_rows in Hall. injection Hall as H1 _ _ _. unfold lines_of, of_db. rewrite H1. by apply (Hinv inv h).
  - apply delete_Ok in Hrun as (i & _ & _ & _ & _ & Hw & Hs). rewrite Hw in Hh. apply released_unheld in Hh as [Hh Hne].
    unfold lines_of, of_db. rewrite Hs. by apply (Hinv inv h).
Qed.

(** * Creating an invoice *)

(** Lines are only added, hours claimed only for [id_]. *)
Definition adds_lines (o o' : Office) : Prop := exists l, lines_of o' = lines_of o ++ l.
Definition claims_for (id_ : uuid) (o o' : Office) : Prop :=
  lines_of o' = lines_of o /\
  forall inv i, time_held inv i (of_work o') \/ hours_held inv i (of_work o') ->
    inv = id_ \/ (time_held inv i (of_work o) \/ hours_held inv i (of_work o)).
(** A step after which the lines still bill the hours. *)
Definition bills_hours (o o' : Office) : Prop := adds_lines o o' /\ (hours_billed o -> hours_billed o').

#[export] Instance adds_lines_preorder : PreOrder adds_lines.
Proof.
  split; [intros o; exists []; by rewrite app_nil_r|]. intros a b c [l1 H1] [l2 H2]. exists (l1 ++ l2). by rewrite H2, H1, app_assoc.
Qed.
#[export] Instance claims_for_preorder id_ : PreOrder (claims_for id_).
Proof.
  split; [intros o; split; auto|]. intros a b c [H1 H2] [G1 G2]. split; [congruence|]. intros inv i [->|H]%G2; [by left|by apply H2].
Qed.
#[export] Instance bills_hours_preorder : PreOrder bills_hours.
Proof. split; [intros o; split; [reflexivity|done]|]. intros a b c [H1 H2] [G1 G2]. split; [by etrans|auto]. Qed.

Lemma bills_same_work o o' : adds_lines o o' -> of_work o' = of_work o -> bills_hours o o'.
Proof.
  intros [l Hl] Hw. split; [by exists l|]. intros H inv i Hh. rewrite Hw in Hh. rewrite Hl, attested_app. by rewrite (H inv i Hh).
Qed.

Lemma bills_other_work (f : Work -> Work) o : wk_time_entries (f (of_work o)) = wk_time_entries (of_work o) ->
  wk_closeouts (f (of_work o)) = wk_closeouts (of_work o) -> bills_hours o (set_work f o).
Proof.
  intros H1 H2. split; [exists []; by rewrite app_nil_r|]. intros H inv i. unfold time_held, hours_held. cbn [set_work of_work].
  rewrite H1, H2. apply H.
Qed.

Lemma stamp_claims {A} `{!Stamped A} (p : A -> bool) id_ inv i (l : list A) :
  held_by inv i (update_where p (stamp id_) l) -> inv = id_ \/ held_by inv i l.
Proof.
  intros (x & (y & Hy & E)%elem_of_update_where & Hi & Hh). destruct (p y); subst; [|by right; exists y].
  left. rewrite holder_stamp in Hh. by injection Hh as ->.
Qed.

Lemma claim_claims p id_ m inv i l : closeout_held inv i (update_where p (with_claim id_ m) l) -> inv = id_ \/ closeout_held inv i l.
Proof.
  intros (x & (y & Hy & E)%elem_of_update_where & Hi & Hh). destruct (p y); subst; [|by right; exists y].
  left. cbn in Hh. by injection Hh as ->.
Qed.

Lemma time_claims p id_ o : claims_for id_ o (set_work (set_time_entries (update_where p (with_time_holder (Some id_)))) o).
Proof.
  split; [done|]. intros inv i [Hh|Hh]; [|by right; right].
  change (held_by inv i (update_where p (stamp id_) (wk_time_entries (of_work o)))) in Hh.
  destruct (stamp_claims p id_ inv i (wk_time_entries (of_work o)) Hh) as [->|H]; [by left|by right; left].
Qed.

Lemma hours_claims p id_ m o : claims_for id_ o (set_work (set_closeouts (update_where p (with_claim id_ m))) o).
Proof.
  split; [done|]. intros inv i [Hh|Hh]; [by right; left|].
  destruct (claim_claims p id_ m inv i (wk_closeouts (of_work o)) Hh) as [->|H]; [by left|by right; right].
Qed.

Ltac keep_claims :=
  repeat first
    [ progress cbv zeta | apply keeps_return; exact _ | apply keeps_raise; exact _ | apply keeps_lift; exact _
    | apply keeps_reads; exact _ | solve [intros ?; cbn; reflexivity]
    | apply keeps_seq; [exact _| |intros ?] | case_match ].

Section Creating.
Context `{W : World}.
Variable str_format : string -> labor_vars -> option string.

Lemma day_rows_claims id_ job ids : keeps (claims_for id_) (_claim_labor_day_rows id_ job ids).
Proof.
  unfold _claim_labor_day_rows, claim_day_rows. keep_claims.
  all: apply keeps_mwrite; intros o; apply time_claims.
Qed.

Lemma closeout_claims id_ c : keeps (claims_for id_) (claim_closeout_hours id_ c).
Proof.
  intros o. unfold claim_closeout_hours.
  match goal with |- claims_for _ _ (snd (?m o)) => enough (keeps (claims_for id_) m) as H by apply H end. keep_claims.
  apply keeps_mwrite. intros o1. apply hours_claims.
Qed.

Lemma labor_claims id_ job c man ids : keeps (claims_for id_) (_claim_labor_closeout str_format id_ job c man ids).
Proof.
  unfold _claim_labor_closeout, _refuse_restated_line_off_the_suggestion. keep_claims. apply closeout_claims.
Qed.

Lemma priced_line_hours l : keeps bills_hours (add_priced_line l).
Proof.
  unfold add_priced_line. case_match; [|apply keeps_raise, _]. intros o. apply bills_same_work; [by exists [l]|done].
Qed.

(** A line and the hours it claims. *)
Lemma hand_line_hours id_ job sort l : keeps bills_hours (add_hand_line str_format id_ job sort l).
Proof.
  unfold add_hand_line. do 2 (apply keeps_seq; [exact _|apply keeps_lift, _|intros ?]). set (line := hand_line _ _ _ _ _).
  intros o. unfold mseq at 1. pose proof (priced_line_hours line o) as H1. destruct (add_priced_line line o) as [[[]|e] o1] eqn:E1; [|exact H1].
  cbn [snd] in H1. etrans; [exact H1|]. clear H1. set (rest := mseq _ _).
  destruct (is_attested line) eqn:Ea.
  - assert (Hc : claims_for id_ o1 (snd (rest o1))).
    { enough (keeps (claims_for id_) rest) as H by apply H. unfold rest. apply keeps_seq; [exact _|apply day_rows_claims|intros ?].
      apply keeps_seq; [exact _|apply labor_claims|intros ?]. apply keeps_return, _. }
    destruct Hc as [Hl Hc]. split; [exists []; by rewrite app_nil_r|]. intros Hb inv i [->|H]%Hc; rewrite Hl; [|by apply (Hb inv i)].
    unfold add_priced_line in E1. destruct (lane_of line); [|done]. apply on_session_inv in E1 as (E1 & _).
    apply pair_equal_spec in E1 as [_ E1]. unfold lines_of, of_db. rewrite <- E1. cbn.
    change (attested_left id_ (op_invoice_lines (db_ops (se_db (of_session o))) ++ [line]) = true). rewrite attested_app.
    apply orb_true_iff. right. cbn. rewrite Ea. unfold is_live_line. cbn. by rewrite N.eqb_refl.
  - assert (Hn : li_time_entry_ids l = None /\ li_closeout_id l = None).
    { unfold is_attested, line, hand_line in Ea. cbn [il_pricing_source] in Ea. unfold _hand_line_pricing_source in Ea.
      destruct (li_time_entry_ids l), (li_closeout_id l); done. }
    destruct Hn as [N1 N2]. unfold rest. rewrite N1, N2. cbn. reflexivity.
Qed.

Ltac keep_hours :=
  repeat first
    [ progress cbv zeta | apply keeps_return; exact _ | apply keeps_raise; exact _ | apply keeps_lift; exact _
    | apply keeps_reads; exact _ | apply priced_line_hours | solve [intros ?; cbn; reflexivity]
    | apply keeps_seq; [exact _| |intros ?] | apply keeps_for; [exact _|intros ? _] | apply keeps_fold; [exact _|intros ? ?]
    | case_match ].

Lemma write_lines_hours id_ base p e : keeps bills_hours (write_lines str_format id_ base p e).
Proof.
  unfold write_lines. apply keeps_seq; [exact _| |intros _].
  { destruct e; [unfold copy_estimate, copy_line; keep_hours|]. apply keeps_seq; [exact _| |intros _; apply keeps_return, _].
    apply keeps_fold; [exact _|intros ? ?; apply hand_line_hours]. }
  apply keeps_seq; [exact _|unfold add_operator_discount; keep_hours|intros _].
  apply keeps_seq; [exact _| |intros _].
  - unfold bill_change_orders, copy_co_line, bill_lineless. keep_hours; intros o; by apply bills_other_work.
  - unfold claim_parts. keep_hours; intros o; by apply bills_other_work.
Qed.
(** ** The session's part of a creation *)

Definition adds_rows (s s' : Session) : Prop :=
  exists l, op_invoice_lines (db_ops (se_db s')) = op_invoice_lines (db_ops (se_db s)) ++ l.

#[local] Instance adds_rows_preorder : PreOrder adds_rows.
Proof.
  split; [intros o; exists []; by rewrite app_nil_r|]. intros a b c [l1 H1] [l2 H2]. exists (l1 ++ l2). by rewrite H2, H1, app_assoc.
Qed.

Lemma same_rows s s' : op_invoice_lines (db_ops (se_db s')) = op_invoice_lines (db_ops (se_db s)) -> adds_rows s s'.
Proof. intros H. exists []. by rewrite app_nil_r. Qed.

Lemma only_adds {A} (m : M Session A) : keeps only_invoices m -> keeps adds_rows m.
Proof. intros H s. apply same_rows. destruct (H s) as [l ->]. done. Qed.

Lemma sops_adds {A} (m : M Session A) : keeps sops m -> keeps adds_rows m.
Proof. intros H. apply only_adds, keeps_sops_only, H. Qed.

Lemma reads_adds {A} (f : Db -> A) : keeps adds_rows (on_db (mreads f)).
Proof. apply sops_adds, on_db_sops, keeps_reads, _. Qed.

Ltac keep_rows :=
  repeat first
    [ progress cbv zeta | apply keeps_return; exact _ | apply keeps_raise; exact _ | apply keeps_lift; exact _ | apply reads_adds
    | apply only_adds, recalculate_only | apply only_adds, transition_only
    | apply sops_adds, on_db_sops, post_credit_memo_keeps; exact _ | apply sops_adds, on_db_sops, resettle_keeps; exact _
    | apply sops_adds, on_ledger_sops, reverse_invoice_adjustments_keeps; exact _
    | apply sops_adds, on_ledger_sops, settle_opening_on_void_keeps; exact _
    | apply keeps_mwrite; intros ?; apply same_rows; reflexivity
    | solve [intros ?; apply same_rows; reflexivity]
    | apply keeps_seq; [exact _| |intros ?] | apply keeps_fold; [exact _|intros ? ?] | case_match ].

Lemma deposits_rows id_ actor : keeps adds_rows (apply_deposits_to_final id_ actor).
Proof.
  unfold apply_deposits_to_final, supersede_deposit, credit_remainder, new_adjustment, void_postings, net_deposit, reread. keep_rows.
  intros s. eexists [_]. reflexivity.
Qed.

Lemma flush_rows_kept fallback i s r s' : flush_invoice_with_number_retry [] fallback i (fun _ => None) s = (r, s') -> adds_rows s s'.
Proof.
  unfold flush_invoice_with_number_retry, insert_invoice. destruct (existsb _ _).
  - unfold mseq, mwrite, on_db, mreads. cbv iota beta. destruct (existsb _ _); intros [_ <-]%pair_equal_spec; by apply same_rows.
  - intros [_ <-]%pair_equal_spec. by apply same_rows.
Qed.

Lemma fresh_rows s r s' : on_db fresh_uuid s = (r, s') -> adds_rows s s'.
Proof. intros [_ <-]%pair_equal_spec. by apply same_rows. Qed.

Lemma finish_rows id_ p i actor : keeps adds_rows (finish_invoice id_ p i actor).
Proof.
  unfold finish_invoice. apply keeps_seq; [exact _|apply reads_adds|intros ?].
  apply keeps_seq; [exact _|case_match; [apply deposits_rows|apply keeps_return, _]|intros ?]. keep_rows.
Qed.

Lemma on_session_hours {A} (m : M Session A) o r o' : (forall r s', m (of_session o) = (r, s') -> adds_rows (of_session o) s') ->
  on_session m o = (r, o') -> bills_hours o o'.
Proof.
  intros Hm (H & Hw & _)%on_session_inv. apply bills_same_work; [|done]. destruct (Hm _ _ H) as [l Hl]. by exists l.
Qed.

Lemma create_keeps_hours policy races base tenant_id fallback actor p o r o' :
  create_invoice str_format policy races base tenant_id fallback actor p o = (r, o') -> hours_billed o -> hours_billed o'.
Proof.
  assert (Hrows : forall x o1 r o', write_invoice_rows str_format base fallback actor p x o1 = (r, o') -> bills_hours o1 o').
  { intros x o1 r0 o2 H. unfold write_invoice_rows in H. unfold mseq at 1 in H.
    destruct (on_session (on_db fresh_uuid) o1) as [[id_|e] o3] eqn:E3;
      pose proof (on_session_hours _ _ _ _ (fun r s' E => fresh_rows _ _ _ E) E3) as H3;
      [|apply pair_equal_spec in H as [_ <-]; exact H3].
    etrans; [exact H3|]. clear H3 E3. unfold mseq at 1 in H.
    destruct (on_session (flush_invoice_with_number_retry [] fallback (pr_row x id_) (fun _ => None)) o3) as [[fl|e] o4] eqn:E4;
      pose proof (on_session_hours _ _ _ _ (fun r s' E => flush_rows_kept _ _ _ _ _ E) E4) as H4;
      [|apply pair_equal_spec in H as [_ <-]; exact H4].
    etrans; [exact H4|]. clear H4 E4. destruct fl as [w|i]; [by apply pair_equal_spec in H as [_ <-]|].
    match type of H with ?m o4 = _ => enough (keeps bills_hours m) as Hk by (specialize (Hk o4); by rewrite H in Hk) end.
    apply keeps_seq; [exact _|apply write_lines_hours|intros _].
    apply keeps_seq; [exact _| |intros net].
    { intros o5. destruct (on_session (finish_invoice id_ p i actor) o5) as [r5 o6] eqn:E5. refine (on_session_hours _ _ _ _ _ E5).
      intros r6 s' E. exact (keeps_run _ _ _ _ _ (finish_rows id_ p i actor) E). }
    apply keeps_seq; [exact _| |intros j; apply keeps_return, _].
    intros o5. destruct (on_session (reread id_ i) o5) as [r5 o6] eqn:E5. refine (on_session_hours _ _ _ _ _ E5).
    intros r6 s' E. exact (keeps_run _ _ _ _ _ (reads_adds _) E). }
  unfold create_invoice. destruct (negb (valid_create p)); [by intros [_ <-]%pair_equal_spec|].
  unfold mseq at 1. destruct (prepare policy tenant_id fallback p (of_sales o) (of_db o)) as [x|e]; [|by intros [_ <-]%pair_equal_spec].
  unfold mseq, on_session at 1, mwrite. cbv iota beta. set (o1 := set_session _ o).
  assert (H1 : bills_hours o o1) by (apply bills_same_work; [by exists []; rewrite app_nil_r|done]).
  unfold atomically. destruct (write_invoice_rows _ _ _ _ _ _ o1) as [[z|e] o2] eqn:E; intros [_ <-]%pair_equal_spec Hb.
  - apply (Hrows _ _ _ _ E). by apply H1.
  - destruct o as [[] ? ?]. exact Hb.
Qed.
End Creating.

(** * Every way an invoice takes or returns hours *)

Lemma void_keeps_hours `{W : World} id_ actor k r k' : void_invoice id_ actor k = (r, k') -> hours_billed (dk_office k) -> hours_billed (dk_office k').
Proof.
  destruct r as [v|e].
  - intros (i & s' & _ & _ & H)%void_steps Hb. destruct (vr_already_void v); [by destruct H as [_ ->]|].
    destruct H as (Hc & Hs & Hw & _). apply choke_void_Ok in Hc as (j & _ & _ & _ & _ & _ & Ho). intros inv i0 Hh. rewrite Hw in Hh.
    apply released_unheld in Hh as [Hh _]. unfold lines_of, of_db. rewrite Hs. destruct Ho as [l ->]. by apply (Hb inv i0).
  - intros (H1 & H2 & _)%desk_request_err Hb. unfold hours_billed, lines_of in *. change (of_db (dk_office k')) with (dk_db k'). rewrite H1, H2. exact Hb.
Qed.

Inductive hours_step `{W : World} (str_format : string -> labor_vars -> option string) : Desk -> Desk -> Prop :=
  | hours_create policy races base tenant_id fallback actor p k r o' :
      create_invoice str_format policy races base tenant_id fallback actor p (dk_office k) = (r, o') ->
      hours_step str_format k (mk_desk o' (dk_plans k))
  | hours_edit policy id_ actor e k r o' : run_edit str_format policy id_ actor e (dk_office k) = (r, o') ->
      hours_step str_format k (mk_desk o' (dk_plans k))
  | hours_void id_ actor k r k' : void_invoice id_ actor k = (r, k') -> hours_step str_format k k'.

(** C13: hours are held only where they are billed.  If every invoice that
    holds day rows or a closeout's hours has a live line of attested hours,
    then so it is after any sequence of invoices created, drafts edited and
    invoices voided, whatever the outcome of each: hours are claimed with an
    attested line, no patch turns it into another lane, the last such line to
    go gives the hours back, and so do a deletion and a void. *)
Theorem held_hours_stay_billed `{W : World} str_format k k'
    (Hinv : hours_billed (dk_office k)) (Hsteps : rtc (hours_step str_format) k k') : hours_billed (dk_office k').
Proof.
  induction Hsteps as [|k k1 k2 Hs _ IH]; [done|]. apply IH.
  destruct Hs as [policy races base tenant_id fallback actor p k r o' H|policy id_ actor e k r o' H|id_ actor k r k1 H].
  - by eapply create_keeps_hours.
  - by eapply edit_keeps_hours.
  - by eapply void_keeps_hours.
Qed.

(** * Witness *)

(** Deleting the only attested line gives its day row back. *)
Lemma held_hours_stay_billed_witness :
  exists k', rtc (hours_step (W := toy_world) (fun _ _ => None)) (mk_desk (edit_office None false) (mk_plans None [] [])) k' /\
    map tm_billed_invoice_id (wk_time_entries (of_work (dk_office k'))) = [None] /\ hours_billed (dk_office k').
Proof.
  assert (Hb : hours_billed (edit_office None false)).
  { intros inv i [(x & Hx & _ & Hh)|(x & Hx & _ & Hh)]; [|inversion Hx]. apply list_elem_of_singleton in Hx as ->. injection Hh as <-. reflexivity. }
  assert (Hs : exists o', edit_run (DeleteLine 1) (edit_office None false) = (Ok tt, o') /\
    map tm_billed_invoice_id (wk_time_entries (of_work o')) = [None]) by (eexists; split; [vm_compute; reflexivity|reflexivity]).
  destruct Hs as (o' & Hs & Hr). exists (mk_desk o' (mk_plans None [] [])).
  assert (Hrtc : rtc (hours_step (W := toy_world) (fun _ _ => None)) (mk_desk (edit_office None false) (mk_plans None [] [])) (mk_desk o' (mk_plans None [] []))).
  { eapply rtc_l; [|apply rtc_refl].
    exact (hours_edit (W := toy_world) (fun _ _ => None) (mk_policy false true) 7%N "office" (DeleteLine 1) (mk_desk (edit_office None false) (mk_plans None [] [])) _ _ Hs). }
  split; [exact Hrtc|]. split; [exact Hr|].
  exact (held_hours_stay_billed (W := toy_world) (fun _ _ => None) (mk_desk (edit_office None false) (mk_plans None [] [])) _ Hb Hrtc).
Defined.
