(* ===== verification/DecOrder.v ===== *)
(** Decimals as ordered numbers and as rationals: comparison is an order, the
    text a float prints as keeps the order of floats, and every operation of
    the 28-digit context is within [10^-27] of the exact result, relatively. *)

From S2P Require Import Prelude PyStr Money PyNum StrFloat TaxFloat.
From Stdlib Require Import QArith Qabs Qfield Lqa Setoid SetoidTactics.

Local Open Scope Z_scope.

(** * Rounding is monotone *)

Lemma round_at_mono q r r' d : 0 < d -> r <= r' -> round_at q r d <= round_at q r' d.
Proof.
  intros Hd Hr. unfold round_at.
  destruct (Z.ltb_spec (2 * r) d), (Z.ltb_spec (2 * r') d), (Z.ltb_spec d (2 * r)), (Z.ltb_spec d (2 * r')); try lia;
    destruct (Z.even q); lia.
Qed.

Lemma round_at_bounds q r d : q <= round_at q r d <= q + 1.
Proof. unfold round_at. repeat case_if; lia. Qed.

Lemma round_even_mono n d n' d' : 0 < d -> 0 < d' -> n * d' <= n' * d -> round_even n d <= round_even n' d'.
Proof.
  intros Hd Hd' H. rewrite <- (round_even_scale n d d'), <- (round_even_scale n' d' d), (Z.mul_comm d' d) by done.
  set (D := d * d') in *. assert (0 < D) by (unfold D; nia). unfold round_even.
  set (a := n * d') in *. set (b := n' * d) in *. clearbody a b D.
  destruct (Z.eq_dec (a / D) (b / D)) as [E|E].
  - rewrite E. apply round_at_mono; [done|]. rewrite !Z.mod_eq by lia. rewrite E. lia.
  - pose proof (Z.div_le_mono a b D ltac:(lia) H).
    pose proof (round_at_bounds (a / D) (a mod D) D). pose proof (round_at_bounds (b / D) (b mod D) D). lia.
Qed.

(** The exponent of the last bit kept. *)
Definition last_bit (n d : Z) : Z := Z.max 0 (Z.log2 (Z.abs n * least / d) - 52).

Lemma last_bit_above n d : 0 <= n -> 0 < d -> n * least <= 2 ^ (last_bit n d + 53) * d.
Proof.
  intros Hn Hd. unfold last_bit. rewrite (Z.abs_eq n) by done. set (e := Z.max 0 _).
  pose proof (Z.pow_pos_nonneg 2 (e + 53) ltac:(lia) ltac:(lia)) as Hp.
  pose proof (Z.div_mod (n * least) d ltac:(lia)). pose proof (Z.mod_pos_bound (n * least) d Hd).
  destruct (Z.le_gt_cases (n * least / d) 0) as [H1|H1]; [nia|].
  pose proof (proj2 (Z.log2_spec _ H1)) as Hl.
  assert (2 ^ Z.succ (Z.log2 (n * least / d)) <= 2 ^ (e + 53)) by (apply Z.pow_le_mono_r; lia). nia.
Qed.

Lemma last_bit_below n d : 0 <= n -> 0 < d -> 0 < last_bit n d -> 2 ^ (last_bit n d + 52) * d <= n * least.
Proof.
  intros Hn Hd. unfold last_bit. rewrite (Z.abs_eq n) by done. intros He. rewrite Z.max_r in * by lia.
  replace (Z.log2 (n * least / d) - 52 + 52) with (Z.log2 (n * least / d)) by lia.
  destruct (Z.le_gt_cases (n * least / d) 0) as [H1|H1]; [rewrite Z.log2_nonpos in He by done; lia|].
  pose proof (proj1 (Z.log2_spec _ H1)). pose proof (Z.mul_div_le (n * least) d Hd). nia.
Qed.

Lemma last_bit_mono n d n' d' : 0 <= n -> 0 < d -> 0 < d' -> n * d' <= n' * d -> last_bit n d <= last_bit n' d'.
Proof.
  intros Hn Hd Hd' H. unfold last_bit. assert (0 <= n') by nia. rewrite !Z.abs_eq by done. pose proof least_pos.
  apply Z.max_le_compat_l. apply Z.sub_le_mono_r, Z.log2_le_mono. apply Z.div_le_lower_bound; [done|].
  set (q := n * least / d). pose proof (Z.mul_div_le (n * least) d Hd) as Hq. fold q in Hq.
  apply (Z.mul_le_mono_pos_r _ _ d); [done|].
  transitivity (n * least * d'); [clearbody q; nia|]. nia.
Qed.

Lemma float_mono n d n' d' v v' : 0 <= n -> 0 < d -> 0 < d' -> n * d' <= n' * d ->
  float_of_ratio n d = FNum v -> float_of_ratio n' d' = FNum v' -> v <= v'.
Proof.
  intros Hn Hd Hd' H. rewrite !float_of_ratio_eq by done. unfold nearest_float.
  fold (last_bit n d). fold (last_bit n' d'). assert (Hn' : 0 <= n') by nia.
  pose proof (last_bit_mono n d n' d' Hn Hd Hd' H) as He.
  pose proof (last_bit_above n d Hn Hd) as Ha. pose proof (last_bit_below n' d' Hn' Hd') as Hb.
  set (e := last_bit n d) in *. set (e' := last_bit n' d') in *. assert (He0 : 0 <= e) by (unfold e, last_bit; lia).
  clearbody e e'. pose proof (Z.pow_pos_nonneg 2 e ltac:(lia) He0) as He1.
  pose proof (Z.pow_pos_nonneg 2 e' ltac:(lia) ltac:(lia)) as He2. pose proof least_pos as HL.
  do 2 case_if; try done. intros [= <-] [= <-]. clear E E0. destruct (Z.eq_dec e e') as [->|Hne].
  { apply Z.mul_le_mono_nonneg_r; [lia|]. apply round_even_mono; [by apply Z.mul_pos_pos..|].
    replace (n * least * (d' * 2 ^ e')) with (n * d' * (least * 2 ^ e')) by ring.
    replace (n' * least * (d * 2 ^ e')) with (n' * d * (least * 2 ^ e')) by ring.
    apply Z.mul_le_mono_nonneg_r; [|done]. apply Z.mul_nonneg_nonneg; lia. }
  transitivity (2 ^ 53 * 2 ^ e).
  { apply Z.mul_le_mono_nonneg_r; [lia|]. rewrite <- (round_even_exact (2 ^ 53) 1) by done.
    apply round_even_mono; [by apply Z.mul_pos_pos|done|]. rewrite Z.pow_add_r in Ha by lia. lia. }
  transitivity (2 ^ 52 * 2 ^ e').
  { rewrite <- !Z.pow_add_r by lia. apply Z.pow_le_mono_r; lia. }
  apply Z.mul_le_mono_nonneg_r; [lia|]. rewrite <- (round_even_exact (2 ^ 52) 1) by done.
  apply round_even_mono; [done|by apply Z.mul_pos_pos|]. specialize (Hb ltac:(lia)). rewrite Z.pow_add_r in Hb by lia. lia.
Qed.

(** * Comparison of decimals *)

Definition dec_le (x y : decimal) : Prop := dec_leb x y = Ok true.
Definition dec_lt (x y : decimal) : Prop := dec_ltb x y = Ok true.
Definition is_num (x : decimal) : Prop := x <> DNaN.

Lemma aligned c e m : m <= e -> dnum c e * dden m = dnum (c * 10 ^ (e - m)) m * dden e.
Proof.
  intros H. unfold dnum, dden. rewrite <- !Z.mul_assoc. f_equal. rewrite <- !Z.pow_add_r by lia. f_equal. lia.
Qed.

Lemma dec_compare_finite c e c' e' :
  dec_compare (DFinite c e) (DFinite c' e') = Ok (dnum c e * dden e' ?= dnum c' e' * dden e).
Proof.
  cbn [dec_compare]. f_equal. set (m := Z.min e e').
  pose proof (aligned c e m ltac:(lia)) as H1. pose proof (aligned c' e' m ltac:(lia)) as H2.
  set (a := c * 10 ^ (e - m)) in *. set (b := c' * 10 ^ (e' - m)) in *.
  pose proof (dden_pos e). pose proof (dden_pos e'). pose proof (dden_pos m).
  assert (Ha : dnum a m = a * 10 ^ Z.max 0 m) by done. assert (Hb : dnum b m = b * 10 ^ Z.max 0 m) by done.
  pose proof (Z.pow_pos_nonneg 10 (Z.max 0 m) ltac:(lia) ltac:(lia)) as Hp. rewrite Ha in H1. rewrite Hb in H2.
  set (P := 10 ^ Z.max 0 m) in *. clearbody a b P. clear Ha Hb.
  set (E := dden e) in *. set (E' := dden e') in *. set (Mm := dden m) in *. clearbody E E' Mm.
  set (u := dnum c e) in *. set (w := dnum c' e') in *. clearbody u w.
  symmetry. destruct (Z.compare_spec a b) as [->|Hl|Hg].
  - apply Z.compare_eq_iff. apply (Z.mul_reg_r _ _ Mm); [lia|].
    rewrite <- !Z.mul_assoc, (Z.mul_comm E' Mm), (Z.mul_comm E Mm), !Z.mul_assoc, H1, H2. ring.
  - apply Z.compare_lt_iff. apply (Z.mul_lt_mono_pos_r Mm); [lia|].
    replace (u * E' * Mm) with (a * P * E * E') by (rewrite <- H1; ring).
    replace (w * E * Mm) with (b * P * E' * E) by (rewrite <- H2; ring).
    replace (b * P * E' * E) with (b * P * E * E') by ring.
    repeat (apply Z.mul_lt_mono_pos_r; [done|]). done.
  - apply Z.compare_gt_iff. apply (Z.mul_lt_mono_pos_r Mm); [lia|].
    replace (u * E' * Mm) with (a * P * E * E') by (rewrite <- H1; ring).
    replace (w * E * Mm) with (b * P * E' * E) by (rewrite <- H2; ring).
    replace (b * P * E' * E) with (b * P * E * E') by ring.
    repeat (apply Z.mul_lt_mono_pos_r; [done|]). done.
Qed.

Lemma dec_le_finite c e c' e' : dec_le (DFinite c e) (DFinite c' e') <-> dnum c e * dden e' <= dnum c' e' * dden e.
Proof.
  unfold dec_le, dec_leb. rewrite dec_compare_finite. cbn [rbind]. unfold Z.le.
  destruct (_ ?= _); split; intros; congruence.
Qed.

Lemma dec_lt_finite c e c' e' : dec_lt (DFinite c e) (DFinite c' e') <-> dnum c e * dden e' < dnum c' e' * dden e.
Proof.
  unfold dec_lt, dec_ltb. rewrite dec_compare_finite. cbn [rbind]. unfold Z.lt.
  destruct (_ ?= _); split; intros; congruence.
Qed.

(** Numbers compare one way or the other. *)
Lemma dec_cases x y : is_num x -> is_num y ->
  dec_le x y /\ dec_ltb y x = Ok false \/ dec_lt y x /\ dec_leb x y = Ok false.
Proof.
  unfold is_num, dec_le, dec_lt, dec_leb, dec_ltb. destruct x as [c e|s|], y as [c' e'|t|]; try done; intros _ _.
  - rewrite !dec_compare_finite. cbn [rbind]. rewrite (Z.compare_antisym (dnum c e * dden e')).
    destruct (_ ?= _); cbn; auto.
  - cbn. destruct t; cbn; auto.
  - cbn. destruct s; cbn; auto.
  - destruct s, t; cbn; auto.
Qed.

Lemma dec_lt_le x y : dec_lt x y -> dec_le x y.
Proof. unfold dec_lt, dec_le, dec_ltb, dec_leb. by destruct (dec_compare x y) as [[]|]. Qed.

Lemma cross_trans a b c d e f : 0 < b -> 0 < d -> 0 < f -> a * d <= c * b -> c * f <= e * d -> a * f <= e * b.
Proof. intros. apply (Z.mul_le_mono_pos_r _ _ d); nia. Qed.
Lemma cross_trans_lt a b c d e f : 0 < b -> 0 < d -> 0 < f -> a * d <= c * b -> c * f < e * d -> a * f < e * b.
Proof. intros. apply (Z.mul_lt_mono_pos_r d); nia. Qed.
Lemma cross_lt_trans a b c d e f : 0 < b -> 0 < d -> 0 < f -> a * d < c * b -> c * f <= e * d -> a * f < e * b.
Proof. intros. apply (Z.mul_lt_mono_pos_r d); nia. Qed.

Ltac dec_infinite := unfold dec_le, dec_lt, dec_leb, dec_ltb; cbn;
  repeat match goal with s : bool |- _ => destruct s end; repeat case_match; naive_solver.

Lemma dec_le_trans x y z : dec_le x y -> dec_le y z -> dec_le x z.
Proof.
  destruct x as [c1 e1|s1|], y as [c2 e2|s2|], z as [c3 e3|s3|]; try (dec_infinite; fail).
  rewrite !dec_le_finite. apply cross_trans; apply dden_pos.
Qed.

Lemma dec_le_lt_trans x y z : dec_le x y -> dec_lt y z -> dec_lt x z.
Proof.
  destruct x as [c1 e1|s1|], y as [c2 e2|s2|], z as [c3 e3|s3|]; try (dec_infinite; fail).
  rewrite dec_le_finite, !dec_lt_finite. apply cross_trans_lt; apply dden_pos.
Qed.

Lemma dec_lt_le_trans x y z : dec_lt x y -> dec_le y z -> dec_lt x z.
Proof.
  destruct x as [c1 e1|s1|], y as [c2 e2|s2|], z as [c3 e3|s3|]; try (dec_infinite; fail).
  rewrite dec_le_finite, !dec_lt_finite. apply cross_lt_trans; apply dden_pos.
Qed.

Lemma dec_le_num x y : dec_le x y -> is_num x /\ is_num y.
Proof. unfold dec_le, dec_leb, is_num. destruct x, y; naive_solver. Qed.

Lemma dec_le_refl x : is_num x -> dec_le x x.
Proof. intros H. destruct (dec_cases x x H H) as [[? _]|[? _]]; [done|by apply dec_lt_le]. Qed.

Lemma dec_lt_not_le x y : dec_lt x y -> dec_leb y x = Ok false.
Proof.
  unfold dec_lt, dec_ltb, dec_leb. destruct x as [c e|s|], y as [c' e'|t|]; try (dec_infinite; fail).
  rewrite !dec_compare_finite. cbn [rbind]. rewrite (Z.compare_antisym (dnum c e * dden e')). destruct (_ ?= _); done.
Qed.

(** * The text of a float keeps the order *)

(** A float that is a float: its units have at most 53 significant bits. *)
Definition float_ok (x : float64) : Prop := match x with FNum v => float_of_ratio v least = FNum v | _ => True end.
Definition float_nonneg (x : float64) : Prop := match x with FNum v => 0 <= v | FInf s => s = false | FNan => False end.

Lemma float_ok_ratio n d : 0 < d -> float_ok (float_of_ratio n d).
Proof. intros Hd. destruct (float_of_ratio n d) as [v| |] eqn:E; [|done..]. by eapply float_again. Qed.

Lemma shortest_reads fuel v lead digits : float_of_ratio v least = FNum v ->
  float_of_decimal (shortest fuel v lead digits) = FNum v.
Proof.
  intros Hv. revert digits. induction fuel as [|fuel IH]; intros digits; cbn [shortest].
  - cbn [float_of_decimal]. rewrite (Z.max_l 0 (-1074)), (Z.max_r 0 (- -1074)), Z.mul_1_r by lia.
    change (10 ^ (- -1074)) with ((2 * 5) ^ 1074). rewrite Z.pow_mul_l, <- least_pow.
    rewrite float_of_ratio_scale; [done|apply least_pos|]. apply Z.pow_pos_nonneg; lia.
  - destruct (shortest_at v lead digits) as [d|] eqn:E; [|apply IH]. unfold shortest_at in E.
    assert (H : reads_back v d = true) by (repeat case_if; simplify_eq; done). unfold reads_back in H.
    destruct (float_of_decimal d) as [w| |]; [|done..]. apply Z.eqb_eq in H. by subst w.
Qed.

(** A float that is not negative prints as a decimal that is not negative and
    reads back as it. *)
Lemma str_reads v : 0 <= v -> float_of_ratio v least = FNum v ->
  exists c e, decimal_of_str (FNum v) = DFinite c e /\ 0 <= c /\ float_of_ratio (dnum c e) (dden e) = FNum v.
Proof.
  intros Hv Hf. cbn [decimal_of_str]. destruct (Z.eqb_spec v 0) as [->|Hne].
  { exists 0, 0. split; [done|]. split; [done|]. vm_compute. reflexivity. }
  destruct (Z.ltb_spec v 0) as [|_]; [lia|].
  destruct (shortest_nonneg 17 v (leading_place v) 1 Hv) as (c & e & E & Hc). exists c, e. split; [done|]. split; [done|].
  pose proof (shortest_reads 17 v (leading_place v) 1 Hf) as H. rewrite E in H. exact H.
Qed.

Lemma str_lt x y : float_ok x -> float_ok y -> float_nonneg x -> float_nonneg y ->
  float_gtb y x = true -> dec_lt (decimal_of_str x) (decimal_of_str y).
Proof.
  destruct x as [v|s|], y as [w|t|]; cbn [float_ok float_nonneg float_gtb]; intros Hx Hy Px Py; try done.
  - intros Hlt%Z.ltb_lt. destruct (str_reads v Px Hx) as (c & e & -> & Hc & Hr). destruct (str_reads w Py Hy) as (c' & e' & -> & Hc' & Hr').
    apply dec_lt_finite. destruct (Z.lt_ge_cases (dnum c e * dden e') (dnum c' e' * dden e)) as [|Hge]; [done|exfalso].
    assert (w <= v); [|lia]. apply (float_mono (dnum c' e') (dden e') (dnum c e) (dden e)); try done; try apply dden_pos.
    apply Z.mul_nonneg_nonneg; [done|apply Z.pow_nonneg; lia].
  - intros _. subst t. destruct (str_reads v Px Hx) as (c & e & -> & _). done.
  - by subst s.
  - by subst s t.
Qed.

Lemma str_num x : float_nonneg x -> is_num (decimal_of_str x).
Proof.
  destruct x as [v|s|]; cbn [float_nonneg decimal_of_str]; intros H; [|done..].
  destruct (Z.eqb_spec v 0); [done|]. destruct (Z.ltb_spec v 0); [lia|].
  destruct (shortest_nonneg 17 v (leading_place v) 1 H) as (c & e & -> & _). done.
Qed.

Lemma str_le x y : float_ok x -> float_ok y -> float_nonneg x -> float_nonneg y ->
  float_gtb x y = false -> dec_le (decimal_of_str x) (decimal_of_str y).
Proof.
  intros Hx Hy Px Py H. destruct (float_gtb y x) eqn:E; [by apply dec_lt_le, str_lt|].
  assert (x = y) as ->; [|by apply dec_le_refl, str_num].
  destruct x as [v|s|], y as [w|t|]; cbn in *; try done; subst; try done.
  apply Z.ltb_ge in H, E. f_equal. lia.
Qed.

(** * Decimals as rationals *)

Local Open Scope Q_scope.
#[export] Instance Qeq_default : DefaultRelation Qeq := {}.

Definition qfrac (n d : Z) : Q := inject_Z n / inject_Z d.
Definition qv (x : decimal) : Q := match x with DFinite c e => qfrac (dnum c e) (dden e) | _ => 0 end.

(** The relative error of one operation. *)
Definition eps : Q := 1 # 1000000000000000000000000000.

Lemma inject_pos z : (0 < z)%Z -> 0 < inject_Z z.
Proof. intros H. change 0 with (inject_Z 0). by rewrite <- Zlt_Qlt. Qed.

Lemma qfrac_eq n d n' d' : (0 < d)%Z -> (0 < d')%Z -> (n * d' = n' * d)%Z -> qfrac n d == qfrac n' d'.
Proof.
  intros Hd Hd' H. unfold qfrac. pose proof (inject_pos d Hd). pose proof (inject_pos d' Hd').
  assert (E : inject_Z n * inject_Z d' == inject_Z n' * inject_Z d) by (rewrite <- !inject_Z_mult; by rewrite H).
  setoid_replace (inject_Z n / inject_Z d) with (inject_Z n * inject_Z d' / (inject_Z d * inject_Z d')) by (field; lra).
  rewrite E. field; lra.
Qed.

Lemma qfrac_mul n d n' d' : (0 < d)%Z -> (0 < d')%Z -> qfrac (n * n') (d * d') == qfrac n d * qfrac n' d'.
Proof.
  intros Hd Hd'. unfold qfrac. pose proof (inject_pos d Hd). pose proof (inject_pos d' Hd'). rewrite !inject_Z_mult. field; lra.
Qed.

Lemma qfrac_add n n' d : (0 < d)%Z -> qfrac (n + n') d == qfrac n d + qfrac n' d.
Proof. intros Hd. unfold qfrac. pose proof (inject_pos d Hd). rewrite inject_Z_plus. field; lra. Qed.

Lemma qfrac_le n d n' d' : (0 < d)%Z -> (0 < d')%Z -> (n * d' <= n' * d)%Z <-> qfrac n d <= qfrac n' d'.
Proof.
  intros Hd Hd'. unfold qfrac. pose proof (inject_pos d Hd) as H1. pose proof (inject_pos d' Hd') as H2.
  rewrite Zle_Qle, !inject_Z_mult. split; intros H.
  - apply Qle_shift_div_r; [done|]. setoid_replace (inject_Z n' / inject_Z d' * inject_Z d) with (inject_Z n' * inject_Z d / inject_Z d')
      by (field; lra). by apply Qle_shift_div_l.
  - setoid_replace (inject_Z n) with (inject_Z n / inject_Z d * inject_Z d) by (field; lra).
    setoid_replace (inject_Z n' * inject_Z d) with (inject_Z n' / inject_Z d' * inject_Z d * inject_Z d') by (field; lra).
    apply Qmult_le_compat_r; [|lra]. apply Qmult_le_compat_r; [done|lra].
Qed.

(** [round_even] of a ratio of at least [10^27], relatively. *)
Lemma round_rel n d : (0 < d)%Z -> (10 ^ 27 * d <= Z.abs n)%Z ->
  Qabs (inject_Z (round_even n d) - qfrac n d) <= eps * Qabs (qfrac n d).
Proof.
  intros Hd Hn. pose proof (round_even_spec n d Hd) as Hr. set (r := round_even n d) in *. clearbody r.
  pose proof (inject_pos d Hd) as Hq. unfold qfrac.
  setoid_replace (inject_Z r - inject_Z n / inject_Z d) with (inject_Z (d * r - n) / inject_Z d)
    by (unfold Z.sub; rewrite inject_Z_plus, inject_Z_mult, inject_Z_opp; field; lra).
  unfold Qdiv. rewrite !Qabs_Qmult, (Qabs_pos (/ inject_Z d)) by (apply Qlt_le_weak, Qinv_lt_0_compat; done).
  rewrite Qmult_assoc. apply Qmult_le_compat_r; [|apply Qlt_le_weak, Qinv_lt_0_compat; done].
  change (Qabs (inject_Z (d * r - n))) with (inject_Z (Z.abs (d * r - n))).
  change (Qabs (inject_Z n)) with (inject_Z (Z.abs n)).
  assert (H : (10 ^ 27 * Z.abs (d * r - n) <= Z.abs n)%Z) by lia. rewrite Zle_Qle, inject_Z_mult in H.
  unfold eps. change (inject_Z (10 ^ 27)) with (1000000000000000000000000000 # 1) in H.
  lra.
Qed.

Lemma qv_scale r p : qv (DFinite r p) == inject_Z r * qfrac (10 ^ Z.max 0 p) (dden p).
Proof.
  cbn [qv]. unfold dnum, qfrac. pose proof (inject_pos _ (dden_pos p)). rewrite inject_Z_mult. field; lra.
Qed.

(** A quotient of the context, relatively. *)
Lemma dec_of_ratio_rel n d : (0 < d)%Z ->
  exists c e, dec_of_ratio n d = DFinite c e /\ Qabs (qv (DFinite c e) - qfrac n d) <= eps * Qabs (qfrac n d).
Proof.
  intros Hd. destruct (Z.eq_dec n 0) as [->|Hn].
  { exists 0%Z, 0%Z. split; [done|]. unfold qfrac. cbn. setoid_replace (inject_Z 0 / inject_Z d) with 0 by (unfold Qdiv; apply Qmult_0_l). done. }
  destruct (dec_of_ratio_digits n d Hd Hn) as (p & E & Hdig). rewrite E. eexists _, p. split; [done|].
  set (A := (10 ^ Z.max 0 p)%Z) in *. fold (dden p) in *. assert (HA : (0 < A)%Z) by (apply Z.pow_pos_nonneg; lia).
  pose proof (dden_pos p) as Hp. assert (HdA : (0 < d * A)%Z) by nia.
  pose proof (round_rel (n * dden p) (d * A) HdA) as Hr. rewrite Z.abs_mul, (Z.abs_eq (dden p)) in Hr by lia.
  specialize (Hr Hdig). rewrite qv_scale. fold A. set (r := round_even _ _) in *.
  assert (HS : 0 < qfrac A (dden p)).
  { unfold qfrac. apply Qlt_shift_div_l; [by apply inject_pos|]. rewrite Qmult_0_l. by apply inject_pos. }
  assert (Hx : qfrac n d == qfrac (n * dden p) (d * A) * qfrac A (dden p)).
  { rewrite <- qfrac_mul by done. apply qfrac_eq; [done|by apply Z.mul_pos_pos|]. ring. }
  rewrite Hx. setoid_replace (inject_Z r * qfrac A (dden p) - qfrac (n * dden p) (d * A) * qfrac A (dden p))
    with ((inject_Z r - qfrac (n * dden p) (d * A)) * qfrac A (dden p)) by ring.
  rewrite !Qabs_Qmult, (Qabs_pos (qfrac A (dden p))) by lra. rewrite Qmult_assoc. apply Qmult_le_compat_r; [done|lra].
Qed.

Lemma ctx_rel c e : exists c' e', ctx c e = DFinite c' e' /\
  Qabs (qv (DFinite c' e') - qv (DFinite c e)) <= eps * Qabs (qv (DFinite c e)).
Proof.
  unfold ctx. case_if; [|apply dec_of_ratio_rel; apply dden_pos].
  exists c, e. split; [done|]. setoid_replace (qv (DFinite c e) - qv (DFinite c e)) with 0 by ring.
  rewrite Qabs_pos by lra. apply Qmult_le_0_compat; [done|apply Qabs_nonneg].
Qed.

(** ** The operations *)

Definition finite (x : decimal) : Prop := match x with DFinite _ _ => True | _ => False end.

(** [x] is [y] up to [k] relative errors of an operation. *)
Definition within (k : Z) (x y : Q) : Prop := Qabs (x - y) <= inject_Z k * eps * Qabs y.

#[export] Instance within_proper k : Proper (Qeq ==> Qeq ==> iff) (within k).
Proof. intros x x' Hx y y' Hy. unfold within. by rewrite Hx, Hy. Qed.

Lemma within_eq k x y y' : y == y' -> within k x y -> within k x y'.
Proof. by intros ->. Qed.

Lemma dec_mul_rel x y : finite x -> finite y ->
  exists z, dec_mul x y = Ok z /\ finite z /\ within 1 (qv z) (qv x * qv y).
Proof.
  destruct x as [c e| |], y as [c' e'| |]; try done. intros _ _. cbn [dec_mul].
  destruct (ctx_rel (c * c') (e + e')) as (c1 & e1 & -> & H). eexists. split; [done|]. split; [done|].
  apply (within_eq _ _ (qv (DFinite (c * c') (e + e')))); [|unfold within; by rewrite Qmult_1_l].
  cbn [qv]. rewrite <- qfrac_mul by apply dden_pos. pose proof (dden_pos e). pose proof (dden_pos e').
  apply qfrac_eq; [apply dden_pos|nia|]. by rewrite dnum_mul.
Qed.

Lemma qv_aligned c e m : (m <= e)%Z -> qv (DFinite (c * 10 ^ (e - m)) m) == qv (DFinite c e).
Proof. intros H. cbn [qv]. apply qfrac_eq; [apply dden_pos..|]. by rewrite <- aligned. Qed.

Lemma dec_add_rel x y : finite x -> finite y ->
  exists z, dec_add x y = Ok z /\ finite z /\ within 1 (qv z) (qv x + qv y).
Proof.
  destruct x as [c e| |], y as [c' e'| |]; try done. intros _ _. cbn [dec_add]. set (m := Z.min e e').
  destruct (ctx_rel (c * 10 ^ (e - m) + c' * 10 ^ (e' - m)) m) as (c1 & e1 & -> & H). eexists. split; [done|]. split; [done|].
  eapply within_eq; [|unfold within; rewrite Qmult_1_l; exact H].
  rewrite <- (qv_aligned c e m), <- (qv_aligned c' e' m) by lia. cbn [qv].
  assert (Hd : forall a b, dnum (a + b) m = (dnum a m + dnum b m)%Z) by (intros; unfold dnum; ring).
  rewrite Hd. apply qfrac_add, dden_pos.
Qed.

Lemma qv_neg x : qv (dec_neg x) == - qv x.
Proof.
  destruct x as [c e| |]; [|done..]. cbn. unfold dnum, qfrac. pose proof (inject_pos _ (dden_pos e)).
  rewrite Z.mul_opp_l, inject_Z_opp. field; lra.
Qed.

Lemma dec_sub_rel x y : finite x -> finite y ->
  exists z, dec_sub x y = Ok z /\ finite z /\ within 1 (qv z) (qv x - qv y).
Proof.
  intros Hx Hy. destruct (dec_add_rel x (dec_neg y) Hx) as (z & E & Hz & H); [by destruct y|].
  exists z. split; [done|]. split; [done|]. eapply within_eq; [|exact H]. rewrite qv_neg. ring.
Qed.

Lemma qfrac_pos n d : (0 < d)%Z -> 0 < qfrac n d <-> (0 < n)%Z.
Proof.
  intros Hd. unfold qfrac. pose proof (inject_pos d Hd) as H. split; intros Hn.
  - apply Z.nle_gt. intros Hle. rewrite Zle_Qle in Hle.
    apply (Qlt_not_le _ _ Hn). apply Qle_shift_div_r; [done|]. rewrite Qmult_0_l. exact Hle.
  - apply Qlt_shift_div_l; [done|]. rewrite Qmult_0_l. by apply inject_pos.
Qed.

Lemma dec_div_rel x y : finite x -> finite y -> 0 < qv y ->
  exists z, dec_div x y = Ok z /\ finite z /\ within 1 (qv z) (qv x / qv y).
Proof.
  destruct x as [c e| |], y as [c' e'| |]; try done. intros _ _. cbn [qv]. rewrite qfrac_pos by apply dden_pos. intros Hc'.
  pose proof (Z.pow_pos_nonneg 10 (Z.max 0 e') ltac:(lia) ltac:(lia)) as Hp'. unfold dnum in Hc'.
  assert (Hpos : (0 < c')%Z) by nia. cbn [dec_div]. destruct (Z.eqb_spec c' 0); [lia|].
  rewrite Z.sgn_pos, Z.mul_1_l, Z.abs_eq by lia.
  pose proof (Z.pow_pos_nonneg 10 (Z.max 0 (e' - e)) ltac:(lia) ltac:(lia)) as Hp.
  destruct (dec_of_ratio_rel (c * 10 ^ Z.max 0 (e - e')) (c' * 10 ^ Z.max 0 (e' - e)) ltac:(nia)) as (c1 & e1 & -> & H).
  eexists. split; [done|]. split; [done|]. eapply within_eq; [|unfold within; rewrite Qmult_1_l; exact H].
  pose proof (inject_pos _ (dden_pos e)) as He. pose proof (inject_pos _ (dden_pos e')) as He'.
  pose proof (inject_pos _ Hc') as Hq. change (c' * 10 ^ Z.max 0 e')%Z with (dnum c' e') in Hq.
  transitivity (qfrac (dnum c e * dden e') (dnum c' e' * dden e)).
  - apply qfrac_eq; [nia|pose proof (dden_pos e); unfold dnum; nia|]. unfold dnum, dden.
    transitivity (c * c' * (10 ^ Z.max 0 (e - e') * 10 ^ Z.max 0 e' * 10 ^ Z.max 0 (- e)))%Z; [ring|].
    transitivity (c * c' * (10 ^ Z.max 0 e * 10 ^ Z.max 0 (- e') * 10 ^ Z.max 0 (e' - e)))%Z; [|ring].
    f_equal. rewrite <- !Z.pow_add_r by lia. f_equal. lia.
  - unfold qfrac. rewrite !inject_Z_mult. field. repeat split; lra.
Qed.

Lemma dec_le_qv x y : finite x -> finite y -> dec_le x y <-> qv x <= qv y.
Proof.
  destruct x as [c e| |], y as [c' e'| |]; try done. intros _ _. rewrite dec_le_finite. apply qfrac_le; apply dden_pos.
Qed.

Lemma dec_lt_qv x y : finite x -> finite y -> dec_lt x y <-> qv x < qv y.
Proof.
  intros Hx Hy. destruct (dec_cases y x) as [[H1 H2]|[H1 H2]]; [by destruct y|by destruct x| |].
  - split; [unfold dec_lt; congruence|]. apply dec_le_qv in H1; [|done..]. lra.
  - split; [|done]. intros _. destruct (Qlt_le_dec (qv x) (qv y)) as [|Hle]; [done|].
    apply dec_le_qv in Hle; [|done..]. unfold dec_le in Hle. congruence.
Qed.

(** ** Errors add up *)

Lemma within_nonneg k x y : (0 <= k <= 10 ^ 20)%Z -> within k x y -> 0 <= y -> 0 <= x.
Proof.
  unfold within, eps. intros Hk H Hy. rewrite (Qabs_pos y) in H by done. apply Qabs_Qle_condition in H as [H _].
  assert (Hq : inject_Z k <= inject_Z (10 ^ 20)) by (rewrite <- Zle_Qle; lia).
  change (inject_Z (10 ^ 20)) with (100000000000000000000 # 1) in Hq.
  assert (inject_Z k * (1 # 1000000000000000000000000000) * y <= (1 # 1) * y); [|lra].
  apply Qmult_le_compat_r; [lra|done].
Qed.

(** Between numbers that are not negative. *)
Lemma within_bounds k x y : 0 <= y -> within k x y <->
  y - inject_Z k * eps * y <= x /\ x <= y + inject_Z k * eps * y.
Proof. intros Hy. unfold within. rewrite (Qabs_pos y), Qabs_Qle_condition by done. split; intros []; split; lra. Qed.

Lemma few_errors k : (0 <= k <= 10 ^ 6)%Z -> 0 <= inject_Z k * eps <= 1 # 1000000000000000000000.
Proof.
  intros Hk. assert (H1 : inject_Z 0 <= inject_Z k) by (rewrite <- Zle_Qle; lia).
  assert (H2 : inject_Z k <= inject_Z 1000000) by (rewrite <- Zle_Qle; lia).
  unfold eps. change (inject_Z 0) with 0 in H1. change (inject_Z 1000000) with (1000000 # 1) in H2. lra.
Qed.

Lemma within_trans j k x y z : (0 <= j <= 10 ^ 6)%Z -> (0 <= k <= 10 ^ 6)%Z -> 0 <= z ->
  within j x y -> within k y z -> within (j + k + 1) x z.
Proof.
  intros Hj Hk Hz Hxy Hyz. assert (Hy : 0 <= y) by (eapply within_nonneg; [|done..]; lia).
  apply within_bounds in Hxy as [A1 A2]; [|done]. apply within_bounds in Hyz as [B1 B2]; [|done]. apply within_bounds; [done|].
  rewrite !inject_Z_plus. change (inject_Z 1) with 1.
  pose proof (few_errors j Hj) as Ha. pose proof (few_errors k Hk) as Hb.
  set (a := inject_Z j * eps) in *. set (b := inject_Z k * eps) in *.
  setoid_replace ((inject_Z j + inject_Z k + 1) * eps * z) with (a * z + b * z + eps * z) by (unfold a, b; ring).
  clearbody a b. assert (Hab : 0 <= a * b <= eps) by (unfold eps; nra).
  assert (H1 : a * y <= a * z + a * b * z) by nra.
  assert (H2 : 0 <= a * b * z <= eps * z) by (split; [nra|apply Qmult_le_compat_r; lra]).
  assert (H3 : a * z - a * b * z <= a * y) by nra.
  split; lra.
Qed.

Lemma within_weaken j k x y : (j <= k)%Z -> within j x y -> within k x y.
Proof.
  unfold within. intros H Hx. eapply Qle_trans; [exact Hx|]. apply Qmult_le_compat_r; [|apply Qabs_nonneg].
  apply Qmult_le_compat_r; [by rewrite <- Zle_Qle|done].
Qed.

Lemma within_add k x x' y y' : 0 <= y -> 0 <= y' -> within k x y -> within k x' y' -> within k (x + x') (y + y').
Proof.
  intros Hy Hy' [H1 H2]%within_bounds [H3 H4]%within_bounds; [|done..]. apply within_bounds; [lra|].
  setoid_replace (inject_Z k * eps * (y + y')) with (inject_Z k * eps * y + inject_Z k * eps * y') by ring. split; lra.
Qed.

Lemma within_scale k x y z : 0 <= z -> within k x y -> within k (x * z) (y * z).
Proof.
  unfold within. intros Hz H. setoid_replace (x * z - y * z) with ((x - y) * z) by ring.
  rewrite !Qabs_Qmult, (Qabs_pos z), Qmult_assoc by done. by apply Qmult_le_compat_r.
Qed.

Lemma within_inv k x y : (0 <= k <= 1000)%Z -> 0 < y -> within k x y -> 0 < x /\ within (k + 1) (/ x) (/ y).
Proof.
  intros Hk Hy H. apply within_bounds in H as [H1 H2]; [|lra]. pose proof (few_errors k ltac:(lia)) as Ha.
  set (a := inject_Z k * eps) in *. assert (Hx : 0 < x) by nra. split; [done|].
  apply within_bounds; [apply Qlt_le_weak, Qinv_lt_0_compat; done|].
  rewrite inject_Z_plus. change (inject_Z 1) with 1.
  setoid_replace ((inject_Z k + 1) * eps) with (a + eps) by (unfold a; ring).
  assert (Hxy : 0 < x * y) by nra.
  assert (He : a * a <= eps * (1 - (1 # 2))) by (unfold eps in *; assert (Hk2 : inject_Z k <= inject_Z 1000) by (rewrite <- Zle_Qle; lia);
    change (inject_Z 1000) with (1000 # 1) in Hk2; assert (a <= 1 # 1000000000000000000000000) by (unfold a; lra); nra).
  clearbody a. setoid_replace (/ x) with (y * / (x * y)) by (field; split; lra).
  setoid_replace (/ y) with (x * / (x * y)) by (field; split; lra).
  pose proof (Qinv_lt_0_compat _ Hxy) as Hi. set (w := / (x * y)) in *. clearbody w.
  assert (Hs : 0 <= a + eps) by (unfold eps; lra).
  assert (G1 : x - (a + eps) * x <= y) by (unfold eps in *; nra).
  assert (G2 : y <= x + (a + eps) * x) by (unfold eps in *; nra).
  split; [setoid_replace (x * w - (a + eps) * (x * w)) with ((x - (a + eps) * x) * w) by ring|
          setoid_replace (x * w + (a + eps) * (x * w)) with ((x + (a + eps) * x) * w) by ring]; apply Qmult_le_compat_r; lra.
Qed.
