(* ===== verification/PricingEngine.v ===== *)
(** Cost to sell: the pure pricing engine [services/pricing_engine.py], the
    tables it reads with their starter rows ([models/pricing_engine.py]), and
    the office's editor of them ([routers/pricing_admin.py]).  A [PricingBook]
    holds the tables; of the settings row the key and the switch the engine
    reads are kept. *)

From S2P Require Import Prelude PyStr Dates Money PyNum.

Local Open Scope Z_scope.

(** * The engine's inputs and outputs *)

Definition VALID_CLASSES : list string := ["retail"; "contractor"; "wholesale"].

Record TierRow : Type := mk_tier_row {
  tr_cost_min : decimal;
  tr_cost_max : option decimal;
  tr_margin_pct : decimal
}.

Record VolumeTierRow : Type := mk_vtier {
  vt_volume_min_12mo : decimal;
  vt_volume_max_12mo : option decimal;
  vt_discount_pct : decimal
}.

Record PricingSettingsView : Type := mk_view {
  pv_tier_sets : gmap (string * string) (list TierRow);
  pv_volume_discount_enabled : bool;
  pv_volume_tiers : list VolumeTierRow;
  pv_class_volume_enabled : gmap string bool
}.

Record CustomerView : Type := mk_customer_view {
  cv_pricing_class : option string;
  cv_margin_override_pct : option decimal;
  cv_cached_rolling_volume : decimal
}.

Inductive PricingSource : Type := line_override | customer_override | wholesale_tier | tier.
#[export] Instance PricingSource_eq_dec : EqDecision PricingSource.
Proof. solve_decision. Defined.

Record LinePrice : Type := mk_line_price {
  lp_price_cost : decimal;
  lp_margin_pct : decimal;
  lp_sell : decimal;
  lp_profit : decimal;
  lp_source : PricingSource
}.

Record EstimateLineInput : Type := mk_line_input {
  ei_cost : decimal;
  ei_pricing_category : string;
  ei_quantity : decimal;
  ei_margin_pct_override : option decimal
}.

Record EstimateLineResult : Type := mk_line_result {
  er_inp : EstimateLineInput;
  er_price : LinePrice;
  er_line_sell : decimal;
  er_line_cost : decimal;
  er_line_profit : decimal
}.

Record PricedTotals : Type := mk_priced_totals {
  pt_lines : list EstimateLineResult;
  pt_subtotal_cost : decimal;
  pt_subtotal_sell_pre_discount : decimal;
  pt_volume_discount_pct : decimal;
  pt_volume_discount_amount : decimal;
  pt_subtotal_sell : decimal;
  pt_profit : decimal;
  pt_blended_margin_pct : decimal
}.

(** * Core math *)

Definition _ZERO : decimal := DFinite 0 0.
Definition _ONE : decimal := DFinite 1 0.

Definition _validate_margin (margin_pct : decimal) : result unit :=
  let! negative := dec_ltb margin_pct _ZERO in
  if negative then Err PricingConfigError
  else
    let! infinite := dec_leb _ONE margin_pct in
    if infinite then Err PricingConfigError else Ok tt.

Definition sell_from_cost (cost margin_pct : decimal) : result decimal :=
  let! _ := _validate_margin margin_pct in
  let! negative := dec_ltb cost _ZERO in
  if negative then Err PricingConfigError
  else
    let! rest := dec_sub _ONE margin_pct in
    dec_div cost rest.

(** * Tier lookup *)

Definition _resolve_class (customer : CustomerView) : result string :=
  match cv_pricing_class customer with
  | None => Ok "retail"
  | Some cls => if existsb (String.eqb cls) VALID_CLASSES then Ok cls else Err PricingConfigError
  end.

(** [x >= lo and (hi is None or x < hi)] *)
Definition in_range (x lo : decimal) (hi : option decimal) : result bool :=
  let! above := dec_leb lo x in
  if above then match hi with None => Ok true | Some h => dec_ltb x h end else Ok false.

(** [[t for t in l if p(t)]], where the test may raise. *)
Fixpoint rfilter {A} (p : A -> result bool) (l : list A) : result (list A) :=
  match l with
  | [] => Ok []
  | x :: l => let! b := p x in let! rest := rfilter p l in Ok (if b : bool then x :: rest else rest)
  end.

Definition _find_tier (tier_set : list TierRow) (cost : decimal) : result TierRow :=
  let! matches := rfilter (fun t => in_range cost (tr_cost_min t) (tr_cost_max t)) tier_set in
  match matches with
  | [t] => Ok t
  | _ => Err PricingConfigError
  end.

Definition _lookup_tier_set (settings : PricingSettingsView) (pricing_category pricing_class : string)
  : result (list TierRow) :=
  match pv_tier_sets settings !! (pricing_category, pricing_class) with
  | None | Some [] => Err PricingConfigError
  | Some tier_set => Ok tier_set
  end.

(** * Per-line resolution *)

Definition priced (cost margin_pct : decimal) (source : PricingSource) : result LinePrice :=
  let! _ := _validate_margin margin_pct in
  let! sell := sell_from_cost cost margin_pct in
  let! profit := dec_sub sell cost in
  Ok (mk_line_price cost margin_pct sell profit source).

Definition price_line (cost : decimal) (pricing_category : string) (customer : CustomerView)
    (settings : PricingSettingsView) (line_margin_override : option decimal) : result LinePrice :=
  if String.eqb (str_lower pricing_category) "labor" then Err PricingConfigError
  else
    match line_margin_override, cv_margin_override_pct customer with
    | Some m, _ => priced cost m line_override
    | None, Some m => priced cost m customer_override
    | None, None =>
        let! cls := _resolve_class customer in
        let! tier_set := _lookup_tier_set settings pricing_category cls in
        let! t := _find_tier tier_set cost in
        priced cost (tr_margin_pct t) (if String.eqb cls "wholesale" then wholesale_tier else tier)
    end.

(** * Estimate totals and the volume discount *)

Definition _find_volume_discount (settings : PricingSettingsView) (customer : CustomerView) : result decimal :=
  if negb (pv_volume_discount_enabled settings) then Ok _ZERO
  else
    match pv_volume_tiers settings with
    | [] => Ok _ZERO
    | tiers =>
        let! cls := _resolve_class customer in
        if negb (default false (pv_class_volume_enabled settings !! cls)) then Ok _ZERO
        else
          let! matches := rfilter (fun t => in_range (cv_cached_rolling_volume customer) (vt_volume_min_12mo t)
                                              (vt_volume_max_12mo t)) tiers in
          match matches with
          | [] => Ok _ZERO
          | [t] =>
              let pct := vt_discount_pct t in
              let! low := dec_ltb pct _ZERO in
              if low then Err PricingConfigError
              else
                let! high := dec_leb _ONE pct in
                if high then Err PricingConfigError else Ok pct
          | _ => Err PricingConfigError
          end
    end.

(** The loop's body: the results so far, and both subtotals. *)
Definition price_step (customer : CustomerView) (settings : PricingSettingsView)
    (acc : list EstimateLineResult * decimal * decimal) (inp : EstimateLineInput)
  : result (list EstimateLineResult * decimal * decimal) :=
  let '(results, subtotal_cost, subtotal_sell) := acc in
  let! none := dec_leb (ei_quantity inp) _ZERO in
  if none then Err PricingConfigError
  else
    let! price := price_line (ei_cost inp) (ei_pricing_category inp) customer settings (ei_margin_pct_override inp) in
    let! line_sell := dec_mul (lp_sell price) (ei_quantity inp) in
    let! line_cost := dec_mul (lp_price_cost price) (ei_quantity inp) in
    let! line_profit := dec_sub line_sell line_cost in
    let! subtotal_cost := dec_add subtotal_cost line_cost in
    let! subtotal_sell := dec_add subtotal_sell line_sell in
    Ok (results ++ [mk_line_result inp price line_sell line_cost line_profit], subtotal_cost, subtotal_sell).

Definition price_estimate (line_inputs : list EstimateLineInput) (customer : CustomerView)
    (settings : PricingSettingsView) : result PricedTotals :=
  let! acc := rfold (price_step customer settings) ([], _ZERO, _ZERO) line_inputs in
  let '(results, subtotal_cost, subtotal_sell) := acc in
  let! discount_pct := _find_volume_discount settings customer in
  let! discount_amount := dec_mul subtotal_sell discount_pct in
  let! subtotal_sell_post := dec_sub subtotal_sell discount_amount in
  let! profit := dec_sub subtotal_sell_post subtotal_cost in
  let! some_sell := dec_ltb _ZERO subtotal_sell_post in
  let! blended := if some_sell : bool then dec_div profit subtotal_sell_post else Ok _ZERO in
  Ok (mk_priced_totals results subtotal_cost subtotal_sell discount_pct discount_amount subtotal_sell_post profit blended).

(** * The tables *)

Record PricingTierSet : Type := mk_tier_set {
  ts_id : uuid;
  ts_pricing_category : string;
  ts_pricing_class : string;
  ts_active : bool
}.

Record MarginTier : Type := mk_margin_tier {
  mt_tier_set_id : uuid;
  mt_row : TierRow;
  mt_sort_order : Z
}.

Record CustomerVolumeDiscountTier : Type := mk_volume_tier {
  cd_settings_id : uuid;
  cd_row : VolumeTierRow;
  cd_sort_order : Z
}.

Record PricingSwitch : Type := mk_switch {
  sw_id : uuid;
  sw_volume_discount_enabled : bool
}.

Record PricingClassSettings : Type := mk_class_setting {
  cs_pricing_class : string;
  cs_rolling_volume_discount_enabled : bool
}.

Record PricingBook : Type := mk_book {
  pb_tier_sets : list PricingTierSet;
  pb_margin_tiers : list MarginTier;
  pb_settings : list PricingSwitch;
  pb_volume_tiers : list CustomerVolumeDiscountTier;
  pb_classes : list PricingClassSettings;
  pb_next_uuid : uuid
}.

Definition set_tier_sets f (b : PricingBook) : PricingBook :=
  mk_book (f (pb_tier_sets b)) (pb_margin_tiers b) (pb_settings b) (pb_volume_tiers b) (pb_classes b) (pb_next_uuid b).
Definition set_margin_tiers f (b : PricingBook) : PricingBook :=
  mk_book (pb_tier_sets b) (f (pb_margin_tiers b)) (pb_settings b) (pb_volume_tiers b) (pb_classes b) (pb_next_uuid b).
Definition set_switches f (b : PricingBook) : PricingBook :=
  mk_book (pb_tier_sets b) (pb_margin_tiers b) (f (pb_settings b)) (pb_volume_tiers b) (pb_classes b) (pb_next_uuid b).
Definition set_volume_tiers f (b : PricingBook) : PricingBook :=
  mk_book (pb_tier_sets b) (pb_margin_tiers b) (pb_settings b) (f (pb_volume_tiers b)) (pb_classes b) (pb_next_uuid b).
Definition set_classes f (b : PricingBook) : PricingBook :=
  mk_book (pb_tier_sets b) (pb_margin_tiers b) (pb_settings b) (pb_volume_tiers b) (f (pb_classes b)) (pb_next_uuid b).

Definition draw_uuid : M PricingBook uuid := fun b =>
  (Ok (pb_next_uuid b),
   mk_book (pb_tier_sets b) (pb_margin_tiers b) (pb_settings b) (pb_volume_tiers b) (pb_classes b) (pb_next_uuid b + 1)%N).

(** A [Numeric(precision, places)] column rounds to its places, half away
    from zero, and refuses what exceeds its precision. *)
Definition column (precision places : Z) (d : decimal) : result decimal :=
  match d with
  | DFinite c e =>
      let q := if - places <=? e then c * 10 ^ (e + places) else round_half_up c (- places - e) in
      if Z.abs q <? 10 ^ precision then Ok (DFinite q (- places)) else Err DataError
  | _ => Err DataError
  end.
Definition money_column : decimal -> result decimal := column 12 2.
Definition optional (col : decimal -> result decimal) (d : option decimal) : result (option decimal) :=
  match d with Some x => let! y := col x in Ok (Some y) | None => Ok None end.

Definition stored_tier (t : TierRow) : result TierRow :=
  let! cost_min := column 12 2 (tr_cost_min t) in
  let! cost_max := optional (column 12 2) (tr_cost_max t) in
  let! margin_pct := column 6 4 (tr_margin_pct t) in
  Ok (mk_tier_row cost_min cost_max margin_pct).
Definition stored_volume (t : VolumeTierRow) : result VolumeTierRow :=
  let! volume_min := column 14 2 (vt_volume_min_12mo t) in
  let! volume_max := optional (column 14 2) (vt_volume_max_12mo t) in
  let! discount_pct := column 6 4 (vt_discount_pct t) in
  Ok (mk_vtier volume_min volume_max discount_pct).

(** ** Reading them *)

Definition mt_before (a b : MarginTier) : bool := mt_sort_order a <=? mt_sort_order b.
Definition cd_before (a b : CustomerVolumeDiscountTier) : bool := cd_sort_order a <=? cd_sort_order b.

Definition tier_rows (set_id : uuid) (b : PricingBook) : list TierRow :=
  map mt_row (stable_sort mt_before (List.filter (fun t => N.eqb (mt_tier_set_id t) set_id) (pb_margin_tiers b))).

Definition hydrate_sets (b : PricingBook) : gmap (string * string) (list TierRow) :=
  foldl (fun m ts => <[(ts_pricing_category ts, ts_pricing_class ts) := tier_rows (ts_id ts) b]> m) ∅
    (List.filter ts_active (pb_tier_sets b)).

(** Every class is off until its row says otherwise. *)
Definition hydrate_classes (b : PricingBook) : gmap string bool :=
  foldl (fun m c => if bool_decide (is_Some (m !! cs_pricing_class c))
                    then <[cs_pricing_class c := cs_rolling_volume_discount_enabled c]> m else m)
    (list_to_map (map (fun c => (c, false)) VALID_CLASSES)) (pb_classes b).

Definition volume_rows (settings_id : uuid) (b : PricingBook) : list VolumeTierRow :=
  map cd_row (stable_sort cd_before (List.filter (fun t => N.eqb (cd_settings_id t) settings_id) (pb_volume_tiers b))).

Definition hydrate_settings_from_db (b : PricingBook) : result PricingSettingsView :=
  match pb_settings b with
  | [] => Err PricingConfigError
  | s :: _ => Ok (mk_view (hydrate_sets b) (sw_volume_discount_enabled s) (volume_rows (sw_id s) b) (hydrate_classes b))
  end.

(** ** The starter rows *)

Definition PRICING_CATEGORIES : list string := ["doors"; "openers"; "parts"; "labor"; "other"].

Definition stub (cost_min : Z) (cost_max : option Z) (margin : Z) : TierRow :=
  mk_tier_row (DFinite cost_min 0) (option_map (fun c => DFinite c 0) cost_max) (DFinite margin (-4)).

Definition _STUB_TIERS_BY_CLASS : list (string * list TierRow) := [
  ("retail", [stub 0 (Some 100) 6000; stub 100 (Some 500) 5000; stub 500 (Some 2000) 3500; stub 2000 None 2500]);
  ("contractor", [stub 0 (Some 500) 3500; stub 500 (Some 2000) 2500; stub 2000 None 2000]);
  ("wholesale", [stub 0 (Some 1000) 2000; stub 1000 None 1500])].

Definition number_from {A} (l : list A) : list (Z * A) := combine (map Z.of_nat (seq 0 (length l))) l.

Definition add_tiers (set_id : uuid) (rows : list TierRow) : M PricingBook unit :=
  rows <- mlift (rmap stored_tier rows) ;;
  mwrite (set_margin_tiers (fun l => l ++ map (fun x => mk_margin_tier set_id (snd x) (fst x)) (number_from rows))).

Definition seed_class (pricing_class : string) : M PricingBook unit :=
  there <- mreads (fun b => existsb (fun c => String.eqb (cs_pricing_class c) pricing_class) (pb_classes b)) ;;
  if there : bool then mreturn tt else mwrite (set_classes (fun l => l ++ [mk_class_setting pricing_class true])).

Definition seed_set (category : string) (stubs : string * list TierRow) : M PricingBook unit :=
  there <- mreads (fun b => existsb (fun ts => String.eqb (ts_pricing_category ts) category &&
                                               String.eqb (ts_pricing_class ts) (fst stubs)) (pb_tier_sets b)) ;;
  if there : bool then mreturn tt
  else
    id_ <- draw_uuid ;;
    mwrite (set_tier_sets (fun l => l ++ [mk_tier_set id_ category (fst stubs) true])) ;;;
    add_tiers id_ (snd stubs).

Definition seed_default_pricing : M PricingBook unit :=
  some_row <- mreads (fun b => negb (bool_decide (pb_settings b = []))) ;;
  (if some_row : bool then mreturn tt
   else id_ <- draw_uuid ;; mwrite (set_switches (fun l => l ++ [mk_switch id_ false]))) ;;;
  mfor VALID_CLASSES seed_class ;;;
  mfor PRICING_CATEGORIES (fun category => mfor _STUB_TIERS_BY_CLASS (seed_set category)).

(** * The editor *)

(** A handler that raises leaves the tables as the last commit left them. *)
Definition transaction {A} (m : M PricingBook A) : M PricingBook A := fun b =>
  match m b with (Ok a, b') => (Ok a, b') | (Err e, _) => (Err e, b) end.

Record TierIn : Type := mk_tier_in {
  ti_min : float64;
  ti_max : option float64;
  ti_share : float64
}.

Definition valid_range_in (t : TierIn) : bool :=
  float_leb (FNum 0) (ti_min t) && match ti_max t with Some x => float_leb (FNum 0) x | None => true end &&
  float_leb (FNum 0) (ti_share t) && float_gtb (float_of_int 1) (ti_share t).

(** The walk over the sorted rows: bounds in order, the open-ended row last,
    no overlap with the next one. *)
Fixpoint coverage_ok (l : list TierIn) : bool :=
  match l with
  | [] => true
  | t :: rest =>
      negb match ti_max t with Some hi => float_leb hi (ti_min t) | None => false end &&
      match rest with
      | [] => true
      | nxt :: _ => match ti_max t with Some hi => negb (float_gtb hi (ti_min nxt)) | None => false end
      end && coverage_ok rest
  end.

Definition min_before (a b : TierIn) : bool := negb (float_gtb (ti_min a) (ti_min b)).

Definition _validate_tier_coverage (tiers : list TierIn) : result unit :=
  if coverage_ok (stable_sort min_before tiers) then Ok tt else Err (HTTPException 422).

Definition tier_row_of (t : TierIn) : TierRow :=
  mk_tier_row (decimal_of_str (ti_min t)) (option_map decimal_of_str (ti_max t)) (decimal_of_str (ti_share t)).
Definition volume_row_of (t : TierIn) : VolumeTierRow :=
  mk_vtier (decimal_of_str (ti_min t)) (option_map decimal_of_str (ti_max t)) (decimal_of_str (ti_share t)).

Definition replace_tiers (set_id : uuid) (tiers : list TierIn) : M PricingBook unit :=
  if negb (forallb valid_range_in tiers && (1 <=? Z.of_nat (length tiers)) && (Z.of_nat (length tiers) <=? 20))
  then mraise (HTTPException 422)
  else transaction (
    found <- mreads (fun b => existsb (fun ts => N.eqb (ts_id ts) set_id) (pb_tier_sets b)) ;;
    if negb found then mraise (HTTPException 404)
    else
      _ <- mlift (_validate_tier_coverage tiers) ;;
      mwrite (set_margin_tiers (List.filter (fun t => negb (N.eqb (mt_tier_set_id t) set_id)))) ;;;
      add_tiers set_id (map tier_row_of (stable_sort min_before tiers))).

(** Seeding commits on its own. *)
Definition _get_or_seed_settings : M PricingBook PricingSwitch :=
  rows <- mreads pb_settings ;;
  match rows with
  | [s] => mreturn s
  | _ :: _ => mraise MultipleResultsFound
  | [] =>
      seed_default_pricing ;;;
      rows <- mreads pb_settings ;;
      match rows with [s] => mreturn s | _ => mraise MultipleResultsFound end
  end.

(** The switch of the PATCH; a null is refused by the column. *)
Definition patch_settings (volume_discount_enabled : option (option bool)) : M PricingBook unit :=
  s <- _get_or_seed_settings ;;
  match volume_discount_enabled with
  | None => mreturn tt
  | Some None => mraise IntegrityError
  | Some (Some on) =>
      mwrite (set_switches (update_where (fun x => N.eqb (sw_id x) (sw_id s)) (fun x => mk_switch (sw_id x) on)))
  end.

Definition replace_volume_tiers (tiers : list TierIn) : M PricingBook unit :=
  if negb (forallb valid_range_in tiers && (Z.of_nat (length tiers) <=? 20)) then mraise (HTTPException 422)
  else
    s <- _get_or_seed_settings ;;
    if negb (coverage_ok (stable_sort min_before tiers)) then mraise (HTTPException 422)
    else transaction (
      mwrite (set_volume_tiers (List.filter (fun t => negb (N.eqb (cd_settings_id t) (sw_id s))))) ;;;
      rows <- mlift (rmap stored_volume (map volume_row_of (stable_sort min_before tiers))) ;;
      mwrite (set_volume_tiers (fun l => l ++ map (fun x => mk_volume_tier (sw_id s) (snd x) (fst x)) (number_from rows)))).

Definition upsert_class (entry : PricingClassSettings) : M PricingBook unit :=
  let same c := String.eqb (cs_pricing_class c) (cs_pricing_class entry) in
  there <- mreads (fun b => existsb same (pb_classes b)) ;;
  mwrite (set_classes (fun l => if there : bool then update_where same (fun _ => entry) l else l ++ [entry])).

Definition replace_class_settings (classes : list PricingClassSettings) : M PricingBook unit :=
  if negb (forallb (fun c => existsb (String.eqb (cs_pricing_class c)) VALID_CLASSES) classes &&
           (1 <=? Z.of_nat (length classes)) && (Z.of_nat (length classes) <=? 3))
  then mraise (HTTPException 422)
  else if negb (bool_decide (NoDup (map cs_pricing_class classes))) then mraise (HTTPException 422)
  else transaction (mfor classes upsert_class).

(** [preview_pricing]: a configuration error is a 409. *)
Definition preview_pricing (lines : list EstimateLineInput) (customer : CustomerView) (b : PricingBook)
  : result PricedTotals :=
  match (let! settings := hydrate_settings_from_db b in price_estimate lines customer settings) with
  | Err PricingConfigError => Err (HTTPException 409)
  | r => r
  end.
