(* ===== verification/PricingSpec.v ===== *)
(** What the pricing engine promises: the tiers the office can save never
    overlap, whatever is edited in whatever order, so that a cost is priced
    exactly when a tier covers it; a price keeps the margin it was asked for;
    and an estimate's subtotals are exact to far below a cent. *)

From S2P Require Import Prelude PyStr Dates Money PyNum StrFloat TaxFloat DecOrder PricingEngine.
From Stdlib Require Import QArith Qabs Qfield Lqa Setoid.

Local Open Scope Z_scope.

(** * Ranges that do not overlap *)

Definition interval : Type := decimal * option decimal.

(** In order, each interval ended before the next one starts. *)
Fixpoint chained (l : list interval) : Prop :=
  match l with
  | [] => True
  | (lo, hi) :: rest =>
      is_num lo /\
      match hi with
      | None => rest = []
      | Some h => dec_le lo h /\ match rest with [] => True | (lo', _) :: _ => dec_le h lo' end
      end /\ chained rest
  end.

Definition holds_of (x : decimal) (r : interval) : result bool := in_range x (fst r) (snd r).

Lemma below_range x r : dec_lt x (fst r) -> holds_of x r = Ok false.
Proof. intros H. unfold holds_of, in_range. by rewrite (dec_lt_not_le _ _ H). Qed.

(** Past the end of an interval nothing later holds the number. *)
Lemma chained_above x h l : chained l -> dec_lt x h -> match l with [] => True | (lo', _) :: _ => dec_le h lo' end ->
  Forall (fun r => holds_of x r = Ok false) l.
Proof.
  revert h. induction l as [|[lo hi] l IH]; intros h Hl Hx Hh; [done|]. destruct Hl as (_ & Hhi & Hl).
  assert (Hlo : dec_lt x lo) by (by eapply dec_lt_le_trans). constructor; [by apply below_range|].
  destruct hi as [h'|]; [|by subst l]. destruct Hhi as [Hlt Hnext]. apply (IH h'); [done| |done].
  by eapply dec_lt_le_trans.
Qed.

Lemma rfilter_none {A} (p : A -> result bool) l : Forall (fun x => p x = Ok false) l -> rfilter p l = Ok [].
Proof. induction 1 as [|x l H _ IH]; [done|]. cbn. by rewrite H, IH. Qed.

Lemma holds_cases x lo hi : is_num x -> is_num lo -> match hi with Some h => is_num h | None => True end ->
  holds_of x (lo, hi) = Ok false \/
  holds_of x (lo, hi) = Ok true /\ match hi with Some h => dec_lt x h | None => True end.
Proof.
  intros Hx Hlo Hhi. unfold holds_of, in_range. cbn [fst snd].
  destruct (dec_cases lo x Hlo Hx) as [[Hle _]|[_ Hgt]]; [|left; by rewrite Hgt].
  unfold dec_le in Hle. rewrite Hle. cbn [rbind]. destruct hi as [h|]; [|by right].
  destruct (dec_cases h x Hhi Hx) as [[_ H]|[H _]]; [by left|by right].
Qed.

(** At most one interval of a chain holds a number, and the comparisons are all
    defined. *)
Lemma chained_match {A} (rng : A -> interval) x l : is_num x -> chained (map rng l) ->
  (rfilter (fun t => holds_of x (rng t)) l = Ok [] /\ Forall (fun t => holds_of x (rng t) = Ok false) l) \/
  (exists t, rfilter (fun t => holds_of x (rng t)) l = Ok [t] /\ t ∈ l /\ holds_of x (rng t) = Ok true).
Proof.
  intros Hx. induction l as [|t l IH]; [by left|]. cbn [map chained]. destruct (rng t) as [lo hi] eqn:Et.
  intros (Hlo & Hhi & Hl). cbn [rfilter]. rewrite Et. destruct (holds_cases x lo hi Hx Hlo) as [H|[H Hlt]].
  - destruct hi as [h|]; [|done]. destruct Hhi as [Hhi _]. by apply (dec_le_num lo).
  - rewrite H. cbn [rbind]. destruct (IH Hl) as [[-> F]|(t' & -> & Ht & H')].
    + left. split; [done|]. constructor; [by rewrite Et|done].
    + right. exists t'. split; [done|]. split; [by right|done].
  - rewrite H. cbn [rbind]. right. exists t. rewrite Et. split; [|by split; [left|]]. rewrite rfilter_none; [done|].
    destruct hi as [h|]; [|destruct l; [done|discriminate]]. destruct Hhi as [_ Hnext].
    apply (Forall_map rng (fun r => holds_of x r = Ok false)), (chained_above x h); [done..|]. by destruct l.
Qed.

(** * What the editor accepts *)

Definition tier_range (t : TierRow) : interval := (tr_cost_min t, tr_cost_max t).
Definition volume_range (t : VolumeTierRow) : interval := (vt_volume_min_12mo t, vt_volume_max_12mo t).
Definition in_range_of (t : TierIn) : interval := (decimal_of_str (ti_min t), option_map decimal_of_str (ti_max t)).

(** A share in [[0, 1)]. *)
Definition share_ok (m : decimal) : Prop := dec_le _ZERO m /\ dec_lt m _ONE.

(** The floats of a request are floats. *)
Definition tier_in_ok (t : TierIn) : Prop :=
  float_ok (ti_min t) /\ match ti_max t with Some x => float_ok x | None => True end /\ float_ok (ti_share t).

Lemma leb_nonneg x : float_leb (FNum 0) x = true -> float_nonneg x.
Proof. destruct x as [v|s|]; cbn; [|by destruct s|done]. intros H. destruct (Z.ltb_spec v 0); [done|lia]. Qed.

Lemma nonneg_cmp x y : float_nonneg x -> float_nonneg y -> float_leb x y = negb (float_gtb x y).
Proof. by destruct x, y. Qed.

Lemma valid_range_nonneg t : valid_range_in t = true ->
  float_nonneg (ti_min t) /\ match ti_max t with Some x => float_nonneg x | None => True end /\
  float_nonneg (ti_share t) /\ float_gtb (float_of_int 1) (ti_share t) = true.
Proof.
  unfold valid_range_in. rewrite !andb_true_iff. intros [[[H1 H2] H3] H4].
  split; [by apply leb_nonneg|]. split; [|by split; [apply leb_nonneg|]]. destruct (ti_max t); [by apply leb_nonneg|done].
Qed.

(** A share as its column keeps it: four decimals, so that 0.99995 and more
    become the whole. *)
Definition share_stored (m : decimal) : Prop := dec_le _ZERO m /\ dec_le m _ONE.

Lemma str_nonneg x : float_ok x -> float_nonneg x -> dec_le _ZERO (decimal_of_str x).
Proof.
  intros Hok Hpos. assert (Hz : float_ok (FNum 0)) by (vm_compute; reflexivity).
  apply (str_le (FNum 0) _ Hz Hok ltac:(cbn; lia) Hpos). destruct x as [v|s|]; [|by cbn in *; subst s|done].
  cbn in *. destruct (Z.ltb_spec v 0); [lia|done].
Qed.

Lemma share_accepted t : tier_in_ok t -> valid_range_in t = true -> share_ok (decimal_of_str (ti_share t)).
Proof.
  intros (_ & _ & Hok) (_ & _ & Hpos & Hlt)%valid_range_nonneg. split.
  - by apply str_nonneg.
  - assert (_ONE = decimal_of_str (float_of_int 1)) as -> by (vm_compute; reflexivity).
    by apply str_lt.
Qed.

Lemma coverage_chained l : Forall tier_in_ok l -> forallb valid_range_in l = true -> coverage_ok l = true ->
  chained (map in_range_of l).
Proof.
  induction l as [|t l IH]; [done|]. intros [Ht Hl]%Forall_cons [Hv Hvs]%andb_true_iff Hc.
  cbn [coverage_ok] in Hc. apply andb_true_iff in Hc as [[Hb Hn]%andb_true_iff Hc].
  destruct (valid_range_nonneg t Hv) as (Hmin & Hmax & _). destruct Ht as (Omin & Omax & _).
  cbn [map chained]. unfold in_range_of at 1. split; [by apply str_num|]. split; [|by apply IH].
  destruct (ti_max t) as [h|]; cbn [option_map] in *.
  - split.
    + apply dec_lt_le, str_lt; try done. rewrite (nonneg_cmp h), negb_involutive in Hb by done. done.
    + destruct l as [|t' l]; [done|]. apply Forall_cons in Hl as [(Omin' & _) _]. apply andb_true_iff in Hvs as [Hv' _].
      destruct (valid_range_nonneg t' Hv') as (Hmin' & _). cbn. apply str_le; try done. by apply negb_true_iff.
  - destruct l; [done|discriminate].
Qed.

(** * What the columns keep *)

Lemma column_inv p s c e r : 0 <= s -> 0 <= c -> column p s (DFinite c e) = Ok r ->
  exists q, r = DFinite q (- s) /\ 0 <= q /\ (2 * q - 1) * dden e <= 2 * dnum c e * 10 ^ s < (2 * q + 1) * dden e.
Proof.
  intros Hs Hc. unfold column. set (q := if _ <=? _ then _ else _). case_if; [|done]. intros [= <-]. exists q.
  split; [done|]. unfold dnum, dden, q. pose proof (Z.pow_pos_nonneg 10 s ltac:(lia) Hs) as Hp. destruct (Z.leb_spec (- s) e).
  - pose proof (Z.pow_pos_nonneg 10 (e + s) ltac:(lia) ltac:(lia)). split; [nia|].
    assert (10 ^ (e + s) * 10 ^ Z.max 0 (- e) = 10 ^ Z.max 0 e * 10 ^ s) as Ep by (rewrite <- !Z.pow_add_r by lia; f_equal; lia).
    pose proof (Z.pow_pos_nonneg 10 (Z.max 0 (- e)) ltac:(lia) ltac:(lia)).
    replace (2 * (c * 10 ^ Z.max 0 e) * 10 ^ s) with (2 * c * (10 ^ (e + s) * 10 ^ Z.max 0 (- e))) by (rewrite Ep; ring). lia.
  - rewrite (Z.max_l 0 e), (Z.max_r 0 (- e)) by lia. change (10 ^ 0) with 1. set (k := - s - e).
    replace (- e) with (k + s) by lia. rewrite Z.pow_add_r by lia. unfold round_half_up. rewrite (Z.abs_eq c) by done.
    pose proof (Z.pow_pos_nonneg 10 k ltac:(lia) ltac:(lia)) as Hk. set (P := 10 ^ k) in *. clearbody P. set (S := 10 ^ s) in *. clearbody S.
    pose proof (Z.div_mod (2 * c + P) (2 * P) ltac:(lia)) as D1. pose proof (Z.mod_pos_bound (2 * c + P) (2 * P) ltac:(lia)) as D2.
    assert (Hq : Z.sgn c * ((2 * c + P) / (2 * P)) = (2 * c + P) / (2 * P)).
    { destruct (Z.eq_dec c 0) as [->|]; [|rewrite (Z.sgn_pos c) by lia; lia]. rewrite Z.div_small by lia. done. }
    rewrite Hq. assert (0 <= (2 * c + P) / (2 * P)) by (apply Z.div_pos; lia). set (z := (2 * c + P) / (2 * P)) in *. clearbody z. split; [done|]. split; nia.
Qed.

Lemma column_finite p s x r : column p s x = Ok r -> finite x.
Proof. by destruct x. Qed.

Lemma zero_le_finite c e : dec_le _ZERO (DFinite c e) <-> 0 <= c.
Proof.
  unfold _ZERO. rewrite dec_le_finite. unfold dnum, dden. change (Z.max 0 (- 0)) with 0. change (10 ^ 0) with 1.
  pose proof (Z.pow_pos_nonneg 10 (Z.max 0 e) ltac:(lia) ltac:(lia)). nia.
Qed.

Lemma column_nonneg p s x r : 0 <= s -> dec_le _ZERO x -> column p s x = Ok r -> dec_le _ZERO r.
Proof.
  intros Hs Hx H. destruct x as [c e| |]; [|done..]. apply zero_le_finite in Hx.
  destruct (column_inv p s c e r Hs Hx H) as (q & -> & Hq & _). by apply zero_le_finite.
Qed.

Lemma column_mono p s x y x' y' : 0 <= s -> dec_le _ZERO x -> dec_le x y -> column p s x = Ok x' -> column p s y = Ok y' -> dec_le x' y'.
Proof.
  intros Hs Hx Hxy H H'. pose proof (dec_le_trans _ _ _ Hx Hxy) as Hy. destruct x as [c e| |], y as [c' e'| |]; try done.
  apply zero_le_finite in Hx, Hy. destruct (column_inv p s c e x' Hs Hx H) as (q & -> & Hq & B1 & B2).
  destruct (column_inv p s c' e' y' Hs Hy H') as (q' & -> & Hq' & B1' & B2'). apply dec_le_finite in Hxy. apply dec_le_finite.
  assert (q <= q').
  { unfold dden in *. pose proof (Z.pow_pos_nonneg 10 (Z.max 0 (- e)) ltac:(lia) ltac:(lia)) as HD.
    pose proof (Z.pow_pos_nonneg 10 (Z.max 0 (- e')) ltac:(lia) ltac:(lia)) as HD'. pose proof (Z.pow_pos_nonneg 10 s ltac:(lia) Hs) as HS.
    set (D := 10 ^ Z.max 0 (- e)) in *. set (D' := 10 ^ Z.max 0 (- e')) in *. set (S := 10 ^ s) in *.
    set (N := dnum c e) in *. set (N' := dnum c' e') in *. clearbody D D' S N N'.
    assert ((2 * q - 1) * (D * D') < (2 * q' + 1) * (D * D')); [|nia].
    pose proof (Z.mul_le_mono_nonneg_r _ _ D' ltac:(lia) B1). pose proof (proj1 (Z.mul_lt_mono_pos_r D _ _ HD) B2').
    pose proof (Z.mul_le_mono_nonneg_r _ _ S ltac:(lia) Hxy). lia. }
  unfold dnum, dden. pose proof (Z.pow_pos_nonneg 10 (Z.max 0 (- s)) ltac:(lia) ltac:(lia)).
  pose proof (Z.pow_pos_nonneg 10 (Z.max 0 (- - s)) ltac:(lia) ltac:(lia)).
  apply Z.mul_le_mono_nonneg_r; [lia|]. apply Z.mul_le_mono_nonneg_r; lia.
Qed.

Lemma column_share m r : share_ok m -> column 6 4 m = Ok r -> share_stored r.
Proof.
  intros [H0 H1] H. split; [exact (column_nonneg 6 4 m r ltac:(lia) H0 H)|].
  assert (Hle : dec_le m _ONE) by (by apply dec_lt_le).
  assert (E : column 6 4 _ONE = Ok (DFinite 10000 (-4))) by (vm_compute; reflexivity).
  apply (dec_le_trans _ (DFinite 10000 (-4))); [exact (column_mono 6 4 _ _ _ _ ltac:(lia) H0 Hle H E)|by vm_compute].
Qed.

(** * Rows replaced wholesale *)

Section Replaced.
Context {Row T : Type} (mk : uuid -> Row -> Z -> T) (key : T -> uuid) (row : T -> Row) (ord : T -> Z).
Hypothesis Hkey : forall s r i, key (mk s r i) = s.
Hypothesis Hrow : forall s r i, row (mk s r i) = r.
Hypothesis Hord : forall s r i, ord (mk s r i) = i.

Definition rows_of (s : uuid) (l : list T) : list Row :=
  map row (stable_sort (fun a b => ord a <=? ord b) (List.filter (fun t => N.eqb (key t) s) l)).

Definition numbered (s : uuid) (rows : list Row) : list T := map (fun x => mk s (snd x) (fst x)) (number_from rows).

Lemma numbered_ordered s rows k :
  ordered (fun a b => ord a <=? ord b) (map (fun x => mk s (snd x) (fst x)) (combine (map Z.of_nat (seq k (length rows))) rows)).
Proof using Hord.
  revert k. induction rows as [|r rows IH]; intros k; [done|]. cbn [length seq map combine].
  destruct rows as [|r' rows]; [done|]. cbn [length seq map combine] in *. split; [|apply (IH (S k))].
  rewrite !Hord. apply Z.leb_le. cbn [fst]. lia.
Qed.

Lemma numbered_rows s rows k : map row (map (fun x => mk s (snd x) (fst x)) (combine (map Z.of_nat (seq k (length rows))) rows)) = rows.
Proof using Hrow. revert k. induction rows as [|r rows IH]; intros k; [done|]. cbn. by rewrite Hrow, IH. Qed.

Lemma numbered_keys s rows t : t ∈ numbered s rows -> key t = s.
Proof using Hkey. unfold numbered. rewrite list_elem_of_fmap. intros (x & -> & _). apply Hkey. Qed.

Lemma rows_of_added s s0 l rows : (forall t, t ∈ l -> key t <> s0) ->
  rows_of s (l ++ numbered s0 rows) = if N.eqb s0 s then rows else rows_of s l.
Proof using Hkey Hrow Hord.
  intros Hl. unfold rows_of. rewrite List.filter_app. destruct (N.eqb_spec s0 s) as [->|Hne].
  - rewrite filter_none, filter_all.
    + cbn [app]. unfold numbered, number_from. rewrite stable_sort_id by apply numbered_ordered. apply numbered_rows.
    + intros t Ht. rewrite (numbered_keys _ _ _ Ht). apply N.eqb_refl.
    + intros t Ht. by apply N.eqb_neq, Hl.
  - rewrite (filter_none _ (numbered s0 rows)); [by rewrite app_nil_r|].
    intros t Ht. rewrite (numbered_keys _ _ _ Ht). by apply N.eqb_neq.
Qed.

Lemma rows_of_removed s s0 l : s0 <> s -> rows_of s (List.filter (fun t => negb (N.eqb (key t) s0)) l) = rows_of s l.
Proof.
  intros Hne. unfold rows_of. do 2 f_equal. induction l as [|t l IH]; [done|]. cbn.
  destruct (N.eqb_spec (key t) s0) as [E|E]; cbn; [|by rewrite IH].
  destruct (N.eqb_spec (key t) s) as [F|F]; [congruence|done].
Qed.

Lemma rows_of_replaced s s0 l rows :
  rows_of s (List.filter (fun t => negb (N.eqb (key t) s0)) l ++ numbered s0 rows) = if N.eqb s0 s then rows else rows_of s l.
Proof using Hkey Hrow Hord.
  rewrite rows_of_added.
  - destruct (N.eqb_spec s0 s); [done|]. by apply rows_of_removed.
  - intros t Ht%elem_of_filter_b. destruct Ht as [_ Ht]. by apply negb_true_iff, N.eqb_neq in Ht.
Qed.
End Replaced.

Definition tiers_ok {Row} (rng : Row -> interval) (share : Row -> decimal) (l : list Row) : Prop :=
  chained (map rng l) /\ Forall (fun t => share_stored (share t)) l.

(** Rows as they are handed to the columns. *)
Definition savable {Row} (rng : Row -> interval) (share : Row -> decimal) (l : list Row) : Prop :=
  chained (map rng l) /\ Forall (fun t => dec_le _ZERO (fst (rng t)) /\ share_ok (share t)) l.

Section Stored.
Context {Row : Type} (rng : Row -> interval) (share : Row -> decimal) (stored : Row -> result Row) (p : Z).
Hypothesis stored_inv : forall t t', stored t = Ok t' ->
  column p 2 (fst (rng t)) = Ok (fst (rng t')) /\ optional (column p 2) (snd (rng t)) = Ok (snd (rng t')) /\
  column 6 4 (share t) = Ok (share t').

Lemma stored_tiers_ok l l' : savable rng share l -> rmap stored l = Ok l' -> tiers_ok rng share l'.
Proof using stored_inv.
  intros [Hc Hs]. revert l'. induction l as [|t l IH]; intros l' H; cbn [rmap] in H; [by injection H as <-; split|].
  apply rbind_Ok in H as (t' & Ht & H). apply rbind_Ok in H as (ts & Hts & H). injection H as <-.
  apply Forall_cons in Hs as [[H0 Hsh] Hs]. cbn [map chained] in Hc.
  destruct (stored_inv t t' Ht) as (E1 & E2 & E3). destruct (rng t) as [lo hi] eqn:Er. cbn [fst snd] in *. destruct Hc as (_ & Hhi & Hc).
  destruct (IH Hc Hs ts Hts) as [IHc IHs]. split; [|constructor; [exact (column_share _ _ Hsh E3)|done]].
  cbn [map chained]. destruct (rng t') as [lo' hi'] eqn:Er'. cbn [fst snd] in *.
  split; [apply (dec_le_num _ZERO), (column_nonneg p 2 lo lo'); done|]. split; [|done].
  destruct hi as [h|]; cbn [optional] in E2; [|injection E2 as <-; subst; destruct l; [cbn in Hts; by injection Hts as <-|discriminate]].
  apply rbind_Ok in E2 as (h' & Eh & E2). injection E2 as <-. destruct Hhi as [Hle Hnext].
  split; [exact (column_mono p 2 _ _ _ _ ltac:(lia) H0 Hle E1 Eh)|].
  destruct l as [|u l]; [cbn in Hts; injection Hts as <-; exact I|]. cbn [rmap] in Hts.
  apply rbind_Ok in Hts as (u' & Hu & Hts). apply rbind_Ok in Hts as (us & _ & Hts). injection Hts as <-.
  destruct (stored_inv u u' Hu) as (F1 & _ & _). cbn [map] in Hnext |- *. destruct (rng u) as [ulo uhi], (rng u') as [ulo' uhi']. cbn [fst] in *.
  exact (column_mono p 2 _ _ _ _ ltac:(lia) (dec_le_trans _ _ _ H0 Hle) Hnext Eh F1).
Qed.
End Stored.

Lemma stored_tier_inv t t' : stored_tier t = Ok t' ->
  column 12 2 (fst (tier_range t)) = Ok (fst (tier_range t')) /\ optional (column 12 2) (snd (tier_range t)) = Ok (snd (tier_range t')) /\
  column 6 4 (tr_margin_pct t) = Ok (tr_margin_pct t').
Proof.
  unfold stored_tier. intros (lo & H1 & H)%rbind_Ok. apply rbind_Ok in H as (hi & H2 & H). apply rbind_Ok in H as (m & H3 & H).
  by injection H as <-.
Qed.
Lemma stored_volume_inv t t' : stored_volume t = Ok t' ->
  column 14 2 (fst (volume_range t)) = Ok (fst (volume_range t')) /\ optional (column 14 2) (snd (volume_range t)) = Ok (snd (volume_range t')) /\
  column 6 4 (vt_discount_pct t) = Ok (vt_discount_pct t').
Proof.
  unfold stored_volume. intros (lo & H1 & H)%rbind_Ok. apply rbind_Ok in H as (hi & H2 & H). apply rbind_Ok in H as (m & H3 & H).
  by injection H as <-.
Qed.

(** What holds of the tables whatever the office saved. *)
Record book_ok (b : PricingBook) : Prop := mk_book_ok {
  bk_tiers : forall s, tiers_ok tier_range tr_margin_pct (tier_rows s b);
  bk_volumes : forall s, tiers_ok volume_range vt_discount_pct (volume_rows s b);
  bk_tier_ids : Forall (fun t => mt_tier_set_id t < pb_next_uuid b)%N (pb_margin_tiers b);
  bk_set_ids : Forall (fun ts => ts_id ts < pb_next_uuid b)%N (pb_tier_sets b)
}.

Definition stays_ok (b b' : PricingBook) : Prop := book_ok b -> book_ok b'.
#[local] Instance stays_ok_preorder : PreOrder stays_ok.
Proof. split; unfold stays_ok; red; auto. Qed.

Lemma accepted_ok {Row} (rng : Row -> interval) (share : Row -> decimal) (of_in : TierIn -> Row) l :
  (forall t, rng (of_in t) = in_range_of t) -> (forall t, share (of_in t) = decimal_of_str (ti_share t)) ->
  Forall tier_in_ok l -> forallb valid_range_in l = true -> coverage_ok (stable_sort min_before l) = true ->
  savable rng share (map of_in (stable_sort min_before l)).
Proof.
  intros Hrng Hshare Hok Hv Hc. pose proof (stable_sort_perm min_before l) as Hp.
  assert (Hok' : Forall tier_in_ok (stable_sort min_before l)) by (by rewrite Hp).
  assert (Hv' : forallb valid_range_in (stable_sort min_before l) = true).
  { apply forallb_elem. intros x Hx. rewrite Hp in Hx. by apply (proj1 (forallb_elem _ _) Hv). }
  split.
  - rewrite map_map, (map_ext _ in_range_of Hrng). by apply coverage_chained.
  - apply Forall_map. rewrite Forall_forall in *. intros t Ht. pose proof (proj1 (forallb_elem _ _) Hv' t Ht) as Hvt.
    destruct (valid_range_nonneg t Hvt) as (Hmin & _). rewrite Hrng, Hshare. split; [|apply share_accepted; auto].
    apply str_nonneg; [by apply (Hok' t Ht)|done].
Qed.

(** * Every request keeps the tables sound *)

Inductive book_request : Type :=
  | Seed
  | SaveTiers (set_id : uuid) (tiers : list TierIn)
  | SaveSwitch (on : option (option bool))
  | SaveVolumeTiers (tiers : list TierIn)
  | SaveClasses (classes : list PricingClassSettings).

Definition run_request (q : book_request) : M PricingBook unit :=
  match q with
  | Seed => seed_default_pricing
  | SaveTiers set_id tiers => replace_tiers set_id tiers
  | SaveSwitch on => patch_settings on
  | SaveVolumeTiers tiers => replace_volume_tiers tiers
  | SaveClasses classes => replace_class_settings classes
  end.

Definition request_ok (q : book_request) : Prop :=
  match q with SaveTiers _ tiers | SaveVolumeTiers tiers => Forall tier_in_ok tiers | _ => True end.

Definition book_step (b b' : PricingBook) : Prop := exists q, request_ok q /\ b' = snd (run_request q b).

Lemma keeps_transaction {A} (m : M PricingBook A) : keeps stays_ok m -> keeps stays_ok (transaction m).
Proof. intros H b. unfold transaction. specialize (H b). destruct (m b) as [[a|e] b']; [done|by intros ?]. Qed.

(** Writes that leave both tier tables alone. *)
Lemma keeps_switches f : keeps stays_ok (mwrite (set_switches f)).
Proof. intros b [H1 H2 H3 H4]. by split. Qed.
Lemma keeps_classes f : keeps stays_ok (mwrite (set_classes f)).
Proof. intros b [H1 H2 H3 H4]. by split. Qed.

Lemma draw_ok b : book_ok b -> book_ok (snd (draw_uuid b)).
Proof.
  intros [H1 H2 H3 H4]. split; [done..| |]; cbn [draw_uuid snd pb_margin_tiers pb_tier_sets pb_next_uuid].
  - eapply Forall_impl; [exact H3|]. cbn. intros. lia.
  - eapply Forall_impl; [exact H4|]. cbn. intros. lia.
Qed.

Lemma add_tiers_ok s rows b : book_ok b -> savable tier_range tr_margin_pct rows ->
  (forall t, t ∈ pb_margin_tiers b -> mt_tier_set_id t <> s) -> (s < pb_next_uuid b)%N -> book_ok (snd (add_tiers s rows b)).
Proof.
  intros Hb Hrows Hnew Hlt. unfold add_tiers, mseq, mlift. destruct (rmap stored_tier rows) as [rows'|x] eqn:Er; [|done].
  pose proof (stored_tiers_ok tier_range tr_margin_pct stored_tier 12 stored_tier_inv rows rows' Hrows Er) as Hok.
  destruct Hb as [H1 H2 H3 H4]. unfold mwrite. cbn [snd]. split; [|done| |done].
  - intros s'. match goal with |- tiers_ok _ _ (tier_rows s' ?b') => assert (tier_rows s' b' = if N.eqb s s' then rows' else tier_rows s' b)
      as -> end; [|by case_if]. by apply (rows_of_added mk_margin_tier mt_tier_set_id mt_row mt_sort_order).
  - cbn. apply Forall_app. split; [done|]. apply Forall_forall. intros t Ht.
    by rewrite (numbered_keys mk_margin_tier mt_tier_set_id (fun _ _ _ => eq_refl) _ _ _ Ht).
Qed.

(** ** The starter rows *)

Lemma stubs_ok : Forall (fun x => savable tier_range tr_margin_pct (snd x)) _STUB_TIERS_BY_CLASS.
Proof.
  repeat (apply Forall_cons; split; [split; [cbn; repeat split; done|repeat (apply Forall_cons; split; [by repeat split|]); done]|]). done.
Qed.

Lemma seed_set_ok category stubs : savable tier_range tr_margin_pct (snd stubs) -> keeps stays_ok (seed_set category stubs).
Proof.
  intros Hs b Hb. unfold seed_set. cbn [mseq mreads]. unfold mseq at 1, mreads. cbn [snd fst]. case_if; [done|].
  pose proof (draw_ok b Hb) as Hd. unfold mseq, draw_uuid in *. cbn [snd mwrite] in *.
  set (b1 := mk_book _ _ _ _ _ _) in Hd. assert (Hnext : pb_next_uuid b1 = (pb_next_uuid b + 1)%N) by done.
  unfold mwrite. apply add_tiers_ok; [|done| |].
  - destruct Hd as [D1 D2 D3 D4]. split; [done..|]. cbn. apply Forall_app. split; [done|]. constructor; [|done]. cbn. lia.
  - intros t Ht Eq. destruct Hb as [_ _ H3 _]. rewrite Forall_forall in H3. specialize (H3 t Ht). lia.
  - cbn. lia.
Qed.

Lemma seed_ok : keeps stays_ok seed_default_pricing.
Proof.
  unfold seed_default_pricing. apply keeps_seq; [apply _|apply keeps_reads, _|]. intros some_row.
  apply keeps_seq; [apply _| |intros _].
  { destruct some_row; [apply keeps_return, _|]. apply keeps_seq; [apply _|intros b; exact (draw_ok b)|].
    intros id_. apply keeps_switches. }
  apply keeps_seq; [apply _| |intros _].
  - apply keeps_for; [apply _|]. intros c _. unfold seed_class. apply keeps_seq; [apply _|apply keeps_reads, _|].
    intros []; [apply keeps_return, _|apply keeps_classes].
  - apply keeps_for; [apply _|]. intros category _. apply keeps_for; [apply _|]. intros stubs Hs.
    apply seed_set_ok. pose proof stubs_ok as H. rewrite Forall_forall in H. by apply H.
Qed.

Lemma get_or_seed_ok : keeps stays_ok _get_or_seed_settings.
Proof.
  unfold _get_or_seed_settings. apply keeps_seq; [apply _|apply keeps_reads, _|].
  intros [|s [|s' l]]; [|apply keeps_return, _|apply keeps_raise, _].
  apply keeps_seq; [apply _|apply seed_ok|intros _]. apply keeps_seq; [apply _|apply keeps_reads, _|].
  intros [|s [|s' l]]; [apply keeps_raise, _|apply keeps_return, _|apply keeps_raise, _].
Qed.

(** ** The saves *)

Lemma replace_tiers_ok set_id tiers : Forall tier_in_ok tiers -> keeps stays_ok (replace_tiers set_id tiers).
Proof.
  intros Hok. unfold replace_tiers. case_if; [apply keeps_raise, _|]. apply negb_false_iff in E.
  apply andb_true_iff in E as [[Hv _]%andb_true_iff _].
  intros b Hb. unfold transaction, mseq at 1, mreads. destruct (existsb _ _) eqn:Ef; [|done]. cbn [negb].
  unfold mseq at 1, mlift, _validate_tier_coverage. destruct (coverage_ok _) eqn:Ec; [|done].
  assert (Hid : (set_id < pb_next_uuid b)%N).
  { apply existsb_elem in Ef as (ts & Hts & E%N.eqb_eq). destruct Hb as [_ _ _ H4]. rewrite Forall_forall in H4. subst set_id. by apply H4. }
  pose proof (accepted_ok tier_range tr_margin_pct tier_row_of tiers (fun _ => eq_refl) (fun _ => eq_refl) Hok Hv Ec) as Hrows.
  unfold add_tiers, mseq, mlift, mwrite. destruct (rmap stored_tier _) as [rows|x] eqn:Er; [|done].
  pose proof (stored_tiers_ok tier_range tr_margin_pct stored_tier 12 stored_tier_inv _ rows Hrows Er) as Hrows'.
  destruct Hb as [H1 H2 H3 H4]. cbn [snd]. split; [|done| |done].
  - intros s. match goal with |- tiers_ok _ _ (tier_rows s ?b') => assert (tier_rows s b' = if N.eqb set_id s
      then rows else tier_rows s b) as -> end; [|by case_if].
    by apply (rows_of_replaced mk_margin_tier mt_tier_set_id mt_row mt_sort_order).
  - cbn. apply Forall_app. split; [apply Forall_forall; intros t [Ht _]%elem_of_filter_b; rewrite Forall_forall in H3; by apply H3|].
    apply Forall_forall. intros t Ht. by rewrite (numbered_keys mk_margin_tier mt_tier_set_id (fun _ _ _ => eq_refl) _ _ _ Ht).
Qed.

Lemma replace_volume_ok tiers : Forall tier_in_ok tiers -> keeps stays_ok (replace_volume_tiers tiers).
Proof.
  intros Hok. unfold replace_volume_tiers. case_if; [apply keeps_raise, _|]. apply negb_false_iff in E.
  apply andb_true_iff in E as [Hv _]. apply keeps_seq; [apply _|apply get_or_seed_ok|]. intros s.
  destruct (coverage_ok _) eqn:Ec; [|apply keeps_raise, _]. cbn [negb]. intros b Hb. unfold transaction, mseq, mlift, mwrite.
  pose proof (accepted_ok volume_range vt_discount_pct volume_row_of tiers (fun _ => eq_refl) (fun _ => eq_refl) Hok Hv Ec) as Hrows.
  destruct (rmap stored_volume _) as [rows|x] eqn:Er; [|done].
  pose proof (stored_tiers_ok volume_range vt_discount_pct stored_volume 14 stored_volume_inv _ rows Hrows Er) as Hrows'.
  destruct Hb as [H1 H2 H3 H4]. cbn [snd]. split; [done| |done..]. intros s'.
  match goal with |- tiers_ok _ _ (volume_rows s' ?b') => assert (volume_rows s' b' = if N.eqb (sw_id s) s'
      then rows else volume_rows s' b) as -> end; [|by case_if].
  by apply (rows_of_replaced mk_volume_tier cd_settings_id cd_row cd_sort_order).
Qed.

Lemma book_request_keeps q : request_ok q -> keeps stays_ok (run_request q).
Proof.
  destruct q as [|set_id tiers|on|tiers|classes]; cbn [run_request request_ok]; intros Hq.
  - apply seed_ok.
  - by apply replace_tiers_ok.
  - unfold patch_settings. apply keeps_seq; [apply _|apply get_or_seed_ok|].
    intros s. destruct on as [[on|]|]; [apply keeps_switches|apply keeps_raise, _|apply keeps_return, _].
  - by apply replace_volume_ok.
  - unfold replace_class_settings. case_if; [apply keeps_raise, _|]. case_if; [apply keeps_raise, _|].
    apply keeps_transaction, keeps_for; [apply _|]. intros c _. unfold upsert_class.
    apply keeps_seq; [apply _|apply keeps_reads, _|]. intros there. apply keeps_classes.
Qed.

Lemma reachable_book b b' : book_ok b -> rtc book_step b b' -> book_ok b'.
Proof. intros Hb H. induction H as [|b b1 b2 (q & Hq & ->) _ IH]; [done|]. apply IH. by apply book_request_keeps. Qed.

(** * Prices *)

Local Open Scope Q_scope.

Lemma qv_zero : qv _ZERO == 0.
Proof. reflexivity. Qed.
Lemma qv_one : qv _ONE == 1.
Proof. reflexivity. Qed.

Lemma share_finite m : share_ok m -> finite m /\ 0 <= qv m /\ qv m < 1.
Proof.
  intros [H0 H1]. assert (Hf : finite m) by (by destruct m as [c e|[]|]). split; [done|].
  apply dec_le_qv in H0; [|done..]. apply dec_lt_qv in H1; [|done..]. rewrite qv_zero in H0. by rewrite qv_one in H1.
Qed.

Lemma validate_share m : finite m -> _validate_margin m = Ok tt <-> share_ok m.
Proof.
  intros Hf. unfold _validate_margin, share_ok.
  destruct (dec_cases _ZERO m) as [[H1 H2]|[H1 H2]]; [done|by destruct m|..].
  - rewrite H2. cbn [rbind]. destruct (dec_cases _ONE m) as [[H3 H4]|[H3 H4]]; [done|by destruct m|..].
    + unfold dec_le in H3. rewrite H3. cbn. unfold dec_lt. split; [done|]. intros [_ H]. congruence.
    + rewrite H4. cbn. done.
  - unfold dec_lt in H1. rewrite H1. cbn. unfold dec_le. split; [done|]. intros [H _]. congruence.
Qed.

Lemma validate_cases m : finite m -> _validate_margin m = Ok tt \/ _validate_margin m = Err PricingConfigError.
Proof.
  intros Hf. unfold _validate_margin. destruct (dec_cases _ZERO m) as [[_ ->]|[H _]]; [done|by destruct m|..].
  - cbn [rbind]. destruct (dec_cases _ONE m) as [[H _]|[_ ->]]; [done|by destruct m|..]; [unfold dec_le in H; rewrite H; by right|by left].
  - unfold dec_lt in H. rewrite H. by right.
Qed.

Lemma nonneg_passes c : finite c -> 0 <= qv c -> dec_ltb c _ZERO = Ok false.
Proof.
  intros Hf H. destruct (dec_cases _ZERO c) as [[_ E]|[E _]]; [done|by destruct c|done|].
  apply dec_lt_qv in E; [|done..]. rewrite qv_zero in E. lra.
Qed.

(** The price is the cost over the rest of the margin. *)
Lemma sell_exact c m : finite c -> 0 <= qv c -> share_ok m ->
  exists s, sell_from_cost c m = Ok s /\ finite s /\ 0 <= qv s /\ within 4 (qv s) (qv c / (1 - qv m)).
Proof.
  intros Hf Hc Hm. destruct (share_finite m Hm) as (Hfm & H0 & H1). unfold sell_from_cost.
  rewrite (proj2 (validate_share m Hfm) Hm). cbn [rbind]. rewrite nonneg_passes by done. cbn [rbind].
  destruct (dec_sub_rel _ONE m) as (r & -> & Hfr & Hr); [done..|]. cbn [rbind]. rewrite qv_one in Hr.
  destruct (within_inv 1 (qv r) (1 - qv m)) as [Hrp Hri]; [lia|lra|done|].
  destruct (dec_div_rel c r Hf Hfr Hrp) as (s & -> & Hfs & Hs). exists s. split; [done|]. split; [done|].
  assert (Hq : 0 <= qv c / (1 - qv m)) by (apply Qle_shift_div_l; lra).
  assert (Hw : within 4 (qv s) (qv c / (1 - qv m))).
  { apply (within_trans 1 2 _ (qv c / qv r)); [lia..|done|done|]. unfold Qdiv. rewrite (Qmult_comm (qv c)), (Qmult_comm (qv c)).
    by apply within_scale. }
  split; [|done]. eapply within_nonneg; [|exact Hw|done]. lia.
Qed.

Lemma priced_ok c m source : finite c -> 0 <= qv c -> share_ok m ->
  exists s p, priced c m source = Ok (mk_line_price c m s p source) /\ finite s /\ 0 <= qv s /\ finite p /\
    within 4 (qv s) (qv c / (1 - qv m)) /\ within 1 (qv p) (qv s - qv c).
Proof.
  intros Hf Hc Hm. unfold priced. destruct (share_finite m Hm) as (Hfm & _). rewrite (proj2 (validate_share m Hfm) Hm). cbn [rbind].
  destruct (sell_exact c m Hf Hc Hm) as (s & -> & Hfs & Hs & Hw). cbn [rbind].
  destruct (dec_sub_rel s c Hfs Hf) as (p & -> & Hfp & Hp). cbn [rbind]. by exists s, p.
Qed.

(** ** Tiers *)

Lemma hydrated_set b settings key rows : hydrate_settings_from_db b = Ok settings ->
  pv_tier_sets settings !! key = Some rows -> exists s, rows = tier_rows s b.
Proof.
  unfold hydrate_settings_from_db. destruct (pb_settings b) as [|sw l]; [done|]. intros [= <-]. cbn [pv_tier_sets].
  unfold hydrate_sets. generalize (List.filter ts_active (pb_tier_sets b)). intros sets.
  assert (Hgen : forall m : gmap (string * string) (list TierRow), (forall k r, m !! k = Some r -> exists s, r = tier_rows s b) ->
    foldl (fun m ts => <[(ts_pricing_category ts, ts_pricing_class ts) := tier_rows (ts_id ts) b]> m) m sets !! key = Some rows ->
    exists s, rows = tier_rows s b).
  { induction sets as [|ts sets IH]; intros m Hm; cbn [foldl]; [apply Hm|]. apply IH. intros k r.
    rewrite lookup_insert_Some. intros [[_ <-]|[_ H]]; [eauto|by eapply Hm]. }
  apply Hgen. intros k r. by rewrite lookup_empty.
Qed.

Lemma hydrated_volumes b settings : hydrate_settings_from_db b = Ok settings ->
  exists s, pv_volume_tiers settings = volume_rows s b.
Proof. unfold hydrate_settings_from_db. destruct (pb_settings b) as [|sw l]; [done|]. intros [= <-]. by exists (sw_id sw). Qed.

Lemma find_tier_cases l cost : is_num cost -> tiers_ok tier_range tr_margin_pct l ->
  Forall (fun t => in_range cost (tr_cost_min t) (tr_cost_max t) = Ok false) l /\ _find_tier l cost = Err PricingConfigError \/
  exists t, t ∈ l /\ in_range cost (tr_cost_min t) (tr_cost_max t) = Ok true /\ _find_tier l cost = Ok t.
Proof.
  intros Hx [Hc _]. unfold _find_tier. destruct (chained_match tier_range cost l Hx Hc) as [[E F]|(t & E & Ht & H)].
  - left. split; [exact F|]. change (fun t => in_range _ _ _) with (fun t => holds_of cost (tier_range t)). by rewrite E.
  - right. exists t. split; [done|]. split; [exact H|].
    change (fun t => in_range _ _ _) with (fun t => holds_of cost (tier_range t)). by rewrite E.
Qed.

(** A stored share is a share, or the whole, which the engine refuses. *)
Lemma stored_cases m : share_stored m -> finite m /\ (share_ok m \/ qv m == 1 /\ dec_le _ONE m).
Proof.
  intros [H0 H1]. assert (Hf : finite m) by (by destruct m as [c e|[]|]). split; [done|].
  destruct (dec_cases _ONE m) as [[H _]|[H _]]; [done|by destruct m|right|by left].
  split; [|done]. apply dec_le_qv in H1, H; [|done..]. rewrite qv_one in H1, H. lra.
Qed.

Lemma whole_refused c m source : finite m -> 0 <= qv m -> dec_le _ONE m -> priced c m source = Err PricingConfigError.
Proof. intros Hf H0 H1. unfold priced, _validate_margin. rewrite nonneg_passes by done. cbn [rbind]. unfold dec_le in H1. by rewrite H1. Qed.

(** The volume tier that covers the customer's volume. *)
Definition volume_covers (customer : CustomerView) (t : VolumeTierRow) : Prop :=
  in_range (cv_cached_rolling_volume customer) (vt_volume_min_12mo t) (vt_volume_max_12mo t) = Ok true.

Lemma volume_discount_ok settings customer cls : tiers_ok volume_range vt_discount_pct (pv_volume_tiers settings) ->
  _resolve_class customer = Ok cls -> is_num (cv_cached_rolling_volume customer) ->
  (exists pct, _find_volume_discount settings customer = Ok pct /\ share_ok pct) \/
  (exists t, t ∈ pv_volume_tiers settings /\ volume_covers customer t /\ qv (vt_discount_pct t) == 1 /\
     _find_volume_discount settings customer = Err PricingConfigError).
Proof.
  intros [Hc Hs] Hcls Hx. assert (Hz : share_ok _ZERO) by done. unfold _find_volume_discount.
  case_if; [left; by exists _ZERO|]. destruct (pv_volume_tiers settings) as [|t0 l0] eqn:El; [left; by exists _ZERO|]. rewrite <- El in *.
  rewrite Hcls. cbn [rbind]. case_if; [left; by exists _ZERO|].
  change (fun t => in_range _ _ _) with (fun t => holds_of (cv_cached_rolling_volume customer) (volume_range t)).
  destruct (chained_match volume_range _ _ Hx Hc) as [[-> _]|(t & -> & Ht & Hh)]; cbn [rbind]; [left; by exists _ZERO|].
  rewrite Forall_forall in Hs. destruct (stored_cases _ (Hs t Ht)) as [Hf [Hsh|[H1 Hle]]].
  - left. destruct (share_finite _ Hsh) as (_ & H0 & _). rewrite nonneg_passes by done. cbn [rbind].
    destruct Hsh as [Hs0 Hs1]. rewrite (dec_lt_not_le _ _ Hs1). cbn [rbind]. by eexists.
  - right. exists t. rewrite nonneg_passes by (done || rewrite H1; lra). cbn [rbind]. unfold dec_le in Hle. by rewrite Hle.
Qed.

(** C20: the tiers the office can save, as the engine reads them.  Whatever is
    seeded, saved or refused, in whatever order and however the columns round
    it, the tiers of a set never overlap, and three things can happen to a cost:
    one tier covers it and its margin is a share, then it is priced at that
    margin; one covers it whose margin the column rounded up to the whole (the
    editor takes shares up to but not including 1, the column keeps four
    decimals), then it is refused as a configuration error; or none covers it,
    and it is refused likewise.  The same holds of the volume discount: it is
    defined and less than the whole, or refused because the covering volume
    tier's discount was rounded up to the whole. *)
Theorem cost_priced_iff_covered b0 b settings customer cls category rows cost
    (Hb0 : book_ok b0) (Hsteps : rtc book_step b0 b) (Hset : hydrate_settings_from_db b = Ok settings)
    (Hlabor : str_lower category <> "labor") (Hover : cv_margin_override_pct customer = None)
    (Hcls : _resolve_class customer = Ok cls) (Hrows : pv_tier_sets settings !! (category, cls) = Some rows)
    (Hf : finite cost) (Hcost : 0 <= qv cost) (Hvol : is_num (cv_cached_rolling_volume customer)) :
  ((exists pct, _find_volume_discount settings customer = Ok pct /\ share_ok pct) \/
   (exists t, t ∈ pv_volume_tiers settings /\ volume_covers customer t /\ qv (vt_discount_pct t) == 1 /\
      _find_volume_discount settings customer = Err PricingConfigError)) /\
  ((exists t p, t ∈ rows /\ in_range cost (tr_cost_min t) (tr_cost_max t) = Ok true /\ share_ok (tr_margin_pct t) /\
      price_line cost category customer settings None = Ok p /\ lp_margin_pct p = tr_margin_pct t /\
      lp_source p = if String.eqb cls "wholesale" then wholesale_tier else tier) \/
   (exists t, t ∈ rows /\ in_range cost (tr_cost_min t) (tr_cost_max t) = Ok true /\ qv (tr_margin_pct t) == 1 /\
      price_line cost category customer settings None = Err PricingConfigError) \/
   Forall (fun t => in_range cost (tr_cost_min t) (tr_cost_max t) = Ok false) rows /\
   price_line cost category customer settings None = Err PricingConfigError).
Proof.
  pose proof (reachable_book b0 b Hb0 Hsteps) as [Ht Hv _ _].
  destruct (hydrated_set _ _ _ _ Hset Hrows) as [s ->]. destruct (hydrated_volumes _ _ Hset) as [sv Esv].
  split; [apply (volume_discount_ok settings customer cls); [rewrite Esv; apply Hv|done..]|].
  unfold price_line. destruct (String.eqb_spec (str_lower category) "labor"); [done|]. rewrite Hover, Hcls. cbn [rbind].
  unfold _lookup_tier_set. rewrite Hrows. specialize (Ht s). destruct (tier_rows s b) as [|t0 l0] eqn:El; [by right; right|].
  rewrite <- El in *. cbn [rbind]. destruct (find_tier_cases _ cost ltac:(by destruct cost) Ht) as [[F ->]|(t & Hin & Hr & ->)].
  - by right; right.
  - cbn [rbind]. destruct Ht as [_ Hs]. rewrite Forall_forall in Hs. destruct (stored_cases _ (Hs t Hin)) as [Hfm [Hsh|[H1 Hle]]].
    + left. destruct (priced_ok cost (tr_margin_pct t) (if String.eqb cls "wholesale" then wholesale_tier else tier) Hf Hcost Hsh)
        as (sl & p & -> & _). by exists t, (mk_line_price cost (tr_margin_pct t) sl p (if String.eqb cls "wholesale" then wholesale_tier else tier)).
    + right; left. exists t. rewrite whole_refused by (done || rewrite H1; lra). done.
Qed.

(** ** One line *)

Lemma validated m : _validate_margin m = Ok tt -> share_ok m.
Proof.
  intros H. destruct m as [c e|s|]; [by apply validate_share|by destruct s|done].
Qed.

Lemma priced_inv c m source p : finite c -> priced c m source = Ok p ->
  0 <= qv c /\ share_ok m /\ lp_price_cost p = c /\ lp_margin_pct p = m /\ lp_source p = source /\
  finite (lp_sell p) /\ 0 <= qv (lp_sell p) /\ finite (lp_profit p) /\
  within 4 (qv (lp_sell p)) (qv c / (1 - qv m)) /\ within 1 (qv (lp_profit p)) (qv (lp_sell p) - qv c).
Proof.
  intros Hf H. assert (Hm : share_ok m).
  { apply validated. unfold priced in H. by destruct (_validate_margin m) as [[]|]. }
  assert (Hc : 0 <= qv c).
  { destruct (dec_cases _ZERO c) as [[E _]|[E _]]; [done|by destruct c|by apply dec_le_qv in E|exfalso].
    destruct (share_finite m Hm) as (Hfm & _). unfold priced, sell_from_cost in H. rewrite (proj2 (validate_share m Hfm) Hm) in H.
    unfold dec_lt in E. cbn [rbind] in H. rewrite E in H. done. }
  destruct (priced_ok c m source Hf Hc Hm) as (s & q & E & Hs). rewrite E in H. injection H as <-. naive_solver.
Qed.

(** The margin a line gets, by precedence. *)
Definition resolved (cost : decimal) (category : string) (customer : CustomerView) (settings : PricingSettingsView)
    (override : option decimal) (m : decimal) (source : PricingSource) : Prop :=
  match override, cv_margin_override_pct customer with
  | Some m', _ => m = m' /\ source = line_override
  | None, Some m' => m = m' /\ source = customer_override
  | None, None => exists cls rows t, _resolve_class customer = Ok cls /\
      pv_tier_sets settings !! (category, cls) = Some rows /\ _find_tier rows cost = Ok t /\ m = tr_margin_pct t /\
      source = if String.eqb cls "wholesale" then wholesale_tier else tier
  end.

Lemma price_line_inv cost category customer settings override p :
  price_line cost category customer settings override = Ok p ->
  str_lower category <> "labor" /\ exists m source, resolved cost category customer settings override m source /\ priced cost m source = Ok p.
Proof.
  unfold price_line, resolved. destruct (String.eqb_spec (str_lower category) "labor") as [|Hl]; [done|]. intros H. split; [done|].
  destruct override as [m|]; [by exists m, line_override|]. destruct (cv_margin_override_pct customer) as [m|]; [by exists m, customer_override|].
  minv H. unfold _lookup_tier_set in H1. destruct (pv_tier_sets settings !! (category, a)) as [[|t0 l]|] eqn:E; [done| |done].
  injection H1 as <-. eexists _, _. split; [|exact H]. by exists a, (t0 :: l), a1.
Qed.

(** C21: a price keeps its margin.  A line that is priced is not labor, and its
    margin is the line's own, else the customer's, else that of the one tier
    of the customer's class that covers the cost; the margin is at least zero
    and less than one, the sell price is the cost over one less the margin and
    the profit is that share of the price, both to 26 digits. *)
Theorem price_keeps_margin cost category customer settings override p (Hf : finite cost)
    (Hrun : price_line cost category customer settings override = Ok p) :
  str_lower category <> "labor" /\ lp_price_cost p = cost /\
  resolved cost category customer settings override (lp_margin_pct p) (lp_source p) /\
  0 <= qv cost /\ 0 <= qv (lp_margin_pct p) < 1 /\
  Qabs (qv (lp_sell p) - qv cost / (1 - qv (lp_margin_pct p))) <= (1 # 100000000000000000000000000) * (qv cost / (1 - qv (lp_margin_pct p))) /\
  Qabs (qv (lp_profit p) - qv (lp_margin_pct p) * qv (lp_sell p)) <= (1 # 100000000000000000000000000) * qv (lp_sell p).
Proof.
  apply price_line_inv in Hrun as (Hl & m & source & Hres & Hp). destruct (priced_inv _ _ _ _ Hf Hp)
    as (Hc & Hm & <- & <- & <- & _ & Hs & _ & Ws & Wp). destruct (share_finite _ Hm) as (_ & H0 & H1).
  split; [done|]. split; [done|]. split; [done|]. split; [done|]. split; [done|].
  set (c := qv (lp_price_cost p)) in *. set (mm := qv (lp_margin_pct p)) in *. set (s := qv (lp_sell p)) in *.
  assert (Hq : 0 <= c / (1 - mm)) by (apply Qle_shift_div_l; lra).
  assert (Ec : c == c / (1 - mm) * (1 - mm)) by (field; lra). set (x := c / (1 - mm)) in *. clearbody x.
  apply within_bounds in Ws as [W1 W2]; [|done]. unfold eps in *. change (inject_Z 4) with 4 in *.
  assert (Hx : x <= s + (1 # 200000000000000000000000000) * s) by lra.
  split; [apply Qabs_Qle_condition; split; lra|].
  unfold within in Wp. apply Qabs_Qle_condition in Wp as [P1 P2]. change (inject_Z 1) with 1 in *. unfold eps in *.
  assert (Hb : Qabs (s - c) <= s + (1 # 1000000) * s) by (apply Qabs_Qle_condition; split; nra).
  assert (Hd : Qabs (s - c - mm * s) <= (1 # 200000000000000000000000000) * s).
  { rewrite Ec. setoid_replace (s - x * (1 - mm) - mm * s) with ((s - x) * (1 - mm)) by ring. apply Qabs_Qle_condition. split; nra. }
  apply Qabs_Qle_condition in Hd as [D1 D2]. set (w := Qabs (s - c)) in *. clearbody w. apply Qabs_Qle_condition. split; lra.
Qed.

(** ** A whole estimate *)

Fixpoint qsum_of {A} (f : A -> Q) (l : list A) : Q := match l with [] => 0 | x :: l => f x + qsum_of f l end.

Definition exact_cost (r : EstimateLineResult) : Q := qv (ei_cost (er_inp r)) * qv (ei_quantity (er_inp r)).
Definition exact_sell (r : EstimateLineResult) : Q :=
  qv (ei_cost (er_inp r)) / (1 - qv (lp_margin_pct (er_price r))) * qv (ei_quantity (er_inp r)).

(** A line priced by its own inputs, more than none of it. *)
Definition line_priced (customer : CustomerView) (settings : PricingSettingsView) (r : EstimateLineResult) : Prop :=
  let inp := er_inp r in
  price_line (ei_cost inp) (ei_pricing_category inp) customer settings (ei_margin_pct_override inp) = Ok (er_price r) /\
  0 < qv (ei_quantity inp) /\ 0 <= exact_cost r /\ 0 <= exact_sell r.

Definition input_ok (i : EstimateLineInput) : Prop := finite (ei_cost i) /\ finite (ei_quantity i).

Lemma price_step_inv customer settings rs C S inp rs' C' S' k XC XS : (6 <= k <= 1000)%Z -> input_ok inp ->
  finite C -> finite S -> 0 <= XC -> 0 <= XS -> within k (qv C) XC -> within k (qv S) XS ->
  price_step customer settings (rs, C, S) inp = Ok (rs', C', S') ->
  exists r, rs' = rs ++ [r] /\ er_inp r = inp /\ line_priced customer settings r /\ finite C' /\ finite S' /\
    within (k + 2) (qv C') (XC + exact_cost r) /\ within (k + 2) (qv S') (XS + exact_sell r).
Proof.
  intros Hk [Hfc Hfq] HC HS PC PS WC WS. unfold price_step.
  destruct (dec_cases (ei_quantity inp) _ZERO) as [[E _]|[E ->]]; [by destruct (ei_quantity inp)|done|..].
  { unfold dec_le in E. rewrite E. done. }
  apply dec_lt_qv in E; [|done..]. rewrite qv_zero in E. cbn [rbind]. intros H.
  apply rbind_Ok in H as (price & Hp & H). pose proof Hp as Hline. apply price_line_inv in Hp as (_ & m & source & _ & Hp).
  destruct (priced_inv _ _ _ _ Hfc Hp) as (Pc & Hm & Ec & Em & _ & Fs & Ps & _ & Ws & _). rewrite Ec in H.
  destruct (share_finite _ Hm) as (_ & M0 & M1).
  destruct (dec_mul_rel _ _ Fs Hfq) as (ls & Els & Fls & Wls). destruct (dec_mul_rel _ _ Hfc Hfq) as (lc & Elc & Flc & Wlc).
  destruct (dec_sub_rel ls lc Fls Flc) as (lp & Elp & _). destruct (dec_add_rel C lc HC Flc) as (C1 & EC1 & FC1 & WC1).
  destruct (dec_add_rel S ls HS Fls) as (S1 & ES1 & FS1 & WS1).
  rewrite Els, Elc in H. cbn [rbind] in H. rewrite Elp in H. cbn [rbind] in H. rewrite EC1, ES1 in H. cbn [rbind] in H.
  injection H as <- <- <-. exists (mk_line_result inp price ls lc lp).
  assert (Hq : 0 <= qv (ei_cost inp) / (1 - qv m)) by (apply Qle_shift_div_l; lra).
  assert (Pex : 0 <= exact_cost (mk_line_result inp price ls lc lp)) by (unfold exact_cost; cbn [er_inp]; nra).
  assert (Pes : 0 <= exact_sell (mk_line_result inp price ls lc lp)) by (unfold exact_sell; cbn [er_inp er_price]; rewrite Em; nra).
  split; [done|]. split; [done|]. split; [by unfold line_priced|]. split; [done|]. split; [done|].
  assert (Wc : within k (qv lc) (exact_cost (mk_line_result inp price ls lc lp))) by (apply (within_weaken 1); [lia|done]).
  assert (Wsell : within k (qv ls) (exact_sell (mk_line_result inp price ls lc lp))).
  { apply (within_weaken 6); [lia|]. apply (within_trans 1 4 _ (qv (lp_sell price) * qv (ei_quantity inp))); [lia..|done|done|].
    unfold exact_sell. cbn [er_inp er_price]. rewrite Em. apply within_scale; [lra|done]. }
  split.
  - replace (k + 2)%Z with (1 + k + 1)%Z by lia. apply (within_trans 1 k _ (qv C + qv lc)); [lia..|lra|done|by apply within_add].
  - replace (k + 2)%Z with (1 + k + 1)%Z by lia. apply (within_trans 1 k _ (qv S + qv ls)); [lia..|lra|done|by apply within_add].
Qed.

Lemma price_steps customer settings inputs : forall rs C S rs' C' S' k XC XS,
  (6 <= k)%Z -> (k + 2 * Z.of_nat (length inputs) <= 1000)%Z -> Forall input_ok inputs ->
  finite C -> finite S -> 0 <= XC -> 0 <= XS -> within k (qv C) XC -> within k (qv S) XS ->
  rfold (price_step customer settings) (rs, C, S) inputs = Ok (rs', C', S') ->
  exists new, rs' = rs ++ new /\ map er_inp new = inputs /\ Forall (line_priced customer settings) new /\ finite C' /\ finite S' /\
    within (k + 2 * Z.of_nat (length inputs)) (qv C') (XC + qsum_of exact_cost new) /\
    within (k + 2 * Z.of_nat (length inputs)) (qv S') (XS + qsum_of exact_sell new).
Proof.
  induction inputs as [|inp inputs IH]; intros rs C S rs' C' S' k XC XS Hk Hn Hok HC HS PC PS WC WS H.
  { injection H as <- <- <-. exists []. cbn [map qsum_of length]. rewrite app_nil_r, Z.mul_0_r, Z.add_0_r, !Qplus_0_r.
    by repeat split. }
  apply Forall_cons in Hok as [Hi Hok]. cbn [rfold] in H. apply rbind_Ok in H as ([[rs1 C1] S1] & Hstep & H).
  cbn [length] in *. destruct (price_step_inv _ _ _ _ _ _ _ _ _ k XC XS ltac:(lia) Hi HC HS PC PS WC WS Hstep)
    as (r & -> & Er & Hr & FC1 & FS1 & WC1 & WS1). destruct Hr as (Hp & Hq & Pc & Ps).
  destruct (IH _ _ _ _ _ _ (k + 2)%Z (XC + exact_cost r) (XS + exact_sell r) ltac:(lia) ltac:(lia) Hok FC1 FS1 ltac:(lra) ltac:(lra) WC1 WS1 H)
    as (new & -> & En & Hnew & FC' & FS' & WC' & WS').
  exists (r :: new). cbn [map qsum_of]. rewrite <- app_assoc, Er, En. split; [done|]. split; [done|].
  split; [by constructor|]. split; [done|]. split; [done|].
  replace (k + 2 * Z.of_nat (Datatypes.S (length inputs)))%Z with (k + 2 + 2 * Z.of_nat (length inputs))%Z by lia.
  split; [setoid_replace (XC + (exact_cost r + qsum_of exact_cost new)) with (XC + exact_cost r + qsum_of exact_cost new) by ring; exact WC'|].
  setoid_replace (XS + (exact_sell r + qsum_of exact_sell new)) with (XS + exact_sell r + qsum_of exact_sell new) by ring. exact WS'.
Qed.

Lemma qsum_nonneg {A} (f : A -> Q) l : Forall (fun x => 0 <= f x) l -> 0 <= qsum_of f l.
Proof. induction 1; cbn; lra. Qed.

(** Taking a share off a subtotal, in the context. *)
Lemma discounted k pre S pct : (0 <= k <= 1000)%Z -> finite pre -> 0 <= S -> within k (qv pre) S -> share_ok pct ->
  exists disc post, dec_mul pre pct = Ok disc /\ dec_sub pre disc = Ok post /\ finite disc /\ finite post /\
    Qabs (qv post - S * (1 - qv pct)) <= (1 # 100000000000000000000000) * (1 # 2) * S.
Proof.
  intros Hk Hf HS W Hp. destruct (share_finite _ Hp) as (Fp & P0 & P1). pose proof (within_nonneg k _ _ ltac:(lia) W HS) as Hpre.
  destruct (dec_mul_rel pre pct Hf Fp) as (disc & -> & Fd & Wd). destruct (dec_sub_rel pre disc Hf Fd) as (post & Epost & Fpost & Wp).
  exists disc, post. repeat (split; [done|]). apply within_bounds in W as [W1 W2]; [|done].
  assert (Hk2 : inject_Z k <= inject_Z 1000) by (rewrite <- Zle_Qle; lia).
  assert (Ha : inject_Z k * eps * S <= (1 # 1000000000000000000000000) * S).
  { apply Qmult_le_compat_r; [|done]. unfold eps. change (inject_Z 1000) with (1000 # 1) in Hk2. lra. }
  set (x := qv pre) in *. set (p := qv pct) in *. assert (Hxp : 0 <= x * p) by nra.
  apply within_bounds in Wd as [D1 D2]; [|done]. change (inject_Z 1) with 1 in *. unfold within in Wp.
  change (inject_Z 1) with 1 in Wp. set (dd := qv disc) in *. set (w := qv post) in *.
  assert (Hx2 : x <= S + (1 # 1000000) * S) by lra. assert (Hxp1 : x * p <= x) by nra.
  assert (Hb : Qabs (x - dd) <= 2 * S) by (unfold eps in *; apply Qabs_Qle_condition; split; lra).
  apply Qabs_Qle_condition in Wp as [G1 G2]. unfold eps in *.
  assert (Hm1 : (x - S) * (1 - p) <= (1 # 1000000000000000000000000) * S) by nra.
  assert (Hm2 : - ((1 # 1000000000000000000000000) * S) <= (x - S) * (1 - p)) by nra.
  set (q := Qabs (x - dd)) in *. clearbody q. apply Qabs_Qle_condition.
  setoid_replace (w - S * (1 - p)) with ((w - (x - dd)) + (x * p - dd) + (x - S) * (1 - p)) by ring. split; lra.
Qed.

(** The discount is checked where it is found. *)
Lemma found_share settings customer pct : _find_volume_discount settings customer = Ok pct -> share_ok pct.
Proof.
  unfold _find_volume_discount. case_if; [by intros [= <-]|]. destruct (pv_volume_tiers settings) as [|t0 l0]; [by intros [= <-]|].
  intros H. apply rbind_Ok in H as (cls & _ & H). revert H. case_if; [by intros [= <-]|]. intros H.
  apply rbind_Ok in H as ([|t [|t' l]] & _ & H); [by injection H as <-| |done].
  apply rbind_Ok in H as ([] & H1 & H); [done|]. apply rbind_Ok in H as ([] & H2 & H); [done|]. injection H as <-.
  assert (Hn : is_num (vt_discount_pct t)) by (by intros E'; rewrite E' in H1). split.
  - destruct (dec_cases _ZERO (vt_discount_pct t)) as [[? _]|[H _]]; [done..|]. unfold dec_lt in H. congruence.
  - destruct (dec_cases _ONE (vt_discount_pct t)) as [[H _]|[? _]]; [done..| |done]. unfold dec_le in H. congruence.
Qed.

(** C22: an estimate is priced to far below a cent.  The engine's result has
    one line per input, in order, each priced on its own; the subtotal of
    costs, the subtotal before the discount, the subtotal after it and the
    profit are the exact sums of cost times quantity, and of cost over one
    less the margin times quantity less the discount, with an error of at most
    [10^-23] of the amounts, for up to 400 lines. *)
Theorem estimate_priced_exact inputs customer settings t (Hok : Forall input_ok inputs) (Hlen : (length inputs <= 400)%nat)
    (Hrun : price_estimate inputs customer settings = Ok t) :
  let C := qsum_of exact_cost (pt_lines t) in
  let S := qsum_of exact_sell (pt_lines t) in
  let p := qv (pt_volume_discount_pct t) in
  let tiny := 1 # 100000000000000000000000 in
  map er_inp (pt_lines t) = inputs /\ Forall (line_priced customer settings) (pt_lines t) /\
  _find_volume_discount settings customer = Ok (pt_volume_discount_pct t) /\ 0 <= p < 1 /\
  Qabs (qv (pt_subtotal_cost t) - C) <= tiny * C /\
  Qabs (qv (pt_subtotal_sell_pre_discount t) - S) <= tiny * S /\
  Qabs (qv (pt_subtotal_sell t) - S * (1 - p)) <= tiny * S /\
  Qabs (qv (pt_profit t) - (S * (1 - p) - C)) <= tiny * (S + C).
Proof.
  unfold price_estimate in Hrun. apply rbind_Ok in Hrun as ([[rs C] S] & Hfold & Hrun).
  destruct (price_steps customer settings inputs [] _ZERO _ZERO rs C S 6 0 0 ltac:(lia) ltac:(lia) Hok I I ltac:(lra) ltac:(lra)
              ltac:(rewrite qv_zero; done) ltac:(rewrite qv_zero; done) Hfold) as (new & E & En & Hnew & FC & FS & WC & WS).
  cbn [app] in E. subst new. rewrite !Qplus_0_l in WC, WS. set (k := (6 + 2 * Z.of_nat (length inputs))%Z) in *.
  assert (Hk : (0 <= k <= 1000)%Z) by (unfold k; lia). clearbody k.
  apply rbind_Ok in Hrun as (pct & Hpct & Hrun). pose proof (found_share _ _ _ Hpct) as Hshare.
  assert (HC : 0 <= qsum_of exact_cost rs) by (apply qsum_nonneg; eapply Forall_impl; [exact Hnew|]; intros r Hr; apply Hr).
  assert (HS : 0 <= qsum_of exact_sell rs) by (apply qsum_nonneg; eapply Forall_impl; [exact Hnew|]; intros r Hr; apply Hr).
  destruct (discounted k S _ pct Hk FS HS WS Hshare) as (disc & post & Edisc & Epost & Fd & Fpost & Wpost).
  rewrite Edisc in Hrun. cbn [rbind] in Hrun. rewrite Epost in Hrun. cbn [rbind] in Hrun.
  destruct (dec_sub_rel post C Fpost FC) as (prof & Eprof & Fprof & Wprof). rewrite Eprof in Hrun. cbn [rbind] in Hrun.
  minv Hrun. cbn [pt_lines pt_volume_discount_pct pt_subtotal_cost pt_subtotal_sell_pre_discount pt_subtotal_sell pt_profit].
  destruct (share_finite _ Hshare) as (_ & P0 & P1). split; [done|]. split; [done|]. split; [done|]. split; [done|].
  assert (Hk2 : inject_Z k <= inject_Z 1000) by (rewrite <- Zle_Qle; lia). change (inject_Z 1000) with (1000 # 1) in Hk2.
  unfold within in WC, WS. rewrite (Qabs_pos (qsum_of exact_cost rs)) in WC by done. rewrite (Qabs_pos (qsum_of exact_sell rs)) in WS by done.
  set (XC := qsum_of exact_cost rs) in *. set (XS := qsum_of exact_sell rs) in *. clearbody XC XS.
  assert (HaC : inject_Z k * eps * XC <= (1 # 1000000000000000000000000) * XC) by (apply Qmult_le_compat_r; [unfold eps; lra|done]).
  assert (HaS : inject_Z k * eps * XS <= (1 # 1000000000000000000000000) * XS) by (apply Qmult_le_compat_r; [unfold eps; lra|done]).
  apply Qabs_Qle_condition in WC as [C1 C2]. apply Qabs_Qle_condition in WS as [S1 S2]. apply Qabs_Qle_condition in Wpost as [Q1 Q2].
  split; [apply Qabs_Qle_condition; split; lra|]. split; [apply Qabs_Qle_condition; split; lra|].
  split; [apply Qabs_Qle_condition; split; lra|]. unfold within in Wprof. apply Qabs_Qle_condition in Wprof as [F1 F2].
  set (p := qv pct) in *. assert (Hsp : 0 <= XS * (1 - p) <= XS) by (split; nra).
  assert (Hb : Qabs (qv post - qv C) <= 2 * XS + 2 * XC) by (apply Qabs_Qle_condition; split; lra).
  change (inject_Z 1) with 1 in *. unfold eps in *. set (u := Qabs (qv post - qv C)) in *. clearbody u.
  apply Qabs_Qle_condition. split; lra.
Qed.

(** * Starter tables, and a gap *)

(** Ranges that start at zero, touch, and end open. *)
Fixpoint gapless (lo : decimal) (l : list interval) : Prop :=
  match l with
  | [] => False
  | (lo', hi) :: rest => lo' = lo /\ match hi with None => rest = [] | Some h => is_num h /\ gapless h rest end
  end.

Lemma gapless_covers x lo l : is_num x -> dec_le lo x -> gapless lo l -> exists r, r ∈ l /\ holds_of x r = Ok true.
Proof.
  intros Hx. revert lo. induction l as [|[lo' hi] l IH]; [done|]. intros lo Hlo [-> Hhi].
  unfold dec_le in Hlo. destruct hi as [h|].
  - destruct Hhi as [Hh Hl]. destruct (dec_cases h x Hh Hx) as [[Hle _]|[Hlt _]].
    + destruct (IH h Hle Hl) as (r & Hr & H). exists r. split; [by right|done].
    + exists (lo, Some h). split; [by left|]. unfold holds_of, in_range. cbn [fst snd]. by rewrite Hlo.
  - exists (lo, None). split; [by left|]. unfold holds_of, in_range. cbn [fst snd]. by rewrite Hlo.
Qed.

(** Without a gap every cost has a price. *)
Lemma gapless_prices b settings category customer cls rows lo cost : book_ok b -> hydrate_settings_from_db b = Ok settings ->
  str_lower category <> "labor" -> cv_margin_override_pct customer = None -> _resolve_class customer = Ok cls ->
  pv_tier_sets settings !! (category, cls) = Some rows -> gapless lo (map tier_range rows) -> dec_le lo _ZERO ->
  Forall (fun t => share_ok (tr_margin_pct t)) rows ->
  finite cost -> 0 <= qv cost -> exists p, price_line cost category customer settings None = Ok p.
Proof.
  intros Hb Hset Hlab Ho Hres Hrows Hg Hlo Hs Hf Hcost. unfold price_line.
  destruct (String.eqb_spec (str_lower category) "labor"); [done|]. rewrite Ho, Hres. cbn [rbind]. unfold _lookup_tier_set. rewrite Hrows.
  destruct rows as [|t0 l0] eqn:El; [done|]. rewrite <- El in *. cbn [rbind].
  destruct (hydrated_set _ _ _ _ Hset Hrows) as [s Es]. pose proof (bk_tiers _ Hb s) as Ht. rewrite <- Es in Ht.
  assert (Hn : is_num cost) by (by destruct cost).
  destruct (find_tier_cases rows cost Hn Ht) as [[F _]|(t & Hin & _ & ->)].
  - exfalso. assert (Hz : dec_le lo cost) by (eapply dec_le_trans; [exact Hlo|by apply dec_le_qv]). destruct (gapless_covers cost _ _ Hn Hz Hg) as (r & Hr & H).
    apply list_elem_of_fmap in Hr as (t & -> & Hr). rewrite Forall_forall in F. specialize (F t Hr). unfold holds_of in H. cbn in H. congruence.
  - cbn [rbind]. rewrite Forall_forall in Hs.
    destruct (priced_ok cost (tr_margin_pct t) (if String.eqb cls "wholesale" then wholesale_tier else tier) Hf Hcost (Hs t Hin)) as (sl & p & -> & _).
    by eexists.
Qed.

Definition empty_book : PricingBook := mk_book [] [] [] [] [] 1%N.
Definition starter_book : PricingBook := snd (run_request Seed empty_book).
Definition view_of (b : PricingBook) : PricingSettingsView :=
  match hydrate_settings_from_db b with Ok v => v | Err _ => mk_view ∅ false [] ∅ end.

Lemma empty_book_ok : book_ok empty_book.
Proof. split; [intros s; split; [exact I|constructor]..|constructor|constructor]. Qed.

(** The starter rows leave no gap, in any category or class. *)
Lemma starter_gapless category cls : In category PRICING_CATEGORIES -> In cls VALID_CLASSES ->
  exists rows, pv_tier_sets (view_of starter_book) !! (category, cls) = Some rows /\ gapless (DFinite 0 (-2)) (map tier_range rows).
Proof.
  intros [<-|[<-|[<-|[<-|[<-|[]]]]]] [<-|[<-|[<-|[]]]];
    (eexists; split; [vm_compute; reflexivity|]; cbn [map tier_range tr_cost_min tr_cost_max gapless]; repeat split; discriminate).
Qed.

Definition gap_tiers : list TierIn :=
  [mk_tier_in (float_of_int 200) None (float_of_ratio 1 4);
   mk_tier_in (FNum 0) (Some (float_of_int 100)) (float_of_ratio 1 2)].
Definition gap_book : PricingBook := snd (run_request (SaveTiers 8%N gap_tiers) starter_book).
Definition retail_customer : CustomerView := mk_customer_view None None _ZERO.

Lemma gap_tiers_ok : Forall tier_in_ok gap_tiers.
Proof. repeat (apply Forall_cons; split; [by repeat split; vm_compute|]). constructor. Qed.

Definition part_price (cost : decimal) (b : PricingBook) : result decimal :=
  let! settings := hydrate_settings_from_db b in
  let! p := price_line cost "parts" retail_customer settings None in
  quantize_money (lp_sell p).

(** The save checks for overlap, not for gaps: it accepts tiers that leave
    costs between 100 and 200 out, and a part that costs 150 has no price. *)
Lemma gap_saved :
  let (r, b) := replace_tiers 8%N gap_tiers starter_book in
  (r, part_price (DFinite 150 0) b, part_price (DFinite 15 0) b) = (Ok tt, Err PricingConfigError, Ok (DFinite 3000 (-2))).
Proof. vm_compute. reflexivity. Qed.

(** A margin of 99.999% passes the request's bound, is stored as 1.0000, and
    the engine then refuses every cost of the tier. *)
Definition whole_tiers : list TierIn := [mk_tier_in (FNum 0) None (float_of_ratio 99999 100000)].
Lemma whole_margin_saved :
  let (r, b) := replace_tiers 8%N whole_tiers starter_book in
  (r, map tr_margin_pct (tier_rows 8%N b), part_price (DFinite 15 0) b) = (Ok tt, [DFinite 10000 (-4)]%list, Err PricingConfigError).
Proof. vm_compute. reflexivity. Qed.

Lemma whole_tiers_ok : Forall tier_in_ok whole_tiers.
Proof. repeat (apply Forall_cons; split; [by repeat split; vm_compute|]). constructor. Qed.

Lemma saved_reachable tiers : Forall tier_in_ok tiers -> rtc book_step empty_book (snd (run_request (SaveTiers 8%N tiers) starter_book)).
Proof.
  intros Hok. eapply rtc_l; [exists Seed; split; [exact I|reflexivity]|]. eapply rtc_l; [|apply rtc_refl].
  exists (SaveTiers 8%N tiers). by split.
Qed.

Definition whole_book : PricingBook := snd (run_request (SaveTiers 8%N whole_tiers) starter_book).
Definition part_rows (b : PricingBook) : list TierRow := default [] (pv_tier_sets (view_of b) !! ("parts", "retail")).

(** A part that costs 15 under the tiers with a gap, and under the whole. *)
Lemma cost_priced_iff_covered_witness :
  (exists t p, t ∈ part_rows gap_book /\ in_range (DFinite 15 0) (tr_cost_min t) (tr_cost_max t) = Ok true /\
      share_ok (tr_margin_pct t) /\
      price_line (DFinite 15 0) "parts" retail_customer (view_of gap_book) None = Ok p /\ lp_margin_pct p = tr_margin_pct t /\
      lp_source p = tier) /\
  (exists t, t ∈ part_rows whole_book /\ in_range (DFinite 15 0) (tr_cost_min t) (tr_cost_max t) = Ok true /\
      qv (tr_margin_pct t) == 1 /\
      price_line (DFinite 15 0) "parts" retail_customer (view_of whole_book) None = Err PricingConfigError).
Proof.
  split.
  - destruct (proj2 (cost_priced_iff_covered empty_book gap_book (view_of gap_book) retail_customer "retail" "parts"
      (part_rows gap_book) (DFinite 15 0) empty_book_ok (saved_reachable _ gap_tiers_ok) ltac:(vm_compute; reflexivity)
      ltac:(discriminate) eq_refl eq_refl ltac:(vm_compute; reflexivity) I ltac:(vm_compute; discriminate) ltac:(discriminate)))
      as [H|[(t & _ & _ & _ & E)|[_ E]]]; [exact H|vm_compute in E; discriminate E..].
  - destruct (proj2 (cost_priced_iff_covered empty_book whole_book (view_of whole_book) retail_customer "retail" "parts"
      (part_rows whole_book) (DFinite 15 0) empty_book_ok (saved_reachable _ whole_tiers_ok) ltac:(vm_compute; reflexivity)
      ltac:(discriminate) eq_refl eq_refl ltac:(vm_compute; reflexivity) I ltac:(vm_compute; discriminate) ltac:(discriminate)))
      as [(t & p & _ & _ & _ & E & _)|[H|[F _]]]; [vm_compute in E; discriminate E|exact H|].
    exfalso. vm_compute in F. apply Forall_cons in F as [F _]. discriminate F.
Defined.

Definition demo_price : LinePrice :=
  match price_line (DFinite 1250 (-2)) "doors" retail_customer (view_of starter_book) None with
  | Ok p => p | Err _ => mk_line_price _ZERO _ZERO _ZERO _ZERO tier
  end.

Lemma price_keeps_margin_witness :
  lp_margin_pct demo_price = DFinite 6000 (-4) /\
  Qabs (qv (lp_profit demo_price) - qv (lp_margin_pct demo_price) * qv (lp_sell demo_price))
    <= (1 # 100000000000000000000000000) * qv (lp_sell demo_price).
Proof.
  split; [vm_compute; reflexivity|].
  refine (proj2 (proj2 (proj2 (proj2 (proj2 (proj2 (price_keeps_margin (DFinite 1250 (-2)) "doors" retail_customer (view_of starter_book) None
    demo_price I _))))))).
  vm_compute. reflexivity.
Defined.

Definition demo_inputs : list EstimateLineInput :=
  [mk_line_input (DFinite 1250 (-2)) "doors" (DFinite 3 0) None; mk_line_input (DFinite 7 0) "parts" (DFinite 25 (-1)) (Some (DFinite 3 (-1)))].
Definition demo_totals : PricedTotals :=
  match price_estimate demo_inputs retail_customer (view_of starter_book) with
  | Ok t => t | Err _ => mk_priced_totals [] _ZERO _ZERO _ZERO _ZERO _ZERO _ZERO _ZERO
  end.

Lemma estimate_priced_exact_witness :
  quantize_money (pt_subtotal_sell demo_totals) = Ok (DFinite 11875 (-2)) /\ map er_inp (pt_lines demo_totals) = demo_inputs.
Proof.
  split; [vm_compute; reflexivity|].
  refine (proj1 (estimate_priced_exact demo_inputs retail_customer (view_of starter_book) demo_totals _ _ _)).
  - repeat (apply Forall_cons; split; [by split|]). constructor.
  - cbn. lia.
  - vm_compute. reflexivity.
Defined.
