(* ===== verification/RouteSafe.v ===== *)
(** The ledger under the money routes: whatever sequence of requests and
    Stripe events the invoices go through, accepted, refused or failed, a sound
    journal stays sound and is only appended to. *)

From S2P Require Import Prelude PyStr Dates Money PyNum Models PayPeriods Keys Coa Engine EngineInv EngineSpec Service RulesBase Opening Issuance Payments Adjustments RulesSafe RulesSpec Chokepoint InvoiceTotals InvoiceGuard MoneyRoutes MoneySpec.

Local Open Scope Z_scope.

(** * Requests in any order *)

Inductive money_request : Type :=
  | RecordPayment (races : list Payment) (id_ : uuid) (payload : PaymentCreateIn) (actor : string)
  | VoidPayment (id_ pid : uuid) (actor : string)
  | IssueCreditMemo (id_ : uuid) (amount : float64) (reason : string) (closeout : option (option uuid)) (actor : string)
  | ApplyCustomerCredit (id_ : uuid) (amount : float64) (actor : string)
  | ProcessRefund (id_ : uuid) (amount : float64) (reason : string) (refund_method : option string) (actor : string)
  | ChargeRefunded (payment_intent : option string) (amount amount_refunded : option Z)
  | DisputeLost (reference reason : string)
  | DisputeWon (reference : string).

Section Requests.
Context `{W : World}.

Definition ignore {A} (m : M Session A) : M Session unit := m ;;; mreturn tt.

Definition handle (r : money_request) : M Session unit :=
  match r with
  | RecordPayment races id_ payload actor => ignore (record_payment races id_ payload actor)
  | VoidPayment id_ pid actor => ignore (void_payment id_ pid actor)
  | IssueCreditMemo id_ amount reason closeout actor => ignore (issue_credit_memo id_ amount reason closeout actor)
  | ApplyCustomerCredit id_ amount actor => ignore (apply_customer_credit id_ amount actor)
  | ProcessRefund id_ amount reason method actor => ignore (process_refund id_ amount reason method actor)
  | ChargeRefunded intent amount refunded => ignore (_apply_charge_refund intent amount refunded)
  | DisputeLost reference reason => ignore (_reverse_recorded_payment reference reason)
  | DisputeWon reference => ignore (_reinstate_reversed_payment reference)
  end.

(** One request after another, each on what the last one left. *)
Definition serve (rs : list money_request) (s : Session) : Session := foldl (fun s r => snd (handle r s)) s rs.
End Requests.

(** * Each keeps the ledger *)

Section Safe.
Context `{WO : WorldOk}.

Lemma request_keeps {A} (m : M Session A) : keeps srely m -> keeps srely (request m).
Proof.
  intros Hm s. specialize (Hm s). unfold request. destruct (m s) as [[a|e] s']; [done|]. unfold srely. cbn. reflexivity.
Qed.

Lemma write_rows_keeps f : (forall o, op_postgres (f o) = op_postgres o) -> keeps srely (mwrite (set_db (set_ops f))).
Proof. intros Hf. apply keeps_mwrite. intros s. by apply set_rows_srely. Qed.

Lemma write_invoice_keeps id_ f : keeps srely (mwrite (write_invoice id_ f)).
Proof. apply keeps_mwrite. intros s. apply write_invoice_srely. Qed.

(** Handlers step by step: the monad's rules, and the lemma of each call. *)
Ltac skeeps_step :=
  match goal with
  | |- keeps _ (on_db (mreads _)) => apply reads_srely
  | |- keeps _ (on_db fresh_uuid) => apply fresh_uuid_keeps
  | |- keeps _ (on_db (resettle_invoice_payments _ _ _)) => apply on_db_keeps, resettle_keeps; exact _
  | |- keeps _ (on_db (customer_credit_balance_cents _ _)) => apply on_db_keeps, credit_balance_keeps; exact _
  | |- keeps _ (on_db (post_credit_memo _ _ _)) => apply on_db_keeps, post_credit_memo_keeps; exact _
  | |- keeps _ (on_db (post_credit_application _ _ _)) => apply on_db_keeps, post_credit_application_keeps; exact _
  | |- keeps _ (on_db (post_refund _ _ _)) => apply on_db_keeps, post_refund_keeps; exact _
  | |- keeps _ (_recalculate_invoice _ _) => apply recalculate_keeps
  | |- keeps _ (commit_invoice _) => apply commit_keeps
  | |- keeps _ (transition_invoice_status _ _ _) => apply transition_keeps
  | |- keeps _ (mwrite (write_invoice _ _)) => apply write_invoice_keeps
  | |- keeps _ (mwrite _) => apply write_rows_keeps; done
  | |- keeps _ (mreturn _) => apply keeps_return; exact _
  | |- keeps _ (mraise _) => apply keeps_raise; exact _
  | |- keeps _ (http _) => apply keeps_raise; exact _
  | |- keeps _ (mlift _) => apply keeps_lift; exact _
  | |- keeps _ (mcatch _ _ _) => apply keeps_catch; [exact _| |]
  | |- keeps _ (mseq _ _) => apply keeps_seq; [exact _| |intros ?]
  | |- keeps _ (if ?b then _ else _) => destruct b
  | |- keeps _ (match ?x with _ => _ end) => destruct x
  end.
Ltac skeeps := repeat skeeps_step.

Lemma get_or_404_keeps id_ : keeps srely (_get_invoice_or_404 id_).
Proof using WO. unfold _get_invoice_or_404. skeeps. Qed.

Lemma accept_payment_keeps id_ payload : keeps srely (accept_payment id_ payload).
Proof using WO.
  unfold accept_payment, remaining_to_pay. apply keeps_seq; [exact _|apply get_or_404_keeps|intros i]. skeeps.
Qed.

Lemma record_payment_keeps races id_ payload actor : keeps srely (record_payment races id_ payload actor).
Proof using WO.
  unfold record_payment. destruct (valid_payment payload); [|apply keeps_raise; exact _]. apply request_keeps.
  apply keeps_seq; [exact _|apply accept_payment_keeps|intros a; apply book_payment_keeps].
Qed.

Lemma void_attempt_keeps v reason actor p fb post : keeps srely (void_attempt v reason actor p fb post).
Proof using WO.
  intros s. unfold void_attempt. destruct (_ && _); [cbn; reflexivity|].
  match goal with |- srely s (snd (?m s)) => assert (keeps srely m) as Hk; [skeeps|apply Hk] end.
Qed.

Lemma void_state_keeps v reason actor policy p : keeps srely (_apply_payment_void_state v reason actor policy p).
Proof using WO.
  intros s. unfold _apply_payment_void_state, mcatch at 1. pose proof (void_attempt_keeps v reason actor p None true s) as H1.
  destruct (void_attempt _ _ _ _ _ _ s) as [[x|e] s1]; [done|]. case_decide; [|done]. destruct policy; [done|].
  unfold mseq at 1, mwrite at 1. rewrite bind_reads. cbn beta iota.
  unfold mcatch. set (s2 := rollback s s1).
  pose proof (void_attempt_keeps v reason actor p (Some (shop_today_from_settings (se_db s2))) true s2) as H2.
  destruct (void_attempt _ _ _ _ _ _ s2) as [[y|e2] s3]; [exact H2|]. case_decide; [|exact H2].
  unfold mseq, mwrite. exact (void_attempt_keeps v reason actor p None false (rollback s s3)).
Qed.

Lemma reopen_keeps id_ i actor : keeps srely (reopen_if_owing id_ i actor).
Proof using WO. unfold reopen_if_owing, reread. skeeps. Qed.

Lemma void_payment_keeps id_ pid actor : keeps srely (void_payment id_ pid actor).
Proof using WO.
  unfold void_payment, apply_payment_void. apply request_keeps, keeps_seq; [exact _|apply get_or_404_keeps|intros i].
  skeeps; first [apply void_state_keeps | apply reopen_keeps].
Qed.

Lemma reverse_keeps reference reason : keeps srely (_reverse_recorded_payment reference reason).
Proof using WO.
  unfold _reverse_recorded_payment, apply_payment_void. destruct (String.eqb _ _); [apply keeps_return; exact _|]. apply request_keeps.
  skeeps; first [apply void_state_keeps | apply reopen_keeps].
Qed.

Lemma reinstate_keeps reference : keeps srely (_reinstate_reversed_payment reference).
Proof using WO.
  unfold _reinstate_reversed_payment. destruct (String.eqb _ _); [apply keeps_return; exact _|]. apply request_keeps.
  unfold reread, apply_payment_unvoid. skeeps; apply void_state_keeps.
Qed.

Lemma charge_refund_keeps intent amount refunded : keeps srely (_apply_charge_refund intent amount refunded).
Proof using WO. unfold _apply_charge_refund. skeeps; apply reverse_keeps. Qed.

Lemma credit_memo_keeps id_ amount reason closeout actor : keeps srely (issue_credit_memo id_ amount reason closeout actor).
Proof using WO.
  unfold issue_credit_memo. destruct (_ || _); [apply keeps_raise; exact _|].
  apply request_keeps, keeps_seq; [exact _|apply get_or_404_keeps|intros i].
  unfold reread, new_adjustment, settle_credit. skeeps.
Qed.

Lemma apply_credit_keeps id_ amount actor : keeps srely (apply_customer_credit id_ amount actor).
Proof using WO.
  unfold apply_customer_credit. destruct (negb _); [apply keeps_raise; exact _|].
  apply request_keeps, keeps_seq; [exact _|apply get_or_404_keeps|intros i].
  unfold reread, new_adjustment, settle_credit. skeeps.
Qed.

Lemma refund_keeps id_ amount reason method actor : keeps srely (process_refund id_ amount reason method actor).
Proof using WO.
  unfold process_refund. destruct (_ || _); [apply keeps_raise; exact _|].
  apply request_keeps, keeps_seq; [exact _|apply get_or_404_keeps|intros i]. unfold new_adjustment. skeeps.
Qed.

Lemma handle_keeps r : keeps srely (handle r).
Proof using WO.
  destruct r; cbn [handle]; unfold ignore; (apply keeps_seq; [exact _| |intros _; apply keeps_return; exact _]).
  - apply record_payment_keeps.
  - apply void_payment_keeps.
  - apply credit_memo_keeps.
  - apply apply_credit_keeps.
  - apply refund_keeps.
  - apply charge_refund_keeps.
  - apply reverse_keeps.
  - apply reinstate_keeps.
Qed.

Lemma serve_keeps rs s : srely s (serve rs s).
Proof using WO.
  revert s. induction rs as [|r rs IH]; intros s; cbn; [reflexivity|]. etrans; [apply (handle_keeps r)|apply IH].
Qed.
End Safe.

(** C31: The money routes keep the ledger.  After any sequence of payment
    entries, voids, credit memos, credit applications, refunds and Stripe
    refund and dispute events, whether each is accepted, refused or fails, a
    sound journal is still sound and every entry posted before is still
    there. *)
Theorem money_routes_keep_ledger `{WO : WorldOk} rs s :
  ledger_ok (se_db s) -> supply_ok (se_db (serve rs s)) ->
  ledger_ok (se_db (serve rs s)) /\ append_only (se_db s) (se_db (serve rs s)).
Proof. intros Hok Hs. by apply (rely_journal _ _ (serve_keeps rs s)). Qed.

(** * Witness *)

(** A session with a seeded chart and posting on. *)
Definition booked_session : Session :=
  set_db (set_gl (fun _ => set_settings (fun _ =>
    [mk_settings "co" true None (Some DEFAULT_PAYMENT_METHOD_ROLE_MAP) None None None None]) (db_gl demo_db))) owing_session.

Definition disputed_requests : list money_request :=
  [RecordPayment [] 7%N pay_all "amy"; DisputeLost "r1" "charge.dispute.created"].

Lemma money_routes_keep_ledger_witness :
  ledger_ok (se_db (serve (W := toy_world) disputed_requests booked_session)).
Proof.
  apply (money_routes_keep_ledger (WO := toy_world_ok) disputed_requests booked_session).
  - apply ledger_ok_empty. split; vm_compute; reflexivity.
  - unfold supply_ok. vm_compute. discriminate.
Defined.
