(* ===== verification/RollingVolume.v ===== *)
(** A customer's trailing paid volume and its cache, which the loyalty
    discount reads: [services/customer_rolling_volume.py].  Of the customer row
    the key and the two cache columns are kept. *)

From S2P Require Import Prelude PyStr Dates Money PyNum Models PayPeriods Keys Coa Engine EngineInv EngineSpec Service RulesBase Opening Issuance Payments Adjustments RulesSafe RulesSpec Chokepoint InvoiceTotals InvoiceGuard MoneyRoutes MoneySpec StripeSpec.

Local Open Scope Z_scope.

Definition ROLLING_WINDOW_DAYS : Z := 365.
Definition STALE_REFRESH_AFTER : Z := 3600 * 1000000.

Record Customer : Type := mk_customer {
  cached_rolling_volume_paid_12mo : option decimal;
  cached_rolling_volume_at : option datetime
}.
Notation customers := (gmap uuid Customer).

(** The clock's time unless the caller passes one. *)
Definition _now_utc (now : option datetime) (d : Db) : datetime :=
  default (mk_datetime (op_now (db_ops d)) (Some 0)) now.

(** Payments dated in the window on invoices of the customer that are not
    void. *)
Definition in_volume (customer_id : uuid) (cutoff : date) (d : Db) (p : Payment) : bool :=
  match get_invoice (pay_invoice_id p) d with
  | Some i => opt_eqb (inv_customer_id i) (Some customer_id) && negb (bool_decide (inv_status i = void))
  | None => false
  end &&
  match pay_payment_date p with Some day => cutoff <=? day | None => false end.

Definition compute_paid_volume (customer_id : uuid) (now : option datetime) (d : Db) : decimal :=
  let cutoff := dt_date (_now_utc now d) - ROLLING_WINDOW_DAYS in
  default (DFinite 0 0)
    (sql_sum (map pay_amount (List.filter (in_volume customer_id cutoff d) (op_payments (db_ops d))))).

Definition refresh_cached_volume (customer_id : uuid) (now : option datetime) (d : Db) (cs : customers)
  : decimal * customers :=
  let value := compute_paid_volume customer_id now d in
  match cs !! customer_id with
  | None => (value, cs)
  | Some _ => (value, <[customer_id := mk_customer (Some value) (Some (_now_utc now d))]> cs)
  end.

(** A naive stamp is read as UTC; subtracting a naive time from an aware one
    would raise, which the normalization of [cached_at] rules out when the
    current time is aware. *)
Definition is_cache_stale (cached_at : option datetime) (now : option datetime) (d : Db) : result bool :=
  match cached_at with
  | None => Ok true
  | Some c =>
      let cur := _now_utc now d in
      match dt_offset cur with
      | None => Err TypeError
      | Some _ => Ok (STALE_REFRESH_AFTER <? dt_utc_wall cur - dt_utc_wall c)
      end
  end.

Definition get_or_refresh (customer_id : uuid) (now : option datetime) (d : Db) (cs : customers)
  : result (decimal * customers) :=
  match cs !! customer_id with
  | None => Ok (DFinite 0 0, cs)
  | Some customer =>
      let! stale := is_cache_stale (cached_rolling_volume_at customer) now d in
      if negb stale then Ok (_dec (cached_rolling_volume_paid_12mo customer), cs)
      else Ok (refresh_cached_volume customer_id now d cs)
  end.

(** * The cache *)

(** The volume a customer's discount is read from is never older than the
    refresh interval: after a refresh at one time, a read within the interval
    gives the volume of that time and writes nothing, a later one recomputes
    and stores the volume of now; a customer without a row has none. *)
Lemma volume_read customer_id t0 t1 d d' cs :
  dt_offset t0 <> None -> dt_offset t1 <> None ->
  let cs' := snd (refresh_cached_volume customer_id (Some t0) d cs) in
  get_or_refresh customer_id (Some t1) d' cs' =
    Ok (match cs !! customer_id with
        | None => (DFinite 0 0, cs)
        | Some _ =>
            if STALE_REFRESH_AFTER <? dt_utc_wall t1 - dt_utc_wall t0
            then refresh_cached_volume customer_id (Some t1) d' cs'
            else (compute_paid_volume customer_id (Some t0) d, cs')
        end).
Proof.
  intros H0 H1 cs'. unfold get_or_refresh, cs', refresh_cached_volume. destruct (cs !! customer_id) as [c|] eqn:E.
  - cbn [snd]. rewrite lookup_insert_eq. unfold is_cache_stale, _now_utc. cbn [cached_rolling_volume_at default].
    destruct (dt_offset (id t1)) as [o|] eqn:Eo; [|done]. cbn [rbind]. unfold id. by destruct (_ <? _).
  - cbn [snd]. by rewrite E.
Qed.

(** Voiding a payment, whichever way it is voided, does not change the volume:
    a payment that was taken back still counts. *)
Lemma voids_still_counted customer_id now p v reason at_ s :
  NoDup (map pay_id (op_payments (db_ops (se_db s)))) -> p ∈ op_payments (db_ops (se_db s)) ->
  compute_paid_volume customer_id now (se_db (with_voided (flagged v reason at_ p) s)) =
    compute_paid_volume customer_id now (se_db s).
Proof.
  intros Hnd Hp. unfold compute_paid_volume. cbn [with_voided se_db set_db db_ops set_ops op_payments set_payments].
  set (cutoff := dt_date _ - _). change (_now_utc now (set_ops _ (se_db s))) with (_now_utc now (se_db s)). fold cutoff.
  change (in_volume customer_id cutoff (set_ops _ (se_db s))) with (in_volume customer_id cutoff (se_db s)).
  do 2 f_equal. assert (Hid : pay_id (flagged v reason at_ p) = pay_id p) by (by destruct v).
  destruct (filter_update_one (in_volume customer_id cutoff (se_db s)) _ p (flagged v reason at_ p) Hnd Hp Hid)
    as (l1 & l2 & _ & E1 & E2). rewrite Hid, E1, E2.
  assert (in_volume customer_id cutoff (se_db s) (flagged v reason at_ p) = in_volume customer_id cutoff (se_db s) p) as ->
    by (by destruct v).
  rewrite !map_app. do 2 f_equal. destruct (in_volume _ _ _ p); [|done]. by destruct v.
Qed.
