(* ===== verification/Quotes.v ===== *)
(** Quotes and their good/better/best tiers: what the estimate routes keep and
    the tier service ([modules/proposals/service.py]).

    A [QuoteDesk] is the office with what only these routes read: the
    lifecycle columns of an estimate and the cost columns of its lines (those
    billing does not read, by the row's key), the pricing tables, the
    customers' pricing columns, the assumed hours of the labor matrix, the
    loaded labor cost and the tenant's estimate settings.  Keys of new rows
    and public tokens come from a supply of its own.  A [Numeric] column
    rounds to its places, half away from zero, and refuses what exceeds its
    precision, as PostgreSQL does ([column]).  Titles and notes, the version
    token, [updated_at], webhooks, leads, notifications, audit rows, the
    plugin data of a line and [includes_parts] are not kept. *)

From S2P Require Import Prelude PyStr Dates Money PyNum Models PayPeriods Coa Service RulesBase Adjustments Chokepoint InvoiceTotals Estimates InvoiceGuard MoneyRoutes Deposits Closeouts Billing PaymentPlans InvoiceEdits RollingVolume PricingEngine.

Local Open Scope Z_scope.

(** * State *)

Record EstimateMarks : Type := mk_estimate_marks {
  em_sent_at : option datetime;
  em_accepted_at : option datetime;
  em_declined_at : option datetime;
  em_declined_reason : option string;
  em_valid_until : option datetime;
  em_proposal_mode : bool;
  em_public_token : uuid
}.

Record LineCosts : Type := mk_line_costs {
  lc_cost_snapshot : option decimal;
  lc_margin_pct_snapshot : option decimal;
  lc_margin_pct_override : option decimal;
  lc_labor_price_item_id : option uuid;
  lc_estimated_man_hours : option decimal
}.
Definition no_costs : LineCosts := mk_line_costs None None None None None.

Record QuoteCustomer : Type := mk_quote_customer {
  qc_deleted : bool;
  qc_pricing_class : option string;
  qc_margin_override_pct : option decimal
}.

Record EstimatesFeatures : Type := mk_features {
  allow_line_margin_override : bool;
  deposit_pct : Z;
  estimate_expiry_days : Z
}.

Record QuoteDesk : Type := mk_quote_desk {
  qd_office : Office;
  qd_marks : gmap uuid EstimateMarks;
  qd_costs : gmap uuid LineCosts;
  qd_book : PricingBook;
  qd_customers : gmap uuid QuoteCustomer;
  qd_volumes : gmap uuid Customer;
  qd_man_hours : gmap uuid decimal;      (** [assumed_man_hours] *)
  qd_labor_cost : option decimal;        (** [loaded_labor_cost_per_hour] of the settings row *)
  qd_features : EstimatesFeatures;
  qd_next : uuid                         (** no row or token has this key or a later one *)
}.

Definition q_db (k : QuoteDesk) : Db := of_db (qd_office k).
Definition q_sales (k : QuoteDesk) : Sales := of_sales (qd_office k).

Definition q_with (o : Office) (marks : gmap uuid EstimateMarks) (costs : gmap uuid LineCosts)
    (volumes : gmap uuid Customer) (next : uuid) (k : QuoteDesk) : QuoteDesk :=
  mk_quote_desk o marks costs (qd_book k) (qd_customers k) volumes (qd_man_hours k) (qd_labor_cost k)
    (qd_features k) next.
Definition set_office (f : Office -> Office) (k : QuoteDesk) : QuoteDesk :=
  q_with (f (qd_office k)) (qd_marks k) (qd_costs k) (qd_volumes k) (qd_next k) k.
Definition set_marks (f : gmap uuid EstimateMarks -> gmap uuid EstimateMarks) (k : QuoteDesk) : QuoteDesk :=
  q_with (qd_office k) (f (qd_marks k)) (qd_costs k) (qd_volumes k) (qd_next k) k.
Definition set_costs (f : gmap uuid LineCosts -> gmap uuid LineCosts) (k : QuoteDesk) : QuoteDesk :=
  q_with (qd_office k) (qd_marks k) (f (qd_costs k)) (qd_volumes k) (qd_next k) k.
Definition set_volumes (f : gmap uuid Customer -> gmap uuid Customer) (k : QuoteDesk) : QuoteDesk :=
  q_with (qd_office k) (qd_marks k) (qd_costs k) (f (qd_volumes k)) (qd_next k) k.

Definition set_sales (f : Sales -> Sales) (k : QuoteDesk) : QuoteDesk :=
  set_office (fun o => mk_office (of_session o) (f (of_sales o)) (of_work o)) k.
Definition set_estimates (f : list Estimate -> list Estimate) (s : Sales) : Sales :=
  mk_sales (sa_jobs s) (sa_tax_config s) (sa_exemptions s) (f (sa_estimates s)) (sa_estimate_lines s) (sa_tiers s) (sa_tier_lines s).
Definition set_estimate_lines (f : list QuoteLine -> list QuoteLine) (s : Sales) : Sales :=
  mk_sales (sa_jobs s) (sa_tax_config s) (sa_exemptions s) (sa_estimates s) (f (sa_estimate_lines s)) (sa_tiers s) (sa_tier_lines s).
Definition set_tiers (f : list ProposalTier -> list ProposalTier) (s : Sales) : Sales :=
  mk_sales (sa_jobs s) (sa_tax_config s) (sa_exemptions s) (sa_estimates s) (sa_estimate_lines s) (f (sa_tiers s)) (sa_tier_lines s).
Definition set_tier_lines (f : list QuoteLine -> list QuoteLine) (s : Sales) : Sales :=
  mk_sales (sa_jobs s) (sa_tax_config s) (sa_exemptions s) (sa_estimates s) (sa_estimate_lines s) (sa_tiers s) (f (sa_tier_lines s)).
Definition set_jobs (f : list Job -> list Job) (s : Sales) : Sales :=
  mk_sales (f (sa_jobs s)) (sa_tax_config s) (sa_exemptions s) (sa_estimates s) (sa_estimate_lines s) (sa_tiers s) (sa_tier_lines s).

(** The billing side's work; the sales tables are not its to write. *)
Definition q_session {A} (m : Sales -> M Session A) : M QuoteDesk A := fun k =>
  let '(r, s) := m (q_sales k) (of_session (qd_office k)) in
  (r, set_office (fun o => mk_office s (of_sales o) (of_work o)) k).

Definition q_uuid : M QuoteDesk uuid := fun k =>
  (Ok (qd_next k), q_with (qd_office k) (qd_marks k) (qd_costs k) (qd_volumes k) (qd_next k + 1)%N k).
Definition q_now (k : QuoteDesk) : datetime := utc_now (q_db k).

Definition undo (k k' : QuoteDesk) : QuoteDesk :=
  set_office (fun o => mk_office (rollback (of_session o) (of_session (qd_office k'))) (of_sales o) (of_work o)) k.

(** A request that raises leaves every table as it found it. *)
Definition quote_request {A} (m : M QuoteDesk A) : M QuoteDesk A := fun k =>
  match m k with
  | (Ok a, k') => (Ok a, k')
  | (Err e, k') => (Err e, undo k k')
  end.

(** Work after the commit whose exception the caller swallows. *)
Definition contained {A} (m : M QuoteDesk A) : M QuoteDesk (result A) := mtry (quote_request m).

(** A value a [NOT NULL] column is given. *)
Definition not_null {A} (x : option A) : result A := match x with Some a => Ok a | None => Err IntegrityError end.

(** ** Rows *)

Definition find_estimate (id_ : uuid) (k : QuoteDesk) : option Estimate :=
  List.find (fun e => N.eqb (est_id e) id_) (sa_estimates (q_sales k)).

Definition write_estimate (id_ : uuid) (f : Estimate -> Estimate) : QuoteDesk -> QuoteDesk :=
  set_sales (set_estimates (update_where (fun e => N.eqb (est_id e) id_) f)).

Definition est_with (job : option uuid) (rate discount total : option decimal) (status : estimate_status)
    (tier : option uuid) (deleted : option datetime) (e : Estimate) : Estimate :=
  mk_estimate (est_id e) (est_number e) job (est_customer_id e) (est_company_id e) rate discount total status tier deleted.
Definition with_est_customer (c : option uuid) (e : Estimate) : Estimate :=
  mk_estimate (est_id e) (est_number e) (est_job_id e) c (est_company_id e) (est_tax_rate e) (est_discount e)
    (est_total e) (est_status e) (est_accepted_tier_id e) (est_deleted_at e).
Definition with_est_total (t : option decimal) (e : Estimate) : Estimate :=
  est_with (est_job_id e) (est_tax_rate e) (est_discount e) t (est_status e) (est_accepted_tier_id e) (est_deleted_at e) e.
Definition with_est_status (s : estimate_status) (e : Estimate) : Estimate :=
  est_with (est_job_id e) (est_tax_rate e) (est_discount e) (est_total e) s (est_accepted_tier_id e) (est_deleted_at e) e.
Definition with_est_job (j : option uuid) (e : Estimate) : Estimate :=
  est_with j (est_tax_rate e) (est_discount e) (est_total e) (est_status e) (est_accepted_tier_id e) (est_deleted_at e) e.
Definition with_est_deleted (t : datetime) (e : Estimate) : Estimate :=
  est_with (est_job_id e) (est_tax_rate e) (est_discount e) (est_total e) (est_status e) (est_accepted_tier_id e) (Some t) e.

Definition no_marks : EstimateMarks := mk_estimate_marks None None None None None false 0%N.
Definition marks_of (id_ : uuid) (k : QuoteDesk) : EstimateMarks := default no_marks (qd_marks k !! id_).
Definition costs_of (id_ : uuid) (k : QuoteDesk) : LineCosts := default no_costs (qd_costs k !! id_).

Definition finalized (s : estimate_status) : bool := bool_decide (s = EAccepted) || bool_decide (s = EDeclined).

Definition _get_estimate_or_404 (id_ : uuid) : M QuoteDesk Estimate :=
  found <- mreads (find_estimate id_) ;;
  match found with
  | Some e => if bool_decide (est_deleted_at e = None) then mreturn e else mraise (HTTPException 404)
  | None => mraise (HTTPException 404)
  end.

Definition _ensure_editable (e : Estimate) : M QuoteDesk unit :=
  if finalized (est_status e) then mraise (HTTPException 409) else mreturn tt.

Definition _held_editable_estimate (id_ : uuid) : M QuoteDesk Estimate :=
  e <- _get_estimate_or_404 id_ ;; _ensure_editable e ;;; mreturn e.

(** * Tiers *)

Definition TIER_ORDER (t : tier_name) : Z := match t with good => 0 | better => 1 | best => 2 end.

(** The tiers' own rule, also for a deleted estimate. *)
Definition _editable_estimate (id_ : uuid) : M QuoteDesk Estimate :=
  found <- mreads (find_estimate id_) ;;
  match found with
  | Some e => if finalized (est_status e) then mraise (HTTPException 409) else mreturn e
  | None => mraise (HTTPException 404)
  end.

Definition tier_of (estimate_id tier_id : uuid) (k : QuoteDesk) : option ProposalTier :=
  List.find (fun t => N.eqb (pt_id t) tier_id && N.eqb (pt_estimate_id t) estimate_id) (sa_tiers (q_sales k)).

Definition _tier_or_404 (estimate_id tier_id : uuid) : M QuoteDesk ProposalTier :=
  found <- mreads (tier_of estimate_id tier_id) ;;
  match found with Some t => mreturn t | None => mraise (HTTPException 404) end.

Definition write_tier (tier_id : uuid) (f : ProposalTier -> ProposalTier) : QuoteDesk -> QuoteDesk :=
  set_sales (set_tiers (update_where (fun t => N.eqb (pt_id t) tier_id) f)).

Definition with_tier (name : tier_name) (description : option string) (price : option decimal) (warranty order : Z)
    (t : ProposalTier) : ProposalTier :=
  mk_tier (pt_id t) (pt_estimate_id t) name description price warranty order.
Definition with_tier_price (price : option decimal) (t : ProposalTier) : ProposalTier :=
  with_tier (pt_tier_name t) (pt_description t) price (pt_warranty_months t) (pt_display_order t) t.

(** [_money2] of a float. *)
Definition _money2_float (x : float64) : result decimal := quantize_even (decimal_of_str x).

Definition _resync_tier_price (tier : ProposalTier) : M QuoteDesk unit :=
  lines <- mreads (fun k => tier_contract_lines (q_sales k) tier) ;;
  match lines with
  | [] => mreturn tt
  | _ =>
      sum <- mlift (dec_sum (map (fun ln => _dec (ql_line_total ln)) lines)) ;;
      price <- mlift (_money2 sum) ;;
      price <- mlift (money_column price) ;;
      mwrite (write_tier (pt_id tier) (with_tier_price (Some price)))
  end.

Definition insert_tier (t : ProposalTier) : M QuoteDesk unit :=
  mwrite (set_sales (set_tiers (fun l => l ++ [t]))).

Definition add_proposal_tier (estimate_id : uuid) (name : tier_name) (description : option string) (total_price : float64)
    (warranty_months : Z) : M QuoteDesk uuid := quote_request (
  _editable_estimate estimate_id ;;;
  rows <- mreads (fun k => List.filter (fun t => N.eqb (pt_estimate_id t) estimate_id && bool_decide (pt_tier_name t = name))
                             (sa_tiers (q_sales k))) ;;
  match rows with
  | [] =>
      price <- mlift (money_column (decimal_of_str total_price)) ;;
      id_ <- q_uuid ;;
      insert_tier (mk_tier id_ estimate_id name description (Some price) warranty_months (TIER_ORDER name)) ;;;
      mreturn id_
  | [row] =>
      mwrite (write_tier (pt_id row) (fun t => with_tier (pt_tier_name t) description (pt_total_price t) warranty_months (pt_display_order t) t)) ;;;
      lines <- mreads (fun k => tier_contract_lines (q_sales k) row) ;;
      match lines with
      | [] =>
          price <- mlift (money_column (decimal_of_str total_price)) ;;
          mwrite (write_tier (pt_id row) (with_tier_price (Some price)))
      | _ => _resync_tier_price row
      end ;;;
      mreturn (pt_id row)
  | _ => mraise MultipleResultsFound
  end).

(** [exclude_unset]: an absent field is [None], a null one [Some None]. *)
Record TierPatch : Type := mk_tier_patch {
  tp_tier_name : option (option tier_name);
  tp_description : option (option string);
  tp_total_price : option (option float64);
  tp_warranty_months : option (option Z)
}.

Definition set_not_null {A} (old : A) (field : option (option A)) : result A :=
  match field with Some x => not_null x | None => Ok old end.

Definition tier_clash (estimate_id tier_id : uuid) (tier : ProposalTier) (name : option tier_name) (k : QuoteDesk) : bool :=
  match name with
  | Some n =>
      negb (bool_decide (n = pt_tier_name tier)) &&
      existsb (fun t => N.eqb (pt_estimate_id t) estimate_id && bool_decide (pt_tier_name t = n) &&
                        negb (N.eqb (pt_id t) tier_id)) (sa_tiers (q_sales k))
  | None => false
  end.

(** The row after the PATCH; the price is dropped where the tier has lines. *)
Definition patched_tier (fields : TierPatch) (lines : list QuoteLine) (t : ProposalTier) : result ProposalTier :=
  let! name := set_not_null (pt_tier_name t) (tp_tier_name fields) in
  let! warranty := set_not_null (pt_warranty_months t) (tp_warranty_months fields) in
  let! price := match tp_total_price fields, lines with
                | Some x, [] => let! f := not_null x in let! c := money_column (decimal_of_str f) in Ok (Some c)
                | _, _ => Ok (pt_total_price t)
                end in
  Ok (with_tier name (default (pt_description t) (tp_description fields)) price warranty
        (match tp_tier_name fields with Some (Some n) => TIER_ORDER n | _ => pt_display_order t end) t).

Definition update_proposal_tier (estimate_id tier_id : uuid) (fields : TierPatch) : M QuoteDesk unit := quote_request (
  _editable_estimate estimate_id ;;;
  tier <- _tier_or_404 estimate_id tier_id ;;
  clash <- mreads (tier_clash estimate_id tier_id tier (mjoin (tp_tier_name fields))) ;;
  if clash : bool then mraise (HTTPException 409)
  else
    lines <- mreads (fun k => tier_contract_lines (q_sales k) tier) ;;
    tier' <- mlift (patched_tier fields lines tier) ;;
    mwrite (write_tier tier_id (fun _ => tier'))).

(** The lines go with their tier. *)
Definition delete_proposal_tier (estimate_id tier_id : uuid) : M QuoteDesk unit := quote_request (
  est <- _editable_estimate estimate_id ;;
  tier <- _tier_or_404 estimate_id tier_id ;;
  if opt_eqb (est_accepted_tier_id est) (Some (pt_id tier)) then mraise (HTTPException 409)
  else
    mwrite (set_sales (set_tier_lines (List.filter (fun l => negb (N.eqb (ql_parent_id l) tier_id))))) ;;;
    mwrite (set_sales (set_tiers (List.filter (fun t => negb (N.eqb (pt_id t) tier_id)))))).

Definition with_accepted_at (t : datetime) (m : EstimateMarks) : EstimateMarks :=
  mk_estimate_marks (em_sent_at m) (Some t) (em_declined_at m) (em_declined_reason m) (em_valid_until m)
    (em_proposal_mode m) (em_public_token m).

Definition stamp_marks (id_ : uuid) (f : EstimateMarks -> EstimateMarks) (k : QuoteDesk) : QuoteDesk :=
  set_marks (fun m => <[id_ := f (default no_marks (m !! id_))]> m) k.

(** The accepted tier and its price on the estimate. *)
Definition settle_tier (estimate_id : uuid) (tier : ProposalTier) : M QuoteDesk unit :=
  total <- mreads (fun k => tier_contract_subtotal (q_sales k) tier) ;;
  total <- mlift total ;;
  total <- mlift (money_column total) ;;
  mwrite (write_estimate estimate_id (fun e =>
    est_with (est_job_id e) (est_tax_rate e) (est_discount e) (Some total) EAccepted (Some (pt_id tier)) (est_deleted_at e) e)).

Definition accept_tier (estimate_id tier_id : uuid) : M QuoteDesk unit := quote_request (
  found <- mreads (find_estimate estimate_id) ;;
  match found with
  | None => mraise (HTTPException 404)
  | Some est =>
      tier <- _tier_or_404 estimate_id tier_id ;;
      mwrite (fun k => stamp_marks estimate_id (with_accepted_at (q_now k)) k) ;;;
      settle_tier estimate_id tier
  end).

(** ** Their lines *)

Definition _tier_line_or_404 (tier_id line_id : uuid) : M QuoteDesk QuoteLine :=
  found <- mreads (fun k => List.find (fun l => N.eqb (ql_id l) line_id && N.eqb (ql_parent_id l) tier_id)
                              (sa_tier_lines (q_sales k))) ;;
  match found with Some l => mreturn l | None => mraise (HTTPException 404) end.

Definition next_sort (lines : list QuoteLine) : Z :=
  1 + match map ql_sort_order lines with [] => 0 | x :: xs => foldl Z.max x xs end.

Definition add_tier_line (estimate_id tier_id : uuid) (description : string) (quantity : Z) (unit_price : float64)
    (category : option string) : M QuoteDesk uuid := quote_request (
  _editable_estimate estimate_id ;;;
  tier <- _tier_or_404 estimate_id tier_id ;;
  let qty := Z.max 1 (if quantity =? 0 then 1 else quantity) in
  unit <- mlift (_money2_float unit_price) ;;
  lines <- mreads (fun k => tier_contract_lines (q_sales k) tier) ;;
  product <- mlift (dec_mul unit (DFinite qty 0)) ;;
  total <- mlift (_money2 product) ;;
  unit <- mlift (money_column unit) ;;
  total <- mlift (money_column total) ;;
  id_ <- q_uuid ;;
  now <- mreads q_now ;;
  mwrite (set_sales (set_tier_lines (fun l => l ++
    [mk_quote_line id_ tier_id description category (Some qty) (Some unit) (Some total) (next_sort lines) now None]))) ;;;
  _resync_tier_price tier ;;;
  mreturn id_).

Record TierLinePatch : Type := mk_tier_line_patch {
  tlp_description : option (option string);
  tlp_category : option (option string);
  tlp_quantity : option (option Z);
  tlp_unit_price : option (option float64)
}.

Definition patched_tier_line (fields : TierLinePatch) (l : QuoteLine) : result QuoteLine :=
  let quantity := match tlp_quantity fields with
                  | Some q => Some (Z.max 1 (match q with Some 0 | None => 1 | Some n => n end))
                  | None => ql_quantity l
                  end in
  let! unit := match tlp_unit_price fields with
               | Some x => let! u := _money2_float (default (FNum 0) x) in Ok (Some u)
               | None => Ok (ql_unit_price l)
               end in
  let! product := dec_mul (_dec unit) (DFinite (default 0 quantity) 0) in
  let! total := _money2 product in
  let! description := set_not_null (ql_description l) (tlp_description fields) in
  let! unit := optional money_column unit in
  let! total := money_column total in
  Ok (mk_quote_line (ql_id l) (ql_parent_id l) description (default (ql_category l) (tlp_category fields)) quantity unit
        (Some total) (ql_sort_order l) (ql_created_at l) (ql_pricing_source l)).

Definition update_tier_line (estimate_id tier_id line_id : uuid) (fields : TierLinePatch) : M QuoteDesk unit := quote_request (
  _editable_estimate estimate_id ;;;
  tier <- _tier_or_404 estimate_id tier_id ;;
  row <- _tier_line_or_404 tier_id line_id ;;
  row' <- mlift (patched_tier_line fields row) ;;
  mwrite (set_sales (set_tier_lines (update_where (fun l => N.eqb (ql_id l) line_id) (fun _ => row')))) ;;;
  _resync_tier_price tier).

Definition delete_tier_line (estimate_id tier_id line_id : uuid) : M QuoteDesk unit := quote_request (
  _editable_estimate estimate_id ;;;
  tier <- _tier_or_404 estimate_id tier_id ;;
  _tier_line_or_404 tier_id line_id ;;;
  mwrite (set_sales (set_tier_lines (List.filter (fun l => negb (N.eqb (ql_id l) line_id))))) ;;;
  _resync_tier_price tier).
