(* ===== verification/QuoteRoutes.v ===== *)
(** Estimates from draft to contract: the estimate routes
    ([routers/estimates.py]) and the customer's own answer by public link
    ([modules/proposals/router.py]), over the tables of [Quotes].

    Pricing a line asks the pricing engine or the labor matrix; every line
    write resums the estimate.  Accepting commits first, then converts the
    estimate to a job and asks for the deposit, each contained.  Sending by
    email, the version token, leads and the jobsite binding are not modelled;
    a date given for [valid_until] is stored as midnight UTC.  Text is bytes,
    so a cut at 200 counts bytes. *)

From S2P Require Import Prelude PyStr Dates Money PyNum Models PayPeriods Coa Service RulesBase Adjustments Chokepoint InvoiceTotals Estimates InvoiceGuard MoneyRoutes Deposits Closeouts Billing PaymentPlans InvoiceEdits RollingVolume PricingEngine Quotes.

Local Open Scope Z_scope.

(** * Numbers *)

Definition is_dec_digit (c : ascii) : bool := let n := N_of_ascii c in (48 <=? n)%N && (n <=? 57)%N.
Definition isdigit (s : string) : bool := negb (String.eqb s "") && str_all is_dec_digit s.
Definition dec_int (s : string) : Z := default 0 (int_base10 s).

Definition str_drop (n : nat) (s : string) : string := String.substring n (String.length s - n) s.

Definition number_step (highest : Z) (n : string) : Z :=
  if (String.length n =? 10)%nat && String.prefix "EST-" n && isdigit (str_drop 4 n)
  then Z.max highest (dec_int (str_drop 4 n)) else highest.

Definition est_numbers (k : QuoteDesk) : list string := map est_number (sa_estimates (q_sales k)).

Definition next_estimate_number (numbers : list string) : string :=
  "EST-" +:+ fmt_06d (foldl number_step 0 numbers + 1).

(** [$] also matches before a final newline. *)
Definition newline : string := String "010"%char "".
Definition drop_newline (s : string) : string :=
  let n := (String.length s - 1)%nat in
  if String.eqb (str_drop n s) newline then String.substring 0 n s else s.

(** [re.match(r"^(EST-\d{6})(?:-\d+)?$", s)]: the group. *)
Definition canonical_base (s : string) : option string :=
  let s := drop_newline s in
  let base := String.substring 0 10 s in
  if String.prefix "EST-" s && (String.length base =? 10)%nat && isdigit (str_drop 4 base) &&
     (String.eqb (str_drop 10 s) "" || (String.prefix "-" (str_drop 10 s) && isdigit (str_drop 11 s)))
  then Some base else None.

(** The suffixes of [base-N] in use. *)
Definition used_suffixes (base : string) (numbers : list string) : list Z :=
  omap (fun n => let m := drop_newline n in
                 let rest := str_drop (S (String.length base)) m in
                 if String.prefix (base +:+ "-") m && isdigit rest then Some (dec_int rest) else None) numbers.

(** [while n in used: n += 1], at most once per suffix in use. *)
Fixpoint first_unused (used : list Z) (n : Z) (fuel : nat) : Z :=
  match fuel with
  | O => n
  | S fuel => if existsb (Z.eqb n) used then first_unused used (n + 1) fuel else n
  end.

Definition _next_duplicate_estimate_number (source_number : string) (numbers : list string) : string :=
  match canonical_base source_number with
  | None => next_estimate_number numbers
  | Some base =>
      let used := used_suffixes base numbers in
      base +:+ "-" +:+ pretty (first_unused used 1 (length used))
  end.

(** * Totals *)

(** [_money(_to_float(d))], into its column. *)
Definition resummed (d : decimal) : result decimal :=
  let! m := _money_float (float_of_decimal d) in money_column m.

Definition _recalculate_total (estimate : Estimate) : M QuoteDesk unit :=
  tier <- mreads (fun k => match est_accepted_tier_id estimate with
                           | Some tid => find_tier (q_sales k) tid
                           | None => None
                           end) ;;
  total <- (match tier with
            | Some t => sub <- mreads (fun k => tier_contract_subtotal (q_sales k) t) ;; mlift sub
            | None => mreads (fun k => default (DFinite 0 0)
                        (sql_sum (map ql_line_total (children (est_id estimate) (sa_estimate_lines (q_sales k))))))
            end) ;;
  total <- mlift (resummed total) ;;
  mwrite (write_estimate (est_id estimate) (with_est_total (Some total))).

(** * Line pricing *)

Definition customer_live (id_ : uuid) (k : QuoteDesk) : bool :=
  match qd_customers k !! id_ with Some c => negb (qc_deleted c) | None => false end.

Definition anonymous : CustomerView := mk_customer_view (Some "retail") None (DFinite 0 0).

Definition _resolve_customer_for_engine (estimate : Estimate) : M QuoteDesk CustomerView := fun k =>
  match est_customer_id estimate with
  | None => (Ok anonymous, k)
  | Some cid =>
      match qd_customers k !! cid with
      | None => (Ok anonymous, k)
      | Some cust =>
          let cls := if existsb (fun c => opt_eqb (qc_pricing_class cust) (Some c)) VALID_CLASSES
                     then qc_pricing_class cust else None in
          match get_or_refresh cid None (q_db k) (qd_volumes k) with
          | Ok (volume, volumes) =>
              (Ok (mk_customer_view cls (qc_margin_override_pct cust) volume), set_volumes (fun _ => volumes) k)
          | Err _ =>
              (Ok (mk_customer_view cls (qc_margin_override_pct cust)
                     (_dec (match qd_volumes k !! cid with Some c => cached_rolling_volume_paid_12mo c | None => None end))), k)
          end
      end
  end.

Definition source_name (s : PricingSource) : string :=
  match s with
  | line_override => "line_override"
  | customer_override => "customer_override"
  | wholesale_tier => "wholesale_tier"
  | tier => "tier"
  end.

Definition _engine_price_line (estimate : Estimate) (cost : float64) (pricing_category : string)
    (margin_override : option float64) : M QuoteDesk LinePrice :=
  mcatch
    (settings <- mreads (fun k => hydrate_settings_from_db (qd_book k)) ;;
     settings <- mlift settings ;;
     customer <- _resolve_customer_for_engine estimate ;;
     mlift (price_line (decimal_of_str cost) pricing_category customer settings (option_map decimal_of_str margin_override)))
    PricingConfigError (mraise (HTTPException 409)).

(** What a line is written with: the price, its own total where the pricing
    decides it, and where the price came from. *)
Record quoted : Type := mk_quoted {
  qt_unit : decimal;
  qt_total : option decimal;
  qt_cost : option decimal;
  qt_margin : option decimal;
  qt_override : option decimal;
  qt_source : option string;
  qt_hours : option decimal
}.

Record EstimateLineCreateIn : Type := mk_line_in {
  li_description : string;
  li_quantity : Z;
  li_unit_price : float64;
  li_category : option string;
  li_cost : option float64;
  li_pricing_category : option string;
  li_margin_pct_override : option float64;      (** of the line endpoint only *)
  li_labor_price_item_id : option uuid;
  li_estimated_man_hours : option float64
}.

Definition margin_in (m : float64) : bool := float_leb (FNum 0) m && float_gtb (float_of_int 1) m.

(** The field bounds the nested lines of a create share. *)
Definition valid_nested_line (p : EstimateLineCreateIn) : bool :=
  negb (String.eqb (li_description p) "") && (String.length (li_description p) <=? 500)%nat &&
  (1 <=? li_quantity p) && (li_quantity p <=? 9999) && float_between 99999999 (li_unit_price p) &&
  opt_all (fun s => (String.length s <=? 80)%nat) (li_category p) &&
  opt_all (float_between 99999999) (li_cost p) &&
  opt_all (fun s => (String.length s <=? 40)%nat) (li_pricing_category p) &&
  opt_all (float_between 99999) (li_estimated_man_hours p).

Definition valid_estimate_line (p : EstimateLineCreateIn) : bool :=
  valid_nested_line p && negb (String.eqb (str_strip (li_description p)) "") && opt_all margin_in (li_margin_pct_override p).

(** The row of [estimate_lines] and its cost columns. *)
Definition line_row (id_ estimate_id : uuid) (description : string) (category : option string) (quantity sort_order : Z)
    (now : datetime) (q : quoted) (line_total : decimal) (item : option uuid) : result (QuoteLine * LineCosts) :=
  let! unit := money_column (qt_unit q) in
  let! total := money_column line_total in
  let! cost := optional money_column (qt_cost q) in
  let! margin := optional (column 6 4) (qt_margin q) in
  let! override := optional (column 6 4) (qt_override q) in
  let! hours := optional (column 6 2) (qt_hours q) in
  Ok (mk_quote_line id_ estimate_id description category (Some quantity) (Some unit) (Some total) sort_order now (qt_source q),
      mk_line_costs cost margin override item hours).

Definition insert_line (row : QuoteLine * LineCosts) : M QuoteDesk unit :=
  mwrite (set_sales (set_estimate_lines (fun l => l ++ [fst row]))) ;;;
  mwrite (set_costs (<[ql_id (fst row) := snd row]>)).

(** [x.strip() if x else None] *)
Definition strip_opt (x : option string) : option string := if truthy_str x then option_map str_strip x else None.

Definition dec_int_of (n : Z) : decimal := DFinite n 0.

(** * Handlers *)

Section Routes.
Context `{W : World}.

Definition _resolve_labor_matrix_row (id_ : uuid) : M QuoteDesk LaborPriceItem :=
  row <- mreads (fun k => List.find (fun i => N.eqb (lp_id i) id_) (wk_labor_prices (of_work (qd_office k)))) ;;
  today <- mreads (fun k => shop_today_from_settings (q_db k)) ;;
  match row with
  | Some i =>
      let expired := match lp_effective_to i with Some e => e <? today | None => false end in
      if negb (lp_active i) || expired then mraise (HTTPException 404) else mreturn i
  | None => mraise (HTTPException 404)
  end.

Definition man_hours (i : LaborPriceItem) (k : QuoteDesk) : decimal := default (DFinite 0 0) (qd_man_hours k !! lp_id i).

Definition _labor_line_pricing (matrix_row : LaborPriceItem) (quantity : Z) (k : QuoteDesk) : result quoted :=
  let! flat := match lp_flat_price matrix_row with Some f => Ok f | None => Err ArithmeticError end in
  let! unit_price := quantize_money flat in
  let qty := dec_int_of quantity in
  let! product := dec_mul unit_price qty in
  let! line_total := quantize_money product in
  let rate := default (DFinite 0 0) (qd_labor_cost k) in
  let hours := man_hours matrix_row k in
  let! labor := dec_mul rate hours in
  let! labor := dec_mul labor qty in
  let! cost_snapshot := quantize_money labor in
  let! positive := dec_ltb (DFinite 0 0) line_total in
  let! margin := if positive : bool then
                   let! profit := dec_sub line_total cost_snapshot in
                   let! ratio := dec_div profit line_total in
                   quantize_fourth ratio
                 else Ok (DFinite 0 0) in
  Ok (mk_quoted unit_price (Some line_total) (Some cost_snapshot) (Some margin) None (Some "labor_matrix") (Some hours)).

Definition labor_quote (item : uuid) (quantity : Z) : M QuoteDesk quoted :=
  row <- _resolve_labor_matrix_row item ;;
  q <- mreads (_labor_line_pricing row quantity) ;;
  mlift q.

(** A typed price: the margin is derived where a cost came along. *)
Definition typed_quote (unit : decimal) (cost hours : option decimal) : result quoted :=
  let! derived := derive_margin_pct cost (Some unit) in
  Ok (mk_quoted unit None cost derived None (option_map (fun _ => "client_cost") derived) hours).

(** The branches of the line endpoint. *)
Definition quote_line (estimate : Estimate) (p : EstimateLineCreateIn) : M QuoteDesk quoted :=
  let hours := option_map decimal_of_str (li_estimated_man_hours p) in
  match li_labor_price_item_id p with
  | Some item => labor_quote item (li_quantity p)
  | None =>
      match li_cost p with
      | Some cost =>
          if truthy_str (li_pricing_category p) then
            result <- _engine_price_line estimate cost (default "" (li_pricing_category p)) (li_margin_pct_override p) ;;
            unit <- mlift (_money_float (float_of_decimal (lp_sell result))) ;;
            snapshot <- mlift (_money_float (float_of_decimal (lp_price_cost result))) ;;
            mreturn (mk_quoted unit None (Some snapshot) (Some (lp_margin_pct result))
                       (option_map decimal_of_str (li_margin_pct_override p)) (Some (source_name (lp_source result))) hours)
          else
            unit <- mlift (_money_float (li_unit_price p)) ;;
            snapshot <- mlift (_money_float cost) ;;
            mlift (typed_quote unit (Some snapshot) hours)
      | None =>
          unit <- mlift (_money_float (li_unit_price p)) ;;
          mlift (typed_quote unit None hours)
      end
  end.

Definition check_override (margin : option float64) : M QuoteDesk unit :=
  allowed <- mreads (fun k => allow_line_margin_override (qd_features k)) ;;
  if bool_decide (margin <> None) && negb allowed then mraise (HTTPException 403) else mreturn tt.

Definition estimate_lines (estimate : Estimate) (k : QuoteDesk) : list QuoteLine :=
  children (est_id estimate) (sa_estimate_lines (q_sales k)).

Definition add_line (estimate_id : uuid) (p : EstimateLineCreateIn) : M QuoteDesk uuid :=
  if negb (valid_estimate_line p) then mraise (HTTPException 422)
  else quote_request (
    estimate <- _held_editable_estimate estimate_id ;;
    check_override (li_margin_pct_override p) ;;;
    sort_order <- mreads (fun k => next_sort (estimate_lines estimate k)) ;;
    q <- quote_line estimate p ;;
    line_total <- mlift (_money_float (float_scale (li_quantity p) (float_of_decimal (qt_unit q)))) ;;
    id_ <- q_uuid ;;
    now <- mreads q_now ;;
    row <- mlift (line_row id_ estimate_id (str_strip (li_description p)) (strip_opt (li_category p))
                    (li_quantity p) sort_order now q line_total (li_labor_price_item_id p)) ;;
    insert_line row ;;;
    _recalculate_total estimate ;;;
    mreturn id_).

(** ** A new estimate *)

(** The branches of the create endpoint, whose price is the engine's own. *)
Definition quote_nested (estimate : Estimate) (p : EstimateLineCreateIn) : M QuoteDesk quoted :=
  let hours := option_map decimal_of_str (li_estimated_man_hours p) in
  match li_labor_price_item_id p with
  | Some item => labor_quote item (li_quantity p)
  | None =>
      match li_cost p with
      | Some cost =>
          if truthy_str (li_pricing_category p) then
            result <- _engine_price_line estimate cost (default "" (li_pricing_category p)) None ;;
            mreturn (mk_quoted (lp_sell result) None (Some (lp_price_cost result)) (Some (lp_margin_pct result)) None
                       (Some (source_name (lp_source result))) hours)
          else mlift (typed_quote (decimal_of_str (li_unit_price p)) (Some (decimal_of_str cost)) hours)
      | None => mlift (typed_quote (decimal_of_str (li_unit_price p)) None hours)
      end
  end.

Definition nested_total (q : quoted) (quantity : Z) : result decimal :=
  match qt_total q with
  | Some t => Ok t
  | None => let! product := dec_mul (dec_int_of quantity) (qt_unit q) in quantize_even product
  end.

(** One line: the running total and the next position. *)
Definition create_line (estimate : Estimate) (acc : decimal * Z) (p : EstimateLineCreateIn) : M QuoteDesk (decimal * Z) :=
  let '(running_total, sort_order) := acc in
  q <- quote_nested estimate p ;;
  line_total <- mlift (nested_total q (li_quantity p)) ;;
  id_ <- q_uuid ;;
  now <- mreads q_now ;;
  row <- mlift (line_row id_ (est_id estimate) (str_strip (li_description p)) (strip_opt (li_category p))
                  (li_quantity p) sort_order now q line_total (li_labor_price_item_id p)) ;;
  insert_line row ;;;
  running <- mlift (dec_add running_total line_total) ;;
  mreturn (running, sort_order + 1).

(** The unique index of [estimate_number]. *)
Definition insert_estimate (e : Estimate) (m : EstimateMarks) : M QuoteDesk unit :=
  taken <- mreads (fun k => existsb (String.eqb (est_number e)) (est_numbers k)) ;;
  if taken : bool then mraise IntegrityError
  else
    mwrite (set_sales (set_estimates (fun l => l ++ [e]))) ;;;
    mwrite (set_marks (<[est_id e := m]>)).

Definition new_marks (proposal : bool) (token : uuid) : EstimateMarks :=
  mk_estimate_marks None None None None None proposal token.

Definition create_draft_estimate_record (tenant_id : string) (customer_id job_id : option uuid)
    (tax_rate discount : option decimal) : M QuoteDesk Estimate :=
  number <- mreads (fun k => next_estimate_number (est_numbers k)) ;;
  default_rate <- mreads (fun k => new_estimate_tax_rate (q_sales k) job_id) ;;
  rate <- mlift (optional (column 9 6) (match tax_rate with Some r => Some r | None => default_rate end)) ;;
  disc <- mlift (optional money_column discount) ;;
  id_ <- q_uuid ;;
  token <- q_uuid ;;
  let e := mk_estimate id_ number job_id customer_id tenant_id rate disc (Some (DFinite 0 (-2))) EDraft None None in
  insert_estimate e (new_marks false token) ;;;
  mreturn e.

Record EstimateCreateIn : Type := mk_estimate_in {
  ei_job_id : option uuid;
  ei_customer_id : option uuid;
  ei_tax_rate : option float64;
  ei_discount : option float64;
  ei_line_items : list EstimateLineCreateIn
}.

Definition rate_in (r : float64) : bool := float_leb (FNum 0) r && float_leb r (float_of_int 1).

Definition valid_estimate_in (p : EstimateCreateIn) : bool :=
  opt_all rate_in (ei_tax_rate p) && opt_all (float_between 99999999) (ei_discount p) &&
  forallb valid_nested_line (ei_line_items p).

Definition live_job (id_ : uuid) (k : QuoteDesk) : option Job :=
  List.find (fun j => N.eqb (job_id j) id_ && bool_decide (job_deleted_at j = None)) (sa_jobs (q_sales k)).

(** The estimate's customer: the payload's, or its job's. *)
Definition customer_for (p : EstimateCreateIn) : M QuoteDesk (option uuid) :=
  match ei_job_id p with
  | None => mreturn (ei_customer_id p)
  | Some j =>
      job <- mreads (live_job j) ;;
      match job with
      | None => mraise (HTTPException 404)
      | Some row => mreturn (match ei_customer_id p with Some c => Some c | None => job_customer_id row end)
      end
  end.

Definition create_estimate (tenant_id : string) (p : EstimateCreateIn) : M QuoteDesk uuid :=
  if negb (valid_estimate_in p) then mraise (HTTPException 422)
  else if bool_decide (ei_job_id p = None) && bool_decide (ei_customer_id p = None) then mraise (HTTPException 400)
  else quote_request (
    customer_id <- customer_for p ;;
    known <- mreads (fun k => opt_all (fun c => customer_live c k) customer_id) ;;
    if negb known then mraise (HTTPException 404)
    else
      estimate <- create_draft_estimate_record tenant_id customer_id (ei_job_id p)
                    (option_map decimal_of_str (ei_tax_rate p)) (option_map decimal_of_str (ei_discount p)) ;;
      acc <- mfold (create_line estimate) (DFinite 0 (-2), 1) (ei_line_items p) ;;
      total <- mlift (money_column (fst acc)) ;;
      mwrite (write_estimate (est_id estimate) (with_est_total (Some total))) ;;;
      mreturn (est_id estimate)).

(** ** Editing the header *)

(** [exclude_unset]; a null date clears the expiry, a null job detaches. *)
Record EstimatePatchIn : Type := mk_estimate_patch {
  ep_valid_until : option (option date);
  ep_tax_rate : option (option float64);
  ep_discount : option (option float64);
  ep_job_id : option (option uuid);
  ep_proposal_mode : option bool
}.

Definition valid_estimate_patch (u : EstimatePatchIn) : bool :=
  opt2_all rate_in (ep_tax_rate u) && opt2_all (float_between 99999999) (ep_discount u).

Definition midnight (d : date) : datetime := mk_datetime (d * usec_per_day) (Some 0).

Definition patched_marks (u : EstimatePatchIn) (m : EstimateMarks) : EstimateMarks :=
  mk_estimate_marks (em_sent_at m) (em_accepted_at m) (em_declined_at m) (em_declined_reason m)
    (match ep_valid_until u with Some d => option_map midnight d | None => em_valid_until m end)
    (default (em_proposal_mode m) (ep_proposal_mode u)) (em_public_token m).

(** The rate after the PATCH: null on a rated estimate is the lane's default. *)
Definition patched_rate (u : EstimatePatchIn) (estimate : Estimate) (s : Sales) : option decimal :=
  match ep_tax_rate u with
  | None => est_tax_rate estimate
  | Some (Some r) => Some (decimal_of_str r)
  | Some None =>
      match est_tax_rate estimate with
      | None => None
      | Some _ => new_estimate_tax_rate s (default (est_job_id estimate) (ep_job_id u))
      end
  end.

Definition patch_estimate (estimate_id : uuid) (u : EstimatePatchIn) : M QuoteDesk unit :=
  if negb (valid_estimate_patch u) then mraise (HTTPException 422)
  else quote_request (
    estimate <- _held_editable_estimate estimate_id ;;
    known <- mreads (fun k => opt_all (fun j => bool_decide (live_job j k <> None)) (mjoin (ep_job_id u))) ;;
    if negb known then mraise (HTTPException 404)
    else
      rate <- mreads (fun k => patched_rate u estimate (q_sales k)) ;;
      rate <- mlift (optional (column 9 6) rate) ;;
      discount <- mlift (optional money_column (match ep_discount u with
                                                | Some d => option_map decimal_of_str d
                                                | None => est_discount estimate
                                                end)) ;;
      mwrite (write_estimate estimate_id (fun e =>
        est_with (default (est_job_id e) (ep_job_id u)) rate discount (est_total e) (est_status e)
          (est_accepted_tier_id e) (est_deleted_at e) e)) ;;;
      mwrite (stamp_marks estimate_id (patched_marks u))).

Definition delete_estimate (estimate_id : uuid) : M QuoteDesk unit := quote_request (
  _get_estimate_or_404 estimate_id ;;;
  mwrite (fun k => write_estimate estimate_id (with_est_deleted (q_now k)) k)).

(** ** Editing a line *)

Record EstimateLinePatchIn : Type := mk_estimate_line_patch {
  elp_description : option (option string);
  elp_category : option (option string);
  elp_quantity : option (option Z);
  elp_unit_price : option (option float64);
  elp_cost : option float64;
  elp_margin_pct_override : option float64;
  elp_clear_margin_override : bool;
  elp_sort_order : option (option Z)
}.

Definition valid_estimate_line_patch (u : EstimateLinePatchIn) : bool :=
  opt2_all (fun s => (String.length s <=? 80)%nat) (elp_category u) &&
  opt2_all (fun n => (1 <=? n) && (n <=? 9999)) (elp_quantity u) &&
  opt2_all (float_between 99999999) (elp_unit_price u) && opt_all (float_between 99999999) (elp_cost u) &&
  opt_all margin_in (elp_margin_pct_override u) && opt2_all (fun n => (0 <=? n) && (n <=? 99999)) (elp_sort_order u).

(** [value.strip() or None] *)
Definition strip_or_null (x : option string) : option string :=
  match x with Some s => let t := str_strip s in if String.eqb t "" then None else Some t | None => None end.

Definition sends_engine_fields (u : EstimateLinePatchIn) : bool :=
  bool_decide (elp_cost u <> None) || bool_decide (elp_margin_pct_override u <> None) || elp_clear_margin_override u.

(** A line's money before the flush, its margin healed where it can be. *)
Record line_money : Type := mk_line_money {
  lm_unit : option decimal;
  lm_cost : option decimal;
  lm_margin : option decimal;
  lm_override : option decimal;
  lm_source : option string
}.

(** [is_engine_line] after healing. *)
Definition heal_margin (u : EstimateLinePatchIn) (m : line_money) : result (line_money * bool) :=
  let is_engine := bool_decide (lm_margin m <> None) in
  if sends_engine_fields u && negb is_engine then
    let! healed := derive_margin_pct (lm_cost m) (lm_unit m) in
    match healed with
    | Some h => Ok (mk_line_money (lm_unit m) (lm_cost m) (Some h) (lm_override m)
                      (if truthy_str (lm_source m) then lm_source m else Some "client_cost"), true)
    | None => if bool_decide (mjoin (elp_unit_price u) = None) then Err (HTTPException 409) else Ok (m, false)
    end
  else Ok (m, is_engine).

Definition moved (x y : float64) : bool :=
  let d := float_sub x y in float_gtb d half_cent || float_gtb (float_neg d) half_cent.

(** The explicit price stands; the margin record follows it. *)
Definition after_price (u : EstimateLinePatchIn) (old_unit old_cost : float64) (m : line_money) : result line_money :=
  let changed := moved (_to_float (lm_unit m)) old_unit || (bool_decide (elp_cost u <> None) && moved (_to_float (lm_cost m)) old_cost) in
  if bool_decide (elp_margin_pct_override u <> None) then
    Ok (mk_line_money (lm_unit m) (lm_cost m) (lm_margin m) (lm_override m) (Some "line_override"))
  else if changed then
    let! derived := derive_margin_pct (lm_cost m) (lm_unit m) in
    Ok (match derived with
        | Some _ => mk_line_money (lm_unit m) (lm_cost m) derived (lm_override m)
                      (if truthy_str (lm_source m) then lm_source m else Some "client_cost")
        | None => m
        end)
  else Ok m.

(** The price follows the cost and the margin in force. *)
Definition rederive (m : line_money) : result line_money :=
  let! effective := match lm_override m, lm_margin m with
                    | Some o, _ => Ok o
                    | None, Some s => Ok s
                    | None, None => Err ArithmeticError
                    end in
  let! low := dec_ltb effective (DFinite 0 0) in
  let! high := dec_leb (DFinite 1 0) effective in
  let! unit := if low || high then Ok (lm_unit m)
               else
                 let! cost := match lm_cost m with Some c => Ok c | None => Err ArithmeticError end in
                 let! sell := sell_from_cost cost effective in
                 let! price := _money_float (float_of_decimal sell) in
                 Ok (Some price) in
  Ok (mk_line_money unit (lm_cost m) (lm_margin m) (lm_override m)
        (match lm_override m with Some _ => Some "line_override" | None => lm_source m end)).

Definition patched_money (u : EstimateLinePatchIn) (l : QuoteLine) (c : LineCosts) : result line_money :=
  let price := match elp_unit_price u with Some x => option_map decimal_of_str x | None => ql_unit_price l end in
  let! healed := heal_margin u (mk_line_money price (lc_cost_snapshot c) (lc_margin_pct_snapshot c)
                                  (lc_margin_pct_override c) (ql_pricing_source l)) in
  let '(m, is_engine) := healed in
  let override := match elp_margin_pct_override u with
                  | Some o => Some (decimal_of_str o)
                  | None => if elp_clear_margin_override u then None else lm_override m
                  end in
  let! cost := match elp_cost u with
               | Some x => let! y := _money_float x in Ok (Some y)
               | None => Ok (lm_cost m)
               end in
  let m := mk_line_money (lm_unit m) cost (lm_margin m) override (lm_source m) in
  if bool_decide (mjoin (elp_unit_price u) <> None) then
    after_price u (_to_float (ql_unit_price l)) (_to_float (lc_cost_snapshot c)) m
  else if is_engine && sends_engine_fields u then rederive m
  else Ok m.

(** The row as flushed. *)
Definition patched_estimate_line (u : EstimateLinePatchIn) (l : QuoteLine) (c : LineCosts) : result (QuoteLine * LineCosts) :=
  let! m := patched_money u l c in
  let quantity := default (ql_quantity l) (elp_quantity u) in
  let! line_total := _money_float (float_scale (default 0 quantity) (_to_float (lm_unit m))) in
  let! description := set_not_null (ql_description l) (option_map strip_or_null (elp_description u)) in
  let! quantity := not_null quantity in
  let! sort_order := set_not_null (ql_sort_order l) (elp_sort_order u) in
  let! unit := not_null (lm_unit m) in
  let! unit := money_column unit in
  let! total := money_column line_total in
  let! cost := optional money_column (lm_cost m) in
  let! margin := optional (column 6 4) (lm_margin m) in
  let! override := optional (column 6 4) (lm_override m) in
  Ok (mk_quote_line (ql_id l) (ql_parent_id l) description
        (match elp_category u with Some x => strip_or_null x | None => ql_category l end) (Some quantity) (Some unit)
        (Some total) sort_order (ql_created_at l) (lm_source m),
      mk_line_costs cost margin override (lc_labor_price_item_id c) (lc_estimated_man_hours c)).

Definition _line_or_404 (estimate : Estimate) (line_id : uuid) : M QuoteDesk QuoteLine :=
  found <- mreads (fun k => List.find (fun l => N.eqb (ql_id l) line_id) (estimate_lines estimate k)) ;;
  match found with Some l => mreturn l | None => mraise (HTTPException 404) end.

Definition patch_line (estimate_id line_id : uuid) (u : EstimateLinePatchIn) : M QuoteDesk unit :=
  if negb (valid_estimate_line_patch u) then mraise (HTTPException 422)
  else quote_request (
    estimate <- _held_editable_estimate estimate_id ;;
    check_override (elp_margin_pct_override u) ;;;
    line <- _line_or_404 estimate line_id ;;
    costs <- mreads (fun k => default no_costs (qd_costs k !! line_id)) ;;
    row <- mlift (patched_estimate_line u line costs) ;;
    mwrite (set_sales (set_estimate_lines (update_where (fun l => N.eqb (ql_id l) line_id) (fun _ => fst row)))) ;;;
    mwrite (set_costs (<[line_id := snd row]>)) ;;;
    _recalculate_total estimate).

Definition delete_line (estimate_id line_id : uuid) : M QuoteDesk unit := quote_request (
  estimate <- _held_editable_estimate estimate_id ;;
  _line_or_404 estimate line_id ;;;
  mwrite (set_sales (set_estimate_lines (List.filter (fun l => negb (N.eqb (ql_id l) line_id))))) ;;;
  mwrite (set_costs (delete line_id)) ;;;
  _recalculate_total estimate).

(** ** Sending and closing *)

Definition send_expiry (valid_until : option datetime) (sent_at : datetime) (features : EstimatesFeatures) : datetime :=
  let days := if estimate_expiry_days features <? 1 then 60 else estimate_expiry_days features in
  let fresh := mk_datetime (dt_wall sent_at + days * usec_per_day) (dt_offset sent_at) in
  match valid_until with
  | Some existing => if dt_utc_wall sent_at <? dt_utc_wall existing then existing else fresh
  | None => fresh
  end.

Definition sent_marks (now : datetime) (features : EstimatesFeatures) (m : EstimateMarks) : EstimateMarks :=
  mk_estimate_marks (Some now) (em_accepted_at m) (em_declined_at m) (em_declined_reason m)
    (Some (send_expiry (em_valid_until m) now features)) (em_proposal_mode m) (em_public_token m).

Definition mark_estimate_sent (estimate_id : uuid) : M QuoteDesk unit := quote_request (
  _held_editable_estimate estimate_id ;;;
  mwrite (write_estimate estimate_id (with_est_status ESent)) ;;;
  mwrite (fun k => stamp_marks estimate_id (sent_marks (q_now k) (qd_features k)) k)).

Definition declined_marks (at_ : option datetime) (reason : option string) (m : EstimateMarks) : EstimateMarks :=
  mk_estimate_marks (em_sent_at m) (em_accepted_at m) at_ reason (em_valid_until m) (em_proposal_mode m) (em_public_token m).

Definition decline_estimate (estimate_id : uuid) (reason : string) : M QuoteDesk unit :=
  if String.eqb (str_strip reason) "" || (500 <? String.length reason)%nat then mraise (HTTPException 422)
  else quote_request (
    estimate <- _get_estimate_or_404 estimate_id ;;
    if finalized (est_status estimate) then mraise (HTTPException 409)
    else
      mwrite (write_estimate estimate_id (with_est_status EDeclined)) ;;;
      mwrite (fun k => stamp_marks estimate_id (declined_marks (Some (q_now k)) (Some (str_strip reason))) k)).

(** [_is_retired]; [None] is a row that is gone. *)
Definition _is_retired (shop_today : date) (item : option LaborPriceItem) : bool :=
  match item with
  | None => true
  | Some i =>
      negb (lp_active i) || match lp_effective_to i with Some e => e <? shop_today | None => false end ||
      float_nonpos (_to_float (lp_flat_price i))
  end.

(** A drifted line: its quoted price and, unless the row is gone, the current
    one and the difference for the line. *)
Definition price_drift : Type := uuid * float64 * option (float64 * float64 * float64).

Definition line_drift (k : QuoteDesk) (l : QuoteLine) : option price_drift :=
  match lc_labor_price_item_id (costs_of (ql_id l) k) with
  | None => None
  | Some item =>
      let current := List.find (fun i => N.eqb (lp_id i) item) (wk_labor_prices (of_work (qd_office k))) in
      let quoted := _to_float (ql_unit_price l) in
      if _is_retired (shop_today_from_settings (q_db k)) current then Some (ql_id l, quoted, None)
      else
        let price := _to_float (match current with Some i => lp_flat_price i | None => None end) in
        let d := float_sub price quoted in
        if float_leb half_cent d || float_leb half_cent (float_neg d) then
          let delta := float_round2 d in
          Some (ql_id l, quoted, Some (price, delta, float_round2 (float_scale (recorded_quantity (ql_quantity l)) delta)))
        else None
  end.

Definition _compute_price_drift (estimate : Estimate) (k : QuoteDesk) : list price_drift :=
  omap (line_drift k) (estimate_lines estimate k).

Definition reopened_marks (m : EstimateMarks) : EstimateMarks :=
  mk_estimate_marks (em_sent_at m) (em_accepted_at m) None None None (em_proposal_mode m) (em_public_token m).

Definition reopen_estimate (estimate_id : uuid) : M QuoteDesk (list price_drift) := quote_request (
  estimate <- _get_estimate_or_404 estimate_id ;;
  if negb (bool_decide (est_status estimate ∈ [EExpired; EDeclined; ERejected])) then mraise (HTTPException 409)
  else
    drift <- mreads (_compute_price_drift estimate) ;;
    mwrite (write_estimate estimate_id (with_est_status EDraft)) ;;;
    mwrite (stamp_marks estimate_id reopened_marks) ;;;
    mreturn drift).

Definition is_stale (k : QuoteDesk) (e : Estimate) : bool :=
  bool_decide (est_status e ∈ [ESent; EDraft; ERejected]) &&
  match em_valid_until (marks_of (est_id e) k) with
  | Some v => dt_utc_wall v <? dt_utc_wall (q_now k)
  | None => false
  end && bool_decide (est_deleted_at e = None).

Definition expire_stale_estimates : M QuoteDesk (list uuid) :=
  stale <- mreads (fun k => List.filter (is_stale k) (sa_estimates (q_sales k))) ;;
  mwrite (fun k => set_sales (set_estimates (update_where (is_stale k) (with_est_status EExpired))) k) ;;;
  mreturn (map est_id stale).

(** A live link is re-minted. *)
Definition rotated (token : uuid) (m : EstimateMarks) : EstimateMarks :=
  mk_estimate_marks (em_sent_at m) (em_accepted_at m) (em_declined_at m) (em_declined_reason m) (em_valid_until m)
    (em_proposal_mode m) (match em_sent_at m with Some _ => token | None => em_public_token m end).

Definition reassign_estimate_customer (estimate_id customer_id : uuid) (reason : string) : M QuoteDesk bool :=
  if String.eqb (str_strip reason) "" || (500 <? String.length reason)%nat then mraise (HTTPException 422)
  else quote_request (
    estimate <- _get_estimate_or_404 estimate_id ;;
    if finalized (est_status estimate) || bool_decide (est_job_id estimate <> None) then mraise (HTTPException 409)
    else
      live <- mreads (customer_live customer_id) ;;
      if negb live then mraise (HTTPException 404)
      else if opt_eqb (est_customer_id estimate) (Some customer_id) then mraise (HTTPException 409)
      else
        token <- q_uuid ;;
        was_sent <- mreads (fun k => bool_decide (em_sent_at (marks_of estimate_id k) <> None)) ;;
        mwrite (stamp_marks estimate_id (rotated token)) ;;;
        mwrite (write_estimate estimate_id (with_est_customer (Some customer_id))) ;;;
        mreturn was_sent).

(** ** The job of an accepted estimate *)

Definition job_part (id_ job : uuid) (name : string) (quantity : Z) : JobPartNeeded :=
  mk_part id_ job (String.substring 0 200 name) None (Some quantity) (Some "needed") "request" None None.

Definition needed_part (job : uuid) (l : QuoteLine) : M QuoteDesk unit :=
  id_ <- q_uuid ;;
  let name := if String.eqb (ql_description l) "" then "Item" else ql_description l in
  mwrite (set_office (set_work (set_parts (fun ps => ps ++ [job_part id_ job name (recorded_quantity (ql_quantity l))])))).

Definition tier_label (t : tier_name) : string := match t with good => "Good" | better => "Better" | best => "Best" end.

Definition package_name (t : ProposalTier) : string :=
  let name := tier_label (pt_tier_name t) +:+ " package" in
  if truthy_str (pt_description t) then name +:+ " — " +:+ default "" (pt_description t) else name.

Definition accepted_tier (estimate : Estimate) (k : QuoteDesk) : option ProposalTier :=
  match est_accepted_tier_id estimate with Some tid => find_tier (q_sales k) tid | None => None end.

(** [None] where no tier is accepted. *)
Definition _copy_tier_package_to_job (estimate : Estimate) (job : uuid) : M QuoteDesk (option Z) :=
  found <- mreads (accepted_tier estimate) ;;
  match found with
  | None => mreturn None
  | Some t =>
      lines <- mreads (fun k => tier_contract_lines (q_sales k) t) ;;
      match lines with
      | [] =>
          id_ <- q_uuid ;;
          mwrite (set_office (set_work (set_parts (fun ps => ps ++ [job_part id_ job (package_name t) 1])))) ;;;
          mreturn (Some 1)
      | _ => mfor lines (needed_part job) ;;; mreturn (Some (Z.of_nat (length lines)))
      end
  end.

Definition sort_before (a b : QuoteLine) : bool := ql_sort_order a <=? ql_sort_order b.

Definition _copy_estimate_lines_to_job (estimate : Estimate) (job : uuid) : M QuoteDesk Z :=
  lines <- mreads (fun k => stable_sort sort_before (estimate_lines estimate k)) ;;
  mfor lines (needed_part job) ;;;
  mreturn (Z.of_nat (length lines)).

(** The adopted deposits are checked at the commit. *)
Definition adopt_orphans (estimate : Estimate) (job : uuid) : M Session unit := fun s =>
  let orphans := List.filter (is_orphan (est_id estimate)) (op_invoices (db_ops (se_db s))) in
  (adopt_orphan_deposit_invoices estimate job ;;; (fun s' => (_check true (map inv_id orphans) (se_db s'), s'))) s.

Definition _create_job_from_estimate (estimate : Estimate) : M QuoteDesk (uuid * Z) := quote_request (
  job <- q_uuid ;;
  mwrite (set_sales (set_jobs (fun l => l ++ [mk_job job (Some "Installation") None (est_customer_id estimate) None]))) ;;;
  package <- _copy_tier_package_to_job estimate job ;;
  copied <- (match package with Some n => mreturn n | None => _copy_estimate_lines_to_job estimate job end) ;;
  mwrite (write_estimate (est_id estimate) (with_est_job (Some job))) ;;;
  q_session (fun _ => adopt_orphans estimate job) ;;;
  mreturn (job, copied)).

Definition convert_estimate_to_job (estimate_id : uuid) : M QuoteDesk uuid := quote_request (
  estimate <- _get_estimate_or_404 estimate_id ;;
  if bool_decide (est_job_id estimate <> None) then mraise (HTTPException 409)
  else if negb (bool_decide (est_status estimate = EAccepted)) then mraise (HTTPException 409)
  else if bool_decide (est_customer_id estimate = None) then mraise (HTTPException 422)
  else
    made <- _create_job_from_estimate estimate ;;
    mreturn (fst made)).

(** ** Accepting *)

Inductive convert_outcome : Type := Converted (job : uuid) | ConvertSkipped (reason : string).

(** The estimate as the session reads it again. *)
Definition refreshed (estimate : Estimate) : M QuoteDesk Estimate :=
  found <- mreads (find_estimate (est_id estimate)) ;;
  mreturn (default estimate found).

Definition auto_convert (estimate : Estimate) : M QuoteDesk convert_outcome :=
  if bool_decide (est_job_id estimate <> None) then mreturn (ConvertSkipped "already_linked")
  else if bool_decide (est_customer_id estimate = None) then mreturn (ConvertSkipped "no_customer")
  else
    made <- contained (_create_job_from_estimate estimate) ;;
    mreturn (match made with Ok (job, _) => Converted job | Err _ => ConvertSkipped "convert_failed" end).

Definition deposit_failed : string := "deposit invoice creation failed — create it from Billing".

(** The deposit invoice, or why there is none. *)
Definition ask_deposit (races : list Invoice) (fallback : string) (estimate : Estimate) (amount : float64)
    (tenant_id actor : string) : M QuoteDesk (string + Invoice) :=
  made <- contained (q_session (fun sales => create_deposit_invoice races fallback sales estimate amount tenant_id actor None)) ;;
  mreturn (match made with
           | Ok i => inr i
           | Err (DepositError code) => inl (deposit_skip_reason code)
           | Err _ => inl deposit_failed
           end).

(** The decision itself, committed before anything follows from it. *)
Definition record_accept (estimate_id : uuid) : M QuoteDesk Estimate := quote_request (
  estimate <- _get_estimate_or_404 estimate_id ;;
  if finalized (est_status estimate) then mraise (HTTPException 409)
  else
    mwrite (write_estimate estimate_id (with_est_status EAccepted)) ;;;
    mwrite (fun k => stamp_marks estimate_id (with_accepted_at (q_now k)) k) ;;;
    refreshed estimate).

Definition accept_estimate (races : list Invoice) (fallback : string) (estimate_id : uuid) (deposit_amount : option float64)
    (tenant_id actor : string) : M QuoteDesk (convert_outcome * option (string + Invoice)) :=
  if negb (opt_all (float_between 100000000) deposit_amount) then mraise (HTTPException 422)
  else
    estimate <- record_accept estimate_id ;;
    outcome <- auto_convert estimate ;;
    match deposit_amount with
    | Some amount =>
        if float_pos amount then
          estimate <- refreshed estimate ;;
          deposit <- ask_deposit races fallback estimate amount tenant_id actor ;;
          mreturn (outcome, Some deposit)
        else mreturn (outcome, None)
    | None => mreturn (outcome, None)
    end.

Definition pct_amount (pct : Z) (total : float64) : float64 := float_round2 (float_percent (float_scale pct total)).

Definition request_deposit_invoice (races : list Invoice) (fallback : string) (estimate_id : uuid) (amount : option float64)
    (tenant_id actor : string) : M QuoteDesk (Invoice * bool) :=
  if negb (opt_all (fun a => float_pos a && float_between 100000000 a) amount) then mraise (HTTPException 422)
  else quote_request (
    estimate <- _get_estimate_or_404 estimate_id ;;
    if negb (bool_decide (est_status estimate = EAccepted)) then mraise (HTTPException 409)
    else
      existing <- mreads (fun k => find_deposit_invoice_for_estimate estimate_id (q_db k)) ;;
      match existing with
      | Some i => mreturn (i, true)
      | None =>
          pct <- mreads (fun k => Z.max 0 (Z.min 100 (deposit_pct (qd_features k)))) ;;
          totals <- mreads (fun k => compute_estimate_totals (q_sales k) (q_db k) estimate) ;;
          a <- (match amount with
                | Some a => mreturn a
                | None => t <- mlift totals ;; mreturn (pct_amount pct (et_total t))
                end) ;;
          if negb (float_pos a) then mraise (HTTPException 422)
          else
            made <- mtry (q_session (fun sales => create_deposit_invoice races fallback sales estimate a tenant_id actor None)) ;;
            match made with
            | Ok i => mreturn (i, false)
            | Err (DepositError _) => mraise (HTTPException 422)
            | Err e => mraise e
            end
      end).

(** ** The customer's link *)

Definition public_estimate (token : uuid) (k : QuoteDesk) : option Estimate :=
  List.find (fun e => N.eqb (em_public_token (marks_of (est_id e) k)) token && bool_decide (est_deleted_at e = None) &&
                      bool_decide (em_sent_at (marks_of (est_id e) k) <> None)) (sa_estimates (q_sales k)).

Definition _get_public_estimate_or_404 (token : uuid) : M QuoteDesk Estimate :=
  found <- mreads (public_estimate token) ;;
  match found with Some e => mreturn e | None => mraise (HTTPException 404) end.

Definition open_to_customer (s : estimate_status) : bool := bool_decide (s ∈ [ESent; ERejected]).

(** The package the answer names, where the estimate offers packages. *)
Definition chosen_tier (estimate : Estimate) (tier_id : option uuid) : M QuoteDesk (option ProposalTier) :=
  offers <- mreads (fun k => em_proposal_mode (marks_of (est_id estimate) k) &&
                             existsb (fun t => N.eqb (pt_estimate_id t) (est_id estimate)) (sa_tiers (q_sales k))) ;;
  match (offers : bool), tier_id with
  | true, None => mraise (HTTPException 422)
  | true, Some tid => t <- _tier_or_404 (est_id estimate) tid ;; mreturn (Some t)
  | false, Some _ => mraise (HTTPException 422)
  | false, None => mreturn None
  end.

Definition record_public_accept (token : uuid) (tier_id : option uuid) : M QuoteDesk (Estimate * bool) := quote_request (
  est <- _get_public_estimate_or_404 token ;;
  if bool_decide (est_status est = EAccepted) then mreturn (est, true)
  else if negb (open_to_customer (est_status est)) then mraise (HTTPException 409)
  else
    chosen <- chosen_tier est tier_id ;;
    mwrite (fun k => stamp_marks (est_id est) (with_accepted_at (q_now k)) k) ;;;
    match chosen with
    | Some t => settle_tier (est_id est) t
    | None => mwrite (write_estimate (est_id est) (with_est_status EAccepted))
    end ;;;
    est <- refreshed est ;;
    mreturn (est, false)).

(** [true]: the estimate had been accepted before. *)
Definition public_proposal_accept (token : uuid) (tier_id : option uuid) : M QuoteDesk bool :=
  accepted <- record_public_accept token tier_id ;;
  match accepted with
  | (_, true) => mreturn true
  | (est, false) =>
      match est_job_id est with
      | None => contained (_create_job_from_estimate est) ;;; mreturn false
      | Some _ => mreturn false
      end
  end.

Definition public_proposal_deposit_pay (races : list Invoice) (fallback : string) (token : uuid) (tenant_id : string)
  : M QuoteDesk Invoice := quote_request (
  est <- _get_public_estimate_or_404 token ;;
  if negb (bool_decide (est_status est = EAccepted)) then mraise (HTTPException 409)
  else
    existing <- mreads (fun k => find_deposit_invoice_for_estimate (est_id est) (q_db k)) ;;
    match existing with
    | Some i => mreturn i
    | None =>
        ask <- mreads (fun k => deposit_ask_for (Some (deposit_pct (qd_features k))) (q_sales k) (q_db k) est) ;;
        ask <- mlift ask ;;
        match ask with
        | None => mraise (HTTPException 404)
        | Some (amount, _, cap) =>
            made <- mtry (q_session (fun sales =>
                      create_deposit_invoice races fallback sales est amount tenant_id "customer:public-link" cap)) ;;
            match made with
            | Ok i => mreturn i
            | Err (DepositError _) => mraise (HTTPException 409)
            | Err e => mraise e
            end
        end
    end).

(** [payload.reason.strip() if payload and payload.reason else None] *)
Definition public_proposal_decline (token : uuid) (reason : option string) : M QuoteDesk bool :=
  if negb (opt_all (fun r => (String.length r <=? 2000)%nat) reason) then mraise (HTTPException 422)
  else quote_request (
    est <- _get_public_estimate_or_404 token ;;
    if bool_decide (est_status est = EDeclined) then mreturn true
    else if negb (open_to_customer (est_status est)) then mraise (HTTPException 409)
    else
      mwrite (write_estimate (est_id est) (with_est_status EDeclined)) ;;;
      mwrite (fun k => stamp_marks (est_id est) (declined_marks (Some (q_now k)) (strip_opt reason)) k) ;;;
      mreturn false).

(** ** Duplicating *)

Definition copy_estimate_line (new_id : uuid) (running : decimal) (l : QuoteLine) : M QuoteDesk decimal :=
  id_ <- q_uuid ;;
  now <- mreads q_now ;;
  costs <- mreads (costs_of (ql_id l)) ;;
  insert_line (mk_quote_line id_ new_id (ql_description l) (ql_category l) (ql_quantity l) (ql_unit_price l)
                 (Some (_dec (ql_line_total l))) (ql_sort_order l) now (ql_pricing_source l), costs) ;;;
  mlift (dec_add running (_dec (ql_line_total l))).

Definition copy_tier_line (tier_id : uuid) (l : QuoteLine) : M QuoteDesk unit :=
  id_ <- q_uuid ;;
  now <- mreads q_now ;;
  mwrite (set_sales (set_tier_lines (fun ls => ls ++
    [mk_quote_line id_ tier_id (ql_description l) (ql_category l) (ql_quantity l) (ql_unit_price l) (ql_line_total l)
       (ql_sort_order l) now None]))).

Definition copy_tier (new_id : uuid) (t : ProposalTier) : M QuoteDesk unit :=
  id_ <- q_uuid ;;
  insert_tier (mk_tier id_ new_id (pt_tier_name t) (pt_description t) (pt_total_price t) (pt_warranty_months t) (pt_display_order t)) ;;;
  lines <- mreads (fun k => tier_contract_lines (q_sales k) t) ;;
  mfor lines (copy_tier_line id_).

Definition line_order (a b : QuoteLine) : bool :=
  let x := dt_utc_wall (ql_created_at a) in
  let y := dt_utc_wall (ql_created_at b) in
  (ql_sort_order a <? ql_sort_order b) ||
  ((ql_sort_order a =? ql_sort_order b) && ((x <? y) || ((x =? y) && (ql_id a <=? ql_id b)%N))).

Definition duplicate_row (id_ : uuid) (number tenant_id : string) (customer : option uuid) (rate : option decimal)
    (source : Estimate) : Estimate :=
  mk_estimate id_ number None customer tenant_id rate (est_discount source) (Some (DFinite 0 (-2))) EDraft None None.

Definition duplicate_estimate (estimate_id : uuid) (tenant_id : string) : M QuoteDesk uuid := quote_request (
  source <- _get_estimate_or_404 estimate_id ;;
  customer <- mreads (fun k => match est_customer_id source with
                               | Some c => if customer_live c k then Some c else None
                               | None => None
                               end) ;;
  number <- mreads (fun k => _next_duplicate_estimate_number (est_number source) (est_numbers k)) ;;
  rate <- mreads (fun k => match est_tax_rate source with
                           | Some r => Some r
                           | None => new_estimate_tax_rate (q_sales k) None
                           end) ;;
  rate <- mlift (optional (column 9 6) rate) ;;
  marks <- mreads (marks_of estimate_id) ;;
  source_lines <- mreads (fun k => stable_sort line_order (estimate_lines source k)) ;;
  tiers <- mreads (fun k => List.filter (fun t => N.eqb (pt_estimate_id t) estimate_id) (sa_tiers (q_sales k))) ;;
  id_ <- q_uuid ;;
  token <- q_uuid ;;
  insert_estimate (duplicate_row id_ number tenant_id customer rate source) (new_marks (em_proposal_mode marks) token) ;;;
  running <- mfold (copy_estimate_line id_) (DFinite 0 (-2)) source_lines ;;
  total <- mlift (money_column running) ;;
  mwrite (write_estimate id_ (with_est_total (Some total))) ;;;
  (if em_proposal_mode marks then mfor tiers (copy_tier id_) else mreturn tt) ;;;
  mreturn id_).
End Routes.
