(* ===== verification/QuoteSums.v ===== *)
(** What a stored price is worth: the columns of the quoting tables, the sums
    over them, and the way a sum of cents takes through a float
    ([_money(_to_float(total))]) and back. *)

From S2P Require Import Prelude PyStr Dates Money PyNum Models RulesBase Adjustments InvoiceTotals TaxFloat Estimates PricingEngine Quotes QuoteRoutes DecOrder.

Local Open Scope Z_scope.

(** * Columns *)

Lemma money_column_Ok d r : money_column d = Ok r -> exists c, r = cents c /\ Z.abs c < 10 ^ 12.
Proof.
  unfold money_column, column. destruct d as [c e| |]; try done.
  match goal with |- context [Z.abs ?q <? _] => destruct (Z.ltb_spec (Z.abs q) (10 ^ 12)) as [H|]; [|done] end.
  intros [= <-]. eauto.
Qed.

Lemma money_column_cents c r : money_column (cents c) = Ok r <-> r = cents c /\ Z.abs c < 10 ^ 12.
Proof.
  unfold money_column, column. change (- (2) <=? -2) with true. cbv iota. change (10 ^ (-2 + 2)) with 1. rewrite Z.mul_1_r.
  destruct (Z.ltb_spec (Z.abs c) (10 ^ 12)); [|split; [done|lia]]. split; [intros [= <-]; auto|by intros [-> _]].
Qed.

Lemma money_col_cents c : Z.abs c < 10 ^ 12 -> money_col (Some (cents c)) = Some c.
Proof. intros H. by apply money_col_Some. Qed.

(** * A sum of cents through a float *)

Lemma round_even_opp n d : 0 < d -> round_even (- n) d = - round_even n d.
Proof.
  intros Hd. unfold round_even. destruct (Z.eq_dec (n mod d) 0) as [E|E].
  - rewrite Z.mod_opp_l_z, Z.div_opp_l_z, E by lia. unfold round_at. rewrite Z.mul_0_r, (proj2 (Z.ltb_lt 0 d)) by done. lia.
  - rewrite Z.mod_opp_l_nz, Z.div_opp_l_nz by lia. unfold round_at. pose proof (Z.mod_pos_bound n d Hd).
    set (q := n / d). set (r := n mod d) in *. clearbody q r.
    assert (Z.even (- q - 1) = negb (Z.even q)) as ->.
    { rewrite Z.even_sub, Z.even_opp. by destruct (Z.even q). }
    destruct (Z.ltb_spec (2 * (d - r)) d), (Z.ltb_spec d (2 * (d - r))), (Z.ltb_spec (2 * r) d), (Z.ltb_spec d (2 * r));
      try lia; destruct (Z.even q); cbn [negb]; lia.
Qed.

Lemma float_of_ratio_opp n d v : 0 < d -> float_of_ratio n d = FNum v -> float_of_ratio (- n) d = FNum (- v).
Proof.
  intros Hd. rewrite !float_of_ratio_eq by done. unfold nearest_float. rewrite Z.abs_opp. set (e := Z.max 0 _).
  pose proof (Z.pow_pos_nonneg 2 e ltac:(lia) ltac:(lia)).
  rewrite Z.mul_opp_l, round_even_opp by nia. rewrite Z.mul_opp_l, Z.abs_opp. destruct (_ <=? _); [done|]. by intros [= <-].
Qed.

Lemma decimal_of_str_opp v : 0 < v -> decimal_of_str (FNum (- v)) = dec_neg (decimal_of_str (FNum v)).
Proof.
  intros Hv. cbn [decimal_of_str]. destruct (Z.eqb_spec (- v) 0); [lia|]. destruct (Z.eqb_spec v 0); [lia|].
  destruct (Z.ltb_spec (- v) 0); [|lia]. destruct (Z.ltb_spec v 0); [lia|]. by rewrite Z.opp_involutive.
Qed.


(** A decimal of at least [10^10] is at least [10^12] cents. *)
Lemma quantize_big c e z : 10 ^ 10 * 10 ^ Z.max 0 (- e) <= c * 10 ^ Z.max 0 e -> quantize_cents (DFinite c e) = Some z -> 10 ^ 12 <= z.
Proof.
  intros H. unfold quantize_cents. intros Hq.
  assert (10 ^ 12 <= (if -2 <=? e then c * 10 ^ (e + 2) else round_half_up c (-2 - e))) as Hz.
  { destruct (Z.leb_spec (-2) e) as [He|He].
    - destruct (Z.le_gt_cases 0 e).
      + rewrite (Z.max_r 0 e), (Z.max_l 0 (- e)) in H by lia. rewrite Z.pow_add_r by lia. change (10 ^ 2) with 100. lia.
      + assert (e = -1 \/ e = -2) as [-> | ->] by lia.
        * change (10 ^ Z.max 0 (- -1)) with 10 in H. change (10 ^ Z.max 0 (-1)) with 1 in H. change (10 ^ (-1 + 2)) with 10. lia.
        * change (10 ^ Z.max 0 (- -2)) with 100 in H. change (10 ^ Z.max 0 (-2)) with 1 in H. change (10 ^ (-2 + 2)) with 1. lia.
    - rewrite (Z.max_r 0 (- e)), (Z.max_l 0 e) in H by lia. replace (- e) with (-2 - e + 2) in H by lia.
      rewrite Z.pow_add_r in H by lia. pose proof (Z.pow_pos_nonneg 10 (-2 - e) ltac:(lia) ltac:(lia)) as Hp.
      unfold round_half_up. set (u := 10 ^ (-2 - e)) in *. clearbody u. change (10 ^ 2) with 100 in H. rewrite Z.pow_0_r in H.
      rewrite Z.sgn_pos, Z.abs_eq, Z.mul_1_l by nia. apply Z.div_le_lower_bound; nia. }
  destruct (_ <? _); [|done]. injection Hq as <-. done.
Qed.

(** Ten billion dollars or more never read as less. *)
Lemma big_ratio n d v : 0 < d -> 10 ^ 10 * d <= n -> float_of_ratio n d = FNum v ->
  0 < v /\ forall z, _money_float (FNum v) = Ok (cents z) -> 10 ^ 12 <= z.
Proof.
  intros Hd Hn E. pose proof least_pos as HL.
  assert (E0 : float_of_ratio (10 ^ 10) 1 = FNum (10 ^ 10 * least)) by (vm_compute; reflexivity).
  pose proof (float_mono (10 ^ 10) 1 n d _ _ ltac:(lia) ltac:(lia) Hd ltac:(lia) E0 E) as Hv.
  split; [nia|]. intros z. unfold _money_float.
  assert (Hle : dec_le (decimal_of_str (FNum (10 ^ 10 * least))) (decimal_of_str (FNum v))).
  { apply str_le; [rewrite <- E0|rewrite <- E|cbn; nia..|cbn; apply Z.ltb_ge; lia]; by apply float_ok_ratio. }
  assert (E1 : decimal_of_str (FNum (10 ^ 10 * least)) = DFinite 1 10) by (vm_compute; reflexivity). rewrite E1 in Hle.
  destruct (decimal_of_str (FNum v)) as [c e| |]; [|done..]. apply dec_le_finite in Hle. unfold dnum, dden in Hle.
  change (10 ^ Z.max 0 (- (10))) with 1 in Hle. change (Z.max 0 10) with 10 in Hle.
  unfold quantize_money. destruct (quantize_cents _) as [q|] eqn:Hq; [|done]. intros [= ->].
  apply (quantize_big c e); [lia|done].
Qed.

(** The other sign. *)
Lemma money_float_opp v z : 0 < v -> _money_float (FNum (- v)) = Ok (cents z) -> _money_float (FNum v) = Ok (cents (- z)).
Proof.
  intros Hv. unfold _money_float. rewrite decimal_of_str_opp by done.
  destruct (decimal_of_str (FNum v)) as [c e| |]; [|done..]. cbn [dec_neg]. unfold quantize_money.
  rewrite quantize_cents_opp. destruct (quantize_cents (DFinite c e)) as [q|]; [|done]. cbn. intros [= <-]. do 2 f_equal. lia.
Qed.

Lemma money_float_cents x r : _money_float x = Ok r -> exists z, r = cents z.
Proof. unfold _money_float, quantize_money. destruct (quantize_cents _); [|done]. intros [= <-]. eauto. Qed.

(** The way of a sum of cents through a float and back into its column. *)
Lemma resummed_exact S r : resummed (cents S) = Ok r -> r = cents S /\ Z.abs S < 10 ^ 12.
Proof.
  unfold resummed. rewrite float_of_cents. intros (m & Hm & Hr)%rbind_Ok. destruct (Z.le_gt_cases (Z.abs S) (10 ^ 13)) as [HS|HS].
  { destruct (float_cents_wide S HS) as (v & Hv & Hn). rewrite Hv in Hm. unfold _money_float in Hm.
    rewrite (quantize_float_near v S 800 HS ltac:(lia) Hn) in Hm. injection Hm as <-. by apply money_column_cents in Hr. }
  exfalso. destruct (money_float_cents _ _ Hm) as [z ->]. apply money_column_cents in Hr as [_ Hz].
  destruct (float_of_ratio S 100) as [v| |] eqn:E; [|done..]. destruct (Z.le_gt_cases 0 S) as [H0|H0].
  - destruct (big_ratio S 100 v ltac:(lia) ltac:(lia) E) as [_ Hbig]. specialize (Hbig z Hm). lia.
  - apply float_of_ratio_opp in E; [|lia]. destruct (big_ratio (- S) 100 (- v) ltac:(lia) ltac:(lia) E) as [Hv Hbig].
    rewrite <- (Z.opp_involutive v) in Hm. apply (money_float_opp _ _ Hv) in Hm. specialize (Hbig _ Hm). lia.
Qed.

(** ** A price times a quantity *)

Lemma float_cents_rel u : 0 <= u < 10 ^ 12 -> exists v, float_of_ratio u 100 = FNum v /\
  2 ^ 52 * Z.abs (v * 100 - u * least) <= Z.max u 100 * least.
Proof.
  intros Hu. pose proof least_pos as HL. destruct (Z.le_gt_cases 100 u) as [H|H].
  - set (K := Z.log2 (u / 100) + 1). assert (H1 : 1 <= u / 100) by (apply Z.div_le_lower_bound; lia).
    destruct (Z.log2_spec (u / 100) ltac:(lia)) as [L1 L2]. pose proof (Z.log2_nonneg (u / 100)) as L0.
    pose proof (Z.div_mod u 100 ltac:(lia)) as D1. pose proof (Z.mod_pos_bound u 100 ltac:(lia)) as D2.
    assert (HK : K <= 1000).
    { unfold K. pose proof (Z.log2_le_mono (u / 100) (2 ^ 40) ltac:(lia)) as HL2. rewrite Z.log2_pow2 in HL2 by lia. lia. }
    assert (Hub : 2 ^ K = 2 * 2 ^ Z.log2 (u / 100)) by (unfold K; rewrite Z.pow_add_r by lia; lia).
    rewrite Z.pow_succ_r in L2 by done.
    destruct (float_of_ratio_close u 100 K) as (v & E & Hv); [lia|lia|rewrite Hub; lia|]. exists v. split; [done|].
    rewrite Z.max_l by lia. rewrite Hub in Hv. change (2 ^ 54) with (4 * 2 ^ 52) in Hv. nia.
  - destruct (float_of_ratio_close u 100 0) as (v & E & Hv); [lia|lia|lia|]. exists v. split; [done|]. rewrite Z.max_r by lia.
    change (2 ^ 54) with (4 * 2 ^ 52) in Hv. lia.
Qed.

(** The product of a price in cents and a small count, rounded to a float. *)
Lemma scaled_near q u v : 0 < q <= 9999 -> 0 <= u < 10 ^ 12 -> float_of_ratio u 100 = FNum v -> q * u <= 10 ^ 13 ->
  exists w, float_of_ratio (q * v) least = FNum w /\ near w (q * u) (2 ^ 18).
Proof.
  intros Hq Hu E Hb. pose proof least_pos as HL. destruct (float_cents_rel u Hu) as (v' & E' & Hv). rewrite E in E'. injection E' as <-.
  assert (Hqv : 2 ^ 52 * Z.abs (q * v * 100 - q * u * least) <= 10 ^ 14 * least).
  { replace (q * v * 100 - q * u * least) with (q * (v * 100 - u * least)) by ring. rewrite Z.abs_mul, (Z.abs_eq q) by lia. nia. }
  assert (Hlt : Z.abs (q * v) < least * 2 ^ 37).
  { change (2 ^ 52) with 4503599627370496 in Hqv. change (10 ^ 14) with 100000000000000 in Hqv. change (2 ^ 37) with 137438953472.
    change (10 ^ 13) with 10000000000000 in Hb.
    replace (q * v * 100) with (100 * (q * v)) in Hqv by ring. set (x := q * v) in *. set (y := q * u) in *.
    assert (0 <= y) by (unfold y; nia). clearbody x y. nia. }
  destruct (float_of_ratio_close (q * v) least 37) as (w & Ew & Hw); [done|lia|done|]. exists w. split; [done|]. unfold near.
  assert (Hw1 : 2 ^ 17 * Z.abs (w - q * v) <= least).
  { replace (w * least - q * v * least) with ((w - q * v) * least) in Hw by ring. rewrite Z.abs_mul, (Z.abs_eq least) in Hw by lia.
    replace (2 ^ 54) with (2 ^ 37 * 2 ^ 17) in Hw by reflexivity. set (A := Z.abs (w - q * v)) in *. clearbody A.
    apply (Z.mul_le_mono_pos_r _ _ (2 ^ 37 * least)); [apply Z.mul_pos_pos; [lia|done]|].
    replace (2 ^ 17 * A * (2 ^ 37 * least)) with (2 ^ 37 * 2 ^ 17 * (A * least)) by ring. etrans; [exact Hw|]. lia. }
  change (2 ^ 52) with 4503599627370496 in Hqv. change (10 ^ 14) with 100000000000000 in Hqv.
  change (2 ^ 17) with 131072 in Hw1. change (2 ^ 20) with 1048576. change (2 ^ 18) with 262144.
  replace (w * 100 - q * u * least) with ((w - q * v) * 100 + (q * v * 100 - q * u * least)) by ring.
  pose proof (Z.abs_triangle ((w - q * v) * 100) (q * v * 100 - q * u * least)). rewrite Z.abs_mul in *. change (Z.abs 100) with 100 in *.
  set (A := Z.abs (w - q * v)) in *. set (B := Z.abs (q * v * 100 - q * u * least)) in *. set (X := Z.abs (_ + _)) in *.
  clearbody A B X. lia.
Qed.

Lemma scaled_pos q u m r : 0 < q <= 9999 -> 0 <= u < 10 ^ 12 -> _money_float (float_scale q (float_of_decimal (cents u))) = Ok m ->
  money_column m = Ok r -> r = cents (q * u).
Proof.
  intros Hq Hu. pose proof least_pos as HL. rewrite float_of_cents. destruct (float_cents_rel u Hu) as (v & E & Hv). rewrite E.
  cbn [float_scale]. destruct (Z.le_gt_cases (q * u) (10 ^ 13)) as [Hb|Hb].
  - destruct (scaled_near q u v Hq Hu E Hb) as (w & -> & Hn). unfold _money_float.
    rewrite (quantize_float_near w (q * u) (2 ^ 18)) by (done || lia || nia). intros [= <-] [-> _]%money_column_cents. done.
  - destruct (float_of_ratio (q * v) least) as [w| |] eqn:Ew; [|done..]. intros Hm Hr. exfalso.
    destruct (big_ratio (q * v) least w) as [_ Hbig]; [done| |done|].
    { assert (Hu100 : 100 <= u) by (destruct (Z.le_gt_cases 100 u); [done|]; nia). rewrite Z.max_l in Hv by done.
      assert (Hhalf : u * least <= 200 * v).
      { change (2 ^ 52) with 4503599627370496 in Hv. set (X := u * least) in *. assert (0 <= X) by (unfold X; nia). clearbody X. lia. }
      change (10 ^ 13) with 10000000000000 in Hb. change (10 ^ 10) with 10000000000.
      assert (q * (u * least) <= q * (200 * v)) by (apply Z.mul_le_mono_nonneg_l; [lia|done]). nia. }
    destruct (money_float_cents _ _ Hm) as [z ->]. specialize (Hbig z Hm). apply money_column_cents in Hr as [_ Hz]. lia.
Qed.

(** Quantity times price, as every line write computes it, is exact. *)
Lemma scaled_exact q u m r : 0 < q <= 9999 -> Z.abs u < 10 ^ 12 -> _money_float (float_scale q (float_of_decimal (cents u))) = Ok m ->
  money_column m = Ok r -> r = cents (q * u).
Proof.
  intros Hq Hu Hm Hr. destruct (Z.le_gt_cases 0 u) as [H0|H0]; [eapply scaled_pos; eauto; lia|].
  destruct (float_cents_rel (- u) ltac:(lia)) as (v & E & Hv). pose proof (float_of_ratio_opp (- u) 100 v ltac:(lia) E) as E'.
  rewrite Z.opp_involutive in E'. rewrite float_of_cents, E' in Hm. cbn [float_scale] in Hm. pose proof least_pos as HL.
  destruct (float_of_ratio (q * - v) least) as [w| |] eqn:Ew; [|done..].
  pose proof (float_of_ratio_opp _ _ _ HL Ew) as Ew'. replace (- (q * - v)) with (q * v) in Ew' by ring.
  destruct (money_float_cents _ _ Hm) as [z ->]. apply money_column_cents in Hr as [-> Hz].
  destruct (Z.lt_trichotomy w 0) as [Hw|[->|Hw]].
  - rewrite <- (Z.opp_involutive w) in Hm. apply money_float_opp in Hm; [|lia].
    assert (cents (- z) = cents (q * - u)) as [= Hzz]; [|f_equal; lia].
    apply (scaled_pos q (- u) (cents (- z))); [done|lia| |by apply money_column_cents; split; [done|lia]].
    rewrite float_of_cents, E. cbn [float_scale]. by rewrite Ew'.
  - assert (z = 0) as -> by (vm_compute in Hm; by injection Hm).
    assert (cents 0 = cents (q * - u)) as [= Hzz]; [|f_equal; lia].
    apply (scaled_pos q (- u) (cents 0)); [done|lia| |done]. rewrite float_of_cents, E. cbn [float_scale]. by rewrite Ew'.
  - exfalso. assert (Z0 : float_of_ratio 0 1 = FNum 0) by (vm_compute; reflexivity).
    pose proof (float_mono 0 1 (- u) 100 _ _ ltac:(lia) ltac:(lia) ltac:(lia) ltac:(lia) Z0 E) as Hv0.
    pose proof (float_mono 0 1 (q * v) least _ _ ltac:(lia) ltac:(lia) HL ltac:(nia) Z0 Ew'). lia.
Qed.

(** * Sums of stored lines *)

(** The cents of a column of stored rows; 0 where it holds none. *)
Definition line_cents (l : QuoteLine) : Z := default 0 (money_col (ql_line_total l)).
Definition priced_line (l : QuoteLine) : Prop := exists c, ql_line_total l = Some (cents c) /\ Z.abs c < 10 ^ 12.
Definition sum_cents (l : list QuoteLine) : Z := zsum (map line_cents l).

Lemma priced_cents l : Forall priced_line l -> cents_col ql_line_total l = Some (map line_cents l).
Proof.
  intros H. unfold cents_col. induction H as [|x l (c & E & Hc) _ IH]; [done|]. cbn [mapM map].
  unfold line_cents at 1. rewrite E, money_col_cents by done. cbn. by rewrite IH.
Qed.

(** The bound on the tables: sums below it are exact in the decimal context. *)
Definition roomy_table (l : list QuoteLine) : Prop := Z.of_nat (length l) <= 10 ^ 15.

Lemma dec_sum_lines l : Forall priced_line l -> roomy_table l ->
  exists e, (e = -2 \/ e = 0 /\ sum_cents l = 0) /\ dec_sum (map (fun ln => _dec (ql_line_total ln)) l) = Ok (DFinite (sum_cents l) e).
Proof.
  intros Hp Hl. destruct (cents_col_dec _ _ _ (priced_cents l Hp)) as (-> & _ & HB & Hlen).
  destruct (dec_sum_cents (map line_cents l) (10 ^ 12) HB) as (e & He & ->); [|lia|].
  - unfold roomy_table in Hl. rewrite Hlen. change (10 ^ decimal_prec) with (10 ^ 28). lia.
  - exists e. split; [|done]. destruct He as [->|[E ->]]; [by left|]. right. split; [done|]. unfold sum_cents. by rewrite E.
Qed.

Lemma sql_sum_lines l : Forall priced_line l ->
  exists e, (e = -2 \/ e = 0 /\ sum_cents l = 0) /\ default (DFinite 0 0) (sql_sum (map ql_line_total l)) = DFinite (sum_cents l) e.
Proof.
  intros Hp. destruct (sql_sum_cents _ _ _ (priced_cents l Hp)) as [[-> E]| ->].
  - exists 0. split; [right; by split|]. unfold sum_cents. by rewrite E.
  - exists (-2). split; [by left|done].
Qed.

Lemma resummed_sum c e r : (e = -2 \/ e = 0 /\ c = 0) -> resummed (DFinite c e) = Ok r -> r = cents c /\ Z.abs c < 10 ^ 12.
Proof.
  intros [->|[-> ->]]; [apply resummed_exact|].
  assert (resummed (DFinite 0 0) = Ok (cents 0)) as -> by (vm_compute; reflexivity). by intros [= <-].
Qed.

Lemma money2_sum c e : (e = -2 \/ e = 0 /\ c = 0) -> Z.abs c < 10 ^ decimal_prec -> _money2 (DFinite c e) = Ok (cents c).
Proof.
  unfold _money2, quantize_even. intros [->|[-> ->]] Hc; [|done]. change (-2 <=? -2) with true. cbv iota.
  change (10 ^ (-2 + 2)) with 1. rewrite Z.mul_1_r. by rewrite (proj2 (Z.ltb_lt _ _) Hc).
Qed.

Lemma money2_big c e r : (e = -2 \/ e = 0 /\ c = 0) -> _money2 (DFinite c e) = Ok r -> r = cents c.
Proof.
  unfold _money2, quantize_even. intros [->|[-> ->]]; [|by intros [= <-]]. change (-2 <=? -2) with true. cbv iota.
  change (10 ^ (-2 + 2)) with 1. rewrite Z.mul_1_r. destruct (_ <? _); [by intros [= <-]|done].
Qed.
