(* ===== verification/QuoteSpec.v ===== *)
(** What a quote says adds up, and what a customer accepted stands.

    The routes of [QuoteRoutes] and the tier service of [Quotes] are read as
    changes of the quoting tables ([change]): of a header, of the lines of one
    open estimate, of the tiers of one open estimate, the acceptance of a
    tier, a new estimate.  The invariant [adds_up] ties every total to the
    rows below it, and [contract] is what an estimate promises. *)

From S2P Require Import Prelude PyStr Dates Money PyNum Models PayPeriods Coa Service RulesBase Adjustments Chokepoint InvoiceTotals Estimates InvoiceGuard MoneyRoutes Deposits Closeouts Billing PaymentPlans InvoiceEdits RollingVolume PricingEngine Quotes QuoteRoutes QuoteSums.

Local Open Scope Z_scope.

(** * The tables add up *)

Definition lines_ok (l : list QuoteLine) (n : uuid) : Prop :=
  NoDup (map ql_id l) /\ forall x, x ∈ l -> (ql_id x < n)%N /\ (ql_parent_id x < n)%N /\ priced_line x.

(** A tier has a price in cents; where it has lines, their sum. *)
Definition tier_priced (lines : list QuoteLine) (t : ProposalTier) : Prop :=
  exists c, pt_total_price t = Some (cents c) /\ Z.abs c < 10 ^ 12 /\
    (children (pt_id t) lines <> [] -> c = sum_cents (children (pt_id t) lines)).

Definition tiers_ok (tiers : list ProposalTier) (lines : list QuoteLine) (n : uuid) : Prop :=
  NoDup (map pt_id tiers) /\ lines_ok lines n /\
  forall t, t ∈ tiers -> (pt_id t < n)%N /\ (pt_estimate_id t < n)%N /\ tier_priced lines t.

(** The total is the accepted tier's price, and the sum of the lines where no
    tier is accepted. *)
Definition totalled (s : Sales) (e : Estimate) : Prop :=
  match est_accepted_tier_id e with
  | None => est_total e = Some (cents (sum_cents (children (est_id e) (sa_estimate_lines s))))
  | Some tid =>
      est_status e = EAccepted /\
      exists t, t ∈ sa_tiers s /\ pt_id t = tid /\ pt_estimate_id t = est_id e /\ est_total e = pt_total_price t
  end.

(** [n] is the first key not in use. *)
Record adds_up (s : Sales) (n : uuid) : Prop := {
  au_ids : NoDup (map est_id (sa_estimates s));
  au_next : forall e, e ∈ sa_estimates s -> (est_id e < n)%N;
  au_lines : lines_ok (sa_estimate_lines s) n;
  au_tiers : tiers_ok (sa_tiers s) (sa_tier_lines s) n;
  au_totals : forall e, e ∈ sa_estimates s -> totalled s e
}.

(** * Changes *)

Definition view (k : QuoteDesk) : Sales * uuid := (q_sales k, qd_next k).

Definition keeps_contract (e e' : Estimate) : Prop :=
  est_id e' = est_id e /\ est_total e' = est_total e /\ est_accepted_tier_id e' = est_accepted_tier_id e /\
  (est_status e = EAccepted -> est_status e' = EAccepted).

Definition settled_at (tier : uuid) (total : option decimal) (e : Estimate) : Estimate :=
  est_with (est_job_id e) (est_tax_rate e) (est_discount e) total EAccepted (Some tier) (est_deleted_at e) e.

Definition is_estimate (id_ : uuid) (e : Estimate) : bool := N.eqb (est_id e) id_.

Definition tiers_of (id_ : uuid) (s : Sales) : list ProposalTier :=
  List.filter (fun t => N.eqb (pt_estimate_id t) id_) (sa_tiers s).

(** [who] is the estimate whose accepted contract may be replaced. *)
Inductive change (who : option uuid) : Sales * uuid -> Sales * uuid -> Prop :=
  | ch_header s n s' n' f :
      sa_estimates s' = map f (sa_estimates s) -> (forall e, e ∈ sa_estimates s -> keeps_contract e (f e)) ->
      sa_estimate_lines s' = sa_estimate_lines s -> sa_tiers s' = sa_tiers s -> sa_tier_lines s' = sa_tier_lines s ->
      (n <= n')%N -> change who (s, n) (s', n')
  | ch_lines s n s' n' e :
      e ∈ sa_estimates s -> finalized (est_status e) = false -> est_accepted_tier_id e = None ->
      (forall j, j <> est_id e -> children j (sa_estimate_lines s') = children j (sa_estimate_lines s)) ->
      lines_ok (sa_estimate_lines s') n' ->
      sa_estimates s' = update_where (is_estimate (est_id e))
        (with_est_total (Some (cents (sum_cents (children (est_id e) (sa_estimate_lines s')))))) (sa_estimates s) ->
      sa_tiers s' = sa_tiers s -> sa_tier_lines s' = sa_tier_lines s ->
      (n <= n')%N -> change who (s, n) (s', n')
  | ch_tiers s n s' n' e :
      e ∈ sa_estimates s -> finalized (est_status e) = false ->
      (forall j, j <> est_id e -> tiers_of j s' = tiers_of j s) ->
      (forall t, t ∈ sa_tiers s -> pt_estimate_id t <> est_id e ->
         children (pt_id t) (sa_tier_lines s') = children (pt_id t) (sa_tier_lines s)) ->
      tiers_ok (sa_tiers s') (sa_tier_lines s') n' ->
      sa_estimates s' = sa_estimates s -> sa_estimate_lines s' = sa_estimate_lines s ->
      (n <= n')%N -> change who (s, n) (s', n')
  | ch_accept s n s' n' e t :
      e ∈ sa_estimates s -> t ∈ sa_tiers s -> pt_estimate_id t = est_id e ->
      (est_status e = EAccepted -> who = Some (est_id e)) ->
      sa_estimates s' = update_where (is_estimate (est_id e)) (settled_at (pt_id t) (pt_total_price t)) (sa_estimates s) ->
      sa_estimate_lines s' = sa_estimate_lines s -> sa_tiers s' = sa_tiers s -> sa_tier_lines s' = sa_tier_lines s ->
      (n <= n')%N -> change who (s, n) (s', n')
  | ch_new s n s' n' e ls ts tls :
      (n <= est_id e < n')%N -> est_accepted_tier_id e = None ->
      est_total e = Some (cents (sum_cents ls)) ->
      sa_estimates s' = sa_estimates s ++ [e] ->
      sa_estimate_lines s' = sa_estimate_lines s ++ ls -> Forall (fun l => ql_parent_id l = est_id e) ls ->
      lines_ok (sa_estimate_lines s') n' ->
      sa_tiers s' = sa_tiers s ++ ts -> Forall (fun t => pt_estimate_id t = est_id e) ts ->
      sa_tier_lines s' = sa_tier_lines s ++ tls -> Forall (fun l => (n <= ql_parent_id l)%N) tls ->
      tiers_ok (sa_tiers s') (sa_tier_lines s') n' -> change who (s, n) (s', n').

(** What an estimate promises: its totals, its lines and its tiers with theirs. *)
Record Contract : Type := mk_contract {
  cn_heads : list (option decimal * estimate_status * option uuid);
  cn_lines : list QuoteLine;
  cn_tiers : list (ProposalTier * list QuoteLine)
}.

Definition contract (id_ : uuid) (s : Sales) : Contract :=
  mk_contract (map (fun e => (est_total e, est_status e, est_accepted_tier_id e)) (List.filter (is_estimate id_) (sa_estimates s)))
    (children id_ (sa_estimate_lines s))
    (map (fun t => (t, children (pt_id t) (sa_tier_lines s))) (tiers_of id_ s)).

Definition accepted_in (id_ : uuid) (s : Sales) : Prop :=
  exists e, e ∈ sa_estimates s /\ est_id e = id_ /\ est_status e = EAccepted.

(** ** A change keeps the tables adding up *)

Lemma lines_ok_below l n x : lines_ok l n -> x ∈ l -> (ql_parent_id x < n)%N.
Proof. intros [_ H] Hx. apply (H x Hx). Qed.

Lemma children_fresh l n id_ : lines_ok l n -> (n <= id_)%N -> children id_ l = [].
Proof.
  intros Hl Hn. unfold children. apply filter_none. intros x Hx. apply N.eqb_neq.
  pose proof (lines_ok_below l n x Hl Hx). lia.
Qed.

Lemma children_app id_ l1 l2 : children id_ (l1 ++ l2) = children id_ l1 ++ children id_ l2.
Proof. apply List.filter_app. Qed.

Lemma children_all id_ l : Forall (fun x => ql_parent_id x = id_) l -> children id_ l = l.
Proof. induction 1 as [|x l Hx _ IH]; [done|]. cbn. rewrite Hx, N.eqb_refl. by f_equal. Qed.

Lemma children_none id_ l : Forall (fun x => ql_parent_id x <> id_) l -> children id_ l = [].
Proof. induction 1 as [|x l Hx _ IH]; [done|]. cbn. by rewrite (proj2 (N.eqb_neq _ _) Hx). Qed.

Lemma lines_ok_mono l n n' : lines_ok l n -> (n <= n')%N -> lines_ok l n'.
Proof. intros [H1 H2] Hn. split; [done|]. intros x Hx. destruct (H2 x Hx) as (? & ? & ?). split_and!; [lia|lia|done]. Qed.

Lemma tiers_ok_mono ts l n n' : tiers_ok ts l n -> (n <= n')%N -> tiers_ok ts l n'.
Proof.
  intros (H1 & H2 & H3) Hn. split_and!; [done|by eapply lines_ok_mono|]. intros t Ht.
  destruct (H3 t Ht) as (? & ? & ?). split_and!; [lia|lia|done].
Qed.

Lemma update_where_ids id_ (f : Estimate -> Estimate) l : (forall e, est_id (f e) = est_id e) ->
  map est_id (update_where (is_estimate id_) f l) = map est_id l.
Proof. intros H. by apply update_where_map. Qed.

(** The row an estimate's key names is the only one. *)
Lemma same_estimate s n e e0 : adds_up s n -> e ∈ sa_estimates s -> e0 ∈ sa_estimates s -> is_estimate (est_id e) e0 = true -> e0 = e.
Proof. intros H He He0 E%N.eqb_eq. by apply (NoDup_map_inj est_id (sa_estimates s)); [apply H|..]. Qed.

Lemma open_no_tier s n e : adds_up s n -> e ∈ sa_estimates s -> finalized (est_status e) = false -> est_accepted_tier_id e = None.
Proof.
  intros H He Hf. pose proof (au_totals s n H e He) as Ht. unfold totalled in Ht.
  destruct (est_accepted_tier_id e); [|done]. destruct Ht as [E _]. by rewrite E in Hf.
Qed.

Lemma totalled_same s s' e e' : keeps_contract e e' -> sa_estimate_lines s' = sa_estimate_lines s -> sa_tiers s' = sa_tiers s ->
  totalled s e -> totalled s' e'.
Proof.
  intros (E1 & E2 & E3 & E4) Hl Ht. unfold totalled. rewrite E3, E1, E2, Hl, Ht. destruct (est_accepted_tier_id e); [|done].
  intros [Hs H]. split; [by apply E4|done].
Qed.

Lemma keeps_contract_refl e : keeps_contract e e.
Proof. by split_and!. Qed.

Lemma totals_header s s' f : sa_estimates s' = map f (sa_estimates s) -> (forall e, e ∈ sa_estimates s -> keeps_contract e (f e)) ->
  sa_estimate_lines s' = sa_estimate_lines s -> sa_tiers s' = sa_tiers s ->
  (forall e, e ∈ sa_estimates s -> totalled s e) -> forall e, e ∈ sa_estimates s' -> totalled s' e.
Proof.
  intros E Hf Hl Ht H e. rewrite E. intros (x & Hx & <-)%elem_of_map_b. eapply totalled_same; eauto.
Qed.

Lemma totals_lines s s' n e : adds_up s n -> e ∈ sa_estimates s -> est_accepted_tier_id e = None ->
  (forall j, j <> est_id e -> children j (sa_estimate_lines s') = children j (sa_estimate_lines s)) ->
  sa_estimates s' = update_where (is_estimate (est_id e))
    (with_est_total (Some (cents (sum_cents (children (est_id e) (sa_estimate_lines s')))))) (sa_estimates s) ->
  sa_tiers s' = sa_tiers s -> forall x, x ∈ sa_estimates s' -> totalled s' x.
Proof.
  intros H He Hn Hc E Ht x. rewrite E. intros (x0 & Hx0 & ->)%elem_of_update_where.
  destruct (is_estimate (est_id e) x0) eqn:Ei.
  - rewrite (same_estimate s n e x0 H He Hx0 Ei). unfold totalled. cbn. by rewrite Hn.
  - pose proof (au_totals s n H x0 Hx0) as Htot. apply N.eqb_neq in Ei. unfold totalled in *. rewrite Ht.
    destruct (est_accepted_tier_id x0); [done|]. by rewrite Hc.
Qed.

Lemma tiers_of_elem t id_ s : t ∈ tiers_of id_ s <-> t ∈ sa_tiers s /\ pt_estimate_id t = id_.
Proof. unfold tiers_of. by rewrite list_elem_of_In, filter_In, <- list_elem_of_In, N.eqb_eq. Qed.

Lemma totals_tiers s s' n e : adds_up s n -> e ∈ sa_estimates s -> finalized (est_status e) = false ->
  (forall j, j <> est_id e -> tiers_of j s' = tiers_of j s) ->
  sa_estimates s' = sa_estimates s -> sa_estimate_lines s' = sa_estimate_lines s ->
  forall x, x ∈ sa_estimates s' -> totalled s' x.
Proof.
  intros H He Hf Htiers E Hl x Hx. rewrite E in Hx. pose proof (au_totals s n H x Hx) as Htot. unfold totalled in *. rewrite Hl.
  destruct (est_accepted_tier_id x) as [tid|] eqn:Ea; [|done]. destruct Htot as (Hs & t & Ht & Eid & Ee & Etot). split; [done|].
  exists t. split_and!; try done. assert (est_id x <> est_id e) as Hne.
  { intros Eq. assert (x = e) as -> by (apply (same_estimate s n); [done..|]; by apply N.eqb_eq). by rewrite Hs in Hf. }
  apply (tiers_of_elem t (est_id x) s'). rewrite Htiers by done. by apply tiers_of_elem.
Qed.

Lemma totals_accept s s' n e t : adds_up s n -> e ∈ sa_estimates s -> t ∈ sa_tiers s -> pt_estimate_id t = est_id e ->
  sa_estimates s' = update_where (is_estimate (est_id e)) (settled_at (pt_id t) (pt_total_price t)) (sa_estimates s) ->
  sa_estimate_lines s' = sa_estimate_lines s -> sa_tiers s' = sa_tiers s ->
  forall x, x ∈ sa_estimates s' -> totalled s' x.
Proof.
  intros H He Ht Et E Hl Htiers x. rewrite E. intros (x0 & Hx0 & ->)%elem_of_update_where.
  destruct (is_estimate (est_id e) x0) eqn:Ei.
  - rewrite (same_estimate s n e x0 H He Hx0 Ei). unfold totalled. cbn. split; [done|]. exists t. rewrite Htiers. by split_and!.
  - eapply totalled_same; [apply keeps_contract_refl|done..|]. by apply (au_totals s n).
Qed.

Lemma totals_new s s' n e ls ts : adds_up s n -> (n <= est_id e)%N -> est_accepted_tier_id e = None ->
  est_total e = Some (cents (sum_cents ls)) -> sa_estimates s' = sa_estimates s ++ [e] ->
  sa_estimate_lines s' = sa_estimate_lines s ++ ls -> Forall (fun l => ql_parent_id l = est_id e) ls ->
  sa_tiers s' = sa_tiers s ++ ts -> forall x, x ∈ sa_estimates s' -> totalled s' x.
Proof.
  intros H Hid Hn Htot E Hl Hls Ht x. rewrite E. intros [Hx| ->%list_elem_of_singleton]%elem_of_app; unfold totalled.
  - pose proof (au_totals s n H x Hx) as Hx1. unfold totalled in Hx1. pose proof (au_next s n H x Hx).
    destruct (est_accepted_tier_id x) as [tid|].
    + destruct Hx1 as (Hs & t & Hts & Hrest). split; [done|]. exists t. rewrite Ht, elem_of_app. auto.
    + rewrite Hl, children_app, (children_none _ ls), app_nil_r; [done|]. eapply Forall_impl; [done|]. intros l ->. lia.
  - rewrite Hn, Hl, children_app, (children_fresh _ n), (children_all _ ls) by (done || apply H). done.
Qed.

Lemma change_adds_up who p p' : adds_up (fst p) (snd p) -> change who p p' -> adds_up (fst p') (snd p').
Proof.
  intros H Hch0. revert H. destruct Hch0 as [s n s' n' f E Hf Hl Ht Htl Hn|s n s' n' e He Hfin Hnt Hc Hok E Ht Htl Hn|s n s' n' e He Hfin Htiers Hch Hok E Hl Hn
           |s n s' n' e t He Ht Eid Hw E Hl Hts Htl Hn|s n s' n' e ls ts tls Hid Hnt Htot E Hl Hls Hok Ht Hts Htl Htls Htok];
    cbn [fst snd]; intros H; pose proof H as Hau; destruct H as [H1 H2 H3 H4 H5].
  - constructor.
    + assert (map est_id (sa_estimates s') = map est_id (sa_estimates s)) as ->; [|done].
      rewrite E, map_map. apply map_ext_in. intros x Hx%list_elem_of_In. by apply Hf.
    + rewrite E. intros x (x0 & Hx0 & <-)%elem_of_map_b. destruct (Hf x0 Hx0) as (-> & _). pose proof (H2 x0 Hx0). lia.
    + rewrite Hl. by eapply lines_ok_mono.
    + rewrite Ht, Htl. by eapply tiers_ok_mono.
    + by eapply totals_header.
  - constructor.
    + by rewrite E, update_where_ids.
    + rewrite E. intros x (x0 & Hx0 & ->)%elem_of_update_where. pose proof (H2 x0 Hx0). destruct (is_estimate _ x0); cbn; lia.
    + done.
    + rewrite Ht, Htl. by eapply tiers_ok_mono.
    + by eapply totals_lines.
  - constructor.
    + by rewrite E.
    + rewrite E. intros x Hx. pose proof (H2 x Hx). lia.
    + rewrite Hl. by eapply lines_ok_mono.
    + done.
    + by eapply totals_tiers.
  - constructor.
    + by rewrite E, update_where_ids.
    + rewrite E. intros x (x0 & Hx0 & ->)%elem_of_update_where. pose proof (H2 x0 Hx0). destruct (is_estimate _ x0); cbn; lia.
    + rewrite Hl. by eapply lines_ok_mono.
    + rewrite Hts, Htl. by eapply tiers_ok_mono.
    + by eapply totals_accept.
  - constructor.
    + rewrite E. apply NoDup_snoc_map; [done|]. intros y Hy. pose proof (H2 y Hy). lia.
    + rewrite E. intros x [Hx| ->%list_elem_of_singleton]%elem_of_app; [pose proof (H2 x Hx); lia|lia].
    + done.
    + done.
    + eapply totals_new; try done. lia.
Qed.

(** ** A change leaves the accepted contracts alone *)

Lemma heads_map id_ (f : Estimate -> Estimate) l : (forall e, e ∈ l -> est_id (f e) = est_id e) ->
  (forall e, e ∈ l -> est_id e = id_ -> est_total (f e) = est_total e /\ est_status (f e) = est_status e /\
     est_accepted_tier_id (f e) = est_accepted_tier_id e) ->
  map (fun e => (est_total e, est_status e, est_accepted_tier_id e)) (List.filter (is_estimate id_) (map f l)) =
  map (fun e => (est_total e, est_status e, est_accepted_tier_id e)) (List.filter (is_estimate id_) l).
Proof.
  induction l as [|e l IH]; intros Hid Hhead; [done|]. cbn [map List.filter].
  assert (is_estimate id_ (f e) = is_estimate id_ e) as -> by (unfold is_estimate; by rewrite (Hid e (list_elem_of_here e l))).
  assert (forall x, x ∈ l -> x ∈ e :: l) as Hin by (intros; by apply list_elem_of_further).
  destruct (is_estimate id_ e) eqn:Ei; [|by apply IH; auto]. apply N.eqb_eq in Ei.
  cbn [map]. destruct (Hhead e (list_elem_of_here e l) Ei) as (-> & -> & ->). f_equal. apply IH; auto.
Qed.

(** The accepted estimates are none but the accepted row. *)
Lemma accepted_row s n id_ e : adds_up s n -> accepted_in id_ s -> e ∈ sa_estimates s -> est_id e = id_ -> est_status e = EAccepted.
Proof.
  intros H (a & Ha & Ea & Hs) He Ei. assert (e = a) as ->; [|done].
  apply (same_estimate s n); [done..|]. apply N.eqb_eq. by rewrite Ea.
Qed.

Lemma contract_same id_ s s' :
  map (fun e => (est_total e, est_status e, est_accepted_tier_id e)) (List.filter (is_estimate id_) (sa_estimates s')) =
  map (fun e => (est_total e, est_status e, est_accepted_tier_id e)) (List.filter (is_estimate id_) (sa_estimates s)) ->
  children id_ (sa_estimate_lines s') = children id_ (sa_estimate_lines s) ->
  tiers_of id_ s' = tiers_of id_ s ->
  (forall t, t ∈ tiers_of id_ s -> children (pt_id t) (sa_tier_lines s') = children (pt_id t) (sa_tier_lines s)) ->
  contract id_ s' = contract id_ s.
Proof.
  intros H1 H2 H3 H4. unfold contract. rewrite H1, H2, H3. f_equal. apply map_ext_in. intros t Ht%list_elem_of_In. by rewrite H4.
Qed.

Lemma heads_update id_ s n e (f : Estimate -> Estimate) : adds_up s n -> accepted_in id_ s -> e ∈ sa_estimates s ->
  est_status e <> EAccepted -> (forall x, est_id (f x) = est_id x) ->
  map (fun e => (est_total e, est_status e, est_accepted_tier_id e)) (List.filter (is_estimate id_) (update_where (is_estimate (est_id e)) f (sa_estimates s))) =
  map (fun e => (est_total e, est_status e, est_accepted_tier_id e)) (List.filter (is_estimate id_) (sa_estimates s)).
Proof.
  intros H Ha He Hs Hf. apply heads_map.
  - intros x _. by destruct (is_estimate (est_id e) x).
  - intros x Hx Ei. destruct (is_estimate (est_id e) x) eqn:Ex; [|done]. exfalso.
    rewrite (same_estimate s n e x H He Hx Ex) in Ei. apply Hs. by eapply accepted_row.
Qed.

Lemma accepted_below s n id_ : adds_up s n -> accepted_in id_ s -> (id_ < n)%N.
Proof. intros H (e & He & <- & _). by apply (au_next s n H). Qed.

Lemma not_final e : finalized (est_status e) = false -> est_status e <> EAccepted.
Proof. intros H E. by rewrite E in H. Qed.

Lemma change_contract who id_ p p' : adds_up (fst p) (snd p) -> accepted_in id_ (fst p) -> who <> Some id_ -> change who p p' ->
  contract id_ (fst p') = contract id_ (fst p).
Proof.
  intros H Ha Hw Hch0. revert H Ha.
  destruct Hch0 as [s n s' n' f E Hf Hl Ht Htl Hn|s n s' n' e He Hfin Hnt Hc Hok E Ht Htl Hn|s n s' n' e He Hfin Htiers Hch Hok E Hl Hn
           |s n s' n' e t He Ht Eid Hwho E Hl Hts Htl Hn|s n s' n' e ls ts tls Hid Hnt Htot E Hl Hls Hok Ht Hts Htl Htls Htok];
    cbn [fst snd]; intros H Ha; apply contract_same; unfold tiers_of; rewrite ?E, ?Hl, ?Ht, ?Hts, ?Htl; try done.
  - apply heads_map; [intros e He; by apply Hf|]. intros e He Ei. destruct (Hf e He) as (_ & ? & ? & Hs). split_and!; [done| |done].
    pose proof (accepted_row s n id_ e H Ha He Ei) as Es. by rewrite Es, Hs.
  - apply (heads_update id_ s n e); try done. by apply not_final.
  - apply Hc. intros ->. by apply (not_final e Hfin), (accepted_row s n (est_id e)).
  - apply Htiers. intros ->. by apply (not_final e Hfin), (accepted_row s n (est_id e)).
  - intros t [Ht Et]%tiers_of_elem. apply Hch; [done|]. rewrite Et. intros ->. by apply (not_final e Hfin), (accepted_row s n (est_id e)).
  - destruct (decide (est_id e = id_)) as [<-|Hne].
    + exfalso. apply Hw, Hwho. by apply (accepted_row s n (est_id e)).
    + apply heads_map; [intros x _; by destruct (is_estimate (est_id e) x)|]. intros x Hx Ei.
      destruct (is_estimate (est_id e) x) eqn:Ex; [|done]. apply N.eqb_eq in Ex. congruence.
  - pose proof (accepted_below s n id_ H Ha). rewrite List.filter_app, map_app. cbn [List.filter].
    unfold is_estimate at 2. rewrite (proj2 (N.eqb_neq (est_id e) id_)) by lia. by rewrite app_nil_r.
  - pose proof (accepted_below s n id_ H Ha). rewrite children_app, (children_none _ ls), app_nil_r; [done|].
    eapply Forall_impl; [done|]. intros l ->. lia.
  - pose proof (accepted_below s n id_ H Ha). rewrite List.filter_app, (filter_none _ ts), app_nil_r; [done|].
    intros t Hin. apply N.eqb_neq. rewrite Forall_forall in Hts. rewrite (Hts t Hin). lia.
  - intros t [Htt _]%tiers_of_elem. rewrite children_app, (children_none _ tls), app_nil_r; [done|].
    eapply Forall_impl; [done|]. intros l Hlt. cbn in Hlt. destruct (au_tiers s n H) as (_ & _ & Hb). destruct (Hb t Htt) as [? _]. lia.
Qed.

Lemma accepted_contract id_ s : accepted_in id_ s <-> exists h, h ∈ cn_heads (contract id_ s) /\ snd (fst h) = EAccepted.
Proof.
  unfold accepted_in, contract. cbn [cn_heads]. split.
  - intros (e & He & Ei & Hs). exists (est_total e, est_status e, est_accepted_tier_id e). split; [|done].
    apply elem_of_map_b. exists e. split; [|done]. rewrite list_elem_of_In, filter_In, <- list_elem_of_In. split; [done|]. by apply N.eqb_eq.
  - intros (h & (e & He & <-)%elem_of_map_b & Hs). rewrite list_elem_of_In, filter_In, <- list_elem_of_In in He.
    destruct He as [He Ei%N.eqb_eq]. by exists e.
Qed.

Lemma changes_adds_up who p p' : rtc (change who) p p' -> adds_up (fst p) (snd p) -> adds_up (fst p') (snd p').
Proof. induction 1 as [|p p1 p2 H1 _ IH]; [done|]. intros H. eapply IH, change_adds_up; eauto. Qed.

Lemma changes_contract who id_ p p' : rtc (change who) p p' -> who <> Some id_ -> adds_up (fst p) (snd p) -> accepted_in id_ (fst p) ->
  contract id_ (fst p') = contract id_ (fst p).
Proof.
  intros Hr Hw. induction Hr as [|p p1 p2 H1 _ IH]; [done|]. intros H Ha.
  pose proof (change_contract who id_ p p1 H Ha Hw H1) as E. rewrite IH; [done|by eapply change_adds_up|].
  apply accepted_contract. rewrite E. by apply accepted_contract.
Qed.
