(* ===== verification/QuoteRuns.v ===== *)
(** Every request to the quoting routes, run as changes of the tables: the
    sums stand after any sequence of requests, and an accepted contract is
    left alone by all of them but the tier acceptance that names it. *)

From S2P Require Import Prelude PyStr Dates Money PyNum Models PayPeriods Coa Service RulesBase Adjustments Chokepoint InvoiceTotals Estimates InvoiceGuard MoneyRoutes Deposits Closeouts Billing PaymentPlans InvoiceEdits RollingVolume PricingEngine Quotes QuoteRoutes QuoteSums QuoteSpec.

Local Open Scope Z_scope.

(** * Runs *)

Definition roomy (k : QuoteDesk) : Prop :=
  roomy_table (sa_estimate_lines (q_sales k)) /\ roomy_table (sa_tier_lines (q_sales k)).

Definition sound (k : QuoteDesk) : Prop := adds_up (q_sales k) (qd_next k).

Definition goes (who : option uuid) (k k' : QuoteDesk) : Prop := roomy k' -> rtc (change who) (view k) (view k').

Lemma goes_same who k k' : view k' = view k -> goes who k k'.
Proof. intros E _. by rewrite E. Qed.

Lemma goes_step who k k' : (roomy k' -> change who (view k) (view k')) -> goes who k k'.
Proof. intros H Hr. by apply rtc_once, H. Qed.

Lemma goes_request {A} who (m : M QuoteDesk A) k : (forall a k', m k = (Ok a, k') -> goes who k k') -> goes who k (snd (quote_request m k)).
Proof. intros H. unfold quote_request. destruct (m k) as [[a|e] k'] eqn:E; [by eapply H|]. by apply goes_same. Qed.

Lemma goes_contained {A} who (m : M QuoteDesk A) k : (forall a k', m k = (Ok a, k') -> goes who k k') -> goes who k (snd (contained m k)).
Proof.
  intros H. pose proof (goes_request who m k H) as Hg. unfold contained, mtry. by destruct (quote_request m k).
Qed.

(** A computation that leaves the quoting tables and the keys alone. *)
Definition quiet {A} (m : M QuoteDesk A) : Prop := keeps (fun k k' => view k' = view k) m.
#[export] Instance view_preorder : PreOrder (fun k k' : QuoteDesk => view k' = view k).
Proof. split; [by intros k|]. intros k1 k2 k3 H1 H2. by rewrite H2. Qed.

Lemma quiet_Ok {A} (m : M QuoteDesk A) k a k' : quiet m -> m k = (Ok a, k') -> view k' = view k.
Proof. intros H E. specialize (H k). by rewrite E in H. Qed.

Lemma quiet_session {A} (m : Sales -> M Session A) : quiet (q_session m).
Proof. intros k. unfold q_session. by destruct (m _ _) as [r s]. Qed.

(** One statement of a run, and what a statement without effect binds. *)
Ltac pop H x s H1 := apply mseq_Ok in H as (x & s & H1 & H).
Ltac pures H := apply pair_equal_spec in H as [H <-]; try (injection H as <-).

(** ** Guards *)

Lemma find_estimate_Some id_ k e : find_estimate id_ k = Some e -> e ∈ sa_estimates (q_sales k) /\ est_id e = id_.
Proof. intros [H1 H2%N.eqb_eq]%List.find_some. by rewrite list_elem_of_In. Qed.

Lemma get_estimate_Ok id_ k e k' : _get_estimate_or_404 id_ k = (Ok e, k') ->
  k' = k /\ e ∈ sa_estimates (q_sales k) /\ est_id e = id_.
Proof.
  unfold _get_estimate_or_404. intros H. minv H. destruct (find_estimate id_ _) as [x|] eqn:E; [|minv H].
  destruct (bool_decide _); minv H. split; [done|by apply find_estimate_Some].
Qed.

Lemma held_Ok id_ k e k' : _held_editable_estimate id_ k = (Ok e, k') ->
  k' = k /\ e ∈ sa_estimates (q_sales k) /\ est_id e = id_ /\ finalized (est_status e) = false.
Proof.
  unfold _held_editable_estimate, _ensure_editable. intros H. minv H. apply get_estimate_Ok in H0 as (-> & He & Ei).
  destruct (finalized (est_status e)) eqn:Ef; minv H1. done.
Qed.

Lemma editable_Ok id_ k e k' : _editable_estimate id_ k = (Ok e, k') ->
  k' = k /\ e ∈ sa_estimates (q_sales k) /\ est_id e = id_ /\ finalized (est_status e) = false.
Proof.
  unfold _editable_estimate. intros H. minv H. destruct (find_estimate id_ _) as [x|] eqn:E; [|minv H].
  apply find_estimate_Some in E as [He Ei]. destruct (finalized (est_status x)) eqn:Ef; minv H. done.
Qed.

Lemma tier_Ok estimate_id tier_id k t k' : _tier_or_404 estimate_id tier_id k = (Ok t, k') ->
  k' = k /\ t ∈ sa_tiers (q_sales k) /\ pt_id t = tier_id /\ pt_estimate_id t = estimate_id.
Proof.
  unfold _tier_or_404, tier_of. intros H. minv H. destruct (List.find _ _) as [x|] eqn:E; minv H.
  apply List.find_some in E as [H1 [E1%N.eqb_eq E2%N.eqb_eq]%andb_true_iff]. by rewrite list_elem_of_In.
Qed.

(** ** Headers *)

Lemma goes_header who k k' e f : sound k -> e ∈ sa_estimates (q_sales k) -> keeps_contract e (f e) ->
  sa_estimates (q_sales k') = update_where (is_estimate (est_id e)) f (sa_estimates (q_sales k)) ->
  sa_estimate_lines (q_sales k') = sa_estimate_lines (q_sales k) -> sa_tiers (q_sales k') = sa_tiers (q_sales k) ->
  sa_tier_lines (q_sales k') = sa_tier_lines (q_sales k) -> (qd_next k <= qd_next k')%N -> goes who k k'.
Proof.
  intros H He Hf E Hl Ht Htl Hn. apply goes_step. intros _. unfold view.
  eapply (ch_header who _ _ _ _ (fun x => if is_estimate (est_id e) x then f x else x)); try done.
  intros x Hx. destruct (is_estimate (est_id e) x) eqn:Ex; [|apply keeps_contract_refl]. by rewrite (same_estimate _ _ e x H He Hx Ex).
Qed.

Lemma keeps_status e s : est_status e <> EAccepted -> keeps_contract e (with_est_status s e).
Proof. intros H. by split_and!. Qed.

(** ** The lines of an open estimate *)

Lemma priced_children l n id_ : lines_ok l n -> Forall priced_line (children id_ l).
Proof.
  intros [_ H]. apply Forall_forall. intros x Hx. unfold children in Hx.
  rewrite list_elem_of_In, filter_In, <- list_elem_of_In in Hx. destruct Hx as [Hx _].
  by destruct (H x Hx) as (_ & _ & ?).
Qed.

Lemma recalculate_Ok e k k' n : est_accepted_tier_id e = None -> lines_ok (sa_estimate_lines (q_sales k)) n ->
  _recalculate_total e k = (Ok tt, k') ->
  k' = write_estimate (est_id e)
         (with_est_total (Some (cents (sum_cents (children (est_id e) (sa_estimate_lines (q_sales k))))))) k.
Proof.
  unfold _recalculate_total. intros -> Hl H. minv H.
  destruct (sql_sum_lines _ (priced_children _ n (est_id e) Hl)) as (x & Hx & E).
  match goal with H : resummed _ = Ok _ |- _ => rewrite E in H; apply (resummed_sum _ _ _ Hx) in H as [-> _] end. done.
Qed.

Lemma goes_lines who k k1 k' e : sound k -> e ∈ sa_estimates (q_sales k) -> finalized (est_status e) = false ->
  sa_estimates (q_sales k1) = sa_estimates (q_sales k) -> sa_tiers (q_sales k1) = sa_tiers (q_sales k) ->
  sa_tier_lines (q_sales k1) = sa_tier_lines (q_sales k) -> (qd_next k <= qd_next k1)%N ->
  (forall j, j <> est_id e -> children j (sa_estimate_lines (q_sales k1)) = children j (sa_estimate_lines (q_sales k))) ->
  lines_ok (sa_estimate_lines (q_sales k1)) (qd_next k1) -> _recalculate_total e k1 = (Ok tt, k') -> goes who k k'.
Proof.
  intros H He Hf E Ht Htl Hn Hc Hl Hr. pose proof (open_no_tier _ _ e H He Hf) as Hnt.
  apply (recalculate_Ok e k1 k' _ Hnt Hl) in Hr as ->. apply goes_step. intros _. unfold view.
  eapply (ch_lines who _ _ _ _ e); try done. by rewrite <- E.
Qed.

Lemma lines_ok_snoc l n x : lines_ok l n -> ql_id x = n -> (ql_parent_id x < n)%N -> priced_line x -> lines_ok (l ++ [x]) (n + 1)%N.
Proof.
  intros [H1 H2] Ei Hp Hx. split.
  - apply NoDup_snoc_map; [done|]. intros y Hy. destruct (H2 y Hy) as [? _]. lia.
  - intros y [Hy| ->%list_elem_of_singleton]%elem_of_app; [|split_and!; [lia|lia|done]].
    destruct (H2 y Hy) as (? & ? & ?). split_and!; [lia|lia|done].
Qed.

Lemma children_snoc_other l x j : j <> ql_parent_id x -> children j (l ++ [x]) = children j l.
Proof. intros H. rewrite children_app, (children_none j [x]), app_nil_r; [done|]. by repeat constructor. Qed.

(** Writing one row anew under the same parent. *)
Lemma lines_ok_update l n x y : lines_ok l n -> x ∈ l -> ql_id y = ql_id x -> ql_parent_id y = ql_parent_id x -> priced_line y ->
  lines_ok (update_where (fun z => N.eqb (ql_id z) (ql_id x)) (fun _ => y) l) n /\
  forall j, j <> ql_parent_id x ->
    children j (update_where (fun z => N.eqb (ql_id z) (ql_id x)) (fun _ => y) l) = children j l.
Proof.
  intros [H1 H2] Hx Ei Ep Hy.
  assert (Hone : forall z, z ∈ l -> N.eqb (ql_id z) (ql_id x) = true -> z = x).
  { intros z Hz E%N.eqb_eq. by apply (NoDup_map_inj ql_id l). }
  split_and!.
  - split.
    + assert (map ql_id (update_where (fun z => N.eqb (ql_id z) (ql_id x)) (fun _ => y) l) = map ql_id l) as ->; [|done].
      unfold update_where. rewrite map_map. apply map_ext_in. intros z Hz%list_elem_of_In.
      destruct (N.eqb_spec (ql_id z) (ql_id x)); congruence.
    + intros z (z0 & Hz0 & ->)%elem_of_update_where. destruct (H2 z0 Hz0) as (Hz1 & Hz2 & Hz3).
      destruct (N.eqb (ql_id z0) (ql_id x)) eqn:E; [|done]. rewrite (Hone z0 Hz0 E) in *. rewrite Ei, Ep. done.
  - intros j Hj. clear H1 H2 Hx. induction l as [|z l IH]; [done|].
    assert (IH' : children j (update_where (fun z => N.eqb (ql_id z) (ql_id x)) (fun _ => y) l) = children j l).
    { apply IH. intros z' Hz'. apply Hone. by apply list_elem_of_further. }
    unfold children, update_where in *. cbn [map List.filter]. destruct (N.eqb (ql_id z) (ql_id x)) eqn:E; [|by rewrite IH'].
    pose proof (Hone z (list_elem_of_here z l) E) as ->. rewrite Ep, (proj2 (N.eqb_neq _ _)) by congruence. by rewrite IH'.
Qed.

Lemma elem_of_lfilter {A} (p : A -> bool) l x : x ∈ List.filter p l <-> x ∈ l /\ p x = true.
Proof. by rewrite !list_elem_of_In, filter_In. Qed.

Lemma NoDup_map_lfilter {A B} (f : A -> B) (p : A -> bool) l : NoDup (map f l) -> NoDup (map f (List.filter p l)).
Proof.
  induction l as [|x l IH]; [done|]. cbn [map List.filter]. intros [Hx Hl]%NoDup_cons. destruct (p x); [|by apply IH].
  cbn [map]. apply NoDup_cons. split; [|by apply IH]. intros (y & Hy & E)%elem_of_map_b. apply Hx.
  apply elem_of_map_b. exists y. split; [|done]. by apply elem_of_lfilter in Hy as [? _].
Qed.

Lemma children_lfilter j (p : QuoteLine -> bool) l : (forall z, z ∈ l -> p z = false -> ql_parent_id z <> j) ->
  children j (List.filter p l) = children j l.
Proof.
  induction l as [|z l IH]; intros H; [done|]. cbn [List.filter].
  assert (IH' : children j (List.filter p l) = children j l) by (apply IH; intros; apply H; [by apply list_elem_of_further|done]).
  destruct (p z) eqn:E; unfold children in *; cbn [List.filter]; rewrite IH'; [done|].
  by rewrite (proj2 (N.eqb_neq _ _) (H z (list_elem_of_here z l) E)).
Qed.

Lemma lines_ok_lfilter l n p : lines_ok l n -> lines_ok (List.filter p l) n.
Proof. intros [H1 H2]. split; [by apply NoDup_map_lfilter|]. intros x [Hx _]%elem_of_lfilter. by apply H2. Qed.

Lemma line_row_Ok id_ eid description category quantity sort now q total item row :
  line_row id_ eid description category quantity sort now q total item = Ok row ->
  ql_id (fst row) = id_ /\ ql_parent_id (fst row) = eid /\ priced_line (fst row) /\
  (exists c, money_column total = Ok (cents c) /\ ql_line_total (fst row) = Some (cents c)).
Proof.
  unfold line_row. intros H. minv H. cbn. split_and!; try done.
  - destruct (money_column_Ok _ _ H1) as (c & -> & Hc). by exists c.
  - destruct (money_column_Ok _ _ H1) as (c & -> & Hc). eauto.
Qed.

(** ** The tiers of an open estimate *)

Lemma tiers_of_update id_ (f : ProposalTier -> ProposalTier) x s l : NoDup (map pt_id l) -> x ∈ l ->
  pt_estimate_id (f x) = pt_estimate_id x -> id_ <> pt_estimate_id x -> sa_tiers s = update_where (fun z => N.eqb (pt_id z) (pt_id x)) f l ->
  tiers_of id_ s = List.filter (fun z => N.eqb (pt_estimate_id z) id_) l.
Proof.
  intros Hnd Hx Ee Hne E. unfold tiers_of. rewrite E. clear E.
  assert (Hone : forall z, z ∈ l -> N.eqb (pt_id z) (pt_id x) = true -> z = x).
  { intros z Hz E%N.eqb_eq. by apply (NoDup_map_inj pt_id l). }
  clear Hnd Hx. induction l as [|z l IH]; [done|]. unfold update_where in *. cbn [map List.filter].
  rewrite IH by (intros; apply Hone; [by apply list_elem_of_further|done]).
  destruct (N.eqb (pt_id z) (pt_id x)) eqn:E; [|done]. rewrite (Hone z (list_elem_of_here z l) E), Ee.
  by rewrite (proj2 (N.eqb_neq (pt_estimate_id x) id_)) by congruence.
Qed.

Lemma tier_priced_lines l l' t : children (pt_id t) l' = children (pt_id t) l -> tier_priced l t -> tier_priced l' t.
Proof. intros E (c & H1 & H2 & H3). exists c. by rewrite E. Qed.

Lemma goes_tier_write who k k' e t f : sound k -> e ∈ sa_estimates (q_sales k) -> finalized (est_status e) = false ->
  t ∈ sa_tiers (q_sales k) -> pt_estimate_id t = est_id e -> pt_id (f t) = pt_id t -> pt_estimate_id (f t) = pt_estimate_id t ->
  sa_tiers (q_sales k') = update_where (fun z => N.eqb (pt_id z) (pt_id t)) f (sa_tiers (q_sales k)) ->
  lines_ok (sa_tier_lines (q_sales k')) (qd_next k') ->
  (forall j, j <> pt_id t -> children j (sa_tier_lines (q_sales k')) = children j (sa_tier_lines (q_sales k))) ->
  (roomy k' -> tier_priced (sa_tier_lines (q_sales k')) (f t)) ->
  sa_estimates (q_sales k') = sa_estimates (q_sales k) -> sa_estimate_lines (q_sales k') = sa_estimate_lines (q_sales k) ->
  (qd_next k <= qd_next k')%N -> goes who k k'.
Proof.
  intros H He Hf Ht Et Ei Ee E Hl Hc Hp Hest Hlines Hn. destruct (au_tiers _ _ H) as (Hnd & Htl & Hts).
  apply goes_step. intros Hr. unfold view. eapply (ch_tiers who _ _ _ _ e); try done.
  - intros j Hj. eapply (tiers_of_update j f t); try done. congruence.
  - intros t0 Ht0 Hne. apply Hc. intros Eq. apply Hne. rewrite <- Et. f_equal. by apply (NoDup_map_inj pt_id (sa_tiers (q_sales k))).
  - assert (Hone : forall z, z ∈ sa_tiers (q_sales k) -> N.eqb (pt_id z) (pt_id t) = true -> z = t).
    { intros z Hz Eq%N.eqb_eq. by apply (NoDup_map_inj pt_id (sa_tiers (q_sales k))). }
    split_and!; [|done|].
    + rewrite E. assert (map pt_id (update_where (fun z => N.eqb (pt_id z) (pt_id t)) f (sa_tiers (q_sales k))) =
        map pt_id (sa_tiers (q_sales k))) as ->; [|done]. unfold update_where. rewrite map_map. apply map_ext_in.
      intros z Hz%list_elem_of_In. destruct (N.eqb (pt_id z) (pt_id t)) eqn:Ez; [|done]. by rewrite (Hone z Hz Ez).
    + rewrite E. intros z (z0 & Hz0 & ->)%elem_of_update_where. destruct (Hts z0 Hz0) as (B1 & B2 & B3).
      destruct (N.eqb (pt_id z0) (pt_id t)) eqn:Ez.
      * rewrite (Hone z0 Hz0 Ez) in *. rewrite Ei, Ee. split_and!; [lia|lia|by apply Hp].
      * apply N.eqb_neq in Ez. split_and!; [lia|lia|]. eapply tier_priced_lines; [by apply Hc|done].
Qed.

Lemma update_where_same {A} (p : A -> bool) l : update_where p (fun x => x) l = l.
Proof. unfold update_where. induction l as [|x l IH]; [done|]. cbn. rewrite IH. by destruct (p x). Qed.

Lemma sum_cents_perm l l' : Permutation l l' -> sum_cents l = sum_cents l'.
Proof.
  intros H. unfold sum_cents. induction H as [|x l l' _ IH|x y l|l1 l2 l3 _ IH1 _ IH2]; cbn in *; lia.
Qed.

(** The contract lines of a tier: what they sum to. *)
Lemma contract_lines_sum s t n : lines_ok (sa_tier_lines s) n -> roomy_table (sa_tier_lines s) ->
  exists e, (e = -2 \/ e = 0 /\ sum_cents (children (pt_id t) (sa_tier_lines s)) = 0) /\
    dec_sum (map (fun ln => _dec (ql_line_total ln)) (tier_contract_lines s t)) =
      Ok (DFinite (sum_cents (children (pt_id t) (sa_tier_lines s))) e).
Proof.
  intros Hl Hr. unfold tier_contract_lines. pose proof (stable_sort_perm ql_before (children (pt_id t) (sa_tier_lines s))) as Hp.
  destruct (dec_sum_lines (stable_sort ql_before (children (pt_id t) (sa_tier_lines s)))) as (e & He & Hd).
  - rewrite Hp. by eapply priced_children.
  - unfold roomy_table in *. rewrite Hp. unfold children. pose proof (filter_length_le (fun ln => N.eqb (ql_parent_id ln) (pt_id t)) (sa_tier_lines s)). lia.
  - rewrite (sum_cents_perm _ _ Hp) in He, Hd. eauto.
Qed.

Lemma resync_Ok t k k' n : lines_ok (sa_tier_lines (q_sales k)) n -> roomy_table (sa_tier_lines (q_sales k)) ->
  _resync_tier_price t k = (Ok tt, k') ->
  k' = k /\ children (pt_id t) (sa_tier_lines (q_sales k)) = [] \/
  k' = write_tier (pt_id t) (with_tier_price (Some (cents (sum_cents (children (pt_id t) (sa_tier_lines (q_sales k))))))) k /\
  Z.abs (sum_cents (children (pt_id t) (sa_tier_lines (q_sales k)))) < 10 ^ 12.
Proof.
  intros Hl Hr H. unfold _resync_tier_price in H. pop H lines k0 H0. pures H0.
  destruct (contract_lines_sum (q_sales k) t n Hl Hr) as (e & He & Hd).
  destruct (tier_contract_lines (q_sales k) t) as [|x ls] eqn:E.
  - left. apply pair_equal_spec in H as [_ <-]. split; [done|]. unfold tier_contract_lines in E.
    apply Permutation_nil. by rewrite <- E, stable_sort_perm.
  - right. pop H tot k1 H1. pures H1. rewrite Hd in H1. injection H1 as <-. pop H price k2 H2. pures H2.
    apply (money2_big _ _ _ He) in H2 as ->. pop H price' k3 H3. pures H3. apply money_column_cents in H3 as [-> Hb].
    apply pair_equal_spec in H as [_ <-]. done.
Qed.

Lemma resync_frame t k k' : _resync_tier_price t k = (Ok tt, k') ->
  sa_tier_lines (q_sales k') = sa_tier_lines (q_sales k) /\ sa_estimates (q_sales k') = sa_estimates (q_sales k) /\
  sa_estimate_lines (q_sales k') = sa_estimate_lines (q_sales k) /\ qd_next k' = qd_next k.
Proof.
  unfold _resync_tier_price. intros H. pop H lines k0 H0. pures H0.
  destruct (tier_contract_lines (q_sales k) t); [by apply pair_equal_spec in H as [_ <-]|].
  pop H tot k1 H1. pures H1. pop H price k2 H2. pures H2. pop H price' k3 H3. pures H3. by apply pair_equal_spec in H as [_ <-].
Qed.

Lemma update_where_twice {A} (p : A -> bool) (f g : A -> A) l : (forall x, p (g x) = p x) ->
  update_where p f (update_where p g l) = update_where p (fun x => f (g x)) l.
Proof.
  intros H. unfold update_where. rewrite map_map. apply map_ext. intros x. destruct (p x) eqn:E; [by rewrite H, E|by rewrite E].
Qed.

(** A write of the tier or its lines, with the resync that follows it. *)
Lemma goes_tier_lines who k k1 k' e t g : sound k -> e ∈ sa_estimates (q_sales k) -> finalized (est_status e) = false ->
  t ∈ sa_tiers (q_sales k) -> pt_estimate_id t = est_id e ->
  (forall x, pt_id (g x) = pt_id x /\ pt_estimate_id (g x) = pt_estimate_id x /\ pt_total_price (g x) = pt_total_price x) ->
  sa_tiers (q_sales k1) = update_where (fun z => N.eqb (pt_id z) (pt_id t)) g (sa_tiers (q_sales k)) ->
  sa_estimates (q_sales k1) = sa_estimates (q_sales k) -> sa_estimate_lines (q_sales k1) = sa_estimate_lines (q_sales k) ->
  (qd_next k <= qd_next k1)%N -> lines_ok (sa_tier_lines (q_sales k1)) (qd_next k1) ->
  (forall j, j <> pt_id t -> children j (sa_tier_lines (q_sales k1)) = children j (sa_tier_lines (q_sales k))) ->
  _resync_tier_price t k1 = (Ok tt, k') -> goes who k k'.
Proof.
  intros H He Hf Ht Et Hg E1 E2 E3 Hn Hl Hc Hs Hr. pose proof (resync_frame t k1 k' Hs) as (F1 & F2 & F3 & F4).
  destruct (au_tiers _ _ H) as (_ & _ & Hts). destruct (Hts t Ht) as (_ & _ & c & P1 & P2 & P3). destruct (Hg t) as (G1 & G2 & G3).
  assert (Hrt : roomy_table (sa_tier_lines (q_sales k1))) by (rewrite <- F1; apply Hr).
  destruct (resync_Ok t k1 k' _ Hl Hrt Hs) as [[-> Hnil]|[E Hb]]; revert Hr.
  - apply (goes_tier_write who k k1 e t g); try done. intros _. exists c. rewrite G1, Hnil, G3. done.
  - set (total := sum_cents (children (pt_id t) (sa_tier_lines (q_sales k1)))) in *.
    apply (goes_tier_write who k k' e t (fun x => with_tier_price (Some (cents total)) (g x))); rewrite ?F1, ?F2, ?F3, ?F4; try done.
    + rewrite E. rewrite <- update_where_twice, <- E1 by (intros x; cbv beta; by destruct (Hg x) as [-> _]).
      reflexivity.
    + intros _. exists total. split_and!; [done|done|]. cbn. by rewrite G1.
Qed.

Section Runs.
Context `{W : World}.
Context (who : option uuid) (k : QuoteDesk) (Hok : sound k).

Lemma patch_estimate_goes id_ u : goes who k (snd (patch_estimate id_ u k)).
Proof.
  unfold patch_estimate. destruct (negb _); [by apply goes_same|]. apply goes_request. intros a k' H. minv H.
  apply held_Ok in H0 as (-> & He & Ei & Hf). case_match; minv H. subst. eapply goes_header; try done. by split_and!.
Qed.

Lemma delete_estimate_goes id_ : goes who k (snd (delete_estimate id_ k)).
Proof.
  unfold delete_estimate. apply goes_request. intros a k' H. minv H. apply get_estimate_Ok in H0 as (-> & He & Ei). subst.
  eapply goes_header; try done. by split_and!.
Qed.

Lemma mark_sent_goes id_ : goes who k (snd (mark_estimate_sent id_ k)).
Proof.
  unfold mark_estimate_sent. apply goes_request. intros a k' H. minv H. apply held_Ok in H0 as (-> & He & Ei & Hf). subst.
  eapply goes_header; try done. by apply keeps_status, not_final.
Qed.

Lemma decline_goes id_ reason : goes who k (snd (decline_estimate id_ reason k)).
Proof.
  unfold decline_estimate. destruct (_ || _); [by apply goes_same|]. apply goes_request. intros a k' H. minv H.
  apply get_estimate_Ok in H0 as (-> & He & Ei). destruct (finalized _) eqn:Hf; minv H. subst.
  eapply goes_header; try done. by apply keeps_status, not_final.
Qed.

Lemma reopen_goes id_ : goes who k (snd (reopen_estimate id_ k)).
Proof.
  unfold reopen_estimate. apply goes_request. intros a k' H. minv H. apply get_estimate_Ok in H0 as (-> & He & Ei).
  destruct (bool_decide _) eqn:Hs; cbn [negb] in H; minv H. subst. apply bool_decide_eq_true in Hs.
  eapply goes_header; try done. apply keeps_status. intros E. rewrite E in Hs. set_solver.
Qed.

Lemma expire_goes : goes who k (snd (expire_stale_estimates k)).
Proof.
  apply goes_step. intros _. unfold view.
  eapply (ch_header who _ _ _ _ (fun x => if is_stale k x then with_est_status EExpired x else x)); try done. intros e He.
  destruct (is_stale k e) eqn:Es; [|apply keeps_contract_refl]. apply keeps_status. intros E. unfold is_stale in Es.
  apply andb_true_iff in Es as [[Hs _]%andb_true_iff _]. apply bool_decide_eq_true in Hs. rewrite E in Hs. set_solver.
Qed.

Lemma reassign_goes id_ c reason : goes who k (snd (reassign_estimate_customer id_ c reason k)).
Proof.
  unfold reassign_estimate_customer. destruct (_ || _); [by apply goes_same|]. apply goes_request. intros a k' H. minv H.
  apply get_estimate_Ok in H0 as (-> & He & Ei). destruct (_ || _); minv H. case_match; minv H. case_match; minv H.
  match goal with H : q_uuid _ = _ |- _ => unfold q_uuid in H; apply pair_equal_spec in H as [_ <-] end.
  eapply (goes_header who _ _ _ (with_est_customer (Some c))); try done; cbn; lia.
Qed.

(** ** Line requests *)

Lemma resolve_customer_quiet e : quiet (_resolve_customer_for_engine e).
Proof.
  intros k0. unfold _resolve_customer_for_engine. destruct (est_customer_id e); [|done].
  destruct (qd_customers k0 !! _); [|done]. by destruct (get_or_refresh _ _ _ _) as [[]|].
Qed.

Lemma engine_quiet e cost category margin : quiet (_engine_price_line e cost category margin).
Proof.
  apply keeps_catch; [apply _| |apply keeps_raise; apply _]. apply keeps_seq; [apply _|apply keeps_reads; apply _|intros s].
  apply keeps_seq; [apply _|apply keeps_lift; apply _|intros s']. apply keeps_seq; [apply _|apply resolve_customer_quiet|intros c].
  apply keeps_lift, _.
Qed.

Lemma labor_quiet item quantity : quiet (labor_quote item quantity).
Proof.
  apply keeps_seq; [apply _| |intros r; apply keeps_seq; [apply _|apply keeps_reads; apply _|intros; apply keeps_lift, _]].
  apply keeps_seq; [apply _|apply keeps_reads; apply _|intros row]. apply keeps_seq; [apply _|apply keeps_reads; apply _|intros today].
  destruct row as [i|]; [|apply keeps_raise, _]. cbv zeta. case_match; [apply keeps_raise, _|apply keeps_return, _].
Qed.

Ltac quiet_lifts := repeat (apply keeps_seq; [apply _|apply keeps_lift; apply _|intros ?]).

Lemma quote_line_quiet e p : quiet (quote_line e p).
Proof.
  unfold quote_line. destruct (li_labor_price_item_id p); [apply labor_quiet|].
  destruct (li_cost p) as [cost|]; [|quiet_lifts; apply keeps_lift, _].
  destruct (truthy_str _); [|quiet_lifts; apply keeps_lift, _].
  apply keeps_seq; [apply _|apply engine_quiet|intros r]. quiet_lifts. apply keeps_return, _.
Qed.

Lemma quote_nested_quiet e p : quiet (quote_nested e p).
Proof.
  unfold quote_nested. destruct (li_labor_price_item_id p); [apply labor_quiet|].
  destruct (li_cost p) as [cost|]; [|apply keeps_lift, _]. destruct (truthy_str _); [|apply keeps_lift, _].
  apply keeps_seq; [apply _|apply engine_quiet|intros r]. apply keeps_return, _.
Qed.

Lemma check_override_quiet m : quiet (check_override m).
Proof.
  apply keeps_seq; [apply _|apply keeps_reads; apply _|intros b]. case_match; [apply keeps_raise, _|apply keeps_return, _].
Qed.

Lemma add_line_goes id_ p : goes who k (snd (add_line id_ p k)).
Proof.
  unfold add_line. destruct (negb _); [by apply goes_same|]. apply goes_request. intros a k' H.
  pop H e k0 H0. apply held_Ok in H0 as (-> & He & Ei & Hf).
  pop H u k1 H1. apply (quiet_Ok _ _ _ _ (check_override_quiet _)) in H1.
  pop H so k2 H2. pures H2. pop H q k3 H3.
  apply (quiet_Ok _ _ _ _ (quote_line_quiet _ _)) in H3. assert (Hv : view k3 = view k) by congruence.
  clear H1 H3. injection Hv as Hs Hn. unfold q_sales at 1 in Hs. pop H tot k4 H4. pures H4. pop H i k5 H5. pures H5. pop H now k6 H6. pures H6.
  pop H row k7 H7. pures H7. pop H u1 k8 H8. pures H8. pop H u2 k9 H9. pures H. destruct u2.
  apply line_row_Ok in H7 as (E1 & E2 & Hp & _).
  assert (Hid : (est_id e < qd_next k)%N) by (by apply (au_next _ _ Hok)).
  eapply (goes_lines who k _ _ e); [done..| | | | | | |exact H9]; cbn -[children lines_ok N.add]; rewrite ?Hs, ?Hn; try done; [lia| |].
  - intros j Hj. apply children_snoc_other. congruence.
  - apply lines_ok_snoc; [by apply (au_lines _ _ Hok)|by rewrite E1|by rewrite E2, <- Ei|done].
Qed.

Lemma line_Ok e line_id k0 l k1 : _line_or_404 e line_id k0 = (Ok l, k1) ->
  k1 = k0 /\ l ∈ sa_estimate_lines (q_sales k0) /\ ql_id l = line_id /\ ql_parent_id l = est_id e.
Proof.
  unfold _line_or_404, estimate_lines, children. intros H. pop H x k2 H0. pures H0. destruct (List.find _ _) as [y|] eqn:E; [|done].
  apply pair_equal_spec in H as [[= <-] <-].
  apply List.find_some in E as [[E1 E2%N.eqb_eq]%filter_In E3%N.eqb_eq]. by rewrite list_elem_of_In.
Qed.

Lemma patched_line_Ok u l c row : patched_estimate_line u l c = Ok row ->
  ql_id (fst row) = ql_id l /\ ql_parent_id (fst row) = ql_parent_id l /\ priced_line (fst row).
Proof.
  unfold patched_estimate_line. intros H. minv H. cbn. split_and!; [done..|].
  match goal with H : money_column _ = Ok ?x |- priced_line (mk_quote_line _ _ _ _ _ _ (Some ?x) _ _ _) =>
    destruct (money_column_Ok _ _ H) as (z & -> & Hz) end. by exists z.
Qed.

Lemma patch_line_goes id_ line_id u : goes who k (snd (patch_line id_ line_id u k)).
Proof.
  unfold patch_line. destruct (negb _); [by apply goes_same|]. apply goes_request. intros a k' H.
  pop H e k0 H0. apply held_Ok in H0 as (-> & He & Ei & Hf).
  pop H u0 k1 H1. apply (quiet_Ok _ _ _ _ (check_override_quiet _)) in H1. injection H1 as Hs Hn.
  pop H l k2 H2. apply line_Ok in H2 as (-> & Hl & El & Ep). rewrite Hs in Hl. unfold q_sales at 1 in Hs.
  pop H costs k3 H3. pures H3. pop H row k4 H4. pures H4. apply patched_line_Ok in H4 as (E1 & E2 & Hp).
  pop H u1 k5 H5. pures H5. pop H u2 k6 H6. pures H6. destruct a. subst line_id.
  destruct (lines_ok_update _ _ l (fst row) (au_lines _ _ Hok) Hl E1 E2 Hp) as [Hlok Hch].
  eapply (goes_lines who k _ _ e); [done..| | | | | | |exact H]; cbn -[children lines_ok N.add update_where]; rewrite ?Hs, ?Hn; try done.
  intros j Hj. apply Hch. congruence.
Qed.

Lemma delete_line_goes id_ line_id : goes who k (snd (delete_line id_ line_id k)).
Proof.
  unfold delete_line. apply goes_request. intros a k' H. pop H e k0 H0. apply held_Ok in H0 as (-> & He & Ei & Hf).
  pop H l k2 H2. apply line_Ok in H2 as (-> & Hl & El & Ep). pop H u1 k5 H5. pures H5. pop H u2 k6 H6. pures H6. destruct a.
  eapply (goes_lines who k _ _ e); [done..| | | | | | |exact H]; cbn -[children lines_ok N.add update_where]; try done.
  - intros j Hj. apply children_lfilter. intros z Hz E%negb_false_iff%N.eqb_eq.
    assert (z = l) as -> by (apply (NoDup_map_inj ql_id (sa_estimate_lines (q_sales k))); [apply (au_lines _ _ Hok)|done|done|congruence]). congruence.
  - by apply lines_ok_lfilter, (au_lines _ _ Hok).
Qed.

(** ** Tier requests *)

Lemma money_priced d r l t : money_column d = Ok r -> children (pt_id t) l = [] -> tier_priced l (with_tier_price (Some r) t).
Proof. intros (c & -> & Hc)%money_column_Ok Hnil. exists c. split_and!; [done|done|]. cbn. by rewrite Hnil. Qed.

Lemma no_contract_lines s t : tier_contract_lines s t = [] -> children (pt_id t) (sa_tier_lines s) = [].
Proof. unfold tier_contract_lines. intros E. apply Permutation_nil. by rewrite <- E, stable_sort_perm. Qed.

Lemma new_tier_goes e t n : e ∈ sa_estimates (q_sales k) -> finalized (est_status e) = false -> n = qd_next k ->
  pt_id t = n -> pt_estimate_id t = est_id e -> (exists c, pt_total_price t = Some (cents c) /\ Z.abs c < 10 ^ 12) ->
  forall k', q_sales k' = set_tiers (fun l => l ++ [t]) (q_sales k) -> qd_next k' = (n + 1)%N -> goes who k k'.
Proof.
  intros He Hf -> Ei Ee (c & Hc & Hb) k' Es En. destruct (au_tiers _ _ Hok) as (Hnd & Htl & Hts).
  pose proof (au_next _ _ Hok e He) as Hlt. apply goes_step. intros _. unfold view. rewrite Es, En.
  eapply (ch_tiers who _ _ _ _ e); try done; [| |lia].
  - intros j Hj. unfold tiers_of. cbn. rewrite List.filter_app. cbn. rewrite (proj2 (N.eqb_neq _ j)) by congruence. by rewrite app_nil_r.
  - cbn [set_tiers sa_tiers sa_tier_lines]. split_and!.
    + apply NoDup_snoc_map; [done|]. intros y Hy. destruct (Hts y Hy) as [? _]. lia.
    + eapply lines_ok_mono; [done|lia].
    + intros y [Hy| ->%list_elem_of_singleton]%elem_of_app.
      * destruct (Hts y Hy) as (? & ? & ?). split_and!; [lia|lia|done].
      * split_and!; [lia|lia|]. exists c. split_and!; [done|done|].
        rewrite Ei, (children_fresh _ (qd_next k)) by (done || lia). done.
Qed.

Lemma add_tier_goes id_ name description price warranty : goes who k (snd (add_proposal_tier id_ name description price warranty k)).
Proof.
  unfold add_proposal_tier. apply goes_request. intros a k' H. pop H e k0 H0. apply editable_Ok in H0 as (-> & He & Ei & Hf).
  pop H rows k1 H1. pures H1. destruct (List.filter _ _) as [|row [|]] eqn:Er; [| |done].
  - pop H c k2 H2. pures H2. pop H i k3 H3. pures H3. pop H u k4 H4. pures H4. pures H.
    destruct (money_column_Ok _ _ H2) as (c' & -> & Hc).
    eapply (new_tier_goes e (mk_tier (qd_next k) id_ name description (Some (cents c')) warranty (TIER_ORDER name)) (qd_next k)); try done.
    by exists c'.
  - assert (Hrow : row ∈ List.filter (fun t => N.eqb (pt_estimate_id t) id_ && bool_decide (pt_tier_name t = name)) (sa_tiers (q_sales k)))
      by (rewrite Er; apply list_elem_of_here).
    apply elem_of_lfilter in Hrow as [Hrow [Ee%N.eqb_eq _]%andb_true_iff].
    destruct (au_tiers _ _ Hok) as (_ & Htl & Hts). destruct (Hts row Hrow) as (_ & _ & c0 & P1 & P2 & P3).
    pop H u1 k2 H2. pures H2. pop H lines k3 H3. pures H3. pop H u2 k4 H4. pures H.
    match type of H4 with context [tier_contract_lines (q_sales ?kk) row] => set (k2 := kk) in * end.
    destruct (tier_contract_lines (q_sales k2) row) as [|x ls] eqn:El.
    + pop H4 c k5 H5. pures H5. apply pair_equal_spec in H4 as [_ <-]. apply no_contract_lines in El.
      eapply (goes_tier_write who k _ e row (fun t => with_tier_price (Some c) (with_tier (pt_tier_name t) description (pt_total_price t) warranty (pt_display_order t) t))); try done; [by rewrite Ee, Ei| |].
      * cbn. by apply update_where_twice.
      * intros _. by eapply money_priced.
    + destruct u2. eapply (goes_tier_lines who k k2 k4 e row); [done|done|done|done|by rewrite Ee, Ei| |reflexivity|done|done|done|done|done|done].
      by intros.
Qed.

Lemma patched_tier_Ok u ls t t' : patched_tier u ls t = Ok t' -> pt_id t' = pt_id t /\ pt_estimate_id t' = pt_estimate_id t /\
  (pt_total_price t' = pt_total_price t \/ ls = [] /\ exists c, pt_total_price t' = Some (cents c) /\ Z.abs c < 10 ^ 12).
Proof.
  unfold patched_tier. intros H. minv H. cbn. split_and!; [done..|].
  destruct (tp_total_price u) as [x|]; [|left; by simplify_eq]. destruct ls; [|left; by simplify_eq].
  right. split; [done|]. match goal with H : rbind (not_null x) _ = Ok _ |- _ => minv H end.
  match goal with H : money_column _ = Ok _ |- _ => destruct (money_column_Ok _ _ H) as (c & -> & Hc) end. eauto.
Qed.

Lemma update_tier_goes id_ tier_id u : goes who k (snd (update_proposal_tier id_ tier_id u k)).
Proof.
  unfold update_proposal_tier. apply goes_request. intros a k' H. pop H e k0 H0. apply editable_Ok in H0 as (-> & He & Ei & Hf).
  pop H t k1 H1. apply tier_Ok in H1 as (-> & Ht & Et & Ee). pop H clash k1 H1. pures H1. destruct (tier_clash _ _ _ _ _); [done|].
  pop H lines k2 H2. pures H2. pop H t' k3 H3. pures H3. apply pair_equal_spec in H as [_ <-].
  apply patched_tier_Ok in H3 as (E1 & E2 & Hprice). destruct (au_tiers _ _ Hok) as (_ & Htl & Hts).
  destruct (Hts t Ht) as (_ & _ & c & P1 & P2 & P3). subst tier_id.
  eapply (goes_tier_write who k _ e t (fun _ => t')); try done; [congruence|]. intros _. destruct Hprice as [E|[Hnil (c' & E & Hc)]].
  - exists c. rewrite E, E1. done.
  - exists c'. rewrite E1. split_and!; [done|done|]. intros Hne. destruct Hne. exact (no_contract_lines _ _ Hnil).
Qed.


Lemma tiers_lfilter l t tier_id j : NoDup (map pt_id l) -> t ∈ l -> pt_id t = tier_id -> pt_estimate_id t <> j ->
  List.filter (fun z => N.eqb (pt_estimate_id z) j) (List.filter (fun z => negb (N.eqb (pt_id z) tier_id)) l) =
  List.filter (fun z => N.eqb (pt_estimate_id z) j) l.
Proof.
  intros Hnd Ht Et Hj. assert (Hone : forall z, z ∈ l -> N.eqb (pt_id z) tier_id = true -> z = t).
  { intros z Hz Ez%N.eqb_eq. apply (NoDup_map_inj pt_id l); [done..|congruence]. }
  clear Hnd Ht. induction l as [|z l IH]; [done|]. cbn [List.filter].
  assert (IH' := IH (fun z' Hz' => Hone z' (list_elem_of_further _ _ _ Hz'))).
  destruct (N.eqb (pt_id z) tier_id) eqn:Ez; cbn [negb List.filter]; rewrite IH'; [|done].
  rewrite (Hone z (list_elem_of_here z l) Ez). by rewrite (proj2 (N.eqb_neq _ _) Hj).
Qed.

Lemma delete_tier_goes id_ tier_id : goes who k (snd (delete_proposal_tier id_ tier_id k)).
Proof.
  unfold delete_proposal_tier. apply goes_request. intros a k' H. pop H e k0 H0. apply editable_Ok in H0 as (-> & He & Ei & Hf).
  pop H t k1 H1. apply tier_Ok in H1 as (-> & Ht & Et & Ee). destruct (opt_eqb _ _); [done|].
  pop H u k2 H2. pures H2. apply pair_equal_spec in H as [_ <-]. destruct (au_tiers _ _ Hok) as (Hnd & Htl & Hts).
  assert (Hch : forall j, j <> tier_id -> children j (List.filter (fun l => negb (N.eqb (ql_parent_id l) tier_id)) (sa_tier_lines (q_sales k))) =
                  children j (sa_tier_lines (q_sales k))).
  { intros j Hj. apply children_lfilter. intros z _ Ez%negb_false_iff%N.eqb_eq. congruence. }
  apply goes_step. intros _. unfold view. eapply (ch_tiers who _ _ _ _ e); try done.
  - intros j Hj. apply (tiers_lfilter _ t); try done. congruence.
  - intros t0 Ht0 Hne. apply Hch. intros Eq. apply Hne. rewrite Ei, <- Ee. f_equal.
    apply (NoDup_map_inj pt_id (sa_tiers (q_sales k))); [done..|congruence].
  - cbn [set_sales set_office q_sales]. split_and!; [by apply NoDup_map_lfilter|by apply lines_ok_lfilter|].
    intros t0 [Ht0 Hid%negb_true_iff%N.eqb_neq]%elem_of_lfilter. destruct (Hts t0 Ht0) as (? & ? & ?). split_and!; [done|done|].
    eapply tier_priced_lines; [by apply Hch|done].
Qed.

Lemma add_tier_line_goes id_ tier_id description quantity price category :
  goes who k (snd (add_tier_line id_ tier_id description quantity price category k)).
Proof.
  unfold add_tier_line. apply goes_request. intros a k' H. pop H e k0 H0. apply editable_Ok in H0 as (-> & He & Ei & Hf).
  pop H t k1 H1. apply tier_Ok in H1 as (-> & Ht & Et & Ee). cbv zeta in H. pop H un k2 H2. pures H2. pop H lines k3 H3. pures H3.
  pop H pr k4 H4. pures H4. pop H tot k5 H5. pures H5. pop H un' k6 H6. pures H6. pop H tot' k7 H7. pures H7.
  pop H i k8 H8. pures H8. pop H now k9 H9. pures H9. pop H u1 k10 H10. pures H10. pop H u2 k11 H11. pures H. destruct u2.
  destruct (au_tiers _ _ Hok) as (Hnd & Htl & Hts). destruct (Hts t Ht) as (Hb & _). rewrite Et in Hb.
  destruct (money_column_Ok _ _ H7) as (c & -> & Hc).
  eapply (goes_tier_lines who k _ _ e t (fun x => x)); [done..|congruence|done| | | | | | |exact H11];
    cbn -[children lines_ok N.add]; try done; [by rewrite update_where_same|lia| |].
  - apply lines_ok_snoc; [done|done|done|]. by exists c.
  - intros j Hj. apply children_snoc_other. cbn. congruence.
Qed.

Lemma tier_line_Ok tier_id line_id k0 l k1 : _tier_line_or_404 tier_id line_id k0 = (Ok l, k1) ->
  k1 = k0 /\ l ∈ sa_tier_lines (q_sales k0) /\ ql_id l = line_id /\ ql_parent_id l = tier_id.
Proof.
  unfold _tier_line_or_404. intros H. pop H x k2 H0. pures H0. destruct (List.find _ _) as [y|] eqn:E; [|done].
  apply pair_equal_spec in H as [[= <-] <-].
  apply List.find_some in E as [E1 [E2%N.eqb_eq E3%N.eqb_eq]%andb_true_iff]. by rewrite list_elem_of_In.
Qed.

Lemma patched_tier_line_Ok u l l' : patched_tier_line u l = Ok l' ->
  ql_id l' = ql_id l /\ ql_parent_id l' = ql_parent_id l /\ priced_line l'.
Proof.
  unfold patched_tier_line. intros H. minv H. cbn. split_and!; [done..|].
  match goal with H : money_column _ = Ok ?x |- priced_line (mk_quote_line _ _ _ _ _ _ (Some ?x) _ _ _) =>
    destruct (money_column_Ok _ _ H) as (z & -> & Hz) end. by exists z.
Qed.

Lemma update_tier_line_goes id_ tier_id line_id u : goes who k (snd (update_tier_line id_ tier_id line_id u k)).
Proof.
  unfold update_tier_line. apply goes_request. intros a k' H. pop H e k0 H0. apply editable_Ok in H0 as (-> & He & Ei & Hf).
  pop H t k1 H1. apply tier_Ok in H1 as (-> & Ht & Et & Ee). pop H l k1 H1. apply tier_line_Ok in H1 as (-> & Hl & El & Ep).
  pop H l' k2 H2. pures H2. apply patched_tier_line_Ok in H2 as (E1 & E2 & Hp). pop H u1 k3 H3. pures H3. destruct a.
  destruct (au_tiers _ _ Hok) as (Hnd & Htl & Hts). destruct (lines_ok_update _ _ l l' Htl Hl E1 E2 Hp) as [Hlok Hch]. subst line_id.
  eapply (goes_tier_lines who k _ _ e t (fun x => x)); [done..|congruence|done| | | | | | |exact H];
    cbn -[children lines_ok N.add update_where]; try done; [by rewrite update_where_same|]. intros j Hj. apply Hch. congruence.
Qed.

Lemma delete_tier_line_goes id_ tier_id line_id : goes who k (snd (delete_tier_line id_ tier_id line_id k)).
Proof.
  unfold delete_tier_line. apply goes_request. intros a k' H. pop H e k0 H0. apply editable_Ok in H0 as (-> & He & Ei & Hf).
  pop H t k1 H1. apply tier_Ok in H1 as (-> & Ht & Et & Ee). pop H l k1 H1. apply tier_line_Ok in H1 as (-> & Hl & El & Ep).
  pop H u1 k3 H3. pures H3. destruct a. destruct (au_tiers _ _ Hok) as (Hnd & Htl & Hts).
  eapply (goes_tier_lines who k _ _ e t (fun x => x)); [done..|congruence|done| | | | | | |exact H];
    cbn -[children lines_ok N.add update_where]; try done; [by rewrite update_where_same|by apply lines_ok_lfilter|].
  intros j Hj. apply children_lfilter. intros z Hz Ez%negb_false_iff%N.eqb_eq.
  assert (z = l) as -> by (apply (NoDup_map_inj ql_id (sa_tier_lines (q_sales k))); [apply Htl|done|done|congruence]). congruence.
Qed.
End Runs.

(** ** Accepting *)

(** The tables a job's creation leaves alone. *)
Definition tables (k : QuoteDesk) : list Estimate * list QuoteLine * list ProposalTier * list QuoteLine :=
  (sa_estimates (q_sales k), sa_estimate_lines (q_sales k), sa_tiers (q_sales k), sa_tier_lines (q_sales k)).
Definition aside (k k' : QuoteDesk) : Prop := tables k' = tables k /\ (qd_next k <= qd_next k')%N.
#[export] Instance aside_preorder : PreOrder aside.
Proof.
  split; [by intros k|]. intros k1 k2 k3 [E1 H1] [E2 H2]. split; [by rewrite E2|lia].
Qed.

Definition same_lines (k k' : QuoteDesk) : Prop :=
  sa_estimate_lines (q_sales k') = sa_estimate_lines (q_sales k) /\ sa_tier_lines (q_sales k') = sa_tier_lines (q_sales k).

#[export] Instance same_lines_preorder : PreOrder same_lines.
Proof. split; [by intros k|]. intros k1 k2 k3 [H1 H2] [H3 H4]. split; congruence. Qed.

Lemma roomy_lines k k' : same_lines k k' -> roomy k' -> roomy k.
Proof. unfold roomy. by intros [-> ->]. Qed.

Lemma goes_then who k k1 k2 : sound k -> goes who k k1 -> same_lines k1 k2 -> (sound k1 -> goes who k1 k2) -> goes who k k2.
Proof.
  intros H H1 Hl H2 Hr. pose proof (H1 (roomy_lines k1 k2 Hl Hr)) as S1. etrans; [exact S1|]. apply H2; [|done].
  exact (changes_adds_up who _ _ S1 H).
Qed.

Lemma tables_eq k k' : tables k' = tables k -> sa_estimates (q_sales k') = sa_estimates (q_sales k) /\
  sa_estimate_lines (q_sales k') = sa_estimate_lines (q_sales k) /\ sa_tiers (q_sales k') = sa_tiers (q_sales k) /\
  sa_tier_lines (q_sales k') = sa_tier_lines (q_sales k).
Proof. unfold tables. by intros [= -> -> -> ->]. Qed.

Lemma aside_write (f : QuoteDesk -> QuoteDesk) : (forall k, aside k (f k)) -> keeps aside (mwrite f).
Proof. intros H k. apply H. Qed.
Lemma aside_uuid : keeps aside q_uuid.
Proof. intros k. split; [done|]. cbn. lia. Qed.
Lemma aside_session {A} (m : Sales -> M Session A) : keeps aside (q_session m).
Proof. intros k. unfold q_session. destruct (m _ _) as [r s]. split; [done|]. cbn. lia. Qed.

Lemma needed_part_aside job l : keeps aside (needed_part job l).
Proof.
  apply keeps_seq; [apply _|apply aside_uuid|intros id_]. apply aside_write. intros k. split; [done|]. cbn. lia.
Qed.

Lemma copy_package_aside e job : keeps aside (_copy_tier_package_to_job e job).
Proof.
  apply keeps_seq; [apply _|apply keeps_reads, _|intros [t|]; [|apply keeps_return, _]].
  apply keeps_seq; [apply _|apply keeps_reads, _|intros [|l ls]].
  - apply keeps_seq; [apply _|apply aside_uuid|intros id_]. apply keeps_seq; [apply _| |intros _; apply keeps_return, _].
    apply aside_write. intros k. split; [done|]. cbn. lia.
  - apply keeps_seq; [apply _| |intros _; apply keeps_return, _]. apply keeps_for; [apply _|]. intros x _. apply needed_part_aside.
Qed.

Lemma copy_lines_aside e job : keeps aside (_copy_estimate_lines_to_job e job).
Proof.
  apply keeps_seq; [apply _|apply keeps_reads, _|intros ls]. apply keeps_seq; [apply _| |intros _; apply keeps_return, _].
  apply keeps_for; [apply _|]. intros x _. apply needed_part_aside.
Qed.

Lemma aside_Ok {A} (m : M QuoteDesk A) k a k' : keeps aside m -> m k = (Ok a, k') -> aside k k'.
Proof. intros H E. specialize (H k). by rewrite E in H. Qed.

Section Accepting.
Context `{W : World}.
Context (who : option uuid).

Lemma create_job_goes k e : sound k -> e ∈ sa_estimates (q_sales k) ->
  goes who k (snd (_create_job_from_estimate e k)).
Proof.
  intros Hok He. unfold _create_job_from_estimate. apply goes_request. intros a k' E.
  pop E job k1 H1. apply (aside_Ok _ _ _ _ aside_uuid) in H1. pop E u k2 H2.
  assert (A2 : aside k1 k2) by (apply pair_equal_spec in H2 as [_ <-]; split; [done|cbn; lia]).
  pop E pk k3 H3. apply (aside_Ok _ _ _ _ (copy_package_aside _ _)) in H3. pop E cp k4 H4.
  assert (A4 : aside k3 k4).
  { destruct pk; [by apply pair_equal_spec in H4 as [_ <-]|]. by apply (aside_Ok _ _ _ _ (copy_lines_aside _ _)) in H4. }
  pop E u2 k5 H5. pures H5. pop E u3 k6 H6. apply (aside_Ok _ _ _ _ (aside_session _)) in H6. apply pair_equal_spec in E as [_ <-].
  assert (A : aside k k4) by (etrans; [exact H1|]; etrans; [exact A2|]; by etrans). clear H1 A2 H3 A4.
  destruct A as [(T1 & T2 & T3 & T4)%tables_eq Hn]. destruct H6 as [(U1 & U2 & U3 & U4)%tables_eq Hm]. cbn in Hm.
  eapply (goes_header who k _ e (with_est_job (Some job))); [done|done|by split_and!| | | | |lia].
  - exact (eq_trans U1 (f_equal (update_where _ _) T1)).
  - exact (eq_trans U2 T2).
  - exact (eq_trans U3 T3).
  - exact (eq_trans U4 T4).
Qed.

Lemma find_member id_ k e : e ∈ sa_estimates (q_sales k) -> est_id e = id_ -> exists e', find_estimate id_ k = Some e' /\ e' ∈ sa_estimates (q_sales k).
Proof.
  intros He Ei. unfold find_estimate. destruct (List.find _ _) as [x|] eqn:E.
  - exists x. split; [done|]. apply List.find_some in E as [E _]. by apply list_elem_of_In.
  - exfalso. apply list_elem_of_In in He. pose proof (List.find_none _ _ E e He) as Hn. cbn in Hn. by rewrite Ei, N.eqb_refl in Hn.
Qed.

Lemma refreshed_Ok e k e' k' x : x ∈ sa_estimates (q_sales k) -> est_id x = est_id e -> refreshed e k = (Ok e', k') ->
  k' = k /\ e' ∈ sa_estimates (q_sales k).
Proof.
  intros Hx Ei. unfold refreshed. intros H. pop H f k1 H1. pures H1. apply pair_equal_spec in H as [[= <-] <-].
  destruct (find_member (est_id e) k x Hx Ei) as (y & -> & Hy). done.
Qed.

Lemma status_row e s k : e ∈ sa_estimates (q_sales k) ->
  with_est_status s e ∈ sa_estimates (q_sales (write_estimate (est_id e) (with_est_status s) k)).
Proof. intros He. apply elem_of_update_where. exists e. split; [done|]. by rewrite N.eqb_refl. Qed.

Lemma record_accept_goes k id_ : sound k ->
  goes who k (snd (record_accept id_ k)) /\
  forall e, fst (record_accept id_ k) = Ok e -> e ∈ sa_estimates (q_sales (snd (record_accept id_ k))).
Proof.
  intros Hok. unfold record_accept, quote_request. match goal with |- context [mseq ?m ?f k] => set (run := mseq m f k) end.
  destruct run as [[a|x] k'] eqn:E; [|split; [by apply goes_same|done]]. unfold run in E. clear run. cbn [fst snd].
  pop E e k1 H1. apply get_estimate_Ok in H1 as (-> & He & Ei). destruct (finalized _) eqn:Hf; [done|].
  pop E u k2 H2. pures H2. pop E u2 k3 H3. pures H3. subst id_.
  apply (refreshed_Ok _ _ _ _ (with_est_status EAccepted e)) in E as [-> Ha]; [|by apply status_row|done].
  split; [|by intros ? [= <-]]. eapply goes_header; try done. by apply keeps_status, not_final.
Qed.

Lemma auto_convert_goes k e : sound k -> e ∈ sa_estimates (q_sales k) -> goes who k (snd (auto_convert e k)).
Proof.
  intros Hok He. unfold auto_convert. destruct (bool_decide _); [by apply goes_same|].
  destruct (bool_decide _); [by apply goes_same|]. unfold mseq.
  assert (Hg : goes who k (snd (contained (_create_job_from_estimate e) k))).
  { apply goes_contained. intros a k' E. pose proof (create_job_goes k e Hok He) as Hj. by rewrite E in Hj. }
  by destruct (contained _ k) as [[r|x] k1].
Qed.

(** ** What leaves the lines alone *)

Lemma lines_write (f : QuoteDesk -> QuoteDesk) : (forall k, same_lines k (f k)) -> keeps same_lines (mwrite f).
Proof. intros H k. apply H. Qed.

Lemma lines_request {A} (m : M QuoteDesk A) : keeps same_lines m -> keeps same_lines (quote_request m).
Proof. intros H k. specialize (H k). unfold quote_request. by destruct (m k) as [[a|e] k']. Qed.

Lemma lines_aside {A} (m : M QuoteDesk A) : keeps aside m -> keeps same_lines m.
Proof. intros H k. destruct (H k) as [(_ & E1 & _ & E2)%tables_eq _]. by split. Qed.

Lemma lines_quiet {A} (m : M QuoteDesk A) : quiet m -> keeps same_lines m.
Proof. intros H k. specialize (H k). injection H as E _. unfold same_lines. by rewrite E. Qed.

Lemma create_job_lines e : keeps same_lines (_create_job_from_estimate e).
Proof.
  apply lines_request. apply keeps_seq; [apply _|apply lines_aside, aside_uuid|intros job].
  apply keeps_seq; [apply _|by apply lines_write|intros _].
  apply keeps_seq; [apply _|apply lines_aside, copy_package_aside|intros pk].
  apply keeps_seq; [apply _|destruct pk; [apply keeps_return, _|apply lines_aside, copy_lines_aside]|intros n].
  apply keeps_seq; [apply _|by apply lines_write|intros _].
  apply keeps_seq; [apply _|apply lines_aside, aside_session|intros _; apply keeps_return, _].
Qed.

Lemma auto_convert_lines e : keeps same_lines (auto_convert e).
Proof.
  unfold auto_convert. destruct (bool_decide _); [apply keeps_return, _|]. destruct (bool_decide _); [apply keeps_return, _|].
  apply keeps_seq; [apply _|apply keeps_try, lines_request, create_job_lines|intros r; apply keeps_return, _].
Qed.

Lemma quiet_request {A} (m : M QuoteDesk A) : quiet m -> quiet (quote_request m).
Proof. intros H k. specialize (H k). unfold quote_request. by destruct (m k) as [[a|e] k']. Qed.

Lemma quiet_contained {A} (m : M QuoteDesk A) : quiet m -> quiet (contained m).
Proof. intros H. apply keeps_try, quiet_request, H. Qed.

Lemma refreshed_quiet e : quiet (refreshed e).
Proof. apply keeps_seq; [apply _|apply keeps_reads, _|intros f; apply keeps_return, _]. Qed.

Lemma ask_deposit_quiet races fallback e amount tenant actor : quiet (ask_deposit races fallback e amount tenant actor).
Proof.
  apply keeps_seq; [apply _|apply quiet_contained, quiet_session|intros r; apply keeps_return, _].
Qed.

(** A route after its first step: the rest goes on from a sound desk. *)
Lemma goes_seq {A B} (m : M QuoteDesk A) (f : A -> M QuoteDesk B) k : sound k -> goes who k (snd (m k)) ->
  (forall a, keeps same_lines (f a)) -> (forall a k1, m k = (Ok a, k1) -> sound k1 -> goes who k1 (snd (f a k1))) ->
  goes who k (snd (mseq m f k)).
Proof.
  intros Hok G1 Hl Hf. unfold mseq. destruct (m k) as [[a|e] k1]; [|done]. cbn [snd] in *.
  eapply goes_then; [done|exact G1|apply Hl|]. by apply Hf.
Qed.

Lemma quiet_goes {A} (m : M QuoteDesk A) k : quiet m -> goes who k (snd (m k)).
Proof. intros H. by apply goes_same, H. Qed.

Lemma accept_goes k races fallback id_ deposit tenant actor : sound k ->
  goes who k (snd (accept_estimate races fallback id_ deposit tenant actor k)).
Proof.
  intros Hok. unfold accept_estimate. destruct (negb _); [by apply goes_same|].
  destruct (record_accept_goes k id_ Hok) as (G1 & M1).
  assert (Hrest : forall e o, quiet (match deposit with
    | Some amount => if float_pos amount then
        e0 <- refreshed e ;; d <- ask_deposit races fallback e0 amount tenant actor ;; mreturn (o, Some d)
        else mreturn (o, None)
    | None => mreturn (o, None) : M QuoteDesk (convert_outcome * option (string + Invoice)) end)).
  { intros e o. destruct deposit as [a|]; [|apply keeps_return, _]. destruct (float_pos a); [|apply keeps_return, _].
    apply keeps_seq; [apply _|apply refreshed_quiet|intros e0]. apply keeps_seq; [apply _|apply ask_deposit_quiet|intros d; apply keeps_return, _]. }
  apply goes_seq; [done|done| |].
  - intros e. apply keeps_seq; [apply _|apply auto_convert_lines|intros o]. apply lines_quiet, Hrest.
  - intros e k1 E H1. rewrite E in M1. apply goes_seq; [done|by apply auto_convert_goes, M1|intros o; apply lines_quiet, Hrest|].
    intros o k2 _ _. apply quiet_goes, Hrest.
Qed.

Lemma convert_goes k id_ : sound k -> goes who k (snd (convert_estimate_to_job id_ k)).
Proof.
  intros Hok. unfold convert_estimate_to_job. apply goes_request. intros a k' H. pop H e k1 H1.
  apply get_estimate_Ok in H1 as (-> & He & Ei). destruct (bool_decide _); [done|]. destruct (negb _); [done|].
  destruct (bool_decide _); [done|]. pop H made k2 H2. pures H. pose proof (create_job_goes k e Hok He) as Hg. by rewrite H2 in Hg.
Qed.

Lemma mtry_Ok {S A} (m : M S A) s r s' : mtry m s = (Ok r, s') -> m s = (r, s').
Proof. unfold mtry. destruct (m s). by intros [= -> ->]. Qed.

Lemma deposit_request_quiet races fallback id_ amount tenant actor : quiet (request_deposit_invoice races fallback id_ amount tenant actor).
Proof.
  unfold request_deposit_invoice. destruct (negb _); [apply keeps_raise, _|]. apply quiet_request.
  apply keeps_seq; [apply _| |intros e].
  { apply keeps_seq; [apply _|apply keeps_reads, _|intros [e|]; [|apply keeps_raise, _]].
    destruct (bool_decide _); [apply keeps_return, _|apply keeps_raise, _]. }
  destruct (negb _); [apply keeps_raise, _|]. apply keeps_seq; [apply _|apply keeps_reads, _|intros [i|]; [apply keeps_return, _|]].
  apply keeps_seq; [apply _|apply keeps_reads, _|intros pct]. apply keeps_seq; [apply _|apply keeps_reads, _|intros t].
  apply keeps_seq; [apply _| |intros a].
  { destruct amount; [apply keeps_return, _|]. apply keeps_seq; [apply _|apply keeps_lift, _|intros; apply keeps_return, _]. }
  destruct (negb _); [apply keeps_raise, _|]. apply keeps_seq; [apply _|apply keeps_try, quiet_session|intros r].
  destruct r as [i|[]]; first [apply keeps_return, _ | apply keeps_raise, _].
Qed.

Lemma public_find token k e k' : _get_public_estimate_or_404 token k = (Ok e, k') -> k' = k /\ e ∈ sa_estimates (q_sales k).
Proof.
  unfold _get_public_estimate_or_404, public_estimate. intros H. pop H x k1 H1. pures H1.
  destruct (List.find _ _) as [y|] eqn:E; [|done]. apply pair_equal_spec in H as [[= <-] <-].
  apply List.find_some in E as [E _]. by rewrite list_elem_of_In.
Qed.

Lemma public_pay_quiet races fallback token tenant : quiet (public_proposal_deposit_pay races fallback token tenant).
Proof.
  apply quiet_request. apply keeps_seq; [apply _| |intros e].
  { apply keeps_seq; [apply _|apply keeps_reads, _|intros [e|]; [apply keeps_return, _|apply keeps_raise, _]]. }
  destruct (negb _); [apply keeps_raise, _|]. apply keeps_seq; [apply _|apply keeps_reads, _|intros [i|]; [apply keeps_return, _|]].
  apply keeps_seq; [apply _|apply keeps_reads, _|intros ask]. apply keeps_seq; [apply _|apply keeps_lift, _|intros [[[amount pct] cap]|]; [|apply keeps_raise, _]].
  apply keeps_seq; [apply _|apply keeps_try, quiet_session|intros r].
  destruct r as [i|[]]; first [apply keeps_return, _ | apply keeps_raise, _].
Qed.

Lemma public_decline_goes k token reason : sound k -> goes who k (snd (public_proposal_decline token reason k)).
Proof.
  intros Hok. unfold public_proposal_decline. destruct (negb _); [by apply goes_same|]. apply goes_request. intros a k' H.
  pop H e k1 H1. apply public_find in H1 as [-> He]. destruct (bool_decide _); [pures H; by apply goes_same|].
  destruct (open_to_customer _) eqn:Ho; [|done]. cbn [negb] in H. pop H u k2 H2. pures H2. pop H u2 k3 H3. pures H3. pures H.
  eapply (goes_header who k _ e (with_est_status EDeclined)); try done. apply keeps_status. intros E. by rewrite E in Ho.
Qed.

(** The price a tier is accepted at. *)
Lemma contract_subtotal s n t : adds_up s n -> roomy_table (sa_tier_lines s) -> t ∈ sa_tiers s ->
  exists c, pt_total_price t = Some (cents c) /\ Z.abs c < 10 ^ 12 /\ tier_contract_subtotal s t = Ok (cents c).
Proof.
  intros H Hr Ht. destruct (au_tiers s n H) as (_ & Hl & Hts). destruct (Hts t Ht) as (_ & _ & c & Hp & Hc & Hs).
  exists c. split_and!; [done|done|]. unfold tier_contract_subtotal.
  destruct (contract_lines_sum s t n Hl Hr) as (e & He & Hd).
  destruct (tier_contract_lines s t) as [|x ls] eqn:E.
  - rewrite Hp. cbn [_dec default]. apply money2_sum; [by left|]. change (10 ^ decimal_prec) with (10 ^ 28). lia.
  - assert (Hne : children (pt_id t) (sa_tier_lines s) <> []) by (intros Hnil; unfold tier_contract_lines in E; by rewrite Hnil in E).
    rewrite Hd. cbn [rbind]. rewrite (Hs Hne) in Hc |- *. apply money2_sum; [done|]. change (10 ^ decimal_prec) with (10 ^ 28). lia.
Qed.

Lemma settle_goes k k1 k' e t : sound k -> view k1 = view k -> e ∈ sa_estimates (q_sales k) -> t ∈ sa_tiers (q_sales k) ->
  pt_estimate_id t = est_id e -> (est_status e = EAccepted -> who = Some (est_id e)) -> settle_tier (est_id e) t k1 = (Ok tt, k') ->
  goes who k k' /\ same_lines k k' /\ exists p, sa_estimates (q_sales k') =
    update_where (is_estimate (est_id e)) (settled_at (pt_id t) p) (sa_estimates (q_sales k)).
Proof.
  intros Hok Hv He Ht Et Hw H. injection Hv as Hs Hn. unfold settle_tier in H. pop H sub k2 H2. pures H2. pop H tot k3 H3. pures H3.
  pop H tot' k4 H4. pures H4. apply pair_equal_spec in H as [_ <-]. rewrite Hs in H3.
  assert (Hl : same_lines k (write_estimate (est_id e) (settled_at (pt_id t) (Some tot')) k1)).
  { unfold same_lines. change (q_sales (write_estimate _ _ k1)) with (set_estimates (update_where (is_estimate (est_id e)) (settled_at (pt_id t) (Some tot'))) (q_sales k1)).
    by rewrite Hs. }
  split_and!; [|done|exists (Some tot'); by rewrite <- Hs].
  intros Hr. pose proof (roomy_lines _ _ Hl Hr) as [_ Hr1].
  destruct (contract_subtotal _ _ t Hok Hr1 Ht) as (c & Hp & Hc & Hsub). rewrite Hsub in H3. injection H3 as <-.
  apply money_column_cents in H4 as [-> _]. apply rtc_once. unfold view.
  eapply (ch_accept who _ _ _ _ e t); try done; [by rewrite Hp, <- Hs|by rewrite <- Hs..|cbn; lia].
Qed.

Lemma accept_tier_goes k id_ tier_id : sound k -> who = Some id_ -> goes who k (snd (accept_tier id_ tier_id k)).
Proof.
  intros Hok Hw. unfold accept_tier. apply goes_request. intros a k' H. pop H f k1 H1. pures H1.
  destruct (find_estimate id_ k) as [e|] eqn:E; [|done]. apply find_estimate_Some in E as [He Ei].
  pop H t k2 H2. apply tier_Ok in H2 as (-> & Ht & Et & Ee). pop H u k3 H3. pures H3. destruct a. subst id_.
  eapply (settle_goes k (stamp_marks (est_id e) (with_accepted_at (q_now k)) k) k' e t Hok eq_refl He Ht Ee (fun _ => Hw)). exact H.
Qed.

Lemma chosen_Ok e tid k r k' : chosen_tier e tid k = (Ok r, k') -> k' = k /\
  forall t, r = Some t -> t ∈ sa_tiers (q_sales k) /\ pt_estimate_id t = est_id e.
Proof.
  unfold chosen_tier. intros H. pop H b k1 H1. pures H1. destruct (_ && _), tid as [i|]; try done.
  - pop H t k2 H2. apply tier_Ok in H2 as (-> & Ht & _ & Ee). apply pair_equal_spec in H as [[= <-] <-]. split; [done|]. by intros ? [= <-].
  - by apply pair_equal_spec in H as [[= <-] <-].
Qed.

Lemma record_public_goes k token tid : sound k ->
  goes who k (snd (record_public_accept token tid k)) /\
  forall e b, fst (record_public_accept token tid k) = Ok (e, b) -> e ∈ sa_estimates (q_sales (snd (record_public_accept token tid k))).
Proof.
  intros Hok. unfold record_public_accept, quote_request. match goal with |- context [mseq ?m ?f k] => set (run := mseq m f k) end.
  destruct run as [[a|x] k'] eqn:E; [|split; [by apply goes_same|done]]. unfold run in E. clear run. cbn [fst snd].
  pop E e k1 H1. apply public_find in H1 as [-> He]. destruct (bool_decide _).
  { pures E. split; [by apply goes_same|]. by intros ? ? [= <- _]. }
  destruct (open_to_customer _) eqn:Ho; [|done]. cbn [negb] in E.
  assert (Hs : est_status e <> EAccepted) by (intros Es; by rewrite Es in Ho).
  pop E ch k2 H2. apply chosen_Ok in H2 as [-> Hch]. pop E u k3 H3. pures H3. pop E u2 k4 H4. pop E e' k5 H5. pures E.
  assert (Hmid : goes who k k4 /\ exists y, y ∈ sa_estimates (q_sales k4) /\ est_id y = est_id e).
  { destruct ch as [t|].
    - destruct (Hch t eq_refl) as [Ht Et]. destruct u2. destruct (settle_goes k (stamp_marks (est_id e) (with_accepted_at (q_now k)) k) k4 e t Hok eq_refl He Ht Et ltac:(done) H4) as (G & _ & p & Ep).
      split; [done|]. exists (settled_at (pt_id t) p e). split; [|done]. rewrite Ep. apply elem_of_update_where. exists e. split; [done|].
      unfold is_estimate. by rewrite N.eqb_refl.
    - pures H4. split; [|exists (with_est_status EAccepted e); split; [by apply (status_row e EAccepted)|done]].
      eapply (goes_header who k _ e (with_est_status EAccepted)); done. }
  destruct Hmid as [G (y & Hy & Ey)]. apply (refreshed_Ok e k4 e' k5 y Hy Ey) in H5 as [-> He']. split; [done|]. by intros ? ? [= <- _].
Qed.

Lemma public_accept_goes k token tid : sound k -> goes who k (snd (public_proposal_accept token tid k)).
Proof.
  intros Hok. unfold public_proposal_accept. destruct (record_public_goes k token tid Hok) as [G M1].
  assert (Hl : forall e, keeps same_lines (match est_job_id e with
                        | None => contained (_create_job_from_estimate e) ;;; mreturn false
                        | Some _ => mreturn false end)).
  { intros e. destruct (est_job_id e); [apply keeps_return, _|].
    apply keeps_seq; [apply _|apply keeps_try, lines_request, create_job_lines|intros _; apply keeps_return, _]. }
  apply goes_seq; [done|done|intros [e []]; [apply keeps_return, _|apply Hl]|].
  intros [e []] k1 E H1; [by apply goes_same|]. rewrite E in M1. destruct (est_job_id e); [by apply goes_same|].
  assert (Hg : goes who k1 (snd (contained (_create_job_from_estimate e) k1))).
  { apply goes_contained. intros a k' Ej. pose proof (create_job_goes k1 e H1 (M1 e false eq_refl)) as Hj. by rewrite Ej in Hj. }
  unfold mseq. by destruct (contained _ k1) as [[]].
Qed.
End Accepting.

(** ** New estimates *)

Lemma sum_cents_app l1 l2 : sum_cents (l1 ++ l2) = sum_cents l1 + sum_cents l2.
Proof. unfold sum_cents. rewrite map_app. induction (map line_cents l1) as [|x l IH]; cbn in *; lia. Qed.

Lemma sum_cents_totals l l' : map ql_line_total l = map ql_line_total l' -> sum_cents l = sum_cents l'.
Proof.
  intros H. unfold sum_cents. assert (map line_cents l = map line_cents l') as ->; [|done].
  unfold line_cents. rewrite <- (map_map ql_line_total (fun d => default 0 (money_col d))), H. by rewrite map_map.
Qed.

Lemma sum_cents_bound l : Forall priced_line l -> Z.abs (sum_cents l) <= 10 ^ 12 * Z.of_nat (length l).
Proof.
  induction 1 as [|x l (c & E & Hc) _ IH]; [done|]. unfold sum_cents in *. cbn [map zsum length].
  unfold line_cents at 1. rewrite E, money_col_cents by done. cbn [default]. unfold id. lia.
Qed.

(** One more line on the running total. *)
Lemma running_snoc ls x c : Forall priced_line ls -> ql_line_total x = Some (cents c) -> Z.abs c < 10 ^ 12 -> roomy_table (ls ++ [x]) ->
  dec_add (cents (sum_cents ls)) (cents c) = Ok (cents (sum_cents (ls ++ [x]))).
Proof.
  intros Hp E Hc Hr. pose proof (sum_cents_bound ls Hp) as Hb. unfold roomy_table in Hr. rewrite length_app in Hr. cbn in Hr.
  rewrite dec_add_cents by (change (10 ^ decimal_prec) with (10 ^ 28); lia). rewrite sum_cents_app.
  assert (sum_cents [x] = c) as ->; [|done]. unfold sum_cents. cbn. unfold line_cents. rewrite E, money_col_cents by done. cbn. lia.
Qed.

(** The desk while the lines of the new estimate [e] are written: [ls] so far. *)
Record drafting (k0 : QuoteDesk) (e : Estimate) (ls : list QuoteLine) (running : decimal) (k : QuoteDesk) : Prop := {
  dr_estimates : sa_estimates (q_sales k) = sa_estimates (q_sales k0) ++ [e];
  dr_lines : sa_estimate_lines (q_sales k) = sa_estimate_lines (q_sales k0) ++ ls;
  dr_parent : Forall (fun l => ql_parent_id l = est_id e) ls;
  dr_ok : lines_ok (sa_estimate_lines (q_sales k)) (qd_next k);
  dr_tiers : sa_tiers (q_sales k) = sa_tiers (q_sales k0);
  dr_tier_lines : sa_tier_lines (q_sales k) = sa_tier_lines (q_sales k0);
  dr_id : (qd_next k0 <= est_id e < qd_next k)%N;
  dr_running : roomy_table ls -> running = cents (sum_cents ls)
}.

Lemma drafting_view k0 e ls r k k' : view k' = view k -> drafting k0 e ls r k -> drafting k0 e ls r k'.
Proof. intros [= Es En] [H1 H2 H3 H4 H5 H6 H7 H8]. constructor; rewrite ?Es, ?En; done. Qed.

Lemma drafting_priced k0 e ls r k : drafting k0 e ls r k -> Forall priced_line ls.
Proof.
  intros [_ H2 _ [_ H4] _ _ _ _]. apply Forall_forall. intros x Hx.
  destruct (H4 x) as (_ & _ & Hp); [|done]. rewrite H2. apply elem_of_app. by right.
Qed.

(** Writing one line. *)
Lemma drafting_insert k0 e ls r k row cs r' c : drafting k0 e ls r k -> ql_id row = qd_next k -> ql_parent_id row = est_id e ->
  ql_line_total row = Some (cents c) -> Z.abs c < 10 ^ 12 -> dec_add r (cents c) = Ok r' ->
  drafting k0 e (ls ++ [row]) r' (snd (insert_line (row, cs) (q_with (qd_office k) (qd_marks k) (qd_costs k) (qd_volumes k) (qd_next k + 1)%N k))).
Proof.
  intros Hd Ei Ep Et Hc Hr. pose proof (drafting_priced _ _ _ _ _ Hd) as Hpr. destruct Hd as [H1 H2 H3 H4 H5 H6 H7 H8].
  assert (Hp : priced_line row) by (by exists c). constructor; cbn -[lines_ok N.add].
  - done.
  - unfold q_sales at 1 in H2. rewrite H2. by rewrite app_assoc.
  - apply Forall_app. by repeat constructor.
  - apply lines_ok_snoc; [done|done|rewrite Ep; lia|done].
  - done.
  - done.
  - lia.
  - intros Hroom. assert (Hl : roomy_table ls) by (unfold roomy_table in *; rewrite length_app in Hroom; lia).
    rewrite (H8 Hl), (running_snoc ls row c) in Hr by done. by injection Hr as <-.
Qed.

Lemma quantize_even_cents d r : quantize_even d = Ok r -> exists c, r = cents c.
Proof. unfold quantize_even. destruct d as [c e| |]; try done. destruct (_ <? _); [|done]. intros [= <-]. eauto. Qed.
Lemma quantize_money_cents d r : quantize_money d = Ok r -> exists c, r = cents c.
Proof. unfold quantize_money. destruct (quantize_cents d); [|done]. intros [= <-]. eauto. Qed.

Section NewEstimates.
Context `{W : World}.
Context (who : option uuid).

Definition total_in_cents (q : quoted) : Prop := forall t, qt_total q = Some t -> exists c, t = cents c.

Lemma labor_total item quantity k q k' : labor_quote item quantity k = (Ok q, k') -> total_in_cents q.
Proof.
  unfold labor_quote. intros H. pop H row k1 H1. pop H q' k2 H2. pures H2. apply pair_equal_spec in H as [H _].
  unfold _labor_line_pricing in H. minv H. intros t [= <-].
  match goal with H : quantize_money _ = Ok ?y |- exists c, ?y = _ => exact (quantize_money_cents _ _ H) end.
Qed.

Lemma typed_total un c h q : typed_quote un c h = Ok q -> total_in_cents q.
Proof. unfold typed_quote. intros H. minv H. by intros t [=]. Qed.

Lemma nested_quote_total e p k q k' : quote_nested e p k = (Ok q, k') -> total_in_cents q.
Proof.
  unfold quote_nested. destruct (li_labor_price_item_id p); [apply labor_total|].
  destruct (li_cost p) as [cost|]; [|intros [H _]%pair_equal_spec; by eapply typed_total].
  destruct (truthy_str _); [|intros [H _]%pair_equal_spec; by eapply typed_total].
  intros H. pop H r k1 H1. apply pair_equal_spec in H as [[= <-] _]. by intros t [=].
Qed.

Lemma nested_total_cents q n d : total_in_cents q -> nested_total q n = Ok d -> exists c, d = cents c.
Proof.
  unfold nested_total. intros Hq. destruct (qt_total q) as [t|] eqn:E; [intros [= <-]; by apply Hq|].
  intros H. minv H. by eapply quantize_even_cents.
Qed.

Lemma create_line_drafting k0 e ls r n p k r' n' k' : drafting k0 e ls r k -> create_line e (r, n) p k = (Ok (r', n'), k') ->
  exists row, drafting k0 e (ls ++ [row]) r' k'.
Proof.
  intros Hd H. unfold create_line in H. pop H q k1 H1. pose proof (nested_quote_total _ _ _ _ _ H1) as Hq.
  apply (quiet_Ok _ _ _ _ (quote_nested_quiet _ _)) in H1. apply (drafting_view _ _ _ _ _ _ H1) in Hd. clear H1.
  pop H tot k2 H2. pures H2. destruct (nested_total_cents _ _ _ Hq H2) as [c ->].
  pop H i k3 H3. pures H3. pop H now k4 H4. pures H4. pop H row k5 H5. pures H5.
  apply line_row_Ok in H5 as (E1 & E2 & _ & c' & Hcol & Etot). apply money_column_cents in Hcol as [[= ->] Hc].
  pop H u k6 H6. pop H r2 k7 H7. pures H7. apply pair_equal_spec in H as [[= <- <-] <-].
  exists (fst row). pose proof (drafting_insert k0 e ls r k1 (fst row) (snd row) r2 c Hd E1 E2 Etot Hc H7) as Hi.
  by rewrite <- surjective_pairing, H6 in Hi.
Qed.

Lemma create_lines_drafting k0 e ps ls r n k r' n' k' : drafting k0 e ls r k ->
  mfold (create_line e) (r, n) ps k = (Ok (r', n'), k') -> exists ls', drafting k0 e ls' r' k'.
Proof.
  revert ls r n k. induction ps as [|p ps IH]; intros ls r n k Hd H; cbn [mfold] in H.
  - apply pair_equal_spec in H as [[= <- <-] <-]. eauto.
  - pop H acc k1 H1. destruct acc as [r1 n1]. apply (create_line_drafting _ _ _ _ _ _ _ _ _ _ Hd) in H1 as [row Hd1]. eauto.
Qed.

Lemma update_new l n e f : (forall x, x ∈ l -> (est_id x < n)%N) -> (n <= est_id e)%N ->
  update_where (is_estimate (est_id e)) f (l ++ [e]) = l ++ [f e].
Proof.
  intros Hl Hn. unfold update_where. rewrite map_app. cbn [map]. unfold is_estimate at 2. rewrite N.eqb_refl. f_equal.
  rewrite <- (map_id l) at 2. apply map_ext_in. intros x Hx%list_elem_of_In. unfold is_estimate.
  pose proof (Hl x Hx). by rewrite (proj2 (N.eqb_neq _ _)) by lia.
Qed.

Lemma insert_estimate_Ok e m k k' : insert_estimate e m k = (Ok tt, k') ->
  q_sales k' = set_estimates (fun l => l ++ [e]) (q_sales k) /\ qd_next k' = qd_next k.
Proof.
  unfold insert_estimate. intros H. pop H b k1 H1. pures H1. destruct (existsb _ _); [done|].
  pop H u k2 H2. pures H2. by apply pair_equal_spec in H as [_ <-].
Qed.

(** A staged draft, with no lines yet. *)
Lemma drafting_start k e k' : sound k -> q_sales k' = set_estimates (fun l => l ++ [e]) (q_sales k) -> est_id e = qd_next k ->
  (qd_next k < qd_next k')%N -> drafting k e [] (cents 0) k'.
Proof.
  intros Hok Es Ei Hn. constructor; rewrite ?Es; cbn; try done.
  - by rewrite app_nil_r.
  - eapply lines_ok_mono; [by apply (au_lines _ _ Hok)|lia].
  - lia.
Qed.

Lemma draft_record_Ok tenant customer job rate discount k e k' : sound k ->
  create_draft_estimate_record tenant customer job rate discount k = (Ok e, k') ->
  drafting k e [] (cents 0) k' /\ est_accepted_tier_id e = None.
Proof.
  intros Hok H. unfold create_draft_estimate_record in H. pop H number k1 H1. pures H1. pop H dr k2 H2. pures H2.
  pop H rt k3 H3. pures H3. pop H di k4 H4. pures H4. pop H i k5 H5. pures H5. pop H tk k6 H6. pures H6. cbv zeta in H.
  pop H u k7 H7. destruct u. apply insert_estimate_Ok in H7 as [Es En]. apply pair_equal_spec in H as [[= <-] <-].
  split; [|done]. apply drafting_start; [done|done|done|]. rewrite En. cbn. lia.
Qed.

(** The rows copied after the draft's total is written. *)
Record copied (k k' : QuoteDesk) (id_ : uuid) (ts : list ProposalTier) (tls : list QuoteLine) : Prop := {
  cp_estimates : sa_estimates (q_sales k') = sa_estimates (q_sales k);
  cp_lines : sa_estimate_lines (q_sales k') = sa_estimate_lines (q_sales k);
  cp_tiers : sa_tiers (q_sales k') = sa_tiers (q_sales k) ++ ts;
  cp_of : Forall (fun t => pt_estimate_id t = id_) ts;
  cp_tier_lines : sa_tier_lines (q_sales k') = sa_tier_lines (q_sales k) ++ tls;
  cp_parents : Forall (fun l => (qd_next k <= ql_parent_id l)%N) tls;
  cp_ok : tiers_ok (sa_tiers (q_sales k')) (sa_tier_lines (q_sales k')) (qd_next k');
  cp_next : (qd_next k <= qd_next k')%N
}.

Lemma copied_none k id_ : tiers_ok (sa_tiers (q_sales k)) (sa_tier_lines (q_sales k)) (qd_next k) -> copied k k id_ [] [].
Proof. intros H. constructor; rewrite ?app_nil_r; try done. Qed.

(** The total and the copies written, the draft is a change of the tables. *)
Lemma drafting_done k e ls r k1 d k2 ts tls : sound k -> drafting k e ls r k1 -> est_accepted_tier_id e = None -> money_column r = Ok d ->
  copied (write_estimate (est_id e) (with_est_total (Some d)) k1) k2 (est_id e) ts tls -> goes who k k2.
Proof.
  intros Hok Hd Hn Hcol [C1 C2 C3 C4 C5 C6 C7 C8] Hr. pose proof (drafting_priced _ _ _ _ _ Hd) as Hpr. destruct Hd as [H1 H2 H3 H4 H5 H6 H7 H8].
  set (f := with_est_total (Some d)) in *.
  change (q_sales (write_estimate (est_id e) f k1)) with (set_estimates (update_where (is_estimate (est_id e)) f) (q_sales k1)) in *.
  change (qd_next (write_estimate (est_id e) f k1)) with (qd_next k1) in *.
  cbn [set_estimates sa_estimates sa_estimate_lines sa_tiers sa_tier_lines] in *.
  assert (Hroom : roomy_table ls).
  { destruct Hr as [Hr _]. rewrite C2, H2 in Hr. unfold roomy_table in *. rewrite length_app in Hr. lia. }
  rewrite (H8 Hroom) in Hcol. apply money_column_cents in Hcol as [-> _]. apply rtc_once. unfold view.
  eapply (ch_new who _ _ _ _ (f e) ls ts tls); try done.
  - cbn. lia.
  - rewrite C1, H1. apply (update_new _ (qd_next k)); [apply (au_next _ _ Hok)|lia].
  - by rewrite C2.
  - rewrite C2. by eapply lines_ok_mono.
  - by rewrite C3, H5.
  - by rewrite C5, H6.
  - eapply Forall_impl; [done|]. cbn. intros l Hl. lia.
Qed.

Lemma draft_tiers k e ls r k1 d : sound k -> drafting k e ls r k1 ->
  let k2 := write_estimate (est_id e) (with_est_total (Some d)) k1 in
  tiers_ok (sa_tiers (q_sales k2)) (sa_tier_lines (q_sales k2)) (qd_next k2).
Proof.
  intros Hok [H1 H2 H3 H4 H5 H6 H7 H8]. cbn. change (of_sales (qd_office k1)) with (q_sales k1). rewrite H5, H6.
  eapply tiers_ok_mono; [by apply (au_tiers _ _ Hok)|lia].
Qed.

Lemma create_goes tenant p k : sound k -> goes who k (snd (create_estimate tenant p k)).
Proof.
  intros Hok. unfold create_estimate. destruct (negb _); [by apply goes_same|]. destruct (_ && _); [by apply goes_same|].
  apply goes_request. intros a k' H. pop H c k1 H1.
  assert (k1 = k) as ->.
  { unfold customer_for in H1. destruct (ei_job_id p); [|by apply pair_equal_spec in H1 as [_ <-]].
    pop H1 j k2 H2. pures H2. destruct (live_job _ _); [|done]. by apply pair_equal_spec in H1 as [_ <-]. }
  pop H known k2 H2. pures H2. destruct (negb _); [done|]. pop H e k3 H3.
  apply draft_record_Ok in H3 as [Hd Hn]; [|done]. pop H acc k4 H4. destruct acc as [r n].
  apply (create_lines_drafting _ _ _ _ _ _ _ _ _ _ Hd) in H4 as [ls Hd4]. pop H d k5 H5. pures H5. pop H u k6 H6. pures H6. pures H.
  eapply drafting_done; [done|done|done|done|]. apply copied_none. by eapply draft_tiers.
Qed.

(** ** Duplicates *)

Lemma copy_line_drafting k0 e ls r l k r' k' : drafting k0 e ls r k -> priced_line l ->
  copy_estimate_line (est_id e) r l k = (Ok r', k') -> exists row, drafting k0 e (ls ++ [row]) r' k'.
Proof.
  intros Hd (c & Ec & Hc) H. unfold copy_estimate_line in H. pop H i k1 H1. pures H1. pop H now k2 H2. pures H2.
  pop H cs k3 H3. pures H3. pop H u k4 H4. rewrite Ec in *. cbn [_dec default] in *. pures H.
  eexists. pose proof (drafting_insert k0 e ls r k
    (mk_quote_line (qd_next k) (est_id e) (ql_description l) (ql_category l) (ql_quantity l) (ql_unit_price l) (Some (cents c))
       (ql_sort_order l) (q_now k) (ql_pricing_source l)) (costs_of (ql_id l) k) r' c Hd eq_refl eq_refl eq_refl Hc H) as Hi.
  apply (f_equal snd) in H4. cbn [snd] in H4. rewrite <- H4. exact Hi.
Qed.

Lemma copy_lines_drafting k0 e src ls r k r' k' : drafting k0 e ls r k -> Forall priced_line src ->
  mfold (copy_estimate_line (est_id e)) r src k = (Ok r', k') -> exists ls', drafting k0 e ls' r' k'.
Proof.
  intros Hd Hp. revert ls r k Hd. induction Hp as [|l src Hl _ IH]; intros ls r k Hd H; cbn [mfold] in H.
  - apply pair_equal_spec in H as [[= <-] <-]. eauto.
  - pop H r1 k1 H1. apply (copy_line_drafting _ _ _ _ _ _ _ _ Hd Hl) in H1 as [row Hd1]. eauto.
Qed.

Lemma copy_tier_lines_Ok id_ src k k' : mfor src (copy_tier_line id_) k = (Ok tt, k') -> Forall priced_line src ->
  lines_ok (sa_tier_lines (q_sales k)) (qd_next k) -> (id_ < qd_next k)%N ->
  exists cs, sa_tier_lines (q_sales k') = sa_tier_lines (q_sales k) ++ cs /\ Forall (fun l => ql_parent_id l = id_) cs /\
    map ql_line_total cs = map ql_line_total src /\ lines_ok (sa_tier_lines (q_sales k')) (qd_next k') /\
    sa_estimates (q_sales k') = sa_estimates (q_sales k) /\ sa_estimate_lines (q_sales k') = sa_estimate_lines (q_sales k) /\
    sa_tiers (q_sales k') = sa_tiers (q_sales k) /\ (qd_next k <= qd_next k')%N.
Proof.
  intros H Hp. revert k H. induction Hp as [|l src Hl _ IH]; intros k H Hok Hid; cbn [mfor] in H.
  - apply pair_equal_spec in H as [_ <-]. exists []. rewrite app_nil_r. by split_and!.
  - pop H u k1 H1. unfold copy_tier_line in H1. pop H1 i k2 H2. pures H2. pop H1 now k3 H3. pures H3.
    apply pair_equal_spec in H1 as [_ <-]. match type of H with mfor _ _ ?s = _ => set (k1 := s) in * end.
    set (row := mk_quote_line (qd_next k) id_ (ql_description l) (ql_category l) (ql_quantity l) (ql_unit_price l) (ql_line_total l) (ql_sort_order l) (q_now k) None).
    assert (E1 : sa_tier_lines (q_sales k1) = sa_tier_lines (q_sales k) ++ [row]) by done.
    assert (E2 : qd_next k1 = (qd_next k + 1)%N) by done.
    destruct (IH k1 H) as (cs & F1 & F2 & F3 & F4 & F5 & F6 & F7 & F8); [|lia|].
    { rewrite E1, E2. by apply lines_ok_snoc. }
    exists (row :: cs). split_and!; try done.
    + rewrite F1, E1. by rewrite <- app_assoc.
    + by constructor.
    + cbn [map]. by rewrite F3.
    + lia.
Qed.

Lemma copy_tier_Ok id_ t k k' : copy_tier id_ t k = (Ok tt, k') -> t ∈ sa_tiers (q_sales k) -> (id_ < qd_next k)%N ->
  tiers_ok (sa_tiers (q_sales k)) (sa_tier_lines (q_sales k)) (qd_next k) -> exists t' cs, copied k k' id_ [t'] cs.
Proof.
  intros H Ht Hid (Hnd & Hl & Hts). unfold copy_tier in H. pop H i k1 H1. pures H1. pop H u k2 H2. pures H2. pop H ls k3 H3. pures H3.
  match type of H with mfor _ _ ?s = _ => set (k1 := s) in * end.
  set (t' := mk_tier (qd_next k) id_ (pt_tier_name t) (pt_description t) (pt_total_price t) (pt_warranty_months t) (pt_display_order t)).
  change (tier_contract_lines (q_sales k1) t) with (tier_contract_lines (q_sales k) t) in H.
  assert (Hp : Forall priced_line (tier_contract_lines (q_sales k) t)).
  { unfold tier_contract_lines. rewrite stable_sort_perm. by eapply priced_children. }
  destruct (copy_tier_lines_Ok _ _ k1 k' H Hp) as (cs & F1 & F2 & F3 & F4 & F5 & F6 & F7 & F8); [|cbn; lia|].
  { eapply lines_ok_mono; [exact Hl|cbn; lia]. }
  change (sa_tier_lines (q_sales k1)) with (sa_tier_lines (q_sales k)) in F1.
  change (sa_tiers (q_sales k1)) with (sa_tiers (q_sales k) ++ [t']) in F7. change (qd_next k1) with (qd_next k + 1)%N in F8.
  exists t', cs. constructor; try done; [by repeat constructor| |split_and!|lia].
  - eapply Forall_impl; [exact F2|]. cbn. intros l ->. lia.
  - rewrite F7. apply NoDup_snoc_map; [done|]. intros y Hy. destruct (Hts y Hy) as [? _]. cbn. lia.
  - done.
  - rewrite F1, F7. intros y [Hy| ->%list_elem_of_singleton]%elem_of_app.
    + destruct (Hts y Hy) as (? & ? & ?). split_and!; [lia|lia|]. eapply tier_priced_lines; [|done].
      rewrite children_app, (children_none _ cs), app_nil_r; [done|]. eapply Forall_impl; [exact F2|]. intros l ->. lia.
    + split_and!; [cbn; lia|cbn; lia|]. destruct (Hts t Ht) as (_ & _ & c & P1 & P2 & P3). exists c. split_and!; [done|done|].
      cbn [pt_id t']. rewrite children_app, (children_fresh _ (qd_next k)), (children_all _ cs) by (done || lia). cbn [app].
      rewrite (sum_cents_totals _ _ F3). unfold tier_contract_lines. rewrite (sum_cents_perm _ _ (stable_sort_perm _ _)). intros Hne.
      apply P3. intros Hnil. apply Hne. apply (f_equal length) in F3. rewrite !length_map in F3.
      unfold tier_contract_lines in F3. rewrite Hnil in F3. by destruct cs.
Qed.

Lemma copied_trans k k1 k2 id_ ts tls ts' tls' : copied k k1 id_ ts tls -> copied k1 k2 id_ ts' tls' -> copied k k2 id_ (ts ++ ts') (tls ++ tls').
Proof.
  intros [A1 A2 A3 A4 A5 A6 A7 A8] [B1 B2 B3 B4 B5 B6 B7 B8]. constructor; [congruence|congruence|by rewrite B3, A3, app_assoc| | | |done|lia].
  - by apply Forall_app.
  - by rewrite B5, A5, app_assoc.
  - apply Forall_app. split; [done|]. eapply Forall_impl; [exact B6|]. cbn. intros. lia.
Qed.

Lemma copy_tiers_Ok id_ src k k' : mfor src (copy_tier id_) k = (Ok tt, k') -> (forall t, t ∈ src -> t ∈ sa_tiers (q_sales k)) ->
  (id_ < qd_next k)%N -> tiers_ok (sa_tiers (q_sales k)) (sa_tier_lines (q_sales k)) (qd_next k) ->
  exists ts tls, copied k k' id_ ts tls.
Proof.
  revert k. induction src as [|t src IH]; intros k H Hin Hid Hok; cbn [mfor] in H.
  - apply pair_equal_spec in H as [_ <-]. exists [], []. by apply copied_none.
  - pop H u k1 H1. destruct u. destruct (copy_tier_Ok _ _ _ _ H1 (Hin t (list_elem_of_here t src)) Hid Hok) as (t' & cs & Hc).
    destruct (IH k1 H) as (ts & tls & Hc2); [| | |by eexists _, _; eapply copied_trans].
    + intros x Hx. rewrite (cp_tiers _ _ _ _ _ Hc). apply elem_of_app. left. apply Hin. by apply list_elem_of_further.
    + pose proof (cp_next _ _ _ _ _ Hc). lia.
    + apply (cp_ok _ _ _ _ _ Hc).
Qed.

Lemma duplicate_goes id_ tenant k : sound k -> goes who k (snd (duplicate_estimate id_ tenant k)).
Proof.
  intros Hok. unfold duplicate_estimate. apply goes_request. intros a k' H. pop H e k1 H1. apply get_estimate_Ok in H1 as (-> & He & Ei).
  pop H c k1 H1. pures H1. pop H number k1 H1. pures H1. pop H rate k1 H1. pures H1. pop H rate' k1 H2. pures H2.
  pop H m k1 H1. pures H1. pop H src k1 H1. pures H1. pop H tiers k1 H1. pures H1. pop H i k1 H1. pures H1. pop H tk k1 H1. pures H1.
  pop H u k3 H3. destruct u. apply insert_estimate_Ok in H3 as [Es En]. pop H r k4 H4.
  match type of Es with q_sales k3 = set_estimates (fun l => l ++ [?x]) _ => set (d := x) in * end.
  assert (Hd : drafting k d [] (cents 0) k3) by (apply drafting_start; [done|done|done|]; rewrite En; cbn; lia).
  change (qd_next k) with (est_id d) in H4 at 1.
  apply (copy_lines_drafting _ _ _ _ _ _ _ _ Hd) in H4 as [ls Hd4]; [|rewrite stable_sort_perm; by eapply priced_children, (au_lines _ _ Hok)].
  pop H tot k5 H5. pures H5. pop H u k6 H6. pures H6. pop H u2 k7 H7. pures H. destruct u2.
  change (qd_next k) with (est_id d) in H7. pose proof (draft_tiers k d ls r k4 tot Hok Hd4) as Htok. cbv zeta in Htok.
  assert (Hcp : exists ts tls, copied (write_estimate (est_id d) (with_est_total (Some tot)) k4) k7 (est_id d) ts tls).
  { destruct (em_proposal_mode _).
    - eapply copy_tiers_Ok; [exact H7| | |done].
      + intros t [Ht _]%elem_of_lfilter. change (t ∈ sa_tiers (q_sales k4)). by rewrite (dr_tiers _ _ _ _ _ Hd4).
      + pose proof (dr_id _ _ _ _ _ Hd4). cbn. lia.
    - apply pair_equal_spec in H7 as [_ <-]. exists [], []. by apply copied_none. }
  destruct Hcp as (ts & tls & Hcp). eapply (drafting_done k d ls r k4 tot k7 ts tls Hok Hd4 eq_refl); done.
Qed.
End NewEstimates.
