(* ===== verification/QuoteSafe.v ===== *)
(** The promises of the quoting routes: totals that add up after any sequence
    of requests, contracts that stand once accepted, lines priced to the cent,
    numbers used once. *)

From S2P Require Import Prelude PyStr Dates Money PyNum Models Keys PayPeriods Coa Service RulesBase Adjustments Chokepoint InvoiceTotals TaxFloat Estimates InvoiceGuard MoneyRoutes Deposits Closeouts Billing PaymentPlans InvoiceEdits RollingVolume PricingEngine DecOrder PricingSpec Quotes QuoteRoutes QuoteSums QuoteSpec QuoteRuns.

Local Open Scope Z_scope.

(** * Requests *)

(** [OpBilling] is anything the billing side does in between, the clock's
    advance included. *)
Inductive quote_op : Type :=
  | OpBilling (s : Session)
  | OpCreate (tenant : string) (p : EstimateCreateIn)
  | OpDuplicate (id_ : uuid) (tenant : string)
  | OpPatch (id_ : uuid) (u : EstimatePatchIn)
  | OpDelete (id_ : uuid)
  | OpAddLine (id_ : uuid) (p : EstimateLineCreateIn)
  | OpPatchLine (id_ line_id : uuid) (u : EstimateLinePatchIn)
  | OpDeleteLine (id_ line_id : uuid)
  | OpSend (id_ : uuid)
  | OpDecline (id_ : uuid) (reason : string)
  | OpReopen (id_ : uuid)
  | OpExpire
  | OpReassign (id_ customer : uuid) (reason : string)
  | OpConvert (id_ : uuid)
  | OpAccept (races : list Invoice) (fallback : string) (id_ : uuid) (deposit : option float64) (tenant actor : string)
  | OpDeposit (races : list Invoice) (fallback : string) (id_ : uuid) (amount : option float64) (tenant actor : string)
  | OpPublicAccept (token : uuid) (tier : option uuid)
  | OpPublicPay (races : list Invoice) (fallback : string) (token : uuid) (tenant : string)
  | OpPublicDecline (token : uuid) (reason : option string)
  | OpAddTier (id_ : uuid) (name : tier_name) (description : option string) (price : float64) (warranty : Z)
  | OpPatchTier (id_ tier : uuid) (u : TierPatch)
  | OpDeleteTier (id_ tier : uuid)
  | OpAcceptTier (id_ tier : uuid)
  | OpAddTierLine (id_ tier : uuid) (description : string) (quantity : Z) (price : float64) (category : option string)
  | OpPatchTierLine (id_ tier line_id : uuid) (u : TierLinePatch)
  | OpDeleteTierLine (id_ tier line_id : uuid).

Section Requests.
Context `{W : World}.

Definition answer (op : quote_op) (k : QuoteDesk) : QuoteDesk :=
  match op with
  | OpBilling s => set_office (fun o => mk_office s (of_sales o) (of_work o)) k
  | OpCreate tenant p => snd (create_estimate tenant p k)
  | OpDuplicate id_ tenant => snd (duplicate_estimate id_ tenant k)
  | OpPatch id_ u => snd (patch_estimate id_ u k)
  | OpDelete id_ => snd (delete_estimate id_ k)
  | OpAddLine id_ p => snd (add_line id_ p k)
  | OpPatchLine id_ line_id u => snd (patch_line id_ line_id u k)
  | OpDeleteLine id_ line_id => snd (delete_line id_ line_id k)
  | OpSend id_ => snd (mark_estimate_sent id_ k)
  | OpDecline id_ reason => snd (decline_estimate id_ reason k)
  | OpReopen id_ => snd (reopen_estimate id_ k)
  | OpExpire => snd (expire_stale_estimates k)
  | OpReassign id_ c reason => snd (reassign_estimate_customer id_ c reason k)
  | OpConvert id_ => snd (convert_estimate_to_job id_ k)
  | OpAccept races fallback id_ deposit tenant actor => snd (accept_estimate races fallback id_ deposit tenant actor k)
  | OpDeposit races fallback id_ amount tenant actor => snd (request_deposit_invoice races fallback id_ amount tenant actor k)
  | OpPublicAccept token tid => snd (public_proposal_accept token tid k)
  | OpPublicPay races fallback token tenant => snd (public_proposal_deposit_pay races fallback token tenant k)
  | OpPublicDecline token reason => snd (public_proposal_decline token reason k)
  | OpAddTier id_ name description price warranty => snd (add_proposal_tier id_ name description price warranty k)
  | OpPatchTier id_ tid u => snd (update_proposal_tier id_ tid u k)
  | OpDeleteTier id_ tid => snd (delete_proposal_tier id_ tid k)
  | OpAcceptTier id_ tid => snd (accept_tier id_ tid k)
  | OpAddTierLine id_ tid description quantity price category => snd (add_tier_line id_ tid description quantity price category k)
  | OpPatchTierLine id_ tid line_id u => snd (update_tier_line id_ tid line_id u k)
  | OpDeleteTierLine id_ tid line_id => snd (delete_tier_line id_ tid line_id k)
  end.

(** The desk after each request. *)
Fixpoint trail (ops : list quote_op) (k : QuoteDesk) : list QuoteDesk :=
  match ops with
  | [] => []
  | op :: ops => let k' := answer op k in k' :: trail ops k'
  end.
Fixpoint serve (ops : list quote_op) (k : QuoteDesk) : QuoteDesk :=
  match ops with [] => k | op :: ops => serve ops (answer op k) end.

(** The estimate whose accepted contract a request may replace. *)
Definition rewrites (op : quote_op) : option uuid := match op with OpAcceptTier id_ _ => Some id_ | _ => None end.

Lemma answer_goes op k : sound k -> goes (rewrites op) k (answer op k).
Proof.
  intros Hok. destruct op; cbn [answer rewrites].
  - by apply goes_same.
  - by apply create_goes.
  - by apply duplicate_goes.
  - by apply patch_estimate_goes.
  - by apply delete_estimate_goes.
  - by apply add_line_goes.
  - by apply patch_line_goes.
  - by apply delete_line_goes.
  - by apply mark_sent_goes.
  - by apply decline_goes.
  - by apply reopen_goes.
  - by apply expire_goes.
  - by apply reassign_goes.
  - by apply convert_goes.
  - by apply accept_goes.
  - apply quiet_goes, deposit_request_quiet.
  - by apply public_accept_goes.
  - apply quiet_goes, public_pay_quiet.
  - by apply public_decline_goes.
  - by apply add_tier_goes.
  - by apply update_tier_goes.
  - by apply delete_tier_goes.
  - by apply accept_tier_goes.
  - by apply add_tier_line_goes.
  - by apply update_tier_line_goes.
  - by apply delete_tier_line_goes.
Qed.

Lemma answer_sound op k : sound k -> roomy (answer op k) -> sound (answer op k).
Proof. intros Hok Hr. exact (changes_adds_up _ _ _ (answer_goes op k Hok Hr) Hok). Qed.

(** * Totals *)

(** C17: Start from quoting tables that add up: every estimate without an
    accepted tier totals the sum of its lines to the cent, an accepted tier's
    estimate totals that tier's price, a tier with lines is priced at their
    sum, and keys are unique.  After any sequence of the twenty-five requests
    the routes take (creating, duplicating, pricing lines by the engine, the
    labor matrix or hand, editing and deleting them, the tiers and their
    lines, sending, accepting by the office or the customer's link, declining,
    reopening, expiring, converting to a job, deposits), refused ones included,
    with anything the billing side does in between, the tables still add up,
    as long as no line table ever holds more than 10^15 rows. *)
Theorem quotes_add_up ops k : sound k -> Forall roomy (trail ops k) -> sound (serve ops k).
Proof.
  revert k. induction ops as [|op ops IH]; intros k Hok Hr; [done|]. cbn [trail] in Hr. apply Forall_cons in Hr as [Hr1 Hr].
  cbn [serve]. apply IH; [|done]. by apply answer_sound.
Qed.

(** * Contracts *)

(** C18: What a customer accepted stands.  An accepted estimate's total, status
    and accepted tier, its lines, its tiers and their lines are the same after
    any sequence of requests, whichever estimate they name and whether they
    succeed or not, unless one of them is the staff's tier acceptance for this
    very estimate. *)
Theorem accepted_contract_stands ops k id_ : sound k -> Forall roomy (trail ops k) -> accepted_in id_ (q_sales k) ->
  Forall (fun op => rewrites op <> Some id_) ops ->
  contract id_ (q_sales (serve ops k)) = contract id_ (q_sales k).
Proof.
  revert k. induction ops as [|op ops IH]; intros k Hok Hr Ha Hw; [done|]. cbn [trail] in Hr. apply Forall_cons in Hr as [Hr1 Hr].
  apply Forall_cons in Hw as [Hw1 Hw]. cbn [serve].
  pose proof (changes_contract _ id_ _ _ (answer_goes op k Hok Hr1) Hw1 Hok Ha) as E. cbn [view fst] in E.
  rewrite IH; [done|by apply answer_sound|done| |done]. apply accepted_contract. rewrite E. by apply accepted_contract.
Qed.
End Requests.

(** * Lines *)

Section Lines.
Context `{W : World}.

(** Where the unit price of a new line comes from: the matrix row's flat
    price, the engine's sell price, or the price typed. *)
Definition unit_price_from (e : Estimate) (p : EstimateLineCreateIn) (k : QuoteDesk) (u : Z) : Prop :=
  match li_labor_price_item_id p, li_cost p with
  | Some item, _ =>
      exists row flat, row ∈ wk_labor_prices (of_work (qd_office k)) /\ lp_id row = item /\ lp_active row = true /\
        lp_flat_price row = Some flat /\ quantize_money flat = Ok (cents u)
  | None, Some cost =>
      if truthy_str (li_pricing_category p) then
        exists settings customer r, hydrate_settings_from_db (qd_book k) = Ok settings /\
          fst (_resolve_customer_for_engine e k) = Ok customer /\
          price_line (decimal_of_str cost) (default "" (li_pricing_category p)) customer settings
            (option_map decimal_of_str (li_margin_pct_override p)) = Ok r /\
          _money_float (float_of_decimal (lp_sell r)) = Ok (cents u)
      else _money_float (li_unit_price p) = Ok (cents u)
  | None, None => _money_float (li_unit_price p) = Ok (cents u)
  end.

Lemma catch_Ok {A} (m : M QuoteDesk A) e h k a k' : (forall s, exists x, fst (h s) = Err x) -> mcatch m e h k = (Ok a, k') -> m k = (Ok a, k').
Proof.
  intros Hh. unfold mcatch. destruct (m k) as [[b|x] k1] eqn:E; [done|]. case_decide; [|done].
  destruct (Hh k1) as [y Hy]. intros E1. by rewrite E1 in Hy.
Qed.

Lemma engine_Ok e cost category margin k r k' : _engine_price_line e cost category margin k = (Ok r, k') ->
  exists settings customer, hydrate_settings_from_db (qd_book k) = Ok settings /\
    fst (_resolve_customer_for_engine e k) = Ok customer /\
    price_line (decimal_of_str cost) category customer settings (option_map decimal_of_str margin) = Ok r.
Proof.
  unfold _engine_price_line. intros H. apply catch_Ok in H; [|intros s; by eexists]. pop H s k1 H1. pures H1. pop H s' k2 H2. pures H2.
  pop H c k3 H3. apply pair_equal_spec in H as [H _]. exists s', c. by rewrite H3.
Qed.

Lemma labor_Ok item quantity k q k' : labor_quote item quantity k = (Ok q, k') ->
  exists row flat, row ∈ wk_labor_prices (of_work (qd_office k)) /\ lp_id row = item /\ lp_active row = true /\
    lp_flat_price row = Some flat /\ quantize_money flat = Ok (qt_unit q).
Proof.
  unfold labor_quote. intros H. pop H row k1 H1. pop H q' k2 H2. pures H2. apply pair_equal_spec in H as [H _].
  unfold _resolve_labor_matrix_row in H1. pop H1 f k3 H3. pures H3. pop H1 today k4 H4. pures H4.
  destruct (List.find _ _) as [i|] eqn:E; [|done]. destruct (lp_active i) eqn:Ea; [|done]. cbn [negb orb] in H1.
  case_match; [done|]. apply pair_equal_spec in H1 as [[= <-] _]. apply List.find_some in E as [E1 E2%N.eqb_eq].
  unfold _labor_line_pricing in H. destruct (lp_flat_price i) as [flat|] eqn:Ef; [|done]. exists i, flat.
  rewrite list_elem_of_In. split_and!; try done. cbn [rbind] in H. apply rbind_Ok in H as (u & Hu & H). minv H. done.
Qed.

Lemma quote_line_Ok e p k q k' : quote_line e p k = (Ok q, k') -> exists u, qt_unit q = cents u /\ unit_price_from e p k u.
Proof.
  unfold quote_line, unit_price_from. destruct (li_labor_price_item_id p) as [item|].
  - intros H. apply labor_Ok in H as (row & flat & H1 & H2 & H3 & H4 & H5). destruct (quantize_money_cents _ _ H5) as [u Hu].
    exists u. split; [done|]. exists row, flat. rewrite <- Hu. done.
  - destruct (li_cost p) as [cost|]; [destruct (truthy_str _)|].
    + intros H. pop H r k1 H1. apply engine_Ok in H1 as (s & c & Hs & Hc & Hp). pop H un k2 H2. pures H2. pop H snap k3 H3. pures H3.
      apply pair_equal_spec in H as [[= <-] _]. destruct (money_float_cents _ _ H2) as [u ->]. exists u. split; [done|]. eauto 10.
    + intros H. pop H un k1 H1. pures H1. pop H snap k2 H2. pures H2. apply pair_equal_spec in H as [H _].
      destruct (money_float_cents _ _ H1) as [u ->]. exists u. split; [|done]. unfold typed_quote in H. by minv H.
    + intros H. pop H un k1 H1. pures H1. apply pair_equal_spec in H as [H _].
      destruct (money_float_cents _ _ H1) as [u ->]. exists u. split; [|done]. unfold typed_quote in H. by minv H.
Qed.

Lemma line_row_fields id_ eid description category quantity sort now q total item row :
  line_row id_ eid description category quantity sort now q total item = Ok row ->
  ql_quantity (fst row) = Some quantity /\ exists u t, money_column (qt_unit q) = Ok u /\ money_column total = Ok t /\
  ql_unit_price (fst row) = Some u /\ ql_line_total (fst row) = Some t.
Proof. unfold line_row. intros H. minv H. cbn. split; [done|]. eauto 10. Qed.

Lemma request_Ok {A} (m : M QuoteDesk A) k a k' : quote_request m k = (Ok a, k') -> m k = (Ok a, k').
Proof. unfold quote_request. by destruct (m k) as [[b|x] k1]. Qed.

Lemma check_override_same m k u k' : check_override m k = (Ok u, k') -> k' = k.
Proof. unfold check_override. intros H. pop H b k1 H1. pures H1. case_match; [done|]. by apply pair_equal_spec in H as [_ <-]. Qed.

Lemma valid_quantity p : valid_estimate_line p = true -> 0 < li_quantity p <= 9999.
Proof. unfold valid_estimate_line, valid_nested_line. intros H. repeat (apply andb_true_iff in H as [H ?]). lia. Qed.

Lemma sum_cents_one l c : ql_line_total l = Some (cents c) -> priced_line l -> sum_cents [l] = c.
Proof.
  intros E (c' & E' & Hc). rewrite E in E'. injection E' as ->. unfold sum_cents. cbn [map zsum]. unfold line_cents.
  rewrite E, money_col_cents by done. cbn. lia.
Qed.

(** C19: A line added to an open estimate is priced to the cent.  Its unit price
    is the labor matrix row's flat price, the pricing engine's sell price for
    the estimate's customer, or the price typed, each rounded to the cent; its
    total is exactly quantity times unit price, although the code computes it
    in floats; and the estimate's total grows by exactly that amount while
    every other line stays. *)
Theorem added_line_exact id_ p k lid k' : sound k -> add_line id_ p k = (Ok lid, k') ->
  exists e l u t, e ∈ sa_estimates (q_sales k) /\ est_id e = id_ /\ est_total e = Some (cents t) /\
    unit_price_from e p k u /\
    sa_estimate_lines (q_sales k') = sa_estimate_lines (q_sales k) ++ [l] /\ ql_id l = lid /\ ql_parent_id l = id_ /\
    ql_quantity l = Some (li_quantity p) /\ ql_unit_price l = Some (cents u) /\ ql_line_total l = Some (cents (li_quantity p * u)) /\
    sa_estimates (q_sales k') =
      update_where (is_estimate id_) (with_est_total (Some (cents (t + li_quantity p * u)))) (sa_estimates (q_sales k)).
Proof.
  intros Hok. unfold add_line. destruct (negb (valid_estimate_line p)) eqn:Hval; [done|]. apply negb_false_iff in Hval.
  pose proof (valid_quantity p Hval) as Hq. intros H%request_Ok.
  pop H e k0 H0. apply held_Ok in H0 as (-> & He & Ei & Hf). pop H u0 k1 H1. apply check_override_same in H1 as ->.
  pop H so k2 H2. pures H2. pop H q k3 H3. destruct (quote_line_Ok _ _ _ _ _ H3) as (u & Eu & Hu).
  apply (quiet_Ok _ _ _ _ (quote_line_quiet _ _)) in H3. injection H3 as Hs Hn. unfold q_sales at 1 in Hs.
  pop H tot k4 H4. pures H4. pop H i k5 H5. pures H5. pop H now k6 H6. pures H6.
  pop H row k7 H7. pures H7. pop H u1 k8 H8. pures H8. pop H u2 k9 H9. pures H. destruct u2.
  destruct (line_row_Ok _ _ _ _ _ _ _ _ _ _ _ H7) as (E1 & E2 & Hp & _).
  destruct (line_row_fields _ _ _ _ _ _ _ _ _ _ _ H7) as (Eq & uc & tc & Huc & Htc & Fu & Ft).
  rewrite Eu in *. apply money_column_cents in Huc as [-> Hub].
  pose proof (scaled_exact _ _ _ _ Hq Hub H4 Htc) as ->.
  pose proof (open_no_tier _ _ e Hok He Hf) as Hnt. pose proof (au_totals _ _ Hok e He) as Ht. unfold totalled in Ht. rewrite Hnt in Ht.
  assert (Hid : (est_id e < qd_next k)%N) by (by apply (au_next _ _ Hok)).
  eapply recalculate_Ok in H9; [|done|].
  2: { cbn -[lines_ok N.add]. rewrite ?Hs, ?Hn. apply lines_ok_snoc; [by apply (au_lines _ _ Hok)|by rewrite E1|by rewrite E2, <- Ei|done]. }
  exists e, (fst row), u, (sum_cents (children (est_id e) (sa_estimate_lines (q_sales k)))).
  split_and!; try done; subst k9; cbn -[children sum_cents update_where]; rewrite ?Hs; try done.
  rewrite children_app, sum_cents_app, (children_all _ [fst row]) by (repeat constructor; congruence).
  rewrite (sum_cents_one (fst row) (li_quantity p * u) Ft Hp), Ei. done.
Qed.
End Lines.

(** * Witnesses *)

(** An accepted proposal (estimate 1, tier 11 at 500.00) and a draft of one
    door at 100.00 (estimate 2) with a tier at 80.00 that has no lines. *)
Definition demo_sales : Sales :=
  mk_sales [] [] []
    [mk_estimate 1%N "EST-26-0001" None (Some 3%N) "co" None None (Some (cents 50000)) EAccepted (Some 11%N) None;
     mk_estimate 2%N "EST-26-0002" None (Some 3%N) "co" None None (Some (cents 10000)) EDraft None None]
    [mk_quote_line 21%N 2%N "door" None (Some 1) (Some (cents 10000)) (Some (cents 10000)) 1 (mk_datetime 0 (Some 0)) None]
    [mk_tier 11%N 1%N better None (Some (cents 50000)) 12 1; mk_tier 12%N 2%N good None (Some (cents 8000)) 12 1]
    [mk_quote_line 31%N 11%N "opener" None (Some 1) (Some (cents 50000)) (Some (cents 50000)) 1 (mk_datetime 0 (Some 0)) None].
Definition demo_marks (token : uuid) : EstimateMarks := mk_estimate_marks None None None None None true token.
Definition demo_desk : QuoteDesk :=
  mk_quote_desk
    (mk_office (mk_session (mk_db (mk_gl [] [] [] [] [] [] 100%N 0) (mk_ops [] [] [] [] [] None 5 1 true)) ∅ [] ∅ [])
      demo_sales (mk_work [] [] [] [] [] [] [] []))
    {[1%N := demo_marks 41%N; 2%N := demo_marks 42%N]} ∅ starter_book {[3%N := mk_quote_customer false (Some "retail") None]} ∅ ∅ None (mk_features true 50 30) 50%N.

Lemma demo_sound : sound demo_desk.
Proof.
  constructor.
  - apply (bool_decide_unpack _). vm_compute. exact I.
  - apply Forall_forall. repeat constructor.
  - split; [apply (bool_decide_unpack _); vm_compute; exact I|]. apply Forall_forall. repeat constructor. by exists 10000.
  - split; [apply (bool_decide_unpack _); vm_compute; exact I|]. split.
    + split; [apply (bool_decide_unpack _); vm_compute; exact I|]. apply Forall_forall. repeat constructor. by exists 50000.
    + apply Forall_forall. repeat constructor; [by exists 50000|by exists 8000].
  - apply Forall_forall. repeat constructor. eexists. split; [apply list_elem_of_here|done].
Qed.

(** A hundred doors that cost 10.01 each, at the engine's price. *)
Definition doors : EstimateLineCreateIn :=
  mk_line_in "door" 100 (FNum 0) None (Some (float_of_decimal (DFinite 1001 (-2)))) (Some "doors") None None None.

(** A line added and one edited, a tier built from lines, two edits refused
    on the accepted proposal, the draft copied, sent and accepted by its link,
    and an edit refused on it. *)
Definition demo_day : list quote_op :=
  [OpAddLine 2%N doors;
   OpPatchLine 2%N 21%N (mk_estimate_line_patch None None (Some (Some 3)) None None None false None);
   OpAddTierLine 2%N 12%N "spring" 2 (float_of_decimal (DFinite 3333 (-2))) None;
   OpDeleteLine 1%N 21%N;
   OpPatchTier 1%N 11%N (mk_tier_patch None None (Some (Some (float_of_int 1))) None);
   OpDuplicate 2%N "co"; OpSend 2%N; OpPublicAccept 42%N (Some 12%N); OpAddLine 2%N doors].

Definition roomy_b (k : QuoteDesk) : bool :=
  (Z.of_nat (length (sa_estimate_lines (q_sales k))) <=? 10 ^ 15) && (Z.of_nat (length (sa_tier_lines (q_sales k))) <=? 10 ^ 15).
Lemma roomy_all l : forallb roomy_b l = true -> Forall roomy l.
Proof.
  intros H. apply Forall_forall. intros k Hk. rewrite forallb_forall in H. apply list_elem_of_In in Hk. specialize (H k Hk).
  unfold roomy_b in H. unfold roomy, roomy_table. lia.
Qed.

Lemma quotes_add_up_witness :
  map (fun e => (est_status e, est_total e)) (sa_estimates (q_sales (serve (W := toy_world) demo_day demo_desk))) =
    [(EAccepted, Some (cents 50000)); (EAccepted, Some (cents 6666)); (EDraft, Some (cents 280300))] /\
  sound (serve (W := toy_world) demo_day demo_desk).
Proof.
  split; [vm_compute; reflexivity|]. refine (quotes_add_up (W := toy_world) demo_day demo_desk demo_sound _).
  apply roomy_all. vm_compute. reflexivity.
Defined.

Lemma accepted_contract_stands_witness :
  contract 1%N (q_sales (serve (W := toy_world) demo_day demo_desk)) = contract 1%N (q_sales demo_desk).
Proof.
  refine (accepted_contract_stands (W := toy_world) demo_day demo_desk 1%N demo_sound _ _ _).
  - apply roomy_all. vm_compute. reflexivity.
  - eexists. split; [apply list_elem_of_here|by split].
  - repeat (apply Forall_cons; split; [discriminate|]). constructor.
Defined.

Lemma added_line_exact_witness :
  fst (add_line (W := toy_world) 2%N doors demo_desk) = Ok 50%N /\
  exists u, ql_line_total (List.last (sa_estimate_lines (q_sales (snd (add_line (W := toy_world) 2%N doors demo_desk))))
              (mk_quote_line 0%N 0%N "" None None None None 0 (mk_datetime 0 None) None)) = Some (cents (100 * u)).
Proof.
  split; [vm_compute; reflexivity|].
  destruct (added_line_exact (W := toy_world) 2%N doors demo_desk 50%N (snd (add_line (W := toy_world) 2%N doors demo_desk)) demo_sound)
    as (e & l & u & t & _ & _ & _ & _ & El & _ & _ & _ & _ & Et & _).
  - vm_compute. reflexivity.
  - exists u. rewrite El, List.last_last. exact Et.
Defined.

(** * Where the routes part from their comments *)

(** The same hundred doors: the line endpoint charges 100 times 25.03, the
    create endpoint a total of 2,502.50 beside the unit price 25.03 it stores,
    since it multiplies the price the engine returned before rounding. *)
Lemma create_and_add_disagree :
  map (fun l => (ql_unit_price l, ql_line_total l))
    (children 2%N (sa_estimate_lines (q_sales (snd (add_line (W := toy_world) 2%N doors demo_desk))))) =
    [(Some (cents 10000), Some (cents 10000)); (Some (cents 2503), Some (cents 250300))] /\
  map (fun l => (ql_unit_price l, ql_line_total l))
    (children 50%N (sa_estimate_lines (q_sales (snd (create_estimate (W := toy_world) "co"
       (mk_estimate_in None (Some 3%N) None None [doors]) demo_desk))))) =
    [(Some (cents 2503), Some (cents 250250))].
Proof. split; vm_compute; reflexivity. Qed.

(** The staff's tier acceptance has no status gate: with a second tier built
    beside it, the accepted proposal's total is rewritten. *)
Definition rival_tier : ProposalTier := mk_tier 13%N 1%N best None (Some (cents 90000)) 12 2.
Definition rival_desk : QuoteDesk := set_sales (set_tiers (fun l => l ++ [rival_tier])) demo_desk.
Lemma second_tier_accept_rewrites :
  fst (accept_tier 1%N 13%N rival_desk) = Ok tt /\
  map (fun e => (est_id e, est_total e)) (sa_estimates (q_sales (snd (accept_tier 1%N 13%N rival_desk)))) =
    [(1%N, Some (cents 90000)); (2%N, Some (cents 10000))].
Proof. split; vm_compute; reflexivity. Qed.
