(* ===== verification/Reports.v ===== *)
(** [modules/ledger/reports.py]: trial balance, profit and loss on both bases,
    balance sheet, and the tie of the receivable control account.  The
    [completeness] footnote of the statements and the journal browser are not
    modelled; a report is the rest of its payload, dates as values. *)

From S2P Require Import Prelude PyStr Dates Money Models PayPeriods Keys Coa Engine EngineInv EngineSpec Service RulesBase Opening Issuance LinesSpec CashBasis.

Local Open Scope Z_scope.

Definition code_le (x y : string) : bool := negb (String.ltb y x).

(** * Lines by account *)

Definition natural_type (t : account_type) : bool :=
  match t with liability | equity | revenue => true | asset | expense => false end.

Definition in_window (start end_ : option date) (w : date) : bool :=
  match start with Some s => s <=? w | None => true end &&
  match end_ with Some e => w <=? e | None => true end.

Definition _line_rows (company_id : string) (start end_ : option date) (d : Db)
  : list (GlAccount * Z) :=
  omap (fun l =>
          match get_account (jl_account_id l) d, get_entry (jl_entry_id l) d with
          | Some a, Some e =>
              if String.eqb (je_company_id e) company_id && in_window start end_ (je_effective_at e)
              then Some (a, jl_amount_cents l) else None
          | _, _ => None
          end) (gl_lines (db_gl d)).

(** A dict of slots keyed by account id, in insertion order. *)
Fixpoint add_slot (account : GlAccount) (amount : Z) (totals : list (GlAccount * Z))
  : list (GlAccount * Z) :=
  match totals with
  | [] => [(account, amount)]
  | (b, s) :: totals' =>
      if N.eqb (acc_id b) (acc_id account) then (b, s + amount) :: totals'
      else (b, s) :: add_slot account amount totals'
  end.

Definition _sum_by_account (rows : list (GlAccount * Z)) : list (GlAccount * Z) :=
  foldl (fun totals row => add_slot (fst row) (snd row) totals) [] rows.

Definition _natural (account : GlAccount) (signed_cents : Z) : Z :=
  if natural_type (acc_type account) then - signed_cents else signed_cents.

(** * Trial balance *)

Record TbRow : Type := mk_tb_row {
  tbr_account : GlAccount; tbr_debit : Z; tbr_credit : Z
}.

Record TrialBalance : Type := mk_tb {
  tb_as_of : date; tb_rows : list TbRow; tb_debit : Z; tb_credit : Z; tb_zero_proof : Z
}.

Definition tb_step (acc : list TbRow * Z * Z * Z) (slot : GlAccount * Z) : list TbRow * Z * Z * Z :=
  let '(rows, debit_total, credit_total, zero_proof) := acc in
  let '(account, signed) := slot in
  if signed =? 0 then acc
  else
    let debit := if 0 <? signed then signed else 0 in
    let credit := if signed <? 0 then - signed else 0 in
    (rows ++ [mk_tb_row account debit credit], debit_total + debit, credit_total + credit,
     zero_proof + signed).

Definition trial_balance (company_id : string) (as_of : date) (d : Db) : TrialBalance :=
  let totals := _sum_by_account (_line_rows company_id None (Some as_of) d) in
  let '(rows, debit_total, credit_total, zero_proof) := foldl tb_step ([], 0, 0, 0) totals in
  mk_tb as_of
    (stable_sort (fun x y => code_le (acc_code (tbr_account x)) (acc_code (tbr_account y))) rows)
    debit_total credit_total zero_proof.

(** * Profit and loss *)

Definition AmountRow : Type := GlAccount * Z.

Definition sort_by_code (rows : list AmountRow) : list AmountRow :=
  stable_sort (fun x y => code_le (acc_code (fst x)) (acc_code (fst y))) rows.

Record Pnl : Type := mk_pnl {
  pnl_basis : string; pnl_start : date; pnl_end : date;
  pnl_revenue : list AmountRow; pnl_expenses : list AmountRow;
  pnl_revenue_total : Z; pnl_expense_total : Z; pnl_net_income : Z
}.

Definition pnl_step (acc : list AmountRow * list AmountRow * Z * Z) (slot : GlAccount * Z)
  : list AmountRow * list AmountRow * Z * Z :=
  let '(revenue_rows, expense_rows, revenue_total, expense_total) := acc in
  let '(account, signed) := slot in
  if signed =? 0 then acc
  else
    let natural := _natural account signed in
    match acc_type account with
    | revenue => (revenue_rows ++ [(account, natural)], expense_rows, revenue_total + natural, expense_total)
    | expense => (revenue_rows, expense_rows ++ [(account, natural)], revenue_total, expense_total + natural)
    | _ => acc
    end.

Definition _pnl_sections (totals : list (GlAccount * Z)) (start end_ : date) (basis : string) : Pnl :=
  let '(revenue_rows, expense_rows, revenue_total, expense_total) :=
    foldl pnl_step ([], [], 0, 0) totals in
  mk_pnl basis start end_ (sort_by_code revenue_rows) (sort_by_code expense_rows)
    revenue_total expense_total (revenue_total - expense_total).

Definition pnl_accrual (company_id : string) (start end_ : date) (d : Db) : Pnl :=
  _pnl_sections (_sum_by_account (_line_rows company_id (Some start) (Some end_) d)) start end_ "accrual".

(** * Balance sheet *)

Record BalanceSheet : Type := mk_bs {
  bs_as_of : date;
  bs_assets : list AmountRow; bs_liabilities : list AmountRow; bs_equity : list AmountRow;
  bs_retained : Z;                     (** the computed 3900* row closing the equity section *)
  bs_asset_total : Z; bs_liability_total : Z; bs_equity_total : Z; bs_zero_proof : Z
}.

Record bs_acc : Type := mk_bs_acc {
  ba_assets : list AmountRow; ba_liabilities : list AmountRow; ba_equity : list AmountRow;
  ba_asset : Z; ba_liability : Z; ba_equity_total : Z; ba_retained : Z
}.

Definition bs_step (acc : bs_acc) (slot : GlAccount * Z) : bs_acc :=
  let '(account, signed) := slot in
  if signed =? 0 then acc
  else
    let natural := _natural account signed in
    let 'mk_bs_acc a l e at_ lt et r := acc in
    match acc_type account with
    | revenue | expense => mk_bs_acc a l e at_ lt et (r - signed)
    | asset => mk_bs_acc (a ++ [(account, natural)]) l e (at_ + natural) lt et r
    | liability => mk_bs_acc a (l ++ [(account, natural)]) e at_ (lt + natural) et r
    | equity => mk_bs_acc a l (e ++ [(account, natural)]) at_ lt (et + natural) r
    end.

Definition balance_sheet (company_id : string) (as_of : date) (d : Db) : BalanceSheet :=
  let totals := _sum_by_account (_line_rows company_id None (Some as_of) d) in
  let acc := foldl bs_step (mk_bs_acc [] [] [] 0 0 0 0) totals in
  let equity_total := ba_equity_total acc + ba_retained acc in
  mk_bs as_of (sort_by_code (ba_assets acc)) (sort_by_code (ba_liabilities acc))
    (sort_by_code (ba_equity acc)) (ba_retained acc)
    (ba_asset acc) (ba_liability acc) equity_total
    (ba_asset acc - ba_liability acc - equity_total).

(** * Cash basis *)

Section Cash.
Context `{W : World}.

(** [(when, cents)] of the live payments, then of the refunds and applied
    credits, sorted by date. *)
Definition payment_event_of (p : Payment) : result (option (date * Z)) :=
  match pay_payment_date p, pay_created_at p with
  | None, None => Ok None
  | Some w, _ => let! c := cents_of (pay_amount p) in Ok (Some (w, c))
  | None, Some ts => let! c := cents_of (pay_amount p) in Ok (Some (dt_date ts, c))
  end.

Definition adjustment_cash_kind (k : adjustment_kind) : option (string * Z) :=
  match k with refund => Some ("refund", -1) | credit_applied => Some ("credit_applied", 1) | credit_memo => None end.

Definition adjustment_event_of (d : Db) (a : InvoiceAdjustment) : result (option (date * Z)) :=
  match adjustment_cash_kind (adj_kind a), adj_created_at a with
  | Some (kind, sign), Some ts =>
      let! c := cents_of (adj_amount a) in
      Ok (Some (_shop_effective_at "adjustment" (str_uuid (adj_id a)) kind (Some ts) d, sign * c))
  | _, _ => Ok None
  end.

Definition _cash_events (invoice : Invoice) (d : Db) : result (list (date * Z)) :=
  let! payments := rmap payment_event_of
    (List.filter (fun p => match pay_voided_at p with None => true | Some _ => false end)
       (invoice_payments invoice d)) in
  let! adjustments := rmap (adjustment_event_of d) (invoice_adjustments invoice d) in
  Ok (stable_sort (fun x y => fst x <=? fst y) (omap id payments ++ omap id adjustments)).

(** The account a component is recognized on; [None] when it no longer exists. *)
Definition component_account (company_id : string) (c : RevenueComponent) (d : Db)
  : result (option GlAccount) :=
  match rc_account_id c with
  | Some u => Ok (get_account u d)
  | None => let! a := fst (resolve_role_account company_id (default "" (rc_role c)) d) in Ok (Some a)
  end.

(** [_bucket] for every part of one recognition delta. *)
Fixpoint bucket_parts (company_id : string) (d : Db) (parts : list (RevenueComponent * Z))
    (buckets : list (GlAccount * Z)) : result (list (GlAccount * Z)) :=
  match parts with
  | [] => Ok buckets
  | (component, part) :: parts' =>
      if part =? 0 then bucket_parts company_id d parts' buckets
      else
        let! account := component_account company_id component d in
        bucket_parts company_id d parts'
          (match account with Some a => add_slot a (- part) buckets | None => buckets end)
  end.

(** The loop over one invoice's events; the flag says the invoice was skipped. *)
Fixpoint cash_walk (company_id : string) (invoice : Invoice) (start end_ : date) (total_cents : Z)
    (d : Db) (events : list (date * Z)) (cumulative recognized_prev : Z)
    (components : option (list RevenueComponent)) (buckets : list (GlAccount * Z))
  : result (list (GlAccount * Z) * bool) :=
  match events with
  | [] => Ok (buckets, false)
  | (when_, amount) :: events' =>
      let cumulative := cumulative + amount in
      let recognized_now := Z.min (Z.max cumulative 0) total_cents in
      let delta := recognized_now - recognized_prev in
      if (delta =? 0) || (when_ <? start) || (end_ <? when_) then
        cash_walk company_id invoice start end_ total_cents d events' cumulative recognized_now
          components buckets
      else
        match (match components with Some cs => Ok cs | None => invoice_components invoice d end) with
        | Err IssuanceCompositionError => Ok (buckets, true)
        | Err e => Err e
        | Ok [] => Ok (buckets, false)
        | Ok cs =>
            let! parts := prorate_components cs delta total_cents in
            let! buckets := bucket_parts company_id d parts buckets in
            cash_walk company_id invoice start end_ total_cents d events' cumulative recognized_now
              (Some cs) buckets
        end
  end.

Fixpoint cash_invoices (company_id : string) (start end_ : date) (d : Db) (invoices : list Invoice)
    (buckets : list (GlAccount * Z)) (skipped : list string)
  : result (list (GlAccount * Z) * list string) :=
  match invoices with
  | [] => Ok (buckets, skipped)
  | invoice :: invoices' =>
      let! total_cents := cents_of (inv_total invoice) in
      if total_cents <=? 0 then cash_invoices company_id start end_ d invoices' buckets skipped
      else
        let! events := _cash_events invoice d in
        let! res := cash_walk company_id invoice start end_ total_cents d events 0 0 None buckets in
        cash_invoices company_id start end_ d invoices' (fst res)
          (if snd res : bool then skipped ++ [inv_number invoice] else skipped)
  end.

Definition cash_revenue_by_account (company_id : string) (start end_ : date) (d : Db)
  : result (list (GlAccount * Z) * list string) :=
  cash_invoices company_id start end_ d
    (List.filter (fun i => String.eqb (inv_company_id i) company_id &&
        match inv_deleted_at i with None => true | Some _ => false end &&
        negb (bool_decide (inv_status i = void)) && negb (bool_decide (inv_status i = draft)))
       (op_invoices (db_ops d))) [] [].

(** [{**a, **b}] *)
Definition dict_merge (a b : list (GlAccount * Z)) : list (GlAccount * Z) :=
  foldl (fun m kv =>
    if existsb (fun x => N.eqb (acc_id (fst x)) (acc_id (fst kv))) m
    then map (fun x => if N.eqb (acc_id (fst x)) (acc_id (fst kv)) then kv else x) m
    else m ++ [kv]) a b.

Definition pnl_cash (company_id : string) (start end_ : date) (d : Db) : result (Pnl * list string) :=
  let! res := cash_revenue_by_account company_id start end_ d in
  let revenue_buckets := List.filter (fun s => bool_decide (acc_type (fst s) = revenue)) (fst res) in
  let expense_totals := List.filter (fun s => bool_decide (acc_type (fst s) = expense))
    (_sum_by_account (_line_rows company_id (Some start) (Some end_) d)) in
  Ok (_pnl_sections (dict_merge revenue_buckets expense_totals) start end_ "cash", snd res).
End Cash.

(** * Lemmas *)

Lemma zsum_omap {A B} (f : A -> option B) (g : B -> Z) (l : list A) :
  zsum_of g (omap f l) = zsum_of (fun x => match f x with Some y => g y | None => 0 end) l.
Proof. induction l as [|x l IH]; [done|]. cbn. destruct (f x); cbn; by rewrite <- IH. Qed.

Definition line_kept (P : GlJournalEntry -> bool) (d : Db) (l : GlJournalLine) : Z :=
  match get_entry (jl_entry_id l) d with
  | Some e => if P e then jl_amount_cents l else 0
  | None => 0
  end.

(** Any selection of whole entries sums to zero. *)
Lemma whole_entries_sum P d : ledger_ok d -> zsum_of (line_kept P d) (gl_lines (db_gl d)) = 0.
Proof.
  intros Hok. rewrite (zsum_partition jl_entry_id _ (map je_id (gl_entries (db_gl d)))).
  - rewrite map_map. assert (forall e, e ∈ gl_entries (db_gl d) ->
      zsum_of (line_kept P d) (entry_lines (je_id e) d) = 0) as Hz.
    { intros e He. rewrite (zsum_of_ext _ (fun l => if P e then jl_amount_cents l else 0)).
      - destruct (P e); [apply (lo_balanced d Hok e He)|].
        induction (entry_lines (je_id e) d); cbn; lia.
      - intros l [_ Hl%N.eqb_eq]%elem_of_filter_b. unfold line_kept. by rewrite Hl, get_entry_elem. }
    unfold entry_lines in Hz. induction (gl_entries (db_gl d)) as [|e l IH]; [done|]. cbn [map zsum].
    rewrite Hz by apply list_elem_of_here. rewrite IH; [done|]. intros x Hx. apply Hz. by apply list_elem_of_further.
  - apply lo_ids, Hok.
  - intros l Hl. destruct (lo_line_refs d Hok l Hl) as (e & He & <-). apply elem_of_map_b. eauto.
Qed.

Lemma get_account_ref d l :
  ledger_ok d -> l ∈ gl_lines (db_gl d) -> exists a, get_account (jl_account_id l) d = Some a.
Proof.
  intros Hok Hl. destruct (lo_account_refs d Hok l Hl) as (a & Ha & E).
  unfold get_account. destruct (List.find _ _) as [x|] eqn:F; [eauto|].
  rewrite find_none_elem in F. specialize (F a Ha). rewrite E, N.eqb_refl in F. done.
Qed.

Lemma line_rows_sum c start end_ d (g : GlAccount -> Z) :
  ledger_ok d ->
  zsum_of (fun row => g (fst row) * snd row) (_line_rows c start end_ d) =
  zsum_of (fun l => match get_account (jl_account_id l) d with Some a => g a | None => 0 end *
             line_kept (fun e => String.eqb (je_company_id e) c && in_window start end_ (je_effective_at e)) d l)
    (gl_lines (db_gl d)).
Proof.
  intros Hok. unfold _line_rows. rewrite zsum_omap. apply zsum_of_ext. intros l Hl.
  destruct (get_account_ref d l Hok Hl) as [a ->]. unfold line_kept.
  destruct (get_entry (jl_entry_id l) d) as [e|]; [|lia].
  destruct (_ && _); cbn [fst snd]; lia.
Qed.

Lemma line_rows_zero c start end_ d : ledger_ok d -> zsum_of snd (_line_rows c start end_ d) = 0.
Proof.
  intros Hok. pose proof (line_rows_sum c start end_ d (fun _ => 1) Hok) as H.
  rewrite (zsum_of_ext snd (fun row => 1 * snd row)) by (intros; lia). rewrite H.
  rewrite <- (whole_entries_sum (fun e => String.eqb (je_company_id e) c &&
                in_window start end_ (je_effective_at e)) d Hok).
  apply zsum_of_ext. intros l Hl. destruct (get_account_ref d l Hok Hl) as [a ->]. lia.
Qed.

(** Grouping by account preserves every weighted sum whose weight depends on
    the account only. *)
Lemma add_slot_sum (g : GlAccount -> Z) a x t :
  (forall b, b ∈ map fst t -> acc_id b = acc_id a -> g b = g a) ->
  zsum_of (fun s => g (fst s) * snd s) (add_slot a x t) =
  zsum_of (fun s => g (fst s) * snd s) t + g a * x.
Proof.
  induction t as [|[b s] t IH]; intros H; cbn [add_slot]; [cbn; lia|].
  destruct (N.eqb_spec (acc_id b) (acc_id a)) as [E|E]; cbn [map zsum fst snd].
  - rewrite (H b); [lia|apply list_elem_of_here|done].
  - rewrite IH; [lia|]. intros y Hy. apply H. by apply list_elem_of_further.
Qed.

Lemma add_slot_accounts a x t b : b ∈ map fst (add_slot a x t) -> b = a \/ b ∈ map fst t.
Proof.
  induction t as [|[y s] t IH]; cbn [add_slot map].
  - intros ->%list_elem_of_singleton. by left.
  - case_if; cbn [map fst]; rewrite !elem_of_cons; naive_solver.
Qed.

(** Rows of a report name accounts by identifier consistently. *)
Definition coherent (rows : list (GlAccount * Z)) : Prop :=
  forall a b, a ∈ map fst rows -> b ∈ map fst rows -> acc_id a = acc_id b -> a = b.

Lemma sum_by_account_sum (g : GlAccount -> Z) rows :
  coherent rows ->
  zsum_of (fun s => g (fst s) * snd s) (_sum_by_account rows) =
  zsum_of (fun s => g (fst s) * snd s) rows.
Proof.
  unfold _sum_by_account. intros Hc.
  enough (forall t,
    (forall a b, a ∈ map fst t -> b ∈ map fst rows -> acc_id a = acc_id b -> a = b) ->
    zsum_of (fun s => g (fst s) * snd s) (foldl (fun totals row => add_slot (fst row) (snd row) totals) t rows) =
    zsum_of (fun s => g (fst s) * snd s) t + zsum_of (fun s => g (fst s) * snd s) rows) as Hgen.
  { rewrite Hgen; [done|]. intros a b Ha. by apply elem_of_nil in Ha. }
  induction rows as [|[a x] rows IH]; intros t Ht; cbn [foldl map zsum fst snd]; [lia|].
  rewrite IH.
  - rewrite add_slot_sum; [lia|]. intros b Hb E. f_equal.
    apply (Ht b a Hb); [apply list_elem_of_here|done].
  - intros y z Hy Hz. apply Hc; by apply list_elem_of_further.
  - intros y z Hy Hz E. apply add_slot_accounts in Hy as [->|Hy].
    + apply (Hc a z); [apply list_elem_of_here|by apply list_elem_of_further|done].
    + apply (Ht y z Hy); [by apply list_elem_of_further|done].
Qed.

Lemma line_rows_coherent c start end_ d : coherent (_line_rows c start end_ d).
Proof.
  assert (forall a, a ∈ map fst (_line_rows c start end_ d) -> get_account (acc_id a) d = Some a) as H.
  { intros a ([x y] & Hx & <-)%elem_of_map_b. unfold _line_rows in Hx.
    apply list_elem_of_omap in Hx as (l & _ & Hl). destruct (get_account (jl_account_id l) d) as [z|] eqn:E; [|done].
    destruct (get_entry _ d); [|done]. case_if; [|done]. injection Hl as -> _. cbn.
    pose proof (get_account_Some _ _ _ E) as [_ Eid]. by rewrite Eid. }
  intros a b Ha%H Hb%H E. rewrite E in Ha. congruence.
Qed.

Lemma sums_of_lines c start end_ d g :
  zsum_of (fun s => g (fst s) * snd s) (_sum_by_account (_line_rows c start end_ d)) =
  zsum_of (fun row => g (fst row) * snd row) (_line_rows c start end_ d).
Proof. apply sum_by_account_sum, line_rows_coherent. Qed.

(** The balance of one account over a window, straight from the lines. *)
Definition account_balance (company_id : string) (start end_ : option date) (account : uuid) (d : Db) : Z :=
  zsum_of (line_kept (fun e => String.eqb (je_company_id e) company_id &&
                               in_window start end_ (je_effective_at e)) d)
    (List.filter (fun l => N.eqb (jl_account_id l) account) (gl_lines (db_gl d))).

Lemma zsum_of_filter {A} (p : A -> bool) (f : A -> Z) l :
  zsum_of f (List.filter p l) = zsum_of (fun x => if p x then f x else 0) l.
Proof. induction l as [|x l IH]; [done|]. cbn. destruct (p x); cbn; lia. Qed.

Lemma account_balance_rows c start end_ u d :
  ledger_ok d ->
  account_balance c start end_ u d =
  zsum_of (fun s => (if N.eqb (acc_id (fst s)) u then 1 else 0) * snd s)
    (_sum_by_account (_line_rows c start end_ d)).
Proof.
  intros Hok. rewrite (sums_of_lines c start end_ d (fun a => if N.eqb (acc_id a) u then 1 else 0)).
  rewrite (line_rows_sum c start end_ d (fun a => if N.eqb (acc_id a) u then 1 else 0) Hok).
  unfold account_balance. rewrite zsum_of_filter. apply zsum_of_ext. intros l Hl.
  destruct (get_account_ref d l Hok Hl) as [a Ha]. rewrite Ha.
  pose proof (get_account_Some _ _ _ Ha) as [_ <-]. case_if; lia.
Qed.

Definition slot_ids (t : list (GlAccount * Z)) : list uuid := map (fun s => acc_id (fst s)) t.

Lemma add_slot_nodup a x t : NoDup (slot_ids t) -> NoDup (slot_ids (add_slot a x t)).
Proof.
  induction t as [|[b s] t IH]; intros Hnd; cbn [add_slot slot_ids map] in *.
  { apply NoDup_singleton. }
  apply NoDup_cons in Hnd as [Hb Hnd]. destruct (N.eqb_spec (acc_id b) (acc_id a)) as [E|E]; cbn [map fst].
  - by apply NoDup_cons.
  - apply NoDup_cons. split; [|by apply IH]. cbn [fst] in Hb.
    intros (y & Hy & Ey)%elem_of_map_b.
    destruct (add_slot_accounts a x t (fst y)) as [E'|(y' & Hy' & E')%elem_of_map_b];
      [apply elem_of_map_b; by exists y|congruence|].
    apply Hb, elem_of_map_b. exists y'. split; [done|]. congruence.
Qed.

Lemma sum_by_account_nodup rows : NoDup (slot_ids (_sum_by_account rows)).
Proof.
  unfold _sum_by_account.
  enough (forall t, NoDup (slot_ids t) ->
    NoDup (slot_ids (foldl (fun totals row => add_slot (fst row) (snd row) totals) t rows))) as H
    by (apply H, NoDup_nil_2).
  induction rows as [|[a x] rows IH]; intros t Ht; [done|]. cbn [foldl]. by apply IH, add_slot_nodup.
Qed.

Lemma slot_value t a s :
  NoDup (slot_ids t) -> (a, s) ∈ t ->
  zsum_of (fun y => (if N.eqb (acc_id (fst y)) (acc_id a) then 1 else 0) * snd y) t = s.
Proof.
  induction t as [|[b x] t IH]; intros Hnd Hin; [by apply elem_of_nil in Hin|].
  cbn [slot_ids map] in Hnd. apply NoDup_cons in Hnd as [Hb Hnd]. cbn [map zsum fst snd].
  apply elem_of_cons in Hin as [[= <- <-]|Hin].
  - rewrite N.eqb_refl.
    rewrite (zsum_of_ext _ (fun _ => 0)); [|intros y Hy; destruct (N.eqb_spec (acc_id (fst y)) (acc_id a)) as [E|]; [|lia]].
    + clear. assert (zsum_of (fun _ : GlAccount * Z => 0) t = 0) as ->; [induction t; cbn; lia|lia].
    + exfalso. apply Hb, elem_of_map_b. by exists y.
  - rewrite IH by done. destruct (N.eqb_spec (acc_id b) (acc_id a)) as [E|]; [|lia].
    exfalso. apply Hb, elem_of_map_b. exists (a, s). split; [done|cbn in *; congruence].
Qed.

Lemma slot_missing t u :
  u ∉ slot_ids t -> zsum_of (fun y => (if N.eqb (acc_id (fst y)) u then 1 else 0) * snd y) t = 0.
Proof.
  induction t as [|[b x] t IH]; intros Hu; [done|]. cbn [map zsum fst snd slot_ids] in *.
  apply not_elem_of_cons in Hu as [Hne Hu]. rewrite IH by done.
  destruct (N.eqb_spec (acc_id b) u); [by subst|lia].
Qed.

(** What the loop of the trial balance computes. *)
Lemma tb_fold t rows dt ct zp :
  exists rows', foldl tb_step (rows, dt, ct, zp) t =
    (rows ++ rows', dt + zsum_of tbr_debit rows', ct + zsum_of tbr_credit rows', zp + zsum_of snd t) /\
    rows' = map (fun s => mk_tb_row (fst s) (Z.max (snd s) 0) (Z.max (- snd s) 0))
              (List.filter (fun s => negb (snd s =? 0)) t).
Proof.
  revert rows dt ct zp. induction t as [|[a s] t IH]; intros rows dt ct zp; cbn [foldl].
  { exists []. split; [|done]. rewrite app_nil_r. cbn. do 3 f_equal; lia. }
  unfold tb_step at 2. destruct (Z.eqb_spec s 0) as [->|Hs].
  - destruct (IH rows dt ct zp) as (r & E & Er). exists r. rewrite E. split; [cbn; done|]. by cbn.
  - destruct (IH (rows ++ [mk_tb_row a (if 0 <? s then s else 0) (if s <? 0 then - s else 0)])
      (dt + (if 0 <? s then s else 0)) (ct + (if s <? 0 then - s else 0)) (zp + s)) as (r & E & Er).
    exists (mk_tb_row a (Z.max s 0) (Z.max (- s) 0) :: r). rewrite E.
    assert ((if 0 <? s then s else 0) = Z.max s 0) as -> by (destruct (Z.ltb_spec 0 s); lia).
    assert ((if s <? 0 then - s else 0) = Z.max (- s) 0) as -> by (destruct (Z.ltb_spec s 0); lia).
    split.
    + rewrite <- app_assoc. cbn [app map zsum tbr_debit tbr_credit snd].
      apply f_equal2; [apply f_equal2; [apply f_equal2; [done|lia]|lia]|lia].
    + cbn [List.filter snd]. rewrite (proj2 (Z.eqb_neq _ _) Hs). cbn [negb map fst snd]. by rewrite Er.
Qed.

(** ** The statements as weighted sums *)

Definition is_pnl (a : GlAccount) : bool :=
  match acc_type a with revenue | expense => true | _ => false end.

Lemma pnl_fold t r e rt et :
  let '(_, _, rt', et') := foldl pnl_step (r, e, rt, et) t in
  rt' - et' = rt - et - zsum_of (fun s => (if is_pnl (fst s) then 1 else 0) * snd s) t.
Proof.
  revert r e rt et. induction t as [|[a s] t IH]; intros r e rt et; cbn [foldl]; [cbn; lia|].
  unfold pnl_step at 2. destruct (Z.eqb_spec s 0) as [->|Hs].
  - specialize (IH r e rt et). destruct (foldl _ _ t) as [[[? ?] ?] ?]. cbn [map zsum fst snd]. lia.
  - unfold _natural, natural_type, is_pnl in *. cbn [map zsum fst snd].
    destruct (acc_type a);
      match goal with |- context [foldl pnl_step (?r0, ?e0, ?rt0, ?et0) t] => specialize (IH r0 e0 rt0 et0) end;
      destruct (foldl _ _ t) as [[[? ?] ?] ?]; lia.
Qed.

Lemma net_income_is t start end_ basis :
  pnl_net_income (_pnl_sections t start end_ basis) =
  - zsum_of (fun s => (if is_pnl (fst s) then 1 else 0) * snd s) t.
Proof.
  unfold _pnl_sections. pose proof (pnl_fold t [] [] 0 0) as H.
  destruct (foldl pnl_step _ t) as [[[? ?] ?] ?]. cbn. lia.
Qed.

Lemma bs_fold t acc :
  let acc' := foldl bs_step acc t in
  ba_asset acc' - ba_liability acc' - ba_equity_total acc' - ba_retained acc' =
    ba_asset acc - ba_liability acc - ba_equity_total acc - ba_retained acc + zsum_of snd t /\
  ba_retained acc' = ba_retained acc - zsum_of (fun s => (if is_pnl (fst s) then 1 else 0) * snd s) t.
Proof.
  revert acc. induction t as [|[a s] t IH]; intros acc; cbn [foldl map zsum fst snd]; [lia|].
  destruct (IH (bs_step acc (a, s))) as [H1 H2]. cbn zeta in H1, H2. rewrite H1, H2. clear H1 H2 IH.
  unfold bs_step. destruct (Z.eqb_spec s 0) as [->|Hs]; [lia|].
  destruct acc. unfold _natural, natural_type, is_pnl. destruct (acc_type a); cbn; lia.
Qed.

(** A window cut in two. *)
Lemma window_split start mid end_ w :
  mid <= end_ ->
  (if in_window start (Some end_) w then 1 else 0) =
  (if in_window start (Some mid) w then 1 else 0) +
  (if in_window start None w && in_window (Some (mid + 1)) (Some end_) w then 1 else 0).
Proof.
  intros H. unfold in_window. destruct start as [s|]; destruct (_ <=? _) eqn:E1;
    repeat case_if; lia.
Qed.

(** The weight of profit-and-loss lines in a window. *)
Definition pnl_weight (c : string) (start end_ : option date) (d : Db) : Z :=
  zsum_of (fun s => (if is_pnl (fst s) then 1 else 0) * snd s)
    (_sum_by_account (_line_rows c start end_ d)).

Lemma pnl_weight_split c start mid end_ d :
  ledger_ok d -> mid <= end_ -> (forall s, start = Some s -> s <= mid + 1) ->
  pnl_weight c start (Some end_) d =
  pnl_weight c start (Some mid) d + pnl_weight c (Some (mid + 1)) (Some end_) d.
Proof.
  intros Hok Hle Hs. unfold pnl_weight.
  rewrite !(sums_of_lines c _ _ d (fun a => if is_pnl a then 1 else 0)).
  rewrite !(line_rows_sum c _ _ d (fun a => if is_pnl a then 1 else 0) Hok), <- zsum_of_add.
  apply zsum_of_ext. intros l _. destruct (get_account _ d) as [a|]; [|lia]. rewrite <- Z.mul_add_distr_l.
  f_equal. unfold line_kept. destruct (get_entry _ d) as [e|]; [|lia].
  destruct (String.eqb (je_company_id e) c); [cbn [andb]|done].
  pose proof (window_split start mid end_ (je_effective_at e) Hle) as H.
  assert (in_window start None (je_effective_at e) && in_window (Some (mid + 1)) (Some end_) (je_effective_at e) =
          in_window (Some (mid + 1)) (Some end_) (je_effective_at e)) as E.
  { unfold in_window. destruct start as [s|]; [|done]. specialize (Hs s eq_refl). rewrite andb_true_r.
    destruct (Z.leb_spec (mid + 1) (je_effective_at e)); [|by rewrite andb_false_r].
    by rewrite (proj2 (Z.leb_le s _)) by lia. }
  rewrite E in H. repeat case_if; lia.
Qed.

(** * Properties *)

(** the trial balance proves itself.  On a sound journal, as of any date,
    the zero proof is zero and debits equal credits; every row shows exactly
    the net of its account's lines to date, on one side only; no account
    appears twice; and every account with a balance appears. *)
Theorem trial_balance_correct company_id as_of d (Hok : ledger_ok d) :
  let tb := trial_balance company_id as_of d in
  tb_zero_proof tb = 0 /\ tb_debit tb = tb_credit tb /\
  NoDup (map (fun r => acc_id (tbr_account r)) (tb_rows tb)) /\
  (forall r, r ∈ tb_rows tb ->
     0 <= tbr_debit r /\ 0 <= tbr_credit r /\ (tbr_debit r = 0 \/ tbr_credit r = 0) /\
     tbr_debit r - tbr_credit r =
       account_balance company_id None (Some as_of) (acc_id (tbr_account r)) d /\
     tbr_debit r <> tbr_credit r) /\
  (forall u, account_balance company_id None (Some as_of) u d <> 0 ->
     exists r, r ∈ tb_rows tb /\ acc_id (tbr_account r) = u).
Proof.
  intros tb. unfold tb, trial_balance. set (t := _sum_by_account _).
  destruct (tb_fold t [] 0 0 0) as (rows & E & Er). rewrite E. cbn [tb_zero_proof tb_debit tb_credit tb_rows].
  pose proof (sum_by_account_nodup (_line_rows company_id None (Some as_of) d)) as Hnd. fold t in Hnd.
  assert (zsum_of snd t = 0) as Hz.
  { pose proof (sums_of_lines company_id None (Some as_of) d (fun _ => 1)) as H. fold t in H.
    rewrite (zsum_of_ext snd (fun s => 1 * snd s)) by (intros; lia). rewrite H.
    rewrite <- (line_rows_zero company_id None (Some as_of) d Hok). apply zsum_of_ext. intros; lia. }
  split; [lia|]. split.
  { assert (zsum_of tbr_debit rows - zsum_of tbr_credit rows = zsum_of snd t); [|lia].
    rewrite Er. clear. induction t as [|[a s] t IH]; [done|]. cbn [List.filter snd].
    destruct (Z.eqb_spec s 0) as [->|]; cbn [negb map zsum snd tbr_debit tbr_credit]; lia. }
  set (sorted := stable_sort _ _).
  assert (Permutation sorted rows) as Hperm by (unfold sorted; apply stable_sort_perm).
  split_and!.
  - rewrite Hperm, Er, map_map. cbn. clear -Hnd. unfold slot_ids in Hnd.
    induction t as [|[a s] t IH]; cbn in *; [constructor|].
    apply NoDup_cons in Hnd as [Ha Hnd]. destruct (negb (s =? 0)); cbn; [|by apply IH].
    apply NoDup_cons. split; [|by apply IH]. intros (y & Hy & Ey)%elem_of_map_b.
    apply elem_of_filter_b in Hy as [Hy _]. apply Ha, elem_of_map_b. eauto.
  - intros r Hr. rewrite Hperm, Er in Hr. apply elem_of_map_b in Hr as ([a s] & Hs & <-).
    apply elem_of_filter_b in Hs as [Hs Hne]. cbn [tbr_debit tbr_credit tbr_account fst snd] in *.
    rewrite account_balance_rows by done. fold t. rewrite (slot_value t a s Hnd Hs). lia.
  - intros u Hu. rewrite account_balance_rows in Hu by done. fold t in Hu.
    destruct (decide (u ∈ slot_ids t)) as [Hin|Hin]; [|by rewrite slot_missing in Hu].
    apply elem_of_map_b in Hin as ([a s] & Hs & <-). cbn [fst] in *.
    rewrite (slot_value t a s Hnd Hs) in Hu.
    exists (mk_tb_row a (Z.max s 0) (Z.max (- s) 0)). split; [|done].
    rewrite Hperm, Er. apply elem_of_map_b. exists (a, s). split; [|done].
    apply elem_of_filter_b. split; [done|]. cbn. lia.
Qed.

Lemma trial_balance_correct_witness :
  tb_debit (trial_balance "co" 800000 posted_db) = 100 /\
  tb_zero_proof (trial_balance "co" 800000 posted_db) = 0.
Proof.
  destruct (trial_balance_correct "co" 800000 posted_db posted_db_ok) as (H & _).
  split; [vm_compute; reflexivity|exact H].
Defined.

(** C32: the statements articulate.  On a sound journal the balance sheet
    balances as of any date (assets less liabilities less equity with computed
    retained earnings is zero); retained earnings grow between two dates by
    exactly the net income the accrual P&L reports for the days between; and
    P&L net income adds up over adjacent windows. *)
Theorem statements_articulate company_id d (Hok : ledger_ok d) as_of as_of'
    (Hle : as_of <= as_of') :
  bs_zero_proof (balance_sheet company_id as_of d) = 0 /\
  bs_retained (balance_sheet company_id as_of' d) =
    bs_retained (balance_sheet company_id as_of d) +
    pnl_net_income (pnl_accrual company_id (as_of + 1) as_of' d) /\
  forall start, start <= as_of + 1 ->
    pnl_net_income (pnl_accrual company_id start as_of' d) =
    pnl_net_income (pnl_accrual company_id start as_of d) +
    pnl_net_income (pnl_accrual company_id (as_of + 1) as_of' d).
Proof.
  assert (forall w, zsum_of snd (_sum_by_account (_line_rows company_id None (Some w) d)) = 0) as Hz.
  { intros w. pose proof (sums_of_lines company_id None (Some w) d (fun _ => 1)) as H.
    rewrite (zsum_of_ext snd (fun s => 1 * snd s)) by (intros; lia). rewrite H.
    rewrite <- (line_rows_zero company_id None (Some w) d Hok). apply zsum_of_ext. intros; lia. }
  assert (forall w, bs_retained (balance_sheet company_id w d) = - pnl_weight company_id None (Some w) d) as Hr.
  { intros w. unfold balance_sheet. cbn [bs_retained]. unfold pnl_weight.
    destruct (bs_fold (_sum_by_account (_line_rows company_id None (Some w) d)) (mk_bs_acc [] [] [] 0 0 0 0))
      as [_ H]. cbn zeta in H. cbn [ba_retained] in H. lia. }
  assert (forall s e, pnl_net_income (pnl_accrual company_id s e d) =
    - pnl_weight company_id (Some s) (Some e) d) as Hn by (intros; apply net_income_is).
  split_and!.
  - unfold balance_sheet. cbn [bs_zero_proof].
    destruct (bs_fold (_sum_by_account (_line_rows company_id None (Some as_of) d)) (mk_bs_acc [] [] [] 0 0 0 0))
      as [H _]. cbn zeta in H. cbn [ba_asset ba_liability ba_equity_total ba_retained] in H.
    specialize (Hz as_of). lia.
  - rewrite !Hr, Hn, (pnl_weight_split company_id None as_of as_of' d Hok Hle) by done. lia.
  - intros start Hs. rewrite !Hn, (pnl_weight_split company_id (Some start) as_of as_of' d Hok Hle); [lia|].
    by intros s [= <-].
Qed.

Lemma statements_articulate_witness :
  pnl_net_income (pnl_accrual "co" 737000 800000 posted_db) = 100 /\
  bs_zero_proof (balance_sheet "co" 736999 posted_db) = 0 /\
  bs_retained (balance_sheet "co" 800000 posted_db) =
    bs_retained (balance_sheet "co" 736999 posted_db) +
    pnl_net_income (pnl_accrual "co" (736999 + 1) 800000 posted_db).
Proof.
  destruct (statements_articulate "co" posted_db posted_db_ok 736999 800000 ltac:(discriminate)) as (H1 & H2 & _).
  split_and!; [vm_compute; reflexivity|exact H1|exact H2].
Defined.
