(* ===== verification/CashWalk.v ===== *)
(** The cash-basis revenue of [reports.py]: what the walk over an invoice's
    cash events recognizes in a window. *)

From S2P Require Import Prelude PyStr Dates Money Models PayPeriods Keys Coa Engine EngineInv EngineSpec Service RulesBase Opening Issuance LinesSpec CashBasis Reports.
From stdpp Require Import sorting.

Local Open Scope Z_scope.

(** Cash recognized so far: clamped to the invoice total. *)
Definition clamp (total x : Z) : Z := Z.min (Z.max x 0) total.

(** What the walk recognizes inside the window. *)
Fixpoint window_deltas (start end_ : date) (total : Z) (events : list (date * Z)) (cumulative : Z) : Z :=
  match events with
  | [] => 0
  | (w, amount) :: events' =>
      let delta := clamp total (cumulative + amount) - clamp total cumulative in
      (if (w <? start) || (end_ <? w) then 0 else delta) +
      window_deltas start end_ total events' (cumulative + amount)
  end.

Definition cash_until (p : date -> bool) (events : list (date * Z)) : Z :=
  zsum_of snd (List.filter (fun e => p (fst e)) events).

Lemma cash_until_none p events :
  (forall e, e ∈ events -> p (fst e) = false) -> cash_until p events = 0.
Proof. intros H. unfold cash_until. by rewrite filter_none. Qed.

(** Over events in date order the window's deltas telescope. *)
Lemma window_deltas_telescope start end_ total events cumulative :
  StronglySorted (fun x y => fst x <= fst y) events -> start <= end_ + 1 ->
  window_deltas start end_ total events cumulative =
  clamp total (cumulative + cash_until (fun w => w <=? end_) events) -
  clamp total (cumulative + cash_until (fun w => w <? start) events).
Proof.
  intros Hs Hle. revert cumulative. induction Hs as [|[w x] events Hs IH Hw]; intros cumulative.
  { unfold cash_until. cbn. lia. }
  cbn [window_deltas]. rewrite IH. rewrite Forall_forall in Hw. cbn [fst] in Hw.
  unfold cash_until. cbn [List.filter fst].
  destruct (Z.ltb_spec w start) as [H1|H1]; cbn [orb].
  - rewrite (proj2 (Z.leb_le w end_)) by lia. cbn [map zsum snd]. rewrite !Z.add_assoc. lia.
  - fold (cash_until (fun w => w <? start) events). rewrite (cash_until_none (fun w => w <? start) events)
      by (intros e He; specialize (Hw e He); lia).
    destruct (Z.ltb_spec end_ w) as [H2|H2].
    + rewrite (proj2 (Z.leb_gt w end_)) by lia. fold (cash_until (fun w => w <=? end_) events).
      rewrite (cash_until_none (fun w => w <=? end_) events) by (intros e He; specialize (Hw e He); lia). lia.
    + rewrite (proj2 (Z.leb_le w end_)) by lia. cbn [map zsum snd]. rewrite !Z.add_assoc, !Z.add_0_r. lia.
Qed.

Lemma sort_insert_sorted {A} (key : A -> Z) x l :
  StronglySorted (fun x y => key x <= key y) l ->
  StronglySorted (fun x y => key x <= key y) (sort_insert (fun x y => key x <=? key y) x l).
Proof.
  induction 1 as [|y l Hs IH Hy]; cbn [sort_insert]; [repeat constructor|].
  rewrite Forall_forall in Hy. destruct (Z.leb_spec (key x) (key y)) as [H|H].
  - constructor; [constructor; [done|by apply Forall_forall]|].
    apply Forall_forall. intros z [->|Hz]%elem_of_cons; [done|]. specialize (Hy z Hz). lia.
  - constructor; [done|]. apply Forall_forall. intros z Hz.
    rewrite (sort_insert_perm _ x l) in Hz. apply elem_of_cons in Hz as [->|Hz]; [lia|auto].
Qed.

Lemma stable_sort_sorted {A} (key : A -> Z) l :
  StronglySorted (fun x y => key x <= key y) (stable_sort (fun x y => key x <=? key y) l).
Proof. induction l as [|x l IH]; [constructor|]. cbn. by apply sort_insert_sorted. Qed.

Lemma add_slot_total a x t : zsum_of snd (add_slot a x t) = zsum_of snd t + x.
Proof.
  induction t as [|[b s] t IH]; cbn [add_slot]; [cbn; lia|]. case_if; cbn [map zsum snd]; lia.
Qed.

Lemma bucket_parts_total c d parts b :
  (forall x, x ∈ map fst parts -> exists a, component_account c x d = Ok (Some a)) ->
  exists b', bucket_parts c d parts b = Ok b' /\ zsum_of snd b' = zsum_of snd b - zsum_of snd parts.
Proof.
  revert b. induction parts as [|[x p] parts IH]; intros b H; cbn [bucket_parts map zsum snd].
  { exists b. split; [done|lia]. }
  assert (forall y, y ∈ map fst parts -> exists a, component_account c y d = Ok (Some a)) as H'
    by (intros y Hy; apply H; by apply list_elem_of_further).
  destruct (Z.eqb_spec p 0) as [->|Hp].
  - destruct (IH b H') as (b' & E & Hb'). exists b'. split; [done|lia].
  - destruct (H x (list_elem_of_here _ _)) as [a ->]. cbn [rbind].
    destruct (IH (add_slot a (- p) b) H') as (b' & E & Hb'). exists b'. split; [done|].
    rewrite Hb', add_slot_total. lia.
Qed.

Section Walk.
Context (company_id : string) (invoice : Invoice) (start end_ : date) (total : Z) (d : Db).
Context (components : list RevenueComponent).
Context (Hcomp : invoice_components invoice d = Ok components) (Hne : components <> []).
Context (Hcpos : Forall (fun c => 0 < rc_cents c) components) (Hpos : 0 < total).
Context (Hres : forall c, c ∈ components -> exists a, component_account company_id c d = Ok (Some a)).

Lemma cash_walk_total events cumulative cs b :
  cs = None \/ cs = Some components ->
  exists b', cash_walk company_id invoice start end_ total d events cumulative (clamp total cumulative) cs b
      = Ok (b', false) /\
    zsum_of snd b' = zsum_of snd b - window_deltas start end_ total events cumulative.
Proof using All.
  revert cumulative cs b. induction events as [|[w x] events IH]; intros cumulative cs b Hcs;
    cbn [cash_walk window_deltas].
  { exists b. split; [done|lia]. }
  fold (clamp total (cumulative + x)). set (delta := clamp total (cumulative + x) - clamp total cumulative).
  destruct ((w <? start) || (end_ <? w)) eqn:Ew.
  { rewrite <- orb_assoc, Ew, orb_true_r. destruct (IH (cumulative + x) cs b Hcs) as (b' & E & Hb).
    exists b'. split; [done|lia]. }
  rewrite <- orb_assoc, Ew, orb_false_r. destruct (Z.eqb_spec delta 0) as [Hd|Hd].
  { destruct (IH (cumulative + x) cs b Hcs) as (b' & E & Hb). exists b'. split; [done|]. lia. }
  assert ((match cs with Some cs => Ok cs | None => invoice_components invoice d end) = Ok components) as ->
    by (destruct Hcs as [->| ->]; done).
  destruct components as [|c0 rest] eqn:Ec; [done|]. rewrite <- Ec in *.
  destruct (prorate_components_Ok components delta total) as (parts & Hp & Hlen & Hsum & _);
    [by rewrite Ec|done|done|]. rewrite Hp. cbn [rbind].
  destruct (bucket_parts_total company_id d (zip components parts) b) as (b1 & Eb & Hb1).
  { intros y Hy. apply Hres. change (map fst (zip components parts)) with (fst <$> zip components parts) in Hy.
    rewrite fst_zip in Hy by lia. done. }
  rewrite Eb. cbn [rbind]. destruct (IH (cumulative + x) (Some components) b1 ltac:(by right)) as (b' & E & Hb).
  exists b'. split; [done|]. rewrite Hb, Hb1.
  change (map snd (zip components parts)) with (snd <$> zip components parts). rewrite snd_zip by lia.
  rewrite Hsum. unfold recognized, delta, clamp. lia.
Qed.
End Walk.

(** * Properties *)

(** cash-basis revenue of an invoice, over any window.  When the invoice
    composes, its cash events convert and its components' accounts resolve,
    the walk succeeds, skips nothing, and books exactly the cash received
    through the window's end less the cash received before its start, each
    clamped to between nothing and the invoice total: adjacent windows add up,
    overpayments are never revenue, and refunds take back what was recognized. *)
Theorem cash_walk_recognizes `{W : World} company_id invoice start end_ d lines total events components buckets
    (Hlines : build_issuance_lines invoice d = Ok lines)
    (Htotal : cents_of (inv_total invoice) = Ok total) (Hpos : 0 < total)
    (Hevents : _cash_events invoice d = Ok events)
    (Hcomponents : invoice_components invoice d = Ok components)
    (Hresolved : forall c, c ∈ components -> exists a, component_account company_id c d = Ok (Some a))
    (Hwindow : start <= end_ + 1) :
  exists buckets', cash_walk company_id invoice start end_ total d events 0 0 None buckets = Ok (buckets', false) /\
    - (zsum_of snd buckets' - zsum_of snd buckets) =
      clamp total (cash_until (fun w => w <=? end_) events) -
      clamp total (cash_until (fun w => w <? start) events).
Proof.
  destruct (components_cover invoice d lines total Hlines Htotal Hpos) as (cs & Hc & Hne & Hcpos & _).
  rewrite Hcomponents in Hc. injection Hc as <-.
  assert (0 = clamp total 0) as E0 by (unfold clamp; lia).
  destruct (cash_walk_total company_id invoice start end_ total d components Hcomponents Hne Hcpos Hpos Hresolved
    events 0 None buckets ltac:(by left)) as (b' & E & Hb).
  rewrite <- E0 in E. exists b'. split; [exact E|].
  rewrite (window_deltas_telescope start end_ total events 0) in Hb; [rewrite !Z.add_0_l in Hb; lia| |done].
  revert Hevents. unfold _cash_events. intros H. minv H. apply (stable_sort_sorted fst).
Qed.

Definition cash_db : Db :=
  mk_db (db_gl lined_db)
    (mk_ops [lined_invoice] (op_invoice_lines (db_ops lined_db)) [pay2; pay1] [] [] None 0 1 true).

Lemma cash_walk_recognizes_witness :
  exists b', cash_walk "co" lined_invoice 738000 738010 10825 cash_db [(738005, 20000); (738006, 500)] 0 0 None []
    = Ok (b', false) /\ zsum_of snd b' = -10825.
Proof.
  destruct (cash_walk_recognizes (W := toy_world) "co" lined_invoice 738000 738010 cash_db
    (match build_issuance_lines lined_invoice cash_db with Ok l => l | Err _ => [] end) 10825
    [(738005, 20000); (738006, 500)]
    (match invoice_components lined_invoice cash_db with Ok l => l | Err _ => [] end) []) as (b' & E & H).
  - vm_compute. reflexivity.
  - reflexivity.
  - reflexivity.
  - vm_compute. reflexivity.
  - vm_compute. reflexivity.
  - intros c Hc. vm_compute in Hc.
    repeat (apply elem_of_cons in Hc as [->|Hc]; [eexists; vm_compute; reflexivity|]).
    by apply elem_of_nil in Hc.
  - discriminate.
  - exists b'. split; [exact E|].
    assert (clamp 10825 (cash_until (fun w => w <=? 738010) [(738005, 20000); (738006, 500)]) -
      clamp 10825 (cash_until (fun w => w <? 738000) [(738005, 20000); (738006, 500)]) = 10825) as R
      by (vm_compute; reflexivity).
    rewrite R in H. cbn [map zsum] in H. lia.
Defined.
