(* ===== verification/Backfill.v ===== *)
(** [modules/ledger/backfill.py]: the cutover backfill: opening anchors, replay
    of the post-cutover events, the late-era shortfalls and the reconciliation
    report.

    Refusals are collected by what they are about, not by their text. *)

From S2P Require Import Prelude PyStr Dates Money Models PayPeriods Keys Coa Engine EngineInv EngineSpec Service RulesBase Opening Issuance Payments Adjustments Reports.

Local Open Scope Z_scope.

Definition ACTOR : string := "gl_backfill".

(** What a refusal names. *)
Inductive subject : Type :=
  | SubInvoice (number : string)
  | SubAdjustment (id_ : uuid) (number : string)
  | SubPayments (number : string)
  | SubVoidEra (number : string)
  | SubExpense (id_ : uuid).

Record OpeningRow : Type := mk_opening_row {
  or_invoice_number : string; or_invoice_id : uuid; or_customer_id : option uuid;
  or_effective_at : date; or_opening_cents : Z;
  or_posted : bool; or_overpaid_at_cutover : bool
}.

Record PhaseResult : Type := mk_phase {
  ph_posted : Z; ph_skipped : Z; ph_entries_created : Z;
  ph_locked : list subject; ph_refused : list subject;
  ph_period_lock : option date; ph_rows : list OpeningRow
}.

Definition empty_phase : PhaseResult := mk_phase 0 0 0 [] [] None [].

Definition add_posted (r : PhaseResult) : PhaseResult :=
  mk_phase (ph_posted r + 1) (ph_skipped r) (ph_entries_created r) (ph_locked r) (ph_refused r)
    (ph_period_lock r) (ph_rows r).
Definition add_skipped (r : PhaseResult) : PhaseResult :=
  mk_phase (ph_posted r) (ph_skipped r + 1) (ph_entries_created r) (ph_locked r) (ph_refused r)
    (ph_period_lock r) (ph_rows r).
Definition add_locked (s : subject) (r : PhaseResult) : PhaseResult :=
  mk_phase (ph_posted r) (ph_skipped r) (ph_entries_created r) (ph_locked r ++ [s]) (ph_refused r)
    (ph_period_lock r) (ph_rows r).
Definition add_refused (s : subject) (r : PhaseResult) : PhaseResult :=
  mk_phase (ph_posted r) (ph_skipped r) (ph_entries_created r) (ph_locked r) (ph_refused r ++ [s])
    (ph_period_lock r) (ph_rows r).
Definition add_row (row : OpeningRow) (r : PhaseResult) : PhaseResult :=
  mk_phase (ph_posted r) (ph_skipped r) (ph_entries_created r) (ph_locked r) (ph_refused r)
    (ph_period_lock r) (ph_rows r ++ [row]).

Definition _entry_count (company_id : string) (d : Db) : Z :=
  Z.of_nat (length (List.filter (fun e => String.eqb (je_company_id e) company_id) (gl_entries (db_gl d)))).

Definition _require_cutover (company_id : string) (d : Db) : result date :=
  match _cutover_date company_id d with Some c => Ok c | None => Err LedgerConfigError end.

Definition set_locks (f : list GlPeriodLock -> list GlPeriodLock) (g : Gl) : Gl :=
  mk_gl (gl_accounts g) (gl_entries g) (gl_lines g) (f (gl_locks g)) (gl_settings g)
    (gl_audit g) (gl_next_uuid g) (gl_entry_no_seq g).

(** [ORDER BY lock_date DESC LIMIT 1] is the maximum. *)
Definition ensure_cutover_lock (company_id : string) (cutover : date) : M Db bool :=
  latest <- mreads (max_lock_date company_id) ;;
  let lock_through := cutover - 1 in
  if match latest with Some l => lock_through <=? l | None => false end then mreturn false
  else mwrite (set_gl (set_locks (fun l => l ++ [mk_lock lock_through company_id]))) ;;;
       mreturn true.

Definition _company_invoices (company_id : string) (d : Db) : list Invoice :=
  List.filter (fun i => String.eqb (inv_company_id i) company_id &&
                        match inv_deleted_at i with None => true | Some _ => false end)
    (op_invoices (db_ops d)).

Section Backfill.
Context `{W : World}.

Definition opening_step (cutover : date) (result_ : PhaseResult) (invoice : Invoice) : M Db PhaseResult :=
  effective <- mreads (_effective_at invoice) ;;
  if negb (is_issued (inv_status invoice)) then mreturn (add_skipped result_)
  else if cutover <=? effective then mreturn (add_skipped result_)
  else
    opening <- (fun d => (opening_balance_cents invoice cutover d, d)) ;;
    let row p o := mk_opening_row (inv_number invoice) (inv_id invoice) (inv_customer_id invoice)
                     effective opening p o in
    if opening <=? 0
    then mreturn (add_row (row false (opening <? 0)) (add_skipped result_))
    else
      entry <- post_opening_balance invoice (Some ACTOR) ;;
      match entry with
      | Some _ => mreturn (add_row (row true false) (add_posted result_))
      | None => mreturn (add_row (row false false) result_)
      end.

Definition run_opening (company_id : string) : M Db PhaseResult :=
  cutover <- (fun d => (_require_cutover company_id d, d)) ;;
  locked <- ensure_cutover_lock company_id cutover ;;
  let result_ := if locked : bool
                 then mk_phase 0 0 0 [] [] (Some (cutover - 1)) [] else empty_phase in
  invoices <- mreads (_company_invoices company_id) ;;
  mfold (opening_step cutover) result_ invoices.

Definition replay_invoice (result_ : PhaseResult) (invoice : Invoice) : M Db PhaseResult :=
  if negb (is_issued (inv_status invoice)) then mreturn result_
  else
    r <- mtry (repost_invoice_issuance invoice (Some ACTOR)) ;;
    match r with
    | Ok _ => mreturn (add_posted result_)
    | Err PeriodLockedError => mreturn (add_locked (SubInvoice (inv_number invoice)) result_)
    | Err IssuanceCompositionError => mreturn (add_refused (SubInvoice (inv_number invoice)) result_)
    | Err e => mraise e
    end.

Definition poster_by_kind (kind : adjustment_kind)
  : InvoiceAdjustment -> Invoice -> option string -> M Db (option GlJournalEntry) :=
  match kind with
  | credit_memo => post_credit_memo
  | refund => post_refund
  | credit_applied => post_credit_application
  end.

Definition replay_adjustment (cutover : date) (invoices : list Invoice) (result_ : PhaseResult)
    (adjustment : InvoiceAdjustment) : M Db PhaseResult :=
  match List.find (fun i => N.eqb (inv_id i) (adj_invoice_id adjustment)) invoices with
  | None => mreturn result_
  | Some invoice =>
      era <- mreads (pre_cutover_era invoice) ;;
      if (era : bool) && _existed_at_cutover (adj_created_at adjustment) cutover
      then mreturn (add_skipped result_)
      else
        r <- mtry (poster_by_kind (adj_kind adjustment) adjustment invoice (Some ACTOR)) ;;
        match r with
        | Ok _ => mreturn (add_posted result_)
        | Err PeriodLockedError =>
            mreturn (add_locked (SubAdjustment (adj_id adjustment) (inv_number invoice)) result_)
        | Err e => mraise e
        end
  end.

Definition holds_live_payment (invoice : Invoice) (d : Db) : bool :=
  existsb (fun p => negb (is_voided p)) (invoice_payments invoice d).

(** The void invoices that still hold money, and the era voids named for
    review. *)
Definition collect_void (acc : list Invoice * PhaseResult) (i : Invoice)
  : M Db (list Invoice * PhaseResult) :=
  live <- mreads (holds_live_payment i) ;;
  if negb (bool_decide (inv_status i = void)) || negb live then mreturn acc
  else
    era <- mreads (pre_cutover_era i) ;;
    if era : bool then mreturn (fst acc, add_refused (SubVoidEra (inv_number i)) (snd acc))
    else mreturn (fst acc ++ [i], snd acc).

Definition replay_payments (result_ : PhaseResult) (invoice : Invoice) : M Db PhaseResult :=
  r <- mtry (resettle_invoice_payments invoice (Some ACTOR) None) ;;
  match r with
  | Ok _ => mreturn result_
  | Err PeriodLockedError => mreturn (add_locked (SubPayments (inv_number invoice)) result_)
  | Err e => mraise e
  end.

Definition replay_expense (cutover : date) (result_ : PhaseResult) (expense : Expense)
  : M Db PhaseResult :=
  let when_ := match exp_date expense with
               | Some w => Some w
               | None => _created_date (exp_created_at expense)
               end in
  if match when_ with Some w => w <? cutover | None => true end then mreturn (add_skipped result_)
  else
    r <- mtry (repost_expense expense (Some ACTOR)) ;;
    match r with
    | Ok _ => mreturn (add_posted result_)
    | Err PeriodLockedError => mreturn (add_locked (SubExpense (exp_id expense)) result_)
    | Err ExpenseCompositionError => mreturn (add_refused (SubExpense (exp_id expense)) result_)
    | Err e => mraise e
    end.

Definition run_replay (company_id : string) : M Db PhaseResult :=
  enabled <- mreads (ledger_posting_enabled company_id) ;;
  if negb enabled then mraise LedgerConfigError
  else
    cutover <- (fun d => (_require_cutover company_id d, d)) ;;
    entries_at_start <- mreads (_entry_count company_id) ;;
    all_invoices <- mreads (_company_invoices company_id) ;;
    let invoices := List.filter (fun i => negb (bool_decide (inv_status i = void))) all_invoices in
    result_ <- mfold replay_invoice empty_phase invoices ;;
    adjustments <- mreads (fun d =>
      List.filter (fun a => existsb (fun i => N.eqb (inv_id i) (adj_invoice_id a)) invoices)
        (op_adjustments (db_ops d))) ;;
    result_ <- mfold (replay_adjustment cutover invoices) result_ adjustments ;;
    acc <- mfold collect_void ([], result_) all_invoices ;;
    result_ <- mfold replay_payments (snd acc) (invoices ++ fst acc) ;;
    expenses <- mreads (fun d => List.filter (fun x => String.eqb (exp_company_id x) company_id)
                                   (op_expenses (db_ops d))) ;;
    result_ <- mfold (replay_expense cutover) result_ expenses ;;
    entries_now <- mreads (_entry_count company_id) ;;
    mreturn (mk_phase (ph_posted result_) (ph_skipped result_) (entries_now - entries_at_start)
               (ph_locked result_) (ph_refused result_) (ph_period_lock result_) (ph_rows result_)).
End Backfill.

(** * Reading the receivable *)

Definition gl_ar_balance_cents (d : Db) : Z := zsum_of snd (ar_role_lines d).

Definition _refunded_off_credit_cents (invoice : Invoice) (d : Db) : Z :=
  let refund_ids := map (fun a => str_uuid (adj_id a))
    (List.filter (fun a => bool_decide (adj_kind a = refund)) (invoice_adjustments invoice d)) in
  zsum_of jl_amount_cents
    (List.filter (fun l =>
        (0 <? jl_amount_cents l) &&
        match get_entry (jl_entry_id l) d with
        | Some e => opt_eqb (je_source_type e) (Some "adjustment") &&
                    match je_source_id e with
                    | Some s => existsb (String.eqb s) refund_ids
                    | None => false
                    end &&
                    bool_decide (je_status e = posted) && is_none (je_reverses_entry_id e)
        | None => false
        end &&
        match get_account (jl_account_id l) d with
        | Some a => match acc_role a with      (** [role != 2300]: NULL never passes *)
                    | Some r => negb (String.eqb r ROLE_CUSTOMER_CREDITS)
                    | None => false
                    end
        | None => false
        end) (gl_lines (db_gl d))).

Record ExcessRow : Type := mk_excess {
  ex_invoice_id : uuid; ex_invoice_number : string; ex_payment_id : uuid;
  ex_payment_date : option date;
  ex_amount_cents : Z; ex_allocated_cents : Z; ex_refunded_cents : Z; ex_uncovered_cents : Z
}.

(** The loop over one invoice's allocation; [refund_pool] is [None] until the
    first excess. *)
Fixpoint excess_rows (invoice : Invoice) (payments : list Payment) (refunded_now : Z)
    (refund_pool : option Z) (allocation : list (uuid * Z)) : result (list ExcessRow) :=
  match allocation with
  | [] => Ok []
  | (pid, allocated_) :: allocation' =>
      match List.find (fun p => N.eqb (pay_id p) pid) payments with
      | None => excess_rows invoice payments refunded_now refund_pool allocation'
      | Some p =>
          if is_voided p then excess_rows invoice payments refunded_now refund_pool allocation'
          else
            let! amount := cents_of (pay_amount p) in
            let excess := amount - allocated_ in
            if excess <=? 0 then excess_rows invoice payments refunded_now refund_pool allocation'
            else
              let pool := default refunded_now refund_pool in
              let refunded := Z.min excess pool in
              let! rest := excess_rows invoice payments refunded_now (Some (pool - refunded)) allocation' in
              Ok (mk_excess (inv_id invoice) (inv_number invoice) pid (pay_payment_date p) amount
                    allocated_ refunded
                    (excess - refunded) :: rest)
      end
  end.

(** The payments that could be late-era: a superset of the exact test. *)
Definition era_candidate (cutover : date) (p : Payment) : bool :=
  match pay_payment_date p with Some w => w <? cutover | None => false end &&
  match pay_created_at p with
  | None => true
  | Some ts => (cutover - 1) * usec_per_day <=? dt_utc_wall ts
  end.

Definition invoice_excess (cutover : date) (invoice : Invoice) (d : Db) : result (list ExcessRow) :=
  if negb (existsb (fun p => era_candidate cutover p && N.eqb (pay_invoice_id p) (inv_id invoice))
             (op_payments (db_ops d))) || negb (is_issued (inv_status invoice))
  then Ok []
  else if negb (pre_cutover_era invoice d) then Ok []
  else
    let! allocation := _late_era_allocation invoice cutover d in
    excess_rows invoice (invoice_payments invoice d) (_refunded_off_credit_cents invoice d) None allocation.

Definition era_settlement_excess (company_id : string) (d : Db) : result (list ExcessRow) :=
  match _cutover_date company_id d with
  | None => Ok []
  | Some cutover =>
      let! rows := rmap (fun i => invoice_excess cutover i d) (_company_invoices company_id d) in
      Ok (concat rows)
  end.

Definition era_settlement_shortfalls (excess : list ExcessRow) : list ExcessRow :=
  List.filter (fun r => 0 <? ex_uncovered_cents r) excess.

Record ReconRow : Type := mk_recon {
  rr_invoice_number : string; rr_status : invoice_status;
  rr_operational_cents : Z; rr_gl_cents : Z; rr_delta_cents : Z; rr_anchored : bool
}.

Record Recon : Type := mk_recon_report {
  rc_rows : list ReconRow; rc_mismatches : list ReconRow; rc_shortfalls : list ExcessRow;
  rc_operational : Z; rc_attributed : Z; rc_control : Z; rc_refunded : Z
}.

Definition recon_row (invoice : Invoice) (d : Db) : result (option ReconRow * Z * Z) :=
  let! op_cents := cents_of (inv_balance_due invoice) in
  let gl_cents := invoice_ar_balance_cents invoice d in
  Ok (if (op_cents =? 0) && (gl_cents =? 0) then None
      else Some (mk_recon (inv_number invoice) (inv_status invoice) op_cents gl_cents
                   (op_cents - gl_cents) (has_opening_anchor invoice d)),
      op_cents, gl_cents).

Definition reconciliation_report (company_id : string) (d : Db) : result Recon :=
  let! l := rmap (fun i => recon_row i d)
    (List.filter (fun i => is_issued (inv_status i)) (_company_invoices company_id d)) in
  let rows := omap (fun x => fst (fst x)) l in
  let! excess := era_settlement_excess company_id d in
  Ok (mk_recon_report rows (List.filter (fun r => negb (rr_delta_cents r =? 0)) rows)
        (era_settlement_shortfalls excess) (zsum_of (fun x => snd (fst x)) l) (zsum_of snd l)
        (gl_ar_balance_cents d) (zsum_of ex_refunded_cents excess)).
