(* ===== verification/ArControl.v ===== *)
(** [ar_control] of [modules/ledger/reports.py]: every AR line is attributed to
    an invoice through its entry's source, and the control account is tied to
    the open invoices. *)

From S2P Require Import Prelude PyStr Dates Money Models PayPeriods Keys Coa Engine EngineInv EngineSpec Service RulesBase Opening Issuance Payments Adjustments LinesSpec Reports Backfill.

Local Open Scope Z_scope.

Definition RECEIVABLE_STATUSES : list invoice_status := ISSUED_STATUSES ++ [overdue].
Definition AR_DRIFT_ROW_LIMIT : nat := 200.
Definition AR_SHORTFALL_ROW_LIMIT : nat := 200.

(** [d[k] = d.get(k, 0) + x] *)
Definition bump (k : string) (x : Z) (m : gmap string Z) : gmap string Z :=
  <[k := default 0 (m !! k) + x]> m.

(** [sum(d.values())] *)
Definition msum (m : gmap string Z) : Z := zsum_of snd (map_to_list m).

(** The invoice an AR line belongs to. *)
Definition attribute (d : Db) (source_type source_id : option string) : option string :=
  if opt_eqb source_type (Some "invoice") then source_id
  else if opt_eqb source_type (Some "payment") then
    option_map (fun p => str_uuid (pay_invoice_id p))
      (List.find (fun p => opt_eqb source_id (Some (str_uuid (pay_id p)))) (op_payments (db_ops d)))
  else if opt_eqb source_type (Some "adjustment") then
    option_map (fun a => str_uuid (adj_invoice_id a))
      (List.find (fun a => opt_eqb source_id (Some (str_uuid (adj_id a)))) (op_adjustments (db_ops d)))
  else None.

(** [source_type or "manual"] *)
Definition source_key (source_type : option string) : string :=
  if truthy_str source_type then default "" source_type else "manual".

Record ar_acc : Type := mk_ar_acc {
  aa_control : Z; aa_ledger : gmap string Z; aa_payment_ar : gmap string Z; aa_unattributed : gmap string Z
}.

Definition ar_line_step (d : Db) (acc : ar_acc) (line : option string * option string * Z) : ar_acc :=
  let '(source_type, source_id, amount) := line in
  match attribute d source_type source_id with
  | None => mk_ar_acc (aa_control acc + amount) (aa_ledger acc) (aa_payment_ar acc)
              (bump (source_key source_type) amount (aa_unattributed acc))
  | Some invoice_id =>
      mk_ar_acc (aa_control acc + amount) (bump invoice_id amount (aa_ledger acc))
        (if opt_eqb source_type (Some "payment") then bump invoice_id amount (aa_payment_ar acc)
         else aa_payment_ar acc) (aa_unattributed acc)
  end.

Definition ar_lines_acc (d : Db) : ar_acc :=
  foldl (ar_line_step d) (mk_ar_acc 0 ∅ ∅ ∅) (ar_role_lines d).

Record DriftRow : Type := mk_drift {
  dr_invoice_id : string; dr_invoice_number : string; dr_status : invoice_status; dr_deleted : bool;
  dr_open_balance_cents : Z; dr_ledger_ar_cents : Z; dr_drift_cents : Z;
  dr_balance_due_cents : option Z; dr_payment_on_draft : bool
}.

Definition is_deleted (inv : Invoice) : bool :=
  match inv_deleted_at inv with Some _ => true | None => false end.

Definition is_receivable (inv : Invoice) : bool :=
  bool_decide (inv_status inv ∈ RECEIVABLE_STATUSES) && negb (is_deleted inv).

(** What the office sees as owed. *)
Definition expected_cents (inv : Invoice) : result Z :=
  if is_receivable inv then cents_of (inv_balance_due inv) else Ok 0.

Fixpoint drift_rows (acc : ar_acc) (invoices : list Invoice) : result (Z * list DriftRow) :=
  match invoices with
  | [] => Ok (0, [])
  | inv :: invoices' =>
      let key := str_uuid (inv_id inv) in
      let! expected := expected_cents inv in
      let ledger := default 0 (aa_ledger acc !! key) in
      let! own := (if negb (ledger =? expected) && negb (is_receivable inv)
                   then let! c := cents_of (inv_balance_due inv) in Ok (Some c) else Ok None) in
      let! rest := drift_rows acc invoices' in
      Ok (expected + fst rest,
          if ledger =? expected then snd rest
          else mk_drift key (inv_number inv) (inv_status inv) (is_deleted inv) expected ledger
                 (ledger - expected) own
                 (negb (is_receivable inv) && bool_decide (inv_status inv = draft) &&
                  negb (is_deleted inv) && negb (default 0 (aa_payment_ar acc !! key) =? 0))
               :: snd rest)
  end.

(** AR sourced from an invoice id that no longer resolves to a row. *)
Definition add_missing (seen : list string) (ledger unattributed : gmap string Z) : gmap string Z :=
  foldl (fun m kv => if negb (existsb (String.eqb (fst kv)) seen) && negb (snd kv =? 0)
                     then bump "missing_invoice" (snd kv) m else m)
    unattributed (map_to_list ledger).

Definition drift_before (x y : DriftRow) : bool :=
  (Z.abs (dr_drift_cents y) <? Z.abs (dr_drift_cents x)) ||
  ((Z.abs (dr_drift_cents y) =? Z.abs (dr_drift_cents x)) &&
   code_le (dr_invoice_number x) (dr_invoice_number y)).

Definition shortfall_before (x y : ExcessRow) : bool :=
  (ex_uncovered_cents y <? ex_uncovered_cents x) ||
  ((ex_uncovered_cents y =? ex_uncovered_cents x) &&
   (String.ltb (ex_invoice_number x) (ex_invoice_number y) ||
    (String.eqb (ex_invoice_number x) (ex_invoice_number y) &&
     code_le (str_uuid (ex_payment_id x)) (str_uuid (ex_payment_id y))))).

Record ArControl : Type := mk_ar_control {
  ac_posting_enabled : bool; ac_cutover_month : option date;
  ac_control_cents : Z; ac_subledger_cents : Z; ac_difference_cents : Z; ac_tied : bool;
  ac_shortfall_cents : Z; ac_refunded_cents : Z; ac_shortfall_count : Z; ac_shortfalls : list ExcessRow;
  ac_drift_count : Z; ac_drift : list DriftRow;
  ac_unattributed_cents : Z; ac_unattributed : gmap string Z
}.

(** The whole drift, before the payload's row limit. *)
Definition ar_drift (d : Db) : result (Z * list DriftRow) :=
  let! res := drift_rows (ar_lines_acc d) (op_invoices (db_ops d)) in
  Ok (fst res, stable_sort drift_before (snd res)).

Definition ar_unattributed (d : Db) : gmap string Z :=
  add_missing (map (fun i => str_uuid (inv_id i)) (op_invoices (db_ops d)))
    (aa_ledger (ar_lines_acc d)) (aa_unattributed (ar_lines_acc d)).

Definition ar_control (company_id : string) (d : Db) : result ArControl :=
  let control := aa_control (ar_lines_acc d) in
  let! res := ar_drift d in
  let subledger := fst res in
  let drift := snd res in
  let unattributed := ar_unattributed d in
  let! excess := era_settlement_excess company_id d in
  let shortfalls := era_settlement_shortfalls excess in
  let shortfall_cents := zsum_of ex_uncovered_cents shortfalls in
  let sorted := stable_sort shortfall_before shortfalls in
  let settings := get_gl_settings company_id d in
  Ok (mk_ar_control
        (match settings with Some s => gs_ledger_posting_enabled s | None => false end)
        (match settings with Some s => gs_cutover_month s | None => None end)
        control subledger (control - subledger)
        ((control =? subledger) && match drift with [] => true | _ => false end &&
         (msum unattributed =? 0) && (shortfall_cents =? 0))
        shortfall_cents (zsum_of ex_refunded_cents excess) (Z.of_nat (length shortfalls))
        (take AR_SHORTFALL_ROW_LIMIT sorted)
        (Z.of_nat (length drift)) (take AR_DRIFT_ROW_LIMIT drift)
        (msum unattributed) (filter (fun kv => kv.2 <> 0) unattributed)).

(** * Lemmas *)

Lemma msum_empty : msum ∅ = 0.
Proof. unfold msum. by rewrite map_to_list_empty. Qed.

Lemma msum_insert_fresh k x m : m !! k = None -> msum (<[k := x]> m) = msum m + x.
Proof.
  intros Hk. unfold msum. rewrite (zsum_perm _ _ (Permutation_map snd (map_to_list_insert m k x Hk))).
  cbn. lia.
Qed.

Lemma msum_bump k x m : msum (bump k x m) = msum m + x.
Proof.
  unfold bump. destruct (m !! k) as [v|] eqn:E; simpl.
  - assert (msum m = msum (delete k m) + v) as E1.
    { rewrite <- (msum_insert_fresh k v (delete k m)) by apply lookup_delete_eq.
      by rewrite insert_delete_id. }
    rewrite <- insert_delete_eq, msum_insert_fresh by apply lookup_delete_eq. lia.
  - rewrite msum_insert_fresh by done. lia.
Qed.

Lemma ar_acc_sum d lines acc :
  let acc' := foldl (ar_line_step d) acc lines in
  aa_control acc' - msum (aa_ledger acc') - msum (aa_unattributed acc') =
  aa_control acc - msum (aa_ledger acc) - msum (aa_unattributed acc) /\
  aa_control acc' = aa_control acc + zsum_of snd lines.
Proof.
  revert acc. induction lines as [|[[st si] x] lines IH]; intros acc; cbn [foldl map zsum snd]; [lia|].
  destruct (IH (ar_line_step d acc (st, si, x))) as [H1 H2]. cbn zeta in H1, H2. rewrite H1, H2.
  unfold ar_line_step. destruct (attribute d st si); cbn; rewrite msum_bump; lia.
Qed.

(** The entries of a map over known keys, and the rest. *)
Lemma msum_split (keys : list string) m :
  NoDup keys ->
  msum m = zsum_of (fun k => default 0 (m !! k)) keys +
           zsum_of snd (List.filter (fun kv => negb (existsb (String.eqb (fst kv)) keys)) (map_to_list m)).
Proof.
  intros Hnd. induction m as [|k x m Hk Hf IH] using map_first_key_ind.
  { rewrite msum_empty, map_to_list_empty. cbn. induction keys; cbn; [done|]. rewrite lookup_empty. cbn.
    apply IHkeys. by apply NoDup_cons in Hnd as [_ ?]. }
  rewrite msum_insert_fresh, IH by done. clear IH Hf.
  pose proof (zsum_perm _ _ (Permutation_map snd (filter_Permutation_b
    (fun kv => negb (existsb (String.eqb (fst kv)) keys)) _ _ (map_to_list_insert m k x Hk)))) as Hperm.
  rewrite Hperm. clear Hperm.
  cbn [List.filter fst]. destruct (existsb (String.eqb k) keys) eqn:E; cbn [negb map zsum snd].
  - apply existsb_elem in E as (y & Hy & <-%String.eqb_eq).
    assert (zsum_of (fun k0 => default 0 (<[k := x]> m !! k0)) keys =
            zsum_of (fun k0 => default 0 (m !! k0)) keys + x) as ->; [|lia].
    clear -Hnd Hy Hk. induction keys as [|z keys IH]; [by apply elem_of_nil in Hy|]. cbn [map zsum].
    apply NoDup_cons in Hnd as [Hz Hnd]. apply elem_of_cons in Hy as [->|Hy].
    + rewrite lookup_insert_eq, Hk. cbn.
      rewrite (zsum_of_ext (fun k0 => default 0 (<[z := x]> m !! k0)) (fun k0 => default 0 (m !! k0))); [lia|].
      intros y Hy. by rewrite lookup_insert_ne by (by intros ->).
    + rewrite lookup_insert_ne by (by intros ->). rewrite IH by done. lia.
  - rewrite (zsum_of_ext (fun k0 => default 0 (<[k := x]> m !! k0)) (fun k0 => default 0 (m !! k0))); [lia|].
    intros y Hy. rewrite lookup_insert_ne; [done|]. intros ->.
    apply existsb_not in E. rewrite Forall_forall in E. specialize (E y Hy). by rewrite String.eqb_refl in E.
Qed.

Lemma add_missing_sum seen ledger m :
  msum (add_missing seen ledger m) =
  msum m + zsum_of snd (List.filter (fun kv => negb (existsb (String.eqb (fst kv)) seen)) (map_to_list ledger)).
Proof.
  unfold add_missing. revert m. induction (map_to_list ledger) as [|[k x] l IH]; intros m; cbn [foldl List.filter fst snd];
    [cbn; lia|].
  rewrite IH. destruct (existsb (String.eqb k) seen); cbn [negb andb]; [done|].
  destruct (Z.eqb_spec x 0) as [->|]; cbn [negb map zsum snd]; [lia|]. rewrite msum_bump. lia.
Qed.

Lemma drift_rows_sum acc invoices sub rows :
  drift_rows acc invoices = Ok (sub, rows) ->
  zsum_of dr_drift_cents rows =
    zsum_of (fun i => default 0 (aa_ledger acc !! str_uuid (inv_id i))) invoices - sub /\
  (forall r, r ∈ rows -> dr_drift_cents r = dr_ledger_ar_cents r - dr_open_balance_cents r /\ dr_drift_cents r <> 0).
Proof.
  revert sub rows. induction invoices as [|i invoices IH]; intros sub rows H; cbn [drift_rows] in H; minv H.
  { split; [cbn; lia|]. intros r Hr. by apply elem_of_nil in Hr. }
  destruct a1 as [sub0 rows0]. destruct (IH _ _ H2) as [Hs Hr]. cbn [fst snd map zsum] in *.
  destruct (Z.eqb_spec (default 0 (aa_ledger acc !! str_uuid (inv_id i))) a) as [E|E].
  - split; [lia|done].
  - split; [cbn [map zsum dr_drift_cents]; lia|].
    intros r [->|Hin]%elem_of_cons; [cbn; lia|by apply Hr].
Qed.

(** * Properties *)

(** the control account ties, or the report says exactly where it does
    not.  For distinct invoice rows, the difference between the AR control
    account and the open invoices always equals the drift of all listed
    invoices plus the AR no invoice can claim; the control is the sum of every
    AR line; every listed row drifts, by its ledger AR less its open balance;
    and a report that claims to be tied has no drift at all. *)
Theorem ar_control_explains company_id d report sub drift
    (Hids : forall i, i ∈ op_invoices (db_ops d) -> uuid_ok (inv_id i))
    (Hnd : NoDup (map inv_id (op_invoices (db_ops d))))
    (Hrun : ar_control company_id d = Ok report) (Hdrift : ar_drift d = Ok (sub, drift)) :
  ac_control_cents report = gl_ar_balance_cents d /\
  ac_difference_cents report = zsum_of dr_drift_cents drift + ac_unattributed_cents report /\
  (forall r, r ∈ drift -> dr_drift_cents r = dr_ledger_ar_cents r - dr_open_balance_cents r /\
                          dr_drift_cents r <> 0) /\
  (ac_tied report = true -> drift = [] /\ ac_control_cents report = ac_subledger_cents report /\
     ac_unattributed_cents report = 0 /\ ac_shortfall_cents report = 0).
Proof.
  unfold ar_control in Hrun. rewrite Hdrift in Hrun. cbn [rbind fst snd] in Hrun. minv Hrun.
  cbn [ac_control_cents ac_difference_cents ac_unattributed_cents ac_tied ac_subledger_cents ac_shortfall_cents].
  unfold ar_drift in Hdrift. minv Hdrift. destruct a0 as [sub0 rows]. cbn [fst snd] in *. subst.
  destruct (drift_rows_sum _ _ _ _ Hdrift0) as [Hs Hr].
  pose proof (stable_sort_perm drift_before rows) as Hp.
  destruct (ar_acc_sum d (ar_role_lines d) (mk_ar_acc 0 ∅ ∅ ∅)) as [H1 H2]. cbn zeta in H1, H2.
  fold (ar_lines_acc d) in H1, H2. cbn [aa_control aa_ledger aa_unattributed] in H1, H2. rewrite !msum_empty in H1.
  assert (NoDup (map (fun i => str_uuid (inv_id i)) (op_invoices (db_ops d)))) as Hnd'.
  { apply (NoDup_map_coarser inv_id); [|done]. intros x y Hx Hy E. apply str_uuid_inj; auto. }
  split_and!.
  - unfold gl_ar_balance_cents. lia.
  - unfold ar_unattributed. rewrite add_missing_sum.
    rewrite (zsum_perm _ _ (Permutation_map dr_drift_cents Hp)), Hs.
    pose proof (msum_split _ (aa_ledger (ar_lines_acc d)) Hnd') as H3. rewrite map_map in H3. lia.
  - intros r Hin. rewrite Hp in Hin. by apply Hr.
  - rewrite !andb_true_iff. intros [[[Ha Hb] Hc] He]. split; [by destruct (stable_sort drift_before rows)|lia].
Qed.

Lemma ar_control_explains_witness :
  exists report, ar_control "co" posted_db = Ok report /\ ac_difference_cents report = 100 /\
    ac_unattributed_cents report = 100.
Proof.
  destruct (ar_control "co" posted_db) as [report|] eqn:E; [|vm_compute in E; discriminate E].
  assert (ar_drift posted_db = Ok (0, [])) as Ed by (vm_compute; reflexivity).
  destruct (ar_control_explains "co" posted_db report 0 []) as (_ & H & _).
  - intros i Hi. assert (op_invoices (db_ops posted_db) = []) as E0 by (vm_compute; reflexivity).
    rewrite E0 in Hi. apply elem_of_nil in Hi. destruct Hi.
  - apply (bool_decide_unpack _). vm_compute. exact I.
  - exact E.
  - exact Ed.
  - exists report. cbn [map zsum] in H.
    assert (ac_unattributed_cents report = 100) as Hu.
    { apply (f_equal (fun r => match r with Ok x => ac_unattributed_cents x | Err _ => 0 end)) in E.
      rewrite <- E. vm_compute. reflexivity. }
    split; [reflexivity|]. split; [rewrite H, Hu; reflexivity|exact Hu].
Defined.
