(* ===== verification/Repair.v ===== *)
(** [modules/ledger/backfill.py], the repair of duplicate one-shot entries:
    finding the one-shot postings with more than one live entry, deciding which
    groups are safe to reverse, and reversing them. *)

From S2P Require Import Prelude PyStr Dates Money Models PayPeriods Keys Coa Engine EngineInv EngineSpec Service RulesBase Opening Issuance Payments Adjustments LinesSpec RulesSafe RulesSpec Chokepoint Reports Backfill ArControl.

Local Open Scope Z_scope.

Definition ONE_SHOT_EVENTS : list (string * string) :=
  [("invoice", EVENT_OPENING); ("payment", EVENT_OPENING_PAYMENT_VOID);
   ("adjustment", "credit_memo"); ("adjustment", "refund"); ("adjustment", "credit_applied")].

(** [s.split(sep)] for a one-character separator. *)
Fixpoint str_split (sep : Ascii.ascii) (s : string) : list string :=
  match s with
  | EmptyString => [EmptyString]
  | String c s' =>
      if Ascii.eqb c sep then EmptyString :: str_split sep s'
      else match str_split sep s' with
           | w :: ws => String c w :: ws
           | [] => [String c EmptyString]
           end
  end.

Definition group_key : Type := (string * string * string).

(** The group of an entry: [None] when the loop passes over it. *)
Definition one_shot_key (entry : GlJournalEntry) : option group_key :=
  match str_split ":"%char (default "" (je_idempotency_key entry)), je_source_type entry, je_source_id entry with
  | [p0; p1; event; _; _], Some st, Some si =>
      if String.eqb p0 st && String.eqb p1 si && bool_decide ((st, event) ∈ ONE_SHOT_EVENTS)
      then Some (st, si, event) else None
  | _, _, _ => None
  end.

(** [groups.setdefault(key, []).append(entry)] *)
Fixpoint group_add (k : group_key) (e : GlJournalEntry) (groups : list (group_key * list GlJournalEntry))
  : list (group_key * list GlJournalEntry) :=
  match groups with
  | [] => [(k, [e])]
  | (k', es) :: groups' =>
      if decide (k = k') then (k', es ++ [e]) :: groups' else (k', es) :: group_add k e groups'
  end.

Definition one_shot_groups (d : Db) : list (group_key * list GlJournalEntry) :=
  foldl (fun groups entry => match one_shot_key entry with
                             | Some k => group_add k entry groups
                             | None => groups
                             end) []
    (stable_sort (fun x y => negb (earlier y x))
       (List.filter (fun e => bool_decide (je_status e = posted) &&
                              existsb (fun se => opt_eqb (je_source_type e) (Some (fst se))) ONE_SHOT_EVENTS)
          (gl_entries (db_gl d)))).

(** [_invoice_id]: the invoice behind a source row. *)
Definition source_invoice_id (source_type source_id : string) (d : Db) : option uuid :=
  match uuid_of_string source_id with
  | None => None
  | Some sid =>
      if String.eqb source_type "invoice" then Some sid
      else if String.eqb source_type "payment"
      then option_map pay_invoice_id (List.find (fun p => N.eqb (pay_id p) sid) (op_payments (db_ops d)))
      else option_map adj_invoice_id (List.find (fun a => N.eqb (adj_id a) sid) (op_adjustments (db_ops d)))
  end.

(** [_ar]: the net AR of one entry. *)
Definition entry_ar_cents (e : GlJournalEntry) (d : Db) : Z :=
  zsum_of jl_amount_cents
    (List.filter (fun l => has_role ROLE_AR (jl_account_id l) d) (entry_lines (je_id e) d)).

Inductive hold_reason : Type :=
  | HoldsNoAr | NoInvoice | LaterAnchorMatches | DriftDoesNotHold.

Record DupGroup : Type := mk_dup {
  du_source_type : string; du_source_id : string; du_event : string;
  du_invoice_id : option uuid; du_invoice_number : option string;
  du_keeper : GlJournalEntry; du_duplicates : list GlJournalEntry;
  du_ar_cents : Z; du_later_entry_matches : bool
}.

Record DupRow : Type := mk_dup_row {
  dp_group : DupGroup; dp_reversible : bool; dp_hold_reason : option hold_reason;
  dp_invoice_drift_cents : option Z
}.

Definition later_matches (company_id source_id event : string) (keeper : GlJournalEntry)
    (duplicates : list GlJournalEntry) (d : Db) : result bool :=
  if String.eqb event EVENT_OPENING then
    match uuid_of_string source_id with
    | None => Err ValueError
    | Some sid =>
        match get_invoice sid d, _cutover_date company_id d with
        | Some inv, Some cutover =>
            let! now := opening_balance_cents inv cutover d in
            Ok (negb (entry_ar_cents keeper d =? now) &&
                existsb (fun x => entry_ar_cents x d =? now) duplicates)
        | _, _ => Ok false
        end
    end
  else Ok false.

(** One group with more than one live entry. *)
Definition dup_group (company_id : string) (d : Db) (g : group_key * list GlJournalEntry)
  : result (option DupGroup) :=
  let '((source_type, source_id, event), entries) := g in
  match entries with
  | keeper :: ((_ :: _) as duplicates) =>
      let! later := later_matches company_id source_id event keeper duplicates d in
      let invoice_id := source_invoice_id source_type source_id d in
      let invoice_number :=
        match invoice_id with
        | Some u => option_map inv_number (get_invoice u d)
        | None => None
        end in
      Ok (Some (mk_dup source_type source_id event invoice_id invoice_number keeper duplicates
                  (zsum_of (fun x => entry_ar_cents x d) duplicates) later))
  | _ => Ok None
  end.

(** [key=lambda r: (-abs(ar_cents), invoice_number or "")] *)
Definition group_before (x y : DupGroup) : bool :=
  (Z.abs (du_ar_cents y) <? Z.abs (du_ar_cents x)) ||
  ((Z.abs (du_ar_cents y) =? Z.abs (du_ar_cents x)) &&
   code_le (default "" (du_invoice_number x)) (default "" (du_invoice_number y))).

(** The live drift of an invoice: its ledger AR less what the row owes. *)
Definition invoice_drift (u : uuid) (d : Db) : result Z :=
  match get_invoice u d with
  | None => Err AttributeError
  | Some inv =>
      let! owed := expected_cents inv in
      Ok (invoice_ar_balance_cents inv d - owed)
  end.

Definition drift_holds (drift ar_cents : Z) : bool :=
  Bool.eqb (0 <? drift) (0 <? ar_cents) && (Z.abs ar_cents <=? Z.abs drift).

(** The second pass: [unclaimed] maps an invoice to the drift no group has
    claimed yet. *)
Fixpoint claim_rows (d : Db) (unclaimed : gmap uuid Z) (groups : list DupGroup) : result (list DupRow) :=
  match groups with
  | [] => Ok []
  | g :: groups' =>
      let hold why drift := mk_dup_row g false (Some why) drift in
      if du_ar_cents g =? 0
      then let! rest := claim_rows d unclaimed groups' in Ok (hold HoldsNoAr None :: rest)
      else match du_invoice_id g with
      | None => let! rest := claim_rows d unclaimed groups' in Ok (hold NoInvoice None :: rest)
      | Some u =>
          if du_later_entry_matches g
          then let! rest := claim_rows d unclaimed groups' in Ok (hold LaterAnchorMatches None :: rest)
          else
            let! drift := (match unclaimed !! u with Some x => Ok x | None => invoice_drift u d end) in
            if drift_holds drift (du_ar_cents g)
            then let! rest := claim_rows d (<[u := drift - du_ar_cents g]> unclaimed) groups' in
                 Ok (mk_dup_row g true None (Some drift) :: rest)
            else let! rest := claim_rows d (<[u := drift]> unclaimed) groups' in
                 Ok (hold DriftDoesNotHold (Some drift) :: rest)
      end
  end.

Definition duplicate_one_shot_entries (company_id : string) (d : Db) : result (list DupRow) :=
  let! out := rmap (dup_group company_id d) (one_shot_groups d) in
  claim_rows d ∅ (stable_sort group_before (omap id out)).

(** * Reversing *)

Record RepairResult : Type := mk_repair {
  rp_posted : Z; rp_skipped : Z; rp_entries_created : Z;
  rp_locked : list DupRow; rp_refused : list DupRow;
  rp_rows : list (DupRow * list GlJournalEntry)
}.

(** [select(func.max(GlPeriodLock.lock_date))], over every company. *)
Definition max_lock_all (d : Db) : option date :=
  foldr (fun l acc => match acc with
                      | None => Some (lk_lock_date l)
                      | Some m => Some (Z.max (lk_lock_date l) m)
                      end) None (gl_locks (db_gl d)).

Definition is_blocked (lock_date effective_at : option date) (dup : GlJournalEntry) : bool :=
  match lock_date with
  | Some lock => default (je_effective_at dup) effective_at <=? lock
  | None => false
  end.

Definition repair_group (lock_date : option date) (actor : string) (effective_at : option date)
    (result_ : RepairResult) (row : DupRow) : M Db RepairResult :=
  let duplicates := du_duplicates (dp_group row) in
  if negb (dp_reversible row)
  then mreturn (mk_repair (rp_posted result_) (rp_skipped result_ + 1) (rp_entries_created result_)
                  (rp_locked result_) (rp_refused result_ ++ [row]) (rp_rows result_))
  else if existsb (is_blocked lock_date effective_at) duplicates
  then mreturn (mk_repair (rp_posted result_) (rp_skipped result_) (rp_entries_created result_)
                  (rp_locked result_ ++ [row]) (rp_refused result_) (rp_rows result_))
  else
    reversals <- mmap (fun dup => reverse_entry (je_id dup) effective_at (Some actor) false) duplicates ;;
    mreturn (mk_repair (rp_posted result_ + 1) (rp_skipped result_)
               (rp_entries_created result_ + Z.of_nat (length reversals))
               (rp_locked result_) (rp_refused result_) (rp_rows result_ ++ [(row, reversals)])).

Definition reverse_duplicate_one_shot_entries (company_id actor : string) (effective_at : option date)
  : M Db RepairResult :=
  if String.eqb (str_strip actor) "" then mraise ValueError
  else
    lock_date <- mreads max_lock_all ;;
    rows <- (fun d => (duplicate_one_shot_entries company_id d, d)) ;;
    mfold (repair_group lock_date actor effective_at) (mk_repair 0 0 0 [] [] []) rows.

(** * Lemmas: the groups *)

Definition members (g : DupGroup) : list GlJournalEntry := du_keeper g :: du_duplicates g.

Lemma group_add_perm k e groups :
  Permutation (concat (map snd (group_add k e groups))) (e :: concat (map snd groups)).
Proof.
  induction groups as [|[k' es] groups IH]; [done|]. cbn [group_add]. case_decide; cbn [map snd concat].
  - rewrite <- app_assoc. cbn [app]. by rewrite <- Permutation_middle.
  - rewrite IH. by rewrite <- Permutation_middle.
Qed.

Definition keyed (groups : list (group_key * list GlJournalEntry)) : Prop :=
  forall k es e, (k, es) ∈ groups -> e ∈ es -> one_shot_key e = Some k.

Lemma group_add_keyed k e groups :
  one_shot_key e = Some k -> keyed groups -> keyed (group_add k e groups).
Proof.
  intros Hk. induction groups as [|[k' es] groups IH]; intros H; cbn [group_add].
  - intros k1 es1 e1 [= -> ->]%list_elem_of_singleton ->%list_elem_of_singleton. done.
  - assert (keyed groups) as Hg by (intros k1 es1 e1 H1; apply (H k1 es1 e1); by right).
    case_decide as E; intros k1 es1 e1 [[= -> ->]|H1]%elem_of_cons He1; subst.
    + apply elem_of_app in He1 as [He1| ->%list_elem_of_singleton]; [|done]. eapply H; [by left|done].
    + by eapply Hg.
    + eapply H; [by left|done].
    + by eapply IH.
Qed.

Lemma one_shot_groups_spec d :
  ledger_ok d ->
  keyed (one_shot_groups d) /\
  NoDup (map je_id (concat (map snd (one_shot_groups d)))) /\
  forall e, e ∈ concat (map snd (one_shot_groups d)) -> e ∈ gl_entries (db_gl d) /\ je_status e = posted.
Proof.
  intros Hok. unfold one_shot_groups.
  set (live := List.filter _ _). set (sorted := stable_sort _ live).
  assert (Permutation sorted live) as Hp by apply stable_sort_perm.
  assert (NoDup (map je_id sorted)) as Hnd.
  { rewrite (Permutation_map _ Hp). subst live. clear -Hok. pose proof (lo_ids d Hok) as H.
    induction (gl_entries (db_gl d)) as [|x l IH]; [done|]. cbn in H. apply NoDup_cons in H as [Hx H].
    cbn [List.filter]. case_match; [|auto]. cbn. apply NoDup_cons. split; [|auto].
    intros (y & E & Hy)%list_elem_of_fmap. apply Hx. rewrite E. apply list_elem_of_fmap_2.
    by apply elem_of_filter_b in Hy as [? _]. }
  assert (forall e, e ∈ sorted -> e ∈ gl_entries (db_gl d) /\ je_status e = posted) as Hin.
  { intros e He. rewrite Hp in He. apply elem_of_filter_b in He as [He H]. split; [done|].
    apply andb_prop in H as [H _]. by apply bool_decide_eq_true in H. }
  clearbody sorted. clear live Hp Hok.
  set (f := fun groups entry => _).
  assert (forall groups, keyed groups -> NoDup (map je_id (concat (map snd groups) ++ sorted)) ->
    keyed (foldl f groups sorted) /\ NoDup (map je_id (concat (map snd (foldl f groups sorted)))) /\
    forall e, e ∈ concat (map snd (foldl f groups sorted)) -> e ∈ concat (map snd groups) \/ e ∈ sorted) as Hloop.
  { clear Hnd Hin. induction sorted as [|x sorted IH]; intros groups Hk Hnd; cbn [foldl].
    { rewrite app_nil_r in Hnd. split_and!; [done|done|auto]. }
    assert (NoDup (map je_id (concat (map snd groups) ++ sorted))) as Hnd'.
    { revert Hnd. rewrite !map_app. cbn [map]. rewrite <- Permutation_middle. by intros [_ ?]%NoDup_cons. }
    unfold f at 2 4 6. destruct (one_shot_key x) as [k|] eqn:Ek.
    - destruct (IH (group_add k x groups)) as (H1 & H2 & H3); [by apply group_add_keyed| |].
      { rewrite map_app, (Permutation_map _ (group_add_perm k x groups)). cbn [map app].
        rewrite map_app in Hnd. cbn [map] in Hnd. rewrite <- Permutation_middle in Hnd. done. }
      split_and!; [done|done|]. intros e He. destruct (H3 e He) as [He'|He'].
      + rewrite (group_add_perm k x groups) in He'. apply elem_of_cons in He' as [->|]; [right; left|by left].
      + right. by right.
    - destruct (IH groups Hk Hnd') as (H1 & H2 & H3). split_and!; [done|done|].
      intros e He. destruct (H3 e He); [by left|right; by right]. }
  destruct (Hloop [] ltac:(by intros ? ? ? ?%elem_of_nil) Hnd) as (H1 & H2 & H3).
  split_and!; [done|done|]. intros e He. destruct (H3 e He) as [[]%elem_of_nil|]; auto.
Qed.

(** A group as the scan builds it. *)
Record group_ok (d : Db) (g : DupGroup) : Prop := {
  go_members : forall e, e ∈ members g -> e ∈ gl_entries (db_gl d) /\ je_status e = posted /\
    one_shot_key e = Some (du_source_type g, du_source_id g, du_event g);
  go_invoice : du_invoice_id g = source_invoice_id (du_source_type g) (du_source_id g) d;
  go_ar : du_ar_cents g = zsum_of (fun x => entry_ar_cents x d) (du_duplicates g)
}.

Lemma dup_group_ok c d k es g :
  (forall e, e ∈ es -> e ∈ gl_entries (db_gl d) /\ je_status e = posted /\ one_shot_key e = Some k) ->
  dup_group c d (k, es) = Ok (Some g) -> group_ok d g /\ members g = es.
Proof.
  destruct k as [[st si] ev]. intros Hes H. unfold dup_group in H. destruct es as [|keeper [|x dups]]; [done..|].
  minv H. split; [|done]. split; [|done..]. intros e He. by apply Hes.
Qed.

Lemma dup_groups_ok c d groups out :
  ledger_ok d -> keyed groups ->
  (forall e, e ∈ concat (map snd groups) -> e ∈ gl_entries (db_gl d) /\ je_status e = posted) ->
  NoDup (map je_id (concat (map snd groups))) ->
  rmap (dup_group c d) groups = Ok out ->
  Forall (group_ok d) (omap id out) /\ NoDup (map je_id (concat (map members (omap id out)))) /\
  (forall u, u ∈ map je_id (concat (map members (omap id out))) -> u ∈ map je_id (concat (map snd groups))).
Proof.
  intros Hok. revert out. induction groups as [|[k es] groups IH]; intros out Hk Hin Hnd H; cbn [rmap] in H; minv H.
  { split_and!; [constructor|constructor|done]. }
  rename a into o, a0 into out.
  assert (keyed groups) as Hk' by (intros k1 es1 e1 Hx; apply (Hk k1 es1 e1); by right).
  cbn [map snd concat] in *. rewrite map_app in Hnd. apply NoDup_app in Hnd as (Hnd1 & Hdis & Hnd2).
  destruct (IH out Hk') as (F & N & S); [|done..|].
  { intros e He. apply Hin. apply elem_of_app. by right. }
  destruct o as [g|]; cbn [omap list_omap id].
  - assert (group_ok d g /\ members g = es) as [Hg Em].
    { apply (dup_group_ok c d k); [|done]. intros e He.
      destruct (Hin e) as [? ?]; [apply elem_of_app; by left|]. split_and!; [done..|]. eapply Hk; [by left|done]. }
    cbn [map concat]. rewrite Em, !map_app. split_and!; [by constructor| |].
    + apply NoDup_app. split_and!; [done| |done]. intros u Hu Hu'. apply (Hdis u Hu). by apply S.
    + intros u. rewrite !elem_of_app. intros [?|?]; [by left|right; by apply S].
  - split_and!; [done|done|]. intros u Hu. rewrite map_app. apply elem_of_app. right. by apply S.
Qed.

(** What the scan reports, group by group. *)
Lemma concat_members_perm (l l' : list DupGroup) :
  Permutation l l' -> Permutation (concat (map members l)) (concat (map members l')).
Proof. intros H. rewrite <- !flat_map_concat_map. by apply Permutation_flat_map. Qed.

Lemma claim_rows_groups d m groups rows : claim_rows d m groups = Ok rows -> map dp_group rows = groups.
Proof.
  revert m rows. induction groups as [|g groups IH]; intros m rows H; cbn [claim_rows] in H; minv H; [done|].
  cbv zeta in H. case_match; [minv H; cbn; f_equal; by eapply IH|].
  destruct (du_invoice_id g); [|minv H; cbn; f_equal; by eapply IH].
  case_match; [minv H; cbn; f_equal; by eapply IH|]. minv H.
  case_match; minv H; cbn; f_equal; by eapply IH.
Qed.

Lemma scan_ok c d rows :
  ledger_ok d -> duplicate_one_shot_entries c d = Ok rows ->
  Forall (fun r => group_ok d (dp_group r)) rows /\
  NoDup (map je_id (concat (map (fun r => members (dp_group r)) rows))).
Proof.
  intros Hok H. unfold duplicate_one_shot_entries in H. minv H. rename a into out.
  destruct (one_shot_groups_spec d Hok) as (Hk & Hnd & Hin).
  destruct (dup_groups_ok c d _ out Hok Hk Hin Hnd H0) as (F & N & _).
  pose proof (claim_rows_groups _ _ _ _ H) as Eg.
  pose proof (stable_sort_perm group_before (omap id out)) as Hp. rewrite <- Eg in Hp.
  split.
  - apply Forall_forall. intros r Hr. rewrite Forall_forall in F. apply F. rewrite <- Hp.
    by apply list_elem_of_fmap_2.
  - rewrite <- (map_map dp_group members). by rewrite (Permutation_map je_id (concat_members_perm _ _ Hp)).
Qed.

(** * Lemmas: claims stay within the drift *)

Definition claims (u : uuid) (r : DupRow) : bool :=
  dp_reversible r && bool_decide (du_invoice_id (dp_group r) = Some u).

Definition row_ar (r : DupRow) : Z := du_ar_cents (dp_group r).

(** The claims of one side never exceed the drift on that side. *)
Definition within (b : Z) (rows : list DupRow) : Prop :=
  (0 <= b -> Forall (fun r => 0 < row_ar r) rows /\ zsum_of row_ar rows <= b) /\
  (b <= 0 -> Forall (fun r => row_ar r < 0) rows /\ b <= zsum_of row_ar rows).

Lemma drift_holds_spec drift ar :
  ar <> 0 -> drift_holds drift ar = true ->
  (0 < ar <= drift) \/ (drift <= ar < 0).
Proof.
  unfold drift_holds. intros Hne [H1%eqb_prop H2%Z.leb_le]%andb_prop.
  destruct (Z.ltb_spec 0 drift), (Z.ltb_spec 0 ar); try discriminate; lia.
Qed.

Lemma claim_rows_within d u m groups rows b :
  claim_rows d m groups = Ok rows ->
  match m !! u with Some x => Ok x | None => invoice_drift u d end = Ok b ->
  within b (List.filter (claims u) rows).
Proof.
  revert m rows b. induction groups as [|g groups IH]; intros m rows b H Hb; cbn [claim_rows] in H; minv H.
  { split; intros; (split; [constructor|cbn; lia]). }
  cbv zeta in H. destruct (Z.eqb_spec (du_ar_cents g) 0) as [E0|E0]; [minv H; cbn; by eapply IH|].
  destruct (du_invoice_id g) as [v|] eqn:Ei; [|minv H; cbn; by eapply IH].
  destruct (du_later_entry_matches g); [minv H; cbn; by eapply IH|].
  apply rbind_Ok in H as (drift & Hd & H).
  destruct (decide (v = u)) as [->|Hne].
  - assert (drift = b) as -> by congruence.
    destruct (drift_holds b (du_ar_cents g)) eqn:Ed; apply rbind_Ok in H as (rest & Hrest & [= <-]); cbn [List.filter]; unfold claims at 1;
      cbn [dp_reversible dp_group andb].
    + rewrite Ei, bool_decide_true by done.
      specialize (IH _ _ (b - du_ar_cents g) Hrest). rewrite lookup_insert_eq in IH. specialize (IH eq_refl).
      destruct (drift_holds_spec _ _ E0 Ed) as [Hs|Hs]; destruct IH as [I1 I2]; (split; intros Hsgn; try lia).
      * destruct (I1 ltac:(lia)). split; [constructor; [unfold row_ar; cbn [dp_group]; lia|done]|cbn [map zsum]; unfold row_ar at 1; cbn [dp_group]; lia].
      * destruct (I2 ltac:(lia)). split; [constructor; [unfold row_ar; cbn [dp_group]; lia|done]|cbn [map zsum]; unfold row_ar at 1; cbn [dp_group]; lia].
    + eapply IH; [done|]. by rewrite lookup_insert_eq.
  - destruct (drift_holds drift (du_ar_cents g)); apply rbind_Ok in H as (rest & Hrest & [= <-]);
      cbn [List.filter]; unfold claims at 1;
      cbn [dp_reversible dp_group andb].
    + rewrite Ei, bool_decide_false by congruence. eapply IH; [done|]. by rewrite lookup_insert_ne.
    + eapply IH; [done|]. by rewrite lookup_insert_ne.
Qed.

(** A part of the claims stays within the drift too. *)
Lemma zsum_filter_pos {A} (f : A -> Z) (p : A -> bool) l :
  Forall (fun x => 0 < f x) l -> 0 <= zsum_of f (List.filter p l) <= zsum_of f l.
Proof. induction 1 as [|x l Hx _ IH]; cbn; [lia|]. destruct (p x); cbn; lia. Qed.

Lemma Forall_filter_b {A} (P : A -> Prop) (p : A -> bool) l : Forall P l -> Forall P (List.filter p l).
Proof. induction 1 as [|x l Hx _ IH]; cbn; [constructor|]. destruct (p x); [by constructor|done]. Qed.

Lemma within_filter b p rows : within b rows -> within b (List.filter p rows).
Proof.
  intros [H1 H2]. split; intros Hb; [destruct (H1 Hb) as [F S]|destruct (H2 Hb) as [F S]];
    (split; [by apply Forall_filter_b|]).
  - pose proof (zsum_filter_pos row_ar p rows F). lia.
  - pose proof (zsum_filter_pos (fun r => - row_ar r) p rows) as Hz. rewrite !zsum_of_opp in Hz.
    assert (Forall (fun r => 0 < - row_ar r) rows) as F' by (eapply Forall_impl; [exact F|]; cbn; lia).
    specialize (Hz F'). lia.
Qed.

(** * Lemmas: what reversing does to the receivable *)

Lemma find_map_same {A} (p : A -> bool) (f : A -> A) l :
  (forall x, p (f x) = p x) -> List.find p (map f l) = option_map f (List.find p l).
Proof. intros H. induction l as [|x l IH]; cbn; [done|]. rewrite H. by destruct (p x). Qed.

Lemma ar_role_lines_marked o r d : ar_role_lines (after_reversal o r d) = ar_role_lines d.
Proof.
  unfold ar_role_lines, after_reversal. cbn [db_gl set_gl set_entries gl_lines gl_accounts].
  apply list_omap_ext, Forall_Forall2_diag, Forall_forall. intros l _.
  assert (has_role ROLE_AR (jl_account_id l) (set_gl (set_entries (update_where
    (fun e => N.eqb (je_id e) (je_id o)) (mark_reversed (je_id r)))) d) = has_role ROLE_AR (jl_account_id l) d)
    as -> by reflexivity.
  case_match; [|done]. unfold get_entry. cbn [db_gl set_gl set_entries gl_entries]. unfold update_where.
  rewrite find_map_same; [|intros x; by case_match].
  destruct (List.find _ _) as [x|]; [|done]. cbn. by case_match.
Qed.

(** The AR an entry contributes to an invoice. *)
Definition share (inv : Invoice) (d : Db) (o : GlJournalEntry) : Z :=
  if source_of_invoice inv d (je_source_type o) (je_source_id o) then entry_ar_cents o d else 0.

Lemma mirrored_ar (inv : Invoice) d0 d o no :
  zsum (map snd (List.filter (fun x => source_of_invoice inv d0 (fst (fst x)) (snd (fst x)))
    (omap (fun la => if has_role ROLE_AR (snd la) d
                     then Some (je_source_type o, je_source_id o, pl_amount_cents (fst la)) else None)
       (map (mirror_line no) (entry_lines (je_id o) d))))) =
  - (if source_of_invoice inv d0 (je_source_type o) (je_source_id o) then entry_ar_cents o d else 0).
Proof.
  unfold entry_ar_cents. induction (entry_lines (je_id o) d) as [|l ls IH]; cbn [map omap list_omap].
  { by destruct (source_of_invoice _ _ _ _). }
  unfold mirror_line at 1 2. cbn [snd fst pl_amount_cents]. cbn [List.filter].
  destruct (has_role ROLE_AR (jl_account_id l) d); [|exact IH]. cbn [List.filter fst snd].
  destruct (source_of_invoice inv d0 (je_source_type o) (je_source_id o)); [|exact IH].
  cbn [map zsum snd]. rewrite IH. lia.
Qed.

(** The effect of reversing the entries of [l]. *)
Record reversed_all (l : list GlJournalEntry) (d d' : Db) : Prop := {
  ra_ok : ledger_ok d';
  ra_ops : db_ops d' = db_ops d;
  ra_locks : gl_locks (db_gl d') = gl_locks (db_gl d);
  ra_balance : forall inv, invoice_ar_balance_cents inv d' =
    invoice_ar_balance_cents inv d - zsum_of (share inv d) l;
  ra_ids : forall u, u ∈ map je_id (gl_entries (db_gl d)) -> u ∈ map je_id (gl_entries (db_gl d'));
  ra_share : forall inv x, je_id x ∈ map je_id (gl_entries (db_gl d)) -> share inv d' x = share inv d x;
  ra_others : forall x, x ∈ gl_entries (db_gl d) -> je_id x ∉ map je_id l -> x ∈ gl_entries (db_gl d');
  ra_marked : forall x, x ∈ l -> exists r, mark_reversed r x ∈ gl_entries (db_gl d')
}.

Lemma source_of_invoice_ops inv d d' st si :
  db_ops d' = db_ops d -> source_of_invoice inv d' st si = source_of_invoice inv d st si.
Proof. intros E. unfold source_of_invoice, invoice_payments, invoice_adjustments. by rewrite E. Qed.

Lemma reverse_one o w cb d r d' :
  ledger_ok d -> o ∈ gl_entries (db_gl d) -> je_status o = posted ->
  reverse_entry (je_id o) w cb false d = (Ok r, d') -> supply_ok d' ->
  reversed_all [o] d d'.
Proof.
  intros Hok Ho Hs Hrev Hsup.
  pose proof (reverse_live d o w cb false Hok Ho Hs) as Hout. cbn zeta in Hout.
  destruct (_ && negb false); [congruence|].
  destruct Hout as (d2 & r' & d3 & Hrev' & Hpass & Hin). rewrite Hrev in Hrev'. injection Hrev' as <- ->.
  destruct Hpass as [[_ ->]|(_ & [=] & _)].
  assert (ledger_ok (after_reversal o r d3)) as Hok' by (eapply after_reversal_ok; eauto using inserted_uuid_ok).
  pose proof (after_reversal_elem _ _ _ _ _ _ Hok Ho Hin) as Hel.
  pose proof (inserted_id_new _ _ _ _ _ _ _ _ _ _ _ Hok Hin) as Hnew.
  pose proof (in_ops _ _ _ _ _ _ _ _ _ _ _ Hin) as Hops.
  assert (append_only d (after_reversal o r d3)) as Hao by (eapply after_reversal_append; eauto).
  split; [done|done|apply (in_locks _ _ _ _ _ _ _ _ _ _ _ Hin)|..].
  - intros inv. unfold invoice_ar_balance_cents. rewrite ar_role_lines_marked.
    rewrite (ar_role_lines_inserted _ _ _ _ _ _ _ _ d d r d3 Hok (reflexivity d) eq_refl Hin).
    rewrite List.filter_app, map_app, zsum_app. cbn [map zsum].
    rewrite (List.filter_ext _ (fun x => source_of_invoice inv d (fst (fst x)) (snd (fst x))))
      by (intros x; by apply source_of_invoice_ops).
    rewrite (List.filter_ext (fun x => source_of_invoice inv (after_reversal o r d3) _ _)
      (fun x => source_of_invoice inv d (fst (fst x)) (snd (fst x))))
      by (intros x; by apply source_of_invoice_ops).
    rewrite mirrored_ar. unfold share. lia.
  - intros u (x & -> & Hx)%list_elem_of_fmap. destruct (append_only_elem _ _ _ Hao Hx) as (y & Hy & E%entry_kept_id).
    rewrite <- E. by apply list_elem_of_fmap_2.
  - intros inv x (y & E & Hy)%list_elem_of_fmap. unfold share. rewrite (source_of_invoice_ops inv d) by done.
    case_match; [|done]. unfold entry_ar_cents. rewrite E, (ao_lines _ _ Hao y Hy). f_equal. f_equal. apply List.filter_ext. intros l.
    unfold has_role. cbn. by rewrite (in_accounts _ _ _ _ _ _ _ _ _ _ _ Hin).
  - intros x Hx Hne. apply Hel. right. left. split; [done|]. intros E. apply Hne. rewrite E. apply list_elem_of_here.
  - intros x ->%list_elem_of_singleton. exists (je_id r). apply Hel. auto.
Qed.

Lemma reversed_all_nil d : ledger_ok d -> reversed_all [] d d.
Proof.
  intros Hok. split; try done; [intros inv; cbn; lia|]. intros x Hx. by apply elem_of_nil in Hx.
Qed.

Lemma reversed_all_app l1 l2 d d1 d2 :
  reversed_all l1 d d1 -> reversed_all l2 d1 d2 ->
  (forall x, x ∈ l2 -> x ∈ gl_entries (db_gl d)) ->
  (forall u, u ∈ map je_id l1 -> u ∉ map je_id l2) ->
  reversed_all (l1 ++ l2) d d2.
Proof.
  intros [A1 A2 A3 A4 AI A5 A6 A7] [B1 B2 B3 B4 BI B5 B6 B7] Hl2 Hdis.
  split; [done|congruence|congruence|..].
  - intros inv. rewrite B4, A4, map_app, zsum_app.
    rewrite (zsum_of_ext (share inv d1) (share inv d)); [lia|].
    intros x Hx. apply A5, list_elem_of_fmap_2, Hl2, Hx.
  - auto.
  - intros inv x Hx. rewrite B5 by auto. by apply A5.
  - intros x Hx. rewrite map_app, elem_of_app. intros Hn. apply B6; [apply A6|]; tauto.
  - intros x [Hx|Hx]%elem_of_app; [|by apply B7]. destruct (A7 x Hx) as [r Hr]. exists r. apply B6; [done|].
    cbn. by apply Hdis, list_elem_of_fmap_2.
Qed.

Section Loops.
Context `{WO : WorldOk}.
Context (lock : option date) (actor : string) (w : option date).

Let reverse_dup (dup : GlJournalEntry) : M Db GlJournalEntry := reverse_entry (je_id dup) w (Some actor) false.

Lemma reverse_list l d rs d' :
  ledger_ok d -> (forall x, x ∈ l -> x ∈ gl_entries (db_gl d) /\ je_status x = posted) ->
  NoDup (map je_id l) -> mmap reverse_dup l d = (Ok rs, d') -> supply_ok d' ->
  reversed_all l d d'.
Proof using WO.
  revert d rs. induction l as [|x l IH]; intros d rs Hok Hl Hnd H Hs; cbn [mmap] in H.
  { unfold mreturn in H. injection H as <- <-. by apply reversed_all_nil. }
  apply mseq_Ok in H as (r & d1 & Hx & H). apply mseq_Ok in H as (rs' & d2 & Hrest & H).
  unfold mreturn in H. injection H as <- ->.
  apply NoDup_cons in Hnd as [Hxl Hnd]. destruct (Hl x (list_elem_of_here _ _)) as [Hxin Hxp].
  assert (supply_ok d1) as Hs1.
  { assert (keeps rely (mmap reverse_dup l)) as Hk by (apply keeps_map; [exact _|]; intros y; apply lr_reverse).
    specialize (Hk d1). rewrite Hrest in Hk. pose proof (rely_uuid _ _ Hk). unfold supply_ok in *. cbn in *. lia. }
  pose proof (reverse_one x w (Some actor) d r d1 Hok Hxin Hxp Hx Hs1) as H1.
  assert (forall y, y ∈ l -> y ∈ gl_entries (db_gl d1) /\ je_status y = posted) as Hl1.
  { intros y Hy. destruct (Hl y (list_elem_of_further _ _ _ Hy)) as [Hyin Hyp]. split; [|done].
    apply (ra_others _ _ _ H1); [done|]. cbn. intros E%list_elem_of_singleton. apply Hxl. rewrite <- E.
    by apply list_elem_of_fmap_2. }
  pose proof (IH d1 rs' (ra_ok _ _ _ H1) Hl1 Hnd Hrest Hs) as H2.
  apply (reversed_all_app [x] l d d1 d' H1 H2).
  - intros y Hy. apply Hl. by apply list_elem_of_further.
  - cbn. intros u ->%list_elem_of_singleton. exact Hxl.
Qed.

(** The rows the loop reverses. *)
Definition repaired (row : DupRow) : bool :=
  dp_reversible row && negb (existsb (is_blocked lock w) (du_duplicates (dp_group row))).

Definition row_duplicates (row : DupRow) : list GlJournalEntry := du_duplicates (dp_group row).

Lemma repair_loop rows acc d acc' d' :
  ledger_ok d ->
  (forall x, x ∈ concat (map row_duplicates rows) -> x ∈ gl_entries (db_gl d) /\ je_status x = posted) ->
  NoDup (map je_id (concat (map row_duplicates rows))) ->
  mfold (repair_group lock actor w) acc rows d = (Ok acc', d') -> supply_ok d' ->
  map fst (rp_rows acc') = map fst (rp_rows acc) ++ List.filter repaired rows /\
  reversed_all (concat (map row_duplicates (List.filter repaired rows))) d d'.
Proof using WO.
  revert acc d. induction rows as [|row rows IH]; intros acc d Hok Hin Hnd H Hs; cbn [mfold] in H.
  { unfold mreturn in H. injection H as <- <-. cbn. rewrite app_nil_r. split; [done|]. by apply reversed_all_nil. }
  apply mseq_Ok in H as (acc1 & d1 & Hrow & H). cbn [map concat] in Hin, Hnd. rewrite map_app in Hnd.
  apply NoDup_app in Hnd as (Hnd1 & Hdis & Hnd2).
  assert (forall x, x ∈ concat (map row_duplicates rows) -> x ∈ gl_entries (db_gl d) /\ je_status x = posted) as Hin2
    by (intros x Hx; apply Hin, elem_of_app; by right).
  unfold repair_group in Hrow. cbn [List.filter].
  assert (repaired row = dp_reversible row && negb (existsb (is_blocked lock w) (du_duplicates (dp_group row))))
    as -> by reflexivity.
  destruct (dp_reversible row); cbn [negb andb] in *; [|unfold mreturn in Hrow; injection Hrow as <- <-; exact (IH _ _ Hok Hin2 Hnd2 H Hs)].
  destruct (existsb _ _); cbn [negb] in *; [unfold mreturn in Hrow; injection Hrow as <- <-; exact (IH _ _ Hok Hin2 Hnd2 H Hs)|].
  apply mseq_Ok in Hrow as (rs & d2 & Hrev & Hrow). unfold mreturn in Hrow. injection Hrow as <- ->.
  assert (supply_ok d1) as Hs1.
  { assert (keeps rely (mfold (repair_group lock actor w) (mk_repair (rp_posted acc + 1) (rp_skipped acc)
      (rp_entries_created acc + Z.of_nat (length rs)) (rp_locked acc) (rp_refused acc)
      (rp_rows acc ++ [(row, rs)])) rows)) as Hk.
    { apply keeps_fold; [exact _|]. intros b x. unfold repair_group. do 2 (case_if; [apply keeps_return, _|]).
      apply keeps_seq; [exact _|apply keeps_map; [exact _|]; intros y; apply lr_reverse|].
      intros ?. apply keeps_return, _. }
    specialize (Hk d1). rewrite H in Hk. pose proof (rely_uuid _ _ Hk). unfold supply_ok in *. cbn in *. lia. }
  assert (reversed_all (row_duplicates row) d d1) as H1.
  { eapply reverse_list; [done| |done|exact Hrev|done]. intros x Hx. apply Hin, elem_of_app. by left. }
  assert (forall x, x ∈ concat (map row_duplicates rows) -> x ∈ gl_entries (db_gl d1) /\ je_status x = posted) as Hin3.
  { intros x Hx. destruct (Hin2 x Hx) as [Hxi Hxp]. split; [|done]. apply (ra_others _ _ _ H1); [done|].
    intros Hx'. apply (Hdis _ Hx'). by apply list_elem_of_fmap_2. }
  destruct (IH _ _ (ra_ok _ _ _ H1) Hin3 Hnd2 H Hs) as [E1 E2].
  assert (forall x, x ∈ concat (map row_duplicates (List.filter repaired rows)) ->
    x ∈ concat (map row_duplicates rows)) as Hsub.
  { intros x. rewrite <- !flat_map_concat_map. rewrite !list_elem_of_In, !in_flat_map.
    intros (y & [Hy _]%List.filter_In & Hx). eauto. }
  split.
  - rewrite E1. cbn [rp_rows]. by rewrite map_app, <- app_assoc.
  - cbn [map concat]. apply (reversed_all_app _ _ _ d1); [done|done| |].
    + intros x Hx. by apply Hin2, Hsub.
    + intros u Hu (x & -> & Hx)%list_elem_of_fmap. apply (Hdis _ Hu), list_elem_of_fmap_2, Hsub, Hx.
Qed.
End Loops.

(** * Lemmas: a source row belongs to one invoice *)

Lemma one_shot_key_Some e st si ev :
  one_shot_key e = Some (st, si, ev) ->
  je_source_type e = Some st /\ je_source_id e = Some si /\ (st, ev) ∈ ONE_SHOT_EVENTS.
Proof.
  unfold one_shot_key. repeat case_match; intros; simplify_eq.
  match goal with H : _ && _ && _ = true |- _ => apply andb_prop in H as [_ H%bool_decide_eq_true] end. done.
Qed.

(** Rows have distinct, well-formed identifiers, and one-shot entries carry
    their source's identifier in its canonical text. *)
Record rows_ok (d : Db) : Prop := {
  rw_invoices : forall i, i ∈ op_invoices (db_ops d) -> uuid_ok (inv_id i);
  rw_invoices_nd : NoDup (map inv_id (op_invoices (db_ops d)));
  rw_payments : forall p, p ∈ op_payments (db_ops d) -> uuid_ok (pay_id p);
  rw_payments_nd : NoDup (map pay_id (op_payments (db_ops d)));
  rw_adjustments : forall a, a ∈ op_adjustments (db_ops d) -> uuid_ok (adj_id a);
  rw_adjustments_nd : NoDup (map adj_id (op_adjustments (db_ops d)));
  rw_sources : forall e st si ev, e ∈ gl_entries (db_gl d) -> one_shot_key e = Some (st, si, ev) ->
    exists u, uuid_ok u /\ si = str_uuid u
}.

Lemma opt_eqb_refl (x : option string) : opt_eqb x x = true.
Proof. unfold opt_eqb. by apply bool_decide_true. Qed.

Lemma opt_eqb_ne (x y : option string) : x <> y -> opt_eqb x y = false.
Proof. intros H. unfold opt_eqb. by apply bool_decide_false. Qed.

Lemma find_by_id {A} (key : A -> uuid) (owner : A -> uuid) (l : list A) sid i :
  (forall x, x ∈ l -> uuid_ok (key x)) -> NoDup (map key l) -> uuid_ok sid ->
  existsb (fun x => opt_eqb (Some (str_uuid sid)) (Some (str_uuid (key x))))
    (List.filter (fun x => N.eqb (owner x) i) l) =
  bool_decide (option_map owner (List.find (fun x => N.eqb (key x) sid) l) = Some i).
Proof.
  intros Hu Hnd Hs. induction l as [|x l IH]; [done|].
  cbn [map] in Hnd. apply NoDup_cons in Hnd as [Hx Hnd].
  specialize (IH (fun y Hy => Hu y (list_elem_of_further _ _ _ Hy)) Hnd).
  cbn [List.filter List.find]. destruct (N.eqb_spec (key x) sid) as [E|E].
  - cbn [option_map]. destruct (N.eqb_spec (owner x) i) as [Eo|Eo].
    + cbn [existsb]. rewrite E, opt_eqb_refl, (bool_decide_true (Some (owner x) = Some i)) by (by rewrite Eo). done.
    + rewrite IH, (bool_decide_false (Some (owner x) = Some i)) by (by intros [= ?]). apply bool_decide_false.
      destruct (List.find _ l) as [y|] eqn:Ey; [|done]. apply find_some_elem in Ey as [Hy Ey%N.eqb_eq].
      exfalso. apply Hx. rewrite E, <- Ey. by apply list_elem_of_fmap_2.
  - assert (opt_eqb (Some (str_uuid sid)) (Some (str_uuid (key x))) = false) as Ef.
    { unfold opt_eqb. apply bool_decide_eq_false. intros Es%(inj Some). apply E. symmetry. refine (str_uuid_inj _ _ Hs _ Es).
      apply Hu, list_elem_of_here. }
    destruct (N.eqb (owner x) i); cbn [existsb]; rewrite ?Ef; exact IH.
Qed.

Lemma source_of_group d g inv :
  rows_ok d -> inv ∈ op_invoices (db_ops d) -> group_ok d g ->
  source_of_invoice inv d (Some (du_source_type g)) (Some (du_source_id g)) =
  bool_decide (du_invoice_id g = Some (inv_id inv)).
Proof.
  intros Hr Hinv Hg. rewrite (go_invoice _ _ Hg).
  destruct (go_members _ _ Hg (du_keeper g)) as (Hin & _ & Hk); [apply list_elem_of_here|].
  destruct (rw_sources _ Hr _ _ _ _ Hin Hk) as (sid & Hsid & ->).
  destruct (one_shot_key_Some _ _ _ _ Hk) as (_ & _ & Hev). clear Hk Hin.
  unfold source_of_invoice, source_invoice_id. rewrite uuid_of_str_uuid by done.
  unfold ONE_SHOT_EVENTS in Hev. repeat rewrite elem_of_cons in Hev.
  destruct Hev as [[= -> _]|[[= -> _]|[[= -> _]|[[= -> _]|[[= -> _]|[]%elem_of_nil]]]]]; cbn [String.eqb Ascii.eqb Bool.eqb];
    rewrite ?(opt_eqb_refl, opt_eqb_ne) by done; cbn [andb orb].
  - rewrite !orb_false_r. unfold opt_eqb. apply bool_decide_ext. split.
    + intros E%(inj Some). f_equal. refine (str_uuid_inj _ _ Hsid _ E). by apply (rw_invoices _ Hr).
    + by intros [= ->].
  - rewrite orb_false_r. apply (find_by_id pay_id pay_invoice_id); [apply (rw_payments _ Hr)|apply (rw_payments_nd _ Hr)|done].
  - apply (find_by_id adj_id adj_invoice_id); [apply (rw_adjustments _ Hr)|apply (rw_adjustments_nd _ Hr)|done].
  - apply (find_by_id adj_id adj_invoice_id); [apply (rw_adjustments _ Hr)|apply (rw_adjustments_nd _ Hr)|done].
  - apply (find_by_id adj_id adj_invoice_id); [apply (rw_adjustments _ Hr)|apply (rw_adjustments_nd _ Hr)|done].
Qed.

(** * Lemmas: the whole repair *)

Lemma members_split (rows : list DupRow) :
  Permutation (concat (map (fun r => members (dp_group r)) rows))
    (map (fun r => du_keeper (dp_group r)) rows ++ concat (map row_duplicates rows)).
Proof.
  induction rows as [|r rows IH]; [done|]. cbn [map concat members app]. constructor. rewrite IH.
  unfold row_duplicates at 2. by rewrite Permutation_app_swap_app.
Qed.

Lemma share_row d row inv :
  rows_ok d -> inv ∈ op_invoices (db_ops d) -> group_ok d (dp_group row) ->
  zsum_of (share inv d) (row_duplicates row) =
  if bool_decide (du_invoice_id (dp_group row) = Some (inv_id inv)) then row_ar row else 0.
Proof.
  intros Hr Hinv Hg. rewrite <- (source_of_group d _ inv Hr Hinv Hg). unfold row_ar. rewrite (go_ar _ _ Hg).
  unfold row_duplicates.
  assert (forall x, x ∈ du_duplicates (dp_group row) -> share inv d x =
    if source_of_invoice inv d (Some (du_source_type (dp_group row))) (Some (du_source_id (dp_group row)))
    then entry_ar_cents x d else 0) as Hx.
  { intros x Hx. destruct (go_members _ _ Hg x) as (_ & _ & Hk); [by right|].
    destruct (one_shot_key_Some _ _ _ _ Hk) as (E1 & E2 & _). unfold share. by rewrite E1, E2. }
  rewrite (zsum_of_ext _ _ _ Hx). destruct (source_of_invoice _ _ _ _); [done|].
  clear. induction (du_duplicates _); cbn; lia.
Qed.

Lemma share_rows d rows inv :
  rows_ok d -> inv ∈ op_invoices (db_ops d) -> Forall (fun r => group_ok d (dp_group r)) rows ->
  Forall (fun r => dp_reversible r = true) rows ->
  zsum_of (share inv d) (concat (map row_duplicates rows)) = zsum_of row_ar (List.filter (claims (inv_id inv)) rows).
Proof.
  intros Hr Hinv Hg Hrev. induction rows as [|row rows IH]; [done|]. cbn [map concat List.filter].
  apply Forall_cons in Hg as [Hg1 Hg]. apply Forall_cons in Hrev as [Hv1 Hrev].
  rewrite map_app, zsum_app, (IH Hg Hrev), (share_row d row inv Hr Hinv Hg1).
  assert (claims (inv_id inv) row = bool_decide (du_invoice_id (dp_group row) = Some (inv_id inv))) as ->
    by (unfold claims; by rewrite Hv1).
  case_bool_decide; cbn [map zsum]; lia.
Qed.

Lemma filter_comm {A} (p q : A -> bool) l : List.filter p (List.filter q l) = List.filter q (List.filter p l).
Proof. induction l as [|x l IH]; [done|]. cbn. destruct (p x) eqn:E1, (q x) eqn:E2; cbn; by rewrite ?E1, ?E2, IH. Qed.

Lemma get_invoice_ids d inv :
  rows_ok d -> inv ∈ op_invoices (db_ops d) -> get_invoice (inv_id inv) d = Some inv.
Proof.
  intros Hr Hinv. unfold get_invoice. destruct (List.find _ _) as [x|] eqn:E.
  - apply find_some_elem in E as [Hx E%N.eqb_eq]. f_equal. by eapply NoDup_map_inj; [apply (rw_invoices_nd _ Hr)|..].
  - apply find_none_elem with (x := inv) in E; [|done]. by rewrite N.eqb_refl in E.
Qed.

Lemma repair_keeps (R : Db -> Db -> Prop) `{World} `{!LedgerRelation R} c actor w :
  keeps R (reverse_duplicate_one_shot_entries c actor w).
Proof.
  unfold reverse_duplicate_one_shot_entries. case_if; [apply keeps_raise, _|].
  apply keeps_seq; [exact _|apply keeps_reads, _|intros lock].
  apply keeps_seq; [exact _|apply pure_keeps, _|intros rows].
  apply keeps_fold; [exact _|]. intros b x. unfold repair_group. do 2 (case_if; [apply keeps_return, _|]).
  apply keeps_seq; [exact _|apply keeps_map; [exact _|]; intros y; apply lr_reverse|].
  intros ?. apply keeps_return, _.
Qed.

Lemma elem_of_concat_map {A B} (f : A -> list B) l x : x ∈ concat (map f l) <-> exists y, y ∈ l /\ x ∈ f y.
Proof.
  rewrite <- flat_map_concat_map, list_elem_of_In, in_flat_map. by setoid_rewrite <- list_elem_of_In.
Qed.

(** A successful run, seen as the rows it found and the ones it reversed. *)
Lemma repair_run `{WO : WorldOk} c actor w d r d' :
  ledger_ok d -> supply_ok d' -> reverse_duplicate_one_shot_entries c actor w d = (Ok r, d') ->
  exists rows, duplicate_one_shot_entries c d = Ok rows /\
    map fst (rp_rows r) = List.filter (repaired (max_lock_all d) w) rows /\
    Forall (fun x => group_ok d (dp_group x)) rows /\
    (forall u, u ∈ map je_id (map (fun x => du_keeper (dp_group x)) rows) ->
       u ∉ map je_id (concat (map row_duplicates rows))) /\
    reversed_all (concat (map row_duplicates (map fst (rp_rows r)))) d d'.
Proof.
  intros Hok Hs Hrun. unfold reverse_duplicate_one_shot_entries in Hrun. case_match; [done|].
  apply mseq_Ok in Hrun as (lock & dx & Hl & Hrun). unfold mreads in Hl. injection Hl as <- <-.
  apply mseq_Ok in Hrun as (rows & dy & Hscan & Hrun). injection Hscan as Hscan <-.
  destruct (scan_ok c d rows Hok Hscan) as [Hg Hnd].
  rewrite (Permutation_map je_id (members_split rows)), map_app in Hnd. apply NoDup_app in Hnd as (_ & Hdis & Hnd).
  rewrite Forall_forall in Hg.
  assert (forall x, x ∈ concat (map row_duplicates rows) -> x ∈ gl_entries (db_gl d) /\ je_status x = posted) as Hin.
  { intros x (row & Hrow & Hx)%elem_of_concat_map. destruct (go_members _ _ (Hg row Hrow) x) as (? & ? & _); [by right|done]. }
  destruct (repair_loop (max_lock_all d) actor w rows _ d r d' Hok Hin Hnd Hrun Hs) as [Er Hall].
  cbn [map rp_rows app] in Er. exists rows. rewrite Er. split_and!; [done|done|by apply Forall_forall|done|done].
Qed.

Lemma repaired_elem lock w rows row :
  row ∈ List.filter (repaired lock w) rows -> row ∈ rows /\ dp_reversible row = true.
Proof. intros [Hrow Hd]%elem_of_filter_b. unfold repaired in Hd. by apply andb_prop in Hd as [? _]. Qed.

Lemma negative_sum {A} (f : A -> Z) l : Forall (fun x => f x < 0) l -> zsum_of f l <= 0.
Proof. induction 1; cbn; lia. Qed.

(** The drift of an invoice after the repair. *)
Lemma repair_drift c w d rows inv before d' :
  rows_ok d -> inv ∈ op_invoices (db_ops d) -> Forall (fun x => group_ok d (dp_group x)) rows ->
  duplicate_one_shot_entries c d = Ok rows -> invoice_drift (inv_id inv) d = Ok before ->
  reversed_all (concat (map row_duplicates (List.filter (repaired (max_lock_all d) w) rows))) d d' ->
  exists after, invoice_drift (inv_id inv) d' = Ok after /\
    (0 <= before -> 0 <= after <= before) /\ (before <= 0 -> before <= after <= 0).
Proof.
  intros Hrows Hinv Hg Hscan Hb Hall. pose proof (get_invoice_ids d inv Hrows Hinv) as Eg.
  unfold duplicate_one_shot_entries in Hscan. apply rbind_Ok in Hscan as (out & _ & Hclaim).
  pose proof (claim_rows_within d (inv_id inv) ∅ _ rows before Hclaim) as Hw. rewrite lookup_empty in Hw.
  specialize (Hw Hb). apply (within_filter _ (repaired (max_lock_all d) w)) in Hw. rewrite filter_comm in Hw.
  assert (get_invoice (inv_id inv) d' = Some inv) as Eg'
    by (unfold get_invoice in *; by rewrite (ra_ops _ _ _ Hall)).
  unfold invoice_drift in *. rewrite Eg in Hb. rewrite Eg'.
  destruct (expected_cents inv) as [owed|]; [|done]. cbn [rbind] in *. injection Hb as <-.
  eexists. split; [reflexivity|]. rewrite (ra_balance _ _ _ Hall).
  rewrite (share_rows d _ inv Hrows Hinv); [|by apply Forall_filter_b|].
  - destruct Hw as [W1 W2]. split; intros Hsg.
    + destruct (W1 Hsg) as [F S]. pose proof (zsum_filter_pos row_ar (fun _ => false) _ F) as Hz.
      rewrite filter_none in Hz by done. cbn in Hz. lia.
    + destruct (W2 Hsg) as [F S]. pose proof (negative_sum row_ar _ F). lia.
  - apply Forall_forall. intros row Hrow. apply (repaired_elem _ _ _ _ Hrow).
Qed.

(** * Properties *)

(** the repair of duplicate one-shot postings is safe.  When it succeeds on
    a sound journal (identifiers of the rows distinct and well formed): the
    journal stays sound and is only appended to; of every group it reverses,
    the earliest entry stays as it was and each duplicate is marked reversed;
    no other entry changes; and the drift of every invoice, what its ledger
    receivable exceeds what it owes by, moves toward zero or stays, and never
    past zero, however many of its groups were reversed. *)
Theorem repair_moves_toward_tie `{WO : WorldOk} company_id actor effective_at d r d'
    (Hok : ledger_ok d) (Hrows : rows_ok d)
    (Hrun : reverse_duplicate_one_shot_entries company_id actor effective_at d = (Ok r, d'))
    (Hs : supply_ok d') :
  ledger_ok d' /\ append_only d d' /\
  (forall row, row ∈ map fst (rp_rows r) ->
     du_keeper (dp_group row) ∈ gl_entries (db_gl d') /\
     forall x, x ∈ du_duplicates (dp_group row) -> exists u, mark_reversed u x ∈ gl_entries (db_gl d')) /\
  (forall x, x ∈ gl_entries (db_gl d) ->
     (forall row, row ∈ map fst (rp_rows r) -> je_id x ∉ map je_id (du_duplicates (dp_group row))) ->
     x ∈ gl_entries (db_gl d')) /\
  (forall inv before, inv ∈ op_invoices (db_ops d) -> invoice_drift (inv_id inv) d = Ok before ->
     exists after, invoice_drift (inv_id inv) d' = Ok after /\
       (0 <= before -> 0 <= after <= before) /\ (before <= 0 -> before <= after <= 0)).
Proof.
  pose proof (repair_keeps rely company_id actor effective_at d) as Hk. rewrite Hrun in Hk.
  destruct (rely_journal _ _ Hk Hs Hok) as [Hok' Hao]. split; [done|]. split; [done|].
  destruct (repair_run company_id actor effective_at d r d' Hok Hs Hrun) as (rows & Hscan & Er & Hg & Hdis & Hall).
  rewrite Er in *. assert (Hg' := Hg). rewrite Forall_forall in Hg'. split_and!.
  - intros row Hrow. destruct (repaired_elem _ _ _ _ Hrow) as [Hr _]. split.
    + apply (ra_others _ _ _ Hall); [apply (go_members _ _ (Hg' row Hr)), list_elem_of_here|].
      intros (y & E & (row2 & Hrow2 & Hy)%elem_of_concat_map)%list_elem_of_fmap.
      apply (Hdis (je_id (du_keeper (dp_group row)))).
      * apply list_elem_of_fmap_2. apply list_elem_of_fmap. by exists row.
      * rewrite E. apply list_elem_of_fmap_2, elem_of_concat_map. exists row2.
        split; [apply (repaired_elem _ _ _ _ Hrow2)|done].
    + intros x Hx. apply (ra_marked _ _ _ Hall), elem_of_concat_map. by exists row.
  - intros x Hx Hn. apply (ra_others _ _ _ Hall); [done|].
    intros (y & E & (row & Hrow & Hy)%elem_of_concat_map)%list_elem_of_fmap.
    apply (Hn row Hrow). rewrite E. by apply list_elem_of_fmap_2.
  - intros inv before Hinv Hb. by eapply repair_drift.
Qed.

(** An invoice whose anchor was posted twice: the second time its customer had
    changed. *)
Definition doubled_event : PostingEvent :=
  mk_event "co" "invoice" (str_uuid (inv_id lined_invoice)) EVENT_OPENING 739000
    [mk_pline 10825 (Some ROLE_AR) None None None (Some 9%N);
     mk_pline (-10825) (Some ROLE_OPENING_EQUITY) None None None (Some 9%N)] None None.
Definition doubled_db : Db := snd (post_for_event (W := toy_world) doubled_event false anchored_db).
Lemma doubled_db_ok : ledger_ok doubled_db.
Proof.
  pose proof (lr_post (R := rely) (LedgerRelation := rely_ledger_relation (WO := toy_world_ok))
    doubled_event false anchored_db) as Hr.
  apply (rely_journal _ _ Hr); [unfold supply_ok; vm_compute; discriminate|]. exact anchored_db_ok.
Qed.

Lemma doubled_db_rows : rows_ok doubled_db.
Proof.
  split.
  - intros i Hi. vm_compute in Hi. apply list_elem_of_singleton in Hi as ->. vm_compute. reflexivity.
  - apply (bool_decide_unpack _). vm_compute. exact I.
  - intros i Hi. vm_compute in Hi. by apply elem_of_nil in Hi.
  - apply (bool_decide_unpack _). vm_compute. exact I.
  - intros i Hi. vm_compute in Hi. by apply elem_of_nil in Hi.
  - apply (bool_decide_unpack _). vm_compute. exact I.
  - intros e st si ev He Hk. exists (inv_id lined_invoice). split; [vm_compute; reflexivity|].
    apply one_shot_key_Some in Hk as (_ & Hk & _).
    assert (forallb (fun x => opt_eqb (je_source_id x) (Some (str_uuid (inv_id lined_invoice))))
      (gl_entries (db_gl doubled_db)) = true) as Hall by (vm_compute; reflexivity).
    rewrite forallb_forall in Hall. specialize (Hall e (proj1 (list_elem_of_In _ _) He)).
    apply bool_decide_eq_true in Hall. congruence.
Qed.

Lemma repair_moves_toward_tie_witness :
  invoice_drift (inv_id lined_invoice) doubled_db = Ok 10825 /\
  exists after, invoice_drift (inv_id lined_invoice)
    (snd (reverse_duplicate_one_shot_entries "co" "clerk" None doubled_db)) = Ok after /\ 0 <= after <= 10825.
Proof.
  split; [vm_compute; reflexivity|].
  destruct (reverse_duplicate_one_shot_entries "co" "clerk" None doubled_db) as [[r|e] d'] eqn:E;
    [|vm_compute in E; discriminate E].
  assert (supply_ok d') as Hs.
  { apply (f_equal snd) in E. cbn [snd] in E. rewrite <- E. unfold supply_ok. vm_compute. discriminate. }
  destruct (repair_moves_toward_tie (WO := toy_world_ok) "co" "clerk" None doubled_db r d'
    doubled_db_ok doubled_db_rows E Hs) as (_ & _ & _ & _ & Hd).
  destruct (Hd lined_invoice 10825) as (after & Ea & Hpos & _).
  - vm_compute. left.
  - vm_compute. reflexivity.
  - exists after. split; [exact Ea|]. apply Hpos. discriminate.
Defined.
