(* ===== verification/BackfillSpec.v ===== *)
(** The cutover backfill is safe and re-runnable. *)

From S2P Require Import Prelude PyStr Dates Money Models PayPeriods Keys Coa Engine EngineInv EngineSpec Service RulesBase Opening Issuance Payments Adjustments LinesSpec RulesSafe RulesSpec Chokepoint Reports Backfill ArControl Repair.

Local Open Scope Z_scope.

(** * Safety *)

Lemma locks_frame f d : journal_frame d (set_gl (set_locks f) d).
Proof. split; try done. intros a Ha. by exists a. Qed.

Section Safety.
Context `{W : World} (R : Db -> Db -> Prop) `{!LedgerRelation R}.
Context (Hlocks : forall f d, R d (set_gl (set_locks f) d)).

Lemma ensure_cutover_lock_keeps c w : keeps R (ensure_cutover_lock c w).
Proof using All.
  unfold ensure_cutover_lock. apply keeps_seq; [exact _|apply keeps_reads, _|intros l].
  case_if; [apply keeps_return, _|]. apply keeps_seq; [exact _|intros d; apply Hlocks|intros _].
  apply keeps_return, _.
Qed.

Lemma opening_step_keeps cutover r i : keeps R (opening_step cutover r i).
Proof using LedgerRelation0.
  unfold opening_step. apply keeps_seq; [exact _|apply keeps_reads, _|intros w].
  repeat (case_if; [apply keeps_return, _|]).
  apply keeps_seq; [exact _|apply pure_keeps, _|intros o]. cbv zeta. case_if; [apply keeps_return, _|].
  apply keeps_seq; [exact _|apply post_opening_balance_keeps, _|intros [e|]]; apply keeps_return, _.
Qed.

Lemma run_opening_keeps c : keeps R (run_opening c).
Proof using All.
  unfold run_opening. apply keeps_seq; [exact _|apply pure_keeps, _|intros w].
  apply keeps_seq; [exact _|apply ensure_cutover_lock_keeps|intros b].
  apply keeps_seq; [exact _|apply keeps_reads, _|intros l].
  apply keeps_fold; [exact _|]. intros. apply opening_step_keeps.
Qed.

(** The outcome of an attempt is only ever recorded or raised again. *)
Ltac outcome := intros [?|e]; [apply keeps_return, _|destruct e; first [apply keeps_return, _|apply keeps_raise, _]].

Lemma run_replay_keeps c : keeps R (run_replay c).
Proof using LedgerRelation0.
  unfold run_replay. apply keeps_seq; [exact _|apply keeps_reads, _|intros on].
  case_if; [apply keeps_raise, _|]. apply keeps_seq; [exact _|apply pure_keeps, _|intros w].
  apply keeps_seq; [exact _|apply keeps_reads, _|intros n].
  apply keeps_seq; [exact _|apply keeps_reads, _|intros all].
  apply keeps_seq; [exact _| |intros r1].
  { apply keeps_fold; [exact _|]. intros b x. unfold replay_invoice. case_if; [apply keeps_return, _|].
    apply keeps_seq; [exact _|apply keeps_try, repost_invoice_issuance_keeps, _|outcome]. }
  apply keeps_seq; [exact _|apply keeps_reads, _|intros adjs].
  apply keeps_seq; [exact _| |intros r2].
  { apply keeps_fold; [exact _|]. intros b x. unfold replay_adjustment.
    destruct (List.find _ _) as [i|]; [|apply keeps_return, _].
    apply keeps_seq; [exact _|apply keeps_reads, _|intros era]. case_if; [apply keeps_return, _|].
    apply keeps_seq; [exact _|apply keeps_try|outcome].
    destruct (adj_kind x); [apply post_credit_memo_keeps, _|apply post_refund_keeps, _|
      apply post_credit_application_keeps, _]. }
  apply keeps_seq; [exact _| |intros acc].
  { apply keeps_fold; [exact _|]. intros b x. unfold collect_void.
    apply keeps_seq; [exact _|apply keeps_reads, _|intros live]. case_if; [apply keeps_return, _|].
    apply keeps_seq; [exact _|apply keeps_reads, _|intros era]. case_if; apply keeps_return, _. }
  apply keeps_seq; [exact _| |intros r3].
  { apply keeps_fold; [exact _|]. intros b x. unfold replay_payments.
    apply keeps_seq; [exact _|apply keeps_try, resettle_keeps, _|outcome]. }
  apply keeps_seq; [exact _|apply keeps_reads, _|intros exps].
  apply keeps_seq; [exact _| |intros r4].
  { apply keeps_fold; [exact _|]. intros b x. unfold replay_expense. cbv zeta. case_if; [apply keeps_return, _|].
    apply keeps_seq; [exact _|apply keeps_try, repost_expense_keeps, _|outcome]. }
  apply keeps_seq; [exact _|apply keeps_reads, _|intros m; apply keeps_return, _].
Qed.
End Safety.

Lemma rely_locks f d : rely d (set_gl (set_locks f) d).
Proof. apply journal_frame_rely, locks_frame. Qed.

(** * Re-running the opening phase *)

(** What the opening phase changes: it appends entries and never unposts one. *)
Record opening_grows (d d' : Db) : Prop := {
  og_entries : exists news, gl_entries (db_gl d') = gl_entries (db_gl d) ++ news;
  og_ops : db_ops d' = db_ops d;
  og_settings : gl_settings (db_gl d') = gl_settings (db_gl d);
  og_locks : gl_locks (db_gl d') = gl_locks (db_gl d)
}.

#[export] Instance opening_grows_preorder : PreOrder opening_grows.
Proof.
  split; [intros d; split; try done; exists []; by rewrite app_nil_r|].
  intros a b c [[n1 A1] A2 A3 A4] [[n2 B1] B2 B3 B4]. split; [|congruence..].
  exists (n1 ++ n2). by rewrite B1, A1, app_assoc.
Qed.

Lemma earliest_nonempty l : l <> [] -> exists e, earliest l = Some e.
Proof. destruct l; [done|]. intros _. cbn. eauto. Qed.

Lemma live_event_grows st si ev d d' :
  opening_grows d d' -> _live_event_entry st si ev d <> None -> _live_event_entry st si ev d' <> None.
Proof.
  intros [[news E] _ _ _] H. unfold _live_event_entry in *. rewrite E, List.filter_app.
  destruct (List.filter _ (gl_entries (db_gl d))) as [|x l]; [done|]. cbn [app earliest]. done.
Qed.

Section Idempotent.
Context `{WO : WorldOk}.

Lemma post_grows ev d e d' :
  ledger_ok d -> one_company (ev_company_id ev) d ->
  post_for_event ev false d = (Ok e, d') -> opening_grows d d'.
Proof using WO.
  intros Hok Hone Hpost. destruct (post_Ok_prepared _ _ _ _ _ _ Hpost) as (res & p & d1 & Hprep).
  destruct (resolve_lines_Ok _ _ _ _ _ (pr_resolved _ _ _ _ _ Hprep)) as (_ & Hg & _).
  assert (opening_grows d d1) as H1.
  { destruct Hg as (E1 & _ & E2 & _ & E3 & E4 & _). split; try done. exists []. by rewrite app_nil_r. }
  pose proof (post_outcomes ev false d res p d1 Hok Hone Hprep) as Hout. cbn zeta in Hout.
  rewrite Hpost in Hout. destruct (live_entry _ _ d1) as [x|]; [by injection Hout as _ ->|].
  destruct (_ && negb false); [done|]. destruct Hout as (d2 & x & d3 & [= <- <-] & Hpass & Hin).
  destruct Hpass as [[_ ->]|(_ & [=] & _)]. etrans; [exact H1|].
  split; [exists [e]; apply (in_entries _ _ _ _ _ _ _ _ _ _ _ Hin)|apply (in_ops _ _ _ _ _ _ _ _ _ _ _ Hin)|
    apply (in_settings _ _ _ _ _ _ _ _ _ _ _ Hin)|apply (in_locks _ _ _ _ _ _ _ _ _ _ _ Hin)].
Qed.

(** The journal facts a posting needs. *)
Record journal_ready (c : string) (d : Db) : Prop := {
  jr_ok : ledger_ok d; jr_company : one_company c d; jr_sources : sources_ok d
}.

(** Nothing is left to post for the invoice. *)
Definition still (cutover : date) (i : Invoice) (d : Db) : Prop :=
  is_issued (inv_status i) = false \/ cutover <= _effective_at i d \/
  exists o, opening_balance_cents i cutover d = Ok o /\
    (o <= 0 \/ _live_event_entry "invoice" (str_uuid (inv_id i)) EVENT_OPENING d <> None).

Lemma still_grows cutover i d d' : opening_grows d d' -> still cutover i d -> still cutover i d'.
Proof using Type.
  intros Hg Hs. pose proof (og_ops _ _ Hg) as Eo. unfold still in *.
  assert (_effective_at i d' = _effective_at i d) as -> by (unfold _effective_at; by rewrite Eo).
  assert (opening_balance_cents i cutover d' = opening_balance_cents i cutover d) as ->
    by (unfold opening_balance_cents, invoice_payments, invoice_adjustments; by rewrite Eo).
  destruct Hs as [H|[H|(o & H1 & [H2|H2])]]; [by left|by right; left|..]; right; right; exists o; split; auto.
  right. by eapply live_event_grows.
Qed.

Lemma still_quiet cutover i d r :
  _cutover_date (inv_company_id i) d = Some cutover -> inv_deleted_at i = None -> still cutover i d ->
  exists r', opening_step cutover r i d = (Ok r', d).
Proof using Type.
  intros Hc Hdel Hs. unfold opening_step. unfold mseq at 1, mreads at 1.
  destruct (is_issued (inv_status i)) eqn:Ei; cbn [negb]; [|by eexists].
  destruct (Z.leb_spec cutover (_effective_at i d)); [by eexists|].
  destruct Hs as [Hs|[Hs|(o & Ho & Hs)]]; [congruence|lia|]. unfold mseq at 1. rewrite Ho.
  destruct (Z.leb_spec o 0); [by eexists|]. destruct Hs as [?|Hs]; [lia|].
  destruct (_live_event_entry _ _ _ d) as [e|] eqn:El; [|done].
  assert (post_opening_balance i (Some ACTOR) d = (Ok (Some e), d)) as E.
  { unfold post_opening_balance. unfold mseq at 1, mreads at 1. rewrite Hc, Ei, Hdel. cbn [negb orb].
    unfold mseq at 1, mreads at 1. rewrite (proj2 (Z.leb_gt _ _)) by lia.
    unfold mseq at 1, mreads at 1. by rewrite El. }
  unfold mseq at 1. rewrite E. by eexists.
Qed.

(** One invoice, for the first time. *)
Lemma opening_step_spec c cutover i r d r1 d1 :
  journal_ready c d -> supply_ok d1 -> inv_company_id i = c -> inv_deleted_at i = None ->
  _cutover_date c d = Some cutover ->
  opening_step cutover r i d = (Ok r1, d1) ->
  journal_ready c d1 /\ opening_grows d d1 /\ still cutover i d1.
Proof using WO.
  intros Hr Hs <- Hdel Hc Hrun. unfold opening_step in Hrun. apply mseq_Ok in Hrun as (w & dx & Hw & Hrun).
  minv Hw. unfold still.
  destruct (is_issued (inv_status i)) eqn:Ei; cbn [negb] in Hrun; [|minv Hrun; split_and!; [done|reflexivity|by left]].
  destruct (Z.leb_spec cutover (_effective_at i dx)) as [Hle|Hlt];
    [minv Hrun; split_and!; [done|reflexivity|by right; left]|].
  apply mseq_Ok in Hrun as (o & dy & Ho & Hrun). injection Ho as Ho <-. cbv zeta in Hrun.
  destruct (Z.leb_spec o 0) as [Hle|Hpos]; [minv Hrun; split_and!; [done|reflexivity|right; right; eauto]|].
  apply mseq_Ok in Hrun as (e & dz & He & Hrun).
  assert (dz = d1) as -> by (destruct e; by minv Hrun).
  unfold post_opening_balance in He. unfold mseq at 1, mreads at 1 in He.
  rewrite Hc, Ei, Hdel in He. cbn [negb orb] in He. unfold mseq at 1, mreads at 1 in He.
  rewrite (proj2 (Z.leb_gt _ _) Hlt) in He. unfold mseq at 1, mreads at 1 in He.
  destruct (_live_event_entry _ _ _ dx) as [x|] eqn:El.
  { minv He. split_and!; [done|reflexivity|]. right. right. exists o. split; [done|]. right. by rewrite El. }
  unfold mseq at 1 in He. rewrite Ho in He. unfold build_opening_lines in He.
  rewrite (proj2 (Z.leb_gt _ _) Hpos) in He. apply mseq_Ok in He as (x & dw & Hpost & He). minv He.
  match type of Hpost with post_for_event ?y _ _ = _ => set (ev := y) in * end.
  pose proof (post_stream ev false dx x d1 (jr_ok _ _ Hr) (jr_company _ _ Hr) (jr_sources _ _ Hr) Hs Hpost) as Hsp.
  pose proof (post_grows ev dx x d1 (jr_ok _ _ Hr) (jr_company _ _ Hr) Hpost) as Hg.
  pose proof (post_into_empty ev false dx x d1 (jr_ok _ _ Hr) (jr_company _ _ Hr) (jr_sources _ _ Hr) Hs El Hpost)
    as Hlive.
  split_and!; [|done|].
  - split; [apply (sp_ok _ _ _ _ Hsp)|apply (sp_company _ _ _ _ Hsp)|].
    pose proof (lr_post (R := keeps_sources) ev false dx) as Hk. rewrite Hpost in Hk. apply Hk, Hr.
  - right. right. exists o. split; [|right; change (_live_event_entry (ev_source_type ev) (ev_source_id ev)
      (ev_event ev) d1 <> None); by rewrite Hlive].
    rewrite <- Ho. unfold opening_balance_cents, invoice_payments, invoice_adjustments.
    by rewrite (og_ops _ _ Hg).
Qed.

Lemma cutover_grows c d d' : opening_grows d d' -> _cutover_date c d' = _cutover_date c d.
Proof using Type. intros H. unfold _cutover_date, get_gl_settings. by rewrite (og_settings _ _ H). Qed.

Lemma opening_loop_spec c cutover invoices r d r1 d1 :
  journal_ready c d -> supply_ok d1 -> _cutover_date c d = Some cutover ->
  (forall i, i ∈ invoices -> inv_company_id i = c /\ inv_deleted_at i = None) ->
  mfold (opening_step cutover) r invoices d = (Ok r1, d1) ->
  opening_grows d d1 /\ (forall i, i ∈ invoices -> still cutover i d1).
Proof using WO.
  revert r d. induction invoices as [|i invoices IH]; intros r d Hr Hs Hc Hi Hrun; cbn [mfold] in Hrun.
  { minv Hrun. split; [reflexivity|]. intros x Hx. by apply elem_of_nil in Hx. }
  apply mseq_Ok in Hrun as (r2 & d2 & Hstep & Hrun).
  assert (supply_ok d2) as Hs2.
  { assert (keeps rely (mfold (opening_step cutover) r2 invoices)) as Hk
      by (apply keeps_fold; [exact _|]; intros; apply opening_step_keeps, _).
    specialize (Hk d2). rewrite Hrun in Hk. pose proof (rely_uuid _ _ Hk). unfold supply_ok in *. cbn in *. lia. }
  destruct (Hi i (list_elem_of_here _ _)) as [Hic Hid].
  destruct (opening_step_spec c cutover i r d r2 d2 Hr Hs2 Hic Hid Hc Hstep) as (Hr2 & Hg2 & Hst).
  destruct (IH r2 d2 Hr2 Hs) as [Hg Hall]; [by rewrite (cutover_grows c d d2)| |done|].
  { intros x Hx. apply Hi. by apply list_elem_of_further. }
  split; [by etrans|]. intros x [->|Hx]%elem_of_cons; [by eapply still_grows|auto].
Qed.

Lemma opening_loop_quiet c cutover invoices r d :
  _cutover_date c d = Some cutover ->
  (forall i, i ∈ invoices -> inv_company_id i = c /\ inv_deleted_at i = None) ->
  (forall i, i ∈ invoices -> still cutover i d) ->
  exists r', mfold (opening_step cutover) r invoices d = (Ok r', d).
Proof using Type.
  intros Hc Hi Hs. revert r. induction invoices as [|i invoices IH]; intros r; cbn [mfold]; [by eexists|].
  destruct (Hi i (list_elem_of_here _ _)) as [Hic Hid].
  destruct (still_quiet cutover i d r) as [r2 E]; [by rewrite Hic|done|apply Hs, list_elem_of_here|].
  unfold mseq at 1. rewrite E. apply IH; intros x Hx; [apply Hi|apply Hs]; by apply list_elem_of_further.
Qed.

Lemma max_lock_bound c d l :
  l ∈ gl_locks (db_gl d) -> lk_company_id l = c -> exists m, max_lock_date c d = Some m /\ lk_lock_date l <= m.
Proof using Type.
  intros Hl Hc. unfold max_lock_date.
  assert (l ∈ List.filter (fun l => String.eqb (lk_company_id l) c) (gl_locks (db_gl d))) as Hin
    by (apply elem_of_filter_b; by rewrite Hc, String.eqb_refl).
  clear Hl Hc. induction (List.filter _ _) as [|x l0 IH]; [by apply elem_of_nil in Hin|]. cbn [foldr].
  apply elem_of_cons in Hin as [->|Hin].
  - destruct (foldr _ None l0); eexists; (split; [reflexivity|]); lia.
  - destruct (IH Hin) as (m & -> & Hm). eexists. split; [reflexivity|]. lia.
Qed.

(** The lock exists after it was ensured. *)
Lemma ensure_lock_spec c cutover d b d' :
  ensure_cutover_lock c cutover d = (Ok b, d') ->
  (exists m, max_lock_date c d' = Some m /\ cutover - 1 <= m) /\
  journal_frame d d' /\ db_ops d' = db_ops d /\ gl_settings (db_gl d') = gl_settings (db_gl d).
Proof using Type.
  unfold ensure_cutover_lock. intros H. minv H. cbv zeta in H.
  destruct (match max_lock_date c d0 with Some l => cutover - 1 <=? l | None => false end) eqn:E; minv H.
  - destruct (max_lock_date c d') as [l|]; [|done]. split; [exists l; split; [done|lia]|].
    split_and!; [reflexivity|done|done].
  - split; [|split_and!; [apply locks_frame|done|done]].
    apply (max_lock_bound c _ (mk_lock (cutover - 1) c)); [|done]. cbn. apply elem_of_app. right.
    apply list_elem_of_here.
Qed.
End Idempotent.

(** * Properties *)

(** One command of the backfill tool. *)
Inductive phase : Type :=
  | PhaseOpening | PhaseReplay | PhaseRepair (actor : string) (effective_at : option date).

Definition run_phase `{W : World} (company_id : string) (d : Db) (p : phase) : Db :=
  match p with
  | PhaseOpening => snd (run_opening company_id d)
  | PhaseReplay => snd (run_replay company_id d)
  | PhaseRepair actor effective_at => snd (reverse_duplicate_one_shot_entries company_id actor effective_at d)
  end.

Definition run_phases `{W : World} (company_id : string) (phases : list phase) (d : Db) : Db :=
  foldl (run_phase company_id) d phases.

Lemma run_phases_keeps `{W : World} (R : Db -> Db -> Prop) `{!LedgerRelation R} company_id phases d :
  (forall f d, R d (set_gl (set_locks f) d)) -> R d (run_phases company_id phases d).
Proof.
  intros Hl. unfold run_phases. revert d. induction phases as [|p phases IH]; intros d; cbn [foldl]; [reflexivity|].
  etrans; [|apply IH]. destruct p; cbn [run_phase].
  - by apply run_opening_keeps.
  - by apply run_replay_keeps.
  - exact (repair_keeps R company_id actor effective_at d).
Qed.

(** the backfill preserves the books.  The opening phase, the replay and
    the repair of duplicates, in any order and any number of times, however
    each ends and whatever rows it meets, keep a sound journal sound and only
    append to it, and write no operational row. *)
Theorem backfill_preserves_ledger `{WO : WorldOk} company_id phases d
    (Hok : ledger_ok d) (Hs : supply_ok (run_phases company_id phases d)) :
  ledger_ok (run_phases company_id phases d) /\ append_only d (run_phases company_id phases d) /\
  db_ops (run_phases company_id phases d) = db_ops d.
Proof.
  pose proof (run_phases_keeps rely company_id phases d rely_locks) as H1.
  destruct (rely_journal _ _ H1 Hs Hok) as [H2 H3]. split_and!; [done|done|].
  change (same_ops d (run_phases company_id phases d)). apply run_phases_keeps; [exact _|].
  intros f x. reflexivity.
Qed.

Lemma backfill_preserves_ledger_witness :
  let d' := run_phases (W := toy_world) "co" [PhaseOpening; PhaseReplay; PhaseRepair "clerk" None] cutover_db in
  ledger_ok d' /\ length (gl_entries (db_gl d')) = 1%nat.
Proof.
  split; [|vm_compute; reflexivity].
  apply (backfill_preserves_ledger (WO := toy_world_ok) "co" [PhaseOpening; PhaseReplay; PhaseRepair "clerk" None] cutover_db).
  - apply ledger_ok_empty. split; vm_compute; reflexivity.
  - unfold supply_ok. vm_compute. discriminate.
Defined.

(** The opening phase has nothing left to do. *)
Definition opening_settled `{W : World} (company_id : string) (d : Db) : Prop :=
  exists r, run_opening company_id d = (Ok r, d).

(** the opening phase can be run again.  After it succeeded once on a
    sound single-company journal, running it again succeeds and writes nothing
    at all: no second anchor, no second period lock, not even an account. *)
Theorem run_opening_idempotent `{WO : WorldOk} company_id d r d'
    (Hok : ledger_ok d) (Hone : one_company company_id d) (Hsrc : sources_ok d)
    (Hrun : run_opening company_id d = (Ok r, d')) (Hs : supply_ok d') :
  opening_settled company_id d'.
Proof.
  unfold run_opening in Hrun. apply mseq_Ok in Hrun as (cutover & dx & Hc & Hrun). injection Hc as Hc <-.
  apply mseq_Ok in Hrun as (b & d0 & Hlock & Hrun). cbv zeta in Hrun.
  apply mseq_Ok in Hrun as (invoices & dy & Hinv & Hrun). minv Hinv. rename dy into d0.
  destruct (ensure_lock_spec _ _ _ _ _ Hlock) as ((m & Hm & Hle) & Hf & Ho & Hset).
  assert (_cutover_date company_id d0 = Some cutover) as Hc0.
  { revert Hc. unfold _require_cutover, _cutover_date, get_gl_settings. rewrite Hset.
    destruct (match List.find _ _ with Some s => gs_cutover_month s | None => None end); naive_solver. }
  assert (journal_ready company_id d0) as Hr0.
  { split; [by eapply ledger_ok_frame|intros e; rewrite (jf_entries _ _ Hf); apply Hone|].
    by apply (frame_sources _ _ Hf). }
  assert (forall i, i ∈ _company_invoices company_id d0 -> inv_company_id i = company_id /\ inv_deleted_at i = None) as Hi.
  { intros i Hi. apply elem_of_filter_b in Hi as [_ Hi]. apply andb_prop in Hi as [Hi%String.eqb_eq Hd].
    split; [done|]. by destruct (inv_deleted_at i). }
  destruct (opening_loop_spec company_id cutover _ _ d0 r d' Hr0 Hs Hc0 Hi Hrun) as [Hg Hall].
  assert (_company_invoices company_id d' = _company_invoices company_id d0) as Einv
    by (unfold _company_invoices; by rewrite (og_ops _ _ Hg)).
  assert (_cutover_date company_id d' = Some cutover) as Hc' by (by rewrite (cutover_grows _ _ _ Hg)).
  assert (max_lock_date company_id d' = Some m) as Hm' by (unfold max_lock_date; by rewrite (og_locks _ _ Hg)).
  destruct (opening_loop_quiet company_id cutover (_company_invoices company_id d') empty_phase d' Hc')
    as [r' E]; [by rewrite Einv|by rewrite Einv|].
  exists r'. unfold run_opening. unfold mseq at 1. unfold _require_cutover. rewrite Hc'.
  unfold mseq at 1, ensure_cutover_lock. unfold mseq at 1, mreads at 1. rewrite Hm'.
  rewrite (proj2 (Z.leb_le _ _) Hle). unfold mreturn at 1. unfold mseq at 1, mreads at 1. exact E.
Qed.

Lemma run_opening_idempotent_witness :
  opening_settled (W := toy_world) "co" (snd (run_opening (W := toy_world) "co" cutover_db)).
Proof.
  destruct (run_opening (W := toy_world) "co" cutover_db) as [[r|e] d'] eqn:E; [|vm_compute in E; discriminate E].
  apply (run_opening_idempotent (WO := toy_world_ok) "co" cutover_db r d').
  - apply ledger_ok_empty. split; vm_compute; reflexivity.
  - apply empty_company. vm_compute. reflexivity.
  - apply empty_sources. vm_compute. reflexivity.
  - exact E.
  - apply (f_equal snd) in E. cbn [snd] in E. rewrite <- E. unfold supply_ok. vm_compute. discriminate.
Defined.
