(* ===== verification/Breaker.v ===== *)
(** * The circuit breaker around outside services

    [core/circuit_breaker.py]: a breaker per service, whose state lives in
    three Redis keys shared by every process.  Each operation is a program over
    single Redis commands ([prog]): one definition serves both the sequential
    reading ([run]) and the interleaving of any number of requests ([step]),
    where other requests' commands may fall between any two of its own.

    Redis holds text; a value is kept here under what the code can parse it
    as.  A clock reading is a double between 2^30 and 2^31, hence a multiple
    of 2^-22 second: time is counted in such ticks, in which the code's
    subtraction is exact.  Redis failing is not modelled. *)

From S2P Require Import Prelude PyStr.

Local Open Scope Z_scope.

(** * Redis commands as programs *)

(** A stored text, by what [int] and [float] make of it. *)
Inductive redis_value : Type :=
  | RText (s : string)  (** neither accepts it *)
  | RInt (n : Z)        (** an integer literal *)
  | RTime (t : Z).      (** [str(time.time())] *)

#[export] Instance redis_value_eq_dec : EqDecision redis_value.
Proof. solve_decision. Defined.

Abbreviation redis := (gmap string redis_value).

Definition ticks_per_second : Z := 4194304.

(** A coroutine, cut at its Redis commands, clock readings and the protected
    call (which returns a [V] or raises). *)
Inductive prog (V A : Type) : Type :=
  | PRet (a : A)
  | PRaise (e : exn)
  | PGet (k : string) (f : option redis_value -> prog V A)
  | PSet (k : string) (v : redis_value) (p : prog V A)
  | PIncr (k : string) (f : option Z -> prog V A)
  | PDel (ks : list string) (p : prog V A)
  | PNow (f : Z -> prog V A)
  | PFunc (f : result V -> prog V A).
Arguments PRet {V A}. Arguments PRaise {V A}. Arguments PGet {V A}. Arguments PSet {V A}.
Arguments PIncr {V A}. Arguments PDel {V A}. Arguments PNow {V A}. Arguments PFunc {V A}.

Fixpoint pbind {V A B} (p : prog V A) (k : A -> prog V B) : prog V B :=
  match p with
  | PRet a => k a
  | PRaise e => PRaise e
  | PGet key f => PGet key (fun r => pbind (f r) k)
  | PSet key v p' => PSet key v (pbind p' k)
  | PIncr key f => PIncr key (fun r => pbind (f r) k)
  | PDel ks p' => PDel ks (pbind p' k)
  | PNow f => PNow (fun t => pbind (f t) k)
  | PFunc f => PFunc (fun r => pbind (f r) k)
  end.

(** [try: p / except: h e] *)
Fixpoint pcatch {V A} (p : prog V A) (h : exn -> prog V A) : prog V A :=
  match p with
  | PRet a => PRet a
  | PRaise e => h e
  | PGet key f => PGet key (fun r => pcatch (f r) h)
  | PSet key v p' => PSet key v (pcatch p' h)
  | PIncr key f => PIncr key (fun r => pcatch (f r) h)
  | PDel ks p' => PDel ks (pcatch p' h)
  | PNow f => PNow (fun t => pcatch (f t) h)
  | PFunc f => PFunc (fun r => pcatch (f r) h)
  end.

Notation "x <~ p ; k" := (pbind p (fun x => k))
  (at level 100, p at next level, right associativity) : gdx_scope.
Notation "p ;~ k" := (pbind p (fun _ => k))
  (at level 100, right associativity) : gdx_scope.

Section Commands.
Context {V : Type}.
Definition redis_get (k : string) : prog V (option redis_value) := PGet k PRet.
Definition redis_set (k : string) (v : redis_value) : prog V unit := PSet k v (PRet tt).
Definition redis_delete (ks : list string) : prog V unit := PDel ks (PRet tt).
Definition time_time : prog V Z := PNow PRet.

(** INCR answers with the new value, or an error on what is not an integer. *)
Definition redis_incr (k : string) : prog V Z :=
  PIncr k (fun r => match r with Some n => PRet n | None => PRaise ResponseError end).

(** [await func(...)] *)
Definition await_func : prog V V :=
  PFunc (fun r => match r with Ok v => PRet v | Err e => PRaise e end).

Definition py_float (v : redis_value) : prog V Z :=
  match v with
  | RTime t => PRet t
  | RInt n => PRet (n * ticks_per_second)
  | RText _ => PRaise ValueError
  end.

Definition py_int (v : redis_value) : prog V Z :=
  match v with RInt n => PRet n | _ => PRaise ValueError end.
End Commands.

(** * [class CircuitBreaker] *)

Definition KNOWN_SERVICES : list string := ["stripe_api"; "qb_api"; "email_delivery"].

Inductive CircuitState : Type := CLOSED | OPEN | HALF_OPEN.

#[export] Instance CircuitState_eq_dec : EqDecision CircuitState.
Proof. solve_decision. Defined.

Definition state_value (s : CircuitState) : string :=
  match s with CLOSED => "CLOSED" | OPEN => "OPEN" | HALF_OPEN => "HALF_OPEN" end.

(** [CircuitState(raw)]; [None] is its [ValueError]. *)
Definition state_of_value (raw : redis_value) : option CircuitState :=
  match raw with
  | RText s =>
      if String.eqb s "CLOSED" then Some CLOSED
      else if String.eqb s "OPEN" then Some OPEN
      else if String.eqb s "HALF_OPEN" then Some HALF_OPEN
      else None
  | _ => None
  end.

Record CircuitBreaker : Type := {
  cb_name : string;
  failure_threshold : Z;
  recovery_timeout : Z
}.

(** The three Redis keys of a service. *)
Definition cb_key (name field : string) : string := "cb:" +:+ name +:+ ":" +:+ field.

Definition _key_state (cb : CircuitBreaker) : string := cb_key (cb_name cb) "state".
Definition _key_failures (cb : CircuitBreaker) : string := cb_key (cb_name cb) "failures".
Definition _key_opened_at (cb : CircuitBreaker) : string := cb_key (cb_name cb) "opened_at".

Record Status : Type := {
  st_name : string;
  st_state : string;
  st_failures : Z;
  st_opened_at : option Z;
  st_failure_threshold : option Z;
  st_recovery_timeout : option Z
}.

Section Operations.
Context {V : Type}.
Implicit Types cb : CircuitBreaker.

Definition get_state cb : prog V CircuitState :=
  raw_state <~ redis_get (_key_state cb) ;
  match raw_state with
  | None => PRet CLOSED
  | Some raw =>
      match state_of_value raw with
      | None => PRet CLOSED
      | Some OPEN =>
          opened_at_raw <~ redis_get (_key_opened_at cb) ;
          match opened_at_raw with
          | Some o =>
              now <~ time_time ;
              opened_at <~ py_float o ;
              if recovery_timeout cb * ticks_per_second <? now - opened_at
              then redis_set (_key_state cb) (RText (state_value HALF_OPEN)) ;~ PRet HALF_OPEN
              else PRet OPEN
          | None => PRet OPEN
          end
      | Some state => PRet state
      end
  end.

Definition record_failure cb : prog V unit :=
  failures <~ redis_incr (_key_failures cb) ;
  if failure_threshold cb <=? failures then
    current <~ redis_get (_key_state cb) ;
    if bool_decide (current = Some (RText (state_value OPEN))) then PRet tt
    else
      redis_set (_key_state cb) (RText (state_value OPEN)) ;~
      now <~ time_time ;
      redis_set (_key_opened_at cb) (RTime now)
  else PRet tt.

Definition record_success cb : prog V unit :=
  prev_state <~ redis_get (_key_state cb) ;
  redis_delete [_key_state cb; _key_failures cb; _key_opened_at cb] ;~
  redis_set (_key_state cb) (RText (state_value CLOSED)).

Definition reset cb : prog V unit := record_success cb.

Definition get_status cb : prog V Status :=
  state <~ get_state cb ;
  failures_raw <~ redis_get (_key_failures cb) ;
  opened_at_raw <~ redis_get (_key_opened_at cb) ;
  failures <~ (match failures_raw with Some v => py_int v | None => PRet 0 end) ;
  opened_at <~ (match opened_at_raw with
                | Some v => t <~ py_float v ; PRet (Some t)
                | None => PRet None
                end) ;
  PRet {| st_name := cb_name cb; st_state := state_value state; st_failures := failures;
          st_opened_at := opened_at;
          st_failure_threshold := Some (failure_threshold cb);
          st_recovery_timeout := Some (recovery_timeout cb) |}.

Definition call cb : prog V V :=
  state <~ get_state cb ;
  if bool_decide (state = OPEN) then PRaise CircuitOpenError
  else
    pcatch (r <~ await_func ; record_success cb ;~ PRet r)
           (fun e => if decide (e = CircuitOpenError) then PRaise e
                     else record_failure cb ;~ PRaise e).

(** [CircuitBreaker(name=service_name)], with the constructor's defaults. *)
Definition get_circuit_breaker (service_name : string) : CircuitBreaker :=
  {| cb_name := service_name; failure_threshold := 5; recovery_timeout := 60 |}.

Definition get_all_circuit_breaker_statuses : prog V (list Status) :=
  foldr (fun svc rest =>
           status <~ pcatch (get_status (get_circuit_breaker svc))
                            (fun _ => PRet {| st_name := svc; st_state := "UNKNOWN";
                                              st_failures := 0; st_opened_at := None;
                                              st_failure_threshold := None;
                                              st_recovery_timeout := None |}) ;
           statuses <~ rest ;
           PRet (status :: statuses))
        (PRet []) KNOWN_SERVICES.

(** The [wrapper] the decorator [circuit_breaker(service_name)] makes. *)
Definition circuit_breaker (service_name : string) : prog V V :=
  let cb := get_circuit_breaker service_name in
  state <~ get_state cb ;
  if bool_decide (state = OPEN) then PRaise (HTTPException 503)
  else
    pcatch (r <~ await_func ; record_success cb ;~ PRet r)
           (fun e => match e with
                     | HTTPException _ => PRaise e
                     | _ => record_failure cb ;~ PRaise e
                     end).

Definition reset_circuit_breaker (name : string) : prog V Status :=
  if existsb (String.eqb name) KNOWN_SERVICES then
    reset (get_circuit_breaker name) ;~
    PRet {| st_name := name; st_state := state_value CLOSED; st_failures := 0;
            st_opened_at := None; st_failure_threshold := None; st_recovery_timeout := None |}
  else PRaise (HTTPException 404).
End Operations.

Definition qb_circuit : CircuitBreaker :=
  {| cb_name := "qb_api"; failure_threshold := 5; recovery_timeout := 120 |}.
Definition stripe_circuit : CircuitBreaker :=
  {| cb_name := "stripe_api"; failure_threshold := 3; recovery_timeout := 60 |}.
Definition email_circuit : CircuitBreaker :=
  {| cb_name := "email_delivery"; failure_threshold := 10; recovery_timeout := 300 |}.

(** * The commands' effect on the store *)

Definition incr_value (v : option redis_value) : option Z :=
  match v with
  | None => Some 1
  | Some (RInt n) => Some (n + 1)
  | Some _ => None
  end.

Definition incr_store (k : string) (d : redis) : redis :=
  match incr_value (d !! k) with Some n => <[k := RInt n]> d | None => d end.

Definition delete_all (ks : list string) (d : redis) : redis := foldr delete d ks.

(** A request that runs alone at clock reading [now], whose protected call
    ends as [fr]; the flag says whether that call was made.  The protected call
    takes no time here, while [record_failure] reads the clock after it; the
    steps of an interleaving ([pstep]) take the clock of each command. *)
Fixpoint run {V A} (now : Z) (fr : result V) (p : prog V A) (d : redis) : result A * bool * redis :=
  match p with
  | PRet a => (Ok a, false, d)
  | PRaise e => (Err e, false, d)
  | PGet k f => run now fr (f (d !! k)) d
  | PSet k v p' => run now fr p' (<[k := v]> d)
  | PIncr k f => run now fr (f (incr_value (d !! k))) (incr_store k d)
  | PDel ks p' => run now fr p' (delete_all ks d)
  | PNow f => run now fr (f now) d
  | PFunc f => let '(r, _, d') := run now fr (f fr) d in (r, true, d')
  end.

(** * The keys of different services and fields never meet *)

Lemma chars_app a b :
  String.list_ascii_of_string (a +:+ b) = String.list_ascii_of_string a ++ String.list_ascii_of_string b.
Proof. induction a as [|c a IH]; [done|]. rewrite str_app_cons. simpl. by rewrite IH. Qed.

Lemma chars_inj a b : String.list_ascii_of_string a = String.list_ascii_of_string b -> a = b.
Proof.
  intros E. by rewrite <- (String.string_of_list_ascii_of_string a), E, String.string_of_list_ascii_of_string.
Qed.

Lemma cb_key_name n m f : cb_key n f = cb_key m f -> n = m.
Proof.
  unfold cb_key. intros E%str_app_inj_l. apply chars_inj.
  apply (f_equal String.list_ascii_of_string) in E. rewrite !chars_app in E.
  by apply app_inv_tail in E.
Qed.

Definition last_char (s : string) : option ascii := last (String.list_ascii_of_string s).

Lemma cb_key_field n m f g : f <> "" -> g <> "" -> last_char f <> last_char g -> cb_key n f <> cb_key m g.
Proof.
  intros Hf Hg Hne E%(f_equal last_char). apply Hne. revert E.
  assert (forall x y, y <> "" -> last_char (x +:+ y) = last_char y) as L.
  { intros x y Hy. unfold last_char. rewrite chars_app, last_app.
    destruct (last (String.list_ascii_of_string y)) eqn:E; [done|].
    apply last_None in E. destruct y; [done|discriminate E]. }
  assert (forall x y, y <> "" -> x +:+ y <> "") as N by (intros [|] y Hy; done).
  unfold cb_key. rewrite !L by auto. done.
Qed.

Lemma state_failures n m : cb_key n "state" <> cb_key m "failures".
Proof. by apply cb_key_field. Qed.
Lemma state_opened n m : cb_key n "state" <> cb_key m "opened_at".
Proof. by apply cb_key_field. Qed.
Lemma failures_opened n m : cb_key n "failures" <> cb_key m "opened_at".
Proof. by apply cb_key_field. Qed.

Create HintDb cbkeys.
#[export] Hint Resolve state_failures state_opened failures_opened not_eq_sym : cbkeys.
#[export] Hint Extern 2 (cb_key _ _ <> cb_key _ _) =>
  let E := fresh in intros E%cb_key_name; congruence : cbkeys.

(** [redis_simpl]: evaluate look-ups through the writes of a breaker. *)
Ltac redis_simpl :=
  repeat first
    [ rewrite lookup_insert_eq | rewrite lookup_delete_eq
    | rewrite lookup_insert_ne by (eauto 3 with cbkeys)
    | rewrite lookup_delete_ne by (eauto 3 with cbkeys) ].

(** * The specification: a breaker as one value *)

(** What a breaker is for a reader of its documentation. *)
Inductive breaker : Type :=
  | Closed (failures : Z)
  | Open (failures : Z) (since : Z)
  | HalfOpen (failures : Z).

Definition breaker_failures (b : breaker) : Z :=
  match b with Closed n | Open n _ | HalfOpen n => n end.

Definition stored_failures (v : option redis_value) : option Z :=
  match v with None => Some 0 | Some (RInt n) => Some n | Some _ => None end.

(** The breaker a store holds for a service, when its three keys are as the
    code writes them. *)
Definition abstract (name : string) (d : redis) : option breaker :=
  match stored_failures (d !! cb_key name "failures") with
  | None => None
  | Some n =>
      match d !! cb_key name "state" with
      | None => Some (Closed n)
      | Some raw =>
          match state_of_value raw with
          | None | Some CLOSED => Some (Closed n)
          | Some HALF_OPEN => Some (HalfOpen n)
          | Some OPEN =>
              match d !! cb_key name "opened_at" with
              | Some (RTime t) => Some (Open n t)
              | _ => None
              end
          end
      end
  end.

(** A look at the breaker: an open one whose time has passed becomes half
    open. *)
Definition spec_look (cb : CircuitBreaker) (now : Z) (b : breaker) : breaker :=
  match b with
  | Open n t => if recovery_timeout cb * ticks_per_second <? now - t then HalfOpen n else b
  | _ => b
  end.

Definition spec_fail (cb : CircuitBreaker) (now : Z) (b : breaker) : breaker :=
  let n := breaker_failures b + 1 in
  if failure_threshold cb <=? n
  then match b with Open _ t => Open n t | _ => Open n now end
  else match b with Closed _ => Closed n | HalfOpen _ => HalfOpen n | Open _ t => Open n t end.

(** A protected call: refused while open; otherwise made once, its outcome
    passed on; success closes, a failure is counted unless its class is
    exempt. *)
Definition spec_call {V} (cb : CircuitBreaker) (refusal : exn) (exempt : exn -> bool)
    (now : Z) (fr : result V) (b : breaker) : result V * bool * breaker :=
  match spec_look cb now b with
  | Open n t => (Err refusal, false, Open n t)
  | b' =>
      (fr, true, match fr with
                 | Ok _ => Closed 0
                 | Err e => if exempt e then b' else spec_fail cb now b'
                 end)
  end.

(** * Running one request *)

Lemma run_bind {V A B} now (fr : result V) (p : prog V A) (k : A -> prog V B) d :
  run now fr (pbind p k) d =
  match run now fr p d with
  | (Ok a, c, d') => let '(r, c', d'') := run now fr (k a) d' in (r, c || c', d'')
  | (Err e, c, d') => (Err e, c, d')
  end.
Proof.
  revert d. induction p as [a|e|key f IH|key v p IH|key f IH|ks p IH|f IH|f IH]; intros d; cbn;
    try (by rewrite IH).
  - by destruct (run now fr (k a) d) as [[??]?].
  - done.
  - rewrite IH. destruct (run now fr (f fr) d) as [[[a|e] c] d']; [|done].
    by destruct (run now fr (k a) d') as [[??]?].
Qed.

Lemma run_catch {V A} now (fr : result V) (p : prog V A) (h : exn -> prog V A) d :
  run now fr (pcatch p h) d =
  match run now fr p d with
  | (Ok a, c, d') => (Ok a, c, d')
  | (Err e, c, d') => let '(r, c', d'') := run now fr (h e) d' in (r, c || c', d'')
  end.
Proof.
  revert d. induction p as [a|e|key f IH|key v p IH|key f IH|ks p IH|f IH|f IH]; intros d; cbn;
    try (by rewrite IH).
  - done.
  - by destruct (run now fr (h e) d) as [[??]?].
  - rewrite IH. destruct (run now fr (f fr) d) as [[[a|e] c] d']; [done|].
    by destruct (run now fr (h e) d') as [[??]?].
Qed.

(** A store changed only in the keys of one service. *)
Definition only_keys_of (name : string) (d d' : redis) : Prop :=
  forall k, (forall f, f ∈ ["state"; "failures"; "opened_at"] -> k <> cb_key name f) ->
    d' !! k = d !! k.

Definition breaker_tag (b : breaker) : CircuitState :=
  match b with Closed _ => CLOSED | Open _ _ => OPEN | HalfOpen _ => HALF_OPEN end.

Lemma only_keys_refl n d : only_keys_of n d d.
Proof. by intros k _. Qed.
Lemma only_keys_trans n d1 d2 d3 : only_keys_of n d1 d2 -> only_keys_of n d2 d3 -> only_keys_of n d1 d3.
Proof. intros H1 H2 k Hk. by rewrite (H2 k Hk), (H1 k Hk). Qed.
Lemma only_keys_insert n f v d :
  f ∈ ["state"; "failures"; "opened_at"] -> only_keys_of n d (<[cb_key n f := v]> d).
Proof. intros Hf k Hk. apply lookup_insert_ne. apply not_eq_sym. by apply Hk. Qed.
Lemma only_keys_delete n f d :
  f ∈ ["state"; "failures"; "opened_at"] -> only_keys_of n d (delete (cb_key n f) d).
Proof. intros Hf k Hk. apply lookup_delete_ne. apply not_eq_sym. by apply Hk. Qed.
#[export] Hint Resolve only_keys_refl only_keys_insert only_keys_delete : cbkeys.
#[export] Hint Extern 3 (_ ∈ [_; _; _]) => set_solver : cbkeys.

Ltac only_keys := repeat first
  [ apply only_keys_refl
  | eapply only_keys_trans; [|apply only_keys_insert; set_solver]
  | eapply only_keys_trans; [|apply only_keys_delete; set_solver] ].

Lemma other_service_unchanged n m d d' :
  only_keys_of n d d' -> m <> n -> abstract m d' = abstract m d.
Proof.
  intros Hk Hne. unfold abstract.
  assert (forall f g, f ∈ ["state"; "failures"; "opened_at"] -> g ∈ ["state"; "failures"; "opened_at"] ->
                 cb_key m f <> cb_key n g) as HN.
  { intros f g Hf Hg. set_unfold. destruct_or!; subst; auto with cbkeys. }
  by rewrite !Hk by (intros g Hg; apply HN; set_solver).
Qed.

(** The three values of a service whose breaker is [b]. *)
Lemma abstract_inv n d b :
  abstract n d = Some b ->
  stored_failures (d !! cb_key n "failures") = Some (breaker_failures b) /\
  match b with
  | Closed _ => d !! cb_key n "state" = None \/
      exists raw, d !! cb_key n "state" = Some raw /\ (state_of_value raw = None \/ state_of_value raw = Some CLOSED)
  | HalfOpen _ => exists raw, d !! cb_key n "state" = Some raw /\ state_of_value raw = Some HALF_OPEN
  | Open _ t => (exists raw, d !! cb_key n "state" = Some raw /\ state_of_value raw = Some OPEN) /\
      d !! cb_key n "opened_at" = Some (RTime t)
  end.
Proof.
  unfold abstract. destruct (stored_failures _) as [k|]; [|done].
  destruct (d !! cb_key n "state") as [raw|]; [|naive_solver].
  destruct (state_of_value raw) as [[]|] eqn:E; [| |naive_solver..].
  - naive_solver.
  - destruct (d !! cb_key n "opened_at") as [[]|]; naive_solver.
Qed.

Lemma state_of_value_OPEN raw : state_of_value raw = Some OPEN <-> raw = RText "OPEN".
Proof.
  split; [|by intros ->]. destruct raw as [s| |]; cbn; try done.
  destruct (String.eqb_spec s "CLOSED"); [done|].
  destruct (String.eqb_spec s "OPEN") as [->|]; [done|].
  by destruct (String.eqb_spec s "HALF_OPEN").
Qed.

Section Refinement.
Context {V : Type} (cb : CircuitBreaker) (now : Z) (fr : result V).
Notation n := (cb_name cb).

Lemma get_state_refines d b :
  abstract n d = Some b ->
  exists d', run now fr (get_state cb) d = (Ok (breaker_tag (spec_look cb now b)), false, d') /\
    abstract n d' = Some (spec_look cb now b) /\ only_keys_of n d d'.
Proof.
  intros Hb. pose proof (abstract_inv _ _ _ Hb) as [Hf Hs].
  unfold get_state, _key_state, _key_opened_at, redis_get. cbn [pbind run].
  destruct b as [k|k t|k]; cbn [spec_look breaker_tag].
  - destruct Hs as [-> | (raw & -> & [-> | ->])]; cbn; eauto using only_keys_refl.
  - destruct Hs as [(raw & -> & ->) Ho]. cbn [pbind run]. rewrite Ho. cbn.
    destruct (_ <? now - t); cbn; [|eauto using only_keys_refl].
    eexists; split_and!; [done| |only_keys]. unfold abstract. redis_simpl. by rewrite Hf.
  - destruct Hs as (raw & -> & ->). cbn. eauto using only_keys_refl.
Qed.

Lemma incr_stored v k : stored_failures v = Some k -> incr_value v = Some (k + 1).
Proof. destruct v as [[]|]; cbn; intros; by simplify_eq. Qed.

Lemma record_failure_refines d b :
  abstract n d = Some b ->
  exists d', run now fr (record_failure cb) d = (Ok tt, false, d') /\
    abstract n d' = Some (spec_fail cb now b) /\ only_keys_of n d d'.
Proof.
  intros Hb. pose proof (abstract_inv _ _ _ Hb) as [Hf Hs]. pose proof (incr_stored _ _ Hf) as Hi.
  unfold record_failure, _key_state, _key_opened_at, _key_failures, redis_incr, spec_fail.
  cbn [pbind run]. unfold incr_store. rewrite Hi. cbn [pbind run].
  set (d1 := <[cb_key n "failures" := RInt (breaker_failures b + 1)]> d).
  assert (d1 !! cb_key n "failures" = Some (RInt (breaker_failures b + 1))) as H1
    by (unfold d1; by redis_simpl).
  assert (d1 !! cb_key n "state" = d !! cb_key n "state") as H2 by (unfold d1; by redis_simpl).
  assert (d1 !! cb_key n "opened_at" = d !! cb_key n "opened_at") as H3 by (unfold d1; by redis_simpl).
  assert (only_keys_of n d d1) as Hk by (unfold d1; only_keys).
  clearbody d1. destruct (failure_threshold cb <=? _).
  - unfold redis_get. cbn [pbind run]. rewrite H2. case_bool_decide as E.
    + exists d1. split_and!; [done| |done]. unfold abstract. rewrite H1, H2, E, H3. cbn.
      destruct b as [k|k t|k]; [exfalso|by destruct Hs as [_ ->]|exfalso];
        rewrite E in Hs; naive_solver.
    + eexists. split_and!; [done| |eapply only_keys_trans; [exact Hk|only_keys]].
      unfold abstract. redis_simpl. rewrite H1. cbn.
      destruct b as [k|k t|k]; [done| |done]. exfalso. apply E.
      destruct Hs as [(raw & -> & ->%state_of_value_OPEN) _]. done.
  - exists d1. split_and!; [done| |done]. unfold abstract. rewrite H1, H2, H3. cbn.
    destruct b as [k|k t|k].
    + by destruct Hs as [-> | (raw & -> & [-> | ->])].
    + by destruct Hs as [(raw & -> & ->) ->].
    + by destruct Hs as (raw & -> & ->).
Qed.

Lemma record_success_closes d :
  exists d', run now fr (record_success cb) d = (Ok tt, false, d') /\
    abstract n d' = Some (Closed 0) /\ only_keys_of n d d'.
Proof.
  unfold record_success, _key_state, _key_opened_at, _key_failures. eexists.
  split_and!; [done| |cbn; only_keys]. cbn. unfold abstract. by redis_simpl.
Qed.

(** A program whose first part did not make the protected call. *)
Lemma run_after {A B} (p : prog V A) (k : A -> prog V B) d a d' :
  run now fr p d = (Ok a, false, d') -> run now fr (pbind p k) d = run now fr (k a) d'.
Proof.
  intros E. rewrite run_bind, E. by destruct (run now fr (k a) d') as [[??]?].
Qed.

(** The common body of [call] and of the decorator's wrapper. *)
Definition protected (refusal : exn) (h : exn -> prog V V) : prog V V :=
  state <~ get_state cb ;
  if bool_decide (state = OPEN) then PRaise refusal
  else pcatch (r <~ await_func ; record_success cb ;~ PRet r) h.

Lemma protected_refines refusal (exempt : exn -> bool) (h : exn -> prog V V) d b :
  (forall e, h e = if exempt e then PRaise e else record_failure cb ;~ PRaise e) ->
  abstract n d = Some b ->
  exists d', run now fr (protected refusal h) d = (fst (spec_call cb refusal exempt now fr b), d') /\
    abstract n d' = Some (snd (spec_call cb refusal exempt now fr b)) /\ only_keys_of n d d'.
Proof.
  intros Hh Hb. destruct (get_state_refines d b Hb) as (d1 & R1 & A1 & K1).
  unfold protected, spec_call. rewrite (run_after _ _ _ _ _ R1).
  set (b1 := spec_look cb now b) in *. clearbody b1.
  case_bool_decide as EO; [destruct b1; cbn in *; by eauto|].
  assert (exists d', run now fr (pcatch (r <~ await_func ; record_success cb ;~ PRet r) h) d1
      = (fr, true, d') /\
      abstract n d' = Some (match fr with Ok _ => Closed 0
        | Err e => if exempt e then b1 else spec_fail cb now b1 end) /\ only_keys_of n d d')
    as (d' & R & A & K); [|exists d'; by destruct b1].
  rewrite run_catch, run_bind. cbn [run await_func]. destruct fr as [v|e] eqn:Ef; cbn [run].
  - destruct (record_success_closes d1) as (d2 & R2 & A2 & K2). rewrite Ef in R2.
    rewrite run_bind, R2. cbn. eauto using only_keys_trans.
  - rewrite Hh. destruct (exempt e); cbn [run]; [eauto|].
    destruct (record_failure_refines d1 b1 A1) as (d2 & R2 & A2 & K2). rewrite Ef in R2.
    rewrite run_bind, R2. cbn. eauto using only_keys_trans.
Qed.
End Refinement.

(** * Requests interleaved at every command *)

Section Interleaving.
Context {V : Type}.

(** A request whose answer nobody here looks at. *)
Definition forget {A} (p : prog V A) : prog V unit := pbind p (fun _ => PRet tt).

(** Whatever the code ever runs against the store: protected calls (in both
    forms), manual resets, status reads, for any service and any instance. *)
Inductive request : prog V unit -> Prop :=
  | request_call cb : request (forget (call cb))
  | request_wrapper svc : request (forget (circuit_breaker svc))
  | request_reset svc : request (forget (reset_circuit_breaker svc))
  | request_status cb : request (forget (get_status cb))
  | request_statuses : request (forget get_all_circuit_breaker_statuses).

(** One command of one request. *)
Inductive pstep (now : Z) : prog V unit * redis -> prog V unit * redis -> Prop :=
  | pstep_get k f d : pstep now (PGet k f, d) (f (d !! k), d)
  | pstep_set k v p d : pstep now (PSet k v p, d) (p, <[k := v]> d)
  | pstep_incr k f d : pstep now (PIncr k f, d) (f (incr_value (d !! k)), incr_store k d)
  | pstep_del ks p d : pstep now (PDel ks p, d) (p, delete_all ks d)
  | pstep_now f d : pstep now (PNow f, d) (f now, d)
  | pstep_func f d r : pstep now (PFunc f, d) (f r, d).

Record sys : Type := { store : redis; clock : Z; requests : list (prog V unit) }.

Inductive step : sys -> sys -> Prop :=
  | step_time s t : clock s <= t ->
      step s {| store := store s; clock := t; requests := requests s |}
  | step_arrive s p : request p ->
      step s {| store := store s; clock := clock s; requests := requests s ++ [p] |}
  | step_run s l p r p' d' : requests s = l ++ p :: r -> pstep (clock s) (p, store s) (p', d') ->
      step s {| store := d'; clock := clock s; requests := l ++ p' :: r |}.

Definition reachable (s : sys) : Prop :=
  exists t0, rtc step {| store := ∅; clock := t0; requests := [] |} s.

Definition finished (p : prog V unit) : Prop :=
  match p with PRet _ | PRaise _ => True | _ => False end.

(** ** The discipline every request follows *)

(** A stored value has the form the code reads it as. *)
Definition value_ok (k : string) (v : redis_value) : Prop :=
  (exists n s, k = cb_key n "state" /\ v = RText (state_value s)) \/
  (exists n m, k = cb_key n "failures" /\ v = RInt m) \/
  (exists n t, k = cb_key n "opened_at" /\ v = RTime t).

(** [follows b owes p]: run from a clock reading of at least [b] over
    well-formed values, [p] writes well-formed values only, stamps [opened_at]
    with times already past, never drops [opened_at] without the state, and
    after writing OPEN for a service writes its [opened_at] before it ends or
    opens another; [owes] is the service that still waits for it. *)
Fixpoint follows {A} (b : Z) (owes : option string) (p : prog V A) : Prop :=
  match p with
  | PRet _ | PRaise _ => owes = None
  | PGet k f => follows b owes (f None) /\ forall v, value_ok k v -> follows b owes (f (Some v))
  | PSet k v p' =>
      (exists n s, k = cb_key n "state" /\ v = RText (state_value s) /\
         (s = OPEN -> owes = None) /\ follows b (if decide (s = OPEN) then Some n else owes) p') \/
      (exists n t, k = cb_key n "opened_at" /\ v = RTime t /\ t <= b /\
         follows b (if decide (owes = Some n) then None else owes) p')
  | PIncr k f => (exists n, k = cb_key n "failures") /\ forall m, follows b owes (f (Some m))
  | PDel ks p' =>
      (forall n, cb_key n "opened_at" ∈ ks -> cb_key n "state" ∈ ks) /\ follows b owes p'
  | PNow f => forall t, b <= t -> follows t owes (f t)
  | PFunc f => forall r, follows b owes (f r)
  end.

Lemma follows_mono {A} (p : prog V A) b b' o : b <= b' -> follows b o p -> follows b' o p.
Proof.
  revert b b' o. induction p as [a|e|key f IH|key v p IH|key f IH|ks p IH|f IH|f IH];
    intros b b' o Hb; cbn; try done.
  - intros [H1 H2]. split; [by eapply IH|]. intros v Hv. eapply IH; [done|by apply H2].
  - intros [(n & s & -> & -> & Ho & Hf)|(n & t & -> & -> & Ht & Hf)].
    + left. exists n, s. eauto.
    + right. exists n, t. split_and!; [done..|lia|]. by eapply IH.
  - intros [H1 H2]. split; [done|]. intros m. by eapply IH.
  - intros [H1 H2]. split; [done|]. by eapply IH.
  - intros H t Ht. apply H. lia.
  - intros H r. by eapply IH.
Qed.

Lemma follows_bind {A B} (p : prog V A) (k : A -> prog V B) b o :
  follows b o p -> (forall b' a, b <= b' -> follows b' None (k a)) -> follows b o (pbind p k).
Proof.
  revert b o. induction p as [a|e|key f IH|key v p IH|key f IH|ks p IH|f IH|f IH];
    intros b o; cbn; try done.
  - intros -> Hk. apply Hk. lia.
  - intros [H1 H2] Hk. split; [by apply IH|]. intros v Hv. apply IH; auto.
  - intros [(n & s & -> & -> & Ho & Hf)|(n & t & -> & -> & Ht & Hf)] Hk.
    + left. exists n, s. eauto.
    + right. exists n, t. eauto.
  - intros [H1 H2] Hk. split; [done|]. intros m. by apply IH.
  - intros [H1 H2] Hk. split; [done|]. by apply IH.
  - intros H Hk t Ht. apply IH; [by apply H|]. intros b' a Hb. apply Hk. lia.
  - intros H Hk r. by apply IH.
Qed.

Lemma follows_catch {A} (p : prog V A) (h : exn -> prog V A) b o :
  follows b o p -> (forall b' e, b <= b' -> follows b' None (h e)) -> follows b o (pcatch p h).
Proof.
  revert b o. induction p as [a|e|key f IH|key v p IH|key f IH|ks p IH|f IH|f IH];
    intros b o; cbn; try done.
  - intros -> Hk. apply Hk. lia.
  - intros [H1 H2] Hk. split; [by apply IH|]. intros v Hv. apply IH; auto.
  - intros [(n & s & -> & -> & Ho & Hf)|(n & t & -> & -> & Ht & Hf)] Hk.
    + left. exists n, s. eauto.
    + right. exists n, t. eauto.
  - intros [H1 H2] Hk. split; [done|]. intros m. by apply IH.
  - intros [H1 H2] Hk. split; [done|]. by apply IH.
  - intros H Hk t Ht. apply IH; [by apply H|]. intros b' a Hb. apply Hk. lia.
  - intros H Hk r. by apply IH.
Qed.

Lemma value_ok_state n v : value_ok (cb_key n "state") v -> exists s, v = RText (state_value s).
Proof.
  intros [(m & s & E & ->)|[(m & k & E & ->)|(m & t & E & ->)]]; [eauto|exfalso..].
  - by eapply state_failures.
  - by eapply state_opened.
Qed.
Lemma value_ok_failures n v : value_ok (cb_key n "failures") v -> exists m, v = RInt m.
Proof.
  intros [(m & s & E & ->)|[(m & k & E & ->)|(m & t & E & ->)]]; [exfalso|eauto|exfalso].
  - symmetry in E. by eapply state_failures.
  - by eapply failures_opened.
Qed.
Lemma value_ok_opened n v : value_ok (cb_key n "opened_at") v -> exists t, v = RTime t.
Proof.
  intros [(m & s & E & ->)|[(m & k & E & ->)|(m & t & E & ->)]]; [exfalso..|eauto].
  - symmetry in E. by eapply state_opened.
  - symmetry in E. by eapply failures_opened.
Qed.

Lemma state_of_state_value s : state_of_value (RText (state_value s)) = Some s.
Proof. by destruct s. Qed.

(** ** Every operation follows it *)

Lemma get_state_follows cb b : follows b None (get_state (V := V) cb).
Proof.
  unfold get_state, _key_state, _key_opened_at. cbn. split; [done|].
  intros v [s ->]%value_ok_state. rewrite state_of_state_value.
  destruct s; cbn; try done. split; [done|]. intros v [t ->]%value_ok_opened now Hnow. cbn.
  destruct (_ <? _); cbn; [|done]. left. exists (cb_name cb), HALF_OPEN. naive_solver.
Qed.

Lemma record_failure_follows cb b : follows b None (record_failure (V := V) cb).
Proof.
  unfold record_failure, _key_state, _key_failures, _key_opened_at. cbn. split; [eauto|].
  intros m. destruct (_ <=? m); cbn; [|done].
  assert (forall b', follows b' None (redis_set (V := V) (cb_key (cb_name cb) "state") (RText (state_value OPEN)) ;~
      now <~ time_time ; redis_set (cb_key (cb_name cb) "opened_at") (RTime now))) as Hopen.
  { intros b'. cbn. left. exists (cb_name cb), OPEN. split_and!; [done..|]. cbn. intros t Ht.
    right. exists (cb_name cb), t. split_and!; [done..|lia|]. by rewrite decide_True. }
  split; [apply Hopen|]. intros v [s ->]%value_ok_state. case_bool_decide; [done|apply Hopen].
Qed.

Lemma record_success_follows cb b : follows b None (record_success (V := V) cb).
Proof.
  unfold record_success, _key_state, _key_failures, _key_opened_at. cbn.
  assert (forall n, cb_key n "opened_at" ∈ [cb_key (cb_name cb) "state"; cb_key (cb_name cb) "failures";
     cb_key (cb_name cb) "opened_at"] -> cb_key n "state" ∈ [cb_key (cb_name cb) "state";
     cb_key (cb_name cb) "failures"; cb_key (cb_name cb) "opened_at"]) as Hdel.
  { intros n Hn. set_unfold. destruct_or! Hn.
    - symmetry in Hn. by apply state_opened in Hn.
    - symmetry in Hn. by apply failures_opened in Hn.
    - apply cb_key_name in Hn as ->. by left. }
  assert (follows b None (redis_set (V := V) (cb_key (cb_name cb) "state") (RText (state_value CLOSED))))
    as Hset by (left; exists (cb_name cb), CLOSED; by split_and!).
  split; [|intros v _]; (split; [exact Hdel|exact Hset]).
Qed.

Lemma get_status_follows cb b : follows b None (get_status (V := V) cb).
Proof.
  unfold get_status, _key_failures, _key_opened_at. apply follows_bind; [apply get_state_follows|].
  intros b' s _. cbn.
  split; [split; [done|]; by intros v [t ->]%value_ok_opened|].
  intros v [m ->]%value_ok_failures. cbn. split; [done|]. by intros v [t ->]%value_ok_opened.
Qed.

Lemma protected_follows cb refusal (h : exn -> prog V V) b :
  (forall b' e, follows b' None (h e)) -> follows b None (protected cb refusal h).
Proof.
  intros Hh. apply follows_bind; [apply get_state_follows|]. intros b1 s _.
  case_bool_decide; [done|]. apply follows_catch; [|by intros; apply Hh].
  apply follows_bind; [by intros [v|e]|]. intros b2 v _.
  apply follows_bind; [apply record_success_follows|done].
Qed.

Lemma fail_and_raise_follows cb e b : follows b None (record_failure cb ;~ PRaise e : prog V V).
Proof. apply follows_bind; [apply record_failure_follows|done]. Qed.

Lemma request_follows p b : request p -> follows b None p.
Proof.
  assert (forall A (q : prog V A), follows b None q -> follows b None (forget q)) as Hf
    by (intros A q Hq; by apply follows_bind).
  intros [cb|svc|svc|cb|]; apply Hf; clear Hf.
  - apply (protected_follows cb). intros b' e. case_decide; [done|apply fail_and_raise_follows].
  - apply (protected_follows (get_circuit_breaker svc)).
    intros b' e. destruct e; first [done | apply fail_and_raise_follows].
  - unfold reset_circuit_breaker. destruct (existsb _ _); [|done].
    apply follows_bind; [apply record_success_follows|done].
  - apply get_status_follows.
  - unfold get_all_circuit_breaker_statuses. generalize KNOWN_SERVICES. intros l. revert b.
    induction l as [|svc l IH]; intros b; cbn [foldr]; [done|].
    apply follows_bind; [apply follows_catch; [apply get_status_follows|done]|].
    intros b' st _. apply follows_bind; [apply IH|done].
Qed.

(** ** The invariant of every interleaving *)

Definition opening_recorded (s : sys) (n : string) : Prop :=
  exists t, store s !! cb_key n "opened_at" = Some (RTime t) /\ t <= clock s.

(** The store is well formed, no recorded opening lies in the future, and an
    open breaker has its opening recorded or a request about to record it. *)
Record sys_ok (s : sys) : Prop := {
  ok_values : forall k v, store s !! k = Some v -> value_ok k v;
  ok_past : forall n t, store s !! cb_key n "opened_at" = Some (RTime t) -> t <= clock s;
  ok_open : exists os,
    Forall2 (follows (clock s)) os (requests s) /\
    forall n, store s !! cb_key n "state" = Some (RText (state_value OPEN)) ->
      opening_recorded s n \/ Some n ∈ os
}.

Lemma redis_delete_lookup ks (d : redis) k :
  delete_all ks d !! k = if decide (k ∈ ks) then None else d !! k.
Proof.
  unfold delete_all. induction ks as [|x ks IH]; cbn [foldr].
  - rewrite decide_False by set_solver. done.
  - destruct (decide (k = x)) as [->|Hne].
    + rewrite lookup_delete_eq, decide_True by set_solver. done.
    + rewrite lookup_delete_ne, IH by congruence. by repeat case_decide; set_solver.
Qed.

Definition values_ok (d : redis) : Prop := forall k v, d !! k = Some v -> value_ok k v.
Definition past_ok (now : Z) (d : redis) : Prop :=
  forall n t, d !! cb_key n "opened_at" = Some (RTime t) -> t <= now.
Definition recorded (now : Z) (d : redis) (n : string) : Prop :=
  exists t, d !! cb_key n "opened_at" = Some (RTime t) /\ t <= now.
Definition is_open (d : redis) (n : string) : Prop :=
  d !! cb_key n "state" = Some (RText (state_value OPEN)).

(** What one command may do to a service that is open afterwards. *)
Definition keeps_record (now : Z) (d d' : redis) (o o' : option string) : Prop :=
  forall n, is_open d' n ->
    o' = Some n \/
    (is_open d n /\ (recorded now d n -> recorded now d' n) /\
     (o = Some n -> o' = Some n \/ recorded now d' n)).

Lemma keeps_record_same now d d' o :
  (forall n f, f ∈ ["state"; "opened_at"] -> d' !! cb_key n f = d !! cb_key n f) ->
  keeps_record now d d' o o.
Proof.
  intros H n Hn. right. unfold is_open, recorded in *.
  rewrite (H n "state") in Hn by set_solver. rewrite (H n "opened_at") by set_solver. auto.
Qed.

Lemma values_ok_insert d k v : values_ok d -> value_ok k v -> values_ok (<[k := v]> d).
Proof. intros Hd Hk k' v' [[<- <-]|[_ H]]%lookup_insert_Some; eauto. Qed.

Lemma past_ok_other now d k v :
  past_ok now d -> (forall n, k <> cb_key n "opened_at") -> past_ok now (<[k := v]> d).
Proof. intros Hd Hk n t. rewrite lookup_insert_ne by auto. apply Hd. Qed.

Lemma set_state_keeps now d n0 s0 o :
  (s0 = OPEN -> o = None) ->
  keeps_record now d (<[cb_key n0 "state" := RText (state_value s0)]> d) o
    (if decide (s0 = OPEN) then Some n0 else o).
Proof.
  intros Ho n Hn. unfold is_open, recorded in *. destruct (decide (n = n0)) as [->|Hne].
  - rewrite lookup_insert_eq in Hn. assert (s0 = OPEN) as -> by (by destruct s0). by left.
  - rewrite lookup_insert_ne in Hn by auto with cbkeys. right.
    rewrite lookup_insert_ne by auto with cbkeys. split_and!; [done|auto|].
    intros E. case_decide; [|auto]. rewrite Ho in E by done. done.
Qed.

Lemma set_opened_keeps now d n0 t o :
  t <= now ->
  keeps_record now d (<[cb_key n0 "opened_at" := RTime t]> d) o
    (if decide (o = Some n0) then None else o).
Proof.
  intros Ht n Hn. unfold is_open, recorded in *.
  rewrite lookup_insert_ne in Hn by auto with cbkeys. right.
  destruct (decide (n = n0)) as [->|Hne].
  - rewrite lookup_insert_eq. split_and!; eauto.
  - rewrite lookup_insert_ne by auto with cbkeys. split_and!; [done..|].
    intros ->. rewrite decide_False by congruence. by left.
Qed.

Lemma delete_keeps now d ks o :
  (forall n, cb_key n "opened_at" ∈ ks -> cb_key n "state" ∈ ks) ->
  keeps_record now d (delete_all ks d) o o.
Proof.
  intros Hks n Hn. unfold is_open, recorded in *. rewrite redis_delete_lookup in Hn.
  case_decide as E; [done|]. right. rewrite redis_delete_lookup, decide_False by auto. auto.
Qed.

Lemma incr_value_ok d n :
  values_ok d -> exists m, incr_value (d !! cb_key n "failures") = Some m.
Proof.
  intros Hd. destruct (d !! cb_key n "failures") as [v|] eqn:E; [|by eexists].
  apply Hd, value_ok_failures in E as [m ->]. by eexists.
Qed.

Lemma pstep_follows now p d p' d' o :
  follows now o p -> pstep now (p, d) (p', d') -> values_ok d -> past_ok now d ->
  exists o', follows now o' p' /\ values_ok d' /\ past_ok now d' /\ keeps_record now d d' o o'.
Proof.
  intros Hp Hs Hv Ht. inversion Hs; subst; clear Hs; cbn in Hp.
  - exists o. split_and!; [|done..|by apply keeps_record_same].
    destruct Hp as [H1 H2]. destruct (d' !! k) eqn:E; [by apply H2, Hv|done].
  - destruct Hp as [(n & s & -> & -> & Ho & Hf)|(n & t & -> & -> & Hb & Hf)].
    + eexists. split_and!; [exact Hf| | |by apply set_state_keeps].
      * apply values_ok_insert; [done|]. left. eauto.
      * apply past_ok_other; auto with cbkeys.
    + eexists. split_and!; [exact Hf| | |by apply set_opened_keeps].
      * apply values_ok_insert; [done|]. do 2 right. eauto.
      * intros m u [[E1 [= <-]]|[_ H]]%lookup_insert_Some; [done|by eapply Ht].
  - destruct Hp as [[n ->] Hf]. destruct (incr_value_ok d n Hv) as [m Hm]. unfold incr_store. rewrite Hm.
    exists o. split_and!; [apply Hf| | |].
    + apply values_ok_insert; [done|]. right. left. eauto.
    + apply past_ok_other; auto with cbkeys.
    + apply keeps_record_same. intros m' fld Hfld. apply lookup_insert_ne.
      set_unfold. destruct_or! Hfld; subst; auto with cbkeys.
  - destruct Hp as [Hk Hf]. exists o. split_and!; [done| | |by apply delete_keeps].
    + intros k v. rewrite redis_delete_lookup. case_decide; [done|]. apply Hv.
    + intros n t. rewrite redis_delete_lookup. case_decide; [done|]. apply Ht.
  - exists o. split_and!; [by apply Hp|done..|by apply keeps_record_same].
  - exists o. split_and!; [by apply Hp|done..|by apply keeps_record_same].
Qed.

Lemma step_ok s s' : sys_ok s -> step s s' -> sys_ok s'.
Proof.
  intros [Hv Ht (os & Hos & Ho)] Hs. destruct Hs as [s t Hle|s p Hp|s l p r p' d' E Hs].
  - split; cbn; [done|intros n u Hu; etrans; [by eapply Ht|done]|].
    exists os. split; [eapply Forall2_impl; [exact Hos|]; intros; by eapply follows_mono|].
    intros n Hn. destruct (Ho n Hn) as [(u & ? & ?)|]; [left; exists u; split; [done|cbn; lia]|by right].
  - split; cbn; [done..|]. exists (os ++ [None]). split.
    + apply Forall2_app; [done|]. constructor; [by apply request_follows|constructor].
    + intros n Hn. destruct (Ho n Hn); [by left|right; set_solver].
  - rewrite E in Hos. apply Forall2_app_inv_r in Hos as (ol & or_ & Hl & Hr & ->).
    inversion Hr as [|o ? or' ? Hp Hr']; subst.
    destruct (pstep_follows _ _ _ _ _ _ Hp Hs Hv Ht) as (o' & Hf & Hv' & Ht' & Hk).
    split; cbn; [done..|]. exists (ol ++ o' :: or'). split.
    { apply Forall2_app; [done|]. by constructor. }
    intros n Hn. destruct (Hk n Hn) as [->|(H1 & H2 & H3)]; [right; set_solver|].
    destruct (Ho n H1) as [Hrec|[Hin|[Hin|Hin]%elem_of_cons]%elem_of_app].
    + left. apply H2, Hrec.
    + right. set_solver.
    + destruct (H3 (eq_sym Hin)) as [->|]; [right; set_solver|by left].
    + right. set_solver.
Qed.

Lemma reachable_ok s : reachable s -> sys_ok s.
Proof.
  intros [t0 H]. remember {| store := ∅; clock := t0; requests := [] |} as s0 eqn:E0.
  assert (sys_ok s0) as H0.
  { subst. split; cbn; [intros k v; by rewrite lookup_empty|intros n t; by rewrite lookup_empty|].
    exists []. split; [constructor|]. intros n. by rewrite lookup_empty. }
  clear E0. induction H as [|s1 s2 s3 Hs _ IH]; [done|]. by apply IH, step_ok with s1.
Qed.

(** ** Every request can run to its end *)

Lemma prog_finishes now p d : exists p' d',
  rtc (pstep now) (p, d) (p', d') /\ finished p'.
Proof.
  revert d. induction p as [a|e|key f IH|key v p IH|key f IH|ks p IH|f IH|f IH]; intros d.
  - exists (PRet a), d. by split; [apply rtc_refl|].
  - exists (PRaise e), d. by split; [apply rtc_refl|].
  - destruct (IH (d !! key) d) as (p' & d' & H & Hf). exists p', d'. split; [|done].
    eapply rtc_l; [constructor|done].
  - destruct (IH (<[key := v]> d)) as (p' & d' & H & Hf). exists p', d'. split; [|done].
    eapply rtc_l; [constructor|done].
  - destruct (IH (incr_value (d !! key)) (incr_store key d)) as (p' & d' & H & Hf).
    exists p', d'. split; [|done]. eapply rtc_l; [constructor|done].
  - destruct (IH (delete_all ks d)) as (p' & d' & H & Hf). exists p', d'. split; [|done].
    eapply rtc_l; [constructor|done].
  - destruct (IH now d) as (p' & d' & H & Hf). exists p', d'. split; [|done].
    eapply rtc_l; [constructor|done].
  - destruct (IH (Err RuntimeError) d) as (p' & d' & H & Hf). exists p', d'. split; [|done].
    eapply rtc_l; [constructor|done].
Qed.

Lemma pstep_lift now l r a b :
  rtc (pstep now) a b ->
  rtc step {| store := a.2; clock := now; requests := l ++ a.1 :: r |}
           {| store := b.2; clock := now; requests := l ++ b.1 :: r |}.
Proof.
  induction 1 as [a|[q d] [q1 d1] c H1 H2 IH]; [apply rtc_refl|]. cbn in *.
  eapply rtc_l; [|exact IH]. by apply (step_run {| store := d; clock := now; requests := l ++ q :: r |} l q r).
Qed.

Lemma drain s l r : requests s = l ++ r -> Forall finished l ->
  exists s', rtc step s s' /\ clock s' = clock s /\ Forall finished (requests s').
Proof.
  revert s l. induction r as [|p r IH]; intros s l E Hl.
  - exists s. rewrite E, app_nil_r. split_and!; [apply rtc_refl|done..].
  - destruct (prog_finishes (clock s) p (store s)) as (p' & d' & H & Hf).
    apply (pstep_lift (clock s) l r) in H as H1. cbn in H1.
    replace {| store := store s; clock := clock s; requests := l ++ p :: r |} with s in H1
      by (rewrite <- E; by destruct s).
    destruct (IH {| store := d'; clock := clock s; requests := l ++ p' :: r |} (l ++ [p']))
      as (s' & H2 & Hc & Hd); cbn.
    + by rewrite <- app_assoc.
    + apply Forall_app. split; [done|by constructor].
    + exists s'. split_and!; [by etrans|done..].
Qed.

End Interleaving.

(** * What the breaker promises *)

Lemma call_eq {V} cb : call (V := V) cb =
  protected cb CircuitOpenError
    (fun e => if decide (e = CircuitOpenError) then PRaise e else record_failure cb ;~ PRaise e).
Proof. done. Qed.

Definition is_circuit_open (e : exn) : bool := bool_decide (e = CircuitOpenError).
Definition is_http (e : exn) : bool := match e with HTTPException _ => true | _ => false end.

Lemma call_refines {V} cb now (fr : result V) d b :
  abstract (cb_name cb) d = Some b ->
  exists d', run now fr (call cb) d = (fst (spec_call cb CircuitOpenError is_circuit_open now fr b), d') /\
    abstract (cb_name cb) d' = Some (snd (spec_call cb CircuitOpenError is_circuit_open now fr b)) /\
    only_keys_of (cb_name cb) d d'.
Proof.
  intros Hb. rewrite call_eq. apply protected_refines; [|done].
  intros e. unfold is_circuit_open. by case_decide; case_bool_decide.
Qed.

(** C36: The breaker implements its abstract machine: on a store that holds
    a breaker value for the service, a protected call, in the [call] form and
    in the decorator's, returns what the machine returns, makes the protected
    function run exactly when the machine lets it, leaves the store holding
    the machine's next value, and changes no other service's breaker. *)
Theorem breaker_refines {V} cb svc now (fr : result V) d b b2 :
  abstract (cb_name cb) d = Some b -> abstract svc d = Some b2 ->
  (exists d', run now fr (call cb) d
       = (fst (spec_call cb CircuitOpenError is_circuit_open now fr b), d') /\
     abstract (cb_name cb) d' = Some (snd (spec_call cb CircuitOpenError is_circuit_open now fr b)) /\
     forall m, m <> cb_name cb -> abstract m d' = abstract m d) /\
  (exists d', run now fr (circuit_breaker svc) d
       = (fst (spec_call (get_circuit_breaker svc) (HTTPException 503) is_http now fr b2), d') /\
     abstract svc d'
       = Some (snd (spec_call (get_circuit_breaker svc) (HTTPException 503) is_http now fr b2)) /\
     forall m, m <> svc -> abstract m d' = abstract m d).
Proof.
  intros Hb Hb2. split.
  - destruct (call_refines cb now fr d b Hb) as (d' & R & A & K). exists d'.
    split_and!; [done..|]. intros m Hm. by eapply other_service_unchanged.
  - destruct (protected_refines (get_circuit_breaker svc) now fr (HTTPException 503) is_http
      (fun e => match e with HTTPException _ => PRaise e
                | _ => record_failure (get_circuit_breaker svc) ;~ PRaise e end) d b2) as (d' & R & A & K);
      [by intros []|done|]. exists d'. split_and!; [done..|].
    intros m Hm. by eapply (other_service_unchanged svc).
Qed.

Lemma breaker_refines_witness :
  exists d', run 0 (Ok true) (call qb_circuit) ∅ = (Ok true, true, d') /\
    abstract "qb_api" d' = Some (Closed 0).
Proof.
  destruct (breaker_refines (V := bool) qb_circuit "stripe_api" 0 (Ok true) ∅ (Closed 0) (Closed 0))
    as [(d' & R & A & _) _]; [reflexivity..|]. exists d'. split; [exact R|exact A].
Defined.

Lemma values_ok_abstract d n :
  values_ok d -> exists m, stored_failures (d !! cb_key n "failures") = Some m.
Proof.
  intros Hd. destruct (d !! cb_key n "failures") as [v|] eqn:E; [|by eexists].
  apply Hd, value_ok_failures in E as [m ->]. by eexists.
Qed.

Lemma get_state_total {V} cb now (fr : result V) d :
  values_ok d ->
  exists s d', run now fr (get_state cb) d = (Ok s, false, d') /\ values_ok d'.
Proof.
  intros Hd. unfold get_state, _key_state, _key_opened_at. cbn.
  destruct (d !! cb_key (cb_name cb) "state") as [v|] eqn:E; [|by eauto].
  apply Hd, value_ok_state in E as [s ->]. rewrite state_of_state_value.
  destruct s; cbn; eauto.
  destruct (d !! cb_key (cb_name cb) "opened_at") as [v|] eqn:E; cbn; [|by eauto].
  apply Hd, value_ok_opened in E as [t ->]. cbn. destruct (_ <? _); cbn; [|by eauto].
  eexists _, _. split; [done|]. apply values_ok_insert; [done|]. left. by exists (cb_name cb), HALF_OPEN.
Qed.

(** C37: The store stays well typed: in every state reached by any
    interleaving of any requests of any breaker instances, command by command,
    a state key holds one of the three state names, a failures key an integer
    and an opened-at key a clock reading, so that the status page of every
    service is computed without an error. *)
Theorem breaker_store_typed {V} (s : sys (V := V)) :
  reachable s ->
  values_ok (store s) /\
  forall cb now (fr : result V), exists st d',
    run now fr (get_status cb) (store s) = (Ok st, false, d') /\ st_name st = cb_name cb.
Proof.
  intros [Hv _ _]%reachable_ok. split; [done|]. intros cb now fr. unfold get_status.
  destruct (get_state_total cb now fr (store s) Hv) as (cs & d1 & R & Hv1).
  rewrite (run_after now fr _ _ _ _ _ R). unfold _key_failures, _key_opened_at. cbn.
  assert (exists m, forall k : Z -> prog V Status,
    run now fr (pbind (match d1 !! cb_key (cb_name cb) "failures" with
                       | Some v => py_int v | None => PRet 0 end) k) d1
    = run now fr (k m) d1) as [m ->].
  { destruct (d1 !! cb_key (cb_name cb) "failures") as [v|] eqn:E; [|by exists 0].
    apply Hv1, value_ok_failures in E as [m ->]. by exists m. }
  destruct (d1 !! cb_key (cb_name cb) "opened_at") as [v|] eqn:E; cbn; [|by eauto].
  apply Hv1, value_ok_opened in E as [t ->]. cbn. eauto.
Qed.

Lemma breaker_store_typed_witness :
  exists st d', run 0 (Ok tt) (get_status qb_circuit) ∅ = (Ok st, false, d') /\ st_name st = "qb_api".
Proof.
  apply (breaker_store_typed (V := unit) {| store := ∅; clock := 0; requests := [] |}).
  exists 0. apply rtc_refl.
Defined.

(** C38: The breaker recovers: from every state reached by any interleaving
    of requests, all requests under way can run to their end; and whenever
    they have, a call made more than the recovery timeout later is let
    through, whatever the breaker's state, its outcome is passed on, and if
    it succeeds the circuit is closed with no failures counted. *)
Theorem breaker_recovers {V} (s : sys (V := V)) :
  reachable s ->
  (exists s', rtc step s s' /\ clock s' = clock s /\ Forall finished (requests s')) /\
  (Forall finished (requests s) ->
   forall cb now (fr : result V),
     clock s + recovery_timeout cb * ticks_per_second < now ->
     exists d', run now fr (call cb) (store s) = (fr, true, d') /\
       forall v, fr = Ok v -> abstract (cb_name cb) d' = Some (Closed 0)).
Proof.
  intros Hr. split; [by apply (drain s [] (requests s))|].
  intros Hfin cb now fr Hnow. apply reachable_ok in Hr as [Hv Ht (os & Hos & Ho)].
  assert (forall n, Some n ∉ os) as Hnone.
  { intros n Hin. clear Ho. induction Hos as [|o p os ps Hp _ IH]; [set_solver|].
    inversion Hfin; subst. apply elem_of_cons in Hin as [<-|?]; [|by apply IH].
    destruct p; try done. }
  destruct (values_ok_abstract (store s) (cb_name cb) Hv) as [m Hm].
  assert (exists b, abstract (cb_name cb) (store s) = Some b /\
                    match spec_look cb now b with Open _ _ => False | _ => True end) as (b & Hb & Hl).
  { unfold abstract. rewrite Hm. destruct (_ !! cb_key (cb_name cb) "state") as [v|] eqn:E; [|by exists (Closed m)].
    pose proof E as E'. apply Hv, value_ok_state in E as [cs ->]. rewrite state_of_state_value.
    destruct cs; [by exists (Closed m)| |by exists (HalfOpen m)].
    destruct (Ho _ E') as [(t & -> & Hle)|?]; [|by destruct (Hnone (cb_name cb))].
    eexists; split; [done|]. cbn [spec_look]. destruct (Z.ltb_spec (recovery_timeout cb * ticks_per_second) (now - t)); [done|lia]. }
  destruct (call_refines cb now fr (store s) b Hb) as (d' & R & A & _). exists d'.
  unfold spec_call in *. rewrite R.
  destruct (spec_look cb now b); [|done|]; (split; [done|]); intros v ->; exact A.
Qed.

Lemma breaker_recovers_witness :
  exists d', run (120 * ticks_per_second + 1) (Ok true) (call qb_circuit) ∅ = (Ok true, true, d').
Proof.
  destruct (breaker_recovers (V := bool) {| store := ∅; clock := 0; requests := [] |}) as [_ H].
  - exists 0. apply rtc_refl.
  - destruct (H (List.Forall_nil _) qb_circuit (120 * ticks_per_second + 1) (Ok true)) as (d' & R & _);
      [reflexivity|]. exists d'. exact R.
Defined.

(** A run of calls, one after another; whether each was let through. *)
Fixpoint call_all {V} (cb : CircuitBreaker) (l : list (Z * result V)) (d : redis) : list bool * redis :=
  match l with
  | [] => ([], d)
  | (now, fr) :: l' =>
      let '(_, made, d') := run now fr (call cb) d in
      let '(flags, d'') := call_all cb l' d' in (made :: flags, d'')
  end.

Definition counted_failure {V} (c : Z * result V) : Prop :=
  exists e, snd c = Err e /\ e <> CircuitOpenError.

Lemma call_all_open {V} cb k t (l : list (Z * result V)) d :
  abstract (cb_name cb) d = Some (Open k t) ->
  Forall (fun c => fst c - t <= recovery_timeout cb * ticks_per_second) l ->
  fst (call_all cb l d) = replicate (length l) false.
Proof.
  intros Hb Hl. revert d Hb. induction Hl as [|[now fr] l Ht Hl IH]; intros d Hb; [done|].
  destruct (call_refines cb now fr d _ Hb) as (d' & R & A & _). cbn in Ht, R, A |- *.
  unfold spec_call in *. cbn in R, A.
  destruct (Z.ltb_spec (recovery_timeout cb * ticks_per_second) (now - t)); [lia|].
  rewrite R. cbn in A |- *. specialize (IH d' A). destruct (call_all cb l d') as [flags d'']. cbn in *. by rewrite IH.
Qed.

Lemma call_all_closed {V} cb k (fails rest : list (Z * result V)) last d :
  abstract (cb_name cb) d = Some (Closed k) ->
  Forall counted_failure (fails ++ [last]) ->
  k + Z.of_nat (length (fails ++ [last])) = failure_threshold cb ->
  Forall (fun c => fst c - fst last <= recovery_timeout cb * ticks_per_second) rest ->
  fst (call_all cb (fails ++ last :: rest) d)
  = replicate (length (fails ++ [last])) true ++ replicate (length rest) false.
Proof.
  intros Hb Hf Hn Hr. revert k d Hb Hn. induction fails as [|[now fr] fails IH]; intros k d Hb Hn.
  - destruct last as [now fr]. cbn in Hf, Hn, Hr |- *.
    inversion Hf as [|?? (e & He & Hne) _]; subst; cbn in He; subst fr.
    destruct (call_refines (V := V) cb now (Err e) d _ Hb) as (d' & R & A & _).
    unfold spec_call, is_circuit_open, spec_fail in *. cbn in R, A. rewrite R.
    rewrite bool_decide_eq_false_2 in A by done.
    destruct (Z.leb_spec (failure_threshold cb) (k + 1)) as [_|]; [|lia].
    pose proof (call_all_open cb _ _ rest d' A Hr) as Hopen.
    destruct (call_all cb rest d') as [flags d'']. cbn in *. by rewrite Hopen.
  - cbn in Hf, Hn |- *. apply Forall_cons in Hf as [(e & He & Hne) Hf]. cbn in He; subst fr.
    destruct (call_refines (V := V) cb now (Err e) d _ Hb) as (d' & R & A & _).
    unfold spec_call, is_circuit_open, spec_fail in *. cbn in R, A. rewrite R.
    rewrite bool_decide_eq_false_2 in A by done. rewrite length_app in Hn. cbn in Hn.
    destruct (Z.leb_spec (failure_threshold cb) (k + 1)) as [|_]; [lia|].
    specialize (IH Hf (k + 1) d' A). destruct (call_all cb _ d') as [flags d'']. cbn in *.
    rewrite IH; [done|]. rewrite length_app. cbn. lia.
Qed.

(** The breaker trips at its threshold: from a closed circuit with no
    failures counted, exactly [failure_threshold] consecutive failing calls are
    let through, and every call within the recovery timeout of the last of
    them is refused without running the protected function. *)
Theorem breaker_trips {V} cb (fails rest : list (Z * result V)) last d :
  abstract (cb_name cb) d = Some (Closed 0) ->
  Forall counted_failure (fails ++ [last]) ->
  Z.of_nat (length (fails ++ [last])) = failure_threshold cb ->
  Forall (fun c => fst c - fst last <= recovery_timeout cb * ticks_per_second) rest ->
  fst (call_all cb (fails ++ last :: rest) d)
  = replicate (Z.to_nat (failure_threshold cb)) true ++ replicate (length rest) false.
Proof.
  intros Hb Hf Hn Hr. rewrite (call_all_closed cb 0) by (done || lia). repeat f_equal. lia.
Qed.

Lemma breaker_trips_witness :
  fst (call_all stripe_circuit
    [(1, Err ValueError); (2, Err ValueError); (3, Err TypeError); (4, Ok tt); (5, Ok tt)] ∅)
  = [true; true; true; false; false].
Proof.
  apply (breaker_trips stripe_circuit [(1, Err ValueError); (2, Err ValueError)]
           [(4, Ok tt); (5, Ok tt)] (3, Err TypeError) ∅).
  - reflexivity.
  - repeat constructor; eexists; (split; [reflexivity|discriminate]).
  - reflexivity.
  - repeat constructor; vm_compute; discriminate.
Defined.

(** A half-open breaker admits every request that arrives before one of them
    ends, not a single probe: any number of calls can be inside the protected
    function at once. *)
Lemma half_open_admits_many {V} cb (s : sys (V := V)) k m :
  abstract (cb_name cb) (store s) = Some (HalfOpen k) ->
  exists f s', rtc step s s' /\ store s' = store s /\
    requests s' = requests s ++ replicate m (PFunc f).
Proof.
  intros (_ & raw & E & Hraw)%abstract_inv.
  assert (exists F (body : result V -> prog V unit),
    forget (call cb) = PGet (_key_state cb) F /\ F (Some raw) = PFunc body) as (F & body & EF & EB).
  { eexists _, _. split; [reflexivity|]. cbn. rewrite Hraw. reflexivity. }
  exists body. induction m as [|m (s1 & H1 & Hs1 & Hr1)].
  - exists s. rewrite app_nil_r. by split_and!; [apply rtc_refl|..].
  - eexists {| store := store s1; clock := clock s1; requests := (requests s1) ++ [PFunc body] |}.
    split_and!; cbn; [|done|].
    + etrans; [exact H1|]. eapply rtc_l; [apply (step_arrive _ _ (request_call cb))|].
      eapply rtc_once.
      eapply (step_run {| store := store s1; clock := clock s1; requests := requests s1 ++ [forget (call cb)] |}
                _ (forget (call cb)) []); [done|]. cbn [clock store].
      rewrite EF, <- EB.
      replace (Some raw) with (store s1 !! _key_state cb) by (by rewrite Hs1). constructor.
    + rewrite Hr1, <- app_assoc. f_equal. by rewrite <- replicate_S_end.
Qed.
