(* ===== verification/AuditChain.v ===== *)
(** * The hash-chained audit log

    [core/audit.py]: how a row is attributed, canonicalised, hashed over its
    predecessor and appended; the two verifiers, [verify_audit_chain] and
    [audit_chain_report]; and the verdict [audit_chain_broken] that alerts.
    [routers/audit.py]: the scoped answer of the verification endpoint.

    A row's details are JSON values: an object other than the JSON types is
    [JDefault] with its [str], as [default=str] renders it; keys are strings.
    [json.loads] of a dump is [json_normal].  Timestamps are microseconds, UTC.
    The installation of the immutability triggers is not modelled; that the
    log is only ever appended to is what [audit_step] states. *)

From S2P Require Import Prelude PyStr Models Keys.

Local Open Scope Z_scope.

(** * Details *)

Inductive jval : Type :=
  | JNull | JBool (b : bool) | JInt (z : Z) | JFloat (repr : string) | JStr (s : string)
  | JUuid (u : uuid)
  | JDefault (shown : string)
  | JList (l : list jval) | JTuple (l : list jval)
  | JDict (items : list (string * jval)).

Definition jdict : Type := list (string * jval).

Definition uuid_to_str (x : jval) : jval :=
  match x with JUuid u => JStr (str_uuid u) | _ => x end.

Fixpoint _sanitize_value (v : jval) : jval :=
  match v with
  | JUuid u => JStr (str_uuid u)
  | JDict items => JDict (map (fun kv => (fst kv, _sanitize_value (snd kv))) items)
  | JList l | JTuple l => JList (map uuid_to_str l)
  | _ => v
  end.

Definition _sanitize_details (d : jdict) : jdict :=
  map (fun kv => (fst kv, _sanitize_value (snd kv))) d.

(** [k1 <= k2] on the keys of two items. *)
Definition item_le {A} (x y : string * A) : bool := negb (String.ltb (fst y) (fst x)).

(** [json.dumps(v, sort_keys=True, separators=(",", ":"), default=str)] *)
Fixpoint audit_dumps (v : jval) : string :=
  match v with
  | JNull => "null"
  | JBool b => if b then "true" else "false"
  | JInt z => pretty z
  | JFloat r => r
  | JStr s => json_string s
  | JUuid u => json_string (str_uuid u)
  | JDefault s => json_string s
  | JList l | JTuple l => "[" +:+ str_join "," (map audit_dumps l) +:+ "]"
  | JDict items =>
      "{" +:+ str_join "," (map (fun kv => json_string (fst kv) +:+ ":" +:+ snd kv)
                 (stable_sort item_le (map (fun kv => (fst kv, audit_dumps (snd kv))) items))) +:+ "}"
  end.

(** What [json.loads] reads back from the text [audit_dumps] wrote. *)
Fixpoint json_normal (v : jval) : jval :=
  match v with
  | JUuid u => JStr (str_uuid u)
  | JDefault s => JStr s
  | JList l | JTuple l => JList (map json_normal l)
  | JDict items => JDict (stable_sort item_le (map (fun kv => (fst kv, json_normal (snd kv))) items))
  | _ => v
  end.

Definition _payload_json (payload : jdict) : string := audit_dumps (JDict payload).

(** [json.loads(_payload_json(details))] *)
Definition reloaded (details : jdict) : jdict :=
  stable_sort item_le (map (fun kv => (fst kv, json_normal (snd kv))) details).

(** [field_changes]: what an update's row records. *)
Section FieldChanges.
Context {A : Type} `{EqDecision A}.
Inductive change : Type := TextChanged | Changed (old new : A).

Definition field_changes (before after : string -> A) (fields text_fields : list string)
  : list (string * change) :=
  map (fun k => (k, if bool_decide (k ∈ text_fields) then TextChanged else Changed (before k) (after k)))
      (List.filter (fun k => negb (bool_decide (before k = after k))) fields).
End FieldChanges.
Arguments change : clear implicits.

(** * Who did it *)

(** Python's [a or b] on optional strings. *)
Definition truthy (a : option string) : bool :=
  match a with None | Some EmptyString => false | Some _ => true end.
Definition py_or (a b : option string) : option string := if truthy a then a else b.

(** What an auth dependency leaves on the request: claims, an ORM row, or
    nothing. *)
Inductive principal : Type :=
  | PNone
  | PDict (claims : list (string * string))
  | PRow (id sub : option string).

Definition principal_truthy (p : principal) : bool :=
  match p with PNone | PDict [] => false | _ => true end.

Definition dict_get (k : string) (d : list (string * string)) : option string :=
  option_map snd (List.find (fun kv => String.eqb (fst kv) k) d).

Definition _actor_id_of (obj : principal) : option string :=
  match obj with
  | PNone => None
  | PDict d =>
      let val := py_or (py_or (dict_get "sub" d) (dict_get "user_id" d)) (dict_get "id" d) in
      if truthy val then val else None
  | PRow id sub => let val := py_or id sub in if truthy val then val else None
  end.

Record Request : Type := {
  rq_state_user : principal;
  rq_state_current_user : principal;
  rq_state_tenant_id : option string;
  rq_state_request_id : option string;
  rq_request_id : option string;
  rq_headers : list (string * string);   (** lower-case names *)
  rq_client_host : option string;
  rq_remote_addr : option string
}.

Definition _request_user_dict (request : option Request) : principal :=
  match request with
  | None => PNone
  | Some rq =>
      if principal_truthy (rq_state_user rq) then rq_state_user rq else rq_state_current_user rq
  end.

Definition _extract_request_actor (request : option Request) : option string :=
  _actor_id_of (_request_user_dict request).

Definition _extract_ip (request : option Request) : option string :=
  match request with None => None | Some rq => py_or (rq_client_host rq) (rq_remote_addr rq) end.

Definition _extract_request_id (request : option Request) : option string :=
  match request with
  | None => None
  | Some rq =>
      let req_id := py_or (rq_state_request_id rq) (rq_request_id rq) in
      if truthy req_id then req_id
      else py_or (dict_get (str_lower "x-request-id") (rq_headers rq))
                 (dict_get (str_lower "X-Request-ID") (rq_headers rq))
  end.

Definition _extract_tenant_id (request : option Request) : option string :=
  match request with None => None | Some rq => rq_state_tenant_id rq end.

(** A [user_id] argument; [SYSTEM_ACTOR] is told apart by identity. *)
Inductive actor_arg : Type := SYSTEM_ACTOR | Given (user_id : option string).

(** [resolve_audit_actor]: a candidate that is the sentinel, or a principal. *)
Definition resolve_audit_actor (candidate : option principal) (request : option Request) : string :=
  match candidate with
  | None => "system"   (** the sentinel *)
  | Some c =>
      match _actor_id_of c with
      | Some actor => actor
      | None => default "system" (_actor_id_of (_request_user_dict request))
      end
  end.

Definition resolve_user_id (user_id : actor_arg) (request : option Request) : string :=
  match user_id with
  | SYSTEM_ACTOR => "system"
  | Given u =>
      let missing := negb (truthy u) || bool_decide (u = Some "system") in
      let u := if missing then match _extract_request_actor request with Some a => Some a | None => u end
               else u in
      default "system" (py_or u (Some "system"))
  end.

(** * Rows *)

Record AuditLog : Type := {
  al_id : uuid;
  al_tenant_id : option string;
  al_user_id : option string;
  al_action : string;
  al_entity_type : string;
  al_entity_id : option string;
  al_details : option jdict;
  al_ip_address : option string;
  al_request_id : option string;
  al_row_hash : string;
  al_prev_hash : string;
  al_created_at : Z;
  al_event_type : option string;
  al_actor_id : option string;
  al_actor_role : option string;
  al_payload : option jdict;
  al_hash : option string
}.

(** The keyword arguments of a call, new style and legacy style; a legacy
    positional argument that is absent is [None]. *)
Inductive audit_args : Type :=
  | NewStyle (tenant_id : option string) (user_id : actor_arg) (action event_type entity_type entity_id : option string)
      (details : option jdict) (ip_address request_id : option string)
      (request : option Request) (actor_role : option string)
  | LegacyStyle (event_type actor_id entity_type entity_id : option string)
      (payload : option (option jdict))
      (arg0 arg1 arg2 arg3 : option string) (arg4 : option (option jdict))
      (request : option Request) (actor_role : option string).

Record audit_fields : Type := {
  af_action : string;
  af_user_id : actor_arg;
  af_entity_type : string;
  af_entity_id : option string;
  af_details : jdict;
  af_request : option Request;
  af_actor_role : option string;
  af_tenant_id : option string;
  af_ip_address : option string;
  af_request_id : option string
}.

Definition audit_fields_of (args : audit_args) : audit_fields :=
  match args with
  | NewStyle tid uid act evt ety eid det ip rid req role =>
      {| af_action := default "unknown" (py_or (py_or act evt) (Some "unknown"));
         af_user_id := uid;
         af_entity_type := default "unknown" (py_or ety (Some "unknown"));
         af_entity_id := eid; af_details := default [] det; af_request := req;
         af_actor_role := role; af_tenant_id := tid; af_ip_address := ip; af_request_id := rid |}
  | LegacyStyle evt aid ety eid pay a0 a1 a2 a3 a4 req role =>
      {| af_action := default "unknown" (py_or evt (Some (default "unknown" a0)));
         af_user_id := Given (py_or aid a1);
         af_entity_type := default "unknown" (py_or ety (Some (default "unknown" a2)));
         af_entity_id := py_or eid a3;
         af_details := default [] (match pay with Some p => p | None => default (Some []) a4 end);
         af_request := req; af_actor_role := role;
         af_tenant_id := None; af_ip_address := None; af_request_id := None |}
  end.

(** An f-string's [{x}] on an optional string. *)
Definition show (x : option string) : string := default "None" x.

Definition row_data_text (tenant_id : option string) (user_id action entity_type : string)
    (entity_id : option string) (details : jdict) (request_id : option string) : string :=
  show tenant_id +:+ ":" +:+ user_id +:+ ":" +:+ action +:+ ":" +:+ entity_type +:+ ":" +:+
  show entity_id +:+ ":" +:+ _payload_json details +:+ ":" +:+ show request_id.

Definition chained (r : AuditLog) : bool := negb (String.eqb (al_row_hash r) "").

(** [(x.created_at, x.id) <= (y.created_at, y.id)] *)
Definition row_le (x y : AuditLog) : bool :=
  (al_created_at x <? al_created_at y) ||
  ((al_created_at x =? al_created_at y) && (al_id x <=? al_id y)%N).

(** [ORDER BY created_at DESC, id DESC LIMIT 1] over the chained rows. *)
Definition later (best : option AuditLog) (r : AuditLog) : option AuditLog :=
  match best with Some b => if row_le b r then Some r else Some b | None => Some r end.
Definition chain_tip (rows : list AuditLog) : option AuditLog :=
  foldl later None (List.filter chained rows).

(** The listener [_backfill_legacy_fields] on a row about to be inserted. *)
Definition _backfill_legacy_fields (t : AuditLog) : AuditLog :=
  let action := if String.eqb (al_action t) "" then default "" (py_or (al_event_type t) (Some "")) else al_action t in
  let event_type := if negb (truthy (al_event_type t)) && negb (String.eqb action "")
                    then Some action else al_event_type t in
  let user_id := if negb (truthy (al_user_id t)) && truthy (al_actor_id t)
                 then al_actor_id t else al_user_id t in
  let actor_id := if negb (truthy (al_actor_id t)) && truthy user_id then user_id else al_actor_id t in
  let details := match al_details t with None => al_payload t | d => d end in
  let payload := match al_payload t with None => details | p => p end in
  let row_hash := if String.eqb (al_row_hash t) "" && truthy (al_hash t)
                  then default "" (al_hash t) else al_row_hash t in
  let hash := if negb (truthy (al_hash t)) && negb (String.eqb row_hash "")
              then Some row_hash else al_hash t in
  {| al_id := al_id t; al_tenant_id := al_tenant_id t; al_user_id := user_id; al_action := action;
     al_entity_type := al_entity_type t; al_entity_id := al_entity_id t; al_details := details;
     al_ip_address := al_ip_address t; al_request_id := al_request_id t; al_row_hash := row_hash;
     al_prev_hash := al_prev_hash t; al_created_at := al_created_at t; al_event_type := event_type;
     al_actor_id := actor_id; al_actor_role := al_actor_role t; al_payload := payload; al_hash := hash |}.

Section Chain.
Context `{W : World}.

(** The row a call adds after the rows it can see, at clock reading [now],
    under the identifier [id]. *)
Definition _log_audit_event_impl (args : audit_args) (now : Z) (id : uuid) (rows : list AuditLog)
  : AuditLog :=
  let f := audit_fields_of args in
  let tenant_id := py_or (py_or (af_tenant_id f) (_extract_tenant_id (af_request f))) None in
  let user_id := resolve_user_id (af_user_id f) (af_request f) in
  let details := _sanitize_details (af_details f) in
  let ip_address := py_or (af_ip_address f) (_extract_ip (af_request f)) in
  let request_id := py_or (af_request_id f) (_extract_request_id (af_request f)) in
  let details := reloaded details in
  let tip := chain_tip rows in
  let prev_hash := match tip with Some t => al_row_hash t | None => "" end in
  let now := match tip with
             | Some t => if now <=? al_created_at t then al_created_at t + 1 else now
             | None => now
             end in
  let row_hash := sha256_hexdigest (prev_hash +:+
    row_data_text tenant_id user_id (af_action f) (af_entity_type f) (af_entity_id f) details request_id) in
  _backfill_legacy_fields
    {| al_id := id; al_tenant_id := tenant_id; al_user_id := Some user_id; al_action := af_action f;
       al_entity_type := af_entity_type f; al_entity_id := af_entity_id f;
       al_details := Some details; al_ip_address := ip_address; al_request_id := request_id;
       al_row_hash := row_hash; al_prev_hash := prev_hash; al_created_at := now;
       al_event_type := Some (af_action f); al_actor_id := Some user_id;
       al_actor_role := af_actor_role f; al_payload := Some details; al_hash := Some row_hash |}.

(** * The verifiers *)

Definition row_actor (r : AuditLog) : string :=
  default "system" (py_or (py_or (al_user_id r) (al_actor_id r)) (Some "system")).
Definition row_details (r : AuditLog) : jdict :=
  match al_details r with Some d => d | None => default [] (al_payload r) end.
Definition row_action (r : AuditLog) : string :=
  default "unknown" (py_or (py_or (Some (al_action r)) (al_event_type r)) (Some "unknown")).

Definition row_data (r : AuditLog) : string :=
  row_data_text (al_tenant_id r) (row_actor r) (row_action r) (al_entity_type r) (al_entity_id r)
    (row_details r) (al_request_id r).

Definition _expected_row_hash (row : AuditLog) (prev_hash : string) : string :=
  sha256_hexdigest (prev_hash +:+ row_data row).

(** [row.row_hash or row.hash] *)
Definition stored_hash (r : AuditLog) : string :=
  default "" (py_or (Some (al_row_hash r)) (al_hash r)).

Fixpoint walk_chain (prev_hash : string) (rows : list AuditLog) : bool :=
  match rows with
  | [] => true
  | row :: rows' =>
      if negb (String.eqb (al_prev_hash row) prev_hash)
         || negb (String.eqb (stored_hash row) (_expected_row_hash row prev_hash))
      then false
      else walk_chain (stored_hash row) rows'
  end.

Definition in_scope (entity_type entity_id : option string) (r : AuditLog) : bool :=
  match entity_type with Some t => String.eqb (al_entity_type r) t | None => true end &&
  match entity_id with Some i => bool_decide (al_entity_id r = Some i) | None => true end.

Definition verify_audit_chain (entity_type entity_id : option string) (db : list AuditLog) : bool :=
  let rows := List.filter (in_scope entity_type entity_id) (stable_sort row_le db) in
  match rows with
  | [] => true
  | r0 :: _ => walk_chain (al_prev_hash r0) rows
  end.

Definition AUDIT_CHAIN_SERIALIZED_ACTION : string := "audit_chain.serialized_writer".

(** [SELECT min(created_at) WHERE action = ...] *)
Definition _known_breaks_before (db : list AuditLog) : option Z :=
  foldr (fun r acc => if String.eqb (al_action r) AUDIT_CHAIN_SERIALIZED_ACTION
                      then Some (match acc with Some t => Z.min (al_created_at r) t | None => al_created_at r end)
                      else acc) None db.

Record fork : Type := { fk_prev_hash : string; fk_children : Z; fk_last_at : Z; fk_known : bool }.

Record chain_report : Type := {
  rp_chained : Z; rp_unchained : Z; rp_bad_hash : Z; rp_dangling : Z;
  rp_forks : list fork; rp_new_forks : Z; rp_restarts : Z; rp_new_restarts : Z;
  rp_known_breaks : Z; rp_known_breaks_before : option Z; rp_broken : bool
}.

(** [children.setdefault(prev, []).append(row)] *)
Fixpoint add_child (prev : string) (r : AuditLog) (children : list (string * list AuditLog))
  : list (string * list AuditLog) :=
  match children with
  | [] => [(prev, [r])]
  | (p, kids) :: rest =>
      if String.eqb p prev then (p, kids ++ [r]) :: rest else (p, kids) :: add_child prev r rest
  end.

Definition children_of (rows : list AuditLog) : list (string * list AuditLog) :=
  foldl (fun acc r => add_child (al_prev_hash r) r acc) [] rows.

Definition last_at (kids : list AuditLog) : Z :=
  match kids with [] => 0 | k :: ks => foldl (fun m r => Z.max m (al_created_at r)) (al_created_at k) ks end.

Definition count_rows {A} (p : A -> bool) (l : list A) : Z := Z.of_nat (length (List.filter p l)).

(** [(created_at, str(id))] order *)
Definition start_le (x y : AuditLog) : bool :=
  (al_created_at x <? al_created_at y) ||
  ((al_created_at x =? al_created_at y) && negb (String.ltb (str_uuid (al_id y)) (str_uuid (al_id x)))).

Definition audit_chain_report (db : list AuditLog) : chain_report :=
  let rows := List.filter chained db in
  let hashes := map al_row_hash rows in
  let children := children_of rows in
  let bad_hash := count_rows (fun r => negb (String.eqb (al_row_hash r) (_expected_row_hash r (al_prev_hash r)))) rows in
  let dangling := count_rows (fun r => negb (String.eqb (al_prev_hash r) "")
                                       && negb (existsb (String.eqb (al_prev_hash r)) hashes)) rows in
  let cutoff := _known_breaks_before db in
  let history (at_ : Z) : bool := match cutoff with Some c => at_ <? c | None => false end in
  let forks := map (fun pk => {| fk_prev_hash := fst pk; fk_children := Z.of_nat (length (snd pk));
                                 fk_last_at := last_at (snd pk); fk_known := history (last_at (snd pk)) |})
                   (List.filter (fun pk => negb (String.eqb (fst pk) "") && (1 <? Z.of_nat (length (snd pk)))) children) in
  let starts := stable_sort start_le
                  (default [] (option_map snd (List.find (fun pk => String.eqb (fst pk) "") children))) in
  let restarts := List.tl starts in
  let new_forks := count_rows (fun f => negb (fk_known f)) forks in
  let new_restarts := count_rows (fun r => negb (history (al_created_at r))) restarts in
  let nforks := Z.of_nat (length forks) in
  let nrestarts := Z.of_nat (length restarts) in
  {| rp_chained := Z.of_nat (length rows);
     rp_unchained := count_rows (fun r => negb (chained r)) db;
     rp_bad_hash := bad_hash; rp_dangling := dangling; rp_forks := forks; rp_new_forks := new_forks;
     rp_restarts := nrestarts; rp_new_restarts := new_restarts;
     rp_known_breaks := nforks - new_forks + nrestarts - new_restarts;
     rp_known_breaks_before := cutoff;
     rp_broken := negb (bad_hash =? 0) || negb (dangling =? 0) || negb (new_forks =? 0)
                  || negb (new_restarts =? 0) |}.

Definition audit_chain_broken (ok : bool) (report : chain_report) : bool :=
  rp_broken report || (negb ok && (rp_unchained report =? 0) && (rp_known_breaks report =? 0)).

(** The endpoint's answer on one record's trail: [tamper_suspected]. *)
Definition scoped_tamper_suspected (entity_type entity_id : string) (db : list AuditLog) : bool :=
  let scope := in_scope (Some entity_type) (Some entity_id) in
  let ok := verify_audit_chain (Some entity_type) (Some entity_id) db in
  negb ok && (count_rows (fun r => negb (chained r) && scope r) db =? 0).
End Chain.

(** * The stored details are what was hashed *)

Lemma item_le_total {A} (x y : string * A) : item_le x y = false -> item_le y x = true.
Proof.
  unfold item_le. rewrite negb_false_iff, negb_true_iff. intros H.
  unfold String.ltb in *. rewrite String.compare_antisym. by destruct (String.compare (fst y) (fst x)).
Qed.

Lemma stable_sort_items {A B} (f : A -> B) (l : list (string * A)) :
  map (fun kv => (fst kv, f (snd kv))) (stable_sort item_le l)
  = stable_sort item_le (map (fun kv => (fst kv, f (snd kv))) l).
Proof. symmetry. by apply stable_sort_map. Qed.

Lemma audit_dumps_normal : forall v, audit_dumps (json_normal v) = audit_dumps v.
Proof.
  fix IH 1. intros [| | | | | | |l|l|items]; cbn; try done.
  1, 2: assert (map audit_dumps (map json_normal l) = map audit_dumps l) as ->;
    [induction l as [|x l IHl]; cbn; [done|]; by rewrite IH, IHl|done].
  rewrite stable_sort_items, map_map. cbn.
  rewrite (stable_sort_id item_le (stable_sort item_le _))
    by (apply stable_sort_ordered; apply item_le_total).
  assert (map (fun kv : string * jval => (kv.1, audit_dumps (json_normal kv.2))) items
    = map (fun kv => (kv.1, audit_dumps kv.2)) items) as ->; [|done].
  induction items as [|[k v] items IHl]; cbn; [done|]. by rewrite IH, IHl.
Qed.

(** A value [json.loads] can return. *)
Fixpoint plain_json (v : jval) : bool :=
  match v with
  | JUuid _ | JDefault _ | JTuple _ => false
  | JList l => forallb plain_json l
  | JDict items => forallb (fun kv => plain_json (snd kv)) items
  | _ => true
  end.

Lemma forallb_perm {A} (p : A -> bool) l l' : Permutation l l' -> forallb p l = forallb p l'.
Proof. induction 1; cbn; [done|congruence| |congruence]. destruct (p x), (p y); done. Qed.

Lemma json_normal_plain : forall v, plain_json (json_normal v) = true.
Proof.
  fix IH 1. intros [| | | | | | |l|l|items]; cbn; try done.
  1, 2: induction l as [|x l IHl]; cbn; [done|]; by rewrite IH, IHl.
  rewrite (forallb_perm _ _ _ (stable_sort_perm _ _)).
  induction items as [|[k v] items IHl]; cbn; [done|]. by rewrite IH, IHl.
Qed.

Lemma reloaded_consistent d :
  _payload_json (reloaded d) = _payload_json d /\ forallb (fun kv => plain_json (snd kv)) (reloaded d) = true.
Proof. split; [apply (audit_dumps_normal (JDict d))|apply (json_normal_plain (JDict d))]. Qed.

(** * Attribution *)

Lemma truthy_Some a : truthy a = true <-> exists s, a = Some s /\ s <> "".
Proof. destruct a as [[|c s]|]; cbn; naive_solver. Qed.

Lemma _actor_id_of_truthy p a : _actor_id_of p = Some a -> a <> "".
Proof.
  destruct p as [|d|id sub]; cbn; [done| |].
  - destruct (truthy _) eqn:E; [|done]. intros H. rewrite H in E. by destruct a.
  - destruct (truthy _) eqn:E; [|done]. intros H. rewrite H in E. by destruct a.
Qed.

Lemma resolve_user_id_cases u request :
  resolve_user_id u request =
  match u with
  | SYSTEM_ACTOR => "system"
  | Given (Some s) =>
      if String.eqb s "" || String.eqb s "system"
      then default "system" (_extract_request_actor request) else s
  | Given None => default "system" (_extract_request_actor request)
  end.
Proof.
  destruct u as [|[s|]]; cbn; [done| |].
  - destruct (String.eqb_spec s "") as [->|Hs]; cbn.
    + destruct (_extract_request_actor request) as [a|] eqn:E; cbn; [|done].
      apply _actor_id_of_truthy in E. by destruct a.
    + assert (truthy (Some s) = true) as Ht by (by destruct s). cbn [truthy] in Ht. rewrite Ht. cbn.
      destruct (String.eqb_spec s "system") as [->|Hs2].
      * rewrite bool_decide_true by done.
        destruct (_extract_request_actor request) as [a|] eqn:E; cbn; [|done].
        apply _actor_id_of_truthy in E. by destruct a.
      * rewrite bool_decide_false by congruence. unfold py_or. cbn [truthy]. by rewrite Ht.
  - destruct (_extract_request_actor request) as [a|] eqn:E; cbn; [|done].
    apply _actor_id_of_truthy in E. by destruct a.
Qed.

Lemma resolve_user_id_ne u request : resolve_user_id u request <> "".
Proof.
  rewrite resolve_user_id_cases. destruct u as [|[s|]]; [done| |].
  - destruct (String.eqb_spec s "") as [->|Hs]; cbn.
    + destruct (_extract_request_actor request) eqn:E; cbn; [by eapply _actor_id_of_truthy|done].
    + destruct (String.eqb s "system"); [|done].
      destruct (_extract_request_actor request) eqn:E; cbn; [by eapply _actor_id_of_truthy|done].
  - destruct (_extract_request_actor request) eqn:E; cbn; [by eapply _actor_id_of_truthy|done].
Qed.

(** * The row a call writes *)

(** A call that names its action; a new-style call always does. *)
Definition names_action (args : audit_args) : Prop := af_action (audit_fields_of args) <> "".

Lemma new_style_names_action tid uid act evt ety eid det ip rid req role :
  names_action (NewStyle tid uid act evt ety eid det ip rid req role).
Proof. unfold names_action. cbn. destruct act as [[|]|], evt as [[|]|]; done. Qed.

Section Written.
Context `{WO : WorldOk}.

Lemma sha_ne s : sha256_hexdigest s <> "".
Proof. intros E. pose proof (sha256_length s) as H. by rewrite E in H. Qed.

Lemma log_row_spec args now id rows :
  names_action args ->
  let r := _log_audit_event_impl args now id rows in
  al_prev_hash r = match chain_tip rows with Some t => al_row_hash t | None => "" end /\
  al_row_hash r = _expected_row_hash r (al_prev_hash r) /\
  al_row_hash r <> "" /\
  (forall t, chain_tip rows = Some t -> al_created_at t < al_created_at r) /\
  (forallb (fun kv => plain_json (snd kv)) (row_details r) = true /\
   _payload_json (row_details r) = _payload_json (_sanitize_details (af_details (audit_fields_of args)))) /\
  row_actor r = resolve_user_id (af_user_id (audit_fields_of args)) (af_request (audit_fields_of args)).
Proof.
  intros Ha. unfold names_action in Ha. cbn zeta.
  unfold _log_audit_event_impl. set (f := audit_fields_of args) in *.
  set (u := resolve_user_id _ _). assert (u <> "") as Hu by apply resolve_user_id_ne.
  set (h := sha256_hexdigest _). assert (h <> "") as Hh by apply sha_ne.
  assert (truthy (Some u) = true) as Tu by (by destruct u).
  assert (truthy (Some h) = true) as Th by (by destruct h).
  assert (truthy (Some (af_action f)) = true) as Ta by (by destruct (af_action f)).
  assert (String.eqb h "" = false) as Eh by (by apply String.eqb_neq).
  assert (String.eqb (af_action f) "" = false) as Ea by (by apply String.eqb_neq).
  unfold _backfill_legacy_fields, _expected_row_hash, row_data, row_actor, row_action, row_details.
  cbn [al_id al_tenant_id al_user_id al_action al_entity_type al_entity_id al_details al_ip_address
       al_request_id al_row_hash al_prev_hash al_created_at al_event_type al_actor_id al_actor_role
       al_payload al_hash].
  rewrite Ea, Tu, Ta, Th, Eh. cbn [negb andb]. unfold py_or. do 2 (rewrite ?Ta, ?Tu; cbv iota beta). cbn [default].
  split_and!; [done|done|done| |apply reloaded_consistent|apply reloaded_consistent|done].
  intros t ->. destruct (Z.leb_spec now (al_created_at t)); lia.
Qed.
(** * One chain *)

Definition after (at_ : option Z) (t : Z) : Prop :=
  match at_ with Some a => a < t | None => True end.

(** Rows that continue a chain from the hash [prev] and the time [at_]. *)
Fixpoint chain_from (prev : string) (at_ : option Z) (rows : list AuditLog) : Prop :=
  match rows with
  | [] => True
  | r :: rows' =>
      al_prev_hash r = prev /\ al_row_hash r = _expected_row_hash r prev /\ al_row_hash r <> "" /\
      after at_ (al_created_at r) /\ chain_from (al_row_hash r) (Some (al_created_at r)) rows'
  end.

Definition one_chain (rows : list AuditLog) : Prop := chain_from "" None rows.

Lemma chain_from_app p a l1 l2 :
  chain_from p a (l1 ++ l2) <->
  chain_from p a l1 /\
  match last l1 with
  | Some t => chain_from (al_row_hash t) (Some (al_created_at t)) l2
  | None => chain_from p a l2
  end.
Proof.
  revert p a. induction l1 as [|r l1 IH]; intros p a; [cbn; naive_solver|].
  cbn [app chain_from]. rewrite IH. destruct l1 as [|r' l1]; [cbn; naive_solver|].
  change (last (r :: r' :: l1)) with (last (r' :: l1)). destruct (last (r' :: l1)) eqn:E; [naive_solver|].
  by apply last_None in E.
Qed.

Lemma chain_tip_last rows : one_chain (List.filter chained rows) ->
  chain_tip rows = last (List.filter chained rows).
Proof.
  unfold chain_tip, one_chain. generalize (List.filter chained rows). intros l.
  induction l as [|x l IH] using rev_ind; intros Hc; [done|].
  apply chain_from_app in Hc as [Hl Hx]. rewrite foldl_app, (IH Hl), last_snoc. cbn.
  destruct (last l) as [t|]; cbn; [|done]. cbn in Hx. destruct Hx as (_ & _ & _ & Hlt & _). cbn in Hlt.
  unfold row_le. by rewrite (proj2 (Z.ltb_lt _ _) Hlt).
Qed.

Lemma log_extends args now id rows :
  names_action args -> one_chain (List.filter chained rows) ->
  one_chain (List.filter chained (rows ++ [_log_audit_event_impl args now id rows])).
Proof.
  intros Ha Hc. destruct (log_row_spec args now id rows Ha) as (Hp & Hh & Hne & Ht & _).
  set (r := _log_audit_event_impl args now id rows) in *. clearbody r.
  rewrite List.filter_app. cbn [List.filter]. unfold chained at 2.
  rewrite (proj2 (String.eqb_neq _ _) Hne). cbn [negb]. apply chain_from_app. split; [done|].
  rewrite (chain_tip_last rows Hc) in Hp, Ht. destruct (last (List.filter chained rows)) as [t|] eqn:E.
  - cbn. rewrite Hp in Hh. split_and!; [done..|by apply Ht|done].
  - cbn. rewrite Hp in Hh. by split_and!.
Qed.

(** * Transactions *)

(** What is committed, what each open transaction has added, and who holds
    the lock [_lock_chain_tip] takes until its transaction ends. *)
Record audit_db : Type := {
  committed : list AuditLog;
  pending : gmap N (list AuditLog);
  tip_lock : option N
}.

Definition release (t : N) (lock : option N) : option N :=
  if bool_decide (lock = Some t) then None else lock.

Inductive audit_step : audit_db -> audit_db -> Prop :=
  | step_begin t d : pending d !! t = None ->
      audit_step d {| committed := committed d; pending := <[t := []]> (pending d); tip_lock := tip_lock d |}
  | step_log t p args now id d :
      pending d !! t = Some p -> (tip_lock d = None \/ tip_lock d = Some t) -> names_action args ->
      audit_step d
        {| committed := committed d;
           pending := <[t := p ++ [_log_audit_event_impl args now id (committed d ++ p)]]> (pending d);
           tip_lock := Some t |}
  | step_unchained t p row d :   (** a writer that builds the row itself *)
      pending d !! t = Some p -> al_row_hash row = "" -> truthy (al_hash row) = false ->
      audit_step d
        {| committed := committed d;
           pending := <[t := p ++ [_backfill_legacy_fields row]]> (pending d);
           tip_lock := tip_lock d |}
  | step_commit t p d : pending d !! t = Some p ->
      audit_step d {| committed := committed d ++ p; pending := delete t (pending d);
                      tip_lock := release t (tip_lock d) |}
  | step_rollback t p d : pending d !! t = Some p ->
      audit_step d {| committed := committed d; pending := delete t (pending d);
                      tip_lock := release t (tip_lock d) |}.

Definition audit_reachable (d : audit_db) : Prop :=
  rtc audit_step {| committed := []; pending := ∅; tip_lock := None |} d.

(** The committed rows are one chain, which the lock holder extends; nobody
    else has a chained row pending. *)
Definition audit_inv (d : audit_db) : Prop :=
  one_chain (List.filter chained (committed d)) /\
  (forall t, tip_lock d = Some t -> exists p, pending d !! t = Some p /\
     one_chain (List.filter chained (committed d ++ p))) /\
  (forall t p, pending d !! t = Some p -> tip_lock d <> Some t -> List.filter chained p = []).

Lemma unchained_row row : al_row_hash row = "" -> truthy (al_hash row) = false ->
  chained (_backfill_legacy_fields row) = false.
Proof. intros H1 H2. unfold chained. cbn. rewrite H1, H2. done. Qed.

Lemma release_ne t t' lock : t <> t' -> release t lock = Some t' <-> lock = Some t'.
Proof. intros Hne. unfold release. case_bool_decide; naive_solver. Qed.
Lemma release_not t lock : release t lock <> Some t.
Proof. unfold release. case_bool_decide; naive_solver. Qed.

Lemma audit_step_inv d d' : audit_inv d -> audit_step d d' -> audit_inv d'.
Proof.
  intros (Hc & Hl & Hp) Hs. destruct Hs as [t d Hn|t p args now id d Ht Hlk Ha|t p row d Ht H1 H2|t p d Ht|t p d Ht].
  - split_and!; cbn; [done| |].
    + intros u Hu. destruct (Hl u Hu) as (q & Hq & ?). exists q.
      by rewrite lookup_insert_ne by congruence.
    + intros u q [[<- <-]|[_ Hq]]%lookup_insert_Some Hu; [done|by eapply Hp].
  - split_and!; cbn; [done| |].
    + intros u [= <-]. eexists. rewrite lookup_insert_eq. split; [done|].
      rewrite app_assoc. apply log_extends; [done|]. destruct Hlk as [Hlk|Hlk].
      * rewrite List.filter_app, (Hp t p Ht) by congruence. by rewrite app_nil_r.
      * destruct (Hl t Hlk) as (q & Hq & Hch). by simplify_eq.
    + intros u q [[<- <-]|[Hne Hq]]%lookup_insert_Some Hu; [done|].
      apply (Hp u q Hq). destruct Hlk; congruence.
  - pose proof (unchained_row row H1 H2) as Hu. split_and!; cbn; [done| |].
    + intros u Hu'. destruct (Hl u Hu') as (q & Hq & Hch). destruct (decide (t = u)) as [->|Hne].
      * simplify_eq. eexists. rewrite lookup_insert_eq. split; [done|].
        rewrite app_assoc, List.filter_app. cbn [List.filter]. rewrite Hu. by rewrite app_nil_r.
      * exists q. by rewrite lookup_insert_ne.
    + intros u q [[<- <-]|[Hne Hq]]%lookup_insert_Some Hnl; [|by eapply Hp].
      rewrite List.filter_app. cbn [List.filter]. by rewrite Hu, (Hp t p Ht Hnl).
  - assert (one_chain (List.filter chained (committed d ++ p))) as Hc'.
    { destruct (decide (tip_lock d = Some t)) as [E|E].
      - destruct (Hl t E) as (q & Hq & Hch). by simplify_eq.
      - rewrite List.filter_app, (Hp t p Ht E). by rewrite app_nil_r. }
    split_and!; cbn; [done| |].
    + intros u Hu. assert (t <> u) as Hne by (intros ->; by eapply release_not).
      apply release_ne in Hu; [|done]. destruct (Hl u Hu) as (q & Hq & Hch).
      exists q. rewrite lookup_delete_ne by done. split; [done|].
      rewrite !List.filter_app in *. rewrite (Hp t p Ht) by congruence. by rewrite app_nil_r.
    + intros u q [Hne Hq]%lookup_delete_Some Hu. apply (Hp u q Hq). by rewrite release_ne in Hu.
  - split_and!; cbn; [done| |].
    + intros u Hu. assert (t <> u) as Hne by (intros ->; by eapply release_not).
      apply release_ne in Hu; [|done]. destruct (Hl u Hu) as (q & Hq & Hch).
      exists q. by rewrite lookup_delete_ne.
    + intros u q [Hne Hq]%lookup_delete_Some Hu. apply (Hp u q Hq). by rewrite release_ne in Hu.
Qed.

Lemma audit_reachable_inv d : audit_reachable d -> audit_inv d.
Proof.
  unfold audit_reachable. remember {| committed := []; pending := ∅; tip_lock := None |} as d0 eqn:E.
  assert (audit_inv d0) as H0.
  { subst. split_and!; cbn; [done|done|]. intros t p. by rewrite lookup_empty. }
  clear E. intros H. induction H as [|d1 d2 d3 Hs _ IH]; [done|]. by apply IH, audit_step_inv with d1.
Qed.

(** ** The ordered walk accepts it *)

Lemma stored_hash_chained r : al_row_hash r <> "" -> stored_hash r = al_row_hash r.
Proof. unfold stored_hash, py_or. by destruct (al_row_hash r). Qed.

Lemma chain_walk p a l : chain_from p a l -> walk_chain p l = true.
Proof.
  revert p a. induction l as [|r l IH]; intros p a; [done|]. intros (Hp & Hh & Hne & _ & Hl).
  cbn. rewrite (stored_hash_chained r Hne), <- Hh, Hp, !String.eqb_refl. cbn. by eapply IH.
Qed.

Lemma chain_ordered p a l : chain_from p a l -> ordered row_le l.
Proof.
  revert p a. induction l as [|x [|y l] IH]; intros p a; [done..|].
  intros (_ & _ & _ & _ & Hy). split; [|by eapply IH].
  destruct Hy as (_ & _ & _ & Hlt & _). cbn in Hlt. unfold row_le. by rewrite (proj2 (Z.ltb_lt _ _) Hlt).
Qed.

(** ** The structural report on any selection of its rows *)

Lemma chain_prev p a l r :
  chain_from p a l -> r ∈ l -> al_prev_hash r = p \/ al_prev_hash r ∈ map al_row_hash l.
Proof.
  revert p a. induction l as [|x l IH]; intros p a Hc Hr; [set_solver|].
  destruct Hc as (Hp & _ & _ & _ & Hc). apply elem_of_cons in Hr as [->|Hr]; [by left|].
  right. cbn. destruct (IH _ _ Hc Hr) as [->|]; set_solver.
Qed.

Lemma chain_hash_ok p a l r :
  chain_from p a l -> r ∈ l -> al_row_hash r = _expected_row_hash r (al_prev_hash r) /\ al_row_hash r <> "".
Proof.
  revert p a. induction l as [|x l IH]; intros p a Hc Hr; [set_solver|].
  destruct Hc as (Hp & Hh & Hne & _ & Hc). apply elem_of_cons in Hr as [->|Hr]; [|by eapply IH].
  by rewrite Hp.
Qed.

Lemma chain_prev_nodup p a l :
  chain_from p a l -> NoDup (p :: map al_row_hash l) -> NoDup (map al_prev_hash l).
Proof.
  revert p a. induction l as [|x l IH]; intros p a Hc Hn; [constructor|].
  destruct Hc as (Hp & _ & _ & _ & Hc). apply NoDup_cons in Hn as [Hpn Hn]. cbn [map] in *.
  apply NoDup_cons. split; [|by eapply IH]. rewrite Hp.
  intros (r & Hr & E)%elem_of_map_b. apply Hpn. rewrite <- E.
  destruct (chain_prev _ _ _ r Hc Hr) as [->|]; set_solver.
Qed.

(** The rows a report sees, when no two of them hash alike. *)
Definition hashes_distinct (l : list AuditLog) : Prop := NoDup (map al_row_hash l).

Lemma chain_prevs l : one_chain l -> hashes_distinct l -> NoDup (map al_prev_hash l).
Proof.
  intros Hc Hn. apply (chain_prev_nodup "" None); [done|]. apply NoDup_cons. split; [|done].
  intros (r & Hr & E)%elem_of_map_b. by apply (chain_hash_ok _ _ _ _ Hc Hr).
Qed.

Lemma add_child_new p r ch : p ∉ map fst ch -> add_child p r ch = ch ++ [(p, [r])].
Proof.
  induction ch as [|[q kids] ch IH]; intros Hp; [done|]. cbn in *.
  rewrite (proj2 (String.eqb_neq q p)) by set_solver. rewrite IH by set_solver. done.
Qed.

Lemma children_of_nodup l :
  NoDup (map al_prev_hash l) -> children_of l = map (fun r => (al_prev_hash r, [r])) l.
Proof.
  induction l as [|r l IH] using rev_ind; intros Hn; [done|].
  rewrite map_app in Hn. apply NoDup_app in Hn as (Hl & Hd & _).
  unfold children_of in *. rewrite foldl_app, (IH Hl), map_app. cbn. apply add_child_new.
  rewrite map_map. cbn. intros Hin. eapply Hd; [exact Hin|set_solver].
Qed.

Lemma count_zero {A} (p : A -> bool) l : count_rows p l = 0 <-> forall x, x ∈ l -> p x = false.
Proof.
  unfold count_rows. split.
  - intros H x Hx. destruct (p x) eqn:E; [|done].
    assert (x ∈ List.filter p l) as Hin by (by apply elem_of_filter_b).
    destruct (List.filter p l); [set_solver|discriminate H].
  - intros H. by rewrite filter_none.
Qed.

(** A report over rows that hash correctly and have distinct predecessors is
    decided by its dangling rows. *)
Lemma report_of db :
  let rows := List.filter chained db in
  (forall r, r ∈ rows -> al_row_hash r = _expected_row_hash r (al_prev_hash r)) ->
  NoDup (map al_prev_hash rows) ->
  let rep := audit_chain_report db in
  rp_bad_hash rep = 0 /\ rp_forks rep = [] /\ rp_restarts rep = 0 /\ rp_known_breaks rep = 0 /\
  (rp_broken rep = false <->
   forall r, r ∈ rows -> al_prev_hash r = "" \/ al_prev_hash r ∈ map al_row_hash rows).
Proof.
  cbn zeta. set (rows := List.filter chained db). intros Hh Hn.
  unfold audit_chain_report. fold rows. rewrite (children_of_nodup rows Hn).
  rewrite (filter_none (fun pk : string * list AuditLog => _) (map _ rows))
    by (intros pk (r & _ & <-)%elem_of_map_b; cbn; by rewrite andb_false_r).
  assert (count_rows (fun r => negb (String.eqb (al_row_hash r) (_expected_row_hash r (al_prev_hash r)))) rows = 0)
    as -> by (apply count_zero; intros r Hr; rewrite <- (Hh r Hr), String.eqb_refl; done).
  assert (exists k, default [] (option_map snd (List.find (fun pk : string * list AuditLog => String.eqb (fst pk) "")
    (map (fun r => (al_prev_hash r, [r])) rows))) = k /\ (k = [] \/ exists r, k = [r])) as (k & -> & Hk).
  { eexists. split; [reflexivity|]. destruct (List.find _ _) as [pk|] eqn:E; cbn; [|by left].
    apply find_some_elem in E as [(r & _ & <-)%elem_of_map_b _]. right. by exists r. }
  assert (List.tl (stable_sort start_le k) = []) as -> by (destruct Hk as [->|[r ->]]; done).
  cbn. split_and!; [done..|]. rewrite !orb_false_r. rewrite negb_false_iff, Z.eqb_eq, count_zero.
  assert (forall r, (negb (String.eqb (al_prev_hash r) "") &&
      negb (existsb (String.eqb (al_prev_hash r)) (map al_row_hash rows)) = false) <->
      (al_prev_hash r = "" \/ al_prev_hash r ∈ map al_row_hash rows)) as Hr; [|naive_solver].
  intros r. rewrite andb_false_iff, !negb_false_iff, String.eqb_eq, existsb_elem.
  split; (intros [->|H]; [by left|right]).
  - by destruct H as (h & Hin & ->%String.eqb_eq).
  - exists (al_prev_hash r). by rewrite String.eqb_refl.
Qed.

(** ** Removed rows *)

Lemma no_orphans q a l l' :
  chain_from q a l -> NoDup (q :: map al_row_hash l) -> l' `sublist_of` l ->
  (forall r, r ∈ l' -> al_prev_hash r ∈ map al_row_hash l') -> l' = [].
Proof.
  intros Hc Hn Hs. revert q a Hc Hn. induction Hs as [|r l' l Hs IH|r l' l Hs IH]; intros q a Hc Hn Hr; [done| |].
  - exfalso. destruct Hc as (Hq & _ & _ & _ & _). apply NoDup_cons in Hn as [Hq' _]. apply Hq'.
    specialize (Hr r (list_elem_of_here _ _)). rewrite Hq in Hr. revert Hr. rewrite !elem_of_map_b.
    intros (x & Hx & E). exists x. split; [|done].
    eapply elem_of_sublist; [exact Hx|]. by apply sublist_skip.
  - destruct Hc as (_ & _ & _ & _ & Hc). apply NoDup_cons in Hn as [_ Hn]. by eapply IH.
Qed.

Lemma kept_rows_prefix p a l l' :
  chain_from p a l -> NoDup (p :: map al_row_hash l) -> l' `sublist_of` l ->
  (forall r, r ∈ l' -> al_prev_hash r = p \/ al_prev_hash r ∈ map al_row_hash l') ->
  l' `prefix_of` l.
Proof.
  intros Hc Hn Hs. revert p a Hc Hn. induction Hs as [|r l' l Hs IH|r l' l Hs IH]; intros p a Hc Hn Hr; [done| |].
  - destruct Hc as (Hp & _ & _ & _ & Hc). apply NoDup_cons in Hn as [Hp' Hn].
    apply prefix_cons. apply (IH _ _ Hc Hn). intros x Hx.
    destruct (Hr x (list_elem_of_further _ _ _ Hx)) as [E|E]; [|set_solver].
    exfalso. apply Hp'. rewrite <- E. cbn [map].
    destruct (chain_prev _ _ _ x Hc) as [->|]; [by eapply elem_of_sublist|set_solver..].
  - destruct Hc as (Hp & _ & _ & _ & Hc). apply NoDup_cons in Hn as [Hp' Hn].
    assert (l' = []) as ->; [|apply prefix_nil]. apply (no_orphans _ _ _ _ Hc Hn Hs).
    intros x Hx. destruct (Hr x Hx) as [E|E]; [|done].
    exfalso. apply Hp'. rewrite <- E. cbn [map].
    destruct (chain_prev _ _ _ x Hc) as [->|]; [by eapply elem_of_sublist|set_solver..].
Qed.

Lemma chain_hashes_start l : one_chain l -> hashes_distinct l -> NoDup ("" :: map al_row_hash l).
Proof.
  intros Hc Hn. apply NoDup_cons. split; [|done].
  intros (r & Hr & E)%elem_of_map_b. by apply (chain_hash_ok _ _ _ _ Hc Hr).
Qed.

(** ** A record's own trail *)

Lemma walk_prefix q a l l' :
  chain_from q a l -> NoDup (q :: map al_row_hash l) -> l' `sublist_of` l ->
  walk_chain q l' = true -> l' `prefix_of` l.
Proof.
  intros Hc Hn Hs. revert q a Hc Hn. induction Hs as [|r l' l Hs IH|r l' l Hs IH]; intros q a Hc Hn Hw; [done| |].
  - destruct Hc as (Hq & _ & Hne & _ & Hc). apply NoDup_cons in Hn as [_ Hn]. cbn in Hw.
    destruct (_ || _); [done|]. rewrite (stored_hash_chained r Hne) in Hw. apply prefix_cons. by eapply IH.
  - destruct l' as [|x l']; [apply prefix_nil|]. exfalso.
    destruct Hc as (_ & _ & _ & _ & Hc). apply NoDup_cons in Hn as [Hq Hn]. cbn in Hw.
    destruct (String.eqb_spec (al_prev_hash x) q) as [E|]; [|done].
    apply Hq. rewrite <- E. cbn [map].
    destruct (chain_prev _ _ _ x Hc) as [->|]; [|set_solver..].
    eapply elem_of_sublist; [|exact Hs]. set_solver.
Qed.

Lemma walk_infix p a l l' :
  chain_from p a l -> NoDup (map al_row_hash l) -> l' `sublist_of` l ->
  match l' with [] => true | r0 :: _ => walk_chain (al_prev_hash r0) l' end = true ->
  exists l1 l2, l = l1 ++ l' ++ l2.
Proof.
  intros Hc Hn Hs. revert p a Hc Hn. induction Hs as [|r l' l Hs IH|r l' l Hs IH]; intros p a Hc Hn Hw.
  - by exists [], [].
  - destruct Hc as (_ & _ & Hne & _ & Hc). cbn in Hw.
    rewrite String.eqb_refl in Hw. cbn in Hw. destruct (negb _); [done|].
    rewrite (stored_hash_chained r Hne) in Hw.
    destruct (walk_prefix _ _ _ _ Hc Hn Hs Hw) as [l2 ->]. by exists [], l2.
  - destruct Hc as (_ & _ & _ & _ & Hc). cbn in Hn. apply NoDup_cons in Hn as [_ Hn].
    destruct (IH _ _ Hc Hn Hw) as (l1 & l2 & ->). by exists (r :: l1), l2.
Qed.

Lemma infix_walk p a l1 l' l2 :
  chain_from p a (l1 ++ l' ++ l2) ->
  match l' with [] => true | r0 :: _ => walk_chain (al_prev_hash r0) l' end = true.
Proof.
  intros [_ H]%chain_from_app. destruct l' as [|r0 l']; [done|].
  assert (exists q b, chain_from q b (r0 :: l')) as (q & b & Hc).
  { destruct (last l1); apply chain_from_app in H as [H _]; eauto. }
  destruct Hc as (Hq & Hr). rewrite Hq. by apply (chain_walk q b).
Qed.

Lemma filter_sublist {A} (p : A -> bool) l : List.filter p l `sublist_of` l.
Proof. induction l as [|x l IH]; cbn; [constructor|]. destruct (p x); by constructor. Qed.

End Written.

(** * What the log promises *)

(** The text a row's hash is taken over. *)
Definition hashed_text (r : AuditLog) : string := al_prev_hash r +:+ row_data r.

Lemma expected_hashed_text `{World} r : _expected_row_hash r (al_prev_hash r) = sha256_hexdigest (hashed_text r).
Proof. done. Qed.

(** C35: The chained rows of a log that was only ever written by
    [_log_audit_event_impl], by any number of overlapping transactions that
    commit or roll back, are one chain, also when other writers put unchained
    rows in between.  When there are no unchained rows the ordered walk
    [verify_audit_chain] accepts the log (with some it does not, as the
    report's documentation says).  And provided no two chained rows have the
    same hash, the structural report finds no bad hash, no dangling link, no
    fork and no restart, unchained rows or not, and no alert is raised. *)
Theorem audit_log_verifies `{WO : WorldOk} d :
  audit_reachable d ->
  let db := committed d in
  let report := audit_chain_report db in
  one_chain (List.filter chained db) /\
  (rp_unchained report = 0 -> verify_audit_chain None None db = true) /\
  (hashes_distinct (List.filter chained db) ->
   rp_bad_hash report = 0 /\ rp_dangling report = 0 /\ rp_forks report = [] /\ rp_restarts report = 0 /\
   audit_chain_broken (verify_audit_chain None None db) report = false).
Proof.
  intros (Hc & _ & _)%audit_reachable_inv. cbn zeta. split; [done|].
  assert (rp_unchained (audit_chain_report (committed d)) = 0 ->
    verify_audit_chain None None (committed d) = true) as Hv.
  { cbn. intros Hu. rewrite count_zero in Hu.
    assert (List.filter chained (committed d) = committed d) as E.
    { apply filter_all. intros r Hr. specialize (Hu r Hr). by destruct (chained r). }
    rewrite E in Hc. unfold verify_audit_chain.
    rewrite stable_sort_id by (by eapply chain_ordered).
    rewrite filter_all by done. destruct (committed d) as [|r0 l]; [done|].
    rewrite (proj1 Hc). by eapply chain_walk. }
  split; [exact Hv|]. intros Hd.
  destruct (report_of (committed d)) as (Hb & Hf & Hr & Hk & Hbr).
  - intros r Hr. apply (chain_hash_ok _ _ _ _ Hc Hr).
  - by apply chain_prevs.
  - assert (rp_broken (audit_chain_report (committed d)) = false) as Hbf
      by (apply Hbr; intros r Hin; by apply (chain_prev "" None)).
    split_and!; [done| |done..|].
    + cbn in Hbf |- *. destruct (count_rows _ _ =? 0) eqn:E1 in Hbf; cbn in Hbf; [|done].
      destruct (_ =? 0) eqn:E2 in Hbf; cbn in Hbf; [|done]. by apply Z.eqb_eq.
    + unfold audit_chain_broken. rewrite Hbf. cbn [orb].
      destruct (Z.eqb_spec (rp_unchained (audit_chain_report (committed d))) 0) as [E|E].
      * by rewrite (Hv E).
      * by rewrite andb_false_r.
Qed.

(** Removing rows is detected, except at the end: of a chain whose
    hashes differ, the rows that remain (in any store whose chained rows they
    are) pass the structural report exactly when they are an initial part of
    it. *)
Theorem audit_deletion_detected `{WO : WorldOk} l l' db :
  one_chain l -> hashes_distinct l -> l' `sublist_of` l -> List.filter chained db = l' ->
  (rp_broken (audit_chain_report db) = false <-> l' `prefix_of` l).
Proof.
  intros Hc Hn Hs E.
  assert (forall r, r ∈ l' -> r ∈ l) as Hin by (intros r Hr; by eapply elem_of_sublist).
  assert (NoDup (map al_prev_hash l')) as Hp.
  { eapply sublist_NoDup; [by apply (chain_prevs l)|].
    clear -Hs. induction Hs; cbn; by constructor. }
  destruct (report_of db) as (_ & _ & _ & _ & Hb); rewrite ?E in *.
  - intros r Hr. apply (chain_hash_ok _ _ _ _ Hc (Hin r Hr)).
  - done.
  - rewrite Hb. split.
    + intros H. apply (kept_rows_prefix "" None l l' Hc); [by apply chain_hashes_start|done..].
    + intros [l2 ->]. apply chain_from_app in Hc as [Hc _]. intros r Hr. by apply (chain_prev "" None).
Qed.

(** Altering a row is detected: if the text under a chained row's hash
    changes, and the row either keeps its stored hash or has a successor, the
    structural report is broken, unless the change exhibits two different
    texts with the same SHA-256 digest. *)
Theorem audit_tamper_detected `{WO : WorldOk} l1 r r' l2 :
  one_chain (l1 ++ r :: l2) -> hashes_distinct (l1 ++ r :: l2) ->
  hashed_text r' <> hashed_text r -> (al_row_hash r' = al_row_hash r \/ l2 <> []) ->
  rp_broken (audit_chain_report (l1 ++ r' :: l2)) = true \/
  exists x y, x <> y /\ sha256_hexdigest x = sha256_hexdigest y.
Proof.
  intros Hc Hn Ht Hk.
  destruct (decide (al_row_hash r' = al_row_hash r)) as [Eh|Eh].
  - assert (al_row_hash r = _expected_row_hash r (al_prev_hash r) /\ al_row_hash r <> "") as [Hr Hne]
      by (apply (chain_hash_ok _ _ _ _ Hc); set_solver).
    destruct (decide (al_row_hash r' = _expected_row_hash r' (al_prev_hash r'))) as [E|E].
    + right. exists (hashed_text r'), (hashed_text r). split; [done|].
      rewrite <- !expected_hashed_text. congruence.
    + left. cbn. rewrite (proj2 (Z.eqb_neq _ _)); [done|]. rewrite count_zero. intros Hz.
      specialize (Hz r'). rewrite negb_false_iff, String.eqb_eq in Hz. apply E, Hz.
      apply elem_of_filter_b. split; [set_solver|]. unfold chained. rewrite Eh.
      by rewrite (proj2 (String.eqb_neq _ _) Hne).
  - left. destruct Hk as [|Hl2]; [done|]. destruct l2 as [|x l2]; [done|].
    assert (al_prev_hash x = al_row_hash r /\ al_row_hash x <> "" /\ al_row_hash r <> "") as (Hx & Hxne & Hrne).
    { split; [|split; apply (chain_hash_ok _ _ _ _ Hc); set_solver].
      apply chain_from_app in Hc as [_ Hc]. destruct (last l1); cbn in Hc; by destruct Hc as (_ & _ & _ & _ & ? & _). }
    cbn. rewrite (proj2 (Z.eqb_neq (count_rows (fun r0 => negb (String.eqb (al_prev_hash r0) "") && _) _) 0));
      [by rewrite !orb_true_r|].
    rewrite count_zero. intros Hz. specialize (Hz x).
    rewrite andb_false_iff, !negb_false_iff, String.eqb_eq, Hx, existsb_elem in Hz.
    destruct Hz as [|(h & (y & Hy & <-)%elem_of_map_b & E%String.eqb_eq)]; [|done|].
    { apply elem_of_filter_b. split; [set_solver|]. unfold chained. by rewrite (proj2 (String.eqb_neq _ _) Hxne). }
    apply elem_of_filter_b in Hy as [Hy _]. unfold hashes_distinct in Hn. rewrite map_app in Hn.
    apply NoDup_app in Hn as (_ & Hd & Hn). cbn [map] in *. apply NoDup_cons in Hn as [Hn _].
    apply elem_of_app in Hy as [Hy|[->|Hy]%elem_of_cons].
    + apply (Hd (al_row_hash y)); [apply elem_of_map_b; eauto|rewrite E; set_solver].
    + congruence.
    + apply Hn. rewrite E. change (al_row_hash y ∈ map al_row_hash (x :: l2)). apply elem_of_map_b. eauto.
Qed.

(** The scoped walk is a check of adjacency: on an intact chain with
    distinct hashes, [verify_audit_chain] for one record answers true exactly
    when that record's rows are consecutive in the whole log. *)
Theorem scoped_walk_adjacency `{WO : WorldOk} l entity_type entity_id :
  one_chain l -> hashes_distinct l ->
  (verify_audit_chain entity_type entity_id l = true <->
   exists l1 l2, l = l1 ++ List.filter (in_scope entity_type entity_id) l ++ l2).
Proof.
  intros Hc Hn. unfold verify_audit_chain. rewrite stable_sort_id by (by eapply chain_ordered).
  set (t := List.filter _ l). split.
  - apply (walk_infix "" None); [done..|]. apply filter_sublist.
  - intros (l1 & l2 & E). rewrite E in Hc. by apply (infix_walk "" None l1 t l2).
Qed.

(** ** On a concrete log *)

Definition toy_call (entity_id : string) : audit_args :=
  NewStyle (Some "shop") (Given None) (Some "job_updated") None (Some "job") (Some entity_id)
    (Some [("status", JStr "done"); ("at", JDefault "2026-10-06")]) None None None None.

Definition toy_log (ids : list string) : list AuditLog :=
  foldl (fun rows i => rows ++ [_log_audit_event_impl (W := toy_world) (toy_call i) 100 (N.of_nat (length rows)) rows])
    [] ids.

Lemma toy_reachable :
  audit_reachable (W := toy_world)
    {| committed := toy_log ["a"; "b"; "a"]; pending := ∅; tip_lock := None |}.
Proof.
  unfold audit_reachable. eapply rtc_l; [apply (step_begin 1%N); reflexivity|].
  assert (forall i rows p lock, (lock = None \/ lock = Some 1%N) ->
    audit_step (W := toy_world) {| committed := []; pending := {[1%N := p]}; tip_lock := lock |}
      {| committed := []; pending := {[1%N := p ++ [_log_audit_event_impl (W := toy_world) (toy_call i) 100 rows p]]};
         tip_lock := Some 1%N |}) as Hlog.
  { intros i rows p lock Hl. pose proof (step_log (W := toy_world) 1%N p (toy_call i) 100 rows
      {| committed := []; pending := {[1%N := p]}; tip_lock := lock |}) as H.
    cbn [committed pending tip_lock app] in H. rewrite insert_singleton_eq in H. apply H; [|done|].
    - apply lookup_singleton_eq.
    - apply new_style_names_action. }
  eapply rtc_l; [apply (Hlog "a" 0%N [] None); by left|].
  eapply rtc_l; [apply (Hlog "b" 1%N _ (Some 1%N)); by right|].
  eapply rtc_l; [apply (Hlog "a" 2%N _ (Some 1%N)); by right|].
  eapply rtc_l; [eapply (step_commit 1%N); reflexivity|]. cbn [committed pending tip_lock].
  rewrite delete_singleton_eq. apply rtc_refl.
Qed.

Lemma toy_inv : audit_inv (W := toy_world)
  {| committed := toy_log ["a"; "b"; "a"]; pending := ∅; tip_lock := None |}.
Proof. apply (audit_reachable_inv (WO := toy_world_ok)), toy_reachable. Qed.

Lemma toy_chain : one_chain (W := toy_world) (toy_log ["a"; "b"; "a"]).
Proof.
  pose proof (proj1 toy_inv) as H. cbn [committed] in H.
  replace (List.filter chained (toy_log ["a"; "b"; "a"])) with (toy_log ["a"; "b"; "a"]) in H
    by (vm_compute; reflexivity). exact H.
Qed.

Lemma toy_distinct : hashes_distinct (toy_log ["a"; "b"; "a"]).
Proof. unfold hashes_distinct. apply (bool_decide_unpack _). vm_compute. exact I. Qed.

Lemma audit_log_verifies_witness :
  verify_audit_chain (W := toy_world) None None (toy_log ["a"; "b"; "a"]) = true /\
  audit_chain_broken (verify_audit_chain (W := toy_world) None None (toy_log ["a"; "b"; "a"]))
    (audit_chain_report (W := toy_world) (toy_log ["a"; "b"; "a"])) = false.
Proof.
  destruct (audit_log_verifies (WO := toy_world_ok)
    {| committed := toy_log ["a"; "b"; "a"]; pending := ∅; tip_lock := None |} toy_reachable) as (_ & Hv & Hb).
  split.
  - apply Hv. vm_compute. reflexivity.
  - apply Hb. cbn [committed].
    replace (List.filter chained (toy_log ["a"; "b"; "a"])) with (toy_log ["a"; "b"; "a"])
      by (vm_compute; reflexivity). exact toy_distinct.
Defined.

Lemma audit_deletion_detected_witness :
  rp_broken (audit_chain_report (W := toy_world) (List.tl (toy_log ["a"; "b"; "a"]))) = false <->
  List.tl (toy_log ["a"; "b"; "a"]) `prefix_of` toy_log ["a"; "b"; "a"].
Proof.
  apply (audit_deletion_detected (WO := toy_world_ok) (toy_log ["a"; "b"; "a"])
           (List.tl (toy_log ["a"; "b"; "a"])) (List.tl (toy_log ["a"; "b"; "a"])) toy_chain toy_distinct).
  - assert (forall l : list AuditLog, List.tl l `sublist_of` l) as H
      by (intros [|x l]; cbn; [constructor|by constructor]). apply H.
  - vm_compute. reflexivity.
Defined.

Definition forged (r : AuditLog) : AuditLog :=
  {| al_id := al_id r; al_tenant_id := al_tenant_id r; al_user_id := Some "mallory"; al_action := al_action r;
     al_entity_type := al_entity_type r; al_entity_id := al_entity_id r; al_details := al_details r;
     al_ip_address := al_ip_address r; al_request_id := al_request_id r; al_row_hash := al_row_hash r;
     al_prev_hash := al_prev_hash r; al_created_at := al_created_at r; al_event_type := al_event_type r;
     al_actor_id := al_actor_id r; al_actor_role := al_actor_role r; al_payload := al_payload r;
     al_hash := al_hash r |}.

Lemma audit_tamper_detected_witness :
  exists l1 r l2, toy_log ["a"; "b"; "a"] = l1 ++ r :: l2 /\
  (rp_broken (audit_chain_report (W := toy_world) (l1 ++ forged r :: l2)) = true \/
   exists x y, x <> y /\ toy_digest x = toy_digest y).
Proof.
  destruct (toy_log ["a"; "b"; "a"]) as [|r l2] eqn:E; [vm_compute in E; discriminate E|].
  exists [], r, l2. split; [reflexivity|].
  apply (audit_tamper_detected (WO := toy_world_ok) [] r (forged r) l2).
  - cbn [app]. rewrite <- E. exact toy_chain.
  - cbn [app]. rewrite <- E. exact toy_distinct.
  - assert (exists r0, List.head (toy_log ["a"; "b"; "a"]) = Some r0 /\ hashed_text (forged r0) <> hashed_text r0)
      as (r0 & H1 & H2) by (eexists; split; [vm_compute; reflexivity|vm_compute; discriminate]).
    rewrite E in H1. injection H1 as ->. exact H2.
  - left. reflexivity.
Defined.

Lemma scoped_walk_adjacency_witness :
  verify_audit_chain (W := toy_world) (Some "job") (Some "b") (toy_log ["a"; "b"; "a"]) = true <->
  exists l1 l2, toy_log ["a"; "b"; "a"] = l1 ++
    List.filter (in_scope (Some "job") (Some "b")) (toy_log ["a"; "b"; "a"]) ++ l2.
Proof.
  apply (scoped_walk_adjacency (WO := toy_world_ok) (toy_log ["a"; "b"; "a"]) (Some "job") (Some "b")
           toy_chain toy_distinct).
Defined.

(** The endpoint's scoped answer on that intact log: tampering is suspected
    for the record whose two rows have another record's between them. *)
Lemma scoped_false_alarm :
  audit_chain_broken (verify_audit_chain (W := toy_world) None None (toy_log ["a"; "b"; "a"]))
    (audit_chain_report (W := toy_world) (toy_log ["a"; "b"; "a"])) = false /\
  scoped_tamper_suspected (W := toy_world) "job" "a" (toy_log ["a"; "b"; "a"]) = true.
Proof. vm_compute. split; reflexivity. Qed.
