(* ===== verification/Numbering.v ===== *)
(** * Job numbers

    [modules/numbering/service.py]: rendering a number from the shop's
    template, the search for a number no job carries, the counter row and its
    yearly reset.  [str.format] is modelled as CPython parses a template
    (escapes, field names, conversions, nested specifications); what formatting
    one value, taking an attribute or an item of it, and converting it do is
    the class [PyFormat], of which [FormatOk] states the three documented
    formats the shipped template relies on.  A regular expression's [A-Za-z]+
    is read over bytes. *)

From S2P Require Import Prelude PyStr.

Local Open Scope Z_scope.

(** * [str.format] *)

Inductive fvalue : Type := FInt (z : Z) | FStr (s : string).

Class PyFormat : Type := {
  py_format : fvalue -> string -> result string;      (** [format(v, spec)] *)
  py_access : fvalue -> string -> result fvalue;      (** [.attr], [[item]] *)
  py_convert : ascii -> fvalue -> result fvalue       (** [!r], [!s], [!a] *)
}.

(** [s.zfill(w)] on digits. *)
Fixpoint zeros (n : nat) (s : string) : string :=
  match n with O => s | S n' => String "0" (zeros n' s) end.
Definition zfill (w : nat) (s : string) : string := zeros (w - String.length s) s.

(** [f"{z:0wd}"] *)
Definition fmt_0d (w : nat) (z : Z) : string :=
  if z <? 0 then "-" +:+ zfill (w - 1) (pretty (Z.to_N (- z))) else zfill w (pretty (Z.to_N z)).

Class FormatOk (F : PyFormat) : Prop := {
  format_str_plain s : py_format (FStr s) "" = Ok s;
  format_int_plain z : py_format (FInt z) "" = Ok (pretty z);
  format_int_03d z : py_format (FInt z) "03d" = Ok (fmt_0d 3 z);
  format_int_003 z : py_format (FInt z) "003" = Ok (fmt_0d 3 z)
}.

Definition kwargs : Type := list (string * fvalue).

(** The text before the first [c] of [stop], that character and the rest. *)
Fixpoint scan_until (stop : ascii -> bool) (s : string) : string * option (ascii * string) :=
  match s with
  | EmptyString => (EmptyString, None)
  | String c s' =>
      if stop c then (EmptyString, Some (c, s'))
      else let '(a, r) := scan_until stop s' in (String c a, r)
  end.

Definition is_brace (c : ascii) : bool := Ascii.eqb c "{" || Ascii.eqb c "}".

(** The field name: up to a closing brace, a colon or an exclamation mark;
    what stands between square brackets is skipped over. *)
Fixpoint scan_name (in_item : bool) (s : string) : result (string * option (ascii * string)) :=
  match s with
  | EmptyString => Ok (EmptyString, None)
  | String c s' =>
      if in_item then
        let! r := scan_name (negb (Ascii.eqb c "]")) s' in
        Ok (String c (fst r), snd r)
      else if Ascii.eqb c "{" then Err ValueError
      else if Ascii.eqb c "}" || Ascii.eqb c ":" || Ascii.eqb c "!" then Ok (EmptyString, Some (c, s'))
      else
        let! r := scan_name (Ascii.eqb c "[") s' in
        Ok (String c (fst r), snd r)
  end.

(** The specification: up to the matching brace. *)
Fixpoint scan_spec (depth : nat) (s : string) : result (string * string) :=
  match s with
  | EmptyString => Err ValueError
  | String c s' =>
      if Ascii.eqb c "}" then
        match depth with
        | O => Ok (EmptyString, s')
        | S d => let! r := scan_spec d s' in Ok (String c (fst r), snd r)
        end
      else
        let! r := scan_spec (if Ascii.eqb c "{" then S depth else depth) s' in
        Ok (String c (fst r), snd r)
  end.

(** [parse_field]: name, conversion, specification, and the rest. *)
Definition parse_field (s : string) : result (string * option ascii * string * string) :=
  let! nr := scan_name false s in
  let '(name, r) := nr in
  match r with
  | None => Err ValueError
  | Some (c, rest) =>
      if Ascii.eqb c "}" then Ok (name, None, EmptyString, rest)
      else if Ascii.eqb c ":" then
        let! sp := scan_spec 0 rest in Ok (name, None, fst sp, snd sp)
      else
        match rest with
        | EmptyString => Err ValueError
        | String conv rest' =>
            match rest' with
            | EmptyString => Err ValueError
            | String c2 rest2 =>
                if Ascii.eqb c2 "}" then Ok (name, Some conv, EmptyString, rest2)
                else if Ascii.eqb c2 ":" then
                  let! sp := scan_spec 0 rest2 in Ok (name, Some conv, fst sp, snd sp)
                else Err ValueError
            end
        end
  end.

Definition is_digit (c : ascii) : bool :=
  let n := N_of_ascii c in (48 <=? n)%N && (n <=? 57)%N.

Section Format.
Context `{F : PyFormat}.

(** [get_field_object]: a positional field has no argument to name. *)
Definition field_object (kw : kwargs) (name : string) : result fvalue :=
  let '(first, r) := scan_until (fun c => Ascii.eqb c "." || Ascii.eqb c "[") name in
  let accessors := match r with Some (c, rest) => String c rest | None => EmptyString end in
  if String.eqb first "" || str_all is_digit first then Err IndexError
  else
    match List.find (fun kv => String.eqb (fst kv) first) kw with
    | None => Err KeyError
    | Some (_, v) => if String.eqb accessors "" then Ok v else py_access v accessors
    end.

(** [do_markup]: [depth] is the nesting of specifications still allowed, and
    [fuel] bounds the pieces of the template, each at least one character. *)
Fixpoint do_markup (depth fuel : nat) (kw : kwargs) (s : string) {struct depth} : result string :=
  match depth with
  | O => Err ValueError
  | S depth' =>
      (fix go (fuel : nat) (s : string) : result string :=
         match fuel with
         | O => Ok EmptyString
         | S fuel' =>
             let '(lit, r) := scan_until is_brace s in
             match r with
             | None => Ok lit
             | Some (c, EmptyString) => Err ValueError
             | Some (c, String c2 rest) =>
                 if Ascii.eqb c c2 then
                   let! tail := go fuel' rest in Ok (lit +:+ String c EmptyString +:+ tail)
                 else if Ascii.eqb c "}" then Err ValueError
                 else
                   let! p := parse_field (String c2 rest) in
                   let '(name, conv, spec, rest') := p in
                   let! v := field_object kw name in
                   let! v := match conv with Some cv => py_convert cv v | None => Ok v end in
                   let! spec := if str_contains "{" spec
                                then do_markup depth' (String.length spec) kw spec else Ok spec in
                   let! out := py_format v spec in
                   let! tail := go fuel' rest' in
                   Ok (lit +:+ out +:+ tail)
             end
         end) fuel s
  end.

Definition str_format (template : string) (kw : kwargs) : result string :=
  do_markup 2 (String.length template) kw template.

(** * Rendering *)

Definition is_alpha (c : ascii) : bool :=
  let n := N_of_ascii c in
  ((65 <=? n) && (n <=? 90) || (97 <=? n) && (n <=? 122))%N.
Definition chr_upper (c : ascii) : ascii :=
  let n := N_of_ascii c in
  if ((97 <=? n) && (n <=? 122))%N then ascii_of_N (n - 32) else c.

(** The first letters of the words [_INITIALS_RE.findall] returns. *)
Fixpoint word_heads (in_word : bool) (s : string) : list ascii :=
  match s with
  | EmptyString => []
  | String c s' =>
      if is_alpha c then (if in_word then word_heads true s' else c :: word_heads true s')
      else word_heads false s'
  end.

Definition _customer_initials (customer_name : option string) : string :=
  match customer_name with
  | None => ""
  | Some name => foldr (fun c s => String (chr_upper c) s) "" (take 2 (word_heads false name))
  end.

(** The clock's year and month. *)
Definition clock : Type := Z * Z.

Definition apply_template (template : string) (seq year month : Z) (customer_name : option string)
  : result string :=
  let yy := year mod 100 in
  let initials := _customer_initials customer_name in
  match str_format template
          [("seq", FInt seq); ("year", FInt year); ("yy", FStr (fmt_0d 2 yy));
           ("month", FStr (fmt_0d 2 month)); ("customer_initials", FStr initials)] with
  | Err KeyError | Err IndexError | Err ValueError => Ok ("JOB-" +:+ fmt_0d 3 seq)
  | r => r
  end.

Definition preview (template : string) (seq : Z) (year : option Z) (customer_name : string) (now : clock)
  : result string :=
  apply_template template seq (default (fst now) year) (snd now) (Some customer_name).

(** * The search *)

Definition _MAX_SKIPS : Z := 100000.

Record NumSettings : Type := {
  job_number_format : string;
  job_number_next_seq : Z;
  job_number_year_seen : option Z
}.

(** The jobs' numbers, live and deleted, and the settings rows. *)
Record NumDb : Type := {
  jobs : list (option string);
  settings : gmap uuid NumSettings
}.

Definition taken (d : NumDb) (number : string) : bool :=
  existsb (fun j => bool_decide (j = Some number)) (jobs d).

(** [for candidate in range(seq, seq + n)] over the numbers already read. *)
Fixpoint scan_candidates (render : Z -> result string) (used : list string) (n : nat) (candidate : Z)
  : result (Z * string) :=
  match n with
  | O => Err NumberingExhausted
  | S n' =>
      let! rendered := render candidate in
      if bool_decide (rendered ∈ used) then scan_candidates render used n' (candidate + 1)
      else Ok (candidate, rendered)
  end.

Definition first_free_seq (d : NumDb) (template : string) (seq : Z) (now : clock)
    (customer_name : option string) : result (Z * string) :=
  let render k := apply_template template k (fst now) (snd now) customer_name in
  let! rendered := render seq in
  if negb (taken d rendered) then Ok (seq, rendered)
  else scan_candidates render (omap id (jobs d)) (Z.to_nat _MAX_SKIPS) (seq + 1).

(** * The counter *)

Definition default_format : string := "JOB-{year}-{seq:03d}".
Definition default_settings : NumSettings :=
  {| job_number_format := default_format; job_number_next_seq := 1; job_number_year_seen := None |}.

Definition mentions_year (template : string) : bool := str_in "{year}" template || str_in "{yy}" template.

Definition set_settings (tid : uuid) (row : NumSettings) (d : NumDb) : NumDb :=
  {| jobs := jobs d; settings := <[tid := row]> (settings d) |}.

Definition next_job_number (tenant_id : string) (customer_name : option string) (now : clock)
  : M NumDb string :=
  match uuid_of_string tenant_id with
  | None => mraise ValueError
  | Some tid =>
      found <- mreads (fun d => settings d !! tid) ;;
      (match found with
       | None => mwrite (set_settings tid default_settings)
       | Some _ => mreturn tt
       end) ;;;
      row <- mreads (fun d => default default_settings (settings d !! tid)) ;;
      let template := if String.eqb (job_number_format row) "" then default_format else job_number_format row in
      let next_seq := if job_number_next_seq row =? 0 then 1 else job_number_next_seq row in
      let current_year := fst now in
      let year_changed := match job_number_year_seen row with
                          | Some y => negb (y =? 0) && negb (y =? current_year)
                          | None => false
                          end in
      let next_seq := if mentions_year template && year_changed then 1 else next_seq in
      free <- (fun d => (first_free_seq d template next_seq now customer_name, d)) ;;
      mwrite (fun d => set_settings tid
        {| job_number_format := job_number_format row; job_number_next_seq := fst free + 1;
           job_number_year_seen := Some current_year |} d) ;;;
      mreturn (snd free)
  end.

(** Its own session: committed on success, rolled back on any exception. *)
Definition allocate_job_number (tenant_id : string) (customer_name : option string) (now : clock)
  (d : NumDb) : option string * NumDb :=
  match next_job_number tenant_id customer_name now d with
  | (Ok number, d') => (Some number, d')
  | (Err _, _) => (None, d)
  end.
End Format.

(** * Decimal text *)

Definition digit_value (c : ascii) : N := N_of_ascii c - 48.

Fixpoint dec_value (acc : N) (s : string) : N :=
  match s with EmptyString => acc | String c s' => dec_value (10 * acc + digit_value c) s' end.

Lemma digit_value_char d : (d < 10)%N -> digit_value (pretty_N_char d) = d.
Proof.
  intros Hd. assert (d = 0 \/ d = 1 \/ d = 2 \/ d = 3 \/ d = 4 \/ d = 5 \/ d = 6 \/ d = 7 \/ d = 8 \/ d = 9)%N
    as H by lia. by destruct_or! H; subst.
Qed.

Lemma dec_value_go x : forall s, dec_value 0 (pretty_N_go x s) = dec_value x s.
Proof.
  induction (N.lt_wf_0 x) as [x _ IH]. intros s. destruct (decide (0 < x)%N) as [Hx|Hx].
  - rewrite pretty_N_go_step by done. rewrite IH by (by apply N.div_lt). cbn [dec_value].
    rewrite digit_value_char by (by apply N.mod_lt). f_equal. symmetry. by apply N.div_mod.
  - assert (x = 0)%N as -> by lia. by rewrite pretty_N_go_0.
Qed.

Lemma dec_value_pretty (n : N) : dec_value 0 (pretty n) = n.
Proof. unfold pretty, pretty_N. case_decide; [by subst|]. apply dec_value_go. Qed.

Lemma dec_value_zeros k s : dec_value 0 (zeros k s) = dec_value 0 s.
Proof. induction k as [|k IH]; [done|]. cbn. done. Qed.

Lemma fmt_0d_inj w i j : 0 <= i -> 0 <= j -> fmt_0d w i = fmt_0d w j -> i = j.
Proof.
  intros Hi Hj. unfold fmt_0d. rewrite !(proj2 (Z.ltb_ge _ _)) by done.
  intros E%(f_equal (dec_value 0)). unfold zfill in E. rewrite !dec_value_zeros, !dec_value_pretty in E. lia.
Qed.

Lemma pretty_N_all p (n : N) : (forall d, (d < 10)%N -> p (pretty_N_char d) = true) -> str_all p (pretty n) = true.
Proof.
  intros Hp. assert (forall x s, str_all p s = true -> str_all p (pretty_N_go x s) = true) as Hgo.
  { intros x. induction (N.lt_wf_0 x) as [x _ IH]. intros s Hs. destruct (decide (0 < x)%N) as [Hx|Hx].
    - rewrite pretty_N_go_step by done. apply IH; [by apply N.div_lt|]. cbn.
      rewrite Hp by (by apply N.mod_lt). done.
    - assert (x = 0)%N as -> by lia. by rewrite pretty_N_go_0. }
  unfold pretty, pretty_N. case_decide; [|by apply Hgo].
  pose proof (Hp 0%N eq_refl) as H0. cbn in *. by rewrite H0.
Qed.

(** * The search finds the first free number *)

Section Search.
Context `{F : PyFormat}.

(** The template raises nothing that [apply_template] lets through. *)
Definition renders (template : string) : Prop :=
  forall seq year month name, exists s, apply_template template seq year month name = Ok s.

(** The number of [seq], when it has one. *)
Definition number_of (template : string) (now : clock) (name : option string) (seq : Z) : string :=
  match apply_template template seq (fst now) (snd now) name with Ok s => s | Err _ => "" end.

(** Reference: the first of [n] sequence numbers from [seq] whose number no
    job carries. *)
Fixpoint search (free : Z -> bool) (n : nat) (seq : Z) : option Z :=
  match n with
  | O => None
  | S n' => if free seq then Some seq else search free n' (seq + 1)
  end.

Lemma search_spec free n seq :
  match search free n seq with
  | Some k => seq <= k < seq + Z.of_nat n /\ free k = true /\ forall j, seq <= j < k -> free j = false
  | None => forall j, seq <= j < seq + Z.of_nat n -> free j = false
  end.
Proof.
  revert seq. induction n as [|n IH]; intros seq; cbn [search]; [lia|].
  destruct (free seq) eqn:E; [split_and!; [lia..|done|lia]|].
  specialize (IH (seq + 1)). destruct (search free n (seq + 1)) as [k|].
  - destruct IH as (H1 & H2 & H3). split_and!; [lia..|done|]. intros j Hj.
    destruct (decide (j = seq)) as [->|]; [done|]. apply H3. lia.
  - intros j Hj. destruct (decide (j = seq)) as [->|]; [done|]. apply IH. lia.
Qed.

Lemma taken_elem d s : taken d s = true <-> Some s ∈ jobs d.
Proof.
  unfold taken. rewrite existsb_elem. split.
  - intros (j & Hj & E%bool_decide_eq_true). by subst.
  - intros H. exists (Some s). by rewrite bool_decide_true.
Qed.

Lemma elem_of_used d s : s ∈ omap id (jobs d) <-> taken d s = true.
Proof.
  rewrite taken_elem, list_elem_of_omap. split; [|eauto].
  intros (j & Hj & E). cbn in E. by subst.
Qed.

Lemma scan_candidates_spec template now name d n seq :
  renders template ->
  scan_candidates (fun k => apply_template template k (fst now) (snd now) name) (omap id (jobs d)) n seq
  = match search (fun k => negb (taken d (number_of template now name k))) n seq with
    | Some k => Ok (k, number_of template now name k)
    | None => Err NumberingExhausted
    end.
Proof.
  intros Hr. revert seq. induction n as [|n IH]; intros seq; [done|]. cbn [scan_candidates search].
  destruct (Hr seq (fst now) (snd now) name) as [s Hs]. unfold number_of at 1. rewrite Hs. cbn [rbind].
  case_bool_decide as E; rewrite elem_of_used in E.
  - rewrite E. cbn [negb]. apply IH.
  - apply not_true_is_false in E. rewrite E. cbn [negb]. unfold number_of. by rewrite Hs.
Qed.

Lemma first_free_search d template seq now name :
  renders template ->
  first_free_seq d template seq now name
  = match search (fun k => negb (taken d (number_of template now name k))) (S (Z.to_nat _MAX_SKIPS)) seq with
    | Some k => Ok (k, number_of template now name k)
    | None => Err NumberingExhausted
    end.
Proof.
  intros Hr. unfold first_free_seq. cbn [search].
  destruct (Hr seq (fst now) (snd now) name) as [s Hs]. rewrite Hs. cbn [rbind].
  assert (number_of template now name seq = s) as Hn by (unfold number_of; by rewrite Hs).
  rewrite Hn. destruct (taken d s); cbn [negb]; [|by rewrite Hn]. by apply scan_candidates_spec.
Qed.

(** Templates that, in the years [years], give different sequence numbers
    different job numbers, whatever the customer and the month, and different
    years too if they show the year.  A template with [{year}] can do so over
    all years, one with [{yy}] within a century ([yy_format_tells_apart]). *)
Definition tells_apart (years : Z -> Prop) (template : string) : Prop :=
  forall i j y1 y2 m1 m2 n1 n2, 0 <= i -> 0 <= j -> years y1 -> years y2 ->
    apply_template template i y1 m1 n1 = apply_template template j y2 m2 n2 ->
    i = j /\ (mentions_year template = true -> y1 = y2).

Lemma search_finds d template seq now name :
  renders template -> tells_apart (eq (fst now)) template -> 0 <= seq ->
  Z.of_nat (length (jobs d)) <= _MAX_SKIPS ->
  exists k, search (fun k => negb (taken d (number_of template now name k))) (S (Z.to_nat _MAX_SKIPS)) seq = Some k.
Proof.
  intros Hr Ht Hs Hlen. pose proof (search_spec (fun k => negb (taken d (number_of template now name k)))
    (S (Z.to_nat _MAX_SKIPS)) seq) as H. destruct (search _ _ _) as [k|]; [by exists k|]. exfalso.
  set (cands := map (fun i => Some (number_of template now name (seq + Z.of_nat i))) (List.seq 0 (S (Z.to_nat _MAX_SKIPS)))).
  assert (NoDup cands) as Hnd.
  { apply NoDup_fmap_2_strong; [|apply NoDup_ListNoDup, seq_NoDup]. intros i j Hi Hj E. injection E as E.
    destruct (Hr (seq + Z.of_nat i) (fst now) (snd now) name) as [s1 E1].
    destruct (Hr (seq + Z.of_nat j) (fst now) (snd now) name) as [s2 E2].
    unfold number_of in E. rewrite E1, E2 in E. subst s2. rewrite <- E1 in E2.
    apply Ht in E2 as [E2 _]; [lia|lia|lia|done..]. }
  assert (cands ⊆ jobs d) as Hsub.
  { intros x (i & Hi & <-)%elem_of_map_b. apply taken_elem. apply list_elem_of_In, in_seq in Hi.
    specialize (H (seq + Z.of_nat i)). rewrite negb_false_iff in H. apply H. lia. }
  pose proof (NoDup_submseteq _ _ Hnd Hsub) as Hlen'. apply submseteq_length in Hlen'.
  unfold cands in Hlen'. rewrite length_map, length_seq in Hlen'. unfold _MAX_SKIPS in *. lia.
Qed.

(** What the search returns, when it does. *)
Lemma first_free_Ok d template seq now name k s :
  renders template -> first_free_seq d template seq now name = Ok (k, s) ->
  seq <= k <= seq + _MAX_SKIPS /\ Some s ∉ jobs d /\ s = number_of template now name k /\
  forall j, seq <= j < k -> Some (number_of template now name j) ∈ jobs d.
Proof.
  intros Hr. rewrite (first_free_search d template seq now name Hr).
  pose proof (search_spec (fun k => negb (taken d (number_of template now name k)))
    (S (Z.to_nat _MAX_SKIPS)) seq) as H.
  intros E. destruct (search _ _ _) as [k'|]; [|done]. injection E as <- <-.
  destruct H as (H1 & H2 & H3). unfold _MAX_SKIPS in *. split_and!; [lia..| |done|].
  - rewrite negb_true_iff in H2. rewrite <- taken_elem. by rewrite H2.
  - intros j Hj. apply taken_elem. specialize (H3 j Hj). by apply negb_false_iff.
Qed.

(** C40: The search for a job number terminates with the first free one:
    for a template that renders, [first_free_seq] equals the scan of the
    sequence numbers from [seq] on that stops at the first whose number is on
    no job, live or deleted, within the skip bound, and refuses exactly when
    every candidate is taken; when the template tells that year's numbers apart
    and there are at most [_MAX_SKIPS] jobs it always returns one. *)
Theorem first_free_seq_finds d template seq now name :
  renders template ->
  first_free_seq d template seq now name
  = (match search (fun k => negb (taken d (number_of template now name k))) (S (Z.to_nat _MAX_SKIPS)) seq with
     | Some k => Ok (k, number_of template now name k)
     | None => Err NumberingExhausted
     end) /\
  (forall k s, first_free_seq d template seq now name = Ok (k, s) ->
     seq <= k <= seq + _MAX_SKIPS /\ Some s ∉ jobs d /\
     forall j, seq <= j < k -> Some (number_of template now name j) ∈ jobs d) /\
  (tells_apart (eq (fst now)) template -> 0 <= seq -> Z.of_nat (length (jobs d)) <= _MAX_SKIPS ->
   exists k s, first_free_seq d template seq now name = Ok (k, s)).
Proof.
  intros Hr. pose proof (first_free_search d template seq now name Hr) as E. split_and!; [exact E| |].
  - intros k s Hk. destruct (first_free_Ok d template seq now name k s Hr Hk) as (H1 & H2 & _ & H3). done.
  - rewrite E. intros Ht Hs Hl. destruct (search_finds d template seq now name Hr Ht Hs Hl) as [k ->]. eauto.
Qed.

(** * Numbers are handed out once *)

Definition effective_format (row : NumSettings) : string :=
  if String.eqb (job_number_format row) "" then default_format else job_number_format row.

(** Where the search of an allocation in year [y] starts. *)
Definition start_seq (row : NumSettings) (y : Z) : Z :=
  if mentions_year (effective_format row) &&
     match job_number_year_seen row with Some ys => negb (ys =? 0) && negb (ys =? y) | None => false end
  then 1
  else if job_number_next_seq row =? 0 then 1 else job_number_next_seq row.

Definition row_of (tid : uuid) (d : NumDb) : NumSettings := default default_settings (settings d !! tid).

Lemma next_job_number_Ok tenant_id tid name now d s d' :
  uuid_of_string tenant_id = Some tid ->
  next_job_number tenant_id name now d = (Ok s, d') ->
  exists k, first_free_seq d (effective_format (row_of tid d)) (start_seq (row_of tid d) (fst now)) now name = Ok (k, s) /\
    jobs d' = jobs d /\
    row_of tid d' = {| job_number_format := job_number_format (row_of tid d);
                       job_number_next_seq := k + 1; job_number_year_seen := Some (fst now) |}.
Proof.
  intros Htid H. unfold next_job_number in H. rewrite Htid in H.
  set (d1 := match settings d !! tid with None => set_settings tid default_settings d | Some _ => d end).
  assert (row_of tid d1 = row_of tid d /\ jobs d1 = jobs d) as [Hrow Hjobs].
  { subst d1. unfold row_of. destruct (settings d !! tid) as [row|] eqn:E; cbn.
    - by rewrite E.
    - by rewrite lookup_insert_eq. }
  assert (mseq (match settings d !! tid with
                | None => mwrite (set_settings tid default_settings) | Some _ => mreturn tt end)
            (fun _ => mreads (fun d => row_of tid d)) d = (Ok (row_of tid d), d1)) as E1.
  { subst d1. unfold row_of, mseq, mreads, mwrite, mreturn.
    destruct (settings d !! tid) as [row|] eqn:E; cbn; [rewrite E; reflexivity|].
    by rewrite lookup_insert_eq. }
  apply mseq_Ok in H as (found & d0 & H0 & H). unfold mreads in H0. injection H0 as <- <-.
  apply mseq_Ok in H as (u & d2 & H2 & H).
  apply mseq_Ok in H as (row & d3 & H3 & H).
  assert (row = row_of tid d /\ d3 = d1) as [-> ->].
  { unfold mseq in E1. rewrite H2 in E1. unfold mreads, row_of in *. rewrite E1 in H3. by simplify_eq. }
  apply mseq_Ok in H as ([k s'] & d4 & H4 & H). injection H4 as H4 <-.
  assert (first_free_seq d1 (effective_format (row_of tid d)) (start_seq (row_of tid d) (fst now)) now name
          = Ok (k, s')) as H5 by exact H4.
  minv H. exists k. cbn [fst snd] in *. split_and!.
  - unfold first_free_seq, taken in *. by rewrite Hjobs in H5.
  - done.
  - unfold row_of at 1. cbn. by rewrite lookup_insert_eq.
Qed.

Inductive num_op : Type :=
  | NAlloc (customer_name : option string) (now : clock)
  | NJob (number : option string).   (** a job row appears, with any number or none *)

Definition add_job (j : option string) (d : NumDb) : NumDb :=
  {| jobs := jobs d ++ [j]; settings := settings d |}.

(** The numbers handed out by a run, each with the jobs there were then. *)
Fixpoint hand_out (tenant_id : string) (ops : list num_op) (d : NumDb) : list (string * list (option string)) :=
  match ops with
  | [] => []
  | NAlloc name now :: ops' =>
      match allocate_job_number tenant_id name now d with
      | (Some s, d') => (s, jobs d) :: hand_out tenant_id ops' d'
      | (None, d') => hand_out tenant_id ops' d'
      end
  | NJob j :: ops' => hand_out tenant_id ops' (add_job j d)
  end.

(** The years of the allocations, in order, never before [y]. *)
Fixpoint years_from (y : Z) (ops : list num_op) : Prop :=
  match ops with
  | [] => True
  | NAlloc _ now :: ops' => y <= fst now /\ years_from (fst now) ops'
  | NJob _ :: ops' => years_from y ops'
  end.

(** The years in which a run allocates. *)
Definition alloc_years (ops : list num_op) : list Z :=
  omap (fun op => match op with NAlloc _ now => Some (fst now) | NJob _ => None end) ops.

(** A number the counter row has passed, rendered in one of [years]. *)
Definition passed (years : Z -> Prop) (template : string) (row : NumSettings) (s : string) : Prop :=
  exists k y m name, apply_template template k y m name = Ok s /\ 0 <= k /\ years y /\
    exists ys, job_number_year_seen row = Some ys /\ 0 < ys /\
      ((y = ys \/ mentions_year template = false) /\ k < job_number_next_seq row \/
       mentions_year template = true /\ y < ys).

Definition year_reached (row : NumSettings) (y : Z) : Prop :=
  0 < y /\ match job_number_year_seen row with Some ys => ys <= y | None => True end.

(** An allocation's number is none of those passed, and they stay passed. *)
Lemma alloc_fresh years template tenant_id tid name now d s d' :
  uuid_of_string tenant_id = Some tid -> renders template -> tells_apart years template -> years (fst now) ->
  effective_format (row_of tid d) = template -> 1 <= job_number_next_seq (row_of tid d) ->
  year_reached (row_of tid d) (fst now) ->
  next_job_number tenant_id name now d = (Ok s, d') ->
  Some s ∉ jobs d /\ jobs d' = jobs d /\
  effective_format (row_of tid d') = template /\ 1 <= job_number_next_seq (row_of tid d') /\
  job_number_year_seen (row_of tid d') = Some (fst now) /\
  passed years template (row_of tid d') s /\
  forall t, passed years template (row_of tid d) t -> t <> s /\ passed years template (row_of tid d') t.
Proof.
  intros Htid Hr Ht Hin Hf Hn [Hy Hys] H.
  destruct (next_job_number_Ok _ _ _ _ _ _ _ Htid H) as (k & Hk & Hj & Hrow).
  rewrite Hf in Hk. set (st := start_seq (row_of tid d) (fst now)) in *.
  assert (1 <= st) as Hst.
  { subst st. unfold start_seq. destruct (_ && _); [lia|]. destruct (Z.eqb_spec (job_number_next_seq (row_of tid d)) 0); lia. }
  destruct (first_free_Ok d template st now name k s Hr Hk) as (Hb & Hfree & Hnum & _).
  assert (apply_template template k (fst now) (snd now) name = Ok s) as Hs.
  { rewrite Hnum. unfold number_of. by destruct (Hr k (fst now) (snd now) name) as [x ->]. }
  assert (effective_format (row_of tid d') = template) as Hf' by (rewrite Hrow; exact Hf).
  split_and!; [done|done|done|rewrite Hrow; cbn; lia|by rewrite Hrow| |].
  - exists k, (fst now), (snd now), name. rewrite Hrow. cbn. split_and!; [done|lia|done|].
    exists (fst now). split_and!; [done|lia|]. left. split; [by left|lia].
  - intros t (k2 & y2 & m2 & n2 & Et & Hk2 & Hy2 & ys & Eys & Hyspos & Hcase).
    rewrite Eys in Hys. split.
    + intros ->. rewrite <- Hs in Et. apply Ht in Et as [-> Hyy]; [|lia|lia|done..].
      assert (st = (if mentions_year template && (negb (ys =? 0) && negb (ys =? fst now)) then 1
                    else if job_number_next_seq (row_of tid d) =? 0 then 1 else job_number_next_seq (row_of tid d)))
        as Est by (unfold st, start_seq; by rewrite Hf, Eys).
      destruct Hcase as [[[->|Em] Hlt]|[Em Hlt]].
      * destruct (mentions_year template) eqn:Em; cbn [andb] in Est.
        -- rewrite (Hyy eq_refl), Z.eqb_refl, andb_false_r in Est.
           destruct (Z.eqb_spec (job_number_next_seq (row_of tid d)) 0); lia.
        -- destruct (Z.eqb_spec (job_number_next_seq (row_of tid d)) 0); lia.
      * rewrite Em in Est. cbn [andb] in Est. destruct (Z.eqb_spec (job_number_next_seq (row_of tid d)) 0); lia.
      * specialize (Hyy Em). lia.
    + exists k2, y2, m2, n2. rewrite Hrow. cbn. split_and!; [done..|]. exists (fst now).
      split_and!; [done|lia|]. destruct (mentions_year template) eqn:Em.
      * destruct (decide (y2 = fst now)) as [Ey|Ey]; [|right; split; [done|]].
        2: { destruct Hcase as [[[->|?] _]|[_ ?]]; [lia|done|lia]. }
        left. split; [by left|]. assert (y2 = ys /\ k2 < job_number_next_seq (row_of tid d)) as [-> Hlt].
        { destruct Hcase as [[[->|?] ?]|[_ ?]]; [done|done|lia]. }
        assert (st = job_number_next_seq (row_of tid d)) as Est; [|lia].
        unfold st, start_seq. rewrite Hf, Eys, Em, Ey, Z.eqb_refl, andb_false_r. cbn [andb].
        destruct (Z.eqb_spec (job_number_next_seq (row_of tid d)) 0); lia.
      * left. split; [by right|].
        assert (k2 < job_number_next_seq (row_of tid d)) as Hlt by (destruct Hcase as [[_ ?]|[? _]]; [done|done]).
        assert (st = job_number_next_seq (row_of tid d)) as Est; [|lia].
        unfold st, start_seq. rewrite Hf, Em. cbn [andb].
        destruct (Z.eqb_spec (job_number_next_seq (row_of tid d)) 0); lia.
Qed.

(** A refused allocation leaves no trace; a made one is [alloc_fresh]'s. *)
Lemma hand_out_fresh years template tenant_id tid ops y d prev :
  uuid_of_string tenant_id = Some tid -> renders template -> tells_apart years template ->
  Forall years (alloc_years ops) ->
  effective_format (row_of tid d) = template -> 1 <= job_number_next_seq (row_of tid d) ->
  years_from y ops -> year_reached (row_of tid d) y ->
  Forall (passed years template (row_of tid d)) prev ->
  let out := hand_out tenant_id ops d in
  NoDup (map fst out) /\ Forall (fun p => Some (fst p) ∉ snd p) out /\
  forall s, s ∈ map fst out -> s ∉ prev.
Proof.
  intros Htid Hr Ht. revert y d prev. induction ops as [|[name now|j] ops IH]; intros y d prev Hyr Hf Hn Hy Hreach Hprev.
  - cbn. split_and!; [constructor|constructor|set_solver].
  - cbn in Hyr. apply Forall_cons in Hyr as [Hnow Hyr].
    cbn [years_from] in Hy. destruct Hy as [Hy Hyears]. destruct Hreach as [Hypos Hreach].
    assert (year_reached (row_of tid d) (fst now)) as Hreach'.
    { split; [lia|]. destruct (job_number_year_seen (row_of tid d)); [lia|done]. }
    cbn [hand_out]. unfold allocate_job_number.
    destruct (next_job_number tenant_id name now d) as [[s|e] d'] eqn:E; [|by apply (IH (fst now))].
    destruct (alloc_fresh years template tenant_id tid name now d s d') as (H1 & H2 & H3 & H4 & H5 & H6 & H7); [done..|].
    destruct (IH (fst now) d' (s :: prev)) as (I1 & I2 & I3); [done..| | |].
    { split; [lia|]. by rewrite H5. }
    { constructor; [done|]. eapply Forall_impl; [exact Hprev|]. intros t Hp. by apply H7. }
    cbn [map fst]. split_and!.
    + apply NoDup_cons. split; [|done]. intros Hin. apply (I3 s Hin). set_solver.
    + by constructor.
    + intros t [->|Hin]%elem_of_cons Hp.
      * rewrite Forall_forall in Hprev. by apply (H7 s (Hprev s Hp)).
      * apply (I3 t Hin). set_solver.
  - cbn [hand_out]. by apply (IH y (add_job j d)).
Qed.

(** C39: A job number is handed out once: whatever jobs appear in between,
    with whatever numbers, and whichever allocations fail, the numbers that a
    run of allocations hands out are pairwise different, and none is on a job,
    live or deleted, when it is handed out.  The years may pass (not run
    backwards) and the counter may restart with each; the template must render
    and tell the sequence numbers, and if it shows the year the years, of this
    run apart: [{year}] does over any years, [{yy}] over the years of one
    century (and does not beyond it, [yy_format_collides]). *)
Theorem job_numbers_unique template tenant_id tid ops y d :
  uuid_of_string tenant_id = Some tid -> renders template ->
  tells_apart (fun x => x ∈ alloc_years ops) template ->
  effective_format (row_of tid d) = template -> 1 <= job_number_next_seq (row_of tid d) ->
  years_from y ops -> year_reached (row_of tid d) y ->
  NoDup (map fst (hand_out tenant_id ops d)) /\
  Forall (fun p => Some (fst p) ∉ snd p) (hand_out tenant_id ops d).
Proof.
  intros Htid Hr Ht Hf Hn Hy Hreach.
  destruct (hand_out_fresh _ template tenant_id tid ops y d [] Htid Hr Ht) as (H1 & H2 & _);
    [by apply Forall_forall|done..|constructor|done].
Qed.
End Search.

(** * The template shipped as default *)

Section Default.
Context `{FO : FormatOk}.

Lemma default_renders seq year month name :
  apply_template default_format seq year month name = Ok ("JOB-" +:+ pretty year +:+ "-" +:+ fmt_0d 3 seq).
Proof.
  unfold apply_template, str_format, default_format. cbn -[fmt_0d pretty].
  change (is_digit "y") with false. change (is_digit "s") with false. cbn -[fmt_0d pretty].
  rewrite format_int_plain. cbn -[fmt_0d pretty]. rewrite format_int_03d. cbn -[fmt_0d pretty].
  by rewrite str_app_nil_r.
Qed.

Lemma default_format_renders : renders default_format.
Proof. intros seq year month name. rewrite default_renders. eauto. Qed.

Lemma pretty_Z_nonneg y : 0 <= y -> pretty y = pretty (Z.to_N y).
Proof. destruct y as [|p|p]; [done|done|lia]. Qed.

Lemma pretty_no_dash y : 0 <= y -> str_contains "-" (pretty y) = false.
Proof.
  intros Hy. rewrite pretty_Z_nonneg by done.
  apply (str_all_not_contains is_digit); [|done]. apply pretty_N_all. intros d Hd.
  assert (d = 0 \/ d = 1 \/ d = 2 \/ d = 3 \/ d = 4 \/ d = 5 \/ d = 6 \/ d = 7 \/ d = 8 \/ d = 9)%N
    as H by lia. by destruct_or! H; subst.
Qed.

Lemma fmt_0d_no_dash w z : 0 <= z -> str_contains "-" (fmt_0d w z) = false.
Proof.
  intros Hz. unfold fmt_0d. destruct (Z.ltb_spec z 0); [lia|]. unfold zfill.
  induction (w - String.length (pretty (Z.to_N z)))%nat as [|n IH]; cbn [zeros]; [|exact IH].
  rewrite <- pretty_Z_nonneg by done. by apply pretty_no_dash.
Qed.

Lemma default_format_tells_apart years : (forall y, years y -> 0 <= y) -> tells_apart years default_format.
Proof.
  intros Hpos i j y1 y2 m1 m2 n1 n2 Hi Hj Hy1%Hpos Hy2%Hpos. rewrite !default_renders. intros [= E].
  cbn [String.append] in E.
  apply (str_sep_inj "-" (pretty y1) (pretty y2)) in E as [E1 E2]; [|by apply pretty_no_dash..].
  rewrite !pretty_Z_nonneg in E1 by done. apply (inj pretty) in E1.
  split; [by apply (fmt_0d_inj 3)|]. intros _. lia.
Qed.

(** ** The two-digit year preset of the Settings page *)

Definition yy_format : string := "JOB-{yy}-{seq:003}".

Lemma yy_renders seq year month name :
  apply_template yy_format seq year month name =
  Ok ("JOB-" +:+ fmt_0d 2 (year mod 100) +:+ "-" +:+ fmt_0d 3 seq).
Proof.
  unfold apply_template, str_format, yy_format. cbn -[fmt_0d pretty Z.modulo].
  change (is_digit "y") with false. change (is_digit "s") with false. cbn -[fmt_0d pretty Z.modulo].
  rewrite format_str_plain. cbn -[fmt_0d pretty Z.modulo]. rewrite format_int_003.
  cbn -[fmt_0d pretty Z.modulo]. by rewrite str_app_nil_r.
Qed.

Lemma yy_format_renders : renders yy_format.
Proof. intros seq year month name. rewrite yy_renders. eauto. Qed.

(** Within a century the two digits tell the years apart. *)
Lemma yy_format_tells_apart years :
  (forall y1 y2, years y1 -> years y2 -> y1 / 100 = y2 / 100) -> tells_apart years yy_format.
Proof.
  intros Hc i j y1 y2 m1 m2 n1 n2 Hi Hj Hy1 Hy2. rewrite !yy_renders. intros [= E].
  cbn [String.append] in E. specialize (Hc y1 y2 Hy1 Hy2).
  pose proof (Z.mod_pos_bound y1 100). pose proof (Z.mod_pos_bound y2 100).
  apply (str_sep_inj "-" (fmt_0d 2 (y1 mod 100)) (fmt_0d 2 (y2 mod 100))) in E as [E1 E2];
    [|apply fmt_0d_no_dash; lia..].
  apply (fmt_0d_inj 2) in E1; [|lia..]. split; [by apply (fmt_0d_inj 3)|]. intros _.
  rewrite (Z.div_mod y1 100), (Z.div_mod y2 100) by lia. lia.
Qed.

(** Across centuries they do not: 2026 and 2126 render alike. *)
Lemma yy_format_collides seq month name :
  apply_template yy_format seq 2026 month name = apply_template yy_format seq 2126 month name.
Proof. by rewrite !yy_renders. Qed.
End Default.

(** ** Concrete runs *)

Definition toy_format : PyFormat := {|
  py_format v spec :=
    match v with
    | FStr s => if String.eqb spec "" then Ok s else Err ValueError
    | FInt z => if String.eqb spec "" then Ok (pretty z)
                else if String.eqb spec "03d" || String.eqb spec "003" then Ok (fmt_0d 3 z)
                else Err ValueError
    end;
  py_access _ _ := Err AttributeError;
  py_convert _ v := Ok v
|}.

Lemma toy_format_ok : FormatOk toy_format.
Proof. by split. Qed.

Lemma first_free_seq_finds_witness :
  first_free_seq (F := toy_format) {| jobs := [Some "JOB-2026-007"; None; Some "JOB-2026-008"]; settings := ∅ |}
    default_format 7 (2026, 10) None = Ok (9, "JOB-2026-009").
Proof.
  destruct (first_free_seq_finds (F := toy_format)
    {| jobs := [Some "JOB-2026-007"; None; Some "JOB-2026-008"]; settings := ∅ |}
    default_format 7 (2026, 10) None (default_format_renders (FO := toy_format_ok))) as [-> _].
  vm_compute. reflexivity.
Defined.

(** A run with the default template over a new year, and one with the
    two-digit preset. *)
Lemma job_numbers_unique_witness :
  let tid := "00000000-0000-0000-0000-000000000001" in
  let ops := [NAlloc None (2025, 12); NJob (Some "JOB-2025-002"); NAlloc (Some "Ann Lee") (2025, 12); NAlloc None (2026, 1)] in
  let yy := {| job_number_format := yy_format; job_number_next_seq := 41; job_number_year_seen := Some 2025 |} in
  let d := {| jobs := []; settings := ∅ |} in
  let dyy := {| jobs := []; settings := {[ 1%N := yy ]} |} in
  map fst (hand_out (F := toy_format) tid ops d) = ["JOB-2025-001"; "JOB-2025-003"; "JOB-2026-001"] /\
  NoDup (map fst (hand_out (F := toy_format) tid ops d)) /\
  map fst (hand_out (F := toy_format) tid ops dyy) = ["JOB-25-041"; "JOB-25-042"; "JOB-26-001"] /\
  NoDup (map fst (hand_out (F := toy_format) tid ops dyy)).
Proof.
  cbv zeta. split_and!; [vm_compute; reflexivity| |vm_compute; reflexivity|].
  - apply (job_numbers_unique (F := toy_format) default_format _ 1%N _ 2025).
    + vm_compute. reflexivity.
    + exact (default_format_renders (FO := toy_format_ok)).
    + apply (default_format_tells_apart (FO := toy_format_ok)). intros y Hy. cbn in Hy. set_solver by lia.
    + reflexivity.
    + vm_compute. discriminate.
    + cbn. lia.
    + split; [lia|exact I].
  - apply (job_numbers_unique (F := toy_format) yy_format _ 1%N _ 2025).
    + vm_compute. reflexivity.
    + exact (yy_format_renders (FO := toy_format_ok)).
    + apply (yy_format_tells_apart (FO := toy_format_ok)). intros y1 y2 H1 H2. cbn in H1, H2.
      rewrite !elem_of_cons, elem_of_nil in H1, H2. destruct_or! H1; destruct_or! H2; by subst.
    + vm_compute. reflexivity.
    + vm_compute. discriminate.
    + cbn. lia.
    + split; [lia|vm_compute; discriminate].
Defined.
