(* ===== verification/OpeningBank.v ===== *)
(** * Opening balances from the statement archive

    [modules/ledger/opening.py]: the chained run of bank statements, the month
    boundaries it proves, the proposal, and the one action that applies it.
    The rows of [modules/bank_feeds/statement_models.py] and the attestation
    columns of the ledger settings stand beside the ledger's database in
    [Books].  Messages of errors are not modelled. *)

From S2P Require Import Prelude PyStr Dates Models Keys Coa Engine EngineInv EngineSpec Service RulesBase Opening Issuance LinesSpec RulesSafe RulesSpec Backfill BackfillSpec.

Local Open Scope Z_scope.

(** * Rows *)

Record BankAccount : Type := mk_bank {
  ba_id : uuid;
  ba_name : string;
  ba_kind : string;
  ba_last4 : string;
  ba_gl_account_id : option uuid
}.

Definition TIE_OUT_PASSED : string := "passed".

Record BankStatementImport : Type := mk_import {
  bi_bank_account_id : uuid;
  bi_period_start : date;
  bi_period_end : date;
  bi_beginning_balance_cents : Z;
  bi_ending_balance_cents : Z;
  bi_tie_out_status : string;
  bi_voided_at : option Z;
  bi_created_at : Z
}.

Record Books : Type := mk_books {
  bk_db : Db;
  bk_accounts : list BankAccount;
  bk_imports : list BankStatementImport;
  bk_attested : gmap string (Z * string)   (** [opening_bank_attested_at], [_by] *)
}.

(** A computation on the ledger's database. *)
Definition on_db {A} (m : M Db A) : M Books A := fun b =>
  let '(r, d) := m (bk_db b) in (r, mk_books d (bk_accounts b) (bk_imports b) (bk_attested b)).

(** * The chained run *)

Definition _MAX_BOUNDARY_GAP_DAYS : Z := 3.

(** [ORDER BY period_start, period_end, created_at] *)
Definition import_le (x y : BankStatementImport) : bool :=
  (bi_period_start x <? bi_period_start y) ||
  ((bi_period_start x =? bi_period_start y) &&
   ((bi_period_end x <? bi_period_end y) ||
    ((bi_period_end x =? bi_period_end y) && (bi_created_at x <=? bi_created_at y)))).

Definition _statement_chain (bank_account_id : uuid) (b : Books) : list BankStatementImport :=
  stable_sort import_le
    (List.filter (fun i => N.eqb (bi_bank_account_id i) bank_account_id &&
                           is_none (bi_voided_at i) &&
                           String.eqb (bi_tie_out_status i) TIE_OUT_PASSED)
       (bk_imports b)).

Definition linked (prev imp : BankStatementImport) : bool :=
  let gap := bi_period_start imp - bi_period_end prev in
  (bi_beginning_balance_cents imp =? bi_ending_balance_cents prev) &&
  (0 <=? gap) && (gap <=? _MAX_BOUNDARY_GAP_DAYS).

Definition run_step (run : list BankStatementImport) (imp : BankStatementImport)
  : list BankStatementImport :=
  match last run with
  | Some prev => if linked prev imp then run ++ [imp] else [imp]
  | None => [imp]
  end.

Definition _latest_contiguous_run (imports : list BankStatementImport) : list BankStatementImport :=
  foldl run_step [] imports.

(** * The boundaries a run proves *)

Definition _month_boundary_after (day : date) : option date :=
  let candidate := day + 1 in
  if date_day candidate =? 1 then Some candidate else None.

(** A dict from dates to cents, in insertion order. *)
Definition candidates : Type := list (date * Z).
Definition cand_get (k : date) (c : candidates) : option Z :=
  option_map snd (List.find (fun kv => fst kv =? k) c).
Fixpoint cand_set (k : date) (v : Z) (c : candidates) : candidates :=
  match c with
  | [] => [(k, v)]
  | (k', v') :: c' => if k' =? k then (k, v) :: c' else (k', v') :: cand_set k v c'
  end.
Definition cand_setdefault (k : date) (v : Z) (c : candidates) : candidates :=
  match cand_get k c with Some _ => c | None => c ++ [(k, v)] end.

Definition boundary_step (c : candidates) (imp : BankStatementImport) : candidates :=
  let c := match _month_boundary_after (bi_period_end imp) with
           | Some after => cand_set after (bi_ending_balance_cents imp) c
           | None => c
           end in
  if date_day (bi_period_start imp) =? 1
  then cand_setdefault (bi_period_start imp) (bi_beginning_balance_cents imp) c
  else c.

Definition _boundary_candidates (run : list BankStatementImport) : candidates :=
  foldl boundary_step [] run.

(** * The proposal *)

Definition _pre_cutover_live_entries (company_id : string) (cutover : date) (d : Db) : list GlJournalEntry :=
  List.filter (fun e => String.eqb (je_company_id e) company_id &&
                        bool_decide (je_status e = posted) &&
                        is_none (je_reverses_entry_id e) &&
                        (je_effective_at e <? cutover))
    (gl_entries (db_gl d)).

Inductive standing : Type :=
  | NoStatements
  | NoBoundary
  | UsableChain (run : list BankStatementImport) (c : candidates).

(** [sorted(..., key=lambda a: (a.kind != "checking", a.name, a.last4))] *)
Definition str_le (x y : string) : bool := negb (String.ltb y x).
Definition account_le (x y : BankAccount) : bool :=
  let kx := negb (String.eqb (ba_kind x) "checking") in
  let ky := negb (String.eqb (ba_kind y) "checking") in
  if bool_decide (kx = ky) then
    if String.eqb (ba_name x) (ba_name y) then str_le (ba_last4 x) (ba_last4 y)
    else str_le (ba_name x) (ba_name y)
  else negb kx.

Definition display_name (a : BankAccount) : string := ba_name a +:+ " …" +:+ ba_last4 a.

Definition stage_account (b : Books) (a : BankAccount) : BankAccount * standing :=
  match _statement_chain (ba_id a) b with
  | [] => (a, NoStatements)
  | imports =>
      let run := _latest_contiguous_run imports in
      match _boundary_candidates run with
      | [] => (a, NoBoundary)
      | c => (a, UsableChain run c)
      end
  end.

Record AccountProposal : Type := mk_proposal {
  ap_bank_account_id : uuid;
  ap_name : string;
  ap_chain_from : date;
  ap_chain_to : date;
  ap_chain_statements : Z;
  ap_opening_cents : Z;
  ap_cutover : date
}.

Record Proposal : Type := mk_props {
  pr_cutover : date;
  pr_accounts : list (AccountProposal + uuid * standing);   (** usable, or why not *)
  pr_already_set_cutover : option date;
  pr_entries_to_reverse : list GlJournalEntry
}.

(** [set(first) & set(second) & ...] *)
Definition common_dates (cs : list candidates) : list date :=
  match cs with
  | [] => []
  | c :: cs' =>
      foldl (fun common c' => List.filter (fun k => existsb (fun kv => fst kv =? k) c') common)
            (map fst c) cs'
  end.

Definition max_date (l : list date) : option date :=
  match l with [] => None | x :: l' => Some (foldl Z.max x l') end.

Definition usable_chain (s : BankAccount * standing) : option (BankAccount * (list BankStatementImport * candidates)) :=
  match snd s with UsableChain run c => Some (fst s, (run, c)) | _ => None end.

Definition propose_account (cutover : date) (s : BankAccount * standing)
  : result (AccountProposal + uuid * standing) :=
  let '(a, st) := s in
  match st with
  | UsableChain run c =>
      match head run, last run, cand_get cutover c with
      | Some r0, Some r1, Some cents =>
          Ok (inl (mk_proposal (ba_id a) (display_name a) (bi_period_start r0) (bi_period_end r1)
                     (Z.of_nat (length run)) cents cutover))
      | _, _, _ => Err KeyError
      end
  | _ => Ok (inr (ba_id a, st))
  end.

Definition propose_opening (company_id : string) (b : Books) : result Proposal :=
  let settings := get_gl_settings company_id (bk_db b) in
  let accounts := stable_sort account_le (bk_accounts b) in
  if match accounts with [] => true | _ => false end then Err OpeningDerivationError
  else
    let staged := map (stage_account b) accounts in
    let usable := omap usable_chain staged in
    if match usable with [] => true | _ => false end then Err OpeningDerivationError
    else
      match max_date (common_dates (map (fun u => snd (snd u)) usable)) with
      | None => Err OpeningDerivationError
      | Some cutover =>
          let! proposals := rmap (propose_account cutover) staged in
          Ok (mk_props cutover proposals
                (match settings with Some s => gs_cutover_month s | None => None end)
                (_pre_cutover_live_entries company_id cutover (bk_db b)))
      end.

(** * Applying it *)

Definition set_cutover_month (cutover : date) (s : GlSettings) : GlSettings :=
  mk_settings (gs_company_id s) (gs_ledger_posting_enabled s) (Some cutover)
    (gs_payment_method_role_map s) (gs_credit_reason_role_map s) (gs_expense_category_account_map s)
    (gs_revenue_category_account_map s) (gs_cpa_review s).

Definition rename_account (name : string) (a : GlAccount) : GlAccount :=
  mk_account (acc_id a) (acc_code a) name (acc_type a) (acc_role a) (acc_is_system a) (acc_active a)
    (acc_company_id a) (acc_created_at a).

Definition code_taken (company_id : string) (code : Z) (d : Db) : bool :=
  existsb (fun a => String.eqb (acc_company_id a) company_id && String.eqb (acc_code a) (pretty code))
    (gl_accounts (db_gl d)).

(** [while code taken: next_code += 1]; the fuel is one more than the accounts
    there are, which [next_free_code_total] shows is enough. *)
Fixpoint next_free_code (fuel : nat) (company_id : string) (code : Z) (d : Db) : option Z :=
  match fuel with
  | O => None
  | S fuel' => if code_taken company_id code d then next_free_code fuel' company_id (code + 1) d else Some code
  end.

(** The GL account of a further bank account: by name, or a new asset account
    under the next free code, which becomes the loop's [next_code]. *)
Definition named_account (company_id name : string) (next_code : Z) : M Db (GlAccount * Z) := fun d =>
  match List.find (fun a => String.eqb (acc_company_id a) company_id && String.eqb (acc_name a) name)
          (gl_accounts (db_gl d)) with
  | Some a => (Ok (a, next_code), d)
  | None =>
      match next_free_code (S (length (gl_accounts (db_gl d)))) company_id next_code d with
      | None => (Err RuntimeError, d)
      | Some code =>
          (u <- fresh_uuid ;;
           let a := mk_account u (pretty code) name asset None false true company_id (op_now (db_ops d)) in
           mwrite (set_gl (set_accounts (fun l => l ++ [a]))) ;;;
           mreturn (a, code)) d
      end
  end.

Definition set_gl_account (id_ gl : uuid) (b : Books) : Books :=
  mk_books (bk_db b)
    (update_where (fun a => N.eqb (ba_id a) id_)
       (fun a => mk_bank (ba_id a) (ba_name a) (ba_kind a) (ba_last4 a) (Some gl)) (bk_accounts b))
    (bk_imports b) (bk_attested b).

Record Posting : Type := mk_posting { po_account : string; po_cents : Z; po_entry_no : Z }.

Section Apply.
Context `{W : World}.

Definition opening_event (company_id : string) (bank_account_id gl_account_id : uuid) (cutover : date)
    (p : AccountProposal) (actor : option string) : PostingEvent :=
  mk_event company_id "bank_account" (str_uuid bank_account_id) "opening" cutover
    [ mk_pline (ap_opening_cents p) None (Some gl_account_id)
        (Some ("opening balance per statement chain through " +:+ date_isoformat (ap_chain_to p))) None None;
      mk_pline (- ap_opening_cents p) (Some ROLE_OPENING_EQUITY) None
        (Some ("opening balance " +:+ ap_name p)) None None ]
    actor None.

(** The live entries of a bank account. *)
Definition bank_live_entries (company_id : string) (bank_account_id : uuid) (d : Db) : list GlJournalEntry :=
  List.filter (fun e => String.eqb (je_company_id e) company_id &&
                        opt_eqb (je_source_type e) (Some "bank_account") &&
                        opt_eqb (je_source_id e) (Some (str_uuid bank_account_id)) &&
                        bool_decide (je_status e = posted) && is_none (je_reverses_entry_id e))
    (gl_entries (db_gl d)).

(** [for e in entries: reverse_entry(db, e, created_by=actor, override_lock=True)] *)
Definition reverse_each (actor : option string) (entries : list GlJournalEntry) : M Db (list GlJournalEntry) :=
  mmap (fun e => reverse_entry (je_id e) None actor true) entries.

(** One usable account: its GL account, its opening entry, its stale ones.
    The loop threads [next_code], the postings and the reversals. *)
Definition apply_account (company_id : string) (actor : option string) (cutover : date)
    (operating : GlAccount) (acc : Z * list Posting * list Z) (idx_p : nat * AccountProposal)
  : M Books (Z * list Posting * list Z) :=
  let '(next_code, postings, stale_reversed) := acc in
  let '(idx, p) := idx_p in
  bank_account <- mreads (fun b => List.find (fun a => N.eqb (ba_id a) (ap_bank_account_id p)) (bk_accounts b)) ;;
  match bank_account with
  | None => mraise AttributeError
  | Some bank =>
      gl_next <- (match ba_gl_account_id bank with
                  | Some g =>
                      found <- on_db (mreads (get_account g)) ;;
                      match found with
                      | Some a => mreturn (acc_id a, next_code)
                      | None => mraise AttributeError
                      end
                  | None =>
                      match idx with
                      | O =>
                          on_db (mwrite (set_gl (set_accounts
                            (update_where (fun a => N.eqb (acc_id a) (acc_id operating)) (rename_account (ap_name p)))))) ;;;
                          mreturn (acc_id operating, next_code)
                      | S _ =>
                          r <- on_db (named_account company_id (ap_name p) next_code) ;;
                          mreturn (acc_id (fst r), snd r)
                      end
                  end) ;;
      let '(gl, next_code) := gl_next in
      mwrite (set_gl_account (ba_id bank) gl) ;;;
      fresh <- (if ap_opening_cents p =? 0 then mreturn None
                else e <- on_db (post_for_event (opening_event company_id (ba_id bank) gl cutover p actor) false) ;;
                     mreturn (Some e)) ;;
      let postings := match fresh with
                      | Some e => postings ++ [mk_posting (ap_name p) (ap_opening_cents p) (je_entry_no e)]
                      | None => postings
                      end in
      stale <- on_db (mreads (bank_live_entries company_id (ba_id bank))) ;;
      let stale := List.filter (fun s => negb match fresh with
                                               | Some e => N.eqb (je_id s) (je_id e)
                                               | None => false
                                               end) stale in
      on_db (reverse_each actor stale) ;;;
      mreturn (next_code, postings, stale_reversed ++ map je_entry_no stale)
  end.

Definition usable_of (p : AccountProposal + uuid * standing) : option AccountProposal :=
  match p with inl a => Some a | inr _ => None end.

Fixpoint enumerate {A} (i : nat) (l : list A) : list (nat * A) :=
  match l with [] => [] | x :: l' => (i, x) :: enumerate (S i) l' end.

Definition attest (company_id : string) (actor : option string) (b : Books) : Books :=
  match bk_attested b !! company_id with
  | Some _ => b
  | None =>
      let who := match actor with None | Some EmptyString => "system" | Some a => a end in
      mk_books (bk_db b) (bk_accounts b) (bk_imports b)
        (<[company_id := (op_now (db_ops (bk_db b)), String.substring 0 36 who)]> (bk_attested b))
  end.

Record Applied : Type := mk_applied {
  apd_cutover : date;
  apd_reversed_entry_nos : list Z;
  apd_stale_opening_reversed : list Z;
  apd_opening_entries : list Posting;
  apd_lock_date : date;
  apd_ar_anchors : PhaseResult
}.

Definition apply_opening (company_id : string) (actor : option string)
    (expected_cutover : option date) (expected_reversals : option Z) : M Books Applied :=
  proposal <- (fun b => (propose_opening company_id b, b)) ;;
  let cutover := pr_cutover proposal in
  if match expected_cutover with Some c => negb (cutover =? c) | None => false end
  then mraise OpeningDerivationError
  else if match expected_reversals with
          | Some n => negb (Z.of_nat (length (pr_entries_to_reverse proposal)) =? n) | None => false end
  then mraise OpeningDerivationError
  else
    settings <- on_db (ensure_gl_seed company_id) ;;
    if match gs_cutover_month settings with Some c => negb (c =? cutover) | None => false end
    then mraise OpeningDerivationError
    else
      pre <- on_db (mreads (_pre_cutover_live_entries company_id cutover)) ;;
      on_db (reverse_each actor pre) ;;;
      on_db (write_settings company_id (set_cutover_month cutover)) ;;;
      operating <- on_db (resolve_role_account company_id ROLE_OPERATING_BANK) ;;
      acc <- mfold (apply_account company_id actor cutover operating) (1010, [], [])
               (enumerate 0 (omap usable_of (pr_accounts proposal))) ;;
      let lock_date := cutover - 1 in
      locked <- on_db (mreads (fun d =>
        existsb (fun l => String.eqb (lk_company_id l) company_id && (lk_lock_date l =? lock_date))
          (gl_locks (db_gl d)))) ;;
      on_db (if locked : bool then mreturn tt
             else mwrite (set_gl (set_locks (fun l => l ++ [mk_lock lock_date company_id])))) ;;;
      mwrite (attest company_id actor) ;;;
      ar_phase <- on_db (run_opening company_id) ;;
      mreturn (mk_applied cutover (map je_entry_no pre) (snd acc) (snd (fst acc)) lock_date ar_phase).
End Apply.

(** * The run is the longest chained end of the archive *)

Definition chained_run (run : list BankStatementImport) : Prop := ordered linked run.

Lemma ordered_app {A} (r : A -> A -> bool) l1 l2 :
  ordered r (l1 ++ l2) <->
  ordered r l1 /\ ordered r l2 /\
  match last l1, head l2 with Some x, Some y => r x y = true | _, _ => True end.
Proof.
  induction l1 as [|x l1 IH]; [cbn; naive_solver|]. cbn [app].
  destruct l1 as [|x' l1].
  - cbn. destruct l2 as [|y l2]; cbn; naive_solver.
  - change (last (x :: x' :: l1)) with (last (x' :: l1)).
    cbn [app] in IH |- *. cbn [ordered]. cbn [ordered] in IH. naive_solver.
Qed.

Lemma latest_run_inv imports :
  exists pre, imports = pre ++ _latest_contiguous_run imports /\
    chained_run (_latest_contiguous_run imports) /\
    (imports <> [] -> _latest_contiguous_run imports <> []) /\
    match last pre, head (_latest_contiguous_run imports) with
    | Some p, Some r => linked p r = false | _, _ => True end.
Proof.
  unfold _latest_contiguous_run.
  induction imports as [|x l (pre & E & Hc & Hne & Hb)] using rev_ind; [by exists []|].
  rewrite foldl_app. cbn [foldl]. set (run := foldl run_step [] l) in *. clearbody run. subst l.
  unfold run_step. destruct (last run) as [prev|] eqn:El; [destruct (linked prev x) eqn:Ex|].
  - exists pre. split_and!; [by rewrite app_assoc| |intros _; by destruct run|by destruct run].
    apply ordered_app. split_and!; [done|done|by rewrite El].
  - exists (pre ++ run). split_and!; [done|done|done|].
    cbn [head]. by rewrite last_app, El.
  - apply last_None in El. subst run. exists pre. rewrite app_nil_r in *. split_and!; [done|done|done|].
    destruct pre as [|p pre]; [done|]. exfalso. by apply Hne.
Qed.

(** The statement run is the right one: [_latest_contiguous_run] is an
    end of the archive whose statements chain pairwise (each beginning is the
    previous ending, dates within the tolerance), every chained end of the
    archive is an end of it, and it is empty only for an empty archive. *)
Theorem latest_run_maximal imports :
  let run := _latest_contiguous_run imports in
  (exists pre, imports = pre ++ run) /\ chained_run run /\ (run = [] -> imports = []) /\
  (forall pre' s, imports = pre' ++ s -> chained_run s -> exists t, run = t ++ s).
Proof.
  cbn zeta. destruct (latest_run_inv imports) as (pre & E & Hc & Hne & Hb).
  set (run := _latest_contiguous_run imports) in *. clearbody run.
  split_and!; [by exists pre|done|intros ->; destruct imports; [done|exfalso; by apply Hne]|].
  intros pre' s E' Hs. destruct (decide (run = [])) as [->|Hr].
  { assert (imports = []) as Hi by (destruct imports; [done|exfalso; by apply Hne]).
    rewrite Hi in E'. symmetry in E'. apply app_nil in E' as [_ ->]. by exists []. }
  rewrite E in E'. apply app_eq_inv in E' as [(k & -> & ->)|(k & -> & ->)]; [|by exists k].
  destruct k as [|y k _] using rev_ind; [by exists []|]. exfalso.
  rewrite app_assoc, last_snoc in Hb. unfold chained_run in Hs. rewrite <- app_assoc in Hs.
  apply ordered_app in Hs as (_ & Hs & _). destruct run as [|r run]; [done|].
  destruct Hs as [Hs _]. cbn in Hb. congruence.
Qed.

(** * The boundaries it proves *)

Lemma cand_get_set k v k' c : cand_get k' (cand_set k v c) = if k' =? k then Some v else cand_get k' c.
Proof.
  unfold cand_get. induction c as [|[k1 v1] c IH]; cbn.
  - rewrite Z.eqb_sym. by destruct (k' =? k).
  - destruct (Z.eqb_spec k1 k) as [->|Hne]; cbn.
    + rewrite Z.eqb_sym. by destruct (k' =? k).
    + destruct (Z.eqb_spec k1 k') as [->|]; cbn; [|exact IH].
      by rewrite (proj2 (Z.eqb_neq _ _) Hne).
Qed.

Lemma cand_get_setdefault k v k' c :
  cand_get k' (cand_setdefault k v c) =
  match cand_get k' c with Some w => Some w | None => if k' =? k then Some v else None end.
Proof.
  unfold cand_setdefault. destruct (cand_get k c) as [w|] eqn:E.
  - destruct (cand_get k' c) eqn:E'; [done|]. destruct (Z.eqb_spec k' k) as [->|]; congruence.
  - unfold cand_get. rewrite find_app_b. destruct (List.find _ c) as [x|] eqn:E'; [done|].
    cbn. rewrite Z.eqb_sym. by destruct (k' =? k).
Qed.

(** A statement proves the opening [v] of the month that starts on [k]. *)
Definition proves (imp : BankStatementImport) (k : date) (v : Z) : Prop :=
  date_day k = 1 /\
  (bi_period_end imp + 1 = k /\ bi_ending_balance_cents imp = v \/
   bi_period_start imp = k /\ bi_beginning_balance_cents imp = v).

Lemma month_boundary_after_Some day k :
  _month_boundary_after day = Some k <-> k = day + 1 /\ date_day k = 1.
Proof.
  unfold _month_boundary_after. destruct (Z.eqb_spec (date_day (day + 1)) 1); naive_solver.
Qed.

Lemma candidates_proved run k v :
  cand_get k (_boundary_candidates run) = Some v -> exists imp, imp ∈ run /\ proves imp k v.
Proof.
  unfold _boundary_candidates. revert v.
  induction run as [|x l IH] using rev_ind; intros v; [done|]. rewrite foldl_app. cbn [foldl].
  set (c := foldl boundary_step [] l) in *. clearbody c. unfold boundary_step.
  set (c1 := match _month_boundary_after (bi_period_end x) with
             | Some a => cand_set a (bi_ending_balance_cents x) c | None => c end).
  assert (forall w, cand_get k c1 = Some w -> exists imp, imp ∈ l ++ [x] /\ proves imp k w) as H1.
  { intros w. subst c1. destruct (_month_boundary_after (bi_period_end x)) as [a|] eqn:Ea.
    - apply month_boundary_after_Some in Ea as [-> Hd]. rewrite cand_get_set.
      destruct (Z.eqb_spec k (bi_period_end x + 1)) as [->|].
      + intros [= <-]. exists x. split; [set_solver|]. split; [done|]. by left.
      + intros (imp & ? & ?)%IH. exists imp. set_solver.
    - intros (imp & ? & ?)%IH. exists imp. set_solver. }
  clearbody c1. destruct (Z.eqb_spec (date_day (bi_period_start x)) 1) as [Hd|]; [|apply H1].
  rewrite cand_get_setdefault. destruct (cand_get k c1) as [w|] eqn:Ew.
  - intros [= <-]. by apply H1.
  - destruct (Z.eqb_spec k (bi_period_start x)) as [->|]; [|done]. intros [= <-].
    exists x. split; [set_solver|]. split; [done|]. by right.
Qed.

Lemma candidates_complete run k v imp :
  imp ∈ run -> proves imp k v -> cand_get k (_boundary_candidates run) <> None.
Proof.
  unfold _boundary_candidates. induction run as [|x l IH] using rev_ind; intros Hin Hp; [set_solver|].
  rewrite foldl_app. cbn [foldl]. set (c := foldl boundary_step [] l) in *. clearbody c.
  assert (cand_get k c <> None -> cand_get k (boundary_step c x) <> None) as Hkeep.
  { intros Hc. unfold boundary_step.
    destruct (_month_boundary_after (bi_period_end x)); destruct (date_day (bi_period_start x) =? 1);
      rewrite ?cand_get_setdefault, ?cand_get_set; repeat case_match; congruence. }
  apply elem_of_app in Hin as [Hin|Hin]; [by apply Hkeep, IH|]. apply list_elem_of_singleton in Hin as ->.
  unfold boundary_step. destruct Hp as [Hd [[<- _]|[<- _]]].
  - rewrite (proj2 (month_boundary_after_Some _ _) (conj eq_refl Hd)).
    destruct (_ =? 1); rewrite ?cand_get_setdefault, cand_get_set, Z.eqb_refl; done.
  - rewrite Hd, Z.eqb_refl, cand_get_setdefault, Z.eqb_refl. by case_match.
Qed.

(** Statements whose periods are in order and share no day. *)
Definition disjoint_run (run : list BankStatementImport) : Prop :=
  Forall (fun i => bi_period_start i <= bi_period_end i) run /\
  ordered (fun x y => bi_period_end x <? bi_period_start y) run.

Lemma disjoint_run_cons x run :
  disjoint_run (x :: run) -> disjoint_run run /\ bi_period_start x <= bi_period_end x /\
  forall y, y ∈ run -> bi_period_end x < bi_period_start y.
Proof.
  revert x. induction run as [|y run IH]; intros x [Hf Ho]; apply Forall_cons in Hf as [Hx Hf].
  - split_and!; [done|done|set_solver].
  - destruct Ho as [Hxy Ho]. apply Z.ltb_lt in Hxy. split_and!; [done|done|].
    destruct (IH y (conj Hf Ho)) as (_ & Hy & Hrest). intros z [->|Hz]%elem_of_cons; [done|].
    specialize (Hrest z Hz). lia.
Qed.

(** An ending and a beginning that prove the same boundary are neighbours. *)
Lemma proofs_meet run i j :
  chained_run run -> disjoint_run run -> i ∈ run -> j ∈ run ->
  bi_period_end i + 1 = bi_period_start j -> bi_ending_balance_cents i = bi_beginning_balance_cents j.
Proof.
  induction run as [|x run IH]; intros Hc Hd Hi Hj E; [set_solver|].
  destruct (disjoint_run_cons _ _ Hd) as (Hd' & Hx & Hlt).
  assert (chained_run run) as Hc' by (destruct run; [done|by destruct Hc]).
  assert (forall y, y ∈ run -> bi_period_start y <= bi_period_end y) as Hper
    by (apply Forall_forall, Hd').
  apply elem_of_cons in Hi as [->|Hi]; apply elem_of_cons in Hj as [->|Hj].
  - lia.
  - destruct run as [|y run]; [set_solver|]. destruct Hc as [Hlink _].
    apply elem_of_cons in Hj as [->|Hj].
    + unfold linked in Hlink. apply andb_true_iff in Hlink as [Hlink _].
      apply andb_true_iff in Hlink as [Hlink _]. apply Z.eqb_eq in Hlink. done.
    + destruct (disjoint_run_cons _ _ Hd') as (_ & Hy & Hlt'). specialize (Hlt' j Hj).
      specialize (Hlt y (list_elem_of_here _ _)). lia.
  - specialize (Hlt i Hi). specialize (Hper i Hi). lia.
  - by apply IH.
Qed.

Lemma proofs_unique run i j k v w :
  chained_run run -> disjoint_run run -> i ∈ run -> j ∈ run -> proves i k v -> proves j k w -> v = w.
Proof.
  intros Hc Hd Hi Hj [_ [[Ei Vi]|[Ei Vi]]] [_ [[Ej Vj]|[Ej Vj]]].
  - assert (i = j) as ->; [|congruence]. assert (bi_period_end i = bi_period_end j) as E by lia.
    clear -Hd Hi Hj E. induction run as [|x run IH]; [set_solver|].
    destruct (disjoint_run_cons _ _ Hd) as (Hd' & Hx & Hlt).
    assert (forall y, y ∈ run -> bi_period_start y <= bi_period_end y) as Hper by (apply Forall_forall, Hd').
    apply elem_of_cons in Hi as [->|Hi]; apply elem_of_cons in Hj as [->|Hj]; [done| | |by apply IH].
    + specialize (Hlt j Hj). specialize (Hper j Hj). lia.
    + specialize (Hlt i Hi). specialize (Hper i Hi). lia.
  - rewrite <- Vi, <- Vj. apply (proofs_meet run); [done..|lia].
  - rewrite <- Vi, <- Vj. symmetry. apply (proofs_meet run); [done..|lia].
  - assert (i = j) as ->; [|congruence]. assert (bi_period_start i = bi_period_start j) as E by lia.
    clear -Hd Hi Hj E. induction run as [|x run IH]; [set_solver|].
    destruct (disjoint_run_cons _ _ Hd) as (Hd' & Hx & Hlt).
    apply elem_of_cons in Hi as [->|Hi]; apply elem_of_cons in Hj as [->|Hj]; [done| | |by apply IH].
    + specialize (Hlt j Hj). lia.
    + specialize (Hlt i Hi). lia.
Qed.

(** The boundaries a run proves are exact: over a chained run whose
    periods share no day, the opening recorded for a date is [v] exactly when
    the date is the first of a month and some statement of the run ends the
    day before with the ending balance [v] or starts on it with the beginning
    balance [v]; any two such proofs agree. *)
Theorem boundary_candidates_exact run k v :
  chained_run run -> disjoint_run run ->
  (cand_get k (_boundary_candidates run) = Some v <-> exists imp, imp ∈ run /\ proves imp k v) /\
  (forall i j w, i ∈ run -> j ∈ run -> proves i k v -> proves j k w -> v = w).
Proof.
  intros Hc Hd. split; [|intros i j w; by apply (proofs_unique run)]. split; [apply candidates_proved|].
  intros (imp & Hin & Hp). pose proof (candidates_complete run k v imp Hin Hp) as Hne.
  destruct (cand_get k (_boundary_candidates run)) as [w|] eqn:E; [|done]. f_equal.
  apply candidates_proved in E as (imp' & Hin' & Hp'). exact (proofs_unique run imp' imp k w v Hc Hd Hin' Hin Hp' Hp).
Qed.

(** * The proposal *)

(** The boundaries an account's latest run proves; an account with some is
    usable. *)
Definition cands_of (b : Books) (a : BankAccount) : candidates :=
  _boundary_candidates (_latest_contiguous_run (_statement_chain (ba_id a) b)).
Definition usable (b : Books) (a : BankAccount) : Prop := a ∈ bk_accounts b /\ cands_of b a <> [].

(** A boundary every usable account can prove. *)
Definition common_boundary (b : Books) (k : date) : Prop :=
  (exists a, usable b a) /\ forall a, usable b a -> cand_get k (cands_of b a) <> None.

Lemma cand_get_keys k c : cand_get k c <> None <-> k ∈ map fst c.
Proof.
  unfold cand_get. destruct (List.find _ c) as [[k' v]|] eqn:E; cbn.
  - apply find_some_elem in E as [Hin E%Z.eqb_eq]. cbn in E. subst k'. split; [|done].
    intros _. apply elem_of_map_b. by exists (k, v).
  - split; [done|]. intros ([k' v] & Hin & E')%elem_of_map_b. cbn in E'. subst k'.
    rewrite find_none_elem in E. specialize (E _ Hin). cbn in E. by rewrite Z.eqb_refl in E.
Qed.

Lemma common_dates_elem cs k :
  k ∈ common_dates cs <-> cs <> [] /\ forall c, c ∈ cs -> k ∈ map fst c.
Proof.
  destruct cs as [|c cs]; cbn; [set_solver|].
  assert (forall l, k ∈ foldl (fun common c' => List.filter (fun k => existsb (fun kv : date * Z => fst kv =? k) c') common) l cs
    <-> k ∈ l /\ forall c', c' ∈ cs -> k ∈ map fst c') as H.
  { induction cs as [|c1 cs IH]; intros l; cbn [foldl]; [set_solver|].
    rewrite IH, elem_of_filter_b, existsb_elem. setoid_rewrite elem_of_cons. split.
    - intros [[Hk (kv & Hin & E%Z.eqb_eq)] Hcs]. split; [done|]. intros c' [->|Hc']; [|by apply Hcs].
      apply elem_of_map_b. by exists kv.
    - intros [Hk Hcs]. split_and!; [done| |intros c' Hc'; apply Hcs; by right].
      destruct (proj1 (elem_of_map_b _ _ _) (Hcs c1 (or_introl eq_refl))) as (kv & Hin & E).
      exists kv. split; [done|]. by apply Z.eqb_eq. }
  rewrite H. setoid_rewrite elem_of_cons. naive_solver.
Qed.

Lemma max_date_spec l :
  match max_date l with
  | Some m => m ∈ l /\ forall x, x ∈ l -> x <= m
  | None => l = []
  end.
Proof.
  destruct l as [|x l]; [done|]. cbn.
  assert (forall y, (foldl Z.max y l = y \/ foldl Z.max y l ∈ l) /\ y <= foldl Z.max y l /\
                    forall z, z ∈ l -> z <= foldl Z.max y l) as H.
  { clear x. induction l as [|x l IH]; intros y; cbn; [split_and!; [by left|lia|set_solver]|].
    destruct (IH (Z.max y x)) as (H1 & H2 & H3). split_and!; [|lia|].
    - destruct H1 as [->|]; [|set_solver]. destruct (Z.max_spec y x) as [[_ ->]|[_ ->]]; set_solver.
    - intros z [->|Hz]%elem_of_cons; [lia|]. by apply H3. }
  destruct (H x) as (H1 & H2 & H3). split; [destruct H1 as [->|]; set_solver|].
  intros z [->|Hz]%elem_of_cons; [done|]. by apply H3.
Qed.

Lemma stage_account_spec b a :
  stage_account b a =
  (a, match cands_of b a with
      | [] => match _statement_chain (ba_id a) b with [] => NoStatements | _ => NoBoundary end
      | c => UsableChain (_latest_contiguous_run (_statement_chain (ba_id a) b)) c
      end).
Proof.
  unfold stage_account, cands_of. destruct (_statement_chain (ba_id a) b) as [|i l] eqn:E; [done|].
  by destruct (_boundary_candidates _).
Qed.

Lemma usable_elem b a rc :
  (a, rc) ∈ omap usable_chain (map (stage_account b) (stable_sort account_le (bk_accounts b))) <->
  usable b a /\ rc = (_latest_contiguous_run (_statement_chain (ba_id a) b), cands_of b a).
Proof.
  rewrite list_elem_of_omap. unfold usable. split.
  - intros (s & (a' & Ha' & <-)%elem_of_map_b & E). rewrite stable_sort_perm in Ha'.
    rewrite stage_account_spec in E. unfold usable_chain in E. cbn in E.
    destruct (cands_of b a') as [|x c] eqn:Ec; cbn in E; [by destruct (_statement_chain _ _)|].
    injection E as -> <-. rewrite Ec. done.
  - intros [[Ha Hne] ->]. exists (stage_account b a). split.
    + apply elem_of_map_b. exists a. by rewrite stable_sort_perm.
    + rewrite stage_account_spec. unfold usable_chain. cbn. by destruct (cands_of b a).
Qed.

(** The keys common to the usable accounts are the common boundaries. *)
Lemma common_dates_boundary b k :
  k ∈ common_dates (map (fun u => snd (snd u))
        (omap usable_chain (map (stage_account b) (stable_sort account_le (bk_accounts b))))) <->
  common_boundary b k.
Proof.
  rewrite common_dates_elem. unfold common_boundary. set (us := omap usable_chain _).
  assert (forall a, usable b a <-> (a, (_latest_contiguous_run (_statement_chain (ba_id a) b), cands_of b a)) ∈ us) as Hus
    by (intros a; subst us; rewrite usable_elem; naive_solver).
  split.
  - intros [Hne Hc]. split.
    + destruct us as [|[a rc] us'] eqn:E; [done|]. exists a.
      assert ((a, rc) ∈ us) as Hin by (rewrite E; set_solver). rewrite <- E in *.
      subst us. by apply usable_elem in Hin as [? _].
    + intros a Ha. rewrite cand_get_keys. apply Hc, elem_of_map_b. eexists. split; [by apply Hus|done].
  - intros [[a Ha] Hc]. split.
    + apply Hus in Ha. destruct us; [set_solver|done].
    + intros c ([a' rc] & Hin & <-)%elem_of_map_b. subst us. apply usable_elem in Hin as [Hu ->].
      cbn. rewrite <- cand_get_keys. by apply Hc.
Qed.

Lemma propose_account_Ok b a cutover :
  a ∈ bk_accounts b -> (usable b a -> cand_get cutover (cands_of b a) <> None) ->
  exists r, propose_account cutover (stage_account b a) = Ok r /\
    forall v, usable b a -> cand_get cutover (cands_of b a) = Some v ->
      exists p, r = inl p /\ ap_bank_account_id p = ba_id a /\ ap_opening_cents p = v /\ ap_cutover p = cutover.
Proof.
  intros Ha Hc. rewrite stage_account_spec. unfold propose_account.
  destruct (cands_of b a) as [|x c] eqn:E.
  - destruct (_statement_chain (ba_id a) b);
      (eexists; split; [reflexivity|]; intros v [_ Hne]; by rewrite E in Hne).
  - assert (usable b a) as Hu by (split; [done|by rewrite E]). specialize (Hc Hu).
    destruct (latest_run_inv (_statement_chain (ba_id a) b)) as (pre & _ & _ & _ & _).
    destruct (_latest_contiguous_run (_statement_chain (ba_id a) b)) as [|r0 run] eqn:Er.
    { unfold cands_of in E. by rewrite Er in E. }
    destruct (last (r0 :: run)) as [r1|] eqn:El; [|by apply last_None in El].
    cbn [head]. destruct (cand_get cutover (x :: c)) as [cents|]; [|done].
    eexists. split; [done|]. intros v _ [= <-]. by eexists.
Qed.

(** The proposal is right: [propose_opening] fails, always with the
    derivation error, exactly when no month boundary is proved by every
    account that proves any; otherwise the cutover is the latest such boundary,
    each of those accounts is offered the opening its own run proves for it,
    and the entries to reverse are the live ones dated before it. *)
Theorem propose_opening_correct company_id b :
  match propose_opening company_id b with
  | Ok p =>
      common_boundary b (pr_cutover p) /\
      (forall k, common_boundary b k -> k <= pr_cutover p) /\
      (forall a, usable b a -> exists q, inl q ∈ pr_accounts p /\ ap_bank_account_id q = ba_id a /\
         Some (ap_opening_cents q) = cand_get (pr_cutover p) (cands_of b a)) /\
      pr_entries_to_reverse p = _pre_cutover_live_entries company_id (pr_cutover p) (bk_db b)
  | Err e => e = OpeningDerivationError /\ forall k, ~ common_boundary b k
  end.
Proof.
  unfold propose_opening. set (us := omap usable_chain _).
  assert (forall a, usable b a -> us <> []) as Hus.
  { intros a Ha. assert ((a, (_latest_contiguous_run (_statement_chain (ba_id a) b), cands_of b a)) ∈ us)
      as Hin by (by apply usable_elem). by destruct us; [set_solver|]. }
  assert (us = omap usable_chain (map (stage_account b) (stable_sort account_le (bk_accounts b)))) as Hdef
    by reflexivity. clearbody us.
  destruct (stable_sort account_le (bk_accounts b)) as [|a0 accts] eqn:Es.
  { split; [done|]. intros k [[a Ha] _]. by apply (Hus a Ha). }
  rewrite <- Es in *. destruct us as [|u us'] eqn:Eu.
  { split; [done|]. intros k [[a Ha] _]. by apply (Hus a Ha). }
  rewrite <- Eu in Hdef |- *. pose proof (max_date_spec (common_dates (map (fun u => snd (snd u)) us))) as Hm.
  destruct (max_date _) as [cutover|].
  - destruct Hm as [Hin Hmax]. rewrite Hdef in Hin, Hmax. rewrite common_dates_boundary in Hin. destruct Hin as [Hex Hc].
    assert (forall l, (forall a, a ∈ l -> a ∈ bk_accounts b) -> exists rs,
      rmap (propose_account cutover) (map (stage_account b) l) = Ok rs /\
      forall a v, a ∈ l -> usable b a -> cand_get cutover (cands_of b a) = Some v ->
        exists q, inl q ∈ rs /\ ap_bank_account_id q = ba_id a /\ ap_opening_cents q = v) as H.
    { induction l as [|a l IH]; intros Hl; [exists []; split; [done|set_solver]|].
      destruct IH as (rs & Er & Hrs); [set_solver|].
      destruct (propose_account_Ok b a cutover) as (r & E1 & Hr); [set_solver|apply Hc|].
      exists (r :: rs). cbn. rewrite E1. cbn. rewrite Er. split; [done|].
      intros a' v [->|Ha']%elem_of_cons Hu Hv.
      - destruct (Hr v Hu Hv) as (p & -> & ? & ? & _). exists p. split; [set_solver|done].
      - destruct (Hrs a' v Ha' Hu Hv) as (q & ? & ? & ?). exists q. split; [set_solver|done]. }
    destruct (H (stable_sort account_le (bk_accounts b))) as (rs & -> & Hrs).
    { intros a. by rewrite stable_sort_perm. }
    cbn. split_and!; [by split| | |done].
    + intros k Hk. apply Hmax. by rewrite common_dates_boundary.
    + intros a Ha. destruct (cand_get cutover (cands_of b a)) as [v|] eqn:Ev; [|by destruct (Hc a Ha)].
      destruct (Hrs a v) as (q & ? & ? & ?); [rewrite stable_sort_perm; apply Ha|done..|].
      exists q. split_and!; [done..|congruence].
  - split; [done|]. intros k Hk. rewrite <- common_dates_boundary, <- Hdef, Hm in Hk. set_solver.
Qed.

(** * Applying is safe *)

Definition on_books (R : Db -> Db -> Prop) (b b' : Books) : Prop := R (bk_db b) (bk_db b').

#[export] Instance on_books_preorder R `{!PreOrder R} : PreOrder (on_books R).
Proof. split; [intros b; unfold on_books; reflexivity|]. intros a b c. unfold on_books. by etrans. Qed.

Lemma on_books_keeps {A} R (m : M Db A) : keeps R m -> keeps (on_books R) (on_db m).
Proof.
  intros H b. unfold on_db, on_books. specialize (H (bk_db b)). by destruct (m (bk_db b)).
Qed.

Lemma settings_frame f d : journal_frame d (set_gl (set_settings f) d).
Proof. split; try done. intros a Ha. by exists a. Qed.

Lemma rename_frame p name d :
  journal_frame d (set_gl (set_accounts (update_where p (rename_account name))) d).
Proof.
  split; try done. intros a Ha. exists (if p a then rename_account name a else a).
  split; [apply elem_of_update_where; by exists a|]. by destruct (p a).
Qed.

Lemma ensure_gl_settings_frame c : keeps journal_frame (ensure_gl_settings c).
Proof.
  assert (forall f, keeps journal_frame (write_settings c f)) as Hw
    by (intros f d; apply settings_frame).
  assert (keeps journal_frame (settings_row c)) as Hr
    by (intros d; unfold settings_row; case_match; simpl; reflexivity).
  unfold ensure_gl_settings. apply keeps_seq; [exact _|apply keeps_reads, _|intros found].
  apply keeps_seq; [exact _|destruct found; [apply keeps_return, _|intros d; apply settings_frame]|intros _].
  apply keeps_seq; [exact _|exact Hr|intros row].
  do 2 (apply keeps_seq; [exact _|apply Hw|intros _]).
  apply keeps_seq; [exact _|intros d; reflexivity|intros m].
  do 2 (apply keeps_seq; [exact _|apply Hw|intros _]).
  apply keeps_seq; [exact _|exact Hr|intros row'].
  do 2 (apply keeps_seq; [exact _|apply keeps_lift, _|intros _]). apply keeps_return, _.
Qed.

Lemma ensure_gl_seed_frame c : keeps journal_frame (ensure_gl_seed c).
Proof.
  apply keeps_seq; [exact _|apply keeps_frame_grow, seed_coa_grows|intros _; apply ensure_gl_settings_frame].
Qed.

Lemma named_account_frame c name code : keeps journal_frame (named_account c name code).
Proof.
  intros d. unfold named_account. destruct (List.find _ _); [cbn; reflexivity|].
  destruct (next_free_code _ _ _ _); [|cbn; reflexivity]. cbn.
  split; try done; cbn; [|lia]. intros a Ha. exists a. set_solver.
Qed.

(** What a relation must satisfy for every step of the application to keep it. *)
Section ApplyKeeps.
Context `{W : World} (R : Db -> Db -> Prop) `{!PreOrder R}.
Context (cutover : date).
Context (Hframe : forall d d', journal_frame d d' -> gl_settings (db_gl d') = gl_settings (db_gl d) -> R d d').
Context (Hpost : forall ev ov, ev_effective_at ev = cutover -> keeps R (post_for_event ev ov)).
Context (Hrev : forall u w cb ov, keeps R (reverse_entry u w cb ov)).

Lemma reverse_each_keeps actor l : keeps R (reverse_each actor l).
Proof using All. apply keeps_map; [exact _|]. intros e. apply Hrev. Qed.

Lemma named_account_settings c name code d :
  gl_settings (db_gl (snd (named_account c name code d))) = gl_settings (db_gl d).
Proof.
  unfold named_account. destruct (List.find _ _); [done|]. by destruct (next_free_code _ _ _ _).
Qed.

Lemma apply_account_keeps c actor operating acc ip :
  keeps (on_books R) (apply_account c actor cutover operating acc ip).
Proof using All.
  destruct acc as [[next_code postings] stale], ip as [idx p]. unfold apply_account.
  apply keeps_seq; [exact _|apply keeps_reads, _|intros [bank|]]; [|apply keeps_raise, _].
  apply keeps_seq; [exact _| |intros [gl code]].
  { destruct (ba_gl_account_id bank) as [g|].
    - apply keeps_seq; [exact _|apply on_books_keeps, keeps_reads, _|intros [a|]];
        [apply keeps_return, _|apply keeps_raise, _].
    - destruct idx.
      + apply keeps_seq; [exact _| |intros _; apply keeps_return, _].
        apply on_books_keeps. intros d. apply Hframe; [apply rename_frame|done].
      + apply keeps_seq; [exact _| |intros r; apply keeps_return, _].
        apply on_books_keeps. intros d. apply Hframe; [apply named_account_frame|apply named_account_settings]. }
  apply keeps_seq; [exact _|intros b; unfold on_books; cbn; reflexivity|intros _].
  apply keeps_seq; [exact _| |intros fresh].
  { destruct (ap_opening_cents p =? 0); [apply keeps_return, _|].
    apply keeps_seq; [exact _|apply on_books_keeps, Hpost; done|intros e; apply keeps_return, _]. }
  apply keeps_seq; [exact _|apply on_books_keeps, keeps_reads, _|intros l].
  apply keeps_seq; [exact _|apply on_books_keeps, reverse_each_keeps|intros _; apply keeps_return, _].
Qed.
End ApplyKeeps.

(** * No live entry is left before the cutover *)

Definition live_early (c : string) (k : date) (e : GlJournalEntry) : bool :=
  String.eqb (je_company_id e) c && bool_decide (je_status e = posted) &&
  is_none (je_reverses_entry_id e) && (je_effective_at e <? k).

(** Every live entry before [k] was there already. *)
Definition no_new_early (c : string) (k : date) (d d' : Db) : Prop :=
  forall e, e ∈ gl_entries (db_gl d') -> live_early c k e = true -> e ∈ gl_entries (db_gl d).

#[export] Instance no_new_early_preorder c k : PreOrder (no_new_early c k).
Proof. split; [by intros d e|]. intros d1 d2 d3 H1 H2 e He Hl. apply H1; [|done]. by apply H2. Qed.

Lemma no_new_early_frame c k d d' : journal_frame d d' -> no_new_early c k d d'.
Proof. intros Hf e He _. by rewrite <- (jf_entries _ _ Hf). Qed.

Section Early.
Context `{W : World} (c : string) (k : date).
Let allowed (w : date) (rv : option uuid) : Prop := k <= w \/ rv <> None.

Lemma insert_early c' w st si key rv cb res :
  allowed w rv -> keeps (no_new_early c k) (_insert_entry c' w st si key rv cb res).
Proof.
  intros Ha d. unfold _insert_entry. case_if; cbn; [|by intros e].
  intros e [He|He%list_elem_of_singleton]%elem_of_app Hl; [done|]. exfalso. subst e.
  unfold live_early in Hl. cbn in Hl. apply andb_true_iff in Hl as [Hl Hw%Z.ltb_lt].
  apply andb_true_iff in Hl as [_ Hr]. destruct Ha as [?|Hrv]; [lia|]. by destruct rv.
Qed.

Lemma mark_early p r :
  keeps (no_new_early c k) (mwrite (set_gl (set_entries (update_where p (mark_reversed r))))).
Proof.
  intros d e He Hl. cbn in He. apply elem_of_update_where in He as (x & Hx & ->).
  destruct (p x); [|done]. unfold live_early in Hl. cbn in Hl. by rewrite andb_false_r in Hl.
Qed.

Lemma post_early ev ov : k <= ev_effective_at ev -> keeps (no_new_early c k) (post_for_event ev ov).
Proof.
  intros Hw. apply (post_keeps_allowed _ allowed); [apply insert_early| | |apply mark_early|by left].
  - intros. apply check_lock_keeps; [exact _|]. by intros d f e.
  - intros d d' H. by apply no_new_early_frame, accounts_grow_frame.
Qed.

Lemma reverse_early u w cb ov : keeps (no_new_early c k) (reverse_entry u w cb ov).
Proof.
  apply (reverse_keeps_allowed _ allowed); [apply insert_early| | |apply mark_early|by right].
  - intros. apply check_lock_keeps; [exact _|]. by intros d f e.
  - intros d d' H. by apply no_new_early_frame, accounts_grow_frame.
Qed.
End Early.

Lemma opening_early `{W : World} c k i actor d :
  inv_company_id i = c -> _cutover_date c d = Some k ->
  no_new_early c k d (snd (post_opening_balance i actor d)).
Proof.
  intros Hi Hk. unfold post_opening_balance. unfold mseq at 1, mreads at 1. rewrite Hi, Hk.
  match goal with |- no_new_early _ _ _ (snd (?m d)) => assert (keeps (no_new_early c k) m) as H; [|apply H] end.
  case_if; [apply keeps_return, _|]. apply keeps_seq; [exact _|apply keeps_reads, _|intros w].
  case_if; [apply keeps_return, _|]. apply keeps_seq; [exact _|apply keeps_reads, _|intros [e|]]; [apply keeps_return, _|].
  apply keeps_seq; [exact _|intros d'; reflexivity|intros o]. cbv zeta.
  destruct (build_opening_lines i o); [apply keeps_return, _|].
  apply keeps_seq; [exact _|apply post_early; cbn; lia|intros e; apply keeps_return, _].
Qed.

Lemma cutover_same_settings c d d' : same_settings d d' -> _cutover_date c d' = _cutover_date c d.
Proof. intros E. unfold _cutover_date, get_gl_settings. by rewrite E. Qed.

Lemma same_settings_locks f d : same_settings d (set_gl (set_locks f) d).
Proof. done. Qed.

Lemma run_opening_early `{W : World} c k d :
  _cutover_date c d = Some k -> no_new_early c k d (snd (run_opening c d)).
Proof.
  intros Hk. unfold run_opening. unfold mseq at 1. unfold _require_cutover. rewrite Hk.
  unfold mseq at 1.
  assert (keeps (no_new_early c k) (ensure_cutover_lock c k) /\ keeps same_settings (ensure_cutover_lock c k)) as [Hl Hls].
  { split; unfold ensure_cutover_lock;
      (apply keeps_seq; [exact _|apply keeps_reads, _|intros l]; case_if; [apply keeps_return, _|];
       apply keeps_seq; [exact _|intros x; first [by intros e|done]|intros _; apply keeps_return, _]). }
  specialize (Hl d). specialize (Hls d). destruct (ensure_cutover_lock c k d) as [[b|e] d1]; cbn [snd] in *; [|done].
  etrans; [exact Hl|]. unfold mseq at 1, mreads at 1.
  assert (forall i, i ∈ _company_invoices c d1 -> inv_company_id i = c) as Hc.
  { intros i Hi. unfold _company_invoices in Hi. apply elem_of_filter_b in Hi as [_ Hi].
    apply andb_true_iff in Hi as [Hi _]. by apply String.eqb_eq. }
  assert (_cutover_date c d1 = Some k) as Hk1 by (by rewrite (cutover_same_settings c d d1)).
  generalize dependent (_company_invoices c d1). intros l Hc.
  match goal with |- no_new_early _ _ _ (snd (mfold _ ?r0 _ _)) => generalize r0 end.
  clear Hl Hls Hk. revert d1 Hk1. induction l as [|i l IH]; intros d1 Hk1 r; cbn [mfold]; [cbn; reflexivity|].
  unfold mseq at 1.
  assert (no_new_early c k d1 (snd (opening_step k r i d1))) as H1.
  { unfold opening_step. unfold mseq at 1, mreads at 1. repeat (case_if; [cbn; reflexivity|]).
    unfold mseq at 1. destruct (opening_balance_cents i k d1); [|cbn; reflexivity]. cbv zeta.
    case_if; [cbn; reflexivity|]. unfold mseq at 1.
    pose proof (opening_early c k i (Some ACTOR) d1 (Hc i (list_elem_of_here _ _)) Hk1) as H.
    destruct (post_opening_balance i (Some ACTOR) d1) as [[[e|]|e] d2]; exact H. }
  assert (same_settings d1 (snd (opening_step k r i d1))) as H2
    by (apply (opening_step_keeps same_settings)).
  destruct (opening_step k r i d1) as [[r'|e] d2]; cbn [snd] in *; [|done].
  etrans; [exact H1|]. apply IH; [intros; apply Hc; by apply list_elem_of_further|].
  by rewrite (cutover_same_settings c d1 d2).
Qed.

Section Clears.
Context `{WO : WorldOk}.

(** Reversing marks the entry. *)
Lemma reverse_marks o w cb d r d' :
  ledger_ok d -> o ∈ gl_entries (db_gl d) -> je_status o = posted ->
  reverse_entry (je_id o) w cb true d = (Ok r, d') -> mark_reversed (je_id r) o ∈ gl_entries (db_gl d').
Proof.
  intros Hok Ho Hs Hrev. pose proof (reverse_live d o w cb true Hok Ho Hs) as Hout. cbn zeta in Hout.
  rewrite andb_false_r in Hout. destruct Hout as (d2 & r' & d3 & Hrev' & Hpass & Hin).
  rewrite Hrev in Hrev'. injection Hrev' as <- ->.
  pose proof (lock_passed_frame _ _ _ _ _ _ _ Hpass) as Hf.
  apply (after_reversal_elem _ _ _ _ _ _ (ledger_ok_frame _ _ Hok Hf)
           ltac:(by rewrite (jf_entries _ _ Hf)) Hin). auto.
Qed.

(** An entry once reversed is never live again. *)
Lemma reversed_stays o d d' :
  append_only d d' -> ledger_ok d' -> o ∈ gl_entries (db_gl d) -> je_status o = reversed ->
  forall e, e ∈ gl_entries (db_gl d') -> je_id e = je_id o -> je_status e = reversed.
Proof.
  intros Hao Hok Ho Hs e He E. destruct (append_only_elem _ _ _ Hao Ho) as (y & Hy & Hk).
  assert (e = y) as -> by (apply (NoDup_map_inj je_id _ _ _ (lo_ids _ Hok)); [done..|]; by rewrite E, (entry_kept_id _ _ Hk)).
  destruct Hk as [->|[Hp _]]; [done|congruence].
Qed.

Lemma reverse_each_clears actor l d rs d' :
  ledger_ok d -> supply_ok d' -> (forall x, x ∈ l -> exists y, y ∈ gl_entries (db_gl d) /\ je_id y = je_id x) ->
  reverse_each actor l d = (Ok rs, d') ->
  forall e, e ∈ gl_entries (db_gl d') -> je_id e ∈ map je_id l -> je_status e = reversed.
Proof.
  revert d rs. induction l as [|x l IH]; intros d rs Hok Hs Hl H e He Hin; [set_solver|].
  unfold reverse_each in H. cbn [mmap] in H.
  apply mseq_Ok in H as (r & d1 & Hx & H). apply mseq_Ok in H as (rs' & d2 & Hrest & H).
  unfold mreturn in H. injection H as <- ->.
  pose proof (reverse_each_keeps (W := W) rely 0 (fun d d' H _ => journal_frame_rely d d' H)
    (fun ev ov _ => lr_post ev ov) lr_reverse actor l d1) as Hk.
  unfold reverse_each in Hk. rewrite Hrest in Hk. cbn [snd] in Hk.
  assert (supply_ok d1) as Hs1 by (pose proof (rely_uuid _ _ Hk); unfold supply_ok in *; lia).
  pose proof (lr_reverse (R := rely) (je_id x) None actor true d) as Hk1. rewrite Hx in Hk1. cbn [snd] in Hk1.
  destruct (rely_journal _ _ Hk1 Hs1 Hok) as [Hok1 Hao1]. destruct (rely_journal _ _ Hk Hs Hok1) as [Hok' Hao'].
  cbn [map] in Hin. apply elem_of_cons in Hin as [Hid|Hin].
  - destruct (Hl x (list_elem_of_here _ _)) as (y & Hy & Ey).
    destruct (je_status y) eqn:Es.
    + rewrite <- Ey in Hx. pose proof (reverse_marks y None actor d r d1 Hok Hy Es Hx) as Hm.
      apply (reversed_stays (mark_reversed (je_id r) y) d1 d' Hao' Hok' Hm eq_refl e He). cbn. congruence.
    + assert (append_only d d') as Hao by (by etrans).
      apply (reversed_stays y d d' Hao Hok' Hy Es e He). congruence.
  - apply (IH d1 rs' Hok1 Hs) with (e := e); [|exact Hrest|done|done].
    intros z Hz. destruct (Hl z (list_elem_of_further _ _ _ Hz)) as (y & Hy & Ey).
    destruct (append_only_elem _ _ _ Hao1 Hy) as (y' & Hy' & Hk'). exists y'.
    split; [done|]. by rewrite (entry_kept_id _ _ Hk').
Qed.
End Clears.

(** * The whole action *)

Lemma on_db_Ok {A} (m : M Db A) b a b' :
  on_db m b = (Ok a, b') ->
  m (bk_db b) = (Ok a, bk_db b') /\ bk_accounts b' = bk_accounts b /\ bk_imports b' = bk_imports b /\
  bk_attested b' = bk_attested b.
Proof. unfold on_db. destruct (m (bk_db b)) as [r d]. intros [= -> <-]. done. Qed.

Definition mapped (id_ : uuid) (b : Books) : Prop :=
  exists a, a ∈ bk_accounts b /\ ba_id a = id_ /\ ba_gl_account_id a <> None.

(** Bank accounts keep their mapping, and the attestations stay. *)
Definition keeps_mapped (b b' : Books) : Prop :=
  (forall id_, mapped id_ b -> mapped id_ b') /\ bk_attested b' = bk_attested b.

#[export] Instance keeps_mapped_preorder : PreOrder keeps_mapped.
Proof. split; [by split|]. intros a b c [A1 A2] [B1 B2]. split; [auto|congruence]. Qed.

Lemma on_db_mapped {A} (m : M Db A) : keeps keeps_mapped (on_db m).
Proof. intros b. unfold on_db. destruct (m (bk_db b)). split; [|done]. by intros id_ (a & ? & ? & ?); exists a. Qed.

Lemma set_gl_account_mapped id_ gl b : keeps_mapped b (set_gl_account id_ gl b).
Proof.
  split; [|done]. intros u (a & Ha & E & Hg). unfold set_gl_account, mapped. cbn.
  eexists. split; [apply elem_of_update_where; exists a; split; [exact Ha|reflexivity]|].
  by destruct (N.eqb (ba_id a) id_).
Qed.

Lemma apply_account_mapped `{W : World} c actor cutover op acc ip :
  keeps keeps_mapped (apply_account c actor cutover op acc ip).
Proof.
  destruct acc as [[next_code postings] stale], ip as [idx p]. unfold apply_account.
  apply keeps_seq; [exact _|apply keeps_reads, _|intros [bank|]]; [|apply keeps_raise, _].
  apply keeps_seq; [exact _| |intros [gl code]].
  { destruct (ba_gl_account_id bank) as [g|]; [|destruct idx];
      (apply keeps_seq; [exact _|apply on_db_mapped|]);
      [intros [a|]; [apply keeps_return, _|apply keeps_raise, _]|intros; apply keeps_return, _..]. }
  apply keeps_seq; [exact _|intros b; apply set_gl_account_mapped|intros _].
  apply keeps_seq; [exact _| |intros fresh].
  { case_if; [apply keeps_return, _|].
    apply keeps_seq; [exact _|apply on_db_mapped|intros e; apply keeps_return, _]. }
  apply keeps_seq; [exact _|apply on_db_mapped|intros l].
  apply keeps_seq; [exact _|apply on_db_mapped|intros _; apply keeps_return, _].
Qed.

(** An account that was applied is mapped. *)
Lemma apply_account_maps `{W : World} c actor cutover op acc ip b acc' b' :
  apply_account c actor cutover op acc ip b = (Ok acc', b') -> mapped (ap_bank_account_id (snd ip)) b'.
Proof.
  destruct acc as [[next_code postings] stale], ip as [idx p]. unfold apply_account. cbn [snd]. intros H.
  apply mseq_Ok in H as (ob & b0 & H0 & H). unfold mreads in H0. injection H0 as <- <-.
  destruct (List.find _ (bk_accounts b)) as [bank|] eqn:Ef; [|done].
  apply find_some_elem in Ef as [Hin Eid%N.eqb_eq].
  apply mseq_Ok in H as ([gl code] & b1 & H1 & H).
  match type of H1 with ?m b = _ => assert (bk_accounts b1 = bk_accounts b) as E1 end.
  { destruct (ba_gl_account_id bank) as [g|]; [|destruct idx];
      apply mseq_Ok in H1 as (x & b2 & H2 & H1); apply on_db_Ok in H2 as (_ & E & _).
    - destruct x; [|done]. by injection H1 as _ _ <-.
    - by injection H1 as _ _ <-.
    - by injection H1 as _ _ <-. }
  apply mseq_Ok in H as (u & b2 & H2 & H). unfold mwrite in H2. injection H2 as _ <-.
  assert (mapped (ap_bank_account_id p) (set_gl_account (ba_id bank) gl b1)) as Hm.
  { unfold mapped, set_gl_account. cbn. eexists. split; [apply elem_of_update_where; exists bank; split;
      [by rewrite E1|reflexivity]|]. by rewrite N.eqb_refl. }
  revert H. match goal with |- ?m _ = _ -> _ => assert (keeps keeps_mapped m) as Hk end.
  { apply keeps_seq; [exact _| |intros fresh].
    { case_if; [apply keeps_return, _|].
      apply keeps_seq; [exact _|apply on_db_mapped|intros e; apply keeps_return, _]. }
    apply keeps_seq; [exact _|apply on_db_mapped|intros l].
    apply keeps_seq; [exact _|apply on_db_mapped|intros _; apply keeps_return, _]. }
  intros H. specialize (Hk (set_gl_account (ba_id bank) gl b1)). rewrite H in Hk. by apply Hk.
Qed.

Lemma apply_all_maps `{W : World} c actor cutover op l acc b acc' b' :
  mfold (apply_account c actor cutover op) acc l b = (Ok acc', b') ->
  forall ip, ip ∈ l -> mapped (ap_bank_account_id (snd ip)) b'.
Proof.
  revert acc b. induction l as [|x l IH]; intros acc b H ip Hin; [set_solver|].
  cbn [mfold] in H. apply mseq_Ok in H as (acc1 & b1 & H1 & H).
  apply elem_of_cons in Hin as [->|Hin]; [|by eapply IH].
  pose proof (keeps_fold keeps_mapped (apply_account c actor cutover op) acc1 l
    (fun _ _ => apply_account_mapped c actor cutover op _ _) b1) as Hk.
  rewrite H in Hk. apply Hk. by eapply apply_account_maps.
Qed.

Lemma enumerate_elem {A} (l : list A) i x : x ∈ l -> exists n, (n, x) ∈ enumerate i l.
Proof.
  revert i. induction l as [|y l IH]; intros i Hx; [set_solver|]. cbn.
  apply elem_of_cons in Hx as [->|Hx]; [exists i; set_solver|].
  destruct (IH (S i) Hx) as [n Hn]. exists n. set_solver.
Qed.

Lemma set_cutover_read c k d :
  get_gl_settings c d <> None ->
  _cutover_date c (set_gl (set_settings (update_where (fun s => String.eqb (gs_company_id s) c) (set_cutover_month k))) d)
  = Some k.
Proof.
  unfold _cutover_date, get_gl_settings. cbn. unfold update_where.
  induction (gl_settings (db_gl d)) as [|s l IH]; intros H; cbn in *; [done|].
  destruct (String.eqb (gs_company_id s) c) eqn:E; cbn.
  - by rewrite E.
  - rewrite E. by apply IH.
Qed.

Lemma ensure_gl_seed_row c d row d' : ensure_gl_seed c d = (Ok row, d') -> get_gl_settings c d' <> None.
Proof.
  unfold ensure_gl_seed, ensure_gl_settings. intros H.
  do 9 (apply mseq_Ok in H as (? & ? & _ & H)). apply mseq_Ok in H as (row' & d1 & Hr & H).
  unfold settings_row in Hr. case_match eqn:E; [|done]. injection Hr as _ <-.
  do 2 (apply mseq_Ok in H as (? & ? & [= _ <-] & H)). injection H as _ <-. by rewrite E.
Qed.

Section Whole.
Context `{WO : WorldOk}.

Lemma apply_opening_rely c actor ec er : keeps (on_books rely) (apply_opening c actor ec er).
Proof.
  unfold apply_opening. apply keeps_seq; [exact _|intros b; reflexivity|intros p]. cbv zeta.
  case_if; [apply keeps_raise, _|]. case_if; [apply keeps_raise, _|].
  apply keeps_seq; [exact _|apply on_books_keeps, keeps_rely, ensure_gl_seed_frame|intros settings].
  case_if; [apply keeps_raise, _|].
  apply keeps_seq; [exact _|apply on_books_keeps, keeps_reads, _|intros pre].
  apply keeps_seq; [exact _|apply on_books_keeps, keeps_map; [exact _|intros e; apply lr_reverse]|intros _].
  apply keeps_seq; [exact _|apply on_books_keeps; intros d; apply journal_frame_rely, settings_frame|intros _].
  apply keeps_seq; [exact _|apply on_books_keeps; intros d; rewrite resolve_role_account_reads; reflexivity|intros op].
  apply keeps_seq; [exact _| |intros acc].
  { apply keeps_fold; [exact _|]. intros. apply apply_account_keeps; [exact _| |intros; apply lr_post|apply lr_reverse].
    intros d d' Hf _. by apply journal_frame_rely. }
  apply keeps_seq; [exact _|apply on_books_keeps, keeps_reads, _|intros locked].
  apply keeps_seq; [exact _| |intros _].
  { apply on_books_keeps. case_if; [apply keeps_return, _|]. intros d. apply rely_locks. }
  apply keeps_seq; [exact _| |intros _].
  { intros b. unfold on_books, mwrite, attest. cbn. destruct (bk_attested b !! c); cbn; reflexivity. }
  apply keeps_seq; [exact _|apply on_books_keeps, run_opening_keeps; [exact _|apply rely_locks]|intros; apply keeps_return, _].
Qed.

(** The opening action is safe: however it ends, a sound journal is
    sound afterwards, entries were only appended or reversed, and nothing is
    written at all when the evidence yields no proposal or when it is not the
    one the operator reviewed. *)
Theorem apply_opening_safe company_id actor expected_cutover expected_reversals b :
  (ledger_ok (bk_db b) ->
   supply_ok (bk_db (snd (apply_opening company_id actor expected_cutover expected_reversals b))) ->
   ledger_ok (bk_db (snd (apply_opening company_id actor expected_cutover expected_reversals b))) /\
   append_only (bk_db b) (bk_db (snd (apply_opening company_id actor expected_cutover expected_reversals b)))) /\
  match propose_opening company_id b with
  | Err e => apply_opening company_id actor expected_cutover expected_reversals b = (Err e, b)
  | Ok p =>
      (exists c, expected_cutover = Some c /\ c <> pr_cutover p) \/
      (exists n, expected_reversals = Some n /\ n <> Z.of_nat (length (pr_entries_to_reverse p))) ->
      apply_opening company_id actor expected_cutover expected_reversals b = (Err OpeningDerivationError, b)
  end.
Proof.
  split.
  - intros Hok Hs. pose proof (apply_opening_rely company_id actor expected_cutover expected_reversals b) as H.
    by apply (rely_journal _ _ H).
  - destruct (propose_opening company_id b) as [p|e] eqn:E.
    + intros H. unfold apply_opening. unfold mseq at 1. rewrite E.
      destruct H as [(c & -> & Hne)|(n & -> & Hne)].
      * by rewrite (proj2 (Z.eqb_neq _ _)) by congruence.
      * case_if; [done|]. by rewrite (proj2 (Z.eqb_neq _ _)) by congruence.
    + unfold apply_opening. unfold mseq at 1. by rewrite E.
Qed.
(** The states a successful run goes through. *)
Record opening_trace (c : string) (actor : option string) (p : Proposal) (r : Applied) (b b' : Books)
    (b1 b2 b3 b5 b6 : Books) : Prop := {
  ot_seed : exists st, ensure_gl_seed c (bk_db b) = (Ok st, bk_db b1);
  ot_reverse : exists rs, reverse_each actor (_pre_cutover_live_entries c (pr_cutover p) (bk_db b1)) (bk_db b1)
                 = (Ok rs, bk_db b2);
  ot_policy : bk_db b3 = set_gl (set_settings (update_where (fun s => String.eqb (gs_company_id s) c)
                 (set_cutover_month (pr_cutover p)))) (bk_db b2);
  ot_accounts : exists op acc, mfold (apply_account c actor (pr_cutover p) op) (1010, [], [])
                 (enumerate 0 (omap usable_of (pr_accounts p))) b3 = (Ok acc, b5);
  ot_lock : gl_entries (db_gl (bk_db b6)) = gl_entries (db_gl (bk_db b5)) /\
            journal_frame (bk_db b5) (bk_db b6) /\ same_settings (bk_db b5) (bk_db b6) /\
            bk_accounts b6 = bk_accounts b5 /\
            exists l, l ∈ gl_locks (db_gl (bk_db b6)) /\ lk_company_id l = c /\ lk_lock_date l = pr_cutover p - 1;
  ot_anchors : exists ph, run_opening c (bk_db (attest c actor b6)) = (Ok ph, bk_db b') /\
            bk_accounts b' = bk_accounts (attest c actor b6) /\ bk_attested b' = bk_attested (attest c actor b6);
  ot_result : apd_cutover r = pr_cutover p
}.

Lemma apply_opening_inv c actor ec er b r b' :
  apply_opening c actor ec er b = (Ok r, b') ->
  exists p b1 b2 b3 b5 b6, propose_opening c b = Ok p /\
    (forall x, ec = Some x -> x = pr_cutover p) /\
    (forall n, er = Some n -> n = Z.of_nat (length (pr_entries_to_reverse p))) /\
    opening_trace c actor p r b b' b1 b2 b3 b5 b6.
Proof.
  intros H. unfold apply_opening in H.
  apply mseq_Ok in H as (p & b0 & [= Hp <-] & H). cbv zeta in H.
  match type of H with (if ?x then _ else _) _ = _ => destruct x eqn:Hec; [done|] end.
  match type of H with (if ?x then _ else _) _ = _ => destruct x eqn:Her; [done|] end.
  apply mseq_Ok in H as (st & b1 & H1 & H). apply on_db_Ok in H1 as (H1 & _).
  match type of H with (if ?x then _ else _) _ = _ => destruct x; [done|] end.
  apply mseq_Ok in H as (pre & b1' & Hpre & H). unfold on_db, mreads in Hpre. injection Hpre as <- <-.
  apply mseq_Ok in H as (rs & b2 & H2 & H). apply on_db_Ok in H2 as (H2 & _).
  apply mseq_Ok in H as (u & b3 & H3 & H). apply on_db_Ok in H3 as (H3 & _).
  apply mseq_Ok in H as (op & b4 & H4 & H).
  assert (b4 = b3) as ->.
  { unfold on_db in H4. pose proof (resolve_role_account_reads c ROLE_OPERATING_BANK (bk_db b3)) as Hr.
    destruct (resolve_role_account c ROLE_OPERATING_BANK (bk_db b3)) as [x d]. cbn in Hr. subst d.
    injection H4 as _ <-. by destruct b3. }
  apply mseq_Ok in H as (acc & b5 & H5 & H).
  apply mseq_Ok in H as (locked & b5' & Hl & H). unfold on_db, mreads in Hl. injection Hl as Hl <-.
  apply mseq_Ok in H as (u' & b6 & H6 & H). apply on_db_Ok in H6 as (H6 & E6 & _).
  apply mseq_Ok in H as (u'' & b7 & [= _ <-] & H).
  apply mseq_Ok in H as (ph & b8 & H8 & H). apply on_db_Ok in H8 as (H8 & E8 & _ & E8').
  injection H as <- <-.
  exists p, b1, b2, b3, b5, b6. split; [done|]. split; [|split].
  { intros x ->. symmetry. apply Z.eqb_eq. by apply negb_false_iff. }
  { intros n ->. symmetry. apply Z.eqb_eq. by apply negb_false_iff. }
  cbn [bk_db bk_accounts bk_attested] in *.
  split; [by exists st|by exists rs|by injection H3 as _ <-|by exists op, acc| |by exists ph|done].
  destruct locked; injection H6 as _ <-.
  - split_and!; [done|reflexivity|done|done|].
    apply existsb_elem in Hl as (l & Hin & E%andb_true_iff). exists l.
    by rewrite <- String.eqb_eq, <- Z.eqb_eq.
  - split_and!; [done|apply locks_frame|done|done|].
    eexists. split; [cbn; apply elem_of_app; right; by apply list_elem_of_singleton|done].
Qed.

Lemma run_opening_locks c d l :
  l ∈ gl_locks (db_gl d) -> l ∈ gl_locks (db_gl (snd (run_opening c d))).
Proof.
  assert (forall A (m : M Db A), keeps (fun d d' => forall l, l ∈ gl_locks (db_gl d) -> l ∈ gl_locks (db_gl d')) m ->
    l ∈ gl_locks (db_gl d) -> l ∈ gl_locks (db_gl (snd (m d)))) as H by (intros A m Hk; apply Hk).
  apply H. clear H. set (R := fun d d' : Db => forall l, l ∈ gl_locks (db_gl d) -> l ∈ gl_locks (db_gl d')).
  assert (PreOrder R) as HP by (split; [by intros x y|]; intros x y z H1 H2 u Hu; auto).
  assert (LedgerRelation R) as HR.
  { apply (ledger_relation_intro R (fun _ _ => True)); [| | | |done].
    - intros c' w st si key rv cb res _ x. unfold _insert_entry, R. by case_if.
    - intros. apply check_lock_keeps; [exact _|]. by intros x f u.
    - intros x y Hg u Hu. destruct Hg as (_ & _ & _ & _ & E & _). by rewrite E.
    - by intros p r x u. }
  unfold run_opening. apply keeps_seq; [exact _|intros x; reflexivity|intros k].
  apply keeps_seq; [exact _| |intros b].
  { unfold ensure_cutover_lock. apply keeps_seq; [exact _|apply keeps_reads, _|intros o].
    case_if; [apply keeps_return, _|]. apply keeps_seq; [exact _|intros x u Hu; cbn; set_solver|intros; apply keeps_return, _]. }
  apply keeps_seq; [exact _|apply keeps_reads, _|intros i].
  apply keeps_fold; [exact _|]. intros. by apply opening_step_keeps.
Qed.

(** No live entry before the cutover survives. *)
Lemma trace_no_early c actor p r b b' b1 b2 b3 b5 b6 :
  ledger_ok (bk_db b) -> supply_ok (bk_db b') -> opening_trace c actor p r b b' b1 b2 b3 b5 b6 ->
  _cutover_date c (bk_db b3) = Some (pr_cutover p) ->
  _cutover_date c (bk_db b6) = Some (pr_cutover p) ->
  forall e, e ∈ gl_entries (db_gl (bk_db b')) -> live_early c (pr_cutover p) e = false.
Proof.
  intros Hok Hs [(st & H1) (rs & H2) H3 (op & acc & H5) (_ & Hf6 & _) (ph & H8 & _) _] Hk3 Hk6 e He.
  set (k := pr_cutover p) in *.
  assert (attest_db : bk_db (attest c actor b6) = bk_db b6)
    by (unfold attest; destruct (bk_attested b6 !! c); done).
  rewrite attest_db in H8.
  assert (keeps (on_books rely) (mfold (apply_account c actor k op) (1010, [], [])
     (enumerate 0 (omap usable_of (pr_accounts p))))) as Hr5.
  { apply keeps_fold; [exact _|]. intros. apply apply_account_keeps; [exact _| |intros; apply lr_post|apply lr_reverse].
    intros d d' Hf _. by apply journal_frame_rely. }
  specialize (Hr5 b3). rewrite H5 in Hr5. unfold on_books in Hr5. cbn [snd] in Hr5.
  pose proof (run_opening_keeps rely rely_locks c (bk_db b6)) as Hr8. rewrite H8 in Hr8. cbn [snd] in Hr8.
  assert (rely (bk_db b2) (bk_db b')) as Hr.
  { etrans; [apply journal_frame_rely, settings_frame|]. rewrite <- H3. etrans; [exact Hr5|].
    etrans; [apply journal_frame_rely, Hf6|exact Hr8]. }
  pose proof (ensure_gl_seed_frame c (bk_db b)) as Hf1. rewrite H1 in Hf1. cbn [snd] in Hf1.
  assert (ledger_ok (bk_db b1)) as Hok1 by (by eapply ledger_ok_frame).
  assert (supply_ok (bk_db b2)) as Hs2 by (pose proof (rely_uuid _ _ Hr); unfold supply_ok in *; lia).
  assert (no_new_early c k (bk_db b2) (bk_db b')) as Hn2.
  { etrans; [apply no_new_early_frame, settings_frame|]. rewrite <- H3.
    etrans; [|etrans; [apply no_new_early_frame, Hf6|]].
    - assert (keeps (on_books (no_new_early c k)) (mfold (apply_account c actor k op) (1010, [], [])
        (enumerate 0 (omap usable_of (pr_accounts p))))) as Hk.
      { apply keeps_fold; [exact _|]. intros. apply apply_account_keeps; [exact _| | |intros; apply reverse_early].
        - intros d d' Hf _. by apply no_new_early_frame.
        - intros ev ov E. apply post_early. lia. }
      specialize (Hk b3). rewrite H5 in Hk. exact Hk.
    - pose proof (run_opening_early c k (bk_db b6) Hk6) as Hk. rewrite H8 in Hk. exact Hk. }
  destruct (live_early c k e) eqn:El; [|done]. exfalso.
  assert (e ∈ gl_entries (db_gl (bk_db b2))) as He2 by (by apply Hn2).
  assert (e ∈ gl_entries (db_gl (bk_db b1))) as He1.
  { pose proof (reverse_each_keeps (no_new_early c k) k (fun d d' Hf _ => no_new_early_frame c k d d' Hf)
      (fun ev ov E => post_early c k ev ov ltac:(lia)) (reverse_early c k) actor
      (_pre_cutover_live_entries c k (bk_db b1)) (bk_db b1)) as Hk. rewrite H2 in Hk. by apply Hk. }
  assert (je_status e = reversed) as Hrev.
  { eapply (reverse_each_clears actor _ _ _ _ Hok1 Hs2); [|exact H2|exact He2|].
    - intros x [Hx _]%elem_of_filter_b. by exists x.
    - apply elem_of_map_b. exists e. split; [|done]. by apply elem_of_filter_b. }
  unfold live_early in El. rewrite Hrev in El. by rewrite andb_false_r in El.
Qed.

(** A successful opening opened the books: the cutover and the number of
    entries to reverse are those the operator reviewed, the cutover is the
    proposal's and is the one recorded in the settings, no live entry of the
    company is dated before it, the day before it is locked, every usable bank
    account is mapped to a GL account, and the opening is attested. *)
Theorem apply_opening_opens company_id actor expected_cutover expected_reversals b r b'
    (Hok : ledger_ok (bk_db b)) (Hs : supply_ok (bk_db b'))
    (Hrun : apply_opening company_id actor expected_cutover expected_reversals b = (Ok r, b')) :
  exists p, propose_opening company_id b = Ok p /\ apd_cutover r = pr_cutover p /\
    (forall c, expected_cutover = Some c -> c = pr_cutover p) /\
    (forall n, expected_reversals = Some n -> n = Z.of_nat (length (pr_entries_to_reverse p))) /\
    _cutover_date company_id (bk_db b') = Some (pr_cutover p) /\
    _pre_cutover_live_entries company_id (pr_cutover p) (bk_db b') = [] /\
    (exists l, l ∈ gl_locks (db_gl (bk_db b')) /\ lk_company_id l = company_id /\ lk_lock_date l = pr_cutover p - 1) /\
    (forall q, inl q ∈ pr_accounts p -> mapped (ap_bank_account_id q) b') /\
    bk_attested b' !! company_id <> None.
Proof.
  destruct (apply_opening_inv _ _ _ _ _ _ _ Hrun) as (p & b1 & b2 & b3 & b5 & b6 & Hp & Hec & Her & T).
  pose proof T as [(st & H1) (rs & H2) H3 (op & acc & H5) (_ & Hf6 & Hs6 & Ha6 & Hl6) (ph & H8 & E8 & E8') Hres].
  set (k := pr_cutover p) in *.
  assert (attest_db : bk_db (attest company_id actor b6) = bk_db b6)
    by (unfold attest; destruct (bk_attested b6 !! company_id); done).
  rewrite attest_db in H8.
  assert (same_settings (bk_db b1) (bk_db b2)) as Hs12.
  { pose proof (keeps_map same_settings (fun e => reverse_entry (je_id e) None actor true)
      (_pre_cutover_live_entries company_id k (bk_db b1)) (fun e => lr_reverse _ _ _ _) (bk_db b1)) as Hk.
    unfold reverse_each in H2. rewrite H2 in Hk. exact Hk. }
  assert (_cutover_date company_id (bk_db b3) = Some k) as Hk3.
  { rewrite H3. apply set_cutover_read. unfold get_gl_settings. rewrite Hs12.
    by apply (ensure_gl_seed_row company_id (bk_db b) st). }
  assert (same_settings (bk_db b3) (bk_db b5)) as Hs35.
  { assert (keeps (on_books same_settings) (mfold (apply_account company_id actor k op) (1010, [], [])
        (enumerate 0 (omap usable_of (pr_accounts p))))) as Hk.
    { apply keeps_fold; [exact _|]. intros. apply apply_account_keeps; [exact _|by intros|intros; apply lr_post|apply lr_reverse]. }
    specialize (Hk b3). rewrite H5 in Hk. exact Hk. }
  assert (_cutover_date company_id (bk_db b6) = Some k) as Hk6.
  { by rewrite (cutover_same_settings _ _ _ Hs6), (cutover_same_settings _ _ _ Hs35). }
  exists p. split_and!; [done|done|done|done| | | | |].
  - pose proof (run_opening_keeps same_settings same_settings_locks company_id (bk_db b6)) as Hk.
    rewrite H8 in Hk. cbn [snd] in Hk. by rewrite (cutover_same_settings _ _ _ Hk).
  - apply filter_none. intros e He. by apply (trace_no_early _ _ _ _ _ _ _ _ _ _ _ Hok Hs T Hk3 Hk6).
  - destruct Hl6 as (l & Hl & E). exists l. split; [|done].
    pose proof (run_opening_locks company_id (bk_db b6) l Hl) as Hk. by rewrite H8 in Hk.
  - intros q Hq. destruct (enumerate_elem (omap usable_of (pr_accounts p)) 0 q) as [i Hi].
    { apply list_elem_of_omap. by exists (inl q). }
    destruct (apply_all_maps _ _ _ _ _ _ _ _ _ H5 (i, q) Hi) as (a & Ha & E & Hg). exists a. split; [|done].
    rewrite E8. unfold attest. destruct (bk_attested b6 !! company_id); cbn; by rewrite Ha6.
  - rewrite E8'. unfold attest. destruct (bk_attested b6 !! company_id) eqn:E; [by rewrite E|].
    cbn. by rewrite lookup_insert_eq.
Qed.
End Whole.

(** * Finding a free account code terminates *)

Lemma next_free_code_spec fuel c code d k :
  next_free_code fuel c code d = Some k ->
  code <= k /\ code_taken c k d = false /\ forall j, code <= j < k -> code_taken c j d = true.
Proof.
  revert code. induction fuel as [|fuel IH]; intros code H; [done|]. cbn in H.
  destruct (code_taken c code d) eqn:E.
  - destruct (IH _ H) as (H1 & H2 & H3). split_and!; [lia|done|]. intros j Hj.
    destruct (decide (j = code)) as [->|]; [done|]. apply H3. lia.
  - injection H as <-. split_and!; [lia|done|lia].
Qed.

Lemma next_free_code_None fuel c code d :
  next_free_code fuel c code d = None -> forall j, code <= j < code + Z.of_nat fuel -> code_taken c j d = true.
Proof.
  revert code. induction fuel as [|fuel IH]; intros code H j Hj; [lia|]. cbn in H.
  destruct (code_taken c code d) eqn:E; [|done]. destruct (decide (j = code)) as [->|]; [done|].
  apply (IH _ H). lia.
Qed.

Lemma next_free_code_enough c code d :
  next_free_code (S (length (gl_accounts (db_gl d)))) c code d <> None.
Proof.
  intros H. pose proof (next_free_code_None _ _ _ _ H) as Ht. clear H.
  set (n := length (gl_accounts (db_gl d))) in *.
  set (cands := map (fun i => pretty (code + Z.of_nat i)) (List.seq 0 (S n))).
  assert (NoDup cands) as Hnd.
  { apply NoDup_fmap_2_strong; [|apply NoDup_ListNoDup, seq_NoDup]. intros i j _ _ E.
    apply (inj pretty) in E. lia. }
  assert (cands ⊆ map acc_code (gl_accounts (db_gl d))) as Hsub.
  { intros x (i & Hi & <-)%elem_of_map_b. apply list_elem_of_In, List.in_seq in Hi.
    specialize (Ht (code + Z.of_nat i) ltac:(lia)). apply existsb_elem in Ht as (a & Ha & E).
    apply andb_true_iff in E as [_ E%String.eqb_eq]. apply elem_of_map_b. by exists a. }
  pose proof (submseteq_length _ _ (NoDup_submseteq _ _ Hnd Hsub)) as Hlen.
  unfold cands in Hlen. rewrite !length_map, length_seq in Hlen. lia.
Qed.

(** The search for a free account code terminates: it never needs more
    steps than there are accounts plus one, and ends at the first code from
    its start that no account of the company carries; so naming the GL account
    of a further bank account always succeeds, with an existing account of
    that name or with a new asset account under that code. *)
Theorem named_account_total company_id name next_code d :
  (exists k, next_free_code (S (length (gl_accounts (db_gl d)))) company_id next_code d = Some k /\
     next_code <= k /\ code_taken company_id k d = false /\
     forall j, next_code <= j < k -> code_taken company_id j d = true) /\
  exists a code d', named_account company_id name next_code d = (Ok (a, code), d') /\
    acc_company_id a = company_id /\ acc_name a = name /\ a ∈ gl_accounts (db_gl d') /\
    (a ∈ gl_accounts (db_gl d) /\ d' = d \/
     acc_type a = asset /\ acc_code a = pretty code /\ code_taken company_id code d = false).
Proof.
  pose proof (next_free_code_enough company_id next_code d) as Hne.
  destruct (next_free_code _ company_id next_code d) as [k|] eqn:E; [|done].
  pose proof (next_free_code_spec _ _ _ _ _ E) as Hk.
  split; [by exists k|]. unfold named_account. rewrite E.
  destruct (List.find _ _) as [a|] eqn:Ef.
  - apply find_some_elem in Ef as [Ha Eq]. apply andb_true_iff in Eq as [E1%String.eqb_eq E2%String.eqb_eq].
    exists a, next_code, d. naive_solver.
  - eexists _, _, _. split; [reflexivity|]. cbn. split_and!; [done|done|set_solver|].
    right. by destruct Hk as (_ & ? & _).
Qed.

(** * On concrete archives *)

Definition toy_statement (u : uuid) (from to : date) (beginning ending : Z) : BankStatementImport :=
  mk_import u from to beginning ending TIE_OUT_PASSED None 0.

Definition toy_runs : list BankStatementImport :=
  [ toy_statement 7%N (ymd2ord 2026 6 1) (ymd2ord 2026 6 30) 900000 50000;
    toy_statement 7%N (ymd2ord 2026 7 1) (ymd2ord 2026 8 2) 100000 120000;
    toy_statement 7%N (ymd2ord 2026 8 3) (ymd2ord 2026 8 31) 120000 130050 ].

Definition toy_books : Books :=
  mk_books (mk_db (set_settings (fun _ => []) (db_gl lined_db)) (db_ops lined_db))
    [mk_bank 7%N "Main" "checking" "1234" None] toy_runs ∅.

Lemma boundary_candidates_exact_witness :
  cand_get (ymd2ord 2026 9 1) (_boundary_candidates (_latest_contiguous_run toy_runs)) = Some 130050.
Proof.
  apply (boundary_candidates_exact (_latest_contiguous_run toy_runs) (ymd2ord 2026 9 1) 130050).
  - vm_compute. repeat split.
  - split; [repeat constructor; vm_compute; discriminate|vm_compute; repeat split].
  - exists (toy_statement 7%N (ymd2ord 2026 8 3) (ymd2ord 2026 8 31) 120000 130050).
    split; [vm_compute; right; left; reflexivity|]. split; [vm_compute; reflexivity|].
    left. split; vm_compute; reflexivity.
Defined.

Lemma toy_books_ok : ledger_ok (bk_db toy_books).
Proof. apply ledger_ok_empty. split; vm_compute; reflexivity. Qed.

Definition toy_opened : Books :=
  snd (apply_opening (W := toy_world) "co" (Some "amy") (Some (ymd2ord 2026 9 1)) (Some 0) toy_books).

Lemma apply_opening_safe_witness : ledger_ok (bk_db toy_opened).
Proof.
  destruct (apply_opening_safe (WO := toy_world_ok) "co" (Some "amy") (Some (ymd2ord 2026 9 1)) (Some 0) toy_books)
    as [H _].
  apply H; [exact toy_books_ok|]. unfold supply_ok. vm_compute. discriminate.
Defined.

Lemma apply_opening_opens_witness :
  _cutover_date "co" (bk_db toy_opened) = Some (ymd2ord 2026 9 1) /\ mapped 7%N toy_opened.
Proof.
  destruct (apply_opening (W := toy_world) "co" (Some "amy") (Some (ymd2ord 2026 9 1)) (Some 0) toy_books)
    as [[r|e] b'] eqn:E; [|vm_compute in E; discriminate E].
  assert (b' = toy_opened) as -> by (unfold toy_opened; rewrite E; reflexivity).
  assert (supply_ok (bk_db toy_opened)) as Hs by (unfold supply_ok; vm_compute; discriminate).
  destruct (apply_opening_opens (WO := toy_world_ok) "co" (Some "amy") (Some (ymd2ord 2026 9 1)) (Some 0)
    toy_books r toy_opened toy_books_ok Hs E) as (p & Hp & _ & Hc & _ & Hk & _ & _ & Hm & _).
  rewrite (Hc _ eq_refl). split; [exact Hk|].
  destruct (propose_opening "co" toy_books) as [q|e] eqn:Eq; [|vm_compute in Eq; discriminate Eq].
  injection Hp as ->. vm_compute in Eq. injection Eq as <-.
  exact (Hm _ (list_elem_of_here _ _)).
Defined.

(** The link tolerates a statement that starts on the day the previous one
    ends.  Then an ending and a beginning can prove one boundary with
    different amounts: here August's end proves 100.00 for the first of
    September, and the statement that starts on that day proves 250.00. *)
Lemma same_day_proofs_disagree :
  let run := [ toy_statement 7%N (ymd2ord 2026 8 1) (ymd2ord 2026 8 31) 0 10000;
               toy_statement 7%N (ymd2ord 2026 9 1) (ymd2ord 2026 9 1) 10000 25000;
               toy_statement 7%N (ymd2ord 2026 9 1) (ymd2ord 2026 9 30) 25000 30000 ] in
  chained_run run /\ _latest_contiguous_run run = run /\
  exists i j, i ∈ run /\ j ∈ run /\ proves i (ymd2ord 2026 9 1) 10000 /\ proves j (ymd2ord 2026 9 1) 25000.
Proof.
  cbv zeta. split; [vm_compute; repeat split|]. split; [vm_compute; reflexivity|].
  exists (toy_statement 7%N (ymd2ord 2026 8 1) (ymd2ord 2026 8 31) 0 10000),
         (toy_statement 7%N (ymd2ord 2026 9 1) (ymd2ord 2026 9 30) 25000 30000).
  split_and!; [set_solver|set_solver|..].
  - split; [vm_compute; reflexivity|]. left. split; vm_compute; reflexivity.
  - split; [vm_compute; reflexivity|]. right. split; vm_compute; reflexivity.
Qed.
